(* ===== verification/_CoqProject ===== *)
-Q . S2P
Prelude.v
Encoding.v
GoText.v
GoTime.v
Json.v
JsonCodec.v
JsonPrefix.v
GoFloat.v
GoFloatText.v
FloatRatio.v
Metrics.v
Resp.v
ListValue.v
SkipList.v
ZSetValue.v
Eviction.v
Store.v
StoreSpec.v
Executor.v
ExecutorSpec.v
Engine.v
EngineSpec.v
EngineLog.v
Snapshot.v
SnapshotSpec.v
Metadata.v
MetadataSpec.v
SnapshotFile.v
Persistence.v
PersistenceSpec.v
Durability.v
Server.v
Listener.v
Node.v
Locality.v
Workload.v
WorkloadSpec.v
HookSpec.v
Cluster.v
ClusterSpec.v
Topology.v
ControlFSM.v
Planner.v
PlannerSpec.v
RebalanceSpec.v
Observer.v
ObserverSpec.v
ControlStatus.v
ControlExecutor.v
ControlExecutorSpec.v
AdminNode.v
AdminSpec.v
FenceFile.v
FenceSpec.v
Recovery.v
ControlFSMSpec.v
ControlJson.v
ControlJsonSpec.v
Membership.v
NodeClient.v
NodeClientSpec.v
Config.v
Boot.v
Api.v
ApiSpec.v
Monitor.v
MonitorSpec.v
RaftNode.v
Lifecycle.v
LifecycleSpec.v
AdminCtl.v
NodeMain.v
NodeMainSpec.v
ControlLoop.v
FailoverSpec.v
Dashboard.v
DashboardPages.v
DashboardSpec.v
StreamSpec.v
ConsoleSpec.v
