(* ===== verification/Prelude.v ===== *)
(** * MnemoKV: a verification library

    MnemoKV is an in-memory key/value store with a RESP2 server, hard memory
    limits with eviction, snapshots on disk, an HTTP interface, a fixed-slot
    cluster with one synchronous replica per slot, and a Raft-replicated
    controller that repairs and rebalances the cluster.  This library translates
    the Go code under [src/internal] and [src/cmd], and the part of the browser
    front end that talks to a node, into executable definitions and proves what
    makes it correct.

    ** Parts of the program and the files that model them

    - The language and its library.  [Prelude]: machine integers as [Z] with
      the wrap-around written out ([u32], [u64], [i64]), [sort.Slice] as the
      class [SliceSort] (any sorted permutation; merge sort is an instance),
      lists, tactics, hint databases.  [GoText]: [strconv] and [strings] as far
      as used.  [GoFloat], [GoFloatText], [FloatRatio]: binary64 values, their
      text, rounding, integers.  [GoTime]: the calendar and RFC 3339 texts.
      [Encoding]: hex, byte order, SHA-256 and HMAC.  [Json], [JsonCodec],
      [JsonPrefix]: [encoding/json], writing, reading, decoding into a value,
      texts that are cut off, sizes.
    - [internal/resp]: [Resp].  Frames, commands, the parser over a buffered
      reader, the writer, and the request writer and frame reader of
      [cluster/proxy.go].
    - [internal/engine]: [ListValue] (the linked list with its heap of nodes),
      [SkipList] and [ZSetValue] (nodes with forward and backward pointers, the
      drawn levels an argument), [Eviction] (the five policies), [Store] (the
      striped maps with exact accounting), [Executor] (every command handler),
      [Engine] (memory tracker, admission control, eviction passes, write
      hook), [Snapshot] (value codecs, taking and restoring).
    - [internal/snapshot] and [internal/persistence]: [SnapshotFile] (the model,
      its checksum, both file formats), [Persistence] (taking, loading, pruning
      and invalidating snapshots in a directory whose every operation may fail).
    - [internal/server]: [Server], the request loop of a connection; [Listener],
      accepting, the connection limit and shutdown as a step relation over the
      goroutines; [Node] puts the engine behind a connection.
    - [internal/metrics] and [internal/api]: [Metrics] (the in-memory sink),
      [Api] (the mux with its routes and every handler of a node that is not in
      a cluster, with its metrics and its snapshots).
    - [internal/cluster]: [Metadata] (slots, terms, sequences, installation of
      remote metadata, routing), [Cluster] (coordinator, replication hook,
      proxy, internal commands, repair, promotion), [Membership] (gossip).
    - [internal/controller]: [Topology] (views and classes of slots),
      [ControlFSM] (the replicated state), [ControlJson] (its log entries and
      snapshots as bytes), [Observer] (polling and quorum), [Planner] (failover
      and rebalance plans), [ControlExecutor] (carrying them out, returning
      nodes), [ControlLoop] (the loops that run these), [ControlStatus] (the
      report), [Monitor] (its JSON and the loop that announces it), [NodeClient]
      (the HTTP client), [RaftNode] (making and closing the Raft node, proposals),
      [Lifecycle] (the constructors, starting and stopping the controller).
    - [internal/controlplane] and the controller's part of [internal/api]:
      [AdminNode] (signatures, the fence, the administrative handlers),
      [FenceFile] (the file of the fence and the marker of the first start).
    - [internal/config], [internal/logging] and [cmd]: [Config] (defaults,
      fallbacks, validation), [Boot] (what a valid configuration gives to the
      components), [NodeMain] (the start and the stop of a node), [AdminCtl] (the
      command line client).
    - [frontend/src]: [Dashboard] (the types, checks and requests of [api]),
      [DashboardPages] (the event stream, the hooks that poll a node, the command
      console), as steps of a state machine.
    - [internal/workload]: [Workload] (the client, the random operations, the
      profiles, the workers).

    The files that end in [Spec], and [Node], [Locality], [HookSpec],
    [EngineLog], [Durability], [Boot] and [Recovery], hold properties.

    ** How the code is translated

    A Go type is a [Record] or an [Inductive] with the names of the source, a
    function is a [Definition] or [Fixpoint], a method takes its receiver as
    the last argument and returns the changed one.  Pointers that matter (list
    and skip list nodes) are addresses in a heap.  A run-time panic is [None]
    of the monads [M], [EM] and [X] of the store, the engine and the executor;
    an error is the right side of a sum.  An operation that holds a lock
    throughout is one step.  A call of the operating system is a step that may
    fail, and the directory after every step is kept, so that a crash is a choice
    of one of them.  This is a crash of the process: [Sync] and [Close] can fail
    but change nothing, and what a loss of power does to written data is not
    modelled.  What the code takes from outside is an argument or a class:
    the clock and random levels ([Env]), random numbers ([Rand]), the order in
    which Go visits a map ([MapRange], or an explicit permutation), the network
    ([Net], [HTTPTransport]), failures of the disk ([Faults]), [encoding/gob]
    ([Gob]), YAML ([ConfigFile]), tables of Unicode ([UnicodeCase]), Raft
    ([Proposer]), the nodes as the controller sees them ([AdminAPI],
    [ReturningAPI]), and for the Raft library the resources it opens ([RaftLib])
    and the log it applies ([RaftLog]: committed entries stay, in their order, and
    the entries of other proposers may come before and after one's own).  Goroutines interleave as events ([Lifecycle]) or as
    steps of a relation ([Listener]); a ticker is the list of its ticks.  [JSON],
    [AdminJSON], [Crypto], [PlanDigest] and [StateDigest] are what a component needs of JSON and hashing.

    ** What the theorems show

    - Storage.  [ListValue], [SkipList] and [ZSetValue] refine sequences and
      sorted maps; [StoreSpec] relates the striped store to a finite map, and
      [ExecutorSpec] proves that every command has the reply and the effect of
      the command semantics [spec_execute], errors included, and that a key
      whose deadline has passed is treated as missing, but by [DEL] and by an
      [EXPIRE] that deletes.
    - Memory.  [EngineSpec]: an admission plan bounds the growth of a command,
      eviction frees what is planned and spares the key being written, and the
      limit holds after every command of every run.
    - Wire.  [Resp]: requests and frames round trip; [Server]: pipelines are
      answered in order; [Listener]: connections stay within their limit and a
      shutdown drains them.
    - A node.  [ApiSpec], from [EngineLog]: no sequence of connections, HTTP
      requests to any path and event streams panics the node or breaks the limit,
      and each request has an answer, a command over
      HTTP does what it does on a connection, the reported state is the state.
      [WorkloadSpec]: a run of the workload generator sees values and
      out-of-memory errors only.
    - Snapshots.  [SnapshotSpec], [SnapshotFile]: a snapshot restores what was
      live, and its file reads back.  [Durability], from [PersistenceSpec]: no
      crash or failure leaves the directory worse than before, and a snapshot
      that was taken is what the next start loads.  [NodeMainSpec]: a node that
      is stopped and started keeps its data, the parts of a node are started in
      their order, and a node that returns to an automatic cluster serves no data
      before a signed request has admitted it.
    - Cluster.  [MetadataSpec]: assignment, well-formedness, fencing of old
      terms.  [ClusterSpec], from [Locality] (a command depends on its keys
      only) and [HookSpec]: over a link that loses no reply a replica stays
      equal to its leader, records survive the wire, only leaders write and other
      nodes forward or refuse.
      [Membership]: the gossip finds out who is there.
    - Control.  [PlannerSpec] and [RebalanceSpec]: plans are what the view calls
      for, the same on every controller, safe to carry out, and rebalancing
      ends.  [ObserverSpec]: a view has the backing of a majority.
      [ControlExecutorSpec]: an execution returns.  [AdminSpec]: a node takes
      topology changes in the order of their control index only; [FenceSpec]:
      also across crashes.  [NodeClientSpec]: what the controller asks for over
      HTTP is what the node does.  [ControlFSMSpec], [ControlJsonSpec]: a
      restored controller agrees with the others.  [ControlStatus]: the report
      names exactly the affected slots; [MonitorSpec]: each change of it is
      announced once.  [RaftNode]: a proposal is answered as the state machine
      answered it at its place in the log, whatever others propose.  [LifecycleSpec]: what the controller opens is closed, after its
      workers have returned.  [Recovery] puts planner, state machine, executor,
      fence and metadata together and proves that an outage is repaired;
      [FailoverSpec] proves it from the observer on: when the nodes of an outage do
      not answer, the loops see it, plan the failover and carry it out.  The nodes
      and the Raft log of these two are an idealised environment ([Recovery.Fleet]):
      the nodes share one copy of their metadata, and nobody else proposes.
      [AdminCtl]: the command line client asks for what its arguments say,
      and what it prints reads back as the answer of the node, as long as its
      counters are below 2^52.
    - Dashboard.  [ConsoleSpec]: a line of the console is the command that its
      words say, and what is shown is its reply.  [DashboardSpec], [StreamSpec]: the
      checks accept what the handlers send, so that the state of a running
      controller and the charts are those of the node.
    - Configuration.  [Boot]: a configuration that is accepted satisfies the
      assumptions of the theorems about the components.
    - Some theorems show that the code does not do what it should: those on the
      tail of an encoded list, keys that are not UTF-8, snapshots taken when the
      clock went back, the arguments of a request without a name, lost replies,
      the empty key, stale observations, repeated steps, large cluster states,
      connections accepted during a shutdown, the history of latencies, shutdowns
      that time out, goroutines that start late, large numbers in responses, the state
      of a controller that is starting and empty arguments in the console.

    ** Bounds and fuel

    Loops that are not structural have fuel, and the theorems say how much is
    enough: the request loop takes the length of the input plus one, the frame
    readers twice that, the JSON reader the length of the text, the eviction
    passes are bounded by [maxEvictionPasses] as in the source, skip list
    searches by the number of nodes, the polling loop of the executor
    [failureTimeout / 20ms + 2] rounds ([rounds]), rebalancing [(n*n+1)^2] rounds
    for [n] slots.  Integers are as wide as in the source wherever they can
    overflow; counters of the controller that count slots or steps are
    unbounded, since they are bounded by the length of a list.

    ** Not modelled

    The inside of the Raft library; deadlines of sockets and the connection pool
    of [net/http]; loss of power; listening, response headers and the shutdown of the HTTP
    server; flags and signals of [cmd], and [cmd/workload], which only reads flags
    and prints a result; the output of log lines; reuse of buffers, which no value
    depends on.  Of the browser front end rendering, timers and local storage, the
    tutorial, the form that writes a configuration as YAML and the chart of
    benchmark files. *)
From Stdlib Require Export ZArith Lia Ascii.
From Stdlib Require Import String.
From Corelib Require Export ssreflect.
From stdpp Require Export gmap strings list fin_maps sorting.
#[global] Open Scope general_if_scope.

Set Default Goal Selector "!".
Declare Scope mnemo_scope.
Delimit Scope mnemo_scope with mnemo.
Open Scope mnemo_scope.

(** ** Lists *)

Lemma existsb_none {A} (f : A -> bool) l x : existsb f l = false -> x ∈ l -> f x = false.
Proof.
  intros Hf Hx. destruct (f x) eqn:Hfx; [|done]. rewrite <- Hf. symmetry. apply existsb_exists. exists x. split; [|done].
  by apply list_elem_of_In.
Qed.

(** ** Machine integers

    Go's [uint32], [uint64] and [int64] are kept as [Z] with the wrap-around
    written out. *)
Definition u32 (z : Z) : Z := (z mod 4294967296)%Z.
Definition u64 (z : Z) : Z := (z mod 18446744073709551616)%Z.
Definition maxUint64 : Z := 18446744073709551615.
Definition maxInt64 : Z := 9223372036854775807.
Definition minInt64 : Z := (-9223372036854775808)%Z.
(** Two's complement reinterpretation of a 64-bit pattern. *)
Definition i64 (z : Z) : Z :=
  ((z + 9223372036854775808) mod 18446744073709551616 - 9223372036854775808)%Z.

(** [zlia]: linear arithmetic after unfolding the machine-width wrappers. *)
Ltac zlia :=
  unfold u32, u64, i64, maxUint64, maxInt64, minInt64 in *;
  Z.div_mod_to_equations; lia.

Create HintDb mnemo.
Create Rewrite HintDb mnemo_rw.

Section widths.
Local Open Scope Z_scope.

Lemma u64_range z : 0 <= u64 z < 18446744073709551616.
Proof. zlia. Qed.
Lemma u64_small z : 0 <= z < 18446744073709551616 -> u64 z = z.
Proof. zlia. Qed.
Lemma u64_idemp z : u64 (u64 z) = u64 z.
Proof. zlia. Qed.
Lemma u64_add_l a b : u64 (u64 a + b) = u64 (a + b).
Proof. unfold u64. by rw Zplus_mod_idemp_l. Qed.
Lemma u64_add_r a b : u64 (a + u64 b) = u64 (a + b).
Proof. unfold u64. by rw Zplus_mod_idemp_r. Qed.
Lemma u64_sub_r a b : u64 (a - u64 b) = u64 (a - b).
Proof. unfold u64. by rw Zminus_mod_idemp_r. Qed.
Lemma u64_sub_l a b : u64 (u64 a - b) = u64 (a - b).
Proof. unfold u64. by rw Zminus_mod_idemp_l. Qed.
Lemma u32_range z : 0 <= u32 z < 4294967296.
Proof. zlia. Qed.
Lemma i64_range z : minInt64 <= i64 z <= maxInt64.
Proof. zlia. Qed.
Lemma i64_small z : minInt64 <= z <= maxInt64 -> i64 z = z.
Proof. zlia. Qed.
End widths.

Lemma Zland_le_r a b : (0 <= a -> 0 <= b -> Z.land a b <= b)%Z.
Proof.
  intros Ha Hb. rw -(Z2N.id a) // -(Z2N.id b) // -N2Z.inj_land.
  pose proof (N.land_le_r (Z.to_N a) (Z.to_N b)). lia.
Qed.

#[export] Hint Resolve u64_range u32_range i64_range : mnemo.
#[export] Hint Rewrite u64_idemp u64_add_l u64_add_r u64_sub_l u64_sub_r : mnemo_rw.

(** ** Byte strings

    Go's [string] and [[]byte] are both Rocq [string]s: an [ascii] is one
    byte. *)
Definition slen (s : string) : Z := Z.of_nat (String.length s).

Fixpoint stake (n : nat) (s : string) : string :=
  match n, s with
  | S n, String c s => String c (stake n s)
  | _, _ => ""
  end.

Fixpoint sconcat (l : list string) : string :=
  match l with [] => "" | s :: l => s +:+ sconcat l end.
Fixpoint sdrop (n : nat) (s : string) : string :=
  match n, s with
  | S n, String _ s => sdrop n s
  | _, _ => s
  end.

Fixpoint smap (f : ascii -> ascii) (s : string) : string :=
  match s with
  | "" => ""
  | String c s => String (f c) (smap f s)
  end.

Fixpoint sall (p : ascii -> bool) (s : string) : bool :=
  match s with
  | "" => true
  | String c s => p c && sall p s
  end.

Definition byteZ (c : ascii) : Z := Z.of_N (N_of_ascii c).
Definition chr (z : Z) : ascii := ascii_of_N (Z.to_N z).
Definition sone (c : ascii) : string := String c "".

Definition CR : ascii := "013"%char.
Definition LF : ascii := "010"%char.
Definition CRLF : string := String CR (String LF "").

(** Byte-wise string order, the order of Go's [<] on strings. *)
Definition sltb (a b : string) : bool :=
  match String.compare a b with Lt => true | _ => false end.

Section strings.
Lemma app_nil_string s : s +:+ "" = s.
Proof. induction s as [|c s IH]; [done|]. by change (String c (s +:+ "") = String c s); rw IH. Qed.
Lemma app_string_cons c s t : String c s +:+ t = String c (s +:+ t).
Proof. done. Qed.
Lemma app_string_assoc a b c : (a +:+ b) +:+ c = a +:+ (b +:+ c).
Proof. induction a as [|x a IH]; [done|]. by rw !app_string_cons IH. Qed.
Lemma app_string_nil_l s : "" +:+ s = s.
Proof. done. Qed.
Lemma app_string_nil_r s : s +:+ "" = s.
Proof. induction s as [|x s IH]; [done|]. by rw app_string_cons IH. Qed.
Lemma length_app_string a b :
  String.length (a +:+ b) = (String.length a + String.length b)%nat.
Proof. induction a as [|x a IH]; [done|]. rw app_string_cons /=. by rw IH. Qed.
Lemma slen_app a b : slen (a +:+ b) = (slen a + slen b)%Z.
Proof. unfold slen. rw length_app_string. lia. Qed.
Lemma slen_nonneg s : (0 <= slen s)%Z.
Proof. unfold slen. lia. Qed.
Lemma slen_cons c s : slen (String c s) = (1 + slen s)%Z.
Proof. unfold slen. simpl. lia. Qed.
Lemma slen_nil_inv s : slen s = 0%Z -> s = "".
Proof. destruct s; [done|]. rw slen_cons. pose proof (slen_nonneg s). lia. Qed.

Lemma stake_app a b : stake (String.length a) (a +:+ b) = a.
Proof. induction a as [|x a IH]; [by destruct b|]. rw app_string_cons /=. by rw IH. Qed.
Lemma sdrop_app a b : sdrop (String.length a) (a +:+ b) = b.
Proof. induction a as [|x a IH]; [done|]. by rw app_string_cons /=. Qed.
Lemma stake_sdrop n s : stake n s +:+ sdrop n s = s.
Proof.
  revert s; induction n as [|n IH]; intros [|c s]; try done.
  simpl. by rw app_string_cons IH.
Qed.
Lemma length_stake n s : String.length (stake n s) = Nat.min n (String.length s).
Proof. revert s; induction n as [|n IH]; intros [|c s]; simpl; auto. Qed.
Lemma stake_all n s : (String.length s <= n)%nat -> stake n s = s.
Proof. revert n; induction s as [|x s IH]; intros [|n] Hn; simpl in *; try done; [lia|]. rw IH; [lia|done]. Qed.
Lemma length_sdrop n s : String.length (sdrop n s) = (String.length s - n)%nat.
Proof. revert s; induction n as [|n IH]; intros [|c s]; simpl; auto. Qed.
Lemma length_smap f s : String.length (smap f s) = String.length s.
Proof. induction s; simpl; auto. Qed.
Lemma sall_app p a b : sall p (a +:+ b) = sall p a && sall p b.
Proof. induction a as [|x a IH]; [done|]. rw app_string_cons /= IH. by rw andb_assoc. Qed.

Lemma stake_stake n k s : stake n (stake k s) = stake (Nat.min n k) s.
Proof. revert n k; induction s as [|x s IH]; intros [|n] [|k]; simpl; try done. by rw IH. Qed.
Lemma sdrop_stake n k s : sdrop n (stake k s) = stake (k - n) (sdrop n s).
Proof. revert n k; induction s as [|x s IH]; intros [|n] [|k]; simpl; try done; by destruct (k - n)%nat. Qed.
Lemma byteZ_range c : (0 <= byteZ c < 256)%Z.
Proof. unfold byteZ. pose proof (N_ascii_bounded c). lia. Qed.
Lemma chr_byteZ c : chr (byteZ c) = c.
Proof. unfold chr, byteZ. by rw N2Z.id ascii_N_embedding. Qed.
Lemma byteZ_chr z : (0 <= z < 256)%Z -> byteZ (chr z) = z.
Proof. intros. unfold chr, byteZ. rw N_ascii_embedding; lia. Qed.
Lemma byteZ_inj a b : byteZ a = byteZ b -> a = b.
Proof. intros H. by rw -(chr_byteZ a) H chr_byteZ. Qed.
End strings.

#[export] Hint Resolve slen_nonneg byteZ_range : mnemo.

(** A [less] function that [sort] accepts: a strict weak order. *)
Record strict_weak {A} (less : A -> A -> bool) : Prop := {
  sw_asym : forall x y, less x y = true -> less y x = false;
  sw_neg_trans : forall x y z, less y x = false -> less z y = false -> less z x = false
}.

Section string_order.
Lemma sltb_le a b : sltb a b = true <-> ~ String.le b a.
Proof.
  unfold sltb, String.le, String.leb. rw (String.compare_antisym b a).
  destruct (String.compare a b); simpl; unfold Is_true; naive_solver.
Qed.
Lemma sltb_irrefl a : sltb a a = false.
Proof. apply not_true_is_false. rw sltb_le. intros H. by apply H. Qed.
Lemma sltb_trans a b c : sltb a b = true -> sltb b c = true -> sltb a c = true.
Proof.
  rw !sltb_le. intros H1 H2 H3. destruct (total String.le b c) as [H|H]; [|done].
  apply H1. by trans c.
Qed.
Lemma sltb_total a b : sltb a b = false -> sltb b a = false -> a = b.
Proof.
  rw -!not_true_iff_false !sltb_le. intros H1 H2.
  apply (anti_symm String.le); by apply dec_stable.
Qed.
Lemma sltb_weak : strict_weak sltb.
Proof.
  split.
  - intros x y Hxy. destruct (sltb y x) eqn:Hyx; [|done]. pose proof (sltb_trans _ _ _ Hxy Hyx) as Hx. by rw sltb_irrefl in Hx.
  - intros x y z H1 H2. destruct (sltb z x) eqn:Hzx; [|done]. destruct (sltb y z) eqn:Hyz.
    + by rw (sltb_trans _ _ _ Hyz Hzx) in H1.
    + assert (y = z) as -> by by apply sltb_total. by rw Hzx in H1.
Qed.

End string_order.

(** ** Sorting

    [sort.Slice] is not stable: the documentation promises a permutation of
    the input that is ordered by [less], and nothing about equal elements.
    The development is stated against that contract. *)
Class SliceSort := slice_sort : forall {A : Type}, (A -> A -> bool) -> list A -> list A.

(** [y] is not below [x]: the reflexive order of a [less] function. *)
Definition not_less {A} (less : A -> A -> bool) (x y : A) : Prop := less y x = false.
#[export] Instance not_less_dec {A} (less : A -> A -> bool) : RelDecision (not_less less).
Proof. intros x y. unfold not_less. apply _. Defined.

Class SliceSortOk `{SliceSort} : Prop := {
  slice_sort_perm : forall A (less : A -> A -> bool) l, slice_sort less l ≡ₚ l;
  slice_sort_sorted : forall A (less : A -> A -> bool) l,
    strict_weak less -> StronglySorted (not_less less) (slice_sort less l)
}.

#[export] Instance merge_slice_sort : SliceSort :=
  fun A less l => merge_sort (not_less less) l.

#[export] Instance merge_slice_sort_ok : SliceSortOk.
Proof.
  split.
  - intros A less l. apply merge_sort_Permutation.
  - intros A less l [Hasym Htr]. apply StronglySorted_merge_sort.
    + intros x y z H1 H2. unfold not_less in *. eauto.
    + intros x y. unfold not_less. destruct (less y x) eqn:E; [|by left]. right. eauto.
Qed.

Section sort_lemmas.
Context `{SliceSortOk}.

Lemma slice_sort_elem A (less : A -> A -> bool) l x :
  x ∈ slice_sort less l <-> x ∈ l.
Proof. by rw (slice_sort_perm A less l). Qed.
Lemma slice_sort_length A (less : A -> A -> bool) l :
  length (slice_sort less l) = length l.
Proof. by rw (slice_sort_perm A less l). Qed.

(** A strict weak order on keys lifts to the elements. *)
Lemma strict_weak_on {A B} (f : A -> B) (less : B -> B -> bool) :
  strict_weak less -> strict_weak (fun x y => less (f x) (f y)).
Proof. intros [? ?]. split; eauto. Qed.
Lemma strict_weak_Zltb : strict_weak Z.ltb.
Proof. split; intros *; lia. Qed.
End sort_lemmas.

(** Sorting distinct keys is the same for every implementation of the sort. *)
Lemma slice_sort_agree (S1 S2 : SliceSort) (O1 : SliceSortOk (H := S1)) (O2 : SliceSortOk (H := S2)) A (less : A -> A -> bool) l1 l2 :
  strict_weak less -> (forall x y, x ∈ l1 -> y ∈ l1 -> less x y = false -> less y x = false -> x = y) ->
  l1 ≡ₚ l2 -> slice_sort (SliceSort := S1) less l1 = slice_sort (SliceSort := S2) less l2.
Proof.
  intros Hw Hu Hp. apply (StronglySorted_unique_strong (not_less less)); [|by apply slice_sort_sorted..|].
  - intros x y Hx Hy H1 H2. apply slice_sort_elem in Hx, Hy. apply Hu; [done|by rw Hp|done..].
  - by rw !slice_sort_perm.
Qed.

(** Nor does it depend on the order of the input. *)
Lemma slice_sort_unique `{SliceSortOk} A (less : A -> A -> bool) l1 l2 :
  strict_weak less -> (forall x y, x ∈ l1 -> y ∈ l1 -> less x y = false -> less y x = false -> x = y) ->
  l1 ≡ₚ l2 -> slice_sort less l1 = slice_sort less l2.
Proof. by apply slice_sort_agree. Qed.

(** ** Linked structures

    [chain next x ls]: following [next] from the pointer [x] visits exactly
    the locations [ls] and then reaches the nil pointer. *)
Fixpoint chain (next : nat -> option nat) (x : option nat) (ls : list nat) : Prop :=
  match ls with
  | [] => x = None
  | p :: ls' => x = Some p /\ chain next (next p) ls'
  end.

Section chain.
Implicit Types (next : nat -> option nat) (ls : list nat).

Lemma chain_ext next next' x ls :
  (forall p, p ∈ ls -> next' p = next p) -> chain next x ls -> chain next' x ls.
Proof.
  revert x; induction ls as [|p ls IH]; intros x Hext; [done|].
  intros [-> Hc]. split; [done|].
  rw Hext; [set_solver|]. apply IH; [|done]. set_solver.
Qed.

Lemma chain_head next x ls : chain next x ls -> x = head ls.
Proof. destruct ls; [done|]. by intros [-> _]. Qed.

Lemma chain_fun next x ls ls' : chain next x ls -> chain next x ls' -> ls = ls'.
Proof.
  revert x ls'; induction ls as [|p ls IH]; intros x [|p' ls']; simpl.
  - done.
  - by intros -> [? _].
  - by intros [-> _] ?.
  - intros [-> H1] [[= <-] H2]. f_equal. eauto.
Qed.

(** Splitting a chain at one of its nodes. *)
Lemma chain_split next x l1 p l2 :
  chain next x (l1 ++ p :: l2) <->
  x = head (l1 ++ [p]) /\ chain next (next p) l2 /\
  (forall q q' l l', l1 ++ [p] = l ++ q :: q' :: l' -> next q = Some q').
Proof.
  revert x; induction l1 as [|a l1 IH]; intros x; simpl.
  - split.
    + intros [-> H]. split_and!; [done..|]. intros q q' [|? [|]] l' [=].
    + intros (-> & H & _). done.
  - rw IH. split.
    + intros (-> & H1 & H2 & H3). split_and!; [done..|].
      intros q q' [|b l] l' [= -> Heq].
      * rw H1. destruct l1; simpl in *; by simplify_eq.
      * by eapply H3.
    + intros (-> & H1 & H2). split_and!; try done.
      * destruct l1 as [|b l1]; simpl; eapply (H2 _ _ []); done.
      * intros q q' l l' Heq. eapply (H2 q q' (a :: l) l'). by rw Heq.
Qed.
End chain.

(** A doubly linked chain: forward from [hd], backward from [tl]. *)
Definition dchain (nf pf : nat -> option nat) (hd tl : option nat) (ls : list nat) : Prop :=
  chain nf hd ls /\ chain pf tl (reverse ls).

Section dchain.
Implicit Types (nf pf : nat -> option nat) (ls : list nat).

Lemma dchain_sym nf pf hd tl ls :
  dchain nf pf hd tl ls <-> dchain pf nf tl hd (reverse ls).
Proof. unfold dchain. rw reverse_involutive. tauto. Qed.

(** The last node of a chain points to nil. *)
Lemma chain_last nf x ls p : chain nf x (ls ++ [p]) -> nf p = None.
Proof. rw chain_split. by intros (_ & ? & _). Qed.

Lemma chain_snoc nf nf' x ls h f :
  chain nf x (ls ++ [h]) -> (forall p, p ∈ ls -> nf' p = nf p) ->
  nf' h = Some f -> nf' f = None -> chain nf' x (ls ++ [h; f]).
Proof.
  revert x; induction ls as [|p ls IH]; intros x Hc Hext Hh Hf; simpl in *.
  - destruct Hc as [-> _]. by rw Hh Hf.
  - destruct Hc as [-> Hc]. split; [done|]. rw Hext; [set_solver|].
    apply IH; set_solver.
Qed.

Lemma chain_unsnoc nf nf' x ls h f :
  chain nf x (ls ++ [h; f]) -> (forall p, p ∈ ls -> nf' p = nf p) ->
  nf' h = None -> chain nf' x (ls ++ [h]).
Proof.
  revert x; induction ls as [|p ls IH]; intros x Hc Hext Hh; simpl in *.
  - destruct Hc as [-> _]. by rw Hh.
  - destruct Hc as [-> Hc]. split; [done|]. rw Hext; [set_solver|].
    apply IH; set_solver.
Qed.

(** Linking a new node in front of the list. *)
Lemma dchain_push_front nf pf nf' pf' hd tl ls f :
  dchain nf pf hd tl ls -> NoDup (f :: ls) ->
  nf' f = hd -> (forall p, p ∈ ls -> nf' p = nf p) ->
  pf' f = None -> (forall h, hd = Some h -> pf' h = Some f) ->
  (forall p, p ∈ ls -> hd <> Some p -> pf' p = pf p) ->
  dchain nf' pf' (Some f) (if hd is Some _ then tl else Some f) (f :: ls).
Proof.
  intros [Hn Hp] Hnd Hf Hnf Hpf Hhd Hpf'. split.
  - split; [done|]. rw Hf. by eapply chain_ext.
  - rw reverse_cons. pose proof (chain_head _ _ _ Hn) as Hh. destruct ls as [|h ls].
    + rw Hh. simpl. by rw Hpf.
    + simpl in Hh. rw Hh. rw reverse_cons in Hp. rw reverse_cons -app_assoc /=.
      eapply (chain_snoc pf); [done| |by apply Hhd|done].
      intros p. rw elem_of_reverse. intros Hin. apply Hpf'; [set_solver|].
      rw Hh. intros [= ->]. apply NoDup_cons in Hnd as [_ Hnd].
      by apply NoDup_cons in Hnd as [? _].
Qed.

(** Unlinking the first node. *)
Lemma dchain_pop_front nf pf nf' pf' tl ls p :
  dchain nf pf (Some p) tl (p :: ls) -> NoDup (p :: ls) ->
  (forall q, q ∈ ls -> nf' q = nf q) ->
  (forall h, nf p = Some h -> pf' h = None) ->
  (forall q, q ∈ ls -> nf p <> Some q -> pf' q = pf q) ->
  dchain nf' pf' (nf p) (if nf p is Some _ then tl else None) ls.
Proof.
  intros [[_ Hn] Hp] Hnd Hnf Hhd Hpf'. split; [by eapply chain_ext|].
  pose proof (chain_head _ _ _ Hn) as Hh. destruct ls as [|h ls]; simpl in Hh; rw Hh; [done|].
  rw !reverse_cons -app_assoc in Hp. rw reverse_cons.
  eapply (chain_unsnoc pf); [exact Hp| |by apply Hhd].
  intros q. rw elem_of_reverse. intros Hin. apply Hpf'; [set_solver|].
  rw Hh. intros [= ->]. apply NoDup_cons in Hnd as [_ Hnd].
  by apply NoDup_cons in Hnd as [? _].
Qed.
End dchain.

(** Chains behind a fixed header [h], as the skip list has one per level. *)
Section headed_chain.
Implicit Types (next : nat -> option nat) (a b ls : list nat).

(** The last node of [h :: a]. *)
Definition last_from (h : nat) a : nat := default h (last a).

Lemma last_from_cons h x a : last_from h (x :: a) = last_from x a.
Proof. unfold last_from. rw last_cons. by destruct (last a). Qed.

Lemma last_from_elem h a : last_from h a ∈ h :: a.
Proof.
  revert h; induction a as [|x a IH]; intros h; [set_solver|].
  rw last_from_cons. specialize (IH x). set_solver.
Qed.

Lemma last_from_suffix h a b x c : h :: a = c ++ x :: b -> last_from h a = last_from x b.
Proof.
  revert h a; induction c as [|y c IH]; intros h a [= -> Heq]; [by simplify_eq|].
  destruct a as [|z a]; [by destruct c|]. rw last_from_cons. by apply IH.
Qed.

Lemma chain_suffix next h a b x c :
  chain next (next h) a -> h :: a = c ++ x :: b -> chain next (next x) b.
Proof.
  revert h a; induction c as [|y c IH]; intros h a Hc [= -> Heq]; [by simplify_eq|].
  destruct a as [|z a]; [by destruct c|]. destruct Hc as [Hz Hc]. by eapply IH.
Qed.

Lemma chain_after next h a b :
  chain next (next h) (a ++ b) -> chain next (next (last_from h a)) b.
Proof.
  revert h; induction a as [|x a IH]; intros h; [done|].
  intros [_ Hc]. rw last_from_cons. by apply IH.
Qed.

Lemma chain_insert next next' h a b f :
  chain next (next h) (a ++ b) -> NoDup (h :: a ++ b) ->
  next' f = next (last_from h a) -> next' (last_from h a) = Some f ->
  (forall p, p ∈ h :: a ++ b -> p <> last_from h a -> next' p = next p) ->
  chain next' (next' h) (a ++ f :: b).
Proof.
  revert h; induction a as [|x a IH]; intros h Hc Hnd Hf Hu Hext.
  - simpl in *. unfold last_from in *; simpl in *. split; [done|]. rw Hf.
    apply NoDup_cons in Hnd as [Hh _]. eapply chain_ext; [|done]. set_solver.
  - rw last_from_cons in Hf Hu Hext. destruct Hc as [Hx Hc].
    apply NoDup_cons in Hnd as [Hh Hnd]. pose proof (last_from_elem x a).
    simpl. rw Hext; [set_solver..|]. split; [done|]. apply IH; set_solver.
Qed.

Lemma chain_delete next next' h a y b :
  chain next (next h) (a ++ y :: b) -> NoDup (h :: a ++ y :: b) ->
  next' (last_from h a) = next y ->
  (forall p, p ∈ h :: a ++ b -> p <> last_from h a -> next' p = next p) ->
  chain next' (next' h) (a ++ b).
Proof.
  revert h; induction a as [|x a IH]; intros h Hc Hnd Hu Hext.
  - unfold last_from in *; simpl in *. destruct Hc as [_ Hc]. rw Hu.
    apply NoDup_cons in Hnd as [Hh _]. eapply chain_ext; [|done]. set_solver.
  - rw last_from_cons in Hu Hext. destruct Hc as [Hx Hc].
    apply NoDup_cons in Hnd as [Hh Hnd]. pose proof (last_from_elem x a).
    simpl. rw Hext; [set_solver..|]. split; [done|]. apply IH; set_solver.
Qed.

(** Back pointers: each node points to its predecessor, the first one to
    [prev]. *)
Fixpoint back (bw : nat -> option nat) (prev : option nat) (ls : list nat) : Prop :=
  match ls with
  | [] => True
  | p :: ls' => bw p = prev /\ back bw (Some p) ls'
  end.

Lemma back_app bw prev a b :
  back bw prev (a ++ b) <-> back bw prev a /\ back bw (if last a is Some p then Some p else prev) b.
Proof.
  revert prev; induction a as [|x a IH]; intros prev; [simpl; tauto|].
  simpl app. simpl back. rw IH last_cons. destruct (last a); tauto.
Qed.

Lemma back_ext bw bw' prev ls :
  (forall p, p ∈ ls -> bw' p = bw p) -> back bw prev ls -> back bw' prev ls.
Proof.
  revert prev; induction ls as [|p ls IH]; intros prev Hext; [done|].
  intros [<- Hb]. split; [set_solver|]. apply IH; [set_solver|done].
Qed.
End headed_chain.

Lemma NoDup_fmap_filter_key {A B} (f : A -> B) (P : A -> Prop) `{forall x, Decision (P x)} (l : list A) :
  NoDup (f <$> l) -> NoDup (f <$> filter P l).
Proof.
  induction l as [|x l IH]; [done|]. simpl. intros [Hx Hnd]%NoDup_cons. rw filter_cons.
  destruct (decide (P x)); [|by apply IH]. simpl. constructor; [|by apply IH].
  rw list_elem_of_fmap. intros (y & Heq & Hy). apply list_elem_of_filter in Hy as [_ Hy].
  apply Hx. rw Heq. by apply list_elem_of_fmap_2.
Qed.

(** ** Sums over maps *)

Definition msum {A} (f : string -> A -> Z) (m : gmap string A) : Z :=
  map_fold (fun k a z => f k a + z)%Z 0%Z m.

Section msum.
Context {A : Type} (f : string -> A -> Z).
Implicit Types (m : gmap string A).
Local Open Scope Z_scope.

Lemma msum_empty : msum f ∅ = 0.
Proof. apply map_fold_empty. Qed.

Lemma msum_insert_fresh m k a : m !! k = None -> msum f (<[k := a]> m) = f k a + msum f m.
Proof. intros Hk. unfold msum. rw map_fold_insert_L //. intros. lia. Qed.

Lemma msum_delete m k a : m !! k = Some a -> msum f m = f k a + msum f (delete k m).
Proof. intros Hk. unfold msum. rw {1}(map_fold_delete_L _ _ k a m) //. intros. lia. Qed.

Lemma msum_delete' m k :
  msum f (delete k m) = msum f m - (if m !! k is Some b then f k b else 0).
Proof.
  destruct (m !! k) as [b|] eqn:Hk; [rw (msum_delete _ _ _ Hk); lia|].
  rw delete_id //. lia.
Qed.

Lemma msum_insert m k a :
  msum f (<[k := a]> m) = msum f m + f k a - (if m !! k is Some b then f k b else 0).
Proof.
  rw -(insert_delete_eq m k a). rw msum_insert_fresh; [by rw lookup_delete_eq|]. rw msum_delete'. lia.
Qed.

Lemma msum_nonneg m : (forall k a, m !! k = Some a -> 0 <= f k a) -> 0 <= msum f m.
Proof.
  induction m as [|k a m Hk IH] using map_ind; intros Hf; [by rw msum_empty|].
  rw msum_insert_fresh //. pose proof (Hf k a (lookup_insert_eq _ _ _)).
  assert (0 <= msum f m); [|lia]. apply IH. intros k' a' Hk'. apply (Hf k').
  rw lookup_insert_ne //. intros ->. congruence.
Qed.

Lemma msum_subseteq m1 m2 : (forall k a, 0 <= f k a) -> m1 ⊆ m2 -> msum f m1 <= msum f m2.
Proof.
  intros Hf. revert m2; induction m1 as [|k a m1 Hk IH] using map_ind; intros m2 Hsub.
  - rw msum_empty. apply msum_nonneg. auto.
  - rw msum_insert_fresh //. assert (m2 !! k = Some a) as Hk2 by (eapply lookup_weaken; [apply lookup_insert_eq|done]).
    rw (msum_delete _ _ _ Hk2). assert (m1 ⊆ delete k m2) as Hs%IH; [|lia].
    rw -(delete_insert_id m1 k a) //. by apply delete_mono.
Qed.

Lemma size_msum m : Z.of_nat (size m) = msum (fun _ _ => 1) m.
Proof.
  induction m as [|k a m Hk IH] using map_ind; [by rw map_size_empty|].
  rw map_size_insert_None // Nat2Z.inj_succ IH. unfold msum. rw map_fold_insert_L //. lia.
Qed.

(** The same sum taken with wrap-around at each step. *)
Lemma map_fold_u64 b m :
  map_fold (fun k a z => u64 (z + f k a)) (u64 b) m = u64 (b + msum f m).
Proof.
  unfold msum. rw !map_fold_foldr. induction (map_to_list m) as [|[k a] l IH]; simpl; [by rw Z.add_0_r|].
  rw IH u64_add_l. f_equal. lia.
Qed.
End msum.

(** ** Sums over lists *)

Definition zsum {A} (f : A -> Z) (l : list A) : Z := foldr (fun x a => f x + a)%Z 0%Z l.

Section zsum.
Local Open Scope Z_scope.
Context {A : Type}.
Implicit Types (f : A -> Z) (l : list A).

Lemma zsum_app f l1 l2 : zsum f (l1 ++ l2) = zsum f l1 + zsum f l2.
Proof. induction l1 as [|x l1 IH]; simpl; [done|]. rw IH. lia. Qed.
#[export] Instance zsum_perm f : Proper (Permutation ==> eq) (zsum f).
Proof. induction 1; simpl; lia. Qed.
Lemma zsum_ext f g l : (forall x, x ∈ l -> f x = g x) -> zsum f l = zsum g l.
Proof.
  induction l as [|x l IH]; intros Hfg; [done|]. simpl. rw Hfg; [left|]. rw IH //. intros y Hy. apply Hfg. by right.
Qed.
Lemma zsum_nonneg f l : (forall x, x ∈ l -> 0 <= f x) -> 0 <= zsum f l.
Proof.
  induction l as [|x l IH]; intros Hf; [done|]. simpl.
  specialize (IH (fun y Hy => Hf y (list_elem_of_further _ _ _ Hy))). specialize (Hf x (list_elem_of_here _ _)). lia.
Qed.
Lemma zsum_insert f l i x y : l !! i = Some x -> zsum f (<[i := y]> l) = zsum f l - f x + f y.
Proof.
  revert i; induction l as [|z l IH]; intros [|i] Hi; simplify_eq/=; [lia|]. rw (IH _ Hi). lia.
Qed.
Lemma zsum_fmap {B} (g : B -> A) f (l : list B) : zsum f (g <$> l) = zsum (fun x => f (g x)) l.
Proof. by induction l as [|x l IH]; simpl; [|rw IH]. Qed.
(** A sum of squares is at most the square of the sum. *)
Lemma zsum_squares f l : (forall x, x ∈ l -> 0 <= f x) -> zsum (fun x => f x * f x) l <= zsum f l * zsum f l.
Proof.
  induction l as [|x l IH]; intros Hf; [done|]. simpl.
  assert (Hl : forall y, y ∈ l -> 0 <= f y) by (intros; apply Hf; by right).
  specialize (IH Hl). pose proof (zsum_nonneg f l Hl). pose proof (Hf x (list_elem_of_here _ _)). nia.
Qed.
End zsum.
(** Each element of [l] is counted once by the key it has. *)
Lemma zsum_count {A B} `{EqDecision B} (key : A -> B) (keys : list B) (l : list A) :
  NoDup keys -> (forall x, x ∈ l -> key x ∈ keys) ->
  zsum (fun k => zsum (fun x => if bool_decide (key x = k) then 1 else 0) l)%Z keys = Z.of_nat (length l).
Proof.
  intros Hnd. induction l as [|x l IH]; intros Hk.
  - simpl. induction keys as [|k keys IHk]; [done|]. simpl. apply NoDup_cons in Hnd as [_ Hnd].
    rw IHk //. intros y Hy. by apply not_elem_of_nil in Hy.
  - simpl. rw Nat2Z.inj_succ -IH; [intros y Hy; apply Hk; by right|].
    assert (Hx : key x ∈ keys) by (apply Hk; left). clear Hk IH. apply list_elem_of_split in Hx as (k1 & k2 & ->).
    apply NoDup_app in Hnd as (_ & Hd & [Hn2 _]%NoDup_cons). rw !zsum_app. simpl. rw bool_decide_eq_true_2 //.
    assert (Hne : forall ks, key x ∉ ks ->
      (zsum (fun k => (if bool_decide (key x = k) then 1 else 0) + zsum (fun y => if bool_decide (key y = k) then 1 else 0) l) ks =
       zsum (fun k => zsum (fun y => if bool_decide (key y = k) then 1 else 0) l) ks)%Z).
    { intros ks Hn. apply zsum_ext. intros k Hin. rw bool_decide_eq_false_2; [by intros <-|done]. }
    rw !Hne //; [|lia]. intros Hin. apply (Hd _ Hin). left.
Qed.
