(* ===== verification/Encoding.v ===== *)
(** * Encodings: [encoding/binary], [encoding/hex], [crypto/sha256] and
    [crypto/hmac], as far as the program uses them *)
From S2P Require Import Prelude.
Local Open Scope Z_scope.

(** ** Big-endian integers *)

(** [binary.Write(&out, binary.BigEndian, v)] for a value of [n] bytes. *)
Fixpoint putBE (n : nat) (v : Z) : string :=
  match n with
  | O => ""
  | S n => String (chr (Z.shiftr v (8 * Z.of_nat n) mod 256)) (putBE n v)
  end.
Arguments putBE : simpl never.
Fixpoint getBE (s : string) (acc : Z) : Z :=
  match s with "" => acc | String c s => getBE s (256 * acc + byteZ c) end.
(** [binary.Read] of a value of [n] bytes. *)
Definition readBE (n : nat) (r : string) : option (Z * string) :=
  if slen r <? Z.of_nat n then None else Some (getBE (stake n r) 0, sdrop n r).

(** ** Hexadecimal *)

Definition hexChar (n : Z) : ascii := chr (if n <? 10 then 48 + n else 87 + n).
Definition hexValue (c : ascii) : option Z :=
  let b := byteZ c in
  if (48 <=? b) && (b <=? 57) then Some (b - 48)
  else if (97 <=? b) && (b <=? 102) then Some (b - 87)
  else if (65 <=? b) && (b <=? 70) then Some (b - 55)
  else None.
Fixpoint hexEncode (s : string) : string :=
  match s with
  | "" => ""
  | String c s => String (hexChar (byteZ c / 16)) (String (hexChar (byteZ c mod 16)) (hexEncode s))
  end.
Fixpoint hexDecode (s : string) : option string :=
  match s with
  | "" => Some ""
  | String a (String b s) =>
      high ← hexValue a; low ← hexValue b; rest ← hexDecode s;
      Some (String (chr (high * 16 + low)) rest)
  | String _ "" => None
  end.

(** ** SHA-256 and HMAC *)

(** [crypto/sha256] and [crypto/hmac] as the program calls them. *)
Class Crypto := { hmac : string -> string -> string; sha256 : string -> string }.
Class CryptoOk `{Crypto} : Prop := sha256_length : forall s, slen (sha256 s) = 32.

Definition rotr (n x : Z) : Z := Z.lor (Z.shiftr x n) (u32 (Z.shiftl x (32 - n))).

(** The constants by their definition in FIPS 180-4: the first 32 bits of the
    fractional parts of the cube roots of the first 64 primes and of the square
    roots of the first eight. *)
Definition primes : list Z :=
  filter (fun p => forallb (fun d => negb (p mod d =? 0)) (seqZ 2 (p - 2))) (seqZ 2 310).
(** The greatest [r] with [r^3 <= n], bit by bit. *)
Fixpoint cubeRoot (bits : nat) (n r : Z) : Z :=
  match bits with
  | O => r
  | S b => let r' := r + Z.shiftl 1 (Z.of_nat b) in cubeRoot b n (if r' * r' * r' <=? n then r' else r)
  end.
Definition shaK : list Z := Eval vm_compute in (fun p => u32 (cubeRoot 36 (Z.shiftl p 96) 0)) <$> primes.

Record shaState := mkSha { shA : Z; shB : Z; shC : Z; shD : Z; shE : Z; shF : Z; shG : Z; shH : Z }.
Definition shaInit : shaState := Eval vm_compute in
  let h i := u32 (Z.sqrt (Z.shiftl (nth i primes 0) 64)) in
  mkSha (h 0%nat) (h 1%nat) (h 2%nat) (h 3%nat) (h 4%nat) (h 5%nat) (h 6%nat) (h 7%nat).

(** The message schedule, the last word first. *)
Fixpoint schedule (n : nat) (w : list Z) : list Z :=
  match n with
  | O => w
  | S n =>
      let at_ i := nth i w 0 in
      let s0 := Z.lxor (Z.lxor (rotr 7 (at_ 14%nat)) (rotr 18 (at_ 14%nat))) (Z.shiftr (at_ 14%nat) 3) in
      let s1 := Z.lxor (Z.lxor (rotr 17 (at_ 1%nat)) (rotr 19 (at_ 1%nat))) (Z.shiftr (at_ 1%nat) 10) in
      schedule n (u32 (at_ 15%nat + s0 + at_ 6%nat + s1) :: w)
  end.
Definition shaRound (s : shaState) (kw : Z * Z) : shaState :=
  let s1 := Z.lxor (Z.lxor (rotr 6 (shE s)) (rotr 11 (shE s))) (rotr 25 (shE s)) in
  let ch := Z.lxor (Z.land (shE s) (shF s)) (Z.land (Z.lxor (shE s) 0xffffffff) (shG s)) in
  let t1 := u32 (shH s + s1 + ch + kw.1 + kw.2) in
  let s0 := Z.lxor (Z.lxor (rotr 2 (shA s)) (rotr 13 (shA s))) (rotr 22 (shA s)) in
  let maj := Z.lxor (Z.lxor (Z.land (shA s) (shB s)) (Z.land (shA s) (shC s))) (Z.land (shB s) (shC s)) in
  mkSha (u32 (t1 + u32 (s0 + maj))) (shA s) (shB s) (shC s) (u32 (shD s + t1)) (shE s) (shF s) (shG s).
Definition shaBlock (s : shaState) (block : string) : shaState :=
  let words := (fun i => getBE (stake 4 (sdrop (4 * i) block)) 0) <$> seq 0 16 in
  let t := foldl shaRound s (zip shaK (rev (schedule 48 (rev words)))) in
  mkSha (u32 (shA s + shA t)) (u32 (shB s + shB t)) (u32 (shC s + shC t)) (u32 (shD s + shD t))
    (u32 (shE s + shE t)) (u32 (shF s + shF t)) (u32 (shG s + shG t)) (u32 (shH s + shH t)).
Fixpoint zeroBytes (n : nat) : string := match n with O => "" | S n => String (chr 0) (zeroBytes n) end.
Definition shaPad (s : string) : string :=
  s +:+ String (chr 128) (zeroBytes (Z.to_nat ((55 - slen s) mod 64))) +:+ putBE 8 (8 * slen s).
Definition Sum256 (s : string) : string :=
  let padded := shaPad s in
  let t := foldl (fun t i => shaBlock t (sdrop (64 * i) padded)) shaInit (seq 0 (String.length padded / 64)) in
  putBE 4 (shA t) +:+ putBE 4 (shB t) +:+ putBE 4 (shC t) +:+ putBE 4 (shD t) +:+
  putBE 4 (shE t) +:+ putBE 4 (shF t) +:+ putBE 4 (shG t) +:+ putBE 4 (shH t).

Definition HMAC (key msg : string) : string :=
  let key := if 64 <? slen key then Sum256 key else key in
  let key := key +:+ zeroBytes (64 - String.length key) in
  Sum256 (smap (fun c => chr (Z.lxor (byteZ c) 92)) key +:+ Sum256 (smap (fun c => chr (Z.lxor (byteZ c) 54)) key +:+ msg)).
#[export] Instance go_crypto : Crypto := { hmac := HMAC; sha256 := Sum256 }.

(** The test vectors of FIPS 180 and RFC 4231. *)
Example sha256_abc : hexEncode (Sum256 "abc") = "ba7816bf8f01cfea414140de5dae2223b00361a396177a9cb410ff61f20015ad".
Proof. vm_compute. reflexivity. Qed.
Example sha256_two_blocks : hexEncode (Sum256 "abcdbcdecdefdefgefghfghighijhijkijkljklmklmnlmnomnopnopq") =
  "248d6a61d20638b8e5c026930c3e6039a33ce45964ff2167f6ecedd419db06c1".
Proof. vm_compute. reflexivity. Qed.
Example hmac_jefe : hexEncode (HMAC "Jefe" "what do ya want for nothing?") =
  "5bdcc146bf60754e6a042426089575c75a003f089d2739839dec58b964ec3843".
Proof. vm_compute. reflexivity. Qed.

(** A cheap stand-in for examples: every byte of the digest depends on the sum
    of the bytes. *)
Definition plainCrypto : Crypto :=
  let digest s := putBE 32 (foldr (fun c n => n + byteZ c) 0 (String.list_ascii_of_string s) * 257) in
  {| hmac := fun key msg => digest (key +:+ msg); sha256 := digest |}.

(** ** Lemmas *)

Lemma getBE_put n v acc : 0 <= v -> getBE (putBE n v) acc = 256 ^ Z.of_nat n * acc + v mod 256 ^ Z.of_nat n.
Proof.
  intros Hv. revert acc; induction n as [|n IH]; intros acc.
  - change (256 ^ Z.of_nat 0) with 1. rw Z.mod_1_r. change (getBE (putBE 0 v) acc) with acc. lia.
  - change (putBE (S n) v) with (String (chr (Z.shiftr v (8 * Z.of_nat n) mod 256)) (putBE n v)). cbn [getBE].
    rw byteZ_chr; [apply Z.mod_pos_bound; lia|]. rw IH Z.shiftr_div_pow2; [lia|].
    assert (256 ^ Z.of_nat (S n) = 256 * 256 ^ Z.of_nat n) as He by (rw Nat2Z.inj_succ Z.pow_succ_r; [lia|done]).
    assert (2 ^ (8 * Z.of_nat n) = 256 ^ Z.of_nat n) as -> by (rw Z.pow_mul_r; [lia|lia|done]).
    rw He (Z.mul_comm 256 (256 ^ _)) (Z.rem_mul_r v); [lia|lia|]. lia.
Qed.

Lemma slen_put n v : slen (putBE n v) = Z.of_nat n.
Proof. induction n as [|n IH]; [done|].
  change (putBE (S n) v) with (String (chr (Z.shiftr v (8 * Z.of_nat n) mod 256)) (putBE n v)). rw slen_cons IH. lia. Qed.

Lemma readBE_put n v r : 0 <= v < 256 ^ Z.of_nat n -> readBE n (putBE n v +:+ r) = Some (v, r).
Proof.
  intros Hv. unfold readBE. rw slen_app slen_put. pose proof (slen_nonneg r).
  destruct (Z.ltb_spec (Z.of_nat n + slen r) (Z.of_nat n)); [lia|].
  assert (String.length (putBE n v) = n) as Hn by (pose proof (slen_put n v) as Hs; unfold slen in Hs; lia).
  assert (forall a, String.length a = n -> stake n (a +:+ r) = a /\ sdrop n (a +:+ r) = r) as Hcut.
  { intros a <-. split; [apply stake_app|apply sdrop_app]. }
  destruct (Hcut _ Hn) as [-> ->]. rw getBE_put; [lia|]. rw Z.mod_small //. do 2 f_equal. lia.
Qed.

Lemma readBE_length n r v r' : readBE n r = Some (v, r') -> slen r = Z.of_nat n + slen r'.
Proof.
  unfold readBE. destruct (Z.ltb_spec (slen r) (Z.of_nat n)); [done|]. intros [= _ <-].
  unfold slen in *. rw length_sdrop. lia.
Qed.

Lemma hexValue_char n : 0 <= n < 16 -> hexValue (hexChar n) = Some n.
Proof.
  intros Hn. unfold hexValue, hexChar. destruct (Z.ltb_spec n 10); rw byteZ_chr; try lia.
  - rw (proj2 (Z.leb_le _ _)); [lia|]. rw (proj2 (Z.leb_le _ _)); [lia|]. simpl. f_equal. lia.
  - rw (proj2 (Z.leb_le 48 _)); [lia|]. rw (proj2 (Z.leb_gt _ 57)); [lia|]. rw (proj2 (Z.leb_le 97 _)); [lia|].
    rw (proj2 (Z.leb_le _ 102)); [lia|]. simpl. f_equal. lia.
Qed.
Lemma hex_round_trip s : hexDecode (hexEncode s) = Some s.
Proof.
  induction s as [|c s IH]; [done|]. simpl. pose proof (byteZ_range c). pose proof (Z.div_mod (byteZ c) 16 ltac:(lia)).
  pose proof (Z.mod_pos_bound (byteZ c) 16 ltac:(lia)).
  rw !hexValue_char; [lia..|]. simpl. rw IH. simpl.
  do 2 f_equal. rewrite <- (chr_byteZ c) at 3. f_equal. lia.
Qed.

Lemma hexEncode_length s : slen (hexEncode s) = 2 * slen s.
Proof. induction s as [|c s IH]; [done|]. simpl hexEncode. rw !slen_cons IH. lia. Qed.

#[export] Instance go_crypto_ok : CryptoOk.
Proof. intros s. cbn [sha256 go_crypto]. unfold Sum256. rw !slen_app !slen_put. done. Qed.
Lemma plainCrypto_ok : CryptoOk (H := plainCrypto).
Proof. intros s. cbn [sha256 plainCrypto]. by rw slen_put. Qed.
