(* ===== verification/GoText.v ===== *)
(** * Text routines: Go's [strconv]/[strings] functions the program uses, and
    the small text helpers of [internal/resp] and [internal/engine]

    [FormatInt], [ParseUint], [ParseInt] and [Atoi] are base-10, 64-bit; the
    parsers return [None] for both a syntax and a range error, which no caller
    distinguishes.  [parseInt64] is the canonical integer parser of
    [internal/engine/string_ops.go]: the theorems show that it accepts exactly
    the strings [FormatInt] produces. *)
From S2P Require Import Prelude.
Local Open Scope Z_scope.

(** ** Integers *)

(** Decimal digits of [n], most significant first, in front of [acc]. *)
Fixpoint dec_aux (fuel : nat) (n : Z) (acc : string) : string :=
  match fuel with
  | O => acc
  | S fuel =>
      let acc' := String (chr (48 + n mod 10)) acc in
      if n <? 10 then acc' else dec_aux fuel (n / 10) acc'
  end.
(** Twenty digits hold every 64-bit number. *)
Definition FormatUint (n : Z) : string := dec_aux 20 n "".
Definition FormatInt (n : Z) : string :=
  if n <? 0 then String "-" (FormatUint (- n)) else FormatUint n.
Definition Itoa : Z -> string := FormatInt.

Definition isDigit (c : ascii) : bool := (48 <=? byteZ c) && (byteZ c <=? 57).

Fixpoint ParseUint_loop (n : Z) (s : string) : option Z :=
  match s with
  | "" => Some n
  | String c s =>
      if isDigit c then
        if 1844674407370955162 <=? n then None
        else
          let n1 := n * 10 + (byteZ c - 48) in
          if maxUint64 <? n1 then None else ParseUint_loop n1 s
      else None
  end.
Definition ParseUint (s : string) : option Z :=
  match s with "" => None | _ => ParseUint_loop 0 s end.

Definition ParseInt (s : string) : option Z :=
  let '(neg, s) :=
    match s with
    | String "+" s => (false, s)
    | String "-" s => (true, s)
    | _ => (false, s)
    end in
  un ← ParseUint s;
  if negb neg && (9223372036854775808 <=? un) then None
  else if neg && (9223372036854775808 <? un) then None
  else Some (if neg then - un else un).
Definition Atoi : string -> option Z := ParseInt.

(** [parseInt64] of [string_ops.go]: canonical base-10 integers only. *)
Definition parseInt64 (b : string) : option Z :=
  match b with
  | "" => None
  | String c0 rest =>
      if String.eqb b "0" then Some 0
      else
        let digits := if Ascii.eqb c0 "-" then rest else b in
        match digits with
        | "" => None
        | String c ds =>
            if (byteZ c <? 49) || (57 <? byteZ c) then None
            else if sall isDigit ds then ParseInt b else None
        end
  end.

#[global] Arguments FormatUint : simpl never.
#[global] Arguments FormatInt : simpl never.
#[global] Arguments Itoa : simpl never.
#[global] Arguments ParseInt : simpl never.
#[global] Arguments Atoi : simpl never.

(** ** Case *)

Definition toUpperByte (c : ascii) : ascii :=
  if (97 <=? byteZ c) && (byteZ c <=? 122) then chr (byteZ c - 32) else c.
(** [upperASCII] of [string_ops.go] and [upper] of [resp/command.go]. *)
Definition upperASCII (b : string) : string := smap toUpperByte b.
Definition upper : string -> string := upperASCII.

(** ** [strings.Fields] and [bytes.TrimRight(b, "\r\n")] *)

(** The number of bytes of the white-space character at the front of [s], 0
    if there is none: ASCII white space and the UTF-8 encodings of U+0085,
    U+00A0, U+1680, U+2000..200A, U+2028, U+2029, U+202F, U+205F and U+3000.
    The first byte of a multi-byte encoding never occurs inside another
    character, so looking at bytes finds the same characters as decoding. *)
Definition spaceLen (s : string) : nat :=
  match s with
  | "" => O
  | String a s1 =>
      let z := byteZ a in
      if ((9 <=? z) && (z <=? 13)) || (z =? 32) then 1%nat
      else match s1 with
      | "" => O
      | String b s2 =>
          let y := byteZ b in
          if (z =? 194) && ((y =? 133) || (y =? 160)) then 2%nat
          else match s2 with
          | "" => O
          | String c _ =>
              let x := byteZ c in
              if (z =? 225) && (y =? 154) && (x =? 128) then 3%nat
              else if (z =? 226) && (y =? 128) &&
                (((128 <=? x) && (x <=? 138)) || (x =? 168) || (x =? 169) || (x =? 175)) then 3%nat
              else if (z =? 226) && (y =? 129) && (x =? 159) then 3%nat
              else if (z =? 227) && (y =? 128) && (x =? 128) then 3%nat
              else O
          end
      end
  end.

Definition emit (cur : string) (out : list string) : list string :=
  match cur with "" => out | _ => cur :: out end.

(** [skip] bytes of a white-space character are still to be dropped; [cur] is
    the field being read. *)
Fixpoint fields_loop (s : string) (skip : nat) (cur : string) : list string :=
  match s with
  | "" => emit cur []
  | String c s' =>
      match skip with
      | S skip => fields_loop s' skip cur
      | O =>
          match spaceLen s with
          | O => fields_loop s' O (cur +:+ sone c)
          | S k => emit cur (fields_loop s' k "")
          end
      end
  end.
Definition Fields (s : string) : list string := fields_loop s 0 "".

(** [trimTrailingCRLF] of [resp/command.go]. *)
Fixpoint trimTrailingCRLF (b : string) : string :=
  match b with
  | "" => ""
  | String c b =>
      match trimTrailingCRLF b with
      | "" => if (byteZ c =? 13) || (byteZ c =? 10) then "" else sone c
      | r => String c r
      end
  end.

(** ** Facts *)

Lemma dec_aux_app f n acc : dec_aux f n acc = dec_aux f n "" +:+ acc.
Proof.
  revert n acc; induction f as [|f IH]; intros n acc; cbn [dec_aux]; [done|].
  destruct (n <? 10); [done|]. rw IH (IH (n / 10) (String _ "")) app_string_assoc. done.
Qed.

Lemma dec_aux_more f n acc : 0 <= n < 10 ^ Z.of_nat f -> (0 < f)%nat -> dec_aux (S f) n acc = dec_aux f n acc.
Proof.
  revert n acc; induction f as [|f IH]; intros n acc Hn Hf; [lia|].
  rw {1}/dec_aux -/dec_aux. cbn [dec_aux]. destruct (Z.ltb_spec n 10); [done|].
  rw Nat2Z.inj_succ Z.pow_succ_r in Hn; [lia|].
  assert (0 <= n / 10 < 10 ^ Z.of_nat f) as Hd.
  { split; [apply Z.div_pos; lia|]. apply Z.div_lt_upper_bound; lia. }
  destruct f as [|f].
  - change (10 ^ Z.of_nat 0) with 1 in Hd. assert (n / 10 = 0) by lia. lia.
  - apply (IH (n / 10) (String (chr (48 + n mod 10)) acc)); lia.
Qed.

Lemma FormatUint_S n :
  FormatUint n = (let acc := sone (chr (48 + n mod 10)) in if n <? 10 then acc else dec_aux 19 (n / 10) acc).
Proof. done. Qed.

Lemma FormatUint_snoc n d :
  0 < n -> 0 <= d < 10 -> 10 * n + d <= maxUint64 ->
  FormatUint (10 * n + d) = FormatUint n +:+ sone (chr (48 + d)).
Proof.
  intros Hn Hd Hm. unfold maxUint64 in Hm. rw FormatUint_S. cbv zeta.
  destruct (Z.ltb_spec (10 * n + d) 10); [lia|].
  assert ((10 * n + d) / 10 = n) as -> by (rw Z.mul_comm Z.div_add_l; [lia|]; rw Z.div_small; lia).
  assert ((10 * n + d) mod 10 = d) as -> by (rw Z.add_comm Z.mul_comm Z.mod_add; [lia|]; rw Z.mod_small; lia).
  unfold FormatUint. rw (dec_aux_more 19 n "").
  - split; [lia|]. change (10 ^ Z.of_nat 19) with 10000000000000000000. lia.
  - lia.
  - by rw dec_aux_app.
Qed.

Lemma isDigit_chr d : 0 <= d < 10 -> isDigit (chr (48 + d)) = true.
Proof. intros. unfold isDigit. rw byteZ_chr; lia. Qed.

Lemma isDigit_inv c : isDigit c = true -> exists d, 0 <= d < 10 /\ c = chr (48 + d) /\ byteZ c - 48 = d.
Proof.
  unfold isDigit. rw andb_true_iff !Z.leb_le. intros [H1 H2]. exists (byteZ c - 48).
  split_and!; [lia|lia| |done]. rw -(chr_byteZ c). f_equal. rw byteZ_chr; [apply byteZ_range|]. lia.
Qed.

Lemma ParseUint_dec f n acc :
  0 <= n <= maxUint64 -> n < 10 ^ Z.of_nat f ->
  ParseUint_loop 0 (dec_aux f n acc) = ParseUint_loop n acc.
Proof.
  revert n acc; induction f as [|f IH]; intros n acc Hn Hf.
  - change (10 ^ Z.of_nat 0) with 1 in Hf. by assert (n = 0) as -> by lia.
  - cbn [dec_aux]. rw Nat2Z.inj_succ Z.pow_succ_r in Hf; [lia|].
    assert (0 <= n mod 10 < 10) as Hm by (apply Z.mod_pos_bound; lia).
    assert (n = 10 * (n / 10) + n mod 10) as Heq by (apply Z.div_mod; lia).
    assert (0 <= n / 10) as Hd by (apply Z.div_pos; lia).
    assert (forall k, k = n / 10 -> ParseUint_loop k (String (chr (48 + n mod 10)) acc) = ParseUint_loop n acc) as Hstep.
    { intros k ->. cbn [ParseUint_loop]. rw isDigit_chr //. unfold maxUint64 in *. destruct (Z.leb_spec 1844674407370955162 (n / 10)); [lia|].
      rw byteZ_chr; [lia|]. assert (n / 10 * 10 + (48 + n mod 10 - 48) = n) as -> by lia.
      destruct (Z.ltb_spec 18446744073709551615 n); [lia|]. done. }
    destruct (Z.ltb_spec n 10).
    + apply Hstep. rw Z.div_small; lia.
    + rw IH; [lia| |by apply Hstep]. lia.
Qed.

Lemma dec_aux_digits f n acc : sall isDigit acc = true -> sall isDigit (dec_aux f n acc) = true.
Proof.
  revert n acc; induction f as [|f IH]; intros n acc Ha; [done|]. cbn [dec_aux]. cbv zeta.
  assert (Hs : sall isDigit (String (chr (48 + n mod 10)) acc) = true) by (cbn [sall]; rw isDigit_chr //; apply Z.mod_pos_bound; lia).
  destruct (n <? 10); [done|by apply IH].
Qed.
Lemma FormatUint_digits n : sall isDigit (FormatUint n) = true.
Proof. by apply dec_aux_digits. Qed.

Lemma FormatUint_nonempty n : exists c s, FormatUint n = String c s.
Proof.
  rw FormatUint_S. cbv zeta. destruct (n <? 10); [by eauto|].
  rw dec_aux_app. destruct (dec_aux 19 (n / 10) ""); rw ?app_string_cons; simpl; eauto.
Qed.

Lemma ParseUint_FormatUint n : 0 <= n <= maxUint64 -> ParseUint (FormatUint n) = Some n.
Proof.
  intros Hn. unfold ParseUint. destruct (FormatUint_nonempty n) as (c & s & Heq). rw Heq -Heq.
  unfold FormatUint. rw ParseUint_dec //. unfold maxUint64 in Hn.
  change (10 ^ Z.of_nat 20) with 100000000000000000000. lia.
Qed.

(** The first digit of a positive number is not zero, the others are digits. *)
Lemma FormatUint_shape n :
  0 < n <= maxUint64 -> exists d s, FormatUint n = String (chr (48 + d)) s /\ 1 <= d < 10 /\ sall isDigit s = true.
Proof.
  intros Hn. assert (exists k, (k < 20)%nat /\ n < 10 ^ Z.of_nat (S k)) as (k & Hk & Hb).
  { exists 19%nat. split; [lia|]. unfold maxUint64 in Hn. change (10 ^ Z.of_nat 20) with 100000000000000000000. lia. }
  clear Hk. revert n Hn Hb. induction k as [|k IH]; intros n Hn Hb.
  - exists n, "". change (10 ^ Z.of_nat 1) with 10 in Hb. split_and!; [|lia|lia|done].
    rw FormatUint_S. destruct (Z.ltb_spec n 10); [|lia].
    by rw Z.mod_small; [lia|].
  - destruct (Z.lt_ge_cases n 10) as [Hlt|Hge].
    + apply IH; [lia|]. rw Nat2Z.inj_succ Z.pow_succ_r; [lia|].
      assert (1 <= 10 ^ Z.of_nat k) by (apply (Z.pow_le_mono_r 10 0); lia). lia.
    + assert (n = 10 * (n / 10) + n mod 10) as Heq by (apply Z.div_mod; lia).
      assert (0 <= n mod 10 < 10) as Hm by (apply Z.mod_pos_bound; lia).
      destruct (IH (n / 10)) as (d & s & Hf & Hd & Hs); [unfold maxUint64 in *; lia| |].
      { rw Nat2Z.inj_succ Z.pow_succ_r in Hb; lia. }
      exists d, (s +:+ sone (chr (48 + n mod 10))). split_and!; [|lia|lia|].
      * rw {1}Heq FormatUint_snoc; [lia|lia|lia|]. by rw Hf.
      * rw sall_app Hs /=. by rw isDigit_chr.
Qed.

Definition int64_range (n : Z) : Prop := minInt64 <= n <= maxInt64.

Lemma FormatInt_range_abs n : int64_range n -> n < 0 -> 0 < - n <= maxUint64.
Proof. unfold int64_range, minInt64, maxUint64. lia. Qed.

Lemma ParseInt_digits c s :
  isDigit c = true ->
  ParseInt (String c s) = (un ← ParseUint (String c s); if 9223372036854775808 <=? un then None else Some un).
Proof.
  intros Hc. unfold ParseInt. assert (c <> "+"%char /\ c <> "-"%char) as [H1 H2] by (split; intros ->; done).
  destruct c as [[] [] [] [] [] [] [] []]; try done.
Qed.

Lemma ParseInt_FormatInt n : int64_range n -> ParseInt (FormatInt n) = Some n.
Proof.
  intros Hn. pose proof Hn as [H1 H2]. unfold minInt64, maxInt64 in *. unfold FormatInt. destruct (Z.ltb_spec n 0) as [Hlt|Hge].
  - pose proof (FormatInt_range_abs n Hn Hlt). unfold ParseInt. rw ParseUint_FormatUint; [lia|]. simpl.
    destruct (Z.ltb_spec 9223372036854775808 (- n)); [lia|]. f_equal. lia.
  - destruct (decide (n = 0)) as [->|Hz]; [done|].
    destruct (FormatUint_shape n) as (d & s & Hf & Hd & Hs); [unfold maxUint64; lia|].
    rw Hf ParseInt_digits; [by apply isDigit_chr; lia|]. rw -Hf ParseUint_FormatUint; [unfold maxUint64; lia|]. simpl.
    by destruct (Z.leb_spec 9223372036854775808 n); [lia|].
Qed.

(** A digit string parsed after [n > 0] is [n] with the digits appended. *)
Lemma ParseUint_loop_inv n s v :
  0 < n <= maxUint64 -> ParseUint_loop n s = Some v -> n <= v <= maxUint64 /\ FormatUint v = FormatUint n +:+ s.
Proof.
  revert n; induction s as [|c s IH]; intros n Hn; cbn [ParseUint_loop].
  - intros [= ->]. split; [lia|]. by rw app_nil_string.
  - destruct (isDigit c) eqn:Hc; [|done]. apply isDigit_inv in Hc as (d & Hd & Hcd & ->).
    destruct (_ <=? n); [done|]. destruct (Z.ltb_spec maxUint64 (n * 10 + d)); [done|].
    intros Hp. apply IH in Hp as (H1 & H2); [|lia].
    assert (n * 10 + d = 10 * n + d) as Hcm by lia. rw Hcm in H1 H2.
    split; [lia|]. rw H2 FormatUint_snoc; [lia|lia|lia|]. rw app_string_assoc Hcd. done.
Qed.

Lemma ParseUint_canonical d s v :
  1 <= d < 10 -> ParseUint (String (chr (48 + d)) s) = Some v ->
  0 < v <= maxUint64 /\ FormatUint v = String (chr (48 + d)) s.
Proof.
  intros Hd. cbn [ParseUint ParseUint_loop]. rw isDigit_chr; [lia|]. rw byteZ_chr; [lia|].
  change (1844674407370955162 <=? 0) with false. cbv zeta iota.
  assert (0 * 10 + (48 + d - 48) = d) as -> by lia. destruct (Z.ltb_spec maxUint64 d); [done|].
  intros Hp. apply ParseUint_loop_inv in Hp as [H1 H2]; [|unfold maxUint64; lia]. split; [lia|].
  rw H2 FormatUint_S. destruct (Z.ltb_spec d 10); [|lia]. by rw Z.mod_small; [lia|].
Qed.

(** [parseInt64] accepts exactly the canonical decimal representations of the
    64-bit signed integers. *)
Lemma parseInt64_spec b v :
  parseInt64 b = Some v <-> int64_range v /\ b = FormatInt v.
Proof.
  unfold int64_range, minInt64, maxInt64. split.
  - destruct b as [|c0 rest]; [done|]. unfold parseInt64.
    destruct (String.eqb_spec (String c0 rest) "0") as [->|Hne]; [intros [= <-]; by split; [lia|]|].
    destruct (Ascii.eqb_spec c0 "-") as [->|Hneg]; cbv zeta.
    + destruct rest as [|c ds]; [done|].
      destruct (Z.ltb_spec (byteZ c) 49), (Z.ltb_spec 57 (byteZ c)); try done. simpl orb; cbv iota.
      destruct (sall isDigit ds); [|done].
      assert (c = chr (48 + (byteZ c - 48))) as Hc by (rw -{1}(chr_byteZ c); f_equal; lia).
      unfold ParseInt. rw Hc. destruct (ParseUint _) as [un|] eqn:Hp; [|done]. cbn [mbind option_bind].
      apply ParseUint_canonical in Hp as [Hr Hf]; [|lia]. rw /= -Hf.
      destruct (Z.ltb_spec 9223372036854775808 un); [done|]. intros [= <-]. split; [lia|].
      unfold FormatInt. destruct (Z.ltb_spec (- un) 0); [|lia]. by rw Z.opp_involutive.
    + destruct (Z.ltb_spec (byteZ c0) 49), (Z.ltb_spec 57 (byteZ c0)); try done. simpl orb; cbv iota.
      destruct (sall isDigit rest); [|done].
      assert (c0 = chr (48 + (byteZ c0 - 48))) as Hc by (rw -{1}(chr_byteZ c0); f_equal; lia).
      rw Hc ParseInt_digits; [by apply isDigit_chr; lia|].
      destruct (ParseUint _) as [un|] eqn:Hp; [|done]. cbn [mbind option_bind].
      apply ParseUint_canonical in Hp as [Hr Hf]; [|lia]. rw -Hf.
      destruct (Z.leb_spec 9223372036854775808 un); [done|]. intros [= <-]. split; [lia|].
      unfold FormatInt. destruct (Z.ltb_spec un 0); [lia|]. done.
  - intros [Hr ->]. assert (int64_range v) as Hi by done.
    destruct (decide (v = 0)) as [->|Hz]; [done|].
    pose proof (ParseInt_FormatInt v Hi) as Hp. unfold FormatInt in *.
    assert (exists d s, FormatUint (if v <? 0 then - v else v) = String (chr (48 + d)) s /\
      1 <= d < 10 /\ sall isDigit s = true) as (d & s & Hf & Hd & Hs).
    { apply FormatUint_shape. unfold maxUint64. destruct (Z.ltb_spec v 0); lia. }
    destruct (v <? 0).
    + unfold parseInt64. rw Hf in Hp. rw Hf. destruct (String.eqb_spec (String "-" (String (chr (48 + d)) s)) "0"); [done|].
      rw Ascii.eqb_refl. cbv zeta iota. rw byteZ_chr; [lia|].
      destruct (Z.ltb_spec (48 + d) 49); [lia|]. destruct (Z.ltb_spec 57 (48 + d)); [lia|]. by rw Hs.
    + unfold parseInt64. rw Hf in Hp. rw Hf. destruct (String.eqb_spec (String (chr (48 + d)) s) "0") as [[= Heq _]|_].
      { exfalso. apply (f_equal byteZ) in Heq. rw byteZ_chr in Heq; [lia|].
        change (byteZ (Ascii false false false false true true false false)) with 48 in Heq. lia. }
      destruct (Ascii.eqb_spec (chr (48 + d)) "-") as [Heq|_].
      { exfalso. apply (f_equal byteZ) in Heq. rw byteZ_chr in Heq; [lia|].
        change (byteZ "-") with 45 in Heq. lia. }
      cbv zeta iota. rw byteZ_chr; [lia|].
      destruct (Z.ltb_spec (48 + d) 49); [lia|]. destruct (Z.ltb_spec 57 (48 + d)); [lia|]. by rw Hs.
Qed.

(** [parseInt64] accepts exactly the canonical decimal representations of the
    64-bit integers: no sign but a minus, no leading zeros, no overflow. *)
Theorem parseInt64_canonical b v : parseInt64 b = Some v <-> int64_range v /\ b = FormatInt v.
Proof. apply parseInt64_spec. Qed.
