(* ===== verification/GoTime.v ===== *)
(** * Times: the calendar and the text of [time.Time]

    A time is an instant in nanoseconds since the zero time, January 1 of year
    1, UTC.  The calendar counts years from March, in cycles of 400, 100, 4 and
    1 years, so that a leap day is the last of its year. *)
From S2P Require Import Prelude GoText.
Local Open Scope Z_scope.

(** ** The calendar *)

Definition monthOf (doy : Z) : Z * Z :=
  let mp := (5 * doy + 2) / 153 in
  (if mp <? 10 then mp + 3 else mp - 9, doy - (153 * mp + 2) / 5 + 1).
Definition dayOf (month day : Z) : Z := (153 * (if month <=? 2 then month + 9 else month - 3) + 2) / 5 + day - 1.

(** Year, month and day of a number of days since the zero time. *)
Definition civil (days : Z) : Z * Z * Z :=
  let z := days + 306 in
  let doe := z mod 146097 in
  let century := Z.min 3 (doe / 36524) in
  let r := doe - century * 36524 in
  let q := r / 1461 in
  let r := r - q * 1461 in
  let y := Z.min 3 (r / 365) in
  let '(month, day) := monthOf (r - y * 365) in
  (z / 146097 * 400 + century * 100 + q * 4 + y + (if month <=? 2 then 1 else 0), month, day).
Definition daysOf (year month day : Z) : Z :=
  let y := if month <=? 2 then year - 1 else year in
  let yoe := y mod 400 in
  y / 400 * 146097 + yoe * 365 + yoe / 4 - yoe / 100 + dayOf month day - 306.

Definition isLeap (year : Z) : bool := (year mod 4 =? 0) && (negb (year mod 100 =? 0) || (year mod 400 =? 0)).
Definition daysIn (month year : Z) : Z :=
  if month =? 2 then (if isLeap year then 29 else 28)
  else if existsb (Z.eqb month) [4; 6; 9; 11] then 30 else 31.

(** ** Text *)

(** [n] in exactly [width] digits. *)
Fixpoint digits (width : nat) (n : Z) : string :=
  match width with
  | O => ""
  | S width => digits width (n / 10) +:+ String (chr (48 + n mod 10)) ""
  end.

Definition perSecond : Z := 1000000000.
Definition dateText (t : Z) : string :=
  let seconds := t / perSecond in
  let '(year, month, day) := civil (seconds / 86400) in
  let s := seconds mod 86400 in
  digits 4 year +:+ "-" +:+ digits 2 month +:+ "-" +:+ digits 2 day +:+ "T" +:+
  digits 2 (s / 3600) +:+ ":" +:+ digits 2 (s / 60 mod 60) +:+ ":" +:+ digits 2 (s mod 60).

(** [Time.UTC().Format] with the layout ["2006-01-02T15:04:05.000Z07:00"], for
    years of four digits. *)
Definition formatMillis (t : Z) : string := dateText t +:+ "." +:+ digits 3 (t / 1000000 mod 1000) +:+ "Z".

(** [time.RFC3339Nano], as [MarshalJSON] writes it; years of more than four
    digits are an error. *)
Fixpoint trimZeros (s : string) : string :=
  match s with
  | "" => ""
  | String c s => match trimZeros s with "" => if Ascii.eqb c "0" then "" else String c "" | s => String c s end
  end.
Definition fractionText (ns : Z) : string :=
  match trimZeros (digits 9 ns) with "" => "" | ds => "." +:+ ds end.
Definition timeText (t : Z) : option string :=
  let year := (civil (t / perSecond / 86400)).1.1 in
  if (year <? 0) || (9999 <? year) then None
  else Some (dateText t +:+ fractionText (t mod perSecond) +:+ "Z").

(** Reading, as [UnmarshalJSON] does. *)
Fixpoint number (width : nat) (acc : Z) (s : string) : option (Z * string) :=
  match width with
  | O => Some (acc, s)
  | S width =>
      match s with
      | String c s => if isDigit c then number width (10 * acc + (byteZ c - 48)) s else None
      | "" => None
      end
  end.
Definition expect (c : ascii) (s : string) : option string :=
  match s with String d s => if Ascii.eqb c d then Some s else None | "" => None end.
Definition within (lo hi n : Z) : option unit := if (lo <=? n) && (n <=? hi) then Some tt else None.

(** The digits of a fraction: the first nine count. *)
Fixpoint fraction (scale : Z) (s : string) : Z * string :=
  match s with
  | String c s' =>
      if isDigit c then let '(n, r) := fraction (scale / 10) s' in ((byteZ c - 48) * scale + n, r) else (0, s)
  | "" => (0, "")
  end.
Definition readFractionText (s : string) : Z * string :=
  match s with
  | String c (String d s') => if Ascii.eqb c "." && isDigit d then fraction 100000000 (String d s') else (0, s)
  | _ => (0, s)
  end.
Definition readZone (s : string) : option Z :=
  if String.eqb s "Z" then Some 0
  else match s with
  | String c s =>
      if negb (Ascii.eqb c "+" || Ascii.eqb c "-") then None
      else
        '(h, s) ← number 2 0 s; _ ← within 0 23 h; s ← expect ":" s; '(m, s) ← number 2 0 s; _ ← within 0 59 m;
        if String.eqb s "" then Some ((if Ascii.eqb c "-" then -1 else 1) * (h * 3600 + m * 60)) else None
  | "" => None
  end.
Definition parseTime (s : string) : option Z :=
  '(year, s) ← number 4 0 s; s ← expect "-" s;
  '(month, s) ← number 2 0 s; _ ← within 1 12 month; s ← expect "-" s;
  '(day, s) ← number 2 0 s; _ ← within 1 (daysIn month year) day; s ← expect "T" s;
  '(hour, s) ← number 2 0 s; _ ← within 0 23 hour; s ← expect ":" s;
  '(min, s) ← number 2 0 s; _ ← within 0 59 min; s ← expect ":" s;
  '(sec, s) ← number 2 0 s; _ ← within 0 59 sec;
  let '(ns, s) := readFractionText s in
  offset ← readZone s;
  Some ((daysOf year month day * 86400 + hour * 3600 + min * 60 + sec - offset) * perSecond + ns).

(** ** The calendar round trips *)

Ltac euclid := Z.to_euclidean_division_equations; lia.

Lemma monthOf_spec doy : 0 <= doy <= 365 ->
  let '(month, day) := monthOf doy in
  1 <= month <= 12 /\ 1 <= day <= (if month =? 2 then 29 else daysIn month 1) /\ dayOf month day = doy /\
  ((month =? 2) = true -> day = 29 -> doy = 365).
Proof.
  intros Hd. assert (Hall : forallb (fun i => let doy := Z.of_nat i in let '(month, day) := monthOf doy in
    (1 <=? month) && (month <=? 12) && (1 <=? day) && (day <=? (if month =? 2 then 29 else daysIn month 1)) && (dayOf month day =? doy) &&
    (negb ((month =? 2) && (day =? 29)) || (doy =? 365))) (seq 0 366) = true) by (vm_compute; reflexivity).
  rewrite -> forallb_forall in Hall. specialize (Hall (Z.to_nat doy)). rw in_seq in Hall. specialize (Hall ltac:(lia)). cbv zeta in Hall.
  rw Z2Nat.id in Hall; [lia|]. destruct (monthOf doy) as [month day].
  rw !andb_true_iff orb_true_iff in Hall. destruct Hall as (((((H1 & H2) & H3) & H4) & H5) & H6).
  split_and!; lia.
Qed.

Lemma civil_spec days :
  let '(year, month, day) := civil days in
  1 <= month <= 12 /\ 1 <= day <= daysIn month year /\ daysOf year month day = days.
Proof.
  unfold civil. cbv zeta. set (z := days + 306). set (doe := z mod 146097).
  set (century := Z.min 3 (doe / 36524)). set (r := doe - century * 36524). set (q := r / 1461). set (r2 := r - q * 1461).
  set (y := Z.min 3 (r2 / 365)). set (doy := r2 - y * 365).
  assert (Hdoe : 0 <= doe < 146097) by (unfold doe; euclid).
  assert (Hc : 0 <= century <= 3 /\ 0 <= r <= 36524 /\ (century < 3 -> r < 36524)) by (unfold r, century; euclid).
  assert (Hq : 0 <= q <= 24 /\ 0 <= r2 <= 1460) by (unfold r2, q; euclid).
  assert (Hy : 0 <= y <= 3 /\ 0 <= doy <= 365 /\ (y < 3 -> doy < 365)) by (unfold doy, y; euclid).
  assert (Hlast : q = 24 -> y = 3 -> century < 3 -> doy < 365) by (unfold doy, r2; lia).
  pose proof (monthOf_spec doy ltac:(lia)) as Hm. destruct (monthOf doy) as [month day]. destruct Hm as (Hm & Hd & Hday & Hleap).
  set (yoe := century * 100 + q * 4 + y).
  assert (Hyoe : 0 <= yoe < 400 /\ yoe / 4 = 25 * century + q /\ yoe / 100 = century /\ yoe mod 4 = y) by (unfold yoe; euclid).
  set (year := z / 146097 * 400 + century * 100 + q * 4 + y + (if month <=? 2 then 1 else 0)).
  assert (Hyr : (if month <=? 2 then year - 1 else year) = z / 146097 * 400 + yoe) by (unfold year, yoe; destruct (month <=? 2); lia).
  split; [done|]. split.
  - split; [lia|]. unfold daysIn in Hd |- *. destruct (Z.eqb_spec month 2) as [->|]; [|lia].
    destruct (Z.eq_dec day 29) as [->|]; [|destruct (isLeap year); lia]. specialize (Hleap eq_refl eq_refl).
    assert (year = z / 146097 * 400 + yoe + 1) as Hy1 by (simpl in Hyr; lia).
    assert (isLeap year = true) as ->; [|lia]. unfold isLeap. rw andb_true_iff orb_true_iff negb_true_iff !Z.eqb_eq Z.eqb_neq.
    assert (y = 3) as H3 by lia. assert (q = 24 -> century = 3) as H4 by lia.
    assert (year = 400 * (z / 146097) + 100 * century + 4 * (q + 1)) as Hyear by (unfold yoe in Hy1; lia).
    rw Hyear. destruct Hc as [Hc _], Hq as [Hq _]. clear - Hc Hq H4. generalize (z / 146097). intros era.
    clearbody century q. split; [euclid|]. destruct (Z.eq_dec q 24); [right|left].
    + replace (400 * era + 100 * century + 4 * (q + 1)) with ((era + 1) * 400) by lia. by apply Z.mod_mul.
    + replace (400 * era + 100 * century + 4 * (q + 1)) with (4 * (q + 1) + (4 * era + century) * 100) by lia.
      rw Z.mod_add // Z.mod_small; lia.
  - unfold daysOf. rw Hyr. assert ((z / 146097 * 400 + yoe) mod 400 = yoe /\ (z / 146097 * 400 + yoe) / 400 = z / 146097) as [-> ->] by euclid.
    destruct Hyoe as (_ & -> & -> & _). rw Hday. pose proof (Z.div_mod z 146097 ltac:(lia)) as Hz. fold doe in Hz.
    unfold yoe, doy, r2, r in *. lia.
Qed.

(** ** The text round trips *)

Lemma pow10_S w : 10 ^ Z.of_nat (S w) = 10 * 10 ^ Z.of_nat w.
Proof. rw Nat2Z.inj_succ Z.pow_succ_r; [lia|done]. Qed.
Lemma number_add a b acc s : number (a + b) acc s = '(v, r) ← number a acc s; number b v r.
Proof. revert acc s. induction a as [|a IH]; intros acc s; [done|]. simpl. destruct s as [|c s]; [done|]. by destruct (isDigit c). Qed.
Lemma number_app w acc n r : 0 <= n < 10 ^ Z.of_nat w -> number w acc (digits w n +:+ r) = Some (acc * 10 ^ Z.of_nat w + n, r).
Proof.
  revert n r. induction w as [|w IH]; intros n r Hn.
  - change (10 ^ Z.of_nat 0) with 1 in *. simpl. do 2 f_equal. lia.
  - rewrite -> pow10_S in Hn |- *. pose proof (Z.mod_pos_bound n 10 ltac:(lia)). pose proof (Z.div_mod n 10 ltac:(lia)).
    cbn [digits]. rewrite <- Nat.add_1_r. rw app_string_assoc number_add IH; [lia|]. cbn [mbind option_bind]. cbv iota beta.
    rw app_string_cons app_string_nil_l. cbn [number]. rw isDigit_chr; [lia|]. rw byteZ_chr; [lia|]. do 2 f_equal. lia.
Qed.

(** The value of the digits of a fraction. *)
Fixpoint fractionValue (scale : Z) (s : string) : Z :=
  match s with "" => 0 | String c s => (byteZ c - 48) * scale + fractionValue (scale / 10) s end.
Lemma fraction_app scale ds r :
  sall isDigit ds = true -> match r with "" => True | String c _ => isDigit c = false end ->
  fraction scale (ds +:+ r) = (fractionValue scale ds, r).
Proof.
  intros Hds Hr. revert scale. induction ds as [|c ds IH]; intros scale.
  - destruct r as [|c r]; [done|]. simpl. by rw Hr.
  - cbn [sall] in Hds. apply andb_true_iff in Hds as [Hc Hds]. rw app_string_cons. cbn [fraction fractionValue]. by rw Hc IH.
Qed.
Lemma trimZeros_value scale s : fractionValue scale (trimZeros s) = fractionValue scale s.
Proof.
  revert scale. induction s as [|c s IH]; intros scale; [done|]. cbn [trimZeros fractionValue]. rw -IH.
  destruct (trimZeros s); [|done]. destruct (Ascii.eqb_spec c "0") as [->|]; done.
Qed.
Lemma trimZeros_digits s : sall isDigit s = true -> sall isDigit (trimZeros s) = true.
Proof.
  induction s as [|c s IH]; [done|]. cbn [sall trimZeros]. intros [Hc Hs]%andb_true_iff. specialize (IH Hs).
  destruct (trimZeros s); [destruct (Ascii.eqb c "0"); cbn [sall]; [done|by rw Hc]|]. cbn [sall] in *. by rw Hc IH.
Qed.
Lemma digits_all w n : sall isDigit (digits w n) = true.
Proof.
  revert n. induction w as [|w IH]; intros n; [done|]. cbn [digits]. rw sall_app IH. cbn [sall]. rw isDigit_chr; [|done].
  apply Z.mod_pos_bound. lia.
Qed.
Lemma digits_length w n : String.length (digits w n) = w.
Proof. revert n. induction w as [|w IH]; intros n; [done|]. cbn [digits]. rw length_app_string IH. simpl. lia. Qed.
Lemma fractionValue_number acc s :
  sall isDigit s = true ->
  number (String.length s) acc s =
    Some (acc * 10 ^ Z.of_nat (String.length s) + fractionValue (10 ^ Z.of_nat (String.length s) / 10) s, "").
Proof.
  revert acc. induction s as [|c s IH]; intros acc Hs.
  - simpl. do 2 f_equal. lia.
  - cbn [sall] in Hs. apply andb_true_iff in Hs as [Hc Hs]. cbn [String.length number fractionValue]. rw Hc IH // pow10_S.
    rw (Z.mul_comm 10 (10 ^ _)) Z.div_mul //. do 2 f_equal. lia.
Qed.
Lemma digits_value n : 0 <= n < perSecond -> fractionValue 100000000 (digits 9 n) = n.
Proof.
  intros Hn. pose proof (fractionValue_number 0 (digits 9 n) (digits_all 9 n)) as Hv. rw digits_length in Hv.
  rewrite <- (app_string_nil_r (digits 9 n)) in Hv at 1. rw number_app in Hv; [exact Hn|].
  assert (Hinj : forall a b : Z, Some (a, "") = Some (b, "") -> a = b) by congruence. apply Hinj in Hv.
  change (10 ^ Z.of_nat 9 / 10) with 100000000 in Hv. lia.
Qed.

Lemma fraction_round_trip n :
  0 <= n < perSecond -> readFractionText (fractionText n +:+ "Z") = (n, "Z").
Proof.
  intros Hn. unfold fractionText. pose proof (trimZeros_value 100000000 (digits 9 n)) as Hv. rw digits_value // in Hv.
  pose proof (trimZeros_digits _ (digits_all 9 n)) as Hd. destruct (trimZeros (digits 9 n)) as [|c s] eqn:Ht.
  - simpl in Hv. by rewrite <- Hv.
  - rw app_string_assoc. cbn [sall] in Hd. pose proof Hd as [Hc _]%andb_true_iff.
    change ("." +:+ (String c s +:+ "Z")) with (String "." (String c (s +:+ "Z"))). cbn [readFractionText]. rw Hc. cbn [Ascii.eqb Bool.eqb andb].
    rewrite <- app_string_cons. rw fraction_app // Hv. done.
Qed.

Lemma number_digits w n r : 0 <= n < 10 ^ Z.of_nat w -> number w 0 (digits w n +:+ r) = Some (n, r).
Proof. intros Hn. by rw number_app. Qed.
Lemma within_ok lo hi n : lo <= n <= hi -> within lo hi n = Some tt.
Proof. intros Hn. unfold within. by rw (proj2 (Z.leb_le _ _)) ?(proj2 (Z.leb_le n hi)); [lia..|]. Qed.
Lemma expect_app c r : expect c (String c "" +:+ r) = Some r.
Proof. simpl. by rw Ascii.eqb_refl. Qed.

Lemma time_round_trip t s : timeText t = Some s -> parseTime s = Some t.
Proof.
  unfold timeText, dateText. pose proof (civil_spec (t / perSecond / 86400)) as Hc.
  destruct (civil (t / perSecond / 86400)) as [[year month] day]. destruct Hc as (Hm & Hd & Hdays). cbn [fst].
  destruct (_ || _) eqn:Hy; [done|]. apply orb_false_iff in Hy as [Hy1%Z.ltb_ge Hy2%Z.ltb_ge]. intros [= <-].
  set (s := t / perSecond mod 86400). assert (Hs : 0 <= s < 86400) by (apply Z.mod_pos_bound; lia).
  assert (Hday : daysIn month year <= 31) by (unfold daysIn; repeat case_match; lia).
  unfold parseTime. rw !app_string_assoc.
  assert (H10 : forall n, 0 <= n < 100 -> 0 <= n < 10 ^ Z.of_nat 2) by done.
  repeat first [ rw number_digits; [first [done | apply H10; euclid | change (10 ^ Z.of_nat 4) with 10000; lia]|]
               | rw expect_app | rw within_ok; [first [lia | euclid]|] | progress (cbn [mbind option_bind]; cbv iota beta) ].
  rw fraction_round_trip; [apply Z.mod_pos_bound; done|]. change (readZone "Z") with (Some 0). cbn [mbind option_bind]. f_equal.
  rw Hdays. pose proof (Z.div_mod t perSecond ltac:(done)) as H1. pose proof (Z.div_mod (t / perSecond) 86400 ltac:(done)) as H2. fold s in H2.
  assert (s / 3600 * 3600 + s / 60 mod 60 * 60 + s mod 60 = s) as H3 by euclid. unfold perSecond in *. lia.
Qed.
