(* ===== verification/Json.v ===== *)
(** * JSON: the part of [encoding/json] the program uses

    A value is a tree; the fields of a struct and the keys of a map are the
    members of an object in the order in which they are written.  Writing a
    tree gives the bytes of [json.Marshal] or of an indenting encoder; reading
    follows the grammar of the scanner and the unquoting of strings.  Strings
    of Go are bytes: what is not UTF-8 is replaced, on both sides, by U+FFFD. *)
From S2P Require Import Prelude GoText.
Local Open Scope Z_scope.

(** ** UTF-8 *)

Definition inRange (lo hi : Z) (c : ascii) : bool := (lo <=? byteZ c) && (byteZ c <=? hi).
Definition isCont (c : ascii) : bool := inRange 128 191 c.

(** The length of the character at the front of [s], 0 when there is none:
    [utf8.DecodeRuneInString] without the value. *)
Definition runeLen (s : string) : nat :=
  match s with
  | "" => 0%nat
  | String a s =>
      let b := byteZ a in
      if b <? 128 then 1%nat
      else if inRange 194 223 a then
        match s with String c1 _ => if isCont c1 then 2%nat else 0%nat | _ => 0%nat end
      else if inRange 224 239 a then
        match s with
        | String c1 (String c2 _) =>
            if inRange (if b =? 224 then 160 else 128) (if b =? 237 then 159 else 191) c1 && isCont c2 then 3%nat else 0%nat
        | _ => 0%nat
        end
      else if inRange 240 244 a then
        match s with
        | String c1 (String c2 (String c3 _)) =>
            if inRange (if b =? 240 then 144 else 128) (if b =? 244 then 143 else 191) c1 && isCont c2 && isCont c3 then 4%nat else 0%nat
        | _ => 0%nat
        end
      else 0%nat
  end.

Definition RuneError : string := String (chr 239) (String (chr 191) (String (chr 189) "")).

(** What is not a character replaced by U+FFFD, byte by byte: [skip] is what is left of
    the current character. *)
Fixpoint toValid (skip : nat) (s : string) : string :=
  match s with
  | "" => ""
  | String c s' =>
      match skip with
      | S k => String c (toValid k s')
      | O => match runeLen s with O => RuneError +:+ toValid 0 s' | S k => String c (toValid k s') end
      end
  end.
Definition validUTF8 (s : string) : bool := String.eqb (toValid 0 s) s.

(** [utf8.AppendRune] *)
Definition encodeRune (r : Z) : string :=
  let b z := chr z in
  if r <? 128 then String (b r) ""
  else if r <? 2048 then String (b (192 + r / 64)) (String (b (128 + r mod 64)) "")
  else if (55296 <=? r) && (r <=? 57343) || (1114111 <? r) then RuneError
  else if r <? 65536 then
    String (b (224 + r / 4096)) (String (b (128 + r / 64 mod 64)) (String (b (128 + r mod 64)) ""))
  else
    String (b (240 + r / 262144)) (String (b (128 + r / 4096 mod 64))
      (String (b (128 + r / 64 mod 64)) (String (b (128 + r mod 64)) ""))).

(** ** Values *)

Inductive Json :=
| JNull
| JBool (b : bool)
| JNum (text : string)
| JStr (s : string)
| JArr (items : list Json)
| JObj (members : list (string * Json)).

(** ** Writing *)

Definition quoteMark : ascii := chr 34.
Definition backslash : ascii := chr 92.
Definition hexLower (n : Z) : ascii := chr (if n <? 10 then 48 + n else 87 + n).

(** A byte below 128, escaped as [appendString] does with HTML escaping. *)
Definition quoteByte (c : ascii) : string :=
  let b := byteZ c in
  let esc d := String backslash (String d "") in
  if (b =? 34) || (b =? 92) then esc c
  else if b =? 8 then esc "b"%char
  else if b =? 12 then esc "f"%char
  else if b =? 10 then esc "n"%char
  else if b =? 13 then esc "r"%char
  else if b =? 9 then esc "t"%char
  else if (b <? 32) || (b =? 60) || (b =? 62) || (b =? 38)
  then String backslash "u00" +:+ String (hexLower (b / 16)) (String (hexLower (b mod 16)) "")
  else String c "".

(** U+2028 or U+2029 at the front. *)
Definition lineSeparator (s : string) : option ascii :=
  match s with
  | String a (String b (String c _)) =>
      if (byteZ a =? 226) && (byteZ b =? 128) && ((byteZ c =? 168) || (byteZ c =? 169))
      then Some (if byteZ c =? 168 then "8"%char else "9"%char) else None
  | _ => None
  end.

(** [keep]: the rest of the current character is copied, not dropped. *)
Fixpoint quoteBody (keep : bool) (skip : nat) (s : string) : string :=
  match s with
  | "" => ""
  | String c s' =>
      match skip with
      | S k => if keep then String c (quoteBody keep k s') else quoteBody keep k s'
      | O =>
          if byteZ c <? 128 then quoteByte c +:+ quoteBody true 0 s'
          else match lineSeparator s with
          | Some d => String backslash "u202" +:+ String d (quoteBody false 2 s')
          | None =>
              match runeLen s with
              | O => String backslash "ufffd" +:+ quoteBody true 0 s'
              | S k => String c (quoteBody true k s')
              end
          end
      end
  end.
Definition quoteString (s : string) : string := String quoteMark (quoteBody true 0 s +:+ String quoteMark "").

(** [nl depth] is what is written at a line break inside an array or object,
    [colon] what is written between a key and its value. *)
Section render.
Context (nl : nat -> string) (colon : string).
Fixpoint render (depth : nat) (j : Json) : string :=
  match j with
  | JNull => "null"
  | JBool b => if b then "true" else "false"
  | JNum text => text
  | JStr s => quoteString s
  | JArr [] => "[]"
  | JArr (j :: js) =>
      "[" +:+ nl (S depth) +:+ render (S depth) j +:+
      sconcat (map (fun j => "," +:+ nl (S depth) +:+ render (S depth) j) js) +:+ nl depth +:+ "]"
  | JObj [] => "{}"
  | JObj ((k, j) :: ms) =>
      "{" +:+ nl (S depth) +:+ quoteString k +:+ colon +:+ render (S depth) j +:+
      sconcat (map (fun m => "," +:+ nl (S depth) +:+ quoteString m.1 +:+ colon +:+ render (S depth) m.2) ms) +:+ nl depth +:+ "}"
  end.
End render.

Fixpoint spaces (n : nat) : string := match n with O => "" | S n => String " " (spaces n) end.
(** [json.Marshal] of the value with this tree. *)
Definition printJson (j : Json) : string := render (fun _ => "") ":" 0 j.
(** [Encoder.Encode] after [SetIndent("", "  ")]. *)
Definition indentJson (j : Json) : string :=
  render (fun depth => String (chr 10) (spaces (2 * depth))) ": " 0 j +:+ String (chr 10) "".

(** ** Reading *)

Definition isSpaceByte (c : ascii) : bool :=
  let b := byteZ c in (b =? 32) || (b =? 9) || (b =? 10) || (b =? 13).
Fixpoint skipWS (s : string) : string :=
  match s with
  | String c s' => if isSpaceByte c then skipWS s' else s
  | "" => ""
  end.

Definition hexVal (c : ascii) : option Z :=
  let b := byteZ c in
  if (48 <=? b) && (b <=? 57) then Some (b - 48)
  else if (97 <=? b) && (b <=? 102) then Some (b - 87)
  else if (65 <=? b) && (b <=? 70) then Some (b - 55)
  else None.
Definition hex4 (s : string) : option Z :=
  match s with
  | String a (String b (String c (String d _))) =>
      a ← hexVal a; b ← hexVal b; c ← hexVal c; d ← hexVal d;
      Some (4096 * a + 256 * b + 16 * c + d)
  | _ => None
  end.
(** The second half of a surrogate pair. *)
Definition lowHalf (s : string) : option Z :=
  match s with
  | String a (String u s) =>
      if (byteZ a =? 92) && (byteZ u =? 117)
      then r ← hex4 s; if (56320 <=? r) && (r <=? 57343) then Some r else None
      else None
  | _ => None
  end.
Definition simpleEscape (c : ascii) : option ascii :=
  let b := byteZ c in
  if (b =? 34) || (b =? 92) || (b =? 47) then Some c
  else if b =? 98 then Some (chr 8)
  else if b =? 102 then Some (chr 12)
  else if b =? 110 then Some (chr 10)
  else if b =? 114 then Some (chr 13)
  else if b =? 116 then Some (chr 9)
  else None.

Definition prepend (t : string) (r : option (string * string)) : option (string * string) :=
  (fun p => (t +:+ p.1, p.2)) <$> r.

(** What follows the opening quotation mark of a string. *)
Fixpoint unquote (fuel : nat) (s : string) : option (string * string) :=
  match fuel with
  | O => None
  | S fuel =>
      match s with
      | "" => None
      | String c s' =>
          let b := byteZ c in
          if b =? 34 then Some ("", s')
          else if b =? 92 then
            match s' with
            | "" => None
            | String e s' =>
                match simpleEscape e with
                | Some d => prepend (String d "") (unquote fuel s')
                | None =>
                    if negb (byteZ e =? 117) then None
                    else match hex4 s' with
                    | None => None
                    | Some r =>
                        let s' := sdrop 4 s' in
                        if (55296 <=? r) && (r <=? 57343) then
                          match lowHalf s' with
                          | Some low =>
                              if r <=? 56319
                              then prepend (encodeRune (65536 + 1024 * (r - 55296) + (low - 56320))) (unquote fuel (sdrop 6 s'))
                              else prepend RuneError (unquote fuel s')
                          | None => prepend RuneError (unquote fuel s')
                          end
                        else prepend (encodeRune r) (unquote fuel s')
                    end
                end
            end
          else if b <? 32 then None
          else match runeLen s with
          | O => prepend RuneError (unquote fuel s')
          | S k => prepend (stake (S k) s) (unquote fuel (sdrop k s'))
          end
      end
  end.
Definition readString (s : string) : option (string * string) := unquote (S (String.length s)) s.

Definition isDigitByte : ascii -> bool := isDigit.
Fixpoint spanDigits (s : string) : string * string :=
  match s with
  | String c s' => if isDigitByte c then let '(ds, r) := spanDigits s' in (String c ds, r) else ("", s)
  | "" => ("", "")
  end.
Definition someDigits (s : string) : option (string * string) :=
  let '(ds, r) := spanDigits s in if String.eqb ds "" then None else Some (ds, r).
Definition readSign (plus : bool) (s : string) : string * string :=
  match s with
  | String c s' => if Ascii.eqb c "-" || (plus && Ascii.eqb c "+") then (String c "", s') else ("", s)
  | "" => ("", "")
  end.
Definition readInteger (s : string) : option (string * string) :=
  match s with
  | String c s' => if Ascii.eqb c "0" then Some ("0", s') else someDigits s
  | "" => None
  end.
Definition readFraction (s : string) : option (string * string) :=
  match s with
  | String c s' => if Ascii.eqb c "." then '(ds, r) ← someDigits s'; Some (String c ds, r) else Some ("", s)
  | "" => Some ("", "")
  end.
Definition readExponent (s : string) : option (string * string) :=
  match s with
  | String c s' =>
      if Ascii.eqb c "e" || Ascii.eqb c "E"
      then let '(sign, s') := readSign true s' in '(ds, r) ← someDigits s'; Some (String c (sign +:+ ds), r)
      else Some ("", s)
  | "" => Some ("", "")
  end.
Definition readNumber (s : string) : option (string * string) :=
  let '(sign, s) := readSign false s in
  '(int, s) ← readInteger s;
  '(frac, s) ← readFraction s;
  '(exp, s) ← readExponent s;
  Some (sign +:+ int +:+ frac +:+ exp, s).

Definition maxNestingDepth : nat := Z.to_nat 10000.
Fixpoint hasPrefix (p s : string) : bool :=
  match p, s with
  | "", _ => true
  | String c p, String d s => Ascii.eqb c d && hasPrefix p s
  | _, _ => false
  end.
Definition readLiteral (text : string) (j : Json) (s : string) : option (Json * string) :=
  if hasPrefix text s then Some (j, sdrop (String.length text) s) else None.

(** [depth] is how deep the scanner may still go. *)
Fixpoint readValue (fuel : nat) (depth : nat) (s : string) : option (Json * string) :=
  match fuel with
  | O => None
  | S fuel =>
      match skipWS s with
      | "" => None
      | String c s' =>
          let b := byteZ c in
          if b =? 123 then
            match depth with
            | O => None
            | S depth =>
                match skipWS s' with
                | String e r =>
                    if Ascii.eqb e "}" then Some (JObj [], r)
                    else '(ms, r) ← readMembers fuel depth (String e r); Some (JObj ms, r)
                | "" => None
                end
            end
          else if b =? 91 then
            match depth with
            | O => None
            | S depth =>
                match skipWS s' with
                | String e r =>
                    if Ascii.eqb e "]" then Some (JArr [], r)
                    else '(js, r) ← readElements fuel depth (String e r); Some (JArr js, r)
                | "" => None
                end
            end
          else if b =? 34 then '(t, r) ← readString s'; Some (JStr t, r)
          else if b =? 116 then readLiteral "true" (JBool true) (String c s')
          else if b =? 102 then readLiteral "false" (JBool false) (String c s')
          else if b =? 110 then readLiteral "null" JNull (String c s')
          else '(text, r) ← readNumber (String c s'); Some (JNum text, r)
      end
  end
with readElements (fuel : nat) (depth : nat) (s : string) : option (list Json * string) :=
  match fuel with
  | O => None
  | S fuel =>
      '(j, r) ← readValue fuel depth s;
      match skipWS r with
      | String "," r => '(js, r) ← readElements fuel depth r; Some (j :: js, r)
      | String "]" r => Some ([j], r)
      | _ => None
      end
  end
with readMembers (fuel : nat) (depth : nat) (s : string) : option (list (string * Json) * string) :=
  match fuel with
  | O => None
  | S fuel =>
      match skipWS s with
      | String c s' =>
          if negb (byteZ c =? 34) then None
          else
            '(k, r) ← readString s';
            match skipWS r with
            | String ":" r =>
                '(j, r) ← readValue fuel depth r;
                match skipWS r with
                | String "," r => '(ms, r) ← readMembers fuel depth r; Some ((k, j) :: ms, r)
                | String "}" r => Some ([(k, j)], r)
                | _ => None
                end
            | _ => None
            end
      | "" => None
      end
  end.

(** The next value of a stream, and the rest of it. *)
Definition nextJson (s : string) : option (Json * string) := readValue (S (2 * String.length s)) maxNestingDepth s.
(** [json.Unmarshal], or [Decoder.Decode] with a check for trailing data. *)
Definition parseJson (s : string) : option Json :=
  '(j, r) ← nextJson s; if String.eqb (skipWS r) "" then Some j else None.

(** ** Strings round trip *)

Lemma stake_cons n c s : stake (S n) (String c s) = String c (stake n s).
Proof. done. Qed.
Lemma quoteBody_skip k s : quoteBody true k s = stake k s +:+ quoteBody true 0 (sdrop k s).
Proof. revert k; induction s as [|c s IH]; intros [|k]; [done..|]. simpl. by rw IH. Qed.
Lemma quoteBody_drop k s : quoteBody false k s = quoteBody false 0 (sdrop k s).
Proof. revert k; induction s as [|c s IH]; intros [|k]; [done..|]. simpl. by rw IH. Qed.
Lemma quoteBody_keep s : quoteBody false 0 s = quoteBody true 0 s.
Proof. by destruct s. Qed.
Lemma toValid_skip k s : toValid k s = stake k s +:+ toValid 0 (sdrop k s).
Proof. revert k; induction s as [|c s IH]; intros [|k]; [done..|]. simpl. by rw IH. Qed.

(** A character is recognised by its own bytes. *)
Lemma runeLen_prefix s k t : runeLen s = S k -> runeLen (stake (S k) s +:+ t) = S k /\ String.length (stake (S k) s) = S k.
Proof.
  destruct s as [|a s]; [done|]. cbn [runeLen]. destruct (byteZ a <? 128) eqn:E1.
  { intros [= <-]. simpl. by rw E1. }
  destruct (inRange 194 223 a) eqn:E2.
  { destruct s as [|c1 s]; [done|]. destruct (isCont c1) eqn:E3; [|done]. intros [= <-]. simpl. by rw E1 E2 E3. }
  destruct (inRange 224 239 a) eqn:E4.
  { destruct s as [|c1 [|c2 s]]; [done..|]. destruct (_ && _) eqn:E3; [|done]. intros [= <-]. simpl. by rw E1 E2 E4 E3. }
  destruct (inRange 240 244 a) eqn:E5; [|done].
  destruct s as [|c1 [|c2 [|c3 s]]]; [done..|]. destruct (_ && _) eqn:E3; [|done]. intros [= <-]. simpl. by rw E1 E2 E4 E5 E3.
Qed.
Lemma runeLen_high c s k : runeLen (String c s) = S k -> (byteZ c <? 128) = false -> (0 < k)%nat /\ 194 <= byteZ c.
Proof.
  cbn [runeLen]. intros Hr Hc. rw Hc in Hr. unfold inRange in Hr.
  repeat case_match; simplify_eq; repeat match goal with H : _ && _ = true |- _ => apply andb_true_iff in H as [? ?] end;
    repeat match goal with H : (_ <=? _) = true |- _ => apply Z.leb_le in H end; lia.
Qed.

Lemma prepend_prepend a b r : prepend a (prepend b r) = prepend (a +:+ b) r.
Proof. destruct r as [[t r]|]; [|done]. unfold prepend. simpl. by rw app_string_assoc. Qed.

Lemma unquote_quoteByte fuel c x :
  (byteZ c <? 128) = true -> unquote (S fuel) (quoteByte c +:+ x) = prepend (String c "") (unquote fuel x).
Proof. destruct c as [[] [] [] [] [] [] [] []]; intros Hc; try (by vm_compute in Hc); reflexivity. Qed.
Lemma quoteByte_length c : (1 <= String.length (quoteByte c))%nat.
Proof. destruct c as [[] [] [] [] [] [] [] []]; vm_compute; lia. Qed.

Definition lineBytes (d : ascii) : string :=
  String (chr 226) (String (chr 128) (String (chr (if Ascii.eqb d "8" then 168 else 169)) "")).
Lemma lineSeparator_inv c s d :
  lineSeparator (String c s) = Some d ->
  exists s2, c = chr 226 /\ s = String (chr 128) (String (chr (if Ascii.eqb d "8" then 168 else 169)) s2) /\ (d = "8"%char \/ d = "9"%char).
Proof.
  destruct s as [|b [|e s]]; [done..|]. cbn [lineSeparator]. intros Hl.
  destruct (Z.eqb_spec (byteZ c) 226) as [Hc|]; [|done]. destruct (Z.eqb_spec (byteZ b) 128) as [Hb|]; [|done]. cbn [andb] in Hl.
  rewrite <- (chr_byteZ c), <- (chr_byteZ b), <- (chr_byteZ e), Hc, Hb. exists s.
  destruct (Z.eqb_spec (byteZ e) 168) as [->|]; [injection Hl as <-; split_and!; auto|].
  destruct (Z.eqb_spec (byteZ e) 169) as [->|]; [|done]. injection Hl as <-. split_and!; auto.
Qed.

Lemma unquote_quoteBody fuel s rest :
  (String.length (quoteBody true 0 s) < fuel)%nat ->
  unquote fuel (quoteBody true 0 s +:+ String quoteMark rest) = Some (toValid 0 s, rest).
Proof.
  revert fuel. induction s as [s IH] using (induction_ltof1 _ String.length). unfold ltof in IH. intros fuel Hf.
  destruct fuel as [|fuel]; [lia|]. destruct s as [|c s]; [done|]. cbn [quoteBody toValid] in *.
  assert (Hs : forall n, (String.length (sdrop n s) < String.length (String c s))%nat) by (intros n; rw length_sdrop; simpl; lia).
  destruct (byteZ c <? 128) eqn:Hc.
  { rw app_string_assoc unquote_quoteByte //. pose proof (quoteByte_length c). rw length_app_string in Hf.
    rw (IH s (Hs 0%nat)); [lia|]. assert (runeLen (String c s) = 1%nat) as -> by (cbn [runeLen]; by rw Hc). done. }
  destruct (lineSeparator (String c s)) as [d|] eqn:Hl.
  { apply lineSeparator_inv in Hl as (s2 & -> & -> & Hd).
    cbn [quoteBody sdrop] in *. rw quoteBody_keep in Hf |- *.
    rw (app_string_assoc (String backslash "u202")) app_string_cons.
    assert (Hu : unquote (S fuel) (String backslash "u202" +:+ String d (quoteBody true 0 s2 +:+ String quoteMark rest)) =
      prepend (lineBytes d) (unquote fuel (quoteBody true 0 s2 +:+ String quoteMark rest))) by (by destruct Hd as [-> | ->]).
    rw Hu (IH s2); [simpl; lia|rw length_app_string in Hf; simpl in Hf; lia|]. by destruct Hd as [-> | ->]. }
  destruct (runeLen (String c s)) as [|k] eqn:Hr.
  { rw app_string_assoc. change (unquote (S fuel) (String backslash "ufffd" +:+ ?x)) with (prepend RuneError (unquote fuel x)).
    rw length_app_string in Hf. rw (IH s (Hs 0%nat)); [simpl in Hf; lia|done]. }
  destruct (runeLen_high _ _ _ Hr Hc) as [Hk Hb]. rw quoteBody_skip in Hf |- *.
  rw (toValid_skip k) app_string_cons app_string_assoc. set (y := quoteBody true 0 (sdrop k s) +:+ String quoteMark rest).
  destruct (runeLen_prefix _ _ y Hr) as [Hp Hlen]. cbn [stake String.length] in Hp, Hlen. rw app_string_cons in Hp. injection Hlen as Hlen.
  cbn [unquote]. destruct (Z.eqb_spec (byteZ c) 34); [lia|]. destruct (Z.eqb_spec (byteZ c) 92); [lia|]. destruct (Z.ltb_spec (byteZ c) 32); [lia|].
  assert (Hcut : stake k (stake k s +:+ y) = stake k s /\ sdrop k (stake k s +:+ y) = y).
  { revert Hlen. generalize (stake k s). intros u <-. split; [apply stake_app|apply sdrop_app]. }
  destruct Hcut as [Hc1 Hc2]. rw Hp stake_cons Hc1 Hc2. unfold y.
  cbn [String.length] in Hf; rw length_app_string Hlen in Hf. rw (IH _ (Hs k)); [simpl in Hf; lia|]. done.
Qed.

(** ** Values round trip *)

(** What reading makes of the strings. *)
Fixpoint jvalid (j : Json) : Json :=
  match j with
  | JStr s => JStr (toValid 0 s)
  | JArr js => JArr (map jvalid js)
  | JObj ms => JObj (map (fun m => (toValid 0 m.1, jvalid m.2)) ms)
  | j => j
  end.

Definition numEnd (s : string) : bool :=
  match s with
  | "" => true
  | String c _ => negb (isDigitByte c || Ascii.eqb c "." || Ascii.eqb c "e" || Ascii.eqb c "E")
  end.
(** A text that is read as a number, up to what cannot continue it. *)
Record numeric (t : string) : Prop := {
  numeric_start : match t with "" => False | String c _ => isDigitByte c = true \/ c = "-"%char end;
  numeric_read r : numEnd r = true -> readNumber (t +:+ r) = Some (t, r)
}.

Fixpoint jok (j : Json) : Prop :=
  match j with
  | JNum t => numeric t
  | JArr js => foldr (fun j P => jok j /\ P) True js
  | JObj ms => foldr (fun m P => jok m.2 /\ P) True ms
  | _ => True
  end.
Fixpoint jdepth (j : Json) : nat :=
  match j with
  | JArr js => S (foldr (fun j n => Nat.max (jdepth j) n) 0%nat js)
  | JObj ms => S (foldr (fun m n => Nat.max (jdepth m.2) n) 0%nat ms)
  | _ => 0%nat
  end.
Fixpoint jfuel (j : Json) : nat :=
  match j with
  | JArr js => S (foldr (fun j n => S (Nat.max (jfuel j) n)) 0%nat js)
  | JObj ms => S (foldr (fun m n => S (Nat.max (jfuel m.2) n)) 0%nat ms)
  | _ => 1%nat
  end.

Lemma Json_nested_ind (P : Json -> Prop) :
  P JNull -> (forall b, P (JBool b)) -> (forall t, P (JNum t)) -> (forall s, P (JStr s)) ->
  (forall js, Forall P js -> P (JArr js)) -> (forall ms, Forall (fun m => P m.2) ms -> P (JObj ms)) -> forall j, P j.
Proof.
  intros Hnull Hbool Hnum Hstr Harr Hobj. fix IH 1. intros [| | | |js|ms]; [done..| |].
  - apply Harr. induction js as [|j js IHjs]; constructor; [apply IH|apply IHjs].
  - apply Hobj. induction ms as [|[k j] ms IHms]; constructor; [apply IH|apply IHms].
Qed.

Lemma skipWS_app w x : sall isSpaceByte w = true -> skipWS (w +:+ x) = skipWS x.
Proof. induction w as [|c w IH]; [done|]. rw app_string_cons. simpl. by intros [-> Hw]%andb_true_iff; auto. Qed.
Lemma skipWS_cons c x : isSpaceByte c = false -> skipWS (String c x) = String c x.
Proof. intros Hc. simpl. by rw Hc. Qed.

Lemma readString_quote s rest : readString (quoteBody true 0 s +:+ String quoteMark rest) = Some (toValid 0 s, rest).
Proof. apply unquote_quoteBody. rw length_app_string. simpl. lia. Qed.

Section render_spec.
Context (nl : nat -> string) (gap : string).
Hypothesis Hnl : forall d, sall isSpaceByte (nl d) = true.
Hypothesis Hgap : sall isSpaceByte gap = true.
Let colon := String ":" gap.

Definition reads (depth : nat) (j : Json) : Prop :=
  forall fuel d rest, (jfuel j <= fuel)%nat -> (jdepth j <= d)%nat -> numEnd rest = true ->
    readValue fuel d (render nl colon depth j +:+ rest) = Some (jvalid j, rest).

(** Spaces in front of a value do not matter. *)
Lemma readValue_ws fuel d w s : sall isSpaceByte w = true -> readValue fuel d (w +:+ s) = readValue fuel d s.
Proof. intros Hw. destruct fuel; [done|]. cbn [readValue]. by rw skipWS_app. Qed.

Lemma readElements_ws fuel d w s : sall isSpaceByte w = true -> readElements fuel d (w +:+ s) = readElements fuel d s.
Proof. intros Hw. destruct fuel; [done|]. cbn [readElements]. by rw readValue_ws. Qed.
Lemma readMembers_ws fuel d w s : sall isSpaceByte w = true -> readMembers fuel d (w +:+ s) = readMembers fuel d s.
Proof. intros Hw. destruct fuel; [done|]. cbn [readMembers]. by rw skipWS_app. Qed.
Lemma numEnd_ws w x : sall isSpaceByte w = true -> numEnd x = true -> numEnd (w +:+ x) = true.
Proof.
  destruct w as [|c w]; [done|]. intros [Hc _]%andb_true_iff _. rw app_string_cons.
  destruct c as [[] [] [] [] [] [] [] []]; first [reflexivity|by vm_compute in Hc].
Qed.

Lemma readElements_render depth j js fuel d rest w :
  reads depth j -> Forall (reads depth) js ->
  (foldr (fun j n => S (Nat.max (jfuel j) n)) 0 (j :: js) <= fuel)%nat ->
  (foldr (fun j n => Nat.max (jdepth j) n) 0 (j :: js) <= d)%nat -> sall isSpaceByte w = true ->
  readElements fuel d (render nl colon depth j +:+
    sconcat (map (fun j => "," +:+ nl depth +:+ render nl colon depth j) js) +:+ w +:+ String "]" rest) =
  Some (map jvalid (j :: js), rest).
Proof.
  intros Hj Hjs Hf Hd Hw. revert j fuel Hj Hf Hd. induction Hjs as [|j2 js Hj2 Hjs IH]; intros j fuel Hj Hf Hd;
    (destruct fuel as [|fuel]; [simpl in Hf; lia|]); cbn [readElements foldr] in *.
  - cbn [map sconcat]. rw app_string_nil_l Hj; [lia|lia|by apply numEnd_ws|]. cbn [mbind option_bind]. cbv iota beta. by rw skipWS_app.
  - cbn [map sconcat]. rw !app_string_assoc Hj; [lia|lia|done|]. cbn [mbind option_bind]. cbv iota beta.
    rw app_string_cons skipWS_cons //. cbv iota beta. rw app_string_nil_l readElements_ws // IH //; lia.
Qed.

Lemma readMembers_render depth k j ms fuel d rest w :
  reads depth j -> Forall (fun m => reads depth m.2) ms ->
  (foldr (fun m n => S (Nat.max (jfuel m.2) n)) 0 ((k, j) :: ms) <= fuel)%nat ->
  (foldr (fun m n => Nat.max (jdepth m.2) n) 0 ((k, j) :: ms) <= d)%nat -> sall isSpaceByte w = true ->
  readMembers fuel d (quoteString k +:+ colon +:+ render nl colon depth j +:+
    sconcat (map (fun m => "," +:+ nl depth +:+ quoteString m.1 +:+ colon +:+ render nl colon depth m.2) ms) +:+ w +:+ String "}" rest) =
  Some (map (fun m => (toValid 0 m.1, jvalid m.2)) ((k, j) :: ms), rest).
Proof.
  intros Hj Hms Hf Hd Hw. revert k j fuel Hj Hf Hd. induction Hms as [|[k2 j2] ms Hj2 Hms IH]; intros k j fuel Hj Hf Hd;
    (destruct fuel as [|fuel]; [simpl in Hf; lia|]); cbn [readMembers foldr] in *; unfold quoteString at 1; rw app_string_cons skipWS_cons //;
    cbn [negb]; change (byteZ quoteMark =? 34) with true; cbn [negb]; rw app_string_assoc app_string_cons readString_quote;
    cbn [mbind option_bind]; cbv iota beta; rw app_string_nil_l; unfold colon at 1; rw app_string_cons skipWS_cons //; cbv iota beta;
    rw readValue_ws //.
  - cbn [map sconcat]. rw app_string_nil_l Hj; [simpl in *; lia|simpl in *; lia|by apply numEnd_ws|]. cbn [mbind option_bind]. cbv iota beta. by rw skipWS_app.
  - cbn [map sconcat fst snd] in *. rw !app_string_assoc Hj; [lia|lia|done|]. cbn [mbind option_bind]. cbv iota beta.
    rw app_string_cons skipWS_cons //. cbv iota beta. rw app_string_nil_l readMembers_ws // IH //; simpl; lia.
Qed.

(** The first byte of a value. *)
Definition startByte (c : ascii) : bool :=
  isDigitByte c || existsb (Ascii.eqb c) ["-"; "n"; "t"; "f"; "["; "{"; quoteMark]%char.
Lemma startByte_spec c : startByte c = true -> isSpaceByte c = false /\ c <> "]"%char /\ c <> "}"%char.
Proof. destruct c as [[] [] [] [] [] [] [] []]; intros Hc; first [by vm_compute in Hc|done]. Qed.
Lemma render_start depth j : jok j -> exists c x, render nl colon depth j = String c x /\ startByte c = true.
Proof.
  destruct j as [|[]|t|s|[|j js]|[|[k j] ms]]; intros Hj; try by eexists _, _.
  destruct Hj as [Hs _]. destruct t as [|c t]; [done|]. exists c, t. split; [done|]. unfold startByte.
  by destruct Hs as [->| ->].
Qed.

Lemma numeric_dispatch t fuel d rest : numeric t -> numEnd rest = true -> readValue (S fuel) d (t +:+ rest) = Some (JNum t, rest).
Proof.
  intros [Hs Hr] Hrest. specialize (Hr rest Hrest). destruct t as [|c t]; [done|]. rw app_string_cons in Hr |- *. cbn [readValue].
  assert (Hc : isSpaceByte c = false /\ byteZ c <> 123 /\ byteZ c <> 91 /\ byteZ c <> 34 /\ byteZ c <> 116 /\ byteZ c <> 102 /\ byteZ c <> 110).
  { destruct Hs as [Hd| ->]; [|done]. unfold isDigitByte, isDigit in Hd. unfold isSpaceByte. split_and!; lia. }
  destruct Hc as (Hsp & H1 & H2 & H3 & H4 & H5 & H6). rw skipWS_cons // !(proj2 (Z.eqb_neq (byteZ c) _)) //. by rw Hr.
Qed.

Lemma render_reads j depth : jok j -> reads depth j.
Proof.
  revert depth. induction j as [|b|t|s|js IH|ms IH] using Json_nested_ind; intros depth Hok fuel d rest Hf Hd Hrest;
    (destruct fuel as [|fuel]; [simpl in Hf; lia|]); cbn [jvalid].
  - done.
  - by destruct b.
  - by apply numeric_dispatch.
  - cbn [render]. unfold quoteString. rw app_string_cons app_string_assoc. cbn [readValue]. rw skipWS_cons //. cbv zeta.
    change (byteZ quoteMark =? 123) with false. change (byteZ quoteMark =? 91) with false. change (byteZ quoteMark =? 34) with true.
    cbv iota. by rw app_string_cons readString_quote.
  - destruct js as [|j js]; [destruct d; [simpl in Hd; lia|done]|]. apply Forall_cons in IH as [IHj IHjs]. destruct Hok as [Hj Hjs].
    destruct d as [|d]; [simpl in Hd; lia|]. cbn [render]. rw !app_string_assoc. cbn [readValue]. change ("[" +:+ ?x) with (String "[" x).
    rw skipWS_cons //. cbv zeta. change (byteZ "[" =? 123) with false. change (byteZ "[" =? 91) with true. cbv iota.
    rw skipWS_app //. destruct (render_start (S depth) j Hj) as (c & x & Hx & (Hsp & Hc1 & _)%startByte_spec).
    pose proof (readElements_render (S depth) j js fuel d rest (nl depth)) as Hel. rw Hx in Hel |- *.
    rw app_string_cons in Hel |- *. rw skipWS_cons // (proj2 (Ascii.eqb_neq c _) Hc1) Hel //; [by apply IHj| |simpl in *; lia|simpl in *; lia].
    clear - IHjs Hjs. induction IHjs as [|j js Hj Hjs' IH]; [constructor|]. destruct Hjs as [H1 H2]. constructor; [by apply Hj|auto].
  - destruct ms as [|[k j] ms]; [destruct d; [simpl in Hd; lia|done]|]. apply Forall_cons in IH as [IHj IHms]. destruct Hok as [Hj Hms].
    destruct d as [|d]; [simpl in Hd; lia|]. cbn [render]. rw !app_string_assoc. cbn [readValue]. change ("{" +:+ ?x) with (String "{" x).
    rw skipWS_cons //. cbv zeta. change (byteZ "{" =? 123) with true. cbv iota.
    rw skipWS_app //. pose proof (readMembers_render (S depth) k j ms fuel d rest (nl depth)) as Hel.
    unfold quoteString in Hel at 1. unfold quoteString at 1. rw app_string_cons in Hel |- *. rw skipWS_cons //.
    change (Ascii.eqb quoteMark "}") with false. cbv iota. rw Hel //; [by apply IHj| |simpl in *; lia|simpl in *; lia].
    clear - IHms Hms. induction IHms as [|m ms Hm Hms' IH]; [constructor|]. destruct Hms as [H1 H2]. constructor; [by apply Hm|auto].
Qed.
End render_spec.

Lemma jfuel_length nl colon j depth : jok j -> (jfuel j <= 2 * String.length (render nl colon depth j))%nat.
Proof.
  revert depth. induction j as [|b|t|s|js IH|ms IH] using Json_nested_ind; intros depth Hok; cbn [jfuel]; try (simpl; lia).
  - destruct b; simpl; lia.
  - destruct Hok as [Hs _]. destruct t; [done|]. simpl. lia.
  - destruct js as [|j js]; [simpl; lia|]. apply Forall_cons in IH as [IHj IH]. destruct Hok as [Hj Hjs]. specialize (IHj (S depth) Hj).
    assert (Hl : (foldr (fun j n => S (Nat.max (jfuel j) n)) 0 js <=
      2 * String.length (sconcat (map (fun j => "," +:+ nl (S depth) +:+ render nl colon (S depth) j) js)))%nat).
    { clear IHj Hj. induction IH as [|x l Hx Hl IH2]; [simpl; lia|]. destruct Hjs as [H1 H2]. specialize (Hx (S depth) H1). specialize (IH2 H2).
      cbn [foldr map sconcat]. rw !length_app_string. simpl String.length at 1. lia. }
    cbn [render foldr]. rw !length_app_string. simpl String.length at 1. lia.
  - destruct ms as [|[k j] ms]; [simpl; lia|]. apply Forall_cons in IH as [IHj IH]. destruct Hok as [Hj Hms]. specialize (IHj (S depth) Hj).
    assert (Hl : (foldr (fun m n => S (Nat.max (jfuel m.2) n)) 0 ms <=
      2 * String.length (sconcat (map (fun m => "," +:+ nl (S depth) +:+ quoteString m.1 +:+ colon +:+ render nl colon (S depth) m.2) ms)))%nat).
    { clear IHj Hj. induction IH as [|x l Hx Hl IH2]; [simpl; lia|]. destruct Hms as [H1 H2]. specialize (Hx (S depth) H1). specialize (IH2 H2).
      cbn [foldr map sconcat]. rw !length_app_string. simpl String.length at 1. lia. }
    cbn [render foldr snd]. cbn [snd] in IHj. rw !length_app_string. simpl String.length at 1. lia.
Qed.

(** What is written is read back, up to the bytes that are not UTF-8. *)
Lemma parse_render nl gap j w :
  (forall d, sall isSpaceByte (nl d) = true) -> sall isSpaceByte gap = true -> sall isSpaceByte w = true ->
  jok j -> (jdepth j <= maxNestingDepth)%nat ->
  parseJson (render nl (String ":" gap) 0 j +:+ w) = Some (jvalid j).
Proof.
  intros Hnl Hgap Hw Hok Hd. unfold parseJson, nextJson. pose proof (jfuel_length nl (String ":" gap) j 0 Hok).
  rw (render_reads nl gap Hnl Hgap j 0 Hok) //; [rw length_app_string; lia|rewrite <- (app_string_nil_r w); by apply numEnd_ws|].
  cbn [mbind option_bind]. cbv iota beta. assert (skipWS w = "") as ->; [|done].
  rewrite <- (app_string_nil_r w). by rw skipWS_app.
Qed.
Lemma parse_print j : jok j -> (jdepth j <= maxNestingDepth)%nat -> parseJson (printJson j) = Some (jvalid j).
Proof. intros Hok Hd. unfold printJson. rewrite <- (app_string_nil_r (render _ _ _ _)). by apply parse_render. Qed.
Lemma sall_spaces n : sall isSpaceByte (spaces n) = true.
Proof. induction n as [|n IH]; [done|]. simpl. by rw IH. Qed.
Lemma parse_indent j : jok j -> (jdepth j <= maxNestingDepth)%nat -> parseJson (indentJson j) = Some (jvalid j).
Proof. intros Hok Hd. unfold indentJson. apply parse_render; try done. intros d. apply sall_spaces. Qed.

(** ** Integers are numbers *)

Lemma spanDigits_app ds r : sall isDigit ds = true -> numEnd r = true -> spanDigits (ds +:+ r) = (ds, r).
Proof.
  intros Hds Hr. induction ds as [|c ds IH].
  - destruct r as [|c r]; [done|]. simpl in *. by destruct (isDigitByte c).
  - rw app_string_cons. cbn [spanDigits sall] in *. apply andb_true_iff in Hds as [Hc Hds]. unfold isDigitByte. by rw Hc IH.
Qed.
Lemma readTail r : numEnd r = true -> readFraction r = Some ("", r) /\ readExponent r = Some ("", r).
Proof.
  destruct r as [|c r]; [done|]. simpl. destruct (isDigitByte c), (Ascii.eqb c "."), (Ascii.eqb c "e"), (Ascii.eqb c "E"); done.
Qed.
Lemma readNumber_int sign t r :
  sign = "" \/ sign = "-" -> numEnd r = true ->
  t = "0" \/ (exists d s, t = String (chr (48 + d)) s /\ 1 <= d < 10 /\ sall isDigit s = true) ->
  readNumber (sign +:+ t +:+ r) = Some (sign +:+ t, r).
Proof.
  intros Hsign Hr Ht. unfold readNumber.
  assert (Hint : readInteger (t +:+ r) = Some (t, r)).
  { destruct Ht as [->|(d & s & -> & Hd & Hs)]; [done|]. rw app_string_cons. cbn [readInteger].
    assert (Hne : Ascii.eqb (chr (48 + d)) "0" = false).
    { apply Ascii.eqb_neq. intros Heq. apply (f_equal byteZ) in Heq. rw byteZ_chr in Heq; [lia|]. change (byteZ "0") with 48 in Heq. lia. }
    rw Hne. unfold someDigits. rewrite <- app_string_cons.
    rw spanDigits_app //. cbn [sall]. by rw isDigit_chr; [lia|]. }
  assert (Hsg : readSign false (sign +:+ t +:+ r) = (sign, t +:+ r)).
  { destruct Hsign as [->| ->]; [|done]. rw app_string_nil_l. destruct Ht as [->|(d & s & -> & Hd & Hs)]; [done|]. rw app_string_cons.
    cbn [readSign]. assert (Ascii.eqb (chr (48 + d)) "-" = false) as ->; [|done].
    apply Ascii.eqb_neq. intros Heq. apply (f_equal byteZ) in Heq. rw byteZ_chr in Heq; [lia|]. change (byteZ "-") with 45 in Heq. lia. }
  rw Hsg Hint. cbn [mbind option_bind]. cbv iota beta. destruct (readTail r Hr) as [-> Hexp]. cbn [mbind option_bind]. cbv iota beta.
  rw Hexp. cbn [mbind option_bind]. cbv iota beta. by rw !app_string_nil_r.
Qed.

Lemma numeric_FormatUint n : 0 <= n <= maxUint64 -> numeric (FormatUint n).
Proof.
  intros Hn. assert (Hs : FormatUint n = "0" \/ exists d s, FormatUint n = String (chr (48 + d)) s /\ 1 <= d < 10 /\ sall isDigit s = true).
  { destruct (decide (n = 0)) as [->|]; [by left|]. right. apply FormatUint_shape. lia. }
  split.
  - destruct Hs as [->|(d & s & -> & Hd & _)]; [by left|]. left. apply isDigit_chr. lia.
  - intros r Hr. pose proof (readNumber_int "" (FormatUint n) r (or_introl eq_refl) Hr Hs) as Hx. by rw !app_string_nil_l in Hx.
Qed.
Lemma numeric_FormatInt n : int64_range n -> numeric (FormatInt n).
Proof.
  intros Hn. unfold FormatInt. destruct (Z.ltb_spec n 0).
  - pose proof (FormatInt_range_abs n Hn ltac:(lia)) as Hr. split; [by right|]. intros r Hend.
    apply (readNumber_int "-" (FormatUint (- n)) r); [by right|done|]. right. by apply FormatUint_shape.
  - apply numeric_FormatUint. unfold int64_range, maxInt64, maxUint64 in *. lia.
Qed.
