(* ===== verification/JsonCodec.v ===== *)
(** * Go values as JSON: what [encoding/json] does with the types of the program

    Encoding gives the tree of a value.  Decoding is into an existing value, as
    in Go: an absent field keeps what is there, [null] changes nothing but sets
    slices to nil, the elements of a slice are decoded into the array behind it.
    A field is found by its name, or else by its name up to case. *)
From S2P Require Import Prelude Encoding GoText GoTime Json.
Local Open Scope Z_scope.

(** ** Base 64 *)

Definition b64Char (n : Z) : ascii :=
  if n <? 26 then chr (65 + n)
  else if n <? 52 then chr (71 + n)
  else if n <? 62 then chr (n - 4)
  else if n =? 62 then "+"%char else "/"%char.
Definition b64Value (c : ascii) : option Z :=
  let b := byteZ c in
  if (65 <=? b) && (b <=? 90) then Some (b - 65)
  else if (97 <=? b) && (b <=? 122) then Some (b - 71)
  else if (48 <=? b) && (b <=? 57) then Some (b + 4)
  else if b =? 43 then Some 62
  else if b =? 47 then Some 63
  else None.
Fixpoint base64 (s : string) : string :=
  match s with
  | "" => ""
  | String a "" =>
      let n := byteZ a in
      String (b64Char (n / 4)) (String (b64Char (n mod 4 * 16)) "==")
  | String a (String b "") =>
      let n := byteZ a * 256 + byteZ b in
      String (b64Char (n / 1024)) (String (b64Char (n / 16 mod 64)) (String (b64Char (n mod 16 * 4)) "="))
  | String a (String b (String c s)) =>
      let n := (byteZ a * 256 + byteZ b) * 256 + byteZ c in
      String (b64Char (n / 262144)) (String (b64Char (n / 4096 mod 64))
        (String (b64Char (n / 64 mod 64)) (String (b64Char (n mod 64)) (base64 s))))
  end.

(** Line breaks are skipped; what is left over of the last digit is ignored. *)
Fixpoint dropBreaks (s : string) : string :=
  match s with
  | "" => ""
  | String c s => if (byteZ c =? 10) || (byteZ c =? 13) then dropBreaks s else String c (dropBreaks s)
  end.
Fixpoint unbase64_from (s : string) : option string :=
  match s with
  | "" => Some ""
  | String a (String b (String c (String d s))) =>
      a ← b64Value a; b ← b64Value b;
      if Ascii.eqb c "=" then
        if Ascii.eqb d "=" && String.eqb s "" then Some (String (chr (a * 4 + b / 16)) "") else None
      else
        c ← b64Value c;
        if Ascii.eqb d "=" then
          if String.eqb s "" then Some (String (chr (a * 4 + b / 16)) (String (chr (b mod 16 * 16 + c / 4)) "")) else None
        else
          d ← b64Value d; rest ← unbase64_from s;
          Some (String (chr (a * 4 + b / 16)) (String (chr (b mod 16 * 16 + c / 4)) (String (chr (c mod 4 * 64 + d)) rest)))
  | _ => None
  end.
Definition unbase64 (s : string) : option string := unbase64_from (dropBreaks s).

Lemma b64Value_char n : 0 <= n < 64 -> b64Value (b64Char n) = Some n.
Proof.
  intros Hn. assert (Hall : forallb (fun i => bool_decide (b64Value (b64Char (Z.of_nat i)) = Some (Z.of_nat i))) (seq 0 64) = true)
    by (vm_compute; reflexivity).
  rewrite -> forallb_forall in Hall. specialize (Hall (Z.to_nat n)). rw in_seq in Hall. specialize (Hall ltac:(lia)).
  apply bool_decide_eq_true in Hall. by rw Z2Nat.id in Hall; [lia|].
Qed.
Lemma b64Char_plain n : 0 <= n < 64 -> Ascii.eqb (b64Char n) "=" = false /\ (byteZ (b64Char n) =? 10) || (byteZ (b64Char n) =? 13) = false.
Proof.
  intros Hn. assert (Hall : forallb (fun i => negb (Ascii.eqb (b64Char (Z.of_nat i)) "=") &&
    negb ((byteZ (b64Char (Z.of_nat i)) =? 10) || (byteZ (b64Char (Z.of_nat i)) =? 13))) (seq 0 64) = true) by (vm_compute; reflexivity).
  rewrite -> forallb_forall in Hall. specialize (Hall (Z.to_nat n)). rw in_seq in Hall. specialize (Hall ltac:(lia)).
  rw Z2Nat.id in Hall; [lia|]. by apply andb_true_iff in Hall as [?%negb_true_iff ?%negb_true_iff].
Qed.

Lemma dropBreaks_char n s : 0 <= n < 64 -> dropBreaks (String (b64Char n) s) = String (b64Char n) (dropBreaks s).
Proof. intros Hn. cbn [dropBreaks]. by rw (proj2 (b64Char_plain n Hn)). Qed.

Lemma unbase64_base64 s : unbase64 (base64 s) = Some s.
Proof.
  unfold unbase64. induction s as [s IH] using (induction_ltof1 _ String.length). unfold ltof in IH.
  destruct s as [|a [|b [|c s]]]; [done|..]; pose proof (byteZ_range a) as Ha; cbn [base64]; cbv zeta.
  - rw !dropBreaks_char; [euclid..|]. cbn [dropBreaks unbase64_from]. rw !b64Value_char; [euclid..|]. cbn.
    do 2 f_equal. rewrite <- (chr_byteZ a) at 3. f_equal. euclid.
  - pose proof (byteZ_range b) as Hb. rw !dropBreaks_char; [euclid..|]. cbn [dropBreaks unbase64_from]. rw !b64Value_char; [euclid..|].
    cbn [mbind option_bind]. rw (proj1 (b64Char_plain _ _)); [euclid|]. cbn.
    do 2 f_equal; [rewrite <- (chr_byteZ a) at 3; f_equal; euclid|]. f_equal. rewrite <- (chr_byteZ b) at 3. f_equal. euclid.
  - pose proof (byteZ_range b) as Hb. pose proof (byteZ_range c) as Hc. rw !dropBreaks_char; [euclid..|]. cbn [unbase64_from].
    rw !b64Value_char; [euclid..|]. cbn [mbind option_bind]. rw !(proj1 (b64Char_plain _ _)); [euclid..|].
    cbn [mbind option_bind]. rw IH; [simpl; lia|]. cbn [mbind option_bind].
    do 2 f_equal; [rewrite <- (chr_byteZ a) at 3; f_equal; euclid|]. f_equal; [rewrite <- (chr_byteZ b) at 3; f_equal; euclid|].
    f_equal. rewrite <- (chr_byteZ c) at 3. f_equal. euclid.
Qed.

(** ** Decoding *)

(** The name of a field up to case: [k] and [s] have a third form each. *)
Fixpoint foldName (s : string) : string :=
  match s with
  | "" => ""
  | String a s' =>
      match s' with
      | String b s2 =>
          match s2 with
          | String c s3 =>
              if (byteZ a =? 226) && (byteZ b =? 132) && (byteZ c =? 170) then String "K" (foldName s3)
              else if (byteZ a =? 197) && (byteZ b =? 191) then String "S" (foldName s2)
              else String (toUpperByte a) (foldName s')
          | "" =>
              if (byteZ a =? 197) && (byteZ b =? 191) then String "S" (foldName s2)
              else String (toUpperByte a) (foldName s')
          end
      | "" => String (toUpperByte a) ""
      end
  end.

(** A decoder changes a value, or fails. *)
Definition Dec (A : Type) : Type := Json -> A -> option A.

Definition decString : Dec string := fun j old =>
  match j with JStr s => Some s | JNull => Some old | _ => None end.
Definition decBool : Dec bool := fun j old =>
  match j with JBool b => Some b | JNull => Some old | _ => None end.
Definition decUint (max : Z) : Dec Z := fun j old =>
  match j with
  | JNum text => n ← ParseUint text; if n <=? max then Some n else None
  | JNull => Some old
  | _ => None
  end.
Definition decInt (min max : Z) : Dec Z := fun j old =>
  match j with
  | JNum text => n ← ParseInt text; if (min <=? n) && (n <=? max) then Some n else None
  | JNull => Some old
  | _ => None
  end.
Definition decUint32 : Dec Z := decUint 4294967295.
Definition decUint64 : Dec Z := decUint maxUint64.
Definition decInt64 : Dec Z := decInt minInt64 maxInt64.
(** A [[]byte] is base 64; the nil slice is the empty string here. *)
Definition decBytes : Dec string := fun j old =>
  match j with JStr s => unbase64 s | JNull => Some "" | _ => None end.
Definition decTime : Dec Z := fun j old =>
  match j with JStr s => parseTime s | JNull => Some old | _ => None end.

(** A slice with what its array holds past the length. *)
Record Slice (A : Type) := mkSlice { visible : list A; hidden : list A }.
Arguments mkSlice {A}. Arguments visible {A}. Arguments hidden {A}.
Fixpoint decElements {A} (zero : A) (dec : Dec A) (js : list Json) (array : list A) : option (list A) :=
  match js with
  | [] => Some []
  | j :: js => x ← dec j (default zero (head array)); xs ← decElements zero dec js (tail array); Some (x :: xs)
  end.
Definition decSlice {A} (zero : A) (dec : Dec A) : Dec (Slice A) := fun j old =>
  match j with
  | JNull | JArr [] => Some (mkSlice [] [])
  | JArr js =>
      let array := visible old ++ hidden old in
      xs ← decElements zero dec js array; Some (mkSlice xs (drop (length js) array))
  | _ => None
  end.

(** A map keeps its entries; a value is decoded into a new element. *)
Fixpoint decEntries {A} (zero : A) (dec : Dec A) (ms : list (string * Json)) (m : gmap string A) : option (gmap string A) :=
  match ms with
  | [] => Some m
  | (k, j) :: ms => x ← dec j zero; decEntries zero dec ms (<[k := x]> m)
  end.
Definition decMap {A} (zero : A) (dec : Dec A) : Dec (gmap string A) := fun j old =>
  match j with JNull => Some ∅ | JObj ms => decEntries zero dec ms old | _ => None end.

(** The field that a key names. *)
Definition resolve (names : list string) (key : string) : option string :=
  if existsb (String.eqb key) names then Some key
  else List.find (fun name => String.eqb (foldName name) (foldName key)) names.
Definition names_field (names : list string) (key name : string) : bool :=
  match resolve names key with Some n => String.eqb n name | None => false end.
(** The members of an object that name a field are decoded one after the
    other. *)
Fixpoint getField (names : list string) {A} (name : string) (dec : Dec A) (ms : list (string * Json)) (old : A) : option A :=
  match ms with
  | [] => Some old
  | (k, j) :: ms =>
      if names_field names k name then x ← dec j old; getField names name dec ms x else getField names name dec ms old
  end.
Definition Getter : Type := forall A, string -> Dec A -> A -> option A.
(** [strict]: unknown fields are an error. *)
Definition decStruct {S} (strict : bool) (names : list string) (build : Getter -> S -> option S) : Dec S := fun j s =>
  match j with
  | JNull => Some s
  | JObj ms =>
      if strict && existsb (fun m => match resolve names m.1 with Some _ => false | None => true end) ms then None
      else build (fun A name dec old => getField names name dec ms old) s
  | _ => None
  end.

(** ** Encoding *)

Definition encUint (n : Z) : Json := JNum (FormatUint n).
Definition encInt (n : Z) : Json := JNum (FormatInt n).
Definition encBytes (s : string) : Json := if String.eqb s "" then JNull else JStr (base64 s).
(** [omitempty] *)
Definition omitString (name s : string) : list (string * Json) := if String.eqb s "" then [] else [(name, JStr s)].
Definition omitUint (name : string) (n : Z) : list (string * Json) := if n =? 0 then [] else [(name, encUint n)].
Definition omitList {A} (name : string) (enc : A -> Json) (l : list A) : list (string * Json) :=
  match l with [] => [] | _ => [(name, JArr (map enc l))] end.
Definition omitBool (name : string) (b : bool) : list (string * Json) := if b then [(name, JBool b)] else [].

(** ** Lemmas *)

Lemma getField_app names {A} name (dec : Dec A) a b old :
  getField names name dec (a ++ b) old = getField names name dec a old ≫= getField names name dec b.
Proof.
  revert old. induction a as [|[k j] a IH]; intros old; [done|]. cbn [app getField].
  destruct (names_field names k name); [|apply IH]. destruct (dec j old); [apply IH|done].
Qed.

Definition utf8 (s : string) : Prop := toValid 0 s = s.
Lemma toValid_ascii s : sall (fun c => byteZ c <? 128) s = true -> utf8 s.
Proof.
  unfold utf8. induction s as [|c s IH]; [done|]. cbn [sall]. intros [Hc Hs]%andb_true_iff. cbn [toValid].
  assert (runeLen (String c s) = 1%nat) as -> by (cbn [runeLen]; by rw Hc). by rw (IH Hs).
Qed.
Lemma hexEncode_utf8 x : utf8 (hexEncode x).
Proof. apply toValid_ascii. induction x as [|c x IH]; [done|]. cbn [hexEncode sall]. rw IH. by destruct c as [[] [] [] [] [] [] [] []]. Qed.
Lemma utf8_base64 s : utf8 (base64 s).
Proof.
  apply toValid_ascii. assert (Hc : forall n, 0 <= n < 64 -> (byteZ (b64Char n) <? 128) = true).
  { intros n Hn. unfold b64Char. destruct (Z.ltb_spec n 26); [rw byteZ_chr; lia|]. destruct (Z.ltb_spec n 52); [rw byteZ_chr; lia|].
    destruct (Z.ltb_spec n 62); [rw byteZ_chr; lia|]. by destruct (n =? 62). }
  induction s as [s IH] using (induction_ltof1 _ String.length). unfold ltof in IH.
  destruct s as [|a [|b [|c s]]]; [done|..]; pose proof (byteZ_range a); cbn [base64 sall]; cbv zeta.
  - rw !Hc; [euclid..|done].
  - pose proof (byteZ_range b). rw !Hc; [euclid..|done].
  - pose proof (byteZ_range b). pose proof (byteZ_range c). rw !Hc; [euclid..|]. rw IH; [simpl; lia|done].
Qed.

Lemma decUint_enc max n old : 0 <= n <= max -> max <= maxUint64 -> decUint max (encUint n) old = Some n.
Proof. intros Hn Hm. cbn [decUint encUint]. rw ParseUint_FormatUint; [lia|]. cbn. by rw (proj2 (Z.leb_le n max)); [lia|]. Qed.
Lemma decInt64_enc n old : int64_range n -> decInt64 (encInt n) old = Some n.
Proof.
  intros Hn. cbn. rw ParseInt_FormatInt //. cbn. unfold int64_range in Hn. by rw !(proj2 (Z.leb_le _ _)); [lia..|].
Qed.
Lemma decBytes_enc s old : decBytes (encBytes s) old = Some s.
Proof. unfold encBytes. destruct (String.eqb_spec s "") as [->|]; [done|]. apply unbase64_base64. Qed.
Lemma decElements_enc {A} (zero : A) (dec : Dec A) (enc : A -> Json) l :
  Forall (fun x => dec (enc x) zero = Some x) l -> decElements zero dec (map enc l) [] = Some l.
Proof. induction 1 as [|x l Hx Hl IH]; [done|]. cbn [map decElements head default from_option id tail]. by rw Hx /= IH. Qed.
Lemma decSlice_enc {A} (zero : A) (dec : Dec A) (enc : A -> Json) l :
  Forall (fun x => dec (enc x) zero = Some x) l -> decSlice zero dec (JArr (map enc l)) (mkSlice [] []) = Some (mkSlice l []).
Proof.
  intros Hl. destruct l as [|x l]; [done|]. unfold decSlice. cbn [map visible hidden app]. rw (decElements_enc zero dec enc (x :: l)) //.
Qed.

(** Trees that are read back as they are, up to [depth] deep. *)
Record faithful (depth : nat) (j : Json) : Prop := {
  fa_ok : jok j;
  fa_valid : jvalid j = j;
  fa_depth : (jdepth j <= depth)%nat
}.
Lemma faithful_str d s : utf8 s -> faithful d (JStr s).
Proof. intros Hs. split; [done|simpl; by rw Hs|simpl; lia]. Qed.
Lemma faithful_uint d n : 0 <= n <= maxUint64 -> faithful d (encUint n).
Proof. intros Hn. split; [by apply numeric_FormatUint|done|simpl; lia]. Qed.
Lemma faithful_int d n : int64_range n -> faithful d (encInt n).
Proof. intros Hn. split; [by apply numeric_FormatInt|done|simpl; lia]. Qed.
Lemma faithful_bytes d s : faithful d (encBytes s).
Proof. unfold encBytes. destruct (String.eqb s ""); [split; simpl; [done|done|lia]|]. apply faithful_str, utf8_base64. Qed.
Lemma faithful_bool d b : faithful d (JBool b).
Proof. split; [done|done|simpl; lia]. Qed.
Lemma faithful_arr d js : Forall (faithful d) js -> faithful (S d) (JArr js).
Proof.
  intros Hjs. split.
  - induction Hjs as [|j js [Hj _ _] Hjs IH]; simpl in *; auto.
  - simpl. f_equal. induction Hjs as [|j js [_ Hj _] Hjs IH]; simpl; [done|]. by rw Hj IH.
  - simpl. apply le_n_S. induction Hjs as [|j js [_ _ Hj] Hjs IH]; simpl in *; lia.
Qed.
Lemma faithful_obj d ms : Forall (fun m => utf8 m.1 /\ faithful d m.2) ms -> faithful (S d) (JObj ms).
Proof.
  intros Hms. split.
  - induction Hms as [|m ms [_ [Hj _ _]] Hms IH]; simpl in *; auto.
  - simpl. f_equal. induction Hms as [|[k j] ms [Hk [_ Hj _]] Hms IH]; simpl in *; [done|]. by rw Hk Hj IH.
  - simpl. apply le_n_S. induction Hms as [|m ms [_ [_ _ Hj]] Hms IH]; simpl in *; lia.
Qed.
Lemma faithful_weaken d d' j : faithful d j -> (d <= d')%nat -> faithful d' j.
Proof. intros [Hok Hv Hd] Hle. split; [done|done|lia]. Qed.
Create HintDb faithful.
#[export] Hint Resolve faithful_str faithful_uint faithful_int faithful_bytes faithful_bool : faithful.
(** Members with literal keys. *)
Ltac members := repeat first [apply Forall_nil_2 | apply Forall_cons_2; [split; [reflexivity|eauto with faithful]|]].

(** The text of a time is plain. *)
Definition plain (s : string) : bool := sall (fun c => byteZ c <? 128) s.
Lemma plain_digits s : sall isDigit s = true -> plain s = true.
Proof.
  unfold plain. induction s as [|c s IH]; [done|]. cbn [sall]. intros [Hc Hs]%andb_true_iff. rw (IH Hs). unfold isDigit in Hc. lia.
Qed.
Lemma utf8_time t s : timeText t = Some s -> utf8 s.
Proof.
  unfold timeText, dateText. destruct (civil _) as [[year month] day]. cbn [fst]. destruct (_ || _); [done|]. intros Heq.
  apply (inj Some) in Heq as <-. apply toValid_ascii.
  assert (Hd : forall w n, sall (fun c => byteZ c <? 128) (digits w n) = true) by (intros; apply plain_digits, digits_all).
  assert (Hf : forall n, sall (fun c => byteZ c <? 128) (fractionText n) = true).
  { intros n. unfold fractionText. pose proof (plain_digits _ (trimZeros_digits _ (digits_all 9 n))) as Ht.
    destruct (trimZeros (digits 9 n)); [done|]. rw sall_app. exact Ht. }
  generalize (Hd 4%nat year) (Hd 2%nat). generalize (digits 4 year) (digits 2). intros y d Hy Hd2. by rw !sall_app Hy !Hd2 Hf.
Qed.
