(* ===== verification/JsonPrefix.v ===== *)
(** * Truncated JSON

    Reading is local: what follows a value does not change where it ends.  So a
    text that is cut off before its end is not read as a value.  The strings of a
    value are no longer than its text. *)
From S2P Require Import Prelude GoText Json JsonCodec.
Local Open Scope Z_scope.

(** ** Strings *)

Lemma skipWS_extend s t c x : skipWS s = String c x -> skipWS (s +:+ t) = String c (x +:+ t).
Proof. induction s as [|d s IH]; [done|]. rw app_string_cons. cbn [skipWS]. destruct (isSpaceByte d); [done|]. by intros [= -> ->]. Qed.

Lemma sdrop_extend k s t : (k <= String.length s)%nat -> sdrop k (s +:+ t) = sdrop k s +:+ t.
Proof.
  revert k; induction s as [|c s IH]; intros [|k] Hk; [done|simpl in Hk; lia|done|]. rw app_string_cons. cbn [sdrop].
  apply IH. simpl in Hk. lia.
Qed.

Lemma hex4_extend s t r : hex4 s = Some r -> hex4 (s +:+ t) = Some r /\ (4 <= String.length s)%nat.
Proof. destruct s as [|a [|b [|c [|d s]]]]; [done..|]. intros Hr. split; [done|simpl; lia]. Qed.
Lemma lowHalf_extend s t r : lowHalf s = Some r -> lowHalf (s +:+ t) = Some r /\ (6 <= String.length s)%nat.
Proof.
  destruct s as [|a [|u s]]; [done..|]. rw !app_string_cons. cbn [lowHalf]. destruct (_ && _); [|done].
  destruct (hex4 s) as [x|] eqn:Hx; [|done]. apply (hex4_extend s t) in Hx as [-> Hlen]. intros Hr. split; [done|simpl; lia].
Qed.
(** An escape that is cut off ends the reading. *)
Lemma lowHalf_cut s t r fuel : lowHalf s = None -> lowHalf (s +:+ t) = Some r -> unquote fuel s = None.
Proof.
  destruct s as [|a [|u s]]; [by destruct fuel|..].
  - intros _ Hr. destruct fuel; [done|]. destruct t as [|u t]; [done|].
    change (lowHalf (String a (String u t)) = Some r) in Hr. cbn [lowHalf] in Hr.
    destruct (byteZ a =? 92) eqn:Ha; [|done]. cbn [unquote]. rw Ha. apply Z.eqb_eq in Ha. by rw Ha.
  - rw !app_string_cons. cbn [lowHalf]. destruct (byteZ a =? 92) eqn:Ha; [|done]. destruct (byteZ u =? 117) eqn:Hu; [|done]. cbn [andb].
    destruct (hex4 s) as [x|] eqn:Hx.
    + intros Hn. apply (hex4_extend s t) in Hx as [-> _]. by rw Hn.
    + intros _ _. destruct fuel; [done|]. cbn [unquote]. rw Ha. apply Z.eqb_eq in Ha. rw Ha. cbn [Z.eqb Pos.eqb].
      apply Z.eqb_eq in Hu. unfold simpleEscape. rw Hu. cbn [Z.eqb Pos.eqb orb negb]. by rw Hx.
Qed.

Lemma unquote_high fuel s : sall (fun c => 128 <=? byteZ c) s = true -> unquote fuel s = None.
Proof.
  revert s; induction fuel as [|fuel IH]; intros s Hs; [done|]. destruct s as [|c s]; [done|]. cbn [sall] in Hs.
  apply andb_true_iff in Hs as [Hc Hs]. apply Z.leb_le in Hc. cbn [unquote].
  destruct (Z.eqb_spec (byteZ c) 34); [lia|]. destruct (Z.eqb_spec (byteZ c) 92); [lia|]. destruct (Z.ltb_spec (byteZ c) 32); [lia|].
  destruct (runeLen (String c s)) as [|k]; [by rw IH|]. rw IH //.
  revert k; induction s as [|d s IHs]; intros [|k]; [done..|]. cbn [sall sdrop] in Hs |- *. apply andb_true_iff in Hs as [_ Hs]. by apply IHs.
Qed.

(** A character that is cut off consists of bytes that end no string. *)
Lemma runeLen_extend s t : runeLen (s +:+ t) = runeLen s \/ sall (fun c => 128 <=? byteZ c) s = true.
Proof.
  destruct s as [|a s]; [by right|]. rw app_string_cons. cbn [runeLen]. destruct (byteZ a <? 128) eqn:Ha; [by left|].
  assert (Ha' : (128 <=? byteZ a) = true) by lia.
  assert (Hcont : forall lo hi c, 128 <= lo -> inRange lo hi c = true -> (128 <=? byteZ c) = true) by (unfold inRange; lia).
  destruct (inRange 194 223 a).
  { destruct s as [|c1 s]; [right; cbn [sall]; by rw Ha'|by left]. }
  destruct (inRange 224 239 a).
  { destruct s as [|c1 [|c2 s]]; [right; cbn [sall]; by rw Ha'| |by left].
    destruct t as [|d t]; [by left|]. change (String c1 "" +:+ String d t) with (String c1 (String d t)).
    cbv beta iota zeta. match goal with |- context [inRange ?l ?h c1] => destruct (inRange l h c1) eqn:H1 end; [|by left]. right. cbn [sall]. rw Ha'. eapply Hcont in H1; [by rw H1|]. by destruct (byteZ a =? 224). }
  destruct (inRange 240 244 a); [|by left].
  destruct s as [|c1 [|c2 [|c3 s]]]; [right; cbn [sall]; by rw Ha'| | |by left].
  - destruct t as [|d [|e t]]; [by left|by left|]. change (String c1 "" +:+ String d (String e t)) with (String c1 (String d (String e t))).
    cbv beta iota zeta. match goal with |- context [inRange ?l ?h c1] => destruct (inRange l h c1) eqn:H1 end; [|by left]. right. cbn [sall]. rw Ha'. eapply Hcont in H1; [by rw H1|]. by destruct (byteZ a =? 240).
  - destruct t as [|d t]; [by left|]. change (String c1 (String c2 "") +:+ String d t) with (String c1 (String c2 (String d t))).
    cbv beta iota zeta. match goal with |- context [inRange ?l ?h c1] => destruct (inRange l h c1) eqn:H1 end; [|by left]. destruct (isCont c2) eqn:H2; [|by left]. right. cbn [sall]. rw Ha'.
    eapply Hcont in H1; [rw H1|by destruct (byteZ a =? 240)]. eapply Hcont in H2; [by rw H2|done].
Qed.
Lemma runeLen_length s k : runeLen s = S k -> (S k <= String.length s)%nat.
Proof. intros Hk. destruct (runeLen_prefix s k "" Hk) as [_ Hl]. rw length_stake in Hl. lia. Qed.

Lemma prepend_some x o y r : prepend x o = Some (y, r) -> exists z, o = Some (z, r).
Proof. destruct o as [[z r']|]; [|done]. intros [= _ <-]. by exists z. Qed.

Lemma unquote_extend fuel fuel' s t x r :
  (fuel <= fuel')%nat -> unquote fuel s = Some (x, r) -> exists y, unquote fuel' (s +:+ t) = Some (y, r +:+ t).
Proof.
  revert fuel' s x; induction fuel as [|fuel IH]; intros [|fuel'] s x Hf; [done|done|lia|].
  assert (Hgo : forall z s1 s2, s2 = s1 +:+ t -> prepend z (unquote fuel s1) = Some (x, r) ->
    forall z', exists y, prepend z' (unquote fuel' s2) = Some (y, r +:+ t)).
  { intros z s1 s2 -> (w & Hw)%prepend_some z'. destruct (IH fuel' s1 w ltac:(lia) Hw) as [y ->]. by eexists. }
  destruct s as [|c s]; [done|]. rw app_string_cons. cbn [unquote]. destruct (byteZ c =? 34); [intros [= _ <-]; by exists ""|].
  destruct (byteZ c =? 92).
  - destruct s as [|e s]; [done|]. rw app_string_cons. destruct (simpleEscape e); [intros Hx; by eapply Hgo|].
    destruct (negb _); [done|]. destruct (hex4 s) as [v|] eqn:Hv; [|done]. apply (hex4_extend s t) in Hv as [-> Hlen]. cbv zeta.
    rw (sdrop_extend 4 s t Hlen). destruct ((55296 <=? v) && (v <=? 57343)); [|intros Hx; by eapply Hgo].
    destruct (lowHalf (sdrop 4 s)) as [low|] eqn:Hl.
    + apply (lowHalf_extend _ t) in Hl as [-> Hlen']. destruct (v <=? 56319); intros Hx; [|by eapply Hgo].
      eapply Hgo; [|exact Hx]. by apply sdrop_extend.
    + intros Hx. destruct (lowHalf (sdrop 4 s +:+ t)) as [low|] eqn:Hl'; [|by eapply Hgo].
      by rw (lowHalf_cut _ _ _ fuel Hl Hl') in Hx.
  - destruct (byteZ c <? 32); [done|]. destruct (runeLen_extend (String c s) t) as [Heq|Hhigh].
    + rw app_string_cons in Heq. rw Heq. destruct (runeLen (String c s)) as [|k] eqn:Hk; intros Hx; [by eapply Hgo|].
      eapply Hgo; [|exact Hx]. apply sdrop_extend. apply runeLen_length in Hk. simpl in Hk. lia.
    + intros Hx. exfalso. assert (unquote (S fuel) (String c s) = None) as Hn by by apply unquote_high.
      cbn [sall] in Hhigh. apply andb_true_iff in Hhigh as [_ Hs].
      destruct (runeLen (String c s)) as [|k]; [by rw (unquote_high fuel s Hs) in Hx|].
      rw unquote_high in Hx; [|done]. clear -Hs. revert k; induction s as [|d s IHs]; intros [|k]; [done..|].
      cbn [sall sdrop] in Hs |- *. apply andb_true_iff in Hs as [_ Hs]. by apply IHs.
Qed.
Lemma readString_extend s t x r : readString s = Some (x, r) -> exists y, readString (s +:+ t) = Some (y, r +:+ t).
Proof. apply unquote_extend. rw length_app_string. lia. Qed.

Lemma stake_app_l n a b : (n <= String.length a)%nat -> stake n (a +:+ b) = stake n a.
Proof.
  revert n; induction a as [|c a IH]; intros [|n] Hn; [done|simpl in Hn; lia|done|]. rw app_string_cons !stake_cons IH //.
  simpl in Hn. lia.
Qed.

(** ** Numbers

    A number ends where something else begins, so the rest must not be empty. *)

Lemma spanDigits_extend s t ds r : spanDigits s = (ds, r) -> r <> "" -> spanDigits (s +:+ t) = (ds, r +:+ t).
Proof.
  revert ds; induction s as [|c s IH]; intros ds; [by intros [= _ <-]|]. rw app_string_cons. cbn [spanDigits].
  destruct (isDigitByte c); [|by intros [= <- <-]]. destruct (spanDigits s) as [ds' r'] eqn:Hs. intros [= <- <-] Hr. by rw (IH ds').
Qed.
Lemma someDigits_extend s t ds r : someDigits s = Some (ds, r) -> r <> "" -> someDigits (s +:+ t) = Some (ds, r +:+ t).
Proof.
  unfold someDigits. destruct (spanDigits s) as [ds' r'] eqn:Hs. destruct (String.eqb ds' "") eqn:Hd; [done|].
  intros [= <- <-] Hr. by rw (spanDigits_extend s t ds' r') // Hd.
Qed.
Lemma readSign_extend b s t x r : readSign b s = (x, r) -> r <> "" -> readSign b (s +:+ t) = (x, r +:+ t).
Proof. destruct s as [|c s]; [by intros [= _ <-]|]. rw app_string_cons. cbn [readSign]. destruct (_ || _); by intros [= <- <-]. Qed.
Lemma readInteger_extend s t x r : readInteger s = Some (x, r) -> r <> "" -> readInteger (s +:+ t) = Some (x, r +:+ t).
Proof.
  destruct s as [|c s]; [done|]. rw app_string_cons. cbn [readInteger]. destruct (Ascii.eqb c "0"); [by intros [= <- <-]|].
  rw -app_string_cons. apply someDigits_extend.
Qed.
Lemma readFraction_extend s t x r : readFraction s = Some (x, r) -> r <> "" -> readFraction (s +:+ t) = Some (x, r +:+ t).
Proof.
  destruct s as [|c s]; [by intros [= _ <-]|]. rw app_string_cons. cbn [readFraction]. destruct (Ascii.eqb c "."); [|by intros [= <- <-]].
  destruct (someDigits s) as [[ds r']|] eqn:Hs; [|done]. intros [= <- <-] Hr. by rw (someDigits_extend s t ds r').
Qed.
Lemma someDigits_nonempty s ds r : someDigits s = Some (ds, r) -> s <> "".
Proof. by destruct s. Qed.
Lemma readExponent_extend s t x r : readExponent s = Some (x, r) -> r <> "" -> readExponent (s +:+ t) = Some (x, r +:+ t).
Proof.
  destruct s as [|c s]; [by intros [= _ <-]|]. rw app_string_cons. cbn [readExponent]. destruct (_ || _); [|by intros [= <- <-]].
  destruct (readSign true s) as [sign s'] eqn:Hsign. destruct (someDigits s') as [[ds r']|] eqn:Hs; [|done]. intros [= <- <-] Hr.
  rw (readSign_extend true s t sign s' Hsign); [by eapply someDigits_nonempty|]. by rw (someDigits_extend s' t ds r').
Qed.

Lemma readNumber_extend s t x r : readNumber s = Some (x, r) -> r <> "" -> readNumber (s +:+ t) = Some (x, r +:+ t).
Proof.
  unfold readNumber. destruct (readSign false s) as [sign s1] eqn:H1. destruct (readInteger s1) as [[i s2]|] eqn:H2; [|done]. cbn.
  destruct (readFraction s2) as [[f s3]|] eqn:H3; [|done]. cbn. destruct (readExponent s3) as [[e s4]|] eqn:H4; [|done]. cbn. intros [= <- <-] Hr.
  assert (N3 : s3 <> "") by (intros ->; cbn in H4; by simplify_eq).
  assert (N2 : s2 <> "") by (intros ->; cbn in H3; by simplify_eq).
  assert (N1 : s1 <> "") by (intros ->; cbn in H2; by simplify_eq).
  rw (readSign_extend false s t sign s1 H1 N1) (readInteger_extend s1 t i s2 H2 N2). cbn.
  rw (readFraction_extend s2 t f s3 H3 N3). cbn. by rw (readExponent_extend s3 t e s4 H4 Hr).
Qed.

(** ** Values *)

Lemma hasPrefix_extend p s t : hasPrefix p s = true -> hasPrefix p (s +:+ t) = true /\ (String.length p <= String.length s)%nat.
Proof.
  revert s; induction p as [|c p IH]; intros [|d s]; [by split|split; [done|simpl; lia]|done|].
  rw app_string_cons. cbn [hasPrefix]. intros [-> Hs]%andb_true_iff. destruct (IH s Hs) as [-> Hl]. simpl. split; [done|lia].
Qed.
Lemma readLiteral_extend p j s t x r : readLiteral p j s = Some (x, r) -> readLiteral p j (s +:+ t) = Some (x, r +:+ t).
Proof.
  unfold readLiteral. destruct (hasPrefix p s) eqn:Hp; [|done]. intros [= <- <-]. destruct (hasPrefix_extend p s t Hp) as [-> Hl].
  by rw sdrop_extend.
Qed.

Lemma skipWS_nonempty r c x : skipWS r = String c x -> r <> "".
Proof. by destruct r. Qed.
Lemma afterElement {A} (f g : string -> option A) c x :
  match String c x with String "," r => f r | String "]" r => g r | _ => None end =
  if Ascii.eqb c "," then f x else if Ascii.eqb c "]" then g x else None.
Proof. by destruct c as [[] [] [] [] [] [] [] []]. Qed.
Lemma afterMember {A} (f g : string -> option A) c x :
  match String c x with String "," r => f r | String "}" r => g r | _ => None end =
  if Ascii.eqb c "," then f x else if Ascii.eqb c "}" then g x else None.
Proof. by destruct c as [[] [] [] [] [] [] [] []]. Qed.
Lemma afterKey {A} (v : option A) c y : match c with ":"%char => v | _ => None end = Some y -> c = ":"%char.
Proof. by destruct c as [[] [] [] [] [] [] [] []]. Qed.

Definition closed (j : Json) : Prop := match j with JNum _ => False | _ => True end.

Lemma read_extend fuel t : forall fuel', (fuel <= fuel')%nat -> forall d s r,
  (forall j, readValue fuel d s = Some (j, r) -> r <> "" \/ closed j -> exists j', readValue fuel' d (s +:+ t) = Some (j', r +:+ t)) /\
  (forall js, readElements fuel d s = Some (js, r) -> exists js', readElements fuel' d (s +:+ t) = Some (js', r +:+ t)) /\
  (forall ms, readMembers fuel d s = Some (ms, r) -> exists ms', readMembers fuel' d (s +:+ t) = Some (ms', r +:+ t)).
Proof.
  induction fuel as [|fuel IH]; intros [|fuel'] Hf d s r; [done|done|lia|].
  specialize (IH fuel' ltac:(lia)). split; [|split].
  - intros j. cbn [readValue]. destruct (skipWS s) as [|c s'] eqn:Hs; [done|]. rw (skipWS_extend s t c s' Hs). cbv zeta.
    destruct (byteZ c =? 123).
    { destruct d as [|d]; [done|]. destruct (skipWS s') as [|e r'] eqn:He; [done|]. rw (skipWS_extend s' t e r' He).
      destruct (Ascii.eqb e "}"); [intros [= _ <-] _; by eexists|]. destruct (readMembers fuel d (String e r')) as [[ms r1]|] eqn:Hm; [|done].
      intros [= _ <-] _. destruct (IH d (String e r') r1) as (_ & _ & Hx). destruct (Hx ms Hm) as [ms' Hms]. rw app_string_cons in Hms.
      rw Hms. by eexists. }
    destruct (byteZ c =? 91).
    { destruct d as [|d]; [done|]. destruct (skipWS s') as [|e r'] eqn:He; [done|]. rw (skipWS_extend s' t e r' He).
      destruct (Ascii.eqb e "]"); [intros [= _ <-] _; by eexists|]. destruct (readElements fuel d (String e r')) as [[ms r1]|] eqn:Hm; [|done].
      intros [= _ <-] _. destruct (IH d (String e r') r1) as (_ & Hx & _). destruct (Hx ms Hm) as [ms' Hms]. rw app_string_cons in Hms.
      rw Hms. by eexists. }
    destruct (byteZ c =? 34).
    { destruct (readString s') as [[x r1]|] eqn:Hx; [|done]. intros [= _ <-] _. destruct (readString_extend s' t x r1 Hx) as [y ->]. by eexists. }
    rw -app_string_cons. do 3 (destruct (byteZ c =? _); [intros Hl _; eexists; by eapply readLiteral_extend|]).
    destruct (readNumber (String c s')) as [[x r1]|] eqn:Hx; [|done]. intros [= <- <-] [Hr|[]]. rw (readNumber_extend _ t x r1 Hx Hr). by eexists.
  - intros js. cbn [readElements]. destruct (readValue fuel d s) as [[j r1]|] eqn:Hj; [|done]. cbn [mbind option_bind]. cbv beta iota.
    destruct (skipWS r1) as [|c x] eqn:Hs; [done|]. pose proof (skipWS_nonempty r1 c x Hs) as Hr1. rw (afterElement (fun r => '(js, r) ← readElements fuel d r; Some (j :: js, r)) (fun r => Some ([j], r))). intros Hc.
    destruct (IH d s r1) as (Hv & _). destruct (Hv j Hj (or_introl Hr1)) as [j' ->]. cbn [mbind option_bind]. cbv beta iota.
    rw (skipWS_extend r1 t c x Hs).
    rw (afterElement (fun r => '(js, r) ← readElements fuel' d r; Some (j' :: js, r)) (fun r => Some ([j'], r))). destruct (Ascii.eqb c ","); [|destruct (Ascii.eqb c "]"); [injection Hc as _ <-; by eexists|done]].
    destruct (readElements fuel d x) as [[js1 r2]|] eqn:He; [|done]. injection Hc as _ <-.
    destruct (IH d x r2) as (_ & Hy & _). destruct (Hy js1 He) as [js2 ->]. by eexists.
  - intros ms. cbn [readMembers]. destruct (skipWS s) as [|c s'] eqn:Hs; [done|]. rw (skipWS_extend s t c s' Hs). destruct (negb _); [done|].
    destruct (readString s') as [[k r0]|] eqn:Hk; [|done]. destruct (readString_extend s' t k r0 Hk) as [k' ->]. cbn [mbind option_bind]. cbv beta iota.
    destruct (skipWS r0) as [|c0 x0] eqn:H0; [done|]. rw (skipWS_extend r0 t c0 x0 H0).
    intros Hc. assert (c0 = ":"%char) as -> by exact (afterKey _ _ _ Hc). revert Hc.
    destruct (readValue fuel d x0) as [[j r1]|] eqn:Hj; [|done]. cbn [mbind option_bind]. cbv beta iota.
    destruct (skipWS r1) as [|c1 x] eqn:Hs1; [done|]. pose proof (skipWS_nonempty r1 c1 x Hs1) as Hr1. rw (afterMember (fun r => '(ms, r) ← readMembers fuel d r; Some ((k, j) :: ms, r)) (fun r => Some ([(k, j)], r))). intros Hc.
    destruct (IH d x0 r1) as (Hv & _). destruct (Hv j Hj (or_introl Hr1)) as [j' ->]. cbn [mbind option_bind]. cbv beta iota.
    rw (skipWS_extend r1 t c1 x Hs1).
    rw (afterMember (fun r => '(ms, r) ← readMembers fuel' d r; Some ((k', j') :: ms, r)) (fun r => Some ([(k', j')], r))). destruct (Ascii.eqb c1 ","); [|destruct (Ascii.eqb c1 "}"); [injection Hc as _ <-; by eexists|done]].
    destruct (readMembers fuel d x) as [[js1 r2]|] eqn:He; [|done]. injection Hc as _ <-.
    destruct (IH d x r2) as (_ & _ & Hy). destruct (Hy js1 He) as [js2 ->]. by eexists.
Qed.

Lemma readValue_object fuel d s j r : readValue fuel d (String "{" s) = Some (j, r) -> closed j.
Proof.
  destruct fuel; [done|]. cbn [readValue]. change (skipWS (String "{" s)) with (String "{" s). cbv iota zeta.
  change (byteZ "{" =? 123) with true. cbv iota. destruct d as [|d]; [done|]. destruct (skipWS s) as [|e x]; [done|]. cbn. destruct (Ascii.eqb e "}"); [by intros [= <- _]|].
  destruct (readMembers _ _ _) as [[ms r']|]; [|done]. by intros [= <- _].
Qed.

(** An object whose text is cut off is not read. *)
Lemma nextJson_cut s j r n :
  nextJson (String "{" s) = Some (j, r) -> (n + String.length r < String.length (String "{" s))%nat -> nextJson (stake n (String "{" s)) = None.
Proof.
  intros Hj Hn. destruct (nextJson (stake n (String "{" s))) as [[j0 r0]|] eqn:Hcut; [|done]. exfalso.
  destruct n as [|n]; [done|]. rw stake_cons in Hcut.
  destruct (read_extend (S (2 * String.length (String "{" (stake n s)))) (sdrop n s) (S (2 * String.length (String "{" s))) ltac:(clear; cbn [String.length]; rw length_stake; lia)
    maxNestingDepth (String "{" (stake n s)) r0) as [Hv _].
  assert (exists j', nextJson (String "{" s) = Some (j', r0 +:+ sdrop n s)) as [j' Hx].
  { unfold nextJson. specialize (Hv j0 Hcut (or_intror (readValue_object _ _ _ _ _ Hcut))). by rw app_string_cons stake_sdrop in Hv. }
  rw Hj in Hx. injection Hx as _ ->. rw length_app_string length_sdrop in Hn. cbn [String.length] in Hn. lia.
Qed.

(** ** Texts of objects *)

Section rendered.
Context (nl : nat -> string) (gap : string).
Hypothesis nl_space : forall d, sall isSpaceByte (nl d) = true.
Hypothesis gap_space : sall isSpaceByte gap = true.

Lemma nextJson_render ms : jok (JObj ms) -> (jdepth (JObj ms) <= maxNestingDepth)%nat ->
  nextJson (render nl (String ":" gap) 0 (JObj ms)) = Some (jvalid (JObj ms), "") /\
  exists s, render nl (String ":" gap) 0 (JObj ms) = String "{" s.
Proof.
  intros Hok Hd. pose proof (jfuel_length nl (String ":" gap) _ 0 Hok). split.
  - unfold nextJson. rewrite <- (app_string_nil_r (render _ _ _ _)) at 2. apply render_reads; [done|done|done|lia|done|done].
  - destruct ms as [|[k j] ms]; by eexists.
Qed.
(** Only the whole text of an object is read, and nothing may follow it. *)
Lemma parseJson_exact ms : jok (JObj ms) -> (jdepth (JObj ms) <= maxNestingDepth)%nat ->
  let text := render nl (String ":" gap) 0 (JObj ms) in
  (forall n, (n < String.length text)%nat -> nextJson (stake n text) = None) /\
  (forall t, skipWS t <> "" -> parseJson (text +:+ t) = None).
Proof.
  intros Hok Hd text. destruct (nextJson_render ms Hok Hd) as [Hn [s Hs]]. fold text in Hn, Hs. split.
  - intros n Hlt. rw Hs in Hn Hlt |- *. eapply nextJson_cut; [done|]. simpl (String.length ""). lia.
  - intros t Ht. destruct (read_extend (S (2 * String.length text)) t (S (2 * String.length (text +:+ t)))
      ltac:(rw length_app_string; lia) maxNestingDepth text "") as [Hv _].
    destruct (Hv _ Hn (or_intror I)) as [j' Hj]. unfold parseJson, nextJson. rw Hj. cbn. rw app_string_nil_l.
    by destruct (String.eqb_spec (skipWS t) "").
Qed.
End rendered.

Lemma printJson_exact ms : jok (JObj ms) -> (jdepth (JObj ms) <= maxNestingDepth)%nat ->
  (forall n, (n < String.length (printJson (JObj ms)))%nat -> nextJson (stake n (printJson (JObj ms))) = None) /\
  (forall t, skipWS t <> "" -> parseJson (printJson (JObj ms) +:+ t) = None).
Proof. by apply parseJson_exact. Qed.
(** The line break after an indented text may be missing. *)
Lemma indentJson_exact ms : jok (JObj ms) -> (jdepth (JObj ms) <= maxNestingDepth)%nat ->
  (forall n, (S n < String.length (indentJson (JObj ms)))%nat -> parseJson (stake n (indentJson (JObj ms))) = None) /\
  (forall t, skipWS t <> "" -> parseJson (indentJson (JObj ms) +:+ t) = None).
Proof.
  intros Hok Hd. unfold indentJson. set (nl := fun depth => String (chr 10) (spaces (2 * depth))).
  destruct (parseJson_exact nl " " (fun d => sall_spaces _) eq_refl ms Hok Hd) as [Hcut Htail]. split.
  - intros n Hn. rw length_app_string in Hn. simpl (String.length (String _ "")) in Hn.
    rw stake_app_l; [lia|]. unfold parseJson. rw Hcut; [lia|done].
  - intros t Ht. rw app_string_assoc. by apply Htail.
Qed.

(** ** Sizes of compact texts *)

Definition compact : nat -> Json -> string := render (fun _ => "") ":".
Definition sumZ (l : list Z) : Z := foldr Z.add 0 l.

Lemma compact_members depth k j ms :
  slen (compact depth (JObj ((k, j) :: ms))) =
  1 + sumZ (map (fun m => slen (quoteString m.1) + slen (compact (S depth) m.2) + 2) ((k, j) :: ms)).
Proof.
  unfold compact. cbn [render]. rw !app_string_nil_l !slen_app.
  assert (Hms : slen (sconcat (map (fun m => "," +:+ quoteString m.1 +:+ ":" +:+ render (fun _ => "") ":" (S depth) m.2) ms)) =
    sumZ (map (fun m => slen (quoteString m.1) + slen (render (fun _ => "") ":" (S depth) m.2) + 2) ms)).
  { induction ms as [|m ms IH]; [done|]. cbn [map sconcat sumZ foldr]. unfold sumZ in IH. rw !slen_app IH. change (slen ",") with 1. change (slen ":") with 1. lia. }
  replace (map (fun m => "," +:+ "" +:+ _) ms) with (map (fun m => "," +:+ quoteString m.1 +:+ ":" +:+ render (fun _ => "") ":" (S depth) m.2) ms)
    by done.
  rw Hms. cbn [map sumZ foldr fst snd]. unfold sumZ. change (slen "{") with 1. change (slen "}") with 1. change (slen ":") with 1. lia.
Qed.
Lemma compact_elements depth js : sumZ (map (fun j => slen (compact (S depth) j) + 1) js) <= slen (compact depth (JArr js)).
Proof.
  destruct js as [|j js]; [done|]. unfold compact. cbn [render]. rw !app_string_nil_l !slen_app.
  assert (Hjs : slen (sconcat (map (fun j => "," +:+ render (fun _ => "") ":" (S depth) j) js)) =
    sumZ (map (fun j => slen (render (fun _ => "") ":" (S depth) j) + 1) js)).
  { clear j. induction js as [|j js IH]; [done|]. cbn [map sconcat sumZ foldr]. unfold sumZ in IH. rw !slen_app IH. change (slen ",") with 1. lia. }
  replace (map (fun j => "," +:+ "" +:+ _) js) with (map (fun j => "," +:+ render (fun _ => "") ":" (S depth) j) js) by done.
  rw Hjs. cbn [map sumZ foldr]. unfold sumZ. change (slen "[") with 1. change (slen "]") with 1. lia.
Qed.
Lemma sumZ_In x l : Forall (Z.le 0) l -> x ∈ l -> x <= sumZ l.
Proof.
  intros Hl. induction Hl as [|y l Hy Hl IH]; intros Hx; [by apply not_elem_of_nil in Hx|]. cbn [sumZ foldr].
  assert (0 <= sumZ l) by (clear -Hl; induction Hl as [|z l Hz Hl IH]; cbn [sumZ foldr] in *; [done|unfold sumZ in IH; lia]).
  unfold sumZ in *. apply elem_of_cons in Hx as [->|Hx]; [lia|]. specialize (IH Hx). lia.
Qed.
Lemma compact_member depth ms k j : (k, j) ∈ ms -> slen (compact (S depth) j) <= slen (compact depth (JObj ms)).
Proof.
  intros Hin. destruct ms as [|[k' j'] ms]; [by apply not_elem_of_nil in Hin|]. rw compact_members.
  assert (slen (quoteString k) + slen (compact (S depth) j) + 2 <=
    sumZ (map (fun m => slen (quoteString m.1) + slen (compact (S depth) m.2) + 2) ((k', j') :: ms))).
  { apply sumZ_In.
    - apply Forall_map, Forall_forall. intros m _. cbn. pose proof (slen_nonneg (quoteString m.1)). pose proof (slen_nonneg (compact (S depth) m.2)). lia.
    - apply list_elem_of_fmap. by exists (k, j). }
  pose proof (slen_nonneg (quoteString k)). lia.
Qed.
Lemma quoteString_size s : s <> "" -> 3 <= slen (quoteString s).
Proof.
  intros Hs. unfold quoteString. rw slen_cons slen_app. change (slen (String quoteMark "")) with 1.
  assert (1 <= slen (quoteBody true 0 s)); [|lia]. destruct s as [|c s]; [done|]. cbn [quoteBody].
  assert (Hc : forall d t, 1 <= slen (String d t)) by (intros; rw slen_cons; pose proof (slen_nonneg t); lia).
  destruct (byteZ c <? 128); [|destruct (lineSeparator _); [rw slen_app; pose proof (slen_nonneg (String a (quoteBody false 2 s))); change (slen (String backslash "u202")) with 5; lia|];
    destruct (runeLen _); [rw slen_app; pose proof (slen_nonneg (quoteBody true 0 s)); change (slen (String backslash "ufffd")) with 6; lia|apply Hc]].
  rw slen_app. pose proof (slen_nonneg (quoteBody true 0 s)). assert (1 <= slen (quoteByte c)); [|lia].
  unfold quoteByte. repeat case_match; try apply Hc.
Qed.

(** ** How large a value can be that is read from a text *)

(** The bytes of the strings in a value, its keys left out. *)
Fixpoint jsize (j : Json) : Z :=
  match j with
  | JStr s => slen s
  | JArr js => foldr (fun j z => jsize j + z) 0 js
  | JObj ms => foldr (fun m z => jsize m.2 + z) 0 ms
  | _ => 0
  end.

Lemma jsize_nonneg j : 0 <= jsize j.
Proof. induction j as [| | | |js IH|ms IH] using Json_nested_ind; cbn [jsize]; try lia; [apply slen_nonneg|..]; induction IH; cbn [foldr]; lia. Qed.
Lemma slen_prepend t o x r : prepend t o = Some (x, r) -> exists y, o = Some (y, r) /\ slen x = slen t + slen y.
Proof. destruct o as [[y r']|]; [|done]. cbn. intros [= <- <-]. exists y. split; [done|]. by rw slen_app. Qed.
Lemma slen_encodeRune r : slen (encodeRune r) <= 4 /\ (r < 65536 -> slen (encodeRune r) <= 3).
Proof.
  unfold encodeRune. destruct (r <? 128); [by split|]. destruct (r <? 2048); [by split|]. destruct (_ || _); [by split|].
  destruct (Z.ltb_spec r 65536); [by split|]. split; [done|lia].
Qed.
Lemma slen_take n s : slen (stake n s) <= Z.of_nat n.
Proof. unfold slen. rw length_stake. lia. Qed.
Lemma slen_drop n s : slen (sdrop n s) = Z.max 0 (slen s - Z.of_nat n).
Proof. unfold slen. rw length_sdrop. lia. Qed.

Lemma hex4_range s v : hex4 s = Some v -> v < 65536 /\ 4 <= slen s.
Proof.
  destruct s as [|a [|b [|c [|d s]]]]; [done..|]. assert (Hh : forall c v, hexVal c = Some v -> v <= 15).
  { clear. intros c v. unfold hexVal. repeat case_match; intros; simplify_eq; lia. }
  cbn [hex4]. destruct (hexVal a) as [x|] eqn:Ha; [|done]. destruct (hexVal b) as [y|] eqn:Hb; [|done].
  destruct (hexVal c) as [z|] eqn:Hc; [|done]. destruct (hexVal d) as [u|] eqn:Hd; [|done]. cbn. intros [= <-].
  apply Hh in Ha, Hb, Hc, Hd. pose proof (slen_nonneg s). rw !slen_cons. lia.
Qed.

(** Every byte of a text gives at most three bytes of a string. *)
Lemma unquote_size fuel s x r : unquote fuel s = Some (x, r) -> slen x + 3 * slen r <= 3 * slen s.
Proof.
  revert s x; induction fuel as [|fuel IH]; intros s x; [done|].
  assert (Hgo : forall z s1, prepend z (unquote fuel s1) = Some (x, r) -> slen x + 3 * slen r <= slen z + 3 * slen s1).
  { intros z s1 (w & Hw & ->)%slen_prepend. apply IH in Hw. lia. }
  destruct s as [|c s]; [done|]. cbn [unquote]. rw slen_cons. pose proof (slen_nonneg s) as Hs.
  destruct (byteZ c =? 34); [intros [= <- <-]; change (slen "") with 0; lia|]. destruct (byteZ c =? 92).
  - destruct s as [|e s]; [done|]. rw slen_cons in Hs |- *. destruct (simpleEscape e); [intros Hx%Hgo; change (slen (String a "")) with 1 in Hx; lia|].
    destruct (negb _); [done|]. destruct (hex4 s) as [v|] eqn:Hv; [|done]. apply hex4_range in Hv as [Hv Hlen]. cbv zeta.
    pose proof (slen_encodeRune v) as [_ Hr]. specialize (Hr Hv). change (slen RuneError) with 3 in *.
    destruct (_ && _); [|intros Hx%Hgo; rw slen_drop in Hx; lia].
    destruct (lowHalf _) as [low|] eqn:Hl; [|intros Hx%Hgo; rw slen_drop in Hx; change (slen RuneError) with 3 in Hx; lia].
    destruct (v <=? 56319); intros Hx%Hgo; [|rw slen_drop in Hx; change (slen RuneError) with 3 in Hx; lia].
    destruct (lowHalf_extend _ "" _ Hl) as [_ Hl6]. rw !slen_drop in Hx. rw length_sdrop in Hl6. unfold slen in Hx, Hs |- *.
    pose proof (proj1 (slen_encodeRune (65536 + 1024 * (v - 55296) + (low - 56320)))) as H4. unfold slen in H4. lia.
  - destruct (byteZ c <? 32); [done|]. destruct (runeLen (String c s)) as [|k] eqn:Hk; intros Hx%Hgo.
    { change (slen RuneError) with 3 in Hx. lia. }
    apply runeLen_length in Hk. rw slen_drop in Hx. pose proof (slen_take (S k) (String c s)). unfold slen in *. simpl in Hk. lia.
Qed.

(** ** Values *)

Lemma skipWS_size s : slen (skipWS s) <= slen s.
Proof. induction s as [|c s IH]; [done|]. cbn [skipWS]. destruct (isSpaceByte c); rw !slen_cons; lia. Qed.
Lemma spanDigits_size s ds r : spanDigits s = (ds, r) -> slen r <= slen s.
Proof.
  revert ds r. induction s as [|c s IH]; intros ds r; cbn [spanDigits]; [by intros [= _ <-]|]. destruct (isDigitByte c); [|by intros [= _ <-]].
  destruct (spanDigits s) as [ds' r'] eqn:Hs. intros [= _ <-]. specialize (IH _ _ eq_refl). rw slen_cons. lia.
Qed.
Lemma someDigits_size s ds r : someDigits s = Some (ds, r) -> slen r <= slen s.
Proof. unfold someDigits. destruct (spanDigits s) as [ds' r'] eqn:Hs. destruct (String.eqb ds' ""); [done|]. intros [= _ <-]. by eapply spanDigits_size. Qed.
Lemma readNumber_size s x r : readNumber s = Some (x, r) -> slen r <= slen s.
Proof.
  unfold readNumber. destruct (readSign false s) as [sign s1] eqn:H1.
  assert (Hsign : forall b s x r, readSign b s = (x, r) -> slen r <= slen s).
  { clear. intros b s x r. destruct s as [|c s]; cbn [readSign]; [by intros [= _ <-]|]. destruct (_ || _); intros [= _ <-]; [rw slen_cons; lia|done]. }
  apply Hsign in H1. destruct (readInteger s1) as [[int s2]|] eqn:H2; [|done]. cbn [mbind option_bind].
  assert (slen s2 <= slen s1).
  { destruct s1 as [|c s1]; [done|]. cbn [readInteger] in H2. destruct (Ascii.eqb c "0"); [injection H2 as <- <-; rw slen_cons; lia|by eapply someDigits_size]. }
  destruct (readFraction s2) as [[frac s3]|] eqn:H3; [|done]. cbn [mbind option_bind].
  assert (slen s3 <= slen s2).
  { destruct s2 as [|c s2]; cbn [readFraction] in H3; [by injection H3 as <- <-|]. destruct (Ascii.eqb c "."); [|by injection H3 as <- <-].
    destruct (someDigits s2) as [[ds r2]|] eqn:Hd; [|done]. injection H3 as <- <-. apply someDigits_size in Hd. rw slen_cons. lia. }
  destruct (readExponent s3) as [[exp s4]|] eqn:H4; [|done]. intros [= _ <-].
  assert (slen s4 <= slen s3); [|lia].
  destruct s3 as [|c s3]; cbn [readExponent] in H4; [by injection H4 as <- <-|]. destruct (_ || _); [|by injection H4 as <- <-].
  destruct (readSign true s3) as [sg s3'] eqn:Hs. apply Hsign in Hs. destruct (someDigits s3') as [[ds r2]|] eqn:Hd; [|done].
  injection H4 as <- <-. apply someDigits_size in Hd. rw slen_cons. lia.
Qed.
Lemma readLiteral_size p j s x r : readLiteral p j s = Some (x, r) -> x = j /\ slen r <= slen s.
Proof. unfold readLiteral. destruct (hasPrefix p s); [|done]. intros [= <- <-]. split; [done|]. rw slen_drop. pose proof (slen_nonneg s). lia. Qed.

Lemma read_size fuel : forall d s r,
  (forall j, readValue fuel d s = Some (j, r) -> jsize j + 3 * slen r <= 3 * slen s) /\
  (forall js, readElements fuel d s = Some (js, r) -> jsize (JArr js) + 3 * slen r <= 3 * slen s) /\
  (forall ms, readMembers fuel d s = Some (ms, r) -> jsize (JObj ms) + 3 * slen r <= 3 * slen s).
Proof.
  induction fuel as [|fuel IH]; intros d s r; [done|].
  assert (Hskip : forall s c x, skipWS s = String c x -> 1 + slen x <= slen s).
  { intros s0 c x Hx. pose proof (skipWS_size s0) as Hle. by rw Hx slen_cons in Hle. }
  split_and!.
  - intros j. cbn [readValue]. destruct (skipWS s) as [|c x] eqn:Hs; [done|]. apply Hskip in Hs as Hc. cbv zeta.
    destruct (byteZ c =? 123).
    { destruct d as [|d]; [done|]. destruct (skipWS x) as [|e y] eqn:Hx; [done|]. pose proof (skipWS_size x) as Hxs. rw Hx in Hxs.
      destruct (Ascii.eqb e "}"); [intros [= <- <-]; rw slen_cons in Hxs; cbn; lia|].
      destruct (readMembers _ _ _) as [[ms r']|] eqn:Hm; [|done]. cbn [mbind option_bind]. intros [= <- <-].
      destruct (IH d (String e y) r') as (_ & _ & H3). apply H3 in Hm. lia. }
    destruct (byteZ c =? 91).
    { destruct d as [|d]; [done|]. destruct (skipWS x) as [|e y] eqn:Hx; [done|]. pose proof (skipWS_size x) as Hxs. rw Hx in Hxs.
      destruct (Ascii.eqb e "]"); [intros [= <- <-]; rw slen_cons in Hxs; cbn; lia|].
      destruct (readElements _ _ _) as [[js r']|] eqn:Hm; [|done]. cbn [mbind option_bind]. intros [= <- <-].
      destruct (IH d (String e y) r') as (_ & H2 & _). apply H2 in Hm. lia. }
    destruct (byteZ c =? 34).
    { destruct (readString x) as [[t r']|] eqn:Ht; [|done]. cbn [mbind option_bind]. intros [= <- <-]. apply unquote_size in Ht. cbn [jsize]. lia. }
    do 3 (destruct (byteZ c =? _); [intros [-> Hr]%readLiteral_size; rw slen_cons in Hr; cbn [jsize]; lia|]).
    destruct (readNumber _) as [[t r']|] eqn:Ht; [|done]. cbn [mbind option_bind]. intros [= <- <-]. apply readNumber_size in Ht.
    rw slen_cons in Ht. cbn [jsize]. lia.
  - intros js. cbn [readElements]. destruct (readValue fuel d s) as [[j r1]|] eqn:Hv; [|done]. cbn [mbind option_bind]. cbv beta iota.
    destruct (IH d s r1) as (H1 & _ & _). apply H1 in Hv. destruct (skipWS r1) as [|c x] eqn:Hr; [done|]. apply Hskip in Hr.
    rw (afterElement (fun r => '(js, r) ← readElements fuel d r; Some (j :: js, r)) (fun r => Some ([j], r))). intros Hc.
    destruct (Ascii.eqb c ","); [|destruct (Ascii.eqb c "]"); [|done]].
    + destruct (readElements fuel d x) as [[js' r2]|] eqn:He; [|done]. cbn in Hc. injection Hc as <- <-.
      destruct (IH d x r2) as (_ & H2 & _). apply H2 in He. cbn [jsize foldr] in He |- *. lia.
    + injection Hc as <- <-. cbn [jsize foldr]. lia.
  - intros ms. cbn [readMembers]. destruct (skipWS s) as [|c x] eqn:Hs; [done|]. apply Hskip in Hs. destruct (negb _); [done|].
    destruct (readString x) as [[k r0]|] eqn:Hk; [|done]. cbn [mbind option_bind]. apply unquote_size in Hk. pose proof (slen_nonneg k).
    destruct (skipWS r0) as [|c0 x0] eqn:Hr0; [done|]. apply Hskip in Hr0. intros Hx. assert (c0 = ":"%char) as -> by exact (afterKey _ _ _ Hx). revert Hx.
    destruct (readValue fuel d x0) as [[j r1]|] eqn:Hv; [|done]. cbn [mbind option_bind]. cbv beta iota.
    destruct (IH d x0 r1) as (H1 & _ & _). apply H1 in Hv. destruct (skipWS r1) as [|c1 x1] eqn:Hr; [done|]. apply Hskip in Hr.
    rw (afterMember (fun r => '(ms, r) ← readMembers fuel d r; Some ((k, j) :: ms, r)) (fun r => Some ([(k, j)], r))). intros Hc.
    destruct (Ascii.eqb c1 ","); [|destruct (Ascii.eqb c1 "}"); [|done]].
    + destruct (readMembers fuel d x1) as [[ms' r2]|] eqn:He; [|done]. cbn in Hc. injection Hc as <- <-.
      destruct (IH d x1 r2) as (_ & _ & H3). apply H3 in He. cbn [jsize foldr snd] in He |- *. lia.
    + injection Hc as <- <-. cbn [jsize foldr snd]. lia.
Qed.
Lemma parseJson_size s j : parseJson s = Some j -> jsize j <= 3 * slen s.
Proof.
  unfold parseJson, nextJson. destruct (readValue _ _ s) as [[j' r]|] eqn:Hv; [|done]. cbn. destruct (String.eqb _ _); [|done]. intros [= <-].
  destruct (read_size (S (2 * String.length s)) maxNestingDepth s r) as (H1 & _ & _). apply H1 in Hv. pose proof (slen_nonneg r). lia.
Qed.
