(* ===== verification/GoFloat.v ===== *)
(** * Go's float64, as far as the sorted sets use it

    A [float64] is IEEE binary64, modelled by the standard library's
    specification type [spec_float] at precision 53 and exponent 1024.
    [fltb] and [feqb] are Go's [<] and [==] (so the two zeros are equal and a
    NaN is not comparable).  The lemmas give the order facts the skip list
    needs: on non-NaN values [fltb] is a strict weak order and [feqb] is its
    equivalence. *)
From Stdlib Require Export SpecFloat.
From S2P Require Import Prelude.
Local Open Scope Z_scope.

Abbreviation float64 := spec_float.

Definition fltb (a b : float64) : bool := SFltb a b.
Definition feqb (a b : float64) : bool := SFeqb a b.
Definition IsNaN (a : float64) : bool := match a with S754_nan => true | _ => false end.
(** [math.IsInf(a, 1)] and [math.IsInf(a, -1)]. *)
Definition IsInf (neg : bool) (a : float64) : bool :=
  match a with S754_infinity s => Bool.eqb s neg | _ => false end.

#[export] Instance float64_eq_dec : EqDecision float64.
Proof. solve_decision. Defined.

(** Position of a non-NaN value in the order, as a triple compared
    lexicographically. *)
Definition fkey (a : float64) : Z * Z * Z :=
  match a with
  | S754_infinity true => (0, 0, 0)
  | S754_finite true m e => (1, - e, Z.neg m)
  | S754_zero _ | S754_nan => (2, 0, 0)
  | S754_finite false m e => (3, e, Z.pos m)
  | S754_infinity false => (4, 0, 0)
  end.

Definition klt (a b : Z * Z * Z) : Prop :=
  let '(a1, a2, a3) := a in let '(b1, b2, b3) := b in
  a1 < b1 \/ (a1 = b1 /\ (a2 < b2 \/ (a2 = b2 /\ a3 < b3))).

Lemma Pos_compare_cont_spec m1 m2 : Pos.compare_cont Eq m1 m2 = (Z.pos m1 ?= Z.pos m2).
Proof. done. Qed.

Lemma SFcompare_fkey a b :
  IsNaN a = false -> IsNaN b = false ->
  SFcompare a b =
    Some (let '(a1, a2, a3) := fkey a in let '(b1, b2, b3) := fkey b in
          match a1 ?= b1 with
          | Eq => match a2 ?= b2 with Eq => a3 ?= b3 | c => c end
          | c => c
          end).
Proof.
  destruct a as [sa|sa| |sa ma ea], b as [sb|sb| |sb mb eb]; try done; intros _ _;
    try destruct sa; try destruct sb; simpl; try done; f_equal.
  rw Z.compare_opp (Z.compare_antisym ea eb) -Pos.compare_antisym.
  by destruct (ea ?= eb).
Qed.

Lemma fltb_klt a b :
  IsNaN a = false -> IsNaN b = false -> fltb a b = true <-> klt (fkey a) (fkey b).
Proof.
  intros Ha Hb. unfold fltb, SFltb. rw SFcompare_fkey; [done..|].
  destruct (fkey a) as [[a1 a2] a3], (fkey b) as [[b1 b2] b3]. simpl.
  destruct (Z.compare_spec a1 b1), (Z.compare_spec a2 b2), (Z.compare_spec a3 b3); split; intros; try done; lia.
Qed.

Lemma feqb_fkey a b :
  IsNaN a = false -> IsNaN b = false -> feqb a b = true <-> fkey a = fkey b.
Proof.
  intros Ha Hb. unfold feqb, SFeqb. rw SFcompare_fkey; [done..|].
  destruct (fkey a) as [[a1 a2] a3], (fkey b) as [[b1 b2] b3].
  destruct (Z.compare_spec a1 b1), (Z.compare_spec a2 b2), (Z.compare_spec a3 b3); subst; split; intros Hx; try done; injection Hx; lia.
Qed.

(** *** The order on scored members

    [mlt s1 m1 s2 m2] is the comparison of the skip list: score first, then
    member. *)
Definition mlt (s1 : float64) (m1 : string) (s2 : float64) (m2 : string) : bool :=
  fltb s1 s2 || (feqb s1 s2 && sltb m1 m2).

Definition mltp (x y : float64 * string) : Prop :=
  klt (fkey x.1) (fkey y.1) \/ (fkey x.1 = fkey y.1 /\ ~ String.le y.2 x.2).

Lemma mlt_mltp s1 m1 s2 m2 :
  IsNaN s1 = false -> IsNaN s2 = false ->
  mlt s1 m1 s2 m2 = true <-> mltp (s1, m1) (s2, m2).
Proof.
  intros H1 H2. unfold mlt, mltp; simpl.
  by rw orb_true_iff andb_true_iff fltb_klt // feqb_fkey // sltb_le.
Qed.

Lemma klt_irrefl a : ~ klt a a.
Proof. destruct a as [[a1 a2] a3]. simpl. lia. Qed.
Lemma klt_trans a b c : klt a b -> klt b c -> klt a c.
Proof. destruct a as [[a1 a2] a3], b as [[b1 b2] b3], c as [[c1 c2] c3]. simpl. lia. Qed.
Lemma klt_total a b : klt a b \/ a = b \/ klt b a.
Proof.
  destruct a as [[a1 a2] a3], b as [[b1 b2] b3]. simpl.
  destruct (Z.lt_trichotomy a1 b1) as [|[|]], (Z.lt_trichotomy a2 b2) as [|[|]],
    (Z.lt_trichotomy a3 b3) as [|[|]]; subst; auto; lia.
Qed.

#[export] Instance mltp_irrefl : Irreflexive mltp.
Proof. intros [s m] [H|[_ H]]; [by apply klt_irrefl in H|]. by apply H. Qed.
#[export] Instance mltp_trans : Transitive mltp.
Proof.
  intros [s1 m1] [s2 m2] [s3 m3]. unfold mltp; simpl.
  intros [H1|[E1 H1]] [H2|[E2 H2]].
  - left. by eapply klt_trans.
  - left. by rw -E2.
  - left. by rw E1.
  - right. split; [congruence|]. intros H3. destruct (total String.le m1 m2) as [H|H]; [|done].
    apply H2. by trans m1.
Qed.

(** Trichotomy: incomparable scored members have equal scores and the same
    member. *)
Lemma mltp_total x y : mltp x y \/ (fkey x.1 = fkey y.1 /\ x.2 = y.2) \/ mltp y x.
Proof.
  destruct x as [s1 m1], y as [s2 m2]. unfold mltp; simpl.
  destruct (klt_total (fkey s1) (fkey s2)) as [?|[?|?]]; [by auto| |by auto].
  destruct (decide (String.le m1 m2)), (decide (String.le m2 m1)); auto.
  right; left. split; [done|]. by apply (anti_symm String.le).
Qed.

#[export] Instance mltp_dec : RelDecision mltp.
Proof.
  intros [s1 m1] [s2 m2]. unfold mltp; simpl.
  destruct (fkey s1) as [[a1 a2] a3], (fkey s2) as [[b1 b2] b3]. simpl. apply _.
Defined.
