(* ===== verification/GoFloatText.v ===== *)
(** * Floating point text: [strconv.ParseFloat], [strconv.FormatFloat] and the
    bit representation

    [ParseFloat] follows the grammar of Go's [strconv] (special values,
    decimal and hexadecimal forms, underscores, the capped exponent) and
    rounds the exact value to the nearest binary64, ties to even; [None] is a
    syntax or a range error.  [FormatFloat] is the ['f'] format with precision
    -1: the fewest decimal digits that read back as the same number, the
    closest such number if there are two.  [Float64bits] and
    [Float64frombits] are the IEEE layout. *)
From Stdlib Require Import SpecFloat.
From S2P Require Import Prelude GoText GoFloat.
Local Open Scope Z_scope.

Definition toLowerByte (c : ascii) : ascii :=
  if (65 <=? byteZ c) && (byteZ c <=? 90) then chr (byteZ c + 32) else c.
Definition isByte (c : ascii) (z : ascii) : bool := Ascii.eqb c z.
Definition lowerIs (c : ascii) (z : ascii) : bool := Ascii.eqb (toLowerByte c) z.

(** ** Exact values to binary64 *)

(** The binary64 nearest to m * 10^e (m > 0). *)
Definition decFloat (neg : bool) (m : positive) (e : Z) : float64 :=
  if 0 <=? e then binary_normalize 53 1024 (if neg then - (Z.pos m * 10 ^ e) else Z.pos m * 10 ^ e) 0 neg
  else SFdiv 53 1024 (S754_finite neg m 0) (S754_finite false (Z.to_pos (10 ^ (- e))) 0).
(** The binary64 nearest to m * 2^e. *)
Definition hexFloat (neg : bool) (m : positive) (e : Z) : float64 :=
  binary_normalize 53 1024 (if neg then Z.neg m else Z.pos m) e neg.

(** ** [ParseFloat] *)

Fixpoint commonPrefixLenIgnoreCase (s prefix : string) : nat :=
  match s, prefix with
  | String c s, String p prefix => if lowerIs c p then S (commonPrefixLenIgnoreCase s prefix) else O
  | _, _ => O
  end.

(** [special]: the value and the number of bytes consumed. *)
Definition special (s : string) : option (float64 * nat) :=
  let inf (neg : bool) (nsign : nat) (s : string) :=
    let n := commonPrefixLenIgnoreCase s "infinity" in
    let n := if (3 <? Z.of_nat n) && (Z.of_nat n <? 8) then 3%nat else n in
    if (Z.of_nat n =? 3) || (Z.of_nat n =? 8) then Some (S754_infinity neg, (nsign + n)%nat) else None in
  match s with
  | "" => None
  | String c s' =>
      if isByte c "+" then inf false 1%nat s'
      else if isByte c "-" then inf true 1%nat s'
      else if lowerIs c "i" then inf false 0%nat s
      else if lowerIs c "n" then
        if Z.of_nat (commonPrefixLenIgnoreCase s "nan") =? 3 then Some (S754_nan, 3%nat) else None
      else None
  end.

(** The loop of [underscoreOK]: the kind of the last character is '0' for a
    digit, '_' for an underscore, '!' for anything else. *)
Fixpoint underscoreLoop (hex : bool) (s : string) (last : ascii) : bool :=
  match s with
  | "" => negb (isByte last "_")
  | String c s =>
      if isDigit c || (hex && (97 <=? byteZ (toLowerByte c)) && (byteZ (toLowerByte c) <=? 102))
      then underscoreLoop hex s "0"
      else if isByte c "_" then if isByte last "0" then underscoreLoop hex s "_" else false
      else if isByte last "_" then false
      else underscoreLoop hex s "!"
  end.
Definition underscoreOK (s : string) : bool :=
  let s := match s with String c s' => if isByte c "-" || isByte c "+" then s' else s | "" => s end in
  match s with
  | String c0 (String c1 s') =>
      if isByte c0 "0" && (lowerIs c1 "b" || lowerIs c1 "o" || lowerIs c1 "x")
      then underscoreLoop (lowerIs c1 "x") s' "0"
      else underscoreLoop false s "^"
  | _ => underscoreLoop false s "^"
  end.

(** State of the mantissa loop of [readFloat].  [mant] holds all digits, so
    [trunc] is not needed. *)
Record mantState := mkMant {
  mant : Z; nd : Z; dp : Z; sawdot : bool; sawdigits : bool; underscores : bool
}.

Definition hexDigit (c : ascii) : option Z :=
  let z := byteZ (toLowerByte c) in
  if (97 <=? z) && (z <=? 102) then Some (z - 87) else None.

Fixpoint readMant (hex : bool) (s : string) (st : mantState) : mantState * string :=
  match s with
  | "" => (st, "")
  | String c s' =>
      let base := if hex then 16 else 10 in
      if isByte c "_" then
        readMant hex s' (mkMant (mant st) (nd st) (dp st) (sawdot st) (sawdigits st) true)
      else if isByte c "." then
        if sawdot st then (st, s)
        else readMant hex s' (mkMant (mant st) (nd st) (nd st) true (sawdigits st) (underscores st))
      else if isDigit c then
        if isByte c "0" && (nd st =? 0) then
          readMant hex s' (mkMant (mant st) (nd st) (dp st - 1) (sawdot st) true (underscores st))
        else
          readMant hex s' (mkMant (mant st * base + (byteZ c - 48)) (nd st + 1) (dp st) (sawdot st) true (underscores st))
      else match hexDigit c with
      | Some d =>
          if hex then
            readMant hex s' (mkMant (mant st * base + d) (nd st + 1) (dp st) (sawdot st) true (underscores st))
          else (st, s)
      | None => (st, s)
      end
  end.

(** The digits of the exponent; [e] stops growing at 10000. *)
Fixpoint readExp (s : string) (e : Z) (under : bool) : Z * bool * string :=
  match s with
  | "" => (e, under, "")
  | String c s' =>
      if isByte c "_" then readExp s' e true
      else if isDigit c then readExp s' (if e <? 10000 then e * 10 + (byteZ c - 48) else e) under
      else (e, under, s)
  end.

(** [readFloat] and the conversion: the value and the unread rest. *)
Definition readFloat (s0 : string) : option (float64 * string) :=
  let '(neg, s) :=
    match s0 with
    | String c s => if isByte c "+" then (false, s) else if isByte c "-" then (true, s) else (false, s0)
    | "" => (false, s0)
    end in
  let '(hex, s) :=
    match s with
    | String c0 (String c1 (String _ _ as s')) => if isByte c0 "0" && lowerIs c1 "x" then (true, s') else (false, s)
    | _ => (false, s)
    end in
  let '(st, s) := readMant hex s (mkMant 0 0 0 false false false) in
  if negb (sawdigits st) then None
  else
    let dp := if sawdot st then dp st else nd st in
    let dp := if hex then 4 * dp else dp in
    let ndMant := if hex then 4 * nd st else nd st in
    let exponent : option (Z * bool * string) :=
      match s with
      | String c s' =>
          if lowerIs c (if hex then "p" else "e")%char then
            let '(esign, s') :=
              match s' with
              | String d s'' => if isByte d "+" then (1, s'') else if isByte d "-" then (-1, s'') else (1, s')
              | "" => (1, s')
              end in
            match s' with
            | String d _ =>
                if isDigit d then
                  let '(e, under, s'') := readExp s' 0 false in Some (e * esign, under, s'')
                else None
            | "" => None
            end
          else if hex then None else Some (0, false, s)
      | "" => if hex then None else Some (0, false, s)
      end in
    match exponent with
    | None => None
    | Some (e, under, rest) =>
        let consumed := stake (String.length s0 - String.length rest) s0 in
        if (underscores st || under) && negb (underscoreOK consumed) then None
        else
          match mant st with
          | Z.pos m =>
              let exp := dp + e - ndMant in
              Some (if hex then hexFloat neg m exp else decFloat neg m exp, rest)
          | _ => Some (S754_zero neg, rest)
          end
    end.

Definition ParseFloat (s : string) : option float64 :=
  match special s with
  | Some (f, n) => if Nat.eqb n (String.length s) then Some f else None
  | None =>
      match readFloat s with
      | Some (f, "") => match f with S754_infinity _ => None | _ => Some f end
      | _ => None
      end
  end.

(** ** [FormatFloat(f, 'f', -1, 64)] *)

(** The value num/den of m * 2^e. *)
Definition ratio (m : positive) (e : Z) : Z * Z :=
  if 0 <=? e then (Z.pos m * 2 ^ e, 1) else (Z.pos m, 2 ^ (- e)).

(** The decimal exponent k with 10^(k-1) <= num/den < 10^k. *)
Fixpoint decExp_up (fuel : nat) (num den k : Z) : Z :=
  match fuel with
  | O => k
  | S fuel => if num <? den * 10 ^ k then k else decExp_up fuel num den (k + 1)
  end.
Fixpoint decExp_down (fuel : nat) (num den k : Z) : Z :=
  match fuel with
  | O => k
  | S fuel => if den <=? num * 10 ^ (1 - k) then k else decExp_down fuel num den (k - 1)
  end.
Definition decExp (num den : Z) : Z :=
  if den <=? num then decExp_up 310 num den 1 else decExp_down 330 num den 0.

(** The [n]-digit candidates around num/den that read back as [f]: the closest
    one, an even last digit on a tie. *)
Definition shortest_n (f : float64) (neg : bool) (num den k : Z) (n : Z) : option (Z * Z) :=
  let e := k - n in
  let '(a, b) := if 0 <=? e then (num, den * 10 ^ e) else (num * 10 ^ (- e), den) in
  let lo := a / b in
  let back (d : Z) := match d with Z.pos p => bool_decide (decFloat neg p e = f) | _ => false end in
  let up := match (2 * (a - lo * b) ?= b) with Lt => false | Gt => true | Eq => Z.odd lo end in
  if up then
    if back (lo + 1) then Some (lo + 1, e) else if back lo then Some (lo, e) else None
  else
    if back lo then Some (lo, e) else if back (lo + 1) then Some (lo + 1, e) else None.

Fixpoint shortest (fuel : nat) (f : float64) (neg : bool) (num den k n : Z) : Z * Z :=
  match fuel with
  | O => (num * 10 ^ 17 / den, -17)
  | S fuel =>
      match shortest_n f neg num den k n with
      | Some r => r
      | None => shortest fuel f neg num den k (n + 1)
      end
  end.

Fixpoint zeros (n : nat) : string := match n with O => "" | S n => String "0" (zeros n) end.
Fixpoint trimZeros (fuel : nat) (d e : Z) : Z * Z :=
  match fuel with
  | O => (d, e)
  | S fuel => if (d mod 10 =? 0) && (0 <? d) then trimZeros fuel (d / 10) (e + 1) else (d, e)
  end.

(** [fmtF]: the digits [d] times 10^[e]. *)
Definition fmtF (neg : bool) (d e : Z) : string :=
  let '(d, e) := trimZeros 20 d e in
  let digits := FormatUint d in
  let dp := slen digits + e in
  let int := if 0 <? dp then
      stake (Z.to_nat dp) digits +:+ zeros (Z.to_nat (dp - slen digits))
    else "0" in
  let frac := if 0 <? slen digits - dp then
      "." +:+ zeros (Z.to_nat (- dp)) +:+ sdrop (Z.to_nat dp) digits
    else "" in
  (if neg then "-" else "") +:+ int +:+ frac.

Definition FormatFloat (f : float64) : string :=
  match f with
  | S754_nan => "NaN"
  | S754_infinity false => "+Inf"
  | S754_infinity true => "-Inf"
  | S754_zero neg => if neg then "-0" else "0"
  | S754_finite neg m e =>
      let '(num, den) := ratio m e in
      let '(d, x) := shortest 17 f neg num den (decExp num den) 1 in
      fmtF neg d x
  end.

(** [formatFloat64] of [zset_ops.go]. *)
Definition formatFloat64 (value : float64) : string :=
  if feqb value (S754_zero false) then "0"
  else if IsInf false value then "inf"
  else if IsInf true value then "-inf"
  else FormatFloat value.

(** ** Bits *)

Definition Float64bits (f : float64) : Z :=
  let sign (s : bool) := if s then 2 ^ 63 else 0 in
  match f with
  | S754_zero s => sign s
  | S754_infinity s => sign s + 2047 * 2 ^ 52
  | S754_nan => 2047 * 2 ^ 52 + 2 ^ 51 + 1
  | S754_finite s m e =>
      if Z.pos m <? 2 ^ 52 then sign s + Z.pos m
      else sign s + (e + 1075) * 2 ^ 52 + (Z.pos m - 2 ^ 52)
  end.

Definition Float64frombits (b : Z) : float64 :=
  let s := Z.testbit b 63 in
  let ex := Z.land (Z.shiftr b 52) 2047 in
  let frac := Z.land b (2 ^ 52 - 1) in
  if ex =? 2047 then if frac =? 0 then S754_infinity s else S754_nan
  else if ex =? 0 then match frac with Z.pos m => S754_finite s m (-1074) | _ => S754_zero s end
  else match frac + 2 ^ 52 with Z.pos m => S754_finite s m (ex - 1075) | _ => S754_nan end.

(** The values a Go [float64] can have. *)
Definition is_float64 (f : float64) : bool := valid_binary 53 1024 f.

(** ** The bit layout round trips *)

Lemma digits2_bounds m : 2 ^ (Z.pos (digits2_pos m) - 1) <= Z.pos m < 2 ^ Z.pos (digits2_pos m).
Proof.
  induction m as [m IH|m IH|]; [| |done]; cbn [digits2_pos];
    rw Pos2Z.inj_succ Z.pow_succ_r; try lia;
    assert (Z.succ (Z.pos (digits2_pos m)) - 1 = Z.succ (Z.pos (digits2_pos m) - 1)) as -> by lia;
    rw Z.pow_succ_r; lia.
Qed.

Lemma bounded_spec m e :
  bounded 53 1024 m e = true ->
  Z.pos m < 2 ^ 53 /\ -1074 <= e <= 971 /\ (e = -1074 \/ 2 ^ 52 <= Z.pos m).
Proof.
  unfold bounded, canonical_mantissa, fexp, SpecFloat.emin. rw andb_true_iff. intros [Hc He].
  apply Z.leb_le in He. pose proof (digits2_bounds m) as Hd.
  apply Z.eqb_eq in Hc.
  assert (Z.pos (digits2_pos m) <= 53) as Hle by lia.
  pose proof (Z.pow_le_mono_r 2 (Z.pos (digits2_pos m)) 53 ltac:(lia) Hle) as Hp.
  split; [lia|]. split; [lia|]. destruct (decide (e = -1074)) as [|Hne]; [by left|]. right.
  assert (Z.pos (digits2_pos m) = 53) as Heq by lia. rw Heq in Hd. lia.
Qed.

Lemma bits_decode (s : bool) ex frac :
  0 <= ex < 2048 -> 0 <= frac < 2 ^ 52 ->
  let b := (if s then 2 ^ 63 else 0) + ex * 2 ^ 52 + frac in
  Z.testbit b 63 = s /\ Z.land (Z.shiftr b 52) 2047 = ex /\ Z.land b (2 ^ 52 - 1) = frac.
Proof.
  intros Hex Hf b. split_and!.
  - rw Z.testbit_eqb; [lia|]. unfold b. destruct s.
    + assert ((2 ^ 63 + ex * 2 ^ 52 + frac) / 2 ^ 63 = 1) as ->; [|done].
      symmetry. apply (Z.div_unique _ _ _ (ex * 2 ^ 52 + frac)); lia.
    + rw Z.div_small; [lia|]. done.
  - rw Z.shiftr_div_pow2; [lia|]. change 2047 with (Z.ones 11). rw Z.land_ones; [lia|].
    assert (b / 2 ^ 52 = (if s then 2048 else 0) + ex) as ->.
    { symmetry. apply (Z.div_unique _ _ _ frac); [lia|]. unfold b. destruct s; lia. }
    symmetry. apply (Z.mod_unique _ _ (if s then 1 else 0)); destruct s; lia.
  - change (2 ^ 52 - 1) with (Z.ones 52). rw Z.land_ones; [lia|].
    symmetry. apply (Z.mod_unique _ _ ((if s then 2048 else 0) + ex)); [lia|]. unfold b. destruct s; lia.
Qed.

(** Decoding the bits of a number gives the number back. *)
Lemma Float64frombits_bits f :
  is_float64 f = true -> IsNaN f = false -> Float64frombits (Float64bits f) = f.
Proof.
  destruct f as [s|s| |s m e]; intros Hv Hn; [by destruct s|by destruct s|done|].
  apply bounded_spec in Hv as (Hm & He & Hc). unfold Float64bits.
  destruct (Z.ltb_spec (Z.pos m) (2 ^ 52)).
  - destruct Hc as [->|]; [|lia].
    destruct (bits_decode s 0 (Z.pos m)) as (H1 & H2 & H3); [lia..|].
    unfold Float64frombits. rw Z.mul_0_l Z.add_0_r in H1 H2 H3. by rw H1 H2 H3.
  - destruct (bits_decode s (e + 1075) (Z.pos m - 2 ^ 52)) as (H1 & H2 & H3); [lia..|].
    unfold Float64frombits. rw H1 H2 H3.
    destruct (Z.eqb_spec (e + 1075) 2047); [lia|]. destruct (Z.eqb_spec (e + 1075) 0); [lia|].
    assert (Z.pos m - 2 ^ 52 + 2 ^ 52 = Z.pos m) as -> by lia. f_equal. lia.
Qed.

Lemma Float64bits_range f : is_float64 f = true -> 0 <= Float64bits f < 2 ^ 64.
Proof.
  destruct f as [s|s| |s m e]; intros Hv; [by destruct s|by destruct s|done|].
  apply bounded_spec in Hv as (Hm & He & Hc). unfold Float64bits.
  destruct (Z.ltb_spec (Z.pos m) (2 ^ 52)); destruct s; lia.
Qed.
