(* ===== verification/FloatRatio.v ===== *)
(** * Quotients and integers as finite [float64] values *)
From Stdlib Require Import SpecFloat.
From S2P Require Import Prelude GoText GoFloat GoFloatText.
Local Open Scope Z_scope.

Definition fexp64 : Z -> Z := fexp 53 1024.
Definition round64 : Z -> Z -> location -> spec_float := binary_round_aux 53 1024 false.

Lemma Zdigits2_le m k : 0 <= m < 2 ^ k -> 0 <= k -> 0 <= Zdigits2 m <= k.
Proof.
  intros [H1 H2] Hk. destruct m as [|p|p]; cbn [Zdigits2]; [lia| |lia]. pose proof (digits2_bounds p) as [Hd _].
  assert (Z.pos (digits2_pos p) - 1 < k); [|lia]. apply (Z.pow_lt_mono_r_iff 2); lia.
Qed.
Lemma shr_1_half r : 0 <= shr_m r -> shr_m (shr_1 r) = shr_m r / 2.
Proof.
  destruct r as [m b c]. cbn [shr_m]. intros Hm. destruct m as [|p|p]; [done| |lia]. destruct p as [p|p|]; cbn [shr_1 shr_m]; [| |done].
  - apply Z.div_unique with (r := 1); lia.
  - apply Z.div_unique with (r := 0); lia.
Qed.
Lemma iter_half p r : 0 <= shr_m r -> shr_m (iter_pos shr_1 p r) = shr_m r / 2 ^ Z.pos p.
Proof.
  assert (Hdiv : forall m k, 0 <= m -> 0 <= m / 2 ^ Z.pos k) by (intros; apply Z.div_pos; [done|by apply Z.pow_pos_nonneg]).
  revert r. induction p as [p IH|p IH|]; intros r Hr; cbn [iter_pos].
  - assert (0 <= shr_m (shr_1 r)) by (rw shr_1_half //; by apply (Hdiv _ 1%positive)).
    rw (IH (iter_pos _ _ _)); [rw IH //; by apply Hdiv|]. rw IH // shr_1_half //. pose proof (Z.pow_pos_nonneg 2 (Z.pos p)).
    rewrite -> !Z.div_div by lia. f_equal. rewrite <- Z.pow_add_r, <- Z.pow_succ_r by lia. f_equal. lia.
  - rw (IH (iter_pos _ _ _)); [rw IH //; by apply Hdiv|]. rw IH //. rw Z.div_div; [by apply Z.pow_nonzero|by apply Z.pow_pos_nonneg|].
    f_equal. rewrite <- Z.pow_add_r by lia. f_equal. lia.
  - by rw shr_1_half.
Qed.
Lemma shr_m_loc m l : shr_m (shr_record_of_loc m l) = m.
Proof. by destruct l as [|[]]. Qed.
(** Shifting to at most 53 digits. *)
Lemma shr_fexp_spec m e l mrs e' : 0 <= m -> -1074 <= e -> shr_fexp 53 1024 m e l = (mrs, e') ->
  e' = e + Z.max 0 (Zdigits2 m - 53) /\ shr_m mrs = m / 2 ^ Z.max 0 (Zdigits2 m - 53).
Proof.
  intros Hm He. unfold shr_fexp, shr, fexp, emin. assert (0 <= Zdigits2 m) by by destruct m.
  destruct (Z.max (Zdigits2 m + e - 53) (3 - 1024 - 53) - e) as [|p|p] eqn:Hn; intros [= <- <-].
  - replace (Z.max 0 (Zdigits2 m - 53)) with 0 by lia. rw shr_m_loc Z.div_1_r. lia.
  - replace (Z.max 0 (Zdigits2 m - 53)) with (Z.pos p) by lia. rw iter_half shr_m_loc //.
  - replace (Z.max 0 (Zdigits2 m - 53)) with 0 by lia. rw shr_m_loc Z.div_1_r. lia.
Qed.

Lemma shift_positive m : 0 < m -> 0 < m / 2 ^ Z.max 0 (Zdigits2 m - 53).
Proof.
  intros Hm. destruct m as [|p|p]; [lia| |lia]. cbn [Zdigits2]. pose proof (digits2_bounds p) as [Hd _]. apply Z.div_str_pos.
  split; [by apply Z.pow_pos_nonneg; [|lia]|]. etrans; [|exact Hd]. apply Z.pow_le_mono_r; lia.
Qed.
Lemma div_le_self m n : 0 <= m -> 0 <= n -> 0 <= m / 2 ^ n <= m.
Proof. intros Hm Hn. pose proof (Z.pow_pos_nonneg 2 n). split; [apply Z.div_pos; lia|apply Z.div_le_upper_bound; [lia|nia]]. Qed.

Lemma round64_spec m e l k : 0 <= m < 2 ^ k -> 0 <= k <= 300 -> -1000 <= e <= 300 ->
  (round64 m e l = S754_zero false \/
   exists p x, round64 m e l = S754_finite false p x /\ Z.pos p < 2 ^ (k + 1) /\ e <= x <= e + 2 * k + 1) /\
  (0 < m -> round64 m e l <> S754_zero false).
Proof.
  intros Hm Hk He. unfold round64, binary_round_aux. destruct (shr_fexp 53 1024 m e l) as [mrs e1] eqn:H1.
  apply shr_fexp_spec in H1 as [H1 H2]; [|lia..]. pose proof (Zdigits2_le m k Hm ltac:(lia)) as Hd.
  set (r := round_nearest_even (shr_m mrs) (loc_of_shr_record mrs)).
  assert (Hr : shr_m mrs <= r <= shr_m mrs + 1) by (unfold r, round_nearest_even; repeat case_match; lia).
  pose proof (div_le_self m (Z.max 0 (Zdigits2 m - 53)) ltac:(lia) ltac:(lia)) as Hle.
  assert (Hk1 : 2 ^ (k + 1) = 2 * 2 ^ k) by (rewrite -> Z.pow_add_r by lia; lia).
  destruct (shr_fexp 53 1024 r e1 loc_Exact) as [mrs2 e2] eqn:H3. apply shr_fexp_spec in H3 as [H3 H4]; [|lia..].
  pose proof (Zdigits2_le r (k + 1) ltac:(lia) ltac:(lia)) as Hd2.
  pose proof (div_le_self r (Z.max 0 (Zdigits2 r - 53)) ltac:(lia) ltac:(lia)) as Hle2.
  assert (Hpos : 0 < m -> 0 < shr_m mrs2).
  { intros Hp. rw H4. apply shift_positive. pose proof (shift_positive m Hp). lia. }
  destruct (shr_m mrs2) as [|p|p] eqn:Hp; [|split|lia].
  - split; [by left|]. intros H0%Hpos. lia.
  - right. exists p, e2. rw (proj2 (Z.leb_le e2 (1024 - 53))); [lia|]. split; [done|]. lia.
  - intros _. by destruct (e2 <=? 1024 - 53).
Qed.

(** [float64(n)] *)
Definition floatOfUint (n : Z) : float64 := binary_normalize 53 1024 n 0 false.

Lemma iter_xO m d : Z.pos (Pos.iter xO m d) = Z.pos m * 2 ^ Z.pos d.
Proof.
  induction d as [|d IH] using Pos.peano_ind; [simpl; lia|]. rewrite -> Pos.iter_succ, Pos2Z.inj_succ, Z.pow_succ_r by lia.
  change (Z.pos (Pos.iter xO m d)~0) with (2 * Z.pos (Pos.iter xO m d)). rw IH. lia.
Qed.
Lemma floatOfUint_spec n : 0 < n <= maxUint64 ->
  exists p x, floatOfUint n = S754_finite false p x /\ Z.pos p < 2 ^ 65 /\ -52 <= x <= 129.
Proof.
  intros Hn. destruct n as [|n|n]; [lia| |lia]. unfold floatOfUint, binary_normalize, binary_round, shl_align.
  pose proof (digits2_bounds n) as [Hd1 Hd2]. assert (Hd : Z.pos (digits2_pos n) <= 64).
  { pose proof (Zdigits2_le (Z.pos n) 64). cbn [Zdigits2] in *. unfold maxUint64 in Hn. lia. }
  assert (Hsel : exists m e, 0 < Z.pos m < 2 ^ 64 /\ -52 <= e <= 0 /\
    (match fexp 53 1024 (Z.pos (digits2_pos n) + 0) - 0 with Z.neg d => (Pos.iter xO n d, fexp 53 1024 (Z.pos (digits2_pos n) + 0)) | _ => (n, 0) end) = (m, e)).
  { unfold fexp, emin. destruct (Z.max (Z.pos (digits2_pos n) + 0 - 53) (3 - 1024 - 53) - 0) as [|d|d] eqn:Hs.
    - exists n, 0. unfold maxUint64 in Hn. split_and!; [lia..|done].
    - exists n, 0. unfold maxUint64 in Hn. split_and!; [lia..|done].
    - exists (Pos.iter xO n d), (Z.max (Z.pos (digits2_pos n) + 0 - 53) (3 - 1024 - 53)). split_and!; [lia| |lia|lia|done]. rw iter_xO.
      assert (2 ^ Z.pos (digits2_pos n) * 2 ^ Z.pos d = 2 ^ 53) by (rewrite <- Z.pow_add_r by lia; f_equal; lia).
      pose proof (Z.pow_pos_nonneg 2 (Z.pos d)). nia. }
  destruct Hsel as (m & e & Hm & He & ->). destruct (round64_spec (Z.pos m) e loc_Exact 64 ltac:(lia) ltac:(lia) ltac:(lia)) as [[Hz|(p & x & Hx & Hp & He')] Hnz].
  - by destruct Hnz.
  - exists p, x. unfold round64 in Hx. rw Hx. split; [done|]. lia.
Qed.
Lemma div_eucl_div a b : 0 < b -> exists r, Z.div_eucl a b = (a / b, r).
Proof. intros Hb. unfold Z.div. destruct (Z.div_eucl a b) as [q r]. by exists r. Qed.

Definition finite64 (f : float64) : Prop := match f with S754_zero _ | S754_finite _ _ _ => True | _ => False end.
Lemma SFdiv_finite pa xa pb xb : Z.pos pa < 2 ^ 80 -> Z.pos pb < 2 ^ 80 -> -52 <= xa <= 129 -> -52 <= xb <= 129 ->
  finite64 (SFdiv 53 1024 (S754_finite false pa xa) (S754_finite false pb xb)).
Proof.
  intros Hpa Hpb Hxa Hxb. unfold SFdiv, SFdiv_core_binary. cbv zeta.
  pose proof (Zdigits2_le (Z.pos pa) 80 ltac:(lia) ltac:(lia)) as Hda. pose proof (Zdigits2_le (Z.pos pb) 80 ltac:(lia) ltac:(lia)) as Hdb.
  assert (1 <= Zdigits2 (Z.pos pa)) by (simpl; lia). assert (1 <= Zdigits2 (Z.pos pb)) by (simpl; lia).
  set (e' := Z.min (fexp 53 1024 (Zdigits2 (Z.pos pa) + xa - (Zdigits2 (Z.pos pb) + xb))) (xa - xb)).
  assert (He : -1000 <= e' <= 300 /\ 0 <= xa - xb - e' <= 133) by (unfold e', fexp, emin; lia).
  set (m' := match xa - xb - e' with 0 => Z.pos pa | Z.pos _ => Z.shiftl (Z.pos pa) (xa - xb - e') | Z.neg _ => 0 end).
  assert (Hm : 0 <= m' < 2 ^ 213).
  { unfold m'. destruct (xa - xb - e') as [|s|s] eqn:Hs; [lia| |lia]. rw Z.shiftl_mul_pow2; [lia|].
    pose proof (Z.pow_pos_nonneg 2 (Z.pos s)). pose proof (Z.pow_le_mono_r 2 (Z.pos s) 133). split; [nia|].
    change (2 ^ 213) with (2 ^ 80 * 2 ^ 133). nia. }
  destruct (div_eucl_div m' (Z.pos pb) eq_refl) as [r ->].
  assert (0 <= m' / Z.pos pb < 2 ^ 213) by (split; [apply Z.div_pos; lia|apply Z.div_lt_upper_bound; nia]).
  destruct (round64_spec (m' / Z.pos pb) e' (new_location (Z.pos pb) r) 213 ltac:(lia) ltac:(lia) ltac:(lia)) as [[Hz|(p & x & Hx & _)] _];
    unfold round64 in *; cbn [xorb]; [by rw Hz|by rw Hx].
Qed.
Lemma quotient_finite a b : 0 <= a <= maxUint64 -> 0 < b <= maxUint64 -> finite64 (SFdiv 53 1024 (floatOfUint a) (floatOfUint b)).
Proof.
  intros Ha Hb. destruct (floatOfUint_spec b Hb) as (pb & xb & -> & Hpb & Hxb). destruct (Z.eq_dec a 0) as [->|Hne]; [done|].
  destruct (floatOfUint_spec a ltac:(lia)) as (pa & xa & -> & Hpa & Hxa). apply SFdiv_finite; lia.
Qed.
(** The number nearest to m / 10^k, for small m and k. *)
Lemma decFloat_finite m e : Z.pos m < 2 ^ 79 -> -20 <= e <= 0 -> finite64 (decFloat false m e).
Proof.
  intros Hm He. unfold decFloat. destruct (Z.leb_spec 0 e) as [Hz|Hz].
  - replace e with 0 by lia. rw Z.mul_1_r. unfold binary_normalize, binary_round, shl_align.
    pose proof (digits2_bounds m) as [Hd1 Hd2]. pose proof (Zdigits2_le (Z.pos m) 79 ltac:(lia) ltac:(lia)) as Hd. cbn [Zdigits2] in Hd.
    unfold fexp, emin. destruct (Z.max (Z.pos (digits2_pos m) + 0 - 53) (3 - 1024 - 53) - 0) as [|d|d] eqn:Hs.
    + destruct (round64_spec (Z.pos m) 0 loc_Exact 79 ltac:(lia) ltac:(lia) ltac:(lia)) as [[Hx|(p & x & Hx & _)] _]; unfold round64 in Hx; by rw Hx.
    + destruct (round64_spec (Z.pos m) 0 loc_Exact 79 ltac:(lia) ltac:(lia) ltac:(lia)) as [[Hx|(p & x & Hx & _)] _]; unfold round64 in Hx; by rw Hx.
    + assert (0 <= Z.pos (Pos.iter xO m d) < 2 ^ 53).
      { rw iter_xO. assert (2 ^ Z.pos (digits2_pos m) * 2 ^ Z.pos d = 2 ^ 53) by (rewrite <- Z.pow_add_r by lia; f_equal; lia).
        pose proof (Z.pow_pos_nonneg 2 (Z.pos d)). nia. }
      destruct (round64_spec (Z.pos (Pos.iter xO m d)) (Z.max (Z.pos (digits2_pos m) + 0 - 53) (3 - 1024 - 53)) loc_Exact 53 ltac:(lia) ltac:(lia) ltac:(lia)) as [[Hx|(p & x & Hx & _)] _];
        unfold round64 in Hx; by rw Hx.
  - apply SFdiv_finite; [lia| |lia|lia]. pose proof (Z.pow_pos_nonneg 10 (- e) ltac:(lia) ltac:(lia)). rw Z2Pos.id; [lia|].
    pose proof (Z.pow_le_mono_r 10 (- e) 20 ltac:(lia) ltac:(lia)). lia.
Qed.

(** ** Rounding at most doubles *)

Lemma shift_le m : 0 < m -> 2 ^ Z.max 0 (Zdigits2 m - 53) <= m.
Proof.
  intros Hm. destruct m as [|p|p]; [lia| |lia]. cbn [Zdigits2]. pose proof (digits2_bounds p) as [Hd _].
  etrans; [|exact Hd]. apply Z.pow_le_mono_r; lia.
Qed.
Lemma mul_div_le' m n : 0 <= n -> 0 <= m -> m / 2 ^ n * 2 ^ n <= m.
Proof. intros Hn Hm. rw Z.mul_comm. apply Z.mul_div_le. by apply Z.pow_pos_nonneg. Qed.
Lemma round64_double m e k : 0 < m < 2 ^ k -> 0 <= k -> -1074 <= e -> e + k <= 900 ->
  exists p x, round64 m e loc_Exact = S754_finite false p x /\ e <= x /\ Z.pos p * 2 ^ (x - e) <= 2 * m.
Proof.
  intros Hm Hk He Hek. unfold round64, binary_round_aux. destruct (shr_fexp 53 1024 m e loc_Exact) as [mrs e1] eqn:H1.
  apply shr_fexp_spec in H1 as [H1 H2]; [|lia..]. set (s1 := Z.max 0 (Zdigits2 m - 53)) in *.
  set (r := round_nearest_even (shr_m mrs) (loc_of_shr_record mrs)).
  assert (Hr : shr_m mrs <= r <= shr_m mrs + 1) by (unfold r, round_nearest_even; repeat case_match; lia).
  pose proof (shift_positive m ltac:(lia)) as Hp1. fold s1 in Hp1. rw -H2 in Hp1. pose proof (shift_le m ltac:(lia)) as Hle1. fold s1 in Hle1.
  pose proof (mul_div_le' m s1 ltac:(lia) ltac:(lia)) as Hd1. rw -H2 in Hd1. pose proof (Z.pow_pos_nonneg 2 s1 ltac:(lia) ltac:(lia)).
  destruct (shr_fexp 53 1024 r e1 loc_Exact) as [mrs2 e2] eqn:H3. apply shr_fexp_spec in H3 as [H3 H4]; [|lia..].
  set (s2 := Z.max 0 (Zdigits2 r - 53)) in *. pose proof (shift_positive r ltac:(lia)) as Hp2. fold s2 in Hp2. rw -H4 in Hp2.
  pose proof (mul_div_le' r s2 ltac:(lia) ltac:(lia)) as Hd2. rw -H4 in Hd2. destruct (shr_m mrs2) as [|p|p] eqn:Hp; [lia| |lia].
  assert (Hval : Z.pos p * 2 ^ (s1 + s2) <= 2 * m) by (rewrite -> Z.pow_add_r by lia; nia).
  assert (e2 <= 1024 - 53).
  { assert (s1 + s2 < k + 2); [|lia]. apply (Z.pow_lt_mono_r_iff 2); [lia|lia|]. rewrite -> (Z.pow_add_r 2 k 2) by lia. pose proof (Z.pow_pos_nonneg 2 (s1 + s2)). nia. }
  rw (proj2 (Z.leb_le e2 (1024 - 53))); [done|]. exists p, e2. split; [done|]. split; [lia|]. by replace (e2 - e) with (s1 + s2) by lia.
Qed.

(** ** Decimal numbers are read *)

Lemma digit_byte c : isDigit c = true -> isByte c "_" = false /\ isByte c "." = false /\ 0 <= byteZ c - 48 <= 9.
Proof.
  intros Hc. split_and!; try (unfold isDigit in Hc; lia);
    (destruct (isByte c _) eqn:Hb; [|done]); apply Ascii.eqb_eq in Hb; subst c; discriminate Hc.
Qed.
Lemma readMant_digits s st r : sall isDigit s = true -> 0 <= mant st ->
  exists st', readMant false (s +:+ r) st = readMant false r st' /\ sawdot st' = sawdot st /\ underscores st' = underscores st /\
    (s <> "" \/ sawdigits st = true -> sawdigits st' = true) /\ 0 <= mant st' < (mant st + 1) * 10 ^ slen s /\
    nd st <= nd st' /\ dp st' <= dp st /\ nd st' - dp st' = nd st - dp st + slen s.
Proof.
  revert st. induction s as [|c s IH]; intros st; cbn [sall].
  { intros _ Hm. exists st. split_and!; try done; try (by intros [|]); change (slen "") with 0; lia. }
  intros [Hc Hs]%andb_true_iff Hm. destruct (digit_byte c Hc) as (H1 & H2 & H3). rw app_string_cons slen_cons. cbn [readMant]. rw H1 H2 Hc.
  pose proof (slen_nonneg s) as Hl. pose proof (Z.pow_pos_nonneg 10 (slen s) ltac:(lia) Hl) as Hp.
  assert (Hpow : 10 ^ (1 + slen s) = 10 * 10 ^ slen s) by (rewrite -> Z.pow_add_r by lia; lia).
  destruct (isByte c "0" && (nd st =? 0)).
  - destruct (IH (mkMant (mant st) (nd st) (dp st - 1) (sawdot st) true (underscores st)) Hs Hm) as (st' & Hr & Hd & Hu & Hw & Hb & Hn & Hdp & Hdiff).
    cbn [mant nd dp sawdot sawdigits underscores] in *. exists st'. split_and!; try done; try lia; try nia. intros _. apply Hw. by right.
  - destruct (IH (mkMant (mant st * 10 + (byteZ c - 48)) (nd st + 1) (dp st) (sawdot st) true (underscores st)) Hs ltac:(cbn; lia)) as (st' & Hr & Hd & Hu & Hw & Hb & Hn & Hdp & Hdiff).
    cbn [mant nd dp sawdot sawdigits underscores] in *. exists st'. split_and!; try done; try lia; try nia. intros _. apply Hw. by right.
Qed.
Lemma ParseFloat_decimal a b : sall isDigit a = true -> sall isDigit b = true -> a <> "" -> 1 <= slen b -> slen a + slen b <= 20 ->
  exists f, ParseFloat (a +:+ "." +:+ b) = Some f /\ finite64 f.
Proof.
  intros Ha Hb Hne Hb1 Hlen. destruct a as [|c a]; [done|].
  assert (Hc : isDigit c = true) by (cbn [sall] in Ha; by apply andb_true_iff in Ha as [? _]).
  assert (special (String c a +:+ "." +:+ b) = None) as Hsp.
  { rw app_string_cons. cbn [special]. destruct c as [[] [] [] [] [] [] [] []]; (discriminate Hc || reflexivity). }
  destruct (readMant_digits (String c a) (mkMant 0 0 0 false false false) ("." +:+ b) Ha ltac:(cbn; lia)) as (st1 & Hr1 & Hd1 & Hu1 & Hw1 & Hm1 & Hn1 & Hp1 & Hx1).
  set (st1' := mkMant (mant st1) (nd st1) (nd st1) true (sawdigits st1) (underscores st1)).
  destruct (readMant_digits b st1' "" Hb ltac:(cbn; lia)) as (st2 & Hr2 & Hd2 & Hu2 & Hw2 & Hm2 & Hn2 & Hp2 & Hx2).
  assert (Hread : readMant false (String c a +:+ "." +:+ b) (mkMant 0 0 0 false false false) = (st2, "")).
  { rw Hr1. change ("." +:+ b) with (String "." b). cbn [readMant]. change (isByte "." "_") with false. change (isByte "." ".") with true. cbv iota. rw Hd1. cbn [sawdot].
    fold st1'. rewrite <- (app_string_nil_r b). rw Hr2. done. }
  assert (Hsign : isByte c "+" = false /\ isByte c "-" = false) by (destruct c as [[] [] [] [] [] [] [] []]; (discriminate Hc || by split)).
  assert (Hhex : match String c a +:+ "." +:+ b with
    | String c0 (String c1 (String _ _ as s')) => if isByte c0 "0" && lowerIs c1 "x" then (true, s') else (false, String c a +:+ "." +:+ b)
    | _ => (false, String c a +:+ "." +:+ b) end = (false, String c a +:+ "." +:+ b)).
  { destruct a as [|d a]; rw app_string_cons.
    - change ("" +:+ "." +:+ b) with (String "." b). destruct b as [|e b]; [done|]. change (lowerIs "." "x") with false. by rw andb_false_r.
    - rw app_string_cons. assert (lowerIs d "x" = false) as Hx.
      { cbn [sall] in Ha. apply andb_true_iff in Ha as [_ [Hd _]%andb_true_iff]. destruct d as [[] [] [] [] [] [] [] []]; (discriminate Hd || reflexivity). }
      destruct (a +:+ "." +:+ b); [done|]. by rw Hx andb_false_r. }
  assert (Hread' : readFloat (String c a +:+ "." +:+ b) =
    Some (match mant st2 with Z.pos m => decFloat false m (dp st2 + 0 - nd st2) | _ => S754_zero false end, "")).
  { unfold readFloat. rw {1}app_string_cons. rw (proj1 Hsign) (proj2 Hsign). cbv beta iota. rw Hhex. cbv beta iota. rw Hread. cbv beta iota.
    rw Hw2; [right; apply Hw1; by left|]. cbn [negb]. rw Hd2. cbn [sawdot st1']. rw Hu2. cbn [underscores st1']. rw Hu1. cbn [underscores orb andb]. by destruct (mant st2). }
  unfold ParseFloat. rw Hsp Hread'. cbn [mant nd dp st1'] in Hm1, Hm2, Hx1, Hx2, Hp2, Hn2. change (mant st1') with (mant st1) in Hm2. change (nd st1') with (nd st1) in *. change (dp st1') with (nd st1) in *.
  destruct (mant st2) as [|m|m] eqn:Hm; [by eexists|..|lia].
  assert (finite64 (decFloat false m (dp st2 + 0 - nd st2))) as Hfin.
  { apply decFloat_finite; [|pose proof (slen_nonneg (String c a)); lia].
    assert (Z.pos m < 10 ^ slen (String c a) * 10 ^ slen b); [|].
    - eapply Z.lt_le_trans; [apply Hm2|]. pose proof (Z.pow_pos_nonneg 10 (slen b)). nia.
    - rewrite <- Z.pow_add_r in * by (pose proof (slen_nonneg (String c a)); lia). pose proof (Z.pow_le_mono_r 10 (slen (String c a) + slen b) 20). lia. }
  destruct (decFloat false m _) as [| | |]; [by eexists|done|done|by eexists].
Qed.

(** ** Integers as binary64 values *)

(** The text of a 64-bit integer is read as the nearest binary64 value, which is
    the integer itself below 2^53. *)

(** [float64(n)] *)
Definition floatOfInt (n : Z) : float64 := binary_normalize 53 1024 n 0 (n <? 0).
Lemma floatOfInt_uint n : 0 <= n -> floatOfInt n = floatOfUint n.
Proof. intros Hn. unfold floatOfInt. by destruct (Z.ltb_spec n 0); [lia|]. Qed.

(** ** Reading *)

Lemma readMant_value s st a v : ParseUint_loop a s = Some v -> mant st = a -> 0 <= nd st -> (nd st = 0 -> a = 0) -> sawdot st = false -> underscores st = false ->
  exists st', readMant false s st = (st', "") /\ mant st' = v /\ sawdot st' = false /\ underscores st' = false /\
    (s <> "" \/ sawdigits st = true -> sawdigits st' = true).
Proof.
  revert st a. induction s as [|c s IH]; intros st a; cbn [ParseUint_loop].
  { intros [= ->] Hm _ _ Hd Hu. exists st. split_and!; try done. by intros [|]. }
  destruct (isDigit c) eqn:Hc; [|done]. destruct (_ <=? a); [done|]. destruct (maxUint64 <? _); [done|]. intros Hp Hm Hn Hz Hd Hu.
  destruct (digit_byte c Hc) as (H1 & H2 & _). cbn [readMant]. rw H1 H2 Hc.
  destruct (isByte c "0" && (nd st =? 0)) eqn:H0.
  - apply andb_true_iff in H0 as [H0 Hn0]. apply Ascii.eqb_eq in H0 as ->. apply Z.eqb_eq in Hn0. specialize (Hz Hn0). rw Hz in Hp Hm. change (0 * 10 + (byteZ "0" - 48)) with 0 in Hp.
    destruct (IH (mkMant (mant st) (nd st) (dp st - 1) (sawdot st) true (underscores st)) _ Hp) as (st' & Hr & Hv & Hd' & Hu' & Hs'); [done..|].
    exists st'. split_and!; try done. intros _. apply Hs'. by right.
  - destruct (IH (mkMant (mant st * 10 + (byteZ c - 48)) (nd st + 1) (dp st) (sawdot st) true (underscores st)) _ Hp) as (st' & Hr & Hv & Hd' & Hu' & Hs');
      [by cbn; rw Hm|cbn; lia|cbn; lia|done|done|].
    exists st'. split_and!; try done. intros _. apply Hs'. by right.
Qed.

Lemma readFloat_digits (neg : bool) s v : ParseUint s = Some v -> sall isDigit s = true -> 0 <= v ->
  readFloat (if neg then String "-" s else s) = Some (match v with Z.pos m => decFloat neg m 0 | _ => S754_zero neg end, "").
Proof.
  intros Hp Hs Hv. destruct s as [|c s]; [done|]. unfold ParseUint in Hp.
  destruct (readMant_value (String c s) (mkMant 0 0 0 false false false) 0 v Hp) as (st & Hr & Hm & Hd & Hu & Hw); [done|done|done|done|done|].
  assert (Hw' : sawdigits st = true) by (apply Hw; by left). clear Hw; rename Hw' into Hw. cbn [sall] in Hs. apply andb_true_iff in Hs as [Hc Hs].
  assert (Hsign : isByte c "+" = false /\ isByte c "-" = false) by (destruct c as [[] [] [] [] [] [] [] []]; (discriminate Hc || by split)).
  assert (Hhex : match String c s with
    | String c0 (String c1 (String _ _ as s')) => if isByte c0 "0" && lowerIs c1 "x" then (true, s') else (false, String c s)
    | _ => (false, String c s) end = (false, String c s)).
  { destruct s as [|d [|e s]]; [done|done|]. cbn [sall] in Hs. apply andb_true_iff in Hs as [Hd' _].
    assert (lowerIs d "x" = false) as -> by (destruct d as [[] [] [] [] [] [] [] []]; (discriminate Hd' || reflexivity)). by rw andb_false_r. }
  unfold readFloat. destruct neg.
  - change (isByte "-" "+") with false. change (isByte "-" "-") with true. cbv beta iota. rw Hhex. cbv beta iota. rw Hr. cbv beta iota. rw Hw Hd Hu. cbn [negb orb andb].
    rw Hm. destruct v as [|m|m]; [done| |lia]. by replace (nd st + 0 - nd st) with 0 by lia.
  - rw (proj1 Hsign) (proj2 Hsign). cbv beta iota. rw Hhex. cbv beta iota. rw Hr. cbv beta iota. rw Hw Hd Hu. cbn [negb orb andb].
    rw Hm. destruct v as [|m|m]; [done| |lia]. by replace (nd st + 0 - nd st) with 0 by lia.
Qed.
Lemma special_digits (neg : bool) s : sall isDigit s = true -> special (if neg then String "-" s else s) = None.
Proof.
  intros Hs. destruct s as [|c s]; [by destruct neg|]. cbn [sall] in Hs. apply andb_true_iff in Hs as [Hc _].
  destruct neg; destruct c as [[] [] [] [] [] [] [] []]; (discriminate Hc || reflexivity).
Qed.

(** ** Rounding *)

Lemma round_sign m e l : binary_round_aux 53 1024 true m e l = SFopp (binary_round_aux 53 1024 false m e l).
Proof.
  unfold binary_round_aux. destruct (shr_fexp 53 1024 m e l) as [mrs e']. destruct (shr_fexp 53 1024 _ e' loc_Exact) as [mrs' e''].
  destruct (shr_m mrs'); [done| |done]. by destruct (e'' <=? 1024 - 53).
Qed.
Lemma floatOfInt_neg n : 0 < n -> floatOfInt (- n) = SFopp (floatOfInt n).
Proof.
  intros Hn. destruct n as [|p|p]; [lia| |lia]. change (- Z.pos p) with (Z.neg p). unfold floatOfInt. cbn [Z.ltb Z.compare binary_normalize]. unfold binary_round.
  destruct (shl_align p 0 _) as [mz ez]. apply round_sign.
Qed.
Lemma finite_opp f : finite64 f -> finite64 (SFopp f).
Proof. by destruct f. Qed.
Lemma floatOfInt_finite n : Z.abs n <= maxUint64 -> finite64 (floatOfInt n).
Proof.
  intros Hn. destruct (Z.lt_trichotomy n 0) as [Hlt|[->|Hgt]]; [|done|].
  - replace n with (- - n) by lia. rw floatOfInt_neg; [lia|]. apply finite_opp. rw floatOfInt_uint; [lia|]. destruct (floatOfUint_spec (- n)) as (p & x & -> & _); [lia|done].
  - rw floatOfInt_uint; [lia|]. destruct (floatOfUint_spec n) as (p & x & -> & _); [lia|done].
Qed.

(** The text of an integer is read as that integer. *)
Lemma ParseFloat_FormatInt n : Z.abs n <= maxUint64 -> ParseFloat (FormatInt n) = Some (floatOfInt n).
Proof.
  intros Hn. pose proof (floatOfInt_finite n Hn) as Hf.
  assert (Hr : FormatInt n = (if n <? 0 then String "-" (FormatUint (Z.abs n)) else FormatUint (Z.abs n)))
    by (unfold FormatInt; destruct (Z.ltb_spec n 0); [by replace (Z.abs n) with (- n) by lia|by replace (Z.abs n) with n by lia]).
  assert (Hread : readFloat (FormatInt n) = Some (floatOfInt n, "")).
  { rw Hr (readFloat_digits (n <? 0) _ (Z.abs n)); [apply ParseUint_FormatUint; lia|apply FormatUint_digits|lia|]. f_equal. f_equal.
    unfold floatOfInt, decFloat. destruct n as [|p|p]; [done| |]; cbn [Z.abs Z.ltb Z.compare Z.leb]; f_equal; lia. }
  unfold ParseFloat. rw Hread Hr special_digits; [apply FormatUint_digits|]. by destruct (floatOfInt n).
Qed.
Lemma ParseFloat_FormatUint n : 0 <= n <= maxUint64 -> ParseFloat (FormatUint n) = Some (floatOfInt n).
Proof. intros Hn. rw -(ParseFloat_FormatInt n); [lia|]. unfold FormatInt. by destruct (Z.ltb_spec n 0); [lia|]. Qed.

(** ** Small integers are exact *)

(** The integer that a value is, if it is one. *)
Definition floatInt (f : float64) : option Z :=
  match f with
  | S754_zero _ => Some 0
  | S754_finite s m e =>
      let v := if s then Z.neg m else Z.pos m in
      if 0 <=? e then Some (v * 2 ^ e) else if v mod 2 ^ (- e) =? 0 then Some (v / 2 ^ (- e)) else None
  | _ => None
  end.
Lemma round64_exact m e : Z.pos m < 2 ^ 53 -> -1074 <= e <= 900 -> round64 (Z.pos m) e loc_Exact = S754_finite false m e.
Proof.
  intros Hm He. pose proof (Zdigits2_le (Z.pos m) 53 ltac:(lia) ltac:(lia)) as Hd.
  assert (Hs : shr_fexp 53 1024 (Z.pos m) e loc_Exact = (shr_record_of_loc (Z.pos m) loc_Exact, e)).
  { unfold shr_fexp, shr, fexp, emin. destruct (Z.max (Zdigits2 (Z.pos m) + e - 53) (3 - 1024 - 53) - e) eqn:Hn; [done|lia|done]. }
  unfold round64, binary_round_aux. rw Hs. cbn [shr_record_of_loc shr_m loc_of_shr_record round_nearest_even]. rw Hs. cbn [shr_record_of_loc shr_m].
  by rw (proj2 (Z.leb_le e (1024 - 53))); [lia|].
Qed.
Lemma floatOfInt_shift n : 0 < n < 2 ^ 53 -> exists d m, floatOfInt n = S754_finite false m (- d) /\ 0 <= d <= 53 /\ Z.pos m = n * 2 ^ d.
Proof.
  intros Hn. destruct n as [|p|p]; [lia| |lia]. unfold floatOfInt. cbn [Z.ltb Z.compare binary_normalize]. unfold binary_round, shl_align, fexp, emin.
  pose proof (digits2_bounds p) as [Hd1 Hd2]. pose proof (Zdigits2_le (Z.pos p) 53 ltac:(lia) ltac:(lia)) as Hd. cbn [Zdigits2] in Hd.
  destruct (Z.max (Z.pos (digits2_pos p) + 0 - 53) (3 - 1024 - 53) - 0) as [|d|d] eqn:Hs; [|lia|].
  - exists 0, p. split; [by apply round64_exact; lia|]. lia.
  - exists (Z.pos d), (Pos.iter xO p d). split; [|split; [lia|apply iter_xO]].
    replace (Z.max (Z.pos (digits2_pos p) + 0 - 53) (3 - 1024 - 53)) with (- Z.pos d) by lia. apply round64_exact; [|lia]. rw iter_xO.
    assert (2 ^ Z.pos (digits2_pos p) * 2 ^ Z.pos d = 2 ^ 53) by (rewrite <- Z.pow_add_r by lia; f_equal; lia).
    pose proof (Z.pow_pos_nonneg 2 (Z.pos d)). nia.
Qed.
Theorem floatOfInt_exact n : Z.abs n < 2 ^ 53 -> floatInt (floatOfInt n) = Some n.
Proof.
  assert (Hdiv : forall v d, 0 <= d -> (if 0 <=? - d then Some (v * 2 ^ d * 2 ^ (- d)) else if (v * 2 ^ d) mod 2 ^ (- - d) =? 0 then Some (v * 2 ^ d / 2 ^ (- - d)) else None) = Some v).
  { intros v d Hd. rw Z.opp_involutive. pose proof (Z.pow_pos_nonneg 2 d ltac:(lia) Hd). destruct (Z.leb_spec 0 (- d)); [by replace d with 0 by lia; f_equal; lia|].
    rw Z.mod_mul; [lia|]. rw Z.div_mul; [lia|done]. }
  intros Hn. destruct (Z.lt_trichotomy n 0) as [Hlt|[->|Hgt]]; [|done|].
  - destruct (floatOfInt_shift (- n) ltac:(lia)) as (d & m & Hf & Hd & Hm). replace n with (- - n) at 1 by lia. rw floatOfInt_neg; [lia|]. rw Hf. cbn [SFopp negb floatInt].
    replace (Z.neg m) with (n * 2 ^ d) by lia. apply Hdiv. lia.
  - destruct (floatOfInt_shift n ltac:(lia)) as (d & m & Hf & Hd & Hm). rw Hf. cbn [floatInt]. rw Hm. apply Hdiv. lia.
Qed.

(** ** Integers are printed exactly *)

Lemma floatOfInt_inj a b : 0 <= a < 2 ^ 53 -> 0 <= b < 2 ^ 53 -> floatOfInt a = floatOfInt b -> a = b.
Proof. intros Ha Hb He. pose proof (floatOfInt_exact a ltac:(lia)) as H1. rw He floatOfInt_exact in H1; [lia|]. by injection H1. Qed.
Lemma decFloat_int p e : 0 <= e -> decFloat false p e = floatOfInt (Z.pos p * 10 ^ e).
Proof.
  intros He. unfold decFloat, floatOfInt. rw (proj2 (Z.leb_le 0 e) He). f_equal. symmetry. apply Z.ltb_ge. pose proof (Z.pow_pos_nonneg 10 e). lia.
Qed.
Lemma decExp_up_int n den k j fuel : 0 < den -> 0 < j <= k -> (Z.to_nat (k - j) < fuel)%nat -> 10 ^ (k - 1) <= n < 10 ^ k -> decExp_up fuel (n * den) den j = k.
Proof.
  intros Hd. revert j. induction fuel as [|fuel IH]; intros j Hj Hf Hn; [lia|]. cbn [decExp_up].
  destruct (Z.ltb_spec (n * den) (den * 10 ^ j)).
  - destruct (Z.eq_dec j k) as [|Hne]; [done|]. pose proof (Z.pow_le_mono_r 10 j (k - 1) ltac:(lia) ltac:(lia)). nia.
  - destruct (Z.eq_dec j k) as [->|Hne]; [nia|]. apply IH; lia.
Qed.
Lemma digits_exist n j : 0 < n -> 0 <= j -> n < 10 ^ j -> exists k, 1 <= k <= j /\ 10 ^ (k - 1) <= n < 10 ^ k.
Proof.
  intros Hn Hj. revert Hj n Hn. apply (natlike_ind (fun j => forall n, 0 < n -> n < 10 ^ j -> exists k, 1 <= k <= j /\ 10 ^ (k - 1) <= n < 10 ^ k)); [cbn; lia|].
  intros x Hx IH n Hn Hlt. destruct (Z.lt_ge_cases n (10 ^ x)) as [Hl|Hg].
  - destruct (IH n Hn Hl) as (k & ? & ?). exists k. lia.
  - exists (Z.succ x). replace (Z.succ x - 1) with x by lia. lia.
Qed.
Section integers.
Context (n den k : Z) (Hn : 0 < n < 2 ^ 52) (Hden : 0 < den) (Hk : 10 ^ (k - 1) <= n < 10 ^ k).
Lemma shortest_n_int i : 1 <= i <= k -> match shortest_n (floatOfInt n) false (n * den) den k i with
  | Some (d, e) => 0 < d /\ 0 <= e /\ d * 10 ^ e = n
  | None => i <> k
  end.
Proof.
  intros Hi. unfold shortest_n. rw (proj2 (Z.leb_le 0 (k - i))); [lia|]. set (e := k - i). assert (He : 0 <= e <= k - 1) by lia.
  pose proof (Z.pow_pos_nonneg 10 e ltac:(lia) ltac:(lia)) as Hp. pose proof (Z.pow_le_mono_r 10 e (k - 1) ltac:(lia) ltac:(lia)) as Hle.
  assert (Hlo : n * den / (den * 10 ^ e) = n / 10 ^ e) by (rw (Z.mul_comm n) Z.div_mul_cancel_l; lia). rw Hlo. set (lo := n / 10 ^ e).
  assert (Hq : lo * 10 ^ e <= n < lo * 10 ^ e + 10 ^ e) by (pose proof (Z.div_mod n (10 ^ e)); pose proof (Z.mod_pos_bound n (10 ^ e)); subst lo; lia).
  set (back := fun d => match d with Z.pos p => bool_decide (decFloat false p e = floatOfInt n) | _ => false end).
  assert (Hback : forall d, d * 10 ^ e <= 2 * n -> back d = true -> 0 < d /\ 0 <= e /\ d * 10 ^ e = n).
  { intros d Hb. destruct d as [|p|p]; [done| |done]. cbn [back]. intros Hd%bool_decide_eq_true. rw decFloat_int in Hd; [lia|].
    split; [lia|]. split; [lia|]. apply floatOfInt_inj in Hd; lia. }
  assert (H1 : back lo = true -> 0 < lo /\ 0 <= e /\ lo * 10 ^ e = n) by (intros Hb; apply Hback; [lia|done]).
  assert (H2 : back (lo + 1) = true -> 0 < lo + 1 /\ 0 <= e /\ (lo + 1) * 10 ^ e = n) by (intros Hb; apply Hback; [lia|done]).
  assert (H3 : i = k -> back lo = true).
  { intros Hik. assert (He0 : e = 0) by lia. subst back lo. rw He0 Z.pow_0_r Z.div_1_r. cbn beta. destruct n as [|p|p]; [lia| |lia].
    apply bool_decide_eq_true. rw decFloat_int; [lia|]. f_equal. lia. }
  change (match lo with Z.pos p => bool_decide (decFloat false p e = floatOfInt n) | _ => false end) with (back lo).
  change (match lo + 1 with Z.pos p => bool_decide (decFloat false p e = floatOfInt n) | _ => false end) with (back (lo + 1)).
  destruct (match _ ?= _ with Eq => _ | Lt => _ | Gt => _ end).
  - destruct (back (lo + 1)); [by apply H2|]. destruct (back lo); [by apply H1|]. intros Hik. by specialize (H3 Hik).
  - destruct (back lo); [by apply H1|]. destruct (back (lo + 1)); [by apply H2|]. intros Hik. by specialize (H3 Hik).
Qed.
Lemma shortest_int fuel i : 1 <= i <= k -> (Z.to_nat (k - i) < fuel)%nat -> forall d e, shortest fuel (floatOfInt n) false (n * den) den k i = (d, e) -> 0 < d /\ 0 <= e /\ d * 10 ^ e = n.
Proof.
  revert i. induction fuel as [|fuel IH]; intros i Hi Hf d e; [lia|]. cbn [shortest]. pose proof (shortest_n_int i Hi) as Hs.
  destruct (shortest_n _ _ _ _ _ _) as [[d' e']|]; [by intros [= <- <-]|]. apply IH; lia.
Qed.
End integers.
Lemma trimZeros_keeps fuel d e d' e' : 0 < d -> 0 <= e -> trimZeros fuel d e = (d', e') -> 0 < d' /\ 0 <= e' /\ d' * 10 ^ e' = d * 10 ^ e.
Proof.
  revert d e. induction fuel as [|fuel IH]; intros d e Hd He; cbn [trimZeros]; [by intros [= <- <-]|].
  destruct (Z.eqb_spec (d mod 10) 0) as [Hm|]; cbn [andb]; [|intros [= <- <-]; done]. rw (proj2 (Z.ltb_lt 0 d) Hd). intros Ht.
  pose proof (Z.div_mod d 10 ltac:(lia)) as Hdiv. apply IH in Ht as (? & ? & Hv); [|lia|lia]. split; [done|]. split; [done|]. rw Hv Z.pow_add_r; [lia|lia|]. lia.
Qed.
Lemma zeros_snoc j : zeros (S j) = zeros j +:+ "0".
Proof. induction j as [|j IH]; [done|]. exact (f_equal (String "0") IH). Qed.
Lemma FormatUint_zeros d j : 0 < d -> d * 10 ^ Z.of_nat j <= maxUint64 -> FormatUint d +:+ zeros j = FormatUint (d * 10 ^ Z.of_nat j).
Proof.
  intros Hd. induction j as [|j IH]; intros Hm; [by rw Z.mul_1_r /= app_nil_string|]. rw Nat2Z.inj_succ Z.pow_succ_r in Hm *; [lia|].
  pose proof (Z.pow_pos_nonneg 10 (Z.of_nat j) ltac:(lia) ltac:(lia)). rw zeros_snoc -app_string_assoc IH; [lia|].
  replace (d * (10 * 10 ^ Z.of_nat j)) with (10 * (d * 10 ^ Z.of_nat j) + 0) by lia. by rw FormatUint_snoc; [nia|lia|lia|].
Qed.
(** Below 2^52 the decimal digits of an integer are what is printed. *)
Lemma FormatFloat_int n : 0 <= n < 2 ^ 52 -> FormatFloat (floatOfInt n) = FormatUint n.
Proof.
  intros Hn. destruct (Z.eq_dec n 0) as [->|Hne]; [done|]. destruct (floatOfInt_shift n ltac:(lia)) as (s & m & Hf & Hs & Hm).
  destruct (digits_exist n 16 ltac:(lia) ltac:(lia) ltac:(lia)) as (k & Hk & Hb).
  assert (Hr : exists den, ratio m (- s) = (n * den, den) /\ 0 < den).
  { unfold ratio. destruct (Z.leb_spec 0 (- s)) as [H0|H0].
    - assert (s = 0) as -> by lia. exists 1. rw Hm. cbn. split; [f_equal; lia|lia].
    - exists (2 ^ s). rw Hm Z.opp_involutive. split; [done|]. apply Z.pow_pos_nonneg; lia. }
  destruct Hr as (den & Hr & Hden). rw {1}Hf. cbn [FormatFloat]. rw -Hf Hr.
  assert (Hx : decExp (n * den) den = k). { unfold decExp. rw (proj2 (Z.leb_le den (n * den))); [nia|]. apply decExp_up_int; lia. }
  rw Hx. destruct (shortest _ _ _ _ _ _ _) as [d e] eqn:Hd. apply shortest_int in Hd as (Hd & He & Hv); [|lia|done|done|lia|lia].
  unfold fmtF. destruct (trimZeros 20 d e) as [d' e'] eqn:Ht. apply trimZeros_keeps in Ht as (Hd' & He' & Hv'); [|done|done].
  pose proof (slen_nonneg (FormatUint d')) as Hl. destruct (FormatUint_nonempty d') as (c & t & Ht).
  assert (0 < slen (FormatUint d')) by (rw Ht; unfold slen; cbn; lia).
  rw (proj2 (Z.ltb_lt 0 (slen (FormatUint d') + e'))); [lia|]. rw (proj2 (Z.ltb_ge 0 (slen (FormatUint d') - (slen (FormatUint d') + e')))); [lia|].
  rw stake_all; [unfold slen; lia|]. replace (slen (FormatUint d') + e' - slen (FormatUint d')) with e' by lia.
  rw FormatUint_zeros; [done|rw Z2Nat.id; [lia|unfold maxUint64; lia]|]. rw Z2Nat.id; [lia|]. rw Hv' Hv. cbn. by rw app_nil_string.
Qed.
