(* ===== verification/Metrics.v ===== *)
(** * The in-memory metrics: [internal/metrics]

    Counters are 64-bit and wrap around; a gauge has its last value; a latency
    is appended to the history of its name; of the events the latest are kept.
    A method holds the lock of the sink, so that it is one step, and ignores its
    labels. *)
From S2P Require Import Prelude GoFloat.
Local Open Scope Z_scope.

Record Event := mkEvent { EvName : string; EvTimestamp : Z; EvLabels : list (string * string) }.
Record InMemory := mkInMemory {
  counters : gmap string Z;
  gauges : gmap string float64;
  latencies : gmap string (list Z);
  events : list Event;
  maxEvents : Z
}.

Definition NewInMemory (max : Z) : InMemory := mkInMemory ∅ ∅ ∅ [] (if max <=? 0 then 1024 else max).

Definition Counter (m : InMemory) (name : string) : Z := default 0 (counters m !! name).
Definition GaugeValue (m : InMemory) (name : string) : float64 := default (S754_zero false) (gauges m !! name).
Definition Latencies (m : InMemory) (name : string) : list Z := default [] (latencies m !! name).

Definition AddCounter (name : string) (delta : Z) (m : InMemory) : InMemory :=
  mkInMemory (<[name := u64 (Counter m name + delta)]> (counters m)) (gauges m) (latencies m) (events m) (maxEvents m).
Definition IncCounter (name : string) : InMemory -> InMemory := AddCounter name 1.
Definition ObserveLatency (name : string) (value : Z) (m : InMemory) : InMemory :=
  mkInMemory (counters m) (gauges m) (<[name := Latencies m name ++ [value]]> (latencies m)) (events m) (maxEvents m).
Definition Gauge (name : string) (value : float64) (m : InMemory) : InMemory :=
  mkInMemory (counters m) (<[name := value]> (gauges m)) (latencies m) (events m) (maxEvents m).
Definition PublishEvent (event : Event) (m : InMemory) : InMemory :=
  let kept := if maxEvents m <=? Z.of_nat (length (events m)) then tail (events m) else events m in
  mkInMemory (counters m) (gauges m) (latencies m) (kept ++ [event]) (maxEvents m).

(** ** Counting *)

(** The additions of a log, in order. *)
Definition recordAll (log : list (string * Z)) (m : InMemory) : InMemory := foldl (fun m p => AddCounter p.1 p.2 m) m log.
Fixpoint countOf (name : string) (log : list (string * Z)) : Z :=
  match log with
  | [] => 0
  | (n, d) :: log => (if String.eqb n name then d else 0) + countOf name log
  end.

Lemma countOf_app name a b : countOf name (a ++ b) = countOf name a + countOf name b.
Proof. induction a as [|[n d] a IH]; [done|]. cbn [app countOf]. rw IH. lia. Qed.
Lemma Counter_add name n d m : Counter (AddCounter n d m) name = if String.eqb n name then u64 (Counter m name + d) else Counter m name.
Proof.
  unfold Counter at 1. cbn [counters AddCounter]. destruct (String.eqb_spec n name) as [->|Hn]; [by rw lookup_insert_eq|by rw lookup_insert_ne].
Qed.
Lemma Counter_recordAll name log m : u64 (Counter m name) = Counter m name ->
  Counter (recordAll log m) name = u64 (Counter m name + countOf name log).
Proof.
  unfold recordAll. revert m. induction log as [|[n d] log IH]; intros m Hm; cbn [foldl countOf].
  { by rw Z.add_0_r Hm. }
  rw IH; rw Counter_add; cbn [fst snd]; destruct (String.eqb n name).
  - unfold u64. by rw Zmod_mod.
  - done.
  - by rw u64_add_l Z.add_assoc.
  - by rw Z.add_0_l.
Qed.
Lemma recordAll_latencies log m : latencies (recordAll log m) = latencies m.
Proof. unfold recordAll. revert m. induction log as [|p log IH]; intros m; [done|]. cbn [foldl]. by rw IH. Qed.
Lemma Latencies_observe name n d m : Latencies (ObserveLatency n d m) name = if String.eqb n name then Latencies m name ++ [d] else Latencies m name.
Proof.
  unfold Latencies at 1. cbn [latencies ObserveLatency]. destruct (String.eqb_spec n name) as [->|Hn]; [by rw lookup_insert_eq|by rw lookup_insert_ne].
Qed.

(** ** The latest events *)

Definition lastN {A} (n : nat) (l : list A) : list A := drop (length l - n) l.
Lemma publish_events es m : 0 < maxEvents m -> (Z.of_nat (length (events m)) <= maxEvents m) ->
  events (foldl (fun m e => PublishEvent e m) m es) = lastN (Z.to_nat (maxEvents m)) (events m ++ es).
Proof.
  revert m. induction es as [|e es IH]; intros m Hm Hl; cbn [foldl].
  { rw app_nil_r. unfold lastN. by replace (length (events m) - Z.to_nat (maxEvents m))%nat with 0%nat by lia. }
  rw IH; cbn [PublishEvent maxEvents events]; [done| |].
  { rw length_app. destruct (Z.leb_spec (maxEvents m) (Z.of_nat (length (events m)))); [destruct (events m)|]; simpl in *; lia. }
  destruct (Z.leb_spec (maxEvents m) (Z.of_nat (length (events m)))) as [Hfull|Hroom]; [|by rw -app_assoc].
  destruct (events m) as [|x evs] eqn:He; [simpl in Hfull; lia|]. cbn [tail]. rw -app_assoc. unfold lastN.
  cbn [app length] in Hl, Hfull |- *. rw !length_app. cbn [app length].
  by replace (S (length evs + S (length es)) - Z.to_nat (maxEvents m))%nat with (S (length evs + S (length es) - Z.to_nat (maxEvents m)))%nat by lia.
Qed.
