(* ===== verification/Resp.v ===== *)
(** * The wire protocol: [internal/resp] and the client side of
    [internal/cluster/proxy.go]

    Frames and commands are the source's types.  A reader is the unread part
    of the stream; an operation on it is a [Parse] computation that returns a
    value or an error together with what is left.  A writer is a function to
    the bytes written.  The end of the stream is [EOF]; other I/O errors,
    deadlines and the command pool (which only recycles memory) are not
    modelled. *)
From S2P Require Import Prelude GoText.
Local Open Scope Z_scope.

(** ** Frames and commands *)

Inductive Frame :=
| SimpleString (s : string)
| Error (Prefix Message : string)
| Integer (n : Z)
| BulkString (Value : string) (Null : bool)
| Array (Items : list Frame) (Null : bool).

Definition NewError (prefix message : string) : Frame := Error prefix message.
Definition OK : Frame := SimpleString "OK".
Definition Pong : Frame := SimpleString "PONG".
Definition NullBulk : Frame := BulkString "" true.
Definition BulkBytes (b : string) : Frame := BulkString b false.
Definition BulkFromString (s : string) : Frame := BulkString s false.

Record Command := mkCommand { Name : string; Args : list string }.

#[export] Instance Command_eq_dec : EqDecision Command.
Proof. solve_decision. Defined.

Definition Key (c : Command) : option string := head (Args c).

(** [equalFoldASCII] compares byte-wise after folding both sides. *)
Fixpoint equalFoldASCII (b s : string) : bool :=
  match b, s with
  | "", "" => true
  | String bc b, String sc s => Ascii.eqb (toUpperByte bc) (toUpperByte sc) && equalFoldASCII b s
  | _, _ => false
  end.
Definition ArgString (c : Command) (i : Z) : string * bool :=
  if (i <? 0) || (Z.of_nat (length (Args c)) <=? i) then ("", false)
  else match Args c !! Z.to_nat i with Some a => (a, true) | None => ("", false) end.
Definition EqualFoldArg (c : Command) (i : Z) (s : string) : bool :=
  if (i <? 0) || (Z.of_nat (length (Args c)) <=? i) then false
  else match Args c !! Z.to_nat i with Some a => equalFoldASCII a s | None => false end.

Definition keyless : list string :=
  ["PING"; "ECHO"; "QUIT"; "FLUSHDB"; "FLUSHALL"; "COMMAND"; "CLIENT"; "HELLO";
   "REPLICATE"; "CLUSTERMETA"; "CLUSTERAPPLY"; "CLUSTERSNAPSHOT"].
Definition ExtractKeys (c : Command) : list string :=
  if bool_decide (Name c ∈ keyless) then []
  else if bool_decide (Name c ∈ ["DEL"; "EXISTS"]) then Args c
  else take 1 (Args c).
Definition ExtractPrimaryKey (c : Command) : option string := head (ExtractKeys c).

(** ** Reading *)

Inductive ReadError := EOF | ErrUnexpectedEOF | ErrProtocol | ErrEmptyCommand | ErrEmptyLine | ErrReply | ErrFuel.

Inductive Result (A : Type) :=
| Ok (a : A) (rest : string)
| Err (e : ReadError) (rest : string).
Arguments Ok {A}.
Arguments Err {A}.

Definition Parse (A : Type) : Type := string -> Result A.
#[export] Instance Parse_ret : MRet Parse := fun A a s => Ok a s.
#[export] Instance Parse_bind : MBind Parse := fun A B f m s =>
  match m s with Ok a rest => f a rest | Err e rest => Err e rest end.
Definition throw {A} (e : ReadError) : Parse A := fun s => Err e s.

Lemma bind_ok {A B} (m : Parse A) (f : A -> Parse B) s a r : m s = Ok a r -> (m ≫= f) s = f a r.
Proof. unfold mbind, Parse_bind. by intros ->. Qed.

(** Up to and including the first newline. *)
Fixpoint splitLF (s : string) : option (string * string) :=
  match s with
  | "" => None
  | String c s =>
      if Ascii.eqb c LF then Some (sone c, s)
      else '(l, r) ← splitLF s; Some (String c l, r)
  end.

(** [bufio.Reader.ReadSlice('\n')] with a buffer of [bufSize] bytes, with
    [readLine]'s translation of [ErrBufferFull]. *)
Definition ReadSlice (bufSize : Z) : Parse string := fun s =>
  match splitLF s with
  | Some (line, rest) =>
      if slen line <=? bufSize then Ok line rest else Err ErrProtocol (sdrop (Z.to_nat bufSize) s)
  | None =>
      if bufSize <=? slen s then Err ErrProtocol (sdrop (Z.to_nat bufSize) s) else Err EOF ""
  end.

(** [bufio.Reader.ReadString('\n')] has no such limit. *)
Definition ReadString : Parse string := fun s =>
  match splitLF s with Some (line, rest) => Ok line rest | None => Err EOF "" end.

Definition ReadFull (n : Z) : Parse string := fun s =>
  if n <=? slen s then Ok (stake (Z.to_nat n) s) (sdrop (Z.to_nat n) s)
  else if slen s =? 0 then Err EOF "" else Err ErrUnexpectedEOF "".

Definition ReadByte : Parse ascii := fun s =>
  match s with "" => Err EOF "" | String c s => Ok c s end.

(** [line[:len(line)-2]] and the check of the byte before the newline. *)
Definition chop2 (line : string) : string := stake (String.length line - 2) line.
Definition readLine (bufSize : Z) : Parse string :=
  line ← ReadSlice bufSize;
  if (slen line <? 2) || negb (String.eqb (sdrop (String.length line - 2) line) CRLF)
  then throw ErrProtocol
  else mret (chop2 line).

Record Parser := mkParser { maxBulkLen : Z; maxArrayLen : Z; maxCommandLen : Z }.
Definition NewParser : Parser := mkParser (32 * 1024 * 1024) (1024 * 1024) (64 * 1024 * 1024).

Definition sfirst (s : string) : option ascii := match s with "" => None | String c _ => Some c end.
Definition stail (s : string) : string := match s with "" => "" | String _ s => s end.

Definition splitInline (line : string) : list string := Fields line.

Definition parseInline (bufSize : Z) : Parse Command :=
  line ← readLine bufSize;
  match splitInline (trimTrailingCRLF line) with
  | [] => throw ErrEmptyLine
  | p :: parts => mret (mkCommand (upper p) parts)
  end.

Definition readBulk (p : Parser) (bufSize : Z) : Parse string :=
  header ← readLine bufSize;
  if negb (bool_decide (sfirst header = Some "$"%char)) then throw ErrProtocol
  else match Atoi (stail header) with
  | None => throw ErrProtocol
  | Some length =>
      if length <? 0 then throw ErrProtocol
      else if maxBulkLen p <? length then throw ErrProtocol
      else
        buf ← ReadFull length;
        cr ← ReadByte;
        lf ← ReadByte;
        if negb (Ascii.eqb cr CR) || negb (Ascii.eqb lf LF) then throw ErrProtocol
        else mret buf
  end.

(** The loop of [parseArray] with [n] bulk strings to go; [first] says
    whether the next one is the command name. *)
Fixpoint readArgs (p : Parser) (bufSize : Z) (n : nat) (first : bool) (totalLen : Z) (cmd : Command)
    : Parse Command :=
  match n with
  | O => mret cmd
  | S n =>
      bulk ← readBulk p bufSize;
      if maxCommandLen p - totalLen <? slen bulk then throw ErrProtocol
      else
        let totalLen := totalLen + slen bulk in
        if first then
          if slen bulk =? 0 then throw ErrEmptyCommand
          else readArgs p bufSize n false totalLen (mkCommand (upper bulk) (Args cmd))
        else readArgs p bufSize n false totalLen (mkCommand (Name cmd) (Args cmd ++ [bulk]))
  end.

Definition parseArray (p : Parser) (bufSize : Z) : Parse Command :=
  header ← readLine bufSize;
  if negb (bool_decide (sfirst header = Some "*"%char)) then throw ErrProtocol
  else match Atoi (stail header) with
  | None => throw ErrProtocol
  | Some n =>
      if (n <? 0) || (maxArrayLen p <? n) then throw ErrProtocol
      else if n =? 0 then throw ErrEmptyCommand
      else readArgs p bufSize (Z.to_nat n) true 0 (mkCommand "" [])
  end.

Definition Next (p : Parser) (bufSize : Z) : Parse Command := fun s =>
  match s with
  | "" => Err EOF ""
  | String c _ => if Ascii.eqb c "*" then parseArray p bufSize s else parseInline bufSize s
  end.

(** ** Writing *)

Definition sanitizeByte (c : ascii) : ascii :=
  if Ascii.eqb c CR || Ascii.eqb c LF then " "%char else c.
(** [writeLineText]: carriage returns and newlines become spaces. *)
Definition writeLineText (value : string) : string := smap sanitizeByte value.

Definition writeSimpleString (s : string) : string := "+" +:+ writeLineText s +:+ CRLF.
Definition writeError (prefix message : string) : string :=
  let prefix := if String.eqb prefix "" then "ERR" else prefix in
  "-" +:+ writeLineText prefix +:+ " " +:+ writeLineText message +:+ CRLF.
Definition writeInteger (n : Z) : string := ":" +:+ FormatInt n +:+ CRLF.
Definition writeBulk (value : string) (null : bool) : string :=
  if null then "$-1" +:+ CRLF
  else "$" +:+ Itoa (slen value) +:+ CRLF +:+ value +:+ CRLF.

Definition writeArray (write : Frame -> string) (items : list Frame) (null : bool) : string :=
  if null then "*-1" +:+ CRLF
  else "*" +:+ Itoa (Z.of_nat (length items)) +:+ CRLF +:+ sconcat (map write items).

Fixpoint WriteFrame (f : Frame) : string :=
  match f with
  | SimpleString s => writeSimpleString s
  | Error prefix message => writeError prefix message
  | Integer n => writeInteger n
  | BulkString value null => writeBulk value null
  | Array items null => writeArray WriteFrame items null
  end.

(** [writeRequest] of [proxy.go]. *)
Definition writeRequest (args : list string) : string :=
  "*" +:+ Itoa (Z.of_nat (length args)) +:+ CRLF +:+
  sconcat (map (fun a => "$" +:+ Itoa (slen a) +:+ CRLF +:+ a +:+ CRLF) args).

(** ** Reading replies: [readFrame] of [proxy.go] *)

(** [strings.SplitN(body, " ", 2)] as (first part, second part or ""). *)
Fixpoint splitSpace (s : string) : string * string :=
  match s with
  | "" => ("", "")
  | String c s' =>
      if Ascii.eqb c " " then ("", s') else let '(a, b) := splitSpace s' in (String c a, b)
  end.

(** [readFrame] and its loop over the [n] items of an array. *)
Fixpoint readFrame_fuel (fuel : nat) : Parse Frame := fun s =>
  match fuel with
  | O => Err ErrFuel s
  | S fuel =>
      (line ← ReadString;
       if slen line <? 3 then throw ErrReply
       else
         let body := chop2 (stail line) in
         match sfirst line with
         | Some "+"%char => mret (SimpleString body)
         | Some "-"%char => let '(a, b) := splitSpace body in mret (NewError a b)
         | Some ":"%char =>
             match ParseInt body with Some n => mret (Integer n) | None => throw ErrReply end
         | Some "$"%char =>
             match Atoi body with
             | None => throw ErrReply
             | Some n =>
                 if n <? 0 then mret NullBulk
                 else buf ← ReadFull (n + 2); mret (BulkString (stake (Z.to_nat n) buf) false)
             end
         | Some "*"%char =>
             match Atoi body with
             | None => throw ErrReply
             | Some n =>
                 if n <? 0 then mret (Array [] true)
                 else items ← readItems_fuel fuel n; mret (Array items false)
             end
         | _ => throw ErrReply
         end : Parse Frame) s
  end
with readItems_fuel (fuel : nat) (n : Z) : Parse (list Frame) := fun s =>
  match fuel with
  | O => Err ErrFuel s
  | S fuel =>
      if n <=? 0 then Ok [] s
      else (f ← readFrame_fuel fuel; fs ← readItems_fuel fuel (n - 1); mret (f :: fs)) s
  end.

(** Every frame takes at least three bytes, so this fuel is enough
    (lemma [readFrame_fuel_enough]). *)
Definition readFrame : Parse Frame := fun s => readFrame_fuel (S (S (2 * String.length s))) s.

(** ** Lines *)

Definition noLF (s : string) : bool := sall (fun c => negb (Ascii.eqb c LF)) s.

Lemma splitLF_line l r : noLF l = true -> splitLF (l +:+ CRLF +:+ r) = Some (l +:+ CRLF, r).
Proof.
  induction l as [|c l IH]; [done|]. intros Hl. cbn [noLF sall] in Hl. apply andb_true_iff in Hl as [Hc Hl].
  rw app_string_cons /=. destruct (Ascii.eqb c LF); [done|]. by rw (IH Hl).
Qed.

Lemma splitLF_app s l r : splitLF s = Some (l, r) -> s = l +:+ r /\ (0 < slen l).
Proof.
  revert l; induction s as [|c s IH]; intros l; simpl; [done|].
  destruct (Ascii.eqb c LF); [intros [= <- <-]; split; [done|rw slen_cons; unfold slen; simpl; lia]|].
  destruct (splitLF s) as [[l' r']|]; [|done]. intros [= <- <-].
  destruct (IH l' eq_refl) as [-> Hl]. split; [done|]. rw slen_cons. lia.
Qed.

Lemma slen_CRLF l : slen (l +:+ CRLF) = slen l + 2.
Proof. by rw slen_app. Qed.

Lemma chop2_line l : chop2 (l +:+ CRLF) = l.
Proof. unfold chop2. rw length_app_string /= Nat.add_sub. apply stake_app. Qed.

Lemma sdrop_line l : sdrop (String.length (l +:+ CRLF) - 2) (l +:+ CRLF) = CRLF.
Proof. rw length_app_string /= Nat.add_sub. apply sdrop_app. Qed.

Lemma readLine_line bufSize l r :
  noLF l = true -> slen l + 2 <= bufSize -> readLine bufSize (l +:+ CRLF +:+ r) = Ok l r.
Proof.
  intros Hl Hb. unfold readLine, mbind, Parse_bind, ReadSlice. rw splitLF_line //.
  rw slen_CRLF. destruct (Z.leb_spec (slen l + 2) bufSize); [|lia].
  rw slen_CRLF sdrop_line. pose proof (slen_nonneg l). destruct (Z.ltb_spec (slen l + 2) 2); [lia|].
  by rw String.eqb_refl chop2_line.
Qed.

Lemma ReadString_line l r : noLF l = true -> ReadString (l +:+ CRLF +:+ r) = Ok (l +:+ CRLF) r.
Proof. intros Hl. unfold ReadString. by rw splitLF_line. Qed.

Lemma noLF_digits s : sall isDigit s = true -> noLF s = true.
Proof.
  induction s as [|c s IH]; [done|]. cbn [noLF sall]. rw !andb_true_iff. intros [Hc Hs]. split; [|by apply IH].
  destruct (Ascii.eqb_spec c LF) as [->|]; [by destruct Hc|done].
Qed.

Lemma length_dec_aux f n acc : (String.length (dec_aux f n acc) <= f + String.length acc)%nat.
Proof.
  revert n acc; induction f as [|f IH]; intros n acc; cbn [dec_aux]; [done|].
  destruct (n <? 10); [simpl; lia|]. specialize (IH (n / 10) (String (chr (48 + n mod 10)) acc)). simpl in *. lia.
Qed.

Lemma FormatInt_line n : noLF (FormatInt n) = true /\ slen (FormatInt n) <= 21.
Proof.
  unfold FormatInt. assert (forall n, 0 <= n -> noLF (FormatUint n) = true /\ slen (FormatUint n) <= 20) as H.
  { intros k Hk. split; [by apply noLF_digits, FormatUint_digits|].
    pose proof (length_dec_aux 20 k "") as Hl. unfold slen, FormatUint. cbn [String.length] in Hl. lia. }
  destruct (Z.ltb_spec n 0).
  - destruct (H (- n) ltac:(lia)) as [H1 H2]. split; [done|]. rw slen_cons. lia.
  - destruct (H n ltac:(lia)). split; [done|lia].
Qed.

(** A length header: a prefix byte and a number. *)
Lemma readLine_header bufSize c n r :
  Ascii.eqb c LF = false -> 24 <= bufSize ->
  readLine bufSize (String c (Itoa n) +:+ CRLF +:+ r) = Ok (String c (Itoa n)) r.
Proof.
  intros Hc Hb. destruct (FormatInt_line n) as [H1 H2]. apply readLine_line.
  - cbn [noLF sall]. rw Hc. done.
  - rw slen_cons. unfold Itoa. lia.
Qed.

Lemma Atoi_Itoa n : int64_range n -> Atoi (Itoa n) = Some n.
Proof. apply ParseInt_FormatInt. Qed.

Lemma ReadFull_app a r : ReadFull (slen a) (a +:+ r) = Ok a r.
Proof.
  unfold ReadFull. rw slen_app. pose proof (slen_nonneg r).
  destruct (Z.leb_spec (slen a) (slen a + slen r)); [|lia].
  unfold slen. by rw Nat2Z.id stake_app sdrop_app.
Qed.

(** ** Requests *)

Definition encodeBulk (a : string) : string := "$" +:+ Itoa (slen a) +:+ CRLF +:+ a +:+ CRLF.

Lemma readBulk_encode p bufSize a r :
  24 <= bufSize -> slen a <= maxBulkLen p -> slen a <= maxInt64 ->
  readBulk p bufSize (encodeBulk a +:+ r) = Ok a r.
Proof.
  intros Hb Ha Hm. unfold readBulk, encodeBulk.
  change ("$" +:+ Itoa (slen a) +:+ CRLF +:+ a +:+ CRLF) with (String "$" (Itoa (slen a)) +:+ CRLF +:+ (a +:+ CRLF)).
  rw !app_string_assoc. erewrite bind_ok; [|by apply readLine_header].
  pose proof (slen_nonneg a). cbn [sfirst stail]. rw bool_decide_eq_true_2 //. cbn [negb].
  rw Atoi_Itoa; [unfold int64_range, minInt64; lia|].
  destruct (Z.ltb_spec (slen a) 0); [lia|]. destruct (Z.ltb_spec (maxBulkLen p) (slen a)); [lia|].
  unfold mbind, Parse_bind. by rw ReadFull_app.
Qed.

Definition args_len (args : list string) : Z := foldr (fun a z => slen a + z) 0 args.

Lemma args_len_nonneg args : 0 <= args_len args.
Proof. induction args as [|a args IH]; simpl; [lia|]. pose proof (slen_nonneg a). lia. Qed.

Lemma readArgs_encode p bufSize args total cmd r :
  24 <= bufSize -> maxBulkLen p <= maxInt64 ->
  Forall (fun a => slen a <= maxBulkLen p) args -> total + args_len args <= maxCommandLen p ->
  readArgs p bufSize (length args) false total cmd (sconcat (map encodeBulk args) +:+ r)
  = Ok (mkCommand (Name cmd) (Args cmd ++ args)) r.
Proof.
  intros Hb Hm. revert total cmd; induction args as [|a args IH]; intros total cmd Hall Ht.
  - destruct cmd. simpl. by rw app_nil_r.
  - apply Forall_cons in Hall as [Ha Hall]. cbn [length readArgs map sconcat]. simpl in Ht.
    pose proof (args_len_nonneg args). rw app_string_assoc. erewrite bind_ok; [|apply readBulk_encode; lia].
    destruct (Z.ltb_spec (maxCommandLen p - total) (slen a)); [lia|]. cbv zeta.
    rw IH //; [lia|]. simpl. by rw -app_assoc.
Qed.

Lemma writeRequest_eq args :
  writeRequest args = String "*" (Itoa (Z.of_nat (length args))) +:+ CRLF +:+ sconcat (map encodeBulk args).
Proof. reflexivity. Qed.

(** [Parser.Next] reads back the command [writeRequest] wrote, as long as it
    is within the parser's limits, and stops at its end. *)
Lemma Next_writeRequest p bufSize name args r :
  24 <= bufSize -> maxBulkLen p <= maxInt64 -> maxArrayLen p <= maxInt64 ->
  name <> "" -> Z.of_nat (S (length args)) <= maxArrayLen p ->
  Forall (fun a => slen a <= maxBulkLen p) (name :: args) ->
  args_len (name :: args) <= maxCommandLen p ->
  Next p bufSize (writeRequest (name :: args) +:+ r) = Ok (mkCommand (upper name) args) r.
Proof.
  intros Hb Hm Hma Hname Hn Hall Ht. rw writeRequest_eq. cbn [length map sconcat].
  set (n := Z.of_nat (S (length args))) in *. rw 3!app_string_assoc.
  change (Next p bufSize (String "*" (Itoa n) +:+ CRLF +:+ encodeBulk name +:+ sconcat (map encodeBulk args) +:+ r))
    with (parseArray p bufSize (String "*" (Itoa n) +:+ CRLF +:+ encodeBulk name +:+ sconcat (map encodeBulk args) +:+ r)).
  unfold parseArray. erewrite bind_ok; [|by apply readLine_header].
  cbn [sfirst stail]. rw bool_decide_eq_true_2 //. cbn [negb]. rw Atoi_Itoa; [unfold int64_range, minInt64; lia|].
  destruct (Z.ltb_spec n 0); [lia|]. destruct (Z.ltb_spec (maxArrayLen p) n); [lia|].
  destruct (Z.eqb_spec n 0); [lia|]. unfold n. rw Nat2Z.id. cbn [orb].
  apply Forall_cons in Hall as [Ha Hall]. cbn [readArgs]. cbn [args_len foldr] in Ht. fold (args_len args) in Ht.
  pose proof (args_len_nonneg args). erewrite bind_ok; [|apply readBulk_encode; lia].
  destruct (Z.ltb_spec (maxCommandLen p - 0) (slen name)); [lia|].
  destruct (Z.eqb_spec (slen name) 0) as [Hz|_]; [by apply slen_nil_inv in Hz|].
  rw readArgs_encode //.
Qed.

(** ** Replies *)

Section frame_ind.
Context (P : Frame -> Prop).
Context (HS : forall s, P (SimpleString s)) (HE : forall p m, P (Error p m)) (HI : forall n, P (Integer n))
  (HB : forall v b, P (BulkString v b)) (HA : forall items b, Forall P items -> P (Array items b)).
Fixpoint Frame_nested_ind (f : Frame) : P f :=
  match f with
  | SimpleString s => HS s
  | Error p m => HE p m
  | Integer n => HI n
  | BulkString v b => HB v b
  | Array items b =>
      HA items b ((fix go l : Forall P l :=
        match l with [] => Forall_nil_2 P | x :: l => Forall_cons_2 P x l (Frame_nested_ind x) (go l) end) items)
  end.
End frame_ind.

(** What a reader gets for a frame: line breaks in simple strings and errors
    have become spaces, an error is split at its first space, nulls carry no
    payload. *)
Fixpoint readback (f : Frame) : Frame :=
  match f with
  | SimpleString s => SimpleString (writeLineText s)
  | Error prefix message =>
      let '(a, b) := splitSpace (writeLineText (if String.eqb prefix "" then "ERR" else prefix)
                                 +:+ " " +:+ writeLineText message) in Error a b
  | Integer n => Integer n
  | BulkString v null => if null then NullBulk else BulkString v false
  | Array items null => if null then Array [] true else Array (map readback items) false
  end.

(** Frames whose numbers and lengths fit the machine. *)
Fixpoint frame_fits (f : Frame) : Prop :=
  match f with
  | SimpleString _ | Error _ _ => True
  | Integer n => int64_range n
  | BulkString v _ => slen v + 2 <= maxInt64
  | Array items _ => Z.of_nat (length items) <= maxInt64 /\ foldr (fun i P => frame_fits i /\ P) True items
  end.

(** Frames that are read back as they were written. *)
Fixpoint frame_clean (f : Frame) : bool :=
  match f with
  | SimpleString s => String.eqb (writeLineText s) s
  | Error prefix message =>
      negb (String.eqb prefix "") && String.eqb (writeLineText prefix) prefix &&
      sall (fun c => negb (Ascii.eqb c " ")) prefix && String.eqb (writeLineText message) message
  | Integer _ => true
  | BulkString v null => if null then String.eqb v "" else true
  | Array items null => if null then match items with [] => true | _ => false end else forallb frame_clean items
  end.

Lemma splitSpace_app a b : sall (fun c => negb (Ascii.eqb c " ")) a = true -> splitSpace (a +:+ " " +:+ b) = (a, b).
Proof.
  induction a as [|c a IH]; [done|]. cbn [sall]. rw andb_true_iff. intros [Hc Ha].
  rw app_string_cons. cbn [splitSpace]. destruct (Ascii.eqb c " "); [done|]. by rw (IH Ha).
Qed.

Lemma readback_clean f : frame_clean f = true -> readback f = f.
Proof.
  induction f as [s|p m|n|v b|items b IH] using Frame_nested_ind; cbn [frame_clean readback].
  - by intros ->%String.eqb_eq.
  - rw !andb_true_iff. intros [[[Hp Hp1] Hp2] Hm]. destruct (String.eqb p ""); [done|].
    apply String.eqb_eq in Hp1, Hm. by rw Hp1 Hm splitSpace_app.
  - done.
  - destruct b; [|done]. by intros ->%String.eqb_eq.
  - destruct b; [by destruct items|]. intros Hc. f_equal.
    induction IH as [|x l Hx Hl IHl]; [done|]. simpl in Hc. apply andb_true_iff in Hc as [H1 H2].
    simpl. f_equal; auto.
Qed.

Lemma noLF_writeLineText s : noLF (writeLineText s) = true.
Proof.
  induction s as [|c s IH]; [done|]. change (negb (Ascii.eqb (sanitizeByte c) LF) && noLF (writeLineText s) = true).
  rw IH andb_true_r. unfold sanitizeByte. destruct (Ascii.eqb_spec c CR); [done|].
  destruct (Ascii.eqb_spec c LF) as [|H]; [done|]. simpl. by apply Ascii.eqb_neq in H as ->.
Qed.

Lemma noLF_app a b : noLF (a +:+ b) = noLF a && noLF b.
Proof. apply sall_app. Qed.

(** Fuel for a frame. *)
Fixpoint frame_fuel (f : Frame) : nat :=
  match f with
  | Array items _ => S (foldr (fun i n => S (Nat.max (frame_fuel i) n)) 1%nat items)
  | _ => 1
  end.

(** The first step of [readFrame_fuel]: the line is in. *)
Lemma readFrame_line fuel c l r :
  Ascii.eqb c LF = false -> noLF l = true ->
  readFrame_fuel (S fuel) (String c (l +:+ CRLF +:+ r)) =
    (match c with
     | "+"%char => mret (SimpleString l)
     | "-"%char => let '(a, b) := splitSpace l in mret (NewError a b)
     | ":"%char => match ParseInt l with Some n => mret (Integer n) | None => throw ErrReply end
     | "$"%char =>
         match Atoi l with
         | None => throw ErrReply
         | Some n => if n <? 0 then mret NullBulk
                     else buf ← ReadFull (n + 2); mret (BulkString (stake (Z.to_nat n) buf) false)
         end
     | "*"%char =>
         match Atoi l with
         | None => throw ErrReply
         | Some n => if n <? 0 then mret (Array [] true)
                     else items ← readItems_fuel fuel n; mret (Array items false)
         end
     | _ => throw ErrReply
     end : Parse Frame) r.
Proof.
  intros Hc Hl. cbn [readFrame_fuel]. erewrite bind_ok.
  2: { rw -app_string_cons. apply ReadString_line. cbn [noLF sall]. by rw Hc. }
  rw slen_CRLF slen_cons. pose proof (slen_nonneg l). destruct (Z.ltb_spec (1 + slen l + 2) 3); [lia|].
  cbn [stail sfirst]. rw app_string_cons. cbn [stail sfirst]. rw chop2_line. done.
Qed.

Lemma readFrame_write f fuel r :
  frame_fits f -> (frame_fuel f <= fuel)%nat ->
  readFrame_fuel fuel (WriteFrame f +:+ r) = Ok (readback f) r.
Proof.
  revert fuel r; induction f as [s|p m|n|v b|items b IH] using Frame_nested_ind; intros fuel r Hfit Hfuel;
    (destruct fuel as [|fuel]; [simpl in Hfuel; lia|]).
  - change (WriteFrame (SimpleString s)) with (String "+" (writeLineText s +:+ CRLF)).
    rw app_string_cons app_string_assoc readFrame_line //. apply noLF_writeLineText.
  - cbn [WriteFrame readback]. unfold writeError. cbv zeta. set (q := if String.eqb p "" then "ERR" else p).
    change ("-" +:+ writeLineText q +:+ " " +:+ writeLineText m +:+ CRLF)
      with (String "-" (writeLineText q +:+ (" " +:+ (writeLineText m +:+ CRLF)))).
    rw app_string_cons -!app_string_assoc. rw app_string_assoc readFrame_line //.
    + rw !noLF_app !noLF_writeLineText. done.
    + rw app_string_assoc. by destruct (splitSpace _).
  - change (WriteFrame (Integer n)) with (String ":" (FormatInt n +:+ CRLF)).
    rw app_string_cons app_string_assoc readFrame_line //; [apply FormatInt_line|].
    by rw ParseInt_FormatInt.
  - destruct b; [done|].
    change (WriteFrame (BulkString v false)) with (String "$" (Itoa (slen v) +:+ CRLF +:+ (v +:+ CRLF))).
    rw app_string_cons 2!app_string_assoc readFrame_line //; [apply FormatInt_line|].
    simpl in Hfit. pose proof (slen_nonneg v). rw Atoi_Itoa; [unfold int64_range, minInt64; lia|].
    destruct (Z.ltb_spec (slen v) 0); [lia|]. erewrite bind_ok; [|rw -slen_CRLF; apply ReadFull_app].
    unfold slen. by rw Nat2Z.id stake_app.
  - destruct b; [done|].
    change (WriteFrame (Array items false)) with
      (String "*" (Itoa (Z.of_nat (length items)) +:+ CRLF +:+ sconcat (map WriteFrame items))).
    rw app_string_cons 2!app_string_assoc readFrame_line //; [apply FormatInt_line|].
    simpl in Hfit. destruct Hfit as [Hlen Hfit]. rw Atoi_Itoa; [unfold int64_range, minInt64; lia|].
    destruct (Z.ltb_spec (Z.of_nat (length items)) 0); [lia|].
    assert (readItems_fuel fuel (Z.of_nat (length items)) (sconcat (map WriteFrame items) +:+ r)
      = Ok (map readback items) r) as Hit; [|by erewrite bind_ok; [|exact Hit]].
    simpl in Hfuel. apply le_S_n in Hfuel. clear Hlen.
    revert fuel Hfuel Hfit; induction IH as [|x l Hx Hl IHl]; intros fuel Hfuel Hfit.
    + by destruct fuel; [simpl in Hfuel; lia|].
    + destruct fuel as [|fuel]; [simpl in Hfuel; lia|]. cbn [readItems_fuel].
      simpl in Hfit, Hfuel. destruct Hfit as [Hfx Hfit].
      destruct (Z.leb_spec (Z.of_nat (length (x :: l))) 0); [simpl in *; lia|].
      cbn [map sconcat]. rw app_string_assoc. erewrite bind_ok; [|apply Hx; [done|lia]].
      assert (Z.of_nat (length (x :: l)) - 1 = Z.of_nat (length l)) as -> by (simpl; lia).
      erewrite bind_ok; [|apply IHl; [lia..|done]]. done.
Qed.

(** *** The fuel of [readFrame] is enough *)

Definition no_fuel_error {A} (x : Result A) : Prop := forall r, x <> Err ErrFuel r.

Lemma slen_length s : slen s = Z.of_nat (String.length s).
Proof. done. Qed.

Lemma ReadString_shorter s line r :
  ReadString s = Ok line r -> String.length s = (String.length line + String.length r)%nat.
Proof.
  unfold ReadString. destruct (splitLF s) as [[l r']|] eqn:H; [|done]. intros [= -> ->].
  apply splitLF_app in H as [-> _]. apply length_app_string.
Qed.

Lemma ReadFull_shorter n s x r : ReadFull n s = Ok x r -> (String.length r <= String.length s)%nat.
Proof.
  unfold ReadFull. destruct (_ <=? _); [|by destruct (_ =? _)]. intros [= _ <-]. rw length_sdrop. lia.
Qed.

Lemma bind_inv {A B} (m : Parse A) (f : A -> Parse B) s x r :
  (m ≫= f) s = Ok x r -> exists a r', m s = Ok a r' /\ f a r' = Ok x r.
Proof. unfold mbind, Parse_bind. destruct (m s); [eauto|done]. Qed.

Lemma bind_fuel {A B} (m : Parse A) (f : A -> Parse B) s :
  no_fuel_error (m s) -> (forall a r, m s = Ok a r -> no_fuel_error (f a r)) -> no_fuel_error ((m ≫= f) s).
Proof.
  unfold mbind, Parse_bind, no_fuel_error. destruct (m s) as [a r|e r]; intros Hm Hf r'; [by apply Hf|].
  intros [= -> ->]. by apply (Hm r').
Qed.

(** The branches of [readFrame_fuel] on the first byte. *)
Ltac frame_cases :=
  repeat match goal with
  | |- context [match sfirst ?l with _ => _ end] => destruct (sfirst l) as [[[] [] [] [] [] [] [] []]|]
  | |- context [match ParseInt ?l with _ => _ end] => destruct (ParseInt l)
  | |- context [match Atoi ?l with _ => _ end] => destruct (Atoi l)
  | |- context [splitSpace ?l] => destruct (splitSpace l)
  | |- context [if (?a <? ?b) then _ else _] => destruct (Z.ltb_spec a b)
  end.

Lemma readFrame_shorter fuel :
  (forall s f r, readFrame_fuel fuel s = Ok f r -> (3 + String.length r <= String.length s)%nat) /\
  (forall n s fs r, readItems_fuel fuel n s = Ok fs r -> (String.length r <= String.length s)%nat).
Proof.
  induction fuel as [|fuel [IHf IHi]]; [done|]. split.
  - intros s f r. cbn [readFrame_fuel]. intros (line & r' & Hl & Hr)%bind_inv.
    apply ReadString_shorter in Hl. revert Hr. rw slen_length. destruct (Z.ltb_spec (Z.of_nat (String.length line)) 3) as [|H3]; [done|].
    cbv zeta. frame_cases; try (by intros [=]); try (intros [= _ <-]; lia).
    + intros (items & r'' & Hb%IHi & [= _ <-])%bind_inv. lia.
    + intros (buf & r'' & Hb%ReadFull_shorter & [= _ <-])%bind_inv. lia.
  - intros n s fs r. cbn [readItems_fuel]. destruct (n <=? 0); [intros [= _ <-]; lia|].
    intros (f & r' & Hf%IHf & (fs' & r'' & Hfs%IHi & [= _ <-])%bind_inv)%bind_inv. lia.
Qed.

Lemma readFrame_fuel_enough fuel :
  (forall s, (2 * String.length s + 2 <= fuel)%nat -> no_fuel_error (readFrame_fuel fuel s)) /\
  (forall n s, (2 * String.length s + 3 <= fuel)%nat -> no_fuel_error (readItems_fuel fuel n s)).
Proof.
  induction fuel as [|fuel [IHf IHi]]; [split; intros; lia|]. split.
  - intros s Hs. cbn [readFrame_fuel]. apply bind_fuel.
    { unfold ReadString. by destruct (splitLF s) as [[]|]. }
    intros line r Hl%ReadString_shorter. rw slen_length.
    destruct (Z.ltb_spec (Z.of_nat (String.length line)) 3) as [|H3]; [done|].
    cbv zeta. frame_cases; try done.
    + apply bind_fuel; [|done]. apply IHi. lia.
    + apply bind_fuel; [|done]. unfold ReadFull. destruct (_ <=? _); [done|]. by destruct (_ =? _).
  - intros n s Hs. cbn [readItems_fuel]. destruct (n <=? 0); [done|].
    apply bind_fuel; [apply IHf; lia|]. intros f r Hf%readFrame_shorter.
    apply bind_fuel; [apply IHi; lia|done].
Qed.

Lemma bind_mono {A B} (m m' : Parse A) (f f' : A -> Parse B) s :
  (no_fuel_error (m s) -> m' s = m s) ->
  (forall a r, m s = Ok a r -> no_fuel_error (f a r) -> f' a r = f a r) ->
  no_fuel_error ((m ≫= f) s) -> (m' ≫= f') s = (m ≫= f) s.
Proof.
  unfold mbind, Parse_bind, no_fuel_error. intros Hm Hf Hn. rw Hm.
  { intros r Hr. rw Hr in Hn. by apply (Hn r). }
  destruct (m s) as [a r|e r]; [|done]. by apply Hf.
Qed.

(** More fuel does not change a result that did not run out of it. *)
Lemma readFrame_fuel_mono fuel :
  (forall s, no_fuel_error (readFrame_fuel fuel s) -> readFrame_fuel (S fuel) s = readFrame_fuel fuel s) /\
  (forall n s, no_fuel_error (readItems_fuel fuel n s) -> readItems_fuel (S fuel) n s = readItems_fuel fuel n s).
Proof.
  induction fuel as [|fuel [IHf IHi]].
  { split; intros; exfalso; by eapply H. }
  split.
  - intros s. apply bind_mono; [done|]. intros line r _. destruct (slen line <? 3); [done|].
    cbv zeta. frame_cases; try done. apply bind_mono; [|done]. apply IHi.
  - intros n s. cbn [readItems_fuel]. destruct (n <=? 0); [done|].
    apply bind_mono; [apply IHf|]. intros f r _. apply bind_mono; [apply IHi|done].
Qed.

Lemma readFrame_fuel_le fuel fuel' s :
  (fuel <= fuel')%nat -> no_fuel_error (readFrame_fuel fuel s) -> readFrame_fuel fuel' s = readFrame_fuel fuel s.
Proof.
  intros Hle Hn. induction Hle as [|fuel' Hle IH]; [done|].
  rw -IH. apply readFrame_fuel_mono. by rw IH.
Qed.

(** Reading what [WriteFrame] wrote gives the frame back, with line breaks in
    simple strings and errors turned into spaces, and consumes exactly its
    bytes, whatever follows: no reply can smuggle in a second one. *)
Lemma readFrame_WriteFrame f r :
  frame_fits f -> readFrame (WriteFrame f +:+ r) = Ok (readback f) r.
Proof.
  intros Hfit. unfold readFrame. set (s := WriteFrame f +:+ r). set (n := S (S (2 * String.length s))).
  assert (no_fuel_error (readFrame_fuel n s)) as Hn by (apply readFrame_fuel_enough; unfold n; lia).
  rw -(readFrame_fuel_le n (Nat.max n (frame_fuel f)) s); [lia|done|].
  apply readFrame_write; [done|lia].
Qed.

(** ** The parser's limits and progress *)

(** What the connection loop may continue after: a command, or an empty one. *)
Definition continues {A} (x : Result A) (r : string) : Prop :=
  (exists a, x = Ok a r) \/ x = Err ErrEmptyLine r \/ x = Err ErrEmptyCommand r.

Definition plain {A} (x : Result A) : Prop :=
  match x with Err (ErrEmptyLine | ErrEmptyCommand) _ => False | _ => True end.

Lemma bind_continues {A B} (m : Parse A) (f : A -> Parse B) s r :
  plain (m s) -> continues ((m ≫= f) s) r -> exists a r', m s = Ok a r' /\ continues (f a r') r.
Proof.
  unfold continues, mbind, Parse_bind. destruct (m s) as [a r'|e r']; [eauto 10|].
  by intros Hp [[a [=]]|[[= -> ->]|[= -> ->]]].
Qed.

Lemma bind_plain {A B} (m : Parse A) (f : A -> Parse B) s :
  plain (m s) -> (forall a r, plain (f a r)) -> plain ((m ≫= f) s).
Proof. unfold mbind, Parse_bind. intros Hm Hf. by destruct (m s). Qed.

Lemma plain_continues {A} (x : Result A) r : plain x -> continues x r -> exists a, x = Ok a r.
Proof. intros Hp [H|[->| ->]]; done. Qed.

Lemma readLine_plain B s : plain (readLine B s).
Proof.
  apply bind_plain; [|intros a r; by destruct (_ || _)].
  unfold ReadSlice. destruct (splitLF s) as [[]|]; by destruct (_ <=? _).
Qed.

Lemma readBulk_plain p B s : plain (readBulk p B s).
Proof.
  apply bind_plain; [apply readLine_plain|]. intros a r. destruct (negb _); [done|].
  destruct (Atoi _); [|done]. destruct (_ <? _); [done|]. destruct (_ <? _); [done|].
  apply bind_plain; [|intros; apply bind_plain; [|intros; apply bind_plain; [|intros; by destruct (_ || _)]]].
  - unfold ReadFull. destruct (_ <=? _); [done|]. by destruct (_ =? _).
  - by destruct r0.
  - by destruct r1.
Qed.

Lemma readLine_ok B s l r :
  readLine B s = Ok l r -> slen l + 2 <= B /\ slen r < slen s.
Proof.
  unfold readLine. intros (line & r' & Hs & H)%bind_inv. unfold ReadSlice in Hs.
  destruct (splitLF s) as [[line' rest]|] eqn:Hsp; [|by destruct (_ <=? _)].
  apply splitLF_app in Hsp as [-> Hl]. destruct (Z.leb_spec (slen line') B); [|done]. injection Hs as -> ->.
  destruct (Z.ltb_spec (slen line) 2); simpl in H; [done|].
  destruct (negb _); [done|]. injection H as <- <-. rw slen_app. split; [|lia].
  unfold chop2, slen in *. rw length_stake. lia.
Qed.

Lemma readBulk_ok p B s a r :
  readBulk p B s = Ok a r -> slen a <= maxBulkLen p /\ slen r < slen s.
Proof.
  unfold readBulk. intros (h & r1 & Hh & H)%bind_inv. apply readLine_ok in Hh as [_ Hr1].
  destruct (negb _); [done|]. destruct (Atoi _) as [n|]; [|done].
  destruct (Z.ltb_spec n 0); [done|]. destruct (Z.ltb_spec (maxBulkLen p) n); [done|].
  apply bind_inv in H as (buf & r2 & Hb & (cr & r3 & Hcr & (lf & r4 & Hlf & H)%bind_inv)%bind_inv).
  unfold ReadFull in Hb. destruct (Z.leb_spec n (slen r1)); [|by destruct (_ =? _)]. injection Hb as <- <-.
  destruct (sdrop _ r1) as [|c0 s0] eqn:Hd; [done|]. injection Hcr as <- <-.
  destruct s0 as [|c1 s1]; [done|]. injection Hlf as <- <-. destruct (_ || _); [done|]. injection H as <- <-.
  apply (f_equal String.length) in Hd. rw length_sdrop in Hd. simpl in Hd. unfold slen in *. rw length_stake. lia.
Qed.

Lemma slen_upper s : slen (upper s) = slen s.
Proof. unfold slen, upper, upperASCII. by rw length_smap. Qed.

Lemma args_len_app a b : args_len (a ++ b) = args_len a + args_len b.
Proof. induction a as [|x a IH]; simpl; [done|]. rw IH. lia. Qed.

Definition cmd_len (c : Command) : Z := slen (Name c) + args_len (Args c).

Lemma readArgs_progress p B n first total cmd s r :
  continues (readArgs p B n first total cmd s) r ->
  slen r <= slen s /\ ((0 < n)%nat -> slen r < slen s).
Proof.
  revert first total cmd s; induction n as [|n IH]; intros first total cmd s; cbn [readArgs].
  - intros [[a [= _ <-]]|[[=]|[=]]]. split; lia.
  - intros (a & r' & Ha%readBulk_ok & Hc)%bind_continues; [|apply readBulk_plain].
    assert (slen r <= slen r'); [|lia]. revert Hc.
    destruct (_ <? _); [by intros [[a0 [=]]|[[=]|[=]]]|]. cbv zeta.
    destruct first; [destruct (_ =? _)|]; [|by intros [? _]%IH..].
    intros [[a0 [=]]|[[=]|[= ->]]]. lia.
Qed.

(** The loop keeps [totalLen] equal to the bytes retained so far. *)
Lemma readArgs_bounds p B n total cmd s c r :
  readArgs p B n false total cmd s = Ok c r ->
  total = cmd_len cmd -> total <= maxCommandLen p -> Forall (fun a => slen a <= maxBulkLen p) (Args cmd) ->
  cmd_len c <= maxCommandLen p /\ length (Args c) = (length (Args cmd) + n)%nat /\ Name c = Name cmd /\
  Forall (fun a => slen a <= maxBulkLen p) (Args c).
Proof.
  revert total cmd s; induction n as [|n IH]; intros total cmd s; cbn [readArgs].
  - intros [= -> ->] -> Ht Hall. split_and!; [done|lia|done|done].
  - intros (a & r' & Ha%readBulk_ok & Hc)%bind_inv Htot Ht Hall. revert Hc.
    destruct (Z.ltb_spec (maxCommandLen p - total) (slen a)); [done|]. cbv zeta.
    intros Hc. apply IH in Hc as (H1 & H2 & H3 & H4); simpl.
    + split_and!; [done| |done|done]. rw H2 length_app /=. lia.
    + unfold cmd_len in *. simpl. rw args_len_app /=. lia.
    + lia.
    + apply Forall_app; split; [done|]. apply Forall_singleton. tauto.
Qed.

Lemma fields_bounds s skip cur :
  Forall (fun a => a <> "") (fields_loop s skip cur) /\
  args_len (fields_loop s skip cur) <= slen s + slen cur.
Proof.
  assert (forall cur out, Forall (fun a => a <> "") out ->
    Forall (fun a => a <> "") (emit cur out) /\ args_len (emit cur out) = slen cur + args_len out) as Hemit.
  { intros c out Ho. destruct c; simpl; [done|]. split; [by constructor|done]. }
  revert skip cur; induction s as [|c s IH]; intros skip cur; cbn [fields_loop].
  - destruct (Hemit cur []) as [H1 H2]; [by constructor|]. split; [done|]. rw H2. unfold slen; simpl; lia.
  - rw slen_cons. destruct skip as [|skip].
    + destruct (spaceLen (String c s)) as [|k].
      * destruct (IH O (cur +:+ sone c)) as [H1 H2]. split; [done|]. rw slen_app in H2.
        change (slen (sone c)) with 1 in H2. lia.
      * destruct (IH k "") as [H1 H2]. destruct (Hemit cur _ H1) as [H3 H4]. split; [done|]. rw H4.
        change (slen "") with 0 in H2. lia.
    + destruct (IH skip cur) as [H1 H2]. split; [done|lia].
Qed.

Lemma slen_trim b : slen (trimTrailingCRLF b) <= slen b.
Proof.
  induction b as [|c b IH]; [done|]. cbn [trimTrailingCRLF]. rw slen_cons.
  destruct (trimTrailingCRLF b) as [|c' b']; [|rw slen_cons; lia].
  destruct (_ || _); [|change (slen (sone c)) with 1]; change (slen "") with 0 in *; lia.
Qed.

Lemma args_count args : Forall (fun a => a <> "") args -> Z.of_nat (length args) <= args_len args.
Proof.
  induction 1 as [|a args Ha _ IH]; simpl; [lia|].
  assert (0 < slen a); [|lia]. destruct a; [done|]. rw slen_cons. pose proof (slen_nonneg a0). lia.
Qed.

(** Every command [Next] returns is non-empty and bounded by the parser's
    limits (or, for an inline command, by the read buffer), whatever the
    stream claims about lengths. *)
Lemma Next_bounds p B s c r :
  Next p B s = Ok c r -> 0 <= maxCommandLen p ->
  Name c <> "" /\ cmd_len c <= Z.max (maxCommandLen p) B /\
  Z.of_nat (length (Args c)) < Z.max (maxArrayLen p) B /\
  Forall (fun a => slen a <= Z.max (maxBulkLen p) B) (Args c).
Proof.
  intros Hn Hmc. destruct s as [|ch s]; [done|]. unfold Next in Hn. destruct (Ascii.eqb ch "*").
  - unfold parseArray in Hn. apply bind_inv in Hn as (h & r1 & Hh & Hn). destruct (negb _); [done|].
    destruct (Atoi _) as [n|]; [|done]. destruct (Z.ltb_spec n 0); [done|].
    destruct (Z.ltb_spec (maxArrayLen p) n); [done|]. cbn [orb] in Hn. destruct (Z.eqb_spec n 0); [done|].
    destruct (Z.to_nat n) as [|k] eqn:Hk; [lia|]. cbn [readArgs] in Hn.
    apply bind_inv in Hn as (a & r2 & Ha & Hn). destruct (Z.ltb_spec (maxCommandLen p - 0) (slen a)); [done|].
    cbv zeta in Hn. destruct (Z.eqb_spec (slen a) 0) as [|Hz]; [done|].
    apply readArgs_bounds in Hn as (Hb1 & Hb2 & Hb3 & Hb4); simpl in *.
    + split_and!; [|lia|lia|].
      * rw Hb3. intros Hu. apply (f_equal slen) in Hu. rw slen_upper in Hu. done.
      * eapply Forall_impl; [exact Hb4|]. simpl. lia.
    + unfold cmd_len. simpl. rw slen_upper. lia.
    + lia.
    + constructor.
  - unfold parseInline in Hn. apply bind_inv in Hn as (l & r1 & Hl%readLine_ok & Hn).
    destruct (fields_bounds (trimTrailingCRLF l) 0 "") as [Hne Hlen].
    unfold splitInline, Fields in Hn. destruct (fields_loop _ _ _) as [|w ws]; [done|]. injection Hn as <- <-.
    pose proof (slen_trim l). change (slen "") with 0 in Hlen. simpl in Hlen.
    apply Forall_cons in Hne as [Hw Hws]. pose proof (args_count _ Hws). unfold cmd_len. simpl. rw slen_upper.
    pose proof (slen_nonneg w). split_and!; [|lia|lia|].
    + intros Hu. apply (f_equal slen) in Hu. rw slen_upper in Hu. by apply slen_nil_inv in Hu.
    + clear -Hlen Hl H. assert (args_len ws <= B) as Hb by (pose proof (slen_nonneg w); lia). clear -Hb.
      induction ws as [|x ws IH]; simpl in *; constructor.
      * pose proof (args_len_nonneg ws). lia.
      * apply IH. pose proof (slen_nonneg x). lia.
Qed.

(** Whenever the connection loop goes on after [Next], some input was
    consumed. *)
Lemma Next_progress p B s r : continues (Next p B s) r -> slen r < slen s.
Proof.
  destruct s as [|c s]; [by intros [[? [=]]|[[=]|[=]]]|]. unfold Next. destruct (Ascii.eqb c "*").
  - unfold parseArray. intros (h & r1 & Hh%readLine_ok & Hn)%bind_continues; [|apply readLine_plain].
    assert (slen r <= slen r1); [|lia]. revert Hn.
    destruct (negb _); [by intros [[? [=]]|[[=]|[=]]]|]. destruct (Atoi _) as [n|]; [|by intros [[? [=]]|[[=]|[=]]]].
    destruct (_ || _); [by intros [[? [=]]|[[=]|[=]]]|].
    destruct (_ =? _); [intros [[? [=]]|[[=]|[= ->]]]; lia|]. by intros [? _]%readArgs_progress.
  - unfold parseInline. intros (h & r1 & Hh%readLine_ok & Hn)%bind_continues; [|apply readLine_plain].
    assert (slen r <= slen r1); [|lia]. revert Hn. destruct (splitInline _).
    + intros [[? [=]]|[[= ->]|[=]]]. lia.
    + intros [[? [= _ ->]]|[[=]|[=]]]. lia.
Qed.

(** ** The theorems *)

(** A request the proxy writes is read back by the parser of the receiving
    node as the same command, name in upper case, and the parser stops at the
    end of the request, as long as the request is within the parser's limits. *)
Theorem request_round_trip p bufSize name args r :
  24 <= bufSize -> maxBulkLen p <= maxInt64 -> maxArrayLen p <= maxInt64 ->
  name <> "" -> Z.of_nat (S (length args)) <= maxArrayLen p ->
  Forall (fun a => slen a <= maxBulkLen p) (name :: args) -> args_len (name :: args) <= maxCommandLen p ->
  Next p bufSize (writeRequest (name :: args) +:+ r) = Ok (mkCommand (upper name) args) r.
Proof. apply Next_writeRequest. Qed.

Lemma request_round_trip_witness :
  Next NewParser 32768 (writeRequest ["set"; "k"; CRLF] +:+ "*1") = Ok (mkCommand (upper "set") ["k"; CRLF]) "*1".
Proof. apply (request_round_trip NewParser 32768 "set" ["k"; CRLF]); try done. repeat constructor; done. Defined.

(** A reply the server writes is read back by the proxy as the same frame,
    with nothing left over, when its integers and lengths are in range and its
    text is clean: no line breaks, and an error with a prefix and a message. *)
Theorem frame_round_trip f r :
  frame_fits f -> frame_clean f = true -> readFrame (WriteFrame f +:+ r) = Ok f r.
Proof. intros Hf Hc. rw (readFrame_WriteFrame f r Hf). by rw (readback_clean f Hc). Qed.

Lemma frame_round_trip_witness :
  readFrame (WriteFrame (Array [BulkBytes "v"; Integer (-7); NullBulk; NewError "ERR" "no"] false) +:+ "+OK") =
    Ok (Array [BulkBytes "v"; Integer (-7); NullBulk; NewError "ERR" "no"] false) "+OK".
Proof. apply frame_round_trip; [|done]. vm_compute. repeat (constructor; try done). Defined.

(** Whatever the bytes, a command the parser returns has a name, is within the
    parser's limits (or fits the read buffer, for an inline command), and at
    least one byte was consumed. *)
Theorem parser_bounds p B s c r :
  Next p B s = Ok c r -> 0 <= maxCommandLen p ->
  Name c <> "" /\ cmd_len c <= Z.max (maxCommandLen p) B /\ Z.of_nat (length (Args c)) < Z.max (maxArrayLen p) B /\
  Forall (fun a => slen a <= Z.max (maxBulkLen p) B) (Args c) /\ slen r < slen s.
Proof.
  intros Hn Hp. destruct (Next_bounds p B s c r Hn Hp) as (H1 & H2 & H3 & H4). split_and!; [done..|].
  apply (Next_progress p B). rw Hn. left. by eexists.
Qed.

Lemma parser_bounds_witness :
  Name (mkCommand "GET" ["k"]) <> "" /\ cmd_len (mkCommand "GET" ["k"]) <= 67108864 /\ 1 < 1048576 /\
  Forall (fun a => slen a <= 33554432) ["k"] /\ slen "rest" < slen ("get  k" +:+ CRLF +:+ "rest").
Proof. by apply (parser_bounds NewParser 32768 ("get  k" +:+ CRLF +:+ "rest") (mkCommand "GET" ["k"]) "rest"). Defined.
