(* ===== verification/ListValue.v ===== *)
(** * The list value: [internal/engine/list_value.go]

    A [ListValue] owns its nodes, which no other value can reach, so each
    list carries its own heap of nodes; a Go pointer is a location
    [option nat] with [None] for nil.  The mutex is not modelled: every
    access runs under the stripe lock of the key that holds the list.

    The theorems show that the pointer code implements the mathematical
    list [contents]: pushes prepend or append, pops remove the first or last
    element, [Len] is the length, and the size walk adds one node overhead
    and the payload per element. *)
From S2P Require Import Prelude.

Record ListNode := mkListNode { Prev : option nat; Next : option nat; lnValue : string }.

Record ListValue := mkListValue {
  lnodes : gmap nat ListNode;
  lfresh : nat;
  lhead : option nat;
  ltail : option nat;
  llen : Z
}.

Definition NewListValue : ListValue := mkListValue ∅ 0 None None 0.

Definition Len (l : ListValue) : Z := llen l.
Definition LLen (l : ListValue) : Z := llen l.

(** Pointer assignments [p.Prev = v] and [p.Next = v]. *)
Definition setPrev (v : option nat) (n : ListNode) : ListNode :=
  mkListNode v (Next n) (lnValue n).
Definition setNext (v : option nat) (n : ListNode) : ListNode :=
  mkListNode (Prev n) v (lnValue n).

(** One iteration of the loop of [LPush]. *)
Definition lpush1 (l : ListValue) (v : string) : ListValue :=
  let node := lfresh l in
  match lhead l with
  | None =>
      mkListValue (<[node := mkListNode None None v]> (lnodes l)) (S node)
        (Some node) (Some node) (llen l + 1)
  | Some h =>
      mkListValue (alter (setPrev (Some node)) h (<[node := mkListNode None (Some h) v]> (lnodes l)))
        (S node) (Some node) (ltail l) (llen l + 1)
  end.

Definition LPush (l : ListValue) (values : list string) : ListValue * Z :=
  let l' := foldl lpush1 l values in (l', llen l').

(** One iteration of the loop of [RPush]. *)
Definition rpush1 (l : ListValue) (v : string) : ListValue :=
  let node := lfresh l in
  match ltail l with
  | None =>
      mkListValue (<[node := mkListNode None None v]> (lnodes l)) (S node)
        (Some node) (Some node) (llen l + 1)
  | Some t =>
      mkListValue (alter (setNext (Some node)) t (<[node := mkListNode (Some t) None v]> (lnodes l)))
        (S node) (lhead l) (Some node) (llen l + 1)
  end.

Definition RPush (l : ListValue) (values : list string) : ListValue * Z :=
  let l' := foldl rpush1 l values in (l', llen l').

(** A node read; Go pointers never dangle, so the default is never used on a
    well-formed list. *)
Definition lnode (l : ListValue) (p : nat) : ListNode :=
  default (mkListNode None None "") (lnodes l !! p).

Definition LPop (l : ListValue) : ListValue * option string :=
  match lhead l with
  | None => (l, None)
  | Some node =>
      let n := lnode l node in
      match Next n with
      | None => (mkListValue (lnodes l) (lfresh l) None None (llen l - 1), Some (lnValue n))
      | Some h =>
          (mkListValue (alter (setPrev None) h (lnodes l)) (lfresh l) (Some h) (ltail l) (llen l - 1),
           Some (lnValue n))
      end
  end.

Definition RPop (l : ListValue) : ListValue * option string :=
  match ltail l with
  | None => (l, None)
  | Some node =>
      let n := lnode l node in
      match Prev n with
      | None => (mkListValue (lnodes l) (lfresh l) None None (llen l - 1), Some (lnValue n))
      | Some t =>
          (mkListValue (alter (setNext None) t (lnodes l)) (lfresh l) (lhead l) (Some t) (llen l - 1),
           Some (lnValue n))
      end
  end.

(** The loop [for node := l.head; node != nil; node = node.Next], as the list
    of the payloads it visits.  [fuel] bounds the number of iterations;
    [lfresh], the number of nodes ever allocated, is always enough on a
    well-formed list. *)
Fixpoint walk (fuel : nat) (l : ListValue) (x : option nat) : list string :=
  match fuel, x with
  | S fuel, Some p => lnValue (lnode l p) :: walk fuel l (Next (lnode l p))
  | _, _ => []
  end.

Definition contents (l : ListValue) : list string := walk (lfresh l) l (lhead l).

Definition stringEntryOverhead : Z := 64.
Definition listNodeOverhead : Z := 48.

Definition listEntrySize (key : string) (lv : ListValue) : Z :=
  foldl (fun size v => u64 (size + (listNodeOverhead + slen v)))
    (u64 (stringEntryOverhead + slen key)) (contents lv).

(** ** Well-formedness and abstraction *)

Record dll (l : ListValue) (ls : list nat) : Prop := mkDll {
  dll_chain : dchain (fun p => Next (lnode l p)) (fun p => Prev (lnode l p)) (lhead l) (ltail l) ls;
  dll_nodup : NoDup ls;
  dll_alloc : forall p, p ∈ ls -> is_Some (lnodes l !! p) /\ (p < lfresh l)%nat;
  dll_len : llen l = Z.of_nat (length ls)
}.

Definition list_wf (l : ListValue) : Prop := exists ls, dll l ls.

Definition payload (l : ListValue) (p : nat) : string := lnValue (lnode l p).

Section reads.
Implicit Types (m : gmap nat ListNode) (f : ListNode -> ListNode).

Lemma lnode_insert_eq m fr hd tl n p x :
  lnode (mkListValue (<[p := x]> m) fr hd tl n) p = x.
Proof. unfold lnode; simpl. by rw lookup_insert_eq. Qed.
Lemma lnode_insert_ne m fr hd tl n p q x :
  p <> q -> lnode (mkListValue (<[p := x]> m) fr hd tl n) q = lnode (mkListValue m fr hd tl n) q.
Proof. intros. unfold lnode; simpl. by rw lookup_insert_ne. Qed.
Lemma lnode_alter_eq m fr hd tl n p f :
  is_Some (m !! p) ->
  lnode (mkListValue (alter f p m) fr hd tl n) p = f (lnode (mkListValue m fr hd tl n) p).
Proof. intros [x Hx]. unfold lnode; simpl. by rw lookup_alter_eq Hx. Qed.
Lemma lnode_alter_ne m fr hd tl n p q f :
  p <> q -> lnode (mkListValue (alter f p m) fr hd tl n) q = lnode (mkListValue m fr hd tl n) q.
Proof. intros. unfold lnode; simpl. by rw lookup_alter_ne. Qed.
Lemma lnode_heap m fr hd tl n fr' hd' tl' n' p :
  lnode (mkListValue m fr hd tl n) p = lnode (mkListValue m fr' hd' tl' n') p.
Proof. done. Qed.
End reads.

(** The traversal reads the chain. *)
Lemma walk_chain l fuel x ls :
  (length ls <= fuel)%nat -> chain (fun p => Next (lnode l p)) x ls ->
  walk fuel l x = payload l <$> ls.
Proof.
  revert fuel x; induction ls as [|p ls IH]; intros fuel x Hf; simpl.
  - intros ->. by destruct fuel.
  - intros [-> Hc]. destruct fuel as [|fuel]; simpl in *; [lia|].
    rw IH; [lia|done|done].
Qed.

(** Distinct locations below [n] number at most [n]. *)
Lemma NoDup_bounded_length (ls : list nat) n :
  NoDup ls -> (forall p, p ∈ ls -> (p < n)%nat) -> (length ls <= n)%nat.
Proof.
  intros Hnd Hb. rw -(length_seq n 0). apply submseteq_length, NoDup_submseteq; [done|].
  intros p Hp. apply elem_of_seq. specialize (Hb _ Hp). lia.
Qed.

Lemma contents_dll l ls : dll l ls -> contents l = payload l <$> ls.
Proof.
  intros [[Hc _] Hnd Ha _]. apply walk_chain; [|done].
  apply NoDup_bounded_length; [done|]. intros p Hp. by apply Ha.
Qed.

Lemma contents_len l : list_wf l -> llen l = Z.of_nat (length (contents l)).
Proof. intros [ls H]. rw (contents_dll _ _ H) length_fmap. by destruct H. Qed.

Lemma NewListValue_wf : list_wf NewListValue /\ contents NewListValue = [].
Proof. split; [|done]. exists []. split; try done; [constructor|set_solver]. Qed.

(** ** Functional correctness of the pointer code *)

(** The fresh location is not yet linked. *)
Lemma dll_fresh l ls : dll l ls -> lfresh l ∉ ls.
Proof. intros [_ _ Ha _] Hin. destruct (Ha _ Hin). lia. Qed.

Lemma lpush1_dll l ls v :
  dll l ls -> dll (lpush1 l v) (lfresh l :: ls) /\
    (forall p, p ∈ ls -> payload (lpush1 l v) p = payload l p) /\
    payload (lpush1 l v) (lfresh l) = v.
Proof.
  intros Hd. pose proof (dll_fresh _ _ Hd) as Hfr. destruct Hd as [Hc Hnd Ha Hl].
  pose proof (chain_head _ _ _ (proj1 Hc)) as Hh.
  assert (NoDup (lfresh l :: ls)) as Hnd' by by apply NoDup_cons.
  destruct l as [m fr hd tl n]; simpl in *.
  assert (forall h, hd = Some h -> h ∈ ls /\ h <> fr /\ is_Some (m !! h)) as Hhd.
  { intros h ->. destruct ls as [|h' ls]; simplify_eq/=.
    split_and!; [set_solver|set_solver|apply Ha; set_solver]. }
  unfold lpush1, payload; simpl. destruct hd as [h|].
  - destruct (Hhd h eq_refl) as (Hin & Hne & Hsome).
    assert (is_Some (<[fr := mkListNode None (Some h) v]> m !! h)) as Hsome'
      by by rw lookup_insert_ne.
    split_and!; [split; simpl|..].
    + refine (dchain_push_front _ _ _ _ (Some h) tl ls fr Hc Hnd' _ _ _ _ _).
      * rw lnode_alter_ne; [done|]. by rw lnode_insert_eq.
      * intros p Hp. destruct (decide (p = h)) as [->|].
        -- rw lnode_alter_eq; [done|]. simpl. rw lnode_insert_ne; [congruence|done].
        -- rw lnode_alter_ne; [congruence|]. rw lnode_insert_ne; [set_solver|done].
      * rw lnode_alter_ne; [done|]. by rw lnode_insert_eq.
      * intros ? [= <-]. by rw lnode_alter_eq.
      * intros p Hp ?. rw lnode_alter_ne; [congruence|]. rw lnode_insert_ne; [set_solver|done].
    + done.
    + intros p [->|Hp]%elem_of_cons.
      * rw lookup_alter_ne; [done|]. rw lookup_insert_eq. split; [eauto|lia].
      * destruct (Ha _ Hp) as [? ?]. split; [|lia]. destruct (decide (p = h)) as [->|].
        -- rw lookup_alter_eq. by apply fmap_is_Some.
        -- rw lookup_alter_ne; [done|]. rw lookup_insert_ne; [set_solver|done].
    + lia.
    + intros p Hp. destruct (decide (p = h)) as [->|].
      * rw lnode_alter_eq; [done|]. simpl. rw lnode_insert_ne; [congruence|done].
      * rw lnode_alter_ne; [congruence|]. rw lnode_insert_ne; [set_solver|done].
    + rw lnode_alter_ne; [done|]. by rw lnode_insert_eq.
  - destruct ls as [|? ls]; [simpl in Hl|done].
    split_and!; [split; simpl|set_solver|].
    + split; simpl; by rw lnode_insert_eq.
    + done.
    + intros p ->%list_elem_of_singleton. rw lookup_insert_eq. split; [eauto|lia].
    + lia.
    + by rw lnode_insert_eq.
Qed.

Lemma LPop_dll l p ls :
  dll l (p :: ls) ->
  exists l', LPop l = (l', Some (payload l p)) /\ dll l' ls /\
    (forall q, q ∈ ls -> payload l' q = payload l q).
Proof.
  intros [Hc Hnd Ha Hl]. pose proof (chain_head _ _ _ (proj1 Hc)) as Hh.
  destruct l as [m fr hd tl n]; simpl in *. subst hd. unfold LPop; simpl.
  pose proof Hc as [[_ Hn] _]; simpl in Hn. pose proof (chain_head _ _ _ Hn) as Hnh; simpl in Hnh.
  set (l := mkListValue m fr (Some p) tl n) in *.
  destruct (Next (lnode l p)) as [h|] eqn:Hnx.
  - assert (h ∈ ls) as Hin by (destruct ls; simplify_eq/=; set_solver).
    destruct (Ha h) as [Hsome _]; [set_solver|].
    eexists; split_and!; [done|split; simpl|].
    + rw -Hnx. change tl with (if Some h is Some _ then tl else None). rw -Hnx.
      refine (dchain_pop_front _ _ _ _ tl ls p Hc Hnd _ _ _).
      * intros q Hq. destruct (decide (q = h)) as [->|];
          [by rw lnode_alter_eq|by rw lnode_alter_ne].
      * intros h'. rw Hnx. intros [= <-]. by rw lnode_alter_eq.
      * intros q Hq. rw Hnx. intros Hne. by rw lnode_alter_ne; [congruence|].
    + by apply NoDup_cons in Hnd as [_ ?].
    + intros q Hq. destruct (Ha q) as [? ?]; [set_solver|]. split; [|done].
      destruct (decide (q = h)) as [->|];
        [rw lookup_alter_eq; by apply fmap_is_Some|by rw lookup_alter_ne].
    + lia.
    + intros q Hq. unfold payload. destruct (decide (q = h)) as [->|];
        [by rw lnode_alter_eq|by rw lnode_alter_ne].
  - destruct ls as [|? ls]; [simpl in Hl|done].
    eexists; split_and!; [done|split; simpl; [done|constructor|set_solver|lia]|set_solver].
Qed.

Lemma LPop_dll_nil l : dll l [] -> LPop l = (l, None).
Proof. intros [[Hc _] _ _ _]. simpl in Hc. unfold LPop. by rw Hc. Qed.

(** *** Mirror image

    The right-hand operations are the left-hand ones on the list read
    backwards. *)
Definition mirrorN (n : ListNode) : ListNode := mkListNode (Next n) (Prev n) (lnValue n).
Definition mirror (l : ListValue) : ListValue :=
  mkListValue (mirrorN <$> lnodes l) (lfresh l) (ltail l) (lhead l) (llen l).

Lemma mirror_involutive l : mirror (mirror l) = l.
Proof.
  destruct l as [m fr hd tl n]. unfold mirror; simpl. f_equal.
  apply map_eq. intros i. rw !lookup_fmap. by destruct (m !! i) as [[]|].
Qed.

Lemma lnode_mirror l p : lnode (mirror l) p = mirrorN (lnode l p).
Proof. unfold lnode; simpl. rw lookup_fmap. by destruct (lnodes l !! p) as [[]|]. Qed.

Lemma payload_mirror l p : payload (mirror l) p = payload l p.
Proof. unfold payload. by rw lnode_mirror. Qed.

Lemma dll_mirror l ls : dll l ls -> dll (mirror l) (reverse ls).
Proof.
  intros [Hc Hnd Ha Hl]. split; simpl.
  - apply dchain_sym. rw reverse_involutive. destruct Hc as [H1 H2]. split.
    + eapply chain_ext; [|exact H1]. intros. by rw lnode_mirror.
    + eapply chain_ext; [|exact H2]. intros. by rw lnode_mirror.
  - by rw reverse_Permutation.
  - intros p. rw elem_of_reverse. intros Hp. destruct (Ha p Hp) as [? ?]. split; [|done].
    rw lookup_fmap. by apply fmap_is_Some.
  - by rw length_reverse.
Qed.

Lemma rpush1_mirror l v : rpush1 l v = mirror (lpush1 (mirror l) v).
Proof.
  destruct l as [m fr hd tl n]. unfold rpush1, lpush1, mirror; simpl.
  destruct tl as [t|]; simpl; f_equal; apply map_eq; intros i.
  - rw lookup_fmap !lookup_alter !lookup_insert !lookup_fmap.
    repeat case_decide; simplify_eq/=; try done; by destruct (m !! i) as [[]|].
  - rw lookup_fmap !lookup_insert !lookup_fmap.
    repeat case_decide; simplify_eq/=; try done; by destruct (m !! i) as [[]|].
Qed.

Lemma RPop_mirror l : RPop l = let '(l', r) := LPop (mirror l) in (mirror l', r).
Proof.
  unfold RPop, LPop. simpl. destruct (ltail l) as [t|] eqn:Ht; [|by rw mirror_involutive].
  rw lnode_mirror. simpl. destruct (Prev (lnode l t)) as [q|]; simpl.
  - unfold mirror; simpl. do 2 f_equal. apply map_eq; intros i.
    rw lookup_fmap !lookup_alter !lookup_fmap.
    repeat case_decide; simplify_eq/=; try done; by destruct (lnodes l !! i) as [[]|].
  - unfold mirror; simpl. do 2 f_equal. apply map_eq; intros i.
    rw !lookup_fmap. by destruct (lnodes l !! i) as [[]|].
Qed.

(** *** Specifications over [contents] *)

Lemma fmap_payload_ext l l' (ls : list nat) :
  (forall p, p ∈ ls -> payload l' p = payload l p) -> payload l' <$> ls = payload l <$> ls.
Proof. intros H. apply list_fmap_ext. intros i p Hp. apply H. by eapply list_elem_of_lookup_2. Qed.

Lemma lpush1_spec l v :
  list_wf l -> list_wf (lpush1 l v) /\ contents (lpush1 l v) = v :: contents l.
Proof.
  intros [ls Hd]. destruct (lpush1_dll l ls v Hd) as (Hd' & Hp & Hf). split; [by eexists|].
  rw (contents_dll _ _ Hd') (contents_dll _ _ Hd). csimpl. rw Hf. f_equal. by apply fmap_payload_ext.
Qed.

Lemma contents_mirror l : list_wf l -> contents (mirror l) = reverse (contents l).
Proof.
  intros [ls Hd]. rw (contents_dll _ _ (dll_mirror _ _ Hd)) (contents_dll _ _ Hd).
  rw fmap_reverse. f_equal. apply fmap_payload_ext. intros. apply payload_mirror.
Qed.

Lemma list_wf_mirror l : list_wf l -> list_wf (mirror l).
Proof. intros [ls Hd]. eexists. by apply dll_mirror. Qed.
#[export] Hint Resolve list_wf_mirror : mnemo.

Lemma rpush1_spec l v :
  list_wf l -> list_wf (rpush1 l v) /\ contents (rpush1 l v) = contents l ++ [v].
Proof.
  intros Hwf. rw rpush1_mirror.
  destruct (lpush1_spec (mirror l) v) as [Hwf' Hc]; [auto with mnemo|].
  split; [auto with mnemo|].
  rw (contents_mirror _ Hwf') Hc (contents_mirror _ Hwf) reverse_cons reverse_involutive. done.
Qed.

Lemma LPush_spec l values :
  list_wf l ->
  let '(l', n) := LPush l values in
  list_wf l' /\ contents l' = reverse values ++ contents l /\ n = Z.of_nat (length (contents l')).
Proof.
  intros Hwf. unfold LPush.
  assert (forall l, list_wf l -> list_wf (foldl lpush1 l values) /\
            contents (foldl lpush1 l values) = reverse values ++ contents l) as H.
  { clear l Hwf. induction values as [|v vs IH]; intros l Hwf; simpl; [done|].
    destruct (lpush1_spec l v Hwf) as [Hwf1 Hc1]. destruct (IH _ Hwf1) as [? ->].
    split; [done|]. by rw Hc1 reverse_cons -app_assoc. }
  destruct (H l Hwf) as [Hwf' Hc]. by rw (contents_len _ Hwf').
Qed.

Lemma RPush_spec l values :
  list_wf l ->
  let '(l', n) := RPush l values in
  list_wf l' /\ contents l' = contents l ++ values /\ n = Z.of_nat (length (contents l')).
Proof.
  intros Hwf. unfold RPush.
  assert (forall l, list_wf l -> list_wf (foldl rpush1 l values) /\
            contents (foldl rpush1 l values) = contents l ++ values) as H.
  { clear l Hwf. induction values as [|v vs IH]; intros l Hwf; simpl; [by rw app_nil_r|].
    destruct (rpush1_spec l v Hwf) as [Hwf1 Hc1]. destruct (IH _ Hwf1) as [? ->].
    split; [done|]. by rw Hc1 -app_assoc. }
  destruct (H l Hwf) as [Hwf' Hc]. by rw (contents_len _ Hwf').
Qed.

Lemma LPop_spec l :
  list_wf l ->
  match contents l with
  | [] => LPop l = (l, None)
  | v :: vs => exists l', LPop l = (l', Some v) /\ list_wf l' /\ contents l' = vs
  end.
Proof.
  intros [[|p ls] Hd]; rw (contents_dll _ _ Hd); simpl; [by apply LPop_dll_nil|].
  destruct (LPop_dll l p ls Hd) as (l' & -> & Hd' & Hp). eexists; split_and!; [done|by eexists|].
  rw (contents_dll _ _ Hd'). by apply fmap_payload_ext.
Qed.

Lemma RPop_spec l :
  list_wf l ->
  match reverse (contents l) with
  | [] => RPop l = (l, None)
  | v :: vs => exists l', RPop l = (l', Some v) /\ list_wf l' /\ contents l' = reverse vs
  end.
Proof.
  intros Hwf. pose proof (LPop_spec (mirror l) (list_wf_mirror _ Hwf)) as H.
  rw (contents_mirror _ Hwf) in H. rw RPop_mirror. destruct (reverse (contents l)) as [|v vs].
  - rw H. by rw mirror_involutive.
  - destruct H as (l' & -> & Hwf' & <-). eexists; split_and!; [done|auto with mnemo|].
    by rw contents_mirror.
Qed.

(** The size walk in closed form. *)
Definition list_bytes (vs : list string) : Z :=
  foldr (fun v n => listNodeOverhead + slen v + n)%Z 0%Z vs.

Lemma listEntrySize_eq key lv :
  listEntrySize key lv = u64 (stringEntryOverhead + slen key + list_bytes (contents lv)).
Proof.
  unfold listEntrySize. generalize (stringEntryOverhead + slen key)%Z as b.
  induction (contents lv) as [|v vs IH]; intros b; simpl.
  - f_equal. lia.
  - rw u64_add_l IH. f_equal. lia.
Qed.

Lemma list_bytes_app vs ws : list_bytes (vs ++ ws) = (list_bytes vs + list_bytes ws)%Z.
Proof. induction vs; simpl; lia. Qed.
Lemma list_bytes_reverse vs : list_bytes (reverse vs) = list_bytes vs.
Proof. induction vs; [done|]. rw reverse_cons list_bytes_app IHvs /=. lia. Qed.
Lemma list_bytes_nonneg vs : (0 <= list_bytes vs)%Z.
Proof. induction vs as [|v vs IH]; simpl; [lia|]. pose proof (slen_nonneg v). unfold listNodeOverhead. lia. Qed.
#[export] Hint Resolve list_bytes_nonneg : mnemo.

(** ** The list value is a double-ended queue *)

Inductive list_op := DoLPush (values : list string) | DoRPush (values : list string) | DoLPop | DoRPop.

(** A step of the pointer code: the new length, or the popped value. *)
Definition list_step (op : list_op) (l : ListValue) : (Z + option string) * ListValue :=
  match op with
  | DoLPush vs => let '(l, n) := LPush l vs in (inl n, l)
  | DoRPush vs => let '(l, n) := RPush l vs in (inl n, l)
  | DoLPop => let '(l, v) := LPop l in (inr v, l)
  | DoRPop => let '(l, v) := RPop l in (inr v, l)
  end.
(** The same step on the sequence of values. *)
Definition deque_step (op : list_op) (l : list string) : (Z + option string) * list string :=
  match op with
  | DoLPush vs => (inl (Z.of_nat (length (reverse vs ++ l))), reverse vs ++ l)
  | DoRPush vs => (inl (Z.of_nat (length (l ++ vs))), l ++ vs)
  | DoLPop => (inr (head l), tail l)
  | DoRPop => (inr (last l), reverse (tail (reverse l)))
  end.

Lemma list_step_deque op l :
  list_wf l -> list_wf (list_step op l).2 /\
  deque_step op (contents l) = ((list_step op l).1, contents (list_step op l).2).
Proof.
  intros Hwf. destruct op as [vs|vs| |]; cbn [list_step deque_step].
  - pose proof (LPush_spec l vs Hwf) as Hp. destruct (LPush l vs) as [l' n]. destruct Hp as (Hw & Hc & ->). by rw Hc.
  - pose proof (RPush_spec l vs Hwf) as Hp. destruct (RPush l vs) as [l' n]. destruct Hp as (Hw & Hc & ->). by rw Hc.
  - pose proof (LPop_spec l Hwf) as Hp. destruct (contents l) as [|v vs] eqn:Hc.
    + rw Hp. simpl. by rw Hc.
    + destruct Hp as (l' & -> & Hw & Hc'). simpl. by rw Hc'.
  - pose proof (RPop_spec l Hwf) as Hp. destruct (reverse (contents l)) as [|v vs] eqn:Hr.
    + apply (f_equal reverse) in Hr. rw reverse_involutive in Hr. rw Hp. simpl. by rw Hr.
    + destruct Hp as (l' & -> & Hw & Hc'). simpl. rw Hc'. split; [done|]. do 2 f_equal.
      apply (f_equal reverse) in Hr. rw reverse_involutive reverse_cons in Hr. rw Hr. apply last_snoc.
Qed.

Fixpoint list_steps (ops : list list_op) (l : ListValue) : list (Z + option string) * ListValue :=
  match ops with
  | [] => ([], l)
  | op :: ops => let '(r, l) := list_step op l in let '(rs, l) := list_steps ops l in (r :: rs, l)
  end.
Fixpoint deque_steps (ops : list list_op) (l : list string) : list (Z + option string) * list string :=
  match ops with
  | [] => ([], l)
  | op :: ops => let '(r, l) := deque_step op l in let '(rs, l) := deque_steps ops l in (r :: rs, l)
  end.

(** The doubly linked list is a deque: from an empty list, every sequence of
    pushes and pops returns the lengths and the values that the same sequence
    returns on a sequence of values, and ends with its contents. *)
Theorem list_is_deque ops :
  let '(rs, l) := list_steps ops NewListValue in
  deque_steps ops [] = (rs, contents l) /\ list_wf l /\ Len l = Z.of_nat (length (contents l)).
Proof.
  assert (forall l, list_wf l -> let '(rs, l') := list_steps ops l in deque_steps ops (contents l) = (rs, contents l') /\ list_wf l') as Hgo.
  { induction ops as [|op ops IH]; intros l Hwf; cbn [list_steps deque_steps]; [done|].
    destruct (list_step_deque op l Hwf) as [Hw Hd]. rw Hd. destruct (list_step op l) as [r l1]. simpl in *.
    specialize (IH l1 Hw). destruct (list_steps ops l1) as [rs l2]. destruct IH as [-> Hw2]. done. }
  destruct NewListValue_wf as [Hw0 Hc0]. specialize (Hgo NewListValue Hw0). rw Hc0 in Hgo.
  destruct (list_steps ops NewListValue) as [rs l]. destruct Hgo as [Hd Hw]. split_and!; [done|done|]. by apply contents_len.
Qed.
