(* ===== verification/SkipList.v ===== *)
(** * The skip list: [internal/engine/skiplist.go]

    A [SkipList] owns its nodes; each list carries its own heap, location 0
    is the head node, and a Go pointer is an [option nat].  The operations
    run in the option monad: [None] is a run-time panic (an index outside a
    [forward] slice) or exhausted fuel, and the theorems show that neither
    happens on a well-formed list.

    The main theorems say that, whatever levels [randomLevel] draws, the
    pointer code implements a strictly sorted sequence of (score, member)
    pairs: [Insert] and [Delete] are insertion and removal at the sorted
    position and [Range] is a slice of the sequence. *)
From S2P Require Import Prelude GoFloat.
Local Open Scope nat_scope.

Definition skipListMaxLevel : nat := 32.

Record SkipNode := mkSkipNode {
  Member : string;
  Score : float64;
  backward : option nat;
  forward : list (option nat)
}.

Record SkipList := mkSkipList {
  snodes : gmap nat SkipNode;
  sfresh : nat;
  level : nat;
  slength : nat
}.

(** The location of [sl.head]. *)
Definition shead : nat := 0.

Definition NewSkipList : SkipList :=
  mkSkipList {[ shead := mkSkipNode "" (SpecFloat.S754_zero false) None (replicate skipListMaxLevel None) ]}
    1 1 0.

Definition SkipLen (sl : SkipList) : nat := slength sl.

(** *** Heap access *)

(** [x.forward[i]]: fails on an index outside the slice. *)
Definition fwd (h : gmap nat SkipNode) (x i : nat) : option (option nat) :=
  n ← h !! x; forward n !! i.

(** [x.forward[i] = v]. *)
Definition setFwd (h : gmap nat SkipNode) (x i : nat) (v : option nat) : option (gmap nat SkipNode) :=
  n ← h !! x;
  if decide (i < length (forward n)) then
    Some (<[x := mkSkipNode (Member n) (Score n) (backward n) (<[i := v]> (forward n))]> h)
  else None.

(** [x.backward = v]. *)
Definition setBackward (h : gmap nat SkipNode) (x : nat) (v : option nat) : gmap nat SkipNode :=
  alter (fun n => mkSkipNode (Member n) (Score n) v (forward n)) x h.

(** *** Search *)

(** The inner loop: move right at level [i] while the next node is below
    (score, member). *)
Fixpoint advance (fuel : nat) (h : gmap nat SkipNode) (i : nat)
    (score : float64) (member : string) (x : nat) : option nat :=
  match fuel with
  | O => None
  | S fuel =>
      nx ← fwd h x i;
      match nx with
      | None => Some x
      | Some y =>
          n ← h !! y;
          if mlt (Score n) (Member n) score member then advance fuel h i score member y
          else Some x
      end
  end.

(** The outer loop [for i := sl.level - 1; i >= 0; i--] over the [n] levels
    still to do: the final [x] and [update[0..n-1]]. *)
Fixpoint search (fuel : nat) (h : gmap nat SkipNode) (n : nat)
    (score : float64) (member : string) (x : nat) : option (nat * list nat) :=
  match n with
  | O => Some (x, [])
  | S i =>
      x' ← advance fuel h i score member x;
      '(xf, update) ← search fuel h i score member x';
      Some (xf, update ++ [x'])
  end.

(** [randomLevel]: [coins k] says whether the [k]-th [rand.Float64()] of this
    call is below [skipListP]. *)
Fixpoint randomLevel_from (n : nat) (coins : nat -> bool) (lvl k : nat) : nat :=
  match n with
  | O => lvl
  | S n => if coins k then randomLevel_from n coins (S lvl) (S k) else lvl
  end.
Definition randomLevel (coins : nat -> bool) : nat :=
  randomLevel_from (skipListMaxLevel - 1) coins 1 0.

(** *** Insert *)

(** The loop [for i := 0; i < lvl; i++] that links [node] at each level. *)
Fixpoint linkLevels (h : gmap nat SkipNode) (update : list nat) (node i n : nat)
    : option (gmap nat SkipNode) :=
  match n with
  | O => Some h
  | S n =>
      u ← update !! i;
      f ← fwd h u i;
      h ← setFwd h node i f;
      h ← setFwd h u i (Some node);
      linkLevels h update node (S i) n
  end.

Definition Insert (sl : SkipList) (lvl : nat) (score : float64) (member : string)
    : option SkipList :=
  '(_, update) ← search (S (slength sl)) (snodes sl) (level sl) score member shead;
  let update := update ++ replicate (lvl - level sl) shead in
  let lev := Nat.max (level sl) lvl in
  let node := sfresh sl in
  let h := <[node := mkSkipNode member score None (replicate lvl None)]> (snodes sl) in
  h ← linkLevels h update node 0 lvl;
  u0 ← update !! 0;
  let h := setBackward h node (if decide (u0 = shead) then None else Some u0) in
  f0 ← fwd h node 0;
  let h := match f0 with Some y => setBackward h y (Some node) | None => h end in
  Some (mkSkipList h (S node) lev (S (slength sl))).

(** *** Delete *)

(** The loop [for i := 0; i < sl.level; i++] that unlinks [x], with its
    [break]. *)
Fixpoint unlinkLevels (h : gmap nat SkipNode) (update : list nat) (x i n : nat)
    : option (gmap nat SkipNode) :=
  match n with
  | O => Some h
  | S n =>
      u ← update !! i;
      f ← fwd h u i;
      if decide (f = Some x) then
        g ← fwd h x i;
        h ← setFwd h u i g;
        unlinkLevels h update x (S i) n
      else Some h
  end.

(** [for sl.level > 1 && sl.head.forward[sl.level-1] == nil { sl.level-- }] *)
Fixpoint shrink (h : gmap nat SkipNode) (lev : nat) : option nat :=
  match lev with
  | S (S _ as lev') =>
      f ← fwd h shead lev';
      match f with None => shrink h lev' | Some _ => Some lev end
  | _ => Some lev
  end.

Definition Delete (sl : SkipList) (score : float64) (member : string) : option (SkipList * bool) :=
  '(x, update) ← search (S (slength sl)) (snodes sl) (level sl) score member shead;
  nx ← fwd (snodes sl) x 0;
  match nx with
  | None => Some (sl, false)
  | Some y =>
      n ← snodes sl !! y;
      if negb (feqb (Score n) score) || bool_decide (Member n <> member) then Some (sl, false)
      else
        h ← unlinkLevels (snodes sl) update y 0 (level sl);
        f0 ← fwd h y 0;
        let h := match f0 with Some z => setBackward h z (backward n) | None => h end in
        lev ← shrink h (level sl);
        Some (mkSkipList h (sfresh sl) lev (slength sl - 1), true)
  end.

(** *** Range *)

(** [for i := 0; i <= start; i++ { x = x.forward[0]; if x == nil return nil }],
    [n] iterations left. *)
Fixpoint seek (h : gmap nat SkipNode) (n : nat) (x : nat) : option (option nat) :=
  match n with
  | O => Some (Some x)
  | S n =>
      nx ← fwd h x 0;
      match nx with None => Some None | Some y => seek h n y end
  end.

(** [for i := start; i <= stop && x != nil; i++], [n] iterations left. *)
Fixpoint collect (h : gmap nat SkipNode) (n : nat) (x : option nat) : option (list (float64 * string)) :=
  match n, x with
  | S n, Some p =>
      nd ← h !! p;
      nx ← fwd h p 0;
      r ← collect h n nx;
      Some ((Score nd, Member nd) :: r)
  | _, _ => Some []
  end.

Definition SkipRange (sl : SkipList) (start stop : Z) : option (list (float64 * string)) :=
  if decide (slength sl = 0) then Some []
  else
    let length := Z.of_nat (slength sl) in
    let start := if (start <? 0)%Z then (start + length)%Z else start in
    let stop := if (stop <? 0)%Z then (stop + length)%Z else stop in
    let start := if (start <? 0)%Z then 0%Z else start in
    let stop := if (length <=? stop)%Z then (length - 1)%Z else stop in
    if (stop <? start)%Z then Some []
    else
      x ← seek (snodes sl) (Z.to_nat (start + 1)) shead;
      match x with
      | None => Some []
      | Some x => collect (snodes sl) (Z.to_nat (stop - start + 1)) (Some x)
      end.

(** ** Well-formed lists *)

Definition nextAt (h : gmap nat SkipNode) (i p : nat) : option nat :=
  match fwd h p i with Some f => f | None => None end.
Definition height (h : gmap nat SkipNode) (p : nat) : nat :=
  match h !! p with Some n => length (forward n) | None => 0 end.
Definition skey (h : gmap nat SkipNode) (p : nat) : float64 * string :=
  match h !! p with Some n => (Score n, Member n) | None => (SpecFloat.S754_nan, "") end.
Definition bwd (h : gmap nat SkipNode) (p : nat) : option nat := h !! p ≫= backward.

(** The nodes of [ls] that are tall enough to be linked at level [i]. *)
Definition at_level (h : gmap nat SkipNode) (i : nat) (ls : list nat) : list nat :=
  filter (fun p => i < height h p) ls.

(** [sl] represents the sequence of nodes [ls]. *)
Record skip_wf (sl : SkipList) (ls : list nat) : Prop := {
  wf_nodup : NoDup (shead :: ls);
  wf_fresh : forall p, p ∈ shead :: ls -> p < sfresh sl;
  wf_head : height (snodes sl) shead = skipListMaxLevel;
  wf_height : forall p, p ∈ ls -> 1 <= height (snodes sl) p <= level sl;
  wf_level : 1 <= level sl <= skipListMaxLevel;
  wf_tight : level sl = 1 \/ at_level (snodes sl) (level sl - 1) ls <> [];
  wf_nan : forall p, p ∈ ls -> IsNaN (skey (snodes sl) p).1 = false;
  wf_sorted : StronglySorted mltp (skey (snodes sl) <$> ls);
  wf_chain : forall i, i < skipListMaxLevel ->
    chain (nextAt (snodes sl) i) (nextAt (snodes sl) i shead) (at_level (snodes sl) i ls);
  wf_back : back (bwd (snodes sl)) None ls;
  wf_len : slength sl = length ls
}.

(** The sequence a list represents, read off the level-0 links. *)
Fixpoint skip_walk (fuel : nat) (h : gmap nat SkipNode) (x : option nat) : list (float64 * string) :=
  match fuel, x with
  | S fuel, Some p => skey h p :: skip_walk fuel h (nextAt h 0 p)
  | _, _ => []
  end.
Definition elements (sl : SkipList) : list (float64 * string) :=
  skip_walk (slength sl) (snodes sl) (nextAt (snodes sl) 0 shead).

(** ** Heap lemmas *)

Lemma fwd_nextAt h p i : i < height h p -> fwd h p i = Some (nextAt h i p).
Proof.
  unfold height, nextAt, fwd. destruct (h !! p) as [n|]; simpl; [|lia].
  intros Hi. by destruct (lookup_lt_is_Some_2 _ _ Hi) as [f ->].
Qed.

Lemma height_lookup h p : 0 < height h p -> exists n, h !! p = Some n /\ skey h p = (Score n, Member n).
Proof. unfold height, skey. destruct (h !! p) as [n|]; [|lia]. eauto. Qed.

(** Two heaps that differ in links only. *)
Definition same_nodes (h h' : gmap nat SkipNode) : Prop :=
  forall p, height h' p = height h p /\ skey h' p = skey h p /\ bwd h' p = bwd h p.

Lemma same_nodes_trans h1 h2 h3 : same_nodes h1 h2 -> same_nodes h2 h3 -> same_nodes h1 h3.
Proof. intros H1 H2 p. by destruct (H2 p) as (-> & -> & ->), (H1 p) as (-> & -> & ->). Qed.

Lemma setFwd_spec h x i v :
  i < height h x ->
  exists h', setFwd h x i v = Some h' /\ same_nodes h h' /\
    forall j p, nextAt h' j p = if decide (p = x /\ j = i) then v else nextAt h j p.
Proof.
  unfold height, setFwd. destruct (h !! x) as [n|] eqn:Hx; simpl; [|lia].
  intros Hi. rw decide_True; [done|]. eexists; split_and!; [done|..].
  - intros p. unfold height, skey, bwd. destruct (decide (p = x)) as [->|Hp].
    + rw lookup_insert_eq Hx /= length_insert. done.
    + by rw lookup_insert_ne.
  - intros j p. unfold nextAt, fwd. destruct (decide (p = x)) as [->|Hp].
    + rw lookup_insert_eq Hx /=. destruct (decide (j = i)) as [->|Hj].
      * rw list_lookup_insert_eq; [done|]. by rw decide_True.
      * rw list_lookup_insert_ne; [done|]. rw decide_False; [naive_solver|]. done.
    + rw lookup_insert_ne; [done|]. rw decide_False; [naive_solver|]. done.
Qed.

Lemma setBackward_spec h x v :
  let h' := setBackward h x v in
  (forall i p, nextAt h' i p = nextAt h i p) /\ (forall p, height h' p = height h p) /\
  (forall p, skey h' p = skey h p) /\ (0 < height h x -> bwd h' x = v) /\
  (forall p, p <> x -> bwd h' p = bwd h p).
Proof.
  simpl. unfold setBackward, nextAt, fwd, height, skey, bwd. split_and!.
  - intros i p. destruct (decide (p = x)) as [->|]; [|by rw lookup_alter_ne].
    rw lookup_alter_eq. by destruct (h !! x).
  - intros p. destruct (decide (p = x)) as [->|]; [|by rw lookup_alter_ne].
    rw lookup_alter_eq. by destruct (h !! x).
  - intros p. destruct (decide (p = x)) as [->|]; [|by rw lookup_alter_ne].
    rw lookup_alter_eq. by destruct (h !! x).
  - rw lookup_alter_eq. destruct (h !! x); simpl; [done|lia].
  - intros p Hp. by rw lookup_alter_ne.
Qed.

Lemma at_level_app h i l1 l2 : at_level h i (l1 ++ l2) = at_level h i l1 ++ at_level h i l2.
Proof. apply filter_app. Qed.

Lemma at_level_cons h i p ls :
  at_level h i (p :: ls) = (if decide (i < height h p) then [p] else []) ++ at_level h i ls.
Proof. unfold at_level. rw filter_cons. by destruct (decide _). Qed.

Lemma elem_of_at_level h i ls p : p ∈ at_level h i ls <-> i < height h p /\ p ∈ ls.
Proof. unfold at_level. by rw list_elem_of_filter. Qed.

Lemma at_level_ext h h' i ls :
  (forall p, p ∈ ls -> height h' p = height h p) -> at_level h' i ls = at_level h i ls.
Proof.
  intros Hext. induction ls as [|p ls IH]; [done|]. rw !at_level_cons IH; [set_solver|].
  rw Hext; [set_solver|]. done.
Qed.

Lemma at_level_all h ls : (forall p, p ∈ ls -> 0 < height h p) -> at_level h 0 ls = ls.
Proof.
  intros Hh. induction ls as [|p ls IH]; [done|]. rw at_level_cons IH; [set_solver|].
  rw decide_True; [set_solver|]. done.
Qed.

(** ** Searching *)

Lemma sorted_split (key : nat -> float64 * string) (k : float64 * string) ls :
  StronglySorted mltp (key <$> ls) ->
  exists l1 l2, ls = l1 ++ l2 /\ (forall p, p ∈ l1 -> mltp (key p) k) /\
    (forall p, p ∈ l2 -> ~ mltp (key p) k).
Proof.
  induction ls as [|p ls IH]; simpl; intros Hs.
  - exists [], []. set_solver.
  - apply StronglySorted_inv in Hs as [Hs Hp]. destruct (decide (mltp (key p) k)) as [Hlt|Hge].
    + destruct (IH Hs) as (l1 & l2 & -> & H1 & H2). exists (p :: l1), l2. set_solver.
    + exists [], (p :: ls). split_and!; [done|set_solver|].
      intros q. rw elem_of_cons. intros [->|Hq]; [done|].
      intros Hqk. apply Hge. trans (key q); [|done].
      rw Forall_forall in Hp. apply Hp. set_solver.
Qed.

Lemma advance_spec h i s m b c x fuel :
  chain (nextAt h i) (nextAt h i x) (b ++ c) ->
  i < height h x -> (forall p, p ∈ b ++ c -> i < height h p) ->
  IsNaN s = false -> (forall p, p ∈ b ++ c -> IsNaN (skey h p).1 = false) ->
  (forall p, p ∈ b -> mltp (skey h p) (s, m)) -> (forall p, p ∈ c -> ~ mltp (skey h p) (s, m)) ->
  length b < fuel ->
  advance fuel h i s m x = Some (last_from x b).
Proof.
  revert x fuel; induction b as [|y b IH]; intros x fuel Hc Hx Hh Hs Hn Hb Hcc Hf;
    (destruct fuel as [|fuel]; [simpl in Hf; lia|]); simpl; rw fwd_nextAt //=.
  - simpl in Hc. apply chain_head in Hc. rw Hc. destruct c as [|y c]; [done|]. simpl.
    destruct (height_lookup h y) as (n & Hy & Hk); [specialize (Hh y); set_solver by lia|].
    rw Hy /=. specialize (Hcc y ltac:(set_solver)). specialize (Hn y ltac:(set_solver)).
    rw Hk in Hcc Hn. destruct (mlt _ _ _ _) eqn:Hm; [|done].
    by apply mlt_mltp in Hm.
  - destruct Hc as [-> Hc].
    destruct (height_lookup h y) as (n & Hy & Hk); [specialize (Hh y); set_solver by lia|].
    rw Hy /= last_from_cons. assert (mlt (Score n) (Member n) s m = true) as ->.
    { apply mlt_mltp; [by specialize (Hn y ltac:(set_solver)); rw Hk in Hn|done|].
      rw -Hk. set_solver. }
    apply IH; try done; [set_solver..|]. simpl in Hf. lia.
Qed.

(** [update[i]]: the last node before the key that is linked at level [i]. *)
Definition pred (h : gmap nat SkipNode) (l1 : list nat) (i : nat) : nat :=
  last_from shead (at_level h i l1).

Lemma pred_elem h l1 i : pred h l1 i ∈ shead :: l1.
Proof.
  unfold pred. pose proof (last_from_elem shead (at_level h i l1)) as H.
  apply elem_of_cons in H as [->|H]; [set_solver|]. apply elem_of_at_level in H. set_solver.
Qed.

Lemma pred_height sl ls l1 i :
  skip_wf sl ls -> i < skipListMaxLevel -> i < height (snodes sl) (pred (snodes sl) l1 i).
Proof.
  intros Hwf Hi. unfold pred. pose proof (last_from_elem shead (at_level (snodes sl) i l1)) as H.
  apply elem_of_cons in H as [->|H]; [by rw (wf_head _ _ Hwf)|].
  by apply elem_of_at_level in H as [H _].
Qed.

(** Above the level of the list the predecessor is the head. *)
Lemma pred_above sl ls l1 l2 i :
  skip_wf sl ls -> ls = l1 ++ l2 -> level sl <= i -> pred (snodes sl) l1 i = shead.
Proof.
  intros Hwf Hls Hi. unfold pred. destruct (at_level (snodes sl) i l1) as [|q l] eqn:Hq; [done|].
  assert (q ∈ at_level (snodes sl) i l1) as Hin by (rw Hq; set_solver).
  apply elem_of_at_level in Hin as [Hq1 Hq2].
  pose proof (wf_height _ _ Hwf q ltac:(set_solver)). lia.
Qed.

(** The node after the predecessor is the first node not below the key. *)
Lemma next_pred sl ls l1 l2 i :
  skip_wf sl ls -> ls = l1 ++ l2 -> i < skipListMaxLevel ->
  nextAt (snodes sl) i (pred (snodes sl) l1 i) = head (at_level (snodes sl) i l2).
Proof.
  intros Hwf Hls Hi. pose proof (wf_chain _ _ Hwf i Hi) as Hc. rw Hls at_level_app in Hc.
  by apply chain_after, chain_head in Hc.
Qed.

Section search.
Context (sl : SkipList) (ls l1 l2 : list nat) (s : float64) (m : string).
Context (Hwf : skip_wf sl ls) (Hls : ls = l1 ++ l2) (Hs : IsNaN s = false).
Context (Hlt : forall p, p ∈ l1 -> mltp (skey (snodes sl) p) (s, m)).
Context (Hge : forall p, p ∈ l2 -> ~ mltp (skey (snodes sl) p) (s, m)).

Lemma advance_pred i x fuel :
  i < skipListMaxLevel -> x ∈ shead :: l1 -> i < height (snodes sl) x -> length ls < fuel ->
  advance fuel (snodes sl) i s m x = Some (pred (snodes sl) l1 i).
Proof.
  intros Hi Hx Hh Hf. pose proof (wf_chain _ _ Hwf i Hi) as Hc.
  rw Hls at_level_app in Hc.
  assert (exists c b, shead :: at_level (snodes sl) i l1 = c ++ x :: b) as (c & b & Heq).
  { apply list_elem_of_split. apply elem_of_cons in Hx as [->|Hx]; [set_solver|].
    apply elem_of_cons; right. by apply elem_of_at_level. }
  assert (forall p, p ∈ b -> p ∈ at_level (snodes sl) i l1) as Hb.
  { intros p Hp. destruct c as [|z c]; injection Heq as Hz Heq; [by rw Heq|].
    rw Heq. set_solver. }
  assert (length b <= length ls) as Hlb.
  { assert (length (at_level (snodes sl) i l1) <= length l1) by apply length_filter.
    apply (f_equal length) in Heq. simpl in Heq. rw length_app /= in Heq.
    rw Hls length_app. lia. }
  unfold pred. rw (last_from_suffix _ _ _ _ _ Heq).
  eapply advance_spec with (c := at_level (snodes sl) i l2); try done.
  - eapply chain_suffix with (h := shead) (c := c); [exact Hc|].
    by rw app_comm_cons Heq -app_assoc.
  - intros p. rw elem_of_app. intros [Hp|Hp]; [apply Hb in Hp|]; by apply elem_of_at_level in Hp as [??].
  - intros p Hp. apply (wf_nan _ _ Hwf). rw Hls elem_of_app.
    apply elem_of_app in Hp as [Hp|Hp]; [apply Hb in Hp|]; apply elem_of_at_level in Hp; tauto.
  - intros p Hp. apply Hb, elem_of_at_level in Hp. naive_solver.
  - intros p Hp. apply elem_of_at_level in Hp. naive_solver.
  - lia.
Qed.

Lemma search_spec n x fuel :
  n <= skipListMaxLevel -> x ∈ shead :: l1 -> n <= height (snodes sl) x -> length ls < fuel ->
  exists xf update, search fuel (snodes sl) n s m x = Some (xf, update) /\
    update = pred (snodes sl) l1 <$> seq 0 n /\ (0 < n -> xf = pred (snodes sl) l1 0).
Proof.
  revert x; induction n as [|i IH]; intros x Hn Hx Hh Hf.
  - eexists _, _; split; [done|]. split; [done|lia].
  - assert (i < skipListMaxLevel) as Hi by (unfold skipListMaxLevel in *; lia).
    destruct (IH (pred (snodes sl) l1 i)) as (xf & up & Hsr & Hup & Hxf).
    + lia.
    + apply pred_elem.
    + pose proof (pred_height sl ls l1 i Hwf Hi). lia.
    + done.
    + cbn [search]. rw advance_pred; [done|done|lia|done|]. simpl. rw Hsr /=.
      eexists _, _; split; [done|]. split.
      * change (up ++ [pred (snodes sl) l1 i] = pred (snodes sl) l1 <$> seq 0 (S i)).
        by rw seq_S fmap_app Hup.
      * intros _. destruct i as [|i]; [|apply Hxf; lia].
        simpl in Hsr. by simplify_eq.
Qed.
End search.

(** ** Linking and unlinking *)

Lemma linkLevels_spec update (u : nat -> nat) node n i h :
  (forall j, i <= j < i + n -> update !! j = Some (u j) /\ u j <> node /\ j < height h (u j) /\ j < height h node) ->
  exists h', linkLevels h update node i n = Some h' /\ same_nodes h h' /\
    forall j p, nextAt h' j p =
      if decide (i <= j < i + n) then
        if decide (p = node) then nextAt h j (u j)
        else if decide (p = u j) then Some node else nextAt h j p
      else nextAt h j p.
Proof.
  revert i h; induction n as [|n IH]; intros i h Hu; cbn [linkLevels].
  - exists h. split; [done|]. split; [by intros|]. intros j p. by rw decide_False; [lia|].
  - destruct (Hu i ltac:(lia)) as (-> & Hne & Hh & Hhn). simpl. rw fwd_nextAt //=.
    destruct (setFwd_spec h node i (nextAt h i (u i)) Hhn) as (h1 & -> & Hs1 & Hn1). simpl.
    destruct (setFwd_spec h1 (u i) i (Some node)) as (h2 & -> & Hs2 & Hn2);
      [by destruct (Hs1 (u i)) as [-> _]|]. simpl.
    pose proof (same_nodes_trans _ _ _ Hs1 Hs2) as Hs.
    destruct (IH (S i) h2) as (h' & -> & Hs' & Hn').
    { intros j Hj. destruct (Hu j ltac:(lia)) as (? & ? & ? & ?).
      destruct (Hs (u j)) as [-> _], (Hs node) as [-> _]. done. }
    exists h'. split; [done|]. split; [by eapply same_nodes_trans|].
    intros j p. rw Hn'. rw !Hn2 !Hn1. destruct (decide (j = i)) as [->|Hj].
    all: repeat case_decide; destruct_and?; subst; first [done|lia|tauto].
Qed.

Lemma unlinkLevels_spec update (u : nat -> nat) y n i h :
  (forall j, i <= j < i + n -> update !! j = Some (u j) /\ u j <> y /\ j < height h (u j) /\
     (nextAt h j (u j) = Some y <-> j < height h y)) ->
  exists h', unlinkLevels h update y i n = Some h' /\ same_nodes h h' /\
    forall j p, nextAt h' j p =
      if decide (i <= j < i + n /\ j < height h y /\ p = u j) then nextAt h j y else nextAt h j p.
Proof.
  revert i h; induction n as [|n IH]; intros i h Hu; cbn [unlinkLevels].
  - exists h. split; [done|]. split; [by intros|]. intros j p. by rw decide_False; [lia|].
  - destruct (Hu i ltac:(lia)) as (-> & Hne & Hh & Hiff).
    cbn [mbind option_bind]. rw (fwd_nextAt h (u i)) //. cbn [mbind option_bind].
    case_decide as Hy.
    + apply Hiff in Hy. rw fwd_nextAt //=.
      destruct (setFwd_spec h (u i) i (nextAt h i y) Hh) as (h1 & -> & Hs1 & Hn1). simpl.
      destruct (IH (S i) h1) as (h' & -> & Hs' & Hn').
      { intros j Hj. destruct (Hu j ltac:(lia)) as (? & ? & ? & ?).
        destruct (Hs1 (u j)) as [-> _], (Hs1 y) as [-> _]. rw Hn1.
        rw decide_False; [lia|]. done. }
      exists h'. split; [done|]. split; [by eapply same_nodes_trans|].
      intros j p. rw Hn'. rw !Hn1. destruct (Hs1 y) as [-> _]. destruct (decide (j = i)) as [->|Hj].
      all: repeat case_decide; destruct_and?; subst; first [done|lia|tauto].
    + exists h. split; [done|]. split; [by intros|]. intros j p.
      rw decide_False; [|done]. intros (Hj & Hlt & ->). apply Hy, Hiff. lia.
Qed.

(** ** Insert *)

Lemma new_node_spec h f s m lvl :
  let h' := <[f := mkSkipNode m s None (replicate lvl None)]> h in
  height h' f = lvl /\ skey h' f = (s, m) /\
  (forall p, p <> f -> height h' p = height h p /\ skey h' p = skey h p /\ bwd h' p = bwd h p /\
     forall i, nextAt h' i p = nextAt h i p).
Proof.
  simpl. unfold height, skey, bwd, nextAt, fwd. rw lookup_insert_eq /= length_replicate.
  split_and!; [done..|]. intros p Hp. by rw lookup_insert_ne.
Qed.

Lemma setNextBack_spec h (x : option nat) f :
  let h' := match x with Some y => setBackward h y (Some f) | None => h end in
  (forall i p, nextAt h' i p = nextAt h i p) /\ (forall p, height h' p = height h p) /\
  (forall p, skey h' p = skey h p) /\ (forall z, x = Some z -> 0 < height h z -> bwd h' z = Some f) /\
  (forall p, x <> Some p -> bwd h' p = bwd h p).
Proof.
  destruct x as [y|]; simpl; [|done].
  destruct (setBackward_spec h y (Some f)) as (H1 & H2 & H3 & H4 & H5). split_and!; [done..| |].
  - intros z [= ->]. apply H4.
  - intros p Hp. apply H5. congruence.
Qed.

(** The heap [Insert] produces, field by field. *)
Record inserted (h h' : gmap nat SkipNode) (l1 : list nat) (f : nat) (s : float64) (m : string) (lvl : nat) : Prop := {
  ins_height : height h' f = lvl;
  ins_key : skey h' f = (s, m);
  ins_same : forall p, p <> f -> height h' p = height h p /\ skey h' p = skey h p;
  ins_next_f : forall i, i < lvl -> nextAt h' i f = nextAt h i (pred h l1 i);
  ins_next_pred : forall i, i < lvl -> nextAt h' i (pred h l1 i) = Some f;
  ins_next_ne : forall i p, p <> f -> (i < lvl -> p <> pred h l1 i) -> nextAt h' i p = nextAt h i p;
  ins_back_f : bwd h' f = if decide (pred h l1 0 = shead) then None else Some (pred h l1 0);
  ins_back_next : forall z, nextAt h 0 (pred h l1 0) = Some z -> 0 < height h z -> bwd h' z = Some f;
  ins_back_ne : forall p, p <> f -> nextAt h 0 (pred h l1 0) <> Some p -> bwd h' p = bwd h p
}.

Lemma Insert_heap sl ls l1 l2 s m lvl :
  skip_wf sl ls -> ls = l1 ++ l2 -> IsNaN s = false ->
  (forall p, p ∈ l1 -> mltp (skey (snodes sl) p) (s, m)) ->
  (forall p, p ∈ l2 -> ~ mltp (skey (snodes sl) p) (s, m)) ->
  1 <= lvl <= skipListMaxLevel ->
  exists h', Insert sl lvl s m = Some (mkSkipList h' (S (sfresh sl)) (Nat.max (level sl) lvl) (S (slength sl))) /\
    inserted (snodes sl) h' l1 (sfresh sl) s m lvl.
Proof.
  intros Hwf Hls Hs Hlt Hge Hlvl. pose proof (wf_level _ _ Hwf) as Hlev.
  pose proof (wf_fresh _ _ Hwf) as Hfr.
  destruct (search_spec sl ls l1 l2 s m Hwf Hls Hs Hlt Hge (level sl) shead (S (slength sl)))
    as (xf & up & Hsr & Hup & _); [lia|set_solver|rw (wf_head _ _ Hwf); lia|rw (wf_len _ _ Hwf); lia|].
  unfold Insert. rw Hsr. cbn [mbind option_bind].
  set (h := snodes sl) in *. set (f := sfresh sl) in *. set (u := pred h l1).
  assert (forall i, i < skipListMaxLevel -> u i <> f /\ i < height h (u i)) as Hu.
  { intros i Hi. split; [|by eapply pred_height].
    pose proof (pred_elem h l1 i) as Hin. fold u in Hin. intros Hf.
    assert (u i < f); [|lia]. apply Hfr. set_solver. }
  assert (forall i, i < lvl -> (up ++ replicate (lvl - level sl) shead) !! i = Some (u i)) as Hlk.
  { intros i Hi. rw lookup_app Hup list_lookup_fmap.
    destruct (decide (i < level sl)) as [Hl|Hl].
    - by rw (lookup_seq_lt 0 (level sl) i Hl).
    - rw lookup_seq_ge; [lia|]. simpl. rw length_fmap length_seq lookup_replicate_2; [lia|].
      unfold u. rw (pred_above sl ls l1 l2) //. lia. }
  assert (forall z, nextAt h 0 (u 0) = Some z -> z <> f) as Hznf.
  { intros z Hz ->. unfold u, h in Hz. rw (next_pred sl ls l1 l2) // in Hz; [unfold skipListMaxLevel; lia|].
    apply head_Some_elem_of, elem_of_at_level in Hz as [_ Hz].
    pose proof (Hfr f ltac:(set_solver)). lia. }
  destruct (new_node_spec h f s m lvl) as (Hh1 & Hk1 & Hs1).
  set (h1 := <[f := _]> h) in *.
  destruct (linkLevels_spec (up ++ replicate (lvl - level sl) shead) u f lvl 0 h1) as (h2 & Hl2 & Hsn2 & Hn2).
  { intros j Hj. destruct (Hu j ltac:(lia)) as [? ?]. destruct (Hs1 (u j)) as (-> & _); [done|].
    rw Hh1. split_and!; [apply Hlk; lia|done|done|lia]. }
  rw Hl2. cbn [mbind option_bind]. rw Hlk; [lia|]. cbn [mbind option_bind].
  set (v := if decide (u 0 = shead) then None else Some (u 0)).
  destruct (setBackward_spec h2 f v) as (Hn3 & Hh3 & Hk3 & Hb3 & Hb3').
  set (h3 := setBackward h2 f v) in *.
  assert (height h2 f = lvl) as Hhf by (destruct (Hsn2 f) as [-> _]; done).
  rw fwd_nextAt; [rw Hh3 Hhf; lia|]. cbn [mbind option_bind].
  rw Hn3 Hn2. rw decide_True; [lia|]. rw decide_True; [done|].
  destruct (Hu 0 ltac:(lia)) as [Hu0 Hu0']. destruct (Hs1 (u 0) Hu0) as (_ & _ & _ & ->).
  eexists; split; [done|].
  destruct (setNextBack_spec h3 (nextAt h 0 (u 0)) f) as (Hn4 & Hh4 & Hk4 & Hb4 & Hb4').
  set (h4 := match nextAt h 0 (u 0) with Some y => _ | None => _ end) in *.
  assert (forall i p, nextAt h4 i p = if decide (i < lvl) then
      if decide (p = f) then nextAt h i (u i) else if decide (p = u i) then Some f else nextAt h i p
      else nextAt h1 i p) as Hnx.
  { intros i p. rw Hn4 Hn3 Hn2. destruct (decide (i < lvl)).
    - rw decide_True; [lia|]. destruct (Hu i ltac:(lia)) as [Hui _]. destruct (Hs1 (u i) Hui) as (_ & _ & _ & ->).
      repeat case_decide; try done. by apply Hs1.
    - rw decide_False; [lia|]. done. }
  split.
  - by rw Hh4 Hh3.
  - rw Hk4 Hk3. by destruct (Hsn2 f) as (_ & -> & _).
  - intros p Hp. rw Hh4 Hh3 Hk4 Hk3. destruct (Hsn2 p) as (-> & -> & _). by destruct (Hs1 p Hp) as (-> & -> & _).
  - intros i Hi. rw Hnx. by rw !decide_True.
  - intros i Hi. rw Hnx. rw decide_True //. rw decide_False; [apply Hu; lia|]. by rw decide_True.
  - intros i p Hp Hne. rw Hnx. rw (decide_False (P := p = f)) //. case_decide; [|by apply Hs1].
    rw decide_False //. by apply Hne.
  - rw Hb4'; [|apply Hb3; lia]. intros Hz. apply Hznf in Hz. done.
  - intros z Hz Hh. rw Hb4 //. rw Hh3. destruct (Hsn2 z) as (-> & _).
    destruct (Hs1 z) as (-> & _); [by apply Hznf|done].
  - intros p Hp Hne. rw Hb4' // Hb3' //. destruct (Hsn2 p) as (_ & _ & ->). by apply Hs1.
Qed.

Lemma sorted_insert (l1 l2 : list (float64 * string)) k :
  StronglySorted mltp (l1 ++ l2) -> (forall x, x ∈ l1 -> mltp x k) -> (forall x, x ∈ l2 -> mltp k x) ->
  StronglySorted mltp (l1 ++ k :: l2).
Proof.
  induction l1 as [|x l1 IH]; simpl; intros Hs H1 H2.
  - constructor; [done|]. by apply Forall_forall.
  - apply StronglySorted_inv in Hs as [Hs Hx]. constructor; [apply IH; set_solver|].
    rw Forall_app Forall_cons. rw Forall_app in Hx. set_solver.
Qed.

Section inserted.
Context (sl : SkipList) (l1 l2 : list nat) (h' : gmap nat SkipNode) (s : float64) (m : string) (lvl : nat).
Let h := snodes sl.
Let f := sfresh sl.
Context (Hwf : skip_wf sl (l1 ++ l2)) (Hi : inserted h h' l1 f s m lvl).

Lemma inserted_ne p : p ∈ shead :: l1 ++ l2 -> p <> f.
Proof. intros Hp ->. pose proof (wf_fresh _ _ Hwf f Hp). unfold f in *. lia. Qed.

Lemma inserted_old p : p ∈ shead :: l1 ++ l2 -> height h' p = height h p /\ skey h' p = skey h p.
Proof. intros Hp. by apply (ins_same _ _ _ _ _ _ _ Hi), inserted_ne. Qed.

Lemma inserted_cases p : p ∈ l1 ++ f :: l2 -> p = f \/ p ∈ l1 ++ l2.
Proof. rw !elem_of_app elem_of_cons. tauto. Qed.

Lemma inserted_at_level i :
  at_level h' i (l1 ++ f :: l2) =
  at_level h i l1 ++ (if decide (i < lvl) then [f] else []) ++ at_level h i l2.
Proof.
  rw at_level_app at_level_cons (ins_height _ _ _ _ _ _ _ Hi).
  rw !(at_level_ext h h') //; intros p Hp; apply inserted_old; rw elem_of_cons elem_of_app; tauto.
Qed.

Lemma inserted_nodup : NoDup (shead :: l1 ++ f :: l2).
Proof.
  pose proof (wf_nodup _ _ Hwf) as Hnd. apply NoDup_cons in Hnd as [H1 H2].
  apply NoDup_cons; split.
  - intros Hin. apply inserted_cases in Hin as [Heq|Hin]; [|done].
    by apply (inserted_ne shead); [apply elem_of_cons; left|].
  - rw -Permutation_middle. apply NoDup_cons; split; [|done].
    intros Hf. by apply (inserted_ne f); [apply elem_of_cons; right|].
Qed.

Lemma inserted_sorted :
  (forall p, p ∈ l1 -> mltp (skey h p) (s, m)) -> (forall p, p ∈ l2 -> mltp (s, m) (skey h p)) ->
  (skey h' <$> (l1 ++ f :: l2)) = (skey h <$> l1) ++ (s, m) :: (skey h <$> l2) /\
  StronglySorted mltp (skey h' <$> (l1 ++ f :: l2)).
Proof.
  intros Hlt Hgt.
  assert ((skey h' <$> (l1 ++ f :: l2)) = (skey h <$> l1) ++ (s, m) :: (skey h <$> l2)) as Heq.
  { rw fmap_app fmap_cons (ins_key _ _ _ _ _ _ _ Hi).
    rw !(list_fmap_ext (skey h') (skey h)) //;
      intros ? p Hp%list_elem_of_lookup_2; apply inserted_old; rw elem_of_cons elem_of_app; tauto. }
  split; [done|]. rw Heq. apply sorted_insert.
  - rw -fmap_app. apply (wf_sorted _ _ Hwf).
  - intros x (p & -> & Hp)%list_elem_of_fmap. by apply Hlt.
  - intros x (p & -> & Hp)%list_elem_of_fmap. by apply Hgt.
Qed.

Lemma inserted_chain i :
  i < skipListMaxLevel -> chain (nextAt h' i) (nextAt h' i shead) (at_level h' i (l1 ++ f :: l2)).
Proof.
  intros Hi32. rw inserted_at_level. pose proof (wf_chain _ _ Hwf i Hi32) as Hc. fold h in Hc.
  assert (forall p, p ∈ shead :: at_level h i (l1 ++ l2) -> p <> f) as Hnf.
  { intros p Hp. apply inserted_ne. rw elem_of_cons. rw elem_of_cons elem_of_at_level in Hp. tauto. }
  rw at_level_app in Hc Hnf. destruct (decide (i < lvl)) as [Hil|Hil].
  - eapply chain_insert; [exact Hc| |by apply (ins_next_f _ _ _ _ _ _ _ Hi)|by apply (ins_next_pred _ _ _ _ _ _ _ Hi)|].
    + rw -at_level_app. pose proof (wf_nodup _ _ Hwf) as Hnd. apply NoDup_cons in Hnd as [Hn0 Hnd].
      apply NoDup_cons; split; [|by apply NoDup_filter].
      intros Hin. by apply elem_of_at_level in Hin as [_ ?].
    + intros p Hp Hne. apply (ins_next_ne _ _ _ _ _ _ _ Hi); [|done]. by apply Hnf.
  - simpl. apply chain_ext with (next := nextAt h i).
    + intros p Hp. apply (ins_next_ne _ _ _ _ _ _ _ Hi); [|done]. apply Hnf. by apply elem_of_cons; right.
    + rw (ins_next_ne _ _ _ _ _ _ _ Hi) //. apply Hnf. by apply elem_of_cons; left.
Qed.

Lemma inserted_back : 1 <= lvl <= skipListMaxLevel -> back (bwd h') None (l1 ++ f :: l2).
Proof.
  intros Hlvl. pose proof (wf_back _ _ Hwf) as Hb. fold h in Hb. apply back_app in Hb as [Hb1 Hb2].
  pose proof (wf_nodup _ _ Hwf) as Hnd. apply NoDup_cons in Hnd as [H0 Hnd].
  assert (forall l, (forall p, p ∈ l -> p ∈ l1 ++ l2) -> at_level h 0 l = l) as Hall.
  { intros l Hl. apply at_level_all. intros p Hp. pose proof (wf_height _ _ Hwf p (Hl p Hp)). unfold h. lia. }
  assert (pred h l1 0 = last_from shead l1) as Hp.
  { unfold pred. rw Hall //. intros p. rw elem_of_app. tauto. }
  assert (nextAt h 0 (pred h l1 0) = head l2) as Hnx.
  { unfold h. rw (next_pred sl (l1 ++ l2) l1 l2) //; [unfold skipListMaxLevel; lia|]. fold h. rw Hall //.
    intros p. rw elem_of_app. tauto. }
  assert (forall p, p ∈ l1 ++ l2 -> head l2 <> Some p -> bwd h' p = bwd h p) as Hsame.
  { intros p Hpi Hne. apply (ins_back_ne _ _ _ _ _ _ _ Hi); [|by rw Hnx].
    apply inserted_ne. by apply elem_of_cons; right. }
  apply back_app; split; [|split].
  - eapply back_ext; [|done]. intros p Hpi. apply Hsame; [rw elem_of_app; tauto|].
    intros Hh. apply head_Some_elem_of in Hh. apply NoDup_app in Hnd as (_ & Hd & _). by eapply Hd.
  - rw (ins_back_f _ _ _ _ _ _ _ Hi) Hp. unfold last_from. destruct (last l1) as [q|] eqn:Hq; simpl; [|done].
    rw decide_False //. intros ->. apply H0. rw elem_of_app. left. by apply last_Some_elem_of.
  - destruct l2 as [|z l2']; [done|]. destruct Hb2 as [_ Hb2]. split.
    + eapply (ins_back_next _ _ _ _ _ _ _ Hi); [done|].
      pose proof (wf_height _ _ Hwf z). unfold h. rw elem_of_app elem_of_cons in H. lia.
    + eapply back_ext; [|done]. intros p Hpi. apply Hsame; [rw elem_of_app elem_of_cons; tauto|].
      simpl. intros [= ->]. apply NoDup_app in Hnd as (_ & _ & Hnd).
      by apply NoDup_cons in Hnd as [? _].
Qed.

Lemma inserted_wf :
  IsNaN s = false -> 1 <= lvl <= skipListMaxLevel ->
  (forall p, p ∈ l1 -> mltp (skey h p) (s, m)) -> (forall p, p ∈ l2 -> mltp (s, m) (skey h p)) ->
  skip_wf (mkSkipList h' (S f) (Nat.max (level sl) lvl) (S (slength sl))) (l1 ++ f :: l2).
Proof.
  intros Hs Hlvl Hlt Hgt. split; simpl.
  - apply inserted_nodup.
  - intros p Hp. rw elem_of_cons in Hp. pose proof (wf_fresh _ _ Hwf p) as Hfr. fold f in Hfr. rw elem_of_cons in Hfr.
    destruct Hp as [Hp|Hp]; [|apply inserted_cases in Hp as [->|Hp]]; [|lia|];
    specialize (Hfr ltac:(tauto)); lia.
  - destruct (inserted_old shead) as [-> _]; [by apply elem_of_cons; left|]. apply (wf_head _ _ Hwf).
  - intros p [->|Hp]%inserted_cases; [rw (ins_height _ _ _ _ _ _ _ Hi); lia|].
    destruct (inserted_old p) as [-> _]; [by apply elem_of_cons; right|].
    pose proof (wf_height _ _ Hwf p Hp) as Hh. fold h in Hh. lia.
  - pose proof (wf_level _ _ Hwf). lia.
  - rw inserted_at_level. destruct (Nat.max_spec (level sl) lvl) as [[? ->]|[? ->]].
    + right. rw decide_True; [lia|]. by destruct (at_level h (lvl - 1) l1).
    + destruct (wf_tight _ _ Hwf) as [|Ht]; [by left|]. right. rw at_level_app in Ht. fold h in Ht.
      intros Hnil. apply Ht. apply app_eq_nil in Hnil as [-> Hnil]. by apply app_eq_nil in Hnil as [_ ->].
  - intros p [->|Hp]%inserted_cases; [by rw (ins_key _ _ _ _ _ _ _ Hi)|].
    destruct (inserted_old p) as [_ ->]; [by apply elem_of_cons; right|]. by apply (wf_nan _ _ Hwf).
  - by apply inserted_sorted.
  - apply inserted_chain.
  - by apply inserted_back.
  - rw (wf_len _ _ Hwf) !length_app /=. lia.
Qed.
End inserted.

(** ** The sequence of a list, and [Insert] on it *)

Lemma skip_walk_chain h ls x fuel :
  chain (nextAt h 0) x ls -> length ls <= fuel -> skip_walk fuel h x = skey h <$> ls.
Proof.
  revert x fuel; induction ls as [|p ls IH]; intros x fuel; simpl.
  - intros -> _. by destruct fuel.
  - intros [-> Hc] Hf. destruct fuel as [|fuel]; [lia|]. simpl. f_equal. apply IH; [done|lia].
Qed.

Lemma wf_chain0 sl ls :
  skip_wf sl ls -> chain (nextAt (snodes sl) 0) (nextAt (snodes sl) 0 shead) ls.
Proof.
  intros Hwf. pose proof (wf_chain _ _ Hwf 0 ltac:(unfold skipListMaxLevel; lia)) as Hc.
  rw at_level_all // in Hc. intros p Hp. pose proof (wf_height _ _ Hwf p Hp). lia.
Qed.

Lemma elements_wf sl ls : skip_wf sl ls -> elements sl = skey (snodes sl) <$> ls.
Proof.
  intros Hwf. apply skip_walk_chain; [by apply wf_chain0|]. by rw (wf_len _ _ Hwf).
Qed.

(** Well-formedness without naming the nodes. *)
Definition skip_ok (sl : SkipList) : Prop := exists ls, skip_wf sl ls.

Lemma skip_ok_sorted sl : skip_ok sl -> StronglySorted mltp (elements sl).
Proof. intros [ls Hwf]. rw (elements_wf _ _ Hwf). apply (wf_sorted _ _ Hwf). Qed.

Lemma skip_ok_length sl : skip_ok sl -> slength sl = length (elements sl).
Proof. intros [ls Hwf]. rw (elements_wf _ _ Hwf) length_fmap. apply (wf_len _ _ Hwf). Qed.

Lemma skip_ok_nan sl s m : skip_ok sl -> (s, m) ∈ elements sl -> IsNaN s = false.
Proof.
  intros [ls Hwf]. rw (elements_wf _ _ Hwf). intros (p & Heq & Hp)%list_elem_of_fmap.
  pose proof (wf_nan _ _ Hwf p Hp) as Hn. by rw -Heq in Hn.
Qed.

(** The reference operations on sorted sequences. *)
Fixpoint zinsert (k : float64 * string) (l : list (float64 * string)) : list (float64 * string) :=
  match l with
  | [] => [k]
  | x :: l' => if mlt x.1 x.2 k.1 k.2 then x :: zinsert k l' else k :: l
  end.
Definition same_item (x k : float64 * string) : bool := feqb x.1 k.1 && bool_decide (x.2 = k.2).
Fixpoint zremove (k : float64 * string) (l : list (float64 * string)) : list (float64 * string) :=
  match l with
  | [] => []
  | x :: l' => if same_item x k then l' else x :: zremove k l'
  end.

Lemma mlt_mltp_pair (x k : float64 * string) :
  IsNaN x.1 = false -> IsNaN k.1 = false -> mlt x.1 x.2 k.1 k.2 = true <-> mltp x k.
Proof. destruct x, k. apply mlt_mltp. Qed.

Lemma same_item_key x k :
  IsNaN x.1 = false -> IsNaN k.1 = false -> same_item x k = true <-> fkey x.1 = fkey k.1 /\ x.2 = k.2.
Proof. intros. unfold same_item. by rw andb_true_iff feqb_fkey // bool_decide_eq_true. Qed.

Lemma zinsert_split k l1 l2 :
  IsNaN k.1 = false -> (forall x, x ∈ l1 ++ l2 -> IsNaN x.1 = false) ->
  (forall x, x ∈ l1 -> mltp x k) -> (forall x, x ∈ l2 -> ~ mltp x k) ->
  zinsert k (l1 ++ l2) = l1 ++ k :: l2.
Proof.
  intros Hk Hn H1 H2. induction l1 as [|x l1 IH]; simpl.
  - destruct l2 as [|y l2]; [done|]. simpl. destruct (mlt _ _ _ _) eqn:Hm; [|done].
    apply mlt_mltp_pair in Hm; [|set_solver..]. set_solver.
  - assert (mlt x.1 x.2 k.1 k.2 = true) as -> by (apply mlt_mltp_pair; set_solver).
    f_equal. apply IH; set_solver.
Qed.

(** [Insert] of an item that is not in the list succeeds at every level the
    coin tosses may choose and puts the item at its sorted position. *)
Lemma Insert_spec sl lvl s m :
  skip_ok sl -> IsNaN s = false -> 1 <= lvl <= skipListMaxLevel ->
  (forall x, x ∈ elements sl -> same_item x (s, m) = false) ->
  exists sl', Insert sl lvl s m = Some sl' /\ skip_ok sl' /\ elements sl' = zinsert (s, m) (elements sl).
Proof.
  intros [ls Hwf] Hs Hlvl Hnew. pose proof (elements_wf _ _ Hwf) as Hel. rw Hel in Hnew.
  destruct (sorted_split (skey (snodes sl)) (s, m) ls (wf_sorted _ _ Hwf)) as (l1 & l2 & -> & Hlt & Hge).
  assert (forall p, p ∈ l2 -> mltp (s, m) (skey (snodes sl) p)) as Hgt.
  { intros p Hp. destruct (mltp_total (skey (snodes sl) p) (s, m)) as [?|[Heq|?]]; [naive_solver| |done].
    assert (p ∈ l1 ++ l2) as Hin by (rw elem_of_app; tauto).
    specialize (Hnew (skey (snodes sl) p) ltac:(by apply list_elem_of_fmap_2)).
    apply same_item_key in Heq; [congruence|by apply (wf_nan _ _ Hwf)|done]. }
  destruct (Insert_heap sl _ l1 l2 s m lvl Hwf eq_refl Hs Hlt Hge Hlvl) as (h' & HI & Hins).
  pose proof (inserted_wf sl l1 l2 h' s m lvl Hwf Hins Hs Hlvl Hlt Hgt) as Hwf'.
  eexists; split; [exact HI|]. split; [by eexists|].
  rw (elements_wf _ _ Hwf') Hel /=.
  destruct (inserted_sorted sl l1 l2 h' s m lvl Hwf Hins Hlt Hgt) as [-> _].
  rw fmap_app zinsert_split //.
  - intros x Hx. rw -fmap_app in Hx. apply list_elem_of_fmap in Hx as (p & -> & Hp).
    by apply (wf_nan _ _ Hwf).
  - intros x (p & -> & Hp)%list_elem_of_fmap. by apply Hlt.
  - intros x (p & -> & Hp)%list_elem_of_fmap. by apply Hge.
Qed.

Lemma randomLevel_bounds coins : 1 <= randomLevel coins <= skipListMaxLevel.
Proof.
  unfold randomLevel. assert (forall n lvl k, lvl <= randomLevel_from n coins lvl k <= lvl + n) as H.
  { induction n as [|n IH]; intros lvl k; simpl; [lia|]. destruct (coins k); [|lia].
    specialize (IH (S lvl) (S k)). lia. }
  specialize (H (skipListMaxLevel - 1) 1 0). unfold skipListMaxLevel in *. lia.
Qed.

Lemma NewSkipList_ok : skip_ok NewSkipList /\ elements NewSkipList = [].
Proof.
  split; [|done]. exists []. split; try done; try by intros ?; rw elem_of_nil.
  - apply NoDup_singleton.
  - intros p. rw elem_of_cons elem_of_nil. simpl. unfold shead. lia.
  - simpl. unfold skipListMaxLevel. lia.
  - by left.
  - constructor.
  - intros i Hi. unfold nextAt, fwd, NewSkipList. cbn [snodes]. rw lookup_singleton_eq.
    cbn [mbind option_bind forward]. by rw lookup_replicate_2.
Qed.

(** ** Delete *)

(** The heap [Delete] produces, field by field, when it unlinks [y]. *)
Record deleted (h h' : gmap nat SkipNode) (l1 : list nat) (y : nat) : Prop := {
  del_same : forall p, height h' p = height h p /\ skey h' p = skey h p;
  del_next_pred : forall i, i < height h y -> nextAt h' i (pred h l1 i) = nextAt h i y;
  del_next_ne : forall i p, (i < height h y -> p <> pred h l1 i) -> nextAt h' i p = nextAt h i p;
  del_back_next : forall z, nextAt h 0 y = Some z -> 0 < height h z -> bwd h' z = bwd h y;
  del_back_ne : forall p, nextAt h 0 y <> Some p -> bwd h' p = bwd h p
}.

Lemma unlink_heap sl l1 y l2 :
  skip_wf sl (l1 ++ y :: l2) ->
  let h := snodes sl in
  exists h1, unlinkLevels h (pred h l1 <$> seq 0 (level sl)) y 0 (level sl) = Some h1 /\
    same_nodes h h1 /\
    forall j p, nextAt h1 j p =
      if decide (j < height h y /\ p = pred h l1 j) then nextAt h j y else nextAt h j p.
Proof.
  intros Hwf h. pose proof (wf_level _ _ Hwf) as Hlev.
  pose proof (wf_nodup _ _ Hwf) as Hnd. rw app_comm_cons in Hnd.
  pose proof (wf_height _ _ Hwf y ltac:(set_solver)) as Hhy. fold h in Hhy.
  destruct (unlinkLevels_spec (pred h l1 <$> seq 0 (level sl)) (pred h l1) y (level sl) 0 h)
    as (h1 & Hul & Hsn & Hn1).
  - intros j Hj. split_and!.
    + rw list_lookup_fmap. by rw (lookup_seq_lt 0 (level sl) j ltac:(lia)).
    + intros Heq. pose proof (pred_elem h l1 j) as Hin. rw Heq in Hin.
      apply NoDup_app in Hnd as (_ & Hd & _). apply (Hd y Hin). set_solver.
    + apply (pred_height _ _ _ _ Hwf). lia.
    + unfold h. rw (next_pred sl (l1 ++ y :: l2) l1 (y :: l2)) //; [lia|]. fold h. rw at_level_cons. case_decide as Hj'; simpl; [done|].
      split; [|done]. intros Hin%head_Some_elem_of%elem_of_at_level. tauto.
  - exists h1. split; [done|]. split; [done|]. intros j p. rw Hn1.
    apply decide_ext. lia.
Qed.

Lemma shrink_spec h n :
  1 <= n -> n <= height h shead ->
  exists n', shrink h n = Some n' /\ 1 <= n' <= n /\
    (n' = 1 \/ nextAt h (n' - 1) shead <> None) /\
    (forall i, n' <= i < n -> nextAt h i shead = None).
Proof.
  induction n as [|[|n] IH]; [lia| |]; intros H1 Hh.
  - exists 1. split_and!; [done|lia|lia|by left|intros; lia].
  - change (shrink h (S (S n))) with
      (f ← fwd h shead (S n); match f with None => shrink h (S n) | Some _ => Some (S (S n)) end).
    rw fwd_nextAt; [lia|]. cbn [mbind option_bind].
    destruct (nextAt h (S n) shead) as [z|] eqn:Hz.
    + exists (S (S n)). split_and!; [done|lia|lia| |intros; lia]. right. simpl. congruence.
    + destruct IH as (n' & Hn' & Hb & Ht & Ha); [lia..|]. exists n'.
      split_and!; [done|lia|lia|done|]. intros i Hi.
      destruct (decide (i = S n)) as [->|]; [done|]. apply Ha. lia.
Qed.

Section deleted.
Context (sl : SkipList) (l1 : list nat) (y : nat) (l2 : list nat) (h' : gmap nat SkipNode).
Let h := snodes sl.
Context (Hwf : skip_wf sl (l1 ++ y :: l2)) (Hd : deleted h h' l1 y).

Lemma deleted_in p : p ∈ l1 ++ l2 -> p ∈ l1 ++ y :: l2.
Proof. rw !elem_of_app elem_of_cons. tauto. Qed.

Lemma deleted_at_level i : at_level h' i (l1 ++ l2) = at_level h i l1 ++ at_level h i l2.
Proof. rw at_level_app. f_equal; apply at_level_ext; intros; apply (del_same _ _ _ _ Hd). Qed.

Lemma deleted_chain i :
  i < skipListMaxLevel -> chain (nextAt h' i) (nextAt h' i shead) (at_level h' i (l1 ++ l2)).
Proof.
  intros Hi. rw deleted_at_level. pose proof (wf_chain _ _ Hwf i Hi) as Hc. fold h in Hc.
  pose proof (wf_nodup _ _ Hwf) as Hnd. apply NoDup_cons in Hnd as [Hn0 Hnd].
  rw at_level_app at_level_cons in Hc. destruct (decide (i < height h y)) as [Hil|Hil].
  - eapply chain_delete; [exact Hc| |by apply (del_next_pred _ _ _ _ Hd)|].
    + assert (at_level h i l1 ++ y :: at_level h i l2 = at_level h i (l1 ++ y :: l2)) as ->.
      { rw at_level_app at_level_cons. by rw decide_True. }
      apply NoDup_cons; split; [|by apply NoDup_filter].
      intros Hin. by apply elem_of_at_level in Hin as [_ ?].
    + intros p Hp Hne. by apply (del_next_ne _ _ _ _ Hd).
  - simpl in *. rw (del_next_ne _ _ _ _ Hd) //.
    eapply chain_ext; [|exact Hc]. intros p Hp. by apply (del_next_ne _ _ _ _ Hd).
Qed.

Lemma deleted_back : back (bwd h') None (l1 ++ l2).
Proof.
  pose proof (wf_back _ _ Hwf) as Hb. fold h in Hb. apply back_app in Hb as [Hb1 [Hby Hb2]].
  pose proof (wf_nodup _ _ Hwf) as Hnd. apply NoDup_cons in Hnd as [H0 Hnd].
  pose proof (wf_chain0 _ _ Hwf) as Hc. fold h in Hc. apply chain_after in Hc as [_ Hc]. apply chain_head in Hc.
  apply NoDup_app in Hnd as (_ & Hdis & Hnd). apply NoDup_cons in Hnd as [Hny Hnd].
  apply back_app; split.
  - eapply back_ext; [|done]. intros p Hp. apply (del_back_ne _ _ _ _ Hd). rw Hc.
    intros Hh%head_Some_elem_of. apply (Hdis p Hp). rw elem_of_cons. tauto.
  - destruct l2 as [|z l2']; [done|]. destruct Hb2 as [Hbz Hb2]. split.
    + rw (del_back_next _ _ _ _ Hd z Hc) //. pose proof (wf_height _ _ Hwf z) as Hz. fold h in Hz.
      rw elem_of_app !elem_of_cons in Hz. specialize (Hz ltac:(tauto)). lia.
    + eapply back_ext; [|done]. intros p Hp. apply (del_back_ne _ _ _ _ Hd). rw Hc. simpl.
      intros [= ->]. by apply NoDup_cons in Hnd as [? _].
Qed.

Lemma deleted_wf lev :
  1 <= lev <= level sl -> (lev = 1 \/ nextAt h' (lev - 1) shead <> None) ->
  (forall i, lev <= i < level sl -> nextAt h' i shead = None) ->
  skip_wf (mkSkipList h' (sfresh sl) lev (slength sl - 1)) (l1 ++ l2).
Proof.
  intros Hlev Ht Hz. pose proof (wf_level _ _ Hwf) as Hl.
  pose proof (wf_nodup _ _ Hwf) as Hnd. apply NoDup_cons in Hnd as [H0 Hnd].
  split; simpl.
  - apply NoDup_cons; split; [intros Hin%deleted_in; done|].
    rw -Permutation_middle in Hnd. by apply NoDup_cons in Hnd as [_ ?].
  - intros p Hp. apply (wf_fresh _ _ Hwf). rw elem_of_cons. rw elem_of_cons in Hp.
    destruct Hp as [?|Hp%deleted_in]; tauto.
  - destruct (del_same _ _ _ _ Hd shead) as [-> _]. apply (wf_head _ _ Hwf).
  - intros p Hp. destruct (del_same _ _ _ _ Hd p) as [Hsh _].
    pose proof (wf_height _ _ Hwf p (deleted_in _ Hp)) as Hh. fold h in Hh. split; [lia|].
    apply Nat.nlt_ge. intros Hlt.
    assert (p ∈ at_level h' (height h' p - 1) (l1 ++ l2)) as Hin by (apply elem_of_at_level; split; [lia|done]).
    pose proof (deleted_chain (height h' p - 1) ltac:(lia)) as Hc. rw Hz in Hc; [lia|].
    apply chain_head in Hc. destruct (at_level h' _ _); [|done]. by apply elem_of_nil in Hin.
  - lia.
  - destruct Ht as [?|Ht]; [by left|]. right.
    pose proof (deleted_chain (lev - 1) ltac:(lia)) as Hc. apply chain_head in Hc.
    intros Hnil. rw Hnil in Hc. done.
  - intros p Hp. destruct (del_same _ _ _ _ Hd p) as [_ ->]. by apply (wf_nan _ _ Hwf), deleted_in.
  - rw (list_fmap_ext (skey h') (skey h)); [intros; apply (del_same _ _ _ _ Hd)|].
    pose proof (wf_sorted _ _ Hwf) as Hs. fold h in Hs. rw fmap_app fmap_cons in Hs. rw fmap_app.
    induction (skey h <$> l1) as [|k ks IH]; simpl in *.
    + by apply StronglySorted_inv in Hs as [? _].
    + apply StronglySorted_inv in Hs as [Hs Hk]. constructor; [by apply IH|].
      rw Forall_app Forall_cons in Hk. rw Forall_app. tauto.
  - apply deleted_chain.
  - apply deleted_back.
  - rw (wf_len _ _ Hwf) !length_app /=. lia.
Qed.
End deleted.

Lemma zremove_split k l1 x l2 :
  (forall x, x ∈ l1 -> same_item x k = false) -> same_item x k = true -> zremove k (l1 ++ x :: l2) = l1 ++ l2.
Proof.
  intros H1 Hx. induction l1 as [|z l1 IH]; simpl; [by rw Hx|].
  rw (H1 z); [set_solver|]. f_equal. apply IH. set_solver.
Qed.

Lemma zremove_none k l : (forall x, x ∈ l -> same_item x k = false) -> zremove k l = l.
Proof.
  intros H. induction l as [|z l IH]; simpl; [done|]. rw (H z); [set_solver|]. f_equal. apply IH. set_solver.
Qed.

Lemma mltp_not_same x k :
  IsNaN x.1 = false -> IsNaN k.1 = false -> mltp x k \/ mltp k x -> same_item x k = false.
Proof.
  intros Hx Hk Hlt. apply not_true_iff_false. rw same_item_key //.
  unfold mltp in Hlt. intros [E1 E2]. rw !E1 !E2 in Hlt.
  destruct Hlt as [[H|[_ H]]|[H|[_ H]]]; by (apply klt_irrefl in H || apply H).
Qed.

(** What a search tells [Delete] about the item. *)
Lemma same_item_split sl l1 l2 s m :
  skip_wf sl (l1 ++ l2) -> IsNaN s = false ->
  (forall p, p ∈ l1 -> mltp (skey (snodes sl) p) (s, m)) ->
  (forall p, p ∈ l2 -> ~ mltp (skey (snodes sl) p) (s, m)) ->
  (forall x, x ∈ skey (snodes sl) <$> l1 -> same_item x (s, m) = false) /\
  (forall y l2', l2 = y :: l2' -> forall x, x ∈ skey (snodes sl) <$> l2' -> same_item x (s, m) = false).
Proof.
  intros Hwf Hs Hlt Hge. split.
  - intros x (p & -> & Hp)%list_elem_of_fmap. apply mltp_not_same; [|done|left; by apply Hlt].
    apply (wf_nan _ _ Hwf). rw elem_of_app; tauto.
  - intros y l2' -> x (p & -> & Hp)%list_elem_of_fmap.
    apply mltp_not_same; [apply (wf_nan _ _ Hwf); rw elem_of_app elem_of_cons; tauto|done|].
    right. pose proof (wf_sorted _ _ Hwf) as Hso. rw fmap_app in Hso. apply StronglySorted_app in Hso as (_ & _ & Hso).
    simpl in Hso. apply StronglySorted_inv in Hso as [_ Hy]. rw Forall_forall in Hy.
    specialize (Hy _ (list_elem_of_fmap_2 _ _ _ Hp)).
    destruct (mltp_total (skey (snodes sl) y) (s, m)) as [H|[[E1 E2]|H]].
    + by apply Hge in H; [|rw elem_of_cons; tauto].
    + unfold mltp in *. simpl in *. by rw -E1 -E2.
    + by trans (skey (snodes sl) y).
Qed.

Lemma not_same_existsb k l :
  (forall x, x ∈ l -> same_item x k = false) -> existsb (fun x => same_item x k) l = false.
Proof.
  intros Hl. apply not_true_iff_false. rw existsb_exists. intros (x & Hx & Hsame).
  rw Hl // in Hsame. by apply list_elem_of_In.
Qed.

(** The part of [Delete] after the item was found at [y]. *)
Lemma Delete_unlink sl l1 y l2 n :
  skip_wf sl (l1 ++ y :: l2) -> snodes sl !! y = Some n ->
  exists h' lev,
    (h ← unlinkLevels (snodes sl) (pred (snodes sl) l1 <$> seq 0 (level sl)) y 0 (level sl);
     f0 ← fwd h y 0;
     let h := match f0 with Some z => setBackward h z (backward n) | None => h end in
     lev ← shrink h (level sl);
     Some (mkSkipList h (sfresh sl) lev (slength sl - 1), true)) =
    Some (mkSkipList h' (sfresh sl) lev (slength sl - 1), true) /\
    skip_wf (mkSkipList h' (sfresh sl) lev (slength sl - 1)) (l1 ++ l2) /\
    (forall p, skey h' p = skey (snodes sl) p).
Proof.
  intros Hwf Hy. set (h := snodes sl) in *. pose proof (wf_level _ _ Hwf) as Hlev.
  destruct (unlink_heap sl l1 y l2 Hwf) as (h1 & Hul & Hsn & Hn1). fold h in Hul, Hsn, Hn1.
  rw Hul. cbn [mbind option_bind].
  assert (0 < height h y) as Hhy.
  { pose proof (wf_height _ _ Hwf y) as Hh. rw elem_of_app elem_of_cons in Hh. specialize (Hh ltac:(tauto)). unfold h; lia. }
  assert (forall i, nextAt h1 i y = nextAt h i y) as Hny.
  { intros i. rw Hn1. by case_decide. }
  rw fwd_nextAt; [by destruct (Hsn y) as [-> _]|]. cbn [mbind option_bind]. rw Hny.
  assert (bwd h y = backward n) as Hby by (unfold bwd; by rw Hy).
  set (h2 := match nextAt h 0 y with Some z => setBackward h1 z (backward n) | None => h1 end).
  assert ((forall i p, nextAt h2 i p = nextAt h1 i p) /\ (forall p, height h2 p = height h1 p) /\
    (forall p, skey h2 p = skey h1 p) /\
    (forall z, nextAt h 0 y = Some z -> 0 < height h1 z -> bwd h2 z = backward n) /\
    (forall p, nextAt h 0 y <> Some p -> bwd h2 p = bwd h1 p)) as (Hn2 & Hh2 & Hk2 & Hb2 & Hb2').
  { unfold h2. destruct (nextAt h 0 y) as [z|]; [|done].
    destruct (setBackward_spec h1 z (backward n)) as (? & ? & ? & ? & ?).
    split_and!; [done..| |]; [by intros ? [= ->]|]. intros p Hp. naive_solver. }
  assert (deleted h h2 l1 y) as Hd.
  { split.
    - intros p. rw Hh2 Hk2. by destruct (Hsn p) as (-> & -> & _).
    - intros i Hi. rw Hn2 Hn1. by rw decide_True.
    - intros i p Hp. rw Hn2 Hn1. rw decide_False //. naive_solver.
    - intros z Hz Hh. rw Hb2 //. by destruct (Hsn z) as [-> _].
    - intros p Hp. rw Hb2' //. by destruct (Hsn p) as (_ & _ & ->). }
  destruct (shrink_spec h2 (level sl)) as (lev & Hs & Hle & Ht & Ha); [lia| |].
  { rw Hh2. destruct (Hsn shead) as [-> _]. unfold h. rw (wf_head _ _ Hwf). lia. }
  rw Hs. cbn [mbind option_bind]. exists h2, lev. split; [done|]. split.
  - by apply (deleted_wf sl l1 y l2 h2).
  - intros p. apply (del_same _ _ _ _ Hd).
Qed.

(** [Delete] never panics; it removes the item when it is present and leaves
    the list alone when it is not, and its result says which. *)
Lemma Delete_spec sl s m :
  skip_ok sl -> IsNaN s = false ->
  exists sl', Delete sl s m = Some (sl', existsb (fun x => same_item x (s, m)) (elements sl)) /\
    skip_ok sl' /\ elements sl' = zremove (s, m) (elements sl).
Proof.
  intros [ls Hwf] Hs. pose proof (elements_wf _ _ Hwf) as Hel. rw Hel.
  destruct (sorted_split (skey (snodes sl)) (s, m) ls (wf_sorted _ _ Hwf)) as (l1 & l2 & -> & Hlt & Hge).
  destruct (same_item_split sl l1 l2 s m Hwf Hs Hlt Hge) as [Hn1 Hn2].
  pose proof (not_same_existsb _ _ Hn1) as He1.
  pose proof (wf_level _ _ Hwf) as Hlev.
  destruct (search_spec sl _ l1 l2 s m Hwf eq_refl Hs Hlt Hge (level sl) shead (S (slength sl)))
    as (xf & up & Hsr & Hup & Hxf); [lia|set_solver|rw (wf_head _ _ Hwf); lia|rw (wf_len _ _ Hwf); lia|].
  unfold Delete. rw Hsr. cbn [mbind option_bind]. rw Hxf; [lia|].
  assert (0 < skipListMaxLevel) as H0 by (unfold skipListMaxLevel; lia).
  rw fwd_nextAt; [by apply (pred_height _ _ _ _ Hwf)|]. cbn [mbind option_bind].
  rw (next_pred sl (l1 ++ l2) l1 l2) //.
  assert (forall p, p ∈ l2 -> 0 < height (snodes sl) p) as Hh2.
  { intros p Hp. pose proof (wf_height _ _ Hwf p) as Hh. rw elem_of_app in Hh. specialize (Hh (or_intror Hp)). lia. }
  rw at_level_all //. destruct l2 as [|y l2]; cbn [head].
  { exists sl. rw fmap_app existsb_app He1. split; [done|]. split; [by eexists|].
    rw zremove_none; [rw app_nil_r; exact Hn1|]. by rw Hel fmap_app. }
  specialize (Hn2 y l2 eq_refl).
  destruct (height_lookup _ _ (Hh2 y ltac:(set_solver))) as (n & Hy & Hky). rw Hy. cbn [mbind option_bind].
  assert (negb (feqb (Score n) s) || bool_decide (Member n <> m) = negb (same_item (skey (snodes sl) y) (s, m))) as ->.
  { rw Hky. unfold same_item. simpl. rw negb_andb bool_decide_not. done. }
  rw fmap_app fmap_cons existsb_app He1 /= (not_same_existsb _ _ Hn2) orb_false_r.
  destruct (same_item (skey (snodes sl) y) (s, m)) eqn:Hsame; simpl negb; cbn iota; last first.
  { exists sl. split; [done|]. split; [by eexists|]. rw zremove_none; [|by rw Hel fmap_app].
    intros x. rw elem_of_app elem_of_cons. intros [?|[->|?]]; eauto. }
  rw zremove_split // Hup.
  destruct (Delete_unlink sl l1 y l2 n Hwf Hy) as (h' & lev & HD & Hwf' & Hk). rw HD.
  eexists; split; [done|]. split; [by eexists|]. rw (elements_wf _ _ Hwf') /= fmap_app.
  f_equal; apply list_fmap_ext; intros; apply Hk.
Qed.

Lemma zinsert_perm k l : zinsert k l ≡ₚ k :: l.
Proof.
  induction l as [|x l IH]; simpl; [done|]. destruct (mlt _ _ _ _); [|done].
  rw IH. constructor.
Qed.

Lemma zremove_perm k l :
  existsb (fun x => same_item x k) l = true -> exists x, same_item x k = true /\ l ≡ₚ x :: zremove k l.
Proof.
  induction l as [|x l IH]; simpl; [done|]. destruct (same_item x k) eqn:Hx; [eauto|].
  intros (y & Hy & Hp)%IH. exists y. split; [done|]. rw {1}Hp. constructor.
Qed.

(** ** Range *)

(** The slice Redis-style indices denote: negative ones count from the end,
    and both are clamped. *)
Definition zrange {A} (start stop : Z) (l : list A) : list A :=
  let n := Z.of_nat (length l) in
  let start := if (start <? 0)%Z then Z.max 0 (start + n) else start in
  let stop := Z.min (if (stop <? 0)%Z then (stop + n)%Z else stop) (n - 1) in
  if (stop <? start)%Z then [] else take (Z.to_nat (stop - start + 1)) (drop (Z.to_nat start) l).

(** A whole range. *)
Lemma zrange_full {A} (l : list A) : zrange 0 (-1) l = l.
Proof.
  unfold zrange. cbn [Z.ltb Z.compare]. rw drop_0. destruct (Z.ltb_spec (Z.min (-1 + Z.of_nat (length l)) (Z.of_nat (length l) - 1)) 0).
  - destruct l; [done|]. simpl length in *. lia.
  - apply take_ge. lia.
Qed.

Lemma seek_spec h ls x n :
  chain (nextAt h 0) (nextAt h 0 x) ls -> (forall p, p ∈ x :: ls -> 0 < height h p) ->
  seek h n x = Some ((x :: ls) !! n).
Proof.
  revert ls x; induction n as [|n IH]; intros ls x Hc Hh; simpl; [done|].
  rw fwd_nextAt; [set_solver|]. destruct ls as [|y ls]; simpl in Hc.
  - by rw Hc.
  - destruct Hc as [-> Hc]. cbn [mbind option_bind]. apply IH; set_solver.
Qed.

Lemma collect_spec h ls x n :
  chain (nextAt h 0) x ls -> (forall p, p ∈ ls -> 0 < height h p) ->
  collect h n x = Some (take n (skey h <$> ls)).
Proof.
  revert ls x; induction n as [|n IH]; intros ls x Hc Hh; [done|].
  destruct ls as [|y ls]; simpl in Hc; [by subst|]. destruct Hc as [-> Hc].
  cbn [collect]. destruct (height_lookup h y) as (nd & Hy & Hk); [set_solver|].
  rw Hy. cbn [mbind option_bind]. rw fwd_nextAt; [set_solver|]. cbn [mbind option_bind].
  rw (IH ls) //; [set_solver|]. by rw /= Hk.
Qed.

(** [Range] never panics and returns the slice of the sequence. *)
Lemma SkipRange_spec sl start stop :
  skip_ok sl -> SkipRange sl start stop = Some (zrange start stop (elements sl)).
Proof.
  intros [ls Hwf]. rw (elements_wf _ _ Hwf). unfold SkipRange, zrange. rw length_fmap -(wf_len _ _ Hwf).
  pose proof (wf_len _ _ Hwf) as Hlen. case_decide as H0.
  { rw H0 in Hlen. symmetry in Hlen. apply nil_length_inv in Hlen as ->.
    rw drop_nil take_nil. by destruct (_ <? _)%Z. }
  set (n := Z.of_nat (slength sl)). cbv zeta.
  set (a := if (start <? 0)%Z then Z.max 0 (start + n) else start).
  set (b := Z.min (if (stop <? 0)%Z then (stop + n)%Z else stop) (n - 1)).
  assert ((if ((if start <? 0 then start + n else start) <? 0)%Z then 0%Z
           else (if (start <? 0)%Z then (start + n)%Z else start)) = a) as ->.
  { unfold a. destruct (Z.ltb_spec start 0); destruct (Z.ltb_spec (start + n) 0); try lia;
      destruct (Z.ltb_spec start 0); lia. }
  assert ((if (n <=? (if stop <? 0 then stop + n else stop))%Z then (n - 1)%Z
           else (if (stop <? 0)%Z then (stop + n)%Z else stop)) = b) as ->.
  { unfold b. destruct (stop <? 0)%Z; destruct (Z.leb_spec n (stop + n)), (Z.leb_spec n stop); lia. }
  assert (0 <= a)%Z as Ha by (unfold a; destruct (Z.ltb_spec start 0); lia).
  assert (b < n)%Z as Hb by (unfold b; lia).
  destruct (Z.ltb_spec b a) as [|Hab]; [done|].
  pose proof (wf_chain0 _ _ Hwf) as Hc.
  assert (forall p, p ∈ shead :: ls -> 0 < height (snodes sl) p) as Hh.
  { intros p. rw elem_of_cons. intros [->|Hp]; [rw (wf_head _ _ Hwf); unfold skipListMaxLevel; lia|].
    pose proof (wf_height _ _ Hwf p Hp). lia. }
  rw (seek_spec _ ls) //. cbn [mbind option_bind].
  assert (Z.to_nat (a + 1) = S (Z.to_nat a)) as -> by lia. cbn [lookup list_lookup].
  destruct (lookup_lt_is_Some_2 ls (Z.to_nat a)) as [p Hp]; [unfold n in *; lia|].
  change (list_lookup (Z.to_nat a) ls) with (ls !! Z.to_nat a). rw Hp.
  pose proof (take_drop_middle _ _ _ Hp) as Hmid. rw -Hmid in Hc.
  rw -fmap_drop (drop_S _ _ _ Hp). apply collect_spec.
  - split; [done|]. rw chain_split in Hc. tauto.
  - intros q Hq. apply Hh. rw elem_of_cons. right. rw -Hmid elem_of_app. tauto.
Qed.

(** C37: The skip list implements a sorted sequence of (score, member) items: on a
    well-formed list no operation panics, [Insert] of a new item with any
    drawn level and [Delete] give well-formed lists with the item added in
    order or removed, and [Range] returns the slice of the sequence. *)
Theorem skiplist_correct sl s m lvl start stop :
  skip_ok sl -> IsNaN s = false -> 1 <= lvl <= skipListMaxLevel ->
  ((forall x, x ∈ elements sl -> same_item x (s, m) = false) ->
    exists sl', Insert sl lvl s m = Some sl' /\ skip_ok sl' /\ elements sl' = zinsert (s, m) (elements sl)) /\
  (exists sl', Delete sl s m = Some (sl', existsb (fun x => same_item x (s, m)) (elements sl)) /\ skip_ok sl' /\
    elements sl' = zremove (s, m) (elements sl)) /\
  SkipRange sl start stop = Some (zrange start stop (elements sl)).
Proof.
  intros Hsl Hs Hl. split_and!; [|by apply Delete_spec|by apply SkipRange_spec]. intros Hnew. by apply Insert_spec.
Qed.

Lemma skiplist_correct_witness :
  ((forall x, x ∈ elements NewSkipList -> same_item x (S754_zero false, "m") = false) ->
    exists sl', Insert NewSkipList 3 (S754_zero false) "m" = Some sl' /\ skip_ok sl' /\
      elements sl' = zinsert (S754_zero false, "m") (elements NewSkipList)) /\
  (exists sl', Delete NewSkipList (S754_zero false) "m" =
      Some (sl', existsb (fun x => same_item x (S754_zero false, "m")) (elements NewSkipList)) /\ skip_ok sl' /\
    elements sl' = zremove (S754_zero false, "m") (elements NewSkipList)) /\
  SkipRange NewSkipList 0 (-1) = Some (zrange 0 (-1) (elements NewSkipList)).
Proof. apply skiplist_correct; [apply NewSkipList_ok|done|unfold skipListMaxLevel; lia]. Defined.
