(* ===== verification/ZSetValue.v ===== *)
(** * Sorted sets: [internal/engine/zset_value.go]

    A sorted set is a member-to-score map next to a skip list.  The theorems
    show that the two stay consistent and that the pair implements a strictly
    sorted sequence of (score, member) pairs with unique members. *)
From S2P Require Import Prelude GoFloat SkipList.
Local Open Scope Z_scope.

Record ZSetValue := mkZSet { zindex : gmap string float64; zlist : SkipList }.

Definition NewZSetValue : ZSetValue := mkZSet ∅ NewSkipList.

(** [Add]; [lvl] is the level the call to [randomLevel] in [Insert] draws.
    [None] is a panic. *)
Definition Add (z : ZSetValue) (lvl : nat) (score : float64) (member : string)
    : option (ZSetValue * bool) :=
  match zindex z !! member with
  | Some oldScore =>
      if feqb oldScore score then Some (z, false)
      else
        '(l, _) ← Delete (zlist z) oldScore member;
        l ← Insert l lvl score member;
        Some (mkZSet (<[member := score]> (zindex z)) l, false)
  | None =>
      l ← Insert (zlist z) lvl score member;
      Some (mkZSet (<[member := score]> (zindex z)) l, true)
  end.

(** The loop [for _, p := range pairs { if zv.Add(p.score, p.member) { added++ } }]
    of [zsetAdd]; [lvls i] is the level drawn for the [i]-th pair. *)
Fixpoint AddAll (z : ZSetValue) (lvls : nat -> nat) (i : nat) (pairs : list (float64 * string))
    (added : Z) : option (ZSetValue * Z) :=
  match pairs with
  | [] => Some (z, added)
  | p :: pairs =>
      '(z, new) ← Add z (lvls i) p.1 p.2;
      AddAll z lvls (S i) pairs (added + Z.b2z new)
  end.

Definition ZRange (z : ZSetValue) (start stop : Z) : option (list (float64 * string)) :=
  SkipRange (zlist z) start stop.
Definition Card (z : ZSetValue) : Z := Z.of_nat (SkipLen (zlist z)).
Definition ZScore (z : ZSetValue) (member : string) : option float64 := zindex z !! member.

Definition zsetEntryOverhead : Z := 80.
Definition zsetEntrySize (key : string) (z : ZSetValue) : Z :=
  map_fold (fun member _ base => u64 (base + (64 + slen member))) (u64 (zsetEntryOverhead + slen key)) (zindex z).

(** ** The sequence a sorted set represents *)

Definition zelems (z : ZSetValue) : list (float64 * string) := elements (zlist z).
Definition zmap (l : list (float64 * string)) : gmap string float64 := list_to_map (prod_swap <$> l).

Record zseq_ok (l : list (float64 * string)) : Prop := {
  zseq_sorted : StronglySorted mltp l;
  zseq_unique : NoDup l.*2;
  zseq_nan : forall x, x ∈ l -> IsNaN x.1 = false
}.

Record zset_ok (z : ZSetValue) : Prop := {
  zset_skip : skip_ok (zlist z);
  zset_seq : zseq_ok (zelems z);
  zset_index : zindex z = zmap (zelems z)
}.

(** The reference operation. *)
Definition zdrop (m : string) (l : list (float64 * string)) : list (float64 * string) :=
  filter (fun x => x.2 <> m) l.
Definition zadd (p : float64 * string) (l : list (float64 * string)) : list (float64 * string) * bool :=
  match zmap l !! p.2 with
  | Some old => if feqb old p.1 then (l, false) else (zinsert p (zdrop p.2 l), false)
  | None => (zinsert p l, true)
  end.
Fixpoint zaddAll (ps l : list (float64 * string)) (added : Z) : list (float64 * string) * Z :=
  match ps with
  | [] => (l, added)
  | p :: ps => let '(l, new) := zadd p l in zaddAll ps l (added + Z.b2z new)
  end.

Section zseq.
Implicit Types (l : list (float64 * string)).

Lemma zmap_Some l m s : NoDup l.*2 -> zmap l !! m = Some s <-> (s, m) ∈ l.
Proof.
  intros Hnd. unfold zmap. rw -elem_of_list_to_map.
  - rw -list_fmap_compose. done.
  - rw list_elem_of_fmap. split.
    + intros ([s' m'] & [= -> ->] & H). done.
    + intros H. by exists (s, m).
Qed.

Lemma zmap_None l m : zmap l !! m = None <-> m ∉ l.*2.
Proof. unfold zmap. rw -not_elem_of_list_to_map -list_fmap_compose. done. Qed.

Lemma zmap_insert l s m : m ∉ l.*2 -> NoDup l.*2 -> zmap (zinsert (s, m) l) = <[m := s]> (zmap l).
Proof.
  intros Hm Hnd. unfold zmap. rw (list_to_map_proper _ (prod_swap <$> (s, m) :: l)); [| |done].
  - rw -list_fmap_compose. change (NoDup (snd <$> zinsert (s, m) l)). rw zinsert_perm /=. by constructor.
  - by rw zinsert_perm.
Qed.

Lemma zdrop_unique l m : NoDup l.*2 -> NoDup (zdrop m l).*2.
Proof. apply NoDup_fmap_filter_key. Qed.

Lemma zmap_drop l m : NoDup l.*2 -> zmap (zdrop m l) = delete m (zmap l).
Proof.
  intros Hnd. apply map_eq. intros k. apply option_eq. intros s.
  rw zmap_Some; [by apply zdrop_unique|].
  unfold zdrop. rw list_elem_of_filter lookup_delete_Some zmap_Some //=. naive_solver.
Qed.

Lemma zdrop_notin l m : m ∉ (zdrop m l).*2.
Proof. unfold zdrop. rw list_elem_of_fmap. intros (x & -> & Hx). by apply list_elem_of_filter in Hx as [? _]. Qed.

Lemma zdrop_ok l m : zseq_ok l -> zseq_ok (zdrop m l).
Proof.
  intros [Hs Hu Hn]. split.
  - clear Hu Hn. unfold zdrop. induction Hs as [|x l Hs IH Hx]; [constructor|]. rw filter_cons.
    destruct (decide _); [|done]. constructor; [done|].
    apply Forall_forall. intros y Hy. apply list_elem_of_filter in Hy as [_ Hy].
    rw Forall_forall in Hx. by apply Hx.
  - by apply zdrop_unique.
  - intros x Hx. apply list_elem_of_filter in Hx as [_ Hx]. by apply Hn.
Qed.

Lemma zinsert_sorted k l :
  StronglySorted mltp l -> IsNaN k.1 = false -> (forall x, x ∈ l -> IsNaN x.1 = false /\ same_item x k = false) ->
  StronglySorted mltp (zinsert k l).
Proof.
  intros Hs Hk. induction Hs as [|x l Hs IH Hx]; intros Hl; simpl; [repeat constructor|].
  destruct (Hl x) as [Hnx Hsx]; [set_solver|]. destruct (mlt x.1 x.2 k.1 k.2) eqn:Hm.
  - apply mlt_mltp_pair in Hm; [|done..]. constructor; [apply IH; set_solver|].
    rw zinsert_perm. by constructor.
  - assert (mltp k x) as Hkx.
    { destruct (mltp_total x k) as [H|[H|H]]; [|exfalso|done].
      - exfalso. apply mlt_mltp_pair in H; [congruence|done..].
      - apply same_item_key in H; [congruence|done..]. }
    constructor; [by constructor|]. constructor; [done|].
    eapply Forall_impl; [exact Hx|]. intros y Hy. by trans x.
Qed.

Lemma not_member_not_same l s m x : m ∉ l.*2 -> x ∈ l -> same_item x (s, m) = false.
Proof.
  intros Hm Hx. unfold same_item. simpl. rw (bool_decide_eq_false_2 (x.2 = m)); [|by rw andb_false_r].
  intros <-. apply Hm. by apply list_elem_of_fmap_2.
Qed.

Lemma zinsert_ok l s m :
  zseq_ok l -> IsNaN s = false -> m ∉ l.*2 -> zseq_ok (zinsert (s, m) l).
Proof.
  intros [Hs Hu Hn] HN Hm. split.
  - apply zinsert_sorted; [done..|]. intros x Hx. split; [by apply Hn|]. by eapply not_member_not_same.
  - rw zinsert_perm /=. by constructor.
  - intros x. rw zinsert_perm elem_of_cons. intros [->|?]; [done|]. by apply Hn.
Qed.

(** Removing the item of a member leaves the others. *)
Lemma zremove_drop l s m :
  (s, m) ∈ l -> NoDup l.*2 -> IsNaN s = false ->
  existsb (fun x => same_item x (s, m)) l = true /\ zremove (s, m) l = zdrop m l.
Proof.
  intros Hin Hnd Hs.
  assert (same_item (s, m) (s, m) = true) as Hrefl by (by apply same_item_key).
  assert (forall l, m ∉ l.*2 -> zdrop m l = l) as Hid.
  { clear. induction l as [|x l IH]; [done|]. intros Hm. unfold zdrop. rw filter_cons decide_True; [set_solver|].
    f_equal. apply IH. set_solver. }
  apply list_elem_of_split in Hin as (l1 & l2 & ->). rw fmap_app in Hnd. simpl in Hnd.
  apply NoDup_app in Hnd as (_ & Hd & Hnd). apply NoDup_cons in Hnd as [Hm2 _].
  assert (m ∉ l1.*2) as Hm1. { intros H. apply (Hd m H). set_solver. }
  split.
  - rw existsb_app /= Hrefl. by destruct (existsb _ l1).
  - rw zremove_split //; [intros x Hx; by eapply not_member_not_same|].
    unfold zdrop. rw filter_app filter_cons. rw (decide_False (P := (s, m).2 <> m)); [by intros []|].
    f_equal; symmetry; by apply Hid.
Qed.
End zseq.

(** ** [Add] *)

Lemma NewZSetValue_ok : zset_ok NewZSetValue /\ zelems NewZSetValue = [].
Proof.
  destruct NewSkipList_ok as [H1 H2]. split; [|done]. split; [done| |].
  - unfold zelems. simpl. rw H2. split; [constructor|constructor|]. intros x Hx. by apply elem_of_nil in Hx.
  - unfold zelems. simpl. by rw H2.
Qed.

(** [Add] keeps the index and the skip list consistent and implements the
    reference operation; it never panics, at whatever level. *)
Lemma Add_spec z lvl s m :
  zset_ok z -> IsNaN s = false -> (1 <= lvl <= skipListMaxLevel)%nat ->
  exists z' b, Add z lvl s m = Some (z', b) /\ zset_ok z' /\ zadd (s, m) (zelems z) = (zelems z', b).
Proof.
  intros [Hsk Hseq Hidx] Hs Hlvl. unfold Add, zadd. cbn [fst snd]. rw Hidx.
  pose proof (zseq_unique _ Hseq) as Hu. destruct (zmap (zelems z) !! m) as [old|] eqn:Hm.
  - destruct (feqb old s); [by eexists _, _|].
    apply zmap_Some in Hm; [|done].
    pose proof (zseq_nan _ Hseq _ Hm) as Ho. simpl in Ho.
    destruct (zremove_drop _ _ _ Hm Hu Ho) as [_ Hrm].
    destruct (Delete_spec (zlist z) old m Hsk Ho) as (l1 & HD & Hok1 & Hel1). rw HD. cbn [mbind option_bind].
    change (elements (zlist z)) with (zelems z) in Hel1. rw Hrm in Hel1.
    pose proof (zdrop_notin (zelems z) m) as Hni. pose proof (zdrop_ok _ m Hseq) as Hdok.
    destruct (Insert_spec l1 lvl s m Hok1 Hs Hlvl) as (l2 & HI & Hok2 & Hel2).
    { rw Hel1. intros x Hx. by eapply not_member_not_same. }
    rw HI. cbn [mbind option_bind]. rw Hel1 in Hel2. eexists _, _; split; [done|].
    change (elements l2) with (zelems (mkZSet (<[m := s]> (zmap (zelems z))) l2)) in Hel2.
    rw Hel2. split; [|done]. split; [done|rw Hel2; by apply zinsert_ok|].
    rw Hel2 zmap_insert //; [by apply zdrop_unique|]. rw zmap_drop // insert_delete_eq. done.
  - apply zmap_None in Hm.
    destruct (Insert_spec (zlist z) lvl s m Hsk Hs Hlvl) as (l2 & HI & Hok2 & Hel2).
    { intros x Hx. by eapply not_member_not_same. }
    rw HI. cbn [mbind option_bind]. eexists _, _; split; [done|].
    change (elements l2) with (zelems (mkZSet (<[m := s]> (zmap (zelems z))) l2)) in Hel2.
    rw Hel2. split; [|done]. split; [done|rw Hel2; by apply zinsert_ok|]. by rw Hel2 zmap_insert.
Qed.

Lemma AddAll_spec z lvls i pairs added :
  zset_ok z -> (forall p, p ∈ pairs -> IsNaN p.1 = false) -> (forall k, 1 <= lvls k <= skipListMaxLevel)%nat ->
  exists z' n, AddAll z lvls i pairs added = Some (z', n) /\ zset_ok z' /\
    zaddAll pairs (zelems z) added = (zelems z', n).
Proof.
  intros Hz Hp Hl. revert z Hz i added; induction pairs as [|[s m] pairs IH]; intros z Hz i added; simpl.
  - by eexists _, _.
  - destruct (Add_spec z (lvls i) s m Hz) as (z1 & b & HA & Hz1 & Hza); [set_solver|done|].
    rw HA. cbn [mbind option_bind]. rw Hza. apply IH; [set_solver|done].
Qed.

(** ** Sizes *)

Definition zset_bytes (l : list (float64 * string)) : Z := foldr (fun x z => 64 + slen x.2 + z) 0 l.

Lemma zsetEntrySize_eq key z :
  zset_ok z -> zsetEntrySize key z = u64 (zsetEntryOverhead + slen key + zset_bytes (zelems z)).
Proof.
  intros [_ Hseq Hidx]. unfold zsetEntrySize. rw (map_fold_u64 (fun m _ => 64 + slen m)) Hidx. do 2 f_equal.
  pose proof (zseq_unique _ Hseq) as Hu. clear Hseq Hidx. induction (zelems z) as [|[s m] l IH]; simpl in *.
  - apply msum_empty.
  - apply NoDup_cons in Hu as [Hm Hu]. change (zmap ((s, m) :: l)) with (<[m := s]> (zmap l)).
    rw msum_insert_fresh; [by apply zmap_None|]. rw IH //.
Qed.

(** From an empty sorted set, any sequence of additions, with any drawn
    levels, does not panic, keeps index and skip list consistent, leaves each
    member once with its last score in the order of scores and members, and
    counts the members that were new; ranges, scores and the cardinality are
    those of that sequence. *)
Theorem zset_correct lvls pairs :
  (forall p, p ∈ pairs -> IsNaN p.1 = false) -> (forall k, 1 <= lvls k <= skipListMaxLevel)%nat ->
  exists z n, AddAll NewZSetValue lvls 0 pairs 0 = Some (z, n) /\ zset_ok z /\ zaddAll pairs [] 0 = (zelems z, n) /\
    (forall start stop, ZRange z start stop = Some (zrange start stop (zelems z))) /\
    (forall m, ZScore z m = zmap (zelems z) !! m) /\ Card z = Z.of_nat (length (zelems z)).
Proof.
  intros Hp Hl. destruct NewZSetValue_ok as [Hz0 Hel0].
  destruct (AddAll_spec NewZSetValue lvls 0 pairs 0 Hz0 Hp Hl) as (z & n & Ha & Hz & Heq). rw Hel0 in Heq.
  exists z, n. split_and!; [done|done|done|..].
  - intros start stop. apply SkipRange_spec, Hz.
  - intros m. unfold ZScore. by rw (zset_index _ Hz).
  - unfold Card, SkipLen, zelems. by rw (skip_ok_length _ (zset_skip _ Hz)).
Qed.

Lemma zset_correct_witness :
  exists z n, AddAll NewZSetValue (fun _ => 2%nat) 0 [(S754_zero true, "b"); (S754_infinity true, "a"); (S754_zero false, "b")] 0 =
      Some (z, n) /\ zset_ok z /\
    zaddAll [(S754_zero true, "b"); (S754_infinity true, "a"); (S754_zero false, "b")] [] 0 = (zelems z, n) /\
    (forall start stop, ZRange z start stop = Some (zrange start stop (zelems z))) /\
    (forall m, ZScore z m = zmap (zelems z) !! m) /\ Card z = Z.of_nat (length (zelems z)).
Proof.
  apply zset_correct; [|unfold skipListMaxLevel; lia]. intros p. rw !elem_of_cons elem_of_nil.
  by intros [->|[->|[->|[]]]].
Defined.
