(* ===== verification/Eviction.v ===== *)
(** * Eviction policies: [internal/engine/eviction]

    The policies and the manager.  The manager sees the store only through
    its [Sample] method, as in the source; [sample] is the slice that call
    returns.  [sort.Slice] is the sorting interface of the prelude.  The
    theorems characterise the victims: a shortest prefix, in the order of the
    policy, of the sampled candidates without the excluded key, that frees
    the bytes needed. *)
From S2P Require Import Prelude.
Local Open Scope Z_scope.

Record Candidate := mkCandidate {
  CKey : string;
  CSizeBytes : Z;
  CCreatedAtNs : Z;
  CLastAccessNs : Z;
  CAccessCount : Z
}.

Inductive Policy := FIFO | LFU | LRU | Random | NoEviction.
#[export] Instance Policy_eq_dec : EqDecision Policy.
Proof. solve_decision. Defined.

Definition PolicyName (p : Policy) : string :=
  match p with
  | FIFO => "fifo" | LFU => "lfu" | LRU => "lru" | Random => "random" | NoEviction => "noeviction"
  end.

Definition PolicyByName (name : string) : Policy :=
  if String.eqb name "fifo" then FIFO
  else if String.eqb name "random" then Random
  else if String.eqb name "lru" then LRU
  else if String.eqb name "lfu" then LFU
  else if String.eqb name "noeviction" then NoEviction
  else NoEviction.

(** The loop all policies share: take candidates until [bytesNeeded] is
    reached; [freed] is a uint64. *)
Fixpoint takeVictims (bytesNeeded freed : Z) (candidates : list Candidate) : list Candidate :=
  match candidates with
  | [] => []
  | c :: cs =>
      if bytesNeeded <=? freed then []
      else c :: takeVictims bytesNeeded (u64 (freed + CSizeBytes c)) cs
  end.

Section policies.
Context `{SliceSort}.

Definition policyLess (p : Policy) (a b : Candidate) : bool :=
  match p with
  | FIFO => CCreatedAtNs a <? CCreatedAtNs b
  | LFU => CAccessCount a <? CAccessCount b
  | LRU => CLastAccessNs a <? CLastAccessNs b
  | Random | NoEviction => false
  end.

(** [Policy.PickVictims] *)
Definition pickVictims (p : Policy) (bytesNeeded : Z) (candidates : list Candidate) : list Candidate :=
  match p with
  | FIFO | LFU | LRU => takeVictims bytesNeeded 0 (slice_sort (policyLess p) candidates)
  | Random => takeVictims bytesNeeded 0 candidates
  | NoEviction => []
  end.

(** [Manager.PickVictims] *)
Definition PickVictims (p : Policy) (sample : list Candidate) (bytesNeeded : Z) (excludeKey : string)
    : list Candidate :=
  match sample with
  | [] => []
  | _ =>
      let candidates :=
        if String.eqb excludeKey "" then sample
        else filter (fun c => CKey c <> excludeKey) sample in
      match candidates with
      | [] => []
      | _ => pickVictims p bytesNeeded candidates
      end
  end.
End policies.

Definition defaultSampleSize : Z := 16.

(** ** What the victims are *)

Definition cbytes (cs : list Candidate) : Z := foldr (fun c z => CSizeBytes c + z) 0 cs.

Lemma cbytes_app a b : cbytes (a ++ b) = cbytes a + cbytes b.
Proof. induction a as [|x a IH]; simpl; [done|]. rw IH. lia. Qed.

Lemma cbytes_nonneg cs : Forall (fun c => 0 <= CSizeBytes c) cs -> 0 <= cbytes cs.
Proof. induction 1; simpl; lia. Qed.

(** The loop takes the shortest prefix that reaches [bytesNeeded]. *)
Lemma takeVictims_spec needed freed cs :
  Forall (fun c => 0 <= CSizeBytes c) cs -> 0 <= freed -> freed + cbytes cs <= maxUint64 ->
  exists rest, cs = takeVictims needed freed cs ++ rest /\
    (needed <= freed + cbytes (takeVictims needed freed cs) \/ rest = []) /\
    (forall v vs, takeVictims needed freed cs = vs ++ [v] -> freed + cbytes vs < needed).
Proof.
  revert freed; induction cs as [|c cs IH]; intros freed Hall Hf Hm; simpl.
  - exists []. split_and!; [done|by right|]. by intros v [].
  - apply Forall_cons in Hall as [Hc Hall]. simpl in Hm. pose proof (cbytes_nonneg _ Hall).
    destruct (Z.leb_spec needed freed).
    + exists (c :: cs). split_and!; [done|left; simpl; lia|]. by intros v [].
    + rw u64_small; [unfold maxUint64 in Hm; lia|]. destruct (IH (freed + CSizeBytes c)) as (rest & Heq & Hn & Hmin); [done|lia|lia|].
      exists rest. split_and!.
      * simpl. by rw -Heq.
      * destruct Hn; [left; simpl; lia|by right].
      * intros v [|v' vs] [= -> Hvs].
        -- simpl. lia.
        -- simpl. specialize (Hmin v vs Hvs). lia.
Qed.

Lemma policyLess_order p : strict_weak (policyLess p).
Proof.
  destruct p; try (split; intros; done).
  all: apply (strict_weak_on _ Z.ltb), strict_weak_Zltb.
Qed.

Lemma cbytes_perm a b : a ≡ₚ b -> cbytes a = cbytes b.
Proof. induction 1; simpl; lia. Qed.

(** The candidates the manager hands to the policy. *)
Definition eligible (sample : list Candidate) (excludeKey : string) : list Candidate :=
  if String.eqb excludeKey "" then sample else filter (fun c => CKey c <> excludeKey) sample.

Lemma eligible_elem sample excludeKey c :
  c ∈ eligible sample excludeKey -> c ∈ sample /\ (excludeKey <> "" -> CKey c <> excludeKey).
Proof.
  unfold eligible. destruct (String.eqb_spec excludeKey ""); [done|].
  rw list_elem_of_filter. naive_solver.
Qed.

Lemma cbytes_filter (P : Candidate -> Prop) `{forall c, Decision (P c)} cs :
  Forall (fun c => 0 <= CSizeBytes c) cs -> cbytes (filter P cs) <= cbytes cs.
Proof.
  induction 1 as [|c l Hc Hl IH]; [done|]. rw filter_cons. destruct (decide _); simpl; lia.
Qed.

Section victims.
Context `{SliceSortOk}.

(** The order in which a policy considers the candidates. *)
Definition considered (p : Policy) (cs : list Candidate) : list Candidate :=
  match p with FIFO | LFU | LRU => slice_sort (policyLess p) cs | _ => cs end.

Lemma considered_spec p cs :
  considered p cs ≡ₚ cs /\ StronglySorted (not_less (policyLess p)) (considered p cs).
Proof.
  assert (forall q, StronglySorted (not_less (policyLess q)) (slice_sort (policyLess q) cs)) as Hs.
  { intros q. apply slice_sort_sorted, policyLess_order. }
  destruct p; cbn [considered]; try (split; [apply slice_sort_perm|apply Hs]);
    (split; [done|]; clear Hs; induction cs as [|c cs IH]; [constructor|]; constructor; [done|]; by apply Forall_forall).
Qed.

Lemma PickVictims_eq p sample needed excludeKey :
  p <> NoEviction ->
  PickVictims p sample needed excludeKey = takeVictims needed 0 (considered p (eligible sample excludeKey)).
Proof.
  intros Hp. assert (forall q, considered q [] = []) as Hnil.
  { intros q. destruct (considered_spec q []) as [Hperm _]. by apply Permutation_nil_r in Hperm. }
  assert (forall cs, match cs with [] => [] | _ => pickVictims p needed cs end = takeVictims needed 0 (considered p cs)) as Heq.
  { intros [|c cs]; [by rw Hnil|]. by destruct p. }
  unfold PickVictims. fold (eligible sample excludeKey). rw Heq. destruct sample; [|done].
  assert (eligible [] excludeKey = []) as -> by (unfold eligible; by destruct (String.eqb _ _)). by rw Hnil.
Qed.

(** An eviction policy picks, among the eligible candidates, a set that the
    policy orders before all that stay, that frees enough bytes unless it is
    everything, and from which no last victim could be dropped. *)
Lemma PickVictims_spec p sample needed excludeKey :
  p <> NoEviction ->
  Forall (fun c => 0 <= CSizeBytes c) sample -> cbytes sample <= maxUint64 ->
  let victims := PickVictims p sample needed excludeKey in
  exists rest, victims ++ rest ≡ₚ eligible sample excludeKey /\
    (forall v r, v ∈ victims -> r ∈ rest -> policyLess p r v = false) /\
    (needed <= cbytes victims \/ rest = []) /\
    (forall v vs, victims = vs ++ [v] -> cbytes vs < needed).
Proof.
  intros Hp Hall Hm victims. unfold victims. rw PickVictims_eq //.
  set (cs := eligible sample excludeKey). destruct (considered_spec p cs) as [Hperm Hsort].
  destruct (takeVictims_spec needed 0 (considered p cs)) as (rest & Heq & Hn & Hmin).
  - rw Hperm. apply Forall_forall. intros c Hc. apply eligible_elem in Hc as [Hc _].
    rw Forall_forall in Hall. by apply Hall.
  - lia.
  - rw (cbytes_perm _ _ Hperm). etrans; [|exact Hm]. unfold cs, eligible.
    destruct (String.eqb excludeKey ""); [done|]. by apply cbytes_filter.
  - exists rest. rw -Heq. split; [done|]. split; [|done]. intros v r Hv Hr.
    rw Heq in Hsort. apply StronglySorted_app in Hsort as (Hx & _ & _). by apply Hx.
Qed.

Lemma PickVictims_elem p sample needed excludeKey v :
  v ∈ PickVictims p sample needed excludeKey ->
  v ∈ sample /\ (excludeKey <> "" -> CKey v <> excludeKey).
Proof.
  destruct (decide (p = NoEviction)) as [->|Hp].
  - unfold PickVictims. destruct sample; [by intros ?%elem_of_nil|].
    destruct (if String.eqb _ _ then _ else _); by intros ?%elem_of_nil.
  - rw PickVictims_eq //. intros Hv. apply eligible_elem.
    destruct (considered_spec p (eligible sample excludeKey)) as [Hperm _]. rw -Hperm. clear Hperm.
    revert Hv. generalize 0. induction (considered p _) as [|c cs IH]; intros z; simpl; [done|].
    destruct (_ <=? _); [by intros ?%elem_of_nil|]. rw !elem_of_cons. naive_solver.
Qed.
End victims.

(** A policy that evicts picks, among the sampled candidates without the
    excluded key, victims that it orders before all that stay; they free the
    bytes needed unless they are all there is; and without its last victim the
    choice would not free enough. *)
Theorem victims_chosen `{SliceSortOk} p sample needed excludeKey :
  p <> NoEviction -> Forall (fun c => 0 <= CSizeBytes c) sample -> cbytes sample <= maxUint64 ->
  let victims := PickVictims p sample needed excludeKey in
  exists rest, victims ++ rest ≡ₚ eligible sample excludeKey /\
    (forall v r, v ∈ victims -> r ∈ rest -> policyLess p r v = false) /\
    (needed <= cbytes victims \/ rest = []) /\
    (forall v vs, victims = vs ++ [v] -> cbytes vs < needed) /\
    (forall v, v ∈ victims -> v ∈ sample /\ (excludeKey <> "" -> CKey v <> excludeKey)).
Proof.
  intros Hp Hall Hm. destruct (PickVictims_spec p sample needed excludeKey Hp Hall Hm) as (rest & H1 & H2 & H3 & H4).
  exists rest. split_and!; [done..|]. intros v Hv. by eapply PickVictims_elem.
Qed.

Lemma victims_chosen_witness :
  let sample := [mkCandidate "a" 80 3 0 1; mkCandidate "b" 70 1 5 2; mkCandidate "c" 90 2 1 1] in
  let victims := PickVictims LRU sample 100 "b" in
  exists rest, victims ++ rest ≡ₚ eligible sample "b" /\
    (forall v r, v ∈ victims -> r ∈ rest -> policyLess LRU r v = false) /\
    (100 <= cbytes victims \/ rest = []) /\
    (forall v vs, victims = vs ++ [v] -> cbytes vs < 100) /\
    (forall v, v ∈ victims -> v ∈ sample /\ ("b" <> "" -> CKey v <> "b")).
Proof. apply victims_chosen; [done|repeat constructor; simpl; lia|done]. Defined.
