(* ===== verification/Store.v ===== *)
(** * The striped store: [internal/engine/store.go], [stripe.go], [entry.go],
    [string_value.go] and the store parts of [list_ops.go] and [zset_ops.go]

    Every operation runs under the lock of one stripe, so an operation is one
    atomic step on the store.  An operation takes the value its [nowNanos()]
    returns as an argument and returns the new store; [None] is a run-time
    panic (a stripe index out of range, a failed type assertion).

    [store_rep s g] says that the stripes together hold exactly the map [g],
    each key in the stripe it hashes to, every entry well formed and exactly
    accounted in [usedBytes].  The theorems show that each operation of the
    striped store is an operation on the single map [g], and never panics. *)
From S2P Require Import Prelude GoText GoFloat ListValue SkipList ZSetValue Eviction.
Local Open Scope Z_scope.

(** ** Entries *)

Inductive ValueType := ValueTypeNone | ValueTypeString | ValueTypeList | ValueTypeZSet.
#[export] Instance ValueType_eq_dec : EqDecision ValueType.
Proof. solve_decision. Defined.

Definition ValueTypeName (v : ValueType) : string :=
  match v with
  | ValueTypeString => "string"
  | ValueTypeList => "list"
  | ValueTypeZSet => "zset"
  | ValueTypeNone => "none"
  end.

Inductive Value :=
| StringValue (Data : string)
| ListV (lv : ListValue)
| ZSetV (zv : ZSetValue).

Record Entry := mkEntry {
  EKey : string;
  EType : ValueType;
  EValue : Value;
  SizeBytes : Z;
  ExpiresAtNs : Z;
  CreatedAtNs : Z;
  UpdatedAtNs : Z;
  LastAccessNs : Z;
  AccessCount : Z;
  Version : Z
}.

Definition IsExpired (e : Entry) (nowNs : Z) : bool :=
  negb (ExpiresAtNs e =? 0) && (ExpiresAtNs e <=? nowNs).

Definition touchRead (e : Entry) (nowNs : Z) : Entry :=
  mkEntry (EKey e) (EType e) (EValue e) (SizeBytes e) (ExpiresAtNs e) (CreatedAtNs e) (UpdatedAtNs e)
    nowNs (u32 (AccessCount e + 1)) (Version e).
Definition touchWrite (e : Entry) (nowNs : Z) : Entry :=
  mkEntry (EKey e) (EType e) (EValue e) (SizeBytes e) (ExpiresAtNs e) (CreatedAtNs e) nowNs
    nowNs (u32 (AccessCount e + 1)) (u64 (Version e + 1)).

(** In-place updates of an entry's value and size, and of its expiration. *)
Definition withValue (e : Entry) (v : Value) (size : Z) : Entry :=
  mkEntry (EKey e) (EType e) v size (ExpiresAtNs e) (CreatedAtNs e) (UpdatedAtNs e)
    (LastAccessNs e) (AccessCount e) (Version e).
Definition withExpire (e : Entry) (expiresAtNs : Z) : Entry :=
  mkEntry (EKey e) (EType e) (EValue e) (SizeBytes e) expiresAtNs (CreatedAtNs e) (UpdatedAtNs e)
    (LastAccessNs e) (AccessCount e) (Version e).

Definition stringEntrySize (key value : string) : Z := u64 (stringEntryOverhead + slen key + slen value).

(** The entry a write creates for a key that is not there. *)
Definition newEntry (key : string) (ty : ValueType) (v : Value) (size expiresAtNs now : Z) : Entry :=
  mkEntry key ty v size expiresAtNs now now now 1 1.

(** ** The store *)

Record Store := mkStore {
  stripes : list (gmap string Entry);
  mask : Z;
  powerTwo : bool;
  usedBytes : Z
}.

(** [nextPowerOfTwo]; 64 doublings reach every [int]. *)
Fixpoint nextPowerOfTwo_from (fuel : nat) (p n : Z) : Z :=
  match fuel with
  | O => p
  | S fuel => if p <? n then nextPowerOfTwo_from fuel (Z.shiftl p 1) n else p
  end.
Definition nextPowerOfTwo (n : Z) : Z := nextPowerOfTwo_from 64 1 n.

Definition NewStore (stripeCount : Z) : Store :=
  let stripeCount := if stripeCount <? 1 then 1 else stripeCount in
  let target := nextPowerOfTwo stripeCount in
  let powerTwo := target =? stripeCount in
  let target := if powerTwo then target else stripeCount in
  mkStore (replicate (Z.to_nat target) ∅) (if powerTwo then u32 (target - 1) else 0) powerTwo 0.

(** [fnv.New32a], [Write], [Sum32]. *)
Fixpoint fnv32a_from (h : Z) (key : string) : Z :=
  match key with
  | "" => h
  | String c key => fnv32a_from (u32 (Z.lxor h (byteZ c) * 16777619)) key
  end.
Definition fnv32a : string -> Z := fnv32a_from 2166136261.

(** The index of the stripe that owns [key]; [None] if it is out of range. *)
Definition stripeFor (s : Store) (key : string) : option nat :=
  let v := fnv32a key in
  let i := if powerTwo s then Z.land v (mask s) else v mod u32 (Z.of_nat (length (stripes s))) in
  if i <? Z.of_nat (length (stripes s)) then Some (Z.to_nat i) else None.

(** [st.entries[key]], [st.entries[key] = e] and [delete(st.entries, key)]. *)
Definition lookupE (s : Store) (st : nat) (key : string) : option Entry :=
  m ← stripes s !! st; m !! key.
Definition storeE (s : Store) (st : nat) (key : string) (e : Entry) : Store :=
  mkStore (alter <[key := e]> st (stripes s)) (mask s) (powerTwo s) (usedBytes s).
Definition deleteE (s : Store) (st : nat) (key : string) : Store :=
  mkStore (alter (delete key) st (stripes s)) (mask s) (powerTwo s) (usedBytes s).

Definition setUsed (s : Store) (n : Z) : Store := mkStore (stripes s) (mask s) (powerTwo s) n.
Definition UsedBytes (s : Store) : Z := usedBytes s.
Definition addUsed (s : Store) (n : Z) : Store := setUsed s (u64 (usedBytes s + n)).
(** [Add(^n + 1)] *)
Definition subUsed (s : Store) (n : Z) : Store := setUsed s (u64 (usedBytes s + u64 (maxUint64 - n + 1))).
Definition adjustUsed (s : Store) (oldSize newSize : Z) : Store :=
  if oldSize <=? newSize then addUsed s (newSize - oldSize) else subUsed s (oldSize - newSize).

(** The common prologue of the write operations: look the key up and drop it
    if it is expired. *)
Definition liveOrDrop (s : Store) (st : nat) (now : Z) (key : string) : option Entry * Store :=
  match lookupE s st key with
  | Some e =>
      if IsExpired e now then (None, subUsed (deleteE s st (EKey e)) (SizeBytes e))
      else (Some e, s)
  | None => (None, s)
  end.

Definition get (s : Store) (now : Z) (key : string) (touch : bool) : option (option Entry * Store) :=
  st ← stripeFor s key;
  match lookupE s st key with
  | None => Some (None, s)
  | Some e =>
      if IsExpired e now then Some (None, subUsed (deleteE s st (EKey e)) (SizeBytes e))
      else if touch then let e := touchRead e now in Some (Some e, storeE s st key e)
      else Some (Some e, s)
  end.
Definition Get (s : Store) (now : Z) (key : string) := get s now key true.
Definition Peek (s : Store) (now : Z) (key : string) := get s now key false.

Definition Put (s : Store) (now : Z) (entry : Entry) : option Store :=
  st ← stripeFor s (EKey entry);
  let '(s, entry) :=
    match lookupE s st (EKey entry) with
    | Some existing =>
        (subUsed s (SizeBytes existing),
         mkEntry (EKey entry) (EType entry) (EValue entry) (SizeBytes entry) (ExpiresAtNs entry)
           (CreatedAtNs existing) (UpdatedAtNs entry) (LastAccessNs entry)
           (u32 (AccessCount existing + 1)) (u64 (Version existing + 1)))
    | None =>
        (s, mkEntry (EKey entry) (EType entry) (EValue entry) (SizeBytes entry) (ExpiresAtNs entry)
              now (UpdatedAtNs entry) (LastAccessNs entry) (AccessCount entry) 1)
    end in
  let entry := mkEntry (EKey entry) (EType entry) (EValue entry) (SizeBytes entry) (ExpiresAtNs entry)
    (CreatedAtNs entry) now now (AccessCount entry) (Version entry) in
  Some (addUsed (storeE s st (EKey entry) entry) (SizeBytes entry)).

Inductive setCondition := setAlways | setIfMissing | setIfPresent.
#[export] Instance setCondition_eq_dec : EqDecision setCondition.
Proof. solve_decision. Defined.

Definition setString (s : Store) (now : Z) (key value : string) (expiresAtNs : Z) (condition : setCondition)
    : option (bool * Store) :=
  st ← stripeFor s key;
  let '(existing, s) := liveOrDrop s st now key in
  match condition, existing with
  | setIfMissing, Some _ => Some (false, s)
  | setIfPresent, None => Some (false, s)
  | _, _ =>
      let entry := newEntry key ValueTypeString (StringValue value) (stringEntrySize key value) expiresAtNs now in
      match existing with
      | Some old =>
          let entry := mkEntry (EKey entry) (EType entry) (EValue entry) (SizeBytes entry) (ExpiresAtNs entry)
            (CreatedAtNs old) now now (u32 (AccessCount old + 1)) (u64 (Version old + 1)) in
          Some (true, storeE (adjustUsed s (SizeBytes old) (SizeBytes entry)) st (EKey entry) entry)
      | None => Some (true, storeE (addUsed s (SizeBytes entry)) st (EKey entry) entry)
      end
  end.

(** [Some size] is (size, true), [None] is (0, false). *)
Definition DeleteWithSize (s : Store) (key : string) : option (option Z * Store) :=
  st ← stripeFor s key;
  match lookupE s st key with
  | None => Some (None, s)
  | Some e => Some (Some (SizeBytes e), subUsed (deleteE s st (EKey e)) (SizeBytes e))
  end.
Definition Delete (s : Store) (key : string) : option (bool * Store) :=
  '(r, s) ← DeleteWithSize s key;
  Some (match r with Some _ => true | None => false end, s).

Definition Exists (s : Store) (now : Z) (key : string) : option (bool * Store) :=
  '(e, s) ← Peek s now key;
  Some (match e with Some _ => true | None => false end, s).

(** [Flush]: the inner loop over a stripe only subtracts, so its order does
    not matter. *)
Definition flushStripe (used : Z) (m : gmap string Entry) : Z :=
  map_fold (fun _ e used => u64 (used + u64 (maxUint64 - SizeBytes e + 1))) used m.
Definition Flush (s : Store) : Z * Store :=
  (foldl (fun n m => n + Z.of_nat (size m)) 0 (stripes s),
   mkStore (replicate (length (stripes s)) ∅) (mask s) (powerTwo s) (foldl flushStripe (usedBytes s) (stripes s))).

Inductive EngineError := ErrWrongType | ErrNotInteger | ErrIntOverflow.

Definition formatInt64 (n : Z) : string := FormatInt n.

Definition IncrementBy (s : Store) (now : Z) (key : string) (delta : Z) : option ((Z + EngineError) * Store) :=
  st ← stripeFor s key;
  let '(e, s) := liveOrDrop s st now key in
  let current : Z + EngineError :=
    match e with
    | None => inl 0
    | Some e =>
        if negb (bool_decide (EType e = ValueTypeString)) then inr ErrWrongType
        else match EValue e with
        | StringValue data => match parseInt64 data with Some parsed => inl parsed | None => inr ErrNotInteger end
        | _ => inr ErrWrongType
        end
    end in
  match current with
  | inr err => Some (inr err, s)
  | inl current =>
      if ((0 <? delta) && (i64 (maxInt64 - delta) <? current)) || ((delta <? 0) && (current <? i64 (minInt64 - delta)))
      then Some (inr ErrIntOverflow, s)
      else
        let next := i64 (current + delta) in
        let newBytes := formatInt64 next in
        let newSize := stringEntrySize key newBytes in
        match e with
        | Some e =>
            let e' := touchWrite (withValue e (StringValue newBytes) newSize) now in
            Some (inl next, adjustUsed (storeE s st key e') (SizeBytes e) newSize)
        | None =>
            Some (inl next, addUsed (storeE s st key (newEntry key ValueTypeString (StringValue newBytes) newSize 0 now)) newSize)
        end
  end.

Definition SetExpireAt (s : Store) (now : Z) (key : string) (expiresAtNs : Z) : option (bool * Store) :=
  st ← stripeFor s key;
  match lookupE s st key with
  | None => Some (false, s)
  | Some e =>
      if IsExpired e now then Some (false, subUsed (deleteE s st (EKey e)) (SizeBytes e))
      else Some (true, storeE s st key (touchWrite (withExpire e expiresAtNs) now))
  end.

(** [WithEntry]: [fn] gets the entry (or nil) and returns the entry as it
    left it and its error, if any. *)
Definition WithEntry (s : Store) (now : Z) (key : string) (fn : option Entry -> option Entry * option string)
    : option (option string * Store) :=
  st ← stripeFor s key;
  let '(e, s) := liveOrDrop s st now key in
  match e with
  | None => Some ((fn None).2, s)
  | Some old =>
      let '(e', err) := fn (Some old) in
      let e' := default old e' in
      let s := storeE s st key e' in
      match err with
      | Some _ => Some (err, s)
      | None =>
          Some (None, if SizeBytes e' =? SizeBytes old then s else adjustUsed s (SizeBytes old) (SizeBytes e'))
      end
  end.

(** [store.listPush] *)
Definition listPush (s : Store) (now : Z) (key : string) (values : list string) (left : bool)
    : option ((Z + EngineError) * Store) :=
  st ← stripeFor s key;
  let '(e, s) := liveOrDrop s st now key in
  match e with
  | Some e =>
      if negb (bool_decide (EType e = ValueTypeList)) then Some (inr ErrWrongType, s)
      else match EValue e with
      | ListV lv =>
          let '(lv, newLen) := if left then LPush lv values else RPush lv values in
          let oldSize := SizeBytes e in
          let e := touchWrite (withValue e (ListV lv) (listEntrySize (EKey e) lv)) now in
          Some (inl newLen, adjustUsed (storeE s st key e) oldSize (SizeBytes e))
      | _ => None
      end
  | None =>
      let '(lv, newLen) := if left then LPush NewListValue values else RPush NewListValue values in
      let ne := newEntry key ValueTypeList (ListV lv) (listEntrySize key lv) 0 now in
      Some (inl newLen, addUsed (storeE s st (EKey ne) ne) (SizeBytes ne))
  end.

(** [store.listPop]: [inl (Some v)] is (v, true, nil), [inl None] is
    (nil, false, nil). *)
Definition listPop (s : Store) (now : Z) (key : string) (left : bool)
    : option ((option string + EngineError) * Store) :=
  st ← stripeFor s key;
  match lookupE s st key with
  | None => Some (inl None, s)
  | Some e =>
      if IsExpired e now then Some (inl None, subUsed (deleteE s st (EKey e)) (SizeBytes e))
      else if negb (bool_decide (EType e = ValueTypeList)) then Some (inr ErrWrongType, s)
      else match EValue e with
      | ListV lv =>
          let '(lv, val) := if left then LPop lv else RPop lv in
          match val with
          | None => Some (inl None, s)
          | Some v =>
              if LLen lv =? 0 then Some (inl (Some v), subUsed (deleteE s st (EKey e)) (SizeBytes e))
              else
                let oldSize := SizeBytes e in
                let e := touchWrite (withValue e (ListV lv) (listEntrySize (EKey e) lv)) now in
                Some (inl (Some v), adjustUsed (storeE s st key e) oldSize (SizeBytes e))
          end
      | _ => None
      end
  end.

(** [store.zsetAdd]; [lvls i] is the level drawn while adding the [i]-th pair. *)
Definition zsetAdd (s : Store) (now : Z) (lvls : nat -> nat) (key : string) (pairs : list (float64 * string))
    : option ((Z + EngineError) * Store) :=
  st ← stripeFor s key;
  let '(e, s) := liveOrDrop s st now key in
  match e with
  | Some e =>
      if negb (bool_decide (EType e = ValueTypeZSet)) then Some (inr ErrWrongType, s)
      else match EValue e with
      | ZSetV zv =>
          '(zv, added) ← AddAll zv lvls 0 pairs 0;
          let oldSize := SizeBytes e in
          let e := touchWrite (withValue e (ZSetV zv) (zsetEntrySize (EKey e) zv)) now in
          Some (inl added, adjustUsed (storeE s st key e) oldSize (SizeBytes e))
      | _ => None
      end
  | None =>
      '(zv, added) ← AddAll NewZSetValue lvls 0 pairs 0;
      let ne := newEntry key ValueTypeZSet (ZSetV zv) (zsetEntrySize key zv) 0 now in
      Some (inl added, addUsed (storeE s st (EKey ne) ne) (SizeBytes ne))
  end.

(** [Sample]: [rng] is the order in which [range] visits the entries of a
    stripe. *)
Definition candidateOf (e : Entry) : Candidate :=
  mkCandidate (EKey e) (SizeBytes e) (CreatedAtNs e) (LastAccessNs e) (AccessCount e).

Fixpoint sampleStripe (n : Z) (now : Z) (es : list Entry) (result : list Candidate) : list Candidate :=
  match es with
  | [] => result
  | e :: es =>
      if IsExpired e now then sampleStripe n now es result
      else
        let result := result ++ [candidateOf e] in
        if n <=? Z.of_nat (length result) then result else sampleStripe n now es result
  end.

Fixpoint sampleStripes (n : Z) (now : Z) (rng : gmap string Entry -> list Entry)
    (ms : list (gmap string Entry)) (result : list Candidate) : list Candidate :=
  match ms with
  | [] => result
  | m :: ms =>
      if n <=? Z.of_nat (length result) then result
      else sampleStripes n now rng ms (sampleStripe n now (rng m) result)
  end.
Definition Sample (s : Store) (now : Z) (rng : gmap string Entry -> list Entry) (n : Z) : list Candidate :=
  sampleStripes n now rng (stripes s) [].

(** ** The representation *)

Definition entry_size (key : string) (v : Value) : Z :=
  match v with
  | StringValue d => stringEntrySize key d
  | ListV lv => listEntrySize key lv
  | ZSetV zv => zsetEntrySize key zv
  end.
Definition type_of (v : Value) : ValueType :=
  match v with StringValue _ => ValueTypeString | ListV _ => ValueTypeList | ZSetV _ => ValueTypeZSet end.
Definition value_ok (v : Value) : Prop :=
  match v with StringValue _ => True | ListV lv => list_wf lv | ZSetV zv => zset_ok zv end.

(** An entry under [key]: its tag matches its value, the value is well formed
    and the size is exact. *)
Record entry_ok (key : string) (e : Entry) : Prop := {
  ok_key : EKey e = key;
  ok_type : EType e = type_of (EValue e);
  ok_value : value_ok (EValue e);
  ok_size : SizeBytes e = entry_size key (EValue e)
}.

Definition total (g : gmap string Entry) : Z := msum (fun _ e => SizeBytes e) g.

Record store_shape (s : Store) : Prop := {
  shape_len : 0 < Z.of_nat (length (stripes s)) < 4294967296;
  shape_mask : powerTwo s = true -> mask s = Z.of_nat (length (stripes s)) - 1
}.

Record store_rep (s : Store) (g : gmap string Entry) : Prop := {
  rep_shape : store_shape s;
  rep_stripes : forall i m k, stripes s !! i = Some m ->
    m !! k = if decide (stripeFor s k = Some i) then g !! k else None;
  rep_ok : forall k e, g !! k = Some e -> entry_ok k e;
  rep_used : usedBytes s = u64 (total g)
}.

Lemma fnv32a_range key : 0 <= fnv32a key < 4294967296.
Proof.
  unfold fnv32a. assert (0 <= 2166136261 < 4294967296) as H by lia. revert H. generalize 2166136261.
  induction key as [|c key IH]; intros h H; simpl; [done|]. apply IH. apply u32_range.
Qed.

Lemma stripeFor_shape s key :
  store_shape s -> exists i, stripeFor s key = Some i /\ (i < length (stripes s))%nat.
Proof.
  intros [Hlen Hmask]. pose proof (fnv32a_range key). unfold stripeFor.
  set (i := if powerTwo s then _ else _).
  assert (0 <= i < Z.of_nat (length (stripes s))) as Hi.
  { unfold i. destruct (powerTwo s).
    - rw Hmask //. split; [apply Z.land_nonneg; lia|].
      assert (Z.land (fnv32a key) (Z.of_nat (length (stripes s)) - 1) <= Z.of_nat (length (stripes s)) - 1); [|lia].
      apply Zland_le_r; lia.
    - unfold u32. rw (Z.mod_small (Z.of_nat _)); [lia|]. apply Z.mod_pos_bound. lia. }
  destruct (Z.ltb_spec i (Z.of_nat (length (stripes s)))); [|lia].
  eexists; split; [done|]. lia.
Qed.

Lemma used_add s n : usedBytes (addUsed s n) = u64 (usedBytes s + n).
Proof. done. Qed.
Lemma used_sub s n : usedBytes (subUsed s n) = u64 (usedBytes s - n).
Proof.
  unfold subUsed. simpl. rw u64_add_r. unfold u64, maxUint64.
  rw -(Z.mod_add (usedBytes s - n) 1); [done|]. f_equal. lia.
Qed.
Lemma used_adjust s o n : usedBytes (adjustUsed s o n) = u64 (usedBytes s + n - o).
Proof.
  unfold adjustUsed. destruct (o <=? n).
  - rw used_add. f_equal. lia.
  - rw used_sub. f_equal. lia.
Qed.

(** Two stores with the same routing of keys to stripes. *)
Definition same_route (s s' : Store) : Prop :=
  mask s' = mask s /\ powerTwo s' = powerTwo s /\ length (stripes s') = length (stripes s).

Lemma stripeFor_route s s' key : same_route s s' -> stripeFor s' key = stripeFor s key.
Proof. intros (H1 & H2 & H3). unfold stripeFor. by rw H1 H2 H3. Qed.

Lemma same_route_trans s1 s2 s3 : same_route s1 s2 -> same_route s2 s3 -> same_route s1 s3.
Proof. intros (H1 & H2 & H3) (H4 & H5 & H6). unfold same_route. by rw H4 H5 H6. Qed.

Lemma route_alter s f st u : same_route s (mkStore (alter f st (stripes s)) (mask s) (powerTwo s) u).
Proof. unfold same_route. simpl. by rw length_alter. Qed.

Lemma route_adjust s o n : same_route s (adjustUsed s o n).
Proof. unfold adjustUsed. by destruct (o <=? n). Qed.

Lemma stripes_adjust s o n : stripes (adjustUsed s o n) = stripes s.
Proof. unfold adjustUsed. by destruct (o <=? n). Qed.

Lemma shape_route s s' : same_route s s' -> store_shape s -> store_shape s'.
Proof. intros (H1 & H2 & H3) [Hl Hm]. split; rw H3 ?H1 ?H2 //. Qed.

(** The entry size an update replaces. *)
Definition osize (e : option Entry) : Z := match e with Some e => SizeBytes e | None => 0 end.

Section rep.
Context (s : Store) (g : gmap string Entry).
Context (Hrep : store_rep s g).

Lemma rep_lookup st key : stripeFor s key = Some st -> lookupE s st key = g !! key.
Proof.
  intros Hst. unfold lookupE. destruct (stripeFor_shape s key (rep_shape _ _ Hrep)) as (i & Hi & Hlt).
  rw Hst in Hi. injection Hi as <-. destruct (lookup_lt_is_Some_2 _ _ Hlt) as [m Hm]. rw Hm /=.
  rw (rep_stripes _ _ Hrep _ _ key Hm). by rw decide_True.
Qed.

Lemma rep_update key st f s' g' :
  stripeFor s key = Some st -> same_route s s' -> stripes s' = alter f st (stripes s) ->
  (forall m, f m !! key = g' !! key) -> (forall m k, k <> key -> f m !! k = m !! k) ->
  (forall k, k <> key -> g' !! k = g !! k) ->
  (forall e, g' !! key = Some e -> entry_ok key e) ->
  usedBytes s' = u64 (total g') -> store_rep s' g'.
Proof.
  intros Hst Hroute Hstr Hf1 Hf2 Hg Hok Hused. split.
  - by eapply shape_route, rep_shape.
  - intros i m k. rw (stripeFor_route _ _ _ Hroute) Hstr. destruct (decide (i = st)) as [->|Hi].
    + rw list_lookup_alter_eq. destruct (stripes s !! st) as [m0|] eqn:Hm0; simpl; [|done]. intros [= <-].
      destruct (decide (k = key)) as [->|Hk].
      * by rw decide_True.
      * rw Hf2 // (rep_stripes _ _ Hrep _ _ k Hm0) Hg //.
    + rw list_lookup_alter_ne; [done|]. intros Hm. rw (rep_stripes _ _ Hrep _ _ k Hm).
      case_decide as Hd; [|done]. rw Hg //. intros ->. congruence.
  - intros k e. destruct (decide (k = key)) as [->|Hk]; [apply Hok|]. rw Hg //. apply (rep_ok _ _ Hrep).
  - done.
Qed.

Lemma rep_insert key st e s' :
  stripeFor s key = Some st -> same_route s s' -> stripes s' = alter <[key := e]> st (stripes s) ->
  entry_ok key e -> usedBytes s' = u64 (usedBytes s + SizeBytes e - osize (g !! key)) ->
  store_rep s' (<[key := e]> g).
Proof.
  intros Hst Hroute Hstr Hok Hused. eapply (rep_update key st); try done.
  - intros m. by rw !lookup_insert_eq.
  - intros m k Hk. by rw lookup_insert_ne.
  - intros k Hk. by rw lookup_insert_ne.
  - intros e'. rw lookup_insert_eq. by intros [= <-].
  - rw Hused (rep_used _ _ Hrep). rw -Z.add_sub_assoc u64_add_l. f_equal. unfold total. rw msum_insert.
    unfold osize. destruct (g !! key); lia.
Qed.

Lemma rep_delete key st s' :
  stripeFor s key = Some st -> same_route s s' -> stripes s' = alter (delete key) st (stripes s) ->
  usedBytes s' = u64 (usedBytes s - osize (g !! key)) -> store_rep s' (delete key g).
Proof.
  intros Hst Hroute Hstr Hused. eapply (rep_update key st); try done.
  - intros m. by rw !lookup_delete_eq.
  - intros m k Hk. by rw lookup_delete_ne.
  - intros k Hk. by rw lookup_delete_ne.
  - intros e'. by rw lookup_delete_eq.
  - rw Hused (rep_used _ _ Hrep) u64_sub_l. f_equal. unfold total. rw msum_delete'. unfold osize.
    destruct (g !! key); lia.
Qed.
End rep.

(** ** The operations on one map *)

(** The entry under [key] that is alive at [now], and the map without an
    expired entry there. *)
Definition glive (now : Z) (key : string) (g : gmap string Entry) : option Entry :=
  e ← g !! key; if IsExpired e now then None else Some e.
Definition gdrop (now : Z) (key : string) (g : gmap string Entry) : gmap string Entry :=
  match g !! key with
  | Some e => if IsExpired e now then delete key g else g
  | None => g
  end.

Lemma glive_drop now key g : glive now key g = gdrop now key g !! key.
Proof.
  unfold glive, gdrop. destruct (g !! key) as [e|] eqn:Hg; simpl; [|done].
  destruct (IsExpired e now); [by rw lookup_delete_eq|done].
Qed.

(** Dropping the expired entry under a key represents the map without it. *)
Lemma drop_rep s g st key e :
  store_rep s g -> stripeFor s key = Some st -> g !! key = Some e ->
  let s' := subUsed (deleteE s st (EKey e)) (SizeBytes e) in
  store_rep s' (delete key g) /\ same_route s s'.
Proof.
  intros Hrep Hst He. rw (ok_key _ _ (rep_ok _ _ Hrep _ _ He)). split.
  - eapply (rep_delete s g Hrep); [done|exact (route_alter s _ _ _)|done|]. by rw used_sub He.
  - exact (route_alter s _ _ _).
Qed.

Lemma liveOrDrop_rep s g st now key :
  store_rep s g -> stripeFor s key = Some st ->
  exists s', liveOrDrop s st now key = (glive now key g, s') /\ store_rep s' (gdrop now key g) /\
    same_route s s'.
Proof.
  intros Hrep Hst. unfold liveOrDrop, glive, gdrop. rw (rep_lookup _ _ Hrep) //.
  destruct (g !! key) as [e|] eqn:He; simpl; [|by eexists].
  destruct (IsExpired e now); [|by eexists]. destruct (drop_rep _ _ _ _ _ Hrep Hst He). by eexists.
Qed.
