(* ===== verification/StoreSpec.v ===== *)
(** * The store as an abstract key-value map

    The specification of the store: a map from keys to abstract values with
    their expiration, and each operation as a function on it.  An abstract
    value is a byte string, a list of byte strings or a strictly sorted
    sequence of (score, member) pairs.  [store_kv s kv] is the refinement
    relation; the theorems show that every store operation, run on a store
    that represents [kv], does not panic, returns what the specification
    returns and leaves a store that represents the specification's result
    (so in particular the memory accounting stays exact). *)
From S2P Require Import Prelude GoText GoFloat ListValue SkipList ZSetValue Eviction Store.
Local Open Scope Z_scope.

Inductive aval :=
| AStr (s : string)
| AList (l : list string)
| AZSet (l : list (float64 * string)).

Definition akind (v : aval) : ValueType :=
  match v with AStr _ => ValueTypeString | AList _ => ValueTypeList | AZSet _ => ValueTypeZSet end.

(** The accounted size of a value under a key. *)
Definition asize (key : string) (v : aval) : Z :=
  match v with
  | AStr s => u64 (stringEntryOverhead + slen key + slen s)
  | AList l => u64 (stringEntryOverhead + slen key + list_bytes l)
  | AZSet l => u64 (zsetEntryOverhead + slen key + zset_bytes l)
  end.

(** A value and its expiration time, 0 for none. *)
Abbreviation KV := (gmap string (aval * Z)%type).
Definition ktotal (kv : KV) : Z := msum (fun k x => asize k x.1) kv.

(** ** The specification *)

Definition kexpired (now : Z) (x : aval * Z) : bool := negb (x.2 =? 0) && (x.2 <=? now).
Definition klive (now : Z) (key : string) (kv : KV) : option (aval * Z) :=
  x ← kv !! key; if kexpired now x then None else Some x.
Definition kdrop (now : Z) (key : string) (kv : KV) : KV :=
  match kv !! key with
  | Some x => if kexpired now x then delete key kv else kv
  | None => kv
  end.

Definition kset (now : Z) (key value : string) (exp : Z) (cond : setCondition) (kv : KV) : bool * KV :=
  match cond, klive now key kv with
  | setIfMissing, Some _ => (false, kdrop now key kv)
  | setIfPresent, None => (false, kdrop now key kv)
  | _, _ => (true, <[key := (AStr value, exp)]> (kdrop now key kv))
  end.

Definition kincr (now : Z) (key : string) (delta : Z) (kv : KV) : (Z + EngineError) * KV :=
  let kv' := kdrop now key kv in
  let add (n exp : Z) :=
    if (maxInt64 <? n + delta) || (n + delta <? minInt64) then (inr ErrIntOverflow, kv')
    else (inl (n + delta), <[key := (AStr (FormatInt (n + delta)), exp)]> kv') in
  match klive now key kv with
  | None => add 0 0
  | Some (AStr s, exp) => match parseInt64 s with Some n => add n exp | None => (inr ErrNotInteger, kv') end
  | Some _ => (inr ErrWrongType, kv')
  end.

Definition kexpireAt (now : Z) (key : string) (exp : Z) (kv : KV) : bool * KV :=
  match klive now key kv with
  | None => (false, kdrop now key kv)
  | Some (v, _) => (true, <[key := (v, exp)]> (kdrop now key kv))
  end.

Definition kpush (now : Z) (key : string) (values : list string) (left : bool) (kv : KV)
    : (Z + EngineError) * KV :=
  let kv' := kdrop now key kv in
  let push (l : list string) (exp : Z) :=
    let l := if left then reverse values ++ l else l ++ values in
    (inl (Z.of_nat (length l)), <[key := (AList l, exp)]> kv') in
  match klive now key kv with
  | None => push [] 0
  | Some (AList l, exp) => push l exp
  | Some _ => (inr ErrWrongType, kv')
  end.

(** The end of a list that a pop takes from. *)
Definition unpush (left : bool) (l : list string) : option (string * list string) :=
  if left then match l with [] => None | v :: l => Some (v, l) end
  else match reverse l with [] => None | v :: l => Some (v, reverse l) end.

Definition kpop (now : Z) (key : string) (left : bool) (kv : KV) : (option string + EngineError) * KV :=
  let kv' := kdrop now key kv in
  match klive now key kv with
  | None => (inl None, kv')
  | Some (AList l, exp) =>
      match unpush left l with
      | None => (inl None, kv')
      | Some (v, []) => (inl (Some v), delete key kv')
      | Some (v, l) => (inl (Some v), <[key := (AList l, exp)]> kv')
      end
  | Some _ => (inr ErrWrongType, kv')
  end.

Definition kzadd (now : Z) (key : string) (pairs : list (float64 * string)) (kv : KV) : (Z + EngineError) * KV :=
  let kv' := kdrop now key kv in
  let put (l : list (float64 * string)) (exp : Z) :=
    let '(l, added) := zaddAll pairs l 0 in (inl added, <[key := (AZSet l, exp)]> kv') in
  match klive now key kv with
  | None => put [] 0
  | Some (AZSet l, exp) => put l exp
  | Some _ => (inr ErrWrongType, kv')
  end.

(** ** The refinement relation *)

Definition abs_value (v : Value) : aval :=
  match v with
  | StringValue d => AStr d
  | ListV lv => AList (contents lv)
  | ZSetV zv => AZSet (zelems zv)
  end.
Definition abs_entry (e : Entry) : aval * Z := (abs_value (EValue e), ExpiresAtNs e).
Definition abs (g : gmap string Entry) : KV := abs_entry <$> g.

Definition store_kv (s : Store) (kv : KV) : Prop := exists g, store_rep s g /\ abs g = kv.

Lemma entry_size_abs key v : value_ok v -> entry_size key v = asize key (abs_value v).
Proof.
  destruct v as [d|lv|zv]; simpl; intros Hok.
  - done.
  - apply listEntrySize_eq.
  - by apply zsetEntrySize_eq.
Qed.

Lemma entry_ok_size key e : entry_ok key e -> SizeBytes e = asize key (abs_value (EValue e)).
Proof. intros [? ? Hv ->]. by apply entry_size_abs. Qed.

Lemma entry_ok_kind key e : entry_ok key e -> EType e = akind (abs_value (EValue e)).
Proof. intros [_ -> _ _]. by destruct (EValue e). Qed.

Lemma total_abs g : (forall k e, g !! k = Some e -> entry_ok k e) -> total g = ktotal (abs g).
Proof.
  unfold total, ktotal, abs. induction g as [|k e g Hk IH] using map_ind; intros Hok.
  - by rw fmap_empty !msum_empty.
  - rw fmap_insert !msum_insert_fresh //; [by rw lookup_fmap Hk|].
    rw IH.
    + intros k' e' Hk'. apply Hok. rw lookup_insert_ne //. intros ->. congruence.
    + rw (entry_ok_size k e) //. apply Hok. apply lookup_insert_eq.
Qed.

(** Exact accounting: [usedBytes] is the total size of the entries. *)
Lemma store_kv_used s kv : store_kv s kv -> usedBytes s = u64 (ktotal kv).
Proof. intros (g & Hrep & <-). rw (rep_used _ _ Hrep) total_abs //. apply (rep_ok _ _ Hrep). Qed.

(** Every sorted set of a represented map is in order. *)
Lemma store_kv_zseq s kv k l e : store_kv s kv -> kv !! k = Some (AZSet l, e) -> zseq_ok l.
Proof.
  intros (g & Hrep & <-). unfold abs. rw lookup_fmap. destruct (g !! k) as [en|] eqn:Hg; [|done].
  intros [= Hk _]. apply (rep_ok _ _ Hrep) in Hg as [_ _ Hv _]. destruct (EValue en); simplify_eq/=.
  by apply zset_seq.
Qed.

Lemma asize_range key v : 0 <= asize key v < 2 ^ 64.
Proof. destruct v; apply u64_range. Qed.

Lemma ktotal_nonneg kv : 0 <= ktotal kv.
Proof. apply msum_nonneg. intros k x _. apply asize_range. Qed.

Lemma kexpired_abs e now : kexpired now (abs_entry e) = IsExpired e now.
Proof. done. Qed.

Lemma klive_abs now key g : klive now key (abs g) = abs_entry <$> glive now key g.
Proof.
  unfold klive, glive, abs. rw lookup_fmap. destruct (g !! key) as [e|]; simpl; [|done].
  rw kexpired_abs. by destruct (IsExpired e now).
Qed.

Lemma kdrop_abs now key g : kdrop now key (abs g) = abs (gdrop now key g).
Proof.
  unfold kdrop, gdrop, abs. rw lookup_fmap. destruct (g !! key) as [e|]; simpl; [|done].
  rw kexpired_abs. destruct (IsExpired e now); [by rw fmap_delete|done].
Qed.

(** ** Refinement of the operations *)

Lemma glive_Some now key g e :
  glive now key g = Some e -> g !! key = Some e /\ gdrop now key g = g.
Proof.
  unfold glive, gdrop. destruct (g !! key) as [e'|]; simpl; [|done].
  destruct (IsExpired e' now); [done|]. by intros [= ->].
Qed.

Lemma glive_None now key g : glive now key g = None -> gdrop now key g !! key = None.
Proof. by rw glive_drop. Qed.

(** Every operation on [key] starts with the stripe of [key] and, if it may
    drop an expired entry, with [liveOrDrop]. *)
Lemma store_kv_stripe s kv key : store_kv s kv -> exists st, stripeFor s key = Some st.
Proof.
  intros (g & Hrep & _). destruct (stripeFor_shape s key (rep_shape _ _ Hrep)) as (i & Hi & _). by exists i.
Qed.

(** Writing an entry under [key] into a store that represents [kv]. *)
Lemma kv_insert s g st key e s' :
  store_rep s g -> stripeFor s key = Some st -> same_route s s' ->
  stripes s' = alter <[key := e]> st (stripes s) -> entry_ok key e ->
  usedBytes s' = u64 (usedBytes s + SizeBytes e - osize (g !! key)) ->
  store_kv s' (<[key := abs_entry e]> (abs g)).
Proof.
  intros Hrep Hst Hr Hs Hok Hu. exists (<[key := e]> g). split; [by eapply rep_insert|].
  unfold abs. by rw fmap_insert.
Qed.

Lemma touch_ok key e now : entry_ok key e -> entry_ok key (touchRead e now) /\ entry_ok key (touchWrite e now).
Proof. by intros [? ? ? ?]. Qed.

Lemma get_spec s kv now key touch :
  store_kv s kv ->
  exists e s', get s now key touch = Some (e, s') /\ store_kv s' (kdrop now key kv) /\
    abs_entry <$> e = klive now key kv /\ (forall x, e = Some x -> entry_ok key x).
Proof.
  intros (g & Hrep & <-). destruct (stripeFor_shape s key (rep_shape _ _ Hrep)) as (st & Hst & _).
  unfold get. rw Hst. cbn [mbind option_bind]. rw (rep_lookup _ _ Hrep) // klive_abs kdrop_abs.
  unfold glive, gdrop. destruct (g !! key) as [e|] eqn:He; cbn [mbind option_bind]; last first.
  { eexists _, _. split; [done|]. split; [by eexists|]. done. }
  pose proof (rep_ok _ _ Hrep _ _ He) as Hok.
  destruct (IsExpired e now).
  - destruct (drop_rep _ _ _ _ _ Hrep Hst He) as [Hrep' _]. eexists _, _. split; [done|]. split; [by eexists|]. done.
  - destruct touch.
    + eexists _, _. split; [done|]. split; [|split; [done|]].
      * assert (abs g = <[key := abs_entry (touchRead e now)]> (abs g)) as ->.
        { symmetry. apply insert_id. unfold abs. by rw lookup_fmap He. }
        eapply kv_insert; [done|done|exact (route_alter s _ _ _)|done|by apply touch_ok|].
        simpl. rw He /= (rep_used _ _ Hrep) -Z.add_sub_assoc Z.sub_diag Z.add_0_r u64_idemp //.
      * intros x [= <-]. by apply touch_ok.
    + eexists _, _. split; [done|]. split; [by eexists|]. split; [done|]. by intros x [= <-].
Qed.

(** An entry written over the live entry [e], or as a new one. *)
Lemma replace_kv s1 g now key st e e' s' kv' :
  store_rep s1 (gdrop now key g) -> stripeFor s1 key = Some st -> glive now key g = e ->
  stripes s' = alter <[key := e']> st (stripes s1) -> mask s' = mask s1 -> powerTwo s' = powerTwo s1 ->
  entry_ok key e' -> usedBytes s' = u64 (usedBytes s1 + SizeBytes e' - osize e) ->
  kv' = <[key := abs_entry e']> (kdrop now key (abs g)) ->
  store_kv s' kv'.
Proof.
  intros Hrep Hst He Hs Hm Hp Hok Hu ->. rw kdrop_abs. eapply kv_insert; [done|done| |done|done|].
  - unfold same_route. by rw Hs length_alter.
  - rw Hu -He glive_drop. done.
Qed.

Lemma adjust_mask s o n : mask (adjustUsed s o n) = mask s.
Proof. unfold adjustUsed. by destruct (o <=? n). Qed.
Lemma adjust_powerTwo s o n : powerTwo (adjustUsed s o n) = powerTwo s.
Proof. unfold adjustUsed. by destruct (o <=? n). Qed.

(** Solves the side conditions of [replace_kv] for the stores the operations
    build; what is left is that the entry is well formed. *)
Ltac replace_kv Hrep Hst Hl :=
  eapply replace_kv; [exact Hrep|exact Hst|exact Hl
    |cbn [storeE addUsed setUsed stripes]; rw ?stripes_adjust; cbn [storeE stripes]; reflexivity
    |..]; try done; rw ?adjust_mask ?adjust_powerTwo ?used_adjust; simpl; rw ?Z.sub_0_r; try done.

(** The prologue of the write operations. *)
Lemma start_op s g key now :
  store_rep s g ->
  exists st s1, stripeFor s key = Some st /\ liveOrDrop s st now key = (glive now key g, s1) /\
    store_rep s1 (gdrop now key g) /\ stripeFor s1 key = Some st /\ store_kv s1 (kdrop now key (abs g)).
Proof.
  intros Hrep. destruct (stripeFor_shape s key (rep_shape _ _ Hrep)) as (st & Hst & _).
  destruct (liveOrDrop_rep s g st now key Hrep Hst) as (s1 & Hl & Hrep1 & Hr1).
  exists st, s1. split_and!; [done..| |].
  - by rw (stripeFor_route _ _ key Hr1).
  - rw kdrop_abs. by eexists.
Qed.

Lemma setString_spec s kv now key value exp cond :
  store_kv s kv ->
  exists s', setString s now key value exp cond = Some ((kset now key value exp cond kv).1, s') /\
    store_kv s' (kset now key value exp cond kv).2.
Proof.
  intros (g & Hrep & <-). destruct (start_op s g key now Hrep) as (st & s1 & Hs & Hld & Hrep1 & Hst & Hs1).
  unfold setString. rw Hs. cbn [mbind option_bind]. rw Hld. cbv zeta.
  unfold kset. rw klive_abs. destruct (glive now key g) as [old|] eqn:Hl; cbn [fmap option_fmap option_map].
  - destruct cond; try (by eexists).
    all: eexists; split; [done|]; replace_kv Hrep1 Hst Hl.
  - destruct cond; try (by eexists).
    all: eexists; split; [done|]; replace_kv Hrep1 Hst Hl.
Qed.

Lemma DeleteWithSize_spec s kv key :
  store_kv s kv ->
  exists s', DeleteWithSize s key = Some ((fun x => asize key x.1) <$> kv !! key, s') /\ store_kv s' (delete key kv).
Proof.
  intros (g & Hrep & <-). destruct (stripeFor_shape s key (rep_shape _ _ Hrep)) as (st & Hst & _).
  unfold DeleteWithSize. rw Hst. cbn [mbind option_bind]. rw (rep_lookup _ _ Hrep) //. unfold abs. rw lookup_fmap.
  destruct (g !! key) as [e|] eqn:He; cbn [fmap option_fmap option_map].
  - destruct (drop_rep _ _ _ _ _ Hrep Hst He) as [Hrep' _].
    rw (entry_ok_size key e); [by apply (rep_ok _ _ Hrep)|]. eexists; split; [done|].
    rw -(entry_ok_size key e); [by apply (rep_ok _ _ Hrep)|].
    eexists; split; [exact Hrep'|]. unfold abs. by rw fmap_delete.
  - eexists; split; [done|]. rw delete_id; [by rw lookup_fmap He|]. by eexists.
Qed.

Lemma store_Delete_spec s kv key :
  store_kv s kv ->
  exists s', Store.Delete s key = Some (bool_decide (is_Some (kv !! key)), s') /\ store_kv s' (delete key kv).
Proof.
  intros Hs. destruct (DeleteWithSize_spec s kv key Hs) as (s' & Hd & Hs'). exists s'. split; [|done].
  unfold Store.Delete. rw Hd. cbn [mbind option_bind]. by destruct (kv !! key).
Qed.

Lemma SetExpireAt_spec s kv now key exp :
  store_kv s kv ->
  exists s', SetExpireAt s now key exp = Some ((kexpireAt now key exp kv).1, s') /\
    store_kv s' (kexpireAt now key exp kv).2.
Proof.
  intros (g & Hrep & <-). destruct (stripeFor_shape s key (rep_shape _ _ Hrep)) as (st & Hst & _).
  unfold SetExpireAt. rw Hst. cbn [mbind option_bind]. rw (rep_lookup _ _ Hrep) //.
  unfold kexpireAt. rw klive_abs. unfold glive. rw kdrop_abs. unfold gdrop.
  destruct (g !! key) as [e|] eqn:He; cbn [mbind option_bind]; [|by eexists; split; [|by eexists]].
  destruct (IsExpired e now) eqn:Hx; cbn [fmap option_fmap option_map].
  - destruct (drop_rep _ _ _ _ _ Hrep Hst He) as [Hrep' _]. eexists; split; [done|]. by eexists.
  - eexists; split; [done|]. unfold abs_entry at 1. cbn [fst snd].
    eapply (kv_insert s g st key (touchWrite (withExpire e exp) now)); [done|done|exact (route_alter s _ _ _)|done| |].
    + by destruct (rep_ok _ _ Hrep _ _ He).
    + simpl. rw He /= (rep_used _ _ Hrep) -Z.add_sub_assoc Z.sub_diag Z.add_0_r u64_idemp //.
Qed.

Lemma i64_sum a d :
  int64_range a -> int64_range d ->
  ((0 <? d) && (i64 (maxInt64 - d) <? a)) || ((d <? 0) && (a <? i64 (minInt64 - d))) =
  (maxInt64 <? a + d) || (a + d <? minInt64).
Proof.
  intros [Ha1 Ha2] [Hd1 Hd2]. unfold minInt64, maxInt64 in *.
  destruct (Z.ltb_spec 0 d), (Z.ltb_spec d 0); simpl; try lia.
  - rw i64_small; [unfold minInt64, maxInt64; lia|]. rw orb_false_r. lia.
  - rw i64_small; [unfold minInt64, maxInt64; lia|]. lia.
Qed.

Lemma IncrementBy_spec s kv now key delta :
  store_kv s kv -> int64_range delta ->
  exists s', IncrementBy s now key delta = Some ((kincr now key delta kv).1, s') /\
    store_kv s' (kincr now key delta kv).2.
Proof.
  intros (g & Hrep & <-) Hd. destruct (start_op s g key now Hrep) as (st & s1 & Hs & Hld & Hrep1 & Hst & Hs1).
  unfold IncrementBy. rw Hs. cbn [mbind option_bind]. rw Hld. cbv zeta.
  unfold kincr. rw klive_abs. destruct (glive now key g) as [e|] eqn:Hl; cbn [fmap option_fmap option_map].
  - pose proof Hl as [He _]%glive_Some. pose proof (rep_ok _ _ Hrep _ _ He) as [Hk Ht Hv Hsz].
    rw Ht. unfold abs_entry. destruct (EValue e) as [d|lv|zv] eqn:Hev; simpl; try (by eexists).
    destruct (parseInt64 d) as [n|] eqn:Hp; [|by eexists]. apply parseInt64_spec in Hp as [Hn _].
    rw i64_sum //. destruct (_ || _) eqn:Hov; [by eexists|].
    assert (minInt64 <= n + delta <= maxInt64) by lia. rw !i64_small //.
    eexists; split; [done|]. replace_kv Hrep1 Hst Hl.
  - rw i64_sum //. destruct (_ || _) eqn:Hov; [by eexists|].
    assert (minInt64 <= 0 + delta <= maxInt64) by lia. rw !i64_small //.
    eexists; split; [done|]. replace_kv Hrep1 Hst Hl.
Qed.

Lemma listPush_spec s kv now key values left :
  store_kv s kv ->
  exists s', listPush s now key values left = Some ((kpush now key values left kv).1, s') /\
    store_kv s' (kpush now key values left kv).2.
Proof.
  intros (g & Hrep & <-). destruct (start_op s g key now Hrep) as (st & s1 & Hs & Hld & Hrep1 & Hst & Hs1).
  unfold listPush. rw Hs. cbn [mbind option_bind]. rw Hld. cbv zeta.
  assert (forall lv, list_wf lv -> exists lv', (if left then LPush lv values else RPush lv values) =
      (lv', Z.of_nat (length (if left then reverse values ++ contents lv else contents lv ++ values))) /\
      list_wf lv' /\ contents lv' = if left then reverse values ++ contents lv else contents lv ++ values) as Hpush.
  { intros lv Hlv. destruct left.
    - pose proof (LPush_spec lv values Hlv) as H. destruct (LPush lv values) as [lv' n].
      destruct H as (H1 & H2 & ->). rw -H2. by eexists.
    - pose proof (RPush_spec lv values Hlv) as H. destruct (RPush lv values) as [lv' n].
      destruct H as (H1 & H2 & ->). rw -H2. by eexists. }
  unfold kpush. rw klive_abs. destruct (glive now key g) as [e|] eqn:Hl; cbn [fmap option_fmap option_map].
  - pose proof Hl as [He _]%glive_Some. pose proof (rep_ok _ _ Hrep _ _ He) as [Hk Ht Hv Hsz].
    rw Ht. unfold abs_entry. destruct (EValue e) as [d|lv|zv] eqn:Hev; simpl; try (by eexists).
    destruct (Hpush lv Hv) as (lv' & -> & Hwf' & Hc). eexists; split; [done|]. rw -Hc Hk.
    replace_kv Hrep1 Hst Hl.
  - destruct NewListValue_wf as [Hnw Hnc]. destruct (Hpush _ Hnw) as (lv' & -> & Hwf' & Hc). rw Hnc in Hc.
    rw Hnc. eexists; split; [done|]. simpl. rw -Hc. replace_kv Hrep1 Hst Hl.
Qed.

Lemma listPop_spec s kv now key left :
  store_kv s kv ->
  exists s', listPop s now key left = Some ((kpop now key left kv).1, s') /\
    store_kv s' (kpop now key left kv).2.
Proof.
  intros (g & Hrep & <-). destruct (stripeFor_shape s key (rep_shape _ _ Hrep)) as (st & Hst & _).
  unfold listPop. rw Hst. cbn [mbind option_bind]. rw (rep_lookup _ _ Hrep) //.
  unfold kpop. rw klive_abs kdrop_abs. unfold glive, gdrop.
  destruct (g !! key) as [e|] eqn:He; cbn [mbind option_bind]; [|by eexists; split; [|by eexists]].
  destruct (drop_rep _ _ _ _ _ Hrep Hst He) as [Hrepd _].
  destruct (IsExpired e now) eqn:Hx; cbn [fmap option_fmap option_map]; [by eexists; split; [|by eexists]|].
  pose proof (rep_ok _ _ Hrep _ _ He) as [Hk Ht Hv Hsz].
  assert (store_kv s (abs g)) as Hsg by (by eexists).
  rw Ht. unfold abs_entry. destruct (EValue e) as [d|lv|zv] eqn:Hev; simpl; try (by eexists).
  assert (match unpush left (contents lv) with
    | None => (if left then LPop lv else RPop lv) = (lv, None)
    | Some (v, l) => exists lv', (if left then LPop lv else RPop lv) = (lv', Some v) /\ list_wf lv' /\ contents lv' = l
    end) as Hpop.
  { unfold unpush. destruct left.
    - pose proof (LPop_spec lv Hv) as H. by destruct (contents lv).
    - pose proof (RPop_spec lv Hv) as H. by destruct (reverse (contents lv)). }
  destruct (unpush left (contents lv)) as [[v l]|]; [|rw Hpop; by eexists].
  destruct Hpop as (lv' & -> & Hwf' & Hc). unfold LLen. rw (contents_len _ Hwf') Hc.
  destruct l as [|v' l]; simpl.
  - eexists; split; [done|]. eexists; split; [exact Hrepd|]. unfold abs. by rw fmap_delete.
  - eexists; split; [done|]. rw -Hc Hk. change (AList (contents lv')) with (abs_value (ListV lv')).
    change (store_kv (adjustUsed (storeE s st key (touchWrite (withValue e (ListV lv') (listEntrySize key lv')) now))
      (SizeBytes e) (listEntrySize key lv')) (<[key := abs_entry (touchWrite (withValue e (ListV lv') (listEntrySize key lv')) now)]> (abs g))).
    eapply kv_insert; [exact Hrep|exact Hst| | | |].
    + eapply same_route_trans; [|apply route_adjust]. exact (route_alter s _ _ _).
    + by rw stripes_adjust.
    + split; done.
    + rw used_adjust He. done.
Qed.

Lemma zsetAdd_spec s kv now lvls key pairs :
  store_kv s kv -> (forall p, p ∈ pairs -> IsNaN p.1 = false) -> (forall k, 1 <= lvls k <= skipListMaxLevel)%nat ->
  exists s', zsetAdd s now lvls key pairs = Some ((kzadd now key pairs kv).1, s') /\
    store_kv s' (kzadd now key pairs kv).2.
Proof.
  intros (g & Hrep & <-) Hn Hlv. destruct (start_op s g key now Hrep) as (st & s1 & Hs & Hld & Hrep1 & Hst & Hs1).
  unfold zsetAdd. rw Hs. cbn [mbind option_bind]. rw Hld. cbv zeta.
  unfold kzadd. rw klive_abs. destruct (glive now key g) as [e|] eqn:Hl; cbn [fmap option_fmap option_map].
  - pose proof Hl as [He _]%glive_Some. pose proof (rep_ok _ _ Hrep _ _ He) as [Hk Ht Hv Hsz].
    rw Ht. unfold abs_entry. destruct (EValue e) as [d|lv|zv] eqn:Hev; simpl; try (by eexists).
    destruct (AddAll_spec zv lvls 0 pairs 0 Hv Hn Hlv) as (z' & n & -> & Hz' & ->). cbn [mbind option_bind].
    eexists; split; [done|]. rw Hk. replace_kv Hrep1 Hst Hl.
  - destruct NewZSetValue_ok as [Hz0 Hel0].
    destruct (AddAll_spec NewZSetValue lvls 0 pairs 0 Hz0 Hn Hlv) as (z' & n & -> & Hz' & Heq). cbn [mbind option_bind].
    rw Hel0 in Heq. rw Heq. eexists; split; [done|]. replace_kv Hrep1 Hst Hl.
Qed.

(** A store with empty stripes represents the empty map. *)
Lemma empty_rep n msk p2 :
  store_shape (mkStore (replicate n ∅) msk p2 0) -> store_kv (mkStore (replicate n ∅) msk p2 0) ∅.
Proof.
  intros Hsh. exists ∅. split; [|apply fmap_empty]. split; [done| | |].
  - intros i m k Hm. simpl in Hm. apply lookup_replicate in Hm as [-> _]. rw !lookup_empty. by case_decide.
  - intros k e. by rw lookup_empty.
  - unfold total. by rw msum_empty.
Qed.

Lemma nextPowerOfTwo_le n : 1 <= n -> n <= 2 ^ 63 -> n <= nextPowerOfTwo n.
Proof.
  intros H1 Hn. unfold nextPowerOfTwo.
  assert (forall f k, n <= 2 ^ (k + Z.of_nat f) -> 0 <= k -> n <= nextPowerOfTwo_from f (2 ^ k) n) as H.
  { induction f as [|f IH]; intros k Hk Hk0; simpl.
    - rw Z.add_0_r in Hk. done.
    - destruct (Z.ltb_spec (2 ^ k) n); [|lia]. rw Z.shiftl_mul_pow2; [lia|]. rw -Z.pow_add_r; [lia..|].
      apply IH; [|lia]. etrans; [exact Hk|]. apply Z.pow_le_mono_r; lia. }
  apply (H 64%nat 0); [|lia]. etrans; [exact Hn|]. apply Z.pow_le_mono_r; lia.
Qed.

(** [NewStore] builds an empty store with as many stripes as asked for (at
    least one). *)
Lemma NewStore_spec n :
  n < 4294967296 ->
  store_kv (NewStore n) ∅ /\ Z.of_nat (length (stripes (NewStore n))) = Z.max 1 n.
Proof.
  intros Hn. set (c := if n <? 1 then 1 else n).
  assert (c = Z.max 1 n) as Hc by (unfold c; destruct (Z.ltb_spec n 1); lia).
  assert (Z.of_nat (length (stripes (NewStore n))) = c) as Hlen.
  { unfold NewStore. fold c. simpl. rw length_replicate.
    destruct (Z.eqb_spec (nextPowerOfTwo c) c) as [->|]; lia. }
  rw -Hc. split; [|done]. unfold NewStore in *. fold c. fold c in Hlen. apply empty_rep. simpl in *. split; simpl; rw Hlen; [lia|].
  destruct (Z.eqb_spec (nextPowerOfTwo c) c) as [->|]; [|done]. intros _. unfold u32. apply Z.mod_small. lia.
Qed.

(** Sums over the stripes are sums over the represented map. *)
Definition ssum (f : string -> Entry -> Z) (ms : list (gmap string Entry)) : Z :=
  foldr (fun m z => msum f m + z) 0 ms.

Lemma ssum_alter f h ms i m :
  ms !! i = Some m -> ssum f (alter h i ms) = ssum f ms - msum f m + msum f (h m).
Proof.
  revert i; induction ms as [|m' ms IH]; intros [|i]; simpl; try done.
  - intros [= ->]. lia.
  - intros Hi. change (alter h (S i) (m' :: ms)) with (m' :: alter h i ms). simpl. rw IH //. lia.
Qed.

Lemma ssum_rep f s g : store_rep s g -> ssum f (stripes s) = msum f g.
Proof.
  revert s; induction g as [|k e g Hk IH] using map_ind; intros s Hrep.
  - rw msum_empty. assert (forall m, m ∈ stripes s -> m = ∅) as Hall.
    { intros m (i & Hm)%list_elem_of_lookup_1. apply map_eq. intros k.
      rw (rep_stripes _ _ Hrep _ _ k Hm) lookup_empty. by case_decide. }
    unfold ssum. induction (stripes s) as [|m ms IHm]; [done|]. simpl. rw (Hall m); [set_solver|].
    rw msum_empty IHm //. set_solver.
  - destruct (stripeFor_shape s k (rep_shape _ _ Hrep)) as (st & Hst & Hlt).
    destruct (lookup_lt_is_Some_2 _ _ Hlt) as [m Hm].
    assert (m !! k = Some e) as Hmk.
    { rw (rep_stripes _ _ Hrep _ _ k Hm). rw decide_True //. apply lookup_insert_eq. }
    destruct (drop_rep _ _ _ _ e Hrep Hst (lookup_insert_eq _ _ _)) as [Hrep' _].
    rw delete_insert_id // in Hrep'. apply IH in Hrep'.
    rw (ok_key _ _ (rep_ok _ _ Hrep _ _ (lookup_insert_eq _ _ _))) in Hrep'. simpl in Hrep'.
    rw (ssum_alter f _ _ _ _ Hm) msum_delete' Hmk in Hrep'. rw msum_insert_fresh //. lia.
Qed.

Lemma flushStripe_eq used m : u64 (flushStripe used m) = u64 (used - total m).
Proof.
  unfold flushStripe, total, msum. rw !map_fold_foldr. revert used.
  induction (map_to_list m) as [|[k e] l IH]; intros used; simpl; [by rw Z.sub_0_r|].
  rw u64_idemp u64_add_r -u64_add_l IH u64_add_l. unfold u64, maxUint64.
  rw -(Z.mod_add (used - (SizeBytes e + _)) 1); [done|]. f_equal. lia.
Qed.

Lemma flushStripe_range used m : u64 used = used -> u64 (flushStripe used m) = flushStripe used m.
Proof.
  intros Hu. unfold flushStripe. rw map_fold_foldr. destruct (map_to_list m) as [|[k e] l]; [done|].
  simpl. apply u64_idemp.
Qed.

(** [Flush] empties the store, its counter included, and returns the number
    of keys it held. *)
Lemma Flush_spec s kv :
  store_kv s kv ->
  exists s', Flush s = (Z.of_nat (size kv), s') /\ store_kv s' ∅.
Proof.
  intros (g & Hrep & <-). unfold Flush.
  assert (forall ms n, foldl (fun n (m : gmap string Entry) => n + Z.of_nat (size m)) n ms = n + ssum (fun _ _ => 1) ms) as Hn.
  { induction ms as [|m ms IH]; intros n; simpl; [lia|]. rw IH size_msum. lia. }
  assert (forall ms u, u64 u = u -> foldl flushStripe u ms = u64 (u - ssum (fun _ e => SizeBytes e) ms)) as Hu.
  { induction ms as [|m ms IH]; intros u Hu; simpl; [by rw Z.sub_0_r|].
    rw IH; [by apply flushStripe_range|]. rw -u64_sub_l flushStripe_eq u64_sub_l. f_equal. unfold total. lia. }
  rw Hn Hu; [rw (rep_used _ _ Hrep); apply u64_idemp|]. rw !(ssum_rep _ _ _ Hrep) (rep_used _ _ Hrep) u64_sub_l.
  fold (total g). rw Z.sub_diag Z.add_0_l -size_msum. unfold abs. rw map_size_fmap.
  eexists; split; [done|]. apply empty_rep. eapply shape_route; [|apply (rep_shape _ _ Hrep)].
  unfold same_route. simpl. by rw length_replicate.
Qed.

(** ** Sampling *)

(** The contract of [range] on a map: every entry once, in some order. *)
Definition range_ok (rng : gmap string Entry -> list Entry) : Prop :=
  forall m, rng m ≡ₚ (map_to_list m).*2.

(** The live entries in the order the scan meets them. *)
Definition scan (s : Store) (now : Z) (rng : gmap string Entry -> list Entry) : list Entry :=
  filter (fun e => IsExpired e now = false) (mjoin (rng <$> stripes s)).

Lemma sampleStripe_spec n now es result :
  Z.of_nat (length result) < n ->
  sampleStripe n now es result =
    result ++ take (Z.to_nat n - length result) (candidateOf <$> filter (fun e => IsExpired e now = false) es).
Proof.
  revert result; induction es as [|e es IH]; intros result Hn; cbn [sampleStripe].
  - by rw take_nil app_nil_r.
  - destruct (IsExpired e now) eqn:He.
    + rw filter_cons_False; [by rw He|]. by apply IH.
    + rw filter_cons_True //. rw length_app. cbn [length fmap list_fmap].
      assert (Z.to_nat n - length result = S (Z.to_nat n - length result - 1))%nat as -> by lia. simpl.
      destruct (Z.leb_spec n (Z.of_nat (length result + 1))).
      * assert (Z.to_nat n - length result - 1 = 0)%nat as -> by lia. done.
      * rw IH; [rw length_app /=; lia|]. rw -app_assoc length_app /=. do 3 f_equal. lia.
Qed.

(** [Sample(n)] is the first [n] live entries of the scan. *)
Lemma Sample_eq s now rng n :
  Sample s now rng n = take (Z.to_nat n) (candidateOf <$> scan s now rng).
Proof.
  unfold Sample, scan. assert (forall ms result, (length result <= Z.to_nat n)%nat ->
    sampleStripes n now rng ms result = result ++ take (Z.to_nat n - length result)
      (candidateOf <$> filter (fun e => IsExpired e now = false) (mjoin (rng <$> ms)))) as H.
  { induction ms as [|m ms IH]; intros result Hr; simpl; [by rw take_nil app_nil_r|].
    destruct (Z.leb_spec n (Z.of_nat (length result))).
    - assert (Z.to_nat n - length result = 0)%nat as -> by lia. by rw take_0 app_nil_r.
    - rw sampleStripe_spec //. rw IH; [rw length_app length_take; lia|].
      rw filter_app fmap_app take_app length_app length_take -app_assoc. do 2 f_equal. f_equal. lia. }
  rw H; [simpl; lia|]. simpl. by rw Nat.sub_0_r.
Qed.

(** The scan meets every live entry of the store exactly once. *)
Lemma scan_spec s g now rng :
  store_rep s g -> range_ok rng ->
  NoDup (EKey <$> scan s now rng) /\
  (forall e, e ∈ scan s now rng <-> IsExpired e now = false /\ g !! EKey e = Some e).
Proof.
  intros Hrep Hrng.
  assert (forall i m, stripes s !! i = Some m -> forall e, e ∈ rng m <-> m !! EKey e = Some e) as Hin.
  { intros i m Hm e. rw (Hrng m) list_elem_of_fmap. split.
    - intros ([k e'] & -> & Hke%elem_of_map_to_list). simpl.
      pose proof Hke as Hg. rw (rep_stripes _ _ Hrep _ _ k Hm) in Hg. case_decide; [|done].
      by rw (ok_key _ _ (rep_ok _ _ Hrep _ _ Hg)).
    - intros He. exists (EKey e, e). split; [done|]. by apply elem_of_map_to_list. }
  assert (forall i m e, stripes s !! i = Some m -> e ∈ rng m -> stripeFor s (EKey e) = Some i /\ g !! EKey e = Some e) as Hst.
  { intros i m e Hm He. apply (Hin _ _ Hm) in He. rw (rep_stripes _ _ Hrep _ _ _ Hm) in He.
    by case_decide. }
  assert (forall e, e ∈ mjoin (rng <$> stripes s) <-> g !! EKey e = Some e) as Hall.
  { intros e. rw list_elem_of_join. split.
    - intros (l & He & (m & -> & (i & Hm)%list_elem_of_lookup_1)%list_elem_of_fmap). by eapply Hst.
    - intros He. destruct (stripeFor_shape s (EKey e) (rep_shape _ _ Hrep)) as (i & Hi & Hlt).
      destruct (lookup_lt_is_Some_2 _ _ Hlt) as [m Hm]. exists (rng m). split.
      + apply (Hin _ _ Hm). rw (rep_stripes _ _ Hrep _ _ _ Hm). by rw decide_True.
      + apply list_elem_of_fmap_2. by eapply list_elem_of_lookup_2. }
  split.
  - unfold scan. apply NoDup_fmap_filter_key.
    assert (forall ms k, (forall i m, ms !! i = Some m -> stripes s !! (k + i)%nat = Some m) ->
      NoDup (EKey <$> mjoin (rng <$> ms))) as H; [|by apply (H _ O)].
    induction ms as [|m ms IH]; intros k Hms; [constructor|]. simpl. rw fmap_app. apply NoDup_app; split_and!.
    + assert (stripes s !! k = Some m) as Hm by (rw -(Nat.add_0_r k); by apply Hms).
      rw (Hrng m) -list_fmap_compose. rw (list_fmap_ext _ fst); [|apply NoDup_fst_map_to_list].
      intros i [k' e'] Hi%list_elem_of_lookup_2%elem_of_map_to_list. simpl.
      rw (rep_stripes _ _ Hrep _ _ _ Hm) in Hi. case_decide; [|done].
      apply (ok_key _ _ (rep_ok _ _ Hrep _ _ Hi)).
    + intros x (e & -> & He)%list_elem_of_fmap (e' & Heq & He')%list_elem_of_fmap.
      apply (Hst k m) in He as [He _]; [|rw -(Nat.add_0_r k); by apply Hms].
      apply list_elem_of_join in He' as (l & Hl & Hml). apply list_elem_of_fmap in Hml as (m' & -> & Hm').
      apply list_elem_of_lookup_1 in Hm' as [i Hm'].
      destruct (Hst (k + S i)%nat m' e') as [Hs' _]; [by apply Hms|done|].
      rw Heq Hs' in He. injection He. lia.
    + apply (IH (S k)). intros i m' Hm'. assert (S k + i = k + S i)%nat as -> by lia. by apply Hms.
  - intros e. unfold scan. by rw list_elem_of_filter Hall.
Qed.

(** ** The theorems *)

(** The eviction sample: every sampled candidate is an unexpired entry of the
    store with its accounted size, no key is sampled twice, at most [n]
    candidates are returned, and all unexpired entries if there are fewer. *)
Theorem sample_live s kv now rng n :
  store_kv s kv -> range_ok rng -> 0 < n ->
  let sample := Sample s now rng n in
  NoDup (CKey <$> sample) /\ Z.of_nat (length sample) <= n /\
  (forall c, c ∈ sample -> exists x, kv !! CKey c = Some x /\ kexpired now x = false /\ CSizeBytes c = asize (CKey c) x.1) /\
  (Z.of_nat (length sample) < n -> forall k x, kv !! k = Some x -> kexpired now x = false -> k ∈ CKey <$> sample).
Proof.
  intros (g & Hrep & <-) Hrng Hn. cbv zeta. destruct (scan_spec s g now rng Hrep Hrng) as [Hnd Hin]. rw Sample_eq //.
  assert (CKey <$> (candidateOf <$> scan s now rng) = EKey <$> scan s now rng) as Hkeys by by rw -list_fmap_compose.
  rw length_take length_fmap. split_and!.
  - rw fmap_take Hkeys. by apply (sublist_NoDup _ (EKey <$> scan s now rng)); [|apply sublist_take].
  - lia.
  - intros c Hc%elem_of_take. destruct Hc as (i & Hc & _). apply list_elem_of_lookup_2, list_elem_of_fmap in Hc as (e & -> & He).
    apply Hin in He as [Hx Hg]. exists (abs_entry e). unfold abs. simpl. rw lookup_fmap Hg. split_and!; [done|done|].
    apply (entry_ok_size (EKey e)). by apply (rep_ok _ _ Hrep).
  - intros Hlen k x Hk Hx. rw take_ge; [rw length_fmap; lia|]. rw Hkeys. unfold abs in Hk. rw lookup_fmap in Hk.
    destruct (g !! k) as [e|] eqn:Hg; [|done]. injection Hk as <-. pose proof (ok_key _ _ (rep_ok _ _ Hrep _ _ Hg)) as <-.
    apply list_elem_of_fmap_2. by apply Hin.
Qed.

Lemma sample_live_witness :
  exists s, store_kv s {["k" := (AStr "v", 0)]} /\
  let sample := Sample s 5 (fun m => (map_to_list m).*2) 16 in
  NoDup (CKey <$> sample) /\ Z.of_nat (length sample) <= 16 /\
  (forall c, c ∈ sample -> exists x, ({["k" := (AStr "v", 0)]} : KV) !! CKey c = Some x /\ kexpired 5 x = false /\
    CSizeBytes c = asize (CKey c) x.1) /\
  (Z.of_nat (length sample) < 16 -> forall k x, ({["k" := (AStr "v", 0)]} : KV) !! k = Some x -> kexpired 5 x = false ->
    k ∈ CKey <$> sample).
Proof.
  destruct (setString_spec (NewStore 4) ∅ 0 "k" "v" 0 setAlways) as (s & _ & Hs); [by apply NewStore_spec|].
  exists s. split; [done|]. apply (sample_live s {["k" := (AStr "v", 0)]} 5); [done|by intros m|done].
Defined.
