(* ===== verification/Executor.v ===== *)
(** * Command execution: [internal/engine/executor.go],
    [command_handlers.go], [commands.go] and the handlers of [string_ops.go],
    [list_ops.go] and [zset_ops.go]

    The outside world of a command is an [Env]: the readings of the clock,
    the coin tosses of [randomLevel] and the orders in which [range] visits a
    map.  Each consultation of it uses up a tick, so that a command may see
    the clock move between two readings.  A handler is a computation in [M]:
    it threads the store and the tick; [None] is a run-time panic. *)
From S2P Require Import Prelude GoText GoFloat GoFloatText Resp ListValue SkipList ZSetValue Store.
Local Open Scope Z_scope.

Class Env := mkEnv {
  clock : nat -> Z;
  coins : nat -> nat -> nat -> bool;
  visit : nat -> gmap string Entry -> list Entry
}.

Record Sys := mkSys { sysStore : Store; tick : nat }.

Definition M (A : Type) : Type := Sys -> option (A * Sys).
#[export] Instance M_ret : MRet M := fun A a w => Some (a, w).
#[export] Instance M_bind : MBind M := fun A B f m w => '(a, w') ← m w; f a w'.

Definition onStore {A} (f : Store -> option (A * Store)) : M A := fun w =>
  '(a, s) ← f (sysStore w); Some (a, mkSys s (tick w)).
Definition panic {A} : M A := fun _ => None.
(** A computation that only reads the clock. *)
Definition onTick {A} (f : nat -> A * nat) : M A := fun w =>
  let '(a, t) := f (tick w) in Some (a, mkSys (sysStore w) t).

(** ** Replies *)

Definition wrongArgs (cmdName : string) : Frame :=
  NewError "ERR" ("wrong number of arguments for '" +:+ cmdName +:+ "' command").
Definition wrongTypeError : Frame :=
  NewError "WRONGTYPE" "Operation against a key holding the wrong kind of value".
Definition notIntegerError : Frame := NewError "ERR" "value is not an integer or out of range".
Definition syntaxError : Frame := NewError "ERR" "syntax error".
Definition invalidExpire (cmdName : string) : Frame :=
  NewError "ERR" ("invalid expire time in '" +:+ cmdName +:+ "' command").

(** ** [commands.go] *)

Definition writeCommands : list string :=
  ["SET"; "DEL"; "EXPIRE"; "INCR"; "LPUSH"; "RPUSH"; "LPOP"; "RPOP"; "ZADD"; "FLUSHDB"; "FLUSHALL"].
Definition IsWriteCommand (name : string) : bool := bool_decide (name ∈ writeCommands).

Section executor.
Context `{Env}.

Definition nowNanos : M Z := fun w => Some (clock (tick w), mkSys (sysStore w) (S (tick w))).

(** [expirationFromNow] of [util.go]: the clock is read only once the
    value has passed the first check. *)
Definition expirationFromNow (value unitNanos : Z) (t : nat) : option Z * nat :=
  if (value <=? 0) || (maxInt64 / unitNanos <? value) then (None, t)
  else
    let delta := i64 (value * unitNanos) in
    let now := clock t in
    if i64 (maxInt64 - delta) <? now then (None, S t) else (Some (i64 (now + delta)), S t).

(** *** SET *)

Record setOptions := mkSetOptions { expiresAtNs : Z; condition : setCondition }.

(** The [EX]/[PX] case once the argument [v] is there. *)
Definition setExpiration (hasExpiration : bool) (unitNanos : Z) (v : string) (opts : setOptions) (t : nat)
    : (setOptions + Frame) * nat :=
  if hasExpiration then (inr syntaxError, t)
  else match parseInt64 v with
  | None => (inr notIntegerError, t)
  | Some n =>
      match expirationFromNow n unitNanos t with
      | (None, t) => (inr (invalidExpire "set"), t)
      | (Some exp, t) => (inl (mkSetOptions exp (condition opts)), t)
      end
  end.

Fixpoint parseSetOptions_loop (args : list string) (opts : setOptions) (hasExpiration : bool) (t : nat)
    : (setOptions + Frame) * nat :=
  match args with
  | [] => (inl opts, t)
  | a :: rest =>
      let name := upperASCII a in
      if String.eqb name "EX" || String.eqb name "PX" then
        match rest with
        | [] => (inr syntaxError, t)
        | v :: rest' =>
            match setExpiration hasExpiration (if String.eqb name "EX" then 1000000000 else 1000000) v opts t with
            | (inr f, t) => (inr f, t)
            | (inl opts, t) => parseSetOptions_loop rest' opts true t
            end
        end
      else if String.eqb name "NX" then
        if bool_decide (condition opts = setIfPresent) then (inr syntaxError, t)
        else parseSetOptions_loop rest (mkSetOptions (expiresAtNs opts) setIfMissing) hasExpiration t
      else if String.eqb name "XX" then
        if bool_decide (condition opts = setIfMissing) then (inr syntaxError, t)
        else parseSetOptions_loop rest (mkSetOptions (expiresAtNs opts) setIfPresent) hasExpiration t
      else (inr syntaxError, t)
  end.
Definition parseSetOptions (args : list string) (t : nat) : (setOptions + Frame) * nat :=
  parseSetOptions_loop args (mkSetOptions 0 setAlways) false t.

Definition cmdSet (cmd : Command) : M Frame :=
  match Args cmd with
  | key :: value :: rest =>
      r ← onTick (parseSetOptions rest);
      match r with
      | inr frame => mret frame
      | inl opts =>
          now ← nowNanos;
          ok ← onStore (fun s => setString s now key value (expiresAtNs opts) (condition opts));
          mret (if (ok : bool) then OK else NullBulk)
      end
  | _ => mret (wrongArgs "set")
  end.

Definition cmdGet (cmd : Command) : M Frame :=
  match Args cmd with
  | [key] =>
      now ← nowNanos;
      e ← onStore (fun s => Get s now key);
      match e with
      | None => mret NullBulk
      | Some e =>
          if negb (bool_decide (EType e = ValueTypeString)) then mret wrongTypeError
          else match EValue e with StringValue data => mret (BulkBytes data) | _ => panic end
      end
  | _ => mret (wrongArgs "get")
  end.

Definition cmdIncr (cmd : Command) : M Frame :=
  match Args cmd with
  | [key] =>
      now ← nowNanos;
      r ← onStore (fun s => IncrementBy s now key 1);
      mret (match r with
            | inl next => Integer next
            | inr ErrWrongType => wrongTypeError
            | inr ErrNotInteger => notIntegerError
            | inr ErrIntOverflow => NewError "ERR" "increment or decrement would overflow"
            end)
  | _ => mret (wrongArgs "incr")
  end.

(** *** Generic commands *)

Definition cmdPing (cmd : Command) : M Frame :=
  match Args cmd with
  | [] => mret Pong
  | [a] => mret (BulkBytes a)
  | _ => mret (wrongArgs "ping")
  end.

Definition cmdEcho (cmd : Command) : M Frame :=
  match Args cmd with
  | [a] => mret (BulkBytes a)
  | _ => mret (wrongArgs "echo")
  end.

Fixpoint delLoop (keys : list string) (deleted : Z) : M Z :=
  match keys with
  | [] => mret deleted
  | k :: keys =>
      ok ← onStore (fun s => Store.Delete s k);
      delLoop keys (deleted + Z.b2z ok)
  end.
Definition cmdDel (cmd : Command) : M Frame :=
  match Args cmd with
  | [] => mret (wrongArgs "del")
  | keys => n ← delLoop keys 0; mret (Integer n)
  end.

Fixpoint existsLoop (keys : list string) (count : Z) : M Z :=
  match keys with
  | [] => mret count
  | k :: keys =>
      now ← nowNanos;
      ok ← onStore (fun s => Exists s now k);
      existsLoop keys (count + Z.b2z ok)
  end.
Definition cmdExists (cmd : Command) : M Frame :=
  match Args cmd with
  | [] => mret (wrongArgs "exists")
  | keys => n ← existsLoop keys 0; mret (Integer n)
  end.

Definition cmdExpire (cmd : Command) : M Frame :=
  match Args cmd with
  | [key; secs] =>
      match parseInt64 secs with
      | None => mret notIntegerError
      | Some seconds =>
          if seconds <=? 0 then
            ok ← onStore (fun s => Store.Delete s key);
            mret (Integer (Z.b2z ok))
          else
            exp ← onTick (expirationFromNow seconds 1000000000);
            match exp with
            | None => mret (invalidExpire "expire")
            | Some exp =>
                now ← nowNanos;
                ok ← onStore (fun s => SetExpireAt s now key exp);
                mret (Integer (Z.b2z ok))
            end
      end
  | _ => mret (wrongArgs "expire")
  end.

(** The remaining time to live, rounded up to seconds. *)
Definition ttlSeconds (exp now : Z) : Z :=
  let remaining := i64 (exp - now) in
  if remaining <=? 0 then -2 else Z.quot (i64 (remaining + 1000000000 - 1)) 1000000000.

Definition cmdTTL (cmd : Command) : M Frame :=
  match Args cmd with
  | [key] =>
      now ← nowNanos;
      e ← onStore (fun s => Peek s now key);
      match e with
      | None => mret (Integer (-2))
      | Some e =>
          if ExpiresAtNs e =? 0 then mret (Integer (-1))
          else now ← nowNanos; mret (Integer (ttlSeconds (ExpiresAtNs e) now))
      end
  | _ => mret (wrongArgs "ttl")
  end.

(** *** Lists *)

Definition pushReply (r : Z + EngineError) : Frame :=
  match r with inl n => Integer n | inr _ => wrongTypeError end.
Definition popReply (r : option string + EngineError) : Frame :=
  match r with inl (Some v) => BulkBytes v | inl None => NullBulk | inr _ => wrongTypeError end.

Definition cmdLPush (cmd : Command) : M Frame :=
  match Args cmd with
  | key :: v :: vs =>
      now ← nowNanos;
      r ← onStore (fun s => listPush s now key (v :: vs) true);
      mret (pushReply r)
  | _ => mret (wrongArgs "lpush")
  end.
Definition cmdRPush (cmd : Command) : M Frame :=
  match Args cmd with
  | key :: v :: vs =>
      now ← nowNanos;
      r ← onStore (fun s => listPush s now key (v :: vs) false);
      mret (pushReply r)
  | _ => mret (wrongArgs "rpush")
  end.
Definition cmdLPop (cmd : Command) : M Frame :=
  match Args cmd with
  | [key] =>
      now ← nowNanos;
      r ← onStore (fun s => listPop s now key true);
      mret (popReply r)
  | _ => mret (wrongArgs "lpop")
  end.
Definition cmdRPop (cmd : Command) : M Frame :=
  match Args cmd with
  | [key] =>
      now ← nowNanos;
      r ← onStore (fun s => listPop s now key false);
      mret (popReply r)
  | _ => mret (wrongArgs "rpop")
  end.
Definition cmdLLen (cmd : Command) : M Frame :=
  match Args cmd with
  | [key] =>
      now ← nowNanos;
      e ← onStore (fun s => Peek s now key);
      match e with
      | None => mret (Integer 0)
      | Some e =>
          if negb (bool_decide (EType e = ValueTypeList)) then mret wrongTypeError
          else match EValue e with ListV lv => mret (Integer (LLen lv)) | _ => panic end
      end
  | _ => mret (wrongArgs "llen")
  end.

(** *** Sorted sets *)

Fixpoint parseZAddPairs_loop (args : list string) : list (float64 * string) + Frame :=
  match args with
  | [] => inl []
  | [_] => inl []
  | a :: m :: rest =>
      match ParseFloat a with
      | Some score =>
          if IsNaN score then inr (NewError "ERR" "value is not a valid float")
          else match parseZAddPairs_loop rest with
          | inl pairs => inl ((score, m) :: pairs)
          | inr f => inr f
          end
      | None => inr (NewError "ERR" "value is not a valid float")
      end
  end.
Definition parseZAddPairs (args : list string) : list (float64 * string) + Frame :=
  if (Z.of_nat (length args) <? 2) || negb (Z.of_nat (length args) mod 2 =? 0) then inr (wrongArgs "zadd")
  else parseZAddPairs_loop args.

(** The levels drawn while adding the pairs of one command. *)
Definition drawLevels : M (nat -> nat) := fun w =>
  Some (fun i => randomLevel (coins (tick w) i), mkSys (sysStore w) (S (tick w))).

Definition cmdZAdd (cmd : Command) : M Frame :=
  match Args cmd with
  | key :: rest =>
      if (Z.of_nat (length (Args cmd)) <? 3) || negb (Z.of_nat (length rest) mod 2 =? 0)
      then mret (wrongArgs "zadd")
      else match parseZAddPairs rest with
      | inr frame => mret frame
      | inl pairs =>
          now ← nowNanos;
          lvls ← drawLevels;
          r ← onStore (fun s => zsetAdd s now lvls key pairs);
          mret (pushReply r)
      end
  | [] => mret (wrongArgs "zadd")
  end.

Definition zrangeReply (withScores : bool) (members : list (float64 * string)) : Frame :=
  Array (mjoin ((fun m : float64 * string =>
    BulkFromString m.2 :: (if withScores then [BulkFromString (formatFloat64 m.1)] else [])) <$> members)) false.

(** The optional fourth argument of ZRANGE. *)
Definition zrangeOption (opt : list string) : option bool :=
  match opt with
  | [] => Some false
  | o :: _ => if String.eqb (upperASCII o) "WITHSCORES" then Some true else None
  end.

Definition cmdZRange (cmd : Command) : M Frame :=
  match Args cmd with
  | [key; a; b] | [key; a; b; _] =>
      match parseInt64 a, parseInt64 b with
      | Some start, Some stop =>
          match zrangeOption (drop 3 (Args cmd)) with
          | None => mret syntaxError
          | Some withScores =>
              now ← nowNanos;
              e ← onStore (fun s => Get s now key);
              match e with
              | None => mret (Array [] false)
              | Some e =>
                  if negb (bool_decide (EType e = ValueTypeZSet)) then mret wrongTypeError
                  else match EValue e with
                  | ZSetV zv =>
                      match ZRange zv start stop with
                      | Some members => mret (zrangeReply withScores members)
                      | None => panic
                      end
                  | _ => panic
                  end
              end
          end
      | _, _ => mret notIntegerError
      end
  | _ => mret (wrongArgs "zrange")
  end.

Definition cmdZCard (cmd : Command) : M Frame :=
  match Args cmd with
  | [key] =>
      now ← nowNanos;
      e ← onStore (fun s => Peek s now key);
      match e with
      | None => mret (Integer 0)
      | Some e =>
          if negb (bool_decide (EType e = ValueTypeZSet)) then mret wrongTypeError
          else match EValue e with ZSetV zv => mret (Integer (Card zv)) | _ => panic end
      end
  | _ => mret (wrongArgs "zcard")
  end.

Definition cmdZScore (cmd : Command) : M Frame :=
  match Args cmd with
  | [key; member] =>
      now ← nowNanos;
      e ← onStore (fun s => Get s now key);
      match e with
      | None => mret NullBulk
      | Some e =>
          if negb (bool_decide (EType e = ValueTypeZSet)) then mret wrongTypeError
          else match EValue e with
          | ZSetV zv =>
              mret (match ZScore zv member with
                    | Some score => BulkFromString (formatFloat64 score)
                    | None => NullBulk
                    end)
          | _ => panic
          end
      end
  | _ => mret (wrongArgs "zscore")
  end.

(** *** Dispatch: [Executor.Execute] *)

Definition flushAll : M unit := onStore (fun s => Some (tt, (Flush s).2)).

Definition Execute (cmd : Command) : M Frame :=
  let named (n : string) := String.eqb (Name cmd) n in
  if named "PING" then cmdPing cmd
  else if named "ECHO" then cmdEcho cmd
  else if named "QUIT" then mret (match Args cmd with [] => OK | _ => wrongArgs "quit" end)
  else if named "COMMAND" then mret (Array [] false)
  else if named "CLIENT" then mret OK
  else if named "HELLO" then mret (NewError "ERR" "HELLO not supported (RESP2 only)")
  else if named "FLUSHDB" || named "FLUSHALL" then
    match Args cmd with
    | [] => flushAll;; mret OK
    | _ => mret (wrongArgs (if named "FLUSHDB" then "flushdb" else "flushall"))
    end
  else if named "DEL" then cmdDel cmd
  else if named "EXISTS" then cmdExists cmd
  else if named "EXPIRE" then cmdExpire cmd
  else if named "TTL" then cmdTTL cmd
  else if named "SET" then cmdSet cmd
  else if named "GET" then cmdGet cmd
  else if named "INCR" then cmdIncr cmd
  else if named "LPUSH" then cmdLPush cmd
  else if named "RPUSH" then cmdRPush cmd
  else if named "LPOP" then cmdLPop cmd
  else if named "RPOP" then cmdRPop cmd
  else if named "LLEN" then cmdLLen cmd
  else if named "ZADD" then cmdZAdd cmd
  else if named "ZRANGE" then cmdZRange cmd
  else if named "ZCARD" then cmdZCard cmd
  else if named "ZSCORE" then cmdZScore cmd
  else mret (NewError "ERR" ("unknown command '" +:+ Name cmd +:+ "'")).
End executor.

(** A concrete world: a clock that advances by a second per reading, a coin
    that always stops, maps visited in key order. *)
Definition steadyEnv : Env :=
  mkEnv (fun t => 1000000000 * Z.of_nat (S t)) (fun _ _ _ => false) (fun _ m => (map_to_list m).*2).
