(* ===== verification/ExecutorSpec.v ===== *)
(** * The command semantics, and that the engine implements it

    [spec_execute] gives the meaning of every command on the abstract map of
    [StoreSpec]: a reply, a new map, and how many times the clock is read.
    [Execute_spec] shows that the executor, run on any store that
    represents the map, gives the same reply, reads the clock the same number
    of times, leaves a store that represents the new map, and never panics. *)
From S2P Require Import Prelude GoText GoFloat GoFloatText Resp ListValue SkipList ZSetValue Store StoreSpec Executor.
Local Open Scope Z_scope.

(** Run the monad up to the next store operation. *)
Ltac run :=
  cbv beta iota zeta delta [mbind M_bind option_bind nowNanos onStore onTick tick sysStore mret M_ret panic].

Section spec.
Context `{Env}.

(** Reply, map and tick after a command. *)
Definition Out : Type := Frame * KV * nat.

Definition spec_set (args : list string) (kv : KV) (t : nat) : Out :=
  match args with
  | key :: value :: rest =>
      match parseSetOptions rest t with
      | (inr f, t) => (f, kv, t)
      | (inl o, t) =>
          let '(ok, kv) := kset (clock t) key value (expiresAtNs o) (condition o) kv in
          (if ok then OK else NullBulk, kv, S t)
      end
  | _ => (wrongArgs "set", kv, t)
  end.

(** A command that reads the value under one key. *)
Definition spec_read (key : string) (none : Frame) (f : aval -> Frame) (kv : KV) (t : nat) : Out :=
  let now := clock t in
  (match klive now key kv with None => none | Some (v, _) => f v end, kdrop now key kv, S t).

Definition spec_get (args : list string) (kv : KV) (t : nat) : Out :=
  match args with
  | [key] => spec_read key NullBulk (fun v => match v with AStr d => BulkBytes d | _ => wrongTypeError end) kv t
  | _ => (wrongArgs "get", kv, t)
  end.

Definition spec_incr (args : list string) (kv : KV) (t : nat) : Out :=
  match args with
  | [key] =>
      let '(r, kv) := kincr (clock t) key 1 kv in
      (match r with
       | inl n => Integer n
       | inr ErrWrongType => wrongTypeError
       | inr ErrNotInteger => notIntegerError
       | inr ErrIntOverflow => NewError "ERR" "increment or decrement would overflow"
       end, kv, S t)
  | _ => (wrongArgs "incr", kv, t)
  end.

(** DEL does not look at expirations: it counts and removes whatever is
    stored. *)
Fixpoint spec_del_loop (keys : list string) (n : Z) (kv : KV) : Z * KV :=
  match keys with
  | [] => (n, kv)
  | k :: keys => spec_del_loop keys (n + Z.b2z (bool_decide (is_Some (kv !! k)))) (delete k kv)
  end.
Definition spec_del (args : list string) (kv : KV) (t : nat) : Out :=
  match args with
  | [] => (wrongArgs "del", kv, t)
  | keys => let '(n, kv) := spec_del_loop keys 0 kv in (Integer n, kv, t)
  end.

Fixpoint spec_exists_loop (keys : list string) (n : Z) (kv : KV) (t : nat) : Z * KV * nat :=
  match keys with
  | [] => (n, kv, t)
  | k :: keys =>
      spec_exists_loop keys (n + Z.b2z (bool_decide (is_Some (klive (clock t) k kv)))) (kdrop (clock t) k kv) (S t)
  end.
Definition spec_exists (args : list string) (kv : KV) (t : nat) : Out :=
  match args with
  | [] => (wrongArgs "exists", kv, t)
  | keys => let '(n, kv, t) := spec_exists_loop keys 0 kv t in (Integer n, kv, t)
  end.

Definition spec_expire (args : list string) (kv : KV) (t : nat) : Out :=
  match args with
  | [key; secs] =>
      match parseInt64 secs with
      | None => (notIntegerError, kv, t)
      | Some seconds =>
          if seconds <=? 0 then (Integer (Z.b2z (bool_decide (is_Some (kv !! key)))), delete key kv, t)
          else match expirationFromNow seconds 1000000000 t with
          | (None, t) => (invalidExpire "expire", kv, t)
          | (Some exp, t) =>
              let '(ok, kv) := kexpireAt (clock t) key exp kv in (Integer (Z.b2z ok), kv, S t)
          end
      end
  | _ => (wrongArgs "expire", kv, t)
  end.

Definition spec_ttl (args : list string) (kv : KV) (t : nat) : Out :=
  match args with
  | [key] =>
      let now := clock t in
      match klive now key kv with
      | None => (Integer (-2), kdrop now key kv, S t)
      | Some (_, exp) =>
          if exp =? 0 then (Integer (-1), kdrop now key kv, S t)
          else (Integer (ttlSeconds exp (clock (S t))), kdrop now key kv, S (S t))
      end
  | _ => (wrongArgs "ttl", kv, t)
  end.

Definition spec_push (name : string) (left : bool) (args : list string) (kv : KV) (t : nat) : Out :=
  match args with
  | key :: v :: vs => let '(r, kv) := kpush (clock t) key (v :: vs) left kv in (pushReply r, kv, S t)
  | _ => (wrongArgs name, kv, t)
  end.
Definition spec_pop (name : string) (left : bool) (args : list string) (kv : KV) (t : nat) : Out :=
  match args with
  | [key] => let '(r, kv) := kpop (clock t) key left kv in (popReply r, kv, S t)
  | _ => (wrongArgs name, kv, t)
  end.
Definition spec_llen (args : list string) (kv : KV) (t : nat) : Out :=
  match args with
  | [key] =>
      spec_read key (Integer 0)
        (fun v => match v with AList l => Integer (Z.of_nat (length l)) | _ => wrongTypeError end) kv t
  | _ => (wrongArgs "llen", kv, t)
  end.

Definition spec_zadd (args : list string) (kv : KV) (t : nat) : Out :=
  match args with
  | key :: rest =>
      if (Z.of_nat (length args) <? 3) || negb (Z.of_nat (length rest) mod 2 =? 0)
      then (wrongArgs "zadd", kv, t)
      else match parseZAddPairs rest with
      | inr f => (f, kv, t)
      | inl pairs => let '(r, kv) := kzadd (clock t) key pairs kv in (pushReply r, kv, S (S t))
      end
  | [] => (wrongArgs "zadd", kv, t)
  end.
Definition spec_zrange (args : list string) (kv : KV) (t : nat) : Out :=
  match args with
  | [key; a; b] | [key; a; b; _] =>
      match parseInt64 a, parseInt64 b with
      | Some start, Some stop =>
          match zrangeOption (drop 3 args) with
          | None => (syntaxError, kv, t)
          | Some ws =>
              spec_read key (Array [] false)
                (fun v => match v with AZSet l => zrangeReply ws (zrange start stop l) | _ => wrongTypeError end) kv t
          end
      | _, _ => (notIntegerError, kv, t)
      end
  | _ => (wrongArgs "zrange", kv, t)
  end.
Definition spec_zcard (args : list string) (kv : KV) (t : nat) : Out :=
  match args with
  | [key] =>
      spec_read key (Integer 0)
        (fun v => match v with AZSet l => Integer (Z.of_nat (length l)) | _ => wrongTypeError end) kv t
  | _ => (wrongArgs "zcard", kv, t)
  end.
Definition spec_zscore (args : list string) (kv : KV) (t : nat) : Out :=
  match args with
  | [key; member] =>
      spec_read key NullBulk
        (fun v => match v with
                  | AZSet l => match zmap l !! member with Some s => BulkFromString (formatFloat64 s) | None => NullBulk end
                  | _ => wrongTypeError
                  end) kv t
  | _ => (wrongArgs "zscore", kv, t)
  end.

Definition spec_execute (cmd : Command) (kv : KV) (t : nat) : Out :=
  let args := Args cmd in
  let named (n : string) := String.eqb (Name cmd) n in
  if named "PING" then (match args with [] => Pong | [a] => BulkBytes a | _ => wrongArgs "ping" end, kv, t)
  else if named "ECHO" then (match args with [a] => BulkBytes a | _ => wrongArgs "echo" end, kv, t)
  else if named "QUIT" then (match args with [] => OK | _ => wrongArgs "quit" end, kv, t)
  else if named "COMMAND" then (Array [] false, kv, t)
  else if named "CLIENT" then (OK, kv, t)
  else if named "HELLO" then (NewError "ERR" "HELLO not supported (RESP2 only)", kv, t)
  else if named "FLUSHDB" || named "FLUSHALL" then
    match args with
    | [] => (OK, ∅, t)
    | _ => (wrongArgs (if named "FLUSHDB" then "flushdb" else "flushall"), kv, t)
    end
  else if named "DEL" then spec_del args kv t
  else if named "EXISTS" then spec_exists args kv t
  else if named "EXPIRE" then spec_expire args kv t
  else if named "TTL" then spec_ttl args kv t
  else if named "SET" then spec_set args kv t
  else if named "GET" then spec_get args kv t
  else if named "INCR" then spec_incr args kv t
  else if named "LPUSH" then spec_push "lpush" true args kv t
  else if named "RPUSH" then spec_push "rpush" false args kv t
  else if named "LPOP" then spec_pop "lpop" true args kv t
  else if named "RPOP" then spec_pop "rpop" false args kv t
  else if named "LLEN" then spec_llen args kv t
  else if named "ZADD" then spec_zadd args kv t
  else if named "ZRANGE" then spec_zrange args kv t
  else if named "ZCARD" then spec_zcard args kv t
  else if named "ZSCORE" then spec_zscore args kv t
  else (NewError "ERR" ("unknown command '" +:+ Name cmd +:+ "'"), kv, t).

(** ** Refinement *)

(** The computation [m] implements [f] on every store that represents the
    abstract map. *)
Definition refines {A} (m : M A) (f : KV -> nat -> A * KV * nat) : Prop :=
  forall s kv t, store_kv s kv ->
    exists s', m (mkSys s t) = Some ((f kv t).1.1, mkSys s' (f kv t).2) /\ store_kv s' (f kv t).1.2.

Lemma refines_ret {A} (a : A) : refines (mret a) (fun kv t => (a, kv, t)).
Proof. intros s kv t Hs. by eexists. Qed.

(** Reading the entry under a key, with or without touching it. *)
Lemma refines_get {B} key touch (k : option Entry -> M B) gN gS :
  refines (k None) gN -> (forall e, entry_ok key e -> refines (k (Some e)) (gS (abs_entry e))) ->
  refines (now ← nowNanos; e ← onStore (fun s => get s now key touch); k e)
    (fun kv t => match klive (clock t) key kv with
                 | None => gN (kdrop (clock t) key kv) (S t)
                 | Some x => gS x (kdrop (clock t) key kv) (S t)
                 end).
Proof.
  intros HN HS s kv t Hs. run.
  destruct (get_spec s kv (clock t) key touch Hs) as (e & s1 & -> & Hs1 & Hl & Hok). run.
  rw -Hl. destruct e as [e|]; cbn [fmap option_fmap option_map].
  - by apply HS; [apply Hok|].
  - by apply HN.
Qed.

(** The kind of an entry decides the type checks of the handlers. *)
Lemma kind_check key e ty :
  entry_ok key e -> negb (bool_decide (EType e = ty)) = negb (bool_decide (akind (abs_value (EValue e)) = ty)).
Proof. intros Hok. by rw (entry_ok_kind _ _ Hok). Qed.

Lemma cmdSet_refines cmd : refines (cmdSet cmd) (spec_set (Args cmd)).
Proof.
  unfold cmdSet, spec_set. destruct (Args cmd) as [|key [|value rest]]; try apply refines_ret.
  intros s kv t Hs. run. destruct (parseSetOptions rest t) as [[o|f] t1]; run; [|by eexists].
  destruct (setString_spec s kv (clock t1) key value (expiresAtNs o) (condition o) Hs) as (s' & -> & Hs').
  run. destruct (kset _ _ _ _ _ _) as [ok kv']. by eexists.
Qed.

(** A handler that reads one key and answers from its value. *)
Lemma refines_read key touch none f (k : option Entry -> M Frame) :
  k None = mret none -> (forall e, entry_ok key e -> k (Some e) = mret (f (abs_value (EValue e)))) ->
  refines (now ← nowNanos; e ← onStore (fun s => get s now key touch); k e) (spec_read key none f).
Proof.
  intros HN HS s kv t Hs.
  destruct (refines_get key touch k (fun kv t => (none, kv, t)) (fun x kv t => (f x.1, kv, t))) with (s := s) (kv := kv) (t := t)
    as (s' & Hm & Hs'); [rw HN; apply refines_ret|intros e He; rw HS //; apply refines_ret|done|].
  exists s'. rw Hm. unfold spec_read. by destruct (klive (clock t) key kv) as [[v x]|].
Qed.

Lemma cmdGet_refines cmd : refines (cmdGet cmd) (spec_get (Args cmd)).
Proof.
  unfold cmdGet, spec_get. destruct (Args cmd) as [|key [|]]; try apply refines_ret.
  apply refines_read; [done|]. intros e He. rw (kind_check key) //. by destruct (EValue e).
Qed.

Lemma cmdIncr_refines cmd : refines (cmdIncr cmd) (spec_incr (Args cmd)).
Proof.
  unfold cmdIncr, spec_incr. destruct (Args cmd) as [|key [|]]; try apply refines_ret.
  intros s kv t Hs. run.
  destruct (IncrementBy_spec s kv (clock t) key 1 Hs) as (s' & -> & Hs'); [done|].
  destruct (kincr _ _ _ _) as [r kv']. by eexists.
Qed.

Lemma delLoop_refines keys n :
  refines (delLoop keys n) (fun kv t => let '(n, kv) := spec_del_loop keys n kv in (n, kv, t)).
Proof.
  revert n; induction keys as [|k keys IH]; intros n s kv t Hs; cbn [delLoop spec_del_loop]; [by eexists|].
  run. destruct (store_Delete_spec s kv k Hs) as (s1 & -> & Hs1). by apply IH.
Qed.

Lemma cmdDel_refines cmd : refines (cmdDel cmd) (spec_del (Args cmd)).
Proof.
  unfold cmdDel, spec_del. destruct (Args cmd) as [|k keys]; [apply refines_ret|].
  intros s kv t Hs. destruct (delLoop_refines (k :: keys) 0 s kv t Hs) as (s' & Hm & Hs').
  unfold mbind, M_bind. rw Hm. destruct (spec_del_loop _ _ _) as [n kv']. by eexists.
Qed.

Lemma existsLoop_refines keys n : refines (existsLoop keys n) (spec_exists_loop keys n).
Proof.
  revert n; induction keys as [|k keys IH]; intros n s kv t Hs; cbn [existsLoop spec_exists_loop]; [by eexists|].
  unfold Exists, Peek. run. destruct (get_spec s kv (clock t) k false Hs) as (e & s1 & -> & Hs1 & Hl & _).
  rw -Hl. destruct e as [e|]; by apply IH.
Qed.

Lemma cmdExists_refines cmd : refines (cmdExists cmd) (spec_exists (Args cmd)).
Proof.
  unfold cmdExists, spec_exists. destruct (Args cmd) as [|k keys]; [apply refines_ret|].
  intros s kv t Hs. destruct (existsLoop_refines (k :: keys) 0 s kv t Hs) as (s' & Hm & Hs').
  unfold mbind, M_bind. rw Hm. destruct (spec_exists_loop _ _ _ _) as [[n kv'] t']. by eexists.
Qed.

Lemma cmdExpire_refines cmd : refines (cmdExpire cmd) (spec_expire (Args cmd)).
Proof.
  unfold cmdExpire, spec_expire. destruct (Args cmd) as [|key [|secs [|]]]; try apply refines_ret.
  destruct (parseInt64 secs) as [n|]; [|apply refines_ret]. destruct (n <=? 0); intros s kv t Hs; run.
  - destruct (store_Delete_spec s kv key Hs) as (s1 & -> & Hs1). by eexists.
  - destruct (expirationFromNow n 1000000000 t) as [[exp|] t1]; [|by eexists].
    destruct (SetExpireAt_spec s kv (clock t1) key exp Hs) as (s1 & -> & Hs1).
    destruct (kexpireAt _ _ _ _) as [ok kv']. by eexists.
Qed.

Lemma cmdTTL_refines cmd : refines (cmdTTL cmd) (spec_ttl (Args cmd)).
Proof.
  unfold cmdTTL, spec_ttl, Peek. destruct (Args cmd) as [|key [|]]; try apply refines_ret.
  intros s kv t Hs. run. destruct (get_spec s kv (clock t) key false Hs) as (e & s1 & -> & Hs1 & Hl & _).
  rw -Hl. destruct e as [e|]; [|by eexists]. cbn [fmap option_fmap option_map abs_entry fst snd].
  destruct (ExpiresAtNs e =? 0); by eexists.
Qed.

Lemma push_refines name left key v vs (s : Store) kv t :
  store_kv s kv ->
  exists s', (now ← nowNanos; r ← onStore (fun s => listPush s now key (v :: vs) left); mret (pushReply r)) (mkSys s t)
    = Some ((spec_push name left (key :: v :: vs) kv t).1.1, mkSys s' (S t)) /\
    store_kv s' (spec_push name left (key :: v :: vs) kv t).1.2 /\ (spec_push name left (key :: v :: vs) kv t).2 = S t.
Proof.
  intros Hs. unfold spec_push. run. destruct (listPush_spec s kv (clock t) key (v :: vs) left Hs) as (s1 & -> & Hs1).
  destruct (kpush _ _ _ _ _) as [r kv']. by eexists.
Qed.

Lemma cmdLPush_refines cmd : refines (cmdLPush cmd) (spec_push "lpush" true (Args cmd)).
Proof.
  unfold cmdLPush. destruct (Args cmd) as [|key [|v vs]]; try apply refines_ret. intros s kv t Hs.
  destruct (push_refines "lpush" true key v vs s kv t Hs) as (s' & Hm & Hs' & Ht). rw Hm Ht. by eexists.
Qed.
Lemma cmdRPush_refines cmd : refines (cmdRPush cmd) (spec_push "rpush" false (Args cmd)).
Proof.
  unfold cmdRPush. destruct (Args cmd) as [|key [|v vs]]; try apply refines_ret. intros s kv t Hs.
  destruct (push_refines "rpush" false key v vs s kv t Hs) as (s' & Hm & Hs' & Ht). rw Hm Ht. by eexists.
Qed.

Lemma cmdLPop_refines cmd : refines (cmdLPop cmd) (spec_pop "lpop" true (Args cmd)).
Proof.
  unfold cmdLPop, spec_pop. destruct (Args cmd) as [|key [|]]; try apply refines_ret. intros s kv t Hs. run.
  destruct (listPop_spec s kv (clock t) key true Hs) as (s1 & -> & Hs1). destruct (kpop _ _ _ _). by eexists.
Qed.
Lemma cmdRPop_refines cmd : refines (cmdRPop cmd) (spec_pop "rpop" false (Args cmd)).
Proof.
  unfold cmdRPop, spec_pop. destruct (Args cmd) as [|key [|]]; try apply refines_ret. intros s kv t Hs. run.
  destruct (listPop_spec s kv (clock t) key false Hs) as (s1 & -> & Hs1). destruct (kpop _ _ _ _). by eexists.
Qed.

Lemma cmdLLen_refines cmd : refines (cmdLLen cmd) (spec_llen (Args cmd)).
Proof.
  unfold cmdLLen, spec_llen, Peek. destruct (Args cmd) as [|key [|]]; try apply refines_ret.
  apply refines_read; [done|]. intros e He. rw (kind_check key) //.
  pose proof (ok_value _ _ He) as Hv. destruct (EValue e) as [d|lv|zv]; try done. simpl. by rw -(contents_len lv).
Qed.

Lemma parseZAddPairs_nan args pairs p :
  parseZAddPairs args = inl pairs -> p ∈ pairs -> IsNaN p.1 = false.
Proof.
  unfold parseZAddPairs. destruct (_ || _); [done|].
  assert (forall n args pairs, (length args <= n)%nat -> parseZAddPairs_loop args = inl pairs -> p ∈ pairs -> IsNaN p.1 = false) as Hl.
  { clear. induction n as [|n IH]; intros [|a [|m rest]] pairs Hn; simpl in *; try lia;
      try (by intros [= <-] ?%elem_of_nil).
    destruct (ParseFloat a) as [sc|]; [|done]. destruct (IsNaN sc) eqn:Hsc; [done|].
    destruct (parseZAddPairs_loop rest) as [ps|] eqn:Hr; [|done]. intros [= <-].
    rw elem_of_cons. intros [->|Hp]; [done|]. eapply IH; [|exact Hr|done]. lia. }
  by eapply Hl.
Qed.

Lemma cmdZAdd_refines cmd : refines (cmdZAdd cmd) (spec_zadd (Args cmd)).
Proof.
  unfold cmdZAdd, spec_zadd. destruct (Args cmd) as [|key rest]; [apply refines_ret|].
  destruct (_ || _); [apply refines_ret|]. destruct (parseZAddPairs rest) as [pairs|f] eqn:Hp; [|apply refines_ret].
  intros s kv t Hs. unfold drawLevels. run.
  destruct (zsetAdd_spec s kv (clock t) (fun i => randomLevel (coins (S t) i)) key pairs Hs) as (s1 & -> & Hs1).
  - intros p. by eapply parseZAddPairs_nan.
  - intros k. apply randomLevel_bounds.
  - destruct (kzadd _ _ _ _). by eexists.
Qed.

Lemma cmdZRange_refines cmd : refines (cmdZRange cmd) (spec_zrange (Args cmd)).
Proof.
  unfold cmdZRange, spec_zrange, Get. destruct (Args cmd) as [|key [|a [|b [|o [|]]]]]; try apply refines_ret.
  all: destruct (parseInt64 a) as [start|]; [|apply refines_ret]; destruct (parseInt64 b) as [stop|]; [|apply refines_ret].
  all: destruct (zrangeOption _) as [ws|]; [|apply refines_ret].
  all: apply refines_read; [done|]; intros e He; rw (kind_check key) //.
  all: pose proof (ok_value _ _ He) as Hv; destruct (EValue e) as [d|lv|zv]; try done; simpl.
  all: unfold ZRange; rw SkipRange_spec //; by apply zset_skip.
Qed.

Lemma cmdZCard_refines cmd : refines (cmdZCard cmd) (spec_zcard (Args cmd)).
Proof.
  unfold cmdZCard, spec_zcard, Peek. destruct (Args cmd) as [|key [|]]; try apply refines_ret.
  apply refines_read; [done|]. intros e He. rw (kind_check key) //.
  pose proof (ok_value _ _ He) as Hv. destruct (EValue e) as [d|lv|zv]; try done. simpl.
  unfold Card, SkipLen. rw skip_ok_length //. by apply zset_skip.
Qed.

Lemma cmdZScore_refines cmd : refines (cmdZScore cmd) (spec_zscore (Args cmd)).
Proof.
  unfold cmdZScore, spec_zscore, Get. destruct (Args cmd) as [|key [|m [|]]]; try apply refines_ret.
  apply refines_read; [done|]. intros e He. rw (kind_check key) //.
  pose proof (ok_value _ _ He) as Hv. destruct (EValue e) as [d|lv|zv]; try done. simpl.
  unfold ZScore. by rw (zset_index _ Hv).
Qed.

Lemma flush_refines (f : Frame) :
  refines (flushAll;; mret f) (fun kv t => (f, ∅, t)).
Proof.
  intros s kv t Hs. unfold flushAll. run. destruct (Flush_spec s kv Hs) as (s1 & -> & Hs1). by eexists.
Qed.

(** The executor implements the command semantics, and never panics. *)
Lemma Execute_spec cmd : refines (Execute cmd) (spec_execute cmd).
Proof.
  unfold Execute, spec_execute. cbv zeta.
  repeat match goal with
  | |- refines (if ?b then _ else _) _ =>
      let Hb := fresh in destruct b eqn:Hb;
      [first
        [apply cmdDel_refines|apply cmdExists_refines|apply cmdExpire_refines|apply cmdTTL_refines
        |apply cmdSet_refines|apply cmdGet_refines|apply cmdIncr_refines|apply cmdLPush_refines
        |apply cmdRPush_refines|apply cmdLPop_refines|apply cmdRPop_refines|apply cmdLLen_refines
        |apply cmdZAdd_refines|apply cmdZRange_refines|apply cmdZCard_refines|apply cmdZScore_refines
        |unfold cmdPing, cmdEcho; destruct (Args cmd) as [|? [|]];
           (apply refines_ret || apply flush_refines)]|]
  end.
  apply refines_ret.
Qed.
End spec.

(** ** Sequences of commands *)

Section runs.
Context `{Env}.

Fixpoint exec_run (cmds : list Command) : M (list Frame) :=
  match cmds with
  | [] => mret []
  | cmd :: cmds => f ← Execute cmd; fs ← exec_run cmds; mret (f :: fs)
  end.
Fixpoint spec_run (cmds : list Command) (kv : KV) (t : nat) : list Frame * KV * nat :=
  match cmds with
  | [] => ([], kv, t)
  | cmd :: cmds =>
      let '(f, kv, t) := spec_execute cmd kv t in
      let '(fs, kv, t) := spec_run cmds kv t in (f :: fs, kv, t)
  end.

Lemma exec_run_spec cmds : refines (exec_run cmds) (spec_run cmds).
Proof.
  induction cmds as [|cmd cmds IH]; intros s kv t Hs; cbn [exec_run spec_run]; [by eexists|].
  destruct (Execute_spec cmd s kv t Hs) as (s1 & Hx & Hs1). unfold mbind, M_bind. rw Hx. cbn [mbind option_bind].
  destruct (spec_execute cmd kv t) as [[f kv1] t1]. cbn [fst snd] in *.
  destruct (IH s1 kv1 t1 Hs1) as (s2 & Hr & Hs2). rw Hr. cbn [mbind option_bind].
  destruct (spec_run cmds kv1 t1) as [[fs kv2] t2]. by exists s2.
Qed.
End runs.

(** ** Expired keys *)

Section expired.
Context `{Env} (k : string).

(** The key is missing, or its deadline has passed for good. *)
Definition gone (kv : KV) (t : nat) : Prop := forall t', (t <= t')%nat -> klive (clock t') k kv = None.
(** Two maps that are the same, or differ in the key, which one still holds
    untouched and the other does not have. *)
Definition forgets (kv m1 m2 : KV) : Prop := m1 = m2 \/ (m2 = delete k m1 /\ m1 !! k = kv !! k).
Definition alike {A} (kv : KV) (r1 r2 : A * KV) : Prop := r1.1 = r2.1 /\ forgets kv r1.2 r2.2.
Definition as_missing (kv : KV) (o1 o2 : Out) : Prop := o1.1.1 = o2.1.1 /\ o1.2 = o2.2 /\ forgets kv o1.1.2 o2.1.2.

Lemma gone_key kv t : gone kv t -> klive (clock t) k kv = None /\ klive (clock t) k (delete k kv) = None /\
  kdrop (clock t) k kv = delete k kv /\ kdrop (clock t) k (delete k kv) = delete k kv.
Proof.
  intros Hg. specialize (Hg t (Nat.le_refl t)). unfold klive, kdrop in *. rw lookup_delete_eq. destruct (kv !! k) as [x|] eqn:Hk; cbn [mbind option_bind] in *.
  - by destruct (kexpired _ x).
  - by rw delete_id.
Qed.
Lemma other_key now key kv : key <> k ->
  klive now key (delete k kv) = klive now key kv /\ kdrop now key (delete k kv) = delete k (kdrop now key kv) /\ kdrop now key kv !! k = kv !! k.
Proof.
  intros Hne. unfold klive, kdrop. rw lookup_delete_ne //. destruct (kv !! key) as [x|]; [|done]. destruct (kexpired now x); [|done].
  split; [done|]. split; [by rw delete_delete|by rw lookup_delete_ne].
Qed.
Lemma gone_later kv t t' : gone kv t -> (t <= t')%nat -> gone kv t'.
Proof. intros Hg Ht t2 Ht2. apply Hg. lia. Qed.

(** The operations look at a key through [klive] and [kdrop] only. *)
Ltac touch key kv t Hg :=
  destruct (decide (key = k)) as [->|Hne];
  [destruct (gone_key kv t Hg) as (E1 & E2 & E3 & E4); rw E1 E2 E3 E4; split; [done|by left]
  |destruct (other_key (clock t) key kv Hne) as (E1 & E2 & E3); rw E1 E2; repeat case_match; simplify_eq; cbn;
    (split; [done|right; rw ?delete_insert_ne // ?(delete_delete _ _ k) ?lookup_insert_ne // ?lookup_delete_ne //])].
Lemma kset_alike key value exp cond kv t : gone kv t -> alike kv (kset (clock t) key value exp cond kv) (kset (clock t) key value exp cond (delete k kv)).
Proof. intros Hg. unfold kset. touch key kv t Hg. Qed.
Lemma kincr_alike key delta kv t : gone kv t -> alike kv (kincr (clock t) key delta kv) (kincr (clock t) key delta (delete k kv)).
Proof. intros Hg. unfold kincr. touch key kv t Hg. Qed.
Lemma kexpireAt_alike key exp kv t : gone kv t -> alike kv (kexpireAt (clock t) key exp kv) (kexpireAt (clock t) key exp (delete k kv)).
Proof. intros Hg. unfold kexpireAt. touch key kv t Hg. Qed.
Lemma kpush_alike key values left kv t : gone kv t -> alike kv (kpush (clock t) key values left kv) (kpush (clock t) key values left (delete k kv)).
Proof. intros Hg. unfold kpush. touch key kv t Hg. Qed.
Lemma kpop_alike key left kv t : gone kv t -> alike kv (kpop (clock t) key left kv) (kpop (clock t) key left (delete k kv)).
Proof. intros Hg. unfold kpop. touch key kv t Hg. Qed.
Lemma kzadd_alike key pairs kv t : gone kv t -> alike kv (kzadd (clock t) key pairs kv) (kzadd (clock t) key pairs (delete k kv)).
Proof. intros Hg. unfold kzadd. touch key kv t Hg. Qed.
Lemma kread_alike key kv t : gone kv t -> alike kv (klive (clock t) key kv, kdrop (clock t) key kv) (klive (clock t) key (delete k kv), kdrop (clock t) key (delete k kv)).
Proof. intros Hg. touch key kv t Hg. Qed.

Lemma untouched kv f t : as_missing kv (f, kv, t) (f, delete k kv, t).
Proof. split; [done|]. split; [done|]. by right. Qed.
Lemma reply_missing {A} kv (r1 r2 : A * KV) (reply : A -> Frame) t : alike kv r1 r2 ->
  as_missing kv (let '(r, kv) := r1 in (reply r, kv, t)) (let '(r, kv) := r2 in (reply r, kv, t)).
Proof. destruct r1, r2. intros [Hr Hm]. cbn in *. subst. done. Qed.
Lemma read_missing key none f kv t : gone kv t -> as_missing kv (spec_read key none f kv t) (spec_read key none f (delete k kv) t).
Proof. intros Hg. destruct (kread_alike key kv t Hg) as [Hr Hm]. cbn in Hr, Hm. unfold spec_read. cbv zeta. rw -Hr. by split_and!. Qed.
Lemma ttl_missing args kv t : gone kv t -> as_missing kv (spec_ttl args kv t) (spec_ttl args (delete k kv) t).
Proof.
  intros Hg. destruct args as [|key [|]]; [apply untouched| |apply untouched]. destruct (kread_alike key kv t Hg) as [Hr Hm]. cbn in Hr, Hm.
  cbn [spec_ttl]. cbv zeta. rw -Hr. destruct (klive _ _ _) as [[v exp]|]; [destruct (exp =? 0)|]; by split_and!.
Qed.
Lemma expirationFromNow_tick v u t : (t <= (expirationFromNow v u t).2)%nat.
Proof. unfold expirationFromNow. repeat case_match; cbn; lia. Qed.
Lemma setExpiration_tick b u v opts t : (t <= (setExpiration b u v opts t).2)%nat.
Proof.
  unfold setExpiration. repeat case_match; cbn; try lia; match goal with Hx : expirationFromNow ?a ?u ?t = _ |- _ => pose proof (expirationFromNow_tick a u t) as Ht; rw Hx in Ht end; cbn in Ht; lia.
Qed.
Lemma parseSetOptions_tick args opts b t : (t <= (parseSetOptions_loop args opts b t).2)%nat.
Proof.
  revert opts b t. induction args as [args IH] using (induction_ltof1 _ (@length string)). unfold ltof in IH. intros opts b t. destruct args as [|a rest]; [done|]. cbn [parseSetOptions_loop].
  destruct (_ || _).
  - destruct rest as [|v rest]; [done|]. pose proof (setExpiration_tick b (if String.eqb (upperASCII a) "EX" then 1000000000 else 1000000) v opts t) as Ht.
    destruct (setExpiration _ _ _ _ _) as [[o|f] t']; cbn in Ht; [|done]. etrans; [exact Ht|]. apply IH. cbn. lia.
  - destruct (String.eqb _ _); [case_match; [done|apply IH; cbn; lia]|]. destruct (String.eqb _ _); [case_match; [done|apply IH; cbn; lia]|done].
Qed.
Lemma set_missing args kv t : gone kv t -> as_missing kv (spec_set args kv t) (spec_set args (delete k kv) t).
Proof.
  intros Hg. destruct args as [|key [|value rest]]; [apply untouched..|]. cbn [spec_set]. unfold parseSetOptions. pose proof (parseSetOptions_tick rest (mkSetOptions 0 setAlways) false t) as Ht.
  destruct (parseSetOptions_loop _ _ _ _) as [[o|f] t']; cbn in Ht; [|apply untouched].
  apply (reply_missing kv _ _ (fun ok : bool => if ok then OK else NullBulk)). apply kset_alike. by eapply gone_later.
Qed.
Lemma exists_missing keys n kv t : gone kv t ->
  let '(n1, m1, t1) := spec_exists_loop keys n kv t in let '(n2, m2, t2) := spec_exists_loop keys n (delete k kv) t in n1 = n2 /\ t1 = t2 /\ forgets kv m1 m2.
Proof.
  assert (Hgen : forall keys n kv0 kv1 t, gone kv1 t -> kv1 !! k = kv0 !! k ->
    let '(n1, m1, t1) := spec_exists_loop keys n kv1 t in let '(n2, m2, t2) := spec_exists_loop keys n (delete k kv1) t in n1 = n2 /\ t1 = t2 /\ forgets kv0 m1 m2).
  2: { intros Hg. by apply Hgen. }
  clear. intros keys. induction keys as [|key keys IH]; intros n kv0 kv1 t Hg Hk; cbn [spec_exists_loop]; [split; [done|]; split; [done|]; by right|].
  destruct (kread_alike key kv1 t Hg) as [Hr Hm]. cbn in Hr, Hm. rw -Hr. destruct Hm as [Heq|[Heq Hkeep]].
  - rw -Heq. destruct (spec_exists_loop _ _ _ _) as [[n1 m1] t1]. by split_and!; [..|left].
  - rw Heq. apply IH; [|by rw Hkeep]. intros t' Ht'. unfold klive. rw Hkeep. apply Hg. lia.
Qed.

(** The commands for which a deadline that has passed makes no difference: [DEL],
    and [EXPIRE] when it deletes. *)
Definition ignoresDeadline (cmd : Command) : bool :=
  String.eqb (Name cmd) "DEL" ||
  String.eqb (Name cmd) "EXPIRE" && match Args cmd with [_; secs] => match parseInt64 secs with Some n => n <=? 0 | None => false end | _ => false end.

Lemma expire_missing args kv t : (match args with [_; secs] => match parseInt64 secs with Some n => n <=? 0 | None => false end | _ => false end) = false ->
  gone kv t -> as_missing kv (spec_expire args kv t) (spec_expire args (delete k kv) t).
Proof.
  intros Hp Hg. destruct args as [|key [|secs [|]]]; [apply untouched..| |apply untouched]. cbn [spec_expire]. destruct (parseInt64 secs) as [n|]; [|apply untouched]. rw Hp.
  pose proof (expirationFromNow_tick n 1000000000 t) as Ht. destruct (expirationFromNow _ _ _) as [[exp|] t']; cbn in Ht; [|apply untouched].
  apply (reply_missing kv _ _ (fun ok => Integer (Z.b2z ok))). apply kexpireAt_alike. by eapply gone_later.
Qed.
Lemma execute_missing cmd kv t : ignoresDeadline cmd = false -> gone kv t -> as_missing kv (spec_execute cmd kv t) (spec_execute cmd (delete k kv) t).
Proof.
  unfold ignoresDeadline. intros [Hd He]%orb_false_elim Hg. unfold spec_execute. cbv zeta. rw Hd.
  repeat match goal with |- as_missing _ (if ?b then _ else _) _ => destruct b eqn:?; [try apply untouched|] end; try apply untouched.
  - split; [done|]. split; [done|]. by left.
  - destruct (Args cmd) as [|key keys]; [apply untouched|]. unfold spec_exists. pose proof (exists_missing (key :: keys) 0 kv t Hg) as Hx.
    destruct (spec_exists_loop _ 0 kv t) as [[n1 m1] t1], (spec_exists_loop _ 0 (delete k kv) t) as [[n2 m2] t2]. destruct Hx as (-> & -> & Hx). by split_and!.
  - apply expire_missing; [|done]. done.
  - by apply ttl_missing.
  - by apply set_missing.
  - destruct (Args cmd) as [|key [|]]; [apply untouched|by apply read_missing|apply untouched].
  - destruct (Args cmd) as [|key [|]]; [apply untouched| |apply untouched]. by eapply (reply_missing kv), kincr_alike.
  - destruct (Args cmd) as [|key [|]]; [apply untouched..|]. by eapply (reply_missing kv), kpush_alike.
  - destruct (Args cmd) as [|key [|]]; [apply untouched..|]. by eapply (reply_missing kv), kpush_alike.
  - destruct (Args cmd) as [|key [|]]; [apply untouched| |apply untouched]. by eapply (reply_missing kv), kpop_alike.
  - destruct (Args cmd) as [|key [|]]; [apply untouched| |apply untouched]. by eapply (reply_missing kv), kpop_alike.
  - destruct (Args cmd) as [|key [|]]; [apply untouched|by apply read_missing|apply untouched].
  - unfold spec_zadd. destruct (Args cmd) as [|key rest]; [apply untouched|]. match goal with |- as_missing _ (if ?b then _ else _) _ => destruct b end; [apply untouched|]. destruct (parseZAddPairs rest); [|apply untouched].
    by eapply (reply_missing kv), kzadd_alike.
  - unfold spec_zrange. destruct (Args cmd) as [|key [|a [|b rest]]]; [apply untouched..|].
    destruct rest as [|o [|]]; [| |apply untouched]; (destruct (parseInt64 a); [|apply untouched]); (destruct (parseInt64 b); [|apply untouched]);
      (destruct (zrangeOption _); [|apply untouched]); by apply read_missing.
  - destruct (Args cmd) as [|key [|]]; [apply untouched|by apply read_missing|apply untouched].
  - destruct (Args cmd) as [|key [|m [|]]]; [apply untouched..|by apply read_missing|apply untouched].
Qed.
Lemma deletes_stored cmd kv t : ignoresDeadline cmd = true -> ExtractKeys cmd = [k] -> is_Some (kv !! k) -> spec_execute cmd kv t = (Integer 1, delete k kv, t).
Proof.
  unfold ignoresDeadline. intros Hi Hk Hs. unfold ExtractKeys in Hk.
  assert (Name cmd = "DEL" /\ Args cmd = [k] \/ Name cmd = "EXPIRE" /\ exists secs n, Args cmd = [k; secs] /\ parseInt64 secs = Some n /\ (n <=? 0) = true) as [[Hn Ha]|(Hn & secs & n & Ha & Hp & Hle)].
  { apply orb_true_iff in Hi as [Hn%String.eqb_eq|[Hn%String.eqb_eq Ha]%andb_true_iff]; rw Hn in Hk; [by left|right]. split; [done|].
    destruct (Args cmd) as [|key [|secs [|]]]; try done. cbn in Hk. injection Hk as ->. destruct (parseInt64 secs) as [n|] eqn:Hp; [|done]. by exists secs, n. }
  - unfold spec_execute. rw Hn Ha. cbn [String.eqb Ascii.eqb Bool.eqb orb spec_del spec_del_loop]. by rw bool_decide_eq_true_2.
  - unfold spec_execute. rw Hn Ha. cbn [String.eqb Ascii.eqb Bool.eqb orb spec_expire]. rw Hp Hle. by rw bool_decide_eq_true_2.
Qed.
End expired.

(** ** The theorems *)

(** C2: The executor implements the command semantics: on every store that
    represents a map, every command gives the specified reply, reads the clock
    as specified, leaves a store that represents the specified map, and does
    not panic.  In this semantics a key whose deadline has passed is treated as
    missing: except for [DEL] and for [EXPIRE] with no positive time, every
    command has the reply that it has without the key, and either the same
    map, in which an expired entry is gone, or the entry was not touched.  The two
    exceptions do not look at deadlines, other than documented: with one key that
    is stored, expired or not, they answer 1 and remove it. *)
Theorem executor_refines `{Env} cmd s kv t :
  store_kv s kv ->
  (exists s', Execute cmd (mkSys s t) = Some ((spec_execute cmd kv t).1.1, mkSys s' (spec_execute cmd kv t).2) /\
    store_kv s' (spec_execute cmd kv t).1.2) /\
  (forall k, gone k kv t -> ignoresDeadline cmd = false -> as_missing k kv (spec_execute cmd kv t) (spec_execute cmd (delete k kv) t)) /\
  (forall k, ignoresDeadline cmd = true -> ExtractKeys cmd = [k] -> is_Some (kv !! k) -> spec_execute cmd kv t = (Integer 1, delete k kv, t)).
Proof.
  intros Hs. split; [by apply Execute_spec|]. split; intros k; [intros Hg Hi; by apply execute_missing|apply deletes_stored].
Qed.

Definition expiredMap : KV := {["z" := (AStr "old", 5)]}.
Lemma executor_refines_witness :
  exists s, store_kv s expiredMap /\
    (exists s', Execute (H := steadyEnv) (mkCommand "INCR" ["z"]) (mkSys s 7) = Some (Integer 1, mkSys s' 8) /\ store_kv s' {["z" := (AStr "1", 0)]}) /\
    (exists s', Execute (H := steadyEnv) (mkCommand "DEL" ["z"]) (mkSys s 7) = Some (Integer 1, mkSys s' 7) /\ store_kv s' ∅).
Proof.
  destruct (setString_spec (NewStore 4) ∅ 0 "z" "old" 5 setAlways) as (s & _ & Hs); [by apply NewStore_spec|].
  exists s. split; [exact Hs|]. split.
  - destruct (executor_refines (H := steadyEnv) (mkCommand "INCR" ["z"]) s expiredMap 7 Hs) as [(s' & Hx & Hs') _]. exists s'. split; [exact Hx|exact Hs'].
  - destruct (executor_refines (H := steadyEnv) (mkCommand "DEL" ["z"]) s expiredMap 7 Hs) as [(s' & Hx & Hs') _]. exists s'. split; [exact Hx|exact Hs'].
Defined.

(** From an empty store with any number of stripes, every sequence of commands
    gives the specified replies, and afterwards the accounted memory is the
    sum of the sizes of the stored entries, modulo 2^64. *)
Theorem run_refines `{Env} cmds stripeCount t :
  stripeCount < 4294967296 ->
  exists s', exec_run cmds (mkSys (NewStore stripeCount) t) = Some ((spec_run cmds ∅ t).1.1, mkSys s' (spec_run cmds ∅ t).2) /\
    store_kv s' (spec_run cmds ∅ t).1.2 /\ UsedBytes s' = u64 (ktotal (spec_run cmds ∅ t).1.2).
Proof.
  intros Hn. destruct (exec_run_spec cmds (NewStore stripeCount) ∅ t (proj1 (NewStore_spec _ Hn))) as (s' & Hx & Hs').
  exists s'. split_and!; [done|done|]. by apply store_kv_used.
Qed.

Definition counterCommands : list Command :=
  [mkCommand "SET" ["a"; "5"]; mkCommand "INCR" ["a"]; mkCommand "GET" ["a"]].
Lemma run_refines_witness :
  (spec_run (H := steadyEnv) counterCommands ∅ 0).1.1 = [OK; Integer 6; BulkBytes "6"] /\
  ktotal (spec_run (H := steadyEnv) counterCommands ∅ 0).1.2 = 66 /\
  exists s', exec_run (H := steadyEnv) counterCommands (mkSys (NewStore 16) 0) =
      Some ((spec_run (H := steadyEnv) counterCommands ∅ 0).1.1, mkSys s' (spec_run (H := steadyEnv) counterCommands ∅ 0).2) /\
    store_kv s' (spec_run (H := steadyEnv) counterCommands ∅ 0).1.2 /\
    UsedBytes s' = u64 (ktotal (spec_run (H := steadyEnv) counterCommands ∅ 0).1.2).
Proof.
  split; [vm_compute; reflexivity|]. split; [vm_compute; reflexivity|].
  apply (run_refines (H := steadyEnv) counterCommands 16 0). done.
Defined.

(** SET then GET: after a plain SET the key holds the value, whatever was
    there before and however the clock moves. *)
Theorem set_then_get `{Env} s kv t key value :
  store_kv s kv ->
  exists w1 w2, Execute (mkCommand "SET" [key; value]) (mkSys s t) = Some (OK, w1) /\
    Execute (mkCommand "GET" [key]) w1 = Some (BulkBytes value, w2).
Proof.
  intros Hs. destruct (Execute_spec (mkCommand "SET" [key; value]) s kv t Hs) as (s1 & H1 & Hs1).
  destruct (Execute_spec (mkCommand "GET" [key]) s1 _ (S t) Hs1) as (s2 & H2 & _).
  assert (klive (clock (S t)) key (<[key := (AStr value, 0)]> (kdrop (clock t) key kv)) = Some (AStr value, 0)) as Hl.
  { unfold klive. rw lookup_insert_eq. done. }
  cbn in H1, H2. unfold spec_read in H2. destruct (klive (clock t) key kv); rw Hl in H2; by eexists _, _.
Qed.

Lemma set_then_get_witness :
  exists w1 w2, Execute (H := steadyEnv) (mkCommand "SET" ["k"; "v"]) (mkSys (NewStore 2) 0) = Some (OK, w1) /\
    Execute (H := steadyEnv) (mkCommand "GET" ["k"]) w1 = Some (BulkBytes "v", w2).
Proof. apply (set_then_get (H := steadyEnv) (NewStore 2) ∅ 0), NewStore_spec. done. Defined.

(** A key set with EX disappears exactly at its deadline: a GET answers the
    value while the clock is before it, and nil from then on. *)
Theorem set_expires `{Env} s kv t key value secs :
  store_kv s kv -> 0 < secs <= 1000000000 -> 0 <= clock t <= 4000000000000000000 ->
  exists w1 w2, Execute (mkCommand "SET" [key; value; "EX"; FormatInt secs]) (mkSys s t) = Some (OK, w1) /\
    Execute (mkCommand "GET" [key]) w1 =
      Some (if clock t + secs * 1000000000 <=? clock (S (S t)) then NullBulk else BulkBytes value, w2).
Proof.
  intros Hs Hsecs Hc. set (deadline := clock t + secs * 1000000000).
  assert (parseSetOptions ["EX"; FormatInt secs] t = (inl (mkSetOptions deadline setAlways), S t)) as Hopts.
  { unfold parseSetOptions. cbn [parseSetOptions_loop]. change (upperASCII "EX") with "EX". cbn [String.eqb Ascii.eqb Bool.eqb orb].
    unfold setExpiration. rw (proj2 (parseInt64_spec (FormatInt secs) secs)); [split; [unfold int64_range, minInt64, maxInt64; lia|done]|].
    unfold expirationFromNow. rw (proj2 (Z.leb_gt secs 0)); [lia|]. change (maxInt64 / 1000000000) with 9223372036.
    rw (proj2 (Z.ltb_ge 9223372036 secs)); [lia|]. cbn [orb].
    assert (forall z, 0 <= z <= maxInt64 -> i64 z = z) as Hi by (intros z Hz; apply i64_small; unfold maxInt64, minInt64 in *; lia).
    unfold maxInt64 in *. cbv zeta. rw (Hi (secs * 1000000000)); [lia|]. rw (Hi (_ - secs * 1000000000)); [lia|].
    rw (proj2 (Z.ltb_ge _ (clock t))); [lia|]. rw (Hi (clock t + secs * 1000000000)); [lia|]. done. }
  destruct (Execute_spec (mkCommand "SET" [key; value; "EX"; FormatInt secs]) s kv t Hs) as (s1 & H1 & Hs1).
  destruct (Execute_spec (mkCommand "GET" [key]) s1 _ (S (S t)) Hs1) as (s2 & H2 & _).
  unfold spec_execute in H1, H2. cbn [Name Args String.eqb Ascii.eqb Bool.eqb orb] in H1, H2. unfold spec_set in H1, H2. rw Hopts in H1 H2.
  unfold kset in H1, H2. cbn [condition expiresAtNs] in H1, H2. unfold spec_get, spec_read, klive in H2.
  assert (kexpired (clock (S (S t))) (AStr value, deadline) = (deadline <=? clock (S (S t)))) as He.
  { unfold kexpired. cbn [snd]. rw (proj2 (Z.eqb_neq deadline 0)) //. unfold deadline. lia. }
  destruct (klive (clock (S t)) key kv); cbn [fst snd] in H1, H2; rw lookup_insert_eq in H2; cbn [mbind option_bind] in H2; rw He in H2;
    (eexists _, _; split; [exact H1|]); destruct (deadline <=? clock (S (S t))); exact H2.
Qed.

Lemma set_expires_witness :
  exists w1 w2, Execute (H := steadyEnv) (mkCommand "SET" ["k"; "v"; "EX"; FormatInt 2]) (mkSys (NewStore 2) 0) = Some (OK, w1) /\
    Execute (H := steadyEnv) (mkCommand "GET" ["k"]) w1 =
      Some (if 1000000000 + 2 * 1000000000 <=? 3000000000 then NullBulk else BulkBytes "v", w2).
Proof. apply (set_expires (H := steadyEnv) (NewStore 2) ∅ 0 "k" "v" 2); [by apply NewStore_spec|done|done]. Defined.

(** Lists are queues: values pushed on the right of a missing key come back
    from the left in order, and the key is gone after the last one. *)
Theorem queue_order `{Env} s kv t key v vs :
  store_kv s kv -> kv !! key = None ->
  exists s', exec_run (mkCommand "RPUSH" (key :: v :: vs) :: replicate (S (length vs)) (mkCommand "LPOP" [key]) ++
        [mkCommand "LLEN" [key]]) (mkSys s t) =
      Some (Integer (Z.of_nat (S (length vs))) :: (BulkBytes <$> v :: vs) ++ [Integer 0], mkSys s' (t + length vs + 3)) /\
    store_kv s' kv.
Proof.
  intros Hs Hk. set (cmds := _ :: _).
  assert (forall l t2, spec_run (replicate (length l) (mkCommand "LPOP" [key]) ++ [mkCommand "LLEN" [key]])
    (match l with [] => kv | _ => <[key := (AList l, 0)]> kv end) t2 =
    ((BulkBytes <$> l) ++ [Integer 0], kv, (t2 + length l + 1)%nat)) as Hpops.
  { induction l as [|x l IH]; intros t2.
    - cbn. unfold spec_read, klive, kdrop. rw Hk. cbn. do 2 f_equal. lia.
    - cbn [length replicate app spec_run]. unfold spec_execute at 1. cbn [Name Args String.eqb Ascii.eqb Bool.eqb orb].
      unfold spec_pop, kpop, klive, kdrop. rw lookup_insert_eq. cbn [mbind option_bind kexpired snd Z.eqb negb andb unpush].
      assert (match l with [] => (inl (Some x), delete key (<[key := (AList (x :: l), 0)]> kv))
        | _ :: _ => (inl (Some x) : option string + EngineError, <[key := (AList l, 0)]> (<[key := (AList (x :: l), 0)]> kv)) end =
        (inl (Some x), match l with [] => kv | _ => <[key := (AList l, 0)]> kv end)) as ->.
      { destruct l; [by rw delete_insert_id|by rw insert_insert_eq]. }
      rw IH. cbn. do 2 f_equal. lia. }
  assert (spec_run cmds kv t = (Integer (Z.of_nat (S (length vs))) :: (BulkBytes <$> v :: vs) ++ [Integer 0], kv, (t + length vs + 3)%nat)) as Heq.
  { unfold cmds. cbn [spec_run]. unfold spec_execute at 1. cbn [Name Args String.eqb Ascii.eqb Bool.eqb orb].
    unfold spec_push, kpush, klive, kdrop. rw Hk. cbn [mbind option_bind]. cbn [app].
    change (S (length vs)) with (length (v :: vs)). rw (Hpops (v :: vs) (S t)).
    assert (S t + length (v :: vs) + 1 = t + length vs + 3)%nat as -> by (simpl; lia). done. }
  destruct (exec_run_spec cmds s kv t Hs) as (s' & Hx & Hs'). rw Heq in Hx Hs'. by exists s'.
Qed.

Lemma queue_order_witness :
  exists s', exec_run (H := steadyEnv) (mkCommand "RPUSH" ["q"; "a"; "b"] :: replicate 2 (mkCommand "LPOP" ["q"]) ++
        [mkCommand "LLEN" ["q"]]) (mkSys (NewStore 4) 0) =
      Some (Integer 2 :: (BulkBytes <$> ["a"; "b"]) ++ [Integer 0], mkSys s' 4) /\
    store_kv s' ∅.
Proof. apply (queue_order (H := steadyEnv) (NewStore 4) ∅ 0 "q" "a" ["b"]); [by apply NewStore_spec|done]. Defined.

(** Sorted sets are sorted: a full ZRANGE returns every member once, in
    strictly increasing order of score, and of member bytes where the scores
    are equal. *)
Theorem zrange_ordered `{Env} s kv t key l :
  store_kv s kv -> kv !! key = Some (AZSet l, 0) ->
  exists s', Execute (mkCommand "ZRANGE" [key; "0"; "-1"]) (mkSys s t) =
      Some (Array (BulkFromString <$> l.*2) false, mkSys s' (S t)) /\
    store_kv s' kv /\ StronglySorted mltp l /\ NoDup l.*2 /\ (forall m, m ∈ l -> IsNaN m.1 = false).
Proof.
  intros Hs Hk. destruct (Execute_spec (mkCommand "ZRANGE" [key; "0"; "-1"]) s kv t Hs) as (s' & Hx & Hs').
  pose proof (store_kv_zseq _ _ _ _ _ Hs Hk) as [H1 H2 H3]. exists s'.
  assert (spec_execute (mkCommand "ZRANGE" [key; "0"; "-1"]) kv t = (Array (BulkFromString <$> l.*2) false, kv, S t)) as Heq.
  { unfold spec_execute. cbn [Name Args String.eqb Ascii.eqb Bool.eqb orb]. unfold spec_zrange.
    change (parseInt64 "0") with (Some 0). change (parseInt64 "-1") with (Some (-1)). cbn [drop zrangeOption].
    unfold spec_read, klive, kdrop. rw Hk. cbn [mbind option_bind kexpired snd Z.eqb negb andb].
    rw zrange_full. unfold zrangeReply. do 3 f_equal. clear. induction l as [|x l IH]; [done|]. simpl. by rw IH. }
  rw Heq in Hx Hs'. done.
Qed.

Definition rankMap : KV :=
  (spec_run (H := steadyEnv) [mkCommand "ZADD" ["z"; "2"; "b"; "1"; "c"; "2"; "a"]] ∅ 0).1.2.
Definition rankList : list (float64 * string) :=
  match rankMap !! "z" with Some (AZSet l, _) => l | _ => [] end.
Lemma zrange_ordered_witness :
  rankList.*2 = ["c"; "a"; "b"] /\
  exists s s', store_kv s rankMap /\ Execute (H := steadyEnv) (mkCommand "ZRANGE" ["z"; "0"; "-1"]) (mkSys s 2) =
      Some (Array (BulkFromString <$> rankList.*2) false, mkSys s' 3).
Proof.
  split; [vm_compute; reflexivity|].
  destruct (exec_run_spec (H := steadyEnv) [mkCommand "ZADD" ["z"; "2"; "b"; "1"; "c"; "2"; "a"]] (NewStore 4) ∅ 0%nat) as (s & _ & Hs);
    [by apply NewStore_spec|].
  destruct (zrange_ordered (H := steadyEnv) s rankMap 2 "z" rankList Hs) as (s' & Hx & _); [vm_compute; reflexivity|].
  by exists s, s'.
Defined.

(** INCR on a decimal integer below the maximum, under a key without
    expiration, answers and stores its successor; at the maximum it reports the
    overflow and changes nothing. *)
Theorem incr_counts `{Env} s kv t key n :
  store_kv s kv -> kv !! key = Some (AStr (FormatInt n), 0) -> int64_range n ->
  exists s', Execute (mkCommand "INCR" [key]) (mkSys s t) =
      Some (if n =? maxInt64 then NewError "ERR" "increment or decrement would overflow" else Integer (n + 1), mkSys s' (S t)) /\
    store_kv s' (if n =? maxInt64 then kv else <[key := (AStr (FormatInt (n + 1)), 0)]> kv).
Proof.
  intros Hs Hk Hn. destruct (Execute_spec (mkCommand "INCR" [key]) s kv t Hs) as (s' & Hx & Hs'). exists s'.
  assert (spec_execute (mkCommand "INCR" [key]) kv t =
    (if n =? maxInt64 then NewError "ERR" "increment or decrement would overflow" else Integer (n + 1),
     if n =? maxInt64 then kv else <[key := (AStr (FormatInt (n + 1)), 0)]> kv, S t)) as Heq.
  { unfold spec_execute. cbn [Name Args String.eqb Ascii.eqb Bool.eqb orb]. unfold spec_incr, kincr, klive, kdrop. rw Hk.
    cbn [mbind option_bind kexpired snd Z.eqb negb andb]. rw (proj2 (parseInt64_spec (FormatInt n) n)) //.
    destruct Hn as [Hn1 Hn2]. destruct (Z.eqb_spec n maxInt64) as [->|Hne]; [done|].
    rw (proj2 (Z.ltb_ge maxInt64 (n + 1))); [lia|]. by rw (proj2 (Z.ltb_ge (n + 1) minInt64)); [lia|]. }
  by rw Heq in Hx Hs'.
Qed.

Lemma incr_counts_witness :
  exists s s', store_kv s {["c" := (AStr "41", 0)]} /\
    Execute (H := steadyEnv) (mkCommand "INCR" ["c"]) (mkSys s 1) = Some (Integer 42, mkSys s' 2) /\
    store_kv s' {["c" := (AStr "42", 0)]}.
Proof.
  destruct (exec_run_spec (H := steadyEnv) [mkCommand "SET" ["c"; "41"]] (NewStore 4) ∅ 0%nat) as (s & _ & Hs); [by apply NewStore_spec|].
  destruct (incr_counts (H := steadyEnv) s {["c" := (AStr "41", 0)]} 1 "c" 41 Hs) as (s' & Hx & Hs'); [done|done|].
  exists s, s'. split_and!; [done|done|]. exact Hs'.
Defined.

(** DEL does not look at expirations: one millisecond after its deadline a key
    no longer EXISTS, yet DEL counts it as deleted. *)
Theorem del_counts_expired :
  fst <$> exec_run (H := steadyEnv) [mkCommand "SET" ["k"; "v"; "PX"; "1"]; mkCommand "EXISTS" ["k"]] (mkSys (NewStore 2) 0) =
    Some [OK; Integer 0] /\
  fst <$> exec_run (H := steadyEnv) [mkCommand "SET" ["k"; "v"; "PX"; "1"]; mkCommand "DEL" ["k"]] (mkSys (NewStore 2) 0) =
    Some [OK; Integer 1].
Proof. split; vm_compute; reflexivity. Qed.
