(* ===== verification/Engine.v ===== *)
(** * The engine: [internal/engine/engine.go], [admission.go] and [memory.go]

    Admission control wraps the executor for writes: it plans the growth of
    the write, evicts keys to make room, calls the write hook (replication)
    before or after the local execution, and counts what it does.  The write
    hook is code of another package, so it is a parameter: a function on a
    state of its own that returns an error message or none.  Metrics are the
    sequence of counter updates.  [admissionMu] serialises writes, so a write
    is one step. *)
From S2P Require Import Prelude GoText GoFloat Resp ListValue SkipList ZSetValue Eviction Store Executor.
Local Open Scope Z_scope.

(** ** Memory tracker *)

Section memory.
Context (limitBytes : Z) (s : Store).
Definition Used : Z := usedBytes s.
Definition HasLimit : bool := 0 <? limitBytes.
Definition ExceedsLimit : bool := if limitBytes =? 0 then false else limitBytes <? usedBytes s.
Definition Available : Z :=
  if limitBytes =? 0 then maxUint64
  else if limitBytes <=? usedBytes s then 0
  else limitBytes - usedBytes s.
End memory.

(** ** Plans *)

Record admissionPlan := mkPlan {
  plKey : string;
  willWrite : bool;
  requiredGrowth : Z;
  resultingSize : Z;
  response : option Frame
}.
Definition respond (f : Frame) : admissionPlan := mkPlan "" false 0 0 (Some f).
Definition writePlan (key : string) (growth size : Z) : admissionPlan := mkPlan key true growth size None.

Definition oomFrame : Frame := NewError "OOM" "command not allowed when used memory would exceed maxmemory".
Definition isOOMFrame (f : Frame) : bool :=
  match f with
  | Error p m => String.eqb p "OOM" && String.eqb m "command not allowed when used memory would exceed maxmemory"
  | _ => false
  end.
Definition isErrorFrame (f : Frame) : bool := match f with Error _ _ => true | _ => false end.

Definition positiveDelta (oldSize newSize : Z) : Z := if newSize <=? oldSize then 0 else newSize - oldSize.
Definition saturatingAdd (a b : Z) : Z := if maxUint64 - a <? b then maxUint64 else a + b.
Definition pushedListBytes (values : list string) : Z :=
  foldl (fun size v => saturatingAdd size (listNodeOverhead + slen v)) 0 values.
Definition lowerCommand (name : string) : string :=
  if String.eqb name "LPUSH" then "lpush" else if String.eqb name "RPUSH" then "rpush" else name.

(** The loop of [planZAdd] over the pairs: the bytes of the members that are
    in neither the set nor an earlier pair. *)
Fixpoint addedMemberBytes (zv : option ZSetValue) (pairs : list (float64 * string)) (newMembers : gset string)
    (addedBytes : Z) : Z :=
  match pairs with
  | [] => addedBytes
  | p :: pairs =>
      if bool_decide (p.2 ∈ newMembers) then addedMemberBytes zv pairs newMembers addedBytes
      else if match zv with Some z => match ZScore z p.2 with Some _ => true | None => false end | None => false end
      then addedMemberBytes zv pairs newMembers addedBytes
      else addedMemberBytes zv pairs ({[p.2]} ∪ newMembers) (saturatingAdd addedBytes (64 + slen p.2))
  end.

Section plan.
Context `{Env}.

Definition peek (key : string) : M (option Entry) :=
  now ← nowNanos; onStore (fun s => Peek s now key).
Definition entrySize (e : option Entry) : Z := match e with Some e => SizeBytes e | None => 0 end.

Definition planSet (cmd : Command) : M admissionPlan :=
  match Args cmd with
  | key :: value :: rest =>
      r ← onTick (parseSetOptions rest);
      match r with
      | inr frame => mret (respond frame)
      | inl opts =>
          entry ← peek key;
          match condition opts, entry with
          | setIfMissing, Some _ => mret (respond NullBulk)
          | setIfPresent, None => mret (respond NullBulk)
          | _, _ =>
              let newSize := stringEntrySize key value in
              mret (writePlan key (positiveDelta (entrySize entry) newSize) newSize)
          end
      end
  | _ => mret (respond (wrongArgs "set"))
  end.

Definition planIncr (cmd : Command) : M admissionPlan :=
  match Args cmd with
  | [key] =>
      entry ← peek key;
      let current : Z + Frame :=
        match entry with
        | None => inl 0
        | Some e =>
            if negb (bool_decide (EType e = ValueTypeString)) then inr wrongTypeError
            else match EValue e with
            | StringValue data => match parseInt64 data with Some n => inl n | None => inr notIntegerError end
            | _ => inr wrongTypeError
            end
        end in
      match current with
      | inr frame => mret (respond frame)
      | inl current =>
          if current =? maxInt64 then mret (respond (NewError "ERR" "increment or decrement would overflow"))
          else
            let newSize := stringEntrySize key (formatInt64 (i64 (current + 1))) in
            mret (writePlan key (positiveDelta (entrySize entry) newSize) newSize)
      end
  | _ => mret (respond (wrongArgs "incr"))
  end.

Definition planListPush (cmd : Command) : M admissionPlan :=
  match Args cmd with
  | key :: v :: vs =>
      entry ← peek key;
      let wrong := match entry with Some e => negb (bool_decide (EType e = ValueTypeList)) | None => false end in
      if wrong then mret (respond wrongTypeError)
      else
        let oldSize := entrySize entry in
        let delta := pushedListBytes (v :: vs) in
        let newSize :=
          match entry with
          | Some _ => saturatingAdd oldSize delta
          | None => saturatingAdd (u64 (stringEntryOverhead + slen key)) delta
          end in
        mret (writePlan key (positiveDelta oldSize newSize) newSize)
  | _ => mret (respond (wrongArgs (lowerCommand (Name cmd))))
  end.

Definition planZAdd (cmd : Command) : M admissionPlan :=
  match Args cmd with
  | key :: rest =>
      if (Z.of_nat (length (Args cmd)) <? 3) || negb (Z.of_nat (length rest) mod 2 =? 0)
      then mret (respond (wrongArgs "zadd"))
      else match parseZAddPairs rest with
      | inr frame => mret (respond frame)
      | inl pairs =>
          entry ← peek key;
          let zv : option ZSetValue + Frame :=
            match entry with
            | None => inl None
            | Some e =>
                if negb (bool_decide (EType e = ValueTypeZSet)) then inr wrongTypeError
                else match EValue e with ZSetV zv => inl (Some zv) | _ => inr wrongTypeError end
            end in
          match zv with
          | inr frame => mret (respond frame)
          | inl zv =>
              let oldSize := entrySize entry in
              let addedBytes := addedMemberBytes zv pairs ∅ 0 in
              let newSize :=
                match entry with
                | Some _ => saturatingAdd oldSize addedBytes
                | None => saturatingAdd (u64 (zsetEntryOverhead + slen key)) addedBytes
                end in
              mret (writePlan key (positiveDelta oldSize newSize) newSize)
          end
      end
  | [] => mret (respond (wrongArgs "zadd"))
  end.

Definition planAdmission (cmd : Command) : M admissionPlan :=
  let named (n : string) := String.eqb (Name cmd) n in
  if named "SET" then planSet cmd
  else if named "INCR" then planIncr cmd
  else if named "LPUSH" || named "RPUSH" then planListPush cmd
  else if named "ZADD" then planZAdd cmd
  else mret (mkPlan "" (IsWriteCommand (Name cmd)) 0 0 None).
End plan.

(** ** The engine *)

(** The configuration: memory limit, eviction policy, write hook. *)
Record Config (W : Type) := mkConfig {
  limit : Z;
  policy : Policy;
  writeHook : option (Command -> W -> option string * W);
  hookSync : bool
}.
Arguments mkConfig {W}.
Arguments limit {W}.
Arguments policy {W}.
Arguments writeHook {W}.
Arguments hookSync {W}.

Record Eng (W : Type) := mkEng { engSys : Sys; engHook : W; engMetrics : list (string * Z) }.
Arguments mkEng {W}.
Arguments engSys {W}.
Arguments engHook {W}.
Arguments engMetrics {W}.

Section engine.
Context `{Env, SliceSort} {W : Type} (cfg : Config W).

(** [Manager.PickVictims] on the store's [Sample]. *)
Definition sampleVictims (needed : Z) (excludeKey : string) (now : Z) : M (list Candidate) := fun w =>
  Some (PickVictims (policy cfg) (Sample (sysStore w) now (visit (tick w)) defaultSampleSize) needed excludeKey,
        mkSys (sysStore w) (S (tick w))).
Definition managerPickVictims (needed : Z) (excludeKey : string) : M (list Candidate) :=
  nowNanos ≫= sampleVictims needed excludeKey.

Definition EM (A : Type) : Type := Eng W -> option (A * Eng W).
#[local] Instance EM_ret : MRet EM := fun A a w => Some (a, w).
#[local] Instance EM_bind : MBind EM := fun A B f m w => '(a, w') ← m w; f a w'.

Definition liftM {A} (m : M A) : EM A := fun w =>
  '(a, s) ← m (engSys w); Some (a, mkEng s (engHook w) (engMetrics w)).
Definition AddCounter (name : string) (n : Z) : EM unit := fun w =>
  Some (tt, mkEng (engSys w) (engHook w) (engMetrics w ++ [(name, n)])).
Definition IncCounter (name : string) : EM unit := AddCounter name 1.

(** A call of the hook; [None] is success. *)
Definition callHook (hook : Command -> W -> option string * W) (cmd : Command) : EM (option string) := fun w =>
  let '(err, h) := hook cmd (engHook w) in Some (err, mkEng (engSys w) h (engMetrics w)).
(** [if e.writeHook != nil && e.hookSync == sync] *)
Definition hookIf (sync : bool) (cmd : Command) : EM (option string) :=
  match writeHook cfg with
  | Some hook => if Bool.eqb (hookSync cfg) sync then callHook hook cmd else mret None
  | None => mret None
  end.

Definition used : EM Z := fun w => Some (usedBytes (sysStore (engSys w)), w).
Definition available : EM Z := fun w => Some (Available (limit cfg) (sysStore (engSys w)), w).

Definition replicationFailed (err : string) : Frame := NewError "ERR" ("replication failed: " +:+ err).
Definition evictionDeleteCommand (key : string) : Command := mkCommand "DEL" [key].

(** The loop over the victims of one pass: whether something was deleted,
    or the error frame of a failed hook. *)
Fixpoint evictLoop (plan : admissionPlan) (victims : list Candidate) (progress : bool) : EM (bool + Frame) :=
  match victims with
  | [] => mret (inl progress)
  | victim :: victims =>
      if String.eqb (CKey victim) (plKey plan) then evictLoop plan victims progress
      else
        err ← hookIf true (evictionDeleteCommand (CKey victim));
        match err with
        | Some err => mret (inr (replicationFailed err))
        | None =>
            freed ← liftM (onStore (fun s => DeleteWithSize s (CKey victim)));
            match freed with
            | None => evictLoop plan victims progress
            | Some freed =>
                IncCounter "eviction.keys_evicted";;
                IncCounter "eviction.count";;
                AddCounter "eviction.bytes_freed" freed;;
                _ ← hookIf false (evictionDeleteCommand (CKey victim));
                evictLoop plan victims true
            end
        end
  end.

Definition maxEvictionPasses : nat := 64.

Fixpoint freePasses (passes : nat) (plan : admissionPlan) : EM (option Frame) :=
  match passes with
  | O => mret (Some oomFrame)
  | S passes =>
      avail ← available;
      if requiredGrowth plan <=? avail then mret None
      else if String.eqb (PolicyName (policy cfg)) "noeviction" then mret (Some oomFrame)
      else
        IncCounter "eviction.attempts";;
        victims ← liftM (managerPickVictims (requiredGrowth plan - avail) (plKey plan));
        match victims with
        | [] => mret (Some oomFrame)
        | _ =>
            r ← evictLoop plan victims false;
            match r with
            | inr frame => mret (Some frame)
            | inl progress => if (progress : bool) then freePasses passes plan else mret (Some oomFrame)
            end
        end
  end.
Definition freeForAdmission (plan : admissionPlan) : EM (option Frame) := freePasses maxEvictionPasses plan.

(** After the room is there: the hook before, the execution, the hook
    after. *)
Definition executeHooked (cmd : Command) : EM Frame :=
  err ← hookIf true cmd;
  match err with
  | Some err => mret (replicationFailed err)
  | None =>
      frame ← liftM (Execute cmd);
      (if isErrorFrame frame then mret None else hookIf false cmd);;
      mret frame
  end.

Definition executeWithAdmission (cmd : Command) : EM Frame :=
  plan ← liftM (planAdmission cmd);
  match response plan with
  | Some f => (if isOOMFrame f then IncCounter "eviction.rejected_writes" else mret tt);; mret f
  | None =>
      if willWrite plan && HasLimit (limit cfg) && (0 <? requiredGrowth plan) then
        if limit cfg <? resultingSize plan then
          IncCounter "eviction.rejected_writes";; mret oomFrame
        else
          r ← freeForAdmission plan;
          match r with
          | Some frame => IncCounter "eviction.rejected_writes";; mret frame
          | None => executeHooked cmd
          end
      else executeHooked cmd
  end.

(** [Engine.Execute]; the latency observations are not modelled. *)
Definition EngineExecute (cmd : Command) : EM Frame :=
  frame ← (if IsWriteCommand (Name cmd) then executeWithAdmission cmd else liftM (Execute cmd));
  IncCounter "cmd.total";;
  mret frame.

Definition ApplyReplicated (cmd : Command) : EM Frame :=
  frame ← liftM (Execute cmd);
  IncCounter "replication.applied";;
  mret frame.
End engine.
