(* ===== verification/EngineSpec.v ===== *)
(** * Admission control keeps the memory limit

    The main theorem: from a store within the memory limit, every command the
    engine executes (with any eviction policy, any write hook, any clock that
    may move between the plan and the execution, and any map iteration order)
    leaves a store within the limit, and never panics. *)
From S2P Require Import Prelude GoText GoFloat GoFloatText Resp ListValue SkipList ZSetValue Eviction Store StoreSpec Executor ExecutorSpec Engine.
Local Open Scope Z_scope.

(** ** Sizes of the abstract map *)

Definition rawsize (key : string) (v : aval) : Z :=
  match v with
  | AStr s => stringEntryOverhead + slen key + slen s
  | AList l => stringEntryOverhead + slen key + list_bytes l
  | AZSet l => zsetEntryOverhead + slen key + zset_bytes l
  end.
(** No accounted size has wrapped around. *)
Definition kv_exact (kv : KV) : Prop := forall k x, kv !! k = Some x -> rawsize k x.1 <= maxUint64.
Definition ksize (key : string) (kv : KV) : Z := match kv !! key with Some x => asize key x.1 | None => 0 end.

Lemma zset_bytes_nonneg l : 0 <= zset_bytes l.
Proof. induction l as [|x l IH]; simpl; [lia|]. pose proof (slen_nonneg x.2). lia. Qed.

Lemma rawsize_nonneg key v : 0 <= rawsize key v.
Proof.
  pose proof (slen_nonneg key). destruct v as [s|l|l]; simpl; unfold stringEntryOverhead, zsetEntryOverhead.
  - pose proof (slen_nonneg s). lia.
  - pose proof (list_bytes_nonneg l). lia.
  - pose proof (zset_bytes_nonneg l). lia.
Qed.

Lemma asize_raw key v : rawsize key v <= maxUint64 -> asize key v = rawsize key v.
Proof.
  intros Hm. pose proof (rawsize_nonneg key v). unfold maxUint64 in Hm.
  destruct v; simpl in *; apply u64_small; lia.
Qed.

Lemma asize_nonneg key v : 0 <= asize key v.
Proof. apply asize_range. Qed.

Lemma ktotal_delete key kv : ktotal (delete key kv) = ktotal kv - ksize key kv.
Proof. unfold ktotal, ksize. rw msum_delete'. by destruct (kv !! key). Qed.

Lemma ksize_nonneg key kv : 0 <= ksize key kv.
Proof. unfold ksize. destruct (kv !! key); [apply asize_nonneg|lia]. Qed.

Lemma ksize_total key kv : ksize key kv <= ktotal kv.
Proof. pose proof (ktotal_nonneg (delete key kv)) as H. rw ktotal_delete in H. lia. Qed.

(** [kdrop] removes at most the entry under the key. *)
Lemma kdrop_cases now key kv :
  kdrop now key kv = kv \/ (kdrop now key kv = delete key kv /\ is_Some (kv !! key)).
Proof. unfold kdrop. destruct (kv !! key) as [x|]; [|by left]. destruct (kexpired now x); [right|left]; eauto. Qed.

Lemma ktotal_drop now key kv : ktotal (kdrop now key kv) <= ktotal kv.
Proof.
  destruct (kdrop_cases now key kv) as [->|[-> _]]; [done|]. rw ktotal_delete. pose proof (ksize_nonneg key kv). lia.
Qed.

Lemma ktotal_insert_drop now key x kv :
  ktotal (<[key := x]> (kdrop now key kv)) = ktotal kv - ksize key kv + asize key x.1.
Proof.
  unfold ktotal. rw msum_insert. fold (ktotal (kdrop now key kv)).
  destruct (kdrop_cases now key kv) as [->|[-> _]].
  - unfold ksize, ktotal. destruct (kv !! key); lia.
  - rw lookup_delete_eq ktotal_delete. fold (ktotal kv). lia.
Qed.

Lemma exact_delete key kv : kv_exact kv -> kv_exact (delete key kv).
Proof. intros He k x Hk. apply lookup_delete_Some in Hk as [_ Hk]. by eapply He. Qed.

Lemma exact_drop now key kv : kv_exact kv -> kv_exact (kdrop now key kv).
Proof. intros He. destruct (kdrop_cases now key kv) as [->|[-> _]]; [done|]. by apply exact_delete. Qed.

Lemma exact_insert key x kv : kv_exact kv -> rawsize key x.1 <= maxUint64 -> kv_exact (<[key := x]> kv).
Proof.
  intros He Hx k y. rw lookup_insert_Some. intros [[<- <-]|[_ Hk]]; [done|]. by eapply He.
Qed.

(** A step that keeps within a growth. *)
Definition grows (kv kv' : KV) (growth : Z) : Prop := ktotal kv' <= ktotal kv + growth /\ kv_exact kv'.

Lemma grows_drop now key kv growth : kv_exact kv -> 0 <= growth -> grows kv (kdrop now key kv) growth.
Proof. intros He Hg. split; [|by apply exact_drop]. pose proof (ktotal_drop now key kv). lia. Qed.

Lemma grows_delete key kv growth : kv_exact kv -> 0 <= growth -> grows kv (delete key kv) growth.
Proof. intros He Hg. split; [|by apply exact_delete]. rw ktotal_delete. pose proof (ksize_nonneg key kv). lia. Qed.

Lemma grows_insert now key x kv growth :
  kv_exact kv -> rawsize key x.1 <= maxUint64 -> asize key x.1 - ksize key kv <= growth ->
  grows kv (<[key := x]> (kdrop now key kv)) growth.
Proof.
  intros He Hx Hg. split; [rw ktotal_insert_drop; lia|]. apply exact_insert; [by apply exact_drop|done].
Qed.

Lemma grows_refl kv growth : kv_exact kv -> 0 <= growth -> grows kv kv growth.
Proof. intros He Hg. split; [lia|done]. Qed.

Lemma grows_trans kv1 kv2 kv3 : grows kv1 kv2 0 -> grows kv2 kv3 0 -> grows kv1 kv3 0.
Proof. intros [H1 _] [H2 H3]. split; [lia|done]. Qed.

(** ** Saturating sums *)

Lemma saturatingAdd_min a b : saturatingAdd a b = Z.min maxUint64 (a + b).
Proof. unfold saturatingAdd. destruct (Z.ltb_spec (maxUint64 - a) b); lia. Qed.

Lemma pushedListBytes_min vs : pushedListBytes vs = Z.min maxUint64 (list_bytes vs).
Proof.
  unfold pushedListBytes. assert (forall a, 0 <= a <= maxUint64 ->
    foldl (fun size v => saturatingAdd size (listNodeOverhead + slen v)) a vs = Z.min maxUint64 (a + list_bytes vs)) as H.
  { induction vs as [|v vs IH]; intros a Ha; simpl; [lia|]. pose proof (slen_nonneg v). unfold listNodeOverhead in *.
    rw IH saturatingAdd_min; [lia|]. pose proof (list_bytes_nonneg vs). lia. }
  rw H; [unfold maxUint64; lia|]. lia.
Qed.

(** The bytes of the members of [pairs] that are not [known]. *)
Fixpoint newBytes (known : gset string) (pairs : list (float64 * string)) : Z :=
  match pairs with
  | [] => 0
  | p :: ps => if bool_decide (p.2 ∈ known) then newBytes known ps else 64 + slen p.2 + newBytes ({[p.2]} ∪ known) ps
  end.

Lemma newBytes_nonneg known pairs : 0 <= newBytes known pairs.
Proof.
  revert known; induction pairs as [|p ps IH]; intros known; simpl; [lia|].
  case_bool_decide; [done|]. pose proof (slen_nonneg p.2). specialize (IH ({[p.2]} ∪ known)). lia.
Qed.

Definition members (l : list (float64 * string)) : gset string := list_to_set l.*2.

Definition zset_members (zv : option ZSetValue) : gset string :=
  match zv with Some z => members (zelems z) | None => ∅ end.

Lemma addedMemberBytes_min zv pairs seen acc :
  (forall z, zv = Some z -> zset_ok z) -> 0 <= acc <= maxUint64 ->
  addedMemberBytes zv pairs seen acc = Z.min maxUint64 (acc + newBytes (seen ∪ zset_members zv) pairs).
Proof.
  intros Hz. revert seen acc; induction pairs as [|p ps IH]; intros seen acc Ha; cbn [addedMemberBytes newBytes]; [lia|].
  assert (match zv with Some z => match ZScore z p.2 with Some _ => true | None => false end | None => false end
    = bool_decide (p.2 ∈ zset_members zv)) as ->.
  { destruct zv as [z|]; simpl; [|by rw bool_decide_eq_false_2; [set_solver|]].
    unfold ZScore, members. rw (zset_index _ (Hz z eq_refl)).
    destruct (zmap (zelems z) !! p.2) as [sc|] eqn:Hm.
    - rw bool_decide_eq_true_2 //. apply elem_of_list_to_set.
      apply zmap_Some in Hm; [|apply zseq_unique, zset_seq, Hz; done]. by apply (list_elem_of_fmap_2 snd) in Hm.
    - rw bool_decide_eq_false_2 //. rw elem_of_list_to_set. by apply zmap_None. }
  destruct (bool_decide (p.2 ∈ seen)) eqn:Hs; [|destruct (bool_decide (p.2 ∈ zset_members zv)) eqn:Hm].
  - apply bool_decide_eq_true in Hs. rw (bool_decide_eq_true_2 (p.2 ∈ seen ∪ _)); [set_solver|]. by apply IH.
  - apply bool_decide_eq_true in Hm. rw (bool_decide_eq_true_2 (p.2 ∈ seen ∪ _)); [set_solver|]. by apply IH.
  - apply bool_decide_eq_false in Hs, Hm. rw (bool_decide_eq_false_2 (p.2 ∈ seen ∪ _)); [set_solver|].
    pose proof (slen_nonneg p.2). rw IH saturatingAdd_min; [lia|].
    pose proof (newBytes_nonneg ({[p.2]} ∪ seen ∪ zset_members zv) ps). rw (union_assoc_L {[p.2]}). lia.
Qed.

(** ** The size of a sorted set after additions *)

Lemma zset_bytes_perm l l' : l ≡ₚ l' -> zset_bytes l = zset_bytes l'.
Proof. induction 1; simpl; lia. Qed.

Lemma members_perm l l' : l ≡ₚ l' -> members l = members l'.
Proof. intros Hp. unfold members. apply leibniz_equiv. by rw Hp. Qed.

Lemma elem_of_members m l : m ∈ members l <-> m ∈ l.*2.
Proof. apply elem_of_list_to_set. Qed.

Lemma zadd_size p l :
  zseq_ok l -> IsNaN p.1 = false ->
  zseq_ok (zadd p l).1 /\ members (zadd p l).1 = {[p.2]} ∪ members l /\
  zset_bytes (zadd p l).1 = zset_bytes l + (if bool_decide (p.2 ∈ members l) then 0 else 64 + slen p.2).
Proof.
  intros Hl Hn. destruct p as [s m]. unfold zadd. cbn [fst snd] in *.
  pose proof (zseq_unique _ Hl) as Hu. destruct (zmap l !! m) as [old|] eqn:Hm.
  - apply zmap_Some in Hm as Hin; [|done].
    assert (m ∈ members l) as Hmm by (apply elem_of_members; by apply (list_elem_of_fmap_2 snd) in Hin).
    rw bool_decide_eq_true_2 //. destruct (feqb old s); simpl.
    { split_and!; [done|set_solver|lia]. }
    pose proof (zseq_nan _ Hl _ Hin) as Ho. destruct (zremove_drop l old m Hin Hu Ho) as [He Hr].
    destruct (zremove_perm _ _ He) as (x & Hx & Hp). rw Hr in Hp.
    assert (x.2 = m) as Hxm. { unfold same_item in Hx. apply andb_true_iff in Hx as [_ Hx]. by apply bool_decide_eq_true in Hx. }
    split_and!.
    + apply zinsert_ok; [by apply zdrop_ok|done|apply zdrop_notin].
    + rw (members_perm _ _ (zinsert_perm _ _)) (members_perm _ _ Hp). unfold members. simpl. rw Hxm. set_solver.
    + rw (zset_bytes_perm _ _ (zinsert_perm _ _)) (zset_bytes_perm _ _ Hp). simpl. rw Hxm. lia.
  - apply zmap_None in Hm. rw bool_decide_eq_false_2; [by rw elem_of_members|]. simpl.
    rw (members_perm _ _ (zinsert_perm _ _)) (zset_bytes_perm _ _ (zinsert_perm _ _)). simpl.
    split_and!; [by apply zinsert_ok|done|lia].
Qed.

Lemma zaddAll_size ps l a :
  zseq_ok l -> (forall p, p ∈ ps -> IsNaN p.1 = false) ->
  zseq_ok (zaddAll ps l a).1 /\ members (zaddAll ps l a).1 = members ps ∪ members l /\
  zset_bytes (zaddAll ps l a).1 = zset_bytes l + newBytes (members l) ps.
Proof.
  revert l a; induction ps as [|p ps IH]; intros l a Hl Hn; cbn [zaddAll newBytes].
  - split_and!; [done|set_solver|simpl; lia].
  - destruct (zadd_size p l Hl) as (H1 & H2 & H3); [set_solver|].
    destruct (zadd p l) as [l1 b]. simpl in H1, H2, H3.
    destruct (IH l1 (a + Z.b2z b) H1) as (H4 & H5 & H6); [set_solver|].
    split_and!; [done|rw H5 H2; unfold members; simpl; set_solver|]. rw H6 H3 H2.
    destruct (bool_decide (p.2 ∈ members l)) eqn:Hb; [|lia].
    apply bool_decide_eq_true in Hb. assert ({[p.2]} ∪ members l = members l) as -> by set_solver. lia.
Qed.

Lemma zset_bytes_subset l l' : NoDup l.*2 -> members l ⊆ members l' -> zset_bytes l <= zset_bytes l'.
Proof.
  intros Hnd Hsub.
  assert (forall l, zset_bytes l = foldr (fun m z => 64 + slen m + z) 0 l.*2) as Heq.
  { clear. induction l as [|x l IH]; simpl; [done|]. by rw IH. }
  rw !Heq. assert (l.*2 ⊆+ l'.*2) as Hs.
  { apply NoDup_submseteq; [done|]. intros m Hm. apply elem_of_members, Hsub, elem_of_members, Hm. }
  clear -Hs. induction Hs as [|m l1 l2 _ IH|m1 m2 l1|m l1 l2 _ IH|]; simpl; try lia.
  pose proof (slen_nonneg m). lia.
Qed.

(** ** What a plan promises *)

(** ** Commands that do not grow the data *)

Lemma unpush_bytes left l v l' : unpush left l = Some (v, l') -> list_bytes l' <= list_bytes l.
Proof.
  unfold unpush. destruct left.
  - destruct l as [|x l0]; [done|]. intros [= <- <-]. simpl. pose proof (slen_nonneg x). unfold listNodeOverhead. lia.
  - intros Hu. destruct (reverse l) as [|x l0] eqn:Hr; [done|]. injection Hu as <- <-.
    apply (f_equal reverse) in Hr. rw reverse_involutive reverse_cons in Hr. subst l.
    rw list_bytes_app. pose proof (list_bytes_nonneg [x]). lia.
Qed.

Lemma grows_kpop now key left kv : kv_exact kv -> grows kv (kpop now key left kv).2 0.
Proof.
  intros He. unfold kpop, klive. destruct (kv !! key) as [[v exp]|] eqn:Hx; cbn [mbind option_bind]; [|by apply grows_drop].
  destruct (kexpired now (v, exp)) eqn:Hexp; [by apply grows_drop|]. destruct v as [|l|]; try by apply grows_drop.
  destruct (unpush left l) as [[v l']|] eqn:Hu; [|by apply grows_drop].
  destruct l' as [|y l'].
  - eapply grows_trans; [by apply (grows_drop now key)|]. apply grows_delete; [by apply exact_drop|done].
  - apply unpush_bytes in Hu. pose proof (He _ _ Hx) as Hraw. simpl in Hraw.
    apply grows_insert; [done|cbn [fst rawsize]; lia|].
    unfold ksize. rw Hx. cbn [fst]. rw !asize_raw; cbn [rawsize]; lia.
Qed.

Lemma grows_kexpireAt now key exp kv : kv_exact kv -> grows kv (kexpireAt now key exp kv).2 0.
Proof.
  intros He. unfold kexpireAt, klive. destruct (kv !! key) as [[v e0]|] eqn:Hx; cbn [mbind option_bind]; [|by apply grows_drop].
  destruct (kexpired now (v, e0)); [by apply grows_drop|]. apply grows_insert; [done|by apply (He _ _ Hx)|].
  unfold ksize. rw Hx. simpl. lia.
Qed.

Section no_growth.
Context `{Env}.

Lemma grows_del_loop keys n kv : kv_exact kv -> grows kv (spec_del_loop keys n kv).2 0.
Proof.
  revert n kv; induction keys as [|k keys IH]; intros n kv He; cbn [spec_del_loop]; [by apply grows_refl|].
  eapply grows_trans; [by apply (grows_delete k)|]. apply IH. by apply exact_delete.
Qed.

Lemma grows_exists_loop keys n kv t : kv_exact kv -> grows kv (spec_exists_loop keys n kv t).1.2 0.
Proof.
  revert n kv t; induction keys as [|k keys IH]; intros n kv t He; cbn [spec_exists_loop]; [by apply grows_refl|].
  eapply grows_trans; [by apply (grows_drop (clock t) k)|]. apply IH. by apply exact_drop.
Qed.

Lemma grows_read key none f kv t : kv_exact kv -> grows kv (spec_read key none f kv t).1.2 0.
Proof. intros He. by apply grows_drop. Qed.

Lemma grows_flush kv : grows kv ∅ 0.
Proof.
  split; [|intros k x Hk; by rw lookup_empty in Hk]. pose proof (ktotal_nonneg kv).
  unfold ktotal at 1. rw msum_empty. lia.
Qed.

Lemma grows_expire args kv t : kv_exact kv -> grows kv (spec_expire args kv t).1.2 0.
Proof.
  intros He. unfold spec_expire. destruct args as [|key [|secs [|]]]; try by apply grows_refl.
  destruct (parseInt64 secs) as [z|]; [|by apply grows_refl]. destruct (z <=? 0); [by apply grows_delete|].
  destruct (expirationFromNow z 1000000000 t) as [[exp|] t']; [|by apply grows_refl].
  pose proof (grows_kexpireAt (clock t') key exp kv He). by destruct (kexpireAt _ _ _ _).
Qed.

Lemma grows_ttl args kv t : kv_exact kv -> grows kv (spec_ttl args kv t).1.2 0.
Proof.
  intros He. unfold spec_ttl. destruct args as [|key [|]]; try by apply grows_refl. cbv zeta.
  destruct (klive _ _ _) as [[v exp]|]; [destruct (exp =? 0)|]; by apply grows_drop.
Qed.

Lemma grows_pop name left args kv t : kv_exact kv -> grows kv (spec_pop name left args kv t).1.2 0.
Proof.
  intros He. unfold spec_pop. destruct args as [|key [|]]; try by apply grows_refl.
  pose proof (grows_kpop (clock t) key left kv He). by destruct (kpop _ _ _ _).
Qed.

Lemma grows_zrange args kv t : kv_exact kv -> grows kv (spec_zrange args kv t).1.2 0.
Proof.
  intros He. unfold spec_zrange. destruct args as [|key [|a [|b [|o [|]]]]]; try by apply grows_refl.
  - destruct (parseInt64 a), (parseInt64 b); try by apply grows_refl.
    destruct (zrangeOption _); [by apply grows_read|by apply grows_refl].
  - destruct (parseInt64 a), (parseInt64 b); try by apply grows_refl.
    destruct (zrangeOption _); [by apply grows_read|by apply grows_refl].
Qed.

(** The commands that admission control plans for. *)
Definition growing (cmd : Command) : bool :=
  let named (n : string) := String.eqb (Name cmd) n in
  named "SET" || named "INCR" || named "LPUSH" || named "RPUSH" || named "ZADD".

Lemma spec_no_growth cmd kv t : growing cmd = false -> kv_exact kv -> grows kv (spec_execute cmd kv t).1.2 0.
Proof.
  intros Hg He. unfold growing in Hg. apply orb_false_iff in Hg as [Hg Hg1]. apply orb_false_iff in Hg as [Hg Hg2].
  apply orb_false_iff in Hg as [Hg Hg3]. apply orb_false_iff in Hg as [Hg5 Hg4].
  unfold spec_execute. rw Hg1 Hg2 Hg3 Hg4 Hg5. cbv zeta.
  repeat match goal with |- grows _ (if ?b then _ else _).1.2 _ => destruct b end;
    try (by apply grows_refl); try (by apply grows_expire); try (by apply grows_ttl); try (by apply grows_pop);
    try (by apply grows_zrange); try apply grows_flush.
  - unfold spec_del. destruct (Args cmd) as [|k ks]; [by apply grows_refl|].
    pose proof (grows_del_loop (k :: ks) 0 kv He). by destruct (spec_del_loop _ _ _).
  - unfold spec_exists. destruct (Args cmd) as [|k ks]; [by apply grows_refl|].
    pose proof (grows_exists_loop (k :: ks) 0 kv t He). by destruct (spec_exists_loop _ _ _ _) as [[??]?].
  - unfold spec_get. destruct (Args cmd) as [|k [|]]; try by apply grows_refl. by apply grows_read.
  - unfold spec_llen. destruct (Args cmd) as [|k [|]]; try by apply grows_refl. by apply grows_read.
  - unfold spec_zcard. destruct (Args cmd) as [|k [|]]; try by apply grows_refl. by apply grows_read.
  - unfold spec_zscore. destruct (Args cmd) as [|k [|m [|]]]; try by apply grows_refl. by apply grows_read.
Qed.
End no_growth.

Section plans.
Context `{Env} (L : Z).

(** The arguments of a command fit in memory. *)
Definition cmd_fits (cmd : Command) : Prop := args_len (Args cmd) <= 2 ^ 62.

(** [plan] was made for [cmd] when the map was [kv1]: executed later on a
    map with the same entry under the plan's key, [cmd] grows the data by at
    most the planned growth. *)
Definition plan_covers (cmd : Command) (plan : admissionPlan) (kv1 : KV) : Prop :=
  forall s2 kv2 t, store_kv s2 kv2 -> kv2 !! plKey plan = kv1 !! plKey plan -> kv_exact kv2 ->
    ktotal kv2 <= L -> (0 < requiredGrowth plan -> resultingSize plan <= L) ->
    grows kv2 (spec_execute cmd kv2 t).1.2 (requiredGrowth plan).

Definition plan_ok (cmd : Command) (plan : admissionPlan) (kv1 : KV) : Prop :=
  0 <= requiredGrowth plan /\ (response plan = None -> plan_covers cmd plan kv1).

Lemma positiveDelta_spec o n : 0 <= positiveDelta o n /\ n - o <= positiveDelta o n /\
  (positiveDelta o n = 0 -> n <= o).
Proof. unfold positiveDelta. destruct (Z.leb_spec n o); lia. Qed.

Lemma positiveDelta_nonneg o n : 0 <= positiveDelta o n.
Proof. apply (positiveDelta_spec o n). Qed.

Lemma args_len_elem a args : a ∈ args -> slen a <= args_len args.
Proof.
  induction args as [|x args IH]; simpl; [by intros ?%elem_of_nil|].
  pose proof (slen_nonneg x). pose proof (args_len_nonneg args). rw elem_of_cons. intros [->|Hi]; [lia|]. specialize (IH Hi). lia.
Qed.

Lemma stringEntrySize_raw key value :
  slen key + slen value <= 2 ^ 63 -> stringEntrySize key value = rawsize key (AStr value) /\
  rawsize key (AStr value) <= maxUint64.
Proof.
  intros Hf. pose proof (slen_nonneg key). pose proof (slen_nonneg value).
  unfold stringEntrySize. simpl. unfold stringEntryOverhead, maxUint64 in *. split; [apply u64_small|]; lia.
Qed.

(** Peeking the entry the plan is about. *)
Lemma peek_spec s kv t key :
  store_kv s kv ->
  exists e s', peek key (mkSys s t) = Some (e, mkSys s' (S t)) /\ store_kv s' (kdrop (clock t) key kv) /\
    klive (clock t) key kv = abs_entry <$> e /\
    abs_entry <$> e = kdrop (clock t) key kv !! key /\ (forall x, e = Some x -> entry_ok key x) /\
    entrySize e = ksize key (kdrop (clock t) key kv).
Proof.
  intros Hs. unfold peek, Peek. run. destruct (get_spec s kv (clock t) key false Hs) as (e & s' & -> & Hs' & Hl & Hok).
  assert (abs_entry <$> e = kdrop (clock t) key kv !! key) as Hl'.
  { rw Hl. unfold klive, kdrop. destruct (kv !! key) as [x|] eqn:Hx; simpl; [|done].
    destruct (kexpired (clock t) x); [by rw lookup_delete_eq|done]. }
  eexists _, _. split; [done|]. split_and!; [done..|]. unfold ksize. rw -Hl'.
  destruct e as [e|]; simpl; [|done]. apply entry_ok_size. by apply Hok.
Qed.

(** What is missing in [kv'] had expired by some reading of the clock. *)
Definition only_expired (kv kv' : KV) : Prop :=
  forall k x, kv !! k = Some x -> kv' !! k = Some x \/ exists t, kexpired (clock t) x = true.

Lemma only_expired_drop t key kv : only_expired kv (kdrop (clock t) key kv).
Proof.
  intros k x Hk. unfold kdrop. destruct (kv !! key) as [y|] eqn:Hy; [|by left].
  destruct (kexpired (clock t) y) eqn:He; [|by left]. destruct (decide (key = k)) as [<-|Hne].
  - right. exists t. congruence.
  - left. by rw lookup_delete_ne.
Qed.

(** A plan was computed: it is sound for a map that holds no more than
    before, and if it answers the command at once, reply and map are those
    that [out] gives. *)
Definition planned (out : KV -> nat -> Frame * KV) (cmd : Command) (m : M admissionPlan) : Prop :=
  forall s kv t, store_kv s kv -> kv_exact kv ->
    exists plan s' t' kv', m (mkSys s t) = Some (plan, mkSys s' t') /\ store_kv s' kv' /\ grows kv kv' 0 /\
      kv' ⊆ kv /\ plan_ok cmd plan kv' /\ (forall f, response plan = Some f -> (f, kv') = out kv t) /\
      only_expired kv kv'.

(** The reply and the map that the command semantics gives. *)
Definition outcome (cmd : Command) (kv : KV) (t : nat) : Frame * KV := (spec_execute cmd kv t).1.

Lemma planned_ext out out' cmd m : (forall kv t, out' kv t = out kv t) -> planned out' cmd m -> planned out cmd m.
Proof.
  intros Hext Hm s kv t Hs He. destruct (Hm s kv t Hs He) as (plan & s' & t' & kv' & H1 & H2 & H3 & H4 & H5 & H6 & H7).
  exists plan, s', t', kv'. do 5 (split; [done|]). split; [|done]. intros f Hf. rw -Hext. by apply H6.
Qed.

Lemma kdrop_subseteq now key kv : kdrop now key kv ⊆ kv.
Proof. destruct (kdrop_cases now key kv) as [->|[-> _]]; [done|]. apply delete_subseteq. Qed.

Lemma planned_respond (out : KV -> nat -> Frame * KV) cmd f :
  (forall kv t, (f, kv) = out kv t) -> planned out cmd (mret (respond f)).
Proof.
  intros Hf s kv t Hs He. eexists _, _, _, _. split; [done|]. split; [exact Hs|].
  split; [by apply grows_refl; [|lia]|]. split; [done|]. split; [done|]. split; [by intros f' [= <-]|].
  intros k x Hk. by left.
Qed.

(** Planning by peeking at the key. *)
Lemma planned_peek (out : KV -> nat -> Frame * KV) cmd key (k : option Entry -> M admissionPlan) :
  (forall e kv1, abs_entry <$> e = kv1 !! key -> (forall x, e = Some x -> entry_ok key x) ->
    entrySize e = ksize key kv1 -> kv_exact kv1 ->
    exists plan, (forall w, k e w = Some (plan, w)) /\ plan_ok cmd plan kv1 /\
      forall f kv t, response plan = Some f -> klive (clock t) key kv = abs_entry <$> e ->
        (f, kdrop (clock t) key kv) = out kv t) ->
  planned out cmd (peek key ≫= k).
Proof.
  intros Hk s kv t Hs He. destruct (peek_spec s kv t key Hs) as (e & s' & Hp & Hs' & Hlive & Hl & Hok & Hsz).
  destruct (Hk e (kdrop (clock t) key kv)) as (plan & Hplan & Hpok & Hresp); [done..|by apply exact_drop|].
  exists plan, s', (S t), (kdrop (clock t) key kv). unfold mbind, M_bind. rw Hp. cbn [mbind option_bind]. rw Hplan.
  split; [done|]. split; [done|]. split; [by apply grows_drop; [|lia]|]. split; [apply kdrop_subseteq|].
  split; [done|]. split; [|apply only_expired_drop]. intros f Hf. by apply Hresp.
Qed.

(** A plan that answers at once. *)
Lemma peek_respond (out : KV -> nat -> Frame * KV) cmd key (m : M admissionPlan) e kv1 f :
  (forall w, m w = Some (respond f, w)) ->
  (forall kv t, klive (clock t) key kv = abs_entry <$> e -> (f, kdrop (clock t) key kv) = out kv t) ->
  exists plan, (forall w, m w = Some (plan, w)) /\ plan_ok cmd plan kv1 /\
    forall f kv t, response plan = Some f -> klive (clock t) key kv = abs_entry <$> e ->
      (f, kdrop (clock t) key kv) = out kv t.
Proof. intros Hk Hf. exists (respond f). split; [done|]. split; [done|]. intros f' kv t [= <-]. apply Hf. Qed.

(** A plan to write. *)
Lemma peek_write (out : KV -> nat -> Frame * KV) cmd key (m : M admissionPlan) e kv1 plan :
  (forall w, m w = Some (plan, w)) -> response plan = None -> plan_ok cmd plan kv1 ->
  exists plan, (forall w, m w = Some (plan, w)) /\ plan_ok cmd plan kv1 /\
    forall f kv t, response plan = Some f -> klive (clock t) key kv = abs_entry <$> e ->
      (f, kdrop (clock t) key kv) = out kv t.
Proof. intros Hk Hn Hp. exists plan. split; [done|]. split; [done|]. intros f kv t Hf. by rw Hn in Hf. Qed.

Lemma plan_ok_respond cmd f kv : plan_ok cmd (respond f) kv.
Proof. split; [simpl; lia|]. done. Qed.

Lemma grows_kset now key value exp cond kv growth :
  kv_exact kv -> 0 <= growth -> rawsize key (AStr value) <= maxUint64 ->
  asize key (AStr value) - ksize key kv <= growth ->
  grows kv (kset now key value exp cond kv).2 growth.
Proof.
  intros He Hg Hr Hs. unfold kset. destruct cond, (klive now key kv); try (by apply grows_drop); by apply grows_insert.
Qed.

Lemma planSet_planned cmd : Name cmd = "SET" -> cmd_fits cmd -> planned (outcome cmd) cmd (planSet cmd).
Proof.
  intros Hname Hfit. eapply planned_ext; [intros kv t; symmetry; unfold outcome, spec_execute; rw Hname; exact eq_refl|].
  cbn [String.eqb Ascii.eqb Bool.eqb orb].
  unfold planSet, spec_set. destruct (Args cmd) as [|key [|value rest]] eqn:Hargs; try by apply planned_respond.
  intros s kv t Hs He. unfold onTick. unfold mbind at 1, M_bind at 1. cbn [tick sysStore].
  destruct (parseSetOptions rest t) as [[o|f] t1] eqn:Hpo; cbn [mbind option_bind];
    [|by apply (planned_respond (fun kv _ => (f, kv)))].
  match goal with |- context [?m (mkSys s t1)] =>
    assert (planned (fun kv t => let '(ok, kv) := kset (clock t) key value (expiresAtNs o) (condition o) kv in
      (if ok then OK else NullBulk, kv)) cmd m) as Hpl
  end; [|destruct (Hpl s kv t1 Hs He) as (plan & s' & t' & kv' & H1 & H2 & H3 & H4 & H5 & H6 & H7);
    exists plan, s', t', kv'; do 5 (split; [done|]); split; [|done]; intros f Hf; rw (H6 f Hf);
    by destruct (kset _ _ _ _ _ _)].
  apply planned_peek.
  clear s kv t t1 Hpo Hs He. intros e kv1 Hl Hok Hsz He.
  unfold cmd_fits in Hfit. rw Hargs /= in Hfit. pose proof (args_len_nonneg rest).
  destruct (stringEntrySize_raw key value) as [Hraw Hmax]; [lia|].
  assert (plan_ok cmd (writePlan key (positiveDelta (entrySize e) (stringEntrySize key value)) (stringEntrySize key value)) kv1) as Hp.
  { destruct (positiveDelta_spec (entrySize e) (stringEntrySize key value)) as (H1 & H2 & _).
    split; [done|]. intros _ s2 kv2 t Hs2 Hk2 He2 _ _. cbn [plKey requiredGrowth writePlan] in *.
    unfold spec_execute. rw Hname. cbn [String.eqb Ascii.eqb Bool.eqb orb]. unfold spec_set. rw Hargs.
    destruct (parseSetOptions rest t) as [[o'|f] t2]; [|by apply grows_refl].
    pose proof (grows_kset (clock t2) key value (expiresAtNs o') (condition o') kv2 _ He2 H1 Hmax) as Hg.
    destruct (kset _ _ _ _ _ _) as [ok kv3]. apply Hg.
    rw (asize_raw key (AStr value)) // -Hraw. assert (ksize key kv2 = ksize key kv1) as -> by (unfold ksize; by rw Hk2).
    rw -Hsz. done. }
  destruct (condition o), e as [e|]; try by (eapply peek_write; [done|done|exact Hp]).
  - apply (peek_respond _ _ _ _ _ _ NullBulk); [done|]. intros kv t Hlive. unfold kset. by rw Hlive.
  - apply (peek_respond _ _ _ _ _ _ NullBulk); [done|]. intros kv t Hlive. unfold kset. by rw Hlive.
Qed.

Lemma FormatInt_pos_len n : 1 <= slen (FormatInt n).
Proof.
  unfold FormatInt. destruct (n <? 0); [rw slen_cons; pose proof (slen_nonneg (FormatUint (- n))); lia|].
  destruct (FormatUint_nonempty n) as (c & s & ->). rw slen_cons. pose proof (slen_nonneg s). lia.
Qed.

(** The value an INCR of [kv !! key] works on. *)
Definition counter_is (x : option (aval * Z)) (n : Z) : Prop :=
  match x with None => n = 0 | Some (AStr d, _) => parseInt64 d = Some n | Some _ => False end.

Lemma grows_kincr now key n kv growth :
  counter_is (kv !! key) n -> n < maxInt64 -> kv_exact kv -> slen key <= 2 ^ 62 -> 0 <= growth ->
  rawsize key (AStr (FormatInt (n + 1))) - ksize key kv <= growth ->
  grows kv (kincr now key 1 kv).2 growth.
Proof.
  intros Hc Hn He Hk Hg Hd.
  assert (forall m, rawsize key (AStr (FormatInt m)) <= maxUint64) as Hraw.
  { intros m. destruct (FormatInt_line m) as [_ Hlen]. simpl. unfold stringEntryOverhead, maxUint64. lia. }
  assert (forall m exp, rawsize key (AStr (FormatInt m)) - ksize key kv <= growth ->
    grows kv (<[key := (AStr (FormatInt m), exp)]> (kdrop now key kv)) growth) as Hins.
  { intros m exp Hm. apply grows_insert; [done|apply Hraw|]. cbn [fst]. by rw asize_raw. }
  unfold kincr, klive. destruct (kv !! key) as [[[d|l|l] exp]|] eqn:Hx; simpl in Hc; try done; cbn [mbind option_bind].
  - pose proof Hc as [[Hn1 Hn2] Hd1]%parseInt64_spec.
    destruct (kexpired now (AStr d, exp)).
    + apply Hins. change (0 + 1) with 1. change (FormatInt 1) with "1". unfold ksize. rw Hx. cbn [fst].
      rw asize_raw; [by apply (He _ _ Hx)|]. pose proof (FormatInt_pos_len n) as Hp. rw -Hd1 in Hp. simpl.
      change (slen "1") with 1. lia.
    + rw Hc. destruct (_ || _); simpl; [by apply grows_drop|]. by apply Hins.
  - subst n. by apply Hins.
Qed.

Lemma planIncr_planned cmd : Name cmd = "INCR" -> cmd_fits cmd -> planned (outcome cmd) cmd (planIncr cmd).
Proof.
  intros Hname Hfit. eapply planned_ext; [intros kv t; symmetry; unfold outcome, spec_execute; rw Hname; exact eq_refl|].
  cbn [String.eqb Ascii.eqb Bool.eqb orb].
  unfold planIncr, spec_incr. destruct (Args cmd) as [|key [|]] eqn:Hargs; try by apply planned_respond.
  apply planned_peek. intros e kv1 Hl Hok Hsz He. unfold cmd_fits in Hfit. rw Hargs /= in Hfit.
  assert (forall n, counter_is (kv1 !! key) n -> int64_range n -> n <> maxInt64 ->
    plan_ok cmd (writePlan key (positiveDelta (entrySize e) (stringEntrySize key (formatInt64 (i64 (n + 1)))))
      (stringEntrySize key (formatInt64 (i64 (n + 1))))) kv1) as Hp.
  { intros n Hn [Hr1 Hr2] Hmaxn. unfold formatInt64. rw i64_small; [lia|]. set (size := stringEntrySize _ _).
    destruct (positiveDelta_spec (entrySize e) size) as (H1 & H2 & _).
    split; [done|]. intros _ s2 kv2 t Hs2 Hk2 He2 _ _. cbn [plKey requiredGrowth writePlan] in *.
    unfold spec_execute. rw Hname. cbn [String.eqb Ascii.eqb Bool.eqb orb]. unfold spec_incr. rw Hargs.
    assert (ksize key kv2 = entrySize e) as Hks by (unfold ksize; rw Hk2; by rw Hsz).
    pose proof (grows_kincr (clock t) key n kv2 (positiveDelta (entrySize e) size)) as Hg.
    destruct (kincr _ _ _ _) as [r kv3]. apply Hg; [by rw Hk2|lia|done|lia|done|].
    rw Hks. destruct (stringEntrySize_raw key (FormatInt (n + 1))) as [<- _]; [|done].
    destruct (FormatInt_line (n + 1)) as [_ Hlen]. lia. }
  destruct e as [x|]; simpl in Hl.
  - rw (kind_check key) //; [by apply Hok|]. unfold abs_entry in Hl.
    destruct (EValue x) as [d|lv|zv] eqn:Hev; simpl in Hl;
      try (eapply peek_respond; [done|]; intros kv t Hlive; unfold kincr; rw Hlive; simpl; unfold abs_entry; by rw Hev).
    rw bool_decide_eq_true_2 //. cbv beta iota delta [negb]. destruct (parseInt64 d) as [n|] eqn:Hd;
      [|eapply peek_respond; [done|]; intros kv t Hlive; unfold kincr; rw Hlive; simpl; unfold abs_entry; rw Hev /= Hd //].
    destruct (Z.eqb_spec n maxInt64) as [->|];
      [eapply peek_respond; [done|]; intros kv t Hlive; unfold kincr; rw Hlive; simpl; unfold abs_entry; rw Hev /= Hd //|].
    eapply peek_write; [done|done|]. apply Hp; [by rw -Hl|by apply parseInt64_spec in Hd as [? _]|done].
  - eapply peek_write; [done|done|]. apply Hp; [by rw -Hl|done|done].
Qed.

(** The growth of a push. *)
Lemma grows_kpush now key values left kv growth :
  kv_exact kv -> 0 <= growth -> list_bytes values <= growth ->
  (forall l exp, kv !! key = Some (AList l, exp) -> rawsize key (AList l) + list_bytes values <= maxUint64) ->
  (kv !! key = None -> rawsize key (AList values) <= growth) ->
  rawsize key (AList values) <= maxUint64 ->
  grows kv (kpush now key values left kv).2 growth.
Proof.
  intros He Hg Hb Hmax Hnone Hv.
  assert (forall l, list_bytes (if left then reverse values ++ l else l ++ values) = list_bytes values + list_bytes l) as Hlb.
  { intros l. destruct left; rw list_bytes_app ?list_bytes_reverse; lia. }
  assert (forall l exp, rawsize key (AList l) + list_bytes values <= maxUint64 ->
    rawsize key (AList l) + list_bytes values - ksize key kv <= growth ->
    grows kv (<[key := (AList (if left then reverse values ++ l else l ++ values), exp)]> (kdrop now key kv)) growth) as Hins.
  { intros l exp H1 H2. apply grows_insert; [done|..]; cbn [fst].
    - simpl in *. rw Hlb. lia.
    - rw asize_raw; [simpl in *; rw Hlb; lia|]. simpl in *. rw Hlb. lia. }
  unfold kpush, klive. destruct (kv !! key) as [[v exp]|] eqn:Hx; cbn [mbind option_bind].
  - pose proof (He _ _ Hx) as Hex. assert (ksize key kv = rawsize key v) as Hks.
    { unfold ksize. rw Hx. cbn [fst]. by rw asize_raw. }
    assert (rawsize key (AList values) <= rawsize key v + list_bytes values) as Hold.
    { pose proof (rawsize_nonneg key v). destruct v; simpl; unfold stringEntryOverhead, zsetEntryOverhead.
      - pose proof (slen_nonneg s). lia.
      - pose proof (list_bytes_nonneg l). lia.
      - pose proof (zset_bytes_nonneg l). lia. }
    destruct (kexpired now (v, exp)).
    + simpl. change (rawsize key (AList values)) with (stringEntryOverhead + slen key + list_bytes values) in Hold.
      apply Hins; simpl; simpl in Hv; lia.
    + destruct v as [d|l|l]; simpl; try (by apply grows_drop). apply Hins; [by eapply Hmax|lia].
  - assert (ksize key kv = 0) as Hks by (unfold ksize; by rw Hx). specialize (Hnone eq_refl).
    apply Hins; simpl in *; lia.
Qed.

Context (HL : L < maxUint64).

(** A saturated sum that fits the limit was exact. *)
Lemma plan_arith old base added :
  0 <= old <= L -> 0 <= added -> old <= base ->
  let size := saturatingAdd base (Z.min maxUint64 added) in
  (0 < positiveDelta old size -> size <= L) ->
  base + added <= L /\ size = base + added /\ positiveDelta old size = base + added - old.
Proof.
  intros Ho Ha Hob size. unfold size, positiveDelta. rw saturatingAdd_min.
  destruct (Z.leb_spec (Z.min maxUint64 (base + Z.min maxUint64 added)) old); lia.
Qed.

Lemma ksize_raw key kv x : kv_exact kv -> kv !! key = Some x -> ksize key kv = rawsize key x.1.
Proof. intros He Hx. unfold ksize. rw Hx. apply asize_raw. by apply (He _ _ Hx). Qed.

Lemma push_growth now key values left kv :
  kv_exact kv -> ktotal kv <= L -> 0 < list_bytes values ->
  (forall x, kv !! key = Some x -> exists l, x.1 = AList l) ->
  let old := ksize key kv in
  let base := if kv !! key is Some _ then old else stringEntryOverhead + slen key in
  let size := saturatingAdd base (pushedListBytes values) in
  (0 < positiveDelta old size -> size <= L) ->
  grows kv (kpush now key values left kv).2 (positiveDelta old size).
Proof.
  intros He Ht Hpos Hty old base size Hres. unfold size in *. rw pushedListBytes_min in Hres |- *.
  pose proof (ksize_total key kv). pose proof (ksize_nonneg key kv). pose proof (slen_nonneg key).
  assert (old <= base) as Hob by (unfold base, old, ksize, stringEntryOverhead; destruct (kv !! key); lia).
  destruct (plan_arith old base (list_bytes values)) as (H3 & _ & Heq); [unfold old; lia|lia|done|done|].
  rw Heq. clear Heq Hres. apply grows_kpush; [done|lia|lia|..].
  - intros l exp Hx. rw -(ksize_raw key kv (AList l, exp)) //. unfold base in H3. rw Hx in H3. fold old. lia.
  - intros Hx. unfold base, old, ksize. rw Hx. simpl. lia.
  - unfold base in *. destruct (kv !! key) as [x|] eqn:Hx; [|simpl in *; lia].
    destruct (Hty x eq_refl) as [l Hl]. unfold old in *. rw (ksize_raw key kv x) // Hl in H3. simpl in *.
    pose proof (list_bytes_nonneg l). lia.
Qed.

Lemma planListPush_planned cmd :
  Name cmd = "LPUSH" \/ Name cmd = "RPUSH" -> cmd_fits cmd -> planned (outcome cmd) cmd (planListPush cmd).
Proof.
  intros Hname Hfit.
  assert (exists left, forall kv t, outcome cmd kv t = (spec_push (lowerCommand (Name cmd)) left (Args cmd) kv t).1) as [left Hout].
  { destruct Hname as [Hn|Hn]; [exists true|exists false]; intros kv t; unfold outcome, spec_execute; by rw Hn. }
  eapply planned_ext; [intros kv t; symmetry; apply Hout|].
  unfold planListPush, spec_push. destruct (Args cmd) as [|key [|v vs]] eqn:Hargs; try by apply planned_respond.
  apply planned_peek. intros e kv1 Hl Hok Hsz He. unfold cmd_fits in Hfit. rw Hargs /= in Hfit.
  pose proof (args_len_nonneg vs). pose proof (slen_nonneg v). pose proof (slen_nonneg key).
  assert (u64 (stringEntryOverhead + slen key) = stringEntryOverhead + slen key) as Hbase.
  { apply u64_small. unfold stringEntryOverhead. lia. }
  assert (0 < list_bytes (v :: vs)) as Hpos.
  { simpl. pose proof (list_bytes_nonneg vs). unfold listNodeOverhead. lia. }
  destruct (match e with Some e => negb (bool_decide (EType e = ValueTypeList)) | None => false end) eqn:Hty.
  { eapply peek_respond; [done|]. intros kv t Hlive. unfold kpush. rw Hlive. destruct e as [e|]; [|done].
    apply negb_true_iff, bool_decide_eq_false in Hty. rw (entry_ok_kind _ _ (Hok e eq_refl)) in Hty.
    simpl. unfold abs_entry. by destruct (EValue e). }
  cbv zeta. eapply peek_write; [done|done|]. split; [apply positiveDelta_nonneg|].
  intros _ s2 kv2 t Hs2 Hk2 He2 Ht2. cbn [plKey requiredGrowth resultingSize writePlan] in *. rw Hbase.
  assert (ksize key kv2 = entrySize e) as Hks by (unfold ksize; rw Hk2; by rw Hsz).
  assert ((match e with Some _ => saturatingAdd (entrySize e) (pushedListBytes (v :: vs))
           | None => saturatingAdd (stringEntryOverhead + slen key) (pushedListBytes (v :: vs)) end) =
    saturatingAdd (if kv2 !! key is Some _ then ksize key kv2 else stringEntryOverhead + slen key) (pushedListBytes (v :: vs))) as ->.
  { rw Hks Hk2 -Hl. by destruct e. }
  rw -Hks. intros Hres.
  assert (forall x, kv2 !! key = Some x -> exists l, x.1 = AList l) as Hlist.
  { rw Hk2 -Hl. intros x. destruct e as [e|]; simpl; [|done]. intros [= <-].
    apply negb_false_iff, bool_decide_eq_true in Hty. rw (entry_ok_kind _ _ (Hok e eq_refl)) in Hty.
    simpl. destruct (abs_value (EValue e)); try done. by eexists. }
  pose proof (push_growth (clock t) key (v :: vs) left kv2 He2 Ht2 Hpos Hlist Hres) as Hgo.
  fold (outcome cmd kv2 t). rw Hout. unfold spec_push. by destruct (kpush _ _ _ _ _).
Qed.

Lemma grows_kzadd now key pairs kv growth :
  kv_exact kv -> 0 <= growth -> (forall p, p ∈ pairs -> IsNaN p.1 = false) ->
  match kv !! key with
  | None => rawsize key (AZSet []) + newBytes ∅ pairs <= Z.min growth maxUint64
  | Some (AZSet l, _) => zseq_ok l /\ newBytes (members l) pairs <= growth /\
      rawsize key (AZSet l) + newBytes (members l) pairs <= maxUint64
  | Some _ => False
  end ->
  grows kv (kzadd now key pairs kv).2 growth.
Proof.
  intros He Hg Hn Hx.
  assert (zseq_ok []) as Hnil. { split; [constructor|constructor|]. by intros x ?%elem_of_nil. }
  assert (forall l exp, zseq_ok l ->
    rawsize key (AZSet (zaddAll pairs l 0).1) <= maxUint64 ->
    rawsize key (AZSet (zaddAll pairs l 0).1) - ksize key kv <= growth ->
    grows kv (let '(l, added) := zaddAll pairs l 0 in
      (inl added : Z + EngineError, <[key := (AZSet l, exp)]> (kdrop now key kv))).2 growth) as Hins.
  { intros l exp Hl H1 H2. destruct (zaddAll pairs l 0) as [l' n]. simpl.
    apply grows_insert; [done|done|]. cbn [fst] in *. rw asize_raw //. }
  unfold kzadd, klive. destruct (kv !! key) as [[v exp]|] eqn:Hk; cbn [mbind option_bind].
  - destruct v as [|?|l]; try done. destruct Hx as (Hl & Hb & Hm).
    destruct (zaddAll_size pairs l 0 Hl Hn) as (_ & Hmem & Hz).
    pose proof (ksize_raw key kv _ He Hk) as Hks. cbn [fst rawsize] in Hks. simpl in Hm.
    destruct (kexpired now (AZSet l, exp)).
    + destruct (zaddAll_size pairs [] 0 Hnil Hn) as (Hok0 & Hmem0 & _).
      assert (zset_bytes (zaddAll pairs [] 0).1 <= zset_bytes (zaddAll pairs l 0).1) as Hle.
      { apply zset_bytes_subset; [apply (zseq_unique _ Hok0)|]. rw Hmem Hmem0. unfold members at 2. simpl. set_solver. }
      apply Hins; [done|simpl; lia|simpl; lia].
    + apply Hins; [done|simpl; lia|simpl; lia].
  - destruct (zaddAll_size pairs [] 0 Hnil Hn) as (_ & _ & Hz). change (members []) with (∅ : gset string) in Hz.
    assert (ksize key kv = 0) as Hks by (unfold ksize; by rw Hk). simpl in Hx. change (zset_bytes []) with 0 in Hz.
    apply Hins; [done|simpl; lia|simpl; lia].
Qed.

Lemma zadd_growth now key pairs kv known :
  kv_exact kv -> ktotal kv <= L -> (forall p, p ∈ pairs -> IsNaN p.1 = false) ->
  match kv !! key with
  | None => known = ∅
  | Some (AZSet l, _) => zseq_ok l /\ known = members l
  | Some _ => False
  end ->
  let old := ksize key kv in
  let base := if kv !! key is Some _ then old else zsetEntryOverhead + slen key in
  let size := saturatingAdd base (Z.min maxUint64 (newBytes known pairs)) in
  (0 < positiveDelta old size -> size <= L) ->
  grows kv (kzadd now key pairs kv).2 (positiveDelta old size).
Proof.
  intros He Ht Hn Hkn old base size Hres. unfold size in *.
  pose proof (ksize_total key kv). pose proof (ksize_nonneg key kv). pose proof (slen_nonneg key).
  pose proof (newBytes_nonneg known pairs).
  assert (old <= base) as Hob by (unfold base, old, ksize, zsetEntryOverhead; destruct (kv !! key); lia).
  destruct (plan_arith old base (newBytes known pairs)) as (Hle & _ & Heq); [unfold old; lia|lia|done|done|].
  rw Heq. clear Heq Hres. apply grows_kzadd; [done|lia|done|]. unfold base, old in *.
  destruct (kv !! key) as [[[d|l|l] exp]|] eqn:Hx; try done.
  - destruct Hkn as [Hl ->]. rw -(ksize_raw key kv (AZSet l, exp)) //. split_and!; [done|lia|lia].
  - subst known. unfold ksize in *. rw Hx in Hle |- *. simpl. lia.
Qed.

Lemma planZAdd_planned cmd : Name cmd = "ZADD" -> cmd_fits cmd -> planned (outcome cmd) cmd (planZAdd cmd).
Proof.
  intros Hname Hfit. eapply planned_ext; [intros kv t; symmetry; unfold outcome, spec_execute; rw Hname; exact eq_refl|].
  cbn [String.eqb Ascii.eqb Bool.eqb orb].
  unfold planZAdd, spec_zadd. destruct (Args cmd) as [|key rest] eqn:Hargs; [by apply planned_respond|].
  destruct (_ || _) eqn:Hlen; [by apply planned_respond|].
  destruct (parseZAddPairs rest) as [pairs|f] eqn:Hp; [|by apply planned_respond].
  apply planned_peek. intros e kv1 Hl Hok Hsz He. unfold cmd_fits in Hfit. rw Hargs /= in Hfit.
  pose proof (args_len_nonneg rest). pose proof (slen_nonneg key).
  assert (u64 (zsetEntryOverhead + slen key) = zsetEntryOverhead + slen key) as Hbase.
  { apply u64_small. unfold zsetEntryOverhead. lia. }
  assert (forall zv, match e with None => zv = None | Some x => exists z, EValue x = ZSetV z /\ zv = Some z end ->
    let size := match e with
      | Some _ => saturatingAdd (entrySize e) (addedMemberBytes zv pairs ∅ 0)
      | None => saturatingAdd (u64 (zsetEntryOverhead + slen key)) (addedMemberBytes zv pairs ∅ 0)
      end in
    plan_ok cmd (writePlan key (positiveDelta (entrySize e) size) size) kv1) as Hplan.
  { intros zv Hzv size. unfold size. rw Hbase. split; [apply positiveDelta_nonneg|].
    intros _ s2 kv2 t Hs2 Hk2 He2 Ht2. cbn [plKey requiredGrowth resultingSize writePlan] in *.
    assert (forall z, zv = Some z -> zset_ok z) as Hzok.
    { intros z ->. destruct e as [x|]; [|done]. destruct Hzv as (z' & Hz' & [= <-]).
      pose proof (ok_value _ _ (Hok x eq_refl)) as Hv. by rw Hz' in Hv. }
    rw addedMemberBytes_min //. rw union_empty_l_L Z.add_0_l.
    assert (ksize key kv2 = entrySize e) as Hks by (unfold ksize; rw Hk2; by rw Hsz).
    assert ((match e with Some _ => saturatingAdd (entrySize e) (Z.min maxUint64 (newBytes (zset_members zv) pairs))
      | None => saturatingAdd (zsetEntryOverhead + slen key) (Z.min maxUint64 (newBytes (zset_members zv) pairs)) end) =
      saturatingAdd (if kv2 !! key is Some _ then ksize key kv2 else zsetEntryOverhead + slen key)
        (Z.min maxUint64 (newBytes (zset_members zv) pairs))) as ->.
    { rw Hks Hk2 -Hl. by destruct e. }
    rw -Hks. intros Hres.
    unfold spec_execute. rw Hname. cbn [String.eqb Ascii.eqb Bool.eqb orb]. unfold spec_zadd. rw Hargs Hlen Hp.
    pose proof (fun Hn Hkn => zadd_growth (clock t) key pairs kv2 (zset_members zv) He2 Ht2 Hn Hkn Hres) as Hgo.
    destruct (kzadd _ _ _ _). apply Hgo; [intros p; by eapply parseZAddPairs_nan|].
    rw Hk2 -Hl. destruct e as [x|]; simpl; [|by subst zv].
    destruct Hzv as (z & Hz & ->). unfold abs_entry. rw Hz. simpl. split; [by apply zset_seq, Hzok|done]. }
  destruct e as [x|].
  - rw (kind_check key) //; [by apply Hok|]. cbv zeta. destruct (EValue x) as [d|lv|zv] eqn:Hev;
      try (eapply peek_respond; [done|]; intros kv t Hlive; unfold kzadd; rw Hlive; simpl; unfold abs_entry; by rw Hev).
    eapply peek_write; [done|done|]. apply (Hplan (Some zv)). by eexists.
  - eapply peek_write; [done|done|]. by apply (Hplan None).
Qed.

Lemma planAdmission_planned cmd : cmd_fits cmd -> planned (outcome cmd) cmd (planAdmission cmd).
Proof.
  intros Hfit. unfold planAdmission.
  destruct (String.eqb_spec (Name cmd) "SET"); [by apply planSet_planned|].
  destruct (String.eqb_spec (Name cmd) "INCR"); [by apply planIncr_planned|].
  destruct (String.eqb_spec (Name cmd) "LPUSH"); [apply planListPush_planned; [by left|done]|].
  destruct (String.eqb_spec (Name cmd) "RPUSH"); [apply planListPush_planned; [by right|done]|]. cbn [orb].
  destruct (String.eqb_spec (Name cmd) "ZADD"); [by apply planZAdd_planned|].
  intros s kv t Hs He. eexists _, _, _, _. split; [done|]. split; [exact Hs|].
  split; [by apply grows_refl|]. split; [done|]. split; [|split; [done|intros k x Hk; by left]].
  split; [done|]. intros _ s2 kv2 t2 _ _ He2 _ _. simpl. apply spec_no_growth; [|done]. unfold growing. by rw !(proj2 (String.eqb_neq _ _)).
Qed.
End plans.

(** A plan that does not write needs no room. *)
Section plan_writes.
Context `{Env}.

Definition room_to_write (m : M admissionPlan) : Prop :=
  forall w plan w', m w = Some (plan, w') -> willWrite plan = false -> requiredGrowth plan = 0.

Lemma room_bind {A} (m : M A) k : (forall a, room_to_write (k a)) -> room_to_write (m ≫= k).
Proof.
  intros Hk w plan w'. unfold mbind, M_bind. destruct (m w) as [[a w1]|]; [|done]. apply Hk.
Qed.
Lemma room_respond f : room_to_write (mret (respond f)).
Proof. by intros w plan w' [= <- <-]. Qed.
Lemma room_write key growth size : room_to_write (mret (writePlan key growth size)).
Proof. by intros w plan w' [= <- <-]. Qed.
Lemma room_other write : room_to_write (mret (mkPlan "" write 0 0 None)).
Proof. by intros w plan w' [= <- <-]. Qed.

Create HintDb room.
Hint Resolve room_respond room_write room_other : room.

Lemma planAdmission_room cmd : room_to_write (planAdmission cmd).
Proof.
  unfold planAdmission, planSet, planIncr, planListPush, planZAdd.
  repeat first [case_match | progress auto with room | apply room_bind; intros | progress cbv zeta].
Qed.
End plan_writes.

(** ** Eviction and the whole write path *)

(** [kv'] is [kv] without some entries, all under keys that satisfy [P]. *)
Record shrinks (P : string -> Prop) (kv kv' : KV) : Prop := {
  shrinks_grows : grows kv kv' 0;
  shrinks_keep : forall k, ~ P k -> kv' !! k = kv !! k;
  shrinks_sub : kv' ⊆ kv
}.

Lemma shrinks_refl P kv : kv_exact kv -> shrinks P kv kv.
Proof. intros He. split; [by apply grows_refl|done..]. Qed.

Lemma shrinks_trans P kv1 kv2 kv3 : shrinks P kv1 kv2 -> shrinks P kv2 kv3 -> shrinks P kv1 kv3.
Proof.
  intros [H1 H2 H3] [H4 H5 H6]. split; [by eapply grows_trans|intros k Hk; by rw H5 // H2|by etrans].
Qed.

Lemma shrinks_delete (P : string -> Prop) k kv : kv_exact kv -> P k -> shrinks P kv (delete k kv).
Proof.
  intros He Hk. split; [by apply grows_delete| |apply delete_subseteq].
  intros k' Hk'. rw lookup_delete_ne //. by intros <-.
Qed.

Lemma shrinks_weaken (P Q : string -> Prop) kv kv' : (forall k, P k -> Q k) -> shrinks P kv kv' -> shrinks Q kv kv'.
Proof. intros HPQ [H1 H2 H3]. split; [done|intros k Hk; apply H2; by intros Hp%HPQ|done]. Qed.

Section engine_spec.
Context `{Env, SliceSortOk} {W : Type} (cfg : Config W).

Abbreviation wstore w := (sysStore (engSys w)).

(** [m] terminates without a panic, and relates result and maps by [Q]. *)
Definition runs {A} (m : EM (W := W) A) (w : Eng W) (Q : A -> Eng W -> Prop) : Prop :=
  exists a w', m w = Some (a, w') /\ Q a w'.

Lemma runs_bind {A B} (m : EM A) (k : A -> EM B) w Q :
  runs m w (fun a w' => runs (k a) w' Q) -> runs (@mbind EM EM_bind A B k m) w Q.
Proof. intros (a & w1 & Hm & b & w2 & Hk & HQ). exists b, w2. split; [|done]. unfold mbind, EM_bind. by rw Hm. Qed.

Lemma runs_ret {A} (a : A) w (Q : A -> Eng W -> Prop) : Q a w -> runs (@mret EM EM_ret A a) w Q.
Proof. by exists a, w. Qed.

Lemma runs_counter name n w (Q : unit -> Eng W -> Prop) :
  (forall w', engSys w' = engSys w -> Q tt w') -> runs (AddCounter name n) w Q.
Proof. intros HQ. eexists _, _. split; [done|]. by apply HQ. Qed.

(** How a write can be refused: there is no room, or the hook failed. *)
Definition refused (f : Frame) : Prop := f = oomFrame \/ (writeHook cfg <> None /\ exists err, f = replicationFailed err).
Lemma refused_error f : refused f -> isErrorFrame f = true.
Proof. by intros [->|[_ [err ->]]]. Qed.

(** A hook does not touch the store, and without a hook nothing fails. *)
Lemma runs_hook sync cmd w (Q : option string -> Eng W -> Prop) :
  (forall r w', engSys w' = engSys w -> (forall err, r = Some err -> refused (replicationFailed err)) -> Q r w') -> runs (hookIf cfg sync cmd) w Q.
Proof.
  intros HQ. unfold hookIf. unfold refused in HQ. destruct (writeHook cfg) as [hook|]; [|by apply runs_ret, HQ].
  destruct (Bool.eqb _ _); [|by apply runs_ret, HQ]. unfold runs, callHook.
  destruct (hook cmd (engHook w)) as [err h]. eexists _, _. split; [done|]. apply HQ; [done|]. intros e _. right. split; [done|by exists e].
Qed.

Lemma runs_lift {A} (m : M A) w (Q : A -> Eng W -> Prop) a s :
  m (engSys w) = Some (a, s) -> (forall w', engSys w' = s -> Q a w') -> runs (liftM m) w Q.
Proof. intros Hm HQ. eexists _, _. unfold liftM. rw Hm. split; [done|]. by apply HQ. Qed.

Lemma Sys_eta (w : Sys) : w = mkSys (sysStore w) (tick w).
Proof. by destruct w. Qed.

Definition evictable (plan : admissionPlan) (victims : list Candidate) (k : string) : Prop :=
  k <> plKey plan /\ k ∈ CKey <$> victims.

(** One pass deletes victims only, and never the key of the plan. *)
Lemma evictLoop_runs plan victims progress w kv :
  store_kv (wstore w) kv -> kv_exact kv ->
  runs (evictLoop cfg plan victims progress) w (fun r w' =>
    (forall f, r = inr f -> refused f) /\ exists kv', store_kv (wstore w') kv' /\ shrinks (evictable plan victims) kv kv').
Proof.
  revert progress w kv; induction victims as [|v victims IH]; intros progress w kv Hs He; cbn [evictLoop].
  { apply runs_ret. split; [done|]. exists kv. split; [done|by apply shrinks_refl]. }
  assert (forall progress w' kv', store_kv (wstore w') kv' -> kv_exact kv' ->
    shrinks (evictable plan (v :: victims)) kv kv' ->
    runs (evictLoop cfg plan victims progress) w' (fun r w2 =>
      (forall f, r = inr f -> refused f) /\ exists kv2, store_kv (wstore w2) kv2 /\ shrinks (evictable plan (v :: victims)) kv kv2)) as Hnext.
  { intros p w' kv' Hs' He' Hsh. destruct (IH p w' kv' Hs' He') as (r & w2 & Hr & Herr & kv2 & Hs2 & Hsh2).
    exists r, w2. split; [done|]. split; [done|]. exists kv2. split; [done|]. eapply shrinks_trans; [done|].
    eapply shrinks_weaken; [|done]. intros k [Hk1 Hk2]. split; [done|]. rw fmap_cons. by right. }
  destruct (String.eqb_spec (CKey v) (plKey plan)) as [|Hne]; [by apply (Hnext _ _ kv); [..|apply shrinks_refl]|].
  apply runs_bind, runs_hook. intros [err|] w1 Hw1 Hrf; [apply runs_ret; split; [intros f [= <-]; by apply Hrf|]; rw Hw1; exists kv; split; [done|by apply shrinks_refl]|].
  destruct (DeleteWithSize_spec (wstore w1) kv (CKey v)) as (s' & Hd & Hs'); [by rw Hw1|].
  apply runs_bind. eapply runs_lift; [unfold onStore; by rw Hd|]. intros w2 Hw2.
  assert (store_kv (wstore w2) (delete (CKey v) kv)) as Hs2 by by rw Hw2.
  assert (shrinks (evictable plan (v :: victims)) kv (delete (CKey v) kv)) as Hsh.
  { apply shrinks_delete; [done|]. split; [done|]. rw fmap_cons. by left. }
  destruct (kv !! CKey v) as [x|]; cbn [fmap option_fmap option_map];
    [|by apply (Hnext _ _ _ Hs2); [by apply exact_delete|]].
  apply runs_bind, runs_counter. intros w3 Hw3. apply runs_bind, runs_counter. intros w4 Hw4.
  apply runs_bind, runs_counter. intros w5 Hw5. apply runs_bind, runs_hook. intros _ w6 Hw6 _.
  apply (Hnext _ _ (delete (CKey v) kv)); [by rw Hw6 Hw5 Hw4 Hw3|by apply exact_delete|done].
Qed.

Lemma used_exact s kv : store_kv s kv -> ktotal kv <= limit cfg -> limit cfg < maxUint64 -> usedBytes s = ktotal kv.
Proof.
  intros Hs Ht Hl. rw (store_kv_used _ _ Hs). apply u64_small. pose proof (ktotal_nonneg kv). unfold maxUint64 in Hl. lia.
Qed.

(** What eviction for a plan may remove. *)
Definition victimKey (plan : admissionPlan) (k : string) : Prop :=
  k <> plKey plan /\ PolicyName (policy cfg) <> "noeviction".

Lemma freePasses_runs passes plan w kv :
  0 < limit cfg < maxUint64 -> store_kv (wstore w) kv -> kv_exact kv -> ktotal kv <= limit cfg ->
  runs (freePasses cfg passes plan) w (fun r w' =>
    exists kv', store_kv (wstore w') kv' /\ shrinks (victimKey plan) kv kv' /\
      (r = None -> ktotal kv' + requiredGrowth plan <= limit cfg) /\ (forall f, r = Some f -> refused f)).
Proof.
  intros Hlim. revert w kv; induction passes as [|passes IH]; intros w kv Hs He Ht; cbn [freePasses].
  { apply runs_ret. exists kv. split_and!; [done|by apply shrinks_refl|done|intros f [= <-]; by left]. }
  apply runs_bind. eexists _, w. split; [done|]. cbv beta.
  unfold Available. rw (proj2 (Z.eqb_neq (limit cfg) 0)); [lia|]. rw (used_exact _ _ Hs Ht); [lia|].
  set (avail := if limit cfg <=? ktotal kv then 0 else limit cfg - ktotal kv).
  assert (avail = limit cfg - ktotal kv) as Hav by (unfold avail; destruct (Z.leb_spec (limit cfg) (ktotal kv)); lia).
  clearbody avail. destruct (Z.leb_spec (requiredGrowth plan) avail).
  { apply runs_ret. exists kv. split_and!; [done|by apply shrinks_refl|lia|done]. }
  destruct (String.eqb_spec (PolicyName (policy cfg)) "noeviction") as [|Hpol].
  { apply runs_ret. exists kv. split_and!; [done|by apply shrinks_refl|done|intros f [= <-]; by left]. }
  apply runs_bind, runs_counter. intros w1 Hw1. apply runs_bind. eapply runs_lift; [done|]. intros w2 Hw2.
  assert (store_kv (wstore w2) kv) as Hs2 by (by rw Hw2 Hw1). clear Hw2. destruct (PickVictims _ _ _ _) as [|v vs].
  { apply runs_ret. exists kv. split_and!; [done|by apply shrinks_refl|done|intros f [= <-]; by left]. }
  apply runs_bind. destruct (evictLoop_runs plan (v :: vs) false w2 kv Hs2 He) as (r & w3 & Hr & Herr & kv3 & Hs3 & Hsh).
  exists r, w3. split; [done|].
  assert (shrinks (victimKey plan) kv kv3) as Hsh3 by (eapply shrinks_weaken; [|done]; by intros k [Hk _]).
  pose proof (shrinks_grows _ _ _ Hsh3) as [Hle He3].
  destruct r as [[]|frame];
    [|apply runs_ret; exists kv3; split_and!; [done..|intros f [= <-]; by left]
     |apply runs_ret; exists kv3; split_and!; [done..|intros f [= <-]; by apply Herr]].
  destruct (IH w3 kv3 Hs3 He3) as (r & w4 & Hr4 & kv4 & Hs4 & Hsh4 & Hfit & Herr4); [lia|].
  exists r, w4. split; [done|]. exists kv4. split_and!; [done|by eapply shrinks_trans|done|done].
Qed.

(** A command runs on some map as the command semantics says. *)
Definition executed (cmd : Command) (kv : KV) (f : Frame) (kv' : KV) : Prop :=
  exists t, (f, kv') = (spec_execute cmd kv t).1.

Lemma Execute_runs cmd w kv :
  store_kv (wstore w) kv ->
  runs (liftM (Execute cmd)) w (fun f w' => exists kv', store_kv (wstore w') kv' /\ executed cmd kv f kv').
Proof.
  intros Hs. destruct (Execute_spec cmd (wstore w) kv (tick (engSys w)) Hs) as (s' & Hx & Hs').
  eapply runs_lift; [rw (Sys_eta (engSys w)); exact Hx|]. intros w' Hw'. eexists. split; [by rw Hw'|].
  exists (tick (engSys w)). by destruct (spec_execute _ _ _) as [[??]?].
Qed.

Lemma executeHooked_runs cmd w kv :
  store_kv (wstore w) kv ->
  runs (executeHooked cfg cmd) w (fun f w' => exists kv', store_kv (wstore w') kv' /\
    ((refused f /\ kv' = kv) \/ executed cmd kv f kv')).
Proof.
  intros Hs. unfold executeHooked. apply runs_bind, runs_hook. intros [err|] w1 Hw1 Hrf.
  { apply runs_ret. exists kv. split; [by rw Hw1|]. left. split; [by apply Hrf|done]. }
  apply runs_bind. destruct (Execute_runs cmd w1 kv) as (f & w2 & Hx & kv2 & Hs2 & Hex); [by rw Hw1|].
  exists f, w2. split; [done|]. apply runs_bind.
  destruct (isErrorFrame f); [apply runs_ret|apply runs_hook; intros _ w3 Hw3 _]; apply runs_ret; exists kv2.
  - split; [done|by right].
  - split; [by rw Hw3|by right].
Qed.

(** The answer [f] to a write and the map [kv'] it leaves, from [kv]: on
    what eviction and expiry left of [kv], either the command was refused
    and changed nothing, or it ran as specified. *)
Definition answered (cmd : Command) (kv : KV) (f : Frame) (kv' : KV) : Prop :=
  exists kv1, kv1 ⊆ kv /\ (PolicyName (policy cfg) = "noeviction" -> only_expired kv kv1) /\
    ((refused f /\ kv' = kv1) \/ executed cmd kv1 f kv').

Definition within (kv : KV) : Prop := kv_exact kv /\ ktotal kv <= limit cfg.

Lemma executed_within cmd plan kv1 kv2 s2 f kv' :
  plan_covers (limit cfg) cmd plan kv1 -> store_kv s2 kv2 -> kv2 !! plKey plan = kv1 !! plKey plan ->
  (0 < requiredGrowth plan -> resultingSize plan <= limit cfg) -> within kv2 ->
  ktotal kv2 + requiredGrowth plan <= limit cfg -> executed cmd kv2 f kv' -> within kv'.
Proof.
  intros Hc Hs Hk Hr [He Ht] Hfit [t Hx]. destruct (Hc s2 kv2 t Hs Hk He Ht Hr) as [Hle He'].
  apply (f_equal snd) in Hx. simpl in Hx. rw -Hx in Hle He'. split; [done|lia].
Qed.

(** Running [cmd] once there is room. *)
Lemma hooked_within cmd plan kv kv1 kv2 w :
  plan_covers (limit cfg) cmd plan kv1 -> store_kv (wstore w) kv2 -> kv2 !! plKey plan = kv1 !! plKey plan ->
  (0 < requiredGrowth plan -> resultingSize plan <= limit cfg) -> within kv2 ->
  ktotal kv2 + requiredGrowth plan <= limit cfg -> kv2 ⊆ kv ->
  (PolicyName (policy cfg) = "noeviction" -> only_expired kv kv2) ->
  runs (executeHooked cfg cmd) w (fun f w' =>
    exists kv', store_kv (wstore w') kv' /\ within kv' /\ answered cmd kv f kv').
Proof.
  intros Hc Hs Hk Hr Hw Hfit Hsub Hno. destruct (executeHooked_runs cmd w kv2 Hs) as (f & w' & Hx & kv' & Hs' & Hres).
  exists f, w'. split; [done|]. exists kv'. split; [done|]. split; [|by exists kv2].
  destruct Hres as [[_ ->]|Hex]; [done|]. exact (executed_within cmd plan kv1 kv2 _ f kv' Hc Hs Hk Hr Hw Hfit Hex).
Qed.

Lemma executeWithAdmission_runs cmd w kv :
  0 < limit cfg < maxUint64 -> store_kv (wstore w) kv -> within kv -> cmd_fits cmd ->
  runs (executeWithAdmission cfg cmd) w (fun f w' =>
    exists kv', store_kv (wstore w') kv' /\ within kv' /\ answered cmd kv f kv').
Proof.
  intros Hlim Hs [He Ht] Hfit. unfold executeWithAdmission.
  destruct (planAdmission_planned (limit cfg) (proj2 Hlim) cmd Hfit (wstore w) kv (tick (engSys w)) Hs He)
    as (plan & s1 & t1 & kv1 & Hp & Hs1 & [Hle He1] & Hsub & [Hg Hcov] & Hresp & Hexp).
  apply runs_bind. eapply runs_lift; [rw (Sys_eta (engSys w)); exact Hp|]. intros w1 Hw1.
  assert (store_kv (wstore w1) kv1) as Hs1' by by rw Hw1. clear Hw1.
  assert (within kv1) as Hin1 by (split; [done|lia]).
  assert (forall (w2 : Eng W) kv2 f, engSys w2 = engSys w1 -> refused f -> kv2 = kv1 ->
    exists kv', store_kv (wstore w2) kv' /\ within kv' /\ answered cmd kv f kv') as Hrefuse.
  { intros w2 kv2 f Hw2 Hf ->. exists kv1. split; [by rw Hw2|]. split; [done|]. exists kv1.
    split; [done|]. split; [done|]. by left. }
  destruct (response plan) as [f|] eqn:Hr.
  { assert (forall w2 : Eng W, engSys w2 = engSys w1 -> exists kv', store_kv (wstore w2) kv' /\ within kv' /\ answered cmd kv f kv') as Hans.
    { intros w2 Hw2. exists kv1. split; [by rw Hw2|]. split; [done|]. exists kv. split; [done|].
      split; [by intros _ k x Hk; left|]. right. exists (tick (engSys w)). exact (Hresp f eq_refl). }
    apply runs_bind. destruct (isOOMFrame f); [apply runs_counter; intros w2 Hw2|apply runs_ret]; by apply runs_ret, Hans. }
  specialize (Hcov eq_refl). rw (proj2 (Z.ltb_lt 0 (limit cfg)) (proj1 Hlim) : HasLimit (limit cfg) = true).
  destruct (willWrite plan && true && (0 <? requiredGrowth plan)) eqn:Hneed.
  - destruct (Z.ltb_spec (limit cfg) (resultingSize plan)).
    { apply runs_bind, runs_counter. intros w2 Hw2. apply runs_ret. apply (Hrefuse w2 kv1 oomFrame); [done|by left|done]. }
    apply runs_bind. destruct (freePasses_runs maxEvictionPasses plan w1 kv1 Hlim Hs1' He1 (proj2 Hin1))
      as (r & w2 & Hr2 & kv2 & Hs2 & Hsh & Hroom & Herr).
    exists r, w2. split; [done|]. destruct Hsh as [[Hle2 He2] Hkeep Hsub2].
    assert (within kv2) as Hin2 by (split; [done|]; pose proof (proj2 Hin1); lia).
    assert (kv2 ⊆ kv) as Hsub' by by etrans.
    assert (PolicyName (policy cfg) = "noeviction" -> only_expired kv kv2) as Hno.
    { intros Hno k x Hk. destruct (Hexp k x Hk) as [Hk1|]; [left|by right]. rw Hkeep //. by intros [_ ?]. }
    destruct r as [frame|].
    + apply runs_bind, runs_counter. intros w3 Hw3. apply runs_ret. exists kv2. split; [by rw Hw3|]. split; [done|].
      exists kv2. split; [done|]. split; [done|]. left. split; [by apply Herr|done].
    + eapply hooked_within; [exact Hcov|done|apply Hkeep; by intros [? _]|lia|done|by apply Hroom|done|done].
  - assert (requiredGrowth plan = 0) as Hz.
    { destruct (willWrite plan) eqn:Hww; [|by eapply planAdmission_room].
      simpl in Hneed. apply Z.ltb_ge in Hneed. lia. }
    eapply hooked_within; [exact Hcov|done|done|lia|done|rw Hz; pose proof (proj2 Hin1); lia|done|done].
Qed.

(** [Execute] of the engine: a write is answered under admission control, a
    read runs as specified. *)
Lemma read_not_growing cmd : IsWriteCommand (Name cmd) = false -> growing cmd = false.
Proof.
  intros Hw. unfold IsWriteCommand in Hw. apply bool_decide_eq_false in Hw. unfold growing.
  rw !(proj2 (String.eqb_neq _ _)) //; intros He; apply Hw; rw He; unfold writeCommands; set_solver.
Qed.

Lemma EngineExecute_runs cmd w kv :
  0 < limit cfg < maxUint64 -> store_kv (wstore w) kv -> within kv -> cmd_fits cmd ->
  runs (EngineExecute cfg cmd) w (fun f w' =>
    exists kv', store_kv (wstore w') kv' /\ within kv' /\ answered cmd kv f kv').
Proof.
  intros Hlim Hs Hin Hfit. unfold EngineExecute. apply runs_bind.
  assert (runs (if IsWriteCommand (Name cmd) then executeWithAdmission cfg cmd else liftM (Execute cmd)) w (fun f w' =>
    exists kv', store_kv (wstore w') kv' /\ within kv' /\ answered cmd kv f kv')) as (f & w1 & Hx & kv' & Hs' & Hin' & Ha).
  { destruct (IsWriteCommand (Name cmd)) eqn:Hw; [by apply executeWithAdmission_runs|].
    destruct (Execute_runs cmd w kv Hs) as (f & w1 & Hx & kv' & Hs' & Hex). exists f, w1. split; [done|]. exists kv'.
    split; [done|]. split.
    - destruct Hex as [t Ht]. apply (f_equal snd) in Ht. simpl in Ht. destruct Hin as [He Hle].
      destruct (spec_no_growth cmd kv t (read_not_growing cmd Hw) He) as [Hg Hg']. rw -Ht in Hg Hg'. split; [done|lia].
    - exists kv. split; [done|]. split; [by intros _ k x Hk; left|by right]. }
  exists f, w1. split; [done|]. apply runs_bind, runs_counter. intros w2 Hw2. apply runs_ret. exists kv'. by rw Hw2.
Qed.

(** ** Sequences of commands *)

Fixpoint engine_run (cmds : list Command) (w : Eng W) : option (list Frame * Eng W) :=
  match cmds with
  | [] => Some ([], w)
  | cmd :: cmds => '(f, w) ← EngineExecute cfg cmd w; '(fs, w) ← engine_run cmds w; Some (f :: fs, w)
  end.

Lemma engine_run_within cmds w kv :
  0 < limit cfg < maxUint64 -> store_kv (wstore w) kv -> within kv -> Forall cmd_fits cmds ->
  exists fs w' kv', engine_run cmds w = Some (fs, w') /\ store_kv (wstore w') kv' /\ within kv' /\ length fs = length cmds.
Proof.
  intros Hlim Hs Hin Hall. revert w kv Hs Hin; induction Hall as [|cmd cmds Hf _ IH]; intros w kv Hs Hin; cbn [engine_run].
  { by exists [], w, kv. }
  destruct (EngineExecute_runs cmd w kv Hlim Hs Hin Hf) as (f & w1 & -> & kv1 & Hs1 & Hin1 & _). cbn [mbind option_bind].
  destruct (IH w1 kv1 Hs1 Hin1) as (fs & w2 & kv2 & -> & Hs2 & Hin2 & Hl). cbn [mbind option_bind].
  exists (f :: fs), w2, kv2. split; [done|]. split; [done|]. split; [done|]. simpl. by rw Hl.
Qed.
End engine_spec.

(** ** The theorems *)

(** An engine with an empty store and no hook. *)
Definition startEng (stripeCount : Z) : Eng unit := mkEng (mkSys (NewStore stripeCount) 0) tt [].

(** C1: Memory safety of the engine: started with an empty store and a
    limit, whatever the eviction policy, the write hook, the clock, the order
    of map iteration and the commands, [Engine.Execute] never panics and the
    accounted memory never exceeds the limit after a command. *)
Theorem memory_limit_kept `{Env, SliceSortOk} {W} (cfg : Config W) (stripeCount : Z) (hook : W) (cmds : list Command) :
  0 < limit cfg < maxUint64 -> stripeCount < 4294967296 -> Forall cmd_fits cmds ->
  exists fs w, engine_run cfg cmds (mkEng (mkSys (NewStore stripeCount) 0) hook []) = Some (fs, w) /\
    length fs = length cmds /\ 0 <= usedBytes (sysStore (engSys w)) <= limit cfg.
Proof.
  intros Hlim Hn Hall. destruct (NewStore_spec stripeCount Hn) as [Hs _].
  destruct (engine_run_within cfg cmds (mkEng (mkSys (NewStore stripeCount) 0) hook []) ∅ Hlim Hs) as (fs & w & kv & Hr & Hs' & [He Ht] & Hl);
    [|done|].
  - split; [by intros k x Hk; rw lookup_empty in Hk|]. unfold ktotal. rw msum_empty. lia.
  - exists fs, w. split; [done|]. split; [done|]. rw (used_exact cfg _ _ Hs' Ht); [lia|]. split; [apply ktotal_nonneg|done].
Qed.

Lemma memory_limit_kept_witness :
  exists fs w, engine_run (H := steadyEnv) (mkConfig (W := unit) 200 LRU None false)
      [mkCommand "SET" ["a"; "1"]; mkCommand "SET" ["b"; "2"]; mkCommand "RPUSH" ["c"; "x"; "y"]] (startEng 4) = Some (fs, w) /\
    length fs = 3%nat /\ 0 <= usedBytes (sysStore (engSys w)) <= 200.
Proof.
  apply (memory_limit_kept (H := steadyEnv) (mkConfig (W := unit) 200 LRU None false) 4 tt); [done|done|].
  repeat constructor; done.
Defined.

(** C3: Each command under admission control: within the limit before, the store
    is within the limit after, and the answer is either the OOM error or the
    error of a failed write hook, and nothing was changed, or the reply and the effect of the command semantics, on what
    expiry and eviction left of the data; under [noeviction] only expired
    entries are gone. *)
Theorem write_answered `{Env, SliceSortOk} {W} (cfg : Config W) cmd w kv :
  0 < limit cfg < maxUint64 -> store_kv (sysStore (engSys w)) kv -> within cfg kv -> cmd_fits cmd ->
  exists f w' kv', EngineExecute cfg cmd w = Some (f, w') /\ store_kv (sysStore (engSys w')) kv' /\
    within cfg kv' /\ answered cfg cmd kv f kv'.
Proof.
  intros Hlim Hs Hin Hfit. destruct (EngineExecute_runs cfg cmd w kv Hlim Hs Hin Hfit) as (f & w' & Hx & kv' & Hr).
  by exists f, w', kv'.
Qed.

Lemma write_answered_witness :
  exists f w' kv', EngineExecute (H := steadyEnv) (mkConfig (W := unit) 200 NoEviction None false)
      (mkCommand "INCR" ["a"]) (startEng 4) = Some (f, w') /\ store_kv (sysStore (engSys w')) kv' /\
    within (mkConfig (W := unit) 200 NoEviction None false) kv' /\
    answered (H := steadyEnv) (mkConfig (W := unit) 200 NoEviction None false) (mkCommand "INCR" ["a"]) ∅ f kv'.
Proof.
  apply (write_answered (H := steadyEnv)); [done|apply (NewStore_spec 4); done| |done].
  split; [by intros k x Hk; rw lookup_empty in Hk|]. unfold ktotal. rw msum_empty. done.
Defined.

(** Plans are sound.  The plan of a write is made without a panic and without
    growing the data.  If it answers at once, reply and data are those of the
    command semantics.  Otherwise, executing the command later, on any store
    with the same entry under the planned key, grows the accounted size by at
    most the planned growth. *)
Theorem plan_sound `{Env} (lim : Z) cmd s kv t :
  lim < maxUint64 -> cmd_fits cmd -> store_kv s kv -> kv_exact kv ->
  exists plan s' t' kv', planAdmission cmd (mkSys s t) = Some (plan, mkSys s' t') /\ store_kv s' kv' /\ kv' ⊆ kv /\
    match response plan with
    | Some f => (f, kv') = (spec_execute cmd kv t).1
    | None => 0 <= requiredGrowth plan /\ forall s2 kv2 t2, store_kv s2 kv2 -> kv2 !! plKey plan = kv' !! plKey plan ->
        kv_exact kv2 -> ktotal kv2 <= lim -> (0 < requiredGrowth plan -> resultingSize plan <= lim) ->
        ktotal (spec_execute cmd kv2 t2).1.2 <= ktotal kv2 + requiredGrowth plan
    end.
Proof.
  intros Hlim Hfit Hs He. destruct (planAdmission_planned lim Hlim cmd Hfit s kv t Hs He)
    as (plan & s' & t' & kv' & Hp & Hs' & _ & Hsub & [Hg Hcov] & Hresp & _).
  exists plan, s', t', kv'. do 3 (split; [done|]). destruct (response plan) as [f|]; [by apply Hresp|].
  split; [done|]. intros s2 kv2 t2 H1 H2 H3 H4 H5. by apply (Hcov eq_refl s2 kv2 t2).
Qed.

Lemma plan_sound_witness :
  exists plan s' t' kv', planAdmission (H := steadyEnv) (mkCommand "RPUSH" ["k"; "v"]) (mkSys (NewStore 4) 0) =
      Some (plan, mkSys s' t') /\ store_kv s' kv' /\ kv' ⊆ ∅ /\
    match response plan with
    | Some f => (f, kv') = (spec_execute (H := steadyEnv) (mkCommand "RPUSH" ["k"; "v"]) ∅ 0).1
    | None => 0 <= requiredGrowth plan /\ forall s2 kv2 t2, store_kv s2 kv2 -> kv2 !! plKey plan = kv' !! plKey plan ->
        kv_exact kv2 -> ktotal kv2 <= 500 -> (0 < requiredGrowth plan -> resultingSize plan <= 500) ->
        ktotal (spec_execute (H := steadyEnv) (mkCommand "RPUSH" ["k"; "v"]) kv2 t2).1.2 <= ktotal kv2 + requiredGrowth plan
    end.
Proof.
  apply (plan_sound (H := steadyEnv) 500); [done|done|apply (NewStore_spec 4); done|].
  by intros k x Hk; rw lookup_empty in Hk.
Defined.

(** Eviction for a plan never removes the key the write is about, removes
    nothing at all under [noeviction], ends without a panic, and when it
    reports success the planned growth fits under the limit; when it fails it
    returns an error frame. *)
Theorem eviction_frees `{Env, SliceSortOk} {W} (cfg : Config W) plan w kv :
  0 < limit cfg < maxUint64 -> store_kv (sysStore (engSys w)) kv -> within cfg kv ->
  exists r w' kv', freeForAdmission cfg plan w = Some (r, w') /\ store_kv (sysStore (engSys w')) kv' /\ kv' ⊆ kv /\
    kv' !! plKey plan = kv !! plKey plan /\ (PolicyName (policy cfg) = "noeviction" -> kv' = kv) /\
    match r with
    | None => ktotal kv' + requiredGrowth plan <= limit cfg
    | Some f => isErrorFrame f = true
    end.
Proof.
  intros Hlim Hs [He Ht]. destruct (freePasses_runs cfg maxEvictionPasses plan w kv Hlim Hs He Ht)
    as (r & w' & Hr & kv' & Hs' & [_ Hkeep Hsub] & Hfit & Herr).
  exists r, w', kv'. do 3 (split; [done|]). split; [apply Hkeep; by intros [? _]|]. split.
  - intros Hno. apply map_eq. intros k. apply Hkeep. by intros [_ ?].
  - destruct r as [f|]; [by eapply refused_error, Herr|by apply Hfit].
Qed.

Lemma eviction_frees_witness :
  exists r w' kv', freeForAdmission (H := steadyEnv) (mkConfig (W := unit) 100 LRU None false) (writePlan "k" 90 90) (startEng 4) =
      Some (r, w') /\ store_kv (sysStore (engSys w')) kv' /\ kv' ⊆ ∅ /\
    kv' !! "k" = (∅ : KV) !! "k" /\ (PolicyName LRU = "noeviction" -> kv' = ∅) /\
    match r with None => ktotal kv' + 90 <= 100 | Some f => isErrorFrame f = true end.
Proof.
  apply (eviction_frees (H := steadyEnv) (mkConfig (W := unit) 100 LRU None false) (writePlan "k" 90 90));
    [done|apply (NewStore_spec 4); done|].
  split; [by intros k x Hk; rw lookup_empty in Hk|]. unfold ktotal. rw msum_empty. done.
Defined.
