(* ===== verification/EngineLog.v ===== *)
(** * What the engine counts

    Every command adds one to [cmd.total], and a command answered with an OOM
    error, and no other, adds one to [eviction.rejected_writes]. *)
From S2P Require Import Prelude GoText GoFloat GoFloatText Resp ListValue SkipList ZSetValue Eviction Store Executor Engine Metrics.
Local Open Scope Z_scope.

(** ** The executor does not answer with OOM *)

Section frames.
Context `{Env}.

Definition returns {A} (P : A -> Prop) (m : M A) : Prop := forall w a w', m w = Some (a, w') -> P a.
Lemma returns_mret {A} (P : A -> Prop) a : P a -> returns P (mret a).
Proof. intros Ha w x w' [= <- <-]. done. Qed.
Lemma returns_mbind {A B} (Q : A -> Prop) (P : B -> Prop) (m : M A) (f : A -> M B) :
  returns Q m -> (forall a, Q a -> returns P (f a)) -> returns P (m ≫= f).
Proof.
  intros Hm Hf w b w'. unfold mbind, M_bind. destruct (m w) as [[a w1]|] eqn:Ha; [|done]. cbn. apply Hf. by eapply Hm.
Qed.
Lemma returns_any {A} (m : M A) : returns (fun _ => True) m.
Proof. done. Qed.
Lemma returns_panic {A} (P : A -> Prop) : returns P (panic : M A).
Proof. done. Qed.

Definition plainFrame (f : Frame) : Prop := isOOMFrame f = false.
Definition plainResult {A} (r : A + Frame) : Prop := match r with inr f => plainFrame f | inl _ => True end.

Lemma parseSetOptions_plain args opts b t : plainResult (parseSetOptions_loop args opts b t).1.
Proof.
  revert opts b t. induction args as [args IH] using (induction_ltof1 _ length). unfold ltof in IH. intros opts b t.
  destruct args as [|a rest]; [done|]. cbn [parseSetOptions_loop]. cbv zeta. destruct (_ || _).
  - destruct rest as [|v rest]; [done|]. unfold setExpiration. destruct b; [done|]. destruct (parseInt64 v); [|done].
    destruct (expirationFromNow _ _ _) as [[e|] t']; [|done]. apply IH. simpl. lia.
  - destruct (String.eqb _ "NX"); [destruct (bool_decide _); [done|apply IH; simpl; lia]|].
    destruct (String.eqb _ "XX"); [destruct (bool_decide _); [done|apply IH; simpl; lia]|done].
Qed.
Lemma parseZAdd_plain args : plainResult (parseZAddPairs args).
Proof.
  unfold parseZAddPairs. destruct (_ || _); [done|]. induction args as [args IH] using (induction_ltof1 _ length). unfold ltof in IH.
  destruct args as [|a [|m rest]]; [done..|]. cbn [parseZAddPairs_loop]. destruct (ParseFloat a); [|done]. destruct (IsNaN _); [done|].
  specialize (IH rest ltac:(simpl; lia)). by destruct (parseZAddPairs_loop rest).
Qed.
Lemma returns_options args : returns plainResult (onTick (parseSetOptions args)).
Proof.
  intros w a w'. unfold onTick, parseSetOptions. pose proof (parseSetOptions_plain args (mkSetOptions 0 setAlways) false (tick w)) as Hp.
  destruct (parseSetOptions_loop _ _ _ _) as [r t]. intros [= <- <-]. exact Hp.
Qed.

Ltac frames :=
  repeat match goal with
  | |- returns _ (mret _) => apply returns_mret
  | |- returns _ panic => apply returns_panic
  | |- returns _ (onTick (parseSetOptions _) ≫= _) => apply (returns_mbind plainResult); [apply returns_options|intros [?|?] ?]
  | |- returns _ (_ ≫= _) => apply (returns_mbind (fun _ => True)); [apply returns_any|intros ? _]
  | |- returns _ (match parseZAddPairs ?x with _ => _ end) => pose proof (parseZAdd_plain x); destruct (parseZAddPairs x)
  | |- returns _ (match ?x with _ => _ end) => destruct x
  | |- plainFrame (match ?x with _ => _ end) => destruct x
  | |- plainFrame _ => done
  end.

Lemma Execute_plain cmd : returns plainFrame (Execute cmd).
Proof.
  unfold Execute. cbv zeta.
  repeat (match goal with |- returns _ (if ?b then _ else _) => destruct b end; [|]);
    try (unfold cmdPing, cmdEcho, cmdDel, cmdExists, cmdExpire, cmdTTL, cmdSet, cmdGet, cmdIncr, cmdLPush, cmdRPush, cmdLPop, cmdRPop, cmdLLen,
      cmdZAdd, cmdZRange, cmdZCard, cmdZScore, pushReply, popReply); frames.
Qed.
End frames.

(** ** The log of an execution *)

Section logs.
Context `{Env, SliceSort} {W : Type} (cfg : Config W).
#[local] Existing Instances EM_ret EM_bind.

(** What is added to the log, given what is returned. *)
Definition logs {A} (P : A -> list (string * Z) -> Prop) (m : EM (W := W) A) : Prop :=
  forall w a w', m w = Some (a, w') -> exists log, engMetrics w' = engMetrics w ++ log /\ P a log.
Lemma logs_mono {A} (P Q : A -> list (string * Z) -> Prop) (m : EM (W := W) A) : (forall a l, Q a l -> P a l) -> logs Q m -> logs P m.
Proof. intros Hi Hm w a w' Hx. destruct (Hm w a w' Hx) as (log & Hl & Hq). exists log. split; [done|by apply Hi]. Qed.
Lemma logs_ret {A} (P : A -> list (string * Z) -> Prop) a : P a [] -> logs P (mret a : EM (W := W) A).
Proof. intros Ha w x w' [= <- <-]. exists []. by rw app_nil_r. Qed.
Lemma logs_bind {A B} (Q : A -> list (string * Z) -> Prop) (P : B -> list (string * Z) -> Prop) (m : EM (W := W) A) (f : A -> EM (W := W) B) :
  logs Q m -> (forall a l, Q a l -> logs (fun b l' => P b (l ++ l')) (f a)) -> logs P (m ≫= f).
Proof.
  intros Hm Hf w b w'. unfold mbind, EM_bind. destruct (m w) as [[a w1]|] eqn:Ha; [|done]. cbn. intros Hb.
  destruct (Hm w a w1 Ha) as (l & Hl & Hq). destruct (Hf a l Hq w1 b w' Hb) as (l' & Hl' & Hp). exists (l ++ l'). split; [|done].
  by rw Hl' Hl app_assoc.
Qed.
Lemma logs_counter name n P : P tt [(name, n)] -> logs P (Engine.AddCounter name n : EM (W := W) unit).
Proof. intros Hp w a w' [= <- <-]. by exists [(name, n)]. Qed.
Lemma logs_lift {A} (Q : A -> Prop) (P : A -> list (string * Z) -> Prop) (m : M A) : returns Q m -> (forall a, Q a -> P a []) -> logs P (liftM m : EM (W := W) A).
Proof.
  intros Hm Hp w a w'. unfold liftM. destruct (m (engSys w)) as [[x s]|] eqn:Hx; [|done]. intros [= <- <-]. exists []. rw app_nil_r. split; [done|].
  apply Hp. by eapply Hm.
Qed.

Context (Hhook : writeHook cfg = None).
Lemma logs_hook b cmd : logs (fun r l => r = None /\ l = []) (hookIf cfg b cmd).
Proof. unfold hookIf. rw Hhook. by apply logs_ret. Qed.

Definition rejected : string := "eviction.rejected_writes".
Definition quiet (l : list (string * Z)) : Prop := countOf rejected l = 0 /\ countOf "cmd.total" l = 0.
Lemma quiet_app a b : quiet a -> quiet b -> quiet (a ++ b).
Proof. intros [H1 H2] [H3 H4]. unfold quiet. rw !countOf_app. lia. Qed.
Lemma quiet_nil : quiet [].
Proof. done. Qed.

Lemma evictLoop_logs plan victims b : logs (fun r l => quiet l /\ match r with inr _ => False | _ => True end) (evictLoop cfg plan victims b).
Proof.
  revert b. induction victims as [|v vs IH]; intros b; cbn [evictLoop]; [by apply logs_ret|]. destruct (String.eqb _ _); [apply IH|].
  eapply logs_bind; [apply logs_hook|]. intros ? ? [-> ->]. cbn [app].
  eapply logs_bind; [apply (logs_lift (fun _ => True) (fun _ l => l = [])); [done|done]|]. intros freed ? ->. cbn [app].
  destruct freed as [freed|]; [|apply IH].
  eapply logs_bind; [apply (logs_counter _ _ (fun _ l => quiet l)); done|]. intros [] l1 H1.
  eapply logs_bind; [apply (logs_counter _ _ (fun _ l => quiet l)); done|]. intros [] l2 H2.
  eapply logs_bind; [apply (logs_counter _ _ (fun _ l => quiet l)); unfold quiet; simpl; lia|]. intros [] l3 H3.
  eapply logs_bind; [apply logs_hook|]. intros ? ? [-> ->]. cbn [app]. eapply logs_mono; [|apply IH]. intros r l [Hl Hr]. split; [|done].
  by repeat apply quiet_app.
Qed.
Lemma freePasses_logs passes plan : logs (fun r l => quiet l /\ match r with Some f => f = oomFrame | None => True end) (freePasses cfg passes plan).
Proof.
  induction passes as [|passes IH]; cbn [freePasses]; [by apply logs_ret|].
  eapply logs_bind; [apply (logs_mono _ (fun _ l => l = [])); [intros a l Hl; exact Hl|]; intros w a w' [= <- <-]; exists []; by rw app_nil_r|]. intros avail ? ->. cbn [app].
  destruct (_ <=? _); [by apply logs_ret|]. destruct (String.eqb _ _); [by apply logs_ret|].
  eapply logs_bind; [apply (logs_counter _ _ (fun _ l => quiet l)); done|]. intros [] l1 H1.
  eapply logs_bind; [apply (logs_lift (fun _ => True) (fun _ l => l = [])); [done|done]|]. intros victims ? ->.
  destruct victims as [|v vs]; [apply logs_ret; split; [|done]; by repeat apply quiet_app|].
  eapply logs_bind; [apply evictLoop_logs|]. intros r l2 [H2 Hr]. destruct r as [progress|]; [|done]. destruct progress.
  - eapply logs_mono; [|apply IH]. intros r l [Hl Hr']. split; [|done]. by repeat apply quiet_app.
  - apply logs_ret. split; [|done]. by repeat apply quiet_app.
Qed.

(** The frame of an execution and the refusals it counts. *)
Definition counted (f : Frame) (l : list (string * Z)) : Prop :=
  countOf rejected l = (if isOOMFrame f then 1 else 0) /\ countOf "cmd.total" l = 0.
Lemma executeHooked_logs cmd : logs counted (executeHooked cfg cmd).
Proof.
  unfold executeHooked. eapply logs_bind; [apply logs_hook|]. intros ? ? [-> ->]. cbn [app].
  eapply logs_bind; [apply (logs_lift plainFrame (fun f l => plainFrame f /\ l = [])); [apply Execute_plain|done]|]. intros f ? [Hf ->]. cbn [app].
  eapply (logs_bind (fun _ l => l = [])).
  { destruct (isErrorFrame f); [by apply logs_ret|]. eapply logs_mono; [|apply logs_hook]. by intros r l [_ ->]. }
  intros ? ? ->. apply logs_ret. unfold counted. by rw Hf.
Qed.
Lemma admission_logs cmd : logs counted (executeWithAdmission cfg cmd).
Proof.
  unfold executeWithAdmission. eapply logs_bind; [apply (logs_lift (fun _ => True) (fun _ l => l = [])); [done|done]|]. intros plan ? ->. cbn [app].
  destruct (response plan) as [f|].
  { eapply (logs_bind (fun _ l => counted f l)); [|intros [] l Hl; apply logs_ret; by rw app_nil_r].
    unfold counted. destruct (isOOMFrame f); [by apply logs_counter|by apply logs_ret]. }
  destruct (_ && _); [|apply executeHooked_logs]. destruct (_ <? _).
  { eapply logs_bind; [by apply (logs_counter _ _ (fun _ l => counted oomFrame l))|]. intros [] l Hl. apply logs_ret. by rw app_nil_r. }
  eapply logs_bind; [apply freePasses_logs|]. intros r l [Hq Hr]. destruct r as [f|].
  - subst f. eapply logs_bind; [by apply (logs_counter _ _ (fun _ l => counted oomFrame l))|]. intros [] l' [H1 H2]. apply logs_ret. destruct Hq as [H3 H4].
    unfold counted. rw app_nil_r !countOf_app. lia.
  - eapply logs_mono; [|apply executeHooked_logs]. intros f l' [H1 H2]. destruct Hq as [H3 H4]. unfold counted. rw !countOf_app. lia.
Qed.
Lemma engine_logs cmd w f w' : EngineExecute cfg cmd w = Some (f, w') ->
  exists log, engMetrics w' = engMetrics w ++ log /\ countOf rejected log = (if isOOMFrame f then 1 else 0) /\ countOf "cmd.total" log = 1.
Proof.
  revert w f w'. change (logs (fun f log => countOf rejected log = (if isOOMFrame f then 1 else 0) /\ countOf "cmd.total" log = 1) (EngineExecute cfg cmd)).
  unfold EngineExecute. eapply (logs_bind counted).
  { destruct (IsWriteCommand _); [apply admission_logs|]. apply (logs_lift plainFrame); [apply Execute_plain|]. intros f Hf. unfold counted. by rw Hf. }
  intros f l [H1 H2]. eapply logs_bind; [by apply (logs_counter _ _ (fun _ l => l = [("cmd.total", 1)]))|]. intros [] ? ->. apply logs_ret.
  rw !countOf_app H1 H2. cbn. lia.
Qed.
End logs.
