(* ===== verification/Snapshot.v ===== *)
(** * Snapshots of the engine: [internal/engine/snapshot.go]

    The value codecs, [snapshotEntries], [replaceAll], and the three engine
    operations [SnapshotEntries], [RestoreSnapshotEntries] and
    [ValidateSnapshotEntries].  A [bytes.Reader] is the string that is left to
    read.  Errors are a data type with one constructor per [fmt.Errorf] of the
    source.  [None] is a run-time panic. *)
From S2P Require Import Prelude Encoding GoText GoFloat GoFloatText ListValue SkipList ZSetValue Eviction Store StoreSpec Executor.
Local Open Scope Z_scope.

(** ** Errors and entries *)

Inductive readErr := ReadEOF | ReadDeclared (length remaining : Z).

Inductive SnapErr :=
| errInvalidValue (type : string)
| errUnsupportedType (type : string)
| errTooMany (type : string)
| errTooLarge (type : string)
| errLength (type : string)
| errCount (type : string) (count : Z)
| errScore (i : Z)
| errScoreNaN (i : Z)
| errElement (type : string) (i : Z) (err : readErr)
| errTrailing (type : string) (n : Z)
| errSizeMismatch (approx calculated : Z)
| errKey (key : string) (err : SnapErr)
| errDuplicateKey (key : string)
| errSizeOverflow
| errMemoryLimit (total limit : Z).

Record SnapEntry := mkSnapEntry {
  SKey : string;
  SValueType : string;
  SValue : string;
  SApproxSize : Z;
  SExpiresAtNs : Z
}.

(** ** Reading *)

(** [bytes.Reader.Read] into a buffer of [n] bytes: the end of the input is an
    error even when nothing is asked for. *)
Definition readerRead (n : Z) (r : string) : option (string * string) :=
  if slen r =? 0 then None else Some (stake (Z.to_nat n) r, sdrop (Z.to_nat n) r).

Definition readLengthPrefixed (r : string) : (string * string) + readErr :=
  match readBE 4 r with
  | None => inr ReadEOF
  | Some (length, r) =>
      if slen r <? length then inr (ReadDeclared length (slen r))
      else match readerRead length r with Some v => inl v | None => inr ReadEOF end
  end.

(** ** The list codec *)

Definition maxUint32 : Z := 4294967295.

Fixpoint encodeItems (items : list string) : string + SnapErr :=
  match items with
  | [] => inl ""
  | v :: items =>
      if maxUint32 <? slen v then inr (errTooLarge "list")
      else match encodeItems items with
      | inl out => inl (putBE 4 (u32 (slen v)) +:+ v +:+ out)
      | inr e => inr e
      end
  end.
Definition encodeListValue (value : ListValue) : string + SnapErr :=
  if maxUint32 <? llen value then inr (errTooMany "list")
  else match encodeItems (contents value) with
  | inl out => inl (putBE 4 (u32 (llen value)) +:+ out)
  | inr e => inr e
  end.

(** The loop of [decodeListValue]: [n] iterations are left, [i] are done. *)
Fixpoint decodeItems (n : nat) (i : Z) (r : string) : (list string * string) + SnapErr :=
  match n with
  | O => inl ([], r)
  | S n =>
      match readLengthPrefixed r with
      | inr e => inr (errElement "list" i e)
      | inl (item, r) =>
          match decodeItems n (i + 1) r with
          | inl (items, r) => inl (item :: items, r)
          | inr e => inr e
          end
      end
  end.
Definition decodeListValue (raw : string) : ListValue + SnapErr :=
  match readBE 4 raw with
  | None => inr (errLength "list")
  | Some (count, r) =>
      if slen r / 4 <? count then inr (errCount "list" count)
      else match decodeItems (Z.to_nat count) 0 r with
      | inr e => inr e
      | inl (items, r) =>
          if negb (slen r =? 0) then inr (errTrailing "list" (slen r))
          else inl (RPush NewListValue items).1
      end
  end.

(** ** The sorted-set codec *)

Fixpoint encodeMembers (ms : list (float64 * string)) : string + SnapErr :=
  match ms with
  | [] => inl ""
  | m :: ms =>
      if maxUint32 <? slen m.2 then inr (errTooLarge "zset")
      else match encodeMembers ms with
      | inl out => inl (putBE 8 (Float64bits m.1) +:+ putBE 4 (u32 (slen m.2)) +:+ m.2 +:+ out)
      | inr e => inr e
      end
  end.
Definition encodeZSetValue (value : ZSetValue) : option (string + SnapErr) :=
  members ← ZRange value 0 (-1);
  Some (if maxUint32 <? Z.of_nat (length members) then inr (errTooMany "zset")
        else match encodeMembers members with
        | inl out => inl (putBE 4 (u32 (Z.of_nat (length members))) +:+ out)
        | inr e => inr e
        end).

(** The loop of [decodeZSetValue]; [lvls] are the levels drawn by the calls to
    [Add]. *)
Fixpoint decodeMembers (lvls : nat -> nat) (n i : nat) (r : string) (value : ZSetValue)
    : option ((ZSetValue * string) + SnapErr) :=
  match n with
  | O => Some (inl (value, r))
  | S n =>
      match readBE 8 r with
      | None => Some (inr (errScore (Z.of_nat i)))
      | Some (scoreBits, r) =>
          let score := Float64frombits scoreBits in
          if IsNaN score then Some (inr (errScoreNaN (Z.of_nat i)))
          else match readLengthPrefixed r with
          | inr e => Some (inr (errElement "zset" (Z.of_nat i) e))
          | inl (member, r) =>
              '(value, _) ← Add value (lvls i) score member;
              decodeMembers lvls n (S i) r value
          end
      end
  end.
Definition decodeZSetValue (lvls : nat -> nat) (raw : string) : option (ZSetValue + SnapErr) :=
  match readBE 4 raw with
  | None => Some (inr (errLength "zset"))
  | Some (count, r) =>
      if slen r / 12 <? count then Some (inr (errCount "zset" count))
      else
        res ← decodeMembers lvls (Z.to_nat count) 0 r NewZSetValue;
        Some (match res with
              | inr e => inr e
              | inl (value, r) => if negb (slen r =? 0) then inr (errTrailing "zset" (slen r)) else inl value
              end)
  end.

(** ** Entries *)

Definition encodeSnapshotValue (entry : Entry) : option (string + SnapErr) :=
  match EType entry with
  | ValueTypeString =>
      Some (match EValue entry with StringValue d => inl d | _ => inr (errInvalidValue "string") end)
  | ValueTypeList =>
      Some (match EValue entry with ListV lv => encodeListValue lv | _ => inr (errInvalidValue "list") end)
  | ValueTypeZSet =>
      match EValue entry with ZSetV zv => encodeZSetValue zv | _ => Some (inr (errInvalidValue "sorted-set")) end
  | ValueTypeNone => Some (inr (errUnsupportedType (ValueTypeName (EType entry))))
  end.

(** The type, value and accounted size that a snapshot entry decodes to. *)
Definition decodeSnapshotValue (lvls : nat -> nat) (item : SnapEntry) : option ((ValueType * Value * Z) + SnapErr) :=
  if String.eqb (SValueType item) "string" then
    Some (inl (ValueTypeString, StringValue (SValue item), stringEntrySize (SKey item) (SValue item)))
  else if String.eqb (SValueType item) "list" then
    Some (match decodeListValue (SValue item) with
          | inr e => inr (errKey (SKey item) e)
          | inl value => inl (ValueTypeList, ListV value, listEntrySize (SKey item) value)
          end)
  else if String.eqb (SValueType item) "zset" then
    res ← decodeZSetValue lvls (SValue item);
    Some (match res with
          | inr e => inr (errKey (SKey item) e)
          | inl value => inl (ValueTypeZSet, ZSetV value, zsetEntrySize (SKey item) value)
          end)
  else Some (inr (errKey (SKey item) (errUnsupportedType (SValueType item)))).

Definition decodeSnapshotEntry (lvls : nat -> nat) (item : SnapEntry) (nowNs : Z) : option (Entry + SnapErr) :=
  res ← decodeSnapshotValue lvls item;
  Some (match res with
        | inr e => inr e
        | inl (ty, v, calculated) =>
            if negb (calculated =? SApproxSize item)
            then inr (errKey (SKey item) (errSizeMismatch (SApproxSize item) calculated))
            else inl (newEntry (SKey item) ty v (SApproxSize item) (SExpiresAtNs item) nowNs)
        end).

(** ** The store *)

(** The two loops of [snapshotEntries] over the entries in iteration order. *)
Fixpoint snapshotLoop (nowNs : Z) (es : list Entry) : option (list SnapEntry + SnapErr) :=
  match es with
  | [] => Some (inl [])
  | entry :: es =>
      if IsExpired entry nowNs then snapshotLoop nowNs es
      else
        res ← encodeSnapshotValue entry;
        match res with
        | inr e => Some (inr (errKey (EKey entry) e))
        | inl value =>
            rest ← snapshotLoop nowNs es;
            Some (match rest with
                  | inr e => inr e
                  | inl items =>
                      inl (mkSnapEntry (EKey entry) (ValueTypeName (EType entry)) value (SizeBytes entry)
                             (ExpiresAtNs entry) :: items)
                  end)
        end
  end.
Definition snapLess (a b : SnapEntry) : bool := sltb (SKey a) (SKey b).

Section snapshot.
Context `{SliceSort}.

Definition snapshotEntries (s : Store) (nowNs : Z) (rng : gmap string Entry -> list Entry)
    : option (list SnapEntry + SnapErr) :=
  res ← snapshotLoop nowNs (mjoin (rng <$> stripes s));
  Some (match res with inl entries => inl (slice_sort snapLess entries) | inr e => inr e end).
End snapshot.

Definition replaceAll (s : Store) (entries : list Entry) (total : Z) : option Store :=
  let s := mkStore ((fun _ => ∅) <$> stripes s) (mask s) (powerTwo s) (usedBytes s) in
  s ← foldl (fun s entry => s ← s; st ← stripeFor s (EKey entry); Some (storeE s st (EKey entry) entry)) (Some s) entries;
  Some (setUsed s total).

(** The loop of [RestoreSnapshotEntries]: the decoded entries and their total
    size.  [lvls i] are the levels drawn while entry [i] is decoded. *)
Fixpoint restoreLoop (lvls : nat -> nat -> nat) (now : Z) (i : nat) (entries : list SnapEntry) (seen : gset string)
    (total : Z) : option ((list Entry * Z) + SnapErr) :=
  match entries with
  | [] => Some (inl ([], total))
  | item :: entries =>
      if bool_decide (SKey item ∈ seen) then Some (inr (errDuplicateKey (SKey item)))
      else
        let seen := {[SKey item]} ∪ seen in
        if negb (SExpiresAtNs item =? 0) && (SExpiresAtNs item <=? now)
        then restoreLoop lvls now (S i) entries seen total
        else
          res ← decodeSnapshotEntry (lvls i) item now;
          match res with
          | inr e => Some (inr e)
          | inl entry =>
              if maxUint64 - total <? SizeBytes entry then Some (inr errSizeOverflow)
              else
                rest ← restoreLoop lvls now (S i) entries seen (total + SizeBytes entry);
                Some (match rest with
                      | inr e => inr e
                      | inl (decoded, total) => inl (entry :: decoded, total)
                      end)
          end
  end.

(** [RestoreSnapshotEntries]: how many entries were restored, or an error, and
    the store afterwards. *)
Definition RestoreSnapshotEntries (limit : Z) (lvls : nat -> nat -> nat) (s : Store) (entries : list SnapEntry) (now : Z)
    : option ((Z + SnapErr) * Store) :=
  res ← restoreLoop lvls now 0 entries ∅ 0;
  match res with
  | inr e => Some (inr e, s)
  | inl (decoded, total) =>
      if (0 <? limit) && (limit <? total) then Some (inr (errMemoryLimit total limit), s)
      else
        s ← replaceAll s decoded total;
        Some (inl (Z.of_nat (length decoded)), s)
  end.

Fixpoint validateLoop (lvls : nat -> nat -> nat) (i : nat) (entries : list SnapEntry) (seen : gset string)
    : option (option SnapErr) :=
  match entries with
  | [] => Some None
  | item :: entries =>
      if bool_decide (SKey item ∈ seen) then Some (Some (errDuplicateKey (SKey item)))
      else
        res ← decodeSnapshotEntry (lvls i) item 0;
        match res with
        | inr e => Some (Some e)
        | inl _ => validateLoop lvls (S i) entries ({[SKey item]} ∪ seen)
        end
  end.
Definition ValidateSnapshotEntries (lvls : nat -> nat -> nat) (entries : list SnapEntry) : option (option SnapErr) :=
  validateLoop lvls 0 entries ∅.

(** ** The engine operations

    Each reads the clock once; taking a snapshot also visits the maps, and
    decoding draws the levels of the sorted sets. *)

Section engine_snapshots.
Context `{Env, SliceSort}.

Definition SnapshotEntries : M (list SnapEntry + SnapErr) := fun w =>
  r ← snapshotEntries (sysStore w) (clock (tick w)) (visit (S (tick w)));
  Some (r, mkSys (sysStore w) (S (S (tick w)))).
Definition RestoreEntries (limit : Z) (entries : list SnapEntry) : M (Z + SnapErr) := fun w =>
  '(r, s) ← RestoreSnapshotEntries limit (fun i k => randomLevel (coins (S (tick w + i)) k)) (sysStore w) entries (clock (tick w));
  Some (r, mkSys s (S (tick w + length entries))).
Definition ValidateEntries (entries : list SnapEntry) : M (option SnapErr) := fun w =>
  r ← ValidateSnapshotEntries (fun i k => randomLevel (coins (tick w + i) k)) entries;
  Some (r, mkSys (sysStore w) (tick w + length entries)).
End engine_snapshots.
