(* ===== verification/SnapshotSpec.v ===== *)
(** * Snapshots restore what they saved

    Round trips of the value codecs, [snapshotEntries] as a function of the
    abstract map (it does not depend on the iteration order of Go maps), and
    [RestoreSnapshotEntries]: whatever bytes it is given, it either leaves the
    store as it was or replaces it by a well-formed store within the memory
    limit; given a snapshot, it restores the map that was saved.

    The codecs lose one case: [readLengthPrefixed] cannot read an empty
    string at the end of the input. *)
From S2P Require Import Prelude Encoding GoText GoFloat GoFloatText ListValue SkipList ZSetValue Eviction Store StoreSpec Snapshot.
Local Open Scope Z_scope.

(** ** Length-prefixed strings *)

Lemma readLengthPrefixed_put v r :
  slen v <= maxUint32 ->
  readLengthPrefixed (putBE 4 (u32 (slen v)) +:+ v +:+ r) =
    if slen v + slen r =? 0 then inr ReadEOF else inl (v, r).
Proof.
  intros Hv. pose proof (slen_nonneg v). pose proof (slen_nonneg r). unfold maxUint32 in Hv.
  unfold readLengthPrefixed. unfold u32. rw Z.mod_small; [lia|]. rw readBE_put; [lia|].
  rw slen_app. destruct (Z.ltb_spec (slen v + slen r) (slen v)); [lia|]. unfold readerRead. rw slen_app.
  destruct (_ =? 0); [done|]. unfold slen. by rw Nat2Z.id stake_app sdrop_app.
Qed.

(** ** The list codec *)

(** The case the codecs cannot represent. *)
Definition ends_empty (items : list string) : Prop := last items = Some "".

Lemma ends_empty_cons v items : items <> [] -> ends_empty (v :: items) <-> ends_empty items.
Proof. intros Hne. unfold ends_empty. by destruct items. Qed.

Lemma encodeItems_length items out : encodeItems items = inl out -> 4 * Z.of_nat (length items) <= slen out.
Proof.
  revert out; induction items as [|v items IH]; intros out; cbn [encodeItems]; [by intros [= <-]|].
  destruct (_ <? _); [done|]. destruct (encodeItems items) as [out'|]; [|done]. intros [= <-].
  specialize (IH _ eq_refl). rw (slen_app (putBE _ _)) slen_put (slen_app v). pose proof (slen_nonneg v). simpl length. lia.
Qed.

Lemma decodeItems_encode items i out :
  encodeItems items = inl out ->
  (~ ends_empty items -> decodeItems (length items) i out = inl (items, "")) /\
  (ends_empty items -> decodeItems (length items) i out = inr (errElement "list" (i + Z.of_nat (length items) - 1) ReadEOF)).
Proof.
  revert i out; induction items as [|v items IH]; intros i out; cbn [encodeItems]; [by intros [= <-]|].
  destruct (Z.ltb_spec maxUint32 (slen v)); [done|].
  destruct (encodeItems items) as [out'|] eqn:Hout; [|done]. intros [= <-].
  cbn [length decodeItems]. rw readLengthPrefixed_put; [lia|]. pose proof (encodeItems_length _ _ Hout) as Hlen.
  destruct (IH (i + 1) out' eq_refl) as [IH1 IH2]. pose proof (slen_nonneg v).
  destruct items as [|w items].
  - injection Hout as <-. change (slen "") with 0. destruct (Z.eqb_spec (slen v + 0) 0) as [Hz|Hz].
    + assert (v = "") as -> by (apply slen_nil_inv; lia). split; [by intros []|]. intros _. do 2 f_equal. lia.
    + split; [done|]. intros [= ->]. by destruct Hz.
  - rw ends_empty_cons //. simpl length in Hlen. destruct (Z.eqb_spec (slen v + slen out') 0); [lia|]. split.
    + intros Hne. by rw IH1.
    + intros He. rw IH2 //. do 2 f_equal. simpl length. lia.
Qed.

Lemma decodeListValue_encode lv raw :
  list_wf lv -> encodeListValue lv = inl raw ->
  (~ ends_empty (contents lv) ->
     exists lv', decodeListValue raw = inl lv' /\ list_wf lv' /\ contents lv' = contents lv) /\
  (ends_empty (contents lv) -> exists i, decodeListValue raw = inr (errElement "list" i ReadEOF)).
Proof.
  intros Hwf. unfold encodeListValue. destruct (Z.ltb_spec maxUint32 (llen lv)); [done|].
  destruct (encodeItems (contents lv)) as [out|] eqn:Hout; [|done]. intros [= <-].
  assert (llen lv = Z.of_nat (length (contents lv))) as Hlen by by apply contents_len.
  pose proof (encodeItems_length _ _ Hout) as Hol. unfold decodeListValue, u32. unfold maxUint32 in *.
  rw Z.mod_small; [lia|]. rw readBE_put; [lia|]. destruct (Z.ltb_spec (slen out / 4) (llen lv)).
  { pose proof (Z.div_le_lower_bound (slen out) 4 (llen lv)). lia. }
  rw Hlen Nat2Z.id. destruct (decodeItems_encode (contents lv) 0 out Hout) as [H1 H2]. split.
  - intros Hne. rw H1 //. change (slen "") with 0. cbn [Z.eqb negb].
    destruct NewListValue_wf as [Hw0 Hc0]. pose proof (RPush_spec NewListValue (contents lv) Hw0) as Hp.
    destruct (RPush NewListValue (contents lv)) as [lv' n]. destruct Hp as (Hw & Hc & _). exists lv'.
    split_and!; [done|done|by rw Hc Hc0].
  - intros He. rw H2 //. by eexists.
Qed.

(** ** The sorted-set codec *)

(** The bounds of an encoded member. *)
Lemma encodeMembers_length ms out : encodeMembers ms = inl out -> 12 * Z.of_nat (length ms) <= slen out.
Proof.
  revert out; induction ms as [|m ms IH]; intros out; cbn [encodeMembers]; [by intros [= <-]|].
  destruct (_ <? _); [done|]. destruct (encodeMembers ms) as [out'|]; [|done]. intros [= <-].
  specialize (IH _ eq_refl). rw (slen_app (putBE _ _)) (slen_app (putBE _ _)) !slen_put (slen_app m.2).
  pose proof (slen_nonneg m.2). simpl length. lia.
Qed.

(** Adding the members of a sorted set in order rebuilds it. *)
Lemma zinsert_last p l :
  (forall x, x ∈ l -> mltp x p /\ IsNaN x.1 = false) -> IsNaN p.1 = false -> zinsert p l = l ++ [p].
Proof.
  intros Hl Hp. induction l as [|x l IH]; [done|]. simpl. destruct (Hl x) as [Hx Hn]; [by left|].
  apply mlt_mltp_pair in Hx as ->; [|done..]. f_equal. apply IH. intros y Hy. apply Hl. by right.
Qed.

Lemma zadd_last l p ms :
  zseq_ok (l ++ p :: ms) -> zadd p l = (l ++ [p], true).
Proof.
  intros [Hs Hu Hn]. unfold zadd. rw fmap_app in Hu. apply NoDup_app in Hu as (_ & Hd & _).
  assert (zmap l !! p.2 = None) as ->.
  { apply zmap_None. intros Hp. apply (Hd _ Hp). by left. }
  f_equal. apply zinsert_last; [|apply Hn, elem_of_app; by right; left].
  intros x Hx. split; [|apply Hn, elem_of_app; by left].
  apply (StronglySorted_app_1_elem_of mltp l (p :: ms)) with (x1 := x) (x2 := p) in Hs; [done|done|by left].
Qed.

Section zset_codec.
Context (lvls : nat -> nat) (Hlv : forall k, (1 <= lvls k <= skipListMaxLevel)%nat).

(** Whatever the bytes, decoding does not panic and gives a well-formed
    sorted set or an error. *)
Lemma decodeMembers_total n i r z :
  zset_ok z -> exists res, decodeMembers lvls n i r z = Some res /\
    match res with inl (z', _) => zset_ok z' | inr _ => True end.
Proof.
  revert i r z; induction n as [|n IH]; intros i r z Hz; cbn [decodeMembers]; [by eexists|].
  destruct (readBE 8 r) as [[bits r1]|]; [|by eexists]. cbv zeta.
  destruct (IsNaN (Float64frombits bits)) eqn:Hn; [by eexists|].
  destruct (readLengthPrefixed r1) as [[m r2]|e]; [|by eexists].
  destruct (Add_spec z (lvls i) (Float64frombits bits) m Hz Hn (Hlv i)) as (z1 & b & -> & Hz1 & _).
  cbn [mbind option_bind]. by apply IH.
Qed.

Lemma decodeZSetValue_total raw :
  exists res, decodeZSetValue lvls raw = Some res /\ match res with inl z => zset_ok z | inr _ => True end.
Proof.
  unfold decodeZSetValue. destruct (readBE 4 raw) as [[count r]|]; [|by eexists].
  destruct (_ <? _); [by eexists|].
  destruct (decodeMembers_total (Z.to_nat count) 0 r NewZSetValue) as (res & -> & Hres); [apply NewZSetValue_ok|].
  cbn [mbind option_bind]. eexists; split; [done|]. destruct res as [[z r']|e]; [|done]. by destruct (negb _).
Qed.

Lemma decodeMembers_encode ms i out z :
  encodeMembers ms = inl out -> zset_ok z -> zseq_ok (zelems z ++ ms) ->
  Forall (fun m => is_float64 m.1 = true) ms -> ~ ends_empty ms.*2 ->
  exists z', decodeMembers lvls (length ms) i out z = Some (inl (z', "")) /\ zset_ok z' /\
    zelems z' = zelems z ++ ms.
Proof.
  revert i out z; induction ms as [|[sc m] ms IH]; intros i out z; cbn [encodeMembers].
  { intros [= <-] Hz _ _ _. exists z. by rw app_nil_r. }
  cbn [fst snd]. destruct (Z.ltb_spec maxUint32 (slen m)); [done|].
  destruct (encodeMembers ms) as [out'|] eqn:Hout; [|done]. intros [= <-] Hz Hok Hf Hne.
  apply Forall_cons in Hf as [Hsc Hf]. cbn [fst] in Hsc.
  assert (IsNaN sc = false) as Hn by (apply (zseq_nan _ Hok (sc, m)), elem_of_app; by right; left).
  cbn [length decodeMembers]. rw readBE_put; [apply Float64bits_range in Hsc; lia|].
  cbv zeta. rw Float64frombits_bits // Hn readLengthPrefixed_put; [lia|].
  assert ((slen m + slen out' =? 0) = false) as ->.
  { apply Z.eqb_neq. pose proof (slen_nonneg m). pose proof (slen_nonneg out'). intros Hz0. apply Hne.
    assert (m = "") as -> by (apply slen_nil_inv; lia). apply encodeMembers_length in Hout.
    destruct ms; [done|]. simpl length in Hout. lia. }
  destruct (Add_spec z (lvls i) sc m Hz Hn (Hlv i)) as (z1 & b & -> & Hz1 & Hadd).
  rw (zadd_last _ _ ms Hok) in Hadd. injection Hadd as Hel <-. cbn [mbind option_bind].
  destruct (IH (S i) out' z1 eq_refl Hz1) as (z' & -> & Hz' & Hel').
  - by rw -Hel -app_assoc.
  - done.
  - intros He. apply Hne. simpl. rw ends_empty_cons //. by destruct ms.
  - exists z'. split_and!; [done..|]. by rw Hel' -Hel -app_assoc.
Qed.

Lemma decodeZSetValue_encode z raw :
  zset_ok z -> encodeZSetValue z = Some (inl raw) -> Forall (fun m => is_float64 m.1 = true) (zelems z) ->
  ~ ends_empty (zelems z).*2 ->
  exists z', decodeZSetValue lvls raw = Some (inl z') /\ zset_ok z' /\ zelems z' = zelems z.
Proof.
  intros Hz He Hf Hne. unfold encodeZSetValue, ZRange in He. rw SkipRange_spec in He; [apply Hz|].
  rw zrange_full in He. cbn [mbind option_bind] in He. fold (zelems z) in He.
  destruct (Z.ltb_spec maxUint32 (Z.of_nat (length (zelems z)))); [done|].
  destruct (encodeMembers (zelems z)) as [out|] eqn:Hout; [|done]. injection He as <-.
  pose proof (encodeMembers_length _ _ Hout) as Hol. unfold decodeZSetValue, u32. unfold maxUint32 in *.
  rw Z.mod_small; [lia|]. rw readBE_put; [lia|]. destruct (Z.ltb_spec (slen out / 12) (Z.of_nat (length (zelems z)))).
  { pose proof (Z.div_le_lower_bound (slen out) 12 (Z.of_nat (length (zelems z)))). lia. }
  rw Nat2Z.id. destruct NewZSetValue_ok as [Hz0 Hel0].
  destruct (decodeMembers_encode (zelems z) 0 out NewZSetValue Hout Hz0) as (z' & -> & Hz' & Hel'); [|done..|].
  { rw Hel0. apply Hz. }
  exists z'. rw Hel0 in Hel'. by split_and!.
Qed.
End zset_codec.

(** ** Values *)

(** The values whose encoding can be read back: the lengths fit the 32-bit
    fields, scores are floats, and the last string is not empty. *)
Definition fits32 (l : list string) : Prop :=
  Z.of_nat (length l) <= maxUint32 /\ Forall (fun v => slen v <= maxUint32) l /\ ~ ends_empty l.
Definition saveable (v : aval) : Prop :=
  match v with
  | AStr _ => True
  | AList l => fits32 l
  | AZSet l => fits32 l.*2 /\ Forall (fun m => is_float64 m.1 = true) l
  end.

(** The encoding as a function of the abstract value. *)
Definition encoded (v : aval) : string :=
  match v with
  | AStr d => d
  | AList l => match encodeItems l with inl out => putBE 4 (Z.of_nat (length l)) +:+ out | inr _ => "" end
  | AZSet l => match encodeMembers l with inl out => putBE 4 (Z.of_nat (length l)) +:+ out | inr _ => "" end
  end.

Lemma encodeItems_ok l : Forall (fun v => slen v <= maxUint32) l -> exists out, encodeItems l = inl out.
Proof.
  induction 1 as [|v l Hv _ [out IH]]; [by eexists|]. cbn [encodeItems].
  destruct (Z.ltb_spec maxUint32 (slen v)); [lia|]. rw IH. by eexists.
Qed.
Lemma encodeMembers_ok l : Forall (fun v => slen v <= maxUint32) l.*2 -> exists out, encodeMembers l = inl out.
Proof.
  induction l as [|[sc m] l IH]; [by eexists|]. intros [Hm Hl]%Forall_cons. cbn [encodeMembers fst snd].
  destruct (Z.ltb_spec maxUint32 (slen m)); [simpl in Hm; lia|]. destruct (IH Hl) as [out ->]. by eexists.
Qed.

Lemma encodeSnapshotValue_ok key e :
  entry_ok key e -> saveable (abs_value (EValue e)) ->
  encodeSnapshotValue e = Some (inl (encoded (abs_value (EValue e)))).
Proof.
  intros [_ Ht Hv _]. unfold encodeSnapshotValue. rw Ht. unfold maxUint32.
  destruct (EValue e) as [d|lv|zv]; simpl in Hv |- *; [done| |].
  - intros (Hlen & Hall & _). unfold encodeListValue. rw (contents_len lv) //.
    destruct (Z.ltb_spec maxUint32 (Z.of_nat (length (contents lv)))); [lia|].
    destruct (encodeItems_ok (contents lv) Hall) as [out ->]. unfold u32. rw Z.mod_small //. unfold maxUint32 in *. lia.
  - intros ((Hlen & Hall & _) & _). rw length_fmap in Hlen.
    unfold encodeZSetValue, ZRange. rw SkipRange_spec; [apply Hv|]. rw zrange_full. cbn [mbind option_bind]. fold (zelems zv).
    destruct (Z.ltb_spec maxUint32 (Z.of_nat (length (zelems zv)))); [lia|].
    destruct (encodeMembers_ok (zelems zv) Hall) as [out ->]. unfold u32. rw Z.mod_small //. unfold maxUint32 in *. lia.
Qed.

Lemma encodeSnapshotValue_total key e : entry_ok key e -> is_Some (encodeSnapshotValue e).
Proof.
  intros [_ Ht Hv _]. unfold encodeSnapshotValue. rw Ht. destruct (EValue e) as [d|lv|zv]; simpl in Hv |- *; [done..|].
  unfold encodeZSetValue, ZRange. rw SkipRange_spec; [apply Hv|]. by rw zrange_full.
Qed.

(** The snapshot entry of a store entry. *)
Definition snapOf (e : Entry) : SnapEntry :=
  mkSnapEntry (EKey e) (ValueTypeName (EType e)) (encoded (abs_value (EValue e))) (SizeBytes e) (ExpiresAtNs e).

Section restore.
Context (lvls : nat -> nat -> nat) (Hlv : forall i k, (1 <= lvls i k <= skipListMaxLevel)%nat).

(** Reading back the encoding of a value. *)
Lemma decodeSnapshotValue_encoded i key e :
  entry_ok key e -> saveable (abs_value (EValue e)) ->
  exists v, decodeSnapshotValue (lvls i) (snapOf e) = Some (inl (EType e, v, entry_size key v)) /\
    value_ok v /\ abs_value v = abs_value (EValue e).
Proof.
  intros Hok Hsave. pose proof (encodeSnapshotValue_ok key e Hok Hsave) as Henc. destruct Hok as [Hk Ht Hv Hsz].
  unfold decodeSnapshotValue, snapOf, encodeSnapshotValue in *. cbn [SKey SValueType SValue]. rw Ht in Henc |- *. rw Hk.
  destruct (EValue e) as [d|lv|zv]; simpl in Hv, Hsave, Henc |- *.
  - by exists (StringValue d).
  - injection Henc as Henc. destruct Hsave as (_ & _ & Hne).
    destruct (decodeListValue_encode lv _ Hv Henc) as [Hd _]. destruct (Hd Hne) as (lv' & -> & Hw & Hc).
    exists (ListV lv'). simpl. by rw Hc.
  - destruct Hsave as ((_ & _ & Hne) & Hf).
    destruct (decodeZSetValue_encode (lvls i) (Hlv i) zv _ Hv Henc Hf Hne) as (z' & -> & Hz' & Hel).
    exists (ZSetV z'). simpl. by rw Hel.
Qed.

Lemma decodeSnapshotEntry_snapOf i now e :
  entry_ok (EKey e) e -> saveable (abs_value (EValue e)) ->
  exists e', decodeSnapshotEntry (lvls i) (snapOf e) now = Some (inl e') /\ entry_ok (EKey e) e' /\
    abs_entry e' = abs_entry e /\ SizeBytes e' = SizeBytes e.
Proof.
  intros Hok Hsave. destruct (decodeSnapshotValue_encoded i _ e Hok Hsave) as (v & Hd & Hv & Ha).
  unfold decodeSnapshotEntry. rw Hd. cbn [mbind option_bind snapOf SKey SApproxSize SExpiresAtNs].
  pose proof (ok_size _ _ Hok) as Hsz. pose proof Hok as [_ Ht Hv0 _].
  assert (entry_size (EKey e) v = SizeBytes e) as Heq by by rw entry_size_abs // Ha -entry_size_abs.
  rw Heq Z.eqb_refl. eexists; split; [done|]. split_and!; [|by unfold abs_entry; simpl; rw Ha|done].
  split; [done| |done|done]. simpl. rw Ht. by destruct v, (EValue e).
Qed.

(** Whatever is restored is well formed. *)
Lemma decodeSnapshotEntry_total i now item :
  exists res, decodeSnapshotEntry (lvls i) item now = Some res /\
    match res with
    | inl e => entry_ok (SKey item) e /\ EKey e = SKey item /\ ExpiresAtNs e = SExpiresAtNs item /\ 0 <= SizeBytes e
    | inr _ => True
    end.
Proof.
  unfold decodeSnapshotEntry, decodeSnapshotValue.
  assert (forall ty v, type_of v = ty -> value_ok v -> exists res,
    Some (if negb (entry_size (SKey item) v =? SApproxSize item)
          then inr (errKey (SKey item) (errSizeMismatch (SApproxSize item) (entry_size (SKey item) v)))
          else inl (newEntry (SKey item) ty v (SApproxSize item) (SExpiresAtNs item) now)) = Some res /\
    match res with
    | inl e => entry_ok (SKey item) e /\ EKey e = SKey item /\ ExpiresAtNs e = SExpiresAtNs item /\ 0 <= SizeBytes e
    | inr _ => True
    end) as Hgo.
  { intros ty v <- Hv. eexists; split; [done|]. destruct (Z.eqb_spec (entry_size (SKey item) v) (SApproxSize item)) as [Hs|]; [|done].
    simpl. rw -Hs entry_size_abs //. split_and!; [|done|done|apply asize_range]. split; [done..|]. simpl. by rw entry_size_abs. }
  destruct (String.eqb _ "string"); [by apply (Hgo _ (StringValue (SValue item)))|].
  destruct (String.eqb _ "list").
  - cbn [mbind option_bind]. destruct (decodeListValue (SValue item)) as [lv|e] eqn:Hd; [|by eexists].
    apply (Hgo _ (ListV lv)); [done|]. unfold decodeListValue in Hd.
    destruct (readBE 4 (SValue item)) as [[n r]|]; [|done]. destruct (_ <? _); [done|].
    destruct (decodeItems (Z.to_nat n) 0 r) as [[items r']|]; [|done]. destruct (negb _); [done|].
    pose proof (RPush_spec NewListValue items (proj1 NewListValue_wf)) as Hp. injection Hd as <-.
    change (list_wf (RPush NewListValue items).1). destruct (RPush NewListValue items). by destruct Hp.
  - destruct (String.eqb _ "zset"); [|by eexists].
    destruct (decodeZSetValue_total (lvls i) (Hlv i) (SValue item)) as (res & -> & Hres). cbn [mbind option_bind].
    destruct res as [z|e]; [|by eexists]. by apply (Hgo _ (ZSetV z)).
Qed.

Definition esize (es : list Entry) : Z := foldr (fun e n => SizeBytes e + n) 0 es.

Lemma restoreLoop_total now i items seen total :
  0 <= total <= maxUint64 ->
  exists res, restoreLoop lvls now i items seen total = Some res /\
    match res with
    | inl (es, total') => total' = total + esize es /\ 0 <= total' <= maxUint64 /\ NoDup (EKey <$> es) /\
        Forall (fun e => entry_ok (EKey e) e /\ IsExpired e now = false /\ EKey e ∉ seen) es
    | inr _ => True
    end.
Proof.
  revert i seen total; induction items as [|item items IH]; intros i seen total Ht; cbn [restoreLoop].
  { eexists; split; [done|]. simpl. split_and!; [lia|lia|lia|constructor|constructor]. }
  destruct (bool_decide (SKey item ∈ seen)) eqn:Hseen; [by eexists|]. apply bool_decide_eq_false in Hseen. cbv zeta.
  assert (forall es, Forall (fun e => entry_ok (EKey e) e /\ IsExpired e now = false /\ EKey e ∉ {[SKey item]} ∪ seen) es ->
    Forall (fun e => entry_ok (EKey e) e /\ IsExpired e now = false /\ EKey e ∉ seen) es /\ SKey item ∉ EKey <$> es) as Hweak.
  { intros es Hes. split.
    - eapply Forall_impl; [exact Hes|]. intros e (H1 & H2 & H3). split_and!; [done..|]. set_solver.
    - rw list_elem_of_fmap. intros (e & Hek & He). rw Forall_forall in Hes. destruct (Hes e He) as (_ & _ & Hn). set_solver. }
  destruct (_ && _) eqn:Hexp.
  { destruct (IH (S i) ({[SKey item]} ∪ seen) total Ht) as (res & -> & Hres). eexists; split; [done|].
    destruct res as [[es t']|]; [|done]. destruct Hres as (H1 & H2 & H3 & H4). do 3 (split; [done|]). by apply Hweak. }
  destruct (decodeSnapshotEntry_total i now item) as (res & -> & Hres). cbn [mbind option_bind].
  destruct res as [e|]; [|by eexists]. destruct Hres as (Hok & Hk & Hx & Hs0).
  destruct (Z.ltb_spec (maxUint64 - total) (SizeBytes e)); [by eexists|].
  destruct (IH (S i) ({[SKey item]} ∪ seen) (total + SizeBytes e)) as (res & -> & Hres); [lia|]. cbn [mbind option_bind].
  eexists; split; [done|]. destruct res as [[es t']|]; [|done]. destruct Hres as (H1 & H2 & H3 & H4).
  apply Hweak in H4 as [H4 H5]. simpl. rw Hk. split_and!; [lia|lia|lia|by constructor|].
  constructor; [|done]. rw Hk. split_and!; [done| |done]. unfold IsExpired. by rw Hx.
Qed.
End restore.

Definition in_range (lvls : nat -> nat) : Prop := forall k, (1 <= lvls k <= skipListMaxLevel)%nat.
Definition kind {A} (r : A + SnapErr) : option SnapErr := match r with inl _ => None | inr e => Some e end.

(** Whether entries are accepted does not depend on the levels that are drawn. *)
Lemma decodeMembers_levels lv1 lv2 n i r z1 z2 :
  in_range lv1 -> in_range lv2 -> zset_ok z1 -> zset_ok z2 -> zelems z1 = zelems z2 ->
  exists r1 r2, decodeMembers lv1 n i r z1 = Some r1 /\ decodeMembers lv2 n i r z2 = Some r2 /\
    match r1, r2 with
    | inl (z1, s1), inl (z2, s2) => zset_ok z1 /\ zset_ok z2 /\ zelems z1 = zelems z2 /\ s1 = s2
    | inr e1, inr e2 => e1 = e2
    | _, _ => False
    end.
Proof.
  intros Hl1 Hl2. revert i r z1 z2; induction n as [|n IH]; intros i r z1 z2 Hz1 Hz2 Heq; cbn [decodeMembers]; [by eexists _, _|].
  destruct (readBE 8 r) as [[bits r1]|]; [|by eexists _, _]. cbv zeta.
  destruct (IsNaN (Float64frombits bits)) eqn:Hn; [by eexists _, _|].
  destruct (readLengthPrefixed r1) as [[m r2]|e]; [|by eexists _, _].
  destruct (Add_spec z1 (lv1 i) (Float64frombits bits) m Hz1 Hn (Hl1 i)) as (z1' & b1 & -> & Hz1' & Ha1).
  destruct (Add_spec z2 (lv2 i) (Float64frombits bits) m Hz2 Hn (Hl2 i)) as (z2' & b2 & -> & Hz2' & Ha2).
  cbn [mbind option_bind]. apply IH; [done..|]. rw Heq in Ha1. congruence.
Qed.
Lemma decodeSnapshotEntry_levels lv1 lv2 item now now' :
  in_range lv1 -> in_range lv2 ->
  exists r1 r2, decodeSnapshotEntry lv1 item now = Some r1 /\ decodeSnapshotEntry lv2 item now' = Some r2 /\ kind r1 = kind r2.
Proof.
  intros H1 H2. unfold decodeSnapshotEntry, decodeSnapshotValue.
  destruct (String.eqb _ "string"); [cbn [mbind option_bind]; destruct (negb _); by eexists _, _|].
  destruct (String.eqb _ "list"); [cbn [mbind option_bind]; destruct (decodeListValue _); [destruct (negb _)|]; by eexists _, _|].
  destruct (String.eqb _ "zset"); [|by eexists _, _]. unfold decodeZSetValue.
  destruct (readBE 4 (SValue item)) as [[count r]|]; [|by eexists _, _]. destruct (_ <? _); [by eexists _, _|].
  destruct NewZSetValue_ok as [Hok _].
  destruct (decodeMembers_levels lv1 lv2 (Z.to_nat count) 0 r NewZSetValue NewZSetValue H1 H2 Hok Hok eq_refl) as (r1 & r2 & -> & -> & Hm).
  destruct r1 as [[z1 s1]|e1], r2 as [[z2 s2]|e2]; [|done|done|subst; by eexists _, _]. destruct Hm as (Hz1 & Hz2 & He & <-).
  cbn [mbind option_bind]. destruct (negb (slen s1 =? 0)); [by eexists _, _|].
  rw (zsetEntrySize_eq _ z1) // (zsetEntrySize_eq _ z2) // He. destruct (negb _); by eexists _, _.
Qed.
Lemma validateLoop_levels lv1 lv2 i j items seen :
  (forall i, in_range (lv1 i)) -> (forall i, in_range (lv2 i)) ->
  exists r, validateLoop lv1 i items seen = Some r /\ validateLoop lv2 j items seen = Some r.
Proof.
  intros H1 H2. revert i j seen; induction items as [|item items IH]; intros i j seen; cbn [validateLoop]; [by eexists|].
  destruct (bool_decide _); [by eexists|].
  destruct (decodeSnapshotEntry_levels (lv1 i) (lv2 j) item 0 0 (H1 i) (H2 j)) as (r1 & r2 & -> & -> & Hk).
  cbn [mbind option_bind]. destruct r1, r2; [by apply IH|done|done|]. injection Hk as ->. by eexists.
Qed.
Lemma validateLoop_snapOf lvls i es seen :
  (forall i, in_range (lvls i)) -> NoDup (EKey <$> es) -> (forall e, e ∈ es -> EKey e ∉ seen) ->
  Forall (fun e => entry_ok (EKey e) e /\ saveable (abs_value (EValue e))) es ->
  validateLoop lvls i (snapOf <$> es) seen = Some None.
Proof.
  intros Hlv. revert i seen; induction es as [|e es IH]; intros i seen Hnd Hseen Hall; [done|]. cbn [fmap list_fmap validateLoop].
  apply NoDup_cons in Hnd as [Hni Hnd]. apply Forall_cons in Hall as [[Hok Hs] Hall].
  rw bool_decide_eq_false_2; [by apply Hseen; left|].
  destruct (decodeSnapshotEntry_snapOf lvls Hlv i 0 e Hok Hs) as (e' & -> & _). cbn [mbind option_bind]. apply IH; [done| |done].
  intros x Hx. rw elem_of_union elem_of_singleton. intros [Hk|Hk].
  - apply Hni. change (EKey x = EKey e) in Hk. rw -Hk. by apply list_elem_of_fmap_2.
  - by eapply Hseen; [right|].
Qed.

(** ** Replacing the whole store *)

Definition emptied (s : Store) : Store := mkStore ((fun _ => ∅) <$> stripes s) (mask s) (powerTwo s) 0.

Lemma emptied_rep s : store_shape s -> store_rep (emptied s) ∅.
Proof.
  intros Hsh. split.
  - apply (shape_route s); [|done]. unfold same_route. simpl. by rw length_fmap.
  - intros i m k Hm. simpl in Hm. rw list_lookup_fmap in Hm. destruct (stripes s !! i); simplify_eq/=.
    rw lookup_empty. by case_decide.
  - intros k e Hk. by rw lookup_empty in Hk.
  - unfold total. by rw msum_empty.
Qed.

Definition keyed (es : list Entry) : gmap string Entry := list_to_map ((fun e => (EKey e, e)) <$> es).

Lemma keyed_None es k : k ∉ EKey <$> es -> keyed es !! k = None.
Proof. intros Hk. apply not_elem_of_list_to_map. by rw -list_fmap_compose. Qed.

(** Storing fresh entries one by one; [u] is what the accounting would say. *)
Lemma storeAll_rep es s g u :
  store_rep (setUsed s u) g -> NoDup (EKey <$> es) -> Forall (fun e => entry_ok (EKey e) e) es ->
  (forall k, k ∈ EKey <$> es -> g !! k = None) ->
  exists s', foldl (fun s e => s ← s; st ← stripeFor s (EKey e); Some (storeE s st (EKey e) e)) (Some s) es = Some s' /\
    store_rep (setUsed s' (u64 (u + esize es))) (keyed es ∪ g).
Proof.
  revert s g u; induction es as [|e es IH]; intros s g u Hrep Hnd Hok Hnew; cbn [foldl].
  { exists s. split; [done|]. unfold keyed. rw /= left_id_L. pose proof (rep_used _ _ Hrep) as Hu. simpl in Hu.
    by rw Z.add_0_r Hu u64_idemp -Hu. }
  rw fmap_cons in Hnd, Hnew. apply NoDup_cons in Hnd as [Hne Hnd]. apply Forall_cons in Hok as [Hoke Hok].
  destruct (stripeFor_shape (setUsed s u) (EKey e) (rep_shape _ _ Hrep)) as (st & Hst & _).
  change (stripeFor (setUsed s u) (EKey e)) with (stripeFor s (EKey e)) in Hst. cbn [mbind option_bind]. rw Hst. cbn [mbind option_bind].
  destruct (IH (storeE s st (EKey e) e) (<[EKey e := e]> g) (u64 (u + SizeBytes e))) as (s' & Hs' & Hrep'); [|done|done| |].
  - eapply (rep_insert (setUsed s u) g Hrep (EKey e) st); [done| |done|done|].
    + apply (route_alter (setUsed s u)).
    + rw (Hnew (EKey e)); [by left|]. simpl. f_equal. lia.
  - intros k Hk. rw lookup_insert_ne; [by intros <-|]. apply Hnew. by right.
  - exists s'. split; [done|]. rw u64_add_l in Hrep'. cbn [esize foldr]. fold (esize es). rw Z.add_assoc.
    assert (keyed (e :: es) ∪ g = keyed es ∪ <[EKey e := e]> g) as ->; [|done].
    rw -insert_union_r; [by apply keyed_None|]. by rw insert_union_l.
Qed.

Lemma esize_total es : NoDup (EKey <$> es) -> total (keyed es) = esize es.
Proof.
  induction es as [|e es IH]; [done|]. rw fmap_cons. intros [Hne Hnd]%NoDup_cons.
  change (keyed (e :: es)) with (<[EKey e := e]> (keyed es)). unfold total.
  rw msum_insert_fresh; [by apply keyed_None|]. fold (total (keyed es)). rw IH //.
Qed.

Lemma replaceAll_rep s es :
  store_shape s -> NoDup (EKey <$> es) -> Forall (fun e => entry_ok (EKey e) e) es -> 0 <= esize es <= maxUint64 ->
  exists s', replaceAll s es (esize es) = Some s' /\ store_rep s' (keyed es).
Proof.
  intros Hsh Hnd Hok Hsz. unfold replaceAll.
  destruct (storeAll_rep es (mkStore ((fun _ => ∅) <$> stripes s) (mask s) (powerTwo s) (usedBytes s)) ∅ 0) as (s' & -> & Hrep);
    [by apply (emptied_rep s)|done|done|by intros; apply lookup_empty|].
  cbn [mbind option_bind]. exists (setUsed s' (esize es)). split; [done|]. rw right_id_L Z.add_0_l u64_small in Hrep; [|done].
  unfold maxUint64 in Hsz. lia.
Qed.

(** ** Snapshot and restore of the abstract map *)

Lemma abs_keyed es : abs (keyed es) = list_to_map ((fun e => (EKey e, abs_entry e)) <$> es).
Proof. unfold abs, keyed. rw -list_to_map_fmap -list_fmap_compose. done. Qed.

(** Restoring arbitrary entries: no panic; an error leaves the store alone,
    and success gives a store that represents some map within the limit. *)
Section restore_total.
Context (lvls : nat -> nat -> nat) (Hlv : forall i k, (1 <= lvls i k <= skipListMaxLevel)%nat).

Lemma restoreLoop_sound now i items seen total es total' :
  0 <= total <= maxUint64 -> restoreLoop lvls now i items seen total = Some (inl (es, total')) ->
  total' = total + esize es /\ 0 <= total' <= maxUint64 /\ NoDup (EKey <$> es) /\
  Forall (fun e => entry_ok (EKey e) e /\ IsExpired e now = false) es.
Proof.
  intros Ht Hr. destruct (restoreLoop_total lvls Hlv now i items seen total Ht) as (res & Hres & Hm).
  rw Hr in Hres. injection Hres as <-. destruct Hm as (H1 & H2 & H3 & H4). do 3 (split; [done|]).
  eapply Forall_impl; [exact H4|]. by intros e (H5 & H6 & _).
Qed.

Lemma Restore_total limit s kv items now :
  store_kv s kv ->
  exists r s', RestoreSnapshotEntries limit lvls s items now = Some (r, s') /\
    match r with
    | inr _ => s' = s
    | inl n => exists kv', store_kv s' kv' /\ Z.of_nat (size kv') = n /\ (forall k x, kv' !! k = Some x -> kexpired now x = false) /\
        usedBytes s' = ktotal kv' /\ (0 < limit -> ktotal kv' <= limit)
    end.
Proof.
  intros (g & Hrep & _). unfold RestoreSnapshotEntries.
  destruct (restoreLoop_total lvls Hlv now 0 items ∅ 0) as (res & Hres & _); [done|]. rw Hres. cbn [mbind option_bind].
  destruct res as [[es t]|e]; [|by eexists _, _].
  apply restoreLoop_sound in Hres as (-> & Ht & Hnd & Hall); [|done]. rw Z.add_0_l in Ht |- *.
  destruct ((0 <? limit) && (limit <? esize es)) eqn:Hlim; [by eexists _, _|].
  assert (Forall (fun e => entry_ok (EKey e) e) es) as Hok by (eapply Forall_impl; [exact Hall|by intros e [? _]]).
  destruct (replaceAll_rep s es (rep_shape _ _ Hrep) Hnd Hok Ht) as (s' & -> & Hrep'). cbn [mbind option_bind].
  eexists _, _. split; [done|]. exists (abs (keyed es)). split; [by eexists|].
  assert (ktotal (abs (keyed es)) = esize es) as Hkt.
  { rw -total_abs; [apply (rep_ok _ _ Hrep')|]. by apply esize_total. }
  split_and!.
  - unfold abs. rw map_size_fmap. unfold keyed. rw map_size_list_to_map; [by rw -list_fmap_compose|]. by rw length_fmap.
  - intros k x. rw abs_keyed. intros Hx%elem_of_list_to_map_2. apply list_elem_of_fmap in Hx as (e & [= -> ->] & He).
    rw Forall_forall in Hall. by apply Hall in He as [_ ?].
  - rw (rep_used _ _ Hrep') esize_total // Hkt. apply u64_small. unfold maxUint64 in Ht. lia.
  - intros Hl. rw Hkt. apply Z.ltb_lt in Hl. rw Hl /= in Hlim. by apply Z.ltb_ge in Hlim.
Qed.
End restore_total.

Lemma snapshotLoop_ok now es :
  Forall (fun e => entry_ok (EKey e) e /\ (IsExpired e now = false -> saveable (abs_value (EValue e)))) es ->
  snapshotLoop now es = Some (inl (snapOf <$> filter (fun e => IsExpired e now = false) es)).
Proof.
  induction 1 as [|e es [Hok Hsave] _ IH]; [done|]. cbn [snapshotLoop]. rw filter_cons.
  destruct (decide (IsExpired e now = false)) as [He|He]; [|by apply not_false_is_true in He as ->]. rw He.
  rw (encodeSnapshotValue_ok (EKey e)) //; [by apply Hsave|]. cbn [mbind option_bind]. by rw IH.
Qed.

(** The snapshot of a map: what [snapshotEntries] returns, as a function of
    the map alone. *)
Definition snapOfKV (p : string * (aval * Z)) : SnapEntry :=
  mkSnapEntry p.1 (ValueTypeName (akind p.2.1)) (encoded p.2.1) (asize p.1 p.2.1) p.2.2.
Definition kentry (e : Entry) : string * (aval * Z) := (EKey e, abs_entry e).
Definition live_at (now : Z) (kv : KV) : KV := filter (fun p => kexpired now p.2 = false) kv.

Lemma snapOf_kv e : entry_ok (EKey e) e -> snapOf e = snapOfKV (kentry e).
Proof.
  intros Hok. pose proof (entry_ok_kind _ _ Hok) as Ht. pose proof (entry_ok_size _ _ Hok) as Hs.
  unfold snapOf, snapOfKV, kentry. cbn [fst snd abs_entry]. by rw Ht Hs.
Qed.

Lemma snapLess_weak : strict_weak snapLess.
Proof. apply (strict_weak_on SKey), sltb_weak. Qed.

(** The live entries of a store, as the live part of the map. *)
Lemma scan_kentry s g now rng :
  store_rep s g -> range_ok rng -> kentry <$> scan s now rng ≡ₚ map_to_list (live_at now (abs g)).
Proof.
  intros Hrep Hrng. destruct (scan_spec s g now rng Hrep Hrng) as [Hnd Hin]. apply NoDup_Permutation.
  - apply (NoDup_fmap_1 fst). by rw -list_fmap_compose.
  - apply NoDup_map_to_list.
  - intros [k x]. rw elem_of_map_to_list list_elem_of_fmap. unfold live_at, abs. rw map_lookup_filter_Some lookup_fmap. split.
    + intros (e & [= -> ->] & He). apply Hin in He as [Hx Hg]. rw Hg. done.
    + intros [Hk Hx]. destruct (g !! k) as [e|] eqn:Hg; [|done]. injection Hk as <-. exists e.
      pose proof (ok_key _ _ (rep_ok _ _ Hrep _ _ Hg)) as Hek. split; [unfold kentry; by rw Hek|].
      apply Hin. by rw Hek.
Qed.

Definition savable_map (now : Z) (kv : KV) : Prop :=
  forall k x, kv !! k = Some x -> kexpired now x = false -> saveable x.1.

Section snapshots.
Context `{SliceSortOk}.

Definition snapshot_of (now : Z) (kv : KV) : list SnapEntry :=
  slice_sort snapLess (snapOfKV <$> map_to_list (live_at now kv)).

Lemma scan_ok s g now rng e :
  store_rep s g -> range_ok rng -> savable_map now (abs g) -> e ∈ scan s now rng ->
  entry_ok (EKey e) e /\ saveable (abs_value (EValue e)).
Proof.
  intros Hrep Hrng Hsave He. apply (scan_spec s g now rng Hrep Hrng) in He as [Hx Hg].
  split; [by apply (rep_ok _ _ Hrep)|]. apply (Hsave (EKey e) (abs_entry e)); [|done].
  unfold abs. by rw lookup_fmap Hg.
Qed.

Lemma snapshotEntries_scan s g now rng :
  store_rep s g -> range_ok rng -> savable_map now (abs g) ->
  snapshotEntries s now rng = Some (inl (slice_sort snapLess (snapOf <$> scan s now rng))).
Proof.
  intros Hrep Hrng Hsave. unfold snapshotEntries. rw snapshotLoop_ok //.
  apply Forall_forall. intros e He. assert (g !! EKey e = Some e) as Hg.
  { apply list_elem_of_join in He as (es & He & (m & -> & Hm)%list_elem_of_fmap).
    rw (Hrng m) list_elem_of_fmap in He. destruct He as ([k e'] & -> & Hke%elem_of_map_to_list). simpl.
    apply list_elem_of_lookup in Hm as [i Hi]. rw (rep_stripes _ _ Hrep _ _ k Hi) in Hke. case_decide; [|done].
    by rw (ok_key _ _ (rep_ok _ _ Hrep _ _ Hke)). }
  split; [by apply (rep_ok _ _ Hrep)|]. intros Hx. apply (Hsave (EKey e) (abs_entry e)); [|done].
  unfold abs. by rw lookup_fmap Hg.
Qed.

(** Taking a snapshot does not panic. *)
Lemma snapshotEntries_total s kv now rng : store_kv s kv -> range_ok rng -> is_Some (snapshotEntries s now rng).
Proof.
  intros (g & Hrep & _) Hrng. unfold snapshotEntries.
  assert (Hall : Forall (fun e => is_Some (encodeSnapshotValue e)) (mjoin (rng <$> stripes s))).
  { apply Forall_forall. intros e (es & He & (m & -> & Hm)%list_elem_of_fmap)%list_elem_of_join.
    rw (Hrng m) list_elem_of_fmap in He. destruct He as ([k e'] & -> & Hke%elem_of_map_to_list).
    apply list_elem_of_lookup in Hm as [i Hi]. rw (rep_stripes _ _ Hrep _ _ k Hi) in Hke. case_decide; [|done].
    by eapply encodeSnapshotValue_total, (rep_ok _ _ Hrep). }
  assert (exists r, snapshotLoop now (mjoin (rng <$> stripes s)) = Some r) as [r ->]; [|by eexists].
  induction Hall as [|e es [r Hr] _ [rest IH]]; cbn [snapshotLoop]; [by eexists|].
  destruct (IsExpired e now); [by eexists|]. rw Hr. cbn [mbind option_bind]. destruct r; [|by eexists]. rw IH. by eexists.
Qed.

(** The snapshot depends on the map only: not on the stripes, nor on the
    order in which Go iterates over its maps. *)
Lemma snapshotEntries_spec s kv now rng :
  store_kv s kv -> range_ok rng -> savable_map now kv ->
  snapshotEntries s now rng = Some (inl (snapshot_of now kv)).
Proof.
  intros (g & Hrep & <-) Hrng Hsave. rw (snapshotEntries_scan s g) //. do 2 f_equal. unfold snapshot_of.
  assert (snapOf <$> scan s now rng = snapOfKV <$> (kentry <$> scan s now rng)) as ->.
  { rw -list_fmap_compose. apply list_fmap_ext. intros i e He. apply snapOf_kv.
    apply list_elem_of_lookup_2, (scan_ok s g now rng) in He as [? _]; done. }
  apply slice_sort_unique; [apply snapLess_weak| |by rw (scan_kentry s g)].
  intros x y (p & -> & Hp)%list_elem_of_fmap (q & -> & Hq)%list_elem_of_fmap H1 H2. f_equal.
  rw (scan_kentry s g) // in Hp, Hq. destruct p as [k x], q as [k' x'].
  assert (k = k') as <- by by apply sltb_total. apply elem_of_map_to_list in Hp, Hq. congruence.
Qed.
End snapshots.

Definition unexpired (now : Z) (es : list Entry) : list Entry := filter (fun e => IsExpired e now = false) es.

Lemma esize_nonneg es : Forall (fun e => entry_ok (EKey e) e) es -> 0 <= esize es.
Proof.
  induction 1 as [|e es He _ IH]; simpl; [lia|]. rw (entry_ok_size _ _ He).
  pose proof (asize_range (EKey e) (abs_value (EValue e))). lia.
Qed.

Lemma esize_cons e es : esize (e :: es) = SizeBytes e + esize es.
Proof. done. Qed.

Section round_trip.
Context (lvls : nat -> nat -> nat) (Hlv : forall i k, (1 <= lvls i k <= skipListMaxLevel)%nat).

Lemma restoreLoop_snap now i es seen total :
  NoDup (EKey <$> es) -> (forall e, e ∈ es -> EKey e ∉ seen) ->
  Forall (fun e => entry_ok (EKey e) e /\ saveable (abs_value (EValue e))) es ->
  0 <= total -> total + esize (unexpired now es) <= maxUint64 ->
  exists ds, restoreLoop lvls now i (snapOf <$> es) seen total = Some (inl (ds, total + esize (unexpired now es))) /\
    kentry <$> ds = kentry <$> unexpired now es.
Proof.
  revert i seen total; induction es as [|e es IH]; intros i seen total Hnd Hseen Hall Ht Hmax; cbn [fmap list_fmap restoreLoop].
  { exists []. split; [|done]. simpl. by rw Z.add_0_r. }
  rw fmap_cons in Hnd. apply NoDup_cons in Hnd as [Hne Hnd]. apply Forall_cons in Hall as [[Hok Hsave] Hall].
  cbn [snapOf SKey SExpiresAtNs]. fold (snapOf e). rw bool_decide_eq_false_2; [apply Hseen; by left|]. cbv zeta.
  change (negb (ExpiresAtNs e =? 0) && (ExpiresAtNs e <=? now)) with (IsExpired e now).
  assert (forall e', e' ∈ es -> EKey e' ∉ {[EKey e]} ∪ seen) as Hseen'.
  { intros e' He'. rw elem_of_union elem_of_singleton. intros [Hk|Hk]; [|by eapply Hseen; [right|]].
    apply Hne. rw -Hk. by apply list_elem_of_fmap_2. }
  assert (0 <= esize (unexpired now es)) as Hnn.
  { apply esize_nonneg. apply Forall_forall. intros x Hx. apply list_elem_of_filter in Hx as [_ Hx].
    rw Forall_forall in Hall. by apply Hall. }
  unfold unexpired in Hmax |- *. rw filter_cons in Hmax |- *.
  destruct (decide (IsExpired e now = false)) as [He|He].
  - rw He. destruct (decodeSnapshotEntry_snapOf lvls Hlv i now e Hok Hsave) as (e' & -> & Hok' & Habs & Hsz).
    rw esize_cons in Hmax |- *. fold (unexpired now es) in Hmax |- *. cbn [mbind option_bind].
    pose proof (entry_ok_size _ _ Hok) as Hsize. pose proof (asize_range (EKey e) (abs_value (EValue e))).
    rw Hsz. destruct (Z.ltb_spec (maxUint64 - total) (SizeBytes e)); [lia|].
    destruct (IH (S i) ({[EKey e]} ∪ seen) (total + SizeBytes e)) as (ds & -> & Hds); [done..|lia|lia|].
    cbn [mbind option_bind]. exists (e' :: ds). split; [by rw Z.add_assoc|].
    rw !fmap_cons Hds. f_equal. unfold kentry. by rw Habs (ok_key _ _ Hok').
  - apply not_false_is_true in He as ->. by apply IH.
Qed.

(** Restoring a permutation of the snapshot entries of a store. *)
Lemma Restore_snap limit s2 kv2 es now :
  store_kv s2 kv2 -> NoDup (EKey <$> es) ->
  Forall (fun e => entry_ok (EKey e) e /\ saveable (abs_value (EValue e))) es ->
  esize (unexpired now es) <= maxUint64 -> limit <= 0 \/ esize (unexpired now es) <= limit ->
  exists n s', RestoreSnapshotEntries limit lvls s2 (snapOf <$> es) now = Some (inl n, s') /\
    store_kv s' (list_to_map (kentry <$> unexpired now es)).
Proof.
  intros (g2 & Hrep2 & _) Hnd Hall Hmax Hlim.
  destruct (restoreLoop_snap now 0 es ∅ 0 Hnd) as (ds & Hr & Hds); [by intros e _; apply not_elem_of_empty|done|done|lia|].
  unfold RestoreSnapshotEntries. rw Hr. cbn [mbind option_bind].
  apply (restoreLoop_sound lvls Hlv) in Hr as (Hsz & Ht & Hnd' & Hok'); [|done]. rw Z.add_0_l in Hsz, Ht |- *.
  assert ((0 <? limit) && (limit <? esize (unexpired now es)) = false) as ->.
  { destruct (Z.ltb_spec 0 limit); simpl; [|done]. apply Z.ltb_ge. lia. }
  rw Hsz in Ht |- *. rw Z.add_0_l in Ht |- *. destruct (replaceAll_rep s2 ds (rep_shape _ _ Hrep2) Hnd') as (s' & -> & Hrep'); [|done|].
  { eapply Forall_impl; [exact Hok'|]. by intros e [? _]. }
  cbn [mbind option_bind]. eexists _, _. split; [done|]. exists (keyed ds). split; [done|].
  by rw abs_keyed -Hds.
Qed.
End round_trip.

(** The entries of a snapshot are those of store entries with distinct keys,
    the live ones. *)
Lemma snapshot_items `{SliceSortOk} s kv now rng :
  store_kv s kv -> range_ok rng -> savable_map now kv ->
  exists es, snapshotEntries s now rng = Some (inl (snapOf <$> es)) /\ NoDup (EKey <$> es) /\
    Forall (fun e => entry_ok (EKey e) e /\ saveable (abs_value (EValue e))) es /\
    Forall (fun e => live_at now kv !! EKey e = Some (abs_entry e)) es.
Proof.
  intros (g & Hrep & <-) Hrng Hsave. rw (snapshotEntries_scan s g) //. destruct (scan_spec s g now rng Hrep Hrng) as [Hnd Hin].
  destruct (Permutation_map_inv snapOf _ (slice_sort_perm _ snapLess (snapOf <$> scan s now rng))) as (es & Hes & Hp).
  exists es. split; [do 2 f_equal; exact Hes|]. split; [by rw -Hp|]. split.
  - apply Forall_forall. intros e He. rw -Hp in He. by eapply scan_ok.
  - apply Forall_forall. intros e He. rw -Hp in He. apply Hin in He as [Hx Hg]. unfold live_at, abs.
    apply map_lookup_filter_Some. rw lookup_fmap Hg. by split.
Qed.

Section round_trip_map.
Context `{SliceSortOk}.
Context (lvls : nat -> nat -> nat) (Hlv : forall i k, (1 <= lvls i k <= skipListMaxLevel)%nat).

Lemma snapshot_restore limit s kv rng s2 kv2 now now' :
  store_kv s kv -> range_ok rng -> savable_map now kv -> store_kv s2 kv2 ->
  ktotal kv <= maxUint64 -> limit <= 0 \/ ktotal kv <= limit ->
  exists items n s', snapshotEntries s now rng = Some (inl items) /\
    RestoreSnapshotEntries limit lvls s2 items now' = Some (inl n, s') /\
    store_kv s' (live_at now' (live_at now kv)).
Proof.
  intros (g & Hrep & <-) Hrng Hsave Hs2 Hmax Hlim. rw (snapshotEntries_scan s g) //.
  destruct (scan_spec s g now rng Hrep Hrng) as [Hnd Hin].
  destruct (Permutation_map_inv snapOf _ (slice_sort_perm _ snapLess (snapOf <$> scan s now rng))) as (es & Hes & Hp).
  change (slice_sort snapLess (snapOf <$> scan s now rng) = snapOf <$> es) in Hes.
  assert (Forall (fun e => entry_ok (EKey e) e /\ saveable (abs_value (EValue e))) es) as Hall.
  { apply Forall_forall. intros e He. rw -Hp in He. by eapply scan_ok. }
  assert (NoDup (EKey <$> es)) as Hnd' by by rw -Hp.
  assert (NoDup (EKey <$> unexpired now' es)) as Hnd2 by by apply NoDup_fmap_filter_key.
  assert (forall e, e ∈ unexpired now' es <-> (IsExpired e now = false /\ g !! EKey e = Some e) /\ IsExpired e now' = false) as Hel.
  { intros e. unfold unexpired. rw list_elem_of_filter -Hp Hin. tauto. }
  assert (forall k e, keyed (unexpired now' es) !! k = Some e <-> e ∈ unexpired now' es /\ EKey e = k) as Hkeyed.
  { intros k e. unfold keyed. rw -elem_of_list_to_map; [by rw -list_fmap_compose|]. rw list_elem_of_fmap.
    split; [intros (x & [= -> ->] & Hx); done|intros [Hx <-]; by exists e]. }
  assert (abs (keyed (unexpired now' es)) = live_at now' (live_at now (abs g))) as Hmap.
  { apply map_eq. intros k. apply option_eq. intros x. unfold live_at, abs. rw !map_lookup_filter_Some !lookup_fmap. split.
    - intros Hx. destruct (keyed (unexpired now' es) !! k) as [e|] eqn:He; [|done]. injection Hx as <-.
      apply Hkeyed in He as [[[Hx Hg] Hx']%Hel <-]. by rw Hg.
    - intros [[Hk Hx] Hx']. destruct (g !! k) as [e|] eqn:Hg; [|done]. injection Hk as <-.
      assert (keyed (unexpired now' es) !! k = Some e) as ->; [|done].
      pose proof (ok_key _ _ (rep_ok _ _ Hrep _ _ Hg)) as Hek. apply Hkeyed. split; [|done]. apply Hel. by rw Hek. }
  assert (esize (unexpired now' es) <= ktotal (abs g)) as Hle.
  { rw -esize_total // total_abs.
    - intros k e [He <-]%Hkeyed. apply Hel in He as [[_ Hg] _]. by apply (rep_ok _ _ Hrep).
    - rw Hmap. apply msum_subseteq; [intros; apply asize_range|]. unfold live_at. etrans; apply map_filter_subseteq. }
  destruct (Restore_snap lvls Hlv limit s2 kv2 es now' Hs2 Hnd' Hall) as (n & s' & Hr & Hs'); [lia|lia|].
  exists (snapOf <$> es), n, s'. rw Hes. split_and!; [done..|]. by rw -Hmap abs_keyed.
Qed.
End round_trip_map.

(** ** What cannot be loaded *)

Lemma snapshotLoop_elem now es items e : snapshotLoop now es = Some (inl items) -> e ∈ es -> IsExpired e now = false ->
  exists value, encodeSnapshotValue e = Some (inl value) /\ mkSnapEntry (EKey e) (ValueTypeName (EType e)) value (SizeBytes e) (ExpiresAtNs e) ∈ items.
Proof.
  revert items. induction es as [|x es IH]; intros items; [by intros _ ?%elem_of_nil|]. cbn [snapshotLoop]. rw elem_of_cons. intros Hl [<-|He] Hx.
  - rw Hx in Hl. destruct (encodeSnapshotValue e) as [[value|err]|]; cbn [mbind option_bind] in Hl; [|done..].
    destruct (snapshotLoop now es) as [[rest|err]|]; cbn [mbind option_bind] in Hl; [|done..]. injection Hl as <-. exists value. split; [done|by left].
  - destruct (IsExpired x now); [by apply IH|]. destruct (encodeSnapshotValue x) as [[value|err]|]; cbn [mbind option_bind] in Hl; [|done..].
    destruct (snapshotLoop now es) as [[rest|err]|]; cbn [mbind option_bind] in Hl; [|done..]. injection Hl as <-.
    destruct (IH rest eq_refl He Hx) as (v & Hv & Hin). exists v. split; [done|by right].
Qed.
Lemma restoreLoop_bad lvls now i items seen total item r : item ∈ items -> negb (SExpiresAtNs item =? 0) && (SExpiresAtNs item <=? now) = false ->
  (forall lv, exists e, decodeSnapshotEntry lv item now = Some (inr e)) -> restoreLoop lvls now i items seen total <> Some (inl r).
Proof.
  intros Hin Hx Hbad. revert i seen total r. induction items as [|x items IH]; intros i seen total r; [by apply elem_of_nil in Hin|]. cbn [restoreLoop].
  destruct (bool_decide _); [done|]. apply elem_of_cons in Hin as [<-|Hin].
  - rw Hx. destruct (Hbad (lvls i)) as [e ->]. done.
  - match goal with |- (if ?b then _ else _) <> _ => destruct b end; [by apply IH|]. destruct (decodeSnapshotEntry _ _ _) as [[entry|e]|]; cbn [mbind option_bind]; [|done..].
    destruct (_ <? _); [done|]. destruct (restoreLoop lvls now (S i) items _ _) as [[[ds t']|e]|] eqn:Hr; cbn [mbind option_bind]; [|done..]. exfalso. by eapply IH.
Qed.
(** A live list that ends in an empty string. *)
Lemma empty_tail_fails `{SliceSortOk} lvls limit s kv rng s2 kv2 now now' k l exp items :
  (forall i k, (1 <= lvls i k <= skipListMaxLevel)%nat) -> store_kv s kv -> range_ok rng -> store_kv s2 kv2 ->
  kv !! k = Some (AList l, exp) -> kexpired now (AList l, exp) = false -> kexpired now' (AList l, exp) = false -> last l = Some "" ->
  snapshotEntries s now rng = Some (inl items) -> exists e, RestoreSnapshotEntries limit lvls s2 items now' = Some (inr e, s2).
Proof.
  intros Hlv (g & Hrep & Hg) Hrng Hs2 Hk Hx Hx' Hlast Hsnap. destruct (Restore_total lvls Hlv limit s2 kv2 items now' Hs2) as (r & s' & Hr & Hm).
  destruct r as [n|e]; [|subst s'; by exists e]. exfalso. clear Hm.
  unfold RestoreSnapshotEntries in Hr. destruct (restoreLoop lvls now' 0 items ∅ 0) as [[[ds total]|err]|] eqn:Hloop; cbn [mbind option_bind] in Hr; [|done..].
  rewrite <- Hg in Hk. unfold abs in Hk. rw lookup_fmap in Hk. destruct (g !! k) as [e|] eqn:He; [|done]. injection Hk as Habs Hexp.
  pose proof (rep_ok _ _ Hrep _ _ He) as Hok. pose proof (ok_key _ _ Hok) as Hkey. rewrite <- Hkey in He.
  assert (Hin : e ∈ scan s now rng) by (apply (scan_spec s g now rng Hrep Hrng); split; [|done]; unfold IsExpired; rw Hexp; exact Hx).
  apply list_elem_of_filter in Hin as [Hlive Hin]. unfold snapshotEntries in Hsnap. destruct (snapshotLoop now _) as [[es|err]|] eqn:Hs; cbn [mbind option_bind] in Hsnap; [|done..].
  injection Hsnap as <-. destruct (snapshotLoop_elem _ _ _ _ Hs Hin Hlive) as (value & Henc & Hitem).
  refine (restoreLoop_bad lvls now' 0 (slice_sort snapLess es) ∅ 0 (mkSnapEntry (EKey e) (ValueTypeName (EType e)) value (SizeBytes e) (ExpiresAtNs e)) _ _ _ _ Hloop); [eapply elem_of_Permutation_proper; [apply slice_sort_perm|exact Hitem]|cbn [SExpiresAtNs]; rw Hexp; exact Hx'|].
  pose proof (ok_type _ _ Hok) as Hty. pose proof (ok_value _ _ Hok) as Hval. destruct (EValue e) as [d|lv|zv] eqn:Hv; [done| |done]. cbn in Habs, Hty, Hval. injection Habs as Hl.
  unfold encodeSnapshotValue in Henc. rw Hty Hv in Henc. injection Henc as Henc. destruct (decodeListValue_encode lv value Hval Henc) as [_ Hd].
  destruct Hd as [j Hj]; [unfold ends_empty; by rw Hl|]. intros levels. unfold decodeSnapshotEntry, decodeSnapshotValue. cbn [SValueType SValue SKey]. rw Hty. cbn [ValueTypeName].
  change (String.eqb "list" "string") with false. change (String.eqb "list" "list") with true. cbv iota. rw Hj. cbn [mbind option_bind]. by eexists.
Qed.

(** ** The theorems *)

(** A small map with a value of each type. *)
Definition sampleMap : KV :=
  <["l" := (AList [""; "x"], 0)]> (<["z" := (AZSet [(S754_zero true, "m")], 90)]> {["s" := (AStr "v", 0)]}).
Definition keyOrder : gmap string Entry -> list Entry := fun m => (map_to_list m).*2.

Lemma sampleMap_stored : exists s, store_kv s sampleMap.
Proof.
  destruct (NewStore_spec 4 ltac:(done)) as [H0 _].
  destruct (setString_spec _ _ 0 "s" "v" 0 setAlways H0) as (s1 & _ & H1).
  destruct (zsetAdd_spec _ _ 0 (fun _ => 1%nat) "z" [(S754_zero true, "m")] H1) as (s2 & _ & H2).
  { intros p. rw list_elem_of_singleton. by intros ->. }
  { unfold skipListMaxLevel. lia. }
  destruct (SetExpireAt_spec _ _ 0 "z" 90 H2) as (s3 & _ & H3).
  destruct (listPush_spec _ _ 0 "l" [""; "x"] false H3) as (s4 & _ & H4).
  exists s4. exact H4.
Qed.

Lemma sampleMap_savable now : savable_map now sampleMap.
Proof.
  assert (map_Forall (fun _ x => saveable x.1) sampleMap) as Hall.
  { unfold sampleMap. repeat (apply map_Forall_insert_2; [|]); try apply map_Forall_singleton; cbn [fst saveable]; try done.
    - split_and!; [done|repeat constructor; done|done].
    - split; [|by repeat constructor]. split_and!; [done|repeat constructor; done|done]. }
  intros k x Hk _. by apply (Hall k).
Qed.

(** C4: Snapshot and restore: when the values can be encoded - every list and
    sorted set that is live has at most 2^32 - 1 elements of at most 2^32 - 1 bytes,
    and its last element is not the empty string - and the data fits the memory
    limit, the entries taken from a store, restored into any other store, give
    exactly the map of the entries that are live at both times (scores are binary64
    values, as they are in Go).  The exception is
    real: when a list that is live at both times ends in the empty string, the
    entries that were taken, if any, can never be restored: it is an error, and
    leaves the other store alone. *)
Theorem snapshot_round_trip `{SliceSortOk} lvls limit s kv rng s2 kv2 now now' :
  (forall i k, (1 <= lvls i k <= skipListMaxLevel)%nat) ->
  store_kv s kv -> range_ok rng -> store_kv s2 kv2 ->
  (savable_map now kv -> ktotal kv <= maxUint64 -> limit <= 0 \/ ktotal kv <= limit ->
    exists items n s', snapshotEntries s now rng = Some (inl items) /\
      RestoreSnapshotEntries limit lvls s2 items now' = Some (inl n, s') /\
      store_kv s' (live_at now' (live_at now kv))) /\
  (forall k l exp items, kv !! k = Some (AList l, exp) -> kexpired now (AList l, exp) = false -> kexpired now' (AList l, exp) = false ->
    last l = Some "" -> snapshotEntries s now rng = Some (inl items) ->
    exists e, RestoreSnapshotEntries limit lvls s2 items now' = Some (inr e, s2)).
Proof.
  intros Hlv Hs Hr Hs2. split; [intros Hsave Ht Hl; by apply (snapshot_restore lvls Hlv limit s kv rng s2 kv2)|]. intros k l exp items Hk Hx Hx' Hlast Hi.
  by apply (empty_tail_fails lvls limit s kv rng s2 kv2 now now' k l exp items).
Qed.

Lemma snapshot_round_trip_witness :
  exists s items n s', store_kv s sampleMap /\ snapshotEntries s 10 keyOrder = Some (inl items) /\
    RestoreSnapshotEntries 1000 (fun _ _ => 1%nat) (NewStore 2) items 100 = Some (inl n, s') /\
    store_kv s' (live_at 100 (live_at 10 sampleMap)).
Proof.
  destruct sampleMap_stored as [s Hs].
  destruct (snapshot_round_trip (fun _ _ => 1%nat) 1000 s sampleMap keyOrder (NewStore 2) ∅ 10 100) as [Hgood _];
    [unfold skipListMaxLevel; lia|done|by intros m|by apply NewStore_spec|].
  destruct Hgood as (items & n & s' & H1 & H2 & H3); [apply sampleMap_savable|by vm_compute|right; by vm_compute|].
  by exists s, items, n, s'.
Defined.

(** A snapshot is a function of the data: whatever the number of stripes and
    the order in which Go visits its maps, the entries are the live entries of
    the map sorted by key, with their encoded values and accounted sizes. *)
Theorem snapshot_deterministic `{SliceSortOk} s kv now rng :
  store_kv s kv -> range_ok rng -> savable_map now kv ->
  snapshotEntries s now rng = Some (inl (snapshot_of now kv)).
Proof. apply snapshotEntries_spec. Qed.

Lemma snapshot_deterministic_witness :
  (SKey <$> snapshot_of 10 sampleMap) = ["l"; "s"; "z"] /\
  exists s, store_kv s sampleMap /\ snapshotEntries s 10 keyOrder = Some (inl (snapshot_of 10 sampleMap)).
Proof.
  split; [vm_compute; reflexivity|]. destruct sampleMap_stored as [s Hs]. exists s. split; [done|].
  apply snapshot_deterministic; [done|by intros m|apply sampleMap_savable].
Defined.

(** Restoring arbitrary entries, also corrupt ones, never panics: either there
    is an error and the store is untouched, or the store represents a map of
    unexpired entries, as many as reported, with exact accounting and within
    the memory limit. *)
Theorem restore_safe lvls limit s kv items now :
  (forall i k, (1 <= lvls i k <= skipListMaxLevel)%nat) -> store_kv s kv ->
  exists r s', RestoreSnapshotEntries limit lvls s items now = Some (r, s') /\
    match r with
    | inr _ => s' = s
    | inl n => exists kv', store_kv s' kv' /\ Z.of_nat (size kv') = n /\
        (forall k x, kv' !! k = Some x -> kexpired now x = false) /\
        usedBytes s' = ktotal kv' /\ (0 < limit -> ktotal kv' <= limit)
    end.
Proof. intros Hlv. by apply Restore_total. Qed.

Definition corruptEntry : SnapEntry := mkSnapEntry "k" "zset" (putBE 4 7) 99 0.
Lemma restore_safe_witness :
  exists r s', RestoreSnapshotEntries 500 (fun _ _ => 1%nat) (NewStore 2) [corruptEntry] 5 = Some (r, s') /\
    match r with
    | inr _ => s' = NewStore 2
    | inl n => exists kv', store_kv s' kv' /\ Z.of_nat (size kv') = n /\
        (forall k x, kv' !! k = Some x -> kexpired 5 x = false) /\
        usedBytes s' = ktotal kv' /\ (0 < 500 -> ktotal kv' <= 500)
    end.
Proof. apply (restore_safe (fun _ _ => 1%nat) 500 (NewStore 2) ∅); [unfold skipListMaxLevel; lia|by apply NewStore_spec]. Defined.

(** A list whose last element is the empty string is saved without an error
    but can never be read back: [readLengthPrefixed] takes the end of the input
    for a missing element. *)
Theorem empty_tail_lost lv :
  list_wf lv -> Z.of_nat (length (contents lv)) <= maxUint32 -> Forall (fun v => slen v <= maxUint32) (contents lv) ->
  last (contents lv) = Some "" ->
  exists raw i, encodeListValue lv = inl raw /\ decodeListValue raw = inr (errElement "list" i ReadEOF).
Proof.
  intros Hwf Hlen Hall Hlast. destruct (encodeItems_ok (contents lv) Hall) as [out Hout].
  assert (exists raw, encodeListValue lv = inl raw) as [raw Hraw].
  { unfold encodeListValue. rw (contents_len lv Hwf) Hout. destruct (Z.ltb_spec maxUint32 (Z.of_nat (length (contents lv)))); [lia|]. by eexists. }
  destruct (decodeListValue_encode lv raw Hwf Hraw) as [_ Hd]. destruct (Hd Hlast) as [i Hi]. by exists raw, i.
Qed.

Lemma empty_tail_lost_witness :
  exists raw i, encodeListValue (RPush NewListValue ["a"; ""]).1 = inl raw /\ decodeListValue raw = inr (errElement "list" i ReadEOF).
Proof.
  apply empty_tail_lost; [|done|repeat constructor; done|done].
  pose proof (RPush_spec NewListValue ["a"; ""] (proj1 NewListValue_wf)) as Hp.
  destruct (RPush NewListValue ["a"; ""]) as [lv n]. by destruct Hp.
Defined.
