(* ===== verification/Metadata.v ===== *)
(** * Cluster metadata: [internal/cluster/metadata.go], [router.go], [node.go],
    [errors.go], [replication.go] and [snapshot.go]

    The fixed map of slots: ownership, terms and replication sequences.
    Every operation runs under [Metadata.mu], so it is one step: a function
    of the metadata that returns an error or a result, and the new metadata.
    [uint64] counters wrap around as in Go. *)
From S2P Require Import Prelude GoText Store.
Local Open Scope Z_scope.

(** ** Errors, peers and slots *)

Inductive ClusterErr :=
| ErrStaleTerm | ErrNotLeader | ErrNotReplica | ErrReplicaUnavailable | ErrSequenceGap | ErrSlotOutOfRange
| ErrUnknownNode (node : string) | ErrReplicaIsLeader | ErrClusterMismatch | ErrStaleMetadata | ErrNoReplicaAssigned.

Record MetadataPeer := mkPeer { PeerID : string; PeerAddress : string; APIAddress : string }.
#[export] Instance MetadataPeer_eq_dec : EqDecision MetadataPeer.
Proof. solve_decision. Defined.

Record SlotState := mkSlot {
  Number : Z;
  LeaderID : string;
  ReplicaID : string;
  Term : Z;
  LastSequence : Z;
  LastAppliedSequence : Z;
  ReplicaReady : bool
}.

Record MetadataSnapshot := mkMeta {
  ClusterID : string;
  MVersion : Z;
  SlotCount : Z;
  Peers : list MetadataPeer;
  Slots : list SlotState
}.

(** The metadata of the node [localID]. *)
Record Metadata := mkMetadata {
  clusterID : string;
  version : Z;
  slotCount : Z;
  localID : string;
  peers : list MetadataPeer;
  peerIDs : gset string;
  slots : list SlotState
}.

Record ReplicationRecord := mkRecord {
  SourceNodeID : string;
  RSlot : Z;
  RTerm : Z;
  Sequence : Z;
  RArgs : list string
}.

(** The fields of [config.ClusterConfig] that [NewMetadata] reads. *)
Record ClusterConfig := mkClusterConfig {
  cfgID : string;
  Enabled : bool;
  ReplicationEnabled : bool;
  cfgSlotCount : Z;
  cfgPeers : list MetadataPeer
}.

(** ** Construction *)

(** The inner loop of [NewMetadata]: [count] slots from [slot] on; [None] is an
    index out of range. *)
Fixpoint fillSlots (state : Z -> SlotState) (count : nat) (ss : list SlotState) (slot : Z)
    : option (list SlotState * Z) :=
  match count with
  | O => Some (ss, slot)
  | S count =>
      if (0 <=? slot) && (slot <? Z.of_nat (length ss))
      then fillSlots state count (<[Z.to_nat slot := state slot]> ss) (u32 (slot + 1))
      else None
  end.

Section construction.
Context `{SliceSort} (cfg : ClusterConfig).

Definition initialState (ids : list string) (ownerIndex : nat) (leader : string) (slot : Z) : SlotState :=
  if ReplicationEnabled cfg
  then mkSlot slot leader (default "" (ids !! ((ownerIndex + 1) mod length ids)%nat)) 1 0 0 true
  else mkSlot slot leader "" 1 0 0 false.

(** The outer loop over the owners. *)
Fixpoint fillOwners (ids : list string) (ownerIndex : nat) (owners : list string) (ss : list SlotState) (slot : Z)
    : option (list SlotState * Z) :=
  match owners with
  | [] => Some (ss, slot)
  | leader :: owners =>
      let base := cfgSlotCount cfg / u32 (Z.of_nat (length ids)) in
      let remainder := cfgSlotCount cfg mod u32 (Z.of_nat (length ids)) in
      let count := if u32 (Z.of_nat ownerIndex) <? remainder then u32 (base + 1) else base in
      '(ss, slot) ← fillSlots (initialState ids ownerIndex leader) (Z.to_nat count) ss slot;
      fillOwners ids (S ownerIndex) owners ss slot
  end.

Definition zeroSlot : SlotState := mkSlot 0 "" "" 0 0 0 false.

Definition NewMetadata (local : string) : option Metadata :=
  if negb (Enabled cfg) || (cfgSlotCount cfg =? 0)
  then Some (mkMetadata (cfgID cfg) 1 (cfgSlotCount cfg) local [] ∅ [])
  else
    let ids := PeerID <$> cfgPeers cfg in
    match ids with
    | [] => Some (mkMetadata (cfgID cfg) 1 (cfgSlotCount cfg) local [] ∅ [])
    | _ =>
        let sorted := slice_sort sltb ids in
        let ps := slice_sort (fun a b => sltb (PeerID a) (PeerID b)) (cfgPeers cfg) in
        '(ss, _) ← fillOwners sorted 0 sorted (replicate (Z.to_nat (cfgSlotCount cfg)) zeroSlot) 0;
        Some (mkMetadata (cfgID cfg) 1 (cfgSlotCount cfg) local ps (list_to_set ids) ss)
    end.
End construction.

(** ** Reads *)

Definition SlotForKey (m : Metadata) (key : string) : Z :=
  if slotCount m =? 0 then 0 else fnv32a key mod slotCount m.

Definition Slot (m : Metadata) (number : Z) : option SlotState :=
  if u32 (Z.of_nat (length (slots m))) <=? number then None else slots m !! Z.to_nat number.

Definition Snapshot (m : Metadata) : MetadataSnapshot :=
  mkMeta (clusterID m) (version m) (slotCount m) (peers m) (slots m).

Definition LocalRole (m : Metadata) (slot : SlotState) : string :=
  if String.eqb (localID m) (LeaderID slot) then "leader"
  else if String.eqb (localID m) (ReplicaID slot) then "replica"
  else "none".

(** ** Updates *)

(** The slot as [state := &m.slots[number]] after the range check, and an
    assignment through it. *)
Definition withSlots (m : Metadata) (ss : list SlotState) : Metadata :=
  mkMetadata (clusterID m) (version m) (slotCount m) (localID m) (peers m) (peerIDs m) ss.
Definition setSlot (m : Metadata) (number : Z) (st : SlotState) : Metadata :=
  withSlots m (<[Z.to_nat number := st]> (slots m)).
Definition bumpVersion (m : Metadata) : Metadata :=
  mkMetadata (clusterID m) (u64 (version m + 1)) (slotCount m) (localID m) (peers m) (peerIDs m) (slots m).

Definition PrepareReplication (m : Metadata) (number : Z) : (SlotState * Z) + ClusterErr :=
  match Slot m number with
  | None => inr ErrSlotOutOfRange
  | Some state =>
      if negb (String.eqb (LeaderID state) (localID m)) then inr ErrNotLeader
      else if String.eqb (ReplicaID state) "" || negb (ReplicaReady state) then inr ErrReplicaUnavailable
      else inl (state, u64 (LastSequence state + 1))
  end.

Definition CommitLeaderSequence (m : Metadata) (number term sequence : Z) : option ClusterErr * Metadata :=
  match Slot m number with
  | None => (Some ErrSlotOutOfRange, m)
  | Some state =>
      if negb (String.eqb (LeaderID state) (localID m)) || negb (Term state =? term) then (Some ErrStaleTerm, m)
      else if negb (sequence =? u64 (LastSequence state + 1)) then (Some ErrSequenceGap, m)
      else (None, setSlot m number (mkSlot (Number state) (LeaderID state) (ReplicaID state) (Term state)
                                      sequence sequence (ReplicaReady state)))
  end.

(** [true]: the record is a duplicate. *)
Definition ValidateReplication (m : Metadata) (rec : ReplicationRecord) : bool + ClusterErr :=
  match Slot m (RSlot rec) with
  | None => inr ErrSlotOutOfRange
  | Some state =>
      if negb (String.eqb (ReplicaID state) (localID m)) then inr ErrNotReplica
      else if negb (RTerm rec =? Term state) || negb (String.eqb (SourceNodeID rec) (LeaderID state))
      then inr ErrStaleTerm
      else if Sequence rec <=? LastAppliedSequence state then inl true
      else if negb (Sequence rec =? u64 (LastAppliedSequence state + 1)) then inr ErrSequenceGap
      else inl false
  end.

Definition CommitReplicaSequence (m : Metadata) (number term sequence : Z) : option ClusterErr * Metadata :=
  match Slot m number with
  | None => (Some ErrSlotOutOfRange, m)
  | Some state =>
      if negb (String.eqb (ReplicaID state) (localID m)) || negb (Term state =? term) then (Some ErrStaleTerm, m)
      else if negb (sequence =? u64 (LastAppliedSequence state + 1)) then (Some ErrSequenceGap, m)
      else (None, setSlot m number (mkSlot (Number state) (LeaderID state) (ReplicaID state) (Term state)
                                      (if LastSequence state <? sequence then sequence else LastSequence state)
                                      sequence (ReplicaReady state)))
  end.

Definition Promote (m : Metadata) (number : Z) : (MetadataSnapshot + ClusterErr) * Metadata :=
  match Slot m number with
  | None => (inr ErrSlotOutOfRange, m)
  | Some state =>
      if String.eqb (ReplicaID state) "" then (inr ErrNoReplicaAssigned, m)
      else
        let m := bumpVersion (setSlot m number (mkSlot (Number state) (ReplicaID state) ""
                                                  (u64 (Term state + 1)) 0 0 false)) in
        (inl (Snapshot m), m)
  end.

Definition AssignReplica (m : Metadata) (number : Z) (nodeID : string) : (MetadataSnapshot + ClusterErr) * Metadata :=
  match Slot m number with
  | None => (inr ErrSlotOutOfRange, m)
  | Some state =>
      if negb (bool_decide (nodeID ∈ peerIDs m)) then (inr (ErrUnknownNode nodeID), m)
      else if String.eqb nodeID (LeaderID state) then (inr ErrReplicaIsLeader, m)
      else
        let m := bumpVersion (setSlot m number (mkSlot (Number state) (LeaderID state) nodeID
                                                  (u64 (Term state + 1)) 0 0 false)) in
        (inl (Snapshot m), m)
  end.

Definition MarkReplicaReady (m : Metadata) (number term sequence : Z) : (MetadataSnapshot + ClusterErr) * Metadata :=
  match Slot m number with
  | None => (inr ErrSlotOutOfRange, m)
  | Some state =>
      if negb (String.eqb (LeaderID state) (localID m)) || negb (Term state =? term) || String.eqb (ReplicaID state) ""
      then (inr ErrStaleTerm, m)
      else
        let m := bumpVersion (setSlot m number (mkSlot (Number state) (LeaderID state) (ReplicaID state) (Term state)
                                                  sequence sequence true)) in
        (inl (Snapshot m), m)
  end.

Definition SetReplicaApplied (m : Metadata) (number term sequence : Z) : option ClusterErr * Metadata :=
  match Slot m number with
  | None => (Some ErrSlotOutOfRange, m)
  | Some state =>
      if negb (Term state =? term) || negb (String.eqb (ReplicaID state) (localID m)) then (Some ErrStaleTerm, m)
      else (None, setSlot m number (mkSlot (Number state) (LeaderID state) (ReplicaID state) (Term state)
                                      sequence sequence (ReplicaReady state)))
  end.

(** ** Installing metadata from elsewhere *)

(** The loop over the peers; [prev] is [in.Peers[i-1]]. *)
Fixpoint peersValid (prev : option MetadataPeer) (ps : list MetadataPeer) : bool :=
  match ps with
  | [] => true
  | p :: ps =>
      negb (String.eqb (PeerID p) "" || String.eqb (PeerAddress p) "" || String.eqb (APIAddress p) "" ||
            match prev with Some q => negb (sltb (PeerID q) (PeerID p)) | None => false end)
      && peersValid (Some p) ps
  end.
Fixpoint slotsValid (i : Z) (ss : list SlotState) : bool :=
  match ss with
  | [] => true
  | s :: ss =>
      negb (negb (Number s =? u32 i) || String.eqb (LeaderID s) "" || (Term s =? 0)) && slotsValid (i + 1) ss
  end.
Definition validateMetadataSnapshot (inp : MetadataSnapshot) : option ClusterErr :=
  let n := Z.of_nat (length (Peers inp)) in
  if String.eqb (ClusterID inp) "" || (SlotCount inp =? 0) || (n <? 2) || (5 <? n) ||
     negb (Z.of_nat (length (Slots inp)) =? SlotCount inp)
  then Some ErrClusterMismatch
  else if negb (peersValid None (Peers inp)) then Some ErrClusterMismatch
  else if negb (slotsValid 0 (Slots inp)) then Some ErrClusterMismatch
  else None.

Definition equalMetadataPeers (a b : list MetadataPeer) : bool := bool_decide (a = b).

(** The loop of [apply] over the new slots. *)
Fixpoint keepApplied (allowEqual : bool) (current next : list SlotState) : list SlotState :=
  match next with
  | [] => []
  | n :: next =>
      (match current with
       | c :: _ =>
           if negb allowEqual && (Term c =? Term n)
           then mkSlot (Number n) (LeaderID n) (ReplicaID n) (Term n) (LastSequence n) (LastAppliedSequence c) (ReplicaReady n)
           else n
       | [] => n
       end) :: keepApplied allowEqual (tail current) next
  end.

Definition apply (m : Metadata) (inp : MetadataSnapshot) (allowEqual : bool) : option ClusterErr * Metadata :=
  match validateMetadataSnapshot inp with
  | Some e => (Some e, m)
  | None =>
      if negb (String.eqb (ClusterID inp) (clusterID m)) || negb (SlotCount inp =? slotCount m) then (Some ErrClusterMismatch, m)
      else if negb (equalMetadataPeers (Peers inp) (peers m)) then (Some ErrClusterMismatch, m)
      else if (MVersion inp <? version m) || (negb allowEqual && (MVersion inp =? version m)) then (Some ErrStaleMetadata, m)
      else (None, mkMetadata (clusterID m) (MVersion inp) (slotCount m) (localID m) (peers m) (peerIDs m)
                    (keepApplied allowEqual (slots m) (Slots inp)))
  end.
Definition ApplyRemote (m : Metadata) (inp : MetadataSnapshot) : option ClusterErr * Metadata := apply m inp false.
Definition RestoreMeta (m : Metadata) (inp : MetadataSnapshot) : option ClusterErr * Metadata := apply m inp true.

(** ** Snapshots on disk *)

(** [snapshot.Slot] and [snapshot.ClusterMetadata]. *)
Record SnapSlot := mkSnapSlot { SlotRole : string; SlotData : SlotState }.
Record ClusterMetadata := mkClusterMetadata {
  CMClusterID : string;
  CMSlotCount : Z;
  CMVersion : Z;
  CMPeers : list MetadataPeer;
  CMSlots : list SnapSlot
}.
Definition SnapshotMetadata (m : Metadata) : ClusterMetadata :=
  let state := Snapshot m in
  mkClusterMetadata (ClusterID state) (SlotCount state) (MVersion state) (Peers state)
    ((fun slot => mkSnapSlot (LocalRole m slot) slot) <$> Slots state).

Definition RestoreSnapshot (m : Metadata) (inp : ClusterMetadata) : option ClusterErr * Metadata :=
  if String.eqb (CMClusterID inp) "" then (None, m)
  else if existsb (fun s => String.eqb (LeaderID (SlotData s)) "") (CMSlots inp) then (None, m)
  else
    let ps := match CMPeers inp with [] => peers m | ps => ps end in
    RestoreMeta m (mkMeta (CMClusterID inp) (CMVersion inp) (CMSlotCount inp) ps (SlotData <$> CMSlots inp)).

(** ** Routing *)

Record Route := mkRoute { OwnerNodeID : string; RouteSlot : Z; IsLocal : bool }.
Definition Resolve (localNodeID : string) (m : Metadata) (key : string) : Route :=
  let slot := SlotForKey m key in
  match Slot m slot with
  | None => mkRoute "" slot false
  | Some state =>
      if String.eqb (LeaderID state) "" then mkRoute "" slot false
      else mkRoute (LeaderID state) slot (String.eqb (LeaderID state) localNodeID)
  end.
