(* ===== verification/MetadataSpec.v ===== *)
(** * Properties of the cluster metadata

    [NewMetadata] assigns every slot, in contiguous balanced ranges, to a
    leader and to a different replica, on every node the same; keys always
    hash to an assigned slot; every update keeps the metadata well formed and
    moves version and terms forward; installing and saving snapshots. *)
From S2P Require Import Prelude GoText Store Metadata.
Local Open Scope Z_scope.

(** ** Construction *)

Lemma fillSlots_spec state count ss slot :
  0 <= slot -> slot + Z.of_nat count <= Z.of_nat (length ss) < 4294967296 ->
  exists ss', fillSlots state count ss slot = Some (ss', slot + Z.of_nat count) /\ length ss' = length ss /\
    forall i, ss' !! i = if decide (slot <= Z.of_nat i < slot + Z.of_nat count) then Some (state (Z.of_nat i)) else ss !! i.
Proof.
  revert ss slot; induction count as [|count IH]; intros ss slot Hs Hl; cbn [fillSlots].
  - exists ss. rw Z.add_0_r. split_and!; [done..|]. intros i. rw decide_False //. lia.
  - assert ((0 <=? slot) && (slot <? Z.of_nat (length ss)) = true) as ->.
    { apply andb_true_iff. split; [apply Z.leb_le|apply Z.ltb_lt]; lia. }
    unfold u32. rw Z.mod_small; [lia|].
    destruct (IH (<[Z.to_nat slot := state slot]> ss) (slot + 1)) as (ss' & Hf & Hlen & Hin); [lia|rw length_insert; lia|].
    exists ss'. rw Hf. split; [do 2 f_equal; lia|]. rw length_insert in Hlen. split; [done|]. intros i. rw Hin.
    destruct (decide (i = Z.to_nat slot)) as [->|Hi].
    + rw decide_False; [lia|]. rw (decide_True (P := slot <= _ < _)); [lia|]. rw list_lookup_insert_eq; [lia|]. do 2 f_equal. lia.
    + rw list_lookup_insert_ne //. destruct (decide (slot + 1 <= Z.of_nat i < slot + 1 + Z.of_nat count)).
      * by rw decide_True; [lia|].
      * by rw decide_False; [lia|].
Qed.

Section construct.
Context `{SliceSortOk} (cfg : ClusterConfig).

(** The configurations [config.Validate] accepts for a cluster. *)
Record config_ok : Prop := {
  ok_enabled : Enabled cfg = true;
  ok_id : cfgID cfg <> "";
  ok_count : 0 < cfgSlotCount cfg < 4294967296;
  ok_peers : (2 <= length (cfgPeers cfg) <= 5)%nat;
  ok_unique : NoDup (PeerID <$> cfgPeers cfg);
  ok_fields : Forall (fun p => PeerID p <> "" /\ PeerAddress p <> "" /\ APIAddress p <> "") (cfgPeers cfg)
}.

Definition owners : list string := slice_sort sltb (PeerID <$> cfgPeers cfg).
Definition nodes : Z := Z.of_nat (length (cfgPeers cfg)).

(** The first slot of owner [o]: the ranges differ in size by at most one. *)
Definition rangeStart (o : nat) : Z :=
  cfgSlotCount cfg / nodes * Z.of_nat o + Z.min (Z.of_nat o) (cfgSlotCount cfg mod nodes).

Lemma owners_length : length owners = length (cfgPeers cfg).
Proof. unfold owners. by rw slice_sort_length length_fmap. Qed.

Lemma rangeStart_step o :
  rangeStart (S o) = rangeStart o + (cfgSlotCount cfg / nodes + (if Z.of_nat o <? cfgSlotCount cfg mod nodes then 1 else 0)).
Proof. unfold rangeStart. destruct (Z.ltb_spec (Z.of_nat o) (cfgSlotCount cfg mod nodes)); lia. Qed.

Context (Hok : config_ok).

Lemma nodes_range : 2 <= nodes <= 5.
Proof. pose proof (ok_peers Hok). unfold nodes. lia. Qed.

Lemma rangeStart_end : rangeStart (length (cfgPeers cfg)) = cfgSlotCount cfg.
Proof.
  pose proof nodes_range as Hn. unfold rangeStart. fold nodes.
  pose proof (Z.mod_pos_bound (cfgSlotCount cfg) nodes ltac:(lia)).
  pose proof (Z.div_mod (cfgSlotCount cfg) nodes ltac:(lia)). lia.
Qed.

Lemma quotient_nonneg : 0 <= cfgSlotCount cfg / nodes.
Proof. pose proof (ok_count Hok). pose proof nodes_range. apply Z.div_pos; lia. Qed.

Lemma rangeStart_mono o o' : (o <= o')%nat -> rangeStart o <= rangeStart o'.
Proof.
  induction 1 as [|o' Ho IH]; [lia|]. rw rangeStart_step. pose proof quotient_nonneg.
  destruct (_ <? _); lia.
Qed.

Lemma rangeStart_cover i n : 0 <= i < rangeStart n -> exists o, (o < n)%nat /\ rangeStart o <= i < rangeStart (S o).
Proof.
  induction n as [|n IH]; intros Hi; [unfold rangeStart in Hi; pose proof (Z.mod_pos_bound (cfgSlotCount cfg) nodes); pose proof nodes_range; lia|].
  destruct (decide (i < rangeStart n)) as [Hlt|Hge].
  - destruct IH as (o & Ho & Hr); [lia|]. exists o. split; [lia|done].
  - exists n. split; [lia|lia].
Qed.

Lemma fillOwners_spec k os ss :
  (k + length os = length (cfgPeers cfg))%nat -> Z.of_nat (length ss) = cfgSlotCount cfg ->
  exists ss', fillOwners cfg owners k os ss (rangeStart k) = Some (ss', cfgSlotCount cfg) /\ length ss' = length ss /\
    (forall i, Z.of_nat i < rangeStart k -> ss' !! i = ss !! i) /\
    (forall j owner i, os !! j = Some owner -> rangeStart (k + j) <= Z.of_nat i < rangeStart (S (k + j)) ->
      ss' !! i = Some (initialState cfg owners (k + j) owner (Z.of_nat i))).
Proof.
  revert k ss; induction os as [|owner os IH]; intros k ss Hk Hlen; cbn [fillOwners].
  - exists ss. simpl in Hk. rw Nat.add_0_r in Hk. subst k. rw rangeStart_end. split_and!; [done..|]. by intros j owner i Hj.
  - pose proof nodes_range as Hn. pose proof (ok_count Hok) as Hc. rw owners_length. fold nodes. simpl in Hk.
    assert (u32 nodes = nodes) as -> by (unfold u32; apply Z.mod_small; lia).
    assert (u32 (Z.of_nat k) = Z.of_nat k) as -> by (unfold u32; apply Z.mod_small; unfold nodes in Hn; lia).
    set (count := if _ <? _ then _ else _).
    assert (count = cfgSlotCount cfg / nodes + (if Z.of_nat k <? cfgSlotCount cfg mod nodes then 1 else 0)) as Hcount.
    { unfold count. destruct (_ <? _); [|lia]. unfold u32. apply Z.mod_small.
      pose proof quotient_nonneg. pose proof (Z.div_le_upper_bound (cfgSlotCount cfg) nodes 2147483648 ltac:(lia) ltac:(nia)). lia. }
    pose proof quotient_nonneg as Hq. assert (0 <= count) as Hc0 by (rw Hcount; destruct (_ <? _); lia).
    assert (rangeStart (S k) = rangeStart k + count) as Hstep by by rw rangeStart_step Hcount.
    pose proof (rangeStart_mono (S k) (length (cfgPeers cfg)) ltac:(lia)) as Hm. rw rangeStart_end in Hm.
    pose proof (rangeStart_mono 0 k ltac:(lia)) as Hm0.
    assert (0 <= rangeStart 0) as Hr0 by (unfold rangeStart; pose proof (Z.mod_pos_bound (cfgSlotCount cfg) nodes ltac:(lia)); lia).
    destruct (fillSlots_spec (initialState cfg owners k owner) (Z.to_nat count) ss (rangeStart k)) as (ss1 & Hf & Hl1 & Hin1); [lia|lia|].
    rw Hf. cbn [mbind option_bind]. assert (Z.of_nat (Z.to_nat count) = count) as Hcc by lia.
    rw Hcc in Hin1 |- *. rw -Hstep.
    destruct (IH (S k) ss1) as (ss' & Hf' & Hl' & Hlow & Hin'); [lia|lia|].
    exists ss'. split_and!; [done|by rw Hl'| |].
    + intros i Hi. rw Hlow; [lia|]. rw Hin1 decide_False //. lia.
    + intros [|j] o i Hj Hi.
      * injection Hj as <-. rw Nat.add_0_r in Hi |- *. rw Hlow; [lia|]. rw Hin1 decide_True //. lia.
      * simpl in Hj. rw -Nat.add_succ_comm in Hi |- *. by apply Hin'.
Qed.

(** The slots of a new cluster: slot [i] belongs to the owner [o] of the
    range it falls into, and to the next owner as replica. *)
Definition assigned (i : nat) (st : SlotState) : Prop :=
  exists o leader replica, owners !! o = Some leader /\ owners !! ((o + 1) mod length owners)%nat = Some replica /\
    leader <> replica /\ rangeStart o <= Z.of_nat i < rangeStart (S o) /\
    st = if ReplicationEnabled cfg then mkSlot (Z.of_nat i) leader replica 1 0 0 true
         else mkSlot (Z.of_nat i) leader "" 1 0 0 false.

Lemma NewMetadata_slots local :
  exists m, NewMetadata cfg local = Some m /\ clusterID m = cfgID cfg /\ version m = 1 /\
    slotCount m = cfgSlotCount cfg /\ localID m = local /\
    peers m = slice_sort (fun a b => sltb (PeerID a) (PeerID b)) (cfgPeers cfg) /\
    peerIDs m = list_to_set (PeerID <$> cfgPeers cfg) /\
    Z.of_nat (length (slots m)) = cfgSlotCount cfg /\ (forall i st, slots m !! i = Some st -> assigned i st).
Proof.
  pose proof (ok_count Hok) as Hc. pose proof (ok_peers Hok) as Hp. unfold NewMetadata.
  rw (ok_enabled Hok) (proj2 (Z.eqb_neq (cfgSlotCount cfg) 0)); [lia|]. cbn [negb orb]. cbv zeta.
  assert (exists x xs, PeerID <$> cfgPeers cfg = x :: xs) as (x & xs & Hids).
  { destruct (cfgPeers cfg); [simpl in Hp; lia|]. by eexists _, _. }
  rw {1}Hids. cbv iota beta. rw Hids. fold owners. rw -Hids. fold owners.
  destruct (fillOwners_spec 0 owners (replicate (Z.to_nat (cfgSlotCount cfg)) zeroSlot)) as (ss & Hf & Hl & _ & Hin).
  { by rw owners_length. }
  { rw length_replicate. lia. }
  assert (rangeStart 0 = 0) as Hr0.
  { unfold rangeStart. pose proof (Z.mod_pos_bound (cfgSlotCount cfg) nodes). pose proof nodes_range. lia. }
  rw Hr0 in Hf. rw Hf. cbn [mbind option_bind]. rw length_replicate in Hl.
  eexists. split; [done|]. cbn [clusterID version slotCount localID peers peerIDs slots]. split_and!; try done; [lia|].
  intros i st Hi. pose proof (lookup_lt_Some _ _ _ Hi) as Hlt.
  destruct (rangeStart_cover (Z.of_nat i) (length (cfgPeers cfg))) as (o & Ho & Hr); [rw rangeStart_end; lia|].
  rw -owners_length in Ho. destruct (lookup_lt_is_Some_2 owners o Ho) as [leader Hlead].
  destruct (lookup_lt_is_Some_2 owners ((o + 1) mod length owners)%nat) as [replica Hrep].
  { apply Nat.mod_upper_bound. lia. }
  exists o, leader, replica. split; [done|]. split; [done|]. split.
  - intros <-. assert (NoDup owners) as Hnd by (unfold owners; rw slice_sort_perm; apply (ok_unique Hok)).
    pose proof (NoDup_lookup _ _ _ _ Hnd Hlead Hrep) as Heq. rw owners_length in Heq Ho.
    destruct (decide (o + 1 = length (cfgPeers cfg))%nat) as [Hlast|Hne].
    + rw Hlast Nat.Div0.mod_same in Heq. lia.
    + rw Nat.mod_small in Heq; lia.
  - split; [done|]. rw (Hin o leader i Hlead Hr) in Hi. injection Hi as <-. unfold initialState. simpl.
    by rw Hrep.
Qed.
End construct.

(** ** Well-formed metadata *)

Record slot_wf (i : nat) (st : SlotState) : Prop := {
  wf_number : Number st = Z.of_nat i;
  wf_leader : LeaderID st <> "";
  wf_term : 0 < Term st < 2 ^ 64
}.

Record meta_wf (m : Metadata) : Prop := {
  wf_id : clusterID m <> "";
  wf_count : 0 < slotCount m < 4294967296;
  wf_length : Z.of_nat (length (slots m)) = slotCount m;
  wf_slots : forall i st, slots m !! i = Some st -> slot_wf i st;
  wf_npeers : (2 <= length (peers m) <= 5)%nat;
  wf_peers : peersValid None (peers m) = true
}.

(** Keys always fall into an assigned slot. *)
Lemma SlotForKey_range m key : meta_wf m -> 0 <= SlotForKey m key < slotCount m.
Proof.
  intros Hm. pose proof (wf_count _ Hm). unfold SlotForKey. destruct (Z.eqb_spec (slotCount m) 0); [lia|].
  apply Z.mod_pos_bound. lia.
Qed.

Lemma Slot_Some m number st : Slot m number = Some st -> slots m !! Z.to_nat number = Some st.
Proof. unfold Slot. by destruct (_ <=? _). Qed.

Lemma Slot_wf m number :
  meta_wf m -> 0 <= number < slotCount m ->
  exists st, Slot m number = Some st /\ slots m !! Z.to_nat number = Some st /\ slot_wf (Z.to_nat number) st.
Proof.
  intros Hm Hn. pose proof (wf_length _ Hm) as Hl. pose proof (wf_count _ Hm).
  destruct (lookup_lt_is_Some_2 (slots m) (Z.to_nat number)) as [st Hst]; [lia|].
  exists st. unfold Slot, u32. rw Z.mod_small; [lia|]. destruct (Z.leb_spec (Z.of_nat (length (slots m))) number); [lia|].
  split_and!; [done..|]. by apply (wf_slots _ Hm).
Qed.

Lemma slotsValid_wf i ss :
  0 <= i -> i + Z.of_nat (length ss) < 4294967296 ->
  slotsValid i ss = true <-> forall j st, ss !! j = Some st -> Number st = i + Z.of_nat j /\ LeaderID st <> "" /\ Term st <> 0.
Proof.
  revert i; induction ss as [|st ss IH]; intros i Hi Hl; cbn [slotsValid]; [by split|].
  simpl length in Hl. rw andb_true_iff negb_true_iff !orb_false_iff negb_false_iff Z.eqb_eq String.eqb_neq Z.eqb_neq.
  unfold u32. rw Z.mod_small; [lia|]. rw IH; [lia|lia|]. split.
  - intros [[[Hn Hd] Ht] Hall] [|j] st' Hj; simpl in Hj.
    + injection Hj as <-. split_and!; [lia|done|done].
    + destruct (Hall j st' Hj) as (H1 & H2 & H3). split_and!; [lia|done|done].
  - intros Hall. split.
    + destruct (Hall 0%nat st eq_refl) as (H1 & H2 & H3). split_and!; [lia|done|done].
    + intros j st' Hj. destruct (Hall (S j) st' Hj) as (H1 & H2 & H3). split_and!; [lia|done|done].
Qed.

(** A node's own snapshot is always one that its peers accept. *)
Lemma validate_Snapshot m : meta_wf m -> validateMetadataSnapshot (Snapshot m) = None.
Proof.
  intros Hm. pose proof (wf_count _ Hm). pose proof (wf_length _ Hm) as Hl. pose proof (wf_npeers _ Hm).
  unfold validateMetadataSnapshot. cbn [ClusterID SlotCount Peers Slots Snapshot].
  rw (proj2 (String.eqb_neq (clusterID m) "")); [apply (wf_id _ Hm)|]. rw (proj2 (Z.eqb_neq (slotCount m) 0)); [lia|].
  rw (proj2 (Z.ltb_ge (Z.of_nat (length (peers m))) 2)); [lia|]. rw (proj2 (Z.ltb_ge 5 (Z.of_nat (length (peers m))))); [lia|].
  rw (proj2 (Z.eqb_eq (Z.of_nat (length (slots m))) (slotCount m))) //. cbn [negb orb].
  rw (wf_peers _ Hm). cbn [negb].
  rw (proj2 (slotsValid_wf 0 (slots m) ltac:(lia) ltac:(lia))); [|done]. intros j st Hj.
  destruct (wf_slots _ Hm j st Hj) as [H1 H2 H3]. split_and!; [lia|done|lia].
Qed.

Lemma setSlot_wf m number st :
  meta_wf m -> slot_wf (Z.to_nat number) st -> meta_wf (setSlot m number st).
Proof.
  intros [H1 H2 H3 H4 H5 H6] Hst. split; try done; simpl.
  - by rw length_insert.
  - intros i st'. rw list_lookup_insert_Some. intros [(<- & <- & _)|[_ Hi]]; [done|]. by apply H4.
Qed.

Lemma bumpVersion_wf m : meta_wf m -> meta_wf (bumpVersion m).
Proof. intros [H1 H2 H3 H4 H5 H6]. by split. Qed.

(** ** Updates *)

Inductive meta_op :=
| OpCommitLeader (number term sequence : Z)
| OpCommitReplica (number term sequence : Z)
| OpPromote (number : Z)
| OpAssign (number : Z) (nodeID : string)
| OpReady (number term sequence : Z)
| OpApplied (number term sequence : Z)
| OpApply (inp : MetadataSnapshot) (allowEqual : bool).

Definition meta_do (op : meta_op) (m : Metadata) : Metadata :=
  match op with
  | OpCommitLeader n t s => (CommitLeaderSequence m n t s).2
  | OpCommitReplica n t s => (CommitReplicaSequence m n t s).2
  | OpPromote n => (Promote m n).2
  | OpAssign n id => (AssignReplica m n id).2
  | OpReady n t s => (MarkReplicaReady m n t s).2
  | OpApplied n t s => (SetReplicaApplied m n t s).2
  | OpApply inp b => (apply m inp b).2
  end.

(** What a local update does to the slot it names. *)
Inductive slot_change (op : meta_op) (st st' : SlotState) : Prop :=
| keep_owner : LeaderID st' = LeaderID st -> ReplicaID st' = ReplicaID st -> Term st' = Term st -> slot_change op st st'
| promoted n : op = OpPromote n -> ReplicaID st <> "" -> LeaderID st' = ReplicaID st -> ReplicaID st' = "" ->
    Term st' = u64 (Term st + 1) -> ReplicaReady st' = false -> slot_change op st st'
| reassigned n id : op = OpAssign n id -> LeaderID st' = LeaderID st -> ReplicaID st' = id -> id <> LeaderID st ->
    Term st' = u64 (Term st + 1) -> ReplicaReady st' = false -> slot_change op st st'.

Definition remote (op : meta_op) : bool := match op with OpApply _ _ => true | _ => false end.

(** Every local update changes at most one slot, and keeps its number. *)
Lemma meta_do_local op m :
  remote op = false ->
  meta_do op m = m \/
  exists n st st', Slot m n = Some st /\ (meta_do op m = setSlot m n st' \/ meta_do op m = bumpVersion (setSlot m n st')) /\
    Number st' = Number st /\ slot_change op st st'.
Proof.
  destruct op as [n t s|n t s|n|n id|n t s|n t s|]; intros Hr; try done; cbn [meta_do];
    unfold CommitLeaderSequence, CommitReplicaSequence, Promote, AssignReplica, MarkReplicaReady, SetReplicaApplied;
    (destruct (Slot m n) as [st|] eqn:Hst; [|by left]).
  - destruct (_ || _); [by left|]. destruct (negb _); [by left|]. right. eexists n, st, _.
    split; [done|]. split; [by left|]. split; [done|by apply keep_owner].
  - destruct (_ || _); [by left|]. destruct (negb _); [by left|]. right. eexists n, st, _.
    split; [done|]. split; [by left|]. split; [done|by apply keep_owner].
  - destruct (String.eqb_spec (ReplicaID st) ""); [by left|]. right. eexists n, st, _.
    split; [done|]. split; [by right|]. split; [done|by eapply promoted].
  - destruct (negb _); [by left|]. destruct (String.eqb_spec id (LeaderID st)); [by left|]. right. eexists n, st, _.
    split; [done|]. split; [by right|]. split; [done|by eapply reassigned].
  - destruct (_ || _); [by left|]. right. eexists n, st, _.
    split; [done|]. split; [by right|]. split; [done|by apply keep_owner].
  - destruct (_ || _); [by left|]. right. eexists n, st, _.
    split; [done|]. split; [by left|]. split; [done|by apply keep_owner].
Qed.

(** No term is at the end of its range. *)
Definition terms_room (m : Metadata) : Prop := forall i st, slots m !! i = Some st -> Term st < 2 ^ 64 - 1.

Lemma change_wf op i st st' :
  slot_wf i st -> Number st' = Number st -> Term st < 2 ^ 64 - 1 -> slot_change op st st' -> slot_wf i st'.
Proof.
  intros [H1 H2 H3] Hn Hroom [Hl Hr Ht|n _ Hne Hl _ Ht _|n id _ Hl _ _ Ht _]; split; rw ?Hn ?Hl ?Ht //; rw u64_small; lia.
Qed.

Lemma meta_do_local_wf op m : meta_wf m -> terms_room m -> remote op = false -> meta_wf (meta_do op m).
Proof.
  intros Hm Hroom Hr. destruct (meta_do_local op m Hr) as [->|(n & st & st' & Hst & Hdo & Hn & Hch)]; [done|].
  apply Slot_Some in Hst. assert (meta_wf (setSlot m n st')) as Hwf.
  { apply setSlot_wf; [done|]. eapply change_wf; [by apply (wf_slots _ Hm)|done|by eapply Hroom|done]. }
  destruct Hdo as [->| ->]; [done|]. by apply bumpVersion_wf.
Qed.

(** Installed slots are the incoming ones up to the applied sequence. *)
Lemma keepApplied_lookup b cur next i st :
  keepApplied b cur next !! i = Some st ->
  exists n, next !! i = Some n /\ Number st = Number n /\ LeaderID st = LeaderID n /\ ReplicaID st = ReplicaID n /\
    Term st = Term n /\ LastSequence st = LastSequence n /\ ReplicaReady st = ReplicaReady n /\
    LastAppliedSequence st = match cur !! i with
      | Some c => if negb b && (Term c =? Term n) then LastAppliedSequence c else LastAppliedSequence n
      | None => LastAppliedSequence n
      end.
Proof.
  revert cur i; induction next as [|n next IH]; intros cur i Hi; [done|]. cbn [keepApplied] in Hi. destruct i as [|i]; simpl in Hi.
  - injection Hi as <-. exists n. destruct cur as [|c cur]; simpl; [by split_and!|].
    by destruct (negb b && (Term c =? Term n)); split_and!.
  - destruct (IH _ _ Hi) as (n' & H1 & H2 & H3 & H4 & H5 & H6 & H7 & H8). exists n'. split_and!; try done.
    rw H8. by destruct cur.
Qed.

Lemma keepApplied_length b cur next : length (keepApplied b cur next) = length next.
Proof. revert cur; induction next as [|n next IH]; intros cur; [done|]. simpl. by rw IH. Qed.

Lemma apply_wf m inp b :
  meta_wf m -> Forall (fun s => 0 <= Term s < 2 ^ 64) (Slots inp) -> meta_wf (apply m inp b).2.
Proof.
  intros Hm Hty. unfold apply. destruct (validateMetadataSnapshot inp) eqn:Hv; [done|].
  destruct (negb (String.eqb _ _) || negb (_ =? _)) eqn:Hid; [done|].
  destruct (negb (equalMetadataPeers _ _)); [done|]. destruct ((_ <? _) || _); [done|].
  apply orb_false_iff in Hid as [_ Hsc%negb_false_iff%Z.eqb_eq]. pose proof (wf_count _ Hm) as Hc.
  unfold validateMetadataSnapshot in Hv. destruct (_ || negb (_ =? _)) eqn:Hn; [done|].
  destruct (negb (peersValid _ _)); [done|].
  destruct (slotsValid 0 (Slots inp)) eqn:Hs; [|done]. apply orb_false_iff in Hn as [_ Hlen%negb_false_iff%Z.eqb_eq].
  destruct Hm as [H1 H2 H3 H4 H5 H6]. split; try done; simpl.
  - rw keepApplied_length. lia.
  - intros i st (n & Hi & Hnum & Hl & _ & Ht & _)%keepApplied_lookup.
    apply (slotsValid_wf 0) with (j := i) (st := n) in Hs as (Hs1 & Hs2 & Hs3); [|lia|lia|done].
    rw Forall_lookup in Hty. specialize (Hty _ _ Hi). split; [rw Hnum; lia|by rw Hl|rw Ht; lia].
Qed.

(** ** New metadata is well formed *)

Lemma peersValid_sorted prev ps :
  Forall (fun p => PeerID p <> "" /\ PeerAddress p <> "" /\ APIAddress p <> "") ps ->
  StronglySorted (fun a b => sltb (PeerID a) (PeerID b) = true) (match prev with Some q => q :: ps | None => ps end) ->
  peersValid prev ps = true.
Proof.
  revert prev; induction ps as [|p ps IH]; intros prev Hf Hs; [done|]. apply Forall_cons in Hf as [(H1 & H2 & H3) Hf].
  cbn [peersValid]. rw !(proj2 (String.eqb_neq _ _)) //. cbn [orb].
  assert (match prev with Some q => negb (sltb (PeerID q) (PeerID p)) | None => false end = false) as ->.
  { destruct prev as [q|]; [|done]. apply StronglySorted_inv in Hs as [_ Hq]. apply Forall_cons in Hq as [-> _]. done. }
  cbn [negb andb]. apply IH; [done|]. destruct prev as [q|]; [|done]. by apply StronglySorted_inv in Hs as [? _].
Qed.

Lemma strictly_sorted (l : list MetadataPeer) :
  StronglySorted (not_less (fun a b => sltb (PeerID a) (PeerID b))) l -> NoDup (PeerID <$> l) ->
  StronglySorted (fun a b => sltb (PeerID a) (PeerID b) = true) l.
Proof.
  induction 1 as [|x l Hs IH Hx]; [constructor|]. rw fmap_cons. intros [Hn Hnd]%NoDup_cons. constructor; [by apply IH|].
  apply Forall_forall. intros y Hy. rw Forall_forall in Hx. specialize (Hx y Hy). unfold not_less in Hx.
  destruct (sltb (PeerID x) (PeerID y)) eqn:Hxy; [done|]. exfalso. apply Hn.
  assert (PeerID x = PeerID y) as -> by by apply sltb_total. by apply list_elem_of_fmap_2.
Qed.

Section new_wf.
Context `{SliceSortOk} (cfg : ClusterConfig).

Lemma NewMetadata_wf local : config_ok cfg -> exists m, NewMetadata cfg local = Some m /\ meta_wf m.
Proof.
  intros Hok. destruct (NewMetadata_slots cfg Hok local) as (m & Hm & Hid & _ & Hc & _ & Hp & _ & Hl & Hs).
  exists m. split; [done|]. split.
  - rw Hid. apply (ok_id _ Hok).
  - rw Hc. apply (ok_count _ Hok).
  - by rw Hl Hc.
  - intros i st Hi. destruct (Hs i st Hi) as (o & leader & replica & Ho & _ & _ & _ & ->).
    assert (leader <> "") as Hne.
    { apply list_elem_of_lookup_2 in Ho. unfold owners in Ho. rw slice_sort_elem list_elem_of_fmap in Ho.
      destruct Ho as (p & -> & Hpp). pose proof (ok_fields _ Hok) as Hf. rw Forall_forall in Hf. by apply Hf in Hpp as (? & _). }
    destruct (ReplicationEnabled cfg); by split.
  - rw Hp slice_sort_length. apply (ok_peers _ Hok).
  - rw Hp. apply peersValid_sorted.
    + rw slice_sort_perm. apply (ok_fields _ Hok).
    + apply strictly_sorted; [apply slice_sort_sorted, (strict_weak_on PeerID), sltb_weak|].
      rw slice_sort_perm. apply (ok_unique _ Hok).
Qed.

(** Every node of the cluster starts from the same map of slots. *)
Lemma NewMetadata_agree local local' m m' :
  NewMetadata cfg local = Some m -> NewMetadata cfg local' = Some m' -> Snapshot m' = Snapshot m.
Proof.
  unfold NewMetadata. destruct (_ || _); [by intros [= <-] [= <-]|]. destruct (PeerID <$> cfgPeers cfg) as [|x xs]; [by intros [= <-] [= <-]|].
  cbv zeta. destruct (fillOwners _ _ _ _ _ _) as [[ss n]|]; [|done]. by intros [= <-] [= <-].
Qed.
End new_wf.

(** ** Fencing *)

(** A record is only accepted for the current term and from the current
    leader, by the current replica. *)
Lemma ValidateReplication_fenced m rec dup :
  ValidateReplication m rec = inl dup ->
  exists st, Slot m (RSlot rec) = Some st /\ RTerm rec = Term st /\ SourceNodeID rec = LeaderID st /\
    ReplicaID st = localID m /\
    if dup then Sequence rec <= LastAppliedSequence st
    else LastAppliedSequence st < Sequence rec /\ Sequence rec = u64 (LastAppliedSequence st + 1).
Proof.
  unfold ValidateReplication. destruct (Slot m (RSlot rec)) as [st|]; [|done].
  destruct (String.eqb_spec (ReplicaID st) (localID m)) as [Hr|]; [|done].
  destruct (Z.eqb_spec (RTerm rec) (Term st)) as [Ht|]; [|done].
  destruct (String.eqb_spec (SourceNodeID rec) (LeaderID st)) as [Hs|]; [|done]. cbn [negb orb].
  destruct (Z.leb_spec (Sequence rec) (LastAppliedSequence st)); [intros [= <-]; by exists st|].
  destruct (Z.eqb_spec (Sequence rec) (u64 (LastAppliedSequence st + 1))); [|done]. intros [= <-]. exists st. by split_and!.
Qed.

Lemma Slot_setSlot m n st st' : Slot m n = Some st -> 0 <= n -> Slot (setSlot m n st') n = Some st'.
Proof.
  intros Hs Hn. pose proof (Slot_Some _ _ _ Hs) as Hl. unfold Slot in *. simpl. rw length_insert.
  destruct (_ <=? n); [done|]. apply list_lookup_insert_eq. by eapply lookup_lt_Some.
Qed.

(** After a promotion, records of the term before are rejected everywhere the
    promotion is known. *)
Lemma Promote_fences m n snap m' st rec :
  0 <= n -> Slot m n = Some st -> 0 <= Term st < 2 ^ 64 -> Promote m n = (inl snap, m') ->
  RSlot rec = n -> RTerm rec = Term st -> exists e, ValidateReplication m' rec = inr e.
Proof.
  intros Hn Hst Ht Hp Hs Hr. unfold Promote in Hp. rw Hst in Hp. destruct (String.eqb (ReplicaID st) ""); [done|].
  injection Hp as _ <-. destruct (ValidateReplication _ rec) as [dup|e] eqn:Hv; [|by eexists].
  apply ValidateReplication_fenced in Hv as (st' & Hst' & Hterm & _). rw Hs in Hst'.
  set (new := mkSlot (Number st) (ReplicaID st) "" (u64 (Term st + 1)) 0 0 false) in *.
  change (Slot (setSlot m n new) n = Some st') in Hst'. rw (Slot_setSlot _ _ _ new Hst Hn) in Hst'. injection Hst' as <-.
  simpl in Hterm. rw Hr in Hterm. unfold u64 in Hterm.
  destruct (decide (Term st = 2 ^ 64 - 1)) as [He|He].
  - by rw He in Hterm.
  - rw Z.mod_small in Hterm; lia.
Qed.

(** ** Saving and restoring *)

Lemma keepApplied_true cur next : keepApplied true cur next = next.
Proof. revert cur; induction next as [|n next IH]; intros cur; [done|]. simpl. rw IH. by destruct cur. Qed.

Lemma RestoreSnapshot_saved m m0 :
  meta_wf m -> clusterID m0 = clusterID m -> slotCount m0 = slotCount m -> peers m0 = peers m -> version m0 <= version m ->
  RestoreSnapshot m0 (SnapshotMetadata m) =
    (None, mkMetadata (clusterID m0) (version m) (slotCount m0) (localID m0) (peers m0) (peerIDs m0) (slots m)).
Proof.
  intros Hm Hid Hc Hp Hv. unfold RestoreSnapshot. cbn [CMClusterID SnapshotMetadata Snapshot ClusterID].
  rw (proj2 (String.eqb_neq (clusterID m) "")); [apply (wf_id _ Hm)|].
  assert (SlotData <$> CMSlots (SnapshotMetadata m) = slots m) as Hss.
  { simpl. rw -list_fmap_compose. apply list_fmap_id. }
  assert (existsb (fun s => String.eqb (LeaderID (SlotData s)) "") (CMSlots (SnapshotMetadata m)) = false) as ->.
  { apply not_true_is_false. intros (x & Hx & He)%existsb_exists. apply list_elem_of_In in Hx. simpl in Hx.
    apply list_elem_of_fmap in Hx as (st & -> & [i Hi]%list_elem_of_lookup). simpl in He. apply String.eqb_eq in He.
    by destruct (wf_slots _ Hm i st Hi). }
  cbv zeta. rw Hss. unfold RestoreMeta, apply. cbn [CMPeers CMVersion CMSlotCount SnapshotMetadata Snapshot Peers MVersion SlotCount].
  assert (match peers m with [] => peers m0 | ps => ps end = peers m) as ->.
  { pose proof (wf_npeers _ Hm). by destruct (peers m); [simpl in *; lia|]. }
  pose proof (validate_Snapshot m Hm) as Hval. unfold Snapshot in Hval. rw Hval. cbn [ClusterID SlotCount Peers MVersion Slots].
  rw Hid Hc Hp String.eqb_refl Z.eqb_refl. unfold equalMetadataPeers. rw bool_decide_eq_true_2 //. cbn [negb orb andb].
  rw (proj2 (Z.ltb_ge (version m) (version m0))) //. by rw keepApplied_true.
Qed.

(** ** The theorems *)

Definition threeNodes : ClusterConfig :=
  mkClusterConfig "c" true true 8 [mkPeer "n2" "h2:1" "h2:2"; mkPeer "n1" "h1:1" "h1:2"; mkPeer "n3" "h3:1" "h3:2"].

Lemma threeNodes_ok : config_ok threeNodes.
Proof. split; try done; [simpl; lia|by apply (bool_decide_unpack _)|repeat constructor; done]. Qed.

(** C38: A new cluster: for every valid configuration the slot map is built without
    an index out of range; every slot has a leader and, with replication, a
    different ready replica; the leaders, in the order of their ids, own
    contiguous ranges whose sizes differ by at most one; and all nodes build
    the same map. *)
Theorem slots_assigned `{SliceSortOk} cfg local local' :
  config_ok cfg ->
  exists m, NewMetadata cfg local = Some m /\ Z.of_nat (length (slots m)) = cfgSlotCount cfg /\
    (forall i st, slots m !! i = Some st -> assigned cfg i st) /\
    exists m', NewMetadata cfg local' = Some m' /\ Snapshot m' = Snapshot m.
Proof.
  intros Hok. destruct (NewMetadata_slots cfg Hok local) as (m & Hm & _ & _ & _ & _ & _ & _ & Hl & Hs).
  destruct (NewMetadata_slots cfg Hok local') as (m' & Hm' & _). exists m. split_and!; [done..|]. exists m'. split; [done|].
  by eapply NewMetadata_agree.
Qed.

Lemma slots_assigned_witness :
  exists m, NewMetadata threeNodes "n1" = Some m /\ Z.of_nat (length (slots m)) = 8 /\
    (forall i st, slots m !! i = Some st -> assigned threeNodes i st) /\
    exists m', NewMetadata threeNodes "n3" = Some m' /\ Snapshot m' = Snapshot m.
Proof. apply (slots_assigned threeNodes "n1" "n3"), threeNodes_ok. Defined.

(** The metadata a node starts with is well formed, and what a node with
    well-formed metadata sends to its peers passes their validation. *)
Theorem own_snapshot_accepted `{SliceSortOk} cfg local :
  config_ok cfg ->
  exists m, NewMetadata cfg local = Some m /\ meta_wf m /\
    forall m', meta_wf m' -> validateMetadataSnapshot (Snapshot m') = None.
Proof.
  intros Hok. destruct (NewMetadata_wf cfg local Hok) as (m & Hm & Hwf). exists m. split_and!; [done|done|]. apply validate_Snapshot.
Qed.

Lemma own_snapshot_accepted_witness :
  exists m, NewMetadata threeNodes "n2" = Some m /\ meta_wf m /\
    forall m', meta_wf m' -> validateMetadataSnapshot (Snapshot m') = None.
Proof. apply own_snapshot_accepted, threeNodes_ok. Defined.

Definition op_typed (op : meta_op) : Prop :=
  match op with OpApply inp _ => Forall (fun s => 0 <= Term s < 2 ^ 64) (Slots inp) | _ => True end.

(** C39: Every update of the metadata, accepted or rejected, local or installed
    from a peer, keeps it well formed: the slot count, the numbering of the
    slots, a leader for each and a non-zero term, as long as no term is at the
    end of the 64-bit range. *)
Theorem updates_keep_wf op m : meta_wf m -> terms_room m -> op_typed op -> meta_wf (meta_do op m).
Proof.
  intros Hm Hroom Hty. destruct (remote op) eqn:Hr; [|by apply meta_do_local_wf].
  destruct op; try done. by apply apply_wf.
Qed.

Definition firstMeta : Metadata := default (mkMetadata "" 0 0 "" [] ∅ []) (NewMetadata threeNodes "n1").
Lemma firstMeta_wf : meta_wf firstMeta.
Proof. destruct (NewMetadata_wf threeNodes "n1" threeNodes_ok) as (m & Hm & Hwf). unfold firstMeta. by rw Hm. Qed.
Lemma firstMeta_room : terms_room firstMeta.
Proof.
  destruct (NewMetadata_slots threeNodes threeNodes_ok "n1") as (m & Hm & _ & _ & _ & _ & _ & _ & _ & Hs).
  unfold firstMeta. rw Hm. intros i st Hi. destruct (Hs i st Hi) as (o & l & r & _ & _ & _ & _ & ->). done.
Qed.
Lemma updates_keep_wf_witness : meta_wf (meta_do (OpPromote 5) firstMeta).
Proof. apply updates_keep_wf; [apply firstMeta_wf|apply firstMeta_room|done]. Defined.

(** A local update changes the owners of at most one slot, and only in two
    ways: a promotion makes the old replica the leader, without replica, and
    an assignment puts a replica that is not the leader; both advance the term
    and leave the replica not ready. *)
Theorem ownership_changes op m i st st' :
  remote op = false -> slots m !! i = Some st -> slots (meta_do op m) !! i = Some st' -> slot_change op st st'.
Proof.
  intros Hr Hi Hi'. destruct (meta_do_local op m Hr) as [Heq|(n & sn & sn' & Hn & Hdo & _ & Hch)].
  - rw Heq in Hi'. assert (st' = st) as -> by congruence. by apply keep_owner.
  - assert (slots (meta_do op m) = <[Z.to_nat n := sn']> (slots m)) as Hs by by destruct Hdo as [-> | ->].
    rw Hs in Hi'. apply Slot_Some in Hn. apply list_lookup_insert_Some in Hi' as [(<- & <- & _)|[_ Hi']].
    + assert (sn = st) as <- by congruence. done.
    + assert (st' = st) as -> by congruence. by apply keep_owner.
Qed.

Lemma ownership_changes_witness :
  slot_change (OpPromote 5) (default zeroSlot (slots firstMeta !! 5%nat))
    (default zeroSlot (slots (meta_do (OpPromote 5) firstMeta) !! 5%nat)).
Proof. apply (ownership_changes (OpPromote 5) firstMeta 5); [done|vm_compute; reflexivity|vm_compute; reflexivity]. Defined.

(** Fencing: once a slot was promoted, replication records of the term before
    the promotion are rejected. *)
Theorem promotion_fences m n snap m' st rec :
  0 <= n -> Slot m n = Some st -> 0 <= Term st < 2 ^ 64 -> Promote m n = (inl snap, m') ->
  RSlot rec = n -> RTerm rec = Term st -> exists e, ValidateReplication m' rec = inr e.
Proof. apply Promote_fences. Qed.

Lemma promotion_fences_witness :
  exists e, ValidateReplication (Promote firstMeta 0).2 (mkRecord "n1" 0 1 1 ["SET"; "k"; "v"]) = inr e.
Proof.
  eapply (promotion_fences firstMeta 0 _ _ _ (mkRecord "n1" 0 1 1 ["SET"; "k"; "v"]));
    [done|vm_compute; reflexivity|simpl; lia|vm_compute; reflexivity|done|done].
Defined.

(** What a node saves in its snapshot restores version and slots exactly, also
    into a freshly built node of the same cluster. *)
Theorem metadata_round_trip m m0 :
  meta_wf m -> clusterID m0 = clusterID m -> slotCount m0 = slotCount m -> peers m0 = peers m -> version m0 <= version m ->
  RestoreSnapshot m0 (SnapshotMetadata m) =
    (None, mkMetadata (clusterID m0) (version m) (slotCount m0) (localID m0) (peers m0) (peerIDs m0) (slots m)).
Proof. apply RestoreSnapshot_saved. Qed.

Lemma metadata_round_trip_witness :
  RestoreSnapshot firstMeta (SnapshotMetadata (meta_do (OpPromote 5) firstMeta)) =
    (None, mkMetadata "c" 2 8 "n1" (peers firstMeta) (peerIDs firstMeta) (slots (meta_do (OpPromote 5) firstMeta))).
Proof.
  apply (metadata_round_trip (meta_do (OpPromote 5) firstMeta) firstMeta); [|done|done|done|done].
  apply meta_do_local_wf; [apply firstMeta_wf|apply firstMeta_room|done].
Defined.

(** Routing: with well-formed metadata every key resolves to a slot in range
    and to the leader of that slot, and it is local exactly on the leader. *)
Theorem key_routed m key :
  meta_wf m ->
  exists st, slots m !! Z.to_nat (SlotForKey m key) = Some st /\ 0 <= SlotForKey m key < slotCount m /\
    Number st = SlotForKey m key /\
    Resolve (localID m) m key = mkRoute (LeaderID st) (SlotForKey m key) (String.eqb (LeaderID st) (localID m)).
Proof.
  intros Hm. pose proof (SlotForKey_range m key Hm) as Hr. destruct (Slot_wf m _ Hm Hr) as (st & Hst & Hl & [Hn Hne _]).
  exists st. split_and!; [done|lia|lia|lia|]. unfold Resolve. cbv zeta. rw Hst.
  by rw (proj2 (String.eqb_neq (LeaderID st) "")).
Qed.

Lemma key_routed_witness :
  exists st, slots firstMeta !! Z.to_nat (SlotForKey firstMeta "user:1") = Some st /\ 0 <= SlotForKey firstMeta "user:1" < 8 /\
    Number st = SlotForKey firstMeta "user:1" /\
    Resolve "n1" firstMeta "user:1" = mkRoute (LeaderID st) (SlotForKey firstMeta "user:1") (String.eqb (LeaderID st) "n1").
Proof. apply (key_routed firstMeta "user:1"), firstMeta_wf. Defined.
