(* ===== verification/SnapshotFile.v ===== *)
(** * Snapshot files: [internal/snapshot/model.go] and [codec.go]

    The logical snapshot of a node, its checksum, and the two file formats.
    [encoding/gob] is the class [Gob]: [ungobModel] decodes exactly one value,
    with trailing data refused; [None] is an error of the library.  Times are
    nanoseconds since the zero time.  A value of no bytes is nil, as the engine
    makes it. *)
From S2P Require Import Prelude Encoding GoText GoTime Json JsonCodec JsonPrefix Store Snapshot Metadata.
Local Open Scope Z_scope.

Definition FormatVersion : Z := 1.
Definition FormatJSON : string := "json".
Definition FormatBinary : string := "binary".

Record Model := mkModel {
  MFormat : string;
  MFormatVersion : Z;
  MNodeID : string;
  MCreatedAt : Z;
  MCluster : ClusterMetadata;
  MEntries : list SnapEntry;
  MChecksum : string
}.
Definition withChecksum (m : Model) (checksum : string) : Model :=
  mkModel (MFormat m) (MFormatVersion m) (MNodeID m) (MCreatedAt m) (MCluster m) (MEntries m) checksum.

(** ** JSON *)

Definition entryJson (e : SnapEntry) : Json :=
  JObj [("key", JStr (SKey e)); ("valueType", JStr (SValueType e)); ("value", encBytes (SValue e));
        ("approxSize", encUint (SApproxSize e)); ("expiresAtNs", encInt (SExpiresAtNs e))].
Definition peerJson (p : MetadataPeer) : Json :=
  JObj [("id", JStr (PeerID p)); ("address", JStr (PeerAddress p)); ("apiAddress", JStr (APIAddress p))].
Definition slotJson (s : SnapSlot) : Json :=
  let d := SlotData s in
  JObj ([("number", encUint (Number d)); ("role", JStr (SlotRole s))] ++ omitString "leaderId" (LeaderID d) ++
        omitString "replicaId" (ReplicaID d) ++ [("term", encUint (Term d))] ++ omitUint "lastSequence" (LastSequence d) ++
        [("lastAppliedSequence", encUint (LastAppliedSequence d))] ++ omitBool "replicaReady" (ReplicaReady d)).

(** [null] for the nil slice of entries of the canonical copy. *)
Definition modelJson (nilEntries : bool) (m : Model) : option Json :=
  created ← timeText (MCreatedAt m);
  let c := MCluster m in
  Some (JObj ([("format", JStr (MFormat m)); ("formatVersion", encUint (MFormatVersion m)); ("nodeId", JStr (MNodeID m))] ++
    omitString "clusterId" (CMClusterID c) ++ [("createdAt", JStr created)] ++ omitUint "slotCount" (CMSlotCount c) ++
    omitUint "metadataVersion" (CMVersion c) ++ omitList "peers" peerJson (CMPeers c) ++ omitList "slots" slotJson (CMSlots c) ++
    [("entries", if nilEntries && bool_decide (MEntries m = []) then JNull else JArr (map entryJson (MEntries m)));
     ("checksum", JStr (MChecksum m))])).
Definition marshalModel (m : Model) : option string := printJson <$> modelJson true m.
Definition indentModel (m : Model) : option string := indentJson <$> modelJson false m.

Definition decEntry (strict : bool) : Dec SnapEntry :=
  decStruct strict ["key"; "valueType"; "value"; "approxSize"; "expiresAtNs"] (fun get e =>
    key ← get _ "key" decString (SKey e); type ← get _ "valueType" decString (SValueType e);
    value ← get _ "value" decBytes (SValue e); size ← get _ "approxSize" decUint64 (SApproxSize e);
    expires ← get _ "expiresAtNs" decInt64 (SExpiresAtNs e);
    Some (mkSnapEntry key type value size expires)).
Definition decPeer (strict : bool) : Dec MetadataPeer :=
  decStruct strict ["id"; "address"; "apiAddress"] (fun get p =>
    id ← get _ "id" decString (PeerID p); address ← get _ "address" decString (PeerAddress p);
    api ← get _ "apiAddress" decString (APIAddress p); Some (mkPeer id address api)).
Definition decSlot : Dec SnapSlot :=
  decStruct true ["number"; "role"; "leaderId"; "replicaId"; "term"; "lastSequence"; "lastAppliedSequence"; "replicaReady"] (fun get s =>
    let d := SlotData s in
    number ← get _ "number" decUint32 (Number d); role ← get _ "role" decString (SlotRole s);
    leader ← get _ "leaderId" decString (LeaderID d); replica ← get _ "replicaId" decString (ReplicaID d);
    term ← get _ "term" decUint64 (Term d); last ← get _ "lastSequence" decUint64 (LastSequence d);
    applied ← get _ "lastAppliedSequence" decUint64 (LastAppliedSequence d);
    ready ← get _ "replicaReady" decBool (ReplicaReady d);
    Some (mkSnapSlot role (mkSlot number leader replica term last applied ready))).

Definition zeroEntry : SnapEntry := mkSnapEntry "" "" "" 0 0.
Definition zeroPeer : MetadataPeer := mkPeer "" "" "".
Definition zeroSlot : SnapSlot := mkSnapSlot "" (mkSlot 0 "" "" 0 0 0 false).
Definition zeroModel : Model := mkModel "" 0 "" 0 (mkClusterMetadata "" 0 0 [] []) [] "".
Definition decModel : Dec Model :=
  decStruct true ["format"; "formatVersion"; "nodeId"; "clusterId"; "createdAt"; "slotCount"; "metadataVersion"; "peers"; "slots"; "entries"; "checksum"]
    (fun get m =>
      let c := MCluster m in
      format ← get _ "format" decString (MFormat m); version ← get _ "formatVersion" decUint32 (MFormatVersion m);
      node ← get _ "nodeId" decString (MNodeID m); cluster ← get _ "clusterId" decString (CMClusterID c);
      created ← get _ "createdAt" decTime (MCreatedAt m); count ← get _ "slotCount" decUint32 (CMSlotCount c);
      meta ← get _ "metadataVersion" decUint64 (CMVersion c);
      peers ← get _ "peers" (decSlice zeroPeer (decPeer true)) (mkSlice (CMPeers c) []);
      slots ← get _ "slots" (decSlice zeroSlot decSlot) (mkSlice (CMSlots c) []);
      entries ← get _ "entries" (decSlice zeroEntry (decEntry true)) (mkSlice (MEntries m) []);
      checksum ← get _ "checksum" decString (MChecksum m);
      Some (mkModel format version node created (mkClusterMetadata cluster count meta (visible peers) (visible slots))
              (visible entries) checksum)).
Definition parseModel (file : string) : option Model := j ← parseJson file; decModel j zeroModel.

(** ** Gob *)

Class Gob := {
  gobModel : Model -> option string;
  ungobModel : string -> option Model
}.

Inductive ModelErr :=
| ErrFormat (format : string) | ErrFormatVersion (version : Z) | ErrNodeEmpty | ErrCreatedEmpty
| ErrNotDigest | ErrChecksumInvalid | ErrDuplicateKey (key : string) | ErrValueType (key type : string)
| ErrSlotOutside (slot count : Z) | ErrDuplicateSlot (slot : Z) | ErrRole (slot : Z) (role : string)
| ErrChecksumMismatch (got want : string) | ErrEncode | ErrDecode | ErrShort | ErrHeader | ErrTooLarge
| ErrLength (declared actual : Z) | ErrDeclares (declared format : string).

(** ** Validation and checksum *)

Fixpoint validateEntries (keys : gset string) (entries : list SnapEntry) : option ModelErr :=
  match entries with
  | [] => None
  | entry :: entries =>
      if bool_decide (SKey entry ∈ keys) then Some (ErrDuplicateKey (SKey entry))
      else if negb (existsb (String.eqb (SValueType entry)) ["string"; "list"; "zset"])
      then Some (ErrValueType (SKey entry) (SValueType entry))
      else validateEntries ({[SKey entry]} ∪ keys) entries
  end.

Fixpoint validateSlots (slotCount : Z) (seen : gset Z) (slots : list SnapSlot) : option ModelErr :=
  match slots with
  | [] => None
  | slot :: slots =>
      let number := Number (SlotData slot) in
      if (slotCount =? 0) || (slotCount <=? number) then Some (ErrSlotOutside number slotCount)
      else if bool_decide (number ∈ seen) then Some (ErrDuplicateSlot number)
      else if negb (existsb (String.eqb (SlotRole slot)) ["leader"; "replica"; "none"]) then Some (ErrRole number (SlotRole slot))
      else validateSlots slotCount ({[number]} ∪ seen) slots
  end.

Definition validateMetadata (m : Model) (requireChecksum : bool) : option ModelErr :=
  if negb (String.eqb (MFormat m) FormatJSON) && negb (String.eqb (MFormat m) FormatBinary) then Some (ErrFormat (MFormat m))
  else if negb (MFormatVersion m =? FormatVersion) then Some (ErrFormatVersion (MFormatVersion m))
  else if String.eqb (MNodeID m) "" then Some ErrNodeEmpty
  else if MCreatedAt m =? 0 then Some ErrCreatedEmpty
  else if requireChecksum && negb (slen (MChecksum m) =? 64) then Some ErrNotDigest
  else if requireChecksum && bool_decide (hexDecode (MChecksum m) = None) then Some ErrChecksumInvalid
  else match validateEntries ∅ (MEntries m) with
  | Some err => Some err
  | None => validateSlots (CMSlotCount (MCluster m)) ∅ (CMSlots (MCluster m))
  end.

Section model.
Context `{SliceSort, Crypto, Gob}.

(** The checksum is that of the model in canonical order, without a checksum;
    when the library cannot encode the model, that of no bytes. *)
Definition canonical (m : Model) : Model :=
  let c := MCluster m in
  mkModel (MFormat m) (MFormatVersion m) (MNodeID m) (MCreatedAt m)
    (mkClusterMetadata (CMClusterID c) (CMSlotCount c) (CMVersion c)
       (slice_sort (fun a b => sltb (PeerID a) (PeerID b)) (CMPeers c))
       (slice_sort (fun a b => Number (SlotData a) <? Number (SlotData b)) (CMSlots c)))
    (slice_sort (fun a b => sltb (SKey a) (SKey b)) (MEntries m)) "".
Definition expectedChecksum (m : Model) : string := hexEncode (sha256 (default "" (marshalModel (canonical m)))).

Definition Seal (m : Model) : Model + ModelErr :=
  match validateMetadata m false with
  | Some err => inr err
  | None => inl (withChecksum m (expectedChecksum m))
  end.
Definition ModelVerify (m : Model) : option ModelErr :=
  match validateMetadata m true with
  | Some err => Some err
  | None =>
      if negb (String.eqb (MChecksum m) (expectedChecksum m)) then Some (ErrChecksumMismatch (MChecksum m) (expectedChecksum m))
      else None
  end.

(** ** Files *)

Definition binaryHeader : string := "MNEMOKV-SNAPSHOT" +:+ String (chr 0) "".

(** The bytes given to the writer, one string per call, and the error after
    them. *)
Definition Encode (m : Model) : list string * option ModelErr :=
  match ModelVerify m with
  | Some err => ([], Some err)
  | None =>
      if String.eqb (MFormat m) FormatJSON then
        match indentModel m with Some text => ([text], None) | None => ([], Some ErrEncode) end
      else if String.eqb (MFormat m) FormatBinary then
        match gobModel m with
        | Some payload => ([binaryHeader; putBE 8 (u64 (slen payload)); payload], None)
        | None => ([binaryHeader], Some ErrEncode)
        end
      else ([], Some (ErrFormat (MFormat m)))
  end.

Definition readBinary (file : string) : Model + ModelErr :=
  if slen file <? slen binaryHeader then inr ErrShort
  else if negb (String.eqb (stake (String.length binaryHeader) file) binaryHeader) then inr ErrHeader
  else match readBE 8 (sdrop (String.length binaryHeader) file) with
  | None => inr ErrShort
  | Some (length, rest) =>
      if maxInt64 <=? length then inr ErrTooLarge
      else
        let payload := stake (Z.to_nat (length + 1)) rest in
        if negb (slen payload =? length) then inr (ErrLength length (slen payload))
        else match ungobModel payload with Some m => inl m | None => inr ErrDecode end
  end.

Definition Decode (file format : string) : Model + ModelErr :=
  let model :=
    if String.eqb format FormatJSON then match parseModel file with Some m => inl m | None => inr ErrDecode end
    else if String.eqb format FormatBinary then readBinary file
    else inr (ErrFormat format) in
  match model with
  | inr err => inr err
  | inl m =>
      if negb (String.eqb (MFormat m) format) then inr (ErrDeclares (MFormat m) format)
      else match ModelVerify m with Some err => inr err | None => inl m end
  end.
End model.

(** ** JSON round trips *)

Record json_entry (e : SnapEntry) : Prop := {
  je_key : utf8 (SKey e);
  je_type : utf8 (SValueType e);
  je_size : 0 <= SApproxSize e <= maxUint64;
  je_expires : int64_range (SExpiresAtNs e)
}.
Definition json_peer (p : MetadataPeer) : Prop := utf8 (PeerID p) /\ utf8 (PeerAddress p) /\ utf8 (APIAddress p).
Record json_slot (s : SnapSlot) : Prop := {
  jsl_strings : utf8 (SlotRole s) /\ utf8 (LeaderID (SlotData s)) /\ utf8 (ReplicaID (SlotData s));
  jsl_number : 0 <= Number (SlotData s) <= 4294967295;
  jsl_counts : 0 <= Term (SlotData s) <= maxUint64 /\ 0 <= LastSequence (SlotData s) <= maxUint64 /\
    0 <= LastAppliedSequence (SlotData s) <= maxUint64
}.
(** A model that JSON can represent. *)
Record json_model (m : Model) : Prop := {
  jm_strings : utf8 (MFormat m) /\ utf8 (MNodeID m) /\ utf8 (MChecksum m) /\ utf8 (CMClusterID (MCluster m));
  jm_counts : 0 <= MFormatVersion m <= 4294967295 /\ 0 <= CMSlotCount (MCluster m) <= 4294967295 /\ 0 <= CMVersion (MCluster m) <= maxUint64;
  jm_peers : Forall json_peer (CMPeers (MCluster m));
  jm_slots : Forall json_slot (CMSlots (MCluster m));
  jm_entries : Forall json_entry (MEntries m)
}.

Lemma decEntry_json strict e : json_entry e -> decEntry strict (entryJson e) zeroEntry = Some e.
Proof.
  intros [_ _ Hs Hx]. pose proof (decBytes_enc (SValue e) "") as H1. pose proof (decUint_enc maxUint64 (SApproxSize e) 0 Hs ltac:(lia)) as H2.
  pose proof (decInt64_enc (SExpiresAtNs e) 0 Hx) as H3. unfold entryJson. revert H1 H2 H3.
  generalize (encBytes (SValue e)) (encUint (SApproxSize e)) (encInt (SExpiresAtNs e)). intros j1 j2 j3 H1 H2 H3.
  change (decUint maxUint64) with decUint64 in H2. destruct strict; lazy -[decBytes decUint64 decInt64 SKey SValueType SValue SApproxSize SExpiresAtNs];
    rw H1 H2 H3; by destruct e.
Qed.
Lemma decPeer_json strict p : decPeer strict (peerJson p) zeroPeer = Some p.
Proof. by destruct strict, p. Qed.
Lemma decSlot_json s : json_slot s -> decSlot (slotJson s) zeroSlot = Some s.
Proof.
  intros [_ Hn (Ht & Hl & Ha)]. destruct s as [role [number leader replica term last applied ready]]. cbn in Hn, Ht, Hl, Ha.
  pose proof (decUint_enc 4294967295 number 0 Hn ltac:(done)) as H1. pose proof (decUint_enc maxUint64 term 0 Ht ltac:(done)) as H2.
  pose proof (decUint_enc maxUint64 last 0 Hl ltac:(done)) as H3. pose proof (decUint_enc maxUint64 applied 0 Ha ltac:(done)) as H4.
  unfold slotJson, omitString, omitUint, omitBool. cbn [SlotData Number LeaderID ReplicaID Term LastSequence LastAppliedSequence ReplicaReady SlotRole].
  revert H1 H2 H3 H4. generalize (encUint number) (encUint term) (encUint last) (encUint applied). intros j1 j2 j3 j4.
  change (decUint maxUint64) with decUint64. change (decUint 4294967295) with decUint32. intros H1 H2 H3 H4.
  destruct (String.eqb_spec leader "") as [->|_], (String.eqb_spec replica "") as [->|_], (Z.eqb_spec last 0) as [->|_], ready;
    lazy -[decUint64 decUint32]; rw ?H1 ?H2 ?H3 ?H4; done.
Qed.

Lemma faithful_entry e : json_entry e -> faithful 1 (entryJson e).
Proof. intros [Hk Ht Hs Hx]. apply faithful_obj. members. Qed.
Lemma faithful_peer p : json_peer p -> faithful 1 (peerJson p).
Proof. intros (Hi & Ha & Hp). apply faithful_obj. members. Qed.
Lemma faithful_slot s : json_slot s -> faithful 1 (slotJson s).
Proof.
  intros [(Hr & Hl & Hp) Hn (Ht & Hq & Ha)]. apply faithful_obj. unfold omitString, omitUint, omitBool.
  assert (0 <= Number (SlotData s) <= maxUint64) by (unfold maxUint64; lia).
  destruct (String.eqb _ ""), (String.eqb (ReplicaID _) ""), (_ =? 0), (ReplicaReady _); cbn [app]; members.
Qed.

Lemma faithful_model nilEntries m j : json_model m -> modelJson nilEntries m = Some j -> faithful 3 j.
Proof.
  intros [(Hf & Hn & Hk & Hc) (Hv & Hs & Hm) Hps Hss Hes]. unfold modelJson. destruct (timeText (MCreatedAt m)) as [created|] eqn:Ht; [|done].
  intros Heq. apply (inj Some) in Heq as <-. apply utf8_time in Ht.
  assert (He : faithful 2 (if nilEntries && bool_decide (MEntries m = []) then JNull else JArr (map entryJson (MEntries m)))).
  { destruct (_ && _); [split; simpl; [done|done|lia]|]. apply faithful_arr, Forall_map. eapply Forall_impl; [done|]. apply faithful_entry. }
  assert (Hp : faithful 2 (JArr (map peerJson (CMPeers (MCluster m))))).
  { apply faithful_arr, Forall_map. eapply Forall_impl; [done|]. apply faithful_peer. }
  assert (Hl : faithful 2 (JArr (map slotJson (CMSlots (MCluster m))))).
  { apply faithful_arr, Forall_map. eapply Forall_impl; [done|]. apply faithful_slot. }
  assert (0 <= MFormatVersion m <= maxUint64 /\ 0 <= CMSlotCount (MCluster m) <= maxUint64) as [? ?] by (unfold maxUint64; lia).
  apply faithful_obj. rw !Forall_app. unfold omitString, omitUint, omitList.
  split_and!; repeat case_match; members.
Qed.

Lemma decModel_json m j : json_model m -> modelJson false m = Some j -> decModel j zeroModel = Some m.
Proof.
  intros [(Hf & Hn & Hk & Hc) (Hv & Hs & Hm) Hps Hss Hes]. unfold modelJson. destruct (timeText (MCreatedAt m)) as [created|] eqn:Ht; [|done].
  intros Heq. apply (inj Some) in Heq as <-. pose proof (time_round_trip _ _ Ht) as H1.
  pose proof (decUint_enc 4294967295 (MFormatVersion m) 0 Hv ltac:(done)) as H2.
  pose proof (decUint_enc 4294967295 (CMSlotCount (MCluster m)) 0 Hs ltac:(done)) as H3.
  pose proof (decUint_enc maxUint64 (CMVersion (MCluster m)) 0 Hm ltac:(done)) as H4.
  assert (H5 : decSlice zeroPeer (decPeer true) (JArr (map peerJson (CMPeers (MCluster m)))) (mkSlice [] []) = Some (mkSlice (CMPeers (MCluster m)) [])).
  { apply decSlice_enc. eapply Forall_impl; [done|]. intros p _. apply decPeer_json. }
  assert (H6 : decSlice zeroSlot decSlot (JArr (map slotJson (CMSlots (MCluster m)))) (mkSlice [] []) = Some (mkSlice (CMSlots (MCluster m)) [])).
  { apply decSlice_enc. eapply Forall_impl; [done|]. apply decSlot_json. }
  assert (H7 : decSlice zeroEntry (decEntry true) (JArr (map entryJson (MEntries m))) (mkSlice [] []) = Some (mkSlice (MEntries m) [])).
  { apply decSlice_enc. eapply Forall_impl; [done|]. apply decEntry_json. }
  clear - H1 H2 H3 H4 H5 H6 H7. unfold omitString, omitUint, omitList. cbn [andb].
  destruct m as [format version node created' [cluster count meta ps ss] es checksum].
  cbn [MFormat MFormatVersion MNodeID MCreatedAt MCluster MEntries MChecksum CMClusterID CMSlotCount CMVersion CMPeers CMSlots] in *. clear - H1 H2 H3 H4 H5 H6 H7.
  revert H2 H3 H4 H5 H6 H7. generalize (encUint version) (encUint count) (encUint meta) (JArr (map peerJson ps)) (JArr (map slotJson ss))
    (JArr (map entryJson es)). change (decUint maxUint64) with decUint64. change (decUint 4294967295) with decUint32.
  unfold decModel. generalize (decSlice zeroPeer (decPeer true)) (decSlice zeroSlot decSlot) (decSlice zeroEntry (decEntry true)).
  intros dp ds de j2 j3 j4 j5 j6 j7 H2 H3 H4 H5 H6 H7.
  destruct (String.eqb_spec cluster "") as [->|_], (Z.eqb_spec count 0) as [->|_], (Z.eqb_spec meta 0) as [->|_], ps, ss;
    lazy -[decUint64 decUint32 parseTime]; rw ?H1 ?H2 ?H3 ?H4 ?H5 ?H6 ?H7; done.
Qed.

(** A model that JSON can represent is read back as it was written. *)
Lemma parse_indentModel m text : json_model m -> indentModel m = Some text -> parseModel text = Some m.
Proof.
  intros Hm. unfold indentModel, parseModel. destruct (modelJson false m) as [j|] eqn:Hj; [|done]. intros Heq. apply (inj Some) in Heq as <-.
  destruct (faithful_model _ _ _ Hm Hj) as [Hok Hv Hd]. rw parse_indent //; [unfold maxNestingDepth; lia|]. rw Hv. by apply decModel_json.
Qed.

(** ** Properties *)

Lemma hexDecode_encode_some s : hexDecode (hexEncode s) <> None.
Proof. by rw hex_round_trip. Qed.

Section file_spec.
Context `{SliceSort, CryptoOk, Gob}.

Lemma expectedChecksum_with m c : expectedChecksum (withChecksum m c) = expectedChecksum m.
Proof. done. Qed.

Lemma Seal_verify m m' : Seal m = inl m' -> ModelVerify m' = None /\ m' = withChecksum m (expectedChecksum m).
Proof.
  unfold Seal. destruct (validateMetadata m false) eqn:Hv; [done|]. intros [= <-]. split; [|done]. unfold ModelVerify.
  rw expectedChecksum_with. cbn [withChecksum MChecksum]. rw String.eqb_refl. cbn [negb].
  assert (validateMetadata (withChecksum m (expectedChecksum m)) true = validateMetadata m false) as ->; [|by rw Hv].
  unfold validateMetadata. cbn [withChecksum MFormat MFormatVersion MNodeID MCreatedAt MCluster MEntries MChecksum andb].
  unfold expectedChecksum. rw hexEncode_length sha256_length. cbn [negb Z.mul Z.eqb Pos.mul Pos.eqb].
  by rw bool_decide_eq_false_2; [apply hexDecode_encode_some|].
Qed.

(** What [encoding/gob] writes, it reads back. *)
Definition gob_ok (m : Model) : Prop :=
  forall payload, gobModel m = Some payload -> ungobModel payload = Some m /\ slen payload < maxInt64.

Lemma readBinary_exact payload rest :
  slen payload < maxInt64 ->
  readBinary (binaryHeader +:+ putBE 8 (u64 (slen payload)) +:+ payload +:+ rest) =
    if slen rest =? 0 then match ungobModel payload with Some m => inl m | None => inr ErrDecode end
    else inr (ErrLength (slen payload) (slen payload + 1)).
Proof.
  intros Hlen. unfold readBinary. pose proof (slen_nonneg payload) as Hp. pose proof (slen_nonneg rest) as Hr.
  rw (slen_app binaryHeader) (proj2 (Z.ltb_ge _ (slen binaryHeader))).
  { pose proof (slen_nonneg (putBE 8 (u64 (slen payload)) +:+ payload +:+ rest)). lia. }
  rw stake_app sdrop_app String.eqb_refl. cbn [negb]. unfold maxInt64 in Hlen. unfold u64.
  rw Z.mod_small; [lia|]. rw readBE_put; [lia|]. unfold maxInt64. destruct (Z.leb_spec 9223372036854775807 (slen payload)); [lia|].
  cbv zeta. destruct rest as [|c rest].
  - rw app_string_nil_r stake_all; [unfold slen in *; lia|]. by rw !Z.eqb_refl.
  - assert (slen (stake (Z.to_nat (slen payload + 1)) (payload +:+ String c rest)) = slen payload + 1) as Hs.
    { rw slen_cons in Hr. unfold slen in *. rw length_stake length_app_string. cbn [String.length]. lia. }
    rw Hs. destruct (Z.eqb_spec (slen payload + 1) (slen payload)); [lia|]. cbn [negb]. rw slen_cons.
    pose proof (slen_nonneg rest). by destruct (Z.eqb_spec (1 + slen rest) 0); [lia|].
Qed.

Lemma slen_binaryHeader : slen binaryHeader = 17.
Proof. done. Qed.

(** A file that was cut off is refused. *)
Lemma readBinary_cut payload n :
  slen payload < maxInt64 ->
  let file := binaryHeader +:+ putBE 8 (u64 (slen payload)) +:+ payload in
  (n < String.length file)%nat -> exists err, readBinary (stake n file) = inr err.
Proof.
  intros Hlen file Hn. pose proof (slen_nonneg payload) as Hp. unfold readBinary.
  assert (Hl : slen (stake n file) = Z.of_nat n) by (unfold slen; rw length_stake; lia).
  assert (Hf : slen file = 25 + slen payload) by (unfold file; rw (slen_app binaryHeader) (slen_app (putBE _ _)) slen_binaryHeader slen_put; lia).
  rw Hl slen_binaryHeader. destruct (Z.ltb_spec (Z.of_nat n) 17); [by eexists|].
  destruct (negb _); [by eexists|].
  assert (Hd : sdrop (String.length binaryHeader) (stake n file) = stake (n - 17) (putBE 8 (u64 (slen payload)) +:+ payload)).
  { unfold file. rw sdrop_stake. change (String.length binaryHeader) with 17%nat. done. }
  rw Hd. unfold readBE at 1. destruct (Z.ltb_spec (slen (stake (n - 17) (putBE 8 (u64 (slen payload)) +:+ payload))) (Z.of_nat 8)) as [|Hge]; [by eexists|].
  assert (Hsl : slen (stake (n - 17) (putBE 8 (u64 (slen payload)) +:+ payload)) = Z.of_nat n - 17).
  { unfold slen in *. rw length_stake. rw length_app_string. pose proof (slen_put 8 (u64 (Z.of_nat (String.length payload)))) as Hb. unfold slen in Hb.
    lia. }
  rw Hsl in Hge.
  assert (H8 : stake 8 (stake (n - 17) (putBE 8 (u64 (slen payload)) +:+ payload)) = putBE 8 (u64 (slen payload))).
  { rw stake_stake. replace (Nat.min 8 (n - 17)) with 8%nat by lia. apply (stake_app (putBE 8 (u64 (slen payload)))). }
  rw H8. unfold maxInt64 in Hlen. unfold u64. rw Z.mod_small; [lia|]. rw getBE_put; [lia|]. rw Z.mod_small; [lia|]. rw Z.mul_0_r Z.add_0_l.
  unfold maxInt64. destruct (_ <=? _); [by eexists|]. cbv zeta.
  destruct (Z.eqb_spec (slen (stake (Z.to_nat (slen payload + 1))
    (sdrop 8 (stake (n - 17) (putBE 8 (slen payload) +:+ payload))))) (slen payload)) as [Heq|]; [|by eexists]. exfalso.
  unfold slen in Heq, Hsl, Hf, Hl. rw length_stake length_sdrop in Heq. unfold u64 in Hsl. rw Z.mod_small in Hsl; [unfold slen in *; lia|].
  unfold slen in *. lia.
Qed.

Lemma indentModel_exact m text : json_model m -> indentModel m = Some text ->
  (forall n, (S n < String.length text)%nat -> Decode (stake n text) FormatJSON = inr ErrDecode) /\
  (forall t, skipWS t <> "" -> Decode (text +:+ t) FormatJSON = inr ErrDecode).
Proof.
  intros Hm. unfold indentModel. destruct (modelJson false m) as [j|] eqn:Hj; [|done]. intros Heq. apply (inj Some) in Heq as <-.
  destruct (faithful_model _ _ _ Hm Hj) as [Hok _ Hd]. unfold modelJson in Hj. destruct (timeText _); [|done]. injection Hj as <-.
  destruct (indentJson_exact _ Hok) as [Hcut Htail]; [unfold maxNestingDepth; lia|].
  assert (Hdec : forall file, parseJson file = None -> Decode file FormatJSON = inr ErrDecode).
  { intros file Hf. unfold Decode, parseModel. by rw Hf. }
  split; [intros n Hn|intros t Ht]; apply Hdec; [by apply Hcut|by apply Htail].
Qed.

Lemma file_exact (draft m : Model) (chunks : list string) :
  Seal draft = inl m -> (MFormat m = FormatJSON -> json_model m) -> (MFormat m = FormatBinary -> gob_ok m) ->
  Encode m = (chunks, None) ->
  let file := sconcat chunks in
  Decode file (MFormat m) = inl m /\
  (MFormat m = FormatBinary ->
    (forall n, (n < String.length file)%nat -> exists err, Decode (stake n file) FormatBinary = inr err) /\
    (forall c rest, exists err, Decode (file +:+ String c rest) FormatBinary = inr err)) /\
  (MFormat m = FormatJSON ->
    (forall n, (S n < String.length file)%nat -> Decode (stake n file) FormatJSON = inr ErrDecode) /\
    (forall t, skipWS t <> "" -> Decode (file +:+ t) FormatJSON = inr ErrDecode)).
Proof.
  intros [Hver _]%Seal_verify Hj Hb Henc. unfold Encode in Henc. rw Hver in Henc.
  assert (Hdec : forall file format, (if String.eqb format FormatJSON then match parseModel file with Some m => inl m | None => inr ErrDecode end
    else if String.eqb format FormatBinary then readBinary file else inr (ErrFormat format)) = inl m -> MFormat m = format ->
    Decode file format = inl m).
  { intros file format Hr <-. unfold Decode. rw Hr. by rw String.eqb_refl Hver. }
  assert (Hbin : forall file err, readBinary file = inr err -> exists err', Decode file FormatBinary = inr err').
  { intros file err Hr. unfold Decode. cbn [String.eqb]. rw Hr. by eexists. }
  destruct (String.eqb_spec (MFormat m) FormatJSON) as [Hf|Hf].
  - destruct (indentModel m) as [text|] eqn:Ht; [|done]. injection Henc as <-. intros file. unfold file. cbn [sconcat]. rw app_string_nil_r.
    split_and!; [|intros Hx; by rw Hf in Hx|intros _; by apply (indentModel_exact m text (Hj Hf))].
    apply Hdec; [|done]. rw Hf. cbn [String.eqb]. by rw (parse_indentModel _ _ (Hj Hf) Ht).
  - destruct (String.eqb_spec (MFormat m) FormatBinary) as [Hfb|]; [|done]. destruct (gobModel m) as [payload|] eqn:Hg; [|done].
    injection Henc as <-. destruct (Hb Hfb _ Hg) as [Hu Hlen]. intros file. unfold file. cbn [sconcat]. split_and!.
    + apply Hdec; [|done]. rw Hfb. cbn [String.eqb]. rw readBinary_exact //. cbn [slen]. by rw Hu.
    + intros _. rw app_string_nil_r. split.
      * intros n Hn. destruct (readBinary_cut payload n Hlen Hn) as [err Herr]. by eapply Hbin.
      * intros c rest. rw !app_string_assoc. pose proof (readBinary_exact payload (String c rest) Hlen) as Hr.
        rw slen_cons in Hr. pose proof (slen_nonneg rest). destruct (Z.eqb_spec (1 + slen rest) 0) in Hr; [lia|]. by eapply Hbin.
    + intros Hx. by rw Hfb in Hx.
Qed.
End file_spec.

(** A sealed model that is written to a file is read back as it is, in both
    formats.  A file that was cut off, or has bytes after its end, is refused,
    so that a partly written snapshot is never taken for a snapshot; in the JSON
    format only the line break at the end may be missing and only white space
    may follow. *)
Theorem snapshot_file_exact `{SliceSort, CryptoOk, Gob} (draft m : Model) (chunks : list string) :
  Seal draft = inl m -> (MFormat m = FormatJSON -> json_model m) -> (MFormat m = FormatBinary -> gob_ok m) ->
  Encode m = (chunks, None) ->
  let file := sconcat chunks in
  Decode file (MFormat m) = inl m /\
  (MFormat m = FormatBinary ->
    (forall n, (n < String.length file)%nat -> exists err, Decode (stake n file) FormatBinary = inr err) /\
    (forall c rest, exists err, Decode (file +:+ String c rest) FormatBinary = inr err)) /\
  (MFormat m = FormatJSON ->
    (forall n, (S n < String.length file)%nat -> Decode (stake n file) FormatJSON = inr ErrDecode) /\
    (forall t, skipWS t <> "" -> Decode (file +:+ t) FormatJSON = inr ErrDecode)).
Proof. apply file_exact. Qed.

(** A [Gob] that writes and reads one model. *)
Definition exampleModel (format : string) : Model :=
  mkModel format 1 "n1" 1000000000 (mkClusterMetadata "c" 2 7 [mkPeer "n1" "a" "b"]
    [mkSnapSlot "leader" (mkSlot 0 "n1" "n2" 1 4 4 true); mkSnapSlot "none" (mkSlot 1 "n2" "" 1 0 0 false)])
    [mkSnapEntry "k" "string" "v" 50 0] "".
#[local] Existing Instances plainCrypto plainCrypto_ok.
Definition exampleSealed (format : string) : Model :=
  match Seal (exampleModel format) with inl m => m | inr _ => zeroModel end.
#[local] Instance exampleGob : Gob :=
  Build_Gob (fun _ => Some "payload") (fun s => if String.eqb s "payload" then Some (exampleSealed FormatBinary) else None).

Lemma example_sealed format : format = FormatJSON \/ format = FormatBinary ->
  Seal (exampleModel format) = inl (exampleSealed format) /\ exists chunks, Encode (exampleSealed format) = (chunks, None).
Proof. intros [->| ->]; (split; [vm_compute; reflexivity|eexists; vm_compute; reflexivity]). Qed.
Lemma example_json format : utf8 format -> exampleSealed format = withChecksum (exampleModel format) (MChecksum (exampleSealed format)) ->
  utf8 (MChecksum (exampleSealed format)) -> json_model (exampleSealed format).
Proof.
  intros Hf Heq. generalize (MChecksum (exampleSealed format)) Heq. intros c -> Hc. split; cbn; [done|unfold maxUint64; lia| | |].
  all: repeat constructor; cbn; unfold int64_range, minInt64, maxInt64, maxUint64; done || lia.
Qed.

Lemma snapshot_file_exact_witness : exists json binary,
  Decode json FormatJSON = inl (exampleSealed FormatJSON) /\ Decode binary FormatBinary = inl (exampleSealed FormatBinary) /\
  (exists err, Decode (stake 20 binary) FormatBinary = inr err) /\ Decode (json +:+ "}") FormatJSON = inr ErrDecode.
Proof.
  destruct (example_sealed FormatJSON (or_introl eq_refl)) as [Hs1 [json He1]].
  destruct (example_sealed FormatBinary (or_intror eq_refl)) as [Hs2 [binary He2]].
  exists (sconcat json), (sconcat binary).
  destruct (snapshot_file_exact (exampleModel FormatJSON) (exampleSealed FormatJSON) json Hs1) as (H1 & _ & H4);
    [intros _; apply example_json; vm_compute; reflexivity|done|done|].
  destruct (snapshot_file_exact (exampleModel FormatBinary) (exampleSealed FormatBinary) binary Hs2) as (H2 & H3 & _); [intros Hx; vm_compute in Hx; discriminate| |exact He2|].
  { intros _ payload [= <-]. split; vm_compute; reflexivity. }
  split; [exact H1|]. split; [exact H2|]. split; [|apply (proj2 (H4 eq_refl)); discriminate]. apply (proj1 (H3 eq_refl)).
  assert (String.length (sconcat binary) = 32%nat) as ->; [|lia].
  apply (f_equal (fun p => String.length (sconcat p.1))) in He2. cbn [fst] in He2. rw -He2. vm_compute. reflexivity.
Defined.
