(* ===== verification/Persistence.v ===== *)
(** * Snapshots on disk: [internal/persistence/manager.go]

    The manager owns one directory.  Every call of the operating system is a
    step: the class [Faults] says for each step whether it fails and, for a
    write, how many bytes got through before it did; it also chooses the names
    of temporary files.  The state keeps what the directory was after every
    step, so that a crash of the process is a choice of one of them (a loss of
    power, which also loses data that was not synced, is not modelled).  A computation ends with a
    result or an error; [None] is a run-time panic.  The mutex of the manager is
    held throughout each operation. *)
From S2P Require Import Prelude Encoding GoText GoTime Json JsonCodec SkipList Eviction Store Executor Snapshot Metadata SnapshotFile.
Local Open Scope Z_scope.

(** ** The directory *)

Inductive DirEntry := File (content : string) | Directory.
(** [None]: the directory does not exist. *)
Definition Disk : Type := option (gmap string DirEntry).

Class Faults := {
  fault : nat -> option string;
  written : nat -> nat;
  tempName : nat -> string
}.

Record PersistenceConfig := mkPersistence {
  PEnabled : bool;
  PDataDir : string;
  SnapshotIntervalSec : Z;
  MaxSnapshots : Z;
  LoadOnStart : bool;
  PFormat : string
}.

Inductive PersistErr :=
| ErrDisabled | ErrNoSnapshot | ErrNoneValid (count : Z) | OSFailed (text : string)
| EntriesFailed (err : SnapErr) | ModelFailed (err : ModelErr) | MetadataFailed (err : ClusterErr).

Record Result := mkResult { RPath : string; RFormat : string; RCreatedAt : Z; RSnapEntries : Z; RChecksum : string }.
Record RestoreResult := mkRestoreResult { RRResult : Result; RestoredEntries : Z }.

(** The engine's store with its clock, the metadata of a clustered node, and
    the directory with the number of steps so far and what it was after each. *)
Record PState := mkPState {
  pSys : Sys;
  pMeta : option Metadata;
  pDisk : Disk;
  pStep : nat;
  pTrace : list Disk
}.

Definition P (A : Type) : Type := PState -> option ((A + PersistErr) * PState).
#[export] Instance P_ret : MRet P := fun A a s => Some (inl a, s).
#[export] Instance P_bind : MBind P := fun A B f m s =>
  match m s with
  | Some (inl a, s) => f a s
  | Some (inr e, s) => Some (inr e, s)
  | None => None
  end.
Definition panicP {A} : P A := fun _ => None.
Definition failP {A} (e : PersistErr) : P A := fun s => Some (inr e, s).
(** The error of a computation as a value. *)
Definition attempt {A} (m : P A) : P (A + PersistErr) := fun s =>
  match m s with Some (r, s) => Some (inl r, s) | None => None end.
Definition onEngine {A} (m : M A) : P A := fun s =>
  '(a, w) ← m (pSys s); Some (inl a, mkPState w (pMeta s) (pDisk s) (pStep s) (pTrace s)).
Definition getDisk : P Disk := fun s => Some (inl (pDisk s), s).

(** ** Names *)

Fixpoint hasSuffix (suffix s : string) : bool :=
  String.eqb s suffix || match s with String _ s => hasSuffix suffix s | "" => false end.
Definition formatForFilename (name : string) : option string :=
  if negb (hasPrefix "snapshot-" name) then None
  else if hasSuffix ".snapshot.json" name then Some FormatJSON
  else if hasSuffix ".snapshot.bin" name then Some FormatBinary
  else None.
(** ["%020d"] *)
Definition padded (n : Z) : string := if n <? 0 then "-" +:+ digits 19 (- n) else digits 20 n.
Definition unixEpoch : Z := 62135596800000000000.
(** The name up to its extension. *)
Definition nameStem (m : Model) : string :=
  "snapshot-" +:+ padded (i64 (MCreatedAt m - unixEpoch)) +:+ "-" +:+ stake 12 (MChecksum m).
Definition nameExt (m : Model) : string := if String.eqb (MFormat m) FormatJSON then ".snapshot.json" else ".snapshot.bin".

Section manager.
Context `{Env, SliceSort, Crypto, Gob, Faults} (cfg : PersistenceConfig) (nodeID : string) (limit : Z).

(** ** Calls of the operating system *)

(** A step that changes the directory when it succeeds, and may also change it
    when it fails. *)
Definition osCall (f : Disk -> Disk) (broken : nat -> Disk -> Disk) : P unit := fun s =>
  let n := pStep s in
  match fault n with
  | Some text =>
      let d := broken n (pDisk s) in Some (inr (OSFailed text), mkPState (pSys s) (pMeta s) d (S n) (pTrace s ++ [d]))
  | None => let d := f (pDisk s) in Some (inl tt, mkPState (pSys s) (pMeta s) d (S n) (pTrace s ++ [d]))
  end.
Definition os (f : Disk -> Disk) : P unit := osCall f (fun _ d => d).

Definition MkdirAll : P unit := os (fun d => Some (default ∅ d)).
Definition setFile (name content : string) (d : Disk) : Disk := <[name := File content]> <$> d.
Definition contentOf (d : Disk) (name : string) : string :=
  match d with
  | Some files => match files !! name with Some (File content) => content | _ => "" end
  | None => ""
  end.
Definition present (d : Disk) (name : string) : bool :=
  match d with Some files => bool_decide (is_Some (files !! name)) | None => false end.
Definition Remove (name : string) : P unit := os (fun d => delete name <$> d).
(** [os.CreateTemp]: [tempName] gives the last of the names that were tried. *)
Definition getStep : P nat := fun s => Some (inl (pStep s), s).
Definition CreateTemp : P string :=
  n ← getStep;
  let name := ".snapshot-" +:+ tempName n +:+ ".tmp" in
  d ← getDisk;
  if present d name then failP (OSFailed "file exists")
  else _ ← os (setFile name ""); mret name.
(** A failed write leaves a prefix. *)
Definition Write (name data : string) : P unit :=
  osCall (fun d => setFile name (contentOf d name +:+ data) d)
    (fun n d => setFile name (contentOf d name +:+ stake (written n) data) d).
Definition Rename (old new : string) : P unit :=
  os (fun d => delete old <$> setFile new (contentOf d old) d).

(** ** Writing *)

Fixpoint writeChunks (name : string) (chunks : list string) : P unit :=
  match chunks with
  | [] => mret tt
  | chunk :: chunks => _ ← Write name chunk; writeChunks name chunks
  end.
(** [Chmod], [Sync] and [Close] can fail, but change nothing that the process sees:
    what was written outlives a crash of the process, and a loss of power is not
    modelled. *)
Definition writeTemp (tmp path : string) (m : Model) : P unit :=
  _ ← os id;
  let '(chunks, err) := Encode m in
  _ ← writeChunks tmp chunks;
  match err with
  | Some err => failP (ModelFailed err)
  | None => _ ← os id; _ ← os id; Rename tmp path
  end.
(** The deferred cleanup after an error: the file is closed and removed, and
    what comes of that is ignored. *)
Definition writeAtomic (path : string) (m : Model) : P unit :=
  tmp ← CreateTemp;
  r ← attempt (writeTemp tmp path m);
  match r with
  | inl _ => mret tt
  | inr err => _ ← attempt (os id); _ ← attempt (Remove tmp); failP err
  end.

(** The first free name; the directory has finitely many. *)
Fixpoint freeName (fuel : nat) (stem ext : string) (suffix : Z) : P string :=
  let candidate := if suffix =? 0 then stem +:+ ext else stem +:+ "-" +:+ Itoa suffix +:+ ext in
  _ ← os id;
  d ← getDisk;
  match present d candidate, fuel with
  | false, _ => mret candidate
  | true, S fuel => freeName fuel stem ext (suffix + 1)
  | true, O => panicP
  end.
Definition availableSnapshotPath (stem ext : string) : P string :=
  d ← getDisk; freeName (match d with Some files => size files | None => O end) stem ext 0.

(** ** Reading *)

(** [os.ReadDir]: sorted by name. *)
Definition ReadDir : P (option (list (string * DirEntry))) :=
  _ ← os id;
  d ← getDisk;
  mret ((fun files => merge_sort (fun a b : string * DirEntry => negb (sltb b.1 a.1)) (map_to_list files)) <$> d).

Definition checkModel (name : string) (r : Model + ModelErr) : P (option (string * Model)) :=
  match r with
  | inr _ => mret None
  | inl m =>
      if negb (String.eqb (MNodeID m) nodeID) then mret None
      else
        err ← onEngine (ValidateEntries (MEntries m));
        mret (match err with Some _ => None | None => Some (name, m) end)
  end.
(** One candidate file: opened, decoded and closed. *)
Definition readSnapshot (name content format : string) : P (option (string * Model)) :=
  opened ← attempt (os id);
  match opened with
  | inr _ => mret None
  | inl _ =>
      read ← attempt (os id);
      closed ← attempt (os id);
      match read, closed with
      | inl _, inl _ => checkModel name (Decode content format)
      | _, _ => mret None
      end
  end.
Fixpoint readAll (entries : list (string * DirEntry)) : P (list (string * Model) * Z) :=
  match entries with
  | [] => mret ([], 0)
  | (name, Directory) :: entries => readAll entries
  | (name, File content) :: entries =>
      match formatForFilename name with
      | None => readAll entries
      | Some format =>
          r ← readSnapshot name content format;
          '(valid, candidates) ← readAll entries;
          mret (match r with Some v => v :: valid | None => valid end, candidates + 1)
      end
  end.
(** The valid snapshots, the newest first, and the number of candidates. *)
Definition validSnapshots : P (list (string * Model) * Z) :=
  entries ← ReadDir;
  match entries with
  | None => mret ([], 0)
  | Some entries =>
      '(valid, candidates) ← readAll entries;
      mret (slice_sort (fun a b => MCreatedAt b.2 <? MCreatedAt a.2) valid, candidates)
  end.

Fixpoint removeAll (names : list string) : P unit :=
  match names with
  | [] => mret tt
  | name :: names => _ ← Remove name; removeAll names
  end.
Definition pruneValidSnapshots : P unit :=
  '(valid, _) ← validSnapshots;
  if (MaxSnapshots cfg <=? 0) || (Z.of_nat (length valid) <=? MaxSnapshots cfg) then mret tt
  else removeAll (fst <$> drop (Z.to_nat (MaxSnapshots cfg)) valid).

(** ** Operations *)

(** [Manager.SnapshotMetadata] and [Manager.RestoreMetadata] of the cluster, which
    [cmd/node] installs. *)
Definition metadataOf (m : option Metadata) : ClusterMetadata :=
  match m with Some m => SnapshotMetadata m | None => mkClusterMetadata "" 0 0 [] [] end.
Definition getMetadata : P ClusterMetadata := fun s => Some (inl (metadataOf (pMeta s)), s).
Definition restoreMetadata (meta : ClusterMetadata) : P unit := fun s =>
  match pMeta s with
  | None => Some (inl tt, s)
  | Some m =>
      if String.eqb (CMClusterID meta) "" then Some (inl tt, s)
      else
      match RestoreSnapshot m meta with
      | (Some err, m) => Some (inr (MetadataFailed err), mkPState (pSys s) (Some m) (pDisk s) (pStep s) (pTrace s))
      | (None, m) => Some (inl tt, mkPState (pSys s) (Some m) (pDisk s) (pStep s) (pTrace s))
      end
  end.
Definition readClock : M Z := onTick (fun t => (clock t, S t)).

Definition Snapshot : P Result :=
  if negb (PEnabled cfg) then failP ErrDisabled
  else
    _ ← MkdirAll;
    r ← onEngine SnapshotEntries;
    match r with
    | inr err => failP (EntriesFailed err)
    | inl entries =>
        now ← onEngine readClock;
        meta ← getMetadata;
        match Seal (mkModel (PFormat cfg) FormatVersion nodeID (now + unixEpoch) meta entries "") with
        | inr err => failP (ModelFailed err)
        | inl model =>
            path ← availableSnapshotPath (nameStem model) (nameExt model);
            _ ← writeAtomic path model;
            _ ← pruneValidSnapshots;
            mret (mkResult path (MFormat model) (MCreatedAt model) (Z.of_nat (length entries)) (MChecksum model))
        end
    end.

Definition RestoreLatest : P RestoreResult :=
  if negb (PEnabled cfg) then failP ErrDisabled
  else
    '(valid, candidates) ← validSnapshots;
    match valid with
    | [] => failP (if candidates =? 0 then ErrNoSnapshot else ErrNoneValid candidates)
    | (path, model) :: _ =>
        _ ← restoreMetadata (MCluster model);
        r ← onEngine (RestoreEntries limit (MEntries model));
        match r with
        | inr err => failP (EntriesFailed err)
        | inl n =>
            mret (mkRestoreResult (mkResult path (MFormat model) (MCreatedAt model) (Z.of_nat (length (MEntries model))) (MChecksum model)) n)
        end
    end.

(** The snapshots are removed without being read: how many, and the error. *)
Fixpoint invalidateAll (entries : list (string * DirEntry)) (removed : Z) : P (Z * option PersistErr) :=
  match entries with
  | [] => mret (removed, None)
  | (name, Directory) :: entries => invalidateAll entries removed
  | (name, File _) :: entries =>
      match formatForFilename name with
      | None => invalidateAll entries removed
      | Some _ =>
          r ← attempt (Remove name);
          match r with
          | inl _ => invalidateAll entries (removed + 1)
          | inr err => mret (removed, Some err)
          end
      end
  end.
Definition Invalidate : P (Z * option PersistErr) :=
  r ← attempt ReadDir;
  match r with
  | inr err => mret (0, Some err)
  | inl None => mret (0, None)
  | inl (Some entries) => invalidateAll entries 0
  end.
End manager.

(** The part of [main] that loads a snapshot when the node starts; an error
    ends the process. *)
Definition loadOnStart `{Env, SliceSort, Crypto, Gob, Faults} (cfg : PersistenceConfig) (nodeID : string) (limit : Z) (returningNode : bool) : P unit :=
  if PEnabled cfg && LoadOnStart cfg && negb returningNode then
    r ← attempt (RestoreLatest cfg nodeID limit);
    match r with
    | inl _ | inr ErrNoSnapshot => mret tt
    | inr err => failP err
    end
  else mret tt.
