(* ===== verification/PersistenceSpec.v ===== *)
(** * Properties of snapshots on disk

    A run is described by [wp I m Q s]: [m] does not panic, every directory it
    goes through satisfies [I], and it ends in a result and a state that satisfy
    [Q].  What matters of a directory are its candidate files, those with the
    name of a snapshot: temporary files are not among them. *)
From S2P Require Import Prelude Encoding GoText GoTime Json JsonCodec SkipList Eviction Store StoreSpec Executor Snapshot SnapshotSpec Metadata SnapshotFile Persistence.
Local Open Scope Z_scope.

(** ** Runs *)

(** The directories between [s] and [s']; the last one is that of [s']. *)
Definition went (s s' : PState) (new : list Disk) : Prop :=
  pTrace s' = pTrace s ++ new /\ pDisk s' = default (pDisk s) (last new).
Lemma went_nil s s' : pTrace s' = pTrace s -> pDisk s' = pDisk s -> went s s' [].
Proof. intros Ht Hd. split; [by rw app_nil_r|done]. Qed.
Lemma went_app s s1 s2 n1 n2 : went s s1 n1 -> went s1 s2 n2 -> went s s2 (n1 ++ n2).
Proof. intros [A1 A2] [B1 B2]. split; [by rw B1 A1 app_assoc|]. rw B2 A2 last_app. by destruct (last n2). Qed.

Definition wp {A} (I : Disk -> Prop) (m : P A) (Q : A + PersistErr -> PState -> Prop) (s : PState) : Prop :=
  exists r s' new, m s = Some (r, s') /\ went s s' new /\ Forall I new /\ Q r s'.

Section runs.
Context (I : Disk -> Prop).

Lemma wp_ret {A} (a : A) (Q : A + PersistErr -> PState -> Prop) s : Q (inl a) s -> wp I (mret a) Q s.
Proof. intros HQ. exists (inl a), s, []. by split_and!; [|apply went_nil|..]. Qed.
Lemma wp_fail {A} e (Q : A + PersistErr -> PState -> Prop) s : Q (inr e) s -> wp I (failP e) Q s.
Proof. intros HQ. exists (inr e), s, []. by split_and!; [|apply went_nil|..]. Qed.
Lemma wp_bind {A B} (m : P A) (f : A -> P B) Q s :
  wp I m (fun r s => match r with inl a => wp I (f a) Q s | inr e => Q (inr e) s end) s -> wp I (m ≫= f) Q s.
Proof.
  intros (r & s1 & n1 & Hm & Ht & HI & HQ). unfold wp, mbind, P_bind. rw Hm. destruct r as [a|e]; [|by exists (inr e), s1, n1].
  destruct HQ as (r & s2 & n2 & Hf & Ht2 & HI2 & HQ). exists r, s2, (n1 ++ n2). rw Hf. split_and!; [done|by eapply went_app|by apply Forall_app|done].
Qed.
Lemma wp_attempt {A} (m : P A) Q s : wp I m (fun r s => Q (inl r) s) s -> wp I (attempt m) Q s.
Proof. intros (r & s1 & n1 & Hm & Ht & HI & HQ). exists (inl r), s1, n1. unfold attempt. by rw Hm. Qed.
Lemma wp_mono {A} (m : P A) (Q Q' : A + PersistErr -> PState -> Prop) s :
  wp I m Q s -> (forall r s', Q r s' -> Q' r s') -> wp I m Q' s.
Proof. intros (r & s1 & n1 & Hm & Ht & HI & HQ) Himp. exists r, s1, n1. split_and!; eauto. Qed.
Lemma wp_getDisk (Q : Disk + PersistErr -> PState -> Prop) s : Q (inl (pDisk s)) s -> wp I getDisk Q s.
Proof. intros HQ. exists (inl (pDisk s)), s, []. by split_and!; [|apply went_nil|..]. Qed.
Lemma wp_getStep (Q : nat + PersistErr -> PState -> Prop) s : Q (inl (pStep s)) s -> wp I getStep Q s.
Proof. intros HQ. exists (inl (pStep s)), s, []. by split_and!; [|apply went_nil|..]. Qed.
Lemma wp_engine {A} (m : M A) (Q : A + PersistErr -> PState -> Prop) s a w :
  m (pSys s) = Some (a, w) -> Q (inl a) (mkPState w (pMeta s) (pDisk s) (pStep s) (pTrace s)) -> wp I (onEngine m) Q s.
Proof. intros Hm HQ. eexists _, _, []. unfold onEngine. rw Hm. split_and!; [done|by apply went_nil|done|done]. Qed.
End runs.

(** Nothing but the number of steps, the trace and the engine's ticks has
    changed. *)
Record quiet (s s' : PState) : Prop := {
  q_store : sysStore (pSys s') = sysStore (pSys s);
  q_meta : pMeta s' = pMeta s;
  q_disk : pDisk s' = pDisk s;
  q_tick : (tick (pSys s) <= tick (pSys s'))%nat
}.
Lemma quiet_refl s : quiet s s.
Proof. by split. Qed.
Lemma quiet_trans s1 s2 s3 : quiet s1 s2 -> quiet s2 s3 -> quiet s1 s3.
Proof. intros [A1 A2 A3 A4] [B1 B2 B3 B4]. split; [congruence..|lia]. Qed.

Definition moved (d : Disk) (s s' : PState) : Prop := pSys s' = pSys s /\ pMeta s' = pMeta s /\ pDisk s' = d.
Lemma quiet_moved s s1 s2 : quiet s s1 -> moved (pDisk s1) s1 s2 -> quiet s s2.
Proof. intros [A1 A2 A3 A4] (B1 & B2 & B3). split; rw ?B1; [congruence..|lia]. Qed.
#[local] Hint Resolve quiet_refl quiet_trans quiet_moved : core.

Section calls.
Context `{Faults} (I : Disk -> Prop).

Definition faultless : Prop := forall n, fault n = None.

Lemma wp_osCall f broken Q s :
  I (f (pDisk s)) -> (forall n, I (broken n (pDisk s))) ->
  (forall s', moved (f (pDisk s)) s s' -> Q (inl tt) s') ->
  (forall e n s', ~ faultless -> moved (broken n (pDisk s)) s s' -> Q (inr e) s') ->
  wp I (osCall f broken) Q s.
Proof.
  intros H1 H2 HQ1 HQ2. unfold wp, osCall. destruct (fault (pStep s)) as [text|] eqn:Hf.
  - eexists _, _, [_]. split_and!; [done|done|by constructor|]. eapply HQ2; [|done]. intros Hno. by rw Hno in Hf.
  - eexists _, _, [_]. split_and!; [done|done|by constructor|]. by apply HQ1.
Qed.
Lemma wp_os f Q s :
  I (pDisk s) -> I (f (pDisk s)) -> (forall s', moved (f (pDisk s)) s s' -> Q (inl tt) s') ->
  (forall e s', ~ faultless -> moved (pDisk s) s s' -> Q (inr e) s') -> wp I (os f) Q s.
Proof. intros HI Hf H1 H2. apply wp_osCall; [done..|]. intros e _ s'. apply H2. Qed.
End calls.

(** ** Candidate files *)

Definition candidates (d : Disk) : gmap string DirEntry := filter (fun p => is_Some (formatForFilename p.1)) (default ∅ d).

Lemma candidates_set_other name c d : formatForFilename name = None -> candidates (setFile name c d) = candidates d.
Proof.
  intros Hn. destruct d as [files|]; [|done]. unfold candidates, setFile. cbn [fmap option_fmap option_map default from_option id].
  rw map_filter_insert_False; [cbn [fst]; rw Hn; by intros [? ?]|]. rw map_filter_delete delete_id //.
  apply map_lookup_filter_None_2. right. intros x _. cbn [fst]. rw Hn. by intros [? ?].
Qed.
Lemma candidates_delete name d : candidates (delete name <$> d) = delete name (candidates d).
Proof. destruct d as [files|]; unfold candidates; simpl; [by rw map_filter_delete|]. by rw map_filter_empty delete_empty. Qed.
Lemma candidates_delete_other name d : formatForFilename name = None -> candidates (delete name <$> d) = candidates d.
Proof.
  intros Hn. rw candidates_delete delete_id //. apply map_lookup_filter_None_2. right. intros x _. cbn [fst]. rw Hn. by intros [? ?].
Qed.
Lemma candidates_set name c files :
  is_Some (formatForFilename name) -> candidates (setFile name c (Some files)) = <[name := File c]> (candidates (Some files)).
Proof. intros Hn. unfold candidates, setFile. simpl. by rw map_filter_insert_True. Qed.

Lemma hasPrefix_temp x : formatForFilename (".snapshot-" +:+ x) = None.
Proof. done. Qed.

(** The snapshot that a directory entry holds for a node. *)
Definition snapshotIn `{SliceSort, Crypto, Gob} (nodeID name : string) (entry : DirEntry) : option Model :=
  match entry with
  | Directory => None
  | File content =>
      format ← formatForFilename name;
      match Decode content format with
      | inr _ => None
      | inl m =>
          if negb (String.eqb (MNodeID m) nodeID) then None
          else match ValidateSnapshotEntries (fun _ _ => 1%nat) (MEntries m) with Some None => Some m | _ => None end
      end
  end.
Definition valid_in `{SliceSort, Crypto, Gob} (nodeID : string) (d : Disk) (name : string) (m : Model) : Prop :=
  exists entry, candidates d !! name = Some entry /\ snapshotIn nodeID name entry = Some m.

Definition isCandidate (p : string * DirEntry) : bool :=
  match p.2 with File _ => bool_decide (is_Some (formatForFilename p.1)) | Directory => false end.

Section reading.
Context `{Env, SliceSortOk, CryptoOk, Gob, Faults} (cfg : PersistenceConfig) (nodeID : string) (I : Disk -> Prop).

Lemma ValidateEntries_run items w :
  exists r, ValidateEntries items w = Some (r, mkSys (sysStore w) (tick w + length items)) /\
    ValidateSnapshotEntries (fun _ _ => 1%nat) items = Some r.
Proof.
  unfold ValidateEntries.
  destruct (validateLoop_levels (fun i k => randomLevel (coins (tick w + i) k)) (fun _ _ => 1%nat) 0 0 items ∅) as (r & K1 & K2).
  { intros i k. apply randomLevel_bounds. }
  { intros i k. unfold skipListMaxLevel. lia. }
  exists r. unfold ValidateSnapshotEntries. rw K1. by split.
Qed.

Definition read_result (name content : string) (o : option (string * Model)) : Prop :=
  (forall v, o = Some v -> v.1 = name /\ snapshotIn nodeID name (File content) = Some v.2) /\
  (faultless -> forall m, snapshotIn nodeID name (File content) = Some m -> o = Some (name, m)).

Lemma wp_readSnapshot name content format s :
  I (pDisk s) -> formatForFilename name = Some format ->
  wp I (readSnapshot nodeID name content format) (fun r s' => quiet s s' /\ exists o, r = inl o /\ read_result name content o) s.
Proof.
  intros HI Hf. unfold readSnapshot, read_result.
  assert (Hno : forall s', quiet s s' -> ~ faultless -> quiet s s' /\ exists o, inl None = (inl o : option (string * Model) + PersistErr) /\
    (forall v, o = Some v -> v.1 = name /\ snapshotIn nodeID name (File content) = Some v.2) /\
    (faultless -> forall m, snapshotIn nodeID name (File content) = Some m -> o = Some (name, m))).
  { intros s' Hq Hnf. split; [done|]. by exists None. }
  pose proof (quiet_moved s) as Hq.
  apply wp_bind, wp_attempt, wp_os; [done|done| |].
  2: { intros e s1 Hnf Hm. apply wp_ret, Hno; [by eapply Hq|done]. }
  intros s1 Hm1. apply (Hq s) in Hm1 as Hq1; [|auto]. assert (HI1 : I (pDisk s1)) by by rw (q_disk _ _ Hq1).
  apply wp_bind, wp_attempt, wp_os; [done|done| |].
  2: { intros e s2 Hnf Hm2. apply (Hq s1) in Hm2 as Hq2; [|done]. assert (HI2 : I (pDisk s2)) by by rw (q_disk _ _ Hq2).
       apply wp_bind, wp_attempt, wp_os; [done|done| |]; intros; apply wp_ret, Hno; try done; by eapply Hq. }
  intros s2 Hm2. apply (Hq s1) in Hm2 as Hq2; [|done]. assert (HI2 : I (pDisk s2)) by by rw (q_disk _ _ Hq2).
  apply wp_bind, wp_attempt, wp_os; [done|done| |].
  2: { intros e s3 Hnf Hm3. apply wp_ret, Hno; [by eapply Hq|done]. }
  intros s3 Hm3. apply (Hq s2) in Hm3 as Hq3; [|done]. unfold checkModel, snapshotIn. rw Hf. cbn [mbind option_bind].
  destruct (Decode content format) as [m|err]; [|apply wp_ret; split; [done|]; by exists None].
  destruct (negb _); [apply wp_ret; split; [done|]; by exists None|].
  destruct (ValidateEntries_run (MEntries m) (pSys s3)) as (r & Hv & Hr). rw Hr.
  eapply wp_bind, wp_engine; [exact Hv|]. apply wp_ret. split; [destruct Hq3; split; cbn; [done..|lia]|].
  destruct r as [err|]; [by exists None|]. exists (Some (name, m)). split; [done|]. split; [by intros v [= <-]|]. by intros _ m' [= <-].
Qed.

Definition all_result (entries : list (string * DirEntry)) (valid : list (string * Model)) : Prop :=
  fst <$> valid `sublist_of` fst <$> entries /\
  (forall v, v ∈ valid -> exists entry, (v.1, entry) ∈ entries /\ snapshotIn nodeID v.1 entry = Some v.2) /\
  (faultless -> forall name entry m, (name, entry) ∈ entries -> snapshotIn nodeID name entry = Some m -> (name, m) ∈ valid).

Lemma all_result_skip p entries valid : snapshotIn nodeID p.1 p.2 = None -> all_result entries valid -> all_result (p :: entries) valid.
Proof.
  intros Hp (K1 & K2 & K3). split_and!; [by apply sublist_cons| |].
  - intros v Hv. apply K2 in Hv as (entry & He & Hs). exists entry. by split; [right|].
  - intros Hno name entry m [<-|He]%elem_of_cons Hs; [by rw Hs in Hp|by eapply K3].
Qed.

Lemma wp_readAll entries s :
  I (pDisk s) ->
  wp I (readAll nodeID entries) (fun r s' => quiet s s' /\ exists valid,
    r = inl (valid, Z.of_nat (length (filter isCandidate entries))) /\ all_result entries valid) s.
Proof.
  revert s; induction entries as [|[name entry] entries IH]; intros s HI; cbn [readAll].
  { apply wp_ret. split; [done|]. exists []. split; [done|]. split_and!; [done|by intros v ?%not_elem_of_nil|by intros _ ??? ?%not_elem_of_nil]. }
  assert (Hskip : isCandidate (name, entry) = false -> snapshotIn nodeID name entry = None ->
    wp I (readAll nodeID entries) (fun r s' => quiet s s' /\ exists valid,
      r = inl (valid, Z.of_nat (length (filter isCandidate ((name, entry) :: entries)))) /\ all_result ((name, entry) :: entries) valid) s).
  { intros Hc Hs. eapply wp_mono; [by apply IH|]. cbv beta. intros r s' (Hq & valid & -> & Hall). split; [done|]. exists valid.
    rw filter_cons_False; [rw Hc; by intros []|]. split; [done|]. by apply all_result_skip. }
  destruct entry as [content|]; [|by apply Hskip].
  destruct (formatForFilename name) as [format|] eqn:Hf.
  2: { apply Hskip; [|simpl; by rw Hf]. unfold isCandidate. cbn. rw Hf. by apply bool_decide_eq_false_2; intros [? ?]. }
  eapply wp_bind, wp_mono; [by apply wp_readSnapshot|]. cbv beta. intros r1 s1 (Hq1 & o & -> & Ho1 & Ho2).
  assert (HI1 : I (pDisk s1)) by by rw (q_disk _ _ Hq1).
  eapply wp_bind, wp_mono; [by apply IH|]. cbv beta. intros r2 s2 (Hq2 & valid & -> & K1 & K2 & K3). apply wp_ret.
  split; [by eapply quiet_trans|]. eexists. split.
  { do 2 f_equal. rw filter_cons_True; [unfold isCandidate; cbn; rw Hf; by apply bool_decide_pack|]. cbn [length]. lia. }
  split_and!.
  - destruct o as [v|]; [|by apply sublist_cons]. destruct (Ho1 v eq_refl) as [<- _]. cbn. by apply sublist_skip.
  - intros v Hv. assert (v ∈ valid \/ o = Some v) as [Hin|Ho].
    { destruct o as [x|]; [apply elem_of_cons in Hv as [->|Hv]; auto|auto]. }
    + destruct (K2 v Hin) as (entry & He & Hs). exists entry. by split; [right|].
    + destruct (Ho1 v Ho) as [<- Hs]. exists (File content). by split; [left|].
  - intros Hno name' entry m [[= -> ->]|He]%elem_of_cons Hs; [rw (Ho2 Hno m Hs); left; done|].
    specialize (K3 Hno _ _ _ He Hs). destruct o; [by right|done].
Qed.

Definition newer : string * Model -> string * Model -> Prop := not_less (fun a b => MCreatedAt b.2 <? MCreatedAt a.2).
Lemma newer_le a b : newer a b -> MCreatedAt b.2 <= MCreatedAt a.2.
Proof. unfold newer, not_less. lia. Qed.
Record valid_list (d : Disk) (valid : list (string * Model)) : Prop := {
  vl_sorted : StronglySorted newer valid;
  vl_names : NoDup (fst <$> valid);
  vl_valid : forall v, v ∈ valid -> valid_in nodeID d v.1 v.2;
  vl_all : faultless -> forall name m, valid_in nodeID d name m -> (name, m) ∈ valid
}.
Definition fileCount (d : Disk) : Z := Z.of_nat (length (filter isCandidate (map_to_list (default ∅ d)))).

Lemma newest_weak : strict_weak (fun a b : string * Model => MCreatedAt b.2 <? MCreatedAt a.2).
Proof. split; [intros x; lia|intros x y z; lia]. Qed.

Lemma snapshotIn_candidate name entry m : snapshotIn nodeID name entry = Some m -> is_Some (formatForFilename name).
Proof. unfold snapshotIn. destruct entry; [|done]. by destruct (formatForFilename name). Qed.

Lemma valid_list_sort files entries valid :
  entries ≡ₚ map_to_list files -> all_result entries valid ->
  valid_list (Some files) (slice_sort (fun a b => MCreatedAt b.2 <? MCreatedAt a.2) valid).
Proof.
  intros Hp (K1 & K2 & K3). pose proof (slice_sort_perm _ (fun a b : string * Model => MCreatedAt b.2 <? MCreatedAt a.2) valid) as Hperm. split.
  - apply slice_sort_sorted, newest_weak.
  - rw Hperm. eapply sublist_NoDup; [|exact K1]. rw Hp. apply NoDup_fst_map_to_list.
  - intros v. rw Hperm. intros (entry & He & Hs)%K2. exists entry. split; [|done]. apply map_lookup_filter_Some. split.
    + rw Hp in He. by apply elem_of_map_to_list in He.
    + by eapply snapshotIn_candidate.
  - intros Hno name m (entry & [Hl _]%map_lookup_filter_Some & Hs). rw Hperm. eapply (K3 Hno name entry m); [|done].
    rw Hp. by apply elem_of_map_to_list.
Qed.

Lemma wp_validSnapshots s :
  I (pDisk s) ->
  wp I (validSnapshots nodeID) (fun r s' => quiet s s' /\
    match r with inl (valid, n) => valid_list (pDisk s) valid /\ n = fileCount (pDisk s) | inr _ => ~ faultless end) s.
Proof.
  intros HI. unfold validSnapshots, ReadDir. do 2 eapply wp_bind. eapply wp_os; [done|done| |].
  2: { intros e s1 Hno Hm. split; [eauto|done]. }
  intros s1 Hm. assert (Hq1 : quiet s s1) by eauto. destruct Hm as (K1 & K2 & K3).
  eapply wp_bind, wp_getDisk. apply wp_ret. rw K3. unfold id. destruct (pDisk s) as [files|] eqn:Hd; cbn [fmap option_fmap option_map].
  2: { apply wp_ret. split; [done|]. split; [|done]. split; [constructor|constructor|by intros v ?%not_elem_of_nil|].
       intros _ name m (entry & Hl & _). unfold candidates in Hl. simpl in Hl. by rw map_filter_empty in Hl. }
  eapply wp_bind, wp_mono; [apply wp_readAll; by rw K3|]. cbv beta. intros r s2 (Hq2 & valid & -> & Hall). apply wp_ret.
  pose proof (merge_sort_Permutation (fun a b : string * DirEntry => negb (sltb b.1 a.1)) (map_to_list files)) as Hp.
  split; [by eapply quiet_trans|]. split; [by eapply valid_list_sort|]. unfold fileCount. simpl. by rw Hp.
Qed.
End reading.

(** ** Writing *)

(** The directory exists and has these candidates; engine and metadata are as
    they were. *)
Definition held (C : gmap string DirEntry) (s s' : PState) : Prop :=
  pSys s' = pSys s /\ pMeta s' = pMeta s /\ exists files, pDisk s' = Some files /\ candidates (Some files) = C.

Lemma held_moved C s s1 s2 d : held C s s1 -> moved d s1 s2 -> is_Some d -> candidates d = C -> held C s s2.
Proof. intros (K1 & K2 & _) (K3 & K4 & K5) [files ->] Hc. unfold held. rw K3 K4 K1 K2. split_and!; [done..|]. by exists files. Qed.
Lemma setFile_some name c d : is_Some d -> is_Some (setFile name c d).
Proof. by intros [files ->]. Qed.
Lemma contentOf_set name c d : is_Some d -> contentOf (setFile name c d) name = c.
Proof. intros [files ->]. cbn. by rw lookup_insert_eq. Qed.

Section writing.
Context `{SliceSortOk, CryptoOk, Gob, Faults} (I : Disk -> Prop) (C : gmap string DirEntry).
Context (HI : forall files, candidates (Some files) = C -> I (Some files)).

Lemma held_I s s' : held C s s' -> I (pDisk s').
Proof. intros (_ & _ & files & -> & Hc). by apply HI. Qed.
Lemma held_is_Some s s' : held C s s' -> is_Some (pDisk s') /\ candidates (pDisk s') = C.
Proof. intros (_ & _ & files & -> & Hc). by split. Qed.
Lemma I_some d : is_Some d -> candidates d = C -> I d.
Proof. intros [files ->]. apply HI. Qed.

(** A step that does nothing to the directory. *)
Lemma wp_idle s0 s (Q : unit + PersistErr -> PState -> Prop) :
  held C s0 s -> (forall s', held C s0 s' -> pDisk s' = pDisk s -> Q (inl tt) s') ->
  (forall e s', ~ faultless -> held C s0 s' -> Q (inr e) s') -> wp I (os id) Q s.
Proof.
  intros Hh HQ1 HQ2. apply held_I in Hh as HIs. destruct (held_is_Some _ _ Hh) as [Hs Hc]. apply wp_os; [done..| |].
  - intros s' Hm. apply HQ1; [by eapply held_moved|]. by destruct Hm as (_ & _ & ->).
  - intros e s' Hno Hm. apply HQ2; [done|]. by eapply held_moved.
Qed.

Lemma wp_writeChunks tmp chunks s0 s :
  formatForFilename tmp = None -> held C s0 s ->
  wp I (writeChunks tmp chunks) (fun r s' => held C s0 s' /\
    match r with inl _ => contentOf (pDisk s') tmp = contentOf (pDisk s) tmp +:+ sconcat chunks | inr _ => ~ faultless end) s.
Proof.
  intros Htmp. revert s; induction chunks as [|chunk chunks IH]; intros s Hh; cbn [writeChunks].
  { apply wp_ret. split; [done|]. cbn. by rw app_string_nil_r. }
  destruct (held_is_Some _ _ Hh) as [Hs Hc].
  assert (Hset : forall c, is_Some (setFile tmp c (pDisk s)) /\ candidates (setFile tmp c (pDisk s)) = C).
  { intros c. split; [by apply setFile_some|]. by rw candidates_set_other. }
  apply wp_bind, wp_osCall.
  - by apply I_some; apply Hset.
  - intros n. by apply I_some; apply Hset.
  - intros s1 Hm. eapply wp_mono; [eapply IH, held_moved; [done|done|by apply Hset|by apply Hset]|]. cbv beta.
    intros r s2 [Hh2 Hr]. split; [done|]. destruct r; [|done]. rw Hr. destruct Hm as (_ & _ & ->).
    rw contentOf_set //. cbn [sconcat]. by rw app_string_assoc.
  - intros e n s1 Hno Hm. split; [|done]. by eapply held_moved; [..|apply Hset|apply Hset].
Qed.

Lemma wp_writeTemp tmp path m s0 s (chunks : list string) (err : option ModelErr) :
  Encode m = (chunks, err) ->
  formatForFilename tmp = None -> is_Some (formatForFilename path) -> held C s0 s -> contentOf (pDisk s) tmp = "" ->
  (err = None -> forall files, candidates (Some files) = <[path := File (sconcat chunks)]> C -> I (Some files)) ->
  wp I (writeTemp tmp path m) (fun r s' =>
    match r with
    | inl _ => err = None /\ held (<[path := File (sconcat chunks)]> C) s0 s'
    | inr _ => held C s0 s' /\ (faultless -> err <> None)
    end) s.
Proof.
  intros Henc Htmp Hpath Hh Hempty Hnew. unfold writeTemp. rw Henc. apply wp_bind, (wp_idle s0); [done| |done].
  intros s1 Hh1 Hd1. eapply wp_bind, wp_mono; [by apply (wp_writeChunks tmp chunks s0)|]. cbv beta. intros r s2 [Hh2 Hr].
  destruct r as [_|e]; [|by split]. rw Hd1 Hempty in Hr. destruct err as [err|]; [by apply wp_fail|].
  apply wp_bind, (wp_idle s0); [done| |done]. intros s3 Hh3 Hd3. apply wp_bind, (wp_idle s0); [done| |done]. intros s4 Hh4 Hd4.
  destruct (held_is_Some _ _ Hh4) as [[files Hf] Hc]. unfold Rename.
  assert (Hfile : contentOf (pDisk s4) tmp = sconcat chunks) by by rw Hd4 Hd3 Hr.
  assert (Hren : candidates (delete tmp <$> setFile path (contentOf (pDisk s4) tmp) (pDisk s4)) = <[path := File (sconcat chunks)]> C).
  { rw candidates_delete_other // Hfile Hf candidates_set // -Hf. by rw Hc. }
  apply wp_os.
  - by eapply held_I.
  - rw Hf in Hren |- *. by apply Hnew.
  - intros s5 (K1 & K2 & K3). split; [done|]. destruct Hh4 as (K4 & K5 & _). unfold held. rw K1 K2 K4 K5. split_and!; [done..|].
    rw Hf in K3, Hren. rw K3. by eexists.
  - intros e s5 Hno Hm. split; [|done]. by eapply held_moved.
Qed.
End writing.

Section atomic.
Context `{SliceSortOk, CryptoOk, Gob, Faults} (I : Disk -> Prop).

Definition temporary (n : nat) : string := ".snapshot-" +:+ tempName n +:+ ".tmp".

Lemma wp_writeAtomic path m s (chunks : list string) (err : option ModelErr) :
  Encode m = (chunks, err) -> is_Some (formatForFilename path) -> is_Some (pDisk s) ->
  (forall files, candidates (Some files) = candidates (pDisk s) -> I (Some files)) ->
  (err = None -> forall files, candidates (Some files) = <[path := File (sconcat chunks)]> (candidates (pDisk s)) -> I (Some files)) ->
  wp I (writeAtomic path m) (fun r s' =>
    match r with
    | inl _ => err = None /\ held (<[path := File (sconcat chunks)]> (candidates (pDisk s))) s s'
    | inr _ => held (candidates (pDisk s)) s s' /\
        (faultless -> (exists n, present (pDisk s) (temporary n) = true) \/ err <> None)
    end) s.
Proof.
  intros Henc Hpath Hs HI Hnew. assert (Hh : held (candidates (pDisk s)) s s).
  { split_and!; [done..|]. destruct Hs as [files Hf]. exists files. by rw Hf. }
  unfold writeAtomic, CreateTemp. apply wp_bind, wp_bind, wp_getStep. apply wp_bind, wp_getDisk.
  fold (temporary (pStep s)). destruct (present (pDisk s) (temporary (pStep s))) eqn:Hpres.
  { apply wp_fail. split; [done|]. intros _. left. by exists (pStep s). }
  assert (Htmp : formatForFilename (temporary (pStep s)) = None) by apply hasPrefix_temp.
  generalize dependent (temporary (pStep s)). intros tmp Hpres Htmp.
  assert (Hset : is_Some (setFile tmp "" (pDisk s)) /\ candidates (setFile tmp "" (pDisk s)) = candidates (pDisk s)).
  { split; [by apply setFile_some|]. by rw candidates_set_other. }
  apply wp_bind, wp_os; [by eapply held_I|by eapply I_some; [|apply Hset|apply Hset]| |].
  2: { intros e s1 Hno Hm. split; [by eapply held_moved|done]. }
  intros s1 Hm. apply wp_ret. eapply held_moved in Hm as Hh1; [|done|apply Hset|apply Hset].
  eapply wp_bind, wp_attempt, wp_mono.
  { eapply (wp_writeTemp I _ HI tmp path m s); [done..| |done]. destruct Hm as (_ & _ & ->). by rw contentOf_set. }
  cbv beta. intros r s2 Hr. destruct r as [[]|e].
  { by apply wp_ret. }
  destruct Hr as [Hh2 Herr]. apply wp_bind, wp_attempt.
  assert (Hrest : forall s3, held (candidates (pDisk s)) s s3 -> wp I (attempt (Remove tmp) ≫= (fun _ => failP (A := unit) e)) (fun r s' =>
    match r with
    | inl _ => err = None /\ held (<[path := File (sconcat chunks)]> (candidates (pDisk s))) s s'
    | inr _ => held (candidates (pDisk s)) s s' /\ (faultless -> (exists n, present (pDisk s) (temporary n) = true) \/ err <> None)
    end) s3).
  { intros s3 Hh3. destruct (held_is_Some _ _ _ Hh3) as [[files Hf] Hc].
    assert (Hdel : candidates (delete tmp <$> pDisk s3) = candidates (pDisk s)) by by rw candidates_delete_other.
    assert (Hsome : is_Some (delete tmp <$> pDisk s3)) by by rw Hf.
    apply wp_bind, wp_attempt, wp_os; [by eapply held_I|by eapply I_some| |].
    - intros s4 Hm4. apply wp_fail. split; [by eapply held_moved|]. intros Hno. right. by apply Herr.
    - intros e' s4 Hno Hm4. apply wp_fail. split; [by eapply held_moved|]. done. }
  by apply (wp_idle I _ HI s); [|intros s3 Hh3 _; apply Hrest|intros e' s3 _ Hh3; apply Hrest].
Qed.

(** ** A free name *)

Lemma app_string_cancel (s t ext : string) : s +:+ ext = t +:+ ext -> s = t.
Proof.
  intros Heq. pose proof (f_equal String.length Heq) as Hl. rw !length_app_string in Hl.
  assert (String.length s = String.length t) as Hlen by lia.
  rw -(stake_app s ext) -(stake_app t ext). by rw Hlen Heq.
Qed.

Definition numbered (stem ext : string) (k : Z) : string :=
  if k =? 0 then stem +:+ ext else stem +:+ "-" +:+ Itoa k +:+ ext.

Lemma numbered_inj stem ext j k :
  0 <= j <= maxInt64 -> 0 <= k <= maxInt64 -> numbered stem ext j = numbered stem ext k -> j = k.
Proof.
  intros Hj Hk. unfold numbered. destruct (Z.eqb_spec j 0), (Z.eqb_spec k 0); [lia| | |].
  - intros Heq%(f_equal slen). rw !slen_app in Heq. change (slen "-") with 1 in Heq. pose proof (slen_nonneg (Itoa k)). lia.
  - intros Heq%(f_equal slen). rw !slen_app in Heq. change (slen "-") with 1 in Heq. pose proof (slen_nonneg (Itoa j)). lia.
  - intros Heq. apply (inj (String.append stem)) in Heq. injection Heq as Heq. rw !app_string_nil_l in Heq. apply app_string_cancel in Heq.
    apply (f_equal ParseInt) in Heq. unfold Itoa in Heq. rw !ParseInt_FormatInt in Heq; unfold int64_range, minInt64; [lia|lia|congruence].
Qed.

(** Among more names than the directory has files, one is free. *)
Lemma numbered_free stem ext (files : gmap string DirEntry) (k : nat) :
  Z.of_nat (size files) < maxInt64 -> (size files < k)%nat ->
  ~ (forall j, (j < k)%nat -> present (Some files) (numbered stem ext (Z.of_nat j)) = true).
Proof.
  intros Hsize Hk Hall. set (names := (fun j => numbered stem ext (Z.of_nat j)) <$> seq 0 (S (size files))).
  assert (Hnd : NoDup names).
  { apply NoDup_fmap_2_strong; [|apply NoDup_seq]. intros x y Hx%elem_of_seq Hy%elem_of_seq Heq.
    apply numbered_inj in Heq; [|lia..]. lia. }
  assert (Hsub : list_to_set names ⊆@{gset string} dom files).
  { intros name (j & -> & Hj%elem_of_seq)%elem_of_list_to_set%list_elem_of_fmap. apply elem_of_dom.
    specialize (Hall j ltac:(lia)). unfold present in Hall. by apply bool_decide_eq_true in Hall. }
  apply subseteq_size in Hsub. rw size_list_to_set // size_dom in Hsub. unfold names in Hsub. rw length_fmap length_seq in Hsub. lia.
Qed.

Lemma wp_freeName stem ext files fuel k s0 s :
  Z.of_nat (size files) < maxInt64 -> quiet s0 s -> pDisk s0 = Some files -> I (Some files) ->
  (size files <= fuel + k)%nat -> (forall j, (j < k)%nat -> present (Some files) (numbered stem ext (Z.of_nat j)) = true) ->
  wp I (freeName fuel stem ext (Z.of_nat k)) (fun r s' => quiet s0 s' /\
    match r with
    | inl path => present (Some files) path = false /\ exists j, path = numbered stem ext (Z.of_nat j)
    | inr _ => ~ faultless
    end) s.
Proof.
  intros Hsize. revert k s; induction fuel as [|fuel IH]; intros k s Hq Hd HI Hfuel Hall; pose proof (q_disk _ _ Hq) as Kq3; rw Hd in Kq3;
    cbn [freeName]; fold (numbered stem ext (Z.of_nat k)).
  all: apply wp_bind, wp_os; [by rw Kq3|by rw Kq3| |].
  2,4: intros e s1 Hno Hm; split; [eauto|done].
  all: intros s1 Hm; assert (Hq1 : quiet s0 s1) by eauto; destruct Hm as (K1 & K2 & K3).
  all: unfold id in K3; rw Kq3 in K3; apply wp_bind, wp_getDisk; rw K3.
  all: destruct (present (Some files) (numbered stem ext (Z.of_nat k))) eqn:Hp; [|apply wp_ret; split; [done|]; split; [done|by exists k]].
  all: assert (Hall' : forall j, (j < S k)%nat -> present (Some files) (numbered stem ext (Z.of_nat j)) = true)
    by (intros j Hj; destruct (decide (j = k)) as [->|]; [done|apply Hall; lia]).
  - exfalso. apply (numbered_free stem ext files (S k)); [done|lia|done].
  - replace (Z.of_nat k + 1) with (Z.of_nat (S k)) by lia. apply IH; [done..|lia|done].
Qed.

Lemma wp_availableSnapshotPath stem ext files s :
  Z.of_nat (size files) < maxInt64 -> pDisk s = Some files -> I (Some files) ->
  wp I (availableSnapshotPath stem ext) (fun r s' => quiet s s' /\
    match r with
    | inl path => present (Some files) path = false /\ exists j, path = numbered stem ext (Z.of_nat j)
    | inr _ => ~ faultless
    end) s.
Proof.
  intros Hsize Hd HI. apply wp_bind, wp_getDisk. rw Hd. apply (wp_freeName stem ext files (size files) 0); [done..|lia|lia].
Qed.
End atomic.

Lemma hasSuffix_app t s : hasSuffix t (s +:+ t) = true.
Proof.
  induction s as [|c s IH].
  - rw app_string_nil_l. by destruct t; cbn [hasSuffix]; rw String.eqb_refl.
  - rw app_string_cons. cbn [hasSuffix]. by rw IH orb_true_r.
Qed.
Lemma hasSuffix_spec t s : hasSuffix t s = true -> exists x, s = x +:+ t.
Proof.
  induction s as [|c s IH]; cbn [hasSuffix].
  - rw orb_false_r. intros ->%String.eqb_eq. by exists "".
  - intros [->%String.eqb_eq|[x ->]%IH]%orb_true_iff; [by exists ""|]. by exists (String c x).
Qed.
Lemma bin_not_json s : hasSuffix ".snapshot.json" (s +:+ ".snapshot.bin") = false.
Proof.
  apply not_true_is_false. intros [x Hx]%hasSuffix_spec.
  assert (forall a b, String.list_ascii_of_string (a +:+ b) = String.list_ascii_of_string a ++ String.list_ascii_of_string b) as Happ.
  { intros a b. induction a as [|c a IH]; [done|]. rw app_string_cons. cbn. by rw IH. }
  apply (f_equal (fun s => reverse (String.list_ascii_of_string s))) in Hx. rw !Happ !reverse_app in Hx. done.
Qed.
Lemma candidate_name k m :
  (MFormat m = FormatJSON \/ MFormat m = FormatBinary) -> formatForFilename (numbered (nameStem m) (nameExt m) k) = Some (MFormat m).
Proof.
  intros Hf. assert (Hn : exists x, numbered (nameStem m) (nameExt m) k = "snapshot-" +:+ x +:+ nameExt m).
  { unfold numbered, nameStem. destruct (k =? 0); rw !app_string_assoc; eexists; [by rw -!app_string_assoc|].
    rw -(app_string_assoc _ (Itoa k)) -(app_string_assoc _ (_ +:+ Itoa k)) -(app_string_assoc _ (_ +:+ (_ +:+ Itoa k))). by rw -!app_string_assoc. }
  destruct Hn as [x ->]. unfold formatForFilename. unfold nameExt.
  assert (forall y, hasPrefix "snapshot-" ("snapshot-" +:+ y) = true) as -> by done. cbn [negb].
  destruct Hf as [->| ->]; cbn [String.eqb].
  - by rw -app_string_assoc hasSuffix_app.
  - rw -app_string_assoc. by rw bin_not_json hasSuffix_app.
Qed.

(** ** Retention *)

Lemma wp_weaken {A} (I I' : Disk -> Prop) (m : P A) Q s : wp I' m Q s -> (forall d, I' d -> I d) -> wp I m Q s.
Proof. intros (r & s1 & n1 & Hm & Ht & HI & HQ) Himp. exists r, s1, n1. split_and!; [done|done|by eapply Forall_impl|done]. Qed.

Lemma wp_removeAll `{Faults} (I : Disk -> Prop) names s :
  (forall d name, name ∈ names -> I d -> I (delete name <$> d)) -> I (pDisk s) ->
  wp I (removeAll names) (fun r s' => pSys s' = pSys s /\ pMeta s' = pMeta s /\ I (pDisk s') /\
    match r with
    | inl _ => candidates (pDisk s') = foldl (fun C name => delete name C) (candidates (pDisk s)) names
    | inr _ => ~ faultless
    end) s.
Proof.
  revert s; induction names as [|name names IH]; intros s Hdel HI; cbn [removeAll]; [by apply wp_ret|].
  apply wp_bind, wp_os; [done|by apply Hdel; [left|]| |].
  - intros s1 (K1 & K2 & K3). eapply wp_mono; [apply IH; [intros; apply Hdel; [by right|done]|rw K3; by apply Hdel; [left|]]|].
    cbv beta. intros r s2 (K4 & K5 & K6 & K7). rw K4 K5 K1 K2. split_and!; [done..|]. destruct r; [|done]. rw K7 K3 candidates_delete. done.
  - intros e s1 Hno (K1 & K2 & K3). rw K3. done.
Qed.

(** Some of these candidates are gone, everything else is as it was. *)
Definition pruned (d : Disk) (names : list string) (d' : Disk) : Prop :=
  forall name, candidates d' !! name = candidates d !! name \/ (name ∈ names /\ candidates d' !! name = None).

Lemma pruned_refl d names : pruned d names d.
Proof. by left. Qed.
Lemma pruned_delete d names d' name : name ∈ names -> pruned d names d' -> pruned d names (delete name <$> d').
Proof.
  intros Hin Hp x. rw candidates_delete. destruct (decide (name = x)) as [->|Hne].
  - right. by rw lookup_delete_eq.
  - by rw lookup_delete_ne.
Qed.
Lemma foldl_delete_lookup (C : gmap string DirEntry) names name :
  foldl (fun C name => delete name C) C names !! name = if bool_decide (name ∈ names) then None else C !! name.
Proof.
  revert C; induction names as [|x names IH]; intros C; cbn [foldl]; [by rw bool_decide_eq_false_2; [apply not_elem_of_nil|]|].
  rw IH. destruct (decide (name ∈ names)) as [Hin|Hin].
  - rw (bool_decide_eq_true_2 (name ∈ names)) // bool_decide_eq_true_2 //. by right.
  - rw (bool_decide_eq_false_2 (name ∈ names)) //. destruct (decide (name = x)) as [->|Hne].
    + rw lookup_delete_eq bool_decide_eq_true_2 //. by left.
    + rw lookup_delete_ne // bool_decide_eq_false_2 //. rw elem_of_cons. tauto.
Qed.

(** The names beyond the first [max]. *)
Definition excess (max : Z) (valid : list (string * Model)) : list string :=
  if max <=? 0 then [] else fst <$> drop (Z.to_nat max) valid.

Section pruning.
Context `{Env, SliceSortOk, CryptoOk, Gob, Faults} (cfg : PersistenceConfig) (nodeID : string) (I : Disk -> Prop).

Lemma wp_pruneValidSnapshots s :
  (forall valid d, valid_list nodeID (pDisk s) valid -> pruned (pDisk s) (excess (MaxSnapshots cfg) valid) d -> I d) -> I (pDisk s) ->
  wp I (pruneValidSnapshots cfg nodeID) (fun r s' => sysStore (pSys s') = sysStore (pSys s) /\ pMeta s' = pMeta s /\
    match r with
    | inl _ => exists valid, valid_list nodeID (pDisk s) valid /\
        forall name, candidates (pDisk s') !! name = if bool_decide (name ∈ excess (MaxSnapshots cfg) valid) then None else candidates (pDisk s) !! name
    | inr _ => ~ faultless
    end) s.
Proof.
  intros HI HI0. unfold pruneValidSnapshots. eapply wp_bind, wp_mono; [by apply wp_validSnapshots|]. cbv beta.
  intros r s1 ([Kq1 Kq2 Kq3 _] & Hr). destruct r as [[valid n]|e]; [|done]. destruct Hr as [Hv _].
  assert (Hnone : excess (MaxSnapshots cfg) valid = [] ->
    forall name, candidates (pDisk s1) !! name = if bool_decide (name ∈ excess (MaxSnapshots cfg) valid) then None else candidates (pDisk s) !! name).
  { intros -> name. rw bool_decide_eq_false_2; [by apply not_elem_of_nil|]. by rw Kq3. }
  unfold excess in *. destruct (MaxSnapshots cfg <=? 0) eqn:Hm; cbn [orb]; [apply wp_ret; by eauto 10|].
  destruct (Z.leb_spec (Z.of_nat (length valid)) (MaxSnapshots cfg)).
  { apply wp_ret. split_and!; [done..|]. exists valid. split; [done|]. apply Hnone. by rw drop_ge; [lia|]. }
  eapply wp_weaken; [|intros d; by apply (HI valid)].
  eapply wp_mono; [apply (wp_removeAll (pruned (pDisk s) (fst <$> drop (Z.to_nat (MaxSnapshots cfg)) valid)))|].
  - intros d name. apply pruned_delete.
  - rw Kq3. apply pruned_refl.
  - cbv beta. intros r s2 (K1 & K2 & K3 & K4). rw K1 K2. split_and!; [done..|]. destruct r; [|done]. exists valid. split; [done|].
    intros name. by rw K4 Kq3 foldl_delete_lookup.
Qed.

(** For every valid snapshot of [d] there is one in [d'] that is at least as
    new. *)
Definition covers (d d' : Disk) : Prop :=
  forall name m, valid_in nodeID d name m -> exists name' m', valid_in nodeID d' name' m' /\ MCreatedAt m <= MCreatedAt m'.

Lemma valid_in_inj d name m m' : valid_in nodeID d name m -> valid_in nodeID d name m' -> m = m'.
Proof. intros (e & He & Hm) (e' & He' & Hm'). congruence. Qed.

Lemma covers_pruned d valid d' :
  valid_list nodeID d valid -> pruned d (excess (MaxSnapshots cfg) valid) d' -> covers d d'.
Proof.
  intros [Hs Hnd Hv _] Hp name m Hm.
  assert (Hkeep : forall name m, name ∉ excess (MaxSnapshots cfg) valid -> valid_in nodeID d name m -> valid_in nodeID d' name m).
  { intros x mx Hx (e & He & Hme). exists e. split; [|done]. by destruct (Hp x) as [->|[Hin _]]. }
  destruct (decide (name ∈ excess (MaxSnapshots cfg) valid)) as [Hin|Hin]; [|by exists name, m; split; [apply Hkeep|]].
  unfold excess in *. destruct (Z.leb_spec (MaxSnapshots cfg) 0); [by apply not_elem_of_nil in Hin|].
  apply list_elem_of_fmap in Hin as ([x mx] & -> & Hin). cbn [fst] in Hm.
  destruct (Z.to_nat (MaxSnapshots cfg)) as [|k] eqn:Hk; [lia|]. destruct valid as [|v0 valid]; [by apply not_elem_of_nil in Hin|].
  cbn [drop] in Hin, Hkeep. apply NoDup_cons in Hnd as [Hn0 _]. apply StronglySorted_inv in Hs as [_ Hall].
  assert (Hxv : (x, mx) ∈ valid) by (apply (subseteq_drop k); done).
  assert (m = mx) as -> by by eapply valid_in_inj; [|apply (Hv (x, mx)); right].
  exists v0.1, v0.2. split.
  - apply Hkeep; [|apply Hv; by left]. intros (y & Hy & Hiny)%list_elem_of_fmap. apply Hn0. rw Hy. apply list_elem_of_fmap_2.
    by apply (subseteq_drop k).
  - rw Forall_forall in Hall. by apply (newer_le v0 (x, mx)), Hall.
Qed.
End pruning.

(** ** Taking a snapshot *)

Section snapshots.
Context `{Env, SliceSortOk, CryptoOk, Gob, Faults} (cfg : PersistenceConfig) (nodeID : string).

(** No candidate file is partly written: each was there before or is the whole
    encoding of a model. *)
Definition complete (d d' : Disk) : Prop :=
  forall name entry, candidates d' !! name = Some entry ->
    candidates d !! name = Some entry \/ exists m chunks, Encode m = (chunks, None) /\ entry = File (sconcat chunks).
Definition safe (d d' : Disk) : Prop := covers nodeID d d' /\ complete d d'.

Lemma safe_same d d' : candidates d' = candidates d -> safe d d'.
Proof.
  intros Heq. split.
  - intros name m (e & He & Hm). exists name, m. split; [|lia]. exists e. by rw Heq.
  - intros name entry. rw Heq. by left.
Qed.
Lemma safe_added d d' path m chunks :
  Encode m = (chunks, None) -> candidates d !! path = None -> candidates d' = <[path := File (sconcat chunks)]> (candidates d) -> safe d d'.
Proof.
  intros Henc Hfree Heq. split.
  - intros name mx (e & He & Hm). exists name, mx. split; [|lia]. exists e. rw Heq lookup_insert_ne; [|done]. intros ->. congruence.
  - intros name entry. rw Heq. intros [[<- <-]|[Hne He]]%lookup_insert_Some; [right; by eauto|by left].
Qed.
Lemma safe_pruned d d1 d2 valid :
  safe d d1 -> valid_list nodeID d1 valid -> pruned d1 (excess (MaxSnapshots cfg) valid) d2 -> safe d d2.
Proof.
  intros [Hc Ho] Hv Hp. split.
  - intros name m (name1 & m1 & Hv1 & Hle)%Hc. destruct (covers_pruned cfg nodeID d1 valid d2 Hv Hp name1 m1 Hv1) as (name2 & m2 & Hv2 & Hle2).
    exists name2, m2. split; [done|lia].
  - intros name entry He. apply Ho. destruct (Hp name) as [<-|[_ Hn]]; [done|congruence].
Qed.

Lemma Seal_format draft m : Seal draft = inl m -> MFormat m = FormatJSON \/ MFormat m = FormatBinary.
Proof.
  intros Hs. assert (Hm : m = withChecksum draft (expectedChecksum draft)) by by apply Seal_verify. subst m. cbn [withChecksum MFormat].
  revert Hs. unfold Seal, validateMetadata. destruct (String.eqb_spec (MFormat draft) FormatJSON); [by left|].
  destruct (String.eqb_spec (MFormat draft) FormatBinary); [by right|]. done.
Qed.

(** The entries and the sealed model of a snapshot taken in state [s]. *)
Definition entriesAt (s : PState) : option (list SnapEntry + SnapErr) :=
  snapshotEntries (sysStore (pSys s)) (clock (tick (pSys s))) (visit (S (tick (pSys s)))).
Definition sealedAt (s : PState) (items : list SnapEntry) : Model + ModelErr :=
  Seal (mkModel (PFormat cfg) FormatVersion nodeID (clock (S (S (tick (pSys s)))) + unixEpoch) (metadataOf (pMeta s)) items "").

Record taken (s s' : PState) (res : Result) (items : list SnapEntry) (m : Model) (chunks : list string) : Prop := {
  tk_entries : entriesAt s = Some (inl items);
  tk_sealed : sealedAt s items = inl m;
  tk_encoded : Encode m = (chunks, None);
  tk_free : candidates (pDisk s) !! RPath res = None;
  tk_name : formatForFilename (RPath res) = Some (MFormat m);
  tk_disk : exists d1 valid, candidates d1 = <[RPath res := File (sconcat chunks)]> (candidates (pDisk s)) /\ valid_list nodeID d1 valid /\
    forall name, candidates (pDisk s') !! name = if bool_decide (name ∈ excess (MaxSnapshots cfg) valid) then None else candidates d1 !! name;
  tk_result : res = mkResult (RPath res) (MFormat m) (MCreatedAt m) (Z.of_nat (length items)) (MChecksum m)
}.

Definition post (s : PState) (r : Result + PersistErr) (s' : PState) : Prop :=
  sysStore (pSys s') = sysStore (pSys s) /\ pMeta s' = pMeta s /\
  match r with
  | inl res => exists items m chunks, taken s s' res items m chunks
  | inr _ => faultless -> PEnabled cfg = true -> (forall n, present (pDisk s) (temporary n) = false) ->
      forall items m chunks, entriesAt s = Some (inl items) -> sealedAt s items = inl m -> Encode m <> (chunks, None)
  end.

Definition bounded (d : Disk) : Prop := forall files, d = Some files -> Z.of_nat (size files) < maxInt64.

Lemma wp_write_prune s s1 items m :
  bounded (pDisk s) -> candidates (pDisk s1) = candidates (pDisk s) -> pDisk s1 = Some (default ∅ (pDisk s)) ->
  sysStore (pSys s1) = sysStore (pSys s) -> pMeta s1 = pMeta s -> entriesAt s = Some (inl items) -> sealedAt s items = inl m ->
  wp (safe (pDisk s)) (
    path ← availableSnapshotPath (nameStem m) (nameExt m); _ ← writeAtomic path m; _ ← pruneValidSnapshots cfg nodeID;
    mret (mkResult path (MFormat m) (MCreatedAt m) (Z.of_nat (length items)) (MChecksum m))) (post s) s1.
Proof.
  intros Hb Hc Hd Hst Hmt Hent Hseal. pose proof (Seal_format _ _ Hseal) as Hfmt.
  assert (Hpres : forall name, present (pDisk s1) name = present (pDisk s) name).
  { intros name. rw Hd. destruct (pDisk s); [done|]. cbn. by rw bool_decide_eq_false_2; [rw lookup_empty; intros [? ?]|]. }
  assert (Hsz : Z.of_nat (size (default ∅ (pDisk s) : gmap string DirEntry)) < maxInt64).
  { destruct (pDisk s) as [files|] eqn:Hf; [by apply (Hb files)|]. cbn. by rw map_size_empty. }
  eapply wp_bind, wp_mono; [apply (wp_availableSnapshotPath _ (nameStem m) (nameExt m)); [done|done|]|].
  { apply safe_same. by rw -Hd. }
  cbv beta. intros r s2 ([Kq1 Kq2 Kq3 _] & Hr). destruct r as [path|e].
  2: { split_and!; [congruence..|]. done. }
  destruct Hr as [Hfree [j Hpath]].
  assert (Hname : formatForFilename path = Some (MFormat m)) by (rw Hpath; by apply candidate_name).
  assert (Hnone : candidates (pDisk s) !! path = None).
  { rw -Hc Hd. apply map_lookup_filter_None_2. left. unfold present in Hfree. apply bool_decide_eq_false in Hfree. by apply eq_None_not_Some. }
  destruct (Encode m) as [chunks err] eqn:Henc.
  eapply wp_bind, wp_mono; [apply (wp_writeAtomic _ path m s2 chunks err Henc)|].
  { by rw Hname. }
  { rw Kq3 Hd. done. }
  { intros files. rw Kq3 Hc. apply safe_same. }
  { intros -> files. rw Kq3 Hc. by apply (safe_added _ _ path m chunks). }
  cbv beta. intros r s3 Hr. destruct r as [_|e].
  2: { destruct Hr as [(K1 & K2 & _) Herr]. split_and!; [congruence..|]. intros Hno _ Htmp items' m' chunks' He Hs Henc'.
       rw Hent in He. injection He as <-. rw Hseal in Hs. injection Hs as <-. rw Henc in Henc'. injection Henc' as -> ->.
       destruct (Herr Hno) as [[n Hn]|Hn]; [|done]. rw Kq3 Hpres Htmp in Hn. done. }
  destruct Hr as [-> (K1 & K2 & files & K3 & K4)]. rw Kq3 Hc in K4.
  assert (Hs3 : safe (pDisk s) (pDisk s3)) by (rw K3; by apply (safe_added _ _ path m chunks)).
  eapply wp_bind, wp_mono; [apply wp_pruneValidSnapshots; [|done]|].
  { intros valid d Hv Hp. by eapply safe_pruned. }
  cbv beta. intros r s4 (K5 & K6 & Hr). destruct r as [_|e]; [|split_and!; [congruence..|]; done].
  apply wp_ret. split_and!; [congruence..|]. destruct Hr as (valid & Hv & Hcand). exists items, m, chunks. split; try done.
  exists (pDisk s3), valid. by rw K3 in Hv, Hcand |- *.
Qed.

Lemma wp_Snapshot s kv :
  store_kv (sysStore (pSys s)) kv -> (forall t, range_ok (visit t)) -> bounded (pDisk s) ->
  wp (safe (pDisk s)) (Persistence.Snapshot cfg nodeID) (post s) s.
Proof.
  intros Hkv Hvisit Hb. unfold Persistence.Snapshot. destruct (PEnabled cfg) eqn:Hen; cbn [negb].
  2: { apply wp_fail. split_and!; [done..|]. congruence. }
  assert (Hmk : candidates (Some (default ∅ (pDisk s))) = candidates (pDisk s)) by by destruct (pDisk s).
  apply wp_bind, wp_os; [by apply safe_same|by apply safe_same| |].
  2: { intros e s1 Hno (K1 & K2 & K3). split_and!; [congruence..|]. done. }
  intros s1 (K1 & K2 & K3). destruct (snapshotEntries_total _ _ (clock (tick (pSys s))) _ Hkv (Hvisit (S (tick (pSys s))))) as [r Hr].
  eapply wp_bind, wp_engine; [unfold SnapshotEntries; cbv beta; rw K1 Hr; reflexivity|].
  destruct r as [items|err]; [|apply wp_fail; split_and!; [done|done|intros _ _ _ ? ? ?; unfold entriesAt; congruence]].
  eapply wp_bind, wp_engine; [reflexivity|]. eapply wp_bind. eexists _, _, []. split_and!; [reflexivity|by apply went_nil|done|].
  cbn [pMeta pSys sysStore tick]. rw K2. fold (sealedAt s items). destruct (sealedAt s items) as [m|err] eqn:Hs.
  - apply (wp_write_prune s); cbn [pDisk pSys pMeta sysStore]; try done; by rw K3.
  - apply wp_fail. split_and!; [done..|]. intros _ _ _ items' m chunks He. unfold entriesAt in He. rw Hr in He. injection He as <-. congruence.
Qed.
End snapshots.
