(* ===== verification/Durability.v ===== *)
(** * Crash safety and durability of snapshots

    What taking and loading snapshots promise together: no step of taking a
    snapshot, failed or not, leaves the directory without a snapshot that is as
    good as before; and a snapshot that was taken is what the next start loads. *)
From S2P Require Import Prelude Encoding GoText GoTime Json JsonCodec Resp SkipList Eviction Store StoreSpec Executor Snapshot SnapshotSpec Metadata SnapshotFile Persistence PersistenceSpec.
Local Open Scope Z_scope.

(** ** The newest snapshot *)

Section newest.
Context `{SliceSortOk, CryptoOk, Gob, Faults} (nodeID : string).

Lemma newest_first d valid path m :
  faultless -> valid_list nodeID d valid -> valid_in nodeID d path m ->
  (forall name' m', valid_in nodeID d name' m' -> name' = path \/ MCreatedAt m' < MCreatedAt m) ->
  exists rest, valid = (path, m) :: rest.
Proof.
  intros Hno [Hs _ Hv Hall] Hm Hold. pose proof (Hall Hno path m Hm) as Hin. destruct valid as [|[n0 m0] rest]; [by apply not_elem_of_nil in Hin|].
  exists rest. f_equal. pose proof (Hv (n0, m0) (list_elem_of_here _ _)) as Hv0. cbn [fst snd] in Hv0.
  destruct (Hold n0 m0 Hv0) as [->|Hlt]; [by rw (valid_in_inj _ _ _ _ _ Hm Hv0)|]. exfalso.
  apply elem_of_cons in Hin as [[= -> ->]|Hin]; [lia|]. apply StronglySorted_inv in Hs as [_ Hs]. rw Forall_forall in Hs.
  specialize (Hs _ Hin). apply newer_le in Hs. cbn [snd] in Hs. lia.
Qed.
End newest.

Lemma snapshot_validates lvls es :
  (forall i k, (1 <= lvls i k <= skipListMaxLevel)%nat) -> NoDup (EKey <$> es) ->
  Forall (fun e => entry_ok (EKey e) e /\ saveable (abs_value (EValue e))) es ->
  ValidateSnapshotEntries lvls (snapOf <$> es) = Some None.
Proof. intros Hlv Hnd Hall. apply validateLoop_snapOf; [done|done|by intros e _; apply not_elem_of_empty|done]. Qed.

Lemma validateEntries_snapOf es keys :
  NoDup (EKey <$> es) -> (forall e, e ∈ es -> EKey e ∉ keys) -> Forall (fun e => entry_ok (EKey e) e) es ->
  validateEntries keys (snapOf <$> es) = None.
Proof.
  revert keys; induction es as [|e es IH]; intros keys Hnd Hk Hall; [done|]. cbn [fmap list_fmap validateEntries].
  apply NoDup_cons in Hnd as [Hni Hnd]. apply Forall_cons in Hall as [Hok Hall].
  rw bool_decide_eq_false_2; [by apply Hk; left|].
  assert (existsb (String.eqb (SValueType (snapOf e))) ["string"; "list"; "zset"] = true) as ->.
  { unfold snapOf. cbn [SValueType]. rw (ok_type _ _ Hok). by destruct (EValue e). }
  cbn [negb]. apply IH; [done| |done]. intros x Hx. rw elem_of_union elem_of_singleton. intros [Heq|Hin].
  - apply Hni. change (EKey x = EKey e) in Heq. rw -Heq. by apply list_elem_of_fmap_2.
  - by eapply Hk; [right|].
Qed.

(** ** What can be written *)

Section durable.
Context `{Env, SliceSortOk, CryptoOk, Gob, Faults} (cfg : PersistenceConfig) (nodeID : string) (limit : Z).

(** Cluster metadata that JSON can represent. *)
Definition json_metadata (c : ClusterMetadata) : Prop :=
  utf8 (CMClusterID c) /\ (0 <= CMSlotCount c <= 4294967295 /\ 0 <= CMVersion c <= maxUint64) /\
  Forall json_peer (CMPeers c) /\ Forall json_slot (CMSlots c).

(** When a snapshot taken in state [s] of the map [kv] can be written: the
    configuration is one that [Validate] accepts, the clock can be printed, and
    the format can represent the data. *)
Record writable (s : PState) (kv : KV) : Prop := {
  wr_format : PFormat cfg = FormatJSON \/ PFormat cfg = FormatBinary;
  wr_node : nodeID <> "";
  wr_time : is_Some (timeText (clock (S (S (tick (pSys s)))) + unixEpoch));
  wr_created : clock (S (S (tick (pSys s)))) + unixEpoch <> 0;
  wr_slots : validateSlots (CMSlotCount (metadataOf (pMeta s))) ∅ (CMSlots (metadataOf (pMeta s))) = None;
  wr_save : savable_map (clock (tick (pSys s))) kv;
  wr_json : PFormat cfg = FormatJSON -> utf8 nodeID /\ json_metadata (metadataOf (pMeta s)) /\
    map_Forall (fun key x => utf8 key /\ int64_range x.2) (live_at (clock (tick (pSys s))) kv);
  wr_gob : PFormat cfg = FormatBinary -> forall items m, entriesAt s = Some (inl items) -> sealedAt cfg nodeID s items = inl m ->
    is_Some (gobModel m) /\ gob_ok m
}.

Lemma writable_json s kv es m :
  writable s kv -> MFormat m = FormatJSON ->
  Forall (fun e => entry_ok (EKey e) e /\ saveable (abs_value (EValue e))) es ->
  Forall (fun e => live_at (clock (tick (pSys s))) kv !! EKey e = Some (abs_entry e)) es ->
  sealedAt cfg nodeID s (snapOf <$> es) = inl m -> json_model m.
Proof.
  intros Hw Hf Hok Hlive Hs. pose proof (Seal_verify _ _ Hs) as [_ Heq]. rw Heq in Hf |- *. cbn [withChecksum MFormat] in Hf.
  destruct (wr_json _ _ Hw Hf) as (Hn & (Hc & Hcnt & Hp & Hsl) & Hkv). split; cbn [withChecksum MFormat MNodeID MChecksum MCluster MFormatVersion MEntries].
  - split_and!; [by rw Hf|done| |done]. apply hexEncode_utf8.
  - split; [by unfold FormatVersion|done].
  - done.
  - done.
  - apply Forall_fmap, Forall_forall. intros e He. rw Forall_forall in Hok. rw Forall_forall in Hlive. destruct (Hok e He) as [Heo _].
    destruct (Hkv _ _ (Hlive e He)) as [Hk Hx]. split; cbn [snapOf SKey SValueType SApproxSize SExpiresAtNs]; [done| | |done].
    + rw (ok_type _ _ Heo). by destruct (EValue e).
    + rw (entry_ok_size _ _ Heo). pose proof (asize_range (EKey e) (abs_value (EValue e))). unfold maxUint64. lia.
Qed.

(** A writable snapshot is sealed and encoded, and its file is read back. *)
Lemma writable_snapshot s kv :
  store_kv (sysStore (pSys s)) kv -> (forall t, range_ok (visit t)) -> writable s kv ->
  exists es m chunks, entriesAt s = Some (inl (snapOf <$> es)) /\ sealedAt cfg nodeID s (snapOf <$> es) = inl m /\ Encode m = (chunks, None) /\
    forall path, formatForFilename path = Some (MFormat m) -> snapshotIn nodeID path (File (sconcat chunks)) = Some m.
Proof.
  intros Hkv Hvisit Hw. destruct (snapshot_items _ _ (clock (tick (pSys s))) _ Hkv (Hvisit (S (tick (pSys s)))) (wr_save _ _ Hw)) as (es & He & Hnd & Hok & Hlive).
  assert (exists m, sealedAt cfg nodeID s (snapOf <$> es) = inl m) as [m Hm].
  { unfold sealedAt, Seal, validateMetadata. cbn [MFormat MFormatVersion MNodeID MCreatedAt MCluster MEntries MChecksum].
    assert (negb (String.eqb (PFormat cfg) FormatJSON) && negb (String.eqb (PFormat cfg) FormatBinary) = false) as ->.
    { by destruct (wr_format _ _ Hw) as [->| ->]. }
    rw (proj2 (String.eqb_neq _ _) (wr_node _ _ Hw)) (proj2 (Z.eqb_neq _ _) (wr_created _ _ Hw)). cbn [negb andb FormatVersion Z.eqb Pos.eqb].
    rw validateEntries_snapOf; [done|by intros e _; apply not_elem_of_empty|by eapply Forall_impl; [exact Hok|]; intros e [? _]|].
    rw (wr_slots _ _ Hw). by eexists. }
  pose proof (Seal_verify _ _ Hm) as [Hver Heq]. assert (Hfm : MFormat m = PFormat cfg) by by rw Heq.
  assert (exists chunks, Encode m = (chunks, None)) as [chunks Henc].
  { unfold Encode. rw Hver Hfm. destruct (wr_format _ _ Hw) as [Hf|Hf]; rw Hf; cbn [String.eqb].
    - destruct (wr_time _ _ Hw) as [t Ht]. unfold indentModel, modelJson. rw Heq. cbn [withChecksum MCreatedAt]. rw Ht. by eexists.
    - destruct (wr_gob _ _ Hw Hf _ _ He Hm) as [[payload ->] _]. by eexists. }
  exists es, m, chunks. split_and!; [done..|]. intros path Hpath. unfold snapshotIn. rw Hpath. cbn [mbind option_bind].
  destruct (file_exact _ m chunks Hm) as [-> _]; [intros Hf; by eapply writable_json|intros Hf; by eapply wr_gob; [| |exact He|]; rw -?Hfm|done|].
  rw Heq. cbn [withChecksum MNodeID MEntries]. rw String.eqb_refl. cbn [negb].
  rw snapshot_validates; [unfold skipListMaxLevel; lia|done|done|]. done.
Qed.

(** ** Loading it again *)

(** Restoring the cluster's metadata before the entries. *)
Definition accepts (s : PState) (meta : ClusterMetadata) : Prop :=
  match pMeta s with None => True | Some m => fst (RestoreSnapshot m meta) = None end.
Definition installed (s : PState) (meta : ClusterMetadata) : option Metadata := (fun m => snd (RestoreSnapshot m meta)) <$> pMeta s.

Lemma restoreMetadata_ok s meta : accepts s meta ->
  restoreMetadata meta s = Some (inl tt, mkPState (pSys s) (installed s meta) (pDisk s) (pStep s) (pTrace s)).
Proof.
  unfold accepts, installed, restoreMetadata. destruct s as [w [m|] d n t]; cbn [pMeta pSys pDisk pStep pTrace]; [|done].
  destruct (String.eqb_spec (CMClusterID meta) "") as [He|He].
  - intros _. unfold RestoreSnapshot. by rw He.
  - cbn [fmap option_fmap option_map]. by destruct (RestoreSnapshot m meta) as [[err|] m'].
Qed.

Lemma wp_RestoreLatest I s path m now kv kv2 es :
  faultless -> PEnabled cfg = true -> I (pDisk s) -> valid_in nodeID (pDisk s) path m ->
  (forall name' m', valid_in nodeID (pDisk s) name' m' -> name' = path \/ MCreatedAt m' < MCreatedAt m) ->
  accepts s (MCluster m) -> store_kv (sysStore (pSys s)) kv2 -> MEntries m = snapOf <$> es ->
  (forall lvls now', (forall i k, (1 <= lvls i k <= skipListMaxLevel)%nat) -> exists n s', RestoreSnapshotEntries limit lvls (sysStore (pSys s)) (snapOf <$> es) now' = Some (inl n, s') /\
     store_kv s' (live_at now' (live_at now kv))) ->
  wp I (RestoreLatest cfg nodeID limit) (fun r s' => pMeta s' = installed s (MCluster m) /\ exists n t, (tick (pSys s) <= t)%nat /\
    r = inl (mkRestoreResult (mkResult path (MFormat m) (MCreatedAt m) (Z.of_nat (length es)) (MChecksum m)) n) /\
    store_kv (sysStore (pSys s')) (live_at (clock t) (live_at now kv))) s.
Proof.
  intros Hno Hen HI Hm Hold Hacc Hkv2 Hes Hres. unfold RestoreLatest. rw Hen. cbn [negb].
  eapply wp_bind, wp_mono; [by apply wp_validSnapshots|]. cbv beta. intros r s1 (Hq & Hr). destruct r as [[valid n]|e]; [|done].
  destruct Hr as [Hv _]. destruct (newest_first _ _ _ _ _ Hno Hv Hm Hold) as [rest ->].
  assert (Hacc1 : accepts s1 (MCluster m)) by (unfold accepts; by rw (q_meta _ _ Hq)).
  eapply wp_bind. eexists _, _, []. split_and!; [by apply restoreMetadata_ok|by apply went_nil|done|].
  destruct (Hres (fun i k => randomLevel (coins (S (tick (pSys s1) + i)) k)) (clock (tick (pSys s1)))) as (k & st & Hrun & Hst).
  { intros i j. apply randomLevel_bounds. }
  eapply wp_bind, wp_engine; [unfold RestoreEntries; cbv beta; cbn [pSys]; rw Hes (q_store _ _ Hq) Hrun; reflexivity|].
  apply wp_ret. cbn [pMeta pSys sysStore]. split; [unfold installed; by rw (q_meta _ _ Hq)|].
  exists k, (tick (pSys s1)). split; [by apply q_tick|]. rw Hes length_fmap. by split.
Qed.

Lemma Snapshot_taken s kv :
  faultless -> PEnabled cfg = true -> bounded (pDisk s) -> (forall n, present (pDisk s) (temporary n) = false) ->
  store_kv (sysStore (pSys s)) kv -> (forall t, range_ok (visit t)) -> writable s kv ->
  (forall name m, valid_in nodeID (pDisk s) name m -> MCreatedAt m < clock (S (S (tick (pSys s)))) + unixEpoch) ->
  exists res s1 es m, Persistence.Snapshot cfg nodeID s = Some (inl res, s1) /\
    entriesAt s = Some (inl (snapOf <$> es)) /\ sealedAt cfg nodeID s (snapOf <$> es) = inl m /\
    res = mkResult (RPath res) (MFormat m) (MCreatedAt m) (Z.of_nat (length es)) (MChecksum m) /\
    valid_in nodeID (pDisk s1) (RPath res) m /\
    (forall name' m', valid_in nodeID (pDisk s1) name' m' -> name' = RPath res \/ MCreatedAt m' < MCreatedAt m).
Proof.
  intros Hno Hen Hb Htmp Hkv Hvisit Hw Hold.
  destruct (wp_Snapshot cfg nodeID s kv Hkv Hvisit Hb) as (r & s1 & new & Hrun & _ & _ & _ & _ & Hr).
  destruct (writable_snapshot s kv Hkv Hvisit Hw) as (es & m & chunks & He & Hs & Henc & Hin).
  destruct r as [res|e]; [|by destruct (Hr Hno Hen Htmp _ _ chunks He Hs)].
  destruct Hr as (items & m' & chunks' & [Te Ts Tenc Tfree Tname (d1 & valid & Hd1 & Hv & Hcand) Tres]).
  rw He in Te. injection Te as <-. rw Hs in Ts. injection Ts as <-. rw Henc in Tenc. injection Tenc as <-.
  exists res, s1, es, m. pose proof (Seal_verify _ _ Hs) as [_ Heq].
  assert (Hcr : MCreatedAt m = clock (S (S (tick (pSys s)))) + unixEpoch) by by rw Heq.
  assert (Hnew : valid_in nodeID d1 (RPath res) m).
  { exists (File (sconcat chunks)). rw Hd1 lookup_insert_eq. split; [done|]. by apply Hin. }
  assert (Hold1 : forall name' m', valid_in nodeID d1 name' m' -> name' = RPath res \/ MCreatedAt m' < MCreatedAt m).
  { intros name' mx (e & Hl & Hmx). rw Hd1 in Hl. apply lookup_insert_Some in Hl as [[<- _]|[Hne Hl]]; [by left|].
    right. rw Hcr. apply (Hold name'). by exists e. }
  assert (Hkeep : forall name' m', valid_in nodeID (pDisk s1) name' m' -> valid_in nodeID d1 name' m').
  { intros name' mx (e & Hl & Hmx). rw Hcand in Hl. case_bool_decide; [done|]. by exists e. }
  split_and!; [done..| | |]; [by rw length_fmap in Tres| |by intros name' mx ?%Hkeep; apply Hold1].
  destruct Hnew as (e & Hl & Hm). exists e. split; [|done]. rw Hcand bool_decide_eq_false_2 //.
  assert (Hnew' : valid_in nodeID d1 (RPath res) m) by by exists e.
  destruct (newest_first _ _ _ _ _ Hno Hv Hnew' Hold1) as [rest ->]. unfold excess.
  destruct (Z.leb_spec (MaxSnapshots cfg) 0); [by apply not_elem_of_nil|].
  destruct (Z.to_nat (MaxSnapshots cfg)) as [|k] eqn:Hk; [lia|]. cbn [drop].
  pose proof (vl_names _ _ _ Hv) as Hnd. apply NoDup_cons in Hnd as [Hni _]. intros (y & Hy & Hiny)%list_elem_of_fmap.
  apply Hni. cbn [fst]. rw Hy. apply list_elem_of_fmap_2. by apply (subseteq_drop k).
Qed.
End durable.

(** ** The theorems *)

(** A clock that counts nanoseconds, a disk that works, and one on which the
    first write fails after ten bytes. *)
Definition exampleEnv : Env := mkEnv (fun n => 1700000000000000000 + Z.of_nat n) (fun _ _ _ => false) (fun _ => keyOrder).
Definition noGob : Gob := Build_Gob (fun _ => None) (fun _ => None).
Definition noFaults : Faults := Build_Faults (fun _ => None) (fun _ => O) (fun _ => "1").
Definition brokenWrite : Faults :=
  Build_Faults (fun n => if (n =? 4)%nat then Some "no space left on device" else None) (fun _ => 10%nat) (fun _ => "1").
Definition exampleConfig : PersistenceConfig := mkPersistence true "data" 60 2 true FormatJSON.
Definition exampleState (s : Store) (d : Disk) : PState := mkPState (mkSys s 0) None d 0 [].

(** C7: Taking a snapshot is safe against crashes of the process: whatever steps of the operating system
    fail, taking a snapshot ends, and after every single step the directory
    holds, for each valid snapshot there was before, a valid snapshot that is
    at least as new, and no file with the name of a snapshot is partly written. *)
Theorem snapshot_crash_safe `{Env, SliceSortOk, CryptoOk, Gob, Faults} cfg nodeID s kv :
  store_kv (sysStore (pSys s)) kv -> (forall t, range_ok (visit t)) -> bounded (pDisk s) ->
  exists r s' new, Persistence.Snapshot cfg nodeID s = Some (r, s') /\ went s s' new /\
    Forall (fun d => covers nodeID (pDisk s) d /\ complete (pDisk s) d) new.
Proof.
  intros Hkv Hvisit Hb. destruct (wp_Snapshot cfg nodeID s kv Hkv Hvisit Hb) as (r & s' & new & Hrun & Hw & Hall & _). by exists r, s', new.
Qed.

Section crash_example.
#[local] Existing Instances exampleEnv noGob brokenWrite.
Lemma snapshot_crash_safe_witness :
  exists r s' new, Persistence.Snapshot exampleConfig "n1" (exampleState (NewStore 2) None) = Some (r, s') /\
    went (exampleState (NewStore 2) None) s' new /\ Forall (fun d => covers "n1" None d /\ complete None d) new.
Proof.
  apply (snapshot_crash_safe exampleConfig "n1" (exampleState (NewStore 2) None) ∅); [by apply NewStore_spec|by intros t m|done].
Defined.
End crash_example.

(** Durability: when no step fails, the clock is ahead of every snapshot in the
    directory and the configured format can represent the data, taking a
    snapshot succeeds, and whatever node starts from that directory afterwards
    loads exactly this snapshot: its engine holds the map as it was, without
    the entries that have expired, and its cluster metadata are those that were
    saved. *)
Theorem snapshot_durable `{Env, SliceSortOk, CryptoOk, Gob, Faults} cfg nodeID limit s kv :
  faultless -> PEnabled cfg = true -> bounded (pDisk s) -> (forall n, present (pDisk s) (temporary n) = false) ->
  store_kv (sysStore (pSys s)) kv -> (forall t, range_ok (visit t)) -> writable cfg nodeID s kv ->
  (forall name m, valid_in nodeID (pDisk s) name m -> MCreatedAt m < clock (S (S (tick (pSys s)))) + unixEpoch) ->
  ktotal kv <= maxUint64 -> limit <= 0 \/ ktotal kv <= limit ->
  exists res s1, Persistence.Snapshot cfg nodeID s = Some (inl res, s1) /\
    forall s2 kv2, pDisk s2 = pDisk s1 -> store_kv (sysStore (pSys s2)) kv2 -> accepts s2 (metadataOf (pMeta s)) ->
      exists n t s3, RestoreLatest cfg nodeID limit s2 = Some (inl (mkRestoreResult res n), s3) /\
        pMeta s3 = installed s2 (metadataOf (pMeta s)) /\ (tick (pSys s2) <= t)%nat /\
        store_kv (sysStore (pSys s3)) (live_at (clock t) (live_at (clock (tick (pSys s))) kv)).
Proof.
  intros Hno Hen Hb Htmp Hkv Hvisit Hw Hold Hmax Hlim.
  destruct (Snapshot_taken cfg nodeID s kv Hno Hen Hb Htmp Hkv Hvisit Hw Hold) as (res & s1 & es & m & Hrun & He & Hs & Hres & Hv & Hnew).
  exists res, s1. split; [done|]. intros s2 kv2 Hd Hkv2 Hacc. pose proof (Seal_verify _ _ Hs) as [_ Heq].
  assert (Hmeta : MCluster m = metadataOf (pMeta s)) by by rw Heq.
  destruct (wp_RestoreLatest cfg nodeID limit (fun _ => True) s2 (RPath res) m (clock (tick (pSys s))) kv kv2 es) as (r & s3 & new & Hrun3 & _ & _ & Hm3 & n & t & Ht & -> & Hst); [done|done|done|by rw Hd|by rw Hd|by rw Hmeta|done|by rw Heq| |].
  { intros lvls now' Hlv.
    destruct (snapshot_restore lvls Hlv limit _ _ _ _ _ (clock (tick (pSys s))) now' Hkv (Hvisit (S (tick (pSys s)))) (wr_save _ _ _ _ Hw) Hkv2 Hmax Hlim)
      as (items & n & s' & Hi & Hr & Hst).
    unfold entriesAt in He. rw He in Hi. injection Hi as <-. by exists n, s'. }
  exists n, t, s3. rw -Hres in Hrun3. rw Hmeta in Hm3. by split_and!.
Qed.

Section durable_example.
#[local] Existing Instances exampleEnv noGob noFaults.

Lemma example_writable s : writable exampleConfig "n1" (exampleState s None) sampleMap.
Proof.
  split; [by left|done|eexists; vm_compute; reflexivity|done|done|apply sampleMap_savable| |done].
  intros _. split; [done|]. split; [by split_and!; try constructor|].
  intros key x Hx. unfold live_at in Hx. apply map_lookup_filter_Some in Hx as [Hx _]. revert key x Hx. apply map_Forall_lookup.
  unfold sampleMap. repeat (apply map_Forall_insert_2; [by split|]). apply map_Forall_empty.
Qed.

Lemma snapshot_durable_witness :
  exists s res s1, store_kv s sampleMap /\ Persistence.Snapshot exampleConfig "n1" (exampleState s None) = Some (inl res, s1) /\
    exists n t s3, RestoreLatest exampleConfig "n1" 0 (exampleState (NewStore 4) (pDisk s1)) = Some (inl (mkRestoreResult res n), s3) /\
      store_kv (sysStore (pSys s3)) (live_at (clock t) (live_at (clock 0) sampleMap)).
Proof.
  destruct sampleMap_stored as [s Hs].
  destruct (snapshot_durable exampleConfig "n1" 0 (exampleState s None) sampleMap) as (res & s1 & Hrun & Hload);
    [done|done|done|done|done|by intros t m|apply example_writable|by intros name m (e & He & _)|by vm_compute|by left|].
  destruct (Hload (exampleState (NewStore 4) (pDisk s1)) ∅) as (n & t & s3 & Hr & _ & _ & Hst); [done|by apply NewStore_spec|done|].
  exists s, res, s1. split; [exact Hs|]. split; [exact Hrun|]. exists n, t, s3. split; [exact Hr|exact Hst].
Defined.
End durable_example.

(** A node without data that runs one command, takes a snapshot, and is started
    again on the same directory: the reply, whether the snapshot succeeded, and
    how the start ends. *)
Definition runSaveStart `{Env, SliceSort, Crypto, Gob, Faults} (cfg : PersistenceConfig) (cmd : Command)
    : option (Frame * bool * (unit + PersistErr)) :=
  '(reply, w) ← Execute cmd (mkSys (NewStore 1) 0);
  '(r, s1) ← Persistence.Snapshot cfg "n1" (mkPState w None None 0 []);
  '(start, _) ← loadOnStart cfg "n1" 0 false (exampleState (NewStore 1) (pDisk s1));
  Some (reply, match r with inl _ => true | inr _ => false end, start).

(** Two kinds of data make a snapshot that is reported as taken but cannot be
    loaded, so that the node refuses to start: a list whose last element is
    empty, and, in the default JSON format, a key that is not UTF-8. *)
Theorem snapshot_unloadable :
  let run := runSaveStart (H := exampleEnv) (H2 := noGob) (H3 := noFaults) exampleConfig in
  run (mkCommand "RPUSH" ["l"; ""]) = Some (Integer 1, true, inr (ErrNoneValid 1)) /\
  run (mkCommand "SET" [String (chr 255) ""; "v"]) = Some (OK, true, inr (ErrNoneValid 1)) /\
  run (mkCommand "SET" ["k"; "v"]) = Some (OK, true, inl tt).
Proof. vm_compute. auto. Qed.

(** When the clock has gone back, retention removes the snapshot that was just
    taken, which is nevertheless reported as taken. *)
Definition backwardsEnv : Env := mkEnv (fun n => 1700000000000000000 - Z.of_nat n) (fun _ _ _ => false) (fun _ => keyOrder).
Definition keepOne : PersistenceConfig := mkPersistence true "data" 60 1 true FormatJSON.
Example snapshot_discarded :
  match Persistence.Snapshot (H := backwardsEnv) (H1 := plainCrypto) (H2 := noGob) (H3 := noFaults) keepOne "n1" (exampleState (NewStore 1) None) with
  | Some (inl first, s1) =>
      match Persistence.Snapshot (H := backwardsEnv) (H1 := plainCrypto) (H2 := noGob) (H3 := noFaults) keepOne "n1" s1 with
      | Some (inl second, s2) => present (pDisk s2) (RPath first) = true /\ present (pDisk s2) (RPath second) = false
      | _ => False
      end
  | _ => False
  end.
Proof. vm_compute. auto. Qed.
