(* ===== verification/Server.v ===== *)
(** * Serving a connection: [internal/server/connection.go]

    The loop of [connectionHandler.serve] over the bytes a client sends, for
    any executor behind the [CommandExecutor] interface.  The input is the
    whole byte stream up to the disconnect, the output the bytes written back;
    deadlines, a failed write (which ends the loop) and latency metrics are
    not modelled.

    The loop always ends; a pipeline of well-formed requests gets exactly the
    replies of executing the requests in order; and no input whatsoever makes
    an executor that keeps its invariant panic or lose it. *)
From S2P Require Import Prelude GoText Resp.
Local Open Scope Z_scope.

(** ** The executor interface *)

(** [CommandExecutor.Execute] on a state [S]; [None] is a panic. *)
Class CommandExecutor (S : Type) := executeCommand : Command -> S -> option (Frame * S).

(** What the server needs of an executor: on commands that fit in memory it
    does not panic and it keeps an invariant. *)
Class CommandExecutorOk (S : Type) `{CommandExecutor S} (Inv : S -> Prop) : Prop :=
  execute_ok : forall cmd s, args_len (Args cmd) <= 2 ^ 62 -> Inv s ->
    exists f s', executeCommand cmd s = Some (f, s') /\ Inv s'.

(** ** The loop *)

Definition readBufferSize : Z := 32 * 1024.
Definition frameProtocolError : Frame := NewError "ERR" "Protocol error".
Definition isQuit (cmd : Command) : bool :=
  String.eqb (Name cmd) "QUIT" && match Args cmd with [] => true | _ => false end.

(** How the loop ended. *)
Inductive ServeEnd := Disconnected | Quit | ParseError (e : ReadError) | OutOfFuel.

Section serve.
Context {S : Type} `{CommandExecutor S}.

Fixpoint serve_fuel (fuel : nat) (inp : string) (s : S) : option (string * S * ServeEnd) :=
  match fuel with
  | O => Some ("", s, OutOfFuel)
  | Datatypes.S fuel =>
      match Next NewParser readBufferSize inp with
      | Ok cmd rest =>
          '(frame, s) ← executeCommand cmd s;
          if isQuit cmd then Some (WriteFrame frame, s, Quit)
          else
            '(out, s, e) ← serve_fuel fuel rest s;
            Some (WriteFrame frame +:+ out, s, e)
      | Err ErrEmptyLine rest => serve_fuel fuel rest s
      | Err ErrEmptyCommand rest =>
          '(out, s, e) ← serve_fuel fuel rest s;
          Some (WriteFrame (NewError "ERR" "empty command") +:+ out, s, e)
      | Err EOF _ => Some ("", s, Disconnected)
      | Err ErrProtocol _ => Some (WriteFrame frameProtocolError, s, ParseError ErrProtocol)
      | Err e _ => Some ("", s, ParseError e)
      end
  end.

(** Every iteration consumes a byte. *)
Definition serve (inp : string) (s : S) : option (string * S * ServeEnd) :=
  serve_fuel (Datatypes.S (String.length inp)) inp s.
End serve.

(** ** Termination *)

Section serve_spec.
Context {S : Type} `{CommandExecutor S}.

Lemma next_shorter inp r : continues (Next NewParser readBufferSize inp) r -> (String.length r < String.length inp)%nat.
Proof. intros Hc%Next_progress. unfold slen in Hc. lia. Qed.

Lemma serve_ends fuel inp s out s' e :
  (String.length inp < fuel)%nat -> serve_fuel fuel inp s = Some (out, s', e) -> e <> OutOfFuel.
Proof.
  revert inp s out; induction fuel as [|fuel IH]; intros inp s out Hf; [lia|]. cbn [serve_fuel].
  destruct (Next NewParser readBufferSize inp) as [cmd rest|err rest] eqn:Hn.
  - assert (String.length rest < String.length inp)%nat as Hr by (apply next_shorter; rw Hn; left; by eexists).
    destruct (executeCommand cmd s) as [[f s1]|]; [|done]. cbn [mbind option_bind]. destruct (isQuit cmd); [by intros [= _ _ <-]|].
    destruct (serve_fuel fuel rest s1) as [[[out' s2] e']|] eqn:Hs; [|done]. intros [= <- <- <-]. eapply IH; [|exact Hs]. lia.
  - assert (err = ErrEmptyLine \/ err = ErrEmptyCommand -> (String.length rest < String.length inp)%nat) as Hr.
    { intros Herr. apply next_shorter. rw Hn. right. by destruct Herr as [-> | ->]; [left|right]. }
    destruct err; try (by intros [= _ _ <-]).
    + destruct (serve_fuel fuel rest s) as [[[out' s2] e']|] eqn:Hs; [|done]. cbn [mbind option_bind].
      intros [= <- <- <-]. eapply IH; [|exact Hs]. specialize (Hr (or_intror eq_refl)). lia.
    + intros Hs. eapply IH; [|exact Hs]. specialize (Hr (or_introl eq_refl)). lia.
Qed.

Lemma serve_fuel_more fuel fuel' inp s :
  (String.length inp < fuel)%nat -> (fuel <= fuel')%nat -> serve_fuel fuel' inp s = serve_fuel fuel inp s.
Proof.
  revert fuel' inp s; induction fuel as [|fuel IH]; intros fuel' inp s Hf Hle; [lia|]. destruct fuel' as [|fuel']; [lia|].
  cbn [serve_fuel]. destruct (Next NewParser readBufferSize inp) as [cmd rest|err rest] eqn:Hn.
  - assert (String.length rest < String.length inp)%nat as Hr by (apply next_shorter; rw Hn; left; by eexists).
    destruct (executeCommand cmd s) as [[f s1]|]; [|done]. cbn [mbind option_bind]. destruct (isQuit cmd); [done|].
    rw (IH fuel'); [lia|lia|]. done.
  - assert (err = ErrEmptyLine \/ err = ErrEmptyCommand -> (String.length rest < String.length inp)%nat) as Hr.
    { intros Herr. apply next_shorter. rw Hn. right. by destruct Herr as [-> | ->]; [left|right]. }
    destruct err; try done; rw (IH fuel'); try lia; try done; [specialize (Hr (or_intror eq_refl))|specialize (Hr (or_introl eq_refl))]; lia.
Qed.

(** ** Pipelines *)

(** A request the parser's limits admit. *)
Definition request_fits (args : list string) : Prop :=
  match args with
  | [] => False
  | name :: rest =>
      name <> "" /\ Z.of_nat (length args) <= maxArrayLen NewParser /\
      Forall (fun a => slen a <= maxBulkLen NewParser) args /\ args_len args <= maxCommandLen NewParser
  end.
Definition requestCommand (args : list string) : Command :=
  match args with name :: rest => mkCommand (upper name) rest | [] => mkCommand "" [] end.

(** The replies to a sequence of requests: executed in order, up to a QUIT. *)
Fixpoint replies (reqs : list (list string)) (s : S) : option (list Frame * S * bool) :=
  match reqs with
  | [] => Some ([], s, false)
  | req :: reqs =>
      '(f, s) ← executeCommand (requestCommand req) s;
      if isQuit (requestCommand req) then Some ([f], s, true)
      else '(fs, s, q) ← replies reqs s; Some (f :: fs, s, q)
  end.

Lemma Next_request req r :
  request_fits req -> Next NewParser readBufferSize (writeRequest req +:+ r) = Ok (requestCommand req) r.
Proof.
  destruct req as [|name rest]; [done|]. intros (Hn & Hc & Hall & Hlen). apply Next_writeRequest; try done.
Qed.

Lemma serve_pipeline_fuel fuel reqs s :
  Forall request_fits reqs -> (String.length (sconcat (map writeRequest reqs)) < fuel)%nat ->
  serve_fuel fuel (sconcat (map writeRequest reqs)) s =
    '(fs, s, q) ← replies reqs s;
    Some (sconcat (map WriteFrame fs), s, if (q : bool) then Quit else Disconnected).
Proof.
  revert fuel s; induction reqs as [|req reqs IH]; intros fuel s Hall Hf; destruct fuel as [|fuel]; try lia.
  { done. }
  apply Forall_cons in Hall as [Hreq Hall]. cbn [map sconcat] in Hf |- *. cbn [serve_fuel replies].
  rw (Next_request _ _ Hreq). destruct (executeCommand (requestCommand req) s) as [[f s1]|]; [|done]. cbn [mbind option_bind].
  destruct (isQuit (requestCommand req)).
  { cbn [mbind option_bind map sconcat]. by rw app_nil_string. }
  rw IH //.
  - assert (String.length (sconcat (map writeRequest reqs)) < String.length (writeRequest req +:+ sconcat (map writeRequest reqs)))%nat; [|lia].
    apply next_shorter. rw (Next_request _ _ Hreq). left. by eexists.
  - destruct (replies reqs s1) as [[[fs s2] q]|]; [|done]. done.
Qed.

(** ** Arbitrary input *)

Context (Inv : S -> Prop) `{!CommandExecutorOk S Inv}.

Lemma parsed_fits inp cmd rest : Next NewParser readBufferSize inp = Ok cmd rest -> args_len (Args cmd) <= 2 ^ 62.
Proof.
  intros Hn. destruct (Next_bounds _ _ _ _ _ Hn) as (_ & Hl & _); [done|]. unfold cmd_len in Hl.
  pose proof (slen_nonneg (Name cmd)). change (Z.max (maxCommandLen NewParser) readBufferSize) with 67108864 in Hl. lia.
Qed.

Lemma serve_fuel_ok fuel inp s : Inv s -> exists out s' e, serve_fuel fuel inp s = Some (out, s', e) /\ Inv s'.
Proof.
  revert inp s; induction fuel as [|fuel IH]; intros inp s Hs; cbn [serve_fuel]; [by eexists _, _, _|].
  destruct (Next NewParser readBufferSize inp) as [cmd rest|err rest] eqn:Hn.
  - destruct (execute_ok cmd s (parsed_fits _ _ _ Hn) Hs) as (f & s1 & -> & Hs1). cbn [mbind option_bind].
    destruct (isQuit cmd); [by eexists _, _, _|]. destruct (IH rest s1 Hs1) as (out & s2 & e & -> & Hs2). by eexists _, _, _.
  - destruct err; try (by eexists _, _, _); [|by apply IH].
    destruct (IH rest s Hs) as (out & s2 & e & -> & Hs2). by eexists _, _, _.
Qed.
End serve_spec.

(** A single request. *)
Lemma serve_one {S} `{CommandExecutor S} args (s : S) : request_fits args ->
  serve (writeRequest args) s =
    '(f, s) ← executeCommand (requestCommand args) s; Some (WriteFrame f, s, if isQuit (requestCommand args) then Quit else Disconnected).
Proof.
  intros Hf. unfold serve. assert (writeRequest args = sconcat (map writeRequest [args])) as -> by (cbn [map sconcat]; by rw app_string_nil_r).
  rw serve_pipeline_fuel; [by apply Forall_singleton|lia|]. cbn [replies]. destruct (executeCommand _ s) as [[f s']|]; [|done]. cbn [mbind option_bind].
  destruct (isQuit _); cbn [mbind option_bind map sconcat]; by rw app_string_nil_r.
Qed.

(** ** The theorems *)

(** C40: A pipeline of requests within the parser's limits is answered, in order,
    with exactly the replies of executing the commands one after the other, up
    to the end of the input or the first QUIT. *)
Theorem serve_pipeline {S} `{CommandExecutor S} reqs (s : S) :
  Forall request_fits reqs ->
  serve (sconcat (map writeRequest reqs)) s =
    '(fs, s, q) ← replies reqs s;
    Some (sconcat (map WriteFrame fs), s, if (q : bool) then Quit else Disconnected).
Proof. intros Hall. apply serve_pipeline_fuel; [done|lia]. Qed.

(** An executor that counts the commands it has seen. *)
#[local] Instance countingExecutor : CommandExecutor Z := fun _ n => Some (Integer n, n + 1).
Lemma serve_pipeline_witness :
  replies [["ping"]; ["quit"]; ["ping"]] 0 = Some ([Integer 0; Integer 1], 2, true) /\
  serve (sconcat (map writeRequest [["ping"]; ["quit"]; ["ping"]])) 0 =
    '(fs, s, q) ← replies [["ping"]; ["quit"]; ["ping"]] 0;
    Some (sconcat (map WriteFrame fs), s, if (q : bool) then Quit else Disconnected).
Proof. split; [reflexivity|]. apply serve_pipeline. repeat (constructor; try done). Defined.
