(* ===== verification/Listener.v ===== *)
(** * The listener: [internal/server/server.go]

    The accept loop, the goroutine of each connection, the goroutine that waits
    for the context and a call of [Shutdown], interleaved.  What a goroutine does
    under the mutex, or with one call, is one step.  Connections are numbered in
    the order in which they are accepted; what a connection executes and answers
    is the component of [connection.go]. *)
From S2P Require Import Prelude Resp Server.
Local Open Scope Z_scope.

(** ** State *)

(** [listener]: [None] before [net.Listen], then whether it is open.  [closedConns]
    are the sockets that this side has closed. *)
Record Server := mkServer {
  listener : option bool;
  closing : bool;
  conns : gset Z;
  closedConns : gset Z;
  wg : Z
}.

Inductive Acceptor := Starting | Accepting | Accepted (c : Z) | Refusing (c : Z) | Tracked (c : Z) | StartReturned.
(** A connection's goroutine: in [serve], after it, after [untrackConn]. *)
Inductive Handler := Serving | Served | Untracked.
#[export] Instance Handler_eq_dec : EqDecision Handler.
Proof. solve_decision. Defined.
(** The goroutine of [Start] that waits for the context. *)
Inductive Watcher := NotStarted | Watching | WatcherClosing | WatcherDone.
Inductive ShutdownCall := NotCalled | ListenerClosing | ListenerClosed | ConnsClosed | Returned (ok : bool).

Record World := mkWorldL {
  srv : Server;
  acceptor : Acceptor;
  handlers : gmap Z Handler;
  watcher : Watcher;
  shutdown : ShutdownCall;
  nextConn : Z
}.

(** What can be seen from outside: a command of a connection is executed, a
    connection is refused with an error, or nothing. *)
Inductive Seen := Executed (c : Z) | Rejected (c : Z) (reply : string) | Silent.

(** ** Operations *)

Section listener.
Context (MaxConnections : Z).

Definition New : Server := mkServer None false ∅ ∅ 0.
Definition activeConns (s : Server) : Z := Z.of_nat (size (conns s)).
Definition tryTrackConn (c : Z) (s : Server) : bool * Server :=
  if (0 <? MaxConnections) && (MaxConnections <=? activeConns s) then (false, s)
  else (true, mkServer (listener s) (closing s) ({[c]} ∪ conns s) (closedConns s) (wg s)).
Definition untrackConn (c : Z) (s : Server) : Server :=
  mkServer (listener s) (closing s) (conns s ∖ {[c]}) (closedConns s) (wg s).
(** The part of [closeListener] under the mutex; [true]: the listener is closed
    next. *)
Definition markClosing (s : Server) : bool * Server :=
  if closing s || bool_decide (listener s = None) then (false, s)
  else (true, mkServer (listener s) true (conns s) (closedConns s) (wg s)).
Definition closeSocket (s : Server) : Server := mkServer (Some false) (closing s) (conns s) (closedConns s) (wg s).
Definition closeAllConns (s : Server) : Server := mkServer (listener s) (closing s) (conns s) (conns s ∪ closedConns s) (wg s).
Definition closeConn (c : Z) (s : Server) : Server := mkServer (listener s) (closing s) (conns s) ({[c]} ∪ closedConns s) (wg s).
Definition addWG (n : Z) (s : Server) : Server := mkServer (listener s) (closing s) (conns s) (closedConns s) (wg s + n).
Definition listening (s : Server) : Server := mkServer (Some true) (closing s) (conns s) (closedConns s) (wg s).
Definition maxConnectionsError : string := WriteFrame (NewError "ERR" "max connections reached").

(** ** Steps *)

Inductive step : World -> Seen -> World -> Prop :=
(** [Start] *)
| step_listen s hs sd n : step (mkWorldL s Starting hs NotStarted sd n) Silent (mkWorldL (listening s) Accepting hs Watching sd n)
| step_listen_fails s hs sd n : step (mkWorldL s Starting hs NotStarted sd n) Silent (mkWorldL s StartReturned hs NotStarted sd n)
| step_accept s hs wt sd n : listener s = Some true ->
    step (mkWorldL s Accepting hs wt sd n) Silent (mkWorldL s (Accepted n) hs wt sd (n + 1))
| step_accept_stops s hs wt sd n : listener s = Some false \/ closing s = true ->
    step (mkWorldL s Accepting hs wt sd n) Silent (mkWorldL s StartReturned hs wt sd n)
| step_track s s' c hs wt sd n : tryTrackConn c s = (true, s') ->
    step (mkWorldL s (Accepted c) hs wt sd n) Silent (mkWorldL s' (Tracked c) hs wt sd n)
| step_full s s' c hs wt sd n : tryTrackConn c s = (false, s') ->
    step (mkWorldL s (Accepted c) hs wt sd n) Silent (mkWorldL s' (Refusing c) hs wt sd n)
| step_refuse s c hs wt sd n :
    step (mkWorldL s (Refusing c) hs wt sd n) (Rejected c maxConnectionsError) (mkWorldL (closeConn c s) Accepting hs wt sd n)
| step_spawn s c hs wt sd n :
    step (mkWorldL s (Tracked c) hs wt sd n) Silent (mkWorldL (addWG 1 s) Accepting (<[c := Serving]> hs) wt sd n)
(** [serveConn]: a command that was read before the socket was closed is still
    executed, but its reply cannot be written and [serve] ends. *)
| step_execute s a c hs wt sd n : hs !! c = Some Serving -> c ∉ closedConns s ->
    step (mkWorldL s a hs wt sd n) (Executed c) (mkWorldL s a hs wt sd n)
| step_execute_closed s a c hs wt sd n : hs !! c = Some Serving -> c ∈ closedConns s ->
    step (mkWorldL s a hs wt sd n) (Executed c) (mkWorldL s a (<[c := Served]> hs) wt sd n)
| step_served s a c hs wt sd n : hs !! c = Some Serving ->
    step (mkWorldL s a hs wt sd n) Silent (mkWorldL (closeConn c s) a (<[c := Served]> hs) wt sd n)
| step_untrack s a c hs wt sd n : hs !! c = Some Served ->
    step (mkWorldL s a hs wt sd n) Silent (mkWorldL (untrackConn c s) a (<[c := Untracked]> hs) wt sd n)
| step_done s a c hs wt sd n : hs !! c = Some Untracked ->
    step (mkWorldL s a hs wt sd n) Silent (mkWorldL (addWG (-1) s) a (delete c hs) wt sd n)
(** The context is cancelled. *)
| step_cancel s s' b a hs sd n : markClosing s = (b, s') ->
    step (mkWorldL s a hs Watching sd n) Silent (mkWorldL s' a hs (if b then WatcherClosing else WatcherDone) sd n)
| step_cancel_close s a hs sd n :
    step (mkWorldL s a hs WatcherClosing sd n) Silent (mkWorldL (closeSocket s) a hs WatcherDone sd n)
(** [Shutdown] *)
| step_shutdown s s' b a hs wt n : markClosing s = (b, s') ->
    step (mkWorldL s a hs wt NotCalled n) Silent (mkWorldL s' a hs wt (if b then ListenerClosing else ListenerClosed) n)
| step_shutdown_close s a hs wt n :
    step (mkWorldL s a hs wt ListenerClosing n) Silent (mkWorldL (closeSocket s) a hs wt ListenerClosed n)
| step_close_conns s a hs wt n :
    step (mkWorldL s a hs wt ListenerClosed n) Silent (mkWorldL (closeAllConns s) a hs wt ConnsClosed n)
| step_wait s a hs wt n : wg s = 0 -> step (mkWorldL s a hs wt ConnsClosed n) Silent (mkWorldL s a hs wt (Returned true) n)
| step_timeout s a hs wt n : step (mkWorldL s a hs wt ConnsClosed n) Silent (mkWorldL s a hs wt (Returned false) n).

Inductive steps : World -> list Seen -> World -> Prop :=
| steps_nil w : steps w [] w
| steps_cons w e w' es w'' : step w e w' -> steps w' es w'' -> steps w (e :: es) w''.

Definition initial : World := mkWorldL New Starting ∅ NotStarted NotCalled 0.
Definition reachable (w : World) : Prop := exists es, steps initial es w.

(** ** Invariant *)

Definition holding (a : Acceptor) : option Z := match a with Accepted c | Refusing c | Tracked c => Some c | _ => None end.

Record inv (w : World) : Prop := {
  iv_limit : 0 < MaxConnections -> activeConns (srv w) <= MaxConnections;
  iv_wg : wg (srv w) = Z.of_nat (size (handlers w));
  iv_tracked : forall c h, handlers w !! c = Some h -> h <> Untracked -> c ∈ conns (srv w);
  iv_owned : forall c, c ∈ conns (srv w) -> (exists h, handlers w !! c = Some h /\ h <> Untracked) \/ acceptor w = Tracked c;
  iv_closed : forall c, handlers w !! c = Some Served \/ handlers w !! c = Some Untracked -> c ∈ closedConns (srv w);
  iv_fresh : forall c, nextConn w <= c -> handlers w !! c = None /\ (c ∉ conns (srv w)) /\ holding (acceptor w) <> Some c;
  iv_held : forall c, holding (acceptor w) = Some c -> handlers w !! c = None /\ (acceptor w = Tracked c <-> c ∈ conns (srv w))
}.

Lemma inv_initial : inv initial.
Proof.
  split; cbn [srv acceptor handlers nextConn initial].
  - intros Hm. unfold activeConns. cbn [New conns]. rw size_empty. lia.
  - done.
  - intros c h. by rw lookup_empty.
  - set_solver.
  - intros c. rw lookup_empty. by intros [|].
  - intros c _. rw lookup_empty. set_solver.
  - done.
Qed.

(** A goroutine moves on: its connection stays tracked until [untrackConn]. *)
Lemma inv_move s a c h h' hs wt sd n s' :
  inv (mkWorldL s a hs wt sd n) -> hs !! c = Some h -> h <> Untracked ->
  listener s' = listener s -> wg s' = wg s -> closedConns s ⊆ closedConns s' -> c ∈ closedConns s' -> h' <> Serving ->
  conns s' = (if decide (h' = Untracked) then conns s ∖ {[c]} else conns s) ->
  inv (mkWorldL s' a (<[c := h']> hs) wt sd n).
Proof.
  intros [H1 H2 H3 H4 H5 H6 H7] Hc Hh _ Hwg Hcl Hcc Hh' Hconns. cbn [srv acceptor handlers nextConn] in *.
  assert (Hsub : conns s' ⊆ conns s) by (rw Hconns; case_decide; set_solver).
  split; cbn [srv acceptor handlers nextConn].
  - intros Hm. specialize (H1 Hm). unfold activeConns in *. pose proof (subseteq_size _ _ Hsub). lia.
  - rw Hwg H2 map_size_insert Hc. done.
  - intros c2 h2 Hl Hu. destruct (decide (c2 = c)) as [->|Hne].
    + rw lookup_insert_eq in Hl. injection Hl as <-. rw Hconns. case_decide; [done|]. by eapply H3.
    + rw lookup_insert_ne in Hl; [done|]. pose proof (H3 c2 h2 Hl Hu). rw Hconns. case_decide; set_solver.
  - intros c2 Hc2. destruct (decide (c2 = c)) as [->|Hne].
    + left. exists h'. rw lookup_insert_eq. split; [done|]. intros ->. rw Hconns in Hc2. case_decide; [set_solver|done].
    + destruct (H4 c2 (Hsub _ Hc2)) as [[h2 Hh2]|Ha]; [left; exists h2; by rw lookup_insert_ne|by right].
  - intros c2. destruct (decide (c2 = c)) as [->|Hne]; [done|]. rw lookup_insert_ne; [done|]. intros Hx. by apply Hcl, H5.
  - intros c2 Hc2. destruct (H6 c2 Hc2) as (A1 & A2 & A3). split_and!; [|set_solver|done].
    rw lookup_insert_ne; [|done]. intros ->. by rw Hc in A1.
  - intros c2 Hc2. destruct (H7 c2 Hc2) as [A1 A2]. assert (c <> c2) by (intros ->; by rw Hc in A1). split; [by rw lookup_insert_ne|].
    rw A2 Hconns. case_decide; set_solver.
Qed.

(** A step that leaves the connections alone. *)
Lemma inv_frame s s' a a' hs wt wt' sd sd' n :
  inv (mkWorldL s a hs wt sd n) -> conns s' = conns s -> wg s' = wg s -> closedConns s ⊆ closedConns s' ->
  holding a' = None \/ holding a' = holding a -> (forall c, a' = Tracked c <-> a = Tracked c) -> inv (mkWorldL s' a' hs wt' sd' n).
Proof.
  intros [H1 H2 H3 H4 H5 H6 H7] Hc Hw Hcl Ha Ht. cbn [srv acceptor handlers nextConn] in *.
  split; cbn [srv acceptor handlers nextConn]; unfold activeConns in *; rw ?Hc ?Hw //.
  - intros c Hin. destruct (H4 c Hin) as [|Hx]; [by left|right; by apply Ht].
  - intros c Hx. by apply Hcl, H5.
  - intros c Hx. destruct (H6 c Hx) as (A1 & A2 & A3). split_and!; [done|done|]. by destruct Ha as [-> | ->].
  - intros c Hx. rw Ht. apply H7. by destruct Ha as [Ha|<-]; [rw Ha in Hx|].
Qed.

Lemma step_inv w e w' : step w e w' -> inv w -> inv w'.
Proof.
  intros Hstep Hinv. destruct Hstep as [s hs sd n|s hs sd n|s hs wt sd n Hl|s hs wt sd n Hl|s s' c hs wt sd n Ht|s s' c hs wt sd n Ht|s c hs wt sd n
    |s c hs wt sd n|s a c hs wt sd n Hc Hn|s a c hs wt sd n Hc Hn|s a c hs wt sd n Hc|s a c hs wt sd n Hc|s a c hs wt sd n Hc
    |s s' b a hs sd n Hm|s a hs sd n|s s' b a hs wt n Hm|s a hs wt n|s a hs wt n|s a hs wt n Hw|s a hs wt n].
  all: try (unfold markClosing in Hm; destruct (_ || _); injection Hm as <- <-).
  all: try (eapply inv_frame; [exact Hinv|done|done|cbn; set_solver|by left + by right|done]).
  all: try (eapply inv_frame; [exact Hinv|done|done|cbn; set_solver|by left + by right|]; intros c'; split; done).
  - destruct Hinv as [H1 H2 H3 H4 H5 H6 H7]; cbn [srv acceptor handlers nextConn holding] in *. split; cbn [srv acceptor handlers nextConn holding]; try done.
    + intros c Hc. destruct (H4 c Hc) as [|]; [by left|done].
    + intros c Hc. destruct (H6 c ltac:(lia)) as (A1 & A2 & _). split_and!; [done|done|]. intros [= ->]. lia.
    + intros c [= <-]. destruct (H6 n ltac:(lia)) as (A1 & A2 & _). split; [done|]. by split.
  - unfold tryTrackConn in Ht. destruct ((0 <? MaxConnections) && (MaxConnections <=? activeConns s)) eqn:Hfull; [done|]. injection Ht as <-.
    destruct Hinv as [H1 H2 H3 H4 H5 H6 H7]; cbn [srv acceptor handlers nextConn holding] in *. destruct (H7 c eq_refl) as [A1 A2].
    assert (A3 : c ∉ conns s) by (rw -A2; done). split; cbn [srv acceptor handlers nextConn holding conns closedConns wg]; try done.
    + intros Hm. unfold activeConns in *. cbn [conns]. rw size_union; [set_solver|]. rw size_singleton. lia.
    + intros c2 h Hl Hu. apply elem_of_union_r. by eapply H3.
    + intros c2 [->%elem_of_singleton|Hc2]%elem_of_union; [by right|]. destruct (H4 c2 Hc2) as [|]; [by left|done].
    + intros c2 Hc2. destruct (H6 c2 Hc2) as (B1 & B2 & B3). split_and!; [done| |done]. set_solver.
    + intros c2 [= <-]. split; [done|]. split; [set_solver|done].
  - unfold tryTrackConn in Ht. destruct (_ && _); [|done]. injection Ht as <-. eapply inv_frame; [exact Hinv|done|done|done|by right|done].
  - destruct Hinv as [H1 H2 H3 H4 H5 H6 H7]; cbn [srv acceptor handlers nextConn holding] in *. destruct (H7 c eq_refl) as [A1 A2].
    assert (A3 : c ∈ conns s) by (by apply A2). split; cbn [srv acceptor handlers nextConn holding conns closedConns wg addWG]; try done.
    + rw map_size_insert A1 H2. lia.
    + intros c2 h. destruct (decide (c2 = c)) as [->|]; [done|]. rw lookup_insert_ne; [done|]. apply H3.
    + intros c2 Hc2. left. destruct (decide (c2 = c)) as [->|Hne]; [exists Serving; by rw lookup_insert_eq|].
      rw lookup_insert_ne; [done|]. destruct (H4 c2 Hc2) as [|[= <-]]; [done|done].
    + intros c2. destruct (decide (c2 = c)) as [->|]; [rw lookup_insert_eq; by intros [|]|]. rw lookup_insert_ne; [done|]. apply H5.
    + intros c2 Hc2. destruct (H6 c2 Hc2) as (B1 & B2 & B3). split_and!; [|done|done]. rw lookup_insert_ne; [congruence|done].
  - eapply inv_move; [exact Hinv|exact Hc|done..].
  - eapply inv_move; [exact Hinv|exact Hc|done|done|done|cbn; set_solver|cbn; set_solver|done|done].
  - pose proof (iv_closed _ Hinv c (or_introl Hc)). eapply inv_move; [exact Hinv|exact Hc|done..].
  - destruct Hinv as [H1 H2 H3 H4 H5 H6 H7]; cbn [srv acceptor handlers nextConn holding] in *.
    split; cbn [srv acceptor handlers nextConn holding conns closedConns wg addWG]; try done.
    + rw map_size_delete Hc H2. assert (size hs <> 0%nat) by (intros Hz%map_size_empty_inv; subst; by rw lookup_empty in Hc). cbn. lia.
    + intros c2 h. destruct (decide (c2 = c)) as [->|]; [by rw lookup_delete_eq|]. rw lookup_delete_ne; [done|]. apply H3.
    + intros c2 Hc2. destruct (H4 c2 Hc2) as [[h [Hh Hu]]|]; [left|by right]. exists h. rw lookup_delete_ne; [|done]. intros ->. congruence.
    + intros c2. destruct (decide (c2 = c)) as [->|]; [rw lookup_delete_eq; by intros [|]|]. rw lookup_delete_ne; [done|]. apply H5.
    + intros c2 Hc2. destruct (H6 c2 Hc2) as (B1 & B2 & B3). split_and!; [|done|done]. by rw lookup_delete_None; right.
    + intros c2 Hc2. destruct (H7 c2 Hc2) as [B1 B2]. split; [|done]. by rw lookup_delete_None; right.
Qed.

Lemma reachable_inv w : reachable w -> inv w.
Proof.
  intros [es Hes]. pose proof inv_initial as Hi. revert Hi. induction Hes as [w|w e w' es w'' Hs Hes IH]; [done|].
  intros Hw. by eapply IH, step_inv.
Qed.
Lemma steps_app w es w' es' w'' : steps w es w' -> steps w' es' w'' -> steps w (es ++ es') w''.
Proof. induction 1 as [|w e w1 es w' Hs _ IH]; [done|]. intros Hx. eapply steps_cons; [done|]. by apply IH. Qed.

(** ** Draining *)

(** The accept loop has ended and every connection that is served is closed. *)
Record drained (w : World) : Prop := {
  dr_inv : inv w;
  dr_acceptor : acceptor w = StartReturned;
  dr_closed : forall c, handlers w !! c = Some Serving -> c ∈ closedConns (srv w);
  dr_shutdown : shutdown w = ConnsClosed \/ exists ok, shutdown w = Returned ok;
  dr_done : shutdown w = Returned true -> handlers w = ∅
}.
Lemma drained_close s hs wt n :
  inv (mkWorldL s StartReturned hs wt ListenerClosed n) -> drained (mkWorldL (closeAllConns s) StartReturned hs wt ConnsClosed n).
Proof.
  intros Hi. split; cbn; [|done| |by left|done].
  - eapply step_inv; [|exact Hi]. apply step_close_conns.
  - intros c Hc. apply elem_of_union_l. by apply (iv_tracked _ Hi c Serving).
Qed.
Lemma drained_step w e w' : drained w -> step w e w' -> drained w' /\
  match e with
  | Executed c => handlers w !! c = Some Serving /\ handlers w' !! c <> Some Serving
  | Rejected _ _ => False
  | Silent => True
  end /\ (forall c, handlers w' !! c = Some Serving -> handlers w !! c = Some Serving).
Proof.
  intros [Hi Ha Hc Hs Hd] Hstep. pose proof (step_inv _ _ _ Hstep Hi) as Hi'.
  assert (Hins : forall (hs : gmap Z Handler) c h c', h <> Serving -> <[c := h]> hs !! c' = Some Serving -> hs !! c' = Some Serving).
  { intros hs c h c' Hh. destruct (decide (c' = c)) as [->|]; [rw lookup_insert_eq; congruence|by rw lookup_insert_ne]. }
  assert (Hret : forall (hs : gmap Z Handler) c sd, hs !! c = Some Serving \/ hs !! c = Some Served \/ hs !! c = Some Untracked ->
    (sd = Returned true -> hs = ∅) -> sd = Returned true -> False).
  { intros hs c sd Hl He ->. rw (He eq_refl) lookup_empty in Hl. naive_solver. }
  destruct Hstep as [s hs sd n|s hs sd n|s hs wt sd n Hl|s hs wt sd n Hl|s s' c hs wt sd n Ht|s s' c hs wt sd n Ht|s c hs wt sd n
    |s c hs wt sd n|s a c hs wt sd n Hx Hn|s a c hs wt sd n Hx Hn|s a c hs wt sd n Hx|s a c hs wt sd n Hx|s a c hs wt sd n Hx
    |s s' b a hs sd n Hm|s a hs sd n|s s' b a hs wt n Hm|s a hs wt n|s a hs wt n|s a hs wt n Hw|s a hs wt n];
    cbn [srv acceptor handlers watcher shutdown nextConn] in *; try done; try (by destruct Hs as [|[]]).
  - by apply Hc in Hx.
  - split; [split; cbn; [done|done| |done|intros Hr; exfalso; by eapply Hret; [left| |]]|split; [split; [done|by rw lookup_insert_eq]|]].
    + intros c' Hc'. by apply Hc, (Hins hs c Served).
    + intros c'. exact (Hins hs c Served c' ltac:(done)).
  - split; [split; cbn; [done|done| |done|intros Hr; exfalso; by eapply Hret; [left| |]]|split; [done|]].
    + intros c' Hc'. apply elem_of_union_r. by apply Hc, (Hins hs c Served).
    + intros c'. exact (Hins hs c Served c' ltac:(done)).
  - split; [split; cbn; [done|done| |done|intros Hr; exfalso; by eapply Hret; [right; left| |]]|split; [done|]].
    + intros c' Hc'. by apply Hc, (Hins hs c Untracked).
    + intros c'. exact (Hins hs c Untracked c' ltac:(done)).
  - assert (Hdel : forall c', delete c hs !! c' = Some Serving -> hs !! c' = Some Serving) by (intros c' [_ ?]%lookup_delete_Some; done).
    split; [split; cbn; [done|done| |done|intros Hr; exfalso; by eapply Hret; [right; right| |]]|split; [done|done]].
    intros c' Hc'. by apply Hc, Hdel.
  - unfold markClosing in Hm. destruct (_ || _); injection Hm as <- <-; by (split; [split|]).
  - split; [split; cbn; [done|done|done|right; by eexists|]|done]. intros _. apply map_size_empty_inv. rw (iv_wg _ Hi) in Hw. cbn in Hw. lia.
  - split; [split; cbn; [done|done|done|right; by eexists|done]|done].
Qed.

(** How often a connection executes a command. *)
Fixpoint executions (c : Z) (es : list Seen) : Z :=
  match es with
  | [] => 0
  | Executed c' :: es => (if c' =? c then 1 else 0) + executions c es
  | _ :: es => executions c es
  end.
Definition serving (w : World) (c : Z) : bool := bool_decide (handlers w !! c = Some Serving).

Lemma drained_steps w es w' : drained w -> steps w es w' -> drained w' /\
  Forall (fun e => match e with Rejected _ _ => False | _ => True end) es /\
  forall c, executions c es <= if serving w c then 1 else 0.
Proof.
  intros Hd Hs. induction Hs as [w|w e w1 es w' Hstep Hs IH]; [by split_and!; [|constructor|intros c; destruct (serving w c)]|].
  destruct (drained_step _ _ _ Hd Hstep) as (Hd1 & He & Hback). destruct (IH Hd1) as (Hd' & Hr & Hex). split_and!; [done|by constructor; [destruct e|]|].
  assert (Hmono : forall c, (if serving w1 c then 1 else 0) <= if serving w c then 1 else 0).
  { intros c. unfold serving. destruct (bool_decide (handlers w1 !! c = Some Serving)) eqn:Hb; [|destruct (bool_decide (handlers w !! c = Some Serving)); lia].
    apply bool_decide_eq_true in Hb. by rw (bool_decide_eq_true_2 _ (Hback c Hb)). }
  intros c. specialize (Hex c). specialize (Hmono c). destruct e as [c'|c' r|]; cbn [executions]; [|lia..].
  destruct (Z.eqb_spec c' c) as [->|]; [|lia]. destruct He as [He1 He2]. unfold serving in *. rw (bool_decide_eq_true_2 _ He1).
  rw (bool_decide_eq_false_2 _ He2) in Hex. lia.
Qed.

(** A drained server can always finish: its goroutines end one after the other. *)
Lemma drained_finish w : drained w -> shutdown w = ConnsClosed -> exists es w', steps w es w' /\ shutdown w' = Returned true.
Proof.
  remember (size (handlers w)) as k eqn:Hk. revert w Hk. induction k as [k IH] using lt_wf_ind. intros w Hk Hd Hsd.
  destruct (decide (handlers w = ∅)) as [He|Hne].
  - destruct w as [s a hs wt sd n]. cbn [shutdown handlers] in *. subst sd. exists [Silent], (mkWorldL s a hs wt (Returned true) n). split; [|done].
    eapply steps_cons; [|apply steps_nil]. apply step_wait. by rw (iv_wg _ (dr_inv _ Hd)) /= He map_size_empty.
  - apply map_choose in Hne as (c & h & Hc).
    assert (Hto : exists es w1, steps w es w1 /\ shutdown w1 = ConnsClosed /\ handlers w1 = delete c (handlers w)).
    { destruct w as [s a hs wt sd n]. cbn [shutdown handlers] in *. subst sd. destruct h.
      - do 2 eexists. split; [eapply steps_cons; [by apply (step_served _ _ c)|]; eapply steps_cons; [apply (step_untrack _ _ c), lookup_insert_eq|];
          eapply steps_cons; [apply (step_done _ _ c), lookup_insert_eq|]; apply steps_nil|]. split; [done|]. cbn. by rw !delete_insert_eq.
      - do 2 eexists. split; [eapply steps_cons; [by apply (step_untrack _ _ c)|];
          eapply steps_cons; [apply (step_done _ _ c), lookup_insert_eq|]; apply steps_nil|]. split; [done|]. cbn. by rw !delete_insert_eq.
      - do 2 eexists. split; [eapply steps_cons; [by apply (step_done _ _ c)|]; apply steps_nil|]. done. }
    destruct Hto as (es & w1 & Hes & Hsd1 & Hh). destruct (IH (size (handlers w1))) with (w := w1) as (es' & w' & Hes' & Hret); [|done| |done|].
    + rw Hh map_size_delete Hc Hk. assert (size (handlers w) <> 0%nat) by (intros Hz%map_size_empty_inv; rw Hz lookup_empty in Hc; done). cbn. lia.
    + by apply (drained_steps w es w1).
    + exists (es ++ es'), w'. split; [by eapply steps_app|done].
Qed.
End listener.

(** ** Properties *)

(** C24: However the accept loop, the connections and a shutdown
    interleave: never more connections are served than the limit allows, the
    wait group counts exactly the goroutines of connections, every connection
    that is served is tracked, and a connection that is served no longer has its
    socket closed. *)
Theorem connections_limited MaxConnections w : reachable MaxConnections w ->
  (0 < MaxConnections -> Z.of_nat (size (filter (fun p => p.2 = Serving) (handlers w))) <= MaxConnections) /\
  wg (srv w) = Z.of_nat (size (handlers w)) /\
  (forall c, handlers w !! c = Some Serving -> c ∈ conns (srv w)) /\
  (forall c, handlers w !! c = Some Served \/ handlers w !! c = Some Untracked -> c ∈ closedConns (srv w)).
Proof.
  intros Hi%reachable_inv. split_and!; [|apply Hi|intros c Hc; by eapply (iv_tracked _ _ Hi)|apply Hi].
  intros Hm. etrans; [|by apply (iv_limit _ _ Hi)]. unfold activeConns. apply inj_le. rewrite <- size_dom. apply subseteq_size.
  intros c Hc. apply elem_of_dom in Hc as [h Hh]. apply map_lookup_filter_Some in Hh as [Hh Hs]. cbn in Hs. subst h. by eapply (iv_tracked _ _ Hi).
Qed.

(** A connection that is accepted while the server shuts down. *)
Definition escaped : World :=
  mkWorldL (mkServer (Some false) true {[0]} ∅ 1) StartReturned {[0 := Serving]} Watching (Returned true) 1.
Lemma escaped_reachable : reachable 10 escaped.
Proof.
  eexists. eapply steps_cons; [apply step_listen|]. eapply steps_cons; [by apply step_accept|]. eapply steps_cons; [by apply step_shutdown|].
  eapply steps_cons; [apply step_shutdown_close|]. eapply steps_cons; [apply step_close_conns|]. eapply steps_cons; [by apply step_wait|].
  eapply steps_cons; [by apply step_track|]. eapply steps_cons; [apply step_spawn|]. eapply steps_cons; [by apply step_accept_stops; left|].
  cbn. unfold escaped. replace ({[0]} ∪ ∅ : gset Z) with ({[0]} : gset Z) by set_solver. replace (∅ ∪ ∅ : gset Z) with (∅ : gset Z) by set_solver.
  apply steps_nil.
Qed.

(** C25: When the accept loop has ended before [Shutdown] closes the
    connections, no connection executes more than one further command, none is
    refused, the shutdown can always be completed, and when it returns without an
    error every goroutine has ended.  Without that condition it fails: a
    connection that was accepted just before the listener was closed is served
    although [Start] and [Shutdown] have both returned without an error. *)
Theorem shutdown_drains MaxConnections s hs wt n es w :
  reachable MaxConnections (mkWorldL s StartReturned hs wt ListenerClosed n) ->
  steps MaxConnections (mkWorldL (closeAllConns s) StartReturned hs wt ConnsClosed n) es w ->
  (forall c, executions c es <= 1) /\ Forall (fun e => match e with Rejected _ _ => False | _ => True end) es /\
  (shutdown w = Returned true -> handlers w = ∅) /\
  (shutdown w = ConnsClosed -> exists es' w', steps MaxConnections w es' w' /\ shutdown w' = Returned true) /\
  exists w', reachable 10 w' /\ acceptor w' = StartReturned /\ shutdown w' = Returned true /\ step 10 w' (Executed 0) w'.
Proof.
  intros Hr%reachable_inv Hs. apply drained_close in Hr. destruct (drained_steps _ _ _ _ Hr Hs) as (Hd & Hrej & Hex). split_and!.
  - intros c. specialize (Hex c). destruct (serving _ c); lia.
  - done.
  - apply Hd.
  - by apply drained_finish.
  - exists escaped. split_and!; [apply escaped_reachable|done|done|]. by apply step_execute.
Qed.

Lemma connections_limited_witness : wg (srv escaped) = 1 /\ 0 ∈ conns (srv escaped).
Proof.
  destruct (connections_limited 10 escaped escaped_reachable) as (_ & Hw & Hc & _). split; [reflexivity|]. apply Hc. reflexivity.
Defined.

(** A connection is served, the listener is closed and the accept loop ends. *)
Definition quiescent : World :=
  mkWorldL (mkServer (Some false) true ({[0]} ∪ ∅) ∅ 1) StartReturned (<[0 := Serving]> ∅) Watching ListenerClosed 1.
Lemma quiescent_reachable : reachable 10 quiescent.
Proof.
  eexists. eapply steps_cons; [apply step_listen|]. eapply steps_cons; [by apply step_accept|]. eapply steps_cons; [by apply step_track|].
  eapply steps_cons; [apply step_spawn|]. eapply steps_cons; [by apply step_shutdown|]. eapply steps_cons; [apply step_shutdown_close|].
  eapply steps_cons; [by apply step_accept_stops; left|]. apply steps_nil.
Qed.
Lemma shutdown_drains_witness : exists es w,
  steps 10 (mkWorldL (closeAllConns (srv quiescent)) StartReturned (handlers quiescent) Watching ConnsClosed 1) (Executed 0 :: es) w /\
  shutdown w = Returned true /\ handlers w = ∅ /\ forall c, executions c (Executed 0 :: es) <= 1.
Proof.
  pose proof quiescent_reachable as Hq.
  assert (H1 : steps 10 (mkWorldL (closeAllConns (srv quiescent)) StartReturned (handlers quiescent) Watching ConnsClosed 1) [Executed 0]
    (mkWorldL (closeAllConns (srv quiescent)) StartReturned (<[0 := Served]> (handlers quiescent)) Watching ConnsClosed 1)).
  { eapply steps_cons; [|apply steps_nil]. apply step_execute_closed; [reflexivity|set_solver]. }
  destruct (shutdown_drains 10 _ _ _ _ _ _ Hq H1) as (_ & _ & _ & Hfin & _). destruct (Hfin eq_refl) as (es & w & Hes & Hret).
  exists es, w. pose proof (steps_app _ _ _ _ _ _ H1 Hes) as H2. destruct (shutdown_drains 10 _ _ _ _ _ _ Hq H2) as (Hex & _ & Hno & _).
  split; [exact H2|]. split; [exact Hret|]. split; [exact (Hno Hret)|exact Hex].
Defined.
