(* ===== verification/Node.v ===== *)
(** * A standalone node: the server of [internal/server] over the engine of
    [internal/engine]

    The engine behind the [CommandExecutor] interface of the server, and what
    holds of the whole node: no sequence of bytes a client sends makes it
    panic, loop, or exceed its memory limit. *)
From S2P Require Import Prelude GoText GoFloat Resp ListValue SkipList ZSetValue Eviction Store StoreSpec Executor ExecutorSpec Engine EngineSpec Server.
Local Open Scope Z_scope.

Section node.
Context `{Env, SliceSortOk} {W : Type} (cfg : Config W).

Definition engineExecutor : CommandExecutor (Eng W) := EngineExecute cfg.

(** The store represents a map within the limit. *)
Definition node_inv (w : Eng W) : Prop := exists kv, store_kv (sysStore (engSys w)) kv /\ within cfg kv.

Lemma engineExecutor_ok : 0 < limit cfg < maxUint64 -> CommandExecutorOk (Eng W) (H := engineExecutor) node_inv.
Proof.
  intros Hlim cmd w Hfit (kv & Hs & Hin).
  destruct (EngineExecute_runs cfg cmd w kv Hlim Hs Hin Hfit) as (f & w' & Hx & kv' & Hs' & Hin' & _).
  exists f, w'. split; [exact Hx|]. by exists kv'.
Qed.

Lemma node_inv_used w : 0 < limit cfg < maxUint64 -> node_inv w -> 0 <= usedBytes (sysStore (engSys w)) <= limit cfg.
Proof.
  intros Hlim (kv & Hs & [_ Ht]). rw (used_exact cfg _ _ Hs Ht); [lia|]. split; [apply ktotal_nonneg|done].
Qed.
End node.

(** Whatever bytes a client sends to a node that starts empty with a memory
    limit, for every policy and write hook: serving the connection ends, the
    node does not panic, and the accounted memory is within the limit. *)
Theorem any_input_safe `{Env, SliceSortOk} {W} (cfg : Config W) (stripeCount : Z) (hook : W) (inp : string) :
  0 < limit cfg < maxUint64 -> stripeCount < 4294967296 ->
  exists out w e, serve (H := engineExecutor cfg) inp (mkEng (mkSys (NewStore stripeCount) 0) hook []) = Some (out, w, e) /\
    e <> OutOfFuel /\ 0 <= usedBytes (sysStore (engSys w)) <= limit cfg.
Proof.
  intros Hlim Hn. set (w0 := mkEng _ _ _).
  assert (node_inv cfg w0) as Hinv.
  { exists ∅. split; [by apply NewStore_spec|]. split; [by intros k x Hk; rw lookup_empty in Hk|].
    unfold ktotal. rw msum_empty. lia. }
  pose proof (engineExecutor_ok cfg Hlim) as Hok.
  destruct (serve_fuel_ok (H := engineExecutor cfg) (node_inv cfg) (Datatypes.S (String.length inp)) inp w0 Hinv) as (out & w & e & Hs & Hinv').
  exists out, w, e. split; [done|]. split; [|by apply (node_inv_used cfg)]. eapply serve_ends; [|exact Hs]. lia.
Qed.

Definition evictingConfig : Config unit := mkConfig 150 LFU None false.
Lemma any_input_safe_witness :
  exists out w e, serve (H := engineExecutor (H := steadyEnv) evictingConfig) ("SET a 1" +:+ CRLF +:+ "*-7" +:+ CRLF) (startEng 4) = Some (out, w, e) /\
    e <> OutOfFuel /\ 0 <= usedBytes (sysStore (engSys w)) <= 150.
Proof. apply (any_input_safe (H := steadyEnv) evictingConfig 4 tt); done. Defined.

(** An array whose first bulk string is empty is answered with an error after
    reading only that string, and the connection goes on with the rest of the
    array as if it were inline commands: the argument [FLUSHALL] of a request
    without a command name is executed, and the key set before is gone. *)
Theorem argument_executed :
  (fun r => r.1.1) <$> serve (H := engineExecutor (H := steadyEnv) evictingConfig)
      (sconcat (map writeRequest [["SET"; "k"; "v"]; [""; "FLUSHALL"]; ["EXISTS"; "k"]])) (startEng 4) =
    Some ("+OK" +:+ CRLF +:+ "-ERR empty command" +:+ CRLF +:+ "-ERR unknown command '$8'" +:+ CRLF +:+ "+OK" +:+ CRLF +:+
          ":0" +:+ CRLF).
Proof. vm_compute. reflexivity. Qed.
