(* ===== verification/Locality.v ===== *)
(** * What a command depends on

    The command semantics of [ExecutorSpec] on data without expirations: a
    command changes only the keys it names, its reply and its effect depend
    only on what is stored under them, not on the clock, and an error changes
    nothing.  This is what makes replaying the commands of one node on another
    node reproduce its data. *)
From S2P Require Import Prelude GoText GoFloat GoFloatText Resp ListValue SkipList ZSetValue Store StoreSpec Executor ExecutorSpec Engine.
Local Open Scope Z_scope.

(** ** Data without expirations *)

Definition permanent (kv : KV) : Prop := forall k x, kv !! k = Some x -> x.2 = 0.

Lemma permanent_empty : permanent ∅.
Proof. intros k x. by rw lookup_empty. Qed.
Lemma permanent_insert k v kv : permanent kv -> permanent (<[k := (v, 0)]> kv).
Proof. intros Hp k' x. rw lookup_insert_Some. intros [[_ <-]|[_ Hx]]; [done|by eapply Hp]. Qed.
Lemma permanent_delete k kv : permanent kv -> permanent (delete k kv).
Proof. intros Hp k' x. rw lookup_delete_Some. intros [_ Hx]. by eapply Hp. Qed.
Lemma permanent_live now k kv : permanent kv -> klive now k kv = kv !! k.
Proof.
  intros Hp. unfold klive. destruct (kv !! k) as [x|] eqn:Hx; [|done]. simpl.
  unfold kexpired. by rw (Hp k x Hx).
Qed.
Lemma permanent_drop now k kv : permanent kv -> kdrop now k kv = kv.
Proof.
  intros Hp. unfold kdrop. destruct (kv !! k) as [x|] eqn:Hx; [|done]. unfold kexpired. by rw (Hp k x Hx).
Qed.
#[export] Hint Resolve permanent_empty permanent_insert permanent_delete : mnemo.

(** Commands that set no expiration. *)
Definition permanentOption (a : string) : bool :=
  negb (String.eqb (upperASCII a) "EX" || String.eqb (upperASCII a) "PX").
Definition permanentCommand (cmd : Command) : bool :=
  negb (String.eqb (Name cmd) "EXPIRE") &&
  (negb (String.eqb (Name cmd) "SET") || forallb permanentOption (drop 2 (Args cmd))).
Definition isFlush (cmd : Command) : bool := String.eqb (Name cmd) "FLUSHDB" || String.eqb (Name cmd) "FLUSHALL".

(** ** Two maps that agree on some keys *)

Record agrees (P : string -> Prop) (kv1 kv2 : KV) : Prop := {
  agrees_on : forall k, P k -> kv1 !! k = kv2 !! k;
  agrees_left : permanent kv1;
  agrees_right : permanent kv2
}.

Lemma agrees_insert P k v kv1 kv2 : agrees P kv1 kv2 -> agrees P (<[k := (v, 0)]> kv1) (<[k := (v, 0)]> kv2).
Proof.
  intros [Ha H1 H2]. split; [|by apply permanent_insert..]. intros k' Hk. destruct (decide (k = k')) as [<-|Hne].
  - by rw !lookup_insert_eq.
  - rw !lookup_insert_ne //. by apply Ha.
Qed.
Lemma agrees_delete P k kv1 kv2 : agrees P kv1 kv2 -> agrees P (delete k kv1) (delete k kv2).
Proof.
  intros [Ha H1 H2]. split; [|by apply permanent_delete..]. intros k' Hk. destruct (decide (k = k')) as [<-|Hne].
  - by rw !lookup_delete_eq.
  - rw !lookup_delete_ne //. by apply Ha.
Qed.
Lemma agrees_sym P kv1 kv2 : agrees P kv1 kv2 -> agrees P kv2 kv1.
Proof. intros [Ha H1 H2]. split; [intros k Hk; by rw Ha|done|done]. Qed.

(** Two results: the same answer, and maps that still agree. *)
Definition same {A} (P : string -> Prop) (r1 r2 : A * KV) : Prop := r1.1 = r2.1 /\ agrees P r1.2 r2.2.

Lemma same_intro {A} P (a : A) kv1 kv2 : agrees P kv1 kv2 -> same P (a, kv1) (a, kv2).
Proof. done. Qed.
#[export] Hint Resolve agrees_insert agrees_delete same_intro : mnemo.

Section operations.
Context (P : string -> Prop) (k : string) (Hk : P k).

(** Both sides look up the same entry, which has no expiration. *)
Ltac both Ha :=
  rw !(permanent_live _ _ _ (agrees_left _ _ _ Ha)) !(permanent_live _ _ _ (agrees_right _ _ _ Ha))
     !(permanent_drop _ _ _ (agrees_left _ _ _ Ha)) !(permanent_drop _ _ _ (agrees_right _ _ _ Ha)) -(agrees_on _ _ _ Ha _ Hk);
  match type of Ha with agrees _ ?kv1 _ =>
    let x := fresh "v" in let e := fresh "e" in let Hx := fresh "Hx" in
    destruct (kv1 !! k) as [[x e]|] eqn:Hx;
    [pose proof (agrees_left _ _ _ Ha _ _ Hx) as He; cbn [snd] in He; subst e; destruct x|] end.

Lemma kset_same now1 now2 value cond kv1 kv2 :
  agrees P kv1 kv2 -> same P (kset now1 k value 0 cond kv1) (kset now2 k value 0 cond kv2).
Proof. intros Ha. unfold kset. both Ha; destruct cond; auto with mnemo. Qed.

Lemma kincr_same now1 now2 delta kv1 kv2 :
  agrees P kv1 kv2 -> same P (kincr now1 k delta kv1) (kincr now2 k delta kv2).
Proof. intros Ha. unfold kincr. both Ha; repeat case_match; auto with mnemo. Qed.

Lemma kpush_same now1 now2 vs left kv1 kv2 :
  agrees P kv1 kv2 -> same P (kpush now1 k vs left kv1) (kpush now2 k vs left kv2).
Proof. intros Ha. unfold kpush. both Ha; auto with mnemo. Qed.

Lemma kpop_same now1 now2 left kv1 kv2 :
  agrees P kv1 kv2 -> same P (kpop now1 k left kv1) (kpop now2 k left kv2).
Proof. intros Ha. unfold kpop. both Ha; repeat case_match; auto with mnemo. Qed.

Lemma kzadd_same now1 now2 pairs kv1 kv2 :
  agrees P kv1 kv2 -> same P (kzadd now1 k pairs kv1) (kzadd now2 k pairs kv2).
Proof. intros Ha. unfold kzadd. both Ha; repeat case_match; auto with mnemo. Qed.

Lemma read_same {E1 E2 : Env} none f kv1 kv2 t1 t2 :
  agrees P kv1 kv2 -> same P (spec_read (H := E1) k none f kv1 t1).1 (spec_read (H := E2) k none f kv2 t2).1.
Proof. intros Ha. unfold spec_read. both Ha; cbn [fst snd]; auto with mnemo. Qed.

Lemma ttl_same {E1 E2 : Env} kv1 kv2 t1 t2 :
  agrees P kv1 kv2 -> same P (spec_ttl (H := E1) [k] kv1 t1).1 (spec_ttl (H := E2) [k] kv2 t2).1.
Proof. intros Ha. unfold spec_ttl. both Ha; simpl; auto with mnemo. Qed.
End operations.

Lemma del_same P keys n kv1 kv2 :
  Forall P keys -> agrees P kv1 kv2 -> same P (spec_del_loop keys n kv1) (spec_del_loop keys n kv2).
Proof.
  intros Hall. revert n kv1 kv2; induction Hall as [|k keys Hk _ IH]; intros n kv1 kv2 Ha; [done|]. simpl.
  rw (agrees_on _ _ _ Ha k Hk). by apply IH, agrees_delete.
Qed.

Lemma exists_same {E1 E2 : Env} P keys n kv1 kv2 t1 t2 :
  Forall P keys -> agrees P kv1 kv2 ->
  same P (spec_exists_loop (H := E1) keys n kv1 t1).1 (spec_exists_loop (H := E2) keys n kv2 t2).1.
Proof.
  intros Hall. revert n kv1 kv2 t1 t2; induction Hall as [|k keys Hk _ IH]; intros n kv1 kv2 t1 t2 Ha; [done|]. simpl.
  destruct Ha as [Ha H1 H2]. rw !permanent_live // !permanent_drop // (Ha k Hk). by apply IH.
Qed.

(** Options without EX and PX: the clock is not read. *)
Lemma parseSetOptions_permanent {E1 E2 : Env} args t1 t2 :
  forallb permanentOption args = true ->
  exists r, parseSetOptions (H := E1) args t1 = (r, t1) /\ parseSetOptions (H := E2) args t2 = (r, t2) /\
    forall o, r = inl o -> expiresAtNs o = 0.
Proof.
  unfold parseSetOptions. assert (expiresAtNs (mkSetOptions 0 setAlways) = 0) as Ho by done. revert Ho.
  generalize (mkSetOptions 0 setAlways) as opts. induction args as [|a args IH]; intros opts Ho Hall.
  { exists (inl opts). split_and!; [done|done|by intros o [= <-]]. }
  simpl in Hall. apply andb_prop in Hall as [Hopt Hall]. cbn [parseSetOptions_loop]. unfold permanentOption in Hopt.
  destruct (_ || _); [done|].
  repeat case_match; try (eexists; split_and!; [done|done|done]); by apply IH.
Qed.

Lemma set_same {E1 E2 : Env} P args kv1 kv2 t1 t2 :
  Forall P (take 1 args) -> forallb permanentOption (drop 2 args) = true -> agrees P kv1 kv2 ->
  same P (spec_set (H := E1) args kv1 t1).1 (spec_set (H := E2) args kv2 t2).1.
Proof.
  intros Hk Hopt Ha. destruct args as [|key [|value rest]]; [done..|]. apply Forall_cons in Hk as [Hk _]. unfold spec_set.
  destruct (parseSetOptions_permanent (E1 := E1) (E2 := E2) rest t1 t2 Hopt) as (r & -> & -> & Hr).
  destruct r as [o|f]; [|done]. rw (Hr o eq_refl).
  destruct (kset_same P key Hk (clock (Env := E1) t1) (clock (Env := E2) t2) value (condition o) kv1 kv2 Ha) as [He Hs].
  destruct (kset _ _ _ _ _ kv1), (kset _ _ _ _ _ kv2). simpl in *. by subst.
Qed.

(** Split the goal along the dispatch on the command name. *)
Ltac dispatch :=
  repeat match goal with
  | |- context [if String.eqb (Name ?c) ?n then _ else _] =>
      let Hn := fresh "Hn" in destruct (String.eqb_spec (Name c) n) as [Hn|Hn]
  end.

(** The keys of a command with a known name. *)
Lemma keys_first cmd : Name cmd ∉ keyless -> Name cmd ∉ ["DEL"; "EXISTS"] -> ExtractKeys cmd = take 1 (Args cmd).
Proof. intros H1 H2. unfold ExtractKeys. by rw !bool_decide_eq_false_2. Qed.
Lemma keys_all cmd : Name cmd ∈ ["DEL"; "EXISTS"] -> ExtractKeys cmd = Args cmd.
Proof.
  intros Hn. unfold ExtractKeys. rw bool_decide_eq_false_2; [|by rw bool_decide_eq_true_2].
  rw !elem_of_cons elem_of_nil in Hn. destruct Hn as [->|[->|[]]]; by apply (bool_decide_unpack _).
Qed.

(** A result whose third component is the tick. *)
Lemma same_reply {A B} P (f : A -> B) (r1 r2 : A * KV) (g1 g2 : nat) :
  same P r1 r2 -> same P (let '(a, kv) := r1 in (f a, kv, g1)).1 (let '(a, kv) := r2 in (f a, kv, g2)).1.
Proof. destruct r1, r2. intros [He Ha]. simpl in *. by subst. Qed.

(** Commands with exactly one argument, the key. *)
Ltac one_key Hk :=
  match goal with |- context [Args ?c] => destruct (Args c) as [|? [|]]; [done| |done] end; apply Forall_cons in Hk as [Hk _].

(** Commands on maps that agree on their keys give the same reply and agree
    afterwards, whatever the clocks. *)
Lemma spec_same {E1 E2 : Env} P cmd kv1 kv2 t1 t2 :
  permanentCommand cmd = true -> isFlush cmd = false -> Forall P (ExtractKeys cmd) -> agrees P kv1 kv2 ->
  same P (spec_execute (H := E1) cmd kv1 t1).1 (spec_execute (H := E2) cmd kv2 t2).1.
Proof.
  intros Hperm Hfl Hkeys Ha. apply andb_prop in Hperm as [Hexp Hset].
  assert (Name cmd ∉ keyless -> Name cmd ∉ ["DEL"; "EXISTS"] -> Forall P (take 1 (Args cmd))) as H1.
  { intros ??. by rw -keys_first. }
  assert (Name cmd ∈ ["DEL"; "EXISTS"] -> Forall P (Args cmd)) as Hall.
  { intros ?. by rw -keys_all. }
  apply orb_false_elim in Hfl as [Hf1 Hf2]. unfold spec_execute. cbv zeta. rw Hf1 Hf2. cbn [orb]. dispatch; try (by apply same_intro).
  all: repeat match goal with Hn : Name _ <> _ |- _ => clear Hn end.
  all: match goal with Hn : Name _ = _ |- _ => rw Hn in H1 Hall Hexp Hset end; simpl in Hexp; try done.
  all: try (specialize (Hall ltac:(by apply (bool_decide_unpack _)))); try (specialize (H1 ltac:(by apply (bool_decide_unpack _)) ltac:(by apply (bool_decide_unpack _)))).
  - unfold spec_del. destruct (Args cmd) as [|k keys]; [done|]. by apply (same_reply P Integer), del_same.
  - unfold spec_exists. destruct (Args cmd) as [|k keys]; [done|].
    destruct (exists_same (E1 := E1) (E2 := E2) P (k :: keys) 0 kv1 kv2 t1 t2 Hall Ha) as [He Hs].
    destruct (spec_exists_loop _ _ kv1 _) as [[??]?], (spec_exists_loop _ _ kv2 _) as [[??]?]. simpl in *. by subst.
  - one_key H1. by apply ttl_same.
  - by apply set_same.
  - one_key H1. by apply read_same.
  - one_key H1. unfold spec_incr. eapply same_reply, kincr_same; [apply H1|done].
  - unfold spec_push. destruct (Args cmd) as [|k [|v vs]]; [done..|]. apply Forall_cons in H1 as [H1 _].
    by apply (same_reply P pushReply), kpush_same.
  - unfold spec_push. destruct (Args cmd) as [|k [|v vs]]; [done..|]. apply Forall_cons in H1 as [H1 _].
    by apply (same_reply P pushReply), kpush_same.
  - one_key H1. by apply (same_reply P popReply), kpop_same.
  - one_key H1. by apply (same_reply P popReply), kpop_same.
  - one_key H1. by apply read_same.
  - unfold spec_zadd. destruct (Args cmd) as [|k rest]; [done|]. apply Forall_cons in H1 as [H1 _].
    clear Hset. destruct (_ || _); [done|]. destruct (parseZAddPairs rest); [|done]. by apply (same_reply P pushReply), kzadd_same.
  - unfold spec_zrange. destruct (Args cmd) as [|k [|a [|b [|o [|]]]]]; try done; apply Forall_cons in H1 as [H1 _];
      repeat case_match; try done; by apply read_same.
  - one_key H1. by apply read_same.
  - unfold spec_zscore. destruct (Args cmd) as [|k [|m [|]]]; try done. apply Forall_cons in H1 as [H1 _]. by apply read_same.
Qed.

(** ** Other keys *)

Lemma drop_other now k key kv : k <> key -> kdrop now key kv !! k = kv !! k.
Proof. intros Hne. unfold kdrop. repeat case_match; try done. by rw lookup_delete_ne. Qed.

Lemma insert_other k key (x : aval * Z) (kv : KV) : k <> key -> <[key := x]> kv !! k = kv !! k.
Proof. intros Hne. by rw lookup_insert_ne. Qed.
Lemma delete_other k key (kv : KV) : k <> key -> delete key kv !! k = kv !! k.
Proof. intros Hne. by rw lookup_delete_ne. Qed.

Lemma del_other k keys n kv : k ∉ keys -> (spec_del_loop keys n kv).2 !! k = kv !! k.
Proof.
  revert n kv; induction keys as [|key keys IH]; intros n kv; [done|]. rw not_elem_of_cons. intros [Hne Hk]. simpl.
  rw IH //. by rw lookup_delete_ne.
Qed.
Lemma exists_other `{Env} k keys n kv t : k ∉ keys -> (spec_exists_loop keys n kv t).1.2 !! k = kv !! k.
Proof.
  revert n kv t; induction keys as [|key keys IH]; intros n kv t; [done|]. rw not_elem_of_cons. intros [Hne Hk]. simpl.
  rw IH //. by apply drop_other.
Qed.

Ltac other :=
  repeat first [case_match | progress simplify_eq/=]; rw ?insert_other // ?delete_other // ?drop_other //.

(** A command leaves every key it does not name as it is. *)
Lemma spec_other `{Env} cmd kv t k :
  isFlush cmd = false -> k ∉ ExtractKeys cmd -> (spec_execute cmd kv t).1.2 !! k = kv !! k.
Proof.
  intros Hfl Hk.
  assert (Name cmd ∉ keyless -> Name cmd ∉ ["DEL"; "EXISTS"] -> k ∉ take 1 (Args cmd)) as H1.
  { intros ??. by rw -keys_first. }
  assert (Name cmd ∈ ["DEL"; "EXISTS"] -> k ∉ Args cmd) as Hall.
  { intros ?. by rw -keys_all. }
  clear Hk. apply orb_false_elim in Hfl as [Hf1 Hf2]. unfold spec_execute. cbv zeta. rw Hf1 Hf2. cbn [orb]. dispatch; try done.
  all: repeat match goal with Hn : Name _ <> _ |- _ => clear Hn end.
  all: match goal with Hn : Name _ = _ |- _ => rw Hn in H1 Hall end.
  all: try (specialize (Hall ltac:(by apply (bool_decide_unpack _)))); try (specialize (H1 ltac:(by apply (bool_decide_unpack _)) ltac:(by apply (bool_decide_unpack _)))).
  1: { unfold spec_del. destruct (Args cmd) as [|key keys]; [done|]. pose proof (del_other k (key :: keys) 0 kv Hall).
    by destruct (spec_del_loop _ _ _). }
  1: { unfold spec_exists. destruct (Args cmd) as [|key keys]; [done|]. pose proof (exists_other k (key :: keys) 0 kv t Hall).
    by destruct (spec_exists_loop _ _ _ _) as [[??]?]. }
  all: unfold spec_expire, spec_ttl, spec_set, spec_get, spec_incr, spec_push, spec_pop, spec_llen, spec_zadd, spec_zrange,
    spec_zcard, spec_zscore, spec_read, kexpireAt, kset, kincr, kpush, kpop, kzadd.
  all: destruct (Args cmd) as [|key rest]; [done|]; apply not_elem_of_cons in H1 as [Hne _]; other.
Qed.

(** ** Errors *)

(** An error leaves data without expirations as it is. *)
Lemma spec_error `{Env} cmd kv t :
  isFlush cmd = false -> permanent kv -> isErrorFrame (spec_execute cmd kv t).1.1 = true -> (spec_execute cmd kv t).1.2 = kv.
Proof.
  intros Hfl Hp. apply orb_false_elim in Hfl as [Hf1 Hf2]. unfold spec_execute. cbv zeta. rw Hf1 Hf2. cbn [orb]. dispatch; try done.
  all: repeat match goal with Hn : Name _ <> _ |- _ => clear Hn end.
  1: { unfold spec_del. destruct (Args cmd) as [|key keys]; [done|]. by destruct (spec_del_loop _ _ _). }
  1: { unfold spec_exists. destruct (Args cmd) as [|key keys]; [done|]. by destruct (spec_exists_loop _ _ _ _) as [[??]?]. }
  all: unfold spec_expire, spec_ttl, spec_set, spec_get, spec_incr, spec_push, spec_pop, spec_llen, spec_zadd, spec_zrange,
    spec_zcard, spec_zscore, spec_read, kexpireAt, kset, kincr, kpush, kpop, kzadd, popReply, pushReply.
  all: repeat first [case_match | progress simplify_eq/=]; try done; intros _; by apply permanent_drop.
Qed.
