(* ===== verification/Workload.v ===== *)
(** * The workload generator: [internal/workload]

    The client, the random source, the profiles and the loop of the workers.
    Random numbers come from the class [Rand], which stands for a generator of
    [math/rand].  The workers share the node; a worker waits for the reply to an
    operation before it goes on, so that a run is a sequence of operations, each
    of some worker. *)
From S2P Require Import Prelude GoText GoFloat GoFloatText FloatRatio Resp Server.
Local Open Scope Z_scope.

(** ** The client *)

(** The values [read] returns. *)
Inductive Reply := RString (s : string) | RInt (n : Z) | RNil | RArray (items : list Reply).
Inductive ReplyErr :=
| ErrorReply (text : string) | ErrShort | ErrNumber | ErrPrefix (prefix : ascii) | ErrIO (e : ReadError).

(** A reader: a value or an error, and the unread rest; [None] is a panic of
    [make]. *)
Definition Reader (A : Type) : Type := string -> option ((A + ReplyErr) * string).

(** [make] fails when the length is negative or the memory is more than the
    address space has. *)
Definition maxAlloc : Z := 2 ^ 48.
Definition makes (n size : Z) : bool := (0 <=? n) && (n * size <=? maxAlloc).

(** [write]: the text that [writeRequest] of the proxy writes. *)
Definition write (args : list string) : string :=
  "*" +:+ Itoa (Z.of_nat (length args)) +:+ CRLF +:+
  sconcat (map (fun a => "$" +:+ Itoa (slen a) +:+ CRLF +:+ a +:+ CRLF) args).

(** [read] and its loop over the [n] items of an array. *)
Fixpoint read_fuel (fuel : nat) (s : string) : option ((Reply + ReplyErr) * string) :=
  match fuel with
  | O => Some (inr (ErrIO ErrFuel), s)
  | S fuel =>
      match ReadString s with
      | Err e r => Some (inr (ErrIO e), r)
      | Ok line r =>
          if slen line <? 3 then Some (inr ErrShort, r)
          else
            let body := chop2 (stail line) in
            match sfirst line with
            | Some "+"%char => Some (inl (RString body), r)
            | Some "-"%char => Some (inr (ErrorReply body), r)
            | Some ":"%char => match ParseInt body with Some n => Some (inl (RInt n), r) | None => Some (inr ErrNumber, r) end
            | Some "$"%char =>
                match Atoi body with
                | None => Some (inr ErrNumber, r)
                | Some n =>
                    if n <? 0 then Some (inl RNil, r)
                    else if negb (makes (n + 2) 1) then None
                    else match ReadFull (n + 2) r with
                    | Err e r => Some (inr (ErrIO e), r)
                    | Ok buf r => Some (inl (RString (stake (Z.to_nat n) buf)), r)
                    end
                end
            | Some "*"%char =>
                match Atoi body with
                | None => Some (inr ErrNumber, r)
                | Some n =>
                    if negb (makes n 16) then None
                    else
                      '(items, r) ← readItems fuel n r;
                      Some (match items with inl items => inl (RArray items) | inr e => inr e end, r)
                end
            | Some c => Some (inr (ErrPrefix c), r)
            | None => Some (inr ErrShort, r)
            end
      end
  end
with readItems (fuel : nat) (n : Z) (s : string) : option ((list Reply + ReplyErr) * string) :=
  match fuel with
  | O => Some (inr (ErrIO ErrFuel), s)
  | S fuel =>
      if n <=? 0 then Some (inl [], s)
      else
        '(v, r) ← read_fuel fuel s;
        match v with
        | inr e => Some (inr e, r)
        | inl v =>
            '(vs, r) ← readItems fuel (n - 1) r;
            Some (match vs with inl vs => inl (v :: vs) | inr e => inr e end, r)
        end
  end.
(** Every reply takes at least three bytes. *)
Definition read : Reader Reply := fun s => read_fuel (S (S (2 * String.length s))) s.

(** [Do], on a connection to a node: the node answers the request before it
    reads on. *)
Definition Do {S} `{CommandExecutor S} (args : list string) (s : S) : option ((Reply + ReplyErr) * S) :=
  '(out, s, _) ← serve (write args) s;
  '(v, _) ← read out;
  Some (v, s).

(** ** Random operations *)

(** A [rand.Rand] with state [R]: [Intn n] is below [n], [Float64] is in [0, 1)
    - of the form k / 2^63, so that its exponent is above -1000 when it is not 0. *)
Class Rand (R : Type) := { Intn : Z -> R -> Z * R; Float64 : R -> float64 * R }.
Class RandOk (R : Type) `{Rand R} : Prop := {
  Intn_range : forall n r, 0 < n -> 0 <= (Intn n r).1 < n;
  Float64_range : forall r,
    match (Float64 r).1 with
    | S754_zero _ => True
    | S754_finite neg m e => neg = false /\ -1000 <= e < 0 /\ Z.pos m < 2 ^ (- e)
    | _ => False
    end
}.

(** [FormatFloat(f, 'f', 2, 64)] of a number whose integer part has at most 20
    digits: the nearest multiple of 1/100, an even one on a tie. *)
Definition roundHalfEven (num den : Z) : Z :=
  let q := num / den in
  match 2 * (num - q * den) ?= den with Lt => q | Gt => q + 1 | Eq => if Z.even q then q else q + 1 end.
Definition formatF2 (f : float64) : string :=
  match f with
  | S754_nan => "NaN"
  | S754_infinity neg => if neg then "-Inf" else "+Inf"
  | S754_zero neg => (if neg then "-" else "") +:+ "0.00"
  | S754_finite neg m e =>
      let '(num, den) := ratio m e in
      let q := roundHalfEven (100 * num) den in
      (if neg then "-" else "") +:+ FormatUint (q / 100) +:+ "." +:+ FormatUint (q mod 100 / 10) +:+ FormatUint (q mod 10)
  end.

Definition charset : string := "abcdefghijklmnopqrstuvwxyz0123456789".

Section random.
Context {R : Type} `{Rand R}.
(** [defaultRand] *)
Record defaultRand := mkRand { rand : R; keySpan : Z }.
Definition NewRand (seed : R) (span : Z) : defaultRand := mkRand seed (if span <=? 0 then 1000 else span).
Definition draw (n : Z) (d : defaultRand) : Z * defaultRand :=
  let '(x, r) := Intn n (rand d) in (x, mkRand r (keySpan d)).
Definition Key (prefix : string) (d : defaultRand) : string * defaultRand :=
  let '(x, d) := draw (keySpan d) d in (prefix +:+ ":" +:+ Itoa x, d).
Definition CounterKey (prefix : string) (d : defaultRand) : string * defaultRand :=
  let '(x, d) := draw 16 d in (prefix +:+ ":" +:+ Itoa x, d).
Fixpoint Value (size : nat) (d : defaultRand) : string * defaultRand :=
  match size with
  | O => ("", d)
  | S size =>
      let '(x, d) := draw 36 d in
      let '(v, d) := Value size d in
      (stake 1 (sdrop (Z.to_nat x) charset) +:+ v, d)
  end.
Definition Score (d : defaultRand) : string * defaultRand :=
  let '(f, r) := Float64 (rand d) in (formatF2 (SFmul 53 1024 f (floatOfUint 1000)), mkRand r (keySpan d)).

(** ** Profiles *)

Record Operation := mkOperation { Weight : Z; Build : defaultRand -> list string * defaultRand }.
Record Profile := mkProfile { ProfileName : string; Description : string; Operations : list Operation }.

Definition StringProfile : Profile :=
  mkProfile "strings" "Set/Get heavy workload"
    [mkOperation 60 (fun r => let '(k, r) := Key "k" r in let '(v, r) := Value 64 r in (["SET"; k; v], r));
     mkOperation 35 (fun r => let '(k, r) := Key "k" r in (["GET"; k], r));
     mkOperation 5 (fun r => let '(k, r) := CounterKey "c" r in (["INCR"; k], r))].
Definition ListProfile : Profile :=
  mkProfile "lists" "Queue-style list workload"
    [mkOperation 50 (fun r => let '(k, r) := Key "q" r in let '(v, r) := Value 32 r in (["RPUSH"; k; v], r));
     mkOperation 30 (fun r => let '(k, r) := Key "q" r in (["LPOP"; k], r));
     mkOperation 20 (fun r => let '(k, r) := Key "q" r in (["LLEN"; k], r))].
Definition ZSetProfile : Profile :=
  mkProfile "zset" "Leaderboard-style sorted set workload"
    [mkOperation 60 (fun r => let '(s, r) := Score r in let '(m, r) := Key "user" r in (["ZADD"; "leaderboard"; s; m], r));
     mkOperation 30 (fun r => (["ZRANGE"; "leaderboard"; "0"; "9"], r));
     mkOperation 10 (fun r => (["ZCARD"; "leaderboard"], r))].
Definition MixedProfile : Profile :=
  mkProfile "mixed" "Mixed read/write workload across data types"
    ((Operations StringProfile ++ Operations ListProfile) ++ Operations ZSetProfile).
Definition ProfileByName (name : string) : option Profile :=
  if String.eqb name "strings" then Some StringProfile
  else if String.eqb name "lists" then Some ListProfile
  else if String.eqb name "zset" then Some ZSetProfile
  else if String.eqb name "mixed" then Some MixedProfile
  else None.

(** ** Picking an operation *)

(** The loop of [pickInt] over the characters of a text. *)
Fixpoint hashText (x : Z) (s : string) : Z :=
  match s with
  | "" => x
  | String c s => hashText (Z.land (i64 (x * 131 + byteZ c)) 2147483647) s
  end.
Definition pickInt (max : Z) (d : defaultRand) : Z * defaultRand :=
  let '(s, d) := Value 4 d in (hashText 0 s mod max, d).
Definition totalWeight (ops : list Operation) : Z := foldr (fun op z => Weight op + z) 0 ops.
Fixpoint selectOp (pick cur : Z) (ops : list Operation) (lastOp : Operation) : Operation :=
  match ops with
  | [] => lastOp
  | op :: ops => if pick <? cur + Weight op then op else selectOp pick (cur + Weight op) ops lastOp
  end.
Definition pickOperation (ops : list Operation) (d : defaultRand) : option (Operation * defaultRand) :=
  if totalWeight ops =? 0 then None
  else
    let '(pick, d) := pickInt (totalWeight ops) d in
    lastOp ← last ops;
    Some (selectOp pick 0 ops lastOp, d).
End random.

(** ** The workers *)

Section run.
Context {R : Type} `{Rand R} {S : Type} `{CommandExecutor S}.

(** The random sources of the workers, the node, and what the operations
    gave. *)
Record RunState := mkRun { sources : list (defaultRand (R := R)); node : S; outcomes : list (Reply + ReplyErr) }.

(** One turn of the loop of worker [i]; [None] is a panic, and a worker without
    operations is done. *)
Definition workerStep (ops : list Operation) (i : nat) (st : RunState) : option RunState :=
  match sources st !! i with
  | None => Some st
  | Some d =>
      match pickOperation ops d with
      | None => Some st
      | Some (op, d) =>
          let '(args, d) := Build op d in
          '(r, s) ← Do args (node st);
          Some (mkRun (<[i := d]> (sources st)) s (outcomes st ++ [r]))
      end
  end.
Fixpoint workers (ops : list Operation) (schedule : list nat) (st : RunState) : option RunState :=
  match schedule with
  | [] => Some st
  | i :: schedule => st ← workerStep ops i st; workers ops schedule st
  end.
End run.

(** ** The result *)

Record Result := mkResult { TotalOps : Z; Errors : Z; Duration : Z; Throughput : float64; AvgLatency : Z }.
Definition succeeded (r : Reply + ReplyErr) : bool := match r with inl _ => true | inr _ => false end.
Definition countIf {A} (p : A -> bool) (l : list A) : Z := Z.of_nat (length (List.filter p l)).
(** [Duration.Seconds] *)
Definition Seconds (d : Z) : float64 :=
  SFadd 53 1024 (binary_normalize 53 1024 (Z.quot d 1000000000) 0 false)
    (SFdiv 53 1024 (binary_normalize 53 1024 (Z.rem d 1000000000) 0 false) (floatOfUint 1000000000)).

Section result.
Context {R : Type} `{Rand R} {S : Type} `{CommandExecutor S}.

(** [Run]: [dials] says which worker gets a connection, [seed] is the source of
    a worker, [latency] how long the n-th operation took and [dur] the run. *)
Definition Run (profile : Profile (R := R)) (concurrency span : Z) (dials : nat -> bool) (seed : nat -> R)
    (schedule : list nat) (latency : nat -> Z) (dur : Z) (s : S) : option (Result * RunState (R := R) (S := S)) :=
  let concurrency := if concurrency <=? 0 then 8 else concurrency in
  let span := if span <=? 0 then 1000 else span in
  let ids := seq 0 (Z.to_nat concurrency) in
  st ← workers (Operations profile) schedule (mkRun (map (fun i => NewRand (seed i) span) (List.filter dials ids)) s []);
  let total := u64 (countIf succeeded (outcomes st)) in
  let errs := u64 (countIf (fun i => negb (dials i)) ids + countIf (fun r => negb (succeeded r)) (outcomes st)) in
  let latSum := i64 (foldr (fun p z => (if succeeded p.2 then latency p.1 else 0) + z) 0 (imap pair (outcomes st))) in
  Some (mkResult total errs dur (SFdiv 53 1024 (floatOfUint total) (Seconds dur)) (if 0 <? total then Z.quot latSum (i64 total) else 0), st).
End result.
