(* ===== verification/WorkloadSpec.v ===== *)
(** * Properties of the workload generator

    The client reads every reply the node writes, and the operations of the
    profiles are valid commands that never meet a value of another type: the only
    errors a run can see are those of a node that is out of memory. *)
From S2P Require Import Prelude GoText GoFloat GoFloatText FloatRatio Resp ListValue SkipList ZSetValue Eviction Store StoreSpec Executor ExecutorSpec.
From S2P Require Import Engine EngineSpec Server Node Locality Workload.
Local Open Scope Z_scope.

(** ** The client reads the replies of the node *)

Fixpoint valueFrame (f : Frame) : Prop :=
  match f with
  | SimpleString _ => True
  | Error _ _ => False
  | Integer n => int64_range n
  | BulkString v null => slen v + 2 <= maxAlloc
  | Array items null => null = false /\ 16 * Z.of_nat (length items) <= maxAlloc /\ foldr (fun i P => valueFrame i /\ P) True items
  end.
Fixpoint replyOf (f : Frame) : Reply :=
  match f with
  | SimpleString s => RString (writeLineText s)
  | Error _ _ => RNil
  | Integer n => RInt n
  | BulkString v null => if (null : bool) then RNil else RString v
  | Array items _ => RArray (map replyOf items)
  end.

Lemma read_line fuel c l r :
  Ascii.eqb c LF = false -> noLF l = true ->
  read_fuel (S fuel) (String c (l +:+ CRLF +:+ r)) =
    match c with
    | "+"%char => Some (inl (RString l), r)
    | "-"%char => Some (inr (ErrorReply l), r)
    | ":"%char => match ParseInt l with Some n => Some (inl (RInt n), r) | None => Some (inr ErrNumber, r) end
    | "$"%char =>
        match Atoi l with
        | None => Some (inr ErrNumber, r)
        | Some n =>
            if n <? 0 then Some (inl RNil, r)
            else if negb (makes (n + 2) 1) then None
            else match ReadFull (n + 2) r with
            | Err e r => Some (inr (ErrIO e), r)
            | Ok buf r => Some (inl (RString (stake (Z.to_nat n) buf)), r)
            end
        end
    | "*"%char =>
        match Atoi l with
        | None => Some (inr ErrNumber, r)
        | Some n =>
            if negb (makes n 16) then None
            else
              '(items, r) ← readItems fuel n r;
              Some (match items with inl items => inl (RArray items) | inr e => inr e end, r)
        end
    | c => Some (inr (ErrPrefix c), r)
    end.
Proof.
  intros Hc Hl. cbn [read_fuel]. rw -app_string_cons ReadString_line; [cbn [noLF sall]; by rw Hc|].
  rw slen_CRLF slen_cons. pose proof (slen_nonneg l). destruct (Z.ltb_spec (1 + slen l + 2) 3); [lia|].
  rw app_string_cons. cbn [stail sfirst]. rw chop2_line. by destruct c as [[] [] [] [] [] [] [] []].
Qed.

Lemma read_write f fuel r : valueFrame f -> (frame_fuel f <= fuel)%nat -> read_fuel fuel (WriteFrame f +:+ r) = Some (inl (replyOf f), r).
Proof.
  revert fuel r; induction f as [s|p m|n|v b|items b IH] using Frame_nested_ind; intros fuel r Hfit Hfuel;
    (destruct fuel as [|fuel]; [simpl in Hfuel; lia|]); [|done|..].
  - change (WriteFrame (SimpleString s)) with (String "+" (writeLineText s +:+ CRLF)).
    rw app_string_cons app_string_assoc read_line //. apply noLF_writeLineText.
  - change (WriteFrame (Integer n)) with (String ":" (FormatInt n +:+ CRLF)).
    rw app_string_cons app_string_assoc read_line //; [apply FormatInt_line|]. by rw ParseInt_FormatInt.
  - destruct b; [done|].
    change (WriteFrame (BulkString v false)) with (String "$" (Itoa (slen v) +:+ CRLF +:+ (v +:+ CRLF))).
    rw app_string_cons 2!app_string_assoc read_line //; [apply FormatInt_line|].
    cbn [valueFrame] in Hfit. unfold maxAlloc in Hfit. pose proof (slen_nonneg v). rw Atoi_Itoa; [unfold int64_range, minInt64, maxInt64; lia|].
    destruct (Z.ltb_spec (slen v) 0); [lia|]. assert (makes (slen v + 2) 1 = true) as -> by (unfold makes, maxAlloc; lia). cbn [negb].
    rw -slen_CRLF ReadFull_app. unfold slen. by rw Nat2Z.id stake_app.
  - cbn [valueFrame] in Hfit. destruct Hfit as (-> & Hlen & Hfit). unfold maxAlloc in Hlen.
    change (WriteFrame (Array items false)) with (String "*" (Itoa (Z.of_nat (length items)) +:+ CRLF +:+ sconcat (map WriteFrame items))).
    rw app_string_cons 2!app_string_assoc read_line //; [apply FormatInt_line|]. rw Atoi_Itoa; [unfold int64_range, minInt64, maxInt64; lia|].
    assert (makes (Z.of_nat (length items)) 16 = true) as -> by (unfold makes, maxAlloc; lia). cbn [negb].
    assert (readItems fuel (Z.of_nat (length items)) (sconcat (map WriteFrame items) +:+ r) = Some (inl (map replyOf items), r)) as ->; [|done].
    simpl in Hfuel. apply le_S_n in Hfuel. clear Hlen.
    revert fuel Hfuel Hfit; induction IH as [|x l Hx Hl IHl]; intros fuel Hfuel Hfit.
    + by destruct fuel; [simpl in Hfuel; lia|].
    + destruct fuel as [|fuel]; [simpl in Hfuel; lia|]. cbn [readItems]. simpl in Hfit, Hfuel. destruct Hfit as [Hfx Hfit].
      destruct (Z.leb_spec (Z.of_nat (length (x :: l))) 0); [simpl in *; lia|].
      cbn [map sconcat]. rw app_string_assoc Hx; [done|lia|]. cbn [mbind option_bind].
      assert (Z.of_nat (length (x :: l)) - 1 = Z.of_nat (length l)) as -> by (simpl; lia). rw IHl; [lia|done|]. done.
Qed.
Lemma frame_fuel_length f : valueFrame f -> (frame_fuel f <= String.length (WriteFrame f))%nat.
Proof.
  assert (Hcons : forall c s, (1 <= String.length (String c s))%nat) by (intros; simpl; lia).
  induction f as [s|p m|n|v b|items b IH] using Frame_nested_ind; intros Hf; cbn [frame_fuel]; try apply Hcons.
  - destruct b; apply Hcons.
  - destruct Hf as (-> & _ & Hf).
    change (WriteFrame (Array items false)) with (String "*" (Itoa (Z.of_nat (length items)) +:+ CRLF +:+ sconcat (map WriteFrame items))).
    cbn [String.length]. rw !length_app_string. change (String.length CRLF) with 2%nat.
    assert (foldr (fun i n => S (Nat.max (frame_fuel i) n)) 1 items <= 1 + String.length (sconcat (map WriteFrame items)))%nat; [|lia].
    induction IH as [|x l Hx Hl IHl]; [simpl; lia|]. simpl in Hf. destruct Hf as [Hfx Hf]. specialize (Hx Hfx). specialize (IHl Hf).
    cbn [foldr map sconcat]. rw length_app_string. assert (1 <= frame_fuel x)%nat by (destruct x; simpl; lia). lia.
Qed.
(** The client reads what the node writes, and nothing more. *)
Lemma read_value f r : valueFrame f -> read (WriteFrame f +:+ r) = Some (inl (replyOf f), r).
Proof. intros Hf. apply read_write; [done|]. apply frame_fuel_length in Hf. rw length_app_string. lia. Qed.
Lemma read_error p m r : read (WriteFrame (Error p m) +:+ r) = Some (inr (ErrorReply (writeLineText (if String.eqb p "" then "ERR" else p) +:+ " " +:+ writeLineText m)), r).
Proof.
  unfold read. cbn [WriteFrame]. unfold writeError. cbv zeta. set (q := if String.eqb p "" then "ERR" else p).
  change ("-" +:+ writeLineText q +:+ " " +:+ writeLineText m +:+ CRLF) with (String "-" (writeLineText q +:+ (" " +:+ (writeLineText m +:+ CRLF)))).
  rw app_string_cons -!app_string_assoc. rw app_string_assoc read_line //.
  rw !noLF_app !noLF_writeLineText. done.
Qed.

(** ** Keys and values *)

Section drawn.
Context {R : Type} `{RandOk R}.

Lemma Key_text prefix (d : defaultRand) : 0 < keySpan d -> exists n, (Key prefix d).1 = prefix +:+ ":" +:+ Itoa n /\ 0 <= n < keySpan d.
Proof.
  intros Hs. unfold Key, draw. pose proof (Intn_range (keySpan d) (rand d) Hs). destruct (Intn _ _) as [x r]. by exists x.
Qed.
Lemma CounterKey_text prefix (d : defaultRand) : exists n, (CounterKey prefix d).1 = prefix +:+ ":" +:+ Itoa n /\ 0 <= n < 16.
Proof. unfold CounterKey, draw. pose proof (Intn_range 16 (rand d) ltac:(lia)). destruct (Intn _ _) as [x r]. by exists x. Qed.
Lemma Value_text size (d : defaultRand) : String.length (Value size d).1 = size.
Proof.
  revert d; induction size as [|size IH]; intros d; cbn [Value]; [done|]. unfold draw. pose proof (Intn_range 36 (rand d) ltac:(lia)) as Hx.
  destruct (Intn 36 (rand d)) as [x r]. cbn [fst] in Hx. specialize (IH (mkRand r (keySpan d))). destruct (Value size _) as [v d']. cbn [fst] in *.
  rw length_app_string length_stake length_sdrop IH. change (String.length charset) with 36%nat. lia.
Qed.
Lemma Key_span prefix (d : defaultRand (R := R)) : keySpan (Key prefix d).2 = keySpan d.
Proof. unfold Key, draw. by destruct (Intn _ _). Qed.
Lemma CounterKey_span prefix (d : defaultRand (R := R)) : keySpan (CounterKey prefix d).2 = keySpan d.
Proof. unfold CounterKey, draw. by destruct (Intn _ _). Qed.
Lemma Value_span size (d : defaultRand (R := R)) : keySpan (Value size d).2 = keySpan d.
Proof.
  revert d; induction size as [|size IH]; intros d; cbn [Value]; [done|]. unfold draw. destruct (Intn 36 (rand d)) as [x r]. specialize (IH (mkRand r (keySpan d))).
  by destruct (Value size _) as [v d'].
Qed.
Lemma Score_span (d : defaultRand (R := R)) : keySpan (Score d).2 = keySpan d.
Proof. unfold Score. by destruct (Float64 _). Qed.
End drawn.

(** ** Scores *)

Lemma FormatUint_small n k : (0 < k <= 20)%nat -> 0 <= n < 10 ^ Z.of_nat k -> slen (FormatUint n) <= Z.of_nat k.
Proof.
  unfold FormatUint. intros Hk Hn. assert (Hgen : forall f x acc j, (0 < j <= f)%nat -> 0 <= x < 10 ^ Z.of_nat j -> slen (dec_aux f x acc) <= Z.of_nat j + slen acc).
  { clear. induction f as [|f IH]; intros x acc j Hj Hx; [lia|]. cbn [dec_aux]. cbv zeta. destruct (Z.ltb_spec x 10); [rw slen_cons; lia|].
    destruct j as [|[|j]]; [lia|simpl in Hx; lia|]. etrans; [apply (IH _ _ (S j)); [lia|]|rw slen_cons; lia].
    split; [apply Z.div_pos; lia|]. apply Z.div_lt_upper_bound; [lia|]. replace (Z.of_nat (S (S j))) with (1 + Z.of_nat (S j)) in Hx by lia.
    rewrite -> Z.pow_add_r in Hx by lia. lia. }
  specialize (Hgen 20%nat n "" k Hk Hn). change (slen "") with 0 in Hgen. lia.
Qed.

Lemma formatF2_parses p x : (if 0 <=? x then Z.pos p * 2 ^ x < 10000 else Z.pos p < 10000 * 2 ^ (- x)) ->
  (exists f, ParseFloat (formatF2 (S754_finite false p x)) = Some f /\ finite64 f) /\ slen (formatF2 (S754_finite false p x)) <= 40.
Proof.
  intros Hv. cbn [formatF2]. destruct (ratio p x) as [num den] eqn:Hr.
  assert (Hnd : 0 < den /\ 0 <= num < 10000 * den).
  { unfold ratio in Hr. destruct (Z.leb_spec 0 x); injection Hr as <- <-; [pose proof (Z.pow_pos_nonneg 2 x); lia|].
    pose proof (Z.pow_pos_nonneg 2 (- x)). lia. }
  set (q := roundHalfEven (100 * num) den).
  assert (Hq : 0 <= q <= 1000000).
  { unfold q, roundHalfEven. pose proof (Z.div_pos (100 * num) den ltac:(lia) ltac:(lia)).
    assert (100 * num / den < 1000000) by (apply Z.div_lt_upper_bound; lia). repeat case_match; lia. }
  cbv zeta. assert (slen (FormatUint (q / 100)) <= 5).
  { apply (FormatUint_small _ 5); [lia|]. split; [apply Z.div_pos; lia|apply Z.div_lt_upper_bound; simpl; lia]. }
  assert (Hdig : forall d, 0 <= d <= 9 -> slen (FormatUint d) <= 1) by (intros d Hd; apply (FormatUint_small _ 1); simpl; lia).
  assert (0 <= q mod 100 / 10 <= 9).
  { pose proof (Z.mod_pos_bound q 100). split; [apply Z.div_pos; lia|]. assert (q mod 100 / 10 < 10); [apply Z.div_lt_upper_bound; lia|lia]. }
  pose proof (Z.mod_pos_bound q 10). pose proof (Hdig (q mod 100 / 10) ltac:(lia)). pose proof (Hdig (q mod 10) ltac:(lia)).
  split; [|rw !slen_app; change (slen "") with 0; change (slen ".") with 1; lia]. apply ParseFloat_decimal.
  - apply FormatUint_digits.
  - by rw sall_app !FormatUint_digits.
  - intros Hs. destruct (FormatUint_nonempty (q / 100)) as (c & s & Hc). by rw Hc in Hs.
  - rw slen_app. pose proof (slen_nonneg (FormatUint (q mod 10))).
    destruct (FormatUint_nonempty (q mod 100 / 10)) as (c & s & ->). rw slen_cons. pose proof (slen_nonneg s). lia.
  - rw slen_app. lia.
Qed.

Lemma Score_parses {R : Type} `{RandOk R} (d : defaultRand (R := R)) :
  (exists f, ParseFloat (Score d).1 = Some f /\ finite64 f) /\ slen (Score d).1 <= 40.
Proof.
  unfold Score. pose proof (Float64_range (rand d)) as Hf. destruct (Float64 (rand d)) as [f r]. cbn [fst] in *.
  destruct f as [neg| | |neg m e]; try done.
  { assert (Hz : forall b, (exists f, ParseFloat (formatF2 (S754_zero b)) = Some f /\ finite64 f) /\ slen (formatF2 (S754_zero b)) <= 40).
    { intros []; (split; [vm_compute; by eexists|vm_compute; discriminate]). }
    change (floatOfUint 1000) with (S754_finite false 8796093022208000 (-43)). cbn [SFmul]. apply Hz. }
  destruct Hf as (-> & He & Hm). change (floatOfUint 1000) with (S754_finite false 8796093022208000 (-43)).
  assert (Hpow : 2 ^ (- e + 53) = 2 ^ (- e) * 2 ^ 53) by (apply Z.pow_add_r; lia).
  destruct (round64_double (Z.pos (m * 8796093022208000)) (e + -43) (- e + 53)) as (p & x & Hx & Hxe & Hp); [lia|lia|lia|lia|].
  change (SFmul 53 1024 (S754_finite false m e) (S754_finite false 8796093022208000 (-43))) with (round64 (Z.pos (m * 8796093022208000)) (e + -43) loc_Exact).
  rw Hx. apply formatF2_parses. assert (Hx2 : Z.pos p * 2 ^ (x - (e + -43)) < 2000 * (2 ^ (- e) * 2 ^ 43)) by lia. clear Hp Hpow.
  destruct (Z.leb_spec 0 x) as [Hx0|Hx0].
  - replace (x - (e + -43)) with (x + (- e + 43)) in Hx2 by lia. rewrite -> Z.pow_add_r, (Z.pow_add_r 2 (- e) 43) in Hx2 by lia.
    pose proof (Z.pow_pos_nonneg 2 x). pose proof (Z.pow_pos_nonneg 2 (- e)). nia.
  - assert (2 ^ (- e) * 2 ^ 43 = 2 ^ (x - (e + -43)) * 2 ^ (- x)) as Heq by (rewrite <- !Z.pow_add_r by lia; f_equal; lia). rw Heq in Hx2.
    pose proof (Z.pow_pos_nonneg 2 (- x)). pose proof (Z.pow_pos_nonneg 2 (x - (e + -43))). nia.
Qed.

(** ** What the operations do *)

(** The values under the keys of the profiles, after at most [n] operations. *)
Inductive wl_value (n : Z) : string -> aval -> Prop :=
| wl_string x s : slen s = 64 -> wl_value n ("k:" +:+ x) (AStr s)
| wl_counter x i : 0 <= i <= n -> wl_value n ("c:" +:+ x) (AStr (FormatInt i))
| wl_list x l : Z.of_nat (length l) <= n -> Forall (fun s => slen s = 32) l -> wl_value n ("q:" +:+ x) (AList l)
| wl_zset l : Z.of_nat (length l) <= n -> Forall (fun p => slen p.2 <= 40) l -> wl_value n "leaderboard" (AZSet l).
Definition wl_ok (n : Z) (kv : KV) : Prop := forall k x, kv !! k = Some x -> x.2 = 0 /\ wl_value n k x.1.

Lemma wl_value_mono n m k v : wl_value n k v -> n <= m -> wl_value m k v.
Proof. intros Hv Hle. destruct Hv; constructor; (done || lia). Qed.
Lemma wl_ok_mono n m kv : wl_ok n kv -> n <= m -> wl_ok m kv.
Proof. intros Hk Hle k x Hx. destruct (Hk k x Hx) as [He Hv]. split; [done|by eapply wl_value_mono]. Qed.
Lemma wl_ok_subset n kv kv1 : wl_ok n kv -> kv1 ⊆ kv -> wl_ok n kv1.
Proof. intros Hk Hs k x Hx. apply Hk. by eapply lookup_weaken. Qed.
Lemma wl_ok_permanent n kv : wl_ok n kv -> permanent kv.
Proof. intros Hk k x Hx. by apply Hk in Hx as [? _]. Qed.
Lemma wl_ok_insert n kv k v : wl_ok n kv -> wl_value n k v -> wl_ok n (<[k := (v, 0)]> kv).
Proof. intros Hk Hv k' x. destruct (decide (k = k')) as [<-|Hne]; [rw lookup_insert_eq; by intros [= <-]|rw lookup_insert_ne //; apply Hk]. Qed.
Lemma wl_ok_delete n kv k : wl_ok n kv -> wl_ok n (delete k kv).
Proof. intros Hk. eapply wl_ok_subset; [done|apply delete_subseteq]. Qed.

(** The operations of the profiles. *)
Inductive wl_op : list string -> Prop :=
| op_set x v : slen x <= 40 -> slen v = 64 -> wl_op ["SET"; "k:" +:+ x; v]
| op_get x : slen x <= 40 -> wl_op ["GET"; "k:" +:+ x]
| op_incr x : slen x <= 40 -> wl_op ["INCR"; "c:" +:+ x]
| op_push x v : slen x <= 40 -> slen v = 32 -> wl_op ["RPUSH"; "q:" +:+ x; v]
| op_pop x : slen x <= 40 -> wl_op ["LPOP"; "q:" +:+ x]
| op_len x : slen x <= 40 -> wl_op ["LLEN"; "q:" +:+ x]
| op_zadd s m f : ParseFloat s = Some f -> finite64 f -> slen s <= 40 -> slen m <= 40 -> wl_op ["ZADD"; "leaderboard"; s; m]
| op_zrange : wl_op ["ZRANGE"; "leaderboard"; "0"; "9"]
| op_zcard : wl_op ["ZCARD"; "leaderboard"].

Lemma zadd_one p l : Forall (fun p => slen p.2 <= 40) l -> slen p.2 <= 40 ->
  Forall (fun p => slen p.2 <= 40) (zadd p l).1 /\ Z.of_nat (length (zadd p l).1) <= Z.of_nat (length l) + 1.
Proof.
  intros Hl Hp. unfold zadd. destruct (zmap l !! p.2) as [old|]; [destruct (feqb old p.1)|]; cbn [fst]; [split; [done|lia]|..].
  - rw (zinsert_perm p). split.
    + constructor; [done|]. rewrite -> Forall_forall in Hl |- *. intros x [_ Hx]%list_elem_of_filter. by apply Hl.
    + unfold zdrop. cbn [length]. pose proof (length_filter (fun x : float64 * string => x.2 <> p.2) l). lia.
  - rw (zinsert_perm p). split; [by constructor|]. cbn [length]. lia.
Qed.

Section steps.
Context `{Env} (n : Z) (kv : KV) (t : nat) (Hk : wl_ok n kv) (Hn : 0 <= n < 2 ^ 40).

(** A value, not an error, and the values stay in order. *)
Definition wl_good (o : Out) : Prop := valueFrame o.1.1 /\ wl_ok (n + 1) o.1.2.

Lemma wl_live k now : klive now k kv = kv !! k.
Proof. eapply permanent_live, wl_ok_permanent, Hk. Qed.
Lemma wl_drop k now : kdrop now k kv = kv.
Proof. eapply permanent_drop, wl_ok_permanent, Hk. Qed.
Lemma wl_next : wl_ok (n + 1) kv.
Proof. eapply wl_ok_mono; [exact Hk|lia]. Qed.
Lemma wl_found k v x : kv !! k = Some (v, x) -> x = 0 /\ wl_value n k v.
Proof. intros Hx. by apply (Hk k (v, x)). Qed.
Lemma wl_int i : 0 <= i <= 2 ^ 40 -> valueFrame (Integer i).
Proof. unfold valueFrame, int64_range, minInt64, maxInt64. lia. Qed.
(** A read of a key: [none] and [f] give values. *)
Lemma wl_read k none f : valueFrame none -> (forall v, wl_value n k v -> valueFrame (f v)) -> wl_good (spec_read k none f kv t).
Proof.
  intros Hnone Hf. unfold spec_read. cbv zeta. rw wl_live wl_drop. split; [|apply wl_next]. cbn [fst].
  destruct (kv !! k) as [[v e]|] eqn:Hl; [|done]. apply wl_found in Hl as [_ Hv]. by apply Hf.
Qed.

Lemma wl_set x v : slen v = 64 -> wl_good (spec_set ["k:" +:+ x; v] kv t).
Proof.
  intros Hv. cbn [spec_set]. change (parseSetOptions [] t) with ((inl (mkSetOptions 0 setAlways), t) : (setOptions + Frame) * nat).
  cbn [kset condition expiresAtNs]. rw wl_drop. split; [done|]. apply wl_ok_insert; [apply wl_next|by constructor].
Qed.
Lemma wl_get x : wl_good (spec_get ["k:" +:+ x] kv t).
Proof. apply wl_read; [done|]. intros v Hv. inversion Hv; subst; cbn [valueFrame BulkBytes]; unfold maxAlloc; try lia; discriminate. Qed.
Lemma wl_incr x : wl_good (spec_incr ["c:" +:+ x] kv t).
Proof.
  unfold spec_incr, kincr. cbv zeta. rw wl_live wl_drop.
  assert (Hadd : forall i, 0 <= i <= n -> ((maxInt64 <? i + 1) || (i + 1 <? minInt64)) = false) by (intros; unfold maxInt64, minInt64; lia).
  destruct (kv !! ("c:" +:+ x)) as [[v e]|] eqn:Hl.
  - apply wl_found in Hl as [-> Hv]. inversion Hv as [|y i Hi Hy Hi'| |]; subst; try discriminate.
    rw (proj2 (parseInt64_spec (FormatInt i) i)); [split; [unfold int64_range, minInt64, maxInt64; lia|done]|]. rw (Hadd i Hi).
    split; [apply wl_int; lia|]. apply wl_ok_insert; [apply wl_next|constructor; lia].
  - rw (Hadd 0 ltac:(lia)). split; [done|]. apply wl_ok_insert; [apply wl_next|constructor; lia].
Qed.
Lemma wl_push x v : slen v = 32 -> wl_good (spec_push "rpush" false ["q:" +:+ x; v] kv t).
Proof.
  intros Hv. unfold spec_push, kpush. cbv zeta. rw wl_live wl_drop. destruct (kv !! ("q:" +:+ x)) as [[w e]|] eqn:Hl.
  - apply wl_found in Hl as [-> Hw]. inversion Hw as [| |y l Hlen Hall|]; subst; try discriminate. split; cbn [fst snd pushReply]; rw ?length_app; cbn [length].
    + apply wl_int. lia.
    + apply wl_ok_insert; [apply wl_next|constructor]; [rw length_app; simpl; lia|]. apply Forall_app_2; [done|by apply Forall_singleton].
  - split; [done|]. apply wl_ok_insert; [apply wl_next|constructor; [simpl; lia|by apply Forall_singleton]].
Qed.
Lemma wl_pop x : wl_good (spec_pop "lpop" true ["q:" +:+ x] kv t).
Proof.
  unfold spec_pop, kpop. cbv zeta. rw wl_live wl_drop. destruct (kv !! ("q:" +:+ x)) as [[w e]|] eqn:Hl; [|split; [done|apply wl_next]].
  apply wl_found in Hl as [-> Hw]. inversion Hw as [| |y l Hlen Hall|]; subst; try discriminate. cbn [unpush].
  destruct l as [|v l]; [split; [done|apply wl_next]|]. apply Forall_cons in Hall as [Hv Hall]. destruct l as [|v' l]; (split; [cbn; unfold maxAlloc; lia|]).
  - apply wl_ok_delete, wl_next.
  - apply wl_ok_insert; [apply wl_next|]. constructor; [cbn [length] in *; lia|done].
Qed.
Lemma wl_llen x : wl_good (spec_llen ["q:" +:+ x] kv t).
Proof. apply wl_read; [done|]. intros v Hv. inversion Hv; subst; try discriminate. apply wl_int. lia. Qed.
Lemma wl_zadd s m f : ParseFloat s = Some f -> finite64 f -> slen m <= 40 -> wl_good (spec_zadd ["leaderboard"; s; m] kv t).
Proof.
  intros Hs Hf Hm. assert (Hp : parseZAddPairs [s; m] = inl [(f, m)]).
  { unfold parseZAddPairs. change ((Z.of_nat (length [s; m]) <? 2) || negb (Z.of_nat (length [s; m]) mod 2 =? 0)) with false. cbv iota.
    cbn [parseZAddPairs_loop]. rw Hs. by destruct f. }
  assert (spec_zadd ["leaderboard"; s; m] kv t = (let '(r, kv) := kzadd (clock t) "leaderboard" [(f, m)] kv in (pushReply r, kv, S (S t)))) as ->.
  { unfold spec_zadd. change (((Z.of_nat (length ["leaderboard"; s; m]) <? 3) || negb (Z.of_nat (length [s; m]) mod 2 =? 0))) with false. cbv iota. by rw Hp. }
  unfold kzadd. cbv zeta. rw wl_live wl_drop.
  assert (Hput : forall l, Z.of_nat (length l) <= n -> Forall (fun p => slen p.2 <= 40) l ->
    exists l' b, zaddAll [(f, m)] l 0 = (l', 0 + Z.b2z b) /\ wl_value (n + 1) "leaderboard" (AZSet l')).
  { intros l Hl Hall. cbn [zaddAll]. destruct (zadd_one (f, m) l Hall Hm) as [H1 H2]. destruct (zadd (f, m) l) as [l' b]. exists l', b.
    split; [done|]. constructor; [cbn [fst] in H2; lia|done]. }
  assert (Hb : forall b : bool, valueFrame (Integer (0 + Z.b2z b))) by (intros []; by apply wl_int).
  destruct (kv !! "leaderboard") as [[w e]|] eqn:Hl.
  - apply wl_found in Hl as [-> Hw]. inversion Hw as [| | |l Hlen Hall]; subst; try discriminate.
    destruct (Hput l Hlen Hall) as (l' & b & -> & Hl'). split; [apply Hb|apply wl_ok_insert; [apply wl_next|done]].
  - destruct (Hput [] ltac:(simpl; lia) ltac:(constructor)) as (l' & b & -> & Hl'). split; [apply Hb|apply wl_ok_insert; [apply wl_next|done]].
Qed.
Lemma wl_range l : Forall (fun p => slen p.2 <= 40) l -> valueFrame (zrangeReply false (zrange 0 9 l)).
Proof.
  intros Hall. unfold zrangeReply. assert (Hl' : Forall (fun p => slen p.2 <= 40) (zrange 0 9 l) /\ (length (zrange 0 9 l) <= 10)%nat).
  { unfold zrange. cbv zeta. change (0 <? 0) with false. change (9 <? 0) with false. cbv iota. destruct (_ <? _); [split; [constructor|simpl; lia]|].
    split; [by apply Forall_take, Forall_drop|]. rw length_take. lia. }
  destruct Hl' as [Hall' Hlen']. cbn [valueFrame].
  assert (mjoin ((fun p : float64 * string => [BulkFromString p.2]) <$> zrange 0 9 l) = (fun p => BulkFromString p.2) <$> zrange 0 9 l) as ->.
  { clear. induction (zrange 0 9 l) as [|p l' IH]; [done|]. cbn. by rw -IH. }
  split; [done|]. rw length_fmap. split; [unfold maxAlloc; lia|]. clear -Hall'. induction Hall' as [|p l' Hp Hall IH]; [done|]. cbn. split; [unfold maxAlloc; lia|exact IH].
Qed.
Lemma wl_zrange : wl_good (spec_zrange ["leaderboard"; "0"; "9"] kv t).
Proof.
  change (spec_zrange ["leaderboard"; "0"; "9"] kv t) with
    (spec_read "leaderboard" (Array [] false) (fun v => match v with AZSet l => zrangeReply false (zrange 0 9 l) | _ => wrongTypeError end) kv t).
  apply wl_read; [done|]. intros v Hv. inversion Hv; subst; try discriminate. by apply wl_range.
Qed.
Lemma wl_zcard : wl_good (spec_zcard ["leaderboard"] kv t).
Proof. apply wl_read; [done|]. intros v Hv. inversion Hv; subst; try discriminate. apply wl_int. lia. Qed.

Lemma wl_step args : wl_op args -> wl_good (spec_execute (requestCommand args) kv t).
Proof.
  intros Hop. destruct Hop; [by apply wl_set|apply wl_get|apply wl_incr|by apply wl_push|apply wl_pop|apply wl_llen|by eapply wl_zadd|apply wl_zrange|apply wl_zcard].
Qed.
End steps.

(** ** The operations the profiles build *)

Section build.
Context {R : Type} `{RandOk R}.

Lemma Key_op prefix (d : defaultRand (R := R)) : 0 < keySpan d ->
  exists x d', Key prefix d = (prefix +:+ ":" +:+ x, d') /\ slen x <= 21 /\ keySpan d' = keySpan d.
Proof.
  intros Hd. pose proof (Key_span prefix d) as Hs. destruct (Key_text prefix d Hd) as (n & Hk & _). destruct (Key prefix d) as [k d']. cbn [fst snd] in *. subst k.
  exists (Itoa n), d'. split; [done|]. split; [apply FormatInt_line|done].
Qed.
Lemma CounterKey_op prefix (d : defaultRand (R := R)) :
  exists x d', CounterKey prefix d = (prefix +:+ ":" +:+ x, d') /\ slen x <= 21 /\ keySpan d' = keySpan d.
Proof.
  pose proof (CounterKey_span prefix d) as Hs. destruct (CounterKey_text prefix d) as (n & Hk & _). destruct (CounterKey prefix d) as [k d']. cbn [fst snd] in *. subst k.
  exists (Itoa n), d'. split; [done|]. split; [apply FormatInt_line|done].
Qed.
Lemma Value_op size (d : defaultRand (R := R)) : exists v d', Value size d = (v, d') /\ slen v = Z.of_nat size /\ keySpan d' = keySpan d.
Proof.
  pose proof (Value_span size d) as Hs. pose proof (Value_text size d) as Hv. destruct (Value size d) as [v d']. exists v, d'. split; [done|].
  cbn [fst snd] in *. unfold slen. by rw Hv.
Qed.

(** An operation builds a request of [wl_op]. *)
Definition builds (op : Operation (R := R)) : Prop :=
  0 < Weight op /\ forall d, 0 < keySpan d -> exists args d', Build op d = (args, d') /\ wl_op args /\ 0 < keySpan d'.

Lemma build_keyed w (f : string -> list string) prefix :
  0 < w -> (forall x, slen x <= 21 -> wl_op (f (prefix +:+ ":" +:+ x))) -> builds (mkOperation w (fun r => let '(k, r) := Key prefix r in (f k, r))).
Proof.
  intros Hw Hf. split; [done|]. intros d Hd. destruct (Key_op prefix d Hd) as (x & d' & Hx & Hl & Hs). cbn [Build]. rw Hx.
  eexists _, _. split; [done|]. split; [by apply Hf|lia].
Qed.
Lemma build_valued w (f : string -> string -> list string) prefix size :
  0 < w -> (forall x v, slen x <= 21 -> slen v = Z.of_nat size -> wl_op (f (prefix +:+ ":" +:+ x) v)) ->
  builds (mkOperation w (fun r => let '(k, r) := Key prefix r in let '(v, r) := Value size r in (f k v, r))).
Proof.
  intros Hw Hf. split; [done|]. intros d Hd. destruct (Key_op prefix d Hd) as (x & d' & Hx & Hl & Hs). cbn [Build]. rw Hx.
  destruct (Value_op size d') as (v & d2 & -> & Hv & Hs2). eexists _, _. split; [done|]. split; [by apply Hf|lia].
Qed.
Lemma strings_build : Forall builds (Operations StringProfile).
Proof.
  repeat apply Forall_cons_2; [..|apply Forall_nil_2].
  - apply (build_valued 60 (fun k v => ["SET"; k; v])); [done|]. intros x v Hx Hv. apply (op_set x v); lia.
  - apply (build_keyed 35 (fun k => ["GET"; k])); [done|]. intros x Hx. apply (op_get x). lia.
  - split; [done|]. intros d Hd. destruct (CounterKey_op "c" d) as (x & d' & Hx & Hl & Hs). cbn [Build]. rw Hx.
    eexists _, _. split; [done|]. split; [apply (op_incr x); lia|lia].
Qed.
Lemma lists_build : Forall builds (Operations ListProfile).
Proof.
  repeat apply Forall_cons_2; [..|apply Forall_nil_2].
  - apply (build_valued 50 (fun k v => ["RPUSH"; k; v])); [done|]. intros x v Hx Hv. apply (op_push x v); lia.
  - apply (build_keyed 30 (fun k => ["LPOP"; k])); [done|]. intros x Hx. apply (op_pop x). lia.
  - apply (build_keyed 20 (fun k => ["LLEN"; k])); [done|]. intros x Hx. apply (op_len x). lia.
Qed.
Lemma zset_build : Forall builds (Operations ZSetProfile).
Proof.
  repeat apply Forall_cons_2; [..|apply Forall_nil_2].
  - split; [done|]. intros d Hd. cbn [Build]. destruct (Score_parses d) as [(f & Hf & Hfin) Hl]. pose proof (Score_span d) as Hsp.
    destruct (Score d) as [s d1]. cbn [fst snd] in *. destruct (Key_op "user" d1) as (x & d2 & -> & Hx & Hs2); [lia|].
    eexists _, _. split; [done|]. split; [|lia]. eapply op_zadd; [done|done|done|]. rw !slen_app. change (slen "user") with 4. change (slen ":") with 1. lia.
  - split; [done|]. intros d Hd. eexists _, _. split; [done|]. split; [constructor|done].
  - split; [done|]. intros d Hd. eexists _, _. split; [done|]. split; [constructor|done].
Qed.
Lemma profile_builds name profile : ProfileByName name = Some profile -> Operations profile <> [] /\ Forall builds (Operations profile).
Proof.
  pose proof strings_build. pose proof lists_build. pose proof zset_build.
  unfold ProfileByName. repeat (destruct (String.eqb _ _); [intros [= <-]; split; [done|]; try done|]); [|done]. by repeat apply Forall_app_2.
Qed.

Lemma selectOp_in pick cur ops (op : Operation (R := R)) : op ∈ ops -> selectOp pick cur ops op ∈ ops.
Proof.
  intros Hop. assert (Hgen : forall ops', ops' ⊆ ops -> forall cur, selectOp pick cur ops' op ∈ ops); [|by apply Hgen].
  induction ops' as [|o ops' IH]; intros Hsub c; cbn [selectOp]; [done|]. destruct (_ <? _); [apply Hsub, list_elem_of_here|]. apply IH. set_solver.
Qed.
Lemma totalWeight_pos ops : ops <> [] -> Forall builds ops -> 0 < totalWeight ops.
Proof.
  intros Hne Hall. assert (0 <= totalWeight ops /\ (ops <> [] -> 0 < totalWeight ops)) as [_ Ht]; [|by apply Ht]. clear Hne.
  induction Hall as [|o ops [Hw _] Hall [IH _]]; cbn [totalWeight foldr]; [done|]. fold (totalWeight ops). lia.
Qed.
Lemma pickOperation_ok ops (d : defaultRand (R := R)) : ops <> [] -> Forall builds ops -> 0 < keySpan d ->
  exists op d', pickOperation ops d = Some (op, d') /\ builds op /\ 0 < keySpan d'.
Proof.
  intros Hne Hall Hd. pose proof (totalWeight_pos ops Hne Hall) as Ht. unfold pickOperation, pickInt. rewrite -> (proj2 (Z.eqb_neq _ 0)) by lia.
  destruct (Value_op 4 d) as (v & d' & -> & _ & Hs). destruct (last ops) as [lastOp|] eqn:Hlast; [|by apply last_None in Hlast].
  cbn [mbind option_bind]. eexists _, _. split; [done|]. split; [|lia].
  rewrite -> Forall_forall in Hall. apply Hall, selectOp_in. by apply last_Some_elem_of.
Qed.
End build.

(** ** A run against a node *)

Definition oomReply : Reply + ReplyErr := inr (ErrorReply "OOM command not allowed when used memory would exceed maxmemory").

Lemma wl_fits args : wl_op args -> request_fits args /\ cmd_fits (requestCommand args).
Proof.
  assert (Hgen : forall name rest, name <> "" -> slen name <= 40 -> (length rest <= 3)%nat -> Forall (fun a => slen a <= 100) rest ->
    request_fits (name :: rest) /\ cmd_fits (requestCommand (name :: rest))).
  { intros name rest Hn Hl Hlen Hall. assert (Hsum : 0 <= args_len rest <= 1000 * Z.of_nat (length rest)).
    { clear -Hall. induction Hall as [|a rest Ha Hall IH]; cbn [args_len foldr length]; [lia|]. fold (args_len rest). pose proof (slen_nonneg a). lia. }
    unfold request_fits, cmd_fits, NewParser. cbn [maxArrayLen maxBulkLen maxCommandLen length requestCommand Args args_len foldr]. fold (args_len rest).
    split_and!; [done|lia|constructor; [lia|]|lia|lia]. eapply Forall_impl; [exact Hall|]. cbn. lia. }
  assert (slen "leaderboard" = 11) by done. intros Hop.
  destruct Hop; apply Hgen; repeat constructor; rw ?slen_app; try done; try (vm_compute; discriminate); try lia;
    unfold slen at 1; cbn [String.length]; lia.
Qed.

Section turns.
Context `{Env, SliceSortOk} {W : Type} (cfg : Config W) (Hlim : 0 < limit cfg < maxUint64) (Hhook : writeHook cfg = None).
#[local] Instance theNode : CommandExecutor (Eng W) := engineExecutor cfg.

(** The node after at most [n] operations of the profiles. *)
Definition wl_node (n : Z) (w : Eng W) : Prop := exists kv, store_kv (sysStore (engSys w)) kv /\ within cfg kv /\ wl_ok n kv.

Lemma Do_ok n w args : wl_op args -> wl_node n w -> 0 <= n < 2 ^ 40 ->
  exists r w', Do args w = Some (r, w') /\ wl_node (n + 1) w' /\ (succeeded r = true \/ r = oomReply).
Proof.
  intros Hop (kv & Hs & Hin & Hk) Hn. destruct (wl_fits args Hop) as [Hreq Hfit]. unfold Do. change (write args) with (writeRequest args).
  rw serve_one //. destruct (EngineExecute_runs cfg (requestCommand args) w kv Hlim Hs Hin Hfit) as (f & w' & Hx & kv' & Hs' & Hin' & kv1 & Hsub & _ & Hans).
  change (executeCommand (requestCommand args) w) with (EngineExecute cfg (requestCommand args) w). rw Hx. cbn [mbind option_bind].
  assert (Hk1 : wl_ok n kv1) by (by eapply wl_ok_subset). rw -(app_string_nil_r (WriteFrame f)).
  destruct Hans as [[Href ->]|[t Ht]].
  - destruct Href as [->|[Hno _]]; [|by rw Hhook in Hno]. unfold oomFrame, NewError. rw read_error. eexists _, _. split; [done|].
    split; [|by right]. exists kv1. split; [done|]. split; [done|]. eapply wl_ok_mono; [done|lia].
  - destruct (wl_step n kv1 t Hk1 Hn args Hop) as [Hv Hk']. rw -Ht in Hv Hk'. cbn [fst snd] in *. rw read_value //. eexists _, _. split; [done|].
    split; [by exists kv'|by left].
Qed.

Context {R : Type} `{RandOk R} (ops : list (Operation (R := R))) (Hne : ops <> []) (Hops : Forall builds ops).

Lemma workerStep_ok n i (st : RunState) : wl_node n (node st) -> 0 <= n < 2 ^ 40 -> Forall (fun d => 0 < keySpan d) (sources st) ->
  exists st', workerStep ops i st = Some st' /\ wl_node (n + 1) (node st') /\ length (sources st') = length (sources st) /\
    Forall (fun d => 0 < keySpan d) (sources st') /\
    exists rs, outcomes st' = outcomes st ++ rs /\ Forall (fun r => succeeded r = true \/ r = oomReply) rs /\
      length rs = if (i <? length (sources st))%nat then 1%nat else 0%nat.
Proof.
  intros Hw Hn Hall. unfold workerStep. destruct (sources st !! i) as [d|] eqn:Hd.
  - assert (Hspan : 0 < keySpan d) by (by eapply Forall_lookup_1 in Hall).
    destruct (pickOperation_ok ops d Hne Hops Hspan) as (op & d1 & -> & [_ Hb] & Hd1). destruct (Hb d1 Hd1) as (args & d2 & -> & Hop & Hd2).
    destruct (Do_ok n (node st) args Hop Hw Hn) as (r & w' & -> & Hw' & Hr). cbn [mbind option_bind]. eexists _. split; [done|]. cbn [node sources outcomes].
    split; [done|]. split; [apply length_insert|]. split; [by apply Forall_insert|]. exists [r]. split; [done|]. split; [by apply Forall_singleton|].
    apply lookup_lt_Some in Hd. by rw (proj2 (Nat.ltb_lt _ _) Hd).
  - eexists. split; [done|]. destruct Hw as (kv & Hs & Hin & Hk). split; [exists kv; split_and!; [done..|eapply wl_ok_mono; [done|lia]]|]. split; [done|].
    split; [done|]. exists []. split; [by rw app_nil_r|]. split; [constructor|]. apply lookup_ge_None in Hd. by rw (proj2 (Nat.ltb_ge _ _) Hd).
Qed.

Lemma workers_ok schedule : forall n (st : RunState), wl_node n (node st) -> 0 <= n -> n + Z.of_nat (length schedule) <= 2 ^ 40 ->
  Forall (fun d => 0 < keySpan d) (sources st) ->
  exists st' rs, workers ops schedule st = Some st' /\ wl_node (n + Z.of_nat (length schedule)) (node st') /\ outcomes st' = outcomes st ++ rs /\
    Forall (fun r => succeeded r = true \/ r = oomReply) rs /\ Z.of_nat (length rs) = countIf (fun i => (i <? length (sources st))%nat) schedule.
Proof.
  induction schedule as [|i schedule IH]; intros n st Hw Hn Hlen Hall; cbn [workers length] in *.
  { exists st, []. split; [done|]. split; [by rw Z.add_0_r|]. by rw app_nil_r. }
  destruct (workerStep_ok n i st Hw ltac:(lia) Hall) as (st1 & -> & Hw1 & Hl1 & Hall1 & rs1 & Ho1 & Hr1 & Hc1). cbn [mbind option_bind].
  destruct (IH (n + 1) st1 Hw1 ltac:(lia) ltac:(lia) Hall1) as (st2 & rs2 & Hx & Hw2 & Ho2 & Hr2 & Hc2). exists st2, (rs1 ++ rs2). split; [done|].
  split; [by replace (n + Z.of_nat (S (length schedule))) with (n + 1 + Z.of_nat (length schedule)) by lia|].
  split; [by rw Ho2 Ho1 app_assoc|]. split; [by apply Forall_app_2|]. rw length_app. rw Hl1 in Hc2. unfold countIf in *. cbn [List.filter].
  destruct (i <? _)%nat; cbn [length]; lia.
Qed.
End turns.

Lemma countIf_split {A} (p : A -> bool) l : countIf p l + countIf (fun x => negb (p x)) l = Z.of_nat (length l).
Proof. unfold countIf. induction l as [|x l IH]; [done|]. cbn [List.filter]. destruct (p x); cbn [negb length]; lia. Qed.
Lemma countIf_le {A} (p : A -> bool) l : 0 <= countIf p l <= Z.of_nat (length l).
Proof. pose proof (countIf_split p l). unfold countIf in *. lia. Qed.

(** C36: A run of any profile, with any random numbers, any number
    of workers and any interleaving of their turns, against a node that starts empty with a
    memory limit: neither side panics, the client reads a reply to every
    operation, and each is a value or the out-of-memory error.  The result
    counts every turn of a connected worker and every failed connection. *)
Theorem workload_only_oom `{Env, SliceSortOk, RandOk} {W} (cfg : Config W) (stripeCount : Z) (hook : W)
    name profile concurrency span dials (seed : nat -> R) schedule latency dur :
  0 < limit cfg < maxUint64 -> stripeCount < 4294967296 -> writeHook cfg = None -> ProfileByName name = Some profile ->
  Z.of_nat (length schedule) <= 2 ^ 40 -> 0 < concurrency <= maxInt64 ->
  let ids := seq 0 (Z.to_nat concurrency) in
  exists res st,
    Run (H0 := engineExecutor cfg) profile concurrency span dials seed schedule latency dur (mkEng (mkSys (NewStore stripeCount) 0) hook []) = Some (res, st) /\
    Forall (fun r => succeeded r = true \/ r = oomReply) (outcomes st) /\
    TotalOps res = countIf succeeded (outcomes st) /\
    TotalOps res + Errors res = countIf (fun i => (i <? length (List.filter dials ids))%nat) schedule + countIf (fun i => negb (dials i)) ids /\
    0 <= usedBytes (sysStore (engSys (node st))) <= limit cfg.
Proof.
  intros Hlim Hn Hhook Hp Hlen Hc ids. destruct (profile_builds name profile Hp) as [Hne Hops]. unfold Run. cbv zeta.
  rewrite -> (proj2 (Z.leb_gt concurrency 0)) by lia. fold ids. set (sources0 := map _ _). set (w0 := mkEng _ _ _).
  assert (Hw0 : wl_node cfg 0 w0).
  { exists ∅. split; [by apply NewStore_spec|]. split; [|by intros k x Hx; rw lookup_empty in Hx].
    split; [by intros k x Hk; rw lookup_empty in Hk|]. unfold ktotal. rw msum_empty. lia. }
  assert (Hs0 : Forall (fun d => 0 < keySpan d) sources0).
  { unfold sources0. apply Forall_map, Forall_true. intros i. cbn. repeat case_match; lia. }
  destruct (workers_ok cfg Hlim Hhook (Operations profile) Hne Hops schedule 0 (mkRun sources0 w0 []) Hw0 ltac:(lia) ltac:(lia) Hs0)
    as (st & rs & Hx & Hw & Ho & Hr & Hcount). unfold theNode in Hx. rw Hx. cbn [mbind option_bind]. cbn [outcomes sources app] in *. subst rs.
  eexists _, st. split; [done|]. cbn [TotalOps Errors]. split; [done|].
  assert (Hsrc : length sources0 = length (List.filter dials ids)) by (unfold sources0; apply length_map). rw Hsrc in Hcount.
  pose proof (countIf_split succeeded (outcomes st)) as Hsplit. pose proof (countIf_le succeeded (outcomes st)). pose proof (countIf_le (fun i => (i <? length (List.filter dials ids))%nat) schedule).
  pose proof (countIf_le (fun r => negb (succeeded r)) (outcomes st)). pose proof (countIf_le (fun i => negb (dials i)) ids) as Hd.
  assert (Z.of_nat (length ids) <= maxInt64) by (unfold ids; rw length_seq; lia). unfold maxInt64 in *.
  rewrite -> !u64_small by lia. split; [done|]. split; [lia|].
  apply (node_inv_used cfg); [done|]. destruct Hw as (kv & Hs & Hin & _). by exists kv.
Qed.

(** A generator that counts. *)
#[local] Instance countingRand : Rand Z := {
  Intn n r := (r mod n, r + 1);
  Float64 r := (S754_finite false 1 (-1), r + 1)
}.
#[local] Instance countingRandOk : RandOk Z.
Proof. split; [intros n r Hn; by apply Z.mod_pos_bound|by intros r]. Qed.

Lemma workload_only_oom_witness :
  let ids := seq 0 3 in
  exists res st,
    Run (H0 := engineExecutor (H := steadyEnv) (mkConfig (W := unit) 1000 LRU None false)) MixedProfile 3 20 (fun i => negb (i =? 1)%nat) Z.of_nat
      [0; 1; 0; 2; 1]%nat (fun _ => 1000) 5000 (mkEng (mkSys (NewStore 4) 0) tt []) = Some (res, st) /\
    Forall (fun r => succeeded r = true \/ r = oomReply) (outcomes st) /\
    TotalOps res = countIf succeeded (outcomes st) /\
    TotalOps res + Errors res = countIf (fun i => (i <? length (List.filter (fun i => negb (i =? 1)%nat) ids))%nat) [0; 1; 0; 2; 1]%nat + countIf (fun i => negb (negb (i =? 1)%nat)) ids /\
    0 <= usedBytes (sysStore (engSys (node st))) <= 1000.
Proof.
  apply (workload_only_oom (H := steadyEnv) (mkConfig (W := unit) 1000 LRU None false) 4 tt "mixed" MixedProfile 3 20 (fun i => negb (i =? 1)%nat) Z.of_nat [0; 1; 0; 2; 1]%nat (fun _ => 1000) 5000);
    [by split|done|done|done|simpl; lia|unfold maxInt64; lia].
Defined.
