(* ===== verification/HookSpec.v ===== *)
(** * What a synchronous write hook knows

    The engine calls a synchronous hook before each change it makes: before a
    write, and before the deletion of each evicted key.  If the hook keeps a
    relation between the engine's data and its own state - one that holds
    before the write when the hook fails and after it when the hook succeeds -
    then the engine keeps it through every command.  The replicator is such a
    hook. *)
From S2P Require Import Prelude GoText GoFloat GoFloatText Resp ListValue SkipList ZSetValue Eviction Store StoreSpec Executor ExecutorSpec Engine EngineSpec Locality.
Local Open Scope Z_scope.

(** A store represents one map. *)
Lemma store_kv_fun s kv1 kv2 : store_kv s kv1 -> store_kv s kv2 -> kv1 = kv2.
Proof.
  intros (g1 & H1 & <-) (g2 & H2 & <-). f_equal. apply map_eq. intros k.
  destruct (stripeFor_shape s k (rep_shape _ _ H1)) as (st & Hst & _).
  by rw -(rep_lookup s g1 H1 st k Hst) (rep_lookup s g2 H2 st k Hst).
Qed.

(** A sampled key is in the store. *)
Lemma sample_key s kv now rng n c :
  store_kv s kv -> range_ok rng -> c ∈ Sample s now rng n -> is_Some (kv !! CKey c).
Proof.
  intros (g & Hrep & <-) Hrng. rw Sample_eq. intros (i & Hc & _)%elem_of_take.
  apply list_elem_of_lookup_2, list_elem_of_fmap in Hc as (e & -> & He).
  apply (proj2 (scan_spec s g now rng Hrep Hrng)) in He as [_ Hg]. unfold abs. simpl. rw lookup_fmap Hg. by eexists.
Qed.

(** A read leaves data without expirations as it is. *)
Lemma spec_reads `{Env} cmd kv t :
  IsWriteCommand (Name cmd) = false -> permanent kv -> (spec_execute cmd kv t).1.2 = kv.
Proof.
  intros Hw Hp. unfold IsWriteCommand, writeCommands in Hw. apply bool_decide_eq_false in Hw.
  assert (forall n, n ∈ writeCommands -> String.eqb (Name cmd) n = false) as Hno.
  { intros n Hn. apply String.eqb_neq. by intros <-. }
  unfold spec_execute. cbv zeta.
  repeat match goal with |- context [String.eqb (Name cmd) ?n] => rw (Hno n ltac:(by apply (bool_decide_unpack _))) end.
  cbn [orb]. clear Hno. dispatch; try done.
  all: repeat match goal with Hn : Name _ <> _ |- _ => clear Hn end.
  1: { unfold spec_exists. destruct (Args cmd) as [|key keys]; [done|].
    assert (forall keys n t, (spec_exists_loop keys n kv t).1.2 = kv) as He.
    { clear -Hp. induction keys as [|k keys IH]; intros n t; [done|]. cbn [spec_exists_loop]. rw permanent_drop //. }
    specialize (He (key :: keys) 0 t). by destruct (spec_exists_loop _ _ _ _) as [[??]?]. }
  all: unfold spec_ttl, spec_get, spec_llen, spec_zrange, spec_zcard, spec_zscore, spec_read.
  all: repeat first [case_match | progress simplify_eq/=]; try done; by apply permanent_drop.
Qed.

(** Planning removes nothing from data without expirations. *)
Lemma only_expired_permanent `{Env} kv kv' : permanent kv -> kv' ⊆ kv -> only_expired kv kv' -> kv' = kv.
Proof.
  intros Hp Hsub Hexp. apply map_eq. intros k. destruct (kv !! k) as [x|] eqn:Hx.
  - destruct (Hexp k x Hx) as [|[t Ht]]; [done|]. unfold kexpired in Ht. by rw (Hp k x Hx) in Ht.
  - destruct (kv' !! k) as [x|] eqn:Hx'; [|done]. rw (lookup_weaken _ _ _ _ Hx' Hsub) in Hx. done.
Qed.

Section hook.
Context `{Env, SliceSortOk} {W : Type} (cfg : Config W) (hook : Command -> W -> option string * W).
Context (Hhook : writeHook cfg = Some hook) (Hsync : hookSync cfg = true) (Hvisit : forall t, range_ok (visit t)).
(** The relation, and the commands for which the hook keeps it. *)
Context (I : KV -> W -> Prop) (ok : Command -> Prop).
Context (Hperm : forall kv h, I kv h -> permanent kv).
Context (Hkeep : forall cmd kv h, ok cmd -> I kv h ->
  match (hook cmd h).1 with
  | Some _ => I kv (hook cmd h).2
  | None => forall t, I (spec_execute cmd kv t).1.2 (hook cmd h).2
  end).
Context (Hevict : forall kv h k, I kv h -> is_Some (kv !! k) -> ok (evictionDeleteCommand k)).

#[local] Existing Instances EM_ret EM_bind.
Abbreviation wstore w := (sysStore (engSys w)).

Definition holds (w : Eng W) : Prop := exists kv, store_kv (wstore w) kv /\ I kv (engHook w).
Definition keeps {A} (m : EM (W := W) A) : Prop := forall w a w', holds w -> m w = Some (a, w') -> holds w'.

Lemma keeps_bind {A B} (m : EM A) (k : A -> EM B) : keeps m -> (forall a, keeps (k a)) -> keeps (m ≫= k).
Proof.
  intros Hm Hk w b w' Hw. unfold mbind, EM_bind. destruct (m w) as [[a w1]|] eqn:He; [|done]. simpl.
  apply Hk. by eapply Hm.
Qed.
Lemma keeps_ret {A} (a : A) : keeps (mret a).
Proof. by intros w b w' Hw [= <- <-]. Qed.
Lemma keeps_counter name n : keeps (AddCounter name n).
Proof. by intros w b w' Hw [= <- <-]. Qed.

Lemma hookIf_before cmd w :
  hookIf cfg true cmd w = Some ((hook cmd (engHook w)).1, mkEng (engSys w) (hook cmd (engHook w)).2 (engMetrics w)).
Proof. unfold hookIf. rw Hhook Hsync. unfold callHook. simpl. by destruct (hook cmd (engHook w)). Qed.
Lemma hookIf_after cmd : hookIf cfg false cmd = mret None.
Proof. unfold hookIf. by rw Hhook Hsync. Qed.

(** The hook, then what it announced: [act] changes the data as [cmd] does. *)
Lemma keeps_announced {A B} cmd (fail : string -> EM B) (act : EM A) (k : A -> EM B) :
  ok cmd -> (forall err, keeps (fail err)) -> (forall a, keeps (k a)) ->
  (forall w kv, store_kv (wstore w) kv ->
    exists a w', act w = Some (a, w') /\ engHook w' = engHook w /\ exists t, store_kv (wstore w') (spec_execute cmd kv t).1.2) ->
  keeps (err ← hookIf cfg true cmd; match err with Some err => fail err | None => act ≫= k end).
Proof.
  intros Hok Hfail Hk Hact w b w' (kv & Hs & HI). unfold mbind, EM_bind. rw hookIf_before. simpl.
  pose proof (Hkeep cmd kv (engHook w) Hok HI) as Hstep. destruct (hook cmd (engHook w)) as [[err|] h]; simpl in *.
  - apply Hfail. by exists kv.
  - destruct (Hact (mkEng (engSys w) h (engMetrics w)) kv Hs) as (a & w1 & -> & Hh & t & Hs1). simpl.
    apply Hk. exists (spec_execute cmd kv t).1.2. split; [done|]. rw Hh. apply Hstep.
Qed.

Lemma delete_acts k w kv :
  store_kv (wstore w) kv ->
  exists a w', liftM (W := W) (onStore (fun s => DeleteWithSize s k)) w = Some (a, w') /\ engHook w' = engHook w /\
    exists t : nat, store_kv (wstore w') (spec_execute (evictionDeleteCommand k) kv t).1.2.
Proof.
  intros Hs. destruct (DeleteWithSize_spec (wstore w) kv k Hs) as (s' & Hd & Hs').
  unfold liftM, onStore. rw Hd. eexists _, _. split; [done|]. split; [done|]. by exists 0%nat.
Qed.
Lemma execute_acts cmd w kv :
  store_kv (wstore w) kv ->
  exists a w', liftM (W := W) (Execute cmd) w = Some (a, w') /\ engHook w' = engHook w /\
    exists t, store_kv (wstore w') (spec_execute cmd kv t).1.2.
Proof.
  intros Hs. destruct (Execute_spec cmd (wstore w) kv (tick (engSys w)) Hs) as (s' & Hx & Hs').
  unfold liftM. rw -(Sys_eta (engSys w)) in Hx. rw Hx. eexists _, _. split; [done|]. split; [done|]. by eexists.
Qed.

Lemma evictLoop_keeps plan victims progress :
  Forall (fun v => ok (evictionDeleteCommand (CKey v))) victims -> keeps (evictLoop cfg plan victims progress).
Proof.
  intros Hall. revert progress; induction Hall as [|v victims Hv _ IH]; intros progress; cbn [evictLoop]; [apply keeps_ret|].
  destruct (String.eqb _ _); [done|]. apply keeps_announced; [done|intros err; apply keeps_ret| |apply delete_acts].
  intros [freed|]; [|done]. rw hookIf_after.
  repeat (apply keeps_bind; [first [apply keeps_counter | apply keeps_ret]|intros _]). apply IH.
Qed.

Lemma freePasses_keeps passes plan : keeps (freePasses cfg passes plan).
Proof.
  induction passes as [|passes IH]; cbn [freePasses]; [apply keeps_ret|].
  apply keeps_bind; [by intros w a w' Hw [= <- <-]|]. intros avail. destruct (_ <=? avail); [apply keeps_ret|].
  destruct (String.eqb _ _); [apply keeps_ret|]. apply keeps_bind; [apply keeps_counter|]. intros _.
  intros w r w' (kv & Hs & HI). unfold mbind at 1, EM_bind at 1.
  destruct (liftM _ w) as [[victims w1]|] eqn:Hv; [|done]. simpl.
  unfold managerPickVictims, sampleVictims, liftM, mbind, M_bind, nowNanos in Hv. simpl in Hv. injection Hv as Hvs <-.
  assert (holds (mkEng (mkSys (wstore w) (S (S (tick (engSys w))))) (engHook w) (engMetrics w))) as Hw1 by by exists kv.
  assert (Forall (fun v => ok (evictionDeleteCommand (CKey v))) victims) as Hall.
  { apply Forall_forall. intros v Hin. rw -Hvs in Hin. apply PickVictims_elem in Hin as [Hin _].
    eapply Hevict; [exact HI|]. by eapply sample_key. }
  revert Hw1. generalize (mkEng (mkSys (wstore w) (S (S (tick (engSys w))))) (engHook w) (engMetrics w)). intros w1 Hw1.
  destruct victims as [|v vs]; [by apply keeps_ret|]. revert Hw1. generalize w1 r w'.
  apply keeps_bind; [by apply evictLoop_keeps|]. intros [[]|frame]; [done|apply keeps_ret..].
Qed.

Lemma executeHooked_keeps cmd : ok cmd -> keeps (executeHooked cfg cmd).
Proof.
  intros Hok. unfold executeHooked. apply keeps_announced; [done|intros err; apply keeps_ret| |apply execute_acts].
  intros f. rw hookIf_after. apply keeps_bind; [destruct (isErrorFrame f)|intros _]; apply keeps_ret.
Qed.

(** Every command keeps the relation. *)
Lemma EngineExecute_keeps cmd w kv f w' :
  0 < limit cfg < maxUint64 -> cmd_fits cmd -> (IsWriteCommand (Name cmd) = true -> ok cmd) ->
  store_kv (wstore w) kv -> kv_exact kv -> I kv (engHook w) -> EngineExecute cfg cmd w = Some (f, w') -> holds w'.
Proof.
  intros Hlim Hfit Hok Hs He HI. unfold EngineExecute.
  assert (forall (m : EM Frame) w1, (forall f w2, m w1 = Some (f, w2) -> holds w2) ->
    (frame ← m; IncCounter "cmd.total";; mret frame) w1 = Some (f, w') -> holds w') as Hcount.
  { intros m w1 Hm. unfold mbind, EM_bind. destruct (m w1) as [[f1 w2]|]; [|done]. simpl. intros [= <- <-].
    by apply (Hm f1 w2). }
  destruct (IsWriteCommand (Name cmd)) eqn:Hw; apply Hcount; clear Hcount f w'; intros f w'.
  - specialize (Hok eq_refl). unfold executeWithAdmission.
    destruct (planAdmission_planned (limit cfg) (proj2 Hlim) cmd Hfit (wstore w) kv (tick (engSys w)) Hs He)
      as (plan & s1 & t1 & kv1 & Hp & Hs1 & _ & Hsub & _ & _ & Hexp).
    pose proof (only_expired_permanent kv kv1 (Hperm _ _ HI) Hsub Hexp) as ->.
    unfold mbind at 1, EM_bind at 1, liftM at 1. rw -(Sys_eta (engSys w)) in Hp. rw Hp. simpl.
    assert (holds (mkEng (mkSys s1 t1) (engHook w) (engMetrics w))) as Hw1 by by exists kv.
    revert Hw1. generalize (mkEng (mkSys s1 t1) (engHook w) (engMetrics w)) f w'.
    clear Hp Hs1. destruct (response plan) as [g|].
    { apply keeps_bind; [destruct (isOOMFrame g); [apply keeps_counter|apply keeps_ret]|intros _; apply keeps_ret]. }
    destruct (_ && _); [|by apply executeHooked_keeps]. destruct (limit cfg <? _).
    { apply keeps_bind; [apply keeps_counter|intros _; apply keeps_ret]. }
    apply keeps_bind; [apply freePasses_keeps|]. intros [frame|]; [|by apply executeHooked_keeps].
    apply keeps_bind; [apply keeps_counter|intros _; apply keeps_ret].
  - destruct (execute_acts cmd w kv Hs) as (a & w1 & Hx & Hh & t & Hs1). rw Hx. intros [= <- <-].
    rw spec_reads // in Hs1; [by eapply Hperm|]. exists kv. by rw Hh.
Qed.
End hook.
