(* ===== verification/Cluster.v ===== *)
(** * A cluster node: [internal/cluster/manager.go], [coordinator.go],
    [replicator.go], [proxy.go], [attach.go] and [repair.go]

    A node is an engine whose write hook is the replicator.  The state the
    hook threads is a [World]: the metadata, whether data commands are
    admitted, the open connections of the proxy and the network behind them.
    The coordinator routes a command by its slot, executes it on the engine,
    forwards it to the leader, or handles one of the internal commands of the
    cluster.

    The network is the class [Net]: dialling an address, and sending a request
    over a connection and receiving what comes back before the deadline.  The
    bytes on the wire are those of [Resp].  [encoding/json] is the class
    [JSON]; the texts of errors that other packages format are the class
    [Texts].  Contexts and deadlines only decide what the network delivers.
    [None] is a run-time panic. *)
From S2P Require Import Prelude GoText GoFloat Resp SkipList Eviction Store Executor Engine Snapshot Metadata Server.
Local Open Scope Z_scope.

(** ** Interfaces *)

(** [transfer addr request] writes the request and returns the bytes that
    arrive until the deadline, or the text of a failed write. *)
Class Net (N : Type) := {
  dial : string -> N -> option string * N;
  transfer : string -> string -> N -> (string + string) * N
}.

Class Texts := {
  Quote : string -> string;
  readErrText : ReadError -> string;
  snapErrText : SnapErr -> string
}.

Record ShardSnapshot := mkShard {
  ShSource : string;
  ShSlot : Z;
  ShTerm : Z;
  ShSequence : Z;
  ShEntries : list SnapEntry
}.

Class JSON := {
  marshalMetadata : MetadataSnapshot -> string;
  unmarshalMetadata : string -> option MetadataSnapshot;
  marshalShard : ShardSnapshot -> string;
  unmarshalShard : string -> option ShardSnapshot
}.

(** ** Errors *)

(** The texts of [errors.go]. *)
Definition ClusterErrText (e : ClusterErr) : string :=
  match e with
  | ErrStaleTerm => "stale term"
  | ErrNotLeader => "not the leader for this slot"
  | ErrNotReplica => "not the replica for this slot"
  | ErrReplicaUnavailable => "slot replica is unavailable or not synchronized"
  | ErrSequenceGap => "replication sequence gap"
  | ErrSlotOutOfRange => "slot is out of range"
  | ErrUnknownNode node => "unknown cluster node" +:+ ": " +:+ node
  | ErrReplicaIsLeader => "replica cannot be the slot leader"
  | ErrClusterMismatch => "cluster metadata does not match this cluster"
  | ErrStaleMetadata => "cluster metadata version is stale"
  | ErrNoReplicaAssigned => "slot has no assigned replica to promote"
  end.

(** An error of a node operation: one of [errors.go], or another text. *)
Inductive NodeErr := IsCluster (e : ClusterErr) | Other (text : string).
Definition NodeErrText (e : NodeErr) : string :=
  match e with IsCluster e => ClusterErrText e | Other text => text end.

Definition clusterFrameError (err : NodeErr) : Frame :=
  match err with
  | IsCluster (ErrNotLeader | ErrReplicaUnavailable) => NewError "CLUSTERDOWN" (NodeErrText err)
  | IsCluster (ErrStaleTerm | ErrSequenceGap) => NewError "TRYAGAIN" (NodeErrText err)
  | _ => NewError "ERR" (NodeErrText err)
  end.

(** [strings.Contains] *)
Fixpoint hasPrefix (s p : string) : bool :=
  match p, s with
  | "", _ => true
  | String a p, String b s => Ascii.eqb a b && hasPrefix s p
  | String _ _, "" => false
  end.
Fixpoint Contains (s sub : string) : bool :=
  hasPrefix s sub || match s with "" => false | String _ s => Contains s sub end.

(** ** State *)

Record World (N : Type) := mkWorld {
  wMeta : Metadata;
  admitted : bool;
  conns : gmap string string;
  wNet : N
}.
Arguments mkWorld {N}.
Arguments wMeta {N}.
Arguments admitted {N}.
Arguments conns {N}.
Arguments wNet {N}.

Definition setMeta {N} (m : Metadata) (w : World N) : World N := mkWorld m (admitted w) (conns w) (wNet w).
Definition setAdmitted {N} (b : bool) (w : World N) : World N := mkWorld (wMeta w) b (conns w) (wNet w).
Definition setConns {N} (c : gmap string string) (w : World N) : World N := mkWorld (wMeta w) (admitted w) c (wNet w).
Definition setNet {N} (n : N) (w : World N) : World N := mkWorld (wMeta w) (admitted w) (conns w) n.

(** The fixed part: identity, the configured peers, memory limit and policy,
    and whether there is a replicator. *)
Record NodeConfig := mkNodeConfig {
  nodeID : string;
  nodePeers : list MetadataPeer;
  nodeLimit : Z;
  nodePolicy : Policy;
  replicated : bool
}.

(** The addresses the proxy is built with: every configured peer but the node
    itself, a later peer replacing an earlier one of the same id. *)
Definition peerAddrs (cfg : NodeConfig) : gmap string string :=
  foldl (fun m p => if String.eqb (PeerID p) (nodeID cfg) then m else <[PeerID p := PeerAddress p]> m) ∅ (nodePeers cfg).

Section node.
Context `{Env, SliceSort, Texts, JSON} {N : Type} `{Net N} (cfg : NodeConfig).

(** ** The proxy *)

(** [getConn]; an open connection holds the bytes its reader has buffered. *)
Definition getConn (id : string) (w : World N) : option string * World N :=
  match conns w !! id with
  | Some _ => (None, w)
  | None =>
      match peerAddrs cfg !! id with
      | None => (Some ("unknown peer " +:+ Quote id), w)
      | Some addr =>
          match dial addr (wNet w) with
          | (Some err, n) => (Some err, setNet n w)
          | (None, n) => (None, setConns (<[id := ""]> (conns w)) (setNet n w))
          end
      end
  end.
Definition dropConn (id : string) (w : World N) : World N := setConns (delete id (conns w)) w.

(** The common part of [Forward] and [SendReplication]: one request, one
    frame. *)
Definition roundTrip (id : string) (args : list string) (w : World N) : (Frame + string) * World N :=
  match getConn id w with
  | (Some err, w) => (inr err, w)
  | (None, w) =>
      let '(r, n) := transfer (default "" (peerAddrs cfg !! id)) (writeRequest args) (wNet w) in
      let w := setNet n w in
      match r with
      | inr err => (inr err, dropConn id w)
      | inl received =>
          match readFrame (default "" (conns w !! id) +:+ received) with
          | Ok frame rest => (inl frame, setConns (<[id := rest]> (conns w)) w)
          | Err e _ => (inr (readErrText e), dropConn id w)
          end
      end
  end.

Definition Forward (id : string) (cmd : Command) (w : World N) : (Frame + string) * World N :=
  roundTrip id (Name cmd :: Args cmd) w.

Definition recordArgs (rec : ReplicationRecord) : list string :=
  ["REPLICATE"; SourceNodeID rec; FormatUint (RSlot rec); FormatUint (RTerm rec); FormatUint (Sequence rec)] ++ RArgs rec.

(** The errors of [SendReplication]: [inl] those that wrap an error of
    [errors.go]. *)
Definition SendReplication (id : string) (rec : ReplicationRecord) (w : World N)
    : option ((ClusterErr * string) + string) * World N :=
  match roundTrip id (recordArgs rec) w with
  | (inr err, w) => (Some (inr err), w)
  | (inl (Error prefix message), w) =>
      let rejected := ": replica " +:+ id +:+ " rejected record" in
      if Contains message (ClusterErrText ErrSequenceGap)
      then (Some (inl (ErrSequenceGap, ClusterErrText ErrSequenceGap +:+ rejected)), w)
      else if Contains message (ClusterErrText ErrStaleTerm)
      then (Some (inl (ErrStaleTerm, ClusterErrText ErrStaleTerm +:+ rejected)), w)
      else (Some (inr ("replica " +:+ id +:+ " rejected record: " +:+ prefix +:+ " " +:+ message)), w)
  | (inl _, w) => (None, w)
  end.

(** ** The replicator *)

Definition commandToStrings (cmd : Command) : list string := Name cmd :: Args cmd.

(** [Replicate]: [None] is success, otherwise the text of the error. *)
Definition Replicate (cmd : Command) (w : World N) : option string * World N :=
  match ExtractPrimaryKey cmd with
  | None | Some "" => (None, w)
  | Some key =>
      let slot := SlotForKey (wMeta w) key in
      match PrepareReplication (wMeta w) slot with
      | inr e => (Some (ClusterErrText e), w)
      | inl (state, sequence) =>
          let rec := mkRecord (nodeID cfg) slot (Term state) sequence (commandToStrings cmd) in
          match SendReplication (ReplicaID state) rec w with
          | (Some (inl (_, text)), w) => (Some text, w)
          | (Some (inr text), w) => (Some (ClusterErrText ErrReplicaUnavailable +:+ ": " +:+ text), w)
          | (None, w) =>
              let '(err, m) := CommitLeaderSequence (wMeta w) slot (Term state) sequence in
              (ClusterErrText <$> err, setMeta m w)
          end
      end
  end.

(** [AttachEngine]: the engine's hook is the replicator, called before the
    write. *)
Definition engineConfig : Config (World N) :=
  mkConfig (nodeLimit cfg) (nodePolicy cfg) (if replicated cfg then Some Replicate else None) (replicated cfg).

(** ** The manager *)

Definition Node : Type := Eng (World N).

Definition onWorld {A} (f : World N -> A * World N) : EM (W := World N) A := fun w =>
  let '(a, h) := f (engHook w) in Some (a, mkEng (engSys w) h (engMetrics w)).
Definition onMeta {A} (f : Metadata -> A * Metadata) : EM (W := World N) A :=
  onWorld (fun h => let '(a, m) := f (wMeta h) in (a, setMeta m h)).
Definition readMeta : EM (W := World N) Metadata := onMeta (fun m => (m, m)).

#[local] Existing Instances EM_ret EM_bind.

Definition RequireAdmission : EM (W := World N) unit := onWorld (fun h => (tt, setAdmitted false h)).
Definition AdmitData : EM (W := World N) unit := onWorld (fun h => (tt, setAdmitted true h)).
Definition DataAdmitted : EM (W := World N) bool := onWorld (fun h => (admitted h, h)).

Definition ApplyReplication (rec : ReplicationRecord) : EM (W := World N) (option NodeErr) :=
  m ← readMeta;
  match ValidateReplication m rec with
  | inr e => mret (Some (IsCluster e))
  | inl true => mret None
  | inl false =>
      match RArgs rec with
      | [] => mret (Some (Other "replication record has no command"))
      | name :: args =>
          frame ← ApplyReplicated (mkCommand name args);
          if isErrorFrame frame then mret (Some (Other "replicated command failed"))
          else
            err ← onMeta (fun m => CommitReplicaSequence m (RSlot rec) (RTerm rec) (Sequence rec));
            mret (IsCluster <$> err)
      end
  end.

Definition ApplyMetadata (inp : MetadataSnapshot) : EM (W := World N) (option ClusterErr) :=
  onMeta (fun m => ApplyRemote m inp).

(** The peers that did not take the new metadata. *)
Fixpoint BroadcastMetadata (ps : list MetadataPeer) (raw : string) (w : World N) : list string * World N :=
  match ps with
  | [] => ([], w)
  | peer :: ps =>
      if String.eqb (PeerID peer) (nodeID cfg) then BroadcastMetadata ps raw w
      else
        let '(r, w) := Forward (PeerID peer) (mkCommand "CLUSTERAPPLY" [raw]) w in
        let '(failed, w) := BroadcastMetadata ps raw w in
        (match r with
         | inr _ | inl (Error _ _) => PeerID peer :: failed
         | inl _ => failed
         end, w)
  end.
Definition broadcast (state : MetadataSnapshot) (w : World N) : list string * World N :=
  BroadcastMetadata (nodePeers cfg) (marshalMetadata state) w.

Definition ManagerPromote (slot : Z) : EM (W := World N) ((MetadataSnapshot * list string) + ClusterErr) :=
  r ← onMeta (fun m => Promote m slot);
  match r with
  | inr e => mret (inr e)
  | inl state => failed ← onWorld (broadcast state); mret (inl (state, failed))
  end.
Definition ManagerAssignReplica (slot : Z) (id : string)
    : EM (W := World N) ((MetadataSnapshot * list string) + ClusterErr) :=
  r ← onMeta (fun m => AssignReplica m slot id);
  match r with
  | inr e => mret (inr e)
  | inl state => failed ← onWorld (broadcast state); mret (inl (state, failed))
  end.

(** [syncMetadata]: install what a peer has if it is newer. *)
Fixpoint syncMetadata (ps : list MetadataPeer) (w : World N) : World N :=
  match ps with
  | [] => w
  | peer :: ps =>
      if String.eqb (PeerID peer) (nodeID cfg) then syncMetadata ps w
      else
        let '(r, w) := Forward (PeerID peer) (mkCommand "CLUSTERMETA" []) w in
        match r with
        | inl (BulkString value false) =>
            match unmarshalMetadata value with
            | Some incoming =>
                if MVersion (Metadata.Snapshot (wMeta w)) <? MVersion incoming
                then syncMetadata ps (setMeta (ApplyRemote (wMeta w) incoming).2 w)
                else syncMetadata ps w
            | None => syncMetadata ps w
            end
        | _ => syncMetadata ps w
        end
  end.

(** ** Repair *)

(** [Engine.SnapshotEntries] and [Engine.RestoreSnapshotEntries] on the node's
    engine. *)
Definition takeEntries : EM (W := World N) (list SnapEntry + SnapErr) := liftM SnapshotEntries.
Definition restoreEntries (entries : list SnapEntry) : EM (W := World N) (Z + SnapErr) := liftM (RestoreEntries (nodeLimit cfg) entries).

Definition inSlot (m : Metadata) (slot : Z) (entry : SnapEntry) : bool := SlotForKey m (SKey entry) =? slot.

Definition SyncReplica (slot : Z) (target : string) : EM (W := World N) ((MetadataSnapshot * list string) + NodeErr) :=
  m ← readMeta;
  match Slot m slot with
  | None => mret (inr (IsCluster ErrSlotOutOfRange))
  | Some state =>
      if negb (String.eqb (LeaderID state) (nodeID cfg)) then mret (inr (IsCluster ErrNotLeader))
      else
        let target := if String.eqb target "" then ReplicaID state else target in
        if String.eqb target "" || negb (String.eqb target (ReplicaID state))
        then mret (inr (IsCluster ErrNotReplica))
        else
          all ← takeEntries;
          match all with
          | inr e => mret (inr (Other (snapErrText e)))
          | inl allEntries =>
              let entries := List.filter (inSlot m slot) allEntries in
              let raw := marshalShard (mkShard (nodeID cfg) slot (Term state) (LastSequence state) entries) in
              r ← onWorld (Forward target (mkCommand "CLUSTERSNAPSHOT" [raw]));
              match r with
              | inr _ | inl (Error _ _) => mret (inr (IsCluster ErrReplicaUnavailable))
              | inl _ =>
                  u ← onMeta (fun m => MarkReplicaReady m slot (Term state) (LastSequence state));
                  match u with
                  | inr e => mret (inr (IsCluster e))
                  | inl updated => failed ← onWorld (broadcast updated); mret (inl (updated, failed))
                  end
              end
          end
  end.

Definition ApplyShardSnapshot (shard : ShardSnapshot) : EM (W := World N) (option NodeErr) :=
  m ← readMeta;
  match Slot m (ShSlot shard) with
  | None => mret (Some (IsCluster ErrSlotOutOfRange))
  | Some state =>
      if negb (String.eqb (ReplicaID state) (nodeID cfg)) || negb (String.eqb (ShSource shard) (LeaderID state)) ||
         negb (ShTerm shard =? Term state)
      then mret (Some (IsCluster ErrStaleTerm))
      else if negb (forallb (inSlot m (ShSlot shard)) (ShEntries shard))
      then mret (Some (IsCluster ErrClusterMismatch))
      else
        current ← takeEntries;
        match current with
        | inr e => mret (Some (Other (snapErrText e)))
        | inl current =>
            r ← restoreEntries (List.filter (fun e => negb (inSlot m (ShSlot shard) e)) current ++ ShEntries shard);
            match r with
            | inr e => mret (Some (Other (snapErrText e)))
            | inl _ =>
                err ← onMeta (fun m => SetReplicaApplied m (ShSlot shard) (ShTerm shard) (ShSequence shard));
                mret (IsCluster <$> err)
            end
        end
  end.

(** ** The coordinator *)

(** [strconv.ParseUint(s, 10, 32)] *)
Definition ParseUint32 (s : string) : option Z :=
  n ← ParseUint s; if 4294967295 <? n then None else Some n.

Definition applyReplication (cmd : Command) : EM (W := World N) Frame :=
  match Args cmd with
  | source :: slot :: term :: sequence :: name :: args =>
      match ParseUint32 slot with
      | None => mret (NewError "ERR" "invalid replication slot")
      | Some slot =>
          match ParseUint term with
          | None => mret (NewError "ERR" "invalid replication term")
          | Some term =>
              match ParseUint sequence with
              | None => mret (NewError "ERR" "invalid replication sequence")
              | Some sequence =>
                  err ← ApplyReplication (mkRecord source slot term sequence (name :: args));
                  mret (match err with Some e => clusterFrameError e | None => OK end)
              end
          end
      end
  | _ => mret (NewError "ERR" "REPLICATE requires source, slot, term, sequence, and command")
  end.

Definition applyMetadata (cmd : Command) : EM (W := World N) Frame :=
  match Args cmd with
  | [raw] =>
      match unmarshalMetadata raw with
      | None => mret (NewError "ERR" "invalid cluster metadata")
      | Some state =>
          err ← ApplyMetadata state;
          mret (match err with
                | None | Some ErrStaleMetadata => OK
                | Some e => clusterFrameError (IsCluster e)
                end)
      end
  | _ => mret (NewError "ERR" "CLUSTERAPPLY requires one metadata payload")
  end.

Definition applyShardSnapshot (cmd : Command) : EM (W := World N) Frame :=
  match Args cmd with
  | [raw] =>
      match unmarshalShard raw with
      | None => mret (NewError "ERR" "invalid shard snapshot")
      | Some shard =>
          err ← ApplyShardSnapshot shard;
          mret (match err with None => OK | Some e => clusterFrameError e end)
      end
  | _ => mret (NewError "ERR" "CLUSTERSNAPSHOT requires one snapshot payload")
  end.

(** The data commands: the slot of the keys decides. *)
Definition routeCommand (cmd : Command) : EM (W := World N) Frame :=
  match ExtractKeys cmd with
  | [] => EngineExecute engineConfig cmd
  | key :: keys =>
      m ← readMeta;
      let slot := SlotForKey m key in
      if existsb (fun k => negb (SlotForKey m k =? slot)) keys
      then mret (NewError "CROSSSLOT" "Keys in request don't hash to the same slot")
      else match Slot m slot with
      | None => mret (NewError "CLUSTERDOWN" "slot has no leader")
      | Some state =>
          if String.eqb (LeaderID state) "" then mret (NewError "CLUSTERDOWN" "slot has no leader")
          else if negb (String.eqb (LeaderID state) (nodeID cfg)) then
            r ← onWorld (Forward (LeaderID state) cmd);
            mret (match r with inl frame => frame | inr _ => NewError "CLUSTERDOWN" "leader unavailable" end)
          else EngineExecute engineConfig cmd
      end
  end.

(** [Coordinator.Execute] *)
Definition CoordinatorExecute (cmd : Command) : EM (W := World N) Frame :=
  let named (n : string) := String.eqb (Name cmd) n in
  if named "REPLICATE" then applyReplication cmd
  else if named "CLUSTERMETA" then m ← readMeta; mret (BulkBytes (marshalMetadata (Metadata.Snapshot m)))
  else if named "CLUSTERAPPLY" then applyMetadata cmd
  else if named "CLUSTERSNAPSHOT" then applyShardSnapshot cmd
  else if named "FLUSHDB" || named "FLUSHALL"
  then mret (NewError "ERR" "global flush commands are not supported in cluster mode")
  else
    ok ← DataAdmitted;
    if (ok : bool) then routeCommand cmd
    else mret (NewError "CLUSTERDOWN" "node is recovering and not admitted").

(** The server of a cluster node hands its commands to the coordinator. *)
Definition coordinatorExecutor : CommandExecutor Node := CoordinatorExecute.
End node.

(** ** Two nodes *)

(** A leader and its replica.  The network is the replica, serving the bytes of
    each request, and a schedule of what happens to the requests; once the
    schedule is used up nothing arrives any more.  A request or a reply that
    is lost looks the same to the leader: nothing arrives before the
    deadline. *)
Inductive Fate := Delivered | RequestLost | ReplyLost.
#[export] Instance Fate_eq_dec : EqDecision Fate.
Proof. solve_decision. Defined.

(** The replica itself has no network: it cannot reach other nodes. *)
#[export] Instance noNet : Net unit :=
  {| dial := fun _ n => (Some "connection refused", n); transfer := fun _ _ n => (inr "connection refused", n) |}.

Record Link := mkLink { lReplica : Eng (World unit); lSchedule : list Fate }.

Section link.
Context `{Env, SliceSort, Texts, JSON} (replicaCfg : NodeConfig).

(** The replica reads the request, answers it and waits for the next. *)
Definition served (request : string) (l : Link) (fates : list Fate) : option string * Link :=
  match serve (H := coordinatorExecutor replicaCfg) request (lReplica l) with
  | Some (out, r, _) => (Some out, mkLink r fates)
  | None => (None, mkLink (lReplica l) fates)
  end.

Definition linkTransfer (request : string) (l : Link) : (string + string) * Link :=
  match lSchedule l with
  | [] => (inl "", l)
  | RequestLost :: fates => (inl "", mkLink (lReplica l) fates)
  | Delivered :: fates => let '(out, l) := served request l fates in (inl (default "" out), l)
  | ReplyLost :: fates => let '(_, l) := served request l fates in (inl "", l)
  end.

Definition linkNet (addr : string) : Net Link :=
  {| dial := fun a l => (if String.eqb a addr then None else Some "connection refused", l);
     transfer := fun a request l => if String.eqb a addr then linkTransfer request l else (inr "connection refused", l) |}.
End link.
