(* ===== verification/ClusterSpec.v ===== *)
(** * Replication between two nodes

    A leader and its replica, as in [Cluster]: a record the leader sends is the
    record the replica applies; as long as replies are not lost, the replica
    holds the same data as the leader in all slots the leader owns, whatever
    else is lost; a lost reply breaks this silently.  The coordinator changes
    the data of a node only if the node leads the slot. *)
From S2P Require Import Prelude GoText GoFloat GoFloatText Resp ListValue SkipList ZSetValue Eviction Store StoreSpec Executor ExecutorSpec Engine EngineSpec Snapshot Metadata MetadataSpec Server Locality HookSpec Cluster.
Local Open Scope Z_scope.

Abbreviation nstore w := (sysStore (engSys w)).

(** ** The wire *)

Lemma dec_aux_len fuel n acc : slen (dec_aux fuel n acc) <= Z.of_nat fuel + slen acc.
Proof.
  revert n acc; induction fuel as [|fuel IH]; intros n acc; cbn [dec_aux]; [lia|].
  destruct (_ <? _); [|etrans; [apply IH|]]; unfold slen; simpl; lia.
Qed.
Lemma FormatUint_len n : slen (FormatUint n) <= 20.
Proof. unfold FormatUint. etrans; [apply dec_aux_len|done]. Qed.

(** Commands that fit into a replication record of a source with id [source]. *)
Definition wire_fits (source : string) (cmd : Command) : Prop :=
  slen source <= 1000000 /\ args_len (Name cmd :: Args cmd) <= 33554432 /\ Z.of_nat (length (Args cmd)) <= 1000000.

Lemma record_fits rec cmd :
  RArgs rec = Name cmd :: Args cmd -> wire_fits (SourceNodeID rec) cmd -> request_fits (recordArgs rec).
Proof.
  intros Ha (Hs & Hl & Hn). unfold recordArgs, request_fits. rw Ha. cbn [app].
  pose proof (FormatUint_len (RSlot rec)). pose proof (FormatUint_len (RTerm rec)). pose proof (FormatUint_len (Sequence rec)).
  assert (Forall (fun a => slen a <= 33554432) (Name cmd :: Args cmd)) as Hall.
  { apply Forall_forall. intros a Hin. pose proof (args_len_elem _ _ Hin). lia. }
  split; [done|]. split; [cbn [length maxArrayLen NewParser]; lia|]. split.
  - change (maxBulkLen NewParser) with 33554432. apply Forall_cons. split; [done|]. do 4 (apply Forall_cons; split; [lia|]). done.
  - cbn [args_len foldr maxCommandLen NewParser] in *. change (foldr (fun a z => slen a + z) 0 (Args cmd)) with (args_len (Args cmd)) in *.
    change (slen "REPLICATE") with 9. lia.
Qed.

Lemma ParseUint32_FormatUint n : 0 <= n < 4294967296 -> ParseUint32 (FormatUint n) = Some n.
Proof.
  intros Hn. unfold ParseUint32. rw ParseUint_FormatUint; [unfold maxUint64; lia|]. simpl.
  by rw (proj2 (Z.ltb_ge 4294967295 n)); [lia|].
Qed.

(** ** Reading the metadata *)

#[local] Existing Instances EM_ret EM_bind.

Lemma readMeta_bind {N A} (k : Metadata -> EM (W := World N) A) (w : Eng (World N)) :
  (readMeta ≫= k) w = k (wMeta (engHook w)) w.
Proof. by destruct w as [? [] ?]. Qed.
Lemma DataAdmitted_bind {N A} (k : bool -> EM (W := World N) A) (w : Eng (World N)) :
  (DataAdmitted ≫= k) w = k (admitted (engHook w)) w.
Proof. by destruct w as [? [] ?]. Qed.

(** ** Slots *)

Lemma Slot_range m n st : Slot m n = Some st -> n < 4294967296.
Proof. unfold Slot. destruct (Z.leb_spec (u32 (Z.of_nat (length (slots m)))) n); [done|]. intros _. zlia. Qed.

Lemma Slot_setSlot_ne m n n' st : 0 <= n -> 0 <= n' -> n' <> n -> Slot (setSlot m n st) n' = Slot m n'.
Proof. intros Hn Hn' Hne. unfold Slot. simpl. rw length_insert. case_match; [done|]. apply list_lookup_insert_ne. lia. Qed.

(** ** The replica *)

Definition withApplied (st : SlotState) (seq : Z) : SlotState :=
  mkSlot (Number st) (LeaderID st) (ReplicaID st) (Term st)
    (if LastSequence st <? seq then seq else LastSequence st) seq (ReplicaReady st).
Definition withSequence (st : SlotState) (seq : Z) : SlotState :=
  mkSlot (Number st) (LeaderID st) (ReplicaID st) (Term st) seq seq (ReplicaReady st).

(** The request of a record for the next sequence of a slot. *)
Definition nextRecord (n : Z) (st : SlotState) (cmd : Command) : ReplicationRecord :=
  mkRecord (LeaderID st) n (Term st) (LastAppliedSequence st + 1) (commandToStrings cmd).

Section replica.
Context `{Env, SliceSort, Texts, JSON} {N : Type} `{Net N} (cfg : NodeConfig).

(** The coordinator decodes a record as it was sent. *)
Lemma coordinator_record rec name args (w : Eng (World N)) :
  RArgs rec = name :: args -> 0 <= RSlot rec < 4294967296 -> 0 <= RTerm rec <= maxUint64 -> 0 <= Sequence rec <= maxUint64 ->
  CoordinatorExecute cfg (requestCommand (recordArgs rec)) w =
    '(err, w') ← ApplyReplication rec w; Some (match err with Some e => clusterFrameError e | None => OK end, w').
Proof.
  intros Ha Hn Ht Hs. unfold requestCommand, recordArgs. rw Ha. cbn [app].
  change (upper "REPLICATE") with "REPLICATE". unfold CoordinatorExecute. cbn [Name String.eqb Ascii.eqb Bool.eqb].
  unfold applyReplication. cbn [Args].
  generalize (ParseUint32_FormatUint (RSlot rec) Hn) (ParseUint_FormatUint (RTerm rec) Ht) (ParseUint_FormatUint (Sequence rec) Hs).
  generalize (FormatUint (RSlot rec)) (FormatUint (RTerm rec)) (FormatUint (Sequence rec)). intros a b c Ea Eb Ec. rw Ea Eb Ec.
  by rw -Ha; destruct rec.
Qed.

Lemma ApplyReplicated_spec cmd (w : Eng (World N)) kv :
  store_kv (nstore w) kv ->
  exists w' t, ApplyReplicated cmd w = Some ((spec_execute cmd kv t).1.1, w') /\ engHook w' = engHook w /\
    store_kv (nstore w') (spec_execute cmd kv t).1.2.
Proof.
  intros Hs. destruct (Execute_spec cmd (nstore w) kv (tick (engSys w)) Hs) as (s' & Hx & Hs').
  rw -(Sys_eta (engSys w)) in Hx. unfold ApplyReplicated, liftM, mbind, EM_bind. rw Hx. by eexists _, (tick (engSys w)).
Qed.

(** A record as the replica expects it is either refused with an error that
    changes nothing, or it is executed and the sequence advances. *)
Lemma replica_applies (r : Eng (World N)) kv n st cmd :
  let m := wMeta (engHook r) in
  store_kv (nstore r) kv -> permanent kv -> isFlush cmd = false ->
  0 <= n < 4294967296 -> Slot m n = Some st -> ReplicaID st = localID m ->
  0 <= Term st <= maxUint64 -> 0 <= LastAppliedSequence st < maxUint64 ->
  exists f r', CoordinatorExecute cfg (requestCommand (recordArgs (nextRecord n st cmd))) r = Some (f, r') /\
    ((isErrorFrame f = true /\ store_kv (nstore r') kv /\ engHook r' = engHook r) \/
     (f = OK /\ engHook r' = setMeta (setSlot m n (withApplied st (LastAppliedSequence st + 1))) (engHook r) /\
      exists t, store_kv (nstore r') (spec_execute cmd kv t).1.2)).
Proof.
  intros m Hs Hp Hfl Hn Hst Hid Hterm Hseq.
  rw (coordinator_record _ (Name cmd) (Args cmd)); [done|done|done|simpl; lia|].
  unfold ApplyReplication, readMeta, onMeta, onWorld, mbind, EM_bind. cbn [mbind option_bind].
  unfold ValidateReplication. unfold nextRecord, commandToStrings. cbn [RSlot RTerm Sequence SourceNodeID RArgs engHook]. fold m. unfold setMeta at 1. cbn [wMeta].
  rw Hst Hid String.eqb_refl Z.eqb_refl String.eqb_refl. cbn [negb orb].
  assert (u64 (LastAppliedSequence st + 1) = LastAppliedSequence st + 1) as Hu by (apply u64_small; unfold maxUint64 in *; lia).
  rw (proj2 (Z.leb_gt _ _)); [lia|]. rw Hu Z.eqb_refl. cbn [negb].
  destruct (ApplyReplicated_spec (mkCommand (Name cmd) (Args cmd)) (mkEng (engSys r) (setMeta m (engHook r)) (engMetrics r)) kv Hs)
    as (r1 & t & Hx & Hh & Hs').
  rw Hx. cbn [mbind option_bind]. assert (mkCommand (Name cmd) (Args cmd) = cmd) as Hcmd by by destruct cmd.
  rw Hcmd in Hs' |- *. destruct (isErrorFrame (spec_execute cmd kv t).1.1) eqn:Herr.
  { eexists _, _. split; [done|]. left. split; [done|]. split; [by rw spec_error // in Hs'|]. rw Hh. by destruct (engHook r). }
  unfold CommitReplicaSequence. rw Hh. cbn [engHook wMeta setMeta]. rw Hst Hid String.eqb_refl Z.eqb_refl Hu Z.eqb_refl. cbn [negb orb].
  eexists _, _. split; [done|]. right. split; [done|]. split; [by rw -Hid|]. by exists t.
Qed.
End replica.

(** ** The leader and its link *)

Section pair.
Context {EL ER : Env} `{SliceSortOk, Texts, JSON} (cfgL cfgR : NodeConfig) (addr R : string).
Context (Haddr : peerAddrs cfgL !! R = Some addr).
(** The number of slots, and the slots the leader owns. *)
Context (count : Z) (led : Z -> Prop) (Hcount : 0 <= count).

#[local] Instance link : Net Link := linkNet (H := ER) cfgR addr.

Abbreviation L := (nodeID cfgL).
Abbreviation replica h := (lReplica (wNet h)).
Abbreviation replicaMeta h := (wMeta (engHook (lReplica (wNet h)))).

(** Requests to the replica: whatever the connection, one request is delivered
    and answered, or nothing comes back. *)
Definition connected (h : World Link) : Prop := conns h !! R = None \/ conns h !! R = Some "".

Lemma getConn_link h :
  connected h -> exists c, getConn cfgL R h = (None, mkWorld (wMeta h) (admitted h) c (wNet h)) /\ c !! R = Some "".
Proof.
  intros [Hc|Hc]; unfold getConn; rw Hc.
  - rw Haddr. cbn [dial link linkNet]. rw String.eqb_refl. eexists. split; [done|]. apply lookup_insert_eq.
  - exists (conns h). split; [by destruct h|done].
Qed.

Lemma roundTrip_link args h received l :
  connected h -> linkTransfer (H := ER) cfgR (writeRequest args) (wNet h) = (inl received, l) ->
  exists c, (c !! R = None \/ c !! R = Some (match readFrame received with Ok _ rest => rest | Err _ _ => "" end)) /\
    roundTrip cfgL R args h =
      (match readFrame received with Ok frame _ => inl frame | Err e _ => inr (readErrText e) end,
       mkWorld (wMeta h) (admitted h) c l).
Proof.
  intros Hc Ht. destruct (getConn_link h Hc) as (c & Hg & Hr). unfold roundTrip. rw Hg. rw Haddr. change (default "" (Some addr)) with addr. cbn [transfer link linkNet wNet].
  rw String.eqb_refl Ht. cbn [setNet conns wMeta admitted wNet]. rw Hr. change (default "" (Some "") +:+ received) with received.
  destruct (readFrame received) as [f rest|e rest].
  - eexists. split; [right; apply lookup_insert_eq|done].
  - eexists. split; [left; apply lookup_delete_eq|done].
Qed.

(** A record that is delivered, or not. *)
Lemma send_delivered rec cmd h f r fates :
  connected h -> RArgs rec = Name cmd :: Args cmd -> wire_fits (SourceNodeID rec) cmd -> lSchedule (wNet h) = Delivered :: fates ->
  CoordinatorExecute (H := ER) cfgR (requestCommand (recordArgs rec)) (replica h) = Some (f, r) -> f = OK \/ isErrorFrame f = true ->
  exists err c, SendReplication cfgL R rec h = (err, mkWorld (wMeta h) (admitted h) c (mkLink r fates)) /\
    (c !! R = None \/ c !! R = Some "") /\ (err = None <-> f = OK).
Proof.
  intros Hc Ha Hw Hsch Hx Hf.
  assert (serve (H := coordinatorExecutor (H := ER) cfgR) (writeRequest (recordArgs rec)) (replica h) = Some (WriteFrame f, r, Disconnected)) as Hserve.
  { rw serve_one; [by eapply record_fits|]. unfold executeCommand, coordinatorExecutor. by rw Hx. }
  assert (readFrame (WriteFrame f) = Ok (readback f) "") as Hread.
  { rw -(app_nil_string (WriteFrame f)). apply readFrame_WriteFrame. by destruct Hf as [->|Hf]; [|destruct f]. }
  destruct (roundTrip_link (recordArgs rec) h (WriteFrame f) (mkLink r fates) Hc) as (c & Hcr & Hrt).
  { unfold linkTransfer, served. by rw Hsch Hserve. }
  rw Hread in Hcr Hrt. unfold SendReplication. rw Hrt. destruct Hf as [->|Hf].
  - by eexists _, c.
  - destruct f as [|p msg| | |]; try done. cbn [readback]. destruct (splitSpace _) as [a b].
    repeat case_match; by eexists _, c.
Qed.

Lemma send_lost rec h :
  connected h -> head (lSchedule (wNet h)) = None \/ head (lSchedule (wNet h)) = Some RequestLost ->
  exists err c, SendReplication cfgL R rec h = (Some err, mkWorld (wMeta h) (admitted h) c (mkLink (replica h) (tail (lSchedule (wNet h))))) /\
    (c !! R = None \/ c !! R = Some "").
Proof.
  intros Hc Hsch. destruct (roundTrip_link (recordArgs rec) h "" (mkLink (replica h) (tail (lSchedule (wNet h)))) Hc) as (c & Hcr & Hrt).
  { unfold linkTransfer. destruct (wNet h) as [r [|[] fates]]; by destruct Hsch. }
  unfold SendReplication. rw Hrt. by eexists _, c.
Qed.

(** *** The relation between the two nodes *)

(** The same slot at the leader and at the replica; [b] records may still be
    sent. *)
Record synced (b : Z) (st st' : SlotState) : Prop := {
  sync_leader : LeaderID st' = L;
  sync_replica : ReplicaID st = R;
  sync_replica' : ReplicaID st' = R;
  sync_term : Term st' = Term st;
  sync_term_range : 0 <= Term st <= maxUint64;
  sync_sequence : LastAppliedSequence st' = LastSequence st;
  sync_low : 0 <= LastSequence st;
  sync_high : LastSequence st + b <= maxUint64
}.

Record paired (b : Z) (mL mR : Metadata) : Prop := {
  pair_local : localID mL = L;
  pair_remote : localID mR = R;
  pair_count : slotCount mL = count;
  pair_led : forall n, 0 <= n -> (led n <-> exists st, Slot mL n = Some st /\ LeaderID st = L);
  pair_slots : forall n st, 0 <= n -> Slot mL n = Some st -> LeaderID st = L ->
    exists st', Slot mR n = Some st' /\ synced b st st'
}.

Lemma paired_weaken b b' mL mR : b' <= b -> paired b mL mR -> paired b' mL mR.
Proof.
  intros Hb [H3 H4 H5 H6 H7]. split; try done. intros n st Hn Hs Hl. destruct (H7 n st Hn Hs Hl) as (st' & Hs' & Hy).
  exists st'. split; [done|]. destruct Hy. split; try done. lia.
Qed.

Lemma paired_step b mL mR n st st' :
  0 <= n -> paired b mL mR -> Slot mL n = Some st -> LeaderID st = L -> Slot mR n = Some st' -> 1 <= b ->
  paired (b - 1) (setSlot mL n (withSequence st (LastSequence st + 1))) (setSlot mR n (withApplied st' (LastSequence st + 1))).
Proof.
  intros Hn Hp Hs Hl Hs' Hb. destruct (pair_slots _ _ _ Hp n st Hn Hs Hl) as (? & Heq & Hy). rw Hs' in Heq. injection Heq as <-.
  destruct Hp as [H3 H4 H5 H6 H7]. split; try done.
  - intros n' Hn'. rw (H6 n' Hn'). destruct (decide (n' = n)) as [->|Hne].
    + rw (Slot_setSlot _ _ _ _ Hs Hn) Hs. split; intros (x & [= <-] & Hx); by eexists.
    + by rw Slot_setSlot_ne.
  - intros n' x Hn'. destruct (decide (n' = n)) as [->|Hne].
    + rw (Slot_setSlot _ _ _ _ Hs Hn) (Slot_setSlot _ _ _ _ Hs' Hn). intros [= <-] _. eexists. split; [done|].
      destruct Hy. split; simpl; try done; lia.
    + rw !Slot_setSlot_ne //. intros Hx Hlx. destruct (H7 n' x Hn' Hx Hlx) as (x' & Hx' & []). exists x'. split; [done|].
      split; try done. lia.
Qed.

Definition slotOf (k : string) : Z := if count =? 0 then 0 else fnv32a k mod count.

(** The keys the leader is responsible for; the replicator leaves the empty key
    out. *)
Definition routed (k : string) : Prop := k <> "" /\ led (slotOf k).

Definition maxKey : Z := 33554400.

Record linked (kv : KV) (h : World Link) : Prop := {
  link_data : exists kvR, store_kv (nstore (replica h)) kvR /\ agrees routed kv kvR;
  link_meta : paired (Z.of_nat (length (lSchedule (wNet h)))) (wMeta h) (replicaMeta h);
  link_conn : connected h;
  link_schedule : ReplyLost ∉ lSchedule (wNet h);
  link_keys : forall k, is_Some (kv !! k) -> slen k <= maxKey
}.

(** The commands the replicator keeps the relation for. *)
Record replicable (cmd : Command) : Prop := {
  repl_wire : wire_fits L cmd;
  repl_permanent : permanentCommand cmd = true;
  repl_flush : isFlush cmd = false;
  repl_keys : Forall (fun k => slen k <= maxKey) (ExtractKeys cmd);
  repl_routed : Forall routed (ExtractKeys cmd) \/ Forall (fun k => ~ routed k) (ExtractKeys cmd)
}.

Lemma slotOf_nonneg k : 0 <= slotOf k.
Proof.
  unfold slotOf. destruct (Z.eqb_spec count 0); [done|]. apply Z.mod_pos_bound. lia.
Qed.
Lemma SlotForKey_slotOf b mL mR k : paired b mL mR -> SlotForKey mL k = slotOf k.
Proof. intros Hp. unfold SlotForKey, slotOf. by rw (pair_count _ _ _ Hp). Qed.

(** The keys of the data after a command. *)
Lemma spec_keys cmd kv t k :
  replicable cmd -> (forall k, is_Some (kv !! k) -> slen k <= maxKey) ->
  is_Some ((spec_execute (H := EL) cmd kv t).1.2 !! k) -> slen k <= maxKey.
Proof.
  intros Hr Hk Hs. destruct (decide (k ∈ ExtractKeys cmd)) as [Hin|Hin].
  - pose proof (repl_keys _ Hr) as Hall. rw Forall_forall in Hall. by apply Hall.
  - apply Hk. rw spec_other // in Hs. by apply repl_flush.
Qed.

Lemma spec_permanent cmd kv t :
  permanentCommand cmd = true -> isFlush cmd = false -> permanent kv -> permanent (spec_execute (H := EL) cmd kv t).1.2.
Proof.
  intros Hc Hf Hp. destruct (spec_same (E1 := EL) (E2 := EL) (fun _ => True) cmd kv kv t t Hc Hf) as [_ []]; [|done|done].
  by apply Forall_forall.
Qed.

(** A command on keys that are not replicated does not break the relation. *)
Lemma linked_unrouted cmd kv h t :
  replicable cmd -> Forall (fun k => ~ routed k) (ExtractKeys cmd) -> linked kv h -> linked (spec_execute (H := EL) cmd kv t).1.2 h.
Proof.
  intros Hr Hall [(kvR & Hs & Ha) Hm Hc Hsch Hk]. split; try done.
  - exists kvR. split; [done|]. destruct Ha as [Ha H1' H2']. split; [|apply spec_permanent; [by apply repl_permanent|by apply repl_flush|done]|done].
    intros k Hk'. rw spec_other; [by apply repl_flush| |by apply Ha]. intros Hin. rw Forall_forall in Hall. by apply (Hall k Hin).
  - intros k. by apply spec_keys.
Qed.

(** Nothing but the connection and the schedule has changed. *)
Lemma linked_lost kv h c fates :
  linked kv h -> (c !! R = None \/ c !! R = Some "") -> fates `suffix_of` lSchedule (wNet h) ->
  linked kv (mkWorld (wMeta h) (admitted h) c (mkLink (replica h) fates)).
Proof.
  intros [Hd Hm Hc Hsch Hk] Hc' Hf. split; try done; simpl.
  - eapply paired_weaken; [|done]. apply suffix_length in Hf. lia.
  - intros Hin. apply Hsch. destruct Hf as [l ->]. apply elem_of_app. by right.
Qed.

(** One record: sent for the slot [n] that the leader owns. *)
Lemma send_keeps cmd kv h n st :
  replicable cmd -> Forall routed (ExtractKeys cmd) -> linked kv h -> 0 <= n -> Slot (wMeta h) n = Some st -> LeaderID st = L ->
  LastSequence st < maxUint64 \/ lSchedule (wNet h) = [] ->
  let rec := mkRecord L n (Term st) (LastSequence st + 1) (commandToStrings cmd) in
  exists err h', SendReplication cfgL R rec h = (err, h') /\ wMeta h' = wMeta h /\
    match err with
    | Some _ => linked kv h'
    | None => forall t, linked (spec_execute (H := EL) cmd kv t).1.2
                (setMeta (setSlot (wMeta h) n (withSequence st (LastSequence st + 1))) h')
    end.
Proof.
  intros Hr Hrt Hlk Hn Hst Hl Hlast rec. pose proof Hlk as [(kvR & Hs & Ha) Hm Hc Hsch Hk].
  destruct (lSchedule (wNet h)) as [|fate fates] eqn:Hfates.
  { destruct (send_lost rec h Hc) as (err & c & Hsend & Hc'); [rw Hfates; by left|]. eexists _, _. split; [done|]. split; [done|].
    apply linked_lost; [done|done|]. by rw Hfates. }
  destruct fate; [|destruct (send_lost rec h Hc) as (err & c & Hsend & Hc'); [rw Hfates; by right|]; eexists _, _; split; [done|]; split; [done|];
    apply linked_lost; [done|done|rw Hfates; by apply suffix_cons_r]|by destruct Hsch; left].
  destruct (pair_slots _ _ _ Hm n st Hn Hst Hl) as (st' & Hst' & Hy).
  assert (LastSequence st < maxUint64) as Hlt by (destruct Hlast as [|]; [done|discriminate]). pose proof (sync_low _ _ _ Hy).
  assert (rec = nextRecord n st' cmd) as Hrec.
  { unfold rec, nextRecord. by rw (sync_leader _ _ _ Hy) (sync_term _ _ _ Hy) (sync_sequence _ _ _ Hy). }
  destruct (replica_applies (H := ER) cfgR (replica h) kvR n st' cmd Hs (agrees_right _ _ _ Ha) (repl_flush _ Hr)) as (f & r & Hx & Hres).
  { pose proof (Slot_range _ _ _ Hst). lia. } { done. } { by rw (sync_replica' _ _ _ Hy) (pair_remote _ _ _ Hm). }
  { rw (sync_term _ _ _ Hy). apply (sync_term_range _ _ _ Hy). } { rw (sync_sequence _ _ _ Hy). lia. }
  destruct (send_delivered rec cmd h f r fates Hc) as (err & c & Hsend & Hc' & Herr); [done|by apply repl_wire|done|by rw Hrec| |].
  { destruct Hres as [(? & _)|(? & _)]; [by right|by left]. }
  exists err, (mkWorld (wMeta h) (admitted h) c (mkLink r fates)). split; [done|]. split; [done|].
  assert (ReplyLost ∉ fates) as Hsch' by (intros Hin; apply Hsch; by right).
  destruct Hres as [(Hf & Hs' & Hh)|(Hf & Hh & t' & Hs')].
  - destruct err as [e|]; [|by rw (proj1 Herr eq_refl) in Hf]. split; simpl; [by exists kvR| |done|done|done].
    rw Hh. eapply paired_weaken; [|exact Hm]. simpl. lia.
  - rw (proj2 Herr Hf). intros t. split; simpl; [| |done|done|intros k; by apply spec_keys].
    + eexists. split; [exact Hs'|]. apply (spec_same (E1 := EL) (E2 := ER) routed cmd kv kvR t t'); [by apply repl_permanent|by apply repl_flush|done|done].
    + rw Hh. simpl. rw (sync_sequence _ _ _ Hy).
      replace (Z.of_nat (length fates)) with (Z.of_nat (length (Delivered :: fates)) - 1) by (simpl; lia).
      apply (paired_step _ _ _ n st st'); try done. simpl. lia.
Qed.

(** The replicator is a hook that keeps the relation. *)
Lemma Replicate_keeps cmd kv h :
  replicable cmd -> linked kv h ->
  match (Replicate cfgL cmd h).1 with
  | Some _ => linked kv (Replicate cfgL cmd h).2
  | None => forall t, linked (spec_execute (H := EL) cmd kv t).1.2 (Replicate cfgL cmd h).2
  end.
Proof.
  intros Hr Hlk. unfold Replicate. unfold ExtractPrimaryKey. pose proof (repl_routed _ Hr) as Hrt.
  destruct (ExtractKeys cmd) as [|key keys] eqn:Hkeys; cbn [head].
  { intros t. apply linked_unrouted; [done| |done]. by rw Hkeys. }
  assert (key = "" -> forall t, linked (spec_execute (H := EL) cmd kv t).1.2 h) as Hempty.
  { intros -> t. apply linked_unrouted; [done| |done]. rw Hkeys. destruct Hrt as [[[??] _]%Forall_cons|]; done. }
  destruct key as [|c key']; [exact (Hempty eq_refl)|]. clear Hempty. set (key := String c key') in *.
  pose proof (link_meta _ _ Hlk) as Hm. rw (SlotForKey_slotOf _ _ _ key Hm). pose proof (slotOf_nonneg key) as Hn.
  unfold PrepareReplication. destruct (Slot (wMeta h) (slotOf key)) as [st|] eqn:Hst; [|done].
  rw (pair_local _ _ _ Hm). destruct (String.eqb_spec (LeaderID st) L) as [Hl|]; [|done]. cbn [negb].
  destruct (_ || _); [done|].
  assert (Forall routed (key :: keys)) as Hall.
  { destruct Hrt as [|[Hno _]%Forall_cons]; [done|]. destruct Hno. split; [done|]. apply (pair_led _ _ _ Hm _ Hn). by eexists. }
  destruct (pair_slots _ _ _ Hm _ st Hn Hst Hl) as (st' & _ & Hy). rw (sync_replica _ _ _ Hy).
  pose proof (sync_low _ _ _ Hy). pose proof (sync_high _ _ _ Hy).
  destruct (decide (lSchedule (wNet h) = [])) as [Hnil|Hcons].
  { destruct (send_lost (mkRecord L (slotOf key) (Term st) (u64 (LastSequence st + 1)) (commandToStrings cmd)) h (link_conn _ _ Hlk))
      as (err & c' & Hsend & Hc'); [rw Hnil; by left|]. rw Hsend. destruct err as [[]|]; apply linked_lost; try done; by rw Hnil. }
  assert (LastSequence st < maxUint64) as Hlt by (destruct (lSchedule (wNet h)); [done|simpl in *; lia]).
  assert (u64 (LastSequence st + 1) = LastSequence st + 1) as Hu by (apply u64_small; unfold maxUint64 in *; lia). rw Hu.
  destruct (send_keeps cmd kv h (slotOf key) st Hr) as (err & h' & Hsend & Hmeta & Hres); [by rw Hkeys|done..|by left|].
  rw Hsend. destruct err as [[[??]|?]|]; [done|done|].
  unfold CommitLeaderSequence. rw Hmeta Hst (pair_local _ _ _ Hm) Hl String.eqb_refl Z.eqb_refl. cbn [negb orb]. rw Hu Z.eqb_refl. cbn [negb fst snd fmap option_fmap option_map].
  intros t. specialize (Hres t). unfold withSequence in Hres. by rw Hl in Hres.
Qed.

(** *** The leader's coordinator *)

(** The commands of a client for keys of the leader. *)
Record client_command (cmd : Command) : Prop := {
  client_name : Name cmd ∉ ["REPLICATE"; "CLUSTERAPPLY"; "CLUSTERSNAPSHOT"];
  client_size : args_len (Name cmd :: Args cmd) <= maxKey;
  client_args : Z.of_nat (length (Args cmd)) <= 1000000;
  client_permanent : permanentCommand cmd = true;
  client_keys : Forall routed (ExtractKeys cmd)
}.

Record in_sync (w : Eng (World Link)) (kv : KV) : Prop := {
  sync_store : store_kv (nstore w) kv;
  sync_within : kv_exact kv /\ ktotal kv <= nodeLimit cfgL;
  sync_linked : linked kv (engHook w)
}.

Context (Hlim : 0 < nodeLimit cfgL < maxUint64) (Hrepl : replicated cfgL = true) (HL : slen L <= 1000000).
Context (Hvisit : forall t, range_ok (visit (Env := EL) t)).

Lemma client_replicable cmd : client_command cmd -> isFlush cmd = false -> replicable cmd.
Proof.
  intros [Hn Hs Ha Hp Hk] Hf. split; try done; [| |by left].
  - split; [done|]. split; [unfold maxKey in Hs; lia|done].
  - apply Forall_forall. intros k Hin. etrans; [|exact Hs]. apply args_len_elem. right. unfold ExtractKeys in Hin.
    destruct (bool_decide _); [by apply elem_of_nil in Hin|]. destruct (bool_decide _); [done|].
    apply elem_of_take in Hin as (i & Hi & _). by eapply list_elem_of_lookup_2.
Qed.

Lemma eviction_replicable kv h k : linked kv h -> is_Some (kv !! k) -> replicable (evictionDeleteCommand k).
Proof.
  intros Hlk Hk. pose proof (link_keys _ _ Hlk k Hk) as Hlen. unfold maxKey in Hlen. split; try done.
  - split; [done|]. split; [|done]. cbn [Name Args evictionDeleteCommand args_len foldr]. change (slen "DEL") with 3. lia.
  - constructor; [done|constructor].
  - cbn. destruct (decide (k = "")) as [->|Hne]; [right; constructor; [by intros [? _]|constructor]|].
    pose proof (link_meta _ _ Hlk) as Hm. destruct (Slot (wMeta h) (slotOf k)) as [st|] eqn:Hst.
    + destruct (decide (LeaderID st = L)) as [Hl|Hl].
      * left. constructor; [|constructor]. split; [done|]. apply (pair_led _ _ _ Hm _ (slotOf_nonneg k)). by eexists.
      * right. constructor; [|constructor]. intros [_ (? & Heq & ?)%(pair_led _ _ _ Hm _ (slotOf_nonneg k))]. congruence.
    + right. constructor; [|constructor]. intros [_ (? & Heq & ?)%(pair_led _ _ _ Hm _ (slotOf_nonneg k))]. congruence.
Qed.

Lemma engine_in_sync cmd w kv :
  client_command cmd -> isFlush cmd = false -> in_sync w kv ->
  exists f w' kv', EngineExecute (H := EL) (engineConfig cfgL) cmd w = Some (f, w') /\ in_sync w' kv'.
Proof.
  intros Hcl Hf [Hs Hin Hlk].
  assert (cmd_fits cmd) as Hfit.
  { pose proof (client_size _ Hcl) as Hsz. unfold cmd_fits, maxKey in *. cbn [args_len foldr] in Hsz.
    pose proof (slen_nonneg (Name cmd)). change (foldr (fun a z => slen a + z) 0 (Args cmd)) with (args_len (Args cmd)) in Hsz. lia. }
  destruct (EngineExecute_runs (H := EL) (engineConfig cfgL) cmd w kv Hlim Hs Hin Hfit) as (f & w' & Hx & kv' & Hs' & Hin' & _).
  exists f, w', kv'. split; [done|]. split; [done|done|].
  destruct (EngineExecute_keeps (H := EL) (engineConfig cfgL) (Replicate cfgL)) with (I := linked) (ok := replicable) (cmd := cmd) (w := w) (kv := kv) (f := f) (w' := w')
    as (kv2 & Hs2 & Hlk2); try done.
  - cbn. by rw Hrepl.
  - intros kv0 h H0'. destruct (link_data _ _ H0') as (kvR & _ & Ha). apply (agrees_left _ _ _ Ha).
  - intros cmd0 kv0 h. apply Replicate_keeps.
  - intros kv0 h k. apply eviction_replicable.
  - intros _. by apply client_replicable.
  - apply Hin.
  - by rw (store_kv_fun _ _ _ Hs' Hs2).
Qed.

(** Every client command keeps the nodes in sync. *)
Lemma coordinator_in_sync cmd w kv :
  client_command cmd -> in_sync w kv ->
  exists f w' kv', CoordinatorExecute (H := EL) cfgL cmd w = Some (f, w') /\ in_sync w' kv'.
Proof.
  intros Hcl Hin.
  assert (forall f : Frame, exists f' w' kv', Some (f, w) = Some (f', w') /\ in_sync w' kv') as Hsame by (intros f; by exists f, w, kv).
  assert (forall n, n ∈ ["REPLICATE"; "CLUSTERAPPLY"; "CLUSTERSNAPSHOT"] -> String.eqb (Name cmd) n = false) as Hno.
  { intros n Hn. apply String.eqb_neq. intros <-. by apply (client_name _ Hcl). }
  unfold CoordinatorExecute. cbv zeta.
  rw (Hno "REPLICATE" ltac:(by apply (bool_decide_unpack _))) (Hno "CLUSTERAPPLY" ltac:(by apply (bool_decide_unpack _)))
     (Hno "CLUSTERSNAPSHOT" ltac:(by apply (bool_decide_unpack _))).
  destruct (String.eqb (Name cmd) "CLUSTERMETA").
  { rw readMeta_bind. apply Hsame. }
  destruct (String.eqb (Name cmd) "FLUSHDB" || String.eqb (Name cmd) "FLUSHALL") eqn:Hf; [apply Hsame|].
  rw DataAdmitted_bind. destruct (admitted (engHook w)); [|apply Hsame]. unfold routeCommand.
  destruct (ExtractKeys cmd) as [|key keys] eqn:Hkeys; [by apply (engine_in_sync cmd w kv)|].
  rw readMeta_bind. cbv zeta. destruct (existsb _ _); [apply Hsame|]. pose proof (link_meta _ _ (sync_linked _ _ Hin)) as Hm. rw (SlotForKey_slotOf _ _ _ key Hm).
  pose proof (client_keys _ Hcl) as Hall. rw Hkeys in Hall. apply Forall_cons in Hall as [[_ Hled] _].
  apply (pair_led _ _ _ Hm _ (slotOf_nonneg key)) in Hled as (st & Hst & Hl). rw Hst.
  destruct (String.eqb _ ""); [apply Hsame|]. rw Hl String.eqb_refl. by apply (engine_in_sync cmd w kv).
Qed.

(** A sequence of commands at the leader. *)
Fixpoint leader_run (cmds : list Command) (w : Eng (World Link)) : option (list Frame * Eng (World Link)) :=
  match cmds with
  | [] => Some ([], w)
  | cmd :: cmds =>
      '(f, w) ← CoordinatorExecute (H := EL) cfgL cmd w;
      '(fs, w) ← leader_run cmds w;
      Some (f :: fs, w)
  end.

Lemma leader_run_sync cmds w kv :
  Forall client_command cmds -> in_sync w kv ->
  exists fs w' kv', leader_run cmds w = Some (fs, w') /\ in_sync w' kv'.
Proof.
  intros Hall. revert w kv; induction Hall as [|cmd cmds Hc _ IH]; intros w kv Hin; cbn [leader_run]; [by exists [], w, kv|].
  destruct (coordinator_in_sync cmd w kv Hc Hin) as (f & w1 & kv1 & -> & Hin1). cbn [mbind option_bind].
  destruct (IH w1 kv1 Hin1) as (fs & w2 & kv2 & -> & Hin2). by exists (f :: fs), w2, kv2.
Qed.
End pair.

(** ** Who changes the data *)

Section keyless.
Context `{Env}.

Lemma keyless_args cmd : ExtractKeys cmd = [] -> Name cmd ∈ keyless \/ Args cmd = [].
Proof.
  unfold ExtractKeys. case_bool_decide; [by left|]. case_bool_decide; [by right|]. destruct (Args cmd); [by right|done].
Qed.

(** A command without keys leaves the system as it is. *)
Lemma Execute_keyless cmd w : ExtractKeys cmd = [] -> isFlush cmd = false -> exists f, Execute cmd w = Some (f, w).
Proof.
  intros Hk Hf. apply orb_false_elim in Hf as [Hf1 Hf2]. unfold Execute. cbv zeta. rw Hf1 Hf2. cbn [orb].
  apply keyless_args in Hk as [Hk|Hk].
  - unfold keyless in Hk. rw !elem_of_cons elem_of_nil in Hk.
    repeat match goal with Hk : _ \/ _ |- _ => destruct Hk as [Hk|Hk] end; try (by rw Hk in Hf1); try (by rw Hk in Hf2); try done.
    all: rw Hk; cbn [String.eqb Ascii.eqb Bool.eqb]; unfold cmdPing, cmdEcho; try (by eexists); destruct (Args cmd) as [|? [|]]; by eexists.
  - unfold cmdPing, cmdEcho, cmdDel, cmdExists, cmdExpire, cmdTTL, cmdSet, cmdGet, cmdIncr, cmdLPush, cmdRPush, cmdLPop, cmdRPop, cmdLLen,
      cmdZAdd, cmdZRange, cmdZCard, cmdZScore. rw Hk. dispatch; by eexists.
Qed.

Lemma plan_keyless cmd w : Args cmd = [] -> exists plan, planAdmission cmd w = Some (plan, w) /\ requiredGrowth plan = 0.
Proof.
  intros Hk. unfold planAdmission, planSet, planIncr, planListPush, planZAdd. cbv zeta. rw Hk. repeat case_match; by eexists.
Qed.
End keyless.

Section writers.
Context `{Env, SliceSort, Texts, JSON} {N : Type} `{Net N} (cfg : NodeConfig).

Lemma hookIf_sys (c : Config (World N)) sync cmd w r w' : hookIf c sync cmd w = Some (r, w') -> engSys w' = engSys w.
Proof.
  unfold hookIf, callHook. destruct (writeHook c) as [hook|]; [|by intros [= <- <-]]. destruct (Bool.eqb _ _); [|by intros [= <- <-]].
  destruct (hook cmd (engHook w)). by intros [= <- <-].
Qed.

Lemma executeHooked_keyless (c : Config (World N)) cmd w f w' :
  ExtractKeys cmd = [] -> isFlush cmd = false -> executeHooked c cmd w = Some (f, w') -> engSys w' = engSys w.
Proof.
  intros Hk Hf. unfold executeHooked, mbind, EM_bind. destruct (hookIf c true cmd w) as [[err w1]|] eqn:Hh; [|done].
  apply hookIf_sys in Hh. cbn [mbind option_bind]. destruct err; [by intros [= <- <-]|]. unfold liftM.
  destruct (Execute_keyless cmd (engSys w1) Hk Hf) as [g ->]. cbn [mbind option_bind].
  destruct (isErrorFrame g); [by intros [= <- <-]|].
  destruct (hookIf c false cmd _) as [[err w2]|] eqn:Hh2; [|done]. apply hookIf_sys in Hh2. cbn [mbind option_bind].
  intros [= <- <-]. by rw Hh2 Hh.
Qed.

Lemma engine_keyless (c : Config (World N)) cmd w f w' :
  ExtractKeys cmd = [] -> isFlush cmd = false -> EngineExecute c cmd w = Some (f, w') -> engSys w' = engSys w.
Proof.
  intros Hk Hf. unfold EngineExecute, mbind at 1, EM_bind at 1.
  set (m := if IsWriteCommand (Name cmd) then executeWithAdmission c cmd else liftM (Execute cmd)).
  assert (forall g w1, m w = Some (g, w1) -> engSys w1 = engSys w) as Hstep.
  2: { destruct (m w) as [[g w1]|]; [|done]. cbn. intros [= <- <-]. exact (Hstep g w1 eq_refl). }
  intros g w1. unfold m. clear m. destruct (IsWriteCommand (Name cmd)) eqn:Hw.
  - assert (Args cmd = []) as Ha.
    { destruct (keyless_args cmd Hk) as [Hin|]; [|done]. exfalso. unfold IsWriteCommand in Hw. apply bool_decide_eq_true in Hw.
      apply orb_false_elim in Hf as [Hf1 Hf2]. unfold keyless in Hin. rw !elem_of_cons elem_of_nil in Hin.
      repeat match goal with Hin : _ \/ _ |- _ => destruct Hin as [Hin|Hin] end; try done;
        rw Hin in Hf1 Hf2 Hw; try done; by apply (bool_decide_unpack _) in Hw || (revert Hw; apply (bool_decide_unpack _); done). }
    unfold executeWithAdmission, mbind at 1, EM_bind at 1, liftM. destruct (plan_keyless cmd (engSys w) Ha) as (plan & -> & Hg).
    cbn [mbind option_bind]. assert (mkEng (engSys w) (engHook w) (engMetrics w) = w) as -> by by destruct w.
    destruct (response plan) as [r|].
    { unfold mbind, EM_bind. destruct (isOOMFrame r); cbn; by intros [= <- <-]. }
    rw Hg. replace (0 <? 0) with false by done. rw andb_false_r. by apply executeHooked_keyless.
  - unfold liftM. destruct (Execute_keyless cmd (engSys w) Hk Hf) as [r ->]. cbn. by intros [= <- <-].
Qed.
End writers.

(** ** Two nodes *)

Definition plainTexts : Texts :=
  {| Quote := fun s => s; readErrText := fun _ => "EOF"; snapErrText := fun _ => "invalid snapshot" |}.
Definition emptyJSON : JSON :=
  {| marshalMetadata := fun _ => "{}"; unmarshalMetadata := fun _ => None; marshalShard := fun _ => "{}"; unmarshalShard := fun _ => None |}.
#[local] Existing Instances plainTexts emptyJSON.

Definition twoPeers : list MetadataPeer := [mkPeer "a" "ha:1" "ha:2"; mkPeer "b" "hb:1" "hb:2"].
Definition twoNodes : ClusterConfig := mkClusterConfig "c" true true 4 twoPeers.
Definition nodeOf (id : string) : NodeConfig := mkNodeConfig id twoPeers 1000 LRU true.
Definition startNode {N} (id : string) (n : N) : Eng (World N) :=
  mkEng (mkSys (NewStore 2) 0) (mkWorld (default (mkMetadata "" 0 0 "" [] ∅ []) (NewMetadata twoNodes id)) true ∅ n) [].
Definition startPair (fates : list Fate) : Eng (World Link) := startNode "a" (mkLink (startNode "b" tt) fates).
Definition pairRun : list Command -> Eng (World Link) -> option (list Frame * Eng (World Link)) :=
  leader_run (EL := steadyEnv) (ER := steadyEnv) (nodeOf "a") (nodeOf "b") "hb:1".

(** The slots of the leader [a]. *)
Definition slotsOfA (n : Z) : Prop := n = 0 \/ n = 1.

Lemma startPair_sync fates :
  ReplyLost ∉ fates -> Z.of_nat (length fates) < maxUint64 ->
  in_sync (nodeOf "a") "b" 4 slotsOfA (startPair fates) ∅.
Proof.
  intros Hf Hlen. assert (0 <= 2 < 4294967296) as Hn by done. split.
  - by apply NewStore_spec.
  - split; [by intros k x ?%lookup_empty_Some|done].
  - split; simpl; try done.
    + exists ∅. split; [by apply NewStore_spec|]. split; [done|apply permanent_empty..].
    + split; try done.
      * intros n Hn'. unfold slotsOfA, Slot.
        change (u32 (Z.of_nat (length (slots _)))) with 4. destruct (Z.leb_spec 4 n).
        { split; [lia|by intros (? & ? & _)]. }
        assert (n = 0 \/ n = 1 \/ n = 2 \/ n = 3) as [-> | [-> | [-> | ->]]] by lia; split; try (intros _; by eexists); try (intros [?|?]; lia); try (by left); try (by right);
          intros (st & [= <-] & ?); done.
      * intros n st Hn' Hst Hl. assert (Z.of_nat (length fates) <= maxUint64) as Hle by lia. revert Hst Hl. unfold Slot.
        change (u32 (Z.of_nat (length (slots _)))) with 4. destruct (Z.leb_spec 4 n); [done|].
        assert (n = 0 \/ n = 1 \/ n = 2 \/ n = 3) as [-> | [-> | [-> | ->]]] by lia; intros [= <-] Hl; try done; eexists; by split.
    + by left.
    + intros k [x Hx]. by rw lookup_empty in Hx.
Qed.

(** ** The theorems *)


Definition pairCommands : list Command :=
  [mkCommand "SET" ["a"; "1"]; mkCommand "INCR" ["a"]; mkCommand "RPUSH" ["b"; "x"; "y"]; mkCommand "LPOP" ["b"]].
Lemma pairCommands_ok : Forall (client_command 4 slotsOfA) pairCommands.
Proof.
  assert (forall k, k <> "" -> slotsOfA (slotOf 4 k) -> Forall (routed 4 slotsOfA) [k]) as Hk by (intros k ? ?; by constructor).
  repeat (apply Forall_cons; split; [split; [by apply (bool_decide_unpack _)|vm_compute; discriminate|done|done|]|]); try done.
  all: apply Hk; [done|]; unfold slotsOfA; vm_compute; tauto.
Qed.

(** A replication record within the limits of the wire arrives as it was sent:
    the replica's parser reads back one request, to its last byte, and the
    coordinator applies that record and answers with its outcome. *)
Theorem record_round_trip `{Env, SliceSort, Texts, JSON} {N} `{Net N} cfg rec cmd (w : Eng (World N)) :
  RArgs rec = Name cmd :: Args cmd -> wire_fits (SourceNodeID rec) cmd ->
  0 <= RSlot rec < 4294967296 -> 0 <= RTerm rec <= maxUint64 -> 0 <= Sequence rec <= maxUint64 ->
  exists req, Resp.Next NewParser readBufferSize (writeRequest (recordArgs rec)) = Ok req "" /\
    CoordinatorExecute cfg req w =
      '(err, w') ← ApplyReplication rec w; Some (match err with Some e => clusterFrameError e | None => OK end, w').
Proof.
  intros Ha Hw Hn Ht Hs. exists (requestCommand (recordArgs rec)). split.
  - rw -(app_nil_string (writeRequest _)). apply Next_request. by eapply record_fits.
  - by apply (coordinator_record cfg rec (Name cmd) (Args cmd)).
Qed.

Lemma record_round_trip_witness :
  exists req, Resp.Next NewParser readBufferSize (writeRequest (recordArgs (mkRecord "a" 1 7 18446744073709551615 ["SET"; "k"; CRLF]))) = Ok req "" /\
    CoordinatorExecute (H := steadyEnv) (nodeOf "b") req (startNode "b" tt) =
      '(err, w') ← ApplyReplication (H := steadyEnv) (mkRecord "a" 1 7 18446744073709551615 ["SET"; "k"; CRLF]) (startNode "b" tt);
      Some (match err with Some e => clusterFrameError e | None => OK end, w').
Proof.
  apply (record_round_trip (H := steadyEnv) (nodeOf "b") (mkRecord "a" 1 7 18446744073709551615 ["SET"; "k"; CRLF]) (mkCommand "SET" ["k"; CRLF])); done.
Defined.

(** A lost reply is not repaired: the replica has applied the record, the leader
    has not, and the leader uses the same sequence again for the next write,
    which the replica acknowledges as a duplicate.  All later writes succeed,
    terms and sequences are equal, yet leader and replica hold different
    values. *)
Theorem lost_reply_diverges :
  exists w, pairRun [mkCommand "SET" ["a"; "1"]; mkCommand "SET" ["a"; "2"]; mkCommand "GET" ["a"]] (startPair [ReplyLost; Delivered]) =
      Some ([replicationFailed "slot replica is unavailable or not synchronized: EOF"; OK; BulkBytes "2"], w) /\
    slots (wMeta (engHook w)) !! 0%nat = Some (mkSlot 0 "a" "b" 1 1 1 true) /\
    slots (wMeta (engHook (lReplica (wNet (engHook w))))) !! 0%nat = Some (mkSlot 0 "a" "b" 1 1 1 true) /\
    fst <$> Execute (H := steadyEnv) (mkCommand "GET" ["a"]) (engSys (lReplica (wNet (engHook w)))) = Some (BulkBytes "1").
Proof. eexists. split; [vm_compute; reflexivity|]. vm_compute. repeat split. Qed.

(** Writes under the empty key are executed by the leader but never sent to the
    replica, although they succeed; and so is a DEL whose first key is empty,
    for its other keys too. *)
Theorem empty_key_unreplicated :
  exists w, pairRun [mkCommand "SET" [""; "1"]; mkCommand "SET" ["b"; "2"]; mkCommand "DEL" [""; "b"]; mkCommand "EXISTS" ["b"]]
        (startPair [Delivered; Delivered; Delivered; Delivered]) = Some ([OK; OK; Integer 2; Integer 0], w) /\
    lSchedule (wNet (engHook w)) = [Delivered; Delivered; Delivered] /\
    fst <$> Execute (H := steadyEnv) (mkCommand "EXISTS" [""; "b"]) (engSys (lReplica (wNet (engHook w)))) = Some (Integer 1).
Proof. eexists. split; [vm_compute; reflexivity|]. vm_compute. repeat split. Qed.

(** Without keys the coordinator leaves the data alone. *)
Lemma keyless_keeps `{Env, SliceSort, Texts, JSON} {N} `{Net N} cfg cmd (w : Eng (World N)) f w' :
  Name cmd <> "REPLICATE" -> Name cmd <> "CLUSTERSNAPSHOT" -> ExtractKeys cmd = [] -> CoordinatorExecute cfg cmd w = Some (f, w') -> nstore w' = nstore w.
Proof.
  intros Hn1 Hn2 Hkeys. unfold CoordinatorExecute. cbv zeta. rw (proj2 (String.eqb_neq _ _) Hn1) (proj2 (String.eqb_neq _ _) Hn2).
  assert (forall g, Some (g, w) = Some (f, w') -> nstore w' = nstore w) as Hsame by (by intros g [= _ <-]).
  destruct (String.eqb (Name cmd) "CLUSTERMETA"); [rw readMeta_bind; apply Hsame|].
  destruct (String.eqb (Name cmd) "CLUSTERAPPLY").
  { unfold applyMetadata. destruct (Args cmd) as [|raw [|]]; [apply Hsame| |apply Hsame].
    destruct (unmarshalMetadata raw) as [state|]; [|apply Hsame]. unfold ApplyMetadata, onMeta, onWorld, mbind, EM_bind.
    destruct (ApplyRemote _ _) as [err m']. by intros [= _ <-]. }
  destruct (String.eqb (Name cmd) "FLUSHDB" || String.eqb (Name cmd) "FLUSHALL") eqn:Hf; [apply Hsame|].
  rw DataAdmitted_bind. destruct (admitted (engHook w)); [|apply Hsame]. unfold routeCommand. rw Hkeys.
  intros Hx. unfold nstore. by rw (engine_keyless _ _ _ _ _ Hkeys Hf Hx).
Qed.
(** A command with keys is routed: no other part of the coordinator takes it. *)
Lemma keyed_route `{Env, SliceSort, Texts, JSON} {N} `{Net N} cfg cmd (w : Eng (World N)) : ExtractKeys cmd <> [] ->
  CoordinatorExecute cfg cmd w =
    if admitted (engHook w) then routeCommand cfg cmd w else Some (NewError "CLUSTERDOWN" "node is recovering and not admitted", w).
Proof.
  intros Hk. assert (Name cmd ∉ keyless) as Hn. { unfold ExtractKeys in Hk. by destruct (bool_decide_reflect (Name cmd ∈ keyless)). }
  assert (Hneq : forall n, n ∈ keyless -> String.eqb (Name cmd) n = false) by (intros n Hin; apply String.eqb_neq; intros Heq; apply Hn; by rw Heq).
  unfold CoordinatorExecute. cbv zeta. rewrite -> !Hneq by (by apply (bool_decide_unpack _)). cbn [orb]. rw DataAdmitted_bind. by destruct (admitted _).
Qed.

(** C6: Whatever the network does, a client command changes the data of a node
    only if the node is admitted, the command has keys, and the node leads the
    slot of each of them.  A command with keys is executed by the engine of a
    node that is admitted and leads all of them, or else it leaves the data alone
    and is either answered with an error ([CLUSTERDOWN] or [CROSSSLOT]) or
    forwarded to the one other node that leads all its keys, whose reply is the
    answer. *)
Theorem only_leader_writes `{Env, SliceSort, Texts, JSON} {N} `{Net N} cfg cmd (w : Eng (World N)) f w' :
  Name cmd ∉ ["REPLICATE"; "CLUSTERSNAPSHOT"] -> CoordinatorExecute cfg cmd w = Some (f, w') ->
  let m := wMeta (engHook w) in
  let leads := fun k => exists st, Slot m (SlotForKey m k) = Some st /\ LeaderID st = nodeID cfg in
  (nstore w' <> nstore w -> admitted (engHook w) = true /\ ExtractKeys cmd <> [] /\ forall k, k ∈ ExtractKeys cmd -> leads k) /\
  (ExtractKeys cmd <> [] ->
    (admitted (engHook w) = true /\ (forall k, k ∈ ExtractKeys cmd -> leads k) /\ EngineExecute (engineConfig cfg) cmd w = Some (f, w')) \/
    nstore w' = nstore w /\
      ((exists text, f = NewError "CLUSTERDOWN" text \/ f = NewError "CROSSSLOT" text) \/
       exists st, admitted (engHook w) = true /\ (forall k, k ∈ ExtractKeys cmd -> Slot m (SlotForKey m k) = Some st) /\
         LeaderID st <> nodeID cfg /\ (Forward cfg (LeaderID st) cmd (engHook w)).1 = inl f)).
Proof.
  intros Hname Hx m leads. rw not_elem_of_cons in Hname. destruct Hname as [Hn1 Hname]. rw not_elem_of_cons in Hname. destruct Hname as [Hn2 _].
  destruct (ExtractKeys cmd) as [|key keys] eqn:Hkeys.
  { split; [|done]. intros Hne. exfalso. apply Hne. eapply keyless_keeps; done. }
  assert (Hroute : ExtractKeys cmd <> []) by (by rw Hkeys). rw (keyed_route cfg cmd w Hroute) in Hx. clear Hroute.
  match goal with |- (_ -> ?A) /\ (_ -> ?B) => enough (B /\ (nstore w' <> nstore w -> A)) as [HB HA] by (split; [exact HA|by intros _]) end.
  destruct (admitted (engHook w)) eqn:Had; [|injection Hx as <- <-; split; [right; split; [done|]; left; by eexists; left|done]].
  unfold routeCommand in Hx. rw Hkeys readMeta_bind in Hx. cbv zeta in Hx. fold m in Hx. destruct (existsb _ keys) eqn:Hcross.
  { injection Hx as <- <-. split; [right; split; [done|]; left; by eexists; right|done]. }
  assert (Hsame : forall k, k ∈ key :: keys -> SlotForKey m k = SlotForKey m key).
  { intros k. rw elem_of_cons. intros [->|Hk]; [done|]. pose proof (existsb_none _ _ k Hcross Hk) as Heq. by apply negb_false_iff, Z.eqb_eq in Heq. }
  destruct (Slot m (SlotForKey m key)) as [st|] eqn:Hst; [|injection Hx as <- <-; split; [right; split; [done|]; left; by eexists; left|done]].
  destruct (String.eqb (LeaderID st) ""); [injection Hx as <- <-; split; [right; split; [done|]; left; by eexists; left|done]|].
  destruct (String.eqb_spec (LeaderID st) (nodeID cfg)) as [Hl|Hl]; cbn [negb] in Hx.
  - assert (Hled : forall k, k ∈ key :: keys -> leads k) by (intros k Hk; exists st; by rw (Hsame k Hk)). split; [by left|]. by intros _.
  - unfold onWorld, mbind, EM_bind in Hx. destruct (Forward _ _ _ _) as [r h] eqn:Hf. cbn in Hx. injection Hx as <- <-. split; [|done]. right. split; [done|].
    destruct r as [frame|e]; [|left; by eexists; left]. right. exists st. split_and!; try done; [by intros k Hk; rw (Hsame k Hk)|by rw Hf].
Qed.

Lemma only_leader_writes_witness :
  exists f w', CoordinatorExecute (H := steadyEnv) (N := Link) (H3 := linkNet (H := steadyEnv) (nodeOf "b") "hb:1") (nodeOf "a")
      (mkCommand "SET" ["a"; "1"]) (startPair [Delivered]) = Some (f, w') /\
    let m := wMeta (engHook (startPair [Delivered])) in
    admitted (engHook (startPair [Delivered])) = true /\ ExtractKeys (mkCommand "SET" ["a"; "1"]) <> [] /\
    forall k, k ∈ ExtractKeys (mkCommand "SET" ["a"; "1"]) -> exists st, Slot m (SlotForKey m k) = Some st /\ LeaderID st = "a".
Proof.
  eexists _, _. split; [vm_compute; reflexivity|].
  eapply (only_leader_writes (H := steadyEnv) (H3 := linkNet (H := steadyEnv) (nodeOf "b") "hb:1") (nodeOf "a") (mkCommand "SET" ["a"; "1"]));
    [by apply (bool_decide_unpack _)|vm_compute; reflexivity|].
  intros Heq. apply (f_equal usedBytes) in Heq. vm_compute in Heq. discriminate.
Defined.
