(* ===== verification/Topology.v ===== *)
(** * The controller's view of the cluster: [internal/controller/types.go] and
    [topology.go]

    A view is what the controller knows: the slots with their owners, and for
    each node whether it answers.  Strings that the source uses as enumerations
    ([ClusterStatus]) stay strings; [SlotClass], [StepKind] and [PlanKind], whose
    values are only the declared constants, are inductive types.  Go visits a
    map in any order: [range] over a map is the class [MapRange]. *)
From S2P Require Import Prelude.
Local Open Scope Z_scope.

(** ** Iteration over maps *)

Class MapRange := range_map : forall {K} `{Countable K} {A}, gmap K A -> list (K * A).
Class MapRangeOk `{MapRange} : Prop :=
  range_map_perm : forall K `{Countable K} A (m : gmap K A), range_map m ≡ₚ map_to_list m.

#[export] Instance list_range : MapRange := fun _ _ _ _ m => map_to_list m.
#[export] Instance list_range_ok : MapRangeOk.
Proof. by intros K ? ? A m. Qed.

(** ** Views *)

Definition StatusHealthy : string := "healthy".
Definition StatusFailureSuspected : string := "failure_suspected".
Definition StatusDegraded : string := "degraded".
Definition StatusPromoting : string := "promoting".
Definition StatusRepairing : string := "repairing".
Definition StatusRebalancing : string := "rebalancing".
Definition StatusUnavailable : string := "unavailable".
Definition StatusPotentialDataLoss : string := "potential_data_loss".

Record NodeView := mkNodeView {
  NodeViewID : string;
  Reachable : bool;
  Suspected : bool;
  ConsecFails : Z;
  LeaderSlots : Z;
  ReplicaSlots : Z;
  Eligible : bool;
  Returning : bool
}.

Record SlotView := mkSlotView {
  SVNumber : Z;
  SVLeader : string;
  SVReplica : string;
  SVTerm : Z;
  SVReady : bool
}.

Record StatusSummary := mkStatus {
  SState : string;
  FailedNodes : list string;
  SuspectedNodes : list string;
  DegradedSlots : Z;
  UnavailableSlots : Z;
  LatestCommittedOperation : string
}.

(** [ObservedAt] in nanoseconds since the zero time, January 1 of year 1. *)
Record ClusterView := mkView {
  ViewClusterID : string;
  MetadataVersion : Z;
  ViewSlots : list SlotView;
  Nodes : gmap string NodeView;
  ObservedAt : Z;
  Status : StatusSummary
}.

#[export] Instance NodeView_eq_dec : EqDecision NodeView.
Proof. solve_decision. Defined.
#[export] Instance SlotView_eq_dec : EqDecision SlotView.
Proof. solve_decision. Defined.
#[export] Instance StatusSummary_eq_dec : EqDecision StatusSummary.
Proof. solve_decision. Defined.
#[export] Instance ClusterView_eq_dec : EqDecision ClusterView.
Proof. solve_decision. Defined.

Definition zeroStatus : StatusSummary := mkStatus "" [] [] 0 0 "".
Definition zeroView : ClusterView := mkView "" 0 [] ∅ 0 zeroStatus.

(** ** Classification of slots *)

Inductive SlotClass := SlotUnaffected | SlotLeaderless | SlotReplicaLost | SlotNoSurvivingCopy.
#[export] Instance SlotClass_eq_dec : EqDecision SlotClass.
Proof. solve_decision. Defined.

Definition ownerAvailable (nodes : gmap string NodeView) (nodeID : string) : bool :=
  if String.eqb nodeID "" then false
  else match nodes !! nodeID with
  | Some node => Reachable node && Eligible node
  | None => false
  end.

(** The class of one slot, in the order of the [switch]. *)
Definition classifySlot (nodes : gmap string NodeView) (slot : SlotView) : SlotClass :=
  let leaderAvailable := ownerAvailable nodes (SVLeader slot) in
  let replicaAvailable := SVReady slot && ownerAvailable nodes (SVReplica slot) in
  if leaderAvailable && replicaAvailable then SlotUnaffected
  else if negb leaderAvailable && replicaAvailable then SlotLeaderless
  else if leaderAvailable then SlotReplicaLost
  else SlotNoSurvivingCopy.

Definition ClassifySlots (view : ClusterView) : gmap Z SlotClass :=
  foldl (fun classes slot => <[SVNumber slot := classifySlot (Nodes view) slot]> classes) ∅ (ViewSlots view).

(** ** Sets of nodes *)

Record PeerConfig := mkPeerConfig { CfgPeerID : string; FailoverMode : string }.
Record TopologySets := mkSets {
  Configured : list string;
  Voters : list string;
  EligibleSet : list string;
  UnavailableSet : list string
}.

Section topology.
Context `{SliceSort, MapRange}.

Definition sortStrings (l : list string) : list string := slice_sort sltb l.

Definition DeriveTopology (ps : list PeerConfig) (view : ClusterView) : TopologySets :=
  let sets := foldl (fun sets peer =>
    let configured := Configured sets ++ [CfgPeerID peer] in
    let voters := if String.eqb (FailoverMode peer) "automatic" then Voters sets ++ [CfgPeerID peer] else Voters sets in
    match Nodes view !! CfgPeerID peer with
    | Some node =>
        if Eligible node then mkSets configured voters (EligibleSet sets ++ [CfgPeerID peer]) (UnavailableSet sets)
        else if negb (Suspected node) then mkSets configured voters (EligibleSet sets) (UnavailableSet sets ++ [CfgPeerID peer])
        else mkSets configured voters (EligibleSet sets) (UnavailableSet sets)
    | None => mkSets configured voters (EligibleSet sets) (UnavailableSet sets ++ [CfgPeerID peer])
    end) (mkSets [] [] [] []) ps in
  mkSets (sortStrings (Configured sets)) (sortStrings (Voters sets)) (sortStrings (EligibleSet sets))
    (sortStrings (UnavailableSet sets)).

(** The ids of the nodes that satisfy [keep], collected while ranging over the
    map and sorted afterwards. *)
Definition selectNodes (keep : NodeView -> bool) (view : ClusterView) : list string :=
  sortStrings (fst <$> List.filter (fun p => keep p.2) (range_map (Nodes view))).

Definition usable (node : NodeView) : bool := Eligible node && Reachable node && negb (Suspected node).
(** [executor.go] *)
Definition eligibleNodeIDs (view : ClusterView) : list string := selectNodes usable view.
(** [planner.go] *)
Definition confirmedFailedNodes (view : ClusterView) : list string :=
  selectNodes (fun node => negb (Suspected node) && (negb (Reachable node) || negb (Eligible node))) view.

(** ** The status *)

Definition countSkew (counts : list Z) : Z :=
  match counts with
  | [] => 0
  | c :: cs =>
      let '(minimum, maximum) :=
        foldl (fun '(mn, mx) count => (if count <? mn then count else mn, if mx <? count then count else mx)) (c, c) cs in
      maximum - minimum
  end.

Definition placementSkew (view : ClusterView) : Z :=
  let nodes := List.filter usable (snd <$> range_map (Nodes view)) in
  let leaderSkew := countSkew (LeaderSlots <$> nodes) in
  let replicaSkew := countSkew (ReplicaSlots <$> nodes) in
  if leaderSkew <? replicaSkew then replicaSkew else leaderSkew.

Definition countClass (c : SlotClass) (classes : list (Z * SlotClass)) : Z :=
  Z.of_nat (length (List.filter (fun p => bool_decide (p.2 = c)) classes)).

Definition summarizeStatusWithThreshold (view : ClusterView) (skewThreshold : Z) : StatusSummary :=
  let suspected := selectNodes Suspected view in
  let failed := confirmedFailedNodes view in
  let classes := range_map (ClassifySlots view) in
  let hasLeaderless := 0 <? countClass SlotLeaderless classes in
  let degraded := countClass SlotLeaderless classes + countClass SlotReplicaLost classes in
  let unavailable := countClass SlotNoSurvivingCopy classes in
  let state :=
    if 0 <? unavailable then StatusPotentialDataLoss
    else if hasLeaderless then StatusUnavailable
    else if 0 <? degraded then StatusDegraded
    else match suspected with
    | _ :: _ => StatusFailureSuspected
    | [] => if skewThreshold <? placementSkew view then StatusRebalancing else StatusHealthy
    end in
  mkStatus state failed suspected degraded unavailable "".
End topology.
