(* ===== verification/ControlFSM.v ===== *)
(** * The replicated state of the controller: [internal/controller/fsm.go] and
    the commands of [types.go]

    Raft delivers committed commands in log order; [Apply] is the transition.
    A command carries its payload decoded: [encoding/json] reads back what it
    wrote.  The one place where decoding is not reading back is the view:
    [json.Unmarshal] decodes into the view that is already there, so fields
    that the encoder omitted keep their old value; [decodeView] is that. *)
From S2P Require Import Prelude Topology.
Local Open Scope Z_scope.

(** ** Plans *)

Inductive StepKind := StepPromote | StepAssignReplica | StepSync | StepMarkUnavailable.
Inductive PlanKind := PlanKindRecovery | PlanKindRebalance.
#[export] Instance StepKind_eq_dec : EqDecision StepKind.
Proof. solve_decision. Defined.
#[export] Instance PlanKind_eq_dec : EqDecision PlanKind.
Proof. solve_decision. Defined.

Definition PlanKindText (k : PlanKind) : string :=
  match k with PlanKindRecovery => "recovery" | PlanKindRebalance => "rebalance" end.

Record PlanStep := mkStep { StKind : StepKind; StSlot : Z; StTarget : string }.
#[export] Instance PlanStep_eq_dec : EqDecision PlanStep.
Proof. solve_decision. Defined.

Record RecoveryPlan := mkPlan {
  PlanID : string;
  PKind : PlanKind;
  Reason : string;
  Epoch : Z;
  DeadNodes : list string;
  Steps : list PlanStep;
  Done : gmap Z bool;
  Unrecoverable : list Z;
  WriteBlockedSlots : list Z
}.
#[export] Instance RecoveryPlan_eq_dec : EqDecision RecoveryPlan.
Proof. solve_decision. Defined.

(** ** Commands and state *)

Record UnavailableSlot := mkUnavailable { USlot : Z; ULeader : string; UReplica : string; UFailures : list string }.
Record CompletedPlan := mkCompleted { CPID : string; CPKind : PlanKind; CPEpoch : Z; CPControlIndex : Z }.

Inductive Command :=
| CommandObserveView (view : ClusterView)
| CommandProposePlan (plan : RecoveryPlan)
| CommandStepDone (planID : string) (stepIndex : Z)
| CommandPlanComplete (planID : string)
| CommandSupersedePlan (oldPlanID : string) (newPlan : RecoveryPlan)
| CommandProposeRebalance (plan : RecoveryPlan)
| CommandMarkUnavailable (slots : list UnavailableSlot)
| CommandAdmitReturningNode (nodeID : string) (admitted : bool).

Definition CommandType (command : Command) : string :=
  match command with
  | CommandObserveView _ => "observe_view"
  | CommandProposePlan _ => "propose_plan"
  | CommandStepDone _ _ => "step_done"
  | CommandPlanComplete _ => "plan_complete"
  | CommandSupersedePlan _ _ => "supersede_plan"
  | CommandProposeRebalance _ => "propose_rebalance"
  | CommandMarkUnavailable _ => "mark_unavailable"
  | CommandAdmitReturningNode _ _ => "admit_returning_node"
  end.

(** [staleSlots] is what the array behind [LatestView.Slots] holds past its
    length: the elements of a longer view that was there before. *)
Record FSMSnapshot := mkFSM {
  LatestView : ClusterView;
  staleSlots : list SlotView;
  ActivePlan : option RecoveryPlan;
  ControlIndex : Z;
  Unavailable : gmap Z UnavailableSlot;
  ReturningNodes : gmap string bool;
  LastCompletedPlanID : string;
  LastRebalance : option CompletedPlan
}.

Definition NewFSM : FSMSnapshot := mkFSM zeroView [] None 0 ∅ ∅ "" None.

Definition setView (view : ClusterView) (stale : list SlotView) (s : FSMSnapshot) : FSMSnapshot :=
  mkFSM view stale (ActivePlan s) (ControlIndex s) (Unavailable s) (ReturningNodes s) (LastCompletedPlanID s) (LastRebalance s).
Definition setPlan (plan : option RecoveryPlan) (s : FSMSnapshot) : FSMSnapshot :=
  mkFSM (LatestView s) (staleSlots s) plan (ControlIndex s) (Unavailable s) (ReturningNodes s) (LastCompletedPlanID s) (LastRebalance s).
Definition setStatus (status : StatusSummary) (s : FSMSnapshot) : FSMSnapshot :=
  let v := LatestView s in
  setView (mkView (ViewClusterID v) (MetadataVersion v) (ViewSlots v) (Nodes v) (ObservedAt v) status) (staleSlots s) s.
Definition setState (state : string) (s : FSMSnapshot) : FSMSnapshot :=
  let st := Status (LatestView s) in
  setStatus (mkStatus state (FailedNodes st) (SuspectedNodes st) (DegradedSlots st) (UnavailableSlots st)
               (LatestCommittedOperation st)) s.
Definition setOperation (op : string) (s : FSMSnapshot) : FSMSnapshot :=
  let st := Status (LatestView s) in
  setStatus (mkStatus (SState st) (FailedNodes st) (SuspectedNodes st) (DegradedSlots st) (UnavailableSlots st) op) s.

(** ** Decoding a view in place *)

(** An omitted string or slice keeps what was there. *)
Definition keepEmpty (old new : string) : string := if String.eqb new "" then old else new.
Definition keepNil {A} (old new : list A) : list A := match new with [] => old | _ => new end.

(** [replicaId] is the only field of a slot with [omitempty]; the elements of
    the array that is there are decoded into, in place. *)
Fixpoint decodeSlots (old new : list SlotView) : list SlotView :=
  match new with
  | [] => []
  | slot :: new =>
      let replica := match old with o :: _ => keepEmpty (SVReplica o) (SVReplica slot) | [] => SVReplica slot end in
      mkSlotView (SVNumber slot) (SVLeader slot) replica (SVTerm slot) (SVReady slot) :: decodeSlots (tail old) new
  end.

(** An empty array replaces the slice; the entries of a map stay, and the
    values of its keys are decoded into fresh elements. *)
Definition decodeView (view : ClusterView) (s : FSMSnapshot) : FSMSnapshot :=
  let old := LatestView s in
  let array := ViewSlots old ++ staleSlots s in
  let status := mkStatus (SState (Status view)) (keepNil (FailedNodes (Status old)) (FailedNodes (Status view)))
                  (keepNil (SuspectedNodes (Status old)) (SuspectedNodes (Status view)))
                  (DegradedSlots (Status view)) (UnavailableSlots (Status view))
                  (keepEmpty (LatestCommittedOperation (Status old)) (LatestCommittedOperation (Status view))) in
  setView (mkView (ViewClusterID view) (MetadataVersion view) (decodeSlots array (ViewSlots view))
             (Nodes view ∪ Nodes old) (ObservedAt view) status)
    (match ViewSlots view with [] => [] | ss => drop (length ss) array end) s.

(** ** The transition *)

Definition isDone (plan : RecoveryPlan) (index : Z) : bool := default false (Done plan !! index).

(** The first step of the plan that is not done, from [index] on. *)
Fixpoint nextStep (plan : RecoveryPlan) (index : Z) (steps : list PlanStep) : option PlanStep :=
  match steps with
  | [] => None
  | step :: steps => if isDone plan index then nextStep plan (index + 1) steps else Some step
  end.

Definition updatePlanStatus (s : FSMSnapshot) : FSMSnapshot :=
  match ActivePlan s with
  | None => s
  | Some plan =>
      match PKind plan with
      | PlanKindRebalance => setState StatusRebalancing s
      | PlanKindRecovery =>
          match nextStep plan 0 (Steps plan) with
          | None => s
          | Some step =>
              match StKind step with
              | StepPromote => setState StatusPromoting s
              | StepAssignReplica | StepSync => setState StatusRepairing s
              | StepMarkUnavailable => setState StatusPotentialDataLoss s
              end
          end
      end
  end.

Definition markDone (plan : RecoveryPlan) (index : Z) : RecoveryPlan :=
  mkPlan (PlanID plan) (PKind plan) (Reason plan) (Epoch plan) (DeadNodes plan) (Steps plan)
    (<[index := true]> (Done plan)) (Unrecoverable plan) (WriteBlockedSlots plan).

Inductive FSMErr := ErrPlanNotFound (id : string) | ErrStepOutOfRange (index : Z) | ErrReplacementEmpty | ErrReturningEmpty.
#[export] Instance FSMErr_eq_dec : EqDecision FSMErr.
Proof. solve_decision. Defined.

Definition FSMErrText (e : FSMErr) : string :=
  match e with
  | ErrPlanNotFound id => "active plan not found: " +:+ id
  | ErrStepOutOfRange _ => "step index out of range"
  | ErrReplacementEmpty => "replacement plan id is empty"
  | ErrReturningEmpty => "returning node id is empty"
  end.

Definition withActive (id : string) (s : FSMSnapshot) (k : RecoveryPlan -> option FSMErr * FSMSnapshot)
    : option FSMErr * FSMSnapshot :=
  match ActivePlan s with
  | Some plan => if String.eqb (PlanID plan) id then k plan else (Some (ErrPlanNotFound id), s)
  | None => (Some (ErrPlanNotFound id), s)
  end.

Definition applyCommand (command : Command) (s : FSMSnapshot) : option FSMErr * FSMSnapshot :=
  match command with
  | CommandObserveView view => (None, decodeView view s)
  | CommandProposePlan plan | CommandProposeRebalance plan => (None, updatePlanStatus (setPlan (Some plan) s))
  | CommandStepDone planID index => withActive planID s (fun plan =>
      if (index <? 0) || (Z.of_nat (length (Steps plan)) <=? index) then (Some (ErrStepOutOfRange index), s)
      else (None, updatePlanStatus (setPlan (Some (markDone plan index)) s)))
  | CommandPlanComplete planID => withActive planID s (fun plan =>
      let last := match PKind plan with
                  | PlanKindRebalance => Some (mkCompleted (PlanID plan) (PKind plan) (Epoch plan) 0)
                  | PlanKindRecovery => LastRebalance s
                  end in
      (None, mkFSM (LatestView s) (staleSlots s) None (ControlIndex s) (Unavailable s) (ReturningNodes s) planID last))
  | CommandSupersedePlan oldID plan => withActive oldID s (fun _ =>
      if String.eqb (PlanID plan) "" then (Some ErrReplacementEmpty, s)
      else (None, updatePlanStatus (setPlan (Some plan) s)))
  | CommandMarkUnavailable slots =>
      (None, mkFSM (LatestView s) (staleSlots s) (ActivePlan s) (ControlIndex s)
               (foldl (fun m u => <[USlot u := u]> m) (Unavailable s) slots)
               (ReturningNodes s) (LastCompletedPlanID s) (LastRebalance s))
  | CommandAdmitReturningNode id admitted =>
      if String.eqb id "" then (Some ErrReturningEmpty, s)
      else (None, mkFSM (LatestView s) (staleSlots s) (ActivePlan s) (ControlIndex s) (Unavailable s)
                    (<[id := admitted]> (ReturningNodes s)) (LastCompletedPlanID s) (LastRebalance s))
  end.

(** The index of the log entry is recorded last; a completed rebalance takes
    it too. *)
Definition setIndex (index : Z) (complete : bool) (s : FSMSnapshot) : FSMSnapshot :=
  let last := match LastRebalance s with
              | Some p => Some (if complete && (CPControlIndex p =? 0)
                                then mkCompleted (CPID p) (CPKind p) (CPEpoch p) index else p)
              | None => None
              end in
  mkFSM (LatestView s) (staleSlots s) (ActivePlan s) index (Unavailable s) (ReturningNodes s) (LastCompletedPlanID s) last.

Definition Apply (index : Z) (command : Command) (s : FSMSnapshot) : option FSMErr * FSMSnapshot :=
  let latestOperation := LatestCommittedOperation (Status (LatestView s)) in
  match applyCommand command s with
  | (Some e, s) => (Some e, s)
  | (None, s) =>
      let s := setIndex index (match command with CommandPlanComplete _ => true | _ => false end) s in
      (None, match command with
             | CommandObserveView _ => updatePlanStatus (setOperation latestOperation s)
             | _ => setOperation (CommandType command) s
             end)
  end.

(** [State] and a [Snapshot] restored by [Restore] are copies through JSON: the
    array behind the slots is new. *)
Definition State (s : FSMSnapshot) : FSMSnapshot := setView (LatestView s) [] s.

(** A log of committed commands, each at its index. *)
Definition ApplyLog (log : list (Z * Command)) (s : FSMSnapshot) : FSMSnapshot :=
  foldl (fun s p => (Apply p.1 p.2 s).2) s log.
