(* ===== verification/Planner.v ===== *)
(** * The planner: [internal/controller/planner.go]

    [PlanFailover] turns a view into the steps that restore two copies of every
    slot; [PlanRebalance] evens out leaders and replicas over the eligible
    nodes; [Evaluate] proposes the one or the other.  The loops of
    [PlanRebalance] count their moves up to [maxMoves], which is their fuel.
    The digest of a plan (SHA-256 of its JSON) is the class [PlanDigest].
    Loads and counts are numbers of slots, far below [2^63]. *)
From S2P Require Import Prelude Topology ControlFSM.
Local Open Scope Z_scope.

Class PlanDigest := plan_digest : RecoveryPlan -> string.

(** The interface to Raft, [viewProposer]. *)
Class Proposer (W : Type) := {
  IsLeader : W -> bool * W;
  Propose : Command -> W -> option string * W;
  ProposerState : W -> FSMSnapshot * W
}.

Definition zeroPlan : RecoveryPlan := mkPlan "" PlanKindRecovery "" 0 [] [] ∅ [] [].

Definition countOf (counts : gmap string Z) (id : string) : Z := default 0 (counts !! id).
Definition addTo (id : string) (d : Z) (counts : gmap string Z) : gmap string Z := <[id := countOf counts id + d]> counts.

(** The order of [countExtremes] and [leastLoadedEligible]: by count, then id. *)
Definition byCount (counts : gmap string Z) (a b : string) : bool :=
  if countOf counts a =? countOf counts b then sltb a b else countOf counts a <? countOf counts b.

Definition recoveryReason (deadNodes : list string) : string :=
  match deadNodes with
  | [] => "repair-degraded-replication"
  | _ => "node-down:" +:+ String.concat "," deadNodes
  end.

Section planner.
Context `{SliceSort, MapRange, PlanDigest}.

Definition deterministicPlanID (plan : RecoveryPlan) : string :=
  PlanKindText (PKind plan) +:+ "-" +:+
  plan_digest (mkPlan "" (PKind plan) (Reason plan) (Epoch plan) (DeadNodes plan) (Steps plan) ∅
                 (Unrecoverable plan) (WriteBlockedSlots plan)).

(** ** Failover *)

Definition leastLoadedEligible (view : ClusterView) (loads : gmap string Z) (excluded : string) : option string :=
  let candidates := fst <$> List.filter (fun p => negb (String.eqb p.1 excluded) && usable p.2) (range_map (Nodes view)) in
  head (slice_sort (byCount loads) candidates).

(** What the loop of [PlanFailover] collects. *)
Record Progress := mkProgress {
  prSteps : list PlanStep;
  prBlocked : list Z;
  prUnrecoverable : list Z;
  prLoads : gmap string Z
}.

Definition addReplica (view : ClusterView) (slot : SlotView) (leader : string) (p : Progress) : Progress :=
  match leastLoadedEligible view (prLoads p) leader with
  | Some target =>
      mkProgress (prSteps p ++ [mkStep StepAssignReplica (SVNumber slot) target; mkStep StepSync (SVNumber slot) target])
        (prBlocked p) (prUnrecoverable p) (addTo target 1 (prLoads p))
  | None => p
  end.

Definition failoverSlot (view : ClusterView) (p : Progress) (slot : SlotView) : Progress :=
  match ClassifySlots view !! SVNumber slot with
  | Some SlotLeaderless =>
      let newLeader := SVReplica slot in
      addReplica view slot newLeader
        (mkProgress (prSteps p ++ [mkStep StepPromote (SVNumber slot) newLeader]) (prBlocked p ++ [SVNumber slot])
           (prUnrecoverable p) (prLoads p))
  | Some SlotReplicaLost =>
      if negb (String.eqb (SVReplica slot) "") && ownerAvailable (Nodes view) (SVReplica slot)
      then mkProgress (prSteps p ++ [mkStep StepSync (SVNumber slot) (SVReplica slot)]) (prBlocked p)
             (prUnrecoverable p) (prLoads p)
      else addReplica view slot (SVLeader slot) p
  | Some SlotNoSurvivingCopy =>
      mkProgress (prSteps p ++ [mkStep StepMarkUnavailable (SVNumber slot) ""]) (prBlocked p)
        (prUnrecoverable p ++ [SVNumber slot]) (prLoads p)
  | _ => p
  end.

Definition sortSlots (slots : list SlotView) : list SlotView :=
  slice_sort (fun a b => SVNumber a <? SVNumber b) slots.
Definition initialLoads (view : ClusterView) : gmap string Z :=
  (fun node => LeaderSlots node + ReplicaSlots node) <$> Nodes view.

Definition PlanFailover (view : ClusterView) : option RecoveryPlan :=
  let deadNodes := confirmedFailedNodes view in
  let p := foldl (failoverSlot view) (mkProgress [] [] [] (initialLoads view)) (sortSlots (ViewSlots view)) in
  match prSteps p, prUnrecoverable p with
  | [], [] => None
  | _, _ =>
      let plan id := mkPlan id PlanKindRecovery (recoveryReason deadNodes) (MetadataVersion view) deadNodes
                       (prSteps p) ∅ (prUnrecoverable p) (prBlocked p) in
      Some (plan (deterministicPlanID (plan "")))
  end.

(** ** Rebalancing *)

Record slotPlacement := mkPlacement { plNumber : Z; plLeader : string; plReplica : string; plReady : bool }.

(** [None]: the run-time panic of indexing an empty slice. *)
Definition countExtremes (nodes : list string) (counts : gmap string Z) : option (string * string * Z) :=
  let sorted := slice_sort (byCount counts) nodes in
  target ← head sorted;
  source ← last sorted;
  Some (source, target, countOf counts source - countOf counts target).

Definition findMove (movable : slotPlacement -> bool) (slots : list slotPlacement) : option (nat * slotPlacement) :=
  list_find (fun s => movable s = true) slots.
Definition findLeaderMove (slots : list slotPlacement) (moved : gset Z) (source target : string) : option (nat * slotPlacement) :=
  findMove (fun slot => negb (bool_decide (plNumber slot ∈ moved)) && plReady slot &&
                        String.eqb (plLeader slot) source && negb (String.eqb target source)) slots.
Definition findReplicaMove (slots : list slotPlacement) (moved : gset Z) (source target : string) : option (nat * slotPlacement) :=
  findMove (fun slot => negb (bool_decide (plNumber slot ∈ moved)) && plReady slot &&
                        String.eqb (plReplica slot) source && negb (String.eqb (plLeader slot) target)) slots.

(** The variables of the two loops. *)
Record Moves := mkMoves {
  mvSlots : list slotPlacement;
  mvLeaders : gmap string Z;
  mvReplicas : gmap string Z;
  mvMoved : gset Z;
  mvSteps : list PlanStep;
  mvBlocked : list Z
}.

Definition moveLeader (m : Moves) (index : nat) (slot : slotPlacement) (target : string) : Moves :=
  let number := plNumber slot in
  let oldLeader := plLeader slot in
  let oldReplica := plReplica slot in
  mkMoves (<[index := mkPlacement number target oldLeader (plReady slot)]> (mvSlots m))
    (addTo target 1 (addTo oldLeader (-1) (mvLeaders m)))
    (addTo oldLeader 1 (addTo oldReplica (-1) (mvReplicas m)))
    ({[number]} ∪ mvMoved m)
    (mvSteps m ++ [mkStep StepAssignReplica number target; mkStep StepSync number target; mkStep StepPromote number target;
                   mkStep StepAssignReplica number oldLeader; mkStep StepSync number oldLeader])
    (mvBlocked m ++ [number]).

Definition moveReplica (m : Moves) (index : nat) (slot : slotPlacement) (source target : string) : Moves :=
  let number := plNumber slot in
  mkMoves (<[index := mkPlacement number (plLeader slot) target (plReady slot)]> (mvSlots m))
    (mvLeaders m) (addTo target 1 (addTo source (-1) (mvReplicas m))) ({[number]} ∪ mvMoved m)
    (mvSteps m ++ [mkStep StepAssignReplica number target; mkStep StepSync number target])
    (mvBlocked m ++ [number]).

(** A loop runs at most [fuel] times, [maxMoves - moves], and returns how many
    moves are left. *)
Fixpoint leaderMoves (eligible : list string) (threshold : Z) (fuel : nat) (m : Moves) : option (nat * Moves) :=
  match fuel with
  | O => Some (O, m)
  | S rest =>
      '(source, target, skew) ← countExtremes eligible (mvLeaders m);
      if skew <=? threshold then Some (fuel, m)
      else match findLeaderMove (mvSlots m) (mvMoved m) source target with
      | None => Some (fuel, m)
      | Some (index, slot) => leaderMoves eligible threshold rest (moveLeader m index slot target)
      end
  end.
Fixpoint replicaMoves (eligible : list string) (threshold : Z) (fuel : nat) (m : Moves) : option (nat * Moves) :=
  match fuel with
  | O => Some (O, m)
  | S rest =>
      '(source, target, skew) ← countExtremes eligible (mvReplicas m);
      if skew <=? threshold then Some (fuel, m)
      else match findReplicaMove (mvSlots m) (mvMoved m) source target with
      | None => Some (fuel, m)
      | Some (index, slot) => replicaMoves eligible threshold rest (moveReplica m index slot source target)
      end
  end.

(** The loop over the slots of the view: none when a slot is not fully
    replicated on eligible nodes. *)
Definition movable (eligible : list string) (slot : SlotView) : bool :=
  SVReady slot && negb (String.eqb (SVLeader slot) (SVReplica slot)) &&
  bool_decide (SVLeader slot ∈ eligible) && bool_decide (SVReplica slot ∈ eligible).
Definition placementOf (slot : SlotView) : slotPlacement := mkPlacement (SVNumber slot) (SVLeader slot) (SVReplica slot) true.
Definition countBy (owner : SlotView -> string) (slots : list SlotView) : gmap string Z :=
  foldl (fun counts slot => addTo (owner slot) 1 counts) ∅ slots.

(** The outer [option] is a panic, the inner one whether a plan is needed. *)
Definition PlanRebalance (view : ClusterView) (skewThreshold maxMoves : Z) : option (option RecoveryPlan) :=
  let skewThreshold := if skewThreshold <? 0 then 0 else skewThreshold in
  if maxMoves <=? 0 then Some None
  else
    let eligible := eligibleNodeIDs view in
    if (length eligible <? 2)%nat then Some None
    else if negb (forallb (movable eligible) (ViewSlots view)) then Some None
    else
      let slots := slice_sort (fun a b => plNumber a <? plNumber b) (placementOf <$> ViewSlots view) in
      let start := mkMoves slots (countBy SVLeader (ViewSlots view)) (countBy SVReplica (ViewSlots view)) ∅ [] [] in
      '(unused, m) ← leaderMoves eligible skewThreshold (Z.to_nat maxMoves) start;
      '(_, m) ← replicaMoves eligible skewThreshold unused
                  (mkMoves (mvSlots m) (mvLeaders m) (mvReplicas m) ∅ (mvSteps m) (mvBlocked m));
      match mvSteps m with
      | [] => Some None
      | _ =>
          let plan id := mkPlan id PlanKindRebalance "rebalance-eligible-placement" (MetadataVersion view)
                           (confirmedFailedNodes view) (mvSteps m) ∅ [] (mvBlocked m) in
          Some (Some (plan (deterministicPlanID (plan ""))))
      end.

(** ** Proposing *)

Record ControllerConfig := mkControllerConfig {
  ObserveIntervalMs : Z;
  FailureTimeoutMs : Z;
  ConsecutiveFailures : Z;
  RebalanceSkewThreshold : Z;
  MigrationRateLimit : Z
}.

(** Durations in nanoseconds; [None] for [stableSince] is the zero time. *)
Record Planner := mkPlanner {
  pInterval : Z;
  pCooldown : Z;
  pSkewThreshold : Z;
  pMaxMoves : Z;
  eligibleKey : string;
  stableSince : option Z
}.

Definition orDefault (n d : Z) : Z := if n <=? 0 then d else n.
Definition millisecond : Z := 1000000.
Definition second : Z := 1000000000.
Definition ms (n : Z) : Z := i64 (n * millisecond).

Definition NewPlanner (cfg : ControllerConfig) : Planner :=
  mkPlanner (orDefault (ms (ObserveIntervalMs cfg)) second) (orDefault (ms (FailureTimeoutMs cfg)) (10 * second))
    (orDefault (RebalanceSkewThreshold cfg) 1) (orDefault (MigrationRateLimit cfg) 1) "" None.

Definition setStability (key : string) (since : option Z) (p : Planner) : Planner :=
  mkPlanner (pInterval p) (pCooldown p) (pSkewThreshold p) (pMaxMoves p) key since.
Definition resetStability (p : Planner) : Planner := setStability "" None p.

Definition hasSuspectedNode (view : ClusterView) : bool := existsb (fun p => Suspected p.2) (range_map (Nodes view)).
Definition hasNewConfirmedFailure (active current : list string) : bool :=
  existsb (fun id => negb (bool_decide (id ∈ active))) current.

(** What an evaluation decides: the command to propose, if any. *)
Definition evaluateRebalance (p : Planner) (state : FSMSnapshot) (now : Z) : option (option Command * Planner) :=
  match ActivePlan state with
  | Some _ => Some (None, resetStability p)
  | None =>
      if hasSuspectedNode (LatestView state) then Some (None, resetStability p)
      else
        let key := String.concat "," (eligibleNodeIDs (LatestView state)) in
        if String.eqb key "" then Some (None, resetStability p)
        else if negb (String.eqb key (eligibleKey p)) then Some (None, setStability key (Some now) p)
        else if now - default 0 (stableSince p) <? pCooldown p then Some (None, p)
        else
          plan ← PlanRebalance (LatestView state) (pSkewThreshold p) (pMaxMoves p);
          match plan with
          | Some plan =>
              if String.eqb (LastCompletedPlanID state) (PlanID plan) then Some (None, p)
              else Some (Some (CommandProposeRebalance plan), p)
          | None => Some (None, p)
          end
  end.

Definition decide_plan (p : Planner) (state : FSMSnapshot) (now : Z) : option (option Command * Planner) :=
  match PlanFailover (LatestView state) with
  | None => evaluateRebalance p state now
  | Some plan =>
      match ActivePlan state with
      | None => Some (if String.eqb (LastCompletedPlanID state) (PlanID plan) then None else Some (CommandProposePlan plan), p)
      | Some active =>
          if String.eqb (PlanID active) (PlanID plan) then Some (None, p)
          else if negb (hasNewConfirmedFailure (DeadNodes active) (DeadNodes plan)) then Some (None, p)
          else Some (Some (CommandSupersedePlan (PlanID active) plan), p)
      end
  end.

Definition Evaluate {W} `{Proposer W} (p : Planner) (now : Z) (w : W) : option (option string * Planner * W) :=
  let '(leader, w) := IsLeader w in
  if negb leader then Some (None, p, w)
  else
    let '(state, w) := ProposerState w in
    '(command, p) ← decide_plan p state now;
    match command with
    | None => Some (None, p, w)
    | Some command => let '(err, w) := Propose command w in Some (err, p, w)
    end.
End planner.
