(* ===== verification/PlannerSpec.v ===== *)
(** * Properties of the planner *)
From S2P Require Import Prelude Topology ControlFSM Planner.
Local Open Scope Z_scope.

(** ** Orders and selections *)

Lemma byCount_weak counts : strict_weak (byCount counts).
Proof.
  destruct sltb_weak as [Ha Ht]. unfold byCount. split.
  - intros x y. destruct (Z.eqb_spec (countOf counts x) (countOf counts y)) as [->|?].
    + rw Z.eqb_refl. apply Ha.
    + rw (proj2 (Z.eqb_neq _ _)) //. lia.
  - intros x y z.
    destruct (Z.eqb_spec (countOf counts y) (countOf counts x)), (Z.eqb_spec (countOf counts z) (countOf counts y)),
      (Z.eqb_spec (countOf counts z) (countOf counts x)); try lia. apply Ht.
Qed.
Lemma byCount_total counts x y : byCount counts x y = false -> byCount counts y x = false -> x = y.
Proof.
  unfold byCount. destruct (Z.eqb_spec (countOf counts x) (countOf counts y)) as [->|?].
  - rw Z.eqb_refl. apply sltb_total.
  - rw (proj2 (Z.eqb_neq (countOf counts y) _)) //. lia.
Qed.

Section selection.
Context `{SliceSortOk, MapRangeOk}.

Lemma range_elem {K} `{Countable K} {A} (m : gmap K A) p : p ∈ range_map m <-> m !! p.1 = Some p.2.
Proof. rw (range_map_perm K A m). destruct p. apply elem_of_map_to_list. Qed.
Lemma range_keys_NoDup {K} `{Countable K} {A} (m : gmap K A) : NoDup (fst <$> range_map m).
Proof. rw (range_map_perm K A m). apply NoDup_fst_map_to_list. Qed.

Lemma chosen_elem (keep : string * NodeView -> bool) (m : gmap string NodeView) id :
  id ∈ (fst <$> List.filter keep (range_map m)) <-> exists node, m !! id = Some node /\ keep (id, node) = true.
Proof.
  rw list_elem_of_fmap. split.
  - intros ([? node] & -> & [Hin Hk]%list_elem_of_In%filter_In). exists node. split; [|done].
    by apply (range_elem m (_, _)), list_elem_of_In.
  - intros (node & Hin & Hk). exists (id, node). split; [done|]. apply list_elem_of_In, filter_In. split; [|done].
    by apply list_elem_of_In, range_elem.
Qed.

Lemma selectNodes_elem keep view id :
  id ∈ selectNodes keep view <-> exists node, Nodes view !! id = Some node /\ keep node = true.
Proof. unfold selectNodes, sortStrings. rw slice_sort_elem. apply chosen_elem. Qed.
Lemma chosen_NoDup (keep : string * NodeView -> bool) (m : gmap string NodeView) :
  NoDup (fst <$> List.filter keep (range_map m)).
Proof.
  pose proof (range_keys_NoDup m) as Hnd. induction (range_map m) as [|[k a] l IH]; [done|]. simpl in *.
  apply NoDup_cons in Hnd as [Hk Hnd]. destruct (keep (k, a)); [|by apply IH]. simpl. apply NoDup_cons. split; [|by apply IH].
  contradict Hk. apply list_elem_of_fmap in Hk as (p & -> & [Hp _]%list_elem_of_In%filter_In).
  by apply list_elem_of_fmap_2, list_elem_of_In.
Qed.
Lemma selectNodes_NoDup keep view : NoDup (selectNodes keep view).
Proof. unfold selectNodes, sortStrings. rw (slice_sort_perm _ sltb). apply chosen_NoDup. Qed.

(** The least loaded node: the first of the usable ones in the order by load. *)
Lemma leastLoaded_some view loads excluded t :
  leastLoadedEligible view loads excluded = Some t ->
  t <> excluded /\ (exists node, Nodes view !! t = Some node /\ usable node = true) /\
  forall u node, Nodes view !! u = Some node -> usable node = true -> u <> excluded -> countOf loads t <= countOf loads u.
Proof.
  unfold leastLoadedEligible. set (cs := fst <$> _). intros Ht.
  pose proof (slice_sort_sorted _ (byCount loads) cs (byCount_weak loads)) as Hs.
  assert (Hin : t ∈ cs).
  { apply (slice_sort_elem _ (byCount loads)). destruct (slice_sort _ _); simplify_eq/=. left. }
  apply chosen_elem in Hin as (node & Hn & [Hx Hu]%andb_true_iff). simpl in *. split_and!.
  - intros ->. by rw String.eqb_refl in Hx.
  - eauto.
  - intros u nu Hnu Huu Hux. assert (Hiu : u ∈ slice_sort (byCount loads) cs).
    { apply slice_sort_elem, chosen_elem. exists nu. split; [done|]. simpl. rw Huu andb_true_r negb_true_iff.
      by apply String.eqb_neq. }
    destruct (slice_sort (byCount loads) cs) as [|x l]; simplify_eq/=. apply elem_of_cons in Hiu as [->|Hiu]; [done|].
    apply StronglySorted_inv in Hs as [_ Hs]. rewrite -> Forall_forall in Hs. specialize (Hs u Hiu).
    unfold not_less, byCount in Hs. destruct (Z.eqb_spec (countOf loads u) (countOf loads t)); lia.
Qed.
Lemma leastLoaded_none view loads excluded u node :
  leastLoadedEligible view loads excluded = None -> Nodes view !! u = Some node -> usable node = true -> u = excluded.
Proof.
  unfold leastLoadedEligible. set (cs := fst <$> _). intros Hh Hn Hu. destruct (decide (u = excluded)); [done|].
  assert (Hiu : u ∈ slice_sort (byCount loads) cs).
  { apply slice_sort_elem, chosen_elem. exists node. split; [done|]. simpl. rw Hu andb_true_r negb_true_iff.
    by apply String.eqb_neq. }
  destruct (slice_sort (byCount loads) cs); [by apply not_elem_of_nil in Hiu|done].
Qed.
End selection.

(** ** Failover plans *)

(** The steps that give the slot [n] with leader [leader] a second copy: a
    usable node other than the leader, or none when there is no such node. *)
Inductive repairs (view : ClusterView) (n : Z) (leader : string) : list PlanStep -> Prop :=
| repair_with t node :
    Nodes view !! t = Some node -> usable node = true -> t <> leader ->
    repairs view n leader [mkStep StepAssignReplica n t; mkStep StepSync n t]
| repair_none :
    (forall t node, Nodes view !! t = Some node -> usable node = true -> t = leader) -> repairs view n leader [].

(** The steps that a failover plan may have for a slot. *)
Inductive slot_plan (view : ClusterView) (slot : SlotView) : list PlanStep -> Prop :=
| plan_keep : classifySlot (Nodes view) slot = SlotUnaffected -> slot_plan view slot []
| plan_promote steps :
    classifySlot (Nodes view) slot = SlotLeaderless -> repairs view (SVNumber slot) (SVReplica slot) steps ->
    slot_plan view slot (mkStep StepPromote (SVNumber slot) (SVReplica slot) :: steps)
| plan_resync :
    classifySlot (Nodes view) slot = SlotReplicaLost -> ownerAvailable (Nodes view) (SVReplica slot) = true ->
    slot_plan view slot [mkStep StepSync (SVNumber slot) (SVReplica slot)]
| plan_repair steps :
    classifySlot (Nodes view) slot = SlotReplicaLost -> ownerAvailable (Nodes view) (SVReplica slot) = false ->
    repairs view (SVNumber slot) (SVLeader slot) steps -> slot_plan view slot steps
| plan_lost :
    classifySlot (Nodes view) slot = SlotNoSurvivingCopy ->
    slot_plan view slot [mkStep StepMarkUnavailable (SVNumber slot) ""].

Lemma slot_plan_slot view slot steps : slot_plan view slot steps -> Forall (fun st => StSlot st = SVNumber slot) steps.
Proof. by destruct 1 as [|? ? []| |? ? ? []|]; repeat constructor. Qed.

Lemma ClassifySlots_lookup view slot :
  NoDup (SVNumber <$> ViewSlots view) -> slot ∈ ViewSlots view ->
  ClassifySlots view !! SVNumber slot = Some (classifySlot (Nodes view) slot).
Proof.
  unfold ClassifySlots. induction (ViewSlots view) as [|s l IH] using rev_ind; intros Hnd Hin; [by apply not_elem_of_nil in Hin|].
  rw foldl_app. simpl. rw fmap_app in Hnd. apply NoDup_app in Hnd as (Hnd & Hd & _).
  apply elem_of_app in Hin as [Hin|Hin%list_elem_of_singleton].
  - rw lookup_insert_ne; [|by apply IH]. intros Heq. apply (Hd (SVNumber slot)); [by apply list_elem_of_fmap_2|].
    rw -Heq. by apply list_elem_of_singleton.
  - subst. by rw lookup_insert_eq.
Qed.

Section failover.
Context `{SliceSortOk, MapRangeOk, PlanDigest} (view : ClusterView).

Lemma addReplica_steps slot leader p :
  exists steps, repairs view (SVNumber slot) leader steps /\ prSteps (addReplica view slot leader p) = prSteps p ++ steps.
Proof.
  unfold addReplica. destruct (leastLoadedEligible view (prLoads p) leader) as [t|] eqn:Ht.
  - apply leastLoaded_some in Ht as (Hne & (node & Hn & Hu) & _). eexists. split; [|done]. by eapply repair_with.
  - exists []. split; [|by rw app_nil_r]. apply repair_none. intros t node Hn Hu. by eapply leastLoaded_none.
Qed.
Lemma addReplica_other slot leader p :
  prBlocked (addReplica view slot leader p) = prBlocked p /\ prUnrecoverable (addReplica view slot leader p) = prUnrecoverable p.
Proof. unfold addReplica. by destruct leastLoadedEligible. Qed.

Definition ofClass (c : SlotClass) (slots : list SlotView) : list Z :=
  SVNumber <$> List.filter (fun s => bool_decide (classifySlot (Nodes view) s = c)) slots.

Lemma failoverSlot_steps p slot :
  ClassifySlots view !! SVNumber slot = Some (classifySlot (Nodes view) slot) ->
  (exists steps, slot_plan view slot steps /\ prSteps (failoverSlot view p slot) = prSteps p ++ steps) /\
  prBlocked (failoverSlot view p slot) = prBlocked p ++ ofClass SlotLeaderless [slot] /\
  prUnrecoverable (failoverSlot view p slot) = prUnrecoverable p ++ ofClass SlotNoSurvivingCopy [slot].
Proof.
  intros Hc. unfold failoverSlot, ofClass. rw Hc. simpl. destruct (classifySlot (Nodes view) slot) eqn:Hcl; simpl.
  - rw !app_nil_r. split; [|done]. exists []. rw app_nil_r. split; [by constructor|done].
  - set (p1 := mkProgress _ _ _ _). destruct (addReplica_steps slot (SVReplica slot) p1) as (steps & Hr & Hs).
    destruct (addReplica_other slot (SVReplica slot) p1) as [-> ->]. rw app_nil_r. split; [|done].
    eexists. split; [by apply plan_promote|]. rw Hs. unfold p1. simpl. by rw -app_assoc.
  - rw !app_nil_r. destruct (ownerAvailable (Nodes view) (SVReplica slot)) eqn:Ho.
    + destruct (String.eqb_spec (SVReplica slot) "") as [He|?]; [by rw He in Ho|]. simpl. split; [|done].
      eexists. split; [by apply plan_resync|done].
    + rw andb_false_r. destruct (addReplica_steps slot (SVLeader slot) p) as (steps & Hr & Hs).
      destruct (addReplica_other slot (SVLeader slot) p) as [-> ->]. split; [|done]. exists steps. split; [by apply plan_repair|done].
  - rw app_nil_r. split; [|done]. eexists. split; [by apply plan_lost|done].
Qed.

Lemma failover_steps slots p :
  (forall slot, slot ∈ slots -> ClassifySlots view !! SVNumber slot = Some (classifySlot (Nodes view) slot)) ->
  let q := foldl (failoverSlot view) p slots in
  (exists stepss, Forall2 (slot_plan view) slots stepss /\ prSteps q = prSteps p ++ concat stepss) /\
  prBlocked q = prBlocked p ++ ofClass SlotLeaderless slots /\
  prUnrecoverable q = prUnrecoverable p ++ ofClass SlotNoSurvivingCopy slots.
Proof.
  revert p. induction slots as [|slot slots IH]; intros p Hc; simpl.
  - rw !app_nil_r. split; [|done]. exists []. by rw app_nil_r.
  - destruct (failoverSlot_steps p slot) as ((steps & Hs & Hp) & Hb & Hu); [apply Hc; left|].
    destruct (IH (failoverSlot view p slot)) as ((stepss & Hss & Hps) & Hbs & Hus); [intros; apply Hc; by right|].
    rw Hps Hp Hbs Hb Hus Hu. split_and!.
    + exists (steps :: stepss). split; [by constructor|]. by rw -app_assoc.
    + unfold ofClass. rw -app_assoc. f_equal. rw -fmap_app. f_equal. simpl. by case_bool_decide.
    + unfold ofClass. rw -app_assoc. f_equal. rw -fmap_app. f_equal. simpl. by case_bool_decide.
Qed.

Lemma failover_plan :
  NoDup (SVNumber <$> ViewSlots view) ->
  exists stepss, Forall2 (slot_plan view) (sortSlots (ViewSlots view)) stepss /\
  match PlanFailover view with
  | Some plan =>
      Steps plan = concat stepss /\ Unrecoverable plan = ofClass SlotNoSurvivingCopy (sortSlots (ViewSlots view)) /\
      WriteBlockedSlots plan = ofClass SlotLeaderless (sortSlots (ViewSlots view)) /\
      Done plan = ∅ /\ Epoch plan = MetadataVersion view /\ PKind plan = PlanKindRecovery /\
      DeadNodes plan = confirmedFailedNodes view /\ PlanID plan <> ""
  | None => concat stepss = []
  end.
Proof.
  intros Hnd. destruct (failover_steps (sortSlots (ViewSlots view)) (mkProgress [] [] [] (initialLoads view)))
    as ((stepss & Hss & Hs) & Hb & Hu).
  { intros slot Hin. apply ClassifySlots_lookup; [done|]. by apply slice_sort_elem in Hin. }
  simpl in *. exists stepss. split; [done|]. unfold PlanFailover.
  rewrite -> Hs, Hu, Hb. destruct (concat stepss) eqn:Hc, (ofClass SlotNoSurvivingCopy _) eqn:Ho; done.
Qed.
End failover.

Definition stepsFor (n : Z) (steps : list PlanStep) : list PlanStep := List.filter (fun st => StSlot st =? n) steps.

Lemma stepsFor_all n steps : Forall (fun st => StSlot st = n) steps -> stepsFor n steps = steps.
Proof. induction 1 as [|st l Hn _ IH]; [done|]. simpl. rw Hn Z.eqb_refl. by f_equal. Qed.
Lemma stepsFor_none n steps : Forall (fun st => StSlot st <> n) steps -> stepsFor n steps = [].
Proof. induction 1 as [|st l Hn _ IH]; [done|]. simpl. by rw (proj2 (Z.eqb_neq _ _) Hn). Qed.
Lemma stepsFor_app n l1 l2 : stepsFor n (l1 ++ l2) = stepsFor n l1 ++ stepsFor n l2.
Proof. apply List.filter_app. Qed.

Lemma stepsFor_other view n slots stepss :
  Forall2 (slot_plan view) slots stepss -> n ∉ (SVNumber <$> slots) -> stepsFor n (concat stepss) = [].
Proof.
  induction 1 as [|slot steps slots stepss Hs _ IH]; [done|]. simpl. intros [Hne Hn]%not_elem_of_cons.
  rw stepsFor_app IH //. rw app_nil_r. apply stepsFor_none. eapply Forall_impl; [by eapply slot_plan_slot|].
  intros st Heq ?. simpl in *. congruence.
Qed.
Lemma stepsFor_slot view slots stepss slot :
  Forall2 (slot_plan view) slots stepss -> NoDup (SVNumber <$> slots) -> slot ∈ slots ->
  slot_plan view slot (stepsFor (SVNumber slot) (concat stepss)).
Proof.
  induction 1 as [|s steps slots stepss Hs Hss IH]; intros Hnd Hin; [by apply not_elem_of_nil in Hin|].
  simpl in *. apply NoDup_cons in Hnd as [Hn Hnd]. rw stepsFor_app. apply elem_of_cons in Hin as [->|Hin].
  - rw (stepsFor_other view _ slots) //. rw app_nil_r stepsFor_all //. by eapply slot_plan_slot.
  - rw stepsFor_none; [|by apply IH]. eapply Forall_impl; [by eapply slot_plan_slot|].
    intros st Heq Heq'. apply Hn. rw -Heq Heq'. by apply list_elem_of_fmap_2.
Qed.

Lemma sortSlots_numbers `{SliceSortOk} slots : (SVNumber <$> sortSlots slots) ≡ₚ (SVNumber <$> slots).
Proof. apply fmap_Permutation, slice_sort_perm. Qed.
Lemma ofClass_elem view c slots slot :
  NoDup (SVNumber <$> slots) -> slot ∈ slots -> SVNumber slot ∈ ofClass view c slots <-> classifySlot (Nodes view) slot = c.
Proof.
  intros Hnd Hin. unfold ofClass. rw list_elem_of_fmap. split.
  - intros (s & Heq & [Hs Hc]%list_elem_of_In%filter_In). apply bool_decide_eq_true in Hc. apply list_elem_of_In in Hs.
    apply list_elem_of_lookup in Hin as [i Hi], Hs as [j Hj].
    assert (i = j) as -> by (eapply (NoDup_lookup _ i j (SVNumber slot) Hnd); rw list_lookup_fmap; [by rw Hi|by rw Hj Heq]).
    by simplify_eq.
  - intros Hc. exists slot. split; [done|]. apply list_elem_of_In, filter_In. split; [by apply list_elem_of_In|].
    by apply bool_decide_eq_true.
Qed.

(** C11: A failover plan has for each slot of the view
    exactly the steps its state asks for: none when both copies are there, a
    promotion of the ready replica when the leader is gone, a synchronisation
    of a replica that is there but not ready, a new replica on a usable node
    other than the leader whenever there is one, and a mark when no copy
    survived; it blocks the writes of the leaderless slots and lists the lost
    ones, and when there is no plan no slot asks for a step. *)
Theorem failover_plan_exact `{SliceSortOk, MapRangeOk, PlanDigest} (view : ClusterView) :
  NoDup (SVNumber <$> ViewSlots view) ->
  match PlanFailover view with
  | Some plan =>
      (forall slot, slot ∈ ViewSlots view ->
        slot_plan view slot (stepsFor (SVNumber slot) (Steps plan)) /\
        (SVNumber slot ∈ Unrecoverable plan <-> classifySlot (Nodes view) slot = SlotNoSurvivingCopy) /\
        (SVNumber slot ∈ WriteBlockedSlots plan <-> classifySlot (Nodes view) slot = SlotLeaderless)) /\
      (forall n, n ∉ (SVNumber <$> ViewSlots view) -> stepsFor n (Steps plan) = []) /\
      Done plan = ∅ /\ Epoch plan = MetadataVersion view /\ DeadNodes plan = confirmedFailedNodes view
  | None => forall slot, slot ∈ ViewSlots view -> slot_plan view slot []
  end.
Proof.
  intros Hnd. destruct (failover_plan view Hnd) as (stepss & Hss & Hp). pose proof (sortSlots_numbers (ViewSlots view)) as Hn.
  assert (Hin : forall slot, slot ∈ ViewSlots view -> slot ∈ sortSlots (ViewSlots view)) by (intros; by apply slice_sort_elem).
  assert (Hnd' : NoDup (SVNumber <$> sortSlots (ViewSlots view))) by by rw Hn.
  destruct (PlanFailover view) as [plan|].
  - destruct Hp as (-> & -> & -> & -> & -> & _ & -> & _). split_and!; [|..|done|done|done].
    + intros slot Hs. split_and!; [eapply stepsFor_slot; eauto|by apply ofClass_elem; eauto..].
    + intros n Hx. eapply stepsFor_other; [done|]. by rw Hn.
  - intros slot Hs. pose proof (stepsFor_slot view _ _ slot Hss Hnd' (Hin _ Hs)) as Hsp. by rw Hp in Hsp.
Qed.

(** Three nodes, the first of them down or not, and four slots led by the
    first. *)
Definition plainDigest : PlanDigest := fun _ => "0".
Definition exampleNode (id : string) (up : bool) : NodeView := mkNodeView id up false 0 0 0 up false.
Definition exampleView (up : bool) : ClusterView :=
  mkView "c" 7 ((fun n => mkSlotView n "n1" "n2" 1 true) <$> [3; 1; 0; 2])
    {["n1" := exampleNode "n1" up; "n2" := exampleNode "n2" true; "n3" := exampleNode "n3" true]} 0 zeroStatus.

Lemma failover_plan_exact_witness :
  exists plan, PlanFailover (H1 := plainDigest) (exampleView false) = Some plan /\
    stepsFor 1 (Steps plan) = [mkStep StepPromote 1 "n2"; mkStep StepAssignReplica 1 "n3"; mkStep StepSync 1 "n3"] /\
    slot_plan (exampleView false) (mkSlotView 1 "n1" "n2" 1 true) (stepsFor 1 (Steps plan)).
Proof.
  pose proof (failover_plan_exact (H3 := plainDigest) (exampleView false)
    ltac:(apply (bool_decide_unpack _); vm_compute; exact I)) as Hp.
  destruct (PlanFailover (H1 := plainDigest) (exampleView false)) as [plan|] eqn:Hplan; [|by vm_compute in Hplan].
  exists plan. destruct Hp as (Hs & _). destruct (Hs (mkSlotView 1 "n1" "n2" 1 true)) as [Hs1 _].
  { apply (bool_decide_unpack _). vm_compute. exact I. }
  split_and!; [done| |done]. vm_compute in Hplan. by injection Hplan as <-.
Defined.

(** ** Determinism *)

Section agree.
Context (S1 S2 : SliceSort) (O1 : SliceSortOk (H := S1)) (O2 : SliceSortOk (H := S2)).
Context (M1 M2 : MapRange) (R1 : MapRangeOk (H := M1)) (R2 : MapRangeOk (H := M2)).

Lemma chosen_agree (keep : string * NodeView -> bool) (m : gmap string NodeView) :
  (fst <$> List.filter keep (range_map (MapRange := M1) m)) ≡ₚ (fst <$> List.filter keep (range_map (MapRange := M2) m)).
Proof.
  apply NoDup_Permutation; [by apply chosen_NoDup..|]. intros id. by rw (chosen_elem keep m) (chosen_elem keep m).
Qed.
Lemma selectNodes_agree keep view : @selectNodes S1 M1 keep view = @selectNodes S2 M2 keep view.
Proof. apply slice_sort_agree; [done..|apply sltb_weak|intros; by apply sltb_total|apply chosen_agree]. Qed.
Lemma leastLoaded_agree view loads x : @leastLoadedEligible S1 M1 view loads x = @leastLoadedEligible S2 M2 view loads x.
Proof.
  unfold leastLoadedEligible. f_equal.
  apply slice_sort_agree; [done..|apply byCount_weak|intros; by eapply byCount_total|apply chosen_agree].
Qed.
Lemma countExtremes_agree nodes counts : @countExtremes S1 nodes counts = @countExtremes S2 nodes counts.
Proof.
  unfold countExtremes. rw (slice_sort_agree S1 S2 O1 O2 _ (byCount counts) nodes nodes) //; [apply byCount_weak|].
  intros; by eapply byCount_total.
Qed.

(** Sorting by a number that determines the element. *)
Lemma sort_numbers_agree {A} (num : A -> Z) l :
  NoDup (num <$> l) ->
  slice_sort (SliceSort := S1) (fun a b => num a <? num b) l = slice_sort (SliceSort := S2) (fun a b => num a <? num b) l.
Proof.
  intros Hnd. apply slice_sort_agree; [done..|by apply (strict_weak_on num), strict_weak_Zltb| |done].
  intros x y Hx Hy H1 H2. apply list_elem_of_lookup in Hx as [i Hi], Hy as [j Hj].
  assert (i = j) as ->; [|by simplify_eq]. eapply (NoDup_lookup _ i j (num x) Hnd); rw list_lookup_fmap; [by rw Hi|].
  rw Hj. simpl. f_equal. lia.
Qed.

Lemma failoverSlot_agree view p slot : @failoverSlot S1 M1 view p slot = @failoverSlot S2 M2 view p slot.
Proof. unfold failoverSlot, addReplica. by rw !leastLoaded_agree. Qed.
Lemma leaderMoves_agree eligible threshold fuel m :
  @leaderMoves S1 eligible threshold fuel m = @leaderMoves S2 eligible threshold fuel m.
Proof.
  revert m. induction fuel as [|fuel IH]; intros m; [done|]. simpl. rw countExtremes_agree.
  destruct (countExtremes _ _) as [[[source target] skew]|]; [|done]. simpl. destruct (skew <=? threshold); [done|].
  by destruct findLeaderMove as [[index slot]|].
Qed.
Lemma replicaMoves_agree eligible threshold fuel m :
  @replicaMoves S1 eligible threshold fuel m = @replicaMoves S2 eligible threshold fuel m.
Proof.
  revert m. induction fuel as [|fuel IH]; intros m; [done|]. simpl. rw countExtremes_agree.
  destruct (countExtremes _ _) as [[[source target] skew]|]; [|done]. simpl. destruct (skew <=? threshold); [done|].
  by destruct findReplicaMove as [[index slot]|].
Qed.
End agree.

(** Another order of iteration. *)
Definition reverse_range : MapRange := fun _ _ _ _ m => reverse (map_to_list m).
Lemma reverse_range_ok : MapRangeOk (H := reverse_range).
Proof. intros K ? ? A m. apply reverse_Permutation. Qed.

(** The plans depend on the view alone: whatever order
    Go visits the nodes in and however it sorts, every controller that has
    committed a view computes the same failover plan and the same rebalance
    plan, with the same identifier. *)
Theorem plans_deterministic (S1 S2 : SliceSort) (O1 : SliceSortOk (H := S1)) (O2 : SliceSortOk (H := S2))
    (M1 M2 : MapRange) (R1 : MapRangeOk (H := M1)) (R2 : MapRangeOk (H := M2)) (D : PlanDigest)
    (view : ClusterView) (threshold maxMoves : Z) :
  NoDup (SVNumber <$> ViewSlots view) ->
  @PlanFailover S1 M1 D view = @PlanFailover S2 M2 D view /\
  @PlanRebalance S1 M1 D view threshold maxMoves = @PlanRebalance S2 M2 D view threshold maxMoves.
Proof.
  intros Hnd. unfold PlanFailover, PlanRebalance, confirmedFailedNodes, eligibleNodeIDs, sortSlots.
  rw !(selectNodes_agree S1 S2 O1 O2 M1 M2 R1 R2) (sort_numbers_agree S1 S2 O1 O2 SVNumber) //.
  rw (sort_numbers_agree S1 S2 O1 O2 plNumber); [by rw -list_fmap_compose|]. split.
  - assert (Hf : forall p l, foldl (@failoverSlot S1 M1 view) p l = foldl (@failoverSlot S2 M2 view) p l).
    { intros p l. revert p. induction l as [|s l IH]; intros p; [done|]. simpl.
      by rw (failoverSlot_agree S1 S2 O1 O2 M1 M2 R1 R2) IH. }
    by rw Hf.
  - destruct (maxMoves <=? 0); [done|]. destruct (_ <? 2)%nat; [done|]. destruct (negb _); [done|].
    rw (leaderMoves_agree S1 S2 O1 O2). destruct (leaderMoves _ _ _ _) as [[unused m]|]; [|done]. simpl.
    by rw (replicaMoves_agree S1 S2 O1 O2).
Qed.

Lemma plans_deterministic_witness :
  PlanFailover (H1 := plainDigest) (exampleView false) <> None /\
  @PlanFailover merge_slice_sort list_range plainDigest (exampleView false) =
    @PlanFailover merge_slice_sort reverse_range plainDigest (exampleView false) /\
  @PlanRebalance merge_slice_sort list_range plainDigest (exampleView true) 1 4 =
    @PlanRebalance merge_slice_sort reverse_range plainDigest (exampleView true) 1 4.
Proof.
  assert (Hnd : forall b, NoDup (SVNumber <$> ViewSlots (exampleView b))).
  { intros b. apply (bool_decide_unpack _). destruct b; vm_compute; exact I. }
  split; [by vm_compute|]. split.
  - apply (plans_deterministic _ _ _ _ _ _ _ reverse_range_ok plainDigest (exampleView false) 1 4 (Hnd false)).
  - apply (plans_deterministic _ _ _ _ _ _ _ reverse_range_ok plainDigest (exampleView true) 1 4 (Hnd true)).
Defined.
