(* ===== verification/RebalanceSpec.v ===== *)
(** * Properties of rebalancing

    The effect of a plan on a slot, that the planner's moves keep every slot on
    two eligible nodes, and that rebalancing comes to an end. *)
From S2P Require Import Prelude Topology ControlFSM Planner PlannerSpec.
Local Open Scope Z_scope.

(** ** The effect of steps *)

(** What a step does to a slot that is in the state it asks for: a promotion
    only of a ready replica, a new replica only on another node than the
    leader, a synchronisation only of the assigned replica. *)
Definition runStep (st : PlanStep) (s : SlotView) : option SlotView :=
  match StKind st with
  | StepPromote =>
      if negb (String.eqb (StTarget st) "") && String.eqb (SVReplica s) (StTarget st) && SVReady s
      then Some (mkSlotView (SVNumber s) (StTarget st) "" (u64 (SVTerm s + 1)) false) else None
  | StepAssignReplica =>
      if String.eqb (StTarget st) (SVLeader s) then None
      else Some (mkSlotView (SVNumber s) (SVLeader s) (StTarget st) (u64 (SVTerm s + 1)) false)
  | StepSync =>
      if String.eqb (SVReplica s) (StTarget st)
      then Some (mkSlotView (SVNumber s) (SVLeader s) (SVReplica s) (SVTerm s) true) else None
  | StepMarkUnavailable => Some s
  end.
Definition runSteps (steps : list PlanStep) (s : SlotView) : option SlotView :=
  foldl (fun s st => s ≫= runStep st) (Some s) steps.
(** A plan on a slot: the steps of that slot. *)
Definition runPlan (steps : list PlanStep) (s : SlotView) : option SlotView := runSteps (stepsFor (SVNumber s) steps) s.

Lemma runSteps_none steps : foldl (fun s st => s ≫= runStep st) None steps = None.
Proof. by induction steps. Qed.
Lemma runSteps_app steps1 steps2 s : runSteps (steps1 ++ steps2) s = runSteps steps1 s ≫= runSteps steps2.
Proof.
  unfold runSteps at 1. rw foldl_app. fold (runSteps steps1 s). destruct (runSteps steps1 s); [done|]. apply runSteps_none.
Qed.
Lemma runStep_number st s s' : runStep st s = Some s' -> SVNumber s' = SVNumber s.
Proof. unfold runStep. destruct (StKind st); repeat case_match; intros; by simplify_eq/=. Qed.
Lemma runSteps_number steps s s' : runSteps steps s = Some s' -> SVNumber s' = SVNumber s.
Proof.
  revert s. induction steps as [|st steps IH]; intros s; [by intros [= ->]|]. unfold runSteps. simpl.
  destruct (runStep st s) as [s1|] eqn:H1; [|by rw runSteps_none]. intros H. rw (IH s1) //. by eapply runStep_number.
Qed.

(** ** The invariant of the moves *)

Definition indicator (b : bool) : Z := if b then 1 else 0.
Definition owned {A} (owner : A -> string) (slots : list A) (id : string) : Z :=
  zsum (fun x => indicator (bool_decide (owner x = id))) slots.
Definition imbalance {A} (eligible : list string) (owner : A -> string) (slots : list A) : Z :=
  zsum (fun id => owned owner slots id * owned owner slots id) eligible.

Lemma owned_nonneg {A} (owner : A -> string) slots id : 0 <= owned owner slots id.
Proof. apply zsum_nonneg. intros x _. unfold indicator. by case_match. Qed.
Lemma owned_insert {A} (owner : A -> string) slots i x y id :
  slots !! i = Some x ->
  owned owner (<[i := y]> slots) id =
  owned owner slots id - indicator (bool_decide (owner x = id)) + indicator (bool_decide (owner y = id)).
Proof. intros Hi. unfold owned. by rw (zsum_insert _ _ _ _ _ Hi). Qed.

Lemma imbalance_bound {A} eligible (owner : A -> string) slots :
  NoDup eligible -> (forall x, x ∈ slots -> owner x ∈ eligible) ->
  0 <= imbalance eligible owner slots <= Z.of_nat (length slots) * Z.of_nat (length slots).
Proof.
  intros Hnd Hin. split.
  - apply zsum_nonneg. intros id _. pose proof (owned_nonneg owner slots id). nia.
  - rewrite <- (zsum_count owner eligible slots Hnd Hin). apply zsum_squares. intros id _. apply owned_nonneg.
Qed.

(** Handing a slot from [source] to [target], which owns at least two slots
    less, makes the placement more even. *)
Lemma imbalance_move {A} eligible (owner : A -> string) slots i x y :
  NoDup eligible -> owner x ∈ eligible -> owner y ∈ eligible -> slots !! i = Some x ->
  2 <= owned owner slots (owner x) - owned owner slots (owner y) ->
  imbalance eligible owner (<[i := y]> slots) < imbalance eligible owner slots.
Proof.
  intros Hnd Hx Hy Hi Hskew. assert (Hne : owner x <> owner y) by (intros Heq; rw Heq in Hskew; lia).
  apply elem_of_Permutation in Hx as [l1 H1]. rewrite -> H1 in Hy, Hnd. apply elem_of_cons in Hy as [|Hy]; [congruence|].
  apply elem_of_Permutation in Hy as [l2 H2]. rewrite -> H2 in H1, Hnd.
  unfold imbalance. rw !(zsum_perm _ _ _ H1). simpl. rw !(owned_insert _ _ _ _ _ _ Hi).
  rw !(bool_decide_eq_true_2 (owner x = owner x)) // !(bool_decide_eq_true_2 (owner y = owner y)) //.
  rw !(bool_decide_eq_false_2 (owner x = owner y)) // !(bool_decide_eq_false_2 (owner y = owner x)) //. unfold indicator.
  rw (zsum_ext (fun id => owned owner (<[i := y]> slots) id * owned owner (<[i := y]> slots) id)
        (fun id => owned owner slots id * owned owner slots id) l2); [|nia].
  intros id Hid. apply NoDup_cons in Hnd as [Hnx [Hny _]%NoDup_cons].
  rw !(owned_insert _ _ _ _ _ _ Hi) (bool_decide_eq_false_2 (owner x = id)); [intros <-; apply Hnx; by right|].
  rw (bool_decide_eq_false_2 (owner y = id)); [by intros <-|]. unfold indicator. nia.
Qed.

Lemma countOf_addTo id d counts id' :
  countOf (addTo id d counts) id' = countOf counts id' + d * indicator (bool_decide (id = id')).
Proof.
  unfold addTo, countOf at 1. destruct (decide (id = id')) as [<-|Hne].
  - rw lookup_insert_eq bool_decide_eq_true_2 //. unfold indicator. simpl. lia.
  - rw lookup_insert_ne // bool_decide_eq_false_2 //. unfold indicator, countOf. lia.
Qed.
Lemma countOf_countBy owner slots id : countOf (countBy owner slots) id = owned owner slots id.
Proof.
  unfold countBy, owned. induction slots as [|s slots IH] using rev_ind; [by unfold countOf; rw lookup_empty|].
  rw foldl_app zsum_app -IH. simpl. rw countOf_addTo. lia.
Qed.

Section moves.
Context `{SliceSortOk} (eligible : list string) (ss : list SlotView).
Hypothesis Heligible : NoDup eligible.
Hypothesis Hnonempty : "" ∉ eligible.
Hypothesis Hnumbers : NoDup (SVNumber <$> ss).

(** The steps so far take the slot to its placement. *)
Definition placed (steps : list PlanStep) (s : SlotView) (pl : slotPlacement) : Prop :=
  exists s', runPlan steps s = Some s' /\ placementOf s' = pl /\ SVReady s' = true.
Definition on_two (pl : slotPlacement) : Prop :=
  plReady pl = true /\ plLeader pl <> plReplica pl /\ plLeader pl ∈ eligible /\ plReplica pl ∈ eligible.

Record moves_ok (m : Moves) : Prop := {
  ok_placed : Forall2 (placed (mvSteps m)) ss (mvSlots m);
  ok_two : Forall on_two (mvSlots m);
  ok_leaders : forall id, countOf (mvLeaders m) id = owned plLeader (mvSlots m) id;
  ok_replicas : forall id, countOf (mvReplicas m) id = owned plReplica (mvSlots m) id
}.

Lemma placed_number steps s pl : placed steps s pl -> plNumber pl = SVNumber s.
Proof. intros (s' & Hr & <- & _). by eapply runSteps_number. Qed.

(** More steps on the slot at [i] leave the others where they are. *)
Lemma placed_insert m i pl pl' steps :
  Forall2 (placed (mvSteps m)) ss (mvSlots m) -> mvSlots m !! i = Some pl ->
  Forall (fun st => StSlot st = plNumber pl) steps ->
  (forall s, placementOf s = pl -> SVReady s = true ->
     exists s', runSteps steps s = Some s' /\ placementOf s' = pl' /\ SVReady s' = true) ->
  Forall2 (placed (mvSteps m ++ steps)) ss (<[i := pl']> (mvSlots m)).
Proof.
  intros Hpl Hi Hst Hrun. apply Forall2_same_length_lookup_2; [rw length_insert; by eapply Forall2_length|].
  intros j s p Hs Hp. destruct (decide (i = j)) as [<-|Hne].
  - rw list_lookup_insert_eq in Hp; [by eapply lookup_lt_Some|]. simplify_eq.
    destruct (Forall2_lookup_lr _ _ _ _ _ _ Hpl Hs Hi) as (s1 & Hr & <- & Hready). destruct (Hrun s1) as (s2 & H2 & <- & Hr2); [done..|].
    exists s2. split; [|done]. unfold runPlan in *. rw stepsFor_app runSteps_app Hr /= stepsFor_all //.
    eapply Forall_impl; [done|]. simpl. intros st ->. by eapply runSteps_number.
  - rw list_lookup_insert_ne in Hp; [done|]. destruct (Forall2_lookup_lr _ _ _ _ _ _ Hpl Hs Hp) as (s1 & Hr & Heq).
    exists s1. split; [|done]. unfold runPlan in *. rw stepsFor_app (stepsFor_none _ steps) ?app_nil_r //.
    eapply Forall_impl; [done|]. simpl. intros st -> Hn. apply Hne.
    destruct (Forall2_lookup_r _ _ _ _ _ Hpl Hi) as (si & Hsi & Hpi%placed_number).
    apply (NoDup_lookup _ i j (SVNumber s) Hnumbers); rw list_lookup_fmap; [rw Hsi /= -Hpi Hn //|by rw Hs].
Qed.

Ltac eqbs := simpl; repeat (match goal with
  | |- context [String.eqb ?a ?a] => rw (String.eqb_refl a)
  | H : ?a <> ?b |- context [String.eqb ?a ?b] => rw (proj2 (String.eqb_neq a b) H)
  | H : ?b <> ?a |- context [String.eqb ?a ?b] => rw (proj2 (String.eqb_neq a b) (not_eq_sym H))
  end; simpl).

Lemma moveLeader_ok m i pl target :
  moves_ok m -> mvSlots m !! i = Some pl -> target ∈ eligible -> target <> plLeader pl -> moves_ok (moveLeader m i pl target).
Proof.
  intros [Hp Ht Hl Hr] Hi Htarget Hne. pose proof (Forall_lookup_1 _ _ _ _ Ht Hi) as (Hready & Hlr & Hle & Hre).
  assert (target <> "") by (by intros ->). split; simpl.
  - eapply placed_insert; [done..|by repeat constructor|]. intros s <- Hs. simpl in *.
    eexists. unfold runSteps, runStep. eqbs. done.
  - apply Forall_insert; [done|]. by split_and!; simpl; try congruence.
  - intros id. rw !countOf_addTo (owned_insert _ _ _ _ _ _ Hi) Hl. simpl. lia.
  - intros id. rw !countOf_addTo (owned_insert _ _ _ _ _ _ Hi) Hr. simpl. lia.
Qed.
Lemma moveReplica_ok m i pl target :
  moves_ok m -> mvSlots m !! i = Some pl -> target ∈ eligible -> target <> plLeader pl ->
  moves_ok (moveReplica m i pl (plReplica pl) target).
Proof.
  intros [Hp Ht Hl Hr] Hi Htarget Hne. pose proof (Forall_lookup_1 _ _ _ _ Ht Hi) as (Hready & Hlr & Hle & Hre). split; simpl.
  - eapply placed_insert; [done..|by repeat constructor|]. intros s <- Hs. simpl in *.
    eexists. unfold runSteps, runStep. eqbs. done.
  - apply Forall_insert; [done|]. by split_and!; simpl; try congruence.
  - intros id. rw (owned_insert _ _ _ _ _ _ Hi) Hl. simpl. lia.
  - intros id. rw !countOf_addTo (owned_insert _ _ _ _ _ _ Hi) Hr. simpl. lia.
Qed.

(** The extremes are eligible nodes, and no two nodes differ by more. *)
Lemma countExtremes_some counts :
  eligible <> [] ->
  exists source target, countExtremes eligible counts = Some (source, target, countOf counts source - countOf counts target) /\
    source ∈ eligible /\ target ∈ eligible /\
    forall a b, a ∈ eligible -> b ∈ eligible -> countOf counts a - countOf counts b <= countOf counts source - countOf counts target.
Proof.
  intros Hne. unfold countExtremes. pose proof (slice_sort_elem _ (byCount counts) eligible) as Hin.
  pose proof (slice_sort_length _ (byCount counts) eligible) as Hlen.
  pose proof (slice_sort_sorted _ (byCount counts) eligible (byCount_weak counts)) as Hs.
  assert (Hle : forall a b, not_less (byCount counts) a b -> countOf counts a <= countOf counts b).
  { intros a b. unfold not_less, byCount. destruct (Z.eqb_spec (countOf counts b) (countOf counts a)); lia. }
  destruct (slice_sort (byCount counts) eligible) as [|x l] using rev_ind; [by destruct eligible|clear IHl].
  rw last_snoc. destruct (head (l ++ [x])) as [y|] eqn:Hy; [|by destruct l]. cbv [mbind option_bind].
  exists x, y. split_and!; [done|apply Hin; set_solver| |].
  - apply Hin. destruct l; simplify_eq/=; left.
  - assert (Hx : forall a, a ∈ eligible -> countOf counts a <= countOf counts x).
    { intros a [Ha|Ha%list_elem_of_singleton]%Hin%elem_of_app; [|by subst]. apply Hle.
      by apply (StronglySorted_app_1_elem_of _ l [x] a x Hs Ha), list_elem_of_singleton. }
    assert (Hy' : forall a, a ∈ eligible -> countOf counts y <= countOf counts a).
    { intros a Ha%Hin. destruct (l ++ [x]) as [|z l']; simplify_eq/=. apply elem_of_cons in Ha as [->|Ha]; [done|].
      apply StronglySorted_inv in Hs as [_ Hs]. rewrite -> Forall_forall in Hs. by apply Hle, Hs. }
    intros a b Ha Hb. specialize (Hx a Ha). specialize (Hy' b Hb). lia.
Qed.

Lemma findMove_some (P : slotPlacement -> bool) slots i pl :
  findMove P slots = Some (i, pl) -> slots !! i = Some pl /\ P pl = true.
Proof. intros (Hi & HP & _)%list_find_Some. done. Qed.

(** The leader loop keeps the invariant and uses up its moves; with every move
    the leaders are spread more evenly. *)
Lemma leaderMoves_ok threshold fuel m :
  eligible <> [] -> 1 <= threshold -> moves_ok m ->
  exists rest m', leaderMoves eligible threshold fuel m = Some (rest, m') /\ moves_ok m' /\
    (length (mvBlocked m') + rest = length (mvBlocked m) + fuel)%nat /\
    (m' = m /\ rest = fuel \/
     imbalance eligible plLeader (mvSlots m') < imbalance eligible plLeader (mvSlots m) /\ mvSteps m' <> []).
Proof.
  intros Hne Hth. revert m. induction fuel as [|fuel IH]; intros m Hm; [by exists O, m; split_and!; auto|]. simpl.
  destruct (countExtremes_some (mvLeaders m) Hne) as (source & target & -> & Hs & Ht & _). cbv [mbind option_bind].
  destruct (_ <=? threshold) eqn:Hskew; [by exists (S fuel), m; split_and!; auto|].
  destruct (findLeaderMove _ _ _ _) as [[i pl]|] eqn:Hf; [|by exists (S fuel), m; split_and!; auto].
  apply findMove_some in Hf as [Hi HP]. rw !andb_true_iff !negb_true_iff String.eqb_eq String.eqb_neq in HP.
  destruct HP as [[_ <-] Hts]. destruct (IH (moveLeader m i pl target)) as (rest & m' & -> & Hm' & Hlen & Hdec).
  { by apply moveLeader_ok. }
  assert (Hlt : imbalance eligible plLeader (mvSlots (moveLeader m i pl target)) < imbalance eligible plLeader (mvSlots m)).
  { apply (imbalance_move _ _ _ _ pl); [done..|]. simpl. rewrite <- !(ok_leaders m Hm). lia. }
  exists rest, m'. split_and!; [done..| |].
  - simpl in Hlen. rw length_app in Hlen. simpl in Hlen. lia.
  - right. destruct Hdec as [[-> ->]|[Hdec Hst]]; [|split; [lia|done]]. split; [done|]. simpl. by destruct (mvSteps m).
Qed.

Lemma leaderMoves_rest threshold fuel m rest m' :
  leaderMoves eligible threshold fuel m = Some (rest, m') -> (rest <= fuel)%nat.
Proof.
  revert m. induction fuel as [|fuel IH]; intros m; simpl; [by intros [= <- <-]|].
  destruct (countExtremes _ _) as [[[source target] skew]|]; [|done]. cbv [mbind option_bind].
  destruct (skew <=? threshold); [by intros [= <- <-]|].
  destruct (findLeaderMove _ _ _ _) as [[i pl]|]; [|by intros [= <- <-]]. intros ?%IH. lia.
Qed.

(** When the leader loop ends at once, the leaders are evenly spread. *)
Lemma leaderMoves_even threshold fuel m :
  eligible <> [] -> 0 <= threshold -> moves_ok m -> mvMoved m = ∅ -> leaderMoves eligible threshold (S fuel) m = Some (S fuel, m) ->
  forall a b, a ∈ eligible -> b ∈ eligible -> owned plLeader (mvSlots m) a - owned plLeader (mvSlots m) b <= threshold.
Proof.
  intros Hne Hth Hm Hmoved Hrun a b Ha Hb. simpl in Hrun. pose proof (ok_leaders m Hm) as Hc.
  destruct (countExtremes_some (mvLeaders m) Hne) as (source & target & Hx & Hs & Ht & Hmax). rw Hx in Hrun.
  cbv [mbind option_bind] in Hrun. specialize (Hmax a b Ha Hb). rewrite -> !Hc in Hmax. rewrite -> !Hc in Hrun.
  destruct (Z.leb_spec (owned plLeader (mvSlots m) source - owned plLeader (mvSlots m) target) threshold) as [?|Hskew]; [lia|].
  exfalso.
  destruct (findLeaderMove _ _ _ _) as [[i pl]|] eqn:Hf; [apply leaderMoves_rest in Hrun; lia|].
  unfold findLeaderMove, findMove in Hf. rw list_find_None Hmoved in Hf. pose proof (owned_nonneg plLeader (mvSlots m) target).
  assert (Hzero : owned plLeader (mvSlots m) source = 0); [|lia]. unfold owned.
  rw (zsum_ext _ (fun _ => 0) (mvSlots m)); [|by clear; induction (mvSlots m)]. intros pl Hpl.
  rewrite -> Forall_forall in Hf. specialize (Hf pl Hpl). pose proof (ok_two m Hm) as Htwo.
  rewrite -> Forall_forall in Htwo. destruct (Htwo pl Hpl) as (Hready & _).
  destruct (decide (plLeader pl = source)) as [Hown|Hown]; [|by rw bool_decide_eq_false_2]. exfalso. apply Hf. rw bool_decide_eq_false_2; [set_solver|].
  rw Hready Hown String.eqb_refl. simpl. apply negb_true_iff, String.eqb_neq. intros ->. lia.
Qed.

(** The replica loop leaves the leaders where they are. *)
Lemma replicaMoves_ok threshold fuel m :
  eligible <> [] -> 1 <= threshold -> moves_ok m ->
  exists rest m', replicaMoves eligible threshold fuel m = Some (rest, m') /\ moves_ok m' /\
    (length (mvBlocked m') + rest = length (mvBlocked m) + fuel)%nat /\
    imbalance eligible plLeader (mvSlots m') = imbalance eligible plLeader (mvSlots m) /\
    (m' = m \/
     imbalance eligible plReplica (mvSlots m') < imbalance eligible plReplica (mvSlots m) /\ mvSteps m' <> []).
Proof.
  intros Hne Hth. revert m. induction fuel as [|fuel IH]; intros m Hm; [by exists O, m; split_and!; auto|]. simpl.
  destruct (countExtremes_some (mvReplicas m) Hne) as (source & target & -> & Hs & Ht & _). cbv [mbind option_bind].
  destruct (_ <=? threshold) eqn:Hskew; [by exists (S fuel), m; split_and!; auto|].
  destruct (findReplicaMove _ _ _ _) as [[i pl]|] eqn:Hf; [|by exists (S fuel), m; split_and!; auto].
  apply findMove_some in Hf as [Hi HP]. rw !andb_true_iff !negb_true_iff String.eqb_eq String.eqb_neq in HP.
  destruct HP as [[_ <-] Hts]. destruct (IH (moveReplica m i pl (plReplica pl) target)) as (rest & m' & -> & Hm' & Hlen & Hl & Hdec).
  { by apply moveReplica_ok. }
  assert (Hlt : imbalance eligible plReplica (mvSlots (moveReplica m i pl (plReplica pl) target))
                < imbalance eligible plReplica (mvSlots m)).
  { apply (imbalance_move _ _ _ _ pl); [done..|]. simpl. rewrite <- !(ok_replicas m Hm). lia. }
  exists rest, m'. split_and!; [done..| | |].
  - simpl in Hlen. rw length_app in Hlen. simpl in Hlen. lia.
  - rw Hl. simpl. unfold imbalance. apply zsum_ext. intros id _. rw (owned_insert _ _ _ _ _ _ Hi). simpl.
    replace (_ - _ + _) with (owned plLeader (mvSlots m) id); [done|lia].
  - right. destruct Hdec as [->|[Hdec Hst]]; [|split; [lia|done]]. split; [done|]. simpl. by destruct (mvSteps m).
Qed.
End moves.

(** ** Rebalance plans *)

Definition two_copies (eligible : list string) (s : SlotView) : Prop :=
  SVReady s = true /\ SVLeader s <> SVReplica s /\ SVLeader s ∈ eligible /\ SVReplica s ∈ eligible.

(** More even: in the leaders, or the same in the leaders and in the replicas. *)
Definition more_even (eligible : list string) (before after : list SlotView) : Prop :=
  imbalance eligible SVLeader after < imbalance eligible SVLeader before \/
  imbalance eligible SVLeader after = imbalance eligible SVLeader before /\
  imbalance eligible SVReplica after < imbalance eligible SVReplica before.

(** No two nodes lead numbers of slots that differ by more than the threshold. *)
Definition even_leaders (eligible : list string) (threshold : Z) (slots : list SlotView) : Prop :=
  forall a b, a ∈ eligible -> b ∈ eligible -> owned SVLeader slots a - owned SVLeader slots b <= threshold.

Lemma owned_placement owner owner' slots id :
  (forall s, owner (placementOf s) = owner' s) -> owned owner (placementOf <$> slots) id = owned owner' slots id.
Proof. intros Ho. unfold owned. rw zsum_fmap. apply zsum_ext. intros s _. by rw Ho. Qed.
Lemma imbalance_perm {A} eligible (owner : A -> string) l1 l2 :
  l1 ≡ₚ l2 -> imbalance eligible owner l1 = imbalance eligible owner l2.
Proof. intros Hp. apply zsum_ext. intros id _. unfold owned. by rw (zsum_perm _ _ _ Hp). Qed.
Lemma imbalance_placement eligible owner owner' slots :
  (forall s, owner (placementOf s) = owner' s) ->
  imbalance eligible owner (placementOf <$> slots) = imbalance eligible owner' slots.
Proof. intros Ho. apply zsum_ext. intros id _. by rw (owned_placement owner owner'). Qed.

Section plan.
Context `{SliceSortOk, MapRangeOk, PlanDigest} (view : ClusterView).
Hypothesis Hnumbers : NoDup (SVNumber <$> ViewSlots view).
Hypothesis Hnamed : Nodes view !! "" = None.

Lemma eligible_named : "" ∉ eligibleNodeIDs view.
Proof. unfold eligibleNodeIDs. rw selectNodes_elem. intros (node & Hn & _). congruence. Qed.

Lemma movable_two eligible slot : movable eligible slot = true -> two_copies eligible slot.
Proof.
  unfold movable. rw !andb_true_iff negb_true_iff !bool_decide_eq_true String.eqb_neq. intros [[[? ?] ?] ?]. by split_and!.
Qed.

Lemma two_movable eligible slots : Forall (two_copies eligible) slots -> forallb (movable eligible) slots = true.
Proof.
  induction 1 as [|s slots (Hr & Hne & Hl & Hp) _ IH]; [done|]. simpl. unfold movable. rw Hr !bool_decide_eq_true_2 //.
  by rw (proj2 (String.eqb_neq _ _) Hne).
Qed.

(** The state in which the loops start. *)
Lemma start_ok ss :
  ss ≡ₚ ViewSlots view -> forallb (movable (eligibleNodeIDs view)) (ViewSlots view) = true ->
  moves_ok (eligibleNodeIDs view) ss
    (mkMoves (placementOf <$> ss) (countBy SVLeader (ViewSlots view)) (countBy SVReplica (ViewSlots view)) ∅ [] []).
Proof.
  intros Hp Hm. assert (Htwo : forall s, s ∈ ss -> two_copies (eligibleNodeIDs view) s).
  { intros s Hs. apply movable_two. rewrite -> forallb_forall in Hm. apply Hm, list_elem_of_In. by rw -Hp. }
  split; simpl.
  - apply Forall2_fmap_r, Forall_Forall2_diag, Forall_forall. intros s Hs. exists s. split_and!; [done..|by apply Htwo].
  - apply Forall_fmap, Forall_forall. intros s (? & ? & ? & ?)%Htwo. by split_and!.
  - intros id. rw countOf_countBy (owned_placement plLeader SVLeader) //. unfold owned. by rw Hp.
  - intros id. rw countOf_countBy (owned_placement plReplica SVReplica) //. unfold owned. by rw Hp.
Qed.

(** What the final moves say of the slots of the view. *)
Lemma moved_slots ss m :
  ss ≡ₚ ViewSlots view -> moves_ok (eligibleNodeIDs view) ss m ->
  exists slots', mapM (runPlan (mvSteps m)) (ViewSlots view) = Some slots' /\ Forall (two_copies (eligibleNodeIDs view)) slots' /\
    imbalance (eligibleNodeIDs view) SVLeader slots' = imbalance (eligibleNodeIDs view) plLeader (mvSlots m) /\
    imbalance (eligibleNodeIDs view) SVReplica slots' = imbalance (eligibleNodeIDs view) plReplica (mvSlots m).
Proof.
  intros Hp [Hpl Htwo _ _].
  assert (exists ss', Forall2 (fun s s' => runPlan (mvSteps m) s = Some s') ss ss' /\ mvSlots m = placementOf <$> ss' /\
                      Forall (fun s => SVReady s = true) ss') as (ss' & Hss & Heq & Hready).
  { clear -Hpl. induction Hpl as [|s pl ss pls (s' & Hr & <- & Hs) _ (ss' & Hss & -> & Hall)]; [by exists []|].
    exists (s' :: ss'). by split_and!; [constructor| |constructor]. }
  destruct (Permutation_Forall2 Hp Hss) as (slots' & Hp' & Hs'). exists slots'.
  rw Heq in Htwo. rw Heq (imbalance_placement _ plLeader SVLeader) //.
  rw (imbalance_placement _ plReplica SVReplica) //. split_and!; [by apply mapM_Some_2| |by apply imbalance_perm..].
  rw -Hp'. apply Forall_forall. intros s Hs. rewrite -> Forall_forall in Hready. rewrite -> Forall_fmap, Forall_forall in Htwo.
  destruct (Htwo s Hs) as (_ & ? & ? & ?). split_and!; auto.
Qed.

Lemma rebalance_plan threshold maxMoves :
  1 <= threshold ->
  exists r, PlanRebalance view threshold maxMoves = Some r /\
  (r = None -> 0 < maxMoves -> (2 <= length (eligibleNodeIDs view))%nat ->
   Forall (two_copies (eligibleNodeIDs view)) (ViewSlots view) -> even_leaders (eligibleNodeIDs view) threshold (ViewSlots view)) /\
  forall plan, r = Some plan ->
    Z.of_nat (length (WriteBlockedSlots plan)) <= maxMoves /\ Forall (two_copies (eligibleNodeIDs view)) (ViewSlots view) /\
    exists slots', mapM (runPlan (Steps plan)) (ViewSlots view) = Some slots' /\
      Forall (two_copies (eligibleNodeIDs view)) slots' /\ more_even (eligibleNodeIDs view) (ViewSlots view) slots'.
Proof.
  intros Hth. unfold PlanRebalance. rw (proj2 (Z.ltb_ge threshold 0)); [lia|].
  destruct (Z.leb_spec maxMoves 0); [eexists; split_and!; [done|lia|done]|].
  destruct (_ <? 2)%nat eqn:Hlen; [apply Nat.ltb_lt in Hlen; eexists; split_and!; [done|lia|done]|]. apply Nat.ltb_ge in Hlen.
  destruct (forallb (movable _) _) eqn:Hmov; [|eexists; split_and!; [done| |done]; intros _ _ _ Hall; by rw two_movable in Hmov].
  simpl.
  set (eligible := eligibleNodeIDs view) in *. assert (Hne : eligible <> []) by (intros He; rw He in Hlen; simpl in Hlen; lia).
  pose proof (selectNodes_NoDup usable view : NoDup eligible) as Hnd. pose proof eligible_named as Hn. fold eligible in Hn.
  pose proof (slice_sort_perm _ (fun a b => plNumber a <? plNumber b) (placementOf <$> ViewSlots view)) as Hperm.
  destruct (Permutation_map_inv _ _ Hperm) as (ss & Hss & Hp).
  change (map placementOf ss) with (placementOf <$> ss) in Hss. rw Hss. symmetry in Hp.
  assert (Hnss : NoDup (SVNumber <$> ss)) by by rw Hp.
  pose proof (start_ok ss Hp Hmov) as Hstart. fold eligible in Hstart.
  destruct (leaderMoves_ok eligible ss Hnd Hn Hnss threshold (Z.to_nat maxMoves) _ Hne Hth Hstart)
    as (rest & m1 & Hl0 & [P1 T1 L1 R1] & Hl1 & Hd1). rw Hl0. cbv [mbind option_bind].
  set (m1' := mkMoves (mvSlots m1) _ _ _ _ _).
  destruct (replicaMoves_ok eligible ss Hnd Hn Hnss threshold rest m1' Hne Hth) as (rest2 & m2 & -> & Hm2 & Hl2 & Hle & Hd2); [by split|].
  destruct (moved_slots ss m2 Hp Hm2) as (slots' & Hmap & Htwo & HL & HR). fold eligible in Htwo, HL, HR.
  assert (HL0 : forall id, owned plLeader (placementOf <$> ss) id = owned SVLeader (ViewSlots view) id).
  { intros id. rw (owned_placement plLeader SVLeader) //. unfold owned. by rw Hp. }
  destruct (mvSteps m2) as [|st sts] eqn:Hst.
  { eexists. split_and!; [done| |done]. intros _ _ _ _ a b Ha Hb. rewrite <- !HL0.
    destruct Hd2 as [->|[_ ?]]; [|done]. destruct Hd1 as [[-> ->]|[_ ?]]; [|done]. destruct (Z.to_nat maxMoves) as [|fuel] eqn:Hf; [lia|].
    refine (leaderMoves_even eligible ss Hnd Hn Hnss threshold fuel _ Hne _ Hstart eq_refl Hl0 a b Ha Hb). lia. }
  eexists. split; [done|]. split; [done|]. intros plan [= <-]. simpl. split_and!.
  - simpl in Hl1, Hl2. lia.
  - apply Forall_forall. intros s Hs. apply movable_two. rewrite -> forallb_forall in Hmov. by apply Hmov, list_elem_of_In.
  - exists slots'. split_and!; [done..|]. unfold more_even. rw HL HR Hle.
    assert (HI : imbalance eligible plLeader (placementOf <$> ss) = imbalance eligible SVLeader (ViewSlots view)).
    { apply zsum_ext. intros id _. by rw HL0. }
    destruct Hd1 as [[-> _]|[Hd1 _]]; simpl in *; [|left; by rw -HI]. right. split; [done|].
    destruct Hd2 as [->|[Hd2 _]]; [by simpl in Hst|]. simpl in Hd2. rw (imbalance_placement _ plReplica SVReplica) // in Hd2.
    rw (imbalance_perm _ _ _ _ Hp) in Hd2. done.
Qed.
End plan.

(** ** Rounds of rebalancing *)

Definition withSlots (view : ClusterView) (slots : list SlotView) : ClusterView :=
  mkView (ViewClusterID view) (MetadataVersion view) slots (Nodes view) (ObservedAt view) (Status view).

(** Plan, carry out, observe, until no plan is needed; [None] when the rounds
    run out or a plan cannot be carried out. *)
Fixpoint rebalanceRounds `{SliceSort, MapRange, PlanDigest} (threshold maxMoves : Z) (rounds : nat) (view : ClusterView)
    : option ClusterView :=
  plan ← PlanRebalance view threshold maxMoves;
  match plan, rounds with
  | None, _ => Some view
  | Some _, O => None
  | Some plan, S rounds =>
      slots ← mapM (runPlan (Steps plan)) (ViewSlots view);
      rebalanceRounds threshold maxMoves rounds (withSlots view slots)
  end.

Lemma runPlan_numbers steps slots slots' :
  mapM (runPlan steps) slots = Some slots' -> SVNumber <$> slots' = SVNumber <$> slots.
Proof.
  intros H%mapM_Some_1. induction H as [|s s' slots slots' Hs _ IH]; [done|]. simpl. f_equal; [|done]. by eapply runSteps_number.
Qed.

(** The rounds left are bounded by a number that goes down with each plan:
    leaders first, replicas second. *)
Definition potential (eligible : list string) (n : Z) (slots : list SlotView) : Z :=
  imbalance eligible SVLeader slots * (n * n + 1) + imbalance eligible SVReplica slots.

Section rounds.
Context `{SliceSortOk, MapRangeOk, PlanDigest} (threshold maxMoves : Z) (Hth : 1 <= threshold) (Hmax : 0 < maxMoves).

Lemma potential_bound eligible slots n :
  NoDup eligible -> Forall (two_copies eligible) slots -> n = Z.of_nat (length slots) ->
  0 <= potential eligible n slots < (n * n + 1) * (n * n + 1).
Proof.
  intros Hnd Hall ->. rewrite -> Forall_forall in Hall. unfold potential.
  pose proof (imbalance_bound eligible SVLeader slots Hnd (fun s Hs => proj1 (proj2 (proj2 (Hall s Hs))))).
  pose proof (imbalance_bound eligible SVReplica slots Hnd (fun s Hs => proj2 (proj2 (proj2 (Hall s Hs))))). nia.
Qed.
Lemma potential_less eligible before after :
  NoDup eligible -> Forall (two_copies eligible) before -> Forall (two_copies eligible) after ->
  length after = length before -> more_even eligible before after ->
  potential eligible (Z.of_nat (length before)) after < potential eligible (Z.of_nat (length before)) before.
Proof.
  intros Hnd Hb Ha Hlen Hm. rewrite -> Forall_forall in Hb, Ha. unfold potential.
  pose proof (imbalance_bound eligible SVReplica before Hnd (fun s Hs => proj2 (proj2 (proj2 (Hb s Hs))))).
  pose proof (imbalance_bound eligible SVReplica after Hnd (fun s Hs => proj2 (proj2 (proj2 (Ha s Hs))))) as Hra.
  rw Hlen in Hra. destruct Hm as [Hm|[-> Hm]]; nia.
Qed.

Lemma rounds_end rounds view :
  NoDup (SVNumber <$> ViewSlots view) -> Nodes view !! "" = None -> (2 <= length (eligibleNodeIDs view))%nat ->
  Forall (two_copies (eligibleNodeIDs view)) (ViewSlots view) ->
  potential (eligibleNodeIDs view) (Z.of_nat (length (ViewSlots view))) (ViewSlots view) <= Z.of_nat rounds ->
  exists slots, rebalanceRounds threshold maxMoves rounds view = Some (withSlots view slots) /\
    Forall (two_copies (eligibleNodeIDs view)) slots /\ even_leaders (eligibleNodeIDs view) threshold slots.
Proof.
  revert view. induction rounds as [|rounds IH]; intros view Hnum Hname Helig Htwo Hpot; simpl;
    destruct (rebalance_plan view Hnum Hname threshold maxMoves Hth) as (r & -> & Hnone & Hsome); cbv [mbind option_bind];
    (destruct r as [plan|]; [|exists (ViewSlots view); split_and!; [by destruct view|done|by apply Hnone]]);
    destruct (Hsome plan eq_refl) as (_ & _ & slots & Hmap & Hall & Heven);
    pose proof (length_mapM _ _ _ Hmap) as Hlen; pose proof (selectNodes_NoDup usable view : NoDup (eligibleNodeIDs view)) as Hnd;
    pose proof (potential_less _ _ _ Hnd Htwo Hall (eq_sym Hlen) Heven) as Hless.
  - pose proof (potential_bound _ slots (Z.of_nat (length (ViewSlots view))) Hnd Hall). lia.
  - rw Hmap. destruct (IH (withSlots view slots)) as (final & Hr & Hf).
    + simpl. by rw (runPlan_numbers _ _ _ Hmap).
    + done.
    + done.
    + done.
    + change (eligibleNodeIDs (withSlots view slots)) with (eligibleNodeIDs view). simpl. rewrite <- Hlen. lia.
    + by exists final.
Qed.
End rounds.

(** C12: A rebalance plan exists only when every slot is
    fully replicated on eligible nodes, and moves at most as many slots as
    allowed.  Its steps can all be carried out: it promotes only a ready
    replica and never puts both copies on one node.  Afterwards every slot has
    a leader and a different, ready replica on eligible nodes, and the slots
    are spread more evenly than before. *)
Theorem rebalance_plan_safe `{SliceSortOk, MapRangeOk, PlanDigest} (view : ClusterView) (threshold maxMoves : Z) :
  NoDup (SVNumber <$> ViewSlots view) -> Nodes view !! "" = None -> 1 <= threshold ->
  exists r, PlanRebalance view threshold maxMoves = Some r /\
  forall plan, r = Some plan ->
    Z.of_nat (length (WriteBlockedSlots plan)) <= maxMoves /\ Forall (two_copies (eligibleNodeIDs view)) (ViewSlots view) /\
    exists slots', mapM (runPlan (Steps plan)) (ViewSlots view) = Some slots' /\
      Forall (two_copies (eligibleNodeIDs view)) slots' /\ more_even (eligibleNodeIDs view) (ViewSlots view) slots'.
Proof.
  intros Hnum Hname Hth. destruct (rebalance_plan view Hnum Hname threshold maxMoves Hth) as (r & Hr & _ & Hp). by exists r.
Qed.

Lemma rebalance_plan_safe_witness :
  exists plan slots', PlanRebalance (H1 := plainDigest) (exampleView true) 1 1 = Some (Some plan) /\
    stepsFor 0 (Steps plan) = [mkStep StepAssignReplica 0 "n2"; mkStep StepSync 0 "n2"; mkStep StepPromote 0 "n2";
                               mkStep StepAssignReplica 0 "n1"; mkStep StepSync 0 "n1"] /\
    mapM (runPlan (Steps plan)) (ViewSlots (exampleView true)) = Some slots' /\
    Forall (two_copies (eligibleNodeIDs (exampleView true))) slots'.
Proof.
  destruct (rebalance_plan_safe (H3 := plainDigest) (exampleView true) 1 1) as (r & Hr & Hp).
  - apply (bool_decide_unpack _). vm_compute. exact I.
  - by vm_compute.
  - done.
  - destruct r as [plan|]; [|by vm_compute in Hr]. destruct (Hp plan eq_refl) as (_ & _ & slots' & Hm & Ht & _).
    exists plan, slots'. split_and!; [done| |done..]. vm_compute in Hr. by injection Hr as <-.
Defined.

(** C13: Rebalancing ends: repeating plan and execution
    from any fully replicated view stops after at most [(n*n+1)*(n*n+1)]
    rounds, [n] the number of slots, without failing, and in the end no two
    eligible nodes lead numbers of slots that differ by more than the
    threshold. *)
Theorem rebalance_terminates `{SliceSortOk, MapRangeOk, PlanDigest} (view : ClusterView) (threshold maxMoves : Z) :
  let n := Z.of_nat (length (ViewSlots view)) in
  NoDup (SVNumber <$> ViewSlots view) -> Nodes view !! "" = None -> 1 <= threshold -> 0 < maxMoves ->
  (2 <= length (eligibleNodeIDs view))%nat -> Forall (two_copies (eligibleNodeIDs view)) (ViewSlots view) ->
  exists slots, rebalanceRounds threshold maxMoves (Z.to_nat ((n * n + 1) * (n * n + 1))) view = Some (withSlots view slots) /\
    Forall (two_copies (eligibleNodeIDs view)) slots /\ even_leaders (eligibleNodeIDs view) threshold slots.
Proof.
  intros n Hnum Hname Hth Hmax Helig Htwo. apply rounds_end; try done.
  pose proof (potential_bound (eligibleNodeIDs view) (ViewSlots view) n (selectNodes_NoDup usable view) Htwo eq_refl).
  fold n. rw Z2Nat.id; [nia|]. lia.
Qed.

Lemma rebalance_terminates_witness :
  (exists view', rebalanceRounds (H1 := plainDigest) 1 2 3 (exampleView true) = Some view' /\
    (SVLeader <$> ViewSlots view') = ["n1"; "n3"; "n2"; "n1"]) /\
  let n := Z.of_nat (length (ViewSlots (exampleView true))) in
  exists slots, rebalanceRounds (H1 := plainDigest) 1 2 (Z.to_nat ((n * n + 1) * (n * n + 1))) (exampleView true) =
      Some (withSlots (exampleView true) slots) /\
    even_leaders (eligibleNodeIDs (exampleView true)) 1 slots.
Proof.
  split; [eexists; split; [vm_compute; reflexivity|done]|].
  destruct (rebalance_terminates (H3 := plainDigest) (exampleView true) 1 2) as (slots & Hr & _ & He).
  - apply (bool_decide_unpack _). vm_compute. exact I.
  - by vm_compute.
  - done.
  - done.
  - vm_compute. lia.
  - unfold two_copies. apply (bool_decide_unpack _). vm_compute. exact I.
  - exact (ex_intro _ slots (conj Hr He)).
Defined.
