(* ===== verification/Observer.v ===== *)
(** * The observer: [internal/controller/observer.go] and the messages of
    [nodeclient.go]

    A poll asks every configured peer for its health and its cluster state at
    the same time and takes the answers as they come: the answers are an
    argument, and so is the order in which they arrive.  The digest of a state
    (SHA-256 of its JSON) is the class [StateDigest].  Times are nanoseconds. *)
From S2P Require Import Prelude Topology ControlFSM Planner.
Local Open Scope Z_scope.

(** ** Messages *)

Record SlotStatus := mkSlotStatus {
  SSNumber : Z;
  SSLeader : string;
  SSReplica : string;
  SSTerm : Z;
  SSReady : bool
}.
#[export] Instance SlotStatus_eq_dec : EqDecision SlotStatus.
Proof. solve_decision. Defined.

Record HealthResponse := mkHealth { HStatus : string; HNodeID : string }.

Record ClusterStateResponse := mkResponse {
  REnabled : bool;
  RNodeID : string;
  RClusterID : string;
  RSlotCount : Z;
  RMetadataVersion : Z;
  RSlots : list SlotStatus;
  RDataState : string
}.
#[export] Instance ClusterStateResponse_eq_dec : EqDecision ClusterStateResponse.
Proof. solve_decision. Defined.

(** What a peer answers to the two requests; [None] is no client. *)
Definition Answers : Type := string -> option ((HealthResponse + string) * (ClusterStateResponse + string)).

Class StateDigest := state_digest : string * Z * Z * list SlotStatus -> string.

(** The part of a state that has to agree. *)
Definition committed (state : ClusterStateResponse) : string * Z * Z * list SlotStatus :=
  (RClusterID state, RSlotCount state, RMetadataVersion state, RSlots state).

(** ** State *)

(** [firstMiss] is [None] when it is the zero time. *)
Record failureRecord := mkFailure { consecutive : Z; firstMiss : option Z; failed : bool }.
Definition zeroFailure : failureRecord := mkFailure 0 None false.

Record Observer := mkObserver {
  oPeers : list PeerConfig;
  failureAfter : Z;
  failureCount : Z;
  oSkewThreshold : Z;
  failures : gmap string failureRecord
}.

Definition NewObserver (ps : list PeerConfig) (cfg : ControllerConfig) : Observer :=
  mkObserver ps (ms (FailureTimeoutMs cfg)) (ConsecutiveFailures cfg) (orDefault (RebalanceSkewThreshold cfg) 1) ∅.

(** ** Polling *)

(** The goroutine that asks one peer. *)
Definition pollPeer (answers : Answers) (id : string) : ClusterStateResponse + string :=
  match answers id with
  | None => inr "node client is missing"
  | Some (inr err, _) => inr err
  | Some (inl health, answer) =>
      if negb (String.eqb (HStatus health) "ok") || negb (String.eqb (HNodeID health) id)
      then inr "invalid health identity or status"
      else match answer with
      | inr err => inr err
      | inl state =>
          if negb (REnabled state) || negb (String.eqb (RNodeID state) id)
          then inr "invalid cluster state identity" else inl state
      end
  end.

(** The record and the view of a peer after a result. *)
Definition miss (o : Observer) (now : Z) (record : failureRecord) : failureRecord :=
  let consecutive := consecutive record + 1 in
  let first := default now (firstMiss record) in
  mkFailure consecutive (Some first)
    (((0 <? failureCount o) && (failureCount o <=? consecutive)) ||
     ((0 <? failureAfter o) && (failureAfter o <=? now - first))).

Definition observeResult (o : Observer) (now : Z) (id : string) (result : ClusterStateResponse + string)
    (record : failureRecord) : NodeView * failureRecord :=
  match result with
  | inl state =>
      let returning := String.eqb (RDataState state) "recovering" in
      (mkNodeView id true false 0 0 0 (negb returning) returning, zeroFailure)
  | inr _ =>
      let record := miss o now record in
      (mkNodeView id (negb (failed record)) (negb (failed record)) (consecutive record) 0 0 (negb (failed record)) false, record)
  end.

Record Polled := mkPolled {
  pStates : list ClusterStateResponse;
  pNodes : gmap string NodeView;
  pFailures : gmap string failureRecord
}.

Definition receive (o : Observer) (answers : Answers) (now : Z) (p : Polled) (peer : PeerConfig) : Polled :=
  let id := CfgPeerID peer in
  let result := pollPeer answers id in
  let '(node, record) := observeResult o now id result (default zeroFailure (pFailures p !! id)) in
  mkPolled (match result with inl state => pStates p ++ [state] | inr _ => pStates p end)
    (<[id := node]> (pNodes p)) (<[id := record]> (pFailures p)).

(** ** The quorum *)

Section observer.
Context `{SliceSort, MapRange, StateDigest}.

(** The groups of equal states, with the first state and the number of each. *)
Definition addState (groups : gmap string (ClusterStateResponse * Z)) (state : ClusterStateResponse)
    : gmap string (ClusterStateResponse * Z) :=
  let digest := state_digest (committed state) in
  let '(first, count) := default (state, 0) (groups !! digest) in
  <[digest := (first, count + 1)]> groups.

Definition selectQuorumState (states : list ClusterStateResponse) (quorum : Z) : option ClusterStateResponse :=
  let groups := foldl addState ∅ states in
  let candidates := List.filter (fun group => quorum <=? group.2) (snd <$> range_map groups) in
  fst <$> head (slice_sort (fun a b => RMetadataVersion b.1 <? RMetadataVersion a.1) candidates).

(** ** The view *)

Definition zeroNode : NodeView := mkNodeView "" false false 0 0 0 false false.
Definition addLeader (node : NodeView) : NodeView :=
  mkNodeView (NodeViewID node) (Reachable node) (Suspected node) (ConsecFails node) (LeaderSlots node + 1)
    (ReplicaSlots node) (Eligible node) (Returning node).
Definition addReplicaSlot (node : NodeView) : NodeView :=
  mkNodeView (NodeViewID node) (Reachable node) (Suspected node) (ConsecFails node) (LeaderSlots node)
    (ReplicaSlots node + 1) (Eligible node) (Returning node).

Definition viewSlot (slot : SlotStatus) : SlotView :=
  mkSlotView (SSNumber slot) (SSLeader slot) (SSReplica slot) (SSTerm slot) (SSReady slot).
(** An owner that is not a peer gets a view of its own. *)
Definition countSlot (nodes : gmap string NodeView) (slot : SlotStatus) : gmap string NodeView :=
  let nodes := <[SSLeader slot := addLeader (default zeroNode (nodes !! SSLeader slot))]> nodes in
  if String.eqb (SSReplica slot) "" then nodes
  else <[SSReplica slot := addReplicaSlot (default zeroNode (nodes !! SSReplica slot))]> nodes.

Definition PollOnce (o : Observer) (answers : Answers) (arrivals : list PeerConfig) (now : Z)
    : option ClusterView * Observer :=
  let p := foldl (receive o answers now) (mkPolled [] ∅ (failures o)) arrivals in
  let o := mkObserver (oPeers o) (failureAfter o) (failureCount o) (oSkewThreshold o) (pFailures p) in
  match selectQuorumState (pStates p) (Z.of_nat (length (oPeers o)) / 2 + 1) with
  | None => (None, o)
  | Some canonical =>
      let nodes := foldl countSlot (pNodes p) (RSlots canonical) in
      let view := mkView (RClusterID canonical) (RMetadataVersion canonical) (viewSlot <$> RSlots canonical) nodes now zeroStatus in
      (Some (mkView (ViewClusterID view) (MetadataVersion view) (ViewSlots view) nodes now
               (summarizeStatusWithThreshold view (oSkewThreshold o))), o)
  end.

(** ** Committing *)

Definition material (view : ClusterView) : ClusterView :=
  let st := Status view in
  mkView (ViewClusterID view) (MetadataVersion view) (ViewSlots view) (Nodes view) 0
    (mkStatus (SState st) (FailedNodes st) (SuspectedNodes st) (DegradedSlots st) (UnavailableSlots st) "").
Definition materiallyEqualViews (left right : ClusterView) : bool := bool_decide (material left = material right).

(** The error is that of the poll or of the proposal. *)
Definition ObserveAndCommit {W} `{Proposer W} (o : Observer) (answers : Answers) (arrivals : list PeerConfig) (now : Z) (w : W)
    : option ClusterView * option string * Observer * W :=
  match PollOnce o answers arrivals now with
  | (None, o) => (None, Some "no quorum-consistent cluster state", o, w)
  | (Some view, o) =>
      let '(leader, w) := IsLeader w in
      if negb leader then (Some view, None, o, w)
      else
        let '(state, w) := ProposerState w in
        if materiallyEqualViews (LatestView state) view then (Some view, None, o, w)
        else let '(err, w) := Propose (CommandObserveView view) w in (Some view, err, o, w)
  end.
End observer.
