(* ===== verification/ObserverSpec.v ===== *)
(** * Properties of the observer *)
From S2P Require Import Prelude Topology ControlFSM Planner PlannerSpec Observer.
Local Open Scope Z_scope.

(** ** Votes *)

Definition votes (state : ClusterStateResponse) (states : list ClusterStateResponse) : Z :=
  zsum (fun s => if bool_decide (committed s = committed state) then 1 else 0) states.
Definition digestVotes `{StateDigest} (d : string) (states : list ClusterStateResponse) : Z :=
  zsum (fun s => if bool_decide (state_digest (committed s) = d) then 1 else 0) states.

(** The digests of the states tell them apart. *)
Definition digests_differ `{StateDigest} (states : list ClusterStateResponse) : Prop :=
  forall s1 s2, s1 ∈ states -> s2 ∈ states ->
  state_digest (committed s1) = state_digest (committed s2) -> committed s1 = committed s2.

Lemma digestVotes_votes `{StateDigest} state states :
  digests_differ states -> state ∈ states -> digestVotes (state_digest (committed state)) states = votes state states.
Proof.
  intros Hd Hin. apply zsum_ext. intros s Hs. destruct (decide (committed s = committed state)) as [He|Hne].
  - rw !bool_decide_eq_true_2 //. by rw He.
  - rw !bool_decide_eq_false_2 //. intros He. by apply Hne, Hd.
Qed.
Lemma digestVotes_pos `{StateDigest} d states :
  0 < digestVotes d states -> exists s, s ∈ states /\ state_digest (committed s) = d.
Proof.
  induction states as [|s states IH]; simpl; [done|]. destruct (decide (state_digest (committed s) = d)) as [He|Hne].
  - intros _. exists s. split; [left|done].
  - rw bool_decide_eq_false_2 //. intros (s' & ? & ?)%IH. exists s'. split; [by right|done].
Qed.
Lemma groups_spec `{StateDigest} states d :
  match foldl addState ∅ states !! d with
  | Some (first, count) => count = digestVotes d states /\ 0 < count /\ first ∈ states /\ state_digest (committed first) = d
  | None => digestVotes d states = 0
  end.
Proof.
  induction states as [|s states IH] using rev_ind; [by rw lookup_empty|]. rw foldl_app. simpl.
  unfold digestVotes in *. rw zsum_app. cbn [zsum foldr]. unfold addState at 1.
  set (g := foldl addState ∅ states) in *. set (ds := state_digest (committed s)).
  destruct (default (s, 0) (g !! ds)) as [first count] eqn:Hg. destruct (decide (ds = d)) as [<-|Hne].
  - rw lookup_insert_eq bool_decide_eq_true_2 //.
    destruct (g !! ds) as [[f c]|]; simpl in Hg; simplify_eq.
    + destruct IH as (-> & ? & Hin & Hd). split_and!; [lia|lia| |done]. apply elem_of_app. by left.
    + split_and!; [lia|lia| |done]. apply elem_of_app. right. by apply list_elem_of_singleton.
  - rw lookup_insert_ne // bool_decide_eq_false_2 //. destruct (g !! d) as [[f c]|]; [|lia].
    destruct IH as (-> & ? & Hin & Hd). split_and!; [lia|lia| |done]. apply elem_of_app. by left.
Qed.

(** A state is selected exactly when a quorum holds it. *)
Lemma select_quorum `{SliceSortOk, MapRangeOk, StateDigest} states quorum :
  digests_differ states -> 0 < quorum ->
  match selectQuorumState states quorum with
  | Some state => state ∈ states /\ quorum <= votes state states
  | None => forall state, state ∈ states -> votes state states < quorum
  end.
Proof.
  intros Hd Hq. unfold selectQuorumState. set (groups := foldl addState ∅ states).
  set (less := fun a b : ClusterStateResponse * Z => RMetadataVersion b.1 <? RMetadataVersion a.1).
  set (cands := List.filter _ _).
  assert (Hin : forall state count, (state, count) ∈ slice_sort less cands <->
    quorum <= count /\ exists d, groups !! d = Some (state, count)).
  { intros state count. rw slice_sort_elem list_elem_of_In. unfold cands. rw filter_In -list_elem_of_In list_elem_of_fmap.
    rw Z.leb_le. simpl. split.
    - intros [([d p] & -> & Hp%range_elem) Hc]. split; [done|]. by exists d.
    - intros (Hc & d & Hd'). split; [|done]. exists (d, (state, count)). split; [done|]. by apply range_elem. }
  destruct (slice_sort less cands) as [|[state count] rest].
  - simpl. intros state Hs. rewrite <- (digestVotes_votes _ _ Hd Hs).
    pose proof (groups_spec states (state_digest (committed state))) as Hg. fold groups in Hg.
    destruct (groups !! _) as [[f c]|] eqn:Hl.
    + destruct Hg as (-> & _). apply Z.nle_gt. intros Hle. apply (not_elem_of_nil (f, digestVotes (state_digest (committed state)) states)).
      apply Hin. eauto.
    + rw Hg. lia.
  - simpl. destruct (proj1 (Hin state count) (list_elem_of_here _ _)) as (Hc & d & Hl).
    pose proof (groups_spec states d) as Hg. fold groups in Hg. rw Hl in Hg. destruct Hg as (-> & _ & Hs & <-).
    split; [done|]. by rw -digestVotes_votes.
Qed.

(** Two states that a majority holds are the same. *)
Lemma majority_unique s1 s2 states :
  Z.of_nat (length states) < votes s1 states + votes s2 states -> committed s1 = committed s2.
Proof.
  intros Hv. destruct (decide (committed s1 = committed s2)) as [|Hne]; [done|]. exfalso.
  assert (votes s1 states + votes s2 states <= Z.of_nat (length states)); [|lia]. clear Hv.
  unfold votes. induction states as [|s states IH]; [done|]. simpl. do 2 case_bool_decide; try congruence; lia.
Qed.

(** ** Polls *)

(** The states that the peers answer with. *)
Definition answered (answers : Answers) (ps : list PeerConfig) : list ClusterStateResponse :=
  omap (fun p => match pollPeer answers (CfgPeerID p) with inl s => Some s | inr _ => None end) ps.

Lemma receive_states o answers now p ps :
  pStates (foldl (receive o answers now) p ps) = pStates p ++ answered answers ps.
Proof.
  revert p. induction ps as [|peer ps IH]; intros p; simpl; [by rw app_nil_r|]. rw IH. unfold receive.
  destruct (pollPeer answers (CfgPeerID peer)); simpl; [by rw -app_assoc|done].
Qed.
#[export] Instance votes_perm state : Proper (Permutation ==> eq) (votes state).
Proof. intros l1 l2 Hp. unfold votes. by rw Hp. Qed.
Lemma answered_perm answers ps1 ps2 : ps1 ≡ₚ ps2 -> answered answers ps1 ≡ₚ answered answers ps2.
Proof. intros Hp. unfold answered. by rw Hp. Qed.

Lemma answered_length answers ps : (length (answered answers ps) <= length ps)%nat.
Proof. induction ps as [|p ps IH]; [done|]. simpl. destruct (pollPeer answers (CfgPeerID p)); simpl; unfold answered in *; lia. Qed.

(** C15: A poll gives a view exactly when more than half of the
    configured peers report the same cluster state, and then the view has the
    cluster, version and slots of that state, which is the only one with a
    majority; the order in which the answers arrive does not matter. *)
Theorem view_is_majority `{SliceSortOk, MapRangeOk, StateDigest} (o : Observer) (answers : Answers)
    (arrivals : list PeerConfig) (now : Z) :
  let n := Z.of_nat (length (oPeers o)) in
  let states := answered answers (oPeers o) in
  arrivals ≡ₚ oPeers o -> digests_differ states ->
  match (PollOnce o answers arrivals now).1 with
  | Some view => exists state, n < 2 * votes state states /\
      ViewClusterID view = RClusterID state /\ MetadataVersion view = RMetadataVersion state /\
      ViewSlots view = viewSlot <$> RSlots state /\
      forall state', n < 2 * votes state' states -> committed state' = committed state
  | None => forall state, state ∈ states -> 2 * votes state states <= n
  end.
Proof.
  intros n states Hp Hd. pose proof (answered_perm answers _ _ Hp) as Hst. unfold PollOnce.
  pose proof (receive_states o answers now (mkPolled [] ∅ (failures o)) arrivals) as Hrec.
  set (p := foldl _ _ arrivals) in *. simpl in Hrec. rw Hrec.
  assert (Hd' : digests_differ (answered answers arrivals)).
  { intros s1 s2. rw Hst. apply Hd. }
  pose proof (select_quorum (answered answers arrivals) (n / 2 + 1) Hd' ltac:(pose proof (Z.div_pos n 2); lia)) as Hsel. simpl oPeers. fold n.
  assert (Hlen : Z.of_nat (length states) <= n).
  { apply Nat2Z.inj_le, answered_length. }
  destruct (selectQuorumState _ _) as [state|]; simpl.
  - destruct Hsel as [_ Hv]. rw Hst in Hv. fold states in Hv. assert (Hm : n < 2 * votes state states).
    { pose proof (Z.div_mod n 2). pose proof (Z.mod_pos_bound n 2). lia. }
    exists state. split_and!; [done..|]. intros state' Hv'. apply (majority_unique _ _ states). lia.
  - intros state Hs. specialize (Hsel state). rw Hst in Hsel. specialize (Hsel Hs). fold states in Hsel.
    pose proof (Z.div_mod n 2). pose proof (Z.mod_pos_bound n 2). lia.
Qed.

(** Two of three peers report version 7, the third an older one. *)
Definition versionDigest : StateDigest := fun s => if s.1.2 =? 7 then "7" else "6".
Definition exampleState (id : string) (v : Z) : ClusterStateResponse :=
  mkResponse true id "c" 1 v [mkSlotStatus 0 "a" "b" v true] "active".
Definition exampleAnswers : Answers := fun id =>
  Some (inl (mkHealth "ok" id), inl (exampleState id (if String.eqb id "a" then 6 else 7))).
Definition examplePeers : list PeerConfig := (fun id => mkPeerConfig id "automatic") <$> ["a"; "b"; "c"].
Definition exampleObserver : Observer := NewObserver examplePeers (mkControllerConfig 100 1000 3 1 1).

Lemma view_is_majority_witness :
  MetadataVersion <$> (PollOnce (H1 := versionDigest) exampleObserver exampleAnswers (reverse examplePeers) 5).1 = Some 7 /\
  match (PollOnce (H1 := versionDigest) exampleObserver exampleAnswers (reverse examplePeers) 5).1 with
  | Some view => exists state, 3 < 2 * votes state (answered exampleAnswers examplePeers) /\
      MetadataVersion view = RMetadataVersion state /\ ViewSlots view = viewSlot <$> RSlots state
  | None => False
  end.
Proof.
  split; [by vm_compute|].
  assert (Hd : digests_differ (H := versionDigest) (answered exampleAnswers (oPeers exampleObserver))).
  { unfold digests_differ. intros s1 s2 H1 H2. vm_compute in H1, H2.
    repeat (apply elem_of_cons in H1 as [->|H1]; [|]); try (by apply not_elem_of_nil in H1);
    repeat (apply elem_of_cons in H2 as [->|H2]; [|]); try (by apply not_elem_of_nil in H2); by vm_compute. }
  pose proof (view_is_majority (H3 := versionDigest) exampleObserver exampleAnswers (reverse examplePeers) 5
    (reverse_Permutation _) Hd) as Hm.
  destruct (PollOnce _ _ _ _) as [[view|] o'] eqn:Hp; simpl in *.
  - destruct Hm as (state & Hv & _ & ? & ? & _). by exists state.
  - by vm_compute in Hp.
Defined.
