(* ===== verification/ControlStatus.v ===== *)
(** * The status the controller reports: [internal/controller/status.go] with
    the types of [internal/controlplane/status.go] *)
From S2P Require Import Prelude GoTime Topology ControlFSM Planner PlannerSpec Observer.
Local Open Scope Z_scope.

Definition SlotClassText (c : SlotClass) : string :=
  match c with
  | SlotUnaffected => "unaffected" | SlotLeaderless => "leaderless"
  | SlotReplicaLost => "replica_lost" | SlotNoSurvivingCopy => "no_surviving_copy"
  end.

Record SlotRange := mkRange { RStart : Z; REnd : Z; RClass : string }.
Record SlotDetail := mkDetail {
  SDSlot : Z;
  Classification : string;
  FormerLeaderID : string;
  FormerReplicaID : string;
  SDFailures : list string;
  ReadsAvailable : bool;
  WritesAvailable : bool;
  RejectedCommands : list string;
  SDMessage : string
}.
Record PlanStatus := mkPlanStatus { PSID : string; PSKind : string; PSReason : string; CompletedSteps : Z; TotalSteps : Z }.
Record StatusSnapshot := mkSnapshot {
  SSState : string;
  SSControlIndex : Z;
  SSFailedNodes : list string;
  SSSuspectedNodes : list string;
  AffectedSlotRanges : list SlotRange;
  OneCopySlots : list SlotDetail;
  UnavailableDetails : list SlotDetail;
  SSActivePlan : option PlanStatus;
  SSLatestOperation : string;
  Warning : string;
  ReturningNodeDataPolicy : string
}.

Definition degradedFailureWarning : string :=
  "another failure before repair completes may cause slot unavailability or data loss".
Definition returningDataPolicy : string :=
  "v1 does not inspect, trust, or merge returning-node application data for recovery".
Definition rejectedKeyCommands : list string :=
  ["DEL"; "EXISTS"; "EXPIRE"; "GET"; "INCR"; "LLEN"; "LPOP"; "LPUSH"; "RPOP"; "RPUSH"; "SET"; "TTL"; "ZADD"; "ZCARD"; "ZRANGE"; "ZSCORE"].
Definition rejectedWriteCommands : list string := ["DEL"; "EXPIRE"; "INCR"; "LPOP"; "LPUSH"; "RPOP"; "RPUSH"; "SET"; "ZADD"].

(** The last range grows when the slot follows it with the same class. *)
Definition appendRange (ranges : list SlotRange) (slot : Z) (classification : string) : list SlotRange :=
  match last ranges with
  | Some r =>
      if String.eqb (RClass r) classification && (u32 (REnd r + 1) =? slot)
      then <[pred (length ranges) := mkRange (RStart r) slot (RClass r)]> ranges
      else ranges ++ [mkRange slot slot classification]
  | None => ranges ++ [mkRange slot slot classification]
  end.

Section status.
Context `{SliceSort, MapRange}.

Definition failedOwners (view : ClusterView) (slot : SlotView) : list string :=
  sortStrings (List.filter (fun id =>
    negb (String.eqb id "") &&
    match Nodes view !! id with
    | Some node => negb (Suspected node) && (negb (Reachable node) || negb (Eligible node))
    | None => true
    end) [SVLeader slot; SVReplica slot]).

(** The message, the rejected commands and whether reads go on. *)
Definition describe (c : SlotClass) : string * list string * bool :=
  match c with
  | SlotLeaderless => ("slot unavailable until its surviving replica is promoted", rejectedKeyCommands, false)
  | SlotReplicaLost =>
      ("slot has one reachable authoritative copy; reads continue but writes are rejected until replica repair completes",
       rejectedWriteCommands, true)
  | SlotNoSurvivingCopy =>
      ("slot unavailable — no authoritative copy currently reachable; data may be lost", rejectedKeyCommands, false)
  | SlotUnaffected => ("", [], false)
  end.

Definition slotDetail (state : FSMSnapshot) (c : SlotClass) (slot : SlotView) : SlotDetail :=
  let view := LatestView state in
  let failures := match failedOwners view slot, ActivePlan state with
                  | [], Some plan => DeadNodes plan
                  | fs, _ => fs
                  end in
  let '(text, rejected, reads) := describe c in
  match c, Unavailable state !! SVNumber slot with
  | SlotNoSurvivingCopy, Some u => mkDetail (SVNumber slot) (SlotClassText c) (ULeader u) (UReplica u) (UFailures u) reads false rejected text
  | _, _ => mkDetail (SVNumber slot) (SlotClassText c) (SVLeader slot) (SVReplica slot) failures reads false rejected text
  end.

Record Report := mkReport { rpOneCopy : list SlotDetail; rpUnavailable : list SlotDetail; rpRanges : list SlotRange }.

(** The loop over the slots in the order of their numbers; each of them has a
    class, since the classes are those of the same slots. *)
Definition reportSlot (state : FSMSnapshot) (r : Report) (slot : SlotView) : Report :=
  match default SlotUnaffected (ClassifySlots (LatestView state) !! SVNumber slot) with
  | SlotUnaffected => r
  | SlotNoSurvivingCopy =>
      mkReport (rpOneCopy r) (rpUnavailable r ++ [slotDetail state SlotNoSurvivingCopy slot])
        (appendRange (rpRanges r) (SVNumber slot) (SlotClassText SlotNoSurvivingCopy))
  | c =>
      mkReport (rpOneCopy r ++ [slotDetail state c slot]) (rpUnavailable r) (appendRange (rpRanges r) (SVNumber slot) (SlotClassText c))
  end.

(** The steps of the plan that are done, from [index] on. *)
Fixpoint countDone (plan : RecoveryPlan) (index : Z) (steps : list PlanStep) : Z :=
  match steps with
  | [] => 0
  | _ :: steps => (if isDone plan index then 1 else 0) + countDone plan (index + 1) steps
  end.

Definition BuildStatusSnapshot (state : FSMSnapshot) : StatusSnapshot :=
  let view := LatestView state in
  let st := Status view in
  let plan := (fun p => mkPlanStatus (PlanID p) (PlanKindText (PKind p)) (Reason p) (countDone p 0 (Steps p))
                          (Z.of_nat (length (Steps p)))) <$> ActivePlan state in
  let r := foldl (reportSlot state) (mkReport [] [] []) (sortSlots (ViewSlots view)) in
  mkSnapshot (if String.eqb (SState st) "" then "starting" else SState st) (ControlIndex state) (FailedNodes st) (SuspectedNodes st)
    (rpRanges r) (rpOneCopy r) (rpUnavailable r) plan (LatestCommittedOperation st)
    (match rpOneCopy r, rpUnavailable r with [], [] => "" | _, _ => degradedFailureWarning end)
    (match rpUnavailable r with [] => "" | _ => returningDataPolicy end).

Record ControllerNodeStatus := mkNodeStatus {
  CNID : string; CNReachable : bool; CNSuspected : bool; CNEligible : bool; CNReturning : bool; CNLeaderSlots : Z; CNReplicaSlots : Z
}.
Record ControllerView := mkControllerView {
  CVClusterID : string;
  CVMetadataVersion : Z;
  CVObservedAt : string;
  CVStatus : string;
  CVNodes : list ControllerNodeStatus;
  CVSlots : list SlotView
}.
Record ControllerStateSnapshot := mkControllerState {
  CSNodeID : string;
  RaftRole : string;
  RaftLeaderID : string;
  RaftTerm : Z;
  IsLeader : bool;
  CSControlIndex : Z;
  CurrentView : ControllerView;
  Recovery : StatusSnapshot;
  CSLastRebalance : option CompletedPlan
}.

Definition BuildControllerStateSnapshot (state : FSMSnapshot) (nodeID raftRole leaderID : string) (term : Z) (isLeader : bool)
    : ControllerStateSnapshot :=
  let view := LatestView state in
  mkControllerState nodeID raftRole leaderID term isLeader (ControlIndex state)
    (mkControllerView (ViewClusterID view) (MetadataVersion view) (if ObservedAt view =? 0 then "" else formatMillis (ObservedAt view))
       (SState (Status view))
       ((fun id => let node := default zeroNode (Nodes view !! id) in
                   mkNodeStatus id (Reachable node) (Suspected node) (Eligible node) (Returning node) (LeaderSlots node) (ReplicaSlots node))
          <$> selectNodes (fun _ => true) view)
       (sortSlots (ViewSlots view)))
    (BuildStatusSnapshot state) (LastRebalance state).
End status.

(** ** Properties *)

Section status_spec.
Context `{SliceSortOk}.

(** The slots that the ranges cover, one after the other. *)
Definition expand (r : SlotRange) : list (Z * string) :=
  (fun i => (RStart r + Z.of_nat i, RClass r)) <$> seq 0 (Z.to_nat (REnd r - RStart r + 1)).
Definition expandRanges (ranges : list SlotRange) : list (Z * string) := concat (expand <$> ranges).

Lemma expand_snoc start stop c : start <= stop -> expand (mkRange start (stop + 1) c) = expand (mkRange start stop c) ++ [(stop + 1, c)].
Proof.
  intros Hle. unfold expand. simpl. replace (Z.to_nat (stop + 1 - start + 1)) with (S (Z.to_nat (stop - start + 1))) by lia.
  rw seq_S fmap_app. simpl. do 3 f_equal. lia.
Qed.

Lemma appendRange_expand ranges slot c :
  Forall (fun r => 0 <= RStart r <= REnd r /\ REnd r < slot) ranges -> 0 <= slot < 4294967296 ->
  expandRanges (appendRange ranges slot c) = expandRanges ranges ++ [(slot, c)] /\
  Forall (fun r => 0 <= RStart r <= REnd r /\ REnd r <= slot) (appendRange ranges slot c).
Proof.
  intros Hr Hs. assert (Hnew : expandRanges (ranges ++ [mkRange slot slot c]) = expandRanges ranges ++ [(slot, c)]).
  { unfold expandRanges. rw fmap_app concat_app. f_equal. unfold expand. simpl. replace (slot - slot + 1) with 1 by lia. simpl.
    by rw Z.add_0_r. }
  assert (Hnew' : Forall (fun r => 0 <= RStart r <= REnd r /\ REnd r <= slot) (ranges ++ [mkRange slot slot c])).
  { apply Forall_app. split; [eapply Forall_impl; [exact Hr|]; simpl; lia|]. constructor; [simpl; lia|constructor]. }
  unfold appendRange. induction ranges as [|r ranges _] using rev_ind; [done|]. rw last_snoc.
  destruct (String.eqb_spec (RClass r) c) as [<-|]; [|done]. simpl. destruct (Z.eqb_spec (u32 (REnd r + 1)) slot) as [Heq|]; [|done].
  apply Forall_app in Hr as [Hr1 Hr2]. apply Forall_cons in Hr2 as [Hr2 _].
  rw length_app Nat.add_1_r. cbn [pred]. rw insert_app_r_alt // Nat.sub_diag. cbn [insert list_insert].
  assert (REnd r + 1 = slot) as <- by (unfold u32 in Heq; rw Z.mod_small in Heq; lia).
  split.
  - unfold expandRanges. rw !fmap_app !concat_app -app_assoc. f_equal. simpl. rw !app_nil_r expand_snoc; [lia|].
    by destruct r.
  - apply Forall_app. split; [eapply Forall_impl; [exact Hr1|]; simpl; lia|]. constructor; [simpl; lia|constructor].
Qed.

Definition ofClasses (view : ClusterView) (cs : list SlotClass) (slots : list SlotView) : list SlotView :=
  List.filter (fun s => bool_decide (classifySlot (Nodes view) s ∈ cs)) slots.
Definition oneCopy : list SlotClass := [SlotLeaderless; SlotReplicaLost].
Definition detailOf (state : FSMSnapshot) (slot : SlotView) : SlotDetail :=
  slotDetail state (classifySlot (Nodes (LatestView state)) slot) slot.
Definition rangeOf (view : ClusterView) (slot : SlotView) : Z * string := (SVNumber slot, SlotClassText (classifySlot (Nodes view) slot)).

Lemma report_spec state slots r bound :
  let view := LatestView state in
  (forall s, s ∈ slots -> ClassifySlots view !! SVNumber s = Some (classifySlot (Nodes view) s) /\ 0 <= SVNumber s < 4294967296) ->
  StronglySorted (fun a b => SVNumber a < SVNumber b) slots -> Forall (fun s => bound < SVNumber s) slots ->
  Forall (fun r => 0 <= RStart r <= REnd r /\ REnd r <= bound) (rpRanges r) ->
  let q := foldl (reportSlot state) r slots in
  expandRanges (rpRanges q) = expandRanges (rpRanges r) ++ (rangeOf view <$> ofClasses view (SlotNoSurvivingCopy :: oneCopy) slots) /\
  rpOneCopy q = rpOneCopy r ++ (detailOf state <$> ofClasses view oneCopy slots) /\
  rpUnavailable q = rpUnavailable r ++ (detailOf state <$> ofClasses view [SlotNoSurvivingCopy] slots).
Proof.
  intros view Hc Hs. revert r bound. induction Hs as [|s slots Hs IH Hlt]; intros r bound Hb Hr; [simpl; by rw !app_nil_r|].
  destruct (Hc s ltac:(left)) as [Hcs Hn]. specialize (IH ltac:(intros; apply Hc; by right)).
  apply Forall_cons in Hb as [Hb _]. intros q. subst q. cbn [foldl].
  destruct (IH (reportSlot state r s) (SVNumber s) Hlt) as (-> & -> & ->); unfold reportSlot; fold view; rw Hcs; cbn [default from_option id].
  - destruct (classifySlot (Nodes view) s); simpl; try (apply appendRange_expand; [|done]); eapply Forall_impl; try done; simpl; lia.
  - assert (Ha : forall c, expandRanges (appendRange (rpRanges r) (SVNumber s) c) = expandRanges (rpRanges r) ++ [(SVNumber s, c)]).
    { intros c. apply appendRange_expand; [|done]. eapply Forall_impl; [done|]. simpl. lia. }
    unfold ofClasses, rangeOf, detailOf. cbn [List.filter]. fold view.
    destruct (classifySlot (Nodes view) s) eqn:Hcl; simpl; rw ?Ha ?Hcl -?app_assoc //.
Qed.

Lemma sortSlots_strict slots : NoDup (SVNumber <$> slots) -> StronglySorted (fun a b => SVNumber a < SVNumber b) (sortSlots slots).
Proof.
  rewrite <- sortSlots_numbers.
  assert (Hs : StronglySorted (not_less (fun a b => SVNumber a <? SVNumber b)) (sortSlots slots)).
  { apply slice_sort_sorted, (strict_weak_on SVNumber), strict_weak_Zltb. }
  induction Hs as [|x l Hs IH Hx]; [constructor|]. rw fmap_cons. intros [Hn Hnd]%NoDup_cons. constructor; [by apply IH|].
  apply Forall_forall. intros y Hy. rewrite -> Forall_forall in Hx. specialize (Hx y Hy). unfold not_less in Hx.
  apply Z.ltb_ge in Hx. assert (SVNumber x <> SVNumber y) by (intros Heq; apply Hn; rw Heq; by apply list_elem_of_fmap_2). lia.
Qed.

Lemma describe_reads nodes s :
  (describe (classifySlot nodes s)).2 = true <-> ownerAvailable nodes (SVLeader s) = true /\ classifySlot nodes s <> SlotUnaffected.
Proof.
  unfold classifySlot. destruct (ownerAvailable nodes (SVLeader s)), (SVReady s && ownerAvailable nodes (SVReplica s)); naive_solver.
Qed.

Lemma detail_reads state s :
  let view := LatestView state in
  ReadsAvailable (detailOf state s) = (describe (classifySlot (Nodes view) s)).2 /\ WritesAvailable (detailOf state s) = false /\
  SDSlot (detailOf state s) = SVNumber s /\ Classification (detailOf state s) = SlotClassText (classifySlot (Nodes view) s).
Proof.
  unfold detailOf, slotDetail. destruct (classifySlot _ s); simpl; try done. by destruct (Unavailable state !! SVNumber s).
Qed.

Lemma ofClasses_nil view slots :
  ofClasses view (SlotNoSurvivingCopy :: oneCopy) slots = [] <-> ofClasses view oneCopy slots = [] /\ ofClasses view [SlotNoSurvivingCopy] slots = [].
Proof.
  unfold ofClasses. induction slots as [|s slots IH]; [done|]. simpl. destruct (classifySlot (Nodes view) s); simpl; naive_solver.
Qed.

(** C28: The status of the controller names exactly the affected slots.  Expanding
    its ranges gives, in the order of their numbers, the slots that lack a
    copy, each with its class; the details list the slots with one copy and
    those with none, each once; the warning is there exactly when a slot is
    affected.  Reads of an affected slot are reported as available exactly
    when its leader is, and writes never are. *)
Theorem status_reports_affected state :
  let view := LatestView state in
  let slots := sortSlots (ViewSlots view) in
  let status := BuildStatusSnapshot state in
  NoDup (SVNumber <$> ViewSlots view) -> (forall s, s ∈ ViewSlots view -> 0 <= SVNumber s < 4294967296) ->
  expandRanges (AffectedSlotRanges status) = rangeOf view <$> ofClasses view (SlotNoSurvivingCopy :: oneCopy) slots /\
  OneCopySlots status = detailOf state <$> ofClasses view oneCopy slots /\
  UnavailableDetails status = detailOf state <$> ofClasses view [SlotNoSurvivingCopy] slots /\
  (Warning status = "" <-> forall s, s ∈ ViewSlots view -> classifySlot (Nodes view) s = SlotUnaffected) /\
  forall d, d ∈ OneCopySlots status ++ UnavailableDetails status ->
    exists s, s ∈ ViewSlots view /\ SDSlot d = SVNumber s /\ Classification d = SlotClassText (classifySlot (Nodes view) s) /\
      ReadsAvailable d = ownerAvailable (Nodes view) (SVLeader s) /\ WritesAvailable d = false.
Proof.
  intros view slots status Hnd Hrange.
  assert (Hel : forall s, s ∈ slots <-> s ∈ ViewSlots view) by (intros s; apply slice_sort_elem).
  destruct (report_spec state slots (mkReport [] [] []) (-1)) as (Hr & H1c & Hu).
  { intros s Hs%Hel. split; [by apply ClassifySlots_lookup|by apply Hrange]. }
  { by apply sortSlots_strict. }
  { apply Forall_forall. intros s Hs%Hel%Hrange. lia. }
  { constructor. }
  simpl in Hr, H1c, Hu. split_and!; [done..| |].
  - unfold status, BuildStatusSnapshot. fold view. fold slots. cbn [Warning]. rw H1c Hu. fold view. clear - Hel.
    assert (Hw : (match detailOf state <$> ofClasses view oneCopy slots, detailOf state <$> ofClasses view [SlotNoSurvivingCopy] slots with
                  | [], [] => "" | _, _ => degradedFailureWarning end = "") <-> ofClasses view (SlotNoSurvivingCopy :: oneCopy) slots = []).
    { rw ofClasses_nil. destruct (ofClasses view oneCopy slots), (ofClasses view [SlotNoSurvivingCopy] slots); simpl; naive_solver. }
    rw Hw. unfold ofClasses. split.
    + intros Hnil s Hs%Hel. destruct (classifySlot (Nodes view) s) eqn:Hc; [done|..]; exfalso;
        (assert (Hin : In s []); [|done]); rewrite <- Hnil; apply filter_In; (split; [by apply list_elem_of_In|]); by rw Hc.
    + intros Hall. destruct (List.filter _ slots) as [|s l] eqn:Hf; [done|]. exfalso.
      assert (Hin : In s (s :: l)) by by left. rewrite <- Hf in Hin. apply filter_In in Hin as [Hin Hc].
      apply list_elem_of_In, Hel, Hall in Hin. by rw Hin in Hc.
  - intros d Hd. unfold status, BuildStatusSnapshot in Hd. cbn [OneCopySlots UnavailableDetails] in Hd. fold view slots in Hd.
    rewrite -> H1c, Hu in Hd. fold view in Hd.
    assert (exists s, s ∈ slots /\ classifySlot (Nodes view) s <> SlotUnaffected /\ d = detailOf state s) as (s & Hs & Hc & ->).
    { apply elem_of_app in Hd as [(s & -> & [Hs Hc]%list_elem_of_In%filter_In)%list_elem_of_fmap|(s & -> & [Hs Hc]%list_elem_of_In%filter_In)%list_elem_of_fmap];
        (exists s; split; [by apply list_elem_of_In|split; [|done]]; intros Hx; by rw Hx in Hc). }
    exists s. destruct (detail_reads state s) as (Hrd & Hw & Hn & Hcl). fold view in Hrd, Hcl.
    split_and!; [by apply Hel|done|done| |done]. rw Hrd. apply eq_true_iff_eq. rw describe_reads. naive_solver.
Qed.
End status_spec.

(** The first node is down: slots 0 to 3 wait for a promotion, slot 5 has its
    leader only. *)
Definition exampleStatus : FSMSnapshot :=
  setView (mkView "c" 7 (mkSlotView 5 "n3" "n1" 1 true :: ViewSlots (exampleView false)) (Nodes (exampleView false)) 0 zeroStatus) [] NewFSM.

Lemma status_reports_affected_witness :
  AffectedSlotRanges (BuildStatusSnapshot exampleStatus) = [mkRange 0 3 "leaderless"; mkRange 5 5 "replica_lost"] /\
  expandRanges (AffectedSlotRanges (BuildStatusSnapshot exampleStatus)) =
    [(0, "leaderless"); (1, "leaderless"); (2, "leaderless"); (3, "leaderless"); (5, "replica_lost")].
Proof.
  split; [vm_compute; reflexivity|].
  destruct (status_reports_affected exampleStatus) as [Hr _].
  - apply (bool_decide_unpack _). vm_compute. exact I.
  - intros s Hs. assert (Hf : Forall (fun s => 0 <= SVNumber s < 4294967296) (ViewSlots (LatestView exampleStatus))).
    { repeat constructor; simpl; lia. }
    rewrite -> Forall_forall in Hf. by apply Hf.
  - rw Hr. vm_compute. reflexivity.
Defined.
