(* ===== verification/ControlExecutor.v ===== *)
(** * The executor of plans: [internal/controller/executor.go] and
    [returning_node.go]

    The executor takes the active plan from Raft, carries out its steps on the
    nodes through their administrative interface, and commits each step.  Raft
    is the class [Proposer], the nodes [AdminAPI] and [ReturningAPI], the clock
    [Clock]: a sleep ends with the error of a cancelled context or with
    nothing.  A computation ends with a result or an error; [None] is a
    run-time panic, or the end of the fuel of the polling loop. *)
From S2P Require Import Prelude Topology ControlFSM Planner Observer.
Local Open Scope Z_scope.

Class AdminAPI (W : Type) := {
  ClusterState : string -> W -> (ClusterStateResponse + string) * W;
  AdminPromote : string -> Z -> Z -> W -> option string * W;
  AdminAssignReplica : string -> Z -> string -> Z -> W -> option string * W;
  AdminSyncReplica : string -> Z -> string -> Z -> W -> option string * W
}.
Class Clock (W : Type) := {
  TimeNow : W -> Z * W;
  Sleep : Z -> W -> option string * W
}.

Record ReturningNodeResponse := mkReturning {
  RNClusterID : string;
  RNMetadataVersion : Z;
  RNEntryCount : Z;
  RNRemovedSnapshots : Z;
  RNDataState : string
}.
Class ReturningAPI (W : Type) := {
  PrepareReturning : string -> string -> Z -> Z -> W -> (ReturningNodeResponse + string) * W;
  AdmitReturning : string -> string -> Z -> Z -> W -> (ReturningNodeResponse + string) * W
}.

Inductive ExecErr :=
| RaftNotLeader | ErrPlanSuperseded | NotConverged (planID : string) | Cancelled (text : string)
| ProposeFailed (text : string) | NoClient (id : string) | NoCurrentLeader (slot : Z) | UnsupportedStep
| CallFailed (kind : StepKind) (slot : Z) (text : string) | NotReached (kind : StepKind) (slot : Z)
| ReturningFailed (text : string).

(** [lastSync] is [None] when it is the zero time. *)
Record ExecutorConfig := mkExecutorConfig {
  clients : gset string;
  failureTimeout : Z;
  syncInterval : Z
}.
Definition NewExecutor (cfg : ControllerConfig) (ids : gset string) : ExecutorConfig :=
  mkExecutorConfig ids (orDefault (ms (FailureTimeoutMs cfg)) (10 * second)) (second / orDefault (MigrationRateLimit cfg) 1).

(** ** Pure parts *)

Definition clusterStatesConverged (states : list ClusterStateResponse) : bool :=
  match states with
  | [] => false
  | first :: states => forallb (fun state => bool_decide (committed state = committed first)) states
  end.

Definition findSlot (state : ClusterStateResponse) (number : Z) : option SlotStatus :=
  match (if number <? Z.of_nat (length (RSlots state)) then RSlots state !! Z.to_nat number else None) with
  | Some slot => if SSNumber slot =? number then Some slot else snd <$> list_find (fun s => SSNumber s = number) (RSlots state)
  | None => snd <$> list_find (fun s => SSNumber s = number) (RSlots state)
  end.

Definition stepPostcondition (state : ClusterStateResponse) (step : PlanStep) : bool :=
  match findSlot state (StSlot step) with
  | None => false
  | Some slot =>
      match StKind step with
      | StepPromote => String.eqb (SSLeader slot) (StTarget step) && String.eqb (SSReplica slot) "" && negb (SSReady slot)
      | StepAssignReplica =>
          String.eqb (SSReplica slot) (StTarget step) && negb (SSReady slot) && negb (String.eqb (SSLeader slot) (StTarget step))
      | StepSync =>
          String.eqb (SSReplica slot) (StTarget step) && SSReady slot && negb (String.eqb (SSLeader slot) (StTarget step))
      | StepMarkUnavailable => false
      end
  end.

Definition unavailableRecord (plan : RecoveryPlan) (slotNumber : Z) (view : ClusterView) : UnavailableSlot :=
  match list_find (fun s => SVNumber s = slotNumber) (ViewSlots view) with
  | Some (_, slot) => mkUnavailable slotNumber (SVLeader slot) (SVReplica slot) (DeadNodes plan)
  | None => mkUnavailable slotNumber "" "" (DeadNodes plan)
  end.

(** ** The monad *)

Section executor.
Context `{SliceSort, MapRange} {W : Type} `{Proposer W, AdminAPI W, Clock W, ReturningAPI W} (e : ExecutorConfig).

(** The state is the time of the last synchronisation and the world. *)
Definition X (A : Type) : Type := option Z * W -> option ((A + ExecErr) * (option Z * W)).
#[local] Instance X_ret : MRet X := fun A a x => Some (inl a, x).
#[local] Instance X_bind : MBind X := fun A B f m x =>
  match m x with
  | Some (inl a, x) => f a x
  | Some (inr err, x) => Some (inr err, x)
  | None => None
  end.
Definition fail {A} (err : ExecErr) : X A := fun x => Some (inr err, x).
Definition world {A} (f : W -> A * W) : X A := fun '(last, w) => let '(a, w) := f w in Some (inl a, (last, w)).
Definition check (f : W -> option string * W) (err : string -> ExecErr) : X unit :=
  r ← world f; match r with Some text => fail (err text) | None => mret tt end.

Definition activePlan (planID : string) : X (FSMSnapshot * RecoveryPlan) :=
  leader ← world IsLeader;
  if negb leader then fail RaftNotLeader
  else
    state ← world ProposerState;
    match ActivePlan state with
    | Some plan => if String.eqb (PlanID plan) planID then mret (state, plan) else fail ErrPlanSuperseded
    | None => fail ErrPlanSuperseded
    end.

Definition propose (command : Command) : X unit := check (Propose command) ProposeFailed.

(** ** Waiting *)

(** The loop over the eligible nodes: what they answer, [None] when one of
    them has no client, does not answer or is behind. *)
Fixpoint fetchStates (epoch : Z) (ids : list string) : X (option (list ClusterStateResponse)) :=
  match ids with
  | [] => mret (Some [])
  | id :: ids =>
      if negb (bool_decide (id ∈ clients e)) then mret None
      else
        r ← world (ClusterState id);
        match r with
        | inr _ => mret None
        | inl response =>
            if RMetadataVersion response <? epoch then mret None
            else rs ← fetchStates epoch ids; mret (cons response <$> rs)
        end
  end.

(** One round: the state of the nodes if they agree, and the next round when
    there is time left. *)
Definition converged (states : option (list ClusterStateResponse)) : option ClusterStateResponse :=
  match states with
  | Some (response :: responses) =>
      if clusterStatesConverged (response :: responses) then Some response else None
  | _ => None
  end.
Fixpoint waitLoop (fuel : nat) (planID : string) (epoch deadline : Z) : X ClusterStateResponse :=
  match fuel with
  | O => fun _ => None
  | S fuel =>
      '(state, _) ← activePlan planID;
      r ← fetchStates epoch (eligibleNodeIDs (LatestView state));
      match converged r with
      | Some response => mret response
      | None =>
          now ← world TimeNow;
          if deadline <? now then fail (NotConverged planID)
          else _ ← check (Sleep (20 * millisecond)) Cancelled; waitLoop fuel planID epoch deadline
      end
  end.
Definition waitForConvergence (fuel : nat) (planID : string) (epoch : Z) : X ClusterStateResponse :=
  now ← world TimeNow; waitLoop fuel planID epoch (now + failureTimeout e).

Definition setLastSync (t : Z) : X unit := fun '(_, w) => Some (inl tt, (Some t, w)).
Definition getLastSync : X (option Z) := fun '(last, w) => Some (inl last, (last, w)).

(** Since the zero time more than any interval has passed. *)
Definition waitForSyncRate : X unit :=
  last ← getLastSync;
  now ← world TimeNow;
  let wait := match last with Some t => syncInterval e - (now - t) | None => 0 end in
  _ ← (if 0 <? wait then check (Sleep wait) Cancelled else mret tt);
  now ← world TimeNow;
  setLastSync now.

(** ** Steps *)

Definition callStep (response : ClusterStateResponse) (step : PlanStep) (controlIndex : Z) : X (option string) :=
  match StKind step with
  | StepPromote =>
      if negb (bool_decide (StTarget step ∈ clients e)) then fail (NoClient (StTarget step))
      else world (AdminPromote (StTarget step) (StSlot step) controlIndex)
  | StepAssignReplica | StepSync =>
      match findSlot response (StSlot step) with
      | None => fail (NoCurrentLeader (StSlot step))
      | Some slot =>
          if String.eqb (SSLeader slot) "" then fail (NoCurrentLeader (StSlot step))
          else if negb (bool_decide (SSLeader slot ∈ clients e)) then fail (NoClient (SSLeader slot))
          else match StKind step with
          | StepAssignReplica => world (AdminAssignReplica (SSLeader slot) (StSlot step) (StTarget step) controlIndex)
          | _ => world (AdminSyncReplica (SSLeader slot) (StSlot step) (StTarget step) controlIndex)
          end
      end
  | StepMarkUnavailable => fail UnsupportedStep
  end.

(** The second wait, whose error matters only when the call succeeded. *)
Definition catch {A} (m : X A) : X (A + ExecErr) := fun x =>
  match m x with Some (r, x) => Some (inl r, x) | None => None end.

Definition executeTopologyStep (fuel : nat) (planID : string) (plan : RecoveryPlan) (step : PlanStep) : X unit :=
  _ ← (if bool_decide (StKind step = StepSync) then waitForSyncRate else mret tt);
  response ← waitForConvergence fuel planID (Epoch plan);
  if stepPostcondition response step then mret tt
  else
    '(state, _) ← activePlan planID;
    callErr ← callStep response step (ControlIndex state);
    verified ← catch (waitForConvergence fuel planID (Epoch plan));
    match verified with
    | inl after =>
        if stepPostcondition after step then mret tt
        else match callErr with
        | Some text => fail (CallFailed (StKind step) (StSlot step) text)
        | None => fail (NotReached (StKind step) (StSlot step))
        end
    | inr err =>
        match callErr with
        | Some text => fail (CallFailed (StKind step) (StSlot step) text)
        | None => fail err
        end
    end.

(** ** Plans *)

(** One iteration of [ExecuteOnce]: the step at [index] of the plan that is
    active now. *)
Definition executeStep (fuel : nat) (planID : string) (index : Z) : X unit :=
  '(state, plan) ← activePlan planID;
  if isDone plan index then mret tt
  else match Steps plan !! Z.to_nat index with
  | None => fun _ => None
  | Some step =>
      _ ← (if bool_decide (StKind step = StepMarkUnavailable)
           then match Unavailable state !! StSlot step with
                | Some _ => mret tt
                | None => propose (CommandMarkUnavailable [unavailableRecord plan (StSlot step) (LatestView state)])
                end
           else executeTopologyStep fuel planID plan step);
      _ ← activePlan planID;
      propose (CommandStepDone planID index)
  end.

(** The loop over [count] steps from [index] on. *)
Fixpoint executeSteps (fuel : nat) (planID : string) (index : Z) (count : nat) : X unit :=
  match count with
  | O => mret tt
  | S count => _ ← executeStep fuel planID index; executeSteps fuel planID (index + 1) count
  end.

Definition ExecuteOnce (fuel : nat) : X unit :=
  leader ← world IsLeader;
  if negb leader then fail RaftNotLeader
  else
    initial ← world ProposerState;
    match ActivePlan initial with
    | None => mret tt
    | Some plan =>
        _ ← executeSteps fuel (PlanID plan) 0 (length (Steps plan));
        _ ← activePlan (PlanID plan);
        propose (CommandPlanComplete (PlanID plan))
    end.

(** ** Returning nodes *)

Definition ReconcileOnce (ids : gset string) : X unit :=
  leader ← world IsLeader;
  if negb leader then fail RaftNotLeader
  else
    state ← world ProposerState;
    match ActivePlan state with
    | Some _ => mret tt
    | None =>
        match selectNodes (fun node => Reachable node && Returning node) (LatestView state) with
        | [] => mret tt
        | id :: _ =>
            if negb (bool_decide (id ∈ ids)) then fail (NoClient id)
            else if default true (ReturningNodes state !! id)
            then propose (CommandAdmitReturningNode id false)
            else
              let view := LatestView state in
              r ← world (PrepareReturning id (ViewClusterID view) (MetadataVersion view) (ControlIndex state));
              match r with
              | inr text => fail (ReturningFailed text)
              | inl prepared =>
                  if negb (String.eqb (RNClusterID prepared) (ViewClusterID view)) ||
                     (RNMetadataVersion prepared <? MetadataVersion view) || negb (RNEntryCount prepared =? 0) ||
                     negb (String.eqb (RNDataState prepared) "recovering")
                  then fail (ReturningFailed "preparation validation")
                  else
                    _ ← propose (CommandAdmitReturningNode id true);
                    committed ← world ProposerState;
                    let view := LatestView committed in
                    r ← world (AdmitReturning id (ViewClusterID view) (MetadataVersion view) (ControlIndex committed));
                    match r with
                    | inr text => fail (ReturningFailed text)
                    | inl state =>
                        if negb (String.eqb (RNDataState state) "active") || negb (RNEntryCount state =? 0)
                        then fail (ReturningFailed "did not enter active empty state") else mret tt
                    end
              end
        end
    end.
End executor.
