(* ===== verification/ControlExecutorSpec.v ===== *)
(** * Properties of the executor: waiting ends *)
From S2P Require Import Prelude Topology ControlFSM Planner Observer ControlExecutor.
Local Open Scope Z_scope.

#[export] Existing Instances X_ret X_bind.

(** ** Time *)

(** A clock that shows the time [now] of the world: no call moves it back, and
    a sleep that is not cancelled lasts at least as long as asked for. *)
Class ClockOk {W : Type} `{Proposer W, AdminAPI W, Clock W} (now : W -> Z) : Prop := {
  time_now w : (TimeNow w).1 = now w /\ now w <= now (TimeNow w).2;
  time_sleep w d : now w <= now (Sleep d w).2 /\ ((Sleep d w).1 = None -> now w + d <= now (Sleep d w).2);
  time_leader w : now w <= now (IsLeader w).2;
  time_state w : now w <= now (ProposerState w).2;
  time_propose w command : now w <= now (Propose command w).2;
  time_cluster w id : now w <= now (ClusterState id w).2;
  time_promote w id slot index : now w <= now (AdminPromote id slot index w).2;
  time_assign w id slot target index : now w <= now (AdminAssignReplica id slot target index w).2;
  time_sync w id slot target index : now w <= now (AdminSyncReplica id slot target index w).2
}.

(** An identifier stands for one list of steps, as [deterministicPlanID]
    makes it. *)
Definition plans_named {W} `{Proposer W} (steps : string -> list PlanStep) : Prop := forall (w : W) plan,
  ActivePlan (ProposerState w).1 = Some plan -> Steps plan = steps (PlanID plan).

Create HintDb returning discriminated.

Section waiting.
Context `{SliceSort, MapRange} {W : Type} `{Proposer W, AdminAPI W, Clock W} (now : W -> Z) `{!ClockOk now} (e : ExecutorConfig).

(** A computation that returns, and not before the time it started. *)
Definition returns {A} (m : X (W := W) A) : Prop := forall last w, exists r last' w',
  m (last, w) = Some (r, (last', w')) /\ now w <= now w'.

Lemma returns_ret {A} (a : A) : returns (mret a).
Proof. intros last w. by exists (inl a), last, w. Qed.
Lemma returns_fail {A} err : returns (A := A) (fail err).
Proof. intros last w. by exists (inr err), last, w. Qed.
Lemma returns_bind {A B} (m : X (W := W) A) (f : A -> X (W := W) B) :
  returns m -> (forall a, returns (f a)) -> returns (a ← m; f a).
Proof.
  intros Hm Hf last w. destruct (Hm last w) as (r & last1 & w1 & Hr1 & Hle). unfold mbind, X_bind. rw Hr1.
  destruct r as [a|err]; [|by eexists _, _, _]. destruct (Hf a last1 w1) as (r & last2 & w2 & Hr2 & Hle2).
  exists r, last2, w2. split; [done|lia].
Qed.
Lemma returns_world {A} (f : W -> A * W) : (forall w, now w <= now (f w).2) -> returns (world f).
Proof. intros Hf last w. unfold world. specialize (Hf w). destruct (f w) as [a w']. by exists (inl a), last, w'. Qed.
Lemma returns_if {A} (b : bool) (m1 m2 : X (W := W) A) : returns m1 -> returns m2 -> returns (if b then m1 else m2).
Proof. by destruct b. Qed.

#[local] Hint Resolve returns_ret returns_fail returns_bind returns_world returns_if time_leader time_state time_cluster
  time_propose time_promote time_assign time_sync : returning.
Ltac returning := repeat (first
  [ solve [eauto with returning] | progress intros | apply returns_bind | case_match | progress simpl ]).

Lemma activePlan_returns planID : returns (activePlan planID).
Proof. unfold activePlan. returning. Qed.
Lemma fetchStates_returns epoch ids : returns (fetchStates e epoch ids).
Proof. induction ids as [|id ids IH]; simpl; returning. Qed.
Lemma sleep_returns d : returns (world (W := W) (Sleep d)).
Proof. apply returns_world. intros w. apply (time_sleep w d). Qed.
#[local] Hint Resolve activePlan_returns fetchStates_returns sleep_returns : returning.

(** Computations that return when they start at or after [t]. *)
Definition returnsFrom (t : Z) {A} (m : X (W := W) A) : Prop := forall last w, t <= now w -> exists r last' w',
  m (last, w) = Some (r, (last', w')) /\ now w <= now w'.

Lemma returnsFrom_bind t {A B} (m : X (W := W) A) (f : A -> X (W := W) B) :
  returns m -> (forall a, returnsFrom t (f a)) -> returnsFrom t (a ← m; f a).
Proof.
  intros Hm Hf last w Ht. destruct (Hm last w) as (r & last1 & w1 & Hr1 & Hle). unfold mbind, X_bind. rw Hr1.
  destruct r as [a|err]; [|by eexists _, _, _]. destruct (Hf a last1 w1) as (r & last2 & w2 & Hr2 & Hle2); [lia|].
  exists r, last2, w2. split; [done|lia].
Qed.
Lemma returns_from t {A} (m : X (W := W) A) : returns m -> returnsFrom t m.
Proof. intros Hm last w _. apply Hm. Qed.

(** A round takes 20 milliseconds or is the last. *)
Lemma waitLoop_returns fuel planID epoch deadline :
  returnsFrom (deadline - Z.of_nat fuel * (20 * millisecond) + 1) (waitLoop e (S fuel) planID epoch deadline).
Proof.
  induction fuel as [|fuel IH]; cbn [waitLoop]; apply returnsFrom_bind; [by returning| |by returning|]; intros [state plan];
    (apply returnsFrom_bind; [by returning|]); intros rs; destruct (converged rs); [by apply returns_from; returning| |by apply returns_from; returning|].
  all: intros last w Hw; unfold mbind at 1, X_bind at 1, world at 1; destruct (time_now w) as [Hnow Hle];
    destruct (TimeNow w) as [t w1]; simpl in Hnow, Hle; subst t.
  - rw (proj2 (Z.ltb_lt deadline (now w))); [lia|]. eexists _, _, _. split; [done|lia].
  - destruct (Z.ltb_spec deadline (now w)) as [Hlt|Hge]; [by eexists _, _, _|].
    unfold check, mbind, X_bind, world. destruct (time_sleep w1 (20 * millisecond)) as [Hs1 Hs2].
    destruct (Sleep (20 * millisecond) w1) as [[text|] w2]; simpl in *; [eexists _, _, _; split; [done|lia]|].
    destruct (IH last w2) as (r & last' & w' & Hr & Hle'); [specialize (Hs2 eq_refl); lia|].
    exists r, last', w'. split; [done|lia].
Qed.

(** The fuel: the rounds that fit into the timeout, and two more. *)
Definition rounds : nat := S (Z.to_nat (failureTimeout e / (20 * millisecond) + 1)).

Lemma waitForConvergence_returns planID epoch : 0 <= failureTimeout e -> returns (waitForConvergence e rounds planID epoch).
Proof.
  intros Ht last w. unfold waitForConvergence, mbind, X_bind, world. destruct (time_now w) as [Hnow Hle].
  destruct (TimeNow w) as [t w1]. simpl in Hnow, Hle. subst t.
  destruct (waitLoop_returns (Z.to_nat (failureTimeout e / (20 * millisecond) + 1)) planID epoch (now w + failureTimeout e) last w1)
    as (r & last' & w' & Hr & Hle'); [|exists r, last', w'; split; [done|lia]].
  assert (0 < 20 * millisecond) by done. pose proof (Z.mul_succ_div_gt (failureTimeout e) (20 * millisecond)).
  pose proof (Z.div_pos (failureTimeout e) (20 * millisecond)). rw Z2Nat.id; [lia|]. lia.
Qed.
#[local] Hint Resolve waitForConvergence_returns : returning.

Lemma catch_returns {A} (m : X (W := W) A) : returns m -> returns (catch m).
Proof. intros Hm last w. destruct (Hm last w) as (r & last' & w' & Hr & Hle). unfold catch. rw Hr. by exists (inl r), last', w'. Qed.
Lemma timeNow_returns : returns (world (W := W) TimeNow).
Proof. apply returns_world. intros w. apply (time_now w). Qed.
Lemma lastSync_returns : returns (getLastSync (W := W)).
Proof. intros last w. by eexists _, _, _. Qed.
Lemma setLastSync_returns t : returns (setLastSync (W := W) t).
Proof. intros last w. by eexists _, _, _. Qed.
#[local] Hint Resolve catch_returns timeNow_returns lastSync_returns setLastSync_returns : returning.

Context (Htimeout : 0 <= failureTimeout e).

Lemma waitForSyncRate_returns : returns (waitForSyncRate e).
Proof. unfold waitForSyncRate. returning. Qed.
Lemma callStep_returns response step index : returns (callStep e response step index).
Proof. unfold callStep. returning. Qed.
#[local] Hint Resolve waitForSyncRate_returns callStep_returns : returning.
Lemma executeTopologyStep_returns planID plan step : returns (executeTopologyStep e rounds planID plan step).
Proof. unfold executeTopologyStep. returning. Qed.
Lemma propose_returns command : returns (propose (W := W) command).
Proof. unfold propose, check. returning. Qed.
#[local] Hint Resolve executeTopologyStep_returns propose_returns : returning.

Context (steps : string -> list PlanStep) (Hnamed : plans_named steps).

(** The plan of a world is the one its name stands for. *)
Lemma activePlan_named planID last w state plan x :
  activePlan planID (last, w) = Some (inl (state, plan), x) -> PlanID plan = planID /\ Steps plan = steps planID.
Proof.
  unfold activePlan, mbind, X_bind, world. destruct (IsLeader w) as [leader w1]. destruct leader; simpl; [|done].
  pose proof (Hnamed w1) as Hn. destruct (ProposerState w1) as [st w2]. simpl in Hn.
  destruct (ActivePlan st) as [p|] eqn:Hp; [|done]. destruct (String.eqb_spec (PlanID p) planID) as [<-|]; [|done].
  intros [= <- <- _]. split; [done|]. by apply Hn.
Qed.

Lemma executeStep_returns planID index :
  (Z.to_nat index < length (steps planID))%nat -> returns (executeStep e rounds planID index).
Proof.
  intros Hi last w. unfold executeStep. unfold mbind at 1, X_bind at 1.
  destruct (activePlan_returns planID last w) as (r & last1 & w1 & Hr & Hle). rw Hr. destruct r as [[state plan]|err]; [|by eexists _, _, _].
  destruct (activePlan_named _ _ _ _ _ _ Hr) as [_ Hst]. destruct (isDone plan index); [by eexists _, _, _|]. rw Hst.
  destruct (lookup_lt_is_Some_2 _ _ Hi) as [step Hstep]. rw Hstep.
  match goal with |- exists _ _ _, ?m (last1, w1) = _ /\ _ => assert (Hm : returns m) by returning end.
  destruct (Hm last1 w1) as (r & last2 & w2 & Hr2 & Hle2). exists r, last2, w2. split; [exact Hr2|lia].
Qed.
Lemma executeSteps_returns planID count index :
  0 <= index -> (Z.to_nat index + count <= length (steps planID))%nat -> returns (executeSteps e rounds planID index count).
Proof.
  revert index. induction count as [|count IH]; intros index Hi Hc; simpl; [apply returns_ret|].
  apply returns_bind; [apply executeStep_returns; lia|]. intros _. apply IH; lia.
Qed.
Lemma ExecuteOnce_returns : returns (ExecuteOnce e rounds).
Proof.
  unfold ExecuteOnce. apply returns_bind; [by returning|]. intros leader. destruct leader; simpl; [|by returning].
  intros last w. unfold mbind at 1, X_bind at 1, world at 1. pose proof (Hnamed w) as Hn. pose proof (time_state w) as Ht.
  destruct (ProposerState w) as [st w1]. simpl in Hn, Ht. destruct (ActivePlan st) as [plan|]; [|by eexists _, _, _].
  match goal with |- exists _ _ _, ?m (last, w1) = _ /\ _ => assert (Hm : returns m) end.
  { apply returns_bind; [|by returning]. apply executeSteps_returns; [done|]. by rw (Hn plan eq_refl). }
  destruct (Hm last w1) as (r & last2 & w2 & Hr2 & Hle2). exists r, last2, w2. split; [exact Hr2|lia].
Qed.
End waiting.

(** C14: A run of the executor comes back, whatever Raft
    and the nodes answer: it waits for convergence at most until the failure
    timeout, in rounds of 20 milliseconds, so the fuel
    [failureTimeout / 20ms + 2] is never used up, and it does not panic. *)
Theorem execution_terminates `{SliceSort, MapRange} {W : Type} `{Proposer W, AdminAPI W, Clock W} (now : W -> Z)
    `{!ClockOk now} (e : ExecutorConfig) (steps : string -> list PlanStep) (last : option Z) (w : W) :
  plans_named (W := W) steps -> 0 <= failureTimeout e ->
  exists r x, ExecuteOnce e (rounds e) (last, w) = Some (r, x).
Proof.
  intros Hn Ht. destruct (ExecuteOnce_returns now e Ht steps Hn last w) as (r & last' & w' & Hr & _). by exists r, (last', w').
Qed.

(** A controller with one plan whose nodes never answer; the world is the
    time. *)
Definition silentPlan : RecoveryPlan := mkPlan "p" PlanKindRecovery "" 3 [] [mkStep StepSync 0 "b"] ∅ [] [].
Definition silentState : FSMSnapshot :=
  mkFSM (mkView "c" 3 [] {["a" := mkNodeView "a" true false 0 0 0 true false]} 0 zeroStatus) [] (Some silentPlan) 1 ∅ ∅ "" None.
Definition silentProposer : Proposer Z :=
  {| IsLeader w := (true, w); Propose _ w := (Some "no quorum", w); ProposerState w := (silentState, w) |}.
Definition silentAdmin : AdminAPI Z :=
  {| ClusterState _ w := (inr "timeout", w); AdminPromote _ _ _ w := (Some "timeout", w);
     AdminAssignReplica _ _ _ _ w := (Some "timeout", w); AdminSyncReplica _ _ _ _ w := (Some "timeout", w) |}.
Definition silentClock : Clock Z := {| TimeNow w := (w, w); Sleep d w := (None, w + Z.max 0 d) |}.
Lemma silentClockOk : ClockOk (H := silentProposer) (H0 := silentAdmin) (H1 := silentClock) (fun w => w).
Proof. split; intros; simpl; lia. Qed.

Lemma execution_terminates_witness :
  match ExecuteOnce (H1 := silentProposer) (H2 := silentAdmin) (H3 := silentClock) (mkExecutorConfig {["a"]} 100000000 0)
          (rounds (mkExecutorConfig {["a"]} 100000000 0)) (None, 5) with
  | Some (inr (NotConverged id), (_, now)) => id = "p" /\ now = 5 + 6 * 20000000
  | _ => False
  end /\
  exists r x, ExecuteOnce (H1 := silentProposer) (H2 := silentAdmin) (H3 := silentClock) (mkExecutorConfig {["a"]} 100000000 0)
    (rounds (mkExecutorConfig {["a"]} 100000000 0)) (None, 5) = Some (r, x).
Proof.
  split; [by vm_compute|].
  apply (execution_terminates (H1 := silentProposer) (H2 := silentAdmin) (H3 := silentClock) (fun w => w)
           (ClockOk0 := silentClockOk) _ (fun _ => [mkStep StepSync 0 "b"])).
  - intros w plan [= <-]. done.
  - done.
Defined.
