(* ===== verification/AdminNode.v ===== *)
(** * The administrative interface of a node: [internal/controlplane/auth.go]
    and [fence.go], [internal/api/cluster_admin.go], [returning_node.go] and
    the state handlers of [handlers.go]

    A request of the controller is signed, carries the control index of the
    decision behind it, and passes the fence of the node before it changes the
    topology: the fence admits an index once, and repeats of the same request
    are answered without an effect.  HMAC and SHA-256 are the class [Crypto],
    the decoding of request bodies is the class [AdminJSON].  What writing the
    fence's file returns is an argument of the handlers; under automatic control
    the handlers of a node run one at a time, because [Begin] holds the lock of
    the fence until the response is written. *)
From S2P Require Import Prelude Encoding GoText GoFloat Resp SkipList Eviction Store Executor Engine Snapshot Metadata Server Cluster.
From S2P Require Import Topology ControlFSM Planner Observer ControlExecutor.
Local Open Scope Z_scope.

(** ** Authentication *)

Definition LF : string := String (chr 10) "".
Definition message (method path body index : string) : string :=
  method +:+ LF +:+ path +:+ LF +:+ index +:+ LF +:+ body.

Section auth.
Context `{Crypto}.
Definition Sign (secret method path body index : string) : string := hexEncode (hmac secret (message method path body index)).
Definition Verify (secret method path body index signature : string) : bool :=
  match hexDecode signature with
  | None => false
  | Some provided => String.eqb provided (hmac secret (message method path body index))
  end.
Definition OperationDigest (method path body index : string) : string := sha256 (message method path body index).
End auth.

(** ** The fence *)

Record fenceState := mkFence { FControlIndex : Z; FDigest : string }.
Inductive FenceErr := ErrStaleControlIndex | ErrControlIndexConflict | PersistFailed (text : string).
Definition FenceErrText (e : FenceErr) : string :=
  match e with
  | ErrStaleControlIndex => "stale control index"
  | ErrControlIndexConflict => "control index was already used for a different operation"
  | PersistFailed text => text
  end.

(** What [OpenFenceStore] accepts of the file it finds. *)
Definition fenceValid (s : fenceState) : bool :=
  (FControlIndex s =? 0) || match hexDecode (FDigest s) with Some d => slen d =? 32 | None => false end.

(** [true]: a repeat of the last operation.  [disk] is the error of [persist]. *)
Definition Begin (disk : option string) (index : Z) (digest : string) (s : fenceState) : (bool + FenceErr) * fenceState :=
  if (index =? 0) || (index <? FControlIndex s) then (inr ErrStaleControlIndex, s)
  else
    let digestText := hexEncode digest in
    if index =? FControlIndex s then
      if String.eqb digestText (FDigest s) then (inl true, s) else (inr ErrControlIndexConflict, s)
    else match disk with
    | Some text => (inr (PersistFailed text), s)
    | None => (inl false, mkFence index digestText)
    end.

(** ** Requests and responses *)

Record HTTPRequest := mkHTTP {
  Method : string;
  URLPath : string;
  Body : string;
  IndexHeader : string;
  SignatureHeader : string
}.

Inductive AdminResponse :=
| Refused (status : Z) (error : string)
| AdminDone (metadataVersion : Z) (slot : SlotState) (failedPeers : list string)
| ReturningState (r : ReturningNodeResponse).

Class AdminJSON := {
  decodeSlotRequest : string -> option Z;
  decodeReplicaRequest : string -> option (Z * string);
  decodeReturningRequest : string -> option (string * Z)
}.

(** The fields of the API server that the handlers read; [fenceOpen] is
    whether [OpenFenceStore] succeeded. *)
Record ServerConfig := mkServerConfig {
  srvEnabled : bool;
  srvAutomatic : bool;
  srvSecret : string;
  fenceOpen : bool;
  srvClusterID : string;
  srvSlotCount : Z
}.

Definition maxJSONBodyBytes : Z := 1048576.
Definition automaticManagementError : string :=
  "cluster topology is managed automatically; valid controller authentication is required".

(** [Manager.DataState] *)
Definition DataState (admitted : bool) : string := if admitted then "active" else "recovering".

Section admin.
Context `{Env, SliceSort, Texts, JSON} {N : Type} `{Net N} `{Crypto, AdminJSON} (srv : ServerConfig) (cfg : NodeConfig).

Record AdminNode := mkAdmin { anNode : Node (N := N); anFence : fenceState }.

(** ** Authorization *)

(** [None]: no authorization is needed. *)
Definition prepareControllerAuthorization (r : HTTPRequest) : option (Z * string) + AdminResponse :=
  if negb (srvAutomatic srv) then inl None
  else if negb (fenceOpen srv) then inr (Refused 500 "automatic control-plane fencing is unavailable")
  else if maxJSONBodyBytes <? slen (Body r) then inr (Refused 400 "invalid json body")
  else if negb (Verify (srvSecret srv) (Method r) (URLPath r) (Body r) (IndexHeader r) (SignatureHeader r))
  then inr (Refused 403 automaticManagementError)
  else match ParseUint (IndexHeader r) with
  | None | Some 0 => inr (Refused 403 automaticManagementError)
  | Some index => inl (Some (index, OperationDigest (Method r) (URLPath r) (Body r) (IndexHeader r)))
  end.

Definition beginControllerOperation (disk : option string) (authorization : option (Z * string)) (s : fenceState)
    : (bool + AdminResponse) * fenceState :=
  match authorization with
  | None => (inl false, s)
  | Some (index, digest) =>
      match Begin disk index digest s with
      | (inl replay, s) => (inl replay, s)
      | (inr (PersistFailed text), s) => (inr (Refused 500 text), s)
      | (inr e, s) => (inr (Refused 409 (FenceErrText e)), s)
      end
  end.

Definition writeClusterAdminResult (m : Metadata) (slot : Z) (r : (MetadataSnapshot * list string) + NodeErr) : AdminResponse :=
  match r with
  | inr e => Refused 400 (NodeErrText e)
  | inl (state, failed) =>
      match Slot m slot with
      | None => Refused 500 "updated slot is missing"
      | Some slotState => AdminDone (MVersion state) slotState failed
      end
  end.

(** ** Topology changes *)

(** The three handlers differ in the body they decode and in the operation. *)
Definition handleTopology {R} (decode : string -> option R) (slotOf : R -> Z)
    (op : R -> EM (W := World N) ((MetadataSnapshot * list string) + NodeErr))
    (disk : option string) (r : HTTPRequest) (a : AdminNode) : option (AdminResponse * AdminNode) :=
  let metadata n := wMeta (engHook n) in
  if negb (String.eqb (Method r) "POST") then Some (Refused 405 "method not allowed", a)
  else match prepareControllerAuthorization r with
  | inr refused => Some (refused, a)
  | inl authorization =>
      match decode (Body r) with
      | None => Some (Refused 400 "invalid json body", a)
      | Some req =>
          if negb (srvEnabled srv) then Some (Refused 409 "cluster mode is disabled", a)
          else match beginControllerOperation disk authorization (anFence a) with
          | (inr refused, fence) => Some (refused, mkAdmin (anNode a) fence)
          | (inl true, fence) =>
              let m := metadata (anNode a) in
              Some (writeClusterAdminResult m (slotOf req) (inl (Metadata.Snapshot m, [])), mkAdmin (anNode a) fence)
          | (inl false, fence) =>
              '(result, node) ← op req (anNode a);
              Some (writeClusterAdminResult (metadata node) (slotOf req) result, mkAdmin node fence)
          end
      end
  end.

#[local] Existing Instances EM_ret EM_bind.

Definition clusterResult (r : (MetadataSnapshot * list string) + ClusterErr) : (MetadataSnapshot * list string) + NodeErr :=
  match r with inl x => inl x | inr e => inr (IsCluster e) end.

Definition handleClusterPromote : option string -> HTTPRequest -> AdminNode -> option (AdminResponse * AdminNode) :=
  handleTopology decodeSlotRequest id (fun slot => r ← ManagerPromote cfg slot; mret (clusterResult r)).
Definition handleClusterReplica : option string -> HTTPRequest -> AdminNode -> option (AdminResponse * AdminNode) :=
  handleTopology (fun body => '(slot, id) ← decodeReplicaRequest body; if String.eqb id "" then None else Some (slot, id)) fst
    (fun '(slot, id) => r ← ManagerAssignReplica cfg slot id; mret (clusterResult r)).
Definition handleClusterSync : option string -> HTTPRequest -> AdminNode -> option (AdminResponse * AdminNode) :=
  handleTopology decodeReplicaRequest fst (fun '(slot, id) => SyncReplica cfg slot id).

(** ** Returning nodes *)

Definition writeReturningNodeState (removed : Z) : EM (W := World N) AdminResponse :=
  m ← readMeta;
  entries ← takeEntries;
  match entries with
  | inr e => mret (Refused 500 (snapErrText e))
  | inl entries =>
      admitted ← DataAdmitted;
      mret (ReturningState (mkReturning (clusterID m) (version m) (Z.of_nat (length entries)) removed (DataState admitted)))
  end.

(** [invalidate] is what removing the snapshot files gave: their number, or
    an error; without snapshots, or with snapshots disabled, it is 0. *)
Definition prepareReturning (invalidate : Z + string) (clusterId : string) (metadataVersion : Z) : EM (W := World N) AdminResponse :=
  _ ← RequireAdmission;
  r ← restoreEntries cfg [];
  match r with
  | inr e => mret (Refused 500 (snapErrText e))
  | inl _ =>
      match invalidate with
      | inr text => mret (Refused 500 text)
      | inl removed =>
          _ ← onWorld (fun w => (tt, syncMetadata cfg (nodePeers cfg) w));
          m ← readMeta;
          if negb (String.eqb (clusterID m) clusterId) || (version m <? metadataVersion)
          then mret (Refused 409 "latest committed cluster metadata is not installed")
          else writeReturningNodeState removed
      end
  end.
Definition admitReturning (clusterId : string) (metadataVersion : Z) : EM (W := World N) AdminResponse :=
  m ← readMeta;
  entries ← takeEntries;
  match entries with
  | inr e => mret (Refused 500 (snapErrText e))
  | inl entries =>
      if negb (String.eqb (clusterID m) clusterId) || (version m <? metadataVersion) || negb (length entries =? 0)%nat
      then mret (Refused 409 "returning node validation failed")
      else _ ← AdmitData; writeReturningNodeState 0
  end.

Definition handleReturning (op : string -> Z -> EM (W := World N) AdminResponse)
    (disk : option string) (r : HTTPRequest) (a : AdminNode) : option (AdminResponse * AdminNode) :=
  if negb (String.eqb (Method r) "POST") then Some (Refused 405 "method not allowed", a)
  else match prepareControllerAuthorization r with
  | inr refused => Some (refused, a)
  | inl authorization =>
      match decodeReturningRequest (Body r) with
      | None | Some ("", _) | Some (_, 0) => Some (Refused 400 "invalid json body", a)
      | Some (clusterId, metadataVersion) =>
          if negb (srvAutomatic srv) || negb (srvEnabled srv)
          then Some (Refused 409 "returning-node admission requires automatic cluster mode", a)
          else match beginControllerOperation disk authorization (anFence a) with
          | (inr refused, fence) => Some (refused, mkAdmin (anNode a) fence)
          | (inl replay, fence) =>
              '(result, node) ← (if (replay : bool) then writeReturningNodeState 0 else op clusterId metadataVersion) (anNode a);
              Some (result, mkAdmin node fence)
          end
      end
  end.
Definition handleReturningNodePrepare (invalidate : Z + string) :=
  handleReturning (prepareReturning invalidate).
Definition handleReturningNodeAdmit := handleReturning admitReturning.

(** ** Reads *)

Definition slotStatus (slot : SlotState) : SlotStatus :=
  mkSlotStatus (Number slot) (LeaderID slot) (ReplicaID slot) (Term slot) (ReplicaReady slot).
(** Of the answers, the part that the controller decodes. *)
Definition handleHealth (r : HTTPRequest) (a : AdminNode) : HealthResponse + AdminResponse :=
  if negb (String.eqb (Method r) "GET") then inr (Refused 405 "method not allowed") else inl (mkHealth "ok" (nodeID cfg)).
Definition handleClusterState (r : HTTPRequest) (a : AdminNode) : ClusterStateResponse + AdminResponse :=
  let m := wMeta (engHook (anNode a)) in
  if negb (String.eqb (Method r) "GET") then inr (Refused 405 "method not allowed")
  else inl (mkResponse (srvEnabled srv) (nodeID cfg) (srvClusterID srv) (srvSlotCount srv) (version m) (slotStatus <$> slots m)
              (DataState (admitted (engHook (anNode a))))).
End admin.
