(* ===== verification/AdminSpec.v ===== *)
(** * Properties of the administrative interface: authentication and fencing *)
From S2P Require Import Prelude Encoding GoText GoFloat Resp SkipList Eviction Store Executor Engine Snapshot Metadata Server Cluster.
From S2P Require Import Topology ControlFSM Planner Observer ControlExecutor AdminNode ClusterSpec.
Local Open Scope Z_scope.

(** ** Signatures *)

(** The fields of a request can be read back from the message that is signed. *)
Definition has_LF (s : string) : bool := negb (sall (fun c => negb (Ascii.eqb c (chr 10))) s).
Lemma line_inj a b s t : has_LF a = false -> has_LF b = false -> a +:+ LF +:+ s = b +:+ LF +:+ t -> a = b /\ s = t.
Proof.
  unfold has_LF, LF. rw !negb_false_iff. revert b. induction a as [|c a IH]; intros [|d b].
  - intros _ _ Heq. injection Heq as Heq. exact (conj eq_refl Heq).
  - simpl. intros _ Hb [= <- _]. simpl in Hb. done.
  - simpl. intros Ha _ [= -> _]. simpl in Ha. done.
  - rw !app_string_cons. intros [_ Ha]%andb_true_iff [_ Hb]%andb_true_iff [= -> Heq]. destruct (IH b Ha Hb Heq) as [-> ->]. done.
Qed.

(** A request signed with the secret of the node
    is accepted as authentic, and what is signed determines the method, the
    path, the control index and the body: no other request has the same signed
    message. *)
Theorem signature_covers_request `{Crypto} (secret method path body index method' path' body' index' : string) :
  Verify secret method path body index (Sign secret method path body index) = true /\
  (has_LF method = false -> has_LF path = false -> has_LF index = false ->
   has_LF method' = false -> has_LF path' = false -> has_LF index' = false ->
   message method path body index = message method' path' body' index' ->
   method = method' /\ path = path' /\ body = body' /\ index = index').
Proof.
  split.
  - unfold Verify, Sign. by rw hex_round_trip String.eqb_refl.
  - intros Hm Hp Hi Hm' Hp' Hi' Heq. apply line_inj in Heq as [-> Heq]; [|done..].
    apply line_inj in Heq as [-> Heq]; [|done..]. by apply line_inj in Heq as [-> ->].
Qed.

(** Request bodies that are plain numbers, for examples. *)
Definition plainBodies : AdminJSON :=
  {| decodeSlotRequest := ParseUint; decodeReplicaRequest body := n ← ParseUint body; Some (n, "b"); decodeReturningRequest _ := None |}.

Lemma signature_covers_request_witness :
  Verify (H := go_crypto) "k" "POST" "/cluster/promote" "1" "5" (Sign (H := go_crypto) "k" "POST" "/cluster/promote" "1" "5") = true /\
  "5" = "5".
Proof.
  destruct (signature_covers_request (H := go_crypto) "k" "POST" "/cluster/promote" "1" "5" "POST" "/cluster/promote" "1" "5") as [Hv Hi].
  split; [exact Hv|]. destruct (Hi eq_refl eq_refl eq_refl eq_refl eq_refl eq_refl eq_refl) as (_ & _ & _ & Heq). exact Heq.
Defined.

(** ** Fencing *)

Inductive Topology := ReqPromote | ReqReplica | ReqSync.

Section fencing.
Context `{Env, SliceSort, Texts, JSON} {N : Type} `{Net N} `{Crypto, AdminJSON} (srv : ServerConfig) (cfg : NodeConfig).

Definition handle (kind : Topology) : option string -> HTTPRequest -> AdminNode -> option (AdminResponse * AdminNode) :=
  match kind with
  | ReqPromote => handleClusterPromote srv cfg
  | ReqReplica => handleClusterReplica srv cfg
  | ReqSync => handleClusterSync srv cfg
  end.
Fixpoint handleAll (reqs : list (Topology * option string * HTTPRequest)) (a : AdminNode) : option AdminNode :=
  match reqs with
  | [] => Some a
  | (kind, disk, r) :: reqs => '(_, a) ← handle kind disk r a; handleAll reqs a
  end.

Definition authentic (r : HTTPRequest) : bool :=
  Verify (srvSecret srv) (Method r) (URLPath r) (Body r) (IndexHeader r) (SignatureHeader r).

(** A request leaves the node alone, or is authentic and moves the fence up to
    its index. *)
Lemma handleTopology_fence {R} (decode : string -> option R) slotOf op disk r (a : AdminNode (N := N)) resp a' :
  srvAutomatic srv = true -> handleTopology srv decode slotOf op disk r a = Some (resp, a') ->
  a' = a \/ exists index, ParseUint (IndexHeader r) = Some index /\ authentic r = true /\
    FControlIndex (anFence a) < index /\ FControlIndex (anFence a') = index.
Proof.
  intros Hauto. unfold handleTopology. destruct (negb (String.eqb (Method r) "POST")); [intros [= <- <-]; by left|].
  unfold prepareControllerAuthorization. rw Hauto. cbn [negb]. destruct (negb (fenceOpen srv)); [intros [= <- <-]; by left|].
  destruct (maxJSONBodyBytes <? slen (Body r)); [intros [= <- <-]; by left|]. fold (authentic r).
  destruct (authentic r); cbn [negb]; [|intros [= <- <-]; by left].
  destruct (ParseUint (IndexHeader r)) as [index|]; [|intros [= <- <-]; by left].
  destruct (decide (index = 0)) as [->|Hne]; [intros [= <- <-]; by left|].
  replace (match index with 0 => _ | _ => _ end) with
    (inl (A := option (Z * string)) (B := AdminResponse) (Some (index, OperationDigest (Method r) (URLPath r) (Body r) (IndexHeader r))))
    by (by destruct index).
  destruct (decode (Body r)) as [req|]; [|intros [= <- <-]; by left]. destruct (negb (srvEnabled srv)); [intros [= <- <-]; by left|].
  unfold beginControllerOperation, Begin. destruct a as [node [fi fd]]. cbn [anFence anNode FControlIndex FDigest].
  destruct ((index =? 0) || (index <? fi)) eqn:Hlt; [intros [= <- <-]; by left|]. apply orb_false_iff in Hlt as [_ Hlt].
  destruct (Z.eqb_spec index fi) as [->|Hne']; [destruct (String.eqb _ fd); intros [= <- <-]; by left|].
  destruct disk as [text|]; [intros [= <- <-]; by left|].
  destruct (op req node) as [[result node']|]; [|done]. cbn [mbind option_bind]. intros [= <- <-]. right. exists index. split_and!; simpl; [done..|lia|done].
Qed.
Lemma handle_fence kind disk r a resp a' :
  srvAutomatic srv = true -> handle kind disk r a = Some (resp, a') ->
  a' = a \/ exists index, ParseUint (IndexHeader r) = Some index /\ authentic r = true /\
    FControlIndex (anFence a) < index /\ FControlIndex (anFence a') = index.
Proof. intros Hauto. destruct kind; by apply handleTopology_fence. Qed.

Lemma handleAll_fence reqs a a' :
  srvAutomatic srv = true -> handleAll reqs a = Some a' ->
  FControlIndex (anFence a) <= FControlIndex (anFence a') /\ (FControlIndex (anFence a') = FControlIndex (anFence a) -> a' = a).
Proof.
  intros Hauto. revert a. induction reqs as [|[[kind disk] r] reqs IH]; intros a; simpl; [by intros [= <-]|].
  destruct (handle kind disk r a) as [[resp a1]|] eqn:Hh; [|done]. simpl. intros [Hle Heq]%IH.
  apply handle_fence in Hh as [->|(index & _ & _ & Hlt & Hi)]; [done| |done]. split; [lia|]. intros. lia.
Qed.
End fencing.

(** C16: In automatic mode the topology of a node changes
    only with its fence: over any sequence of requests the accepted control
    index never goes down, a stretch over which it stays is one over which the
    node does not change, and afterwards a request that is not authentic, or
    whose index is not above the last accepted one, changes nothing, so that a
    deposed controller cannot interfere. *)
Theorem fencing_orders_changes `{Env, SliceSort, Texts, JSON} {N : Type} `{Net N} `{Crypto, AdminJSON}
    (srv : ServerConfig) (cfg : NodeConfig) reqs (a a' : AdminNode (N := N)) :
  srvAutomatic srv = true -> handleAll srv cfg reqs a = Some a' ->
  FControlIndex (anFence a) <= FControlIndex (anFence a') /\
  (FControlIndex (anFence a') = FControlIndex (anFence a) -> anNode a' = anNode a) /\
  forall kind disk r resp a'', handle srv cfg kind disk r a' = Some (resp, a'') ->
    authentic srv r = false \/ (forall index, ParseUint (IndexHeader r) = Some index -> index <= FControlIndex (anFence a')) -> a'' = a'.
Proof.
  intros Hauto Hrun. destruct (handleAll_fence srv cfg reqs a a' Hauto Hrun) as [Hle Heq]. split_and!; [done|by intros ->%Heq|].
  intros kind disk r resp a'' Hh Hbad. apply handle_fence in Hh as [->|(index & Hp & Hauth & Hlt & _)]; [done| |done].
  destruct Hbad as [Hbad|Hbad]; [congruence|]. specialize (Hbad index Hp). lia.
Qed.

#[local] Existing Instances plainTexts emptyJSON.

(** A node that takes a promotion at index 5 and then refuses one at index 4. *)
Definition exampleServer : ServerConfig := mkServerConfig true true "k" true "c" 4.
Definition signed (path body index : string) : HTTPRequest :=
  mkHTTP "POST" path body index (Sign (H := go_crypto) "k" "POST" path body index).

#[local] Abbreviation exampleRun :=
  (handleAll (H := steadyEnv) (H4 := go_crypto) (H5 := plainBodies) exampleServer (nodeOf "b")
    [(ReqPromote, None, signed "/cluster/promote" "1" "5")] (mkAdmin (startNode "b" tt) (mkFence 3 ""))).
Lemma exampleRun_index : (FControlIndex ∘ anFence) <$> exampleRun = Some 5.
Proof. vm_compute. reflexivity. Qed.

Lemma fencing_orders_changes_witness :
  exists a', exampleRun = Some a' /\ FControlIndex (anFence a') = 5 /\
    forall resp a'', handle (H := steadyEnv) (H4 := go_crypto) (H5 := plainBodies) exampleServer (nodeOf "b") ReqPromote None
      (signed "/cluster/promote" "0" "4") a' = Some (resp, a'') -> a'' = a'.
Proof.
  pose proof exampleRun_index as Hf. destruct exampleRun as [a'|] eqn:Hrun; [|discriminate Hf]. injection Hf as Hf.
  cbn [compose] in Hf.
  destruct (fencing_orders_changes (H := steadyEnv) (H4 := go_crypto) (H5 := plainBodies) exampleServer (nodeOf "b") _ _ a' eq_refl Hrun)
    as (_ & _ & Hlate).
  exists a'. split; [reflexivity|]. split; [exact Hf|]. intros resp a'' Hh. apply (Hlate _ _ _ _ _ Hh). right.
  intros index Hi. rw Hf. assert (ParseUint "4" = Some 4) as H4 by (vm_compute; reflexivity).
  cbn [signed IndexHeader] in Hi. rw H4 in Hi. injection Hi as <-. lia.
Defined.
