(* ===== verification/FenceFile.v ===== *)
(** * The files of the control plane: [internal/controlplane/fence.go] and
    [data_lifecycle.go]

    The fence of a node and the marker of its first start are files in the
    directory of the controller.  As for snapshots, every call of the operating
    system is a step that may fail, and the directory after every step is kept,
    so that a crash of the process is a choice of one of them; a loss of power is
    not modelled. *)
From S2P Require Import Prelude Encoding GoText GoTime Json JsonCodec JsonPrefix SkipList Eviction Store Executor Snapshot Metadata SnapshotFile Persistence.
From S2P Require Import Server Cluster Topology ControlFSM Planner Observer ControlExecutor AdminNode.
Local Open Scope Z_scope.

(** ** Files *)

Inductive FSErr := NotExist | Exist | OSError (text : string).
Record FS := mkFS { fsDisk : Disk; fsStep : nat; fsTrace : list Disk }.

Definition F (A : Type) : Type := FS -> (A + FSErr) * FS.
#[export] Instance F_ret : MRet F := fun A a s => (inl a, s).
#[export] Instance F_bind : MBind F := fun A B f m s =>
  match m s with (inl a, s) => f a s | (inr e, s) => (inr e, s) end.
Definition failF {A} (e : FSErr) : F A := fun s => (inr e, s).
Definition attemptF {A} (m : F A) : F (A + FSErr) := fun s => let '(r, s) := m s in (inl r, s).
Definition diskF : F Disk := fun s => (inl (fsDisk s), s).

Section files.
Context `{Faults}.

(** A step that fails by itself leaves [broken] behind; otherwise [f] gives the new
    directory or the error. *)
Definition callF (f : Disk -> Disk + FSErr) (broken : nat -> Disk -> Disk) : F unit := fun s =>
  let n := fsStep s in
  let '(r, d) :=
    match fault n with
    | Some text => (inr (OSError text), broken n (fsDisk s))
    | None => match f (fsDisk s) with inl d => (inl tt, d) | inr e => (inr e, fsDisk s) end
    end in
  (r, mkFS d (S n) (fsTrace s ++ [d])).
Definition stepF (f : Disk -> Disk + FSErr) : F unit := callF f (fun _ d => d).

Definition mkdirAll : F unit := stepF (fun d => inl (Some (default ∅ d))).
(** [os.OpenFile] with [O_CREATE|O_TRUNC] and with [O_CREATE|O_EXCL]. *)
Definition openTrunc (name : string) : F unit := stepF (fun d =>
  match d with
  | None => inr NotExist
  | Some files => match files !! name with Some Directory => inr (OSError "is a directory") | _ => inl (setFile name "" d) end
  end).
Definition openExcl (name : string) : F unit := stepF (fun d =>
  match d with
  | None => inr NotExist
  | Some files => if bool_decide (is_Some (files !! name)) then inr Exist else inl (setFile name "" d)
  end).
Definition writeF (name data : string) : F unit :=
  callF (fun d => inl (setFile name (contentOf d name +:+ data) d))
    (fun n d => setFile name (contentOf d name +:+ stake (written n) data) d).
(** [Sync] and [Close] can fail, but change nothing that the process sees. *)
Definition touch : F unit := stepF inl.
Definition removeF (name : string) : F unit := stepF (fun d => inl (delete name <$> d)).
Definition renameF (old new : string) : F unit := stepF (fun d =>
  match d with
  | None => inr NotExist
  | Some files => match files !! new with Some Directory => inr (OSError "file exists") | _ => inl (delete old <$> setFile new (contentOf d old) d) end
  end).
Definition readFile (name : string) : F string :=
  _ ← touch;
  d ← diskF;
  match d ≫= lookup name with
  | Some (File content) => mret content
  | Some Directory => failF (OSError "is a directory")
  | None => failF NotExist
  end.

(** ** The fence *)

Definition fenceStateFilename : string := "fence-state.json".
Definition fenceTemp : string := fenceStateFilename +:+ ".tmp".
Definition fenceJson (s : fenceState) : Json := JObj [("controlIndex", encUint (FControlIndex s)); ("operationDigest", JStr (FDigest s))].
Definition decFence : Dec fenceState := decStruct false ["controlIndex"; "operationDigest"] (fun get s =>
  index ← get _ "controlIndex" decUint64 (FControlIndex s); digest ← get _ "operationDigest" decString (FDigest s); Some (mkFence index digest)).
Definition zeroFence : fenceState := mkFence 0 "".

(** The errors carry the step that failed. *)
Definition wrapF {A} (text : string) (m : F A) : F A := fun s =>
  match m s with
  | (inr e, s) => (inr (OSError (text +:+ ": " +:+ match e with NotExist => "file does not exist" | Exist => "file exists" | OSError t => t end)), s)
  | r => r
  end.
Definition writeFence (state : fenceState) : F unit :=
  _ ← wrapF "write fencing state" (writeF fenceTemp (printJson (fenceJson state)));
  _ ← wrapF "sync fencing state" touch;
  _ ← wrapF "close fencing state" touch;
  wrapF "replace fencing state" (renameF fenceTemp fenceStateFilename).
(** The deferred function closes the file, a second time after success, and
    removes it after an error. *)
Definition persist (state : fenceState) : F unit :=
  _ ← wrapF "open temporary fencing state" (openTrunc fenceTemp);
  r ← attemptF (writeFence state);
  _ ← attemptF touch;
  match r with
  | inl _ => mret tt
  | inr e => _ ← attemptF (removeF fenceTemp); failF e
  end.

Definition OpenFenceStore (raftDir : string) : F fenceState :=
  if String.eqb raftDir "" then failF (OSError "raft directory is empty")
  else
    _ ← wrapF "create control-plane directory" mkdirAll;
    r ← attemptF (readFile fenceStateFilename);
    match r with
    | inl raw =>
        match parseJson raw ≫= (fun j => decFence j zeroFence) with
        | None => failF (OSError "decode fencing state")
        | Some s => if fenceValid s then mret s else failF (OSError "decode fencing state: invalid operation digest")
        end
    | inr NotExist => mret zeroFence
    | inr e => wrapF "read fencing state" (failF e)
    end.

(** [Begin] with its file. *)
Definition BeginFile (index : Z) (digest : string) (s : fenceState) (w : FS) : ((bool + FenceErr) * fenceState) * FS :=
  if (index =? 0) || (index <? FControlIndex s) then ((inr ErrStaleControlIndex, s), w)
  else
    let digestText := hexEncode digest in
    if index =? FControlIndex s then
      (if String.eqb digestText (FDigest s) then (inl true, s) else (inr ErrControlIndexConflict, s), w)
    else
      let next := mkFence index digestText in
      match persist next w with
      | (inr (OSError text), w) => ((inr (PersistFailed text), s), w)
      | (inr _, w) => ((inr (PersistFailed ""), s), w)
      | (inl _, w) => ((inl false, next), w)
      end.

(** ** The marker *)

Definition dataNodeInitializedMarker : string := "data-node.initialized".
Definition MarkDataNodeInitialized : F bool :=
  _ ← wrapF "create controller directory" mkdirAll;
  r ← attemptF (openExcl dataNodeInitializedMarker);
  match r with
  | inl _ => _ ← wrapF "close data-node marker" touch; mret false
  | inr Exist => mret true
  | inr e => wrapF "create data-node marker" (failF e)
  end.
End files.
