(* ===== verification/FenceSpec.v ===== *)
(** * The fence survives crashes

    A run of the node is a sequence of operations behind the fence, of crashes at
    any step of one, and of restarts.  Whatever fails, the file of the fence holds
    the last accepted operation or the one that is being accepted. *)
From S2P Require Import Prelude Encoding GoText GoTime Json JsonCodec JsonPrefix SkipList Eviction Store Executor Snapshot Metadata SnapshotFile Persistence.
From S2P Require Import Server Cluster Topology ControlFSM Planner Observer ControlExecutor AdminNode FenceFile.
Local Open Scope Z_scope.

(** ** Runs *)

(** [m] goes only through directories in [I] and ends in [Q]. *)
Definition wpF {A} (I : Disk -> Prop) (m : F A) (Q : A + FSErr -> FS -> Prop) (s : FS) : Prop :=
  exists r s' new, m s = (r, s') /\ fsTrace s' = fsTrace s ++ new /\ Forall I new /\ Q r s'.

Section runs.
Context `{Faults} (I : Disk -> Prop).

Lemma wpF_ret {A} (a : A) (Q : A + FSErr -> FS -> Prop) s : Q (inl a) s -> wpF I (mret a) Q s.
Proof. intros HQ. exists (inl a), s, []. by split_and!; [|rw app_nil_r|..]. Qed.
Lemma wpF_fail {A} e (Q : A + FSErr -> FS -> Prop) s : Q (inr e) s -> wpF I (failF e) Q s.
Proof. intros HQ. exists (inr e), s, []. by split_and!; [|rw app_nil_r|..]. Qed.
Lemma wpF_bind {A B} (m : F A) (f : A -> F B) Q s :
  wpF I m (fun r s => match r with inl a => wpF I (f a) Q s | inr e => Q (inr e) s end) s -> wpF I (m ≫= f) Q s.
Proof.
  intros (r & s1 & n1 & Hm & Ht & HI & HQ). unfold wpF, mbind, F_bind. rw Hm. destruct r as [a|e]; [|by exists (inr e), s1, n1].
  destruct HQ as (r & s2 & n2 & Hf & Ht2 & HI2 & HQ). exists r, s2, (n1 ++ n2). rw Hf Ht2 Ht app_assoc. split_and!; [done|done|by apply Forall_app|done].
Qed.
Lemma wpF_attempt {A} (m : F A) Q s : wpF I m (fun r s => Q (inl r) s) s -> wpF I (attemptF m) Q s.
Proof. intros (r & s1 & n1 & Hm & Ht & HI & HQ). exists (inl r), s1, n1. unfold attemptF. by rw Hm. Qed.
Lemma wpF_mono {A} (m : F A) (Q Q' : A + FSErr -> FS -> Prop) s : wpF I m Q s -> (forall r s', Q r s' -> Q' r s') -> wpF I m Q' s.
Proof. intros (r & s1 & n1 & Hm & Ht & HI & HQ) Himp. exists r, s1, n1. split_and!; eauto. Qed.
Lemma wpF_disk (Q : Disk + FSErr -> FS -> Prop) s : Q (inl (fsDisk s)) s -> wpF I diskF Q s.
Proof. intros HQ. exists (inl (fsDisk s)), s, []. by split_and!; [|rw app_nil_r|..]. Qed.
Lemma wpF_wrap {A} text (m : F A) Q s :
  wpF I m (fun r s => match r with inl a => Q (inl a) s | inr _ => forall t, Q (inr (OSError t)) s end) s -> wpF I (wrapF text m) Q s.
Proof.
  intros (r & s1 & n1 & Hm & Ht & HI & HQ). unfold wpF, wrapF. rw Hm. destruct r as [a|e]; [by exists (inl a), s1, n1|].
  by eexists _, s1, n1.
Qed.
Lemma wpF_call f broken Q s :
  (forall n, I (broken n (fsDisk s))) -> (forall e n s', fsDisk s' = broken n (fsDisk s) -> Q (inr e) s') ->
  match f (fsDisk s) with
  | inl d => I d /\ (forall s', fsDisk s' = d -> Q (inl tt) s')
  | inr e => I (fsDisk s) /\ (forall s', fsDisk s' = fsDisk s -> Q (inr e) s')
  end -> wpF I (callF f broken) Q s.
Proof.
  intros Hb Hq Hf. unfold wpF, callF. destruct (fault (fsStep s)) as [text|].
  - eexists _, _, [_]. split_and!; [done|done|by constructor|]. by eapply Hq.
  - destruct (f (fsDisk s)) as [d|e]; destruct Hf as [HI HQ]; (eexists _, _, [_]; split_and!; [done|done|by constructor|by apply HQ]).
Qed.
Lemma wpF_step f Q s :
  I (fsDisk s) -> (forall e s', fsDisk s' = fsDisk s -> Q (inr e) s') ->
  match f (fsDisk s) with inl d => I d /\ (forall s', fsDisk s' = d -> Q (inl tt) s') | inr _ => True end -> wpF I (stepF f) Q s.
Proof.
  intros HI Hq Hf. apply wpF_call; [done|intros e _; apply Hq|]. destruct (f (fsDisk s)); [done|]. split; [done|]. intros s'. apply Hq.
Qed.
End runs.

(** ** The file of the fence *)

Definition readFence (raw : string) : option fenceState :=
  s ← parseJson raw ≫= (fun j => decFence j zeroFence); if fenceValid s then Some s else None.
(** The state that a directory holds. *)
Definition fenceOf (d : Disk) : option fenceState :=
  match d ≫= lookup fenceStateFilename with
  | None => Some zeroFence
  | Some (File raw) => readFence raw
  | Some Directory => None
  end.

Definition fence_ok (s : fenceState) : Prop := 0 <= FControlIndex s <= maxUint64 /\ utf8 (FDigest s) /\ fenceValid s = true.
Lemma readFence_print s : fence_ok s -> readFence (printJson (fenceJson s)) = Some s.
Proof.
  intros (Hi & Hd & Hv). unfold readFence.
  assert (Hf : faithful 1 (fenceJson s)) by (apply (faithful_obj 0); members). destruct Hf as [Hok Hva Hde].
  rw parse_print //; [unfold maxNestingDepth; lia|]. rw Hva. cbn [mbind option_bind].
  pose proof (decUint_enc maxUint64 _ 0 Hi ltac:(done)) as H1. change (decUint maxUint64) with decUint64 in H1. unfold fenceJson. revert H1.
  generalize (encUint (FControlIndex s)). intros j H1. assert (decFence (JObj [("controlIndex", j); ("operationDigest", JStr (FDigest s))]) zeroFence = Some s) as ->.
  { destruct s. cbn in H1 |- *. lazy -[decUint64]. by rw H1. }
  cbn [mbind option_bind]. by rw Hv.
Qed.

Lemma fenceOf_some files : fenceOf (Some files) =
  match files !! fenceStateFilename with None => Some zeroFence | Some (File raw) => readFence raw | Some Directory => None end.
Proof. done. Qed.
Lemma setFile_eq name c files : setFile name c (Some files) = Some (<[name := File c]> files).
Proof. done. Qed.
Lemma fenceOf_set_other name c d : name <> fenceStateFilename -> fenceOf (setFile name c d) = fenceOf d.
Proof. intros Hn. destruct d as [files|]; [|done]. by rw setFile_eq !fenceOf_some lookup_insert_ne. Qed.
Lemma fenceOf_delete_other name d : name <> fenceStateFilename -> fenceOf (delete name <$> d) = fenceOf d.
Proof. intros Hn. destruct d as [files|]; [|done]. cbn [fmap option_fmap option_map]. by rw !fenceOf_some lookup_delete_ne. Qed.
Lemma fenceOf_set raw d : d <> None -> fenceOf (setFile fenceStateFilename raw d) = readFence raw.
Proof. intros Hd. destruct d as [files|]; [|done]. by rw setFile_eq fenceOf_some lookup_insert_eq. Qed.
Lemma temp_other : fenceTemp <> fenceStateFilename.
Proof. done. Qed.

Section persist_spec.
Context `{Faults} (old next : fenceState).
Hypothesis next_ok : fence_ok next.
Definition either (d : Disk) : Prop := fenceOf d = Some old \/ fenceOf d = Some next.

Lemma wp_touch Q s : either (fsDisk s) -> (forall r s', fsDisk s' = fsDisk s -> Q r s') -> wpF either touch Q s.
Proof. intros HI HQ. apply wpF_step; [done|intros e s'; apply HQ|]. split; [done|]. intros s'. apply HQ. Qed.
Lemma wp_remove name Q s : either (fsDisk s) -> name <> fenceStateFilename ->
  (forall r s', fenceOf (fsDisk s') = fenceOf (fsDisk s) -> Q r s') -> wpF either (removeF name) Q s.
Proof.
  intros HI Hn HQ. apply wpF_step; [done|intros e s' Hs'; apply HQ; by rw Hs'|]. split; [unfold either; by rw fenceOf_delete_other|].
  intros s' Hs'. apply HQ. rw Hs'. by apply fenceOf_delete_other.
Qed.

(** Writing the temporary file and renaming it. *)
Lemma wp_writeFence s :
  fenceOf (fsDisk s) = Some old -> fsDisk s <> None -> contentOf (fsDisk s) fenceTemp = "" ->
  wpF either (writeFence next) (fun r s' => match r with
    | inl _ => fenceOf (fsDisk s') = Some next
    | inr e => fenceOf (fsDisk s') = Some old /\ exists t, e = OSError t end) s.
Proof.
  intros Hold Hd Hc. set (text := printJson (fenceJson next)).
  assert (Hset : forall c, fenceOf (setFile fenceTemp c (fsDisk s)) = Some old) by (intros c; by rw fenceOf_set_other).
  unfold writeFence. apply wpF_bind, wpF_wrap, wpF_call.
  { intros n. left. apply Hset. }
  { intros e n s1 -> t. split; [apply Hset|by eexists]. }
  rw Hc app_string_nil_l. fold text. split; [left; apply Hset|]. intros s1 H1.
  apply wpF_bind, wpF_wrap, wp_touch; [left; rw H1; apply Hset|]. intros [[]|e] s2 H2; [|intros t; rw H2 H1; split; [apply Hset|by eexists]].
  apply wpF_bind, wpF_wrap, wp_touch; [left; rw H2 H1; apply Hset|]. intros [[]|e] s3 H3; [|intros t; rw H3 H2 H1; split; [apply Hset|by eexists]].
  assert (H4 : fsDisk s3 = setFile fenceTemp text (fsDisk s)) by congruence.
  apply wpF_wrap, wpF_step; [left; rw H4; apply Hset|intros e s4 -> t; rw H4; split; [apply Hset|by eexists]|].
  destruct (fsDisk s) as [files|]; [|done]. rw H4 setFile_eq.
  assert (Hlast : fenceOf (delete fenceTemp <$> setFile fenceStateFilename (contentOf (Some (<[fenceTemp := File text]> files)) fenceTemp)
    (Some (<[fenceTemp := File text]> files))) = Some next).
  { rw fenceOf_delete_other; [done|]. rw fenceOf_set; [done|]. cbn [contentOf]. rw lookup_insert_eq. by apply readFence_print. }
  destruct (<[fenceTemp := File text]> files !! fenceStateFilename) as [[|]|]; [|done|]; (split; [by right|intros s' ->; exact Hlast]).
Qed.
Lemma wp_persist s :
  fenceOf (fsDisk s) = Some old ->
  wpF either (persist next) (fun r s' => match r with
    | inl _ => fenceOf (fsDisk s') = Some next
    | inr e => fenceOf (fsDisk s') = Some old /\ exists t, e = OSError t end) s.
Proof.
  intros Hold. unfold persist. apply wpF_bind, wpF_wrap, wpF_step; [by left|intros e s' -> t; split; [done|by eexists]|].
  destruct (fsDisk s) as [files|] eqn:Hfs; [|done].
  assert (Hset : fenceOf (setFile fenceTemp "" (Some files)) = Some old) by (by rw fenceOf_set_other).
  assert (Hgo : either (setFile fenceTemp "" (Some files)) /\ (forall s', fsDisk s' = setFile fenceTemp "" (Some files) ->
    wpF either (r ← attemptF (writeFence next); _ ← attemptF touch; match r with inl _ => mret tt | inr e => _ ← attemptF (removeF fenceTemp); failF e end)
      (fun r s' => match r with inl _ => fenceOf (fsDisk s') = Some next | inr e => fenceOf (fsDisk s') = Some old /\ exists t, e = OSError t end) s')).
  { split; [by left|]. intros s1 H1. apply wpF_bind, wpF_attempt. eapply wpF_mono.
    - apply wp_writeFence; [by rw H1|by rw H1|]. rw H1 setFile_eq. cbn [contentOf]. by rw lookup_insert_eq.
    - intros r s2 Hr. apply wpF_bind, wpF_attempt, wp_touch; [destruct r; [by right|left; by destruct Hr]|]. intros _ s3 H3. destruct r as [[]|e].
      + apply wpF_ret. by rw H3.
      + destruct Hr as [Ho Ht]. apply wpF_bind, wpF_attempt, wp_remove; [left; by rw H3|done|]. intros _ s4 H4. apply wpF_fail. by rw H4 H3. }
  by destruct (files !! fenceTemp) as [[|]|].
Qed.
End persist_spec.

(** ** Opening *)

Lemma fenceOf_mkdir d : fenceOf (Some (default ∅ d)) = fenceOf d.
Proof. by destruct d. Qed.
Lemma readFile_run `{Faults} name s :
  readFile name s = (match fault (fsStep s) with
    | Some text => inr (OSError text)
    | None => match fsDisk s ≫= lookup name with Some (File c) => inl c | Some Directory => inr (OSError "is a directory") | None => inr NotExist end
    end, mkFS (fsDisk s) (S (fsStep s)) (fsTrace s ++ [fsDisk s])).
Proof.
  unfold readFile, mbind, F_bind, touch, stepF, callF. destruct (fault (fsStep s)); [done|]. unfold diskF. cbn [fsDisk].
  destruct (fsDisk s) as [files|]; [|done]. cbn. by destruct (files !! name) as [[|]|].
Qed.
Lemma mkdirAll_run `{Faults} s :
  mkdirAll s = match fault (fsStep s) with
    | Some text => (inr (OSError text), mkFS (fsDisk s) (S (fsStep s)) (fsTrace s ++ [fsDisk s]))
    | None => (inl tt, mkFS (Some (default ∅ (fsDisk s))) (S (fsStep s)) (fsTrace s ++ [Some (default ∅ (fsDisk s))]))
    end.
Proof. unfold mkdirAll, stepF, callF. by destruct (fault (fsStep s)). Qed.
Lemma open_eq `{Faults} dir s : dir <> "" ->
  exists s', (fenceOf (fsDisk s') = fenceOf (fsDisk s)) /\
  match OpenFenceStore dir s with
  | (inl mem, s'') => s'' = s' /\ fenceOf (fsDisk s) = Some mem
  | (inr _, s'') => s'' = s' /\ ((exists n, fault n <> None) \/ fenceOf (fsDisk s) = None)
  end.
Proof.
  intros Hdir. unfold OpenFenceStore. destruct (String.eqb_spec dir ""); [done|]. unfold mbind at 1, F_bind at 1, wrapF at 1. rw mkdirAll_run.
  destruct (fault (fsStep s)) as [text|] eqn:H0; [eexists; split; [|split; [reflexivity|left; exists (fsStep s); by rw H0]]; done|].
  unfold mbind at 1, F_bind at 1, attemptF. rw readFile_run. cbn [fsDisk fsStep fsTrace].
  set (s2 := mkFS (Some (default ∅ (fsDisk s))) _ _). exists s2. split; [apply fenceOf_mkdir|].
  destruct (fault (S (fsStep s))) as [text|] eqn:H1; [split; [done|left; exists (S (fsStep s)); by rw H1]|].
  rw -(fenceOf_mkdir (fsDisk s)). generalize (default ∅ (fsDisk s)). intros files. rw fenceOf_some. cbn [mbind option_bind].
  destruct (files !! fenceStateFilename) as [[raw|]|]; [|split; [done|by right]|done].
  unfold readFence. destruct (parseJson raw ≫= _) as [st|]; [|split; [done|by right]].
  cbn [mbind option_bind]. by destruct (fenceValid st); [|split; [|right]].
Qed.

(** ** The marker *)

(** A node is returning exactly when it has been started before. *)
Theorem marker_exact `{Faults} s returning s' : MarkDataNodeInitialized s = (inl returning, s') ->
  returning = present (fsDisk s) dataNodeInitializedMarker /\ present (fsDisk s') dataNodeInitializedMarker = true.
Proof.
  unfold MarkDataNodeInitialized. unfold mbind at 1, F_bind at 1, wrapF at 1. rw mkdirAll_run. destruct (fault (fsStep s)); [done|].
  unfold mbind at 1, F_bind at 1, attemptF, openExcl, stepF at 1, callF at 1. cbn [fsDisk fsStep fsTrace].
  assert (Hp : present (fsDisk s) dataNodeInitializedMarker = present (Some (default ∅ (fsDisk s))) dataNodeInitializedMarker) by (by destruct (fsDisk s)).
  rw Hp. generalize (default ∅ (fsDisk s)). intros files. cbn [present]. destruct (fault (S (fsStep s))); [done|].
  destruct (bool_decide (is_Some (files !! dataNodeInitializedMarker))) eqn:Hb.
  - intros [= <- <-]. split; [done|]. cbn [fsDisk present]. exact Hb.
  - unfold mbind, F_bind, wrapF, touch, stepF, callF. cbn [fsDisk fsStep fsTrace]. destruct (fault _); [done|].
    intros Heq. apply pair_equal_spec in Heq as [Hr Hs]. injection Hr as <-. split; [done|].
    rw -Hs. cbn [fsDisk]. rw setFile_eq. cbn [present]. rw lookup_insert_eq. by apply bool_decide_eq_true.
Qed.

(** ** One operation *)

Definition crashable (mem : fenceState) (index : Z) (digest : string) (d : Disk) : Prop :=
  fenceOf d = Some mem \/ (FControlIndex mem < index /\ fenceOf d = Some (mkFence index (hexEncode digest))).
Definition outcome (mem : fenceState) (index : Z) (digest : string) (r : bool + FenceErr) (mem' : fenceState) : Prop :=
  match r with
  | inl false => FControlIndex mem < index /\ mem' = mkFence index (hexEncode digest)
  | inl true => mem' = mem /\ index = FControlIndex mem /\ hexEncode digest = FDigest mem
  | inr _ => mem' = mem
  end.

Lemma next_fence_ok index digest : 0 < index <= maxUint64 -> slen digest = 32 -> fence_ok (mkFence index (hexEncode digest)).
Proof.
  intros Hi Hd. split; [cbn; lia|]. split; [apply hexEncode_utf8|]. unfold fenceValid. cbn [FControlIndex FDigest]. rw hex_round_trip.
  apply orb_true_iff. right. by apply Z.eqb_eq.
Qed.
Lemma BeginFile_spec `{Faults} index digest mem d n r mem' w :
  0 <= index <= maxUint64 -> slen digest = 32 -> fenceOf d = Some mem ->
  BeginFile index digest mem (mkFS d n []) = ((r, mem'), w) ->
  fenceOf (fsDisk w) = Some mem' /\ Forall (crashable mem index digest) (d :: fsTrace w) /\ outcome mem index digest r mem'.
Proof.
  intros Hi Hlen Hd. unfold BeginFile. destruct ((index =? 0) || (index <? FControlIndex mem)) eqn:Hst.
  { intros [= <- <- <-]. split_and!; [done|apply Forall_singleton; by left|done]. }
  apply orb_false_iff in Hst as [Hz Hlt]. destruct (Z.eqb_spec index (FControlIndex mem)) as [->|Hne].
  { destruct (String.eqb_spec (hexEncode digest) (FDigest mem)); intros [= <- <- <-]; split_and!; try done; apply Forall_singleton; by left. }
  pose proof (next_fence_ok index digest ltac:(lia) Hlen) as Hok.
  destruct (wp_persist mem _ Hok (mkFS d n []) Hd) as (r' & s' & new & Hp & Ht & HI & HQ). rw Hp. cbn [fsTrace app] in Ht.
  assert (Hall : Forall (crashable mem index digest) (d :: fsTrace s')).
  { constructor; [by left|]. rw Ht. eapply Forall_impl; [exact HI|]. intros x [Hx|Hx]; [by left|right; split; [lia|done]]. }
  destruct r' as [[]|e]; [|destruct HQ as [Ho [t ->]]]; intros [= <- <- <-]; split_and!; try done. cbn. split; [lia|done].
Qed.
(** The fence of the handlers, with the outcome of writing the file. *)
Lemma BeginFile_refines `{Faults} index digest mem w :
  exists disk, fst (BeginFile index digest mem w) = Begin disk index digest mem.
Proof.
  unfold BeginFile, Begin. destruct (_ || _); [by exists None|]. destruct (index =? _); [by exists None|].
  destruct (persist _ w) as [[[]|[| |text]] w']; [by exists None|by exists (Some "")..|by exists (Some text)].
Qed.

(** ** Runs with crashes *)

Inductive Event := Began (index : Z) (digest : string) (r : bool + FenceErr) | Restarted.

Inductive fenceRun (dir : string) : fenceState * Disk -> list Event -> fenceState * Disk -> Prop :=
| run_nil x : fenceRun dir x [] x
| run_begin (flt : Faults) n mem d index digest r mem' w evs x :
    0 <= index <= maxUint64 -> slen digest = 32 ->
    BeginFile index digest mem (mkFS d n []) = ((r, mem'), w) ->
    fenceRun dir (mem', fsDisk w) evs x -> fenceRun dir (mem, d) (Began index digest r :: evs) x
| run_crash (flt flt' : Faults) n mem d index digest out w d' mem' w' evs x :
    0 <= index <= maxUint64 -> slen digest = 32 ->
    BeginFile (H := flt) index digest mem (mkFS d n []) = (out, w) -> d' ∈ d :: fsTrace w ->
    OpenFenceStore (H := flt') dir (mkFS d' 0 []) = (inl mem', w') ->
    fenceRun dir (mem', fsDisk w') evs x -> fenceRun dir (mem, d) (Restarted :: evs) x.

(** The operations that were let through for the first time, and all that were
    answered as done or as repeats. *)
Fixpoint accepted (evs : list Event) : list Z :=
  match evs with
  | [] => []
  | Began index _ (inl false) :: evs => index :: accepted evs
  | _ :: evs => accepted evs
  end.
Fixpoint answered (evs : list Event) : list (Z * string) :=
  match evs with
  | [] => []
  | Began index digest (inl _) :: evs => (index, digest) :: answered evs
  | _ :: evs => answered evs
  end.

Record history (mem mem' : fenceState) (evs : list Event) : Prop := {
  hi_up : FControlIndex mem <= FControlIndex mem';
  hi_range : Forall (fun i => FControlIndex mem < i <= FControlIndex mem') (accepted evs);
  hi_sorted : StronglySorted Z.lt (accepted evs);
  hi_last : Forall (fun p => FControlIndex mem <= p.1 /\ (p.1 = FControlIndex mem -> hexEncode p.2 = FDigest mem)) (answered evs);
  hi_same : forall i a b, (i, a) ∈ answered evs -> (i, b) ∈ answered evs -> a = b
}.

Lemma history_later mem mem1 mem' evs : FControlIndex mem < FControlIndex mem1 \/ mem1 = mem -> history mem1 mem' evs -> history mem mem' evs.
Proof.
  intros [Hlt| ->] Hh; [|done]. destruct Hh as [H1 H2 H3 H4 H5]. split; [lia| |done| |done].
  - eapply Forall_impl; [exact H2|]. cbn. intros. lia.
  - eapply Forall_impl; [exact H4|]. cbn. intros p [Hp _]. lia.
Qed.
Lemma history_answer mem mem' evs index digest :
  FControlIndex mem = index -> FDigest mem = hexEncode digest -> history mem mem' evs -> forall i a b,
  (i, a) ∈ (index, digest) :: answered evs -> (i, b) ∈ (index, digest) :: answered evs -> a = b.
Proof.
  intros Hi Hd Hh i a b Ha Hb. pose proof (hi_last _ _ _ Hh) as Hl. rewrite -> Forall_forall in Hl.
  assert (Hinj : forall x, (index, x) ∈ answered evs -> x = digest).
  { intros x Hx. apply Hl in Hx as [_ Hx]. cbn in Hx. specialize (Hx (eq_sym Hi)). rw Hd in Hx. apply (f_equal hexDecode) in Hx.
    rw !hex_round_trip in Hx. by injection Hx. }
  rw !elem_of_cons in Ha Hb. destruct Ha as [Ha|Ha], Hb as [Hb|Hb]; simplify_eq.
  - done.
  - symmetry. by apply Hinj.
  - by apply Hinj.
  - by eapply (hi_same _ _ _ Hh).
Qed.

Lemma fenceRun_history dir x evs y : dir <> "" -> fenceRun dir x evs y -> fenceOf x.2 = Some x.1 ->
  fenceOf y.2 = Some y.1 /\ history x.1 y.1 evs.
Proof.
  intros Hdir. induction 1 as [x|flt n mem d index digest r mem' w evs y Hi Hl Hb Hrun IH|flt flt' n mem d index digest out w d' mem' w' evs y Hi Hl Hb Hin Ho Hrun IH];
    intros Hx; cbn [fst snd] in *.
  - split; [done|]. split; [lia|constructor|constructor|constructor|]. intros i a b Ha. by apply not_elem_of_nil in Ha.
  - destruct (BeginFile_spec _ _ _ _ _ _ _ _ Hi Hl Hx Hb) as (Hw & _ & Hout). destruct (IH Hw) as [Hy Hh]. split; [done|].
    destruct r as [[]|e]; cbn [outcome] in Hout; cbn [accepted answered].
    + destruct Hout as (-> & -> & Hd). destruct Hh as [H1 H2 H3 H4 H5]. split; [done|done|done|by constructor; [split|]|].
      cbn [answered]. by apply (history_answer mem y.1 evs).
    + destruct Hout as [Hlt ->]. pose proof (history_later mem (mkFence index (hexEncode digest)) _ _ (or_introl Hlt) Hh) as [H1 H2 H3 H4 H5]. pose proof (hi_up _ _ _ Hh) as Hup.
      pose proof (hi_range _ _ _ Hh) as Hr. cbn [FControlIndex] in Hup, Hr. split; [done| | | |].
      * cbn [accepted]. by constructor; [lia|].
      * cbn [accepted]. constructor; [done|]. eapply Forall_impl; [exact Hr|]. cbn. intros. lia.
      * cbn [answered]. constructor; [cbn; split; [lia|intros ->; lia]|done].
      * cbn [answered]. by apply (history_answer (mkFence index (hexEncode digest)) y.1 evs).
    + subst mem'. by destruct Hh; split.
  - destruct out as [r0 mem0]. destruct (BeginFile_spec _ _ _ _ _ _ _ _ Hi Hl Hx Hb) as (_ & Hc & _).
    rewrite -> Forall_forall in Hc. apply Hc in Hin.
    destruct (open_eq (H := flt') dir (mkFS d' 0 []) Hdir) as (s' & Hs' & Hm). rw Ho in Hm. destruct Hm as [-> Hm]. cbn [fsDisk] in Hs', Hm.
    destruct IH as [Hy Hh]; [congruence|]. split; [done|].
    assert (history mem y.1 evs) as [H1 H2 H3 H4 H5]; [|by split].
    eapply history_later; [|exact Hh]. destruct Hin as [Hin|[Hlt Hin]]; [right; congruence|left].
    assert (mem' = mkFence index (hexEncode digest)) as -> by congruence. done.
Qed.

(** C20: Over any sequence of operations, failures of the file
    system, crashes of the process at any step of an operation and restarts, the fence lets every
    control index through at most once and in increasing order, never answers one
    index for two different requests, and loses no accepted index.  Whatever
    directory a crash leaves, the node can open its fence again. *)
Theorem fence_survives_crashes dir mem d evs mem' d' :
  dir <> "" -> fenceOf d = Some mem -> fenceRun dir (mem, d) evs (mem', d') ->
  FControlIndex mem <= FControlIndex mem' /\
  StronglySorted Z.lt (accepted evs) /\ Forall (fun i => FControlIndex mem < i <= FControlIndex mem') (accepted evs) /\
  (forall i a b, (i, a) ∈ answered evs -> (i, b) ∈ answered evs -> a = b) /\
  (forall (flt flt' : Faults) n index digest out w dc,
    0 <= index <= maxUint64 -> slen digest = 32 -> BeginFile (H := flt) index digest mem' (mkFS d' n []) = (out, w) -> dc ∈ d' :: fsTrace w ->
    (forall k, fault (Faults := flt') k = None) -> exists m w', OpenFenceStore (H := flt') dir (mkFS dc 0 []) = (inl m, w') /\ FControlIndex mem' <= FControlIndex m).
Proof.
  intros Hdir Hd Hrun. destruct (fenceRun_history _ _ _ _ Hdir Hrun Hd) as [Hd' [H1 H2 H3 H4 H5]]. cbn [fst snd] in *.
  split_and!; [done..|]. intros flt flt' n index digest [r m0] w dc Hi Hl Hb Hin Hno.
  destruct (BeginFile_spec _ _ _ _ _ _ _ _ Hi Hl Hd' Hb) as (_ & Hc & _). rewrite -> Forall_forall in Hc. apply Hc in Hin.
  destruct (open_eq (H := flt') dir (mkFS dc 0 []) Hdir) as (s' & _ & Ho). destruct (OpenFenceStore dir (mkFS dc 0 [])) as [[m|e] w'].
  - exists m, w'. split; [done|]. destruct Ho as [_ Hm]. cbn [fsDisk] in Hm. destruct Hin as [Hin|[Hlt Hin]]; rw Hin in Hm; injection Hm as <-; cbn; lia.
  - exfalso. destruct Ho as [_ [[k Hk]|Hn]]; [by apply Hk|]. cbn [fsDisk] in Hn. destruct Hin as [Hin|[_ Hin]]; congruence.
Qed.

Definition undisturbed : Faults := Build_Faults (fun _ => None) (fun _ => O) (fun _ => "").
Definition digestA : string := "0123456789abcdef0123456789abcdef".
Definition digestB : string := "fedcba9876543210fedcba9876543210".

Lemma run_begin_eval (flt : Faults) dir mem d index digest r evs x :
  let out := BeginFile (H := flt) index digest mem (mkFS d 0 []) in
  0 <= index <= maxUint64 -> slen digest = 32 -> out.1.1 = r ->
  fenceRun dir (out.1.2, fsDisk out.2) evs x -> fenceRun dir (mem, d) (Began index digest r :: evs) x.
Proof. intros out Hi Hd <- Hrun. eapply (run_begin dir flt 0 mem d index digest _ out.1.2 out.2); [done|done| |done]. unfold out. by destruct (BeginFile _ _ _ _) as [[]]. Qed.

(** A crash in the middle of the second operation, before its file is renamed. *)
#[local] Existing Instance undisturbed.
Definition beganFive := BeginFile 5 digestA zeroFence (mkFS (Some ∅) 0 []).
Definition beganSeven := BeginFile 7 digestB beganFive.1.2 (mkFS (fsDisk beganFive.2) 0 []).
Definition crashed : Disk := default None (fsTrace beganSeven.2 !! 2%nat).
Definition reopened := OpenFenceStore "raft" (mkFS crashed 0 []).
Definition again : fenceState := match reopened.1 with inl m => m | inr _ => zeroFence end.
Definition exampleEvents : list Event :=
  [Began 5 digestA (inl false); Restarted; Began 5 digestA (inl true); Began 5 digestB (inr ErrControlIndexConflict); Began 7 digestB (inl false)].

Lemma fence_survives_crashes_witness : exists mem' d',
  fenceRun "raft" (zeroFence, Some ∅) exampleEvents (mem', d') /\ accepted exampleEvents = [5; 7] /\ StronglySorted Z.lt (accepted exampleEvents).
Proof.
  assert (Hrun : exists y, fenceRun "raft" (zeroFence, Some ∅) exampleEvents y).
  { eexists. apply (run_begin_eval undisturbed); [by split|reflexivity|vm_compute; reflexivity|]. fold beganFive.
    eapply (run_crash "raft" undisturbed undisturbed 0 _ _ 7 digestB beganSeven.1 beganSeven.2 crashed again reopened.2); [by split|reflexivity| | | |].
    - unfold beganSeven. by destruct (BeginFile 7 _ _ _).
    - apply list_elem_of_further, (list_elem_of_lookup_2 _ 2). vm_compute. reflexivity.
    - assert (Hr : match reopened.1 with inl _ => true | inr _ => false end = true) by (vm_compute; reflexivity).
      change (reopened = (inl again, reopened.2)). unfold again. destruct reopened as [[m|e] w]; [done|discriminate Hr].
    - apply (run_begin_eval undisturbed); [by split|reflexivity|vm_compute; reflexivity|].
      apply (run_begin_eval undisturbed); [by split|reflexivity|vm_compute; reflexivity|].
      apply (run_begin_eval undisturbed); [by split|reflexivity|vm_compute; reflexivity|]. apply run_nil. }
  destruct Hrun as [[mem' d'] Hrun]. exists mem', d'. split; [exact Hrun|]. split; [reflexivity|].
  apply (fence_survives_crashes "raft" zeroFence (Some ∅) exampleEvents mem' d' ltac:(discriminate) eq_refl Hrun).
Defined.
