(* ===== verification/Recovery.v ===== *)
(** * Recovery, end to end

    The executor runs in an idealised environment, not in a translation of the
    nodes: a fleet of nodes that share one copy of their metadata, behind their
    fences, with a controller whose Raft log is the sequence of what it proposes.
    What a node does with a request is the operation of [Metadata] that the
    handlers of [AdminNode] call; that the metadata reach the other nodes is
    assumed, and only the transfer of data can fail.  In this environment a
    failover plan runs to its end and gives every slot that still has a copy a
    leader and, where a second node is usable, a ready replica. *)
From S2P Require Import Prelude Encoding GoText Store Metadata MetadataSpec Topology ControlFSM Planner PlannerSpec RebalanceSpec.
From S2P Require Import Observer ControlExecutor ControlExecutorSpec AdminNode.
Local Open Scope Z_scope.

(** ** The fleet *)

(** The environment of the controller.  [flFaults] is the number of transfers of
    data that still fail. *)
Record Fleet := mkFleet {
  flState : FSMSnapshot;
  flLast : Z;
  flMeta : Metadata;
  flUp : gset string;
  flFences : gmap string fenceState;
  flFaults : nat;
  flTime : Z
}.

(** Raft: every proposal is committed at the next index. *)
#[export] Instance fleetProposer : Proposer Fleet := {|
  IsLeader w := (true, w);
  ProposerState w := (State (flState w), w);
  Propose command w :=
    let '(err, s) := Apply (flLast w + 1) command (flState w) in
    (FSMErrText <$> err, mkFleet s (flLast w + 1) (flMeta w) (flUp w) (flFences w) (flFaults w) (flTime w))
|}.

#[export] Instance fleetClock : Clock Fleet := {|
  TimeNow w := (flTime w, w);
  Sleep d w := (None, mkFleet (flState w) (flLast w) (flMeta w) (flUp w) (flFences w) (flFaults w) (flTime w + Z.max 0 d))
|}.

Definition withLocal (id : string) (m : Metadata) : Metadata :=
  mkMetadata (clusterID m) (version m) (slotCount m) id (peers m) (peerIDs m) (slots m).
Definition fleetResponse (id : string) (m : Metadata) : ClusterStateResponse :=
  mkResponse true id (clusterID m) (slotCount m) (version m) (slotStatus <$> slots m) "active".

(** A signed request to the node [id]: the fence decides, then the node
    changes the metadata and every node takes it over. *)
Definition fleetRequest (id digest : string) (index : Z)
    (op : Metadata -> nat -> option string * Metadata * nat) (w : Fleet) : option string * Fleet :=
  if negb (bool_decide (id ∈ flUp w)) then (Some "connection refused", w)
  else
    let '(r, fence) := Begin None index digest (default (mkFence 0 "") (flFences w !! id)) in
    match r with
    | inr e => (Some (FenceErrText e), w)
    | inl replay =>
        let fences := <[id := fence]> (flFences w) in
        let '(err, m, faults) := if (replay : bool) then (None, flMeta w, flFaults w) else op (flMeta w) (flFaults w) in
        (err, mkFleet (flState w) (flLast w) m (flUp w) fences faults (flTime w))
    end.
Definition metaResult (r : (MetadataSnapshot + ClusterErr) * Metadata) (faults : nat) : option string * Metadata * nat :=
  (match r.1 with inl _ => None | inr _ => Some "400 Bad Request" end, r.2, faults).

(** [SyncReplica] of the leader [id]: the metadata part, when the transfer of
    the data works. *)
Definition fleetSync (id : string) (slot : Z) (target : string) (m : Metadata) (faults : nat) : option string * Metadata * nat :=
  match Slot m slot with
  | None => (Some "400 Bad Request", m, faults)
  | Some st =>
      if negb (String.eqb (LeaderID st) id) || negb (String.eqb target (ReplicaID st)) then (Some "400 Bad Request", m, faults)
      else match faults with
      | S faults => (Some "400 Bad Request", m, faults)
      | O => metaResult (MarkReplicaReady (withLocal id m) slot (Term st) (LastSequence st)) O
      end
  end.

#[export] Instance fleetAdmin : AdminAPI Fleet := {|
  ClusterState id w := (if bool_decide (id ∈ flUp w) then inl (fleetResponse id (flMeta w)) else inr "connection refused", w);
  AdminPromote id slot index :=
    fleetRequest id ("promote" +:+ FormatUint slot) index (fun m faults => metaResult (Promote m slot) faults);
  AdminAssignReplica id slot target index :=
    fleetRequest id ("replica" +:+ FormatUint slot +:+ "," +:+ target) index
      (fun m faults => metaResult (AssignReplica m slot target) faults);
  AdminSyncReplica id slot target index :=
    fleetRequest id ("sync" +:+ FormatUint slot +:+ "," +:+ target) index (fleetSync id slot target)
|}.

#[export] Instance fleetClockOk : ClockOk flTime.
Proof.
  assert (Hr : forall id d index op w, flTime (fleetRequest id d index op w).2 = flTime w).
  { intros id d index op w. unfold fleetRequest. destruct (negb _); [done|]. destruct (Begin _ _ _ _) as [[replay|e] fence]; [|done].
    destruct (if replay then _ else _) as [[err m] faults]. done. }
  split; intros; simpl; try done; try lia.
  - by destruct (Apply _ _ _).
  - by rw Hr.
  - by rw Hr.
  - by rw Hr.
Qed.

(** ** Slots of the metadata *)

Definition viewOf (st : SlotState) : SlotView := viewSlot (slotStatus st).
Definition same_slot (a b : SlotView) : Prop :=
  SVNumber a = SVNumber b /\ SVLeader a = SVLeader b /\ SVReplica a = SVReplica b /\ SVReady a = SVReady b.
(** The slots are numbered by their position. *)
Definition numbered (m : Metadata) : Prop :=
  Z.of_nat (length (slots m)) < 4294967296 /\ forall i st, slots m !! i = Some st -> Number st = Z.of_nat i.

Lemma Slot_lookup m i st : numbered m -> slots m !! i = Some st -> Slot m (Z.of_nat i) = Some st.
Proof.
  intros [Hlen _] Hi. unfold Slot. rw Nat2Z.id. pose proof (lookup_lt_Some _ _ _ Hi).
  rw (proj2 (Z.leb_gt _ _)) //. unfold u32. rw Z.mod_small; lia.
Qed.
Lemma findSlot_lookup id m i st : numbered m -> slots m !! i = Some st -> findSlot (fleetResponse id m) (Z.of_nat i) = Some (slotStatus st).
Proof.
  intros [_ Hn] Hi. unfold findSlot. simpl. pose proof (lookup_lt_Some _ _ _ Hi). rw length_fmap (proj2 (Z.ltb_lt _ _)); [lia|].
  rw Nat2Z.id list_lookup_fmap Hi. simpl. by rw (Hn i st Hi) Z.eqb_refl.
Qed.
Lemma numbered_set m i st st' : numbered m -> slots m !! i = Some st -> Number st' = Number st -> numbered (setSlot m (Z.of_nat i) st').
Proof.
  intros [Hlen Hn] Hi Heq. split; simpl; [by rw length_insert|]. rw Nat2Z.id. intros j s Hs.
  destruct (decide (i = j)) as [<-|Hne].
  - rw list_lookup_insert_eq in Hs; [by eapply lookup_lt_Some|]. simplify_eq. rw Heq. by apply Hn.
  - rw list_lookup_insert_ne in Hs; [done|]. by apply Hn.
Qed.

(** ** The state of the controller *)

Lemma updatePlanStatus_keeps s :
  let s' := updatePlanStatus s in
  ActivePlan s' = ActivePlan s /\ Nodes (LatestView s') = Nodes (LatestView s) /\ ViewSlots (LatestView s') = ViewSlots (LatestView s) /\
  ControlIndex s' = ControlIndex s /\ Unavailable s' = Unavailable s /\ LastCompletedPlanID s' = LastCompletedPlanID s.
Proof. unfold updatePlanStatus. by repeat case_match. Qed.

Lemma apply_step_done index planID i s plan :
  ActivePlan s = Some plan -> PlanID plan = planID -> 0 <= i < Z.of_nat (length (Steps plan)) ->
  exists s', Apply index (CommandStepDone planID i) s = (None, s') /\ ActivePlan s' = Some (markDone plan i) /\
    Nodes (LatestView s') = Nodes (LatestView s) /\ ViewSlots (LatestView s') = ViewSlots (LatestView s) /\
    ControlIndex s' = index /\ Unavailable s' = Unavailable s.
Proof.
  intros Ha Hid Hi. unfold Apply. simpl. unfold withActive. rw Ha Hid String.eqb_refl.
  rw (proj2 (Z.ltb_ge _ _)); [lia|]. rw (proj2 (Z.leb_gt _ _)); [lia|]. simpl.
  destruct (updatePlanStatus_keeps (setPlan (Some (markDone plan i)) s)) as (Hp & Hn & Hs & _ & Hu & _).
  eexists. split; [done|]. simpl. split_and!; [by rw Hp|by rw Hn|by rw Hs|done|by rw Hu].
Qed.
Lemma apply_mark_unavailable index u s :
  exists s', Apply index (CommandMarkUnavailable [u]) s = (None, s') /\ ActivePlan s' = ActivePlan s /\
    Nodes (LatestView s') = Nodes (LatestView s) /\ ViewSlots (LatestView s') = ViewSlots (LatestView s) /\
    ControlIndex s' = index /\ Unavailable s' = <[USlot u := u]> (Unavailable s).
Proof. eexists. split; [done|]. by simpl. Qed.
Lemma apply_plan_complete index planID s plan :
  ActivePlan s = Some plan -> PlanID plan = planID ->
  exists s', Apply index (CommandPlanComplete planID) s = (None, s') /\ ActivePlan s' = None /\
    Unavailable s' = Unavailable s /\ LastCompletedPlanID s' = planID.
Proof.
  intros Ha Hid. unfold Apply. simpl. unfold withActive. rw Ha Hid String.eqb_refl. eexists. by split_and!.
Qed.

(** ** Running computations *)

Lemma X_bind_ok {W A B} (m : X (W := W) A) (f : A -> X (W := W) B) x a x' : m x = Some (inl a, x') -> (m ≫= f) x = f a x'.
Proof. unfold mbind, X_bind. by intros ->. Qed.
Lemma bind_world {W A B} (g : W -> A * W) (f : A -> X (W := W) B) last w :
  (world g ≫= f) (last, w) = f (g w).1 (last, (g w).2).
Proof. unfold mbind, X_bind, world. by destruct (g w). Qed.

(** ** Waiting in the fleet *)

Section fleet.
Context `{SliceSortOk, MapRangeOk} (e : ExecutorConfig).

(** The fleet can be reached: the eligible nodes of the committed view are up
    and have clients, and there is one. *)
Record reachable (w : Fleet) : Prop := {
  rc_some : eligibleNodeIDs (LatestView (flState w)) <> [];
  rc_up : forall id, id ∈ eligibleNodeIDs (LatestView (flState w)) -> id ∈ flUp w /\ id ∈ clients e
}.

Lemma eligible_nodes v v' : Nodes v = Nodes v' -> eligibleNodeIDs v = eligibleNodeIDs v'.
Proof. unfold eligibleNodeIDs, selectNodes. by intros ->. Qed.

Lemma activePlan_fleet planID plan last (w : Fleet) :
  ActivePlan (flState w) = Some plan -> PlanID plan = planID ->
  activePlan planID (last, w) = Some (inl (State (flState w), plan), (last, w)).
Proof. intros Ha Hid. unfold activePlan, mbind, X_bind, world. simpl. rw Ha Hid String.eqb_refl. done. Qed.

Lemma fetchStates_fleet epoch ids last (w : Fleet) :
  (forall id, id ∈ ids -> id ∈ flUp w /\ id ∈ clients e) -> epoch <= version (flMeta w) ->
  fetchStates e epoch ids (last, w) = Some (inl (Some ((fun id => fleetResponse id (flMeta w)) <$> ids)), (last, w)).
Proof.
  intros Hup He. induction ids as [|id ids IH]; [done|]. destruct (Hup id) as [Hu Hc]; [left|]. cbn [fetchStates].
  rw (bool_decide_eq_true_2 _ Hc). cbn [negb]. rw bind_world. cbn [ClusterState fleetAdmin fst snd].
  rw (bool_decide_eq_true_2 _ Hu). cbn [RMetadataVersion fleetResponse]. rw (proj2 (Z.ltb_ge _ _) He).
  erewrite X_bind_ok; [|apply IH; intros id' Hid; apply Hup; by right]. done.
Qed.
Lemma converged_fleet id ids m :
  converged (Some ((fun id => fleetResponse id m) <$> (id :: ids))) = Some (fleetResponse id m).
Proof.
  unfold converged. cbn [fmap list_fmap]. assert (Hc : clusterStatesConverged (fleetResponse id m :: ((fun id => fleetResponse id m) <$> ids)) = true);
    [|by rw Hc].
  simpl. induction ids as [|i ids IH]; [done|]. simpl. by rw bool_decide_eq_true_2.
Qed.
Lemma wait_fleet fuel planID plan epoch last (w : Fleet) :
  reachable w -> ActivePlan (flState w) = Some plan -> PlanID plan = planID -> epoch <= version (flMeta w) ->
  exists id, waitForConvergence e (S fuel) planID epoch (last, w) = Some (inl (fleetResponse id (flMeta w)), (last, w)).
Proof.
  intros [Hsome Hup] Ha Hid He. unfold waitForConvergence. rw bind_world. cbn [TimeNow fleetClock fst snd waitLoop].
  erewrite X_bind_ok; [|by apply activePlan_fleet]. cbv iota beta. erewrite X_bind_ok; [|by apply fetchStates_fleet].
  cbn [LatestView State setView]. destruct (eligibleNodeIDs (LatestView (flState w))) as [|id ids]; [done|].
  rw converged_fleet. by exists id.
Qed.

(** ** Steps in the fleet *)

(** A step has put the slot at [i] into the state [s'], at a control index
    below or at which all fences are now. *)
Record stepped (i : nat) (s' : SlotState) (index : Z) (w w' : Fleet) : Prop := {
  sd_state : flState w' = flState w;
  sd_last : flLast w' = flLast w;
  sd_up : flUp w' = flUp w;
  sd_faults : flFaults w' = flFaults w;
  sd_slots : slots (flMeta w') = <[i := s']> (slots (flMeta w));
  sd_peers : peerIDs (flMeta w') = peerIDs (flMeta w);
  sd_version : version (flMeta w) <= version (flMeta w') <= version (flMeta w) + 1;
  sd_fences : forall id f, flFences w' !! id = Some f -> FControlIndex f <= index
}.

(** The node that a step is sent to. *)
Definition actor (st : PlanStep) (s : SlotView) : string :=
  match StKind st with StepPromote => StTarget st | _ => SVLeader s end.
(** Who is needed for a step on a slot. *)
Definition staffed (ok : string -> Prop) (m : Metadata) (st : PlanStep) (s : SlotView) : Prop :=
  StKind st <> StepMarkUnavailable ->
  ok (actor st s) /\ actor st s <> "" /\ (StKind st = StepAssignReplica -> StTarget st ∈ peerIDs m) /\
  (StKind st = StepSync -> StTarget st <> SVLeader s).

Definition fenced_below (index : Z) (w : Fleet) : Prop := forall id f, flFences w !! id = Some f -> FControlIndex f < index.

Lemma request_fresh id digest index op (w : Fleet) :
  id ∈ flUp w -> 0 < index -> fenced_below index w ->
  fleetRequest id digest index op w =
    let '(err, m, faults) := op (flMeta w) (flFaults w) in
    (err, mkFleet (flState w) (flLast w) m (flUp w) (<[id := mkFence index (hexEncode digest)]> (flFences w)) faults (flTime w)).
Proof.
  intros Hup Hi Hf. unfold fleetRequest. rw (bool_decide_eq_true_2 _ Hup). cbn [negb].
  assert (Hlt : FControlIndex (default (mkFence 0 "") (flFences w !! id)) < index).
  { destruct (flFences w !! id) as [f|] eqn:Hl; [by eapply Hf|done]. }
  unfold Begin. rw (proj2 (Z.eqb_neq index 0)); [lia|]. rw (proj2 (Z.ltb_ge _ _)); [lia|]. rw (proj2 (Z.eqb_neq _ _)); [lia|]. done.
Qed.
Lemma fences_after id index digest (w : Fleet) id' f :
  fenced_below index w -> <[id := mkFence index digest]> (flFences w) !! id' = Some f -> FControlIndex f <= index.
Proof.
  intros Hf. destruct (decide (id = id')) as [<-|Hne]; [rw lookup_insert_eq; by intros [= <-]|].
  rw lookup_insert_ne //. intros Hl%Hf. lia.
Qed.

Lemma request_steps id digest index op i s' m' last (w : Fleet) :
  id ∈ flUp w -> 0 < index -> fenced_below index w -> 0 <= version (flMeta w) < 2 ^ 64 - 1 ->
  op (flMeta w) (flFaults w) = (None, m', flFaults w) -> slots m' = <[i := s']> (slots (flMeta w)) ->
  version m' = u64 (version (flMeta w) + 1) -> peerIDs m' = peerIDs (flMeta w) ->
  exists w', world (fleetRequest id digest index op) (last, w) = Some (inl None, (last, w')) /\ stepped i s' index w w'.
Proof.
  intros Hup Hi Hf Hv Hop Hs Hver Hp. unfold world. rw request_fresh // Hop. eexists. split; [done|].
  rw u64_small in Hver; [lia|]. split; simpl; [done..|lia|]. intros id' f. by apply fences_after.
Qed.

Lemma callStep_fleet id index st i s v' last (w : Fleet) :
  numbered (flMeta w) -> slots (flMeta w) !! i = Some s -> StSlot st = Z.of_nat i -> runStep st (viewOf s) = Some v' ->
  StKind st <> StepMarkUnavailable -> StTarget st <> "" ->
  staffed (fun id => id ∈ flUp w /\ id ∈ clients e) (flMeta w) st (viewOf s) -> flFaults w = O -> 0 < index -> fenced_below index w -> 0 <= version (flMeta w) < 2 ^ 64 - 1 ->
  exists s' w', callStep e (fleetResponse id (flMeta w)) st index (last, w) = Some (inl None, (last, w')) /\
    same_slot (viewOf s') v' /\ Number s' = Number s /\ stepped i s' index w w'.
Proof.
  intros Hn Hi Hst Hrun Hk Htarget Hstaff Hfaults Hindex Hf Hv. destruct (Hstaff Hk) as ([Hup Hc] & Hne & Hpeer & _).
  pose proof (Slot_lookup _ _ _ Hn Hi) as Hslot. pose proof (findSlot_lookup id _ _ _ Hn Hi) as Hfind.
  assert (Hver : u64 (version (flMeta w) + 1) = version (flMeta w) + 1) by (apply u64_small; lia).
  assert (Hid : Z.to_nat (Z.of_nat i) = i) by apply Nat2Z.id.
  unfold callStep, runStep, actor in *. rewrite -> Hst, ?Hfind. destruct (StKind st) eqn:Hkind; [| | |done];
    cbn [viewOf viewSlot slotStatus SVReplica SVReady SVLeader SVNumber SSReplica SSReady SSLeader SSNumber] in *;
    rw ?(proj2 (String.eqb_neq (LeaderID s) "") Hne) (bool_decide_eq_true_2 _ Hc); cbn [negb].
  - rw (proj2 (String.eqb_neq _ "") Hne) /= in Hrun. destruct (String.eqb_spec (ReplicaID s) (StTarget st)) as [Hr|]; [|done].
    destruct (ReplicaReady s); [|done]. injection Hrun as <-.
    edestruct (fun m' => request_steps (StTarget st) ("promote" +:+ FormatUint (Z.of_nat i)) index
      (fun m faults => metaResult (Promote m (Z.of_nat i)) faults) i
      (mkSlot (Number s) (ReplicaID s) "" (u64 (Term s + 1)) 0 0 false) m' last w) as (w' & Hw & Hd); [done..| | | | |].
    + unfold metaResult, Promote. rw Hslot Hr (proj2 (String.eqb_neq _ "") Hne). done.
    + by rw /= Hid Hr.
    + done.
    + done.
    + eexists _, w'. split_and!; [exact Hw|..|exact Hd]; by simpl.
  - destruct (String.eqb_spec (StTarget st) (LeaderID s)) as [|Hl]; [done|]. injection Hrun as <-.
    edestruct (fun m' => request_steps (LeaderID s) ("replica" +:+ FormatUint (Z.of_nat i) +:+ "," +:+ StTarget st) index
      (fun m faults => metaResult (AssignReplica m (Z.of_nat i) (StTarget st)) faults) i
      (mkSlot (Number s) (LeaderID s) (StTarget st) (u64 (Term s + 1)) 0 0 false) m' last w) as (w' & Hw & Hd); [done..| | | | |].
    + unfold metaResult, AssignReplica. rw Hslot (bool_decide_eq_true_2 _ (Hpeer eq_refl)) (proj2 (String.eqb_neq _ _) Hl). done.
    + by rw /= Hid.
    + done.
    + done.
    + eexists _, w'. split_and!; [exact Hw|..|exact Hd]; by simpl.
  - destruct (String.eqb_spec (ReplicaID s) (StTarget st)) as [Hr|]; [|done]. injection Hrun as <-.
    edestruct (fun m' => request_steps (LeaderID s) ("sync" +:+ FormatUint (Z.of_nat i) +:+ "," +:+ StTarget st) index
      (fleetSync (LeaderID s) (Z.of_nat i) (StTarget st)) i
      (mkSlot (Number s) (LeaderID s) (ReplicaID s) (Term s) (LastSequence s) (LastSequence s) true) m' last w)
      as (w' & Hw & Hd); [done..| | | | |].
    + unfold fleetSync. rw Hslot Hr !String.eqb_refl Hfaults. cbn [negb orb].
      unfold metaResult, MarkReplicaReady. change (Slot (withLocal (LeaderID s) (flMeta w)) (Z.of_nat i)) with (Slot (flMeta w) (Z.of_nat i)).
      rw Hslot. cbn [localID withLocal]. rw Hr String.eqb_refl Z.eqb_refl (proj2 (String.eqb_neq (StTarget st) "") Htarget). done.
    + by rw /= Hid Hr.
    + done.
    + done.
    + eexists _, w'. split_and!; [exact Hw|..|exact Hd]; by simpl.
Qed.

Lemma postcondition_after id m i s' st s v' ok :
  numbered m -> slots m !! i = Some s' -> StSlot st = Z.of_nat i -> runStep st s = Some v' -> same_slot (viewOf s') v' ->
  StKind st <> StepMarkUnavailable -> staffed ok m st s -> stepPostcondition (fleetResponse id m) st = true.
Proof.
  intros Hn Hi Hst Hrun (_ & Hl & Hr & Hrd) Hk Hstaff. destruct (Hstaff Hk) as (_ & _ & _ & Hsync).
  unfold stepPostcondition. rw Hst (findSlot_lookup id m i s' Hn Hi). simpl in *. rw Hl Hr Hrd. unfold runStep in Hrun.
  destruct (StKind st); [| | |done].
  - destruct (_ && _ && _); [|done]. injection Hrun as <-. simpl. by rw String.eqb_refl.
  - destruct (String.eqb_spec (StTarget st) (SVLeader s)) as [|Hne]; [done|]. injection Hrun as <-. simpl.
    by rw String.eqb_refl (proj2 (String.eqb_neq _ _) (not_eq_sym Hne)).
  - destruct (String.eqb_spec (SVReplica s) (StTarget st)) as [Heq|]; [|done]. injection Hrun as <-. simpl.
    by rw Heq String.eqb_refl (proj2 (String.eqb_neq _ _) (not_eq_sym (Hsync eq_refl))).
Qed.
Lemma postcondition_before id m i s st v' :
  numbered m -> slots m !! i = Some s -> StSlot st = Z.of_nat i -> runStep st (viewOf s) = Some v' ->
  stepPostcondition (fleetResponse id m) st = true -> same_slot (viewOf s) v'.
Proof.
  intros Hn Hi Hst Hrun. unfold stepPostcondition. rw Hst (findSlot_lookup id m i s Hn Hi). unfold runStep in Hrun. simpl in *.
  destruct (StKind st); [| | |done].
  - destruct (_ && _ && _); [|done]. injection Hrun as <-. rw !andb_true_iff negb_true_iff !String.eqb_eq. by intros [[? ?] ?].
  - destruct (String.eqb_spec (StTarget st) (LeaderID s)); [done|]. injection Hrun as <-.
    rw !andb_true_iff !negb_true_iff String.eqb_eq. by intros [[? ?] _].
  - destruct (String.eqb_spec (ReplicaID s) (StTarget st)); [|done]. injection Hrun as <-.
    rw !andb_true_iff. by intros [[_ ?] _].
Qed.

Definition later (t : Z) (w : Fleet) : Fleet := mkFleet (flState w) (flLast w) (flMeta w) (flUp w) (flFences w) (flFaults w) t.
Lemma waitForSyncRate_fleet last (w : Fleet) : exists last' t, waitForSyncRate e (last, w) = Some (inl tt, (last', later t w)).
Proof.
  unfold waitForSyncRate. erewrite X_bind_ok; [|done]. rw bind_world. cbn [TimeNow fleetClock fst snd].
  set (wait := match last with Some t => _ | None => _ end).
  assert (exists t, (if 0 <? wait then check (Sleep wait) Cancelled else mret tt) (last, w) = Some (inl tt, (last, later t w))) as (t & Ht).
  { destruct (0 <? wait); [by eexists|]. exists (flTime w). by destruct w. }
  erewrite X_bind_ok; [|exact Ht]. rw bind_world. by eexists _, t.
Qed.

Lemma executeTopologyStep_fleet fuel planID plan st i s v' last (w : Fleet) :
  reachable w -> ActivePlan (flState w) = Some plan -> PlanID plan = planID -> Epoch plan <= version (flMeta w) < 2 ^ 64 - 1 ->
  0 <= Epoch plan -> numbered (flMeta w) -> slots (flMeta w) !! i = Some s -> StSlot st = Z.of_nat i ->
  runStep st (viewOf s) = Some v' -> StKind st <> StepMarkUnavailable -> StTarget st <> "" ->
  staffed (fun id => id ∈ flUp w /\ id ∈ clients e) (flMeta w) st (viewOf s) ->
  flFaults w = O -> 0 < ControlIndex (flState w) -> fenced_below (ControlIndex (flState w)) w ->
  exists last' s' w', executeTopologyStep e (S fuel) planID plan st (last, w) = Some (inl tt, (last', w')) /\
    same_slot (viewOf s') v' /\ Number s' = Number s /\ stepped i s' (ControlIndex (flState w)) w w'.
Proof.
  intros Hreach Ha Hid Hv He Hn Hi Hst Hrun Hk Ht Hstaff Hfaults Hindex Hf. unfold executeTopologyStep.
  assert (exists last1 t, (if bool_decide (StKind st = StepSync) then waitForSyncRate e else mret tt) (last, w)
                          = Some (inl tt, (last1, later t w))) as (last1 & t & Hrate).
  { case_bool_decide; [apply waitForSyncRate_fleet|]. exists last, (flTime w). by destruct w. }
  erewrite X_bind_ok; [|exact Hrate]. assert (Hreach1 : reachable (later t w)) by by destruct Hreach; split.
  destruct (wait_fleet fuel planID plan (Epoch plan) last1 (later t w) Hreach1) as (id1 & Hw1); [done|done|by simpl; lia|].
  erewrite X_bind_ok; [|exact Hw1]. cbn [flMeta later].
  destruct (stepPostcondition (fleetResponse id1 (flMeta w)) st) eqn:Hpost.
  { exists last1, s, (later t w). split_and!; [done|by eapply postcondition_before|done|].
    split; simpl; try done; [by rw list_insert_id|lia|]. intros id f Hl%Hf. lia. }
  erewrite X_bind_ok; [|by apply activePlan_fleet]. cbv iota beta. cbn [ControlIndex State setView flState later].
  destruct (callStep_fleet id1 (ControlIndex (flState w)) st i s v' last1 (later t w))
    as (s' & w' & Hcall & Hsame & Hnum & Hstep); [done..|simpl; lia|]. cbn [flMeta later] in Hcall.
  erewrite X_bind_ok; [|exact Hcall]. destruct Hstep as [Hs1 Hs2 Hs3 Hs4 Hs5 Hs6 Hs7 Hs8]. simpl in *.
  assert (Hreach2 : reachable w').
  { destruct Hreach as [Hsome Hup]. split; rw Hs1; [done|]. by rw Hs3. }
  destruct (wait_fleet fuel planID plan (Epoch plan) last1 w' Hreach2) as (id2 & Hw2); [by rw Hs1|done|lia|].
  unfold catch. erewrite X_bind_ok; [|by rw Hw2]. cbv iota beta.
  rw (postcondition_after id2 (flMeta w') i s' st (viewOf s) v' (fun id => id ∈ flUp w /\ id ∈ clients e)) //.
  - destruct Hn as [Hlen Hnn]. split; rw Hs5; [by rw length_insert|]. intros j x. destruct (decide (i = j)) as [<-|Hne].
    + rw list_lookup_insert_eq; [by eapply lookup_lt_Some|]. intros [= <-]. rw Hnum. by apply Hnn.
    + rw list_lookup_insert_ne //. apply Hnn.
  - rw Hs5 list_lookup_insert_eq //. by eapply lookup_lt_Some.
  - unfold staffed in *. by rw Hs6.
  - by exists last1, s', w'.
Qed.

(** ** Plans in the fleet *)

Lemma runStep_same st a b a' :
  same_slot a b -> runStep st a = Some a' -> exists b', runStep st b = Some b' /\ same_slot a' b'.
Proof.
  intros (Hn & Hl & Hr & Hrd). unfold runStep. rw -Hl -Hr -Hrd. destruct (StKind st).
  - destruct (_ && _ && _); [|done]. intros [= <-]. by eexists.
  - destruct (String.eqb _ _); [done|]. intros [= <-]. by eexists.
  - destruct (String.eqb _ _); [|done]. intros [= <-]. by eexists.
  - intros [= <-]. by eexists.
Qed.

(** The steps can be carried out one after the other on a slot. *)
Fixpoint runnable (ok : string -> Prop) (m : Metadata) (steps : list PlanStep) (v : SlotView) : Prop :=
  match steps with
  | [] => True
  | st :: steps =>
      (StKind st <> StepMarkUnavailable -> StTarget st <> "") /\ staffed ok m st v /\
      exists v', runStep st v = Some v' /\ runnable ok m steps v'
  end.
Lemma staffed_same ok m st a b : same_slot a b -> staffed ok m st a -> staffed ok m st b.
Proof. intros (_ & Hl & _). unfold staffed, actor. by rw Hl. Qed.
Lemma runnable_same ok m steps a b : same_slot a b -> runnable ok m steps a -> runnable ok m steps b.
Proof.
  revert a b. induction steps as [|st steps IH]; intros a b Hs; [done|]. simpl. intros (Ht & Hst & a' & Hr & Hrest).
  destruct (runStep_same st a b a' Hs Hr) as (b' & Hb & Hs'). split_and!; [done|by eapply staffed_same|]. exists b'. split; [done|by eapply IH].
Qed.

Section plan.
Context (plan : RecoveryPlan) (ss : list SlotState) (view : ClusterView) (ids : gset string) (m0 : Metadata) (v0 : Z).
Let ok (id : string) : Prop := id ∈ ids /\ id ∈ clients e.

(** Where the execution is: the steps [done] have been carried out and the
    steps [rest] can be. *)
Record progress (done rest : list PlanStep) (w : Fleet) : Prop := {
  pg_plan : exists p, ActivePlan (flState w) = Some p /\ PlanID p = PlanID plan /\ Steps p = done ++ rest /\
    Epoch p = Epoch plan /\ DeadNodes p = DeadNodes plan /\ forall j, Z.of_nat (length done) <= j -> isDone p j = false;
  pg_nodes : Nodes (LatestView (flState w)) = Nodes view;
  pg_view : ViewSlots (LatestView (flState w)) = ViewSlots view;
  pg_reach : reachable w;
  pg_up : flUp w = ids;
  pg_faults : flFaults w = O;
  pg_peers : peerIDs (flMeta w) = peerIDs m0;
  pg_numbered : numbered (flMeta w);
  pg_length : length (slots (flMeta w)) = length ss;
  pg_version : v0 <= version (flMeta w) <= v0 + Z.of_nat (length done);
  pg_index : 0 < ControlIndex (flState w) <= flLast w;
  pg_fences : fenced_below (ControlIndex (flState w)) w;
  pg_marked : forall st, st ∈ done -> StKind st = StepMarkUnavailable -> is_Some (Unavailable (flState w) !! StSlot st);
  pg_slots : forall i s0, ss !! i = Some s0 -> exists s v, slots (flMeta w) !! i = Some s /\
    runSteps (stepsFor (Z.of_nat i) done) (viewOf s0) = Some v /\ same_slot v (viewOf s) /\
    runnable ok m0 (stepsFor (Z.of_nat i) rest) v
}.

(** Committing a step. *)
Lemma commit_step done st rest p last (w : Fleet) :
  ActivePlan (flState w) = Some p -> PlanID p = PlanID plan -> Steps p = done ++ st :: rest ->
  exists s', propose (CommandStepDone (PlanID plan) (Z.of_nat (length done))) (last, w) =
      Some (inl tt, (last, mkFleet s' (flLast w + 1) (flMeta w) (flUp w) (flFences w) (flFaults w) (flTime w))) /\
    ActivePlan s' = Some (markDone p (Z.of_nat (length done))) /\
    Nodes (LatestView s') = Nodes (LatestView (flState w)) /\ ViewSlots (LatestView s') = ViewSlots (LatestView (flState w)) /\
    ControlIndex s' = flLast w + 1 /\ Unavailable s' = Unavailable (flState w).
Proof.
  intros Ha Hid Hst. destruct (apply_step_done (flLast w + 1) (PlanID plan) (Z.of_nat (length done)) (flState w) p Ha Hid) as (s' & Hap & Hs').
  { rw Hst length_app. simpl. lia. }
  exists s'. split; [|done]. unfold propose, check. rw bind_world. cbn [Propose fleetProposer]. by rw Hap.
Qed.
Lemma markDone_later p k j : k < j -> isDone p j = false -> isDone (markDone p k) j = false.
Proof. intros Hlt. unfold isDone. simpl. rw lookup_insert_ne //. lia. Qed.

(** A step that has been carried out and is not committed yet. *)
Record acted (done : list PlanStep) (st : PlanStep) (rest : list PlanStep) (w : Fleet) : Prop := {
  ac_plan : exists p, ActivePlan (flState w) = Some p /\ PlanID p = PlanID plan /\ Steps p = done ++ st :: rest /\
    Epoch p = Epoch plan /\ DeadNodes p = DeadNodes plan /\ forall j, Z.of_nat (length done) <= j -> isDone p j = false;
  ac_nodes : Nodes (LatestView (flState w)) = Nodes view;
  ac_view : ViewSlots (LatestView (flState w)) = ViewSlots view;
  ac_reach : reachable w;
  ac_up : flUp w = ids;
  ac_faults : flFaults w = O;
  ac_peers : peerIDs (flMeta w) = peerIDs m0;
  ac_numbered : numbered (flMeta w);
  ac_length : length (slots (flMeta w)) = length ss;
  ac_version : v0 <= version (flMeta w) <= v0 + Z.of_nat (length done) + 1;
  ac_last : 0 < flLast w;
  ac_fences : forall id f, flFences w !! id = Some f -> FControlIndex f <= flLast w;
  ac_marked : forall st', st' ∈ done ++ [st] -> StKind st' = StepMarkUnavailable -> is_Some (Unavailable (flState w) !! StSlot st');
  ac_slots : forall i s0, ss !! i = Some s0 -> exists s v, slots (flMeta w) !! i = Some s /\
    runSteps (stepsFor (Z.of_nat i) (done ++ [st])) (viewOf s0) = Some v /\ same_slot v (viewOf s) /\
    runnable ok m0 (stepsFor (Z.of_nat i) rest) v
}.

Lemma commit_acted done st rest last (w : Fleet) :
  acted done st rest w -> exists w',
  (_ ← activePlan (PlanID plan); propose (CommandStepDone (PlanID plan) (Z.of_nat (length done)))) (last, w) =
    Some (inl tt, (last, w')) /\ progress (done ++ [st]) rest w'.
Proof.
  intros [(p & Ha & Hid & Hst & Hep & Hd & Hdone) Hn Hv [Hr1 Hr2] Hup Hfa Hpe Hnu Hle Hve Hla Hfe Hma Hsl].
  destruct (commit_step done st rest p last w Ha Hid Hst) as (s' & Hp & Ha' & Hn' & Hv' & Hc' & Hu').
  erewrite X_bind_ok; [|by apply activePlan_fleet]. eexists. split; [exact Hp|].
  pose proof (eligible_nodes _ _ Hn') as Hel. split; simpl; try done.
  - exists (markDone p (Z.of_nat (length done))). split_and!; [done..|by rw -app_assoc|done|done|].
    intros j. rw length_app. simpl. intros Hj. apply markDone_later; [lia|]. apply Hdone. lia.
  - by rw Hn'.
  - by rw Hv'.
  - split; simpl; by rw Hel.
  - rw length_app. simpl. lia.
  - rw Hc'. lia.
  - intros id f Hl. simpl in Hl. apply Hfe in Hl. rw Hc'. lia.
  - by rw Hu'.
Qed.

(** The slots after a step on the slot at [i]. *)
Lemma slots_step done st rest i s s1 v (w w1 : Fleet) :
  progress done (st :: rest) w -> slots (flMeta w) !! i = Some s -> StSlot st = Z.of_nat i ->
  slots (flMeta w1) = <[i := s1]> (slots (flMeta w)) -> runStep st (viewOf s) = Some v -> same_slot (viewOf s1) v ->
  forall j s0, ss !! j = Some s0 -> exists s v, slots (flMeta w1) !! j = Some s /\
    runSteps (stepsFor (Z.of_nat j) (done ++ [st])) (viewOf s0) = Some v /\ same_slot v (viewOf s) /\
    runnable ok m0 (stepsFor (Z.of_nat j) rest) v.
Proof.
  intros Hp Hi Hst Hs1 Hrun Hsame j s0 Hj. destruct (pg_slots _ _ _ Hp j s0 Hj) as (s' & v' & Hs' & Hr' & Hsame' & Hrest).
  rw Hs1 stepsFor_app. simpl in Hrest |- *. rewrite -> Hst in Hrest |- *. destruct (decide (i = j)) as [<-|Hne].
  - simplify_eq. rewrite -> Z.eqb_refl in Hrest |- *. destruct Hrest as (_ & _ & v1 & Hv1 & Hrest).
    rw list_lookup_insert_eq; [by eapply lookup_lt_Some|]. exists s1, v1. rw runSteps_app Hr'. split_and!; [done|done| |done].
    destruct (runStep_same st v' _ v1 Hsame' Hv1) as (b & Hb & (? & ? & ? & ?)). rw Hrun in Hb. injection Hb as <-.
    destruct Hsame as (? & ? & ? & ?). split_and!; congruence.
  - rewrite -> (proj2 (Z.eqb_neq (Z.of_nat i) (Z.of_nat j))) in Hrest |- *; [|lia|lia]. rw list_lookup_insert_ne // app_nil_r.
    by exists s', v'.
Qed.

(** Every step is about a slot that there is. *)
Definition on_slots (steps : list PlanStep) : Prop := forall st, st ∈ steps -> exists i s0, ss !! i = Some s0 /\ StSlot st = Z.of_nat i.

Lemma numbered_step m m' i s s1 :
  numbered m -> slots m !! i = Some s -> slots m' = <[i := s1]> (slots m) -> Number s1 = Number s -> numbered m'.
Proof.
  intros Hn Hi Hs Hnum. pose proof (numbered_set m i s s1 Hn Hi Hnum) as [Hl Hn']. simpl in Hl, Hn'.
  rewrite -> Nat2Z.id in Hl, Hn'. split; by rw Hs.
Qed.

Lemma topology_acted fuel done st rest p last (w : Fleet) :
  progress done (st :: rest) w -> on_slots (st :: rest) -> StKind st <> StepMarkUnavailable -> 0 <= Epoch plan <= v0 ->
  v0 + Z.of_nat (length (done ++ st :: rest)) < 2 ^ 64 -> ActivePlan (flState w) = Some p ->
  exists last' w', executeTopologyStep e (S fuel) (PlanID plan) p st (last, w) = Some (inl tt, (last', w')) /\ acted done st rest w'.
Proof.
  intros Hp Hon Hk Hep Hv Ha. destruct (Hon st) as (i & s0 & Hi & Hst); [left|].
  destruct (pg_slots _ _ _ Hp i s0 Hi) as (s & v & Hs & Hrs & Hsame & Hrest). simpl in Hrest. rw Hst Z.eqb_refl in Hrest.
  destruct Hrest as (Ht & Hstaff & v1 & Hv1 & Hrest). destruct (runStep_same st v (viewOf s) v1 Hsame Hv1) as (v2 & Hv2 & Hsame2).
  pose proof Hp as [(p' & Ha' & Hid & Hsteps & Hep' & Hdead & Hdone) Hnd Hvw Hrc Hup Hfa Hpe Hnu Hle Hve Hin Hfe Hma Hsl].
  rewrite -> Ha in Ha'. injection Ha' as <-. rw length_app in Hv. simpl in Hv.
  destruct (executeTopologyStep_fleet fuel (PlanID plan) p st i s v2 last w) as (last' & s1 & w' & Hx & Hs1 & Hnum & Hstep);
    [done|done|done|lia|lia|done..|by apply Ht| |done|lia|done|].
  { eapply staffed_same; [done|]. unfold staffed in *. by rw Hpe Hup. }
  destruct Hstep as [E1 E2 E3 E4 E5 E6 E7 E8]. exists last', w'. split; [done|].
  split; rw ?E1 ?E2 ?E3 ?E4 ?E6 //.
  - by exists p.
  - destruct Hrc as [Hr1 Hr2]. split; by rw E1 ?E3.
  - by eapply numbered_step.
  - by rw E5 length_insert.
  - lia.
  - lia.
  - intros id f Hl%E8. lia.
  - intros st' [Hin'|Heq%list_elem_of_singleton]%elem_of_app; [by apply Hma|by subst].
  - by eapply slots_step.
Qed.

Lemma mark_acted done st rest p last (w : Fleet) :
  progress done (st :: rest) w -> on_slots (st :: rest) -> StKind st = StepMarkUnavailable -> ActivePlan (flState w) = Some p ->
  exists w', match Unavailable (State (flState w)) !! StSlot st with
             | Some _ => mret tt
             | None => propose (CommandMarkUnavailable [unavailableRecord p (StSlot st) (LatestView (State (flState w)))])
             end (last, w) = Some (inl tt, (last, w')) /\ acted done st rest w'.
Proof.
  intros Hp Hon Hk Ha. destruct (Hon st) as (i & s0 & Hi & Hst); [left|].
  destruct (pg_slots _ _ _ Hp i s0 Hi) as (s & v & Hs & Hrs & Hsame & Hrest).
  assert (Hrun : runStep st (viewOf s) = Some (viewOf s)) by (unfold runStep; by rw Hk).
  pose proof Hp as [(p' & Ha' & Hid & Hsteps & Hep' & Hdead & Hdone) Hnd Hvw Hrc Hup Hfa Hpe Hnu Hle Hve Hin Hfe Hma Hsl].
  rewrite -> Ha in Ha'. injection Ha' as <-.
  assert (Hslots : forall w1 : Fleet, flMeta w1 = flMeta w -> forall j s0, ss !! j = Some s0 -> exists s v, slots (flMeta w1) !! j = Some s /\
    runSteps (stepsFor (Z.of_nat j) (done ++ [st])) (viewOf s0) = Some v /\ same_slot v (viewOf s) /\
    runnable ok m0 (stepsFor (Z.of_nat j) rest) v).
  { intros w1 Hm. eapply slots_step; [done..| |done|done]. by rw Hm list_insert_id. }
  cbn [Unavailable State setView]. destruct (Unavailable (flState w) !! StSlot st) as [u|] eqn:Hu.
  - exists w. split; [done|]. split; try done; [by exists p|lia|lia| | |].
    + intros id f Hl%Hfe. lia.
    + intros st' [Hin'|Heq%list_elem_of_singleton]%elem_of_app; [by apply Hma|by rw Heq Hu].
    + by apply Hslots.
  - set (u := unavailableRecord _ _ _). assert (Hslot : USlot u = StSlot st) by (unfold u, unavailableRecord; by repeat case_match).
    destruct (apply_mark_unavailable (flLast w + 1) u (flState w)) as (s' & Hap & A1 & A2 & A3 & A4 & A5).
    eexists. split; [unfold propose, check; rw bind_world; cbn [Propose fleetProposer]; by rw Hap|].
    pose proof (eligible_nodes _ _ A2) as Hel. split; simpl; try done.
    + exists p. by rw A1.
    + by rw A2.
    + by rw A3.
    + destruct Hrc as [Hr1 Hr2]. split; simpl; by rw Hel.
    + lia.
    + lia.
    + intros id f Hl%Hfe. lia.
    + intros st' Hin' Hk'. rw A5 Hslot. destruct (decide (StSlot st = StSlot st')) as [->|Hne]; [by rw lookup_insert_eq|].
      rw lookup_insert_ne //. apply elem_of_app in Hin' as [Hin'|Heq%list_elem_of_singleton]; [by apply Hma|by subst].
    + by apply (Hslots (mkFleet s' (flLast w + 1) (flMeta w) (flUp w) (flFences w) (flFaults w) (flTime w))).
Qed.

Lemma executeStep_fleet fuel done st rest last (w : Fleet) :
  progress done (st :: rest) w -> on_slots (st :: rest) -> 0 <= Epoch plan <= v0 ->
  v0 + Z.of_nat (length (done ++ st :: rest)) < 2 ^ 64 ->
  exists last' w', executeStep e (S fuel) (PlanID plan) (Z.of_nat (length done)) (last, w) = Some (inl tt, (last', w')) /\
    progress (done ++ [st]) rest w'.
Proof.
  intros Hp Hon Hep Hv. destruct (pg_plan _ _ _ Hp) as (p & Ha & Hid & Hsteps & _ & _ & Hdone).
  unfold executeStep. erewrite X_bind_ok; [|by apply activePlan_fleet]. cbv iota beta. rw Hdone // Nat2Z.id Hsteps.
  rw lookup_app_r // Nat.sub_diag. cbn [lookup list_lookup].
  assert (exists last' w', (if bool_decide (StKind st = StepMarkUnavailable)
           then match Unavailable (State (flState w)) !! StSlot st with
                | Some _ => mret tt
                | None => propose (CommandMarkUnavailable [unavailableRecord p (StSlot st) (LatestView (State (flState w)))])
                end
           else executeTopologyStep e (S fuel) (PlanID plan) p st) (last, w) = Some (inl tt, (last', w')) /\ acted done st rest w')
    as (last' & w1 & Hx & Hac).
  { case_bool_decide as Hk; [|by eapply topology_acted]. destruct (mark_acted done st rest p last w) as (w1 & Hx & Hac); [done..|].
    by exists last, w1. }
  erewrite X_bind_ok; [|exact Hx]. destruct (commit_acted done st rest last' w1 Hac) as (w2 & Hc & Hp2). by exists last', w2.
Qed.

Lemma executeSteps_fleet fuel rest done last (w : Fleet) :
  progress done rest w -> on_slots rest -> 0 <= Epoch plan <= v0 -> v0 + Z.of_nat (length (done ++ rest)) < 2 ^ 64 ->
  exists last' w', executeSteps e (S fuel) (PlanID plan) (Z.of_nat (length done)) (length rest) (last, w) = Some (inl tt, (last', w')) /\
    progress (done ++ rest) [] w'.
Proof.
  revert done last w. induction rest as [|st rest IH]; intros done last w Hp Hon Hep Hv.
  - exists last, w. by rw app_nil_r.
  - cbn [executeSteps length]. destruct (executeStep_fleet fuel done st rest last w) as (last1 & w1 & Hx & Hp1); [done..|].
    erewrite X_bind_ok; [|exact Hx]. destruct (IH (done ++ [st]) last1 w1) as (last2 & w2 & Hx2 & Hp2).
    + done.
    + intros st' Hin. apply Hon. by right.
    + done.
    + by rw -app_assoc.
    + exists last2, w2. rewrite <- app_assoc in Hp2. split; [|done]. rewrite <- Hx2. f_equal. rw length_app. simpl. lia.
Qed.

(** The whole run. *)
Lemma ExecuteOnce_fleet fuel last (w : Fleet) :
  progress [] (Steps plan) w -> ActivePlan (flState w) = Some plan -> on_slots (Steps plan) -> 0 <= Epoch plan <= v0 ->
  v0 + Z.of_nat (length (Steps plan)) < 2 ^ 64 ->
  exists last' w', ExecuteOnce e (S fuel) (last, w) = Some (inl tt, (last', w')) /\
    ActivePlan (flState w') = None /\ LastCompletedPlanID (flState w') = PlanID plan /\
    (forall st, st ∈ Steps plan -> StKind st = StepMarkUnavailable -> is_Some (Unavailable (flState w') !! StSlot st)) /\
    forall i s0, ss !! i = Some s0 -> exists s v, slots (flMeta w') !! i = Some s /\
      runSteps (stepsFor (Z.of_nat i) (Steps plan)) (viewOf s0) = Some v /\ same_slot v (viewOf s).
Proof.
  intros Hp Ha Hon Hep Hv. unfold ExecuteOnce. rw bind_world. cbn [IsLeader fleetProposer fst snd negb].
  rw bind_world. cbn [ProposerState fst snd ActivePlan State setView]. rw Ha.
  destruct (executeSteps_fleet fuel (Steps plan) [] last w Hp Hon Hep Hv) as (last1 & w1 & Hx & Hp1). cbn [length Z.of_nat] in Hx.
  erewrite X_bind_ok; [|exact Hx]. destruct (pg_plan _ _ _ Hp1) as (p & Ha1 & Hid & _).
  erewrite X_bind_ok; [|by apply activePlan_fleet].
  destruct (apply_plan_complete (flLast w1 + 1) (PlanID plan) (flState w1) p Ha1 Hid) as (s' & Hap & C1 & C2 & C3).
  exists last1. eexists. split; [unfold propose, check; rw bind_world; cbn [Propose fleetProposer]; by rw Hap|].
  cbn [flState flMeta]. split_and!; [done|done| |].
  - intros st Hin Hk. rw C2. by apply (pg_marked _ _ _ Hp1).
  - intros i s0 Hi. destruct (pg_slots _ _ _ Hp1 i s0 Hi) as (s & v & Hs & Hr & Hsame & _). by exists s, v.
Qed.
End plan.
End fleet.

(** ** Recovery *)

Lemma runSteps_cons st steps s : runSteps (st :: steps) s = runStep st s ≫= runSteps steps.
Proof. apply (runSteps_app [st] steps). Qed.

(** With a second usable node the slot has a ready replica on one. *)
Definition second_copy (view : ClusterView) (v : SlotView) : Prop :=
  (exists t node, Nodes view !! t = Some node /\ usable node = true /\ t <> SVLeader v) ->
  SVReady v = true /\ SVReplica v <> SVLeader v /\ exists node, Nodes view !! SVReplica v = Some node /\ usable node = true.

(** What recovery makes of a slot [s]. *)
Definition recovered (view : ClusterView) (s v : SlotView) : Prop :=
  match classifySlot (Nodes view) s with
  | SlotUnaffected | SlotNoSurvivingCopy => same_slot v s
  | SlotLeaderless => SVLeader v = SVReplica s /\ second_copy view v
  | SlotReplicaLost => SVLeader v = SVLeader s /\ second_copy view v
  end.

(** A controller that has committed a view of the fleet and the failover plan
    for it.  The view is that of the metadata, nobody is merely suspected, and
    the usable nodes are up. *)
Record outage `{SliceSort, MapRange, PlanDigest} (e : ExecutorConfig) (plan : RecoveryPlan) (w : Fleet) : Prop := {
  out_plan : PlanFailover (LatestView (flState w)) = Some plan;
  out_active : ActivePlan (flState w) = Some plan;
  out_slots : ViewSlots (LatestView (flState w)) = viewOf <$> slots (flMeta w);
  out_version : MetadataVersion (LatestView (flState w)) = version (flMeta w);
  out_numbered : numbered (flMeta w);
  out_owners : forall s, s ∈ slots (flMeta w) -> LeaderID s <> ReplicaID s;
  out_known : forall id node, Nodes (LatestView (flState w)) !! id = Some node -> id <> "" /\ Suspected node = false;
  out_up : forall id node, Nodes (LatestView (flState w)) !! id = Some node -> usable node = true ->
    (id ∈ flUp w /\ id ∈ clients e) /\ id ∈ peerIDs (flMeta w);
  out_some : eligibleNodeIDs (LatestView (flState w)) <> [];
  out_room : 0 <= version (flMeta w) /\ version (flMeta w) + Z.of_nat (length (Steps plan)) < 2 ^ 64;
  out_index : 0 < ControlIndex (flState w) <= flLast w;
  out_fences : fenced_below (ControlIndex (flState w)) w;
  out_faults : flFaults w = O
}.

Section recovery.
Context (view : ClusterView) (ok : string -> Prop) (m : Metadata).
Hypothesis Hknown : forall id node, Nodes view !! id = Some node -> id <> "" /\ Suspected node = false.
Hypothesis Hup : forall id node, Nodes view !! id = Some node -> usable node = true -> ok id /\ id ∈ peerIDs m.

Lemma available_usable id : ownerAvailable (Nodes view) id = true -> exists node, Nodes view !! id = Some node /\ usable node = true.
Proof.
  unfold ownerAvailable. destruct (String.eqb id ""); [done|]. destruct (Nodes view !! id) as [node|] eqn:Hn; [|done].
  intros [Hr He]%andb_true_iff. exists node. split; [done|]. unfold usable. destruct (Hknown id node Hn) as [_ Hs]. by rw Hr He Hs.
Qed.

(** Steps that add a replica to a slot without one. *)
Lemma repairs_run v steps node :
  repairs view (SVNumber v) (SVLeader v) steps -> Nodes view !! SVLeader v = Some node -> usable node = true ->
  runnable ok m steps v /\ exists v', runSteps steps v = Some v' /\ SVLeader v' = SVLeader v /\ second_copy view v'.
Proof.
  intros Hr Hl Hu. destruct (Hup _ _ Hl Hu) as [Hok _]. destruct (Hknown _ _ Hl) as [Hne _].
  destruct Hr as [t nt Hnt Hut Htl|Hnone].
  - destruct (Hup _ _ Hnt Hut) as [_ Hpeer]. destruct (Hknown _ _ Hnt) as [Htne _].
    assert (H1 : runStep (mkStep StepAssignReplica (SVNumber v) t) v
      = Some (mkSlotView (SVNumber v) (SVLeader v) t (u64 (SVTerm v + 1)) false)).
    { unfold runStep. simpl. by rw (proj2 (String.eqb_neq _ _) Htl). }
    assert (H2 : forall s, SVReplica s = t -> runStep (mkStep StepSync (SVNumber v) t) s
      = Some (mkSlotView (SVNumber s) (SVLeader s) t (SVTerm s) true)).
    { intros s <-. unfold runStep. simpl. by rw String.eqb_refl. }
    split.
    + split_and!; [done|done|]. eexists. split; [exact H1|]. split_and!; [done|done|]. eexists. split; [by apply H2|done].
    + eexists. rw runSteps_cons H1. cbn [mbind option_bind]. rw runSteps_cons H2 //. split; [done|].
      split; [done|]. intros _. simpl. by split_and!; [| |exists nt].
  - split; [done|]. exists v. split_and!; [done..|]. intros (t & nt & Hnt & Hut & Hne'). exfalso. by apply Hne', (Hnone t nt).
Qed.

Lemma slot_plan_run s steps :
  slot_plan view s steps -> SVLeader s <> SVReplica s -> runnable ok m steps s /\ exists v, runSteps steps s = Some v /\ recovered view s v.
Proof.
  intros Hp Hlr. destruct Hp as [Hc|steps Hc Hr|Hc Ho|steps Hc Ho Hr|Hc].
  - split; [done|]. exists s. split; [done|]. unfold recovered. by rw Hc.
  - unfold classifySlot in Hc. destruct (SVReady s) eqn:Hready, (ownerAvailable (Nodes view) (SVReplica s)) eqn:Ho,
      (ownerAvailable (Nodes view) (SVLeader s)) eqn:Hl; try done.
    destruct (available_usable _ Ho) as (node & Hn & Hu). destruct (Hup _ _ Hn Hu) as [Hok _]. destruct (Hknown _ _ Hn) as [Hne _].
    set (v1 := mkSlotView (SVNumber s) (SVReplica s) "" (u64 (SVTerm s + 1)) false).
    destruct (repairs_run v1 steps node) as (Hrun & v & Hv & Hlv & Hsec); [done..|].
    assert (H1 : runStep (mkStep StepPromote (SVNumber s) (SVReplica s)) s = Some v1).
    { unfold runStep. simpl. by rw (proj2 (String.eqb_neq _ _) Hne) String.eqb_refl Hready. }
    split.
    + split_and!; [done|done|]. by exists v1.
    + exists v. split; [|unfold recovered, classifySlot; by rw Hready Ho Hl].
      by rw runSteps_cons H1.
  - assert (Hl : ownerAvailable (Nodes view) (SVLeader s) = true).
    { unfold classifySlot in Hc. by destruct (SVReady s), (ownerAvailable (Nodes view) (SVReplica s)), (ownerAvailable (Nodes view) (SVLeader s)). }
    destruct (available_usable _ Ho) as (node & Hn & Hu). destruct (available_usable _ Hl) as (nl & Hnl & Hul).
    destruct (Hup _ _ Hnl Hul) as [Hok _]. destruct (Hknown _ _ Hn) as [Hne _], (Hknown _ _ Hnl) as [Hne' _].
    assert (H1 : runStep (mkStep StepSync (SVNumber s) (SVReplica s)) s = Some (mkSlotView (SVNumber s) (SVLeader s) (SVReplica s) (SVTerm s) true)).
    { unfold runStep. simpl. by rw String.eqb_refl. }
    split.
    + split_and!; [done|done|]. eexists. by split; [exact H1|].
    + eexists. rw runSteps_cons H1. split; [done|]. unfold recovered. rw Hc. split; [done|].
      intros _. simpl. by split_and!; [| |exists node].
  - assert (Hl : ownerAvailable (Nodes view) (SVLeader s) = true).
    { unfold classifySlot in Hc. rw Ho in Hc. by destruct (SVReady s), (ownerAvailable (Nodes view) (SVLeader s)). }
    destruct (available_usable _ Hl) as (nl & Hnl & Hul). destruct (repairs_run s steps nl Hr Hnl Hul) as (Hrun & v & Hv & Hlv & Hsec).
    split; [done|]. exists v. split; [done|]. unfold recovered. by rw Hc.
  - split; [split_and!; [done|done|by exists s]|]. exists s. split; [done|]. unfold recovered. by rw Hc.
Qed.
End recovery.

Lemma outage_progress `{SliceSortOk, MapRangeOk, PlanDigest} e plan (w : Fleet) :
  outage e plan w ->
  progress e plan (slots (flMeta w)) (LatestView (flState w)) (flUp w) (flMeta w) (version (flMeta w)) [] (Steps plan) w /\
  on_slots (slots (flMeta w)) (Steps plan) /\ Epoch plan = version (flMeta w) /\
  (forall i s, slots (flMeta w) !! i = Some s -> exists steps v, stepsFor (Z.of_nat i) (Steps plan) = steps /\
    slot_plan (LatestView (flState w)) (viewOf s) steps /\ runSteps steps (viewOf s) = Some v /\
    recovered (LatestView (flState w)) (viewOf s) v).
Proof.
  intros [Hplan Hact Hslots Hver Hnum Howners Hknown Hup Hsome Hroom Hindex Hfences Hfaults].
  set (view := LatestView (flState w)) in *.
  assert (Hnumbers : SVNumber <$> ViewSlots view = Z.of_nat <$> seq 0 (length (slots (flMeta w)))).
  { rw Hslots -list_fmap_compose. apply list_eq. intros i. rw !list_lookup_fmap. destruct (slots (flMeta w) !! i) as [s|] eqn:Hi.
    - rw lookup_seq_lt; [by eapply lookup_lt_Some|]. simpl. by rw (proj2 Hnum i s Hi).
    - rw lookup_seq_ge //. by apply lookup_ge_None. }
  assert (Hnd : NoDup (SVNumber <$> ViewSlots view)).
  { rw Hnumbers. apply NoDup_fmap_2; [intros ? ?; lia|apply NoDup_seq]. }
  destruct (failover_plan view Hnd) as (stepss & Hss & Hp). rw Hplan in Hp.
  destruct Hp as (Hsteps & _ & _ & Hdone & Hepoch & _ & _ & _). rw Hver in Hepoch.
  assert (Hslot : forall i s, slots (flMeta w) !! i = Some s -> slot_plan view (viewOf s) (stepsFor (Z.of_nat i) (Steps plan))).
  { intros i s Hi. rw Hsteps -(proj2 Hnum i s Hi). change (Number s) with (SVNumber (viewOf s)).
    eapply stepsFor_slot; [done| |].
    - by rw sortSlots_numbers.
    - apply slice_sort_elem. rw Hslots. apply list_elem_of_fmap_2. by eapply list_elem_of_lookup_2. }
  assert (Hrun := fun i s Hi => slot_plan_run view (fun id => id ∈ flUp w /\ id ∈ clients e) (flMeta w) Hknown Hup (viewOf s) _ (Hslot i s Hi)
    (Howners s (list_elem_of_lookup_2 _ _ _ Hi))).
  split_and!.
  - split; try done.
    + exists plan. split_and!; try done. intros j _. unfold isDone. by rw Hdone lookup_empty.
    + split; [done|]. intros id (node & Hn & Hu)%selectNodes_elem. by apply (Hup id node).
    + simpl. lia.
    + intros st Hin. by apply not_elem_of_nil in Hin.
    + intros i s0 Hi. exists s0, (viewOf s0). split_and!; [done..|]. by destruct (Hrun i s0 Hi).
  - intros st Hst. rw Hsteps in Hst. apply list_elem_of_In, in_concat in Hst as (steps & Hin & Hst).
    apply list_elem_of_In in Hin, Hst. apply list_elem_of_lookup in Hin as [k Hk].
    destruct (Forall2_lookup_r _ _ _ _ _ Hss Hk) as (slot & Hks & Hsp). apply slot_plan_slot in Hsp. rewrite -> Forall_forall in Hsp.
    assert (Hin : slot ∈ ViewSlots view) by (eapply slice_sort_elem; by eapply list_elem_of_lookup_2).
    rw Hslots in Hin. apply list_elem_of_fmap in Hin as (s & -> & [i Hi]%list_elem_of_lookup). exists i, s. split; [done|].
    rw (Hsp st Hst). by apply (proj2 Hnum).
  - done.
  - intros i s Hi. destruct (Hrun i s Hi) as (_ & v & Hv & Hr). eexists _, v. split_and!; [done|by apply Hslot|done..].
Qed.

(** Recovery comes to its end: when the controller has
    committed a view with failed nodes and the failover plan for it, and the
    nodes that the view says are usable answer, one run of the executor carries
    out every step and completes the plan without an error.  Every slot then
    has the owners recovery promises: a surviving ready replica leads the slots
    of failed leaders, every slot with a surviving copy has a ready replica on
    another usable node if there is one, slots with both copies are as before,
    and the slots without a copy are recorded as unavailable. *)
Theorem recovery_completes `{SliceSortOk, MapRangeOk, PlanDigest} (e : ExecutorConfig) (plan : RecoveryPlan) (fuel : nat)
    (last : option Z) (w : Fleet) :
  outage e plan w ->
  exists last' w', ExecuteOnce e (S fuel) (last, w) = Some (inl tt, (last', w')) /\
    ActivePlan (flState w') = None /\ LastCompletedPlanID (flState w') = PlanID plan /\
    forall i s, slots (flMeta w) !! i = Some s ->
      (exists s', slots (flMeta w') !! i = Some s' /\ recovered (LatestView (flState w)) (viewOf s) (viewOf s')) /\
      (classifySlot (Nodes (LatestView (flState w))) (viewOf s) = SlotNoSurvivingCopy ->
       is_Some (Unavailable (flState w') !! Z.of_nat i)).
Proof.
  intros Hout. destruct (outage_progress e plan w Hout) as (Hp & Hon & Hep & Hrec).
  pose proof (out_room _ _ _ Hout) as [Hv0 Hv]. pose proof (out_numbered _ _ _ Hout) as Hnum.
  destruct (ExecuteOnce_fleet e plan (slots (flMeta w)) (LatestView (flState w)) (flUp w) (flMeta w) (version (flMeta w)) fuel last w Hp)
    as (last' & w' & Hx & Hact & Hlast & Hmark & Hslots); [by destruct Hout|done|lia|done|].
  exists last', w'. split_and!; [done..|]. intros i s Hi. destruct (Hrec i s Hi) as (steps & v & Hst & Hsp & Hv1 & Hr). split.
  - destruct (Hslots i s Hi) as (s' & v' & Hs' & Hv' & Hsame). rw Hst Hv1 in Hv'. injection Hv' as <-. exists s'. split; [done|].
    destruct Hsame as (E1 & E2 & E3 & E4). unfold recovered, second_copy, same_slot in *. by rw -E1 -E2 -E3 -E4.
  - intros Hc. inversion Hsp as [Hc'|? Hc'|Hc'|? Hc'|Hc' Heq]; try congruence.
    assert (Hin : mkStep StepMarkUnavailable (SVNumber (viewOf s)) "" ∈ stepsFor (Z.of_nat i) (Steps plan)) by (rw Hst -Heq; left).
    apply list_elem_of_In, filter_In in Hin as [Hin _]. pose proof (Hmark _ (proj2 (list_elem_of_In _ _) Hin) eq_refl) as Hm.
    simpl in Hm. by rw (proj2 Hnum i s Hi) in Hm.
Qed.

(** Three nodes, the first one down. *)
Definition outageSlots : list SlotState :=
  [mkSlot 0 "n1" "n2" 1 5 5 true; mkSlot 1 "n2" "n3" 1 0 0 true; mkSlot 2 "n3" "n1" 1 2 2 true; mkSlot 3 "n1" "n3" 1 0 0 false].
Definition outageMeta : Metadata := mkMetadata "c" 7 4 "n2" [] {["n1"; "n2"; "n3"]} outageSlots.
Definition outageView : ClusterView :=
  mkView "c" 7 (viewOf <$> outageSlots)
    {["n1" := exampleNode "n1" false; "n2" := exampleNode "n2" true; "n3" := exampleNode "n3" true]} 0 zeroStatus.
Definition outagePlan : RecoveryPlan := default zeroPlan (PlanFailover (H1 := plainDigest) outageView).
Definition outageFleet (faults : nat) : Fleet :=
  mkFleet (ApplyLog [(1, CommandObserveView outageView); (2, CommandProposePlan outagePlan)] NewFSM) 2 outageMeta
    {["n2"; "n3"]} ∅ faults 0.
Definition outageExecutor : ExecutorConfig := NewExecutor (mkControllerConfig 100 1000 3 1 1) {["n1"; "n2"; "n3"]}.

Lemma outage_example : outage (H1 := plainDigest) outageExecutor outagePlan (outageFleet 0).
Proof.
  assert (Hnodes : forall id node, Nodes outageView !! id = Some node ->
    id = "n1" /\ node = exampleNode "n1" false \/ id = "n2" /\ node = exampleNode "n2" true \/ id = "n3" /\ node = exampleNode "n3" true).
  { intros id node. unfold outageView. cbn [Nodes]. rw !lookup_insert_Some lookup_empty. naive_solver. }
  split; try by vm_compute.
  - split; [by vm_compute|]. intros i s Hi. by do 4 (destruct i as [|i]; [by injection Hi as <-|]).
  - intros s Hs. change (slots (flMeta (outageFleet 0))) with outageSlots in Hs.
    by repeat (apply elem_of_cons in Hs as [->|Hs]; [|]); [..|apply not_elem_of_nil in Hs].
  - intros id node Hn. change (Nodes (LatestView (flState (outageFleet 0)))) with (Nodes outageView ∪ ∅) in Hn. rw map_union_empty in Hn.
    by destruct (Hnodes id node Hn) as [[-> ->]|[[-> ->]|[-> ->]]].
  - intros id node Hn. change (Nodes (LatestView (flState (outageFleet 0)))) with (Nodes outageView ∪ ∅) in Hn. rw map_union_empty in Hn.
    destruct (Hnodes id node Hn) as [[-> ->]|[[-> ->]|[-> ->]]]; [done|intros _..];
      (split; [split|]; apply (bool_decide_unpack _); vm_compute; exact I).
Qed.

Lemma recovery_completes_witness :
  (match ExecuteOnce outageExecutor 1 (None, outageFleet 0) with
   | Some (inl tt, (_, w')) => (fun s => (LeaderID s, ReplicaID s, ReplicaReady s)) <$> slots (flMeta w') =
       [("n2", "n3", true); ("n2", "n3", true); ("n3", "n2", true); ("n1", "n3", false)]
   | _ => False
   end) /\
  exists last' w', ExecuteOnce outageExecutor 1 (None, outageFleet 0) = Some (inl tt, (last', w')) /\
    ActivePlan (flState w') = None /\ LastCompletedPlanID (flState w') = PlanID outagePlan.
Proof.
  split; [by vm_compute|].
  destruct (recovery_completes (H3 := plainDigest) outageExecutor outagePlan 0 None (outageFleet 0) outage_example)
    as (last' & w' & Hx & Ha & Hl & _).
  exact (ex_intro _ last' (ex_intro _ w' (conj Hx (conj Ha Hl)))).
Defined.

(** ** A step that failed *)

(** The fleet after a run in which one transfer of data failed. *)
Definition stuckFleet : Fleet :=
  match ExecuteOnce outageExecutor 1 (None, outageFleet 1) with Some (_, (_, w)) => w | None => outageFleet 0 end.
Definition stuckPlan : RecoveryPlan := default zeroPlan (ActivePlan (flState stuckFleet)).

Lemma bind_error {W A B} (m : X (W := W) A) (f : A -> X (W := W) B) x err x' :
  m x = Some (inr err, x') -> (m ≫= f) x = Some (inr err, x').
Proof. unfold mbind, X_bind. by intros ->. Qed.

Lemma later_now w : later (flTime w) w = w.
Proof. by destruct w. Qed.
Lemma stuck_step last t :
  exists last' t', executeTopologyStep outageExecutor 1 (PlanID stuckPlan) stuckPlan (mkStep StepSync 0 "n3") (last, later t stuckFleet) =
    Some (inr (NotReached StepSync 0), (last', later t' stuckFleet)).
Proof.
  unfold executeTopologyStep. cbn [StKind]. rw bool_decide_eq_true_2 //.
  destruct (waitForSyncRate_fleet outageExecutor last (later t stuckFleet)) as (last' & t' & Hs). exists last', t'.
  rw (X_bind_ok _ _ _ _ _ Hs). vm_compute. reflexivity.
Qed.
Lemma stuck_run last t :
  exists last' t', ExecuteOnce outageExecutor 1 (last, later t stuckFleet) =
    Some (inr (NotReached StepSync 0), (last', later t' stuckFleet)).
Proof.
  assert (Ha : ActivePlan (State (flState (later t stuckFleet))) = Some stuckPlan) by (vm_compute; reflexivity).
  assert (Hl : length (Steps stuckPlan) = 6%nat) by (vm_compute; reflexivity).
  assert (Hp : activePlan (PlanID stuckPlan) (last, later t stuckFleet) =
    Some (inl (State (flState (later t stuckFleet)), stuckPlan), (last, later t stuckFleet))) by (by apply activePlan_fleet).
  assert (Hskip : forall i, isDone stuckPlan i = true ->
    executeStep outageExecutor 1 (PlanID stuckPlan) i (last, later t stuckFleet) = Some (inl tt, (last, later t stuckFleet))).
  { intros i Hi. unfold executeStep. rw (X_bind_ok _ _ _ _ _ Hp). cbv iota beta. by rw Hi. }
  assert (H2 : isDone stuckPlan (0 + 1 + 1) = false) by (vm_compute; reflexivity).
  assert (H3 : Steps stuckPlan !! Z.to_nat (0 + 1 + 1) = Some (mkStep StepSync 0 "n3")) by (vm_compute; reflexivity).
  destruct (stuck_step last t) as (last' & t' & Hs). exists last', t'. unfold ExecuteOnce. rw bind_world. cbn [IsLeader fleetProposer fst snd negb].
  rw bind_world. cbn [ProposerState fst snd]. rw Ha. apply bind_error. rw Hl. cbn [executeSteps].
  rw (X_bind_ok _ _ _ _ _ (Hskip 0 ltac:(vm_compute; reflexivity))) (X_bind_ok _ _ _ _ _ (Hskip (0 + 1) ltac:(vm_compute; reflexivity))).
  apply bind_error. unfold executeStep. rw (X_bind_ok _ _ _ _ _ Hp). cbv iota beta. rw H2 H3. cbn [StKind].
  rw (bool_decide_eq_false_2 (StepSync = StepMarkUnavailable)); [discriminate|]. apply bind_error. exact Hs.
Qed.

(** A step that fails is not carried out again at its
    control index: the fence of the node took the index with the failed
    request, and answers the same request as done, without an effect.  Here one
    transfer of data fails and the next would work; every later run of the
    executor sends the request again, reports that the step did not reach its
    postcondition, and changes nothing but the time, until something else is
    committed and moves the control index. *)
Theorem failed_step_repeats :
  exists last w, ExecuteOnce outageExecutor 1 (None, outageFleet 1) =
      Some (inr (CallFailed StepSync 0 "400 Bad Request"), (last, w)) /\ flFaults w = O /\
    forall n, exists last' t', Nat.iter n (fun x => snd <$> x ≫= ExecuteOnce outageExecutor 1) (Some (last, w)) = Some (last', later t' w) /\
      exists x, ExecuteOnce outageExecutor 1 (last', later t' w) = Some (inr (NotReached StepSync 0), x).
Proof.
  assert (exists last, ExecuteOnce outageExecutor 1 (None, outageFleet 1) =
    Some (inr (CallFailed StepSync 0 "400 Bad Request"), (last, stuckFleet))) as (last & Hx) by (eexists; vm_compute; reflexivity).
  exists last, stuckFleet. split; [exact Hx|]. split; [by vm_compute|]. intros n.
  assert (exists last' t', Nat.iter n (fun x => snd <$> x ≫= ExecuteOnce outageExecutor 1) (Some (last, stuckFleet)) =
    Some (last', later t' stuckFleet)) as (last' & t' & Hn).
  { induction n as [|n (last' & t' & IH)]; [exists last, (flTime stuckFleet); by rw later_now|].
    destruct (stuck_run last' t') as (last2 & t2 & Hs). exists last2, t2. rw Nat.iter_succ IH. cbn [mbind option_bind]. rw Hs.
    reflexivity. }
  exists last', t'. split; [exact Hn|]. destruct (stuck_run last' t') as (last2 & t2 & Hs). eexists. exact Hs.
Qed.
