(* ===== verification/ControlFSMSpec.v ===== *)
(** * Properties of the controller's replicated state *)
From S2P Require Import Prelude GoText Store Metadata Topology ControlFSM Planner PlannerSpec.
From S2P Require Import Observer ControlExecutor ControlExecutorSpec AdminNode Recovery.
Local Open Scope Z_scope.

(** ** Snapshots of the log *)

Definition stateSlots (s : FSMSnapshot) : nat := length (ViewSlots (LatestView s)).
Definition observes (n : nat) (command : Command) : Prop :=
  match command with CommandObserveView view => length (ViewSlots view) = n | _ => True end.

Lemma decodeSlots_length old new : length (decodeSlots old new) = length new.
Proof. revert old. induction new as [|s new IH]; intros old; simpl; [done|]. by rw IH. Qed.
Lemma updatePlanStatus_stale s : staleSlots (updatePlanStatus s) = staleSlots s /\ stateSlots (updatePlanStatus s) = stateSlots s.
Proof. unfold updatePlanStatus. by repeat case_match. Qed.

(** Views of [n] slots leave nothing behind in the array. *)
Lemma Apply_stale n index command s :
  observes n command -> staleSlots s = [] -> stateSlots s = O \/ stateSlots s = n ->
  staleSlots (Apply index command s).2 = [] /\ (stateSlots (Apply index command s).2 = O \/ stateSlots (Apply index command s).2 = n).
Proof.
  intros Hobs Hst Hlen.
  assert (Hup : forall p, staleSlots (updatePlanStatus (setPlan p s)) = [] /\
    (stateSlots (updatePlanStatus (setPlan p s)) = O \/ stateSlots (updatePlanStatus (setPlan p s)) = n)).
  { intros p. destruct (updatePlanStatus_stale (setPlan p s)) as [-> ->]. done. }
  destruct command; unfold Apply; simpl; unfold withActive.
  - set (t := setOperation _ _). destruct (updatePlanStatus_stale t) as [-> ->]. unfold t. simpl. rw Hst app_nil_r. split.
    + destruct (ViewSlots view) as [|v vs] eqn:Hv; [done|]. apply drop_ge. simpl in Hobs. rw Hv in Hobs. unfold stateSlots in Hlen.
      cbn [length] in *. lia.
    + right. unfold stateSlots. simpl. by rw decodeSlots_length.
  - apply Hup.
  - destruct (ActivePlan s); [|done]. destruct (String.eqb _ _); [|done]. destruct (_ || _); [done|]. apply Hup.
  - destruct (ActivePlan s); [|done]. by destruct (String.eqb _ _).
  - destruct (ActivePlan s); [|done]. destruct (String.eqb _ _); [|done]. destruct (String.eqb _ _); [done|]. apply Hup.
  - apply Hup.
  - done.
  - by destruct (String.eqb _ _).
Qed.
Lemma ApplyLog_stale n log s :
  Forall (fun p => observes n p.2) log -> staleSlots s = [] -> stateSlots s = O \/ stateSlots s = n ->
  staleSlots (ApplyLog log s) = [] /\ (stateSlots (ApplyLog log s) = O \/ stateSlots (ApplyLog log s) = n).
Proof.
  intros Hlog. revert s. induction Hlog as [|[index command] log Ho _ IH]; intros s Hst Hlen; [done|].
  destruct (Apply_stale n index command s Ho Hst Hlen). by apply IH.
Qed.

(** A controller that starts from a snapshot of
    the replicated state and is fed the rest of the log reaches the state of a
    controller that applied the whole log, when all views have the same number
    of slots, as they do in a cluster. *)
Theorem restored_controller_agrees (n : nat) (before after : list (Z * Command)) :
  Forall (fun p => observes n p.2) before ->
  ApplyLog after (State (ApplyLog before NewFSM)) = ApplyLog (before ++ after) NewFSM.
Proof.
  intros Hb. unfold ApplyLog at 3. rw foldl_app. fold (ApplyLog before NewFSM). fold (ApplyLog after (ApplyLog before NewFSM)). f_equal.
  destruct (ApplyLog_stale n before NewFSM Hb) as [Hst _]; [done|by left|]. unfold State. destruct (ApplyLog before NewFSM). simpl in *. by subst.
Qed.

Lemma restored_controller_agrees_witness :
  ApplyLog [(3, CommandPlanComplete (PlanID outagePlan))]
    (State (ApplyLog [(1, CommandObserveView outageView); (2, CommandProposePlan outagePlan)] NewFSM)) =
  ApplyLog ([(1, CommandObserveView outageView); (2, CommandProposePlan outagePlan)] ++ [(3, CommandPlanComplete (PlanID outagePlan))]) NewFSM.
Proof. apply (restored_controller_agrees 4). repeat constructor. Defined.

(** ** What an observation leaves behind *)

Lemma updatePlanStatus_view s :
  FailedNodes (Status (LatestView (updatePlanStatus s))) = FailedNodes (Status (LatestView s)) /\
  ViewSlots (LatestView (updatePlanStatus s)) = ViewSlots (LatestView s).
Proof. unfold updatePlanStatus. by repeat case_match. Qed.
Lemma decodeSlots_lookup old new i o s :
  old !! i = Some o -> new !! i = Some s -> decodeSlots old new !! i =
    Some (mkSlotView (SVNumber s) (SVLeader s) (keepEmpty (SVReplica o) (SVReplica s)) (SVTerm s) (SVReady s)).
Proof.
  revert old i. induction new as [|s' new IH]; intros [|o' old] [|i] Ho Hs; simplify_eq/=; [done|]. by apply IH.
Qed.

(** The cluster of three nodes while the first goes down and the third comes
    back: before, down with the third still recovering, and after the second
    was promoted, with the third admitted. *)
Definition staleView (version : Z) (up third : bool) (slot : SlotView) : ClusterView :=
  mkView "c" version [slot]
    {["n1" := exampleNode "n1" up; "n2" := exampleNode "n2" true; "n3" := mkNodeView "n3" true false 0 0 0 third (negb third)]} 0
    (mkStatus "" (if up then [] else ["n1"]) [] 0 0 "").
Definition staleBefore : ClusterView := staleView 7 true false (mkSlotView 0 "n1" "n2" 1 true).
Definition staleDown : ClusterView := staleView 7 false false (mkSlotView 0 "n1" "n2" 1 true).
Definition staleAfter : ClusterView := staleView 8 false true (mkSlotView 0 "n2" "" 2 false).

Definition planSteps (view : ClusterView) : list PlanStep := Steps (default zeroPlan (PlanFailover (H1 := plainDigest) view)).
Definition staleLog : list (Z * Command) :=
  [(1, CommandObserveView staleBefore); (2, CommandObserveView staleDown); (3, CommandObserveView staleAfter)].
Definition staleFleet : Fleet :=
  let s := ApplyLog staleLog NewFSM in
  let plan := default zeroPlan (PlanFailover (H1 := plainDigest) (LatestView s)) in
  mkFleet (ApplyLog [(4, CommandProposePlan plan)] s) 4
    (mkMetadata "c" 8 1 "n2" [] {["n1"; "n2"; "n3"]} [mkSlot 0 "n2" "" 2 0 0 false]) {["n2"; "n3"]} ∅ 0 0.

(** Committing an observed view does not replace
    the stored one: a slot that the cluster reports without a replica keeps the
    replica it had before, and once nodes have failed the list of failed nodes
    is never emptied.  After a promotion the stored replica is the new leader
    itself, so the planner asks for a synchronisation of the leader with
    itself, which the node refuses, where the observed view asks for a new
    replica. *)
Theorem observation_keeps_stale :
  (forall index view s, FailedNodes (Status view) = [] ->
    FailedNodes (Status (LatestView (Apply index (CommandObserveView view) s).2)) = FailedNodes (Status (LatestView s))) /\
  (forall index view s i old new, ViewSlots (LatestView s) !! i = Some old -> ViewSlots view !! i = Some new -> SVReplica new = "" ->
    SVReplica <$> ViewSlots (LatestView (Apply index (CommandObserveView view) s).2) !! i = Some (SVReplica old)) /\
  planSteps staleAfter = [mkStep StepAssignReplica 0 "n3"; mkStep StepSync 0 "n3"] /\
  planSteps (LatestView (ApplyLog staleLog NewFSM)) = [mkStep StepSync 0 "n2"] /\
  fst <$> ExecuteOnce outageExecutor 1 (None, staleFleet) = Some (inr (CallFailed StepSync 0 "400 Bad Request")).
Proof.
  split_and!; [| |by vm_compute..].
  - intros index view s Hf. unfold Apply. simpl. rw (proj1 (updatePlanStatus_view _)). simpl. by rw Hf.
  - intros index view s i old new Ho Hn Hr. unfold Apply. simpl. rw (proj2 (updatePlanStatus_view _)). simpl.
    rw (decodeSlots_lookup _ _ _ old new) //; [by apply lookup_app_l_Some|]. simpl. by rw Hr.
Qed.
