(* ===== verification/ControlJson.v ===== *)
(** * The controller's state as JSON: [internal/controller/types.go] and the
    snapshots and log entries of [fsm.go]

    Raft keeps commands and snapshots as bytes.  The kinds of steps and plans are
    inductive types here, so that only the names of the program decode.  A slice
    without elements is written as [null], as a nil slice is; an empty slice that
    is not nil is written as [[]], which reads back the same. *)
From S2P Require Import Prelude Encoding GoText GoTime Json JsonCodec JsonPrefix Topology ControlFSM.
Local Open Scope Z_scope.

(** ** Maps, pointers and slices *)

(** Maps are written in the order of their keys' texts. *)
Definition byText {A} (a b : string * A) : bool := negb (sltb b.1 a.1).
Definition encMap {K A} `{Countable K} (key : K -> string) (enc : A -> Json) (m : gmap K A) : Json :=
  JObj (merge_sort byText ((fun p => (key p.1, enc p.2)) <$> map_to_list m)).
(** A map with integer keys. *)
Fixpoint decEntriesZ {A} (key : string -> option Z) (zero : A) (dec : Dec A) (ms : list (string * Json)) (m : gmap Z A) : option (gmap Z A) :=
  match ms with
  | [] => Some m
  | (k, j) :: ms => k ← key k; x ← dec j zero; decEntriesZ key zero dec ms (<[k := x]> m)
  end.
Definition decMapZ {A} (key : string -> option Z) (zero : A) (dec : Dec A) : Dec (gmap Z A) := fun j old =>
  match j with JNull => Some ∅ | JObj ms => decEntriesZ key zero dec ms old | _ => None end.
Definition key32 (k : string) : option Z := n ← ParseUint k; if n <=? 4294967295 then Some n else None.
Definition keyInt (k : string) : option Z := ParseInt k.

Definition decPtr {A} (zero : A) (dec : Dec A) : Dec (option A) := fun j old =>
  match j with JNull => Some None | _ => x ← dec j (default zero old); Some (Some x) end.
Definition omitPtr {A} (name : string) (enc : A -> Json) (p : option A) : list (string * Json) :=
  match p with None => [] | Some x => [(name, enc x)] end.
Definition encSlice {A} (enc : A -> Json) (l : list A) : Json := match l with [] => JNull | _ => JArr (map enc l) end.
Definition decList {A} (zero : A) (dec : Dec A) : Dec (list A) := fun j old => visible <$> decSlice zero dec j (mkSlice old []).

(** ** Views *)

Definition nodeViewJson (n : NodeView) : Json :=
  JObj ([("id", JStr (NodeViewID n)); ("reachable", JBool (Reachable n)); ("suspected", JBool (Suspected n));
         ("consecutiveFails", encInt (ConsecFails n)); ("leaderSlots", encInt (LeaderSlots n));
         ("replicaSlots", encInt (ReplicaSlots n)); ("eligible", JBool (Eligible n))] ++ omitBool "returning" (Returning n)).
Definition decNodeView : Dec NodeView :=
  decStruct false ["id"; "reachable"; "suspected"; "consecutiveFails"; "leaderSlots"; "replicaSlots"; "eligible"; "returning"] (fun get n =>
    id ← get _ "id" decString (NodeViewID n); reachable ← get _ "reachable" decBool (Reachable n);
    suspected ← get _ "suspected" decBool (Suspected n); fails ← get _ "consecutiveFails" decInt64 (ConsecFails n);
    leaders ← get _ "leaderSlots" decInt64 (LeaderSlots n); replicas ← get _ "replicaSlots" decInt64 (ReplicaSlots n);
    eligible ← get _ "eligible" decBool (Eligible n); returning ← get _ "returning" decBool (Returning n);
    Some (mkNodeView id reachable suspected fails leaders replicas eligible returning)).
Definition zeroNodeView : NodeView := mkNodeView "" false false 0 0 0 false false.

Definition slotViewJson (s : SlotView) : Json :=
  JObj ([("number", encUint (SVNumber s)); ("leaderId", JStr (SVLeader s))] ++ omitString "replicaId" (SVReplica s) ++
        [("term", encUint (SVTerm s)); ("replicaReady", JBool (SVReady s))]).
Definition decSlotView : Dec SlotView :=
  decStruct false ["number"; "leaderId"; "replicaId"; "term"; "replicaReady"] (fun get s =>
    number ← get _ "number" decUint32 (SVNumber s); leader ← get _ "leaderId" decString (SVLeader s);
    replica ← get _ "replicaId" decString (SVReplica s); term ← get _ "term" decUint64 (SVTerm s);
    ready ← get _ "replicaReady" decBool (SVReady s); Some (mkSlotView number leader replica term ready)).
Definition zeroSlotView : SlotView := mkSlotView 0 "" "" 0 false.

Definition statusJson (s : StatusSummary) : Json :=
  JObj ([("state", JStr (SState s))] ++ omitList "failedNodes" JStr (FailedNodes s) ++ omitList "suspectedNodes" JStr (SuspectedNodes s) ++
        [("degradedSlots", encInt (DegradedSlots s)); ("unavailableSlots", encInt (UnavailableSlots s))] ++
        omitString "latestCommittedOperation" (LatestCommittedOperation s)).
Definition decStatus : Dec StatusSummary :=
  decStruct false ["state"; "failedNodes"; "suspectedNodes"; "degradedSlots"; "unavailableSlots"; "latestCommittedOperation"] (fun get s =>
    state ← get _ "state" decString (SState s); failed ← get _ "failedNodes" (decList "" decString) (FailedNodes s);
    suspected ← get _ "suspectedNodes" (decList "" decString) (SuspectedNodes s);
    degraded ← get _ "degradedSlots" decInt64 (DegradedSlots s); unavailable ← get _ "unavailableSlots" decInt64 (UnavailableSlots s);
    op ← get _ "latestCommittedOperation" decString (LatestCommittedOperation s);
    Some (mkStatus state failed suspected degraded unavailable op)).

Definition viewJson (v : ClusterView) : option Json :=
  observed ← timeText (ObservedAt v);
  Some (JObj [("clusterId", JStr (ViewClusterID v)); ("metadataVersion", encUint (MetadataVersion v));
              ("slots", encSlice slotViewJson (ViewSlots v)); ("nodes", encMap id nodeViewJson (Nodes v));
              ("observedAt", JStr observed); ("status", statusJson (Status v))]).
(** The view, with the array behind its slots. *)
Definition decView : Dec (ClusterView * list SlotView) :=
  decStruct false ["clusterId"; "metadataVersion"; "slots"; "nodes"; "observedAt"; "status"] (fun get p =>
    let '(v, stale) := p in
    id ← get _ "clusterId" decString (ViewClusterID v); version ← get _ "metadataVersion" decUint64 (MetadataVersion v);
    slots ← get _ "slots" (decSlice zeroSlotView decSlotView) (mkSlice (ViewSlots v) stale);
    nodes ← get _ "nodes" (decMap zeroNodeView decNodeView) (Nodes v); observed ← get _ "observedAt" decTime (ObservedAt v);
    status ← get _ "status" decStatus (Status v);
    Some (mkView id version (visible slots) nodes observed status, hidden slots)).

(** ** Plans *)

Definition StepKindText (k : StepKind) : string :=
  match k with StepPromote => "promote" | StepAssignReplica => "assign_replica" | StepSync => "sync" | StepMarkUnavailable => "mark_unavailable" end.
Definition decStepKind : Dec StepKind := fun j old =>
  match j with
  | JStr s => List.find (fun k => String.eqb (StepKindText k) s) [StepPromote; StepAssignReplica; StepSync; StepMarkUnavailable]
  | JNull => Some old
  | _ => None
  end.
Definition decPlanKind : Dec PlanKind := fun j old =>
  match j with
  | JStr s => List.find (fun k => String.eqb (PlanKindText k) s) [PlanKindRecovery; PlanKindRebalance]
  | JNull => Some old
  | _ => None
  end.

Definition stepJson (s : PlanStep) : Json :=
  JObj [("kind", JStr (StepKindText (StKind s))); ("slot", encUint (StSlot s)); ("target", JStr (StTarget s))].
Definition zeroStep : PlanStep := mkStep StepPromote 0 "".
Definition decStep : Dec PlanStep := decStruct false ["kind"; "slot"; "target"] (fun get s =>
  kind ← get _ "kind" decStepKind (StKind s); slot ← get _ "slot" decUint32 (StSlot s); target ← get _ "target" decString (StTarget s);
  Some (mkStep kind slot target)).

Definition planJson (p : RecoveryPlan) : Json :=
  JObj ([("id", JStr (PlanID p)); ("kind", JStr (PlanKindText (PKind p))); ("reason", JStr (Reason p)); ("epoch", encUint (Epoch p));
         ("deadNodes", encSlice JStr (DeadNodes p)); ("steps", encSlice stepJson (Steps p)); ("done", encMap FormatInt JBool (Done p));
         ("unrecoverable", encSlice encUint (Unrecoverable p))] ++ omitList "writeBlockedSlots" encUint (WriteBlockedSlots p)).
Definition emptyPlan : RecoveryPlan := mkPlan "" PlanKindRecovery "" 0 [] [] ∅ [] [].
Definition decPlan : Dec RecoveryPlan :=
  decStruct false ["id"; "kind"; "reason"; "epoch"; "deadNodes"; "steps"; "done"; "unrecoverable"; "writeBlockedSlots"] (fun get p =>
    id ← get _ "id" decString (PlanID p); kind ← get _ "kind" decPlanKind (PKind p); reason ← get _ "reason" decString (Reason p);
    epoch ← get _ "epoch" decUint64 (Epoch p); dead ← get _ "deadNodes" (decList "" decString) (DeadNodes p);
    steps ← get _ "steps" (decList zeroStep decStep) (Steps p); done ← get _ "done" (decMapZ keyInt false decBool) (Done p);
    lost ← get _ "unrecoverable" (decList 0 decUint32) (Unrecoverable p);
    blocked ← get _ "writeBlockedSlots" (decList 0 decUint32) (WriteBlockedSlots p);
    Some (mkPlan id kind reason epoch dead steps done lost blocked)).

Definition unavailableJson (u : UnavailableSlot) : Json :=
  JObj [("slot", encUint (USlot u)); ("leaderId", JStr (ULeader u)); ("replicaId", JStr (UReplica u)); ("failures", encSlice JStr (UFailures u))].
Definition zeroUnavailable : UnavailableSlot := mkUnavailable 0 "" "" [].
Definition decUnavailable : Dec UnavailableSlot := decStruct false ["slot"; "leaderId"; "replicaId"; "failures"] (fun get u =>
  slot ← get _ "slot" decUint32 (USlot u); leader ← get _ "leaderId" decString (ULeader u); replica ← get _ "replicaId" decString (UReplica u);
  failures ← get _ "failures" (decList "" decString) (UFailures u); Some (mkUnavailable slot leader replica failures)).
Definition completedJson (c : CompletedPlan) : Json :=
  JObj [("id", JStr (CPID c)); ("kind", JStr (PlanKindText (CPKind c))); ("epoch", encUint (CPEpoch c)); ("controlIndex", encUint (CPControlIndex c))].
Definition zeroCompleted : CompletedPlan := mkCompleted "" PlanKindRecovery 0 0.
Definition decCompleted : Dec CompletedPlan := decStruct false ["id"; "kind"; "epoch"; "controlIndex"] (fun get c =>
  id ← get _ "id" decString (CPID c); kind ← get _ "kind" decPlanKind (CPKind c); epoch ← get _ "epoch" decUint64 (CPEpoch c);
  index ← get _ "controlIndex" decUint64 (CPControlIndex c); Some (mkCompleted id kind epoch index)).

(** ** The replicated state *)

Definition fsmJson (s : FSMSnapshot) : option Json :=
  view ← viewJson (LatestView s);
  Some (JObj ([("latestView", view)] ++ omitPtr "activePlan" planJson (ActivePlan s) ++ [("controlIndex", encUint (ControlIndex s));
    ("unavailable", encMap FormatUint unavailableJson (Unavailable s)); ("returningNodes", encMap id JBool (ReturningNodes s))] ++
    omitString "lastCompletedPlanId" (LastCompletedPlanID s) ++ omitPtr "lastRebalance" completedJson (LastRebalance s))).
Definition zeroFSM : FSMSnapshot := mkFSM zeroView [] None 0 ∅ ∅ "" None.
Definition decFSM : Dec FSMSnapshot :=
  decStruct false ["latestView"; "activePlan"; "controlIndex"; "unavailable"; "returningNodes"; "lastCompletedPlanId"; "lastRebalance"] (fun get s =>
    view ← get _ "latestView" decView (LatestView s, staleSlots s); plan ← get _ "activePlan" (decPtr emptyPlan decPlan) (ActivePlan s);
    index ← get _ "controlIndex" decUint64 (ControlIndex s);
    unavailable ← get _ "unavailable" (decMapZ key32 zeroUnavailable decUnavailable) (Unavailable s);
    returning ← get _ "returningNodes" (decMap false decBool) (ReturningNodes s);
    last ← get _ "lastCompletedPlanId" decString (LastCompletedPlanID s);
    rebalance ← get _ "lastRebalance" (decPtr zeroCompleted decCompleted) (LastRebalance s);
    Some (mkFSM view.1 view.2 plan index unavailable returning last rebalance)).

(** [json.Marshal] of a state; the errors of [cloneState] are ignored. *)
Definition marshalFSM (s : FSMSnapshot) : option string := printJson <$> fsmJson s.
Definition cloneState (s : FSMSnapshot) : FSMSnapshot :=
  match marshalFSM s with
  | None => zeroFSM
  | Some raw => default zeroFSM (parseJson raw ≫= fun j => decFSM j zeroFSM)
  end.
(** [FSM.Snapshot] with what [Persist] writes, and [FSM.Restore]: the first value
    of the stream. *)
Definition SnapshotBytes (s : FSMSnapshot) : option string := marshalFSM (cloneState s).
Definition Restore (raw : string) : option FSMSnapshot :=
  '(j, _) ← nextJson raw; s ← decFSM j zeroFSM; Some (cloneState s).

(** ** Commands *)

Definition commandPayload (c : Command) : option Json :=
  match c with
  | CommandObserveView view => viewJson view
  | CommandProposePlan plan | CommandProposeRebalance plan => Some (planJson plan)
  | CommandStepDone planID index => Some (JObj [("planId", JStr planID); ("stepIndex", encInt index)])
  | CommandPlanComplete planID => Some (JObj [("planId", JStr planID)])
  | CommandSupersedePlan oldID plan => Some (JObj [("oldPlanId", JStr oldID); ("newPlan", planJson plan)])
  | CommandMarkUnavailable slots => Some (encSlice unavailableJson slots)
  | CommandAdmitReturningNode id admitted => Some (JObj [("nodeId", JStr id); ("admitted", JBool admitted)])
  end.
(** [NewCommand] and what [Propose] gives to Raft. *)
Definition marshalCommand (c : Command) : option string :=
  payload ← commandPayload c; Some (printJson (JObj [("type", JStr (CommandType c)); ("payload", payload)])).

(** A [json.RawMessage] is the text of a value. *)
Definition decRaw : Dec (option Json) := fun j _ => Some (Some j).
Definition decCommand : Dec (string * option Json) := decStruct false ["type"; "payload"] (fun get p =>
  type ← get _ "type" decString p.1; payload ← get _ "payload" decRaw p.2; Some (type, payload)).
Definition decStepDone : Dec (string * Z) := decStruct false ["planId"; "stepIndex"] (fun get p =>
  id ← get _ "planId" decString p.1; index ← get _ "stepIndex" decInt64 p.2; Some (id, index)).
Definition decPlanID : Dec string := decStruct false ["planId"] (fun get p => get _ "planId" decString p).
Definition decSupersede : Dec (string * RecoveryPlan) := decStruct false ["oldPlanId"; "newPlan"] (fun get p =>
  id ← get _ "oldPlanId" decString p.1; plan ← get _ "newPlan" decPlan p.2; Some (id, plan)).
Definition decReturning : Dec (string * bool) := decStruct false ["nodeId"; "admitted"] (fun get p =>
  id ← get _ "nodeId" decString p.1; admitted ← get _ "admitted" decBool p.2; Some (id, admitted)).

(** The command of a log entry, for the entries other than views. *)
Definition commandOf (type : string) (payload : Json) : option Command :=
  if String.eqb type "propose_plan" then CommandProposePlan <$> decPlan payload emptyPlan
  else if String.eqb type "propose_rebalance" then CommandProposeRebalance <$> decPlan payload emptyPlan
  else if String.eqb type "step_done" then '(id, index) ← decStepDone payload ("", 0); Some (CommandStepDone id index)
  else if String.eqb type "plan_complete" then CommandPlanComplete <$> decPlanID payload ""
  else if String.eqb type "supersede_plan" then '(id, plan) ← decSupersede payload ("", emptyPlan); Some (CommandSupersedePlan id plan)
  else if String.eqb type "mark_unavailable" then CommandMarkUnavailable <$> decList zeroUnavailable decUnavailable payload []
  else if String.eqb type "admit_returning_node" then '(id, admitted) ← decReturning payload ("", false); Some (CommandAdmitReturningNode id admitted)
  else None.

(** [FSM.Apply] on the bytes of a log entry.  A view is decoded into the view
    that is there; [None] is an entry that does not decode. *)
Definition ApplyEntry (index : Z) (data : string) (s : FSMSnapshot) : option (option FSMErr * FSMSnapshot) :=
  j ← parseJson data;
  '(type, payload) ← decCommand j ("", None);
  payload ← payload;
  if String.eqb type "observe_view" then
    '(view, stale) ← decView payload (LatestView s, staleSlots s);
    let s' := setIndex index false (setView view stale s) in
    Some (None, updatePlanStatus (setOperation (LatestCommittedOperation (Status (LatestView s))) s'))
  else command ← commandOf type payload; Some (Apply index command s).
