(* ===== verification/ControlJsonSpec.v ===== *)
(** * The controller's log and snapshots are read back

    What the controller writes to Raft decodes to the commands and states it was
    made from, so that a controller that restarts agrees with one that did not. *)
From S2P Require Import Prelude Encoding GoText GoTime Json JsonCodec JsonPrefix Topology ControlFSM ControlFSMSpec ControlJson.
Local Open Scope Z_scope.

(** ** Maps and slices *)

Lemma encMap_list {K A} `{Countable K} (key : K -> string) (enc : A -> Json) (m : gmap K A) :
  exists l, encMap key enc m = JObj (map (fun p => (key p.1, enc p.2)) l) /\ l ≡ₚ map_to_list m.
Proof.
  unfold encMap. pose proof (merge_sort_Permutation byText ((fun p => (key p.1, enc p.2)) <$> map_to_list m)) as Hp.
  apply Permutation_map_inv in Hp as (l & Hl & Hperm). exists l. by rw Hl.
Qed.
Lemma list_to_map_perm {K A} `{Countable K} (l : list (K * A)) (m : gmap K A) : l ≡ₚ map_to_list m -> list_to_map l = m /\ NoDup l.*1.
Proof.
  intros Hl. assert (Hn : NoDup l.*1) by (rw Hl; apply NoDup_fst_map_to_list). split; [|done].
  rw -(list_to_map_to_list m). by apply list_to_map_proper.
Qed.
Lemma faithful_encMap {K A} `{Countable K} d (key : K -> string) (enc : A -> Json) (m : gmap K A) :
  (forall k, utf8 (key k)) \/ map_Forall (fun k _ => utf8 (key k)) m -> map_Forall (fun _ v => faithful d (enc v)) m -> faithful (S d) (encMap key enc m).
Proof.
  intros Hk Hv. destruct (encMap_list key enc m) as (l & -> & Hl). apply faithful_obj, Forall_map, Forall_forall. intros [k v] Hin.
  rw Hl in Hin. apply elem_of_map_to_list in Hin. cbn. split; [|by eapply Hv]. destruct Hk as [Hk|Hk]; [done|by eapply Hk].
Qed.
Lemma decEntries_enc {A} (zero : A) (dec : Dec A) (enc : A -> Json) l m :
  NoDup l.*1 -> Forall (fun p => dec (enc p.2) zero = Some p.2) l ->
  decEntries zero dec (map (fun p => (p.1, enc p.2)) l) m = Some (list_to_map l ∪ m).
Proof.
  intros Hn Hl. revert m. induction Hl as [|[k v] l Hv Hl IH]; intros m; [by rw left_id_L|]. cbn in Hn. apply NoDup_cons in Hn as [Hk Hn].
  cbn [map decEntries fst snd] in *. rw Hv. cbn. rw IH //. f_equal.
  rw /= -insert_union_l insert_union_r //. by apply not_elem_of_list_to_map_1.
Qed.
Lemma decMap_enc {A} (zero : A) (dec : Dec A) (enc : A -> Json) (m old : gmap string A) :
  map_Forall (fun _ v => dec (enc v) zero = Some v) m -> decMap zero dec (encMap id enc m) old = Some (m ∪ old).
Proof.
  intros Hm. destruct (encMap_list id enc m) as (l & -> & Hl). destruct (list_to_map_perm l m Hl) as [<- Hn]. apply decEntries_enc; [done|].
  apply Forall_forall. intros [k v] Hin. rw Hl in Hin. apply elem_of_map_to_list in Hin. by eapply Hm.
Qed.
Lemma decEntriesZ_enc {A} (key : string -> option Z) (text : Z -> string) (zero : A) (dec : Dec A) (enc : A -> Json) l m :
  NoDup l.*1 -> Forall (fun p => key (text p.1) = Some p.1 /\ dec (enc p.2) zero = Some p.2) l ->
  decEntriesZ key zero dec (map (fun p => (text p.1, enc p.2)) l) m = Some (list_to_map l ∪ m).
Proof.
  intros Hn Hl. revert m. induction Hl as [|[k v] l [Hk0 Hv] Hl IH]; intros m; [by rw left_id_L|]. cbn in Hn. apply NoDup_cons in Hn as [Hk Hn].
  cbn [map decEntriesZ fst snd] in *. rw Hk0. cbn. rw Hv. cbn. rw IH //. f_equal. rw /= -insert_union_l insert_union_r //. by apply not_elem_of_list_to_map_1.
Qed.
Lemma decMapZ_enc {A} (key : string -> option Z) (text : Z -> string) (zero : A) (dec : Dec A) (enc : A -> Json) (m old : gmap Z A) :
  map_Forall (fun k v => key (text k) = Some k /\ dec (enc v) zero = Some v) m -> decMapZ key zero dec (encMap text enc m) old = Some (m ∪ old).
Proof.
  intros Hm. destruct (encMap_list text enc m) as (l & -> & Hl). destruct (list_to_map_perm l m Hl) as [<- Hn]. apply decEntriesZ_enc; [done|].
  apply Forall_forall. intros [k v] Hin. rw Hl in Hin. apply elem_of_map_to_list in Hin. by apply Hm in Hin.
Qed.

Lemma decElements_over {A} (zero : A) (dec : Dec A) (enc : A -> Json) l array :
  Forall (fun x => forall old, dec (enc x) old = Some x) l -> decElements zero dec (map enc l) array = Some l.
Proof. intros Hl. revert array. induction Hl as [|x l Hx Hl IH]; intros array; [done|]. cbn [map decElements]. by rw Hx /= IH. Qed.
Lemma decList_enc {A} (zero : A) (dec : Dec A) (enc : A -> Json) l old :
  Forall (fun x => forall old, dec (enc x) old = Some x) l -> decList zero dec (encSlice enc l) old = Some l.
Proof.
  intros Hl. destruct l as [|x l]; [done|]. unfold decList, encSlice, decSlice. cbn [map]. change (enc x :: map enc l) with (map enc (x :: l)).
  by rw decElements_over.
Qed.
Lemma decList_fresh {A} (zero : A) (dec : Dec A) (enc : A -> Json) l :
  Forall (fun x => dec (enc x) zero = Some x) l -> decList zero dec (encSlice enc l) [] = Some l.
Proof.
  intros Hl. destruct l as [|x l]; [done|]. unfold decList, encSlice. by rw decSlice_enc.
Qed.
Lemma faithful_slice {A} d (enc : A -> Json) l : Forall (fun x => faithful d (enc x)) l -> faithful (S d) (encSlice enc l).
Proof. intros Hl. destruct l as [|x l]; [split; simpl; [done|done|lia]|]. by apply faithful_arr, Forall_map. Qed.
Lemma faithful_null d : faithful d JNull.
Proof. split; simpl; [done|done|lia]. Qed.

(** Rewrites with the decodings that are known. *)
Ltac decoded := repeat match goal with H : ?x = Some _ |- context [?x] => rw H end; try reflexivity.

(** ** Views *)

Record json_node (n : NodeView) : Prop := {
  jn_id : utf8 (NodeViewID n);
  jn_counts : int64_range (ConsecFails n) /\ int64_range (LeaderSlots n) /\ int64_range (ReplicaSlots n)
}.
Record json_slotview (s : SlotView) : Prop := {
  jv_leader : utf8 (SVLeader s);
  jv_replica : utf8 (SVReplica s);
  jv_number : 0 <= SVNumber s <= 4294967295;
  jv_term : 0 <= SVTerm s <= maxUint64
}.
Record json_status (s : StatusSummary) : Prop := {
  js_state : utf8 (SState s);
  js_failed : Forall utf8 (FailedNodes s);
  js_suspected : Forall utf8 (SuspectedNodes s);
  js_degraded : int64_range (DegradedSlots s);
  js_unavailable : int64_range (UnavailableSlots s);
  js_operation : utf8 (LatestCommittedOperation s)
}.
(** A view in the range of its types, with UTF-8 names and a time that can be
    written. *)
Record json_view (v : ClusterView) : Prop := {
  jw_id : utf8 (ViewClusterID v);
  jw_version : 0 <= MetadataVersion v <= maxUint64;
  jw_slots : Forall json_slotview (ViewSlots v);
  jw_nodes : map_Forall (fun k n => utf8 k /\ json_node n) (Nodes v);
  jw_observed : timeText (ObservedAt v) <> None;
  jw_status : json_status (Status v)
}.

Lemma decNodeView_enc n : json_node n -> decNodeView (nodeViewJson n) zeroNodeView = Some n.
Proof.
  intros [_ (H1 & H2 & H3)]. apply (decInt64_enc _ 0) in H1, H2, H3. revert H1 H2 H3. unfold nodeViewJson, omitBool.
  generalize (encInt (ConsecFails n)) (encInt (LeaderSlots n)) (encInt (ReplicaSlots n)). intros j1 j2 j3 H1 H2 H3.
  destruct n as [id r s cf ls rs e ret]. cbn [ConsecFails LeaderSlots ReplicaSlots NodeViewID Reachable Suspected Eligible Returning] in *.
  destruct ret; lazy -[decInt64]; by rw H1 H2 H3.
Qed.
Lemma decSlotView_enc s old : json_slotview s ->
  decSlotView (slotViewJson s) old = Some (mkSlotView (SVNumber s) (SVLeader s) (keepEmpty (SVReplica old) (SVReplica s)) (SVTerm s) (SVReady s)).
Proof.
  intros [_ _ Hn Ht]. pose proof (decUint_enc 4294967295 _ (SVNumber old) Hn ltac:(done)) as H1. pose proof (decUint_enc maxUint64 _ (SVTerm old) Ht ltac:(done)) as H2.
  revert H1 H2. unfold slotViewJson, omitString, keepEmpty. generalize (encUint (SVNumber s)) (encUint (SVTerm s)).
  change (decUint maxUint64) with decUint64. change (decUint 4294967295) with decUint32. intros j1 j2 H1 H2.
  destruct s as [number leader replica term ready]. cbn [SVNumber SVLeader SVReplica SVTerm SVReady] in *.
  destruct (String.eqb replica ""); lazy -[decUint64 decUint32 SVNumber SVTerm SVLeader SVReplica SVReady]; by rw H1 H2.
Qed.
Lemma decStatus_enc s old : json_status s -> decStatus (statusJson s) old =
  Some (mkStatus (SState s) (keepNil (FailedNodes old) (FailedNodes s)) (keepNil (SuspectedNodes old) (SuspectedNodes s))
          (DegradedSlots s) (UnavailableSlots s) (keepEmpty (LatestCommittedOperation old) (LatestCommittedOperation s))).
Proof.
  intros [_ Hf Hsu Hd Hu _]. apply (decInt64_enc _ (DegradedSlots old)) in Hd. apply (decInt64_enc _ (UnavailableSlots old)) in Hu.
  assert (H1 : forall x l o, decList "" decString (JArr (map JStr (x :: l))) o = Some (x :: l)).
  { intros x l o. apply (decList_enc "" decString JStr (x :: l)). by apply Forall_forall. }
  revert Hd Hu. unfold statusJson, omitString, omitList, keepEmpty, decStatus. generalize (encInt (DegradedSlots s)) (encInt (UnavailableSlots s)).
  intros j1 j2 H2 H3. destruct s as [state failed suspected degraded unavailable op].
  cbn [SState FailedNodes SuspectedNodes DegradedSlots UnavailableSlots LatestCommittedOperation] in *.
  destruct failed as [|f fs], suspected as [|u us]; cbn [keepNil];
    [|pose proof (H1 u us (SuspectedNodes old)) as H4; revert H4; generalize (JArr (map JStr (u :: us)))
     |pose proof (H1 f fs (FailedNodes old)) as H5; revert H5; generalize (JArr (map JStr (f :: fs)))
     |pose proof (H1 u us (SuspectedNodes old)) as H4; pose proof (H1 f fs (FailedNodes old)) as H5; revert H4 H5;
      generalize (JArr (map JStr (u :: us))) (JArr (map JStr (f :: fs)))];
    generalize (decList "" decString); intros; destruct (String.eqb op "");
    lazy -[decInt64 SState FailedNodes SuspectedNodes DegradedSlots UnavailableSlots LatestCommittedOperation]; decoded.
Qed.
Lemma decElements_slots new array : Forall json_slotview new ->
  decElements zeroSlotView decSlotView (map slotViewJson new) array = Some (decodeSlots array new).
Proof.
  intros Hn. revert array. induction Hn as [|s new Hs Hn IH]; intros array; [done|]. cbn [map decElements decodeSlots].
  rw decSlotView_enc //. cbn [mbind option_bind]. rw IH. cbn. do 3 f_equal. destruct array as [|o array]; [|done]. cbn. unfold keepEmpty.
  by destruct (String.eqb_spec (SVReplica s) "") as [->|].
Qed.
Lemma decSlice_slots new array stale : Forall json_slotview new ->
  decSlice zeroSlotView decSlotView (encSlice slotViewJson new) (mkSlice array stale) =
  Some (mkSlice (decodeSlots (array ++ stale) new) (match new with [] => [] | ss => drop (length ss) (array ++ stale) end)).
Proof.
  intros Hn. destruct new as [|s new]; [done|]. unfold encSlice, decSlice. cbn [map visible hidden].
  change (slotViewJson s :: map slotViewJson new) with (map slotViewJson (s :: new)). rw decElements_slots //. cbn [mbind option_bind].
  by rw length_map.
Qed.

(** Decoding a view into the view that is there. *)
Lemma decView_enc v j s : json_view v -> viewJson v = Some j ->
  decView j (LatestView s, staleSlots s) = Some (LatestView (decodeView v s), staleSlots (decodeView v s)).
Proof.
  intros [_ Hv Hsl Hno _ Hst]. unfold viewJson. destruct (timeText (ObservedAt v)) as [t|] eqn:Ht; [|done]. intros Heq. apply (inj Some) in Heq as <-.
  pose proof (time_round_trip _ _ Ht) as H1. pose proof (decUint_enc maxUint64 _ (MetadataVersion (LatestView s)) Hv ltac:(done)) as H2.
  pose proof (decSlice_slots (ViewSlots v) (ViewSlots (LatestView s)) (staleSlots s) Hsl) as H3.
  assert (H4 : decMap zeroNodeView decNodeView (encMap id nodeViewJson (Nodes v)) (Nodes (LatestView s)) = Some (Nodes v ∪ Nodes (LatestView s))).
  { apply decMap_enc. intros k n Hk. apply decNodeView_enc. apply (Hno k n Hk). }
  pose proof (decStatus_enc (Status v) (Status (LatestView s)) Hst) as H5. revert H2 H3 H4 H5. unfold decView, decodeView.
  generalize (encUint (MetadataVersion v)) (encSlice slotViewJson (ViewSlots v)) (encMap id nodeViewJson (Nodes v)) (statusJson (Status v)).
  generalize (decSlice zeroSlotView decSlotView) (decMap zeroNodeView decNodeView) decStatus. change (decUint maxUint64) with decUint64.
  generalize (decodeSlots (ViewSlots (LatestView s) ++ staleSlots s) (ViewSlots v)).
  generalize (Nodes v ∪ Nodes (LatestView s)).
  generalize (mkStatus (SState (Status v)) (keepNil (FailedNodes (Status (LatestView s))) (FailedNodes (Status v)))
    (keepNil (SuspectedNodes (Status (LatestView s))) (SuspectedNodes (Status v))) (DegradedSlots (Status v)) (UnavailableSlots (Status v))
    (keepEmpty (LatestCommittedOperation (Status (LatestView s))) (LatestCommittedOperation (Status v)))).
  intros st nodes vis d1 d2 d3 j1 j2 j3 j4 H2 H3 H4 H5. cbn [LatestView staleSlots setView].
  lazy -[decUint64 parseTime LatestView staleSlots ViewSlots ViewClusterID MetadataVersion Nodes ObservedAt Status drop length app]. decoded.
  by destruct (ViewSlots v).
Qed.

Lemma faithful_nodeView n : json_node n -> faithful 1 (nodeViewJson n).
Proof. intros [Hi (H1 & H2 & H3)]. apply faithful_obj. unfold omitBool. destruct (Returning n); cbn [app]; members. Qed.
Lemma faithful_slotView s : json_slotview s -> faithful 1 (slotViewJson s).
Proof.
  intros [Hl Hr Hn Ht]. apply faithful_obj. assert (0 <= SVNumber s <= maxUint64) by (unfold maxUint64; lia). unfold omitString.
  destruct (String.eqb _ ""); cbn [app]; members.
Qed.
Lemma faithful_strings d l : Forall utf8 l -> faithful (S d) (JArr (map JStr l)).
Proof. intros Hl. apply faithful_arr, Forall_map. eapply Forall_impl; [exact Hl|]. intros s. apply faithful_str. Qed.
Lemma faithful_statusSummary s : json_status s -> faithful 2 (statusJson s).
Proof.
  intros [Hs Hf Hsu Hd Hu Ho]. pose proof (faithful_strings 0 _ Hf). pose proof (faithful_strings 0 _ Hsu). apply faithful_obj.
  rw !Forall_app. unfold omitString, omitList. split_and!; repeat case_match; members.
Qed.
Lemma faithful_view v j : json_view v -> viewJson v = Some j -> faithful 3 j.
Proof.
  intros [Hi Hv Hsl Hno _ Hst]. unfold viewJson. destruct (timeText (ObservedAt v)) as [t|] eqn:Ht; [|done]. intros Heq. apply (inj Some) in Heq as <-.
  apply utf8_time in Ht. apply faithful_obj.
  assert (faithful 2 (encSlice slotViewJson (ViewSlots v))) by (apply faithful_slice; eapply Forall_impl; [exact Hsl|]; apply faithful_slotView).
  assert (faithful 2 (encMap id nodeViewJson (Nodes v))).
  { apply faithful_encMap; [right|]; intros k n Hk; apply Hno in Hk as [Hk Hn]; [done|by apply faithful_nodeView]. }
  pose proof (faithful_statusSummary _ Hst). members.
Qed.

(** ** Plans *)

Definition json_step (s : PlanStep) : Prop := 0 <= StSlot s <= 4294967295 /\ utf8 (StTarget s).
Record json_plan (p : RecoveryPlan) : Prop := {
  jp_id : utf8 (PlanID p);
  jp_reason : utf8 (Reason p);
  jp_epoch : 0 <= Epoch p <= maxUint64;
  jp_dead : Forall utf8 (DeadNodes p);
  jp_steps : Forall json_step (Steps p);
  jp_done : map_Forall (fun k _ => int64_range k) (Done p);
  jp_lost : Forall (fun n => 0 <= n <= 4294967295) (Unrecoverable p);
  jp_blocked : Forall (fun n => 0 <= n <= 4294967295) (WriteBlockedSlots p)
}.
Record json_unavailable (u : UnavailableSlot) : Prop := {
  ju_slot : 0 <= USlot u <= 4294967295;
  ju_leader : utf8 (ULeader u);
  ju_replica : utf8 (UReplica u);
  ju_failures : Forall utf8 (UFailures u)
}.
Record json_completed (c : CompletedPlan) : Prop := {
  jc_id : utf8 (CPID c);
  jc_epoch : 0 <= CPEpoch c <= maxUint64;
  jc_index : 0 <= CPControlIndex c <= maxUint64
}.

Lemma decStepKind_enc k old : decStepKind (JStr (StepKindText k)) old = Some k.
Proof. by destruct k. Qed.
Lemma decPlanKind_enc k old : decPlanKind (JStr (PlanKindText k)) old = Some k.
Proof. by destruct k. Qed.
Lemma decStep_enc s old : json_step s -> decStep (stepJson s) old = Some s.
Proof.
  intros [Hs _]. pose proof (decUint_enc 4294967295 _ (StSlot old) Hs ltac:(done)) as H1. pose proof (decStepKind_enc (StKind s) (StKind old)) as H2.
  revert H1 H2. unfold stepJson. generalize (encUint (StSlot s)) (JStr (StepKindText (StKind s))). change (decUint 4294967295) with decUint32.
  intros j1 j2 H1 H2. destruct s as [kind slot target]. cbn [StKind StSlot StTarget] in *. lazy -[decUint32 decStepKind StKind StSlot StTarget]. decoded.
Qed.
Lemma decSlots_enc l old : Forall (fun n => 0 <= n <= 4294967295) l -> decList 0 decUint32 (encSlice encUint l) old = Some l.
Proof. intros Hl. apply decList_enc. eapply Forall_impl; [exact Hl|]. intros n Hn o. by apply decUint_enc. Qed.
Lemma decStrings_enc l old : decList "" decString (encSlice JStr l) old = Some l.
Proof. apply decList_enc. by apply Forall_forall. Qed.

Lemma decPlan_enc p : json_plan p -> decPlan (planJson p) emptyPlan = Some p.
Proof.
  intros [_ _ He _ Hst Hdo Hl Hb]. pose proof (decUint_enc maxUint64 _ 0 He ltac:(done)) as H1. pose proof (decPlanKind_enc (PKind p) PlanKindRecovery) as H2.
  pose proof (decStrings_enc (DeadNodes p) []) as H3.
  assert (H4 : decList zeroStep decStep (encSlice stepJson (Steps p)) [] = Some (Steps p)).
  { apply decList_enc. eapply Forall_impl; [exact Hst|]. intros s Hs old. by apply decStep_enc. }
  assert (H5 : decMapZ keyInt false decBool (encMap FormatInt JBool (Done p)) ∅ = Some (Done p)).
  { rw (decMapZ_enc keyInt FormatInt); [intros k v Hk; split; [|done]; apply ParseInt_FormatInt, (Hdo k v Hk)|]. by rw right_id_L. }
  pose proof (decSlots_enc _ [] Hl) as H6. pose proof (decSlots_enc _ [] Hb) as H7. revert H1 H2 H3 H4 H5 H6 H7. unfold planJson, decPlan, omitList.
  generalize (encUint (Epoch p)) (JStr (PlanKindText (PKind p))) (encSlice JStr (DeadNodes p)) (encSlice stepJson (Steps p))
    (encMap FormatInt JBool (Done p)) (encSlice encUint (Unrecoverable p)).
  change (decUint maxUint64) with decUint64. unfold emptyPlan.
  generalize (decList "" decString) (decList zeroStep decStep) (decMapZ keyInt false decBool) (decList 0 decUint32).
  intros d1 d2 d3 d4 j1 j2 j3 j4 j5 j6 H1 H2 H3 H4 H5 H6 H7. destruct p as [id kind reason epoch dead steps dn lost blocked].
  cbn [PlanID PKind Reason Epoch DeadNodes Steps Done Unrecoverable WriteBlockedSlots] in *.
  destruct blocked as [|b blocked]; cbn [encSlice] in H7; [|revert H7; generalize (JArr (map encUint (b :: blocked))); intros j7 H7];
    lazy -[decUint64 decPlanKind empty gmap_empty]; decoded.
Qed.
Lemma decUnavailable_enc u : json_unavailable u -> decUnavailable (unavailableJson u) zeroUnavailable = Some u.
Proof.
  intros [Hs _ _ _]. pose proof (decUint_enc 4294967295 _ 0 Hs ltac:(done)) as H1. pose proof (decStrings_enc (UFailures u) []) as H2.
  revert H1 H2. unfold unavailableJson, decUnavailable, zeroUnavailable. generalize (encUint (USlot u)) (encSlice JStr (UFailures u)) (decList "" decString).
  change (decUint 4294967295) with decUint32. intros j1 j2 d H1 H2. destruct u as [slot leader replica failures]. cbn [USlot UFailures ULeader UReplica] in *.
  lazy -[decUint32]. decoded.
Qed.
Lemma decCompleted_enc c : json_completed c -> decCompleted (completedJson c) zeroCompleted = Some c.
Proof.
  intros [_ He Hi]. pose proof (decUint_enc maxUint64 _ 0 He ltac:(done)) as H1. pose proof (decUint_enc maxUint64 _ 0 Hi ltac:(done)) as H2.
  pose proof (decPlanKind_enc (CPKind c) PlanKindRecovery) as H3. revert H1 H2 H3. unfold completedJson.
  generalize (encUint (CPEpoch c)) (encUint (CPControlIndex c)) (JStr (PlanKindText (CPKind c))). change (decUint maxUint64) with decUint64.
  intros j1 j2 j3 H1 H2 H3. destruct c as [id kind epoch index]. cbn [CPID CPKind CPEpoch CPControlIndex] in *. lazy -[decUint64 decPlanKind]. decoded.
Qed.

Lemma utf8_FormatInt n : utf8 (FormatInt n).
Proof.
  apply toValid_ascii. unfold FormatInt. destruct (n <? 0); [|apply plain_digits, FormatUint_digits].
  cbn [sall]. apply (plain_digits (FormatUint (- n))), FormatUint_digits.
Qed.
Lemma utf8_FormatUint n : utf8 (FormatUint n).
Proof. apply toValid_ascii, plain_digits, FormatUint_digits. Qed.
Lemma faithful_u32 d n : 0 <= n <= 4294967295 -> faithful d (encUint n).
Proof. intros Hn. apply faithful_uint. unfold maxUint64. lia. Qed.
#[local] Hint Resolve faithful_u32 : faithful.
Lemma faithful_stringSlice d l : Forall utf8 l -> faithful (S d) (encSlice JStr l).
Proof. intros Hl. apply faithful_slice. eapply Forall_impl; [exact Hl|]. intros s. apply faithful_str. Qed.
Lemma faithful_plan p : json_plan p -> faithful 3 (planJson p).
Proof.
  intros [Hi Hr He Hd Hs Hdo Hl Hb]. pose proof (faithful_stringSlice 1 _ Hd).
  assert (faithful 2 (encSlice stepJson (Steps p))).
  { apply faithful_slice. eapply Forall_impl; [exact Hs|]. intros s [H1 H2]. apply (faithful_obj 0).
    assert (utf8 (StepKindText (StKind s))) by (by destruct (StKind s)). members. }
  assert (faithful 2 (encMap FormatInt JBool (Done p))).
  { apply faithful_encMap; [left; apply utf8_FormatInt|]. intros k v _. apply faithful_bool. }
  assert (Hn : forall l, Forall (fun n => 0 <= n <= 4294967295) l -> Forall (faithful 1) (map encUint l)).
  { intros l Hf. apply Forall_map. eapply Forall_impl; [exact Hf|]. intros n. apply faithful_u32. }
  assert (faithful 2 (encSlice encUint (Unrecoverable p))).
  { apply faithful_slice. eapply Forall_impl; [exact Hl|]. intros n. apply faithful_u32. }
  assert (faithful 2 (JArr (map encUint (WriteBlockedSlots p)))) by (apply faithful_arr; by apply Hn).
  assert (utf8 (PlanKindText (PKind p))) by (by destruct (PKind p)).
  apply (faithful_obj 2). apply Forall_app. split; [members|]. unfold omitList. destruct (WriteBlockedSlots p); members.
Qed.
Lemma faithful_unavailable u : json_unavailable u -> faithful 2 (unavailableJson u).
Proof. intros [Hs Hl Hr Hf]. pose proof (faithful_stringSlice 0 _ Hf). apply (faithful_obj 1). members. Qed.
Lemma faithful_completed c : json_completed c -> faithful 1 (completedJson c).
Proof. intros [Hi He Hx]. apply (faithful_obj 0). assert (utf8 (PlanKindText (CPKind c))) by (by destruct (CPKind c)). members. Qed.

(** ** The state *)

Record json_fsm (s : FSMSnapshot) : Prop := {
  jf_view : json_view (LatestView s);
  jf_plan : match ActivePlan s with Some p => json_plan p | None => True end;
  jf_index : 0 <= ControlIndex s <= maxUint64;
  jf_unavailable : map_Forall (fun k u => 0 <= k <= 4294967295 /\ json_unavailable u) (Unavailable s);
  jf_returning : map_Forall (fun k _ => utf8 k) (ReturningNodes s);
  jf_last : utf8 (LastCompletedPlanID s);
  jf_rebalance : match LastRebalance s with Some c => json_completed c | None => True end
}.
Lemma key32_text k : 0 <= k <= 4294967295 -> key32 (FormatUint k) = Some k.
Proof. intros Hk. unfold key32. rw ParseUint_FormatUint; [unfold maxUint64; lia|]. cbn. by rw (proj2 (Z.leb_le k 4294967295)); [lia|]. Qed.

Lemma keepEmpty_fresh x : keepEmpty "" x = x.
Proof. unfold keepEmpty. by destruct (String.eqb_spec x "") as [->|]. Qed.
Lemma keepNil_fresh {A} (l : list A) : keepNil [] l = l.
Proof. by destruct l. Qed.
Lemma decodeSlots_fresh l : decodeSlots [] l = l.
Proof. induction l as [|s l IH]; [done|]. cbn. rw IH. by destruct s. Qed.
Lemma decView_fresh v j : json_view v -> viewJson v = Some j -> decView j (zeroView, []) = Some (v, []).
Proof.
  intros Hv Hj. rw (decView_enc v j zeroFSM Hv Hj). unfold decodeView. cbn [LatestView staleSlots setView zeroFSM].
  change (Status zeroView) with zeroStatus. unfold zeroStatus. cbn [FailedNodes SuspectedNodes LatestCommittedOperation].
  change (ViewSlots zeroView) with (@nil SlotView). change (Nodes zeroView) with (∅ : gmap string NodeView).
  cbn [app]. rw !keepNil_fresh keepEmpty_fresh (right_id_L ∅ (∪) (Nodes v)) decodeSlots_fresh. destruct v as [id version sl nodes at_ [st f su d u op]]. by destruct sl.
Qed.

Lemma decFSM_enc s j : json_fsm s -> fsmJson s = Some j -> decFSM j zeroFSM = Some (State s).
Proof.
  intros [Hv Hp Hi Hu Hr _ Hc]. unfold fsmJson. destruct (viewJson (LatestView s)) as [vj|] eqn:Hvj; [|done]. intros Heq. apply (inj Some) in Heq as <-.
  pose proof (decView_fresh _ _ Hv Hvj) as H1. pose proof (decUint_enc maxUint64 _ 0 Hi ltac:(done)) as H2.
  assert (H3 : decMapZ key32 zeroUnavailable decUnavailable (encMap FormatUint unavailableJson (Unavailable s)) ∅ = Some (Unavailable s)).
  { rw (decMapZ_enc key32 FormatUint); [|by rw right_id_L]. intros k u Hk. destruct (Hu k u Hk) as [Hk32 Hju].
    split; [by apply key32_text|by apply decUnavailable_enc]. }
  assert (H4 : decMap false decBool (encMap id JBool (ReturningNodes s)) ∅ = Some (ReturningNodes s)).
  { rw decMap_enc; [by intros k v _|]. by rw right_id_L. }
  assert (H5 : forall p, ActivePlan s = Some p -> decPtr emptyPlan decPlan (planJson p) None = Some (Some p)).
  { intros p Heq. rw Heq in Hp. unfold decPtr. change (default emptyPlan None) with emptyPlan. unfold planJson at 1. cbn [app]. fold (planJson p). by rw decPlan_enc. }
  assert (H6 : forall c, LastRebalance s = Some c -> decPtr zeroCompleted decCompleted (completedJson c) None = Some (Some c)).
  { intros c Heq. rw Heq in Hc. unfold decPtr. change (default zeroCompleted None) with zeroCompleted. unfold completedJson at 1. fold (completedJson c).
    by rw decCompleted_enc. }
  revert H1 H2 H3 H4. unfold decFSM, omitPtr, omitString, State, zeroFSM.
  generalize (encUint (ControlIndex s)) (encMap FormatUint unavailableJson (Unavailable s)) (encMap id JBool (ReturningNodes s)).
  revert H5 H6. generalize planJson completedJson (decPtr emptyPlan decPlan) (decPtr zeroCompleted decCompleted). change (decUint maxUint64) with decUint64.
  generalize (decMapZ key32 zeroUnavailable decUnavailable) (decMap false decBool) decView. clear Hv Hp Hi Hu Hr Hc Hvj.
  intros d1 d2 d3 e1 e2 d4 d5 H5 H6 j1 j2 j3 H1 H2 H3 H4. destruct s as [view stale plan index unavailable returning last rebalance].
  cbn [LatestView staleSlots ActivePlan ControlIndex Unavailable ReturningNodes LastCompletedPlanID LastRebalance] in *.
  destruct plan as [p|], rebalance as [c|], (String.eqb_spec last "") as [->|_];
    try (pose proof (H5 p eq_refl) as H7); try (pose proof (H6 c eq_refl) as H8); clear H5 H6;
    lazy -[decUint64 zeroView empty gmap_empty]; decoded.
Qed.
Lemma faithful_fsm s j : json_fsm s -> fsmJson s = Some j -> exists ms, j = JObj ms /\ faithful 4 (JObj ms).
Proof.
  intros [Hv Hp Hi Hu Hr Hl Hc]. unfold fsmJson. destruct (viewJson (LatestView s)) as [vj|] eqn:Hvj; [|done]. intros Heq. apply (inj Some) in Heq as <-.
  eexists. split; [reflexivity|]. pose proof (faithful_view _ _ Hv Hvj).
  assert (faithful 3 (encMap FormatUint unavailableJson (Unavailable s))).
  { apply faithful_encMap; [left; apply utf8_FormatUint|]. intros k u Hk. apply faithful_unavailable. apply (Hu k u Hk). }
  assert (faithful 3 (encMap id JBool (ReturningNodes s))) by (apply faithful_encMap; [by right|intros k v _; apply faithful_bool]).
  apply faithful_obj. rw !Forall_app. unfold omitPtr, omitString. split_and!; try members.
  - destruct (ActivePlan s); [|done]. pose proof (faithful_plan _ Hp). members.
  - destruct (String.eqb _ ""); members.
  - destruct (LastRebalance s); [|done]. pose proof (faithful_completed _ Hc). apply Forall_cons_2; [|done]. split; [done|].
    eapply faithful_weaken; [done|lia].
Qed.
Lemma json_fsm_some s : json_fsm s -> exists j, fsmJson s = Some j.
Proof. intros Hs. unfold fsmJson, viewJson. pose proof (jw_observed _ (jf_view _ Hs)). destruct (timeText _); [by eexists|done]. Qed.
Lemma json_State s : json_fsm s -> json_fsm (State s).
Proof. by intros [Hv Hp Hi Hu Hr Hl Hc]. Qed.
Lemma State_idem s : State (State s) = State s.
Proof. done. Qed.

Lemma nextJson_print ms d : faithful d (JObj ms) -> (d <= 100)%nat -> nextJson (printJson (JObj ms)) = Some (JObj ms, "") /\ parseJson (printJson (JObj ms)) = Some (JObj ms).
Proof.
  intros [Hok Hv Hd] Hsmall. destruct (nextJson_render (fun _ => "") "" (fun _ => eq_refl) eq_refl ms Hok) as [Hn _]; [unfold maxNestingDepth; lia|].
  rw Hv in Hn. change (render (fun _ => "") ":" 0 (JObj ms)) with (printJson (JObj ms)) in Hn. split; [done|]. unfold parseJson. by rw Hn.
Qed.
Lemma clone_exact s : json_fsm s -> cloneState s = State s.
Proof.
  intros Hs. destruct (json_fsm_some s Hs) as [j Hj]. unfold cloneState, marshalFSM. rw Hj. cbn [fmap option_fmap option_map].
  destruct (faithful_fsm s j Hs Hj) as (ms & -> & Hf). destruct (nextJson_print ms 4 Hf ltac:(lia)) as [_ ->]. cbn [mbind option_bind].
  by rw (decFSM_enc s).
Qed.
(** A snapshot of the state restores it. *)
Lemma restore_exact s : json_fsm s -> exists raw, SnapshotBytes s = Some raw /\ Restore raw = Some (State s).
Proof.
  intros Hs. pose proof (json_State s Hs) as Ht. unfold SnapshotBytes. rw clone_exact //. destruct (json_fsm_some _ Ht) as [j Hj].
  unfold marshalFSM. rw Hj. eexists. split; [reflexivity|]. unfold Restore. destruct (faithful_fsm _ j Ht Hj) as (ms & -> & Hf).
  destruct (nextJson_print ms 4 Hf ltac:(lia)) as [-> _]. cbn [mbind option_bind]. rw (decFSM_enc (State s)) //. cbn. by rw clone_exact.
Qed.

(** ** The log *)

Definition json_command (c : Command) : Prop :=
  match c with
  | CommandObserveView view => json_view view
  | CommandProposePlan plan | CommandProposeRebalance plan => json_plan plan
  | CommandStepDone planID index => utf8 planID /\ int64_range index
  | CommandPlanComplete planID => utf8 planID
  | CommandSupersedePlan oldID plan => utf8 oldID /\ json_plan plan
  | CommandMarkUnavailable slots => Forall json_unavailable slots
  | CommandAdmitReturningNode id _ => utf8 id
  end.
Lemma commandPayload_ok c : json_command c -> exists j, commandPayload c = Some j /\ faithful 4 j.
Proof.
  destruct c as [view|plan|id index|id|id plan|plan|slots|id b]; cbn [json_command commandPayload]; intros Hc.
  - destruct (viewJson view) as [j|] eqn:Hj; [|unfold viewJson in Hj; pose proof (jw_observed _ Hc); by destruct (timeText _)].
    exists j. split; [done|]. eapply faithful_weaken; [by eapply faithful_view|lia].
  - eexists. split; [done|]. eapply faithful_weaken; [by apply faithful_plan|lia].
  - destruct Hc as [Hi Hx]. eexists. split; [done|]. apply faithful_obj. members.
  - eexists. split; [done|]. apply faithful_obj. members.
  - destruct Hc as [Hi Hp]. pose proof (faithful_plan _ Hp). eexists. split; [done|]. apply faithful_obj. members.
  - eexists. split; [done|]. eapply faithful_weaken; [by apply faithful_plan|lia].
  - eexists. split; [done|]. apply faithful_slice. eapply Forall_impl; [exact Hc|]. intros u Hu. eapply faithful_weaken; [by apply faithful_unavailable|lia].
  - eexists. split; [done|]. apply faithful_obj. members.
Qed.
Lemma decSupersede_enc id plan : json_plan plan -> decSupersede (JObj [("oldPlanId", JStr id); ("newPlan", planJson plan)]) ("", emptyPlan) = Some (id, plan).
Proof.
  intros Hp. pose proof (decPlan_enc plan Hp) as H1. revert H1. unfold decSupersede. generalize (planJson plan) decPlan emptyPlan. intros j d z H1. lazy. decoded.
Qed.
Lemma decStepDone_enc id index : int64_range index -> decStepDone (JObj [("planId", JStr id); ("stepIndex", encInt index)]) ("", 0) = Some (id, index).
Proof. intros Hi. pose proof (decInt64_enc index 0 Hi) as H1. revert H1. generalize (encInt index). intros j H1. lazy -[decInt64]. decoded. Qed.

(** An entry of the log has the effect of the command it was made from. *)
Lemma entry_exact index c s : json_command c -> exists data, marshalCommand c = Some data /\ ApplyEntry index data s = Some (Apply index c s).
Proof.
  intros Hc. destruct (commandPayload_ok c Hc) as (j & Hj & Hf). unfold marshalCommand. rw Hj. eexists. split; [reflexivity|].
  unfold ApplyEntry. assert (utf8 (CommandType c)) by (by destruct c).
  destruct (nextJson_print [("type", JStr (CommandType c)); ("payload", j)] 5) as [_ ->]; [apply faithful_obj; members|lia|]. cbn [mbind option_bind].
  assert (decCommand (JObj [("type", JStr (CommandType c)); ("payload", j)]) ("", None) = Some (CommandType c, Some j)) as -> by done.
  cbn [mbind option_bind]. cbv beta iota.
  destruct c as [view|plan|id i|id|id plan|plan|slots|id b]; cbn [json_command commandPayload CommandType String.eqb Ascii.eqb Bool.eqb] in *;
    try (injection Hj as <-); unfold commandOf; cbn [String.eqb Ascii.eqb Bool.eqb].
  - rw (decView_enc view j s Hc Hj). done.
  - by rw decPlan_enc.
  - destruct Hc as [_ Hi]. by rw decStepDone_enc.
  - done.
  - destruct Hc as [_ Hp]. by rw decSupersede_enc.
  - by rw decPlan_enc.
  - rw decList_fresh; [|done]. eapply Forall_impl; [exact Hc|]. apply decUnavailable_enc.
  - done.
Qed.

(** ** The state stays representable *)

Definition json_state (s : FSMSnapshot) : Prop := json_fsm s /\ Forall json_slotview (staleSlots s).

Lemma json_NewFSM : json_state NewFSM.
Proof.
  split; [|constructor]. split; [|done|done|apply map_Forall_empty|apply map_Forall_empty|done|done].
  split; [done|done|constructor|apply map_Forall_empty|by vm_compute|]. split; [done|constructor|constructor|done..].
Qed.
Lemma decodeSlots_json old new : Forall json_slotview old -> Forall json_slotview new -> Forall json_slotview (decodeSlots old new).
Proof.
  intros Ho Hn. revert old Ho. induction Hn as [|s new Hs Hn IH]; intros old Ho; [done|]. cbn [decodeSlots]. constructor.
  - destruct Hs as [H1 H2 H3 H4]. split; [done| |done|done]. destruct old as [|o old]; [done|]. cbn. unfold keepEmpty. destruct (String.eqb _ ""); [|done].
    apply Forall_cons in Ho as [[] _]. done.
  - apply IH. destruct old; [done|]. by apply Forall_cons in Ho as [_ Ho].
Qed.
Lemma keepNil_Forall {A} (P : A -> Prop) old new : Forall P old -> Forall P new -> Forall P (keepNil old new).
Proof. by destruct new. Qed.
Lemma keepEmpty_utf8 old new : utf8 old -> utf8 new -> utf8 (keepEmpty old new).
Proof. unfold keepEmpty. by destruct (String.eqb new ""). Qed.
Lemma json_decodeView v s : json_view v -> json_state s -> json_state (decodeView v s).
Proof.
  intros [Hi Hv Hsl Hno Hob Hst] [Hf Hstale]. pose proof (jf_view _ Hf) as [Hi' Hv' Hsl' Hno' Hob' Hst']. destruct Hf as [_ Hp Hx Hu Hr Hl Hc].
  assert (Harr : Forall json_slotview (ViewSlots (LatestView s) ++ staleSlots s)) by (by apply Forall_app).
  split; [|cbn; destruct (ViewSlots v); [constructor|by apply Forall_drop]]. split; cbn; [|done..]. split; cbn; [done|done| | |done|].
  - by apply decodeSlots_json.
  - intros k n [Hk|[_ Hk]]%lookup_union_Some_raw; [by apply Hno|by apply Hno'].
  - destruct Hst as [H1 H2 H3 H4 H5 H6], Hst' as [_ G2 G3 _ _ G6]. split; cbn; [done|by apply keepNil_Forall..|done|done|by apply keepEmpty_utf8].
Qed.
Lemma json_setStatus st s : json_status st -> json_state s -> json_state (setStatus st s).
Proof. intros Hst [[[H1 H2 H3 H4 H5 H6] Hp Hx Hu Hr Hl Hc] Hstale]. by split; [split; [split|..]|]. Qed.
Lemma json_setState state s : utf8 state -> json_state s -> json_state (setState state s).
Proof. intros Hu Hs. apply json_setStatus; [|done]. destruct Hs as [[[_ _ _ _ _ [H1 H2 H3 H4 H5 H6]] _ _ _ _ _ _] _]. by split. Qed.
Lemma json_setOperation op s : utf8 op -> json_state s -> json_state (setOperation op s).
Proof. intros Hu Hs. apply json_setStatus; [|done]. destruct Hs as [[[_ _ _ _ _ [H1 H2 H3 H4 H5 H6]] _ _ _ _ _ _] _]. by split. Qed.
Lemma json_updatePlanStatus s : json_state s -> json_state (updatePlanStatus s).
Proof. intros Hs. unfold updatePlanStatus. repeat case_match; try done; by apply json_setState. Qed.
Lemma json_setPlan p s : match p with Some p => json_plan p | None => True end -> json_state s -> json_state (setPlan p s).
Proof. by intros Hp [[Hv _ Hx Hu Hr Hl Hc] Hst]. Qed.
Lemma json_setIndex index b s : 0 <= index <= maxUint64 -> json_state s -> json_state (setIndex index b s).
Proof.
  intros Hi [[Hv Hp Hx Hu Hr Hl Hc] Hst]. split; [split|]; cbn; try done. destruct (LastRebalance s) as [c|]; [|done].
  destruct (b && _); [|done]. by destruct Hc; split.
Qed.
Lemma json_markDone p index : int64_range index -> json_plan p -> json_plan (markDone p index).
Proof. intros Hi [H1 H2 H3 H4 H5 H6 H7 H8]. split; cbn; try done. by apply map_Forall_insert_2. Qed.

Lemma json_applyCommand c s : json_command c -> json_state s -> json_state (applyCommand c s).2.
Proof.
  intros Hc Hs. destruct c as [view|plan|id i|id|id plan|plan|slots|id b]; cbn [json_command applyCommand] in *.
  - by apply json_decodeView.
  - by apply json_updatePlanStatus, json_setPlan.
  - unfold withActive. destruct (ActivePlan s) as [p|] eqn:Hp; [|done]. destruct (String.eqb _ id); [|done]. destruct (_ || _); [done|].
    apply json_updatePlanStatus, json_setPlan; [|done]. destruct Hs as [[_ Hpl _ _ _ _ _] _]. rw Hp in Hpl. by apply json_markDone; [apply Hc|].
  - unfold withActive. destruct (ActivePlan s) as [p|] eqn:Hp; [|done]. destruct (String.eqb _ id); [|done].
    destruct Hs as [[Hv Hpl Hx Hu Hr Hl Hcp] Hst]. rw Hp in Hpl. split; [split|]; cbn; try done. destruct (PKind p); [done|]. by destruct Hpl; split.
  - unfold withActive. destruct (ActivePlan s) as [p|]; [|done]. destruct (String.eqb _ id); [|done]. destruct (String.eqb _ ""); [done|].
    by apply json_updatePlanStatus, json_setPlan; [apply Hc|].
  - by apply json_updatePlanStatus, json_setPlan.
  - destruct Hs as [[Hv Hp Hx Hu Hr Hl Hcp] Hst]. split; [split|]; cbn; try done. clear -Hc Hu. revert Hu. generalize (Unavailable s).
    induction Hc as [|u slots Hu0 Hc IH]; intros m Hm; [done|]. apply IH. apply map_Forall_insert_2; [|done]. split; [apply Hu0|done].
  - destruct (String.eqb id ""); [done|]. destruct Hs as [[Hv Hp Hx Hu Hr Hl Hcp] Hst]. split; [split|]; cbn; try done. by apply map_Forall_insert_2.
Qed.
Lemma json_Apply index c s : 0 <= index <= maxUint64 -> json_command c -> json_state s -> json_state (Apply index c s).2.
Proof.
  intros Hi Hc Hs. pose proof (json_applyCommand c s Hc Hs) as Ha. unfold Apply. destruct (applyCommand c s) as [[e|] s']; [done|]. cbn [snd] in *.
  pose proof (json_setIndex index (match c with CommandPlanComplete _ => true | _ => false end) s' Hi Ha) as Hx.
  destruct c; try (apply json_setOperation; [done|exact Hx]). apply json_updatePlanStatus, json_setOperation; [|exact Hx].
  destruct Hs as [[[_ _ _ _ _ [H1 H2 H3 H4 H5 H6]] _ _ _ _ _ _] _]. done.
Qed.

(** ** Replay *)

Definition marshalLog (log : list (Z * Command)) : option (list (Z * string)) :=
  mapM (fun p => data ← marshalCommand p.2; Some (p.1, data)) log.
Fixpoint ApplyEntries (entries : list (Z * string)) (s : FSMSnapshot) : option FSMSnapshot :=
  match entries with
  | [] => Some s
  | (index, data) :: entries => '(_, s) ← ApplyEntry index data s; ApplyEntries entries s
  end.
Definition json_log (log : list (Z * Command)) : Prop := Forall (fun p => 0 <= p.1 <= maxUint64 /\ json_command p.2) log.

Lemma ApplyEntries_app a b s : ApplyEntries (a ++ b) s = s ← ApplyEntries a s; ApplyEntries b s.
Proof.
  revert s. induction a as [|[index data] a IH]; intros s; [done|]. cbn [app ApplyEntries]. destruct (ApplyEntry index data s) as [[e s']|]; [|done]. apply IH.
Qed.
Lemma log_exact log s : json_log log -> json_state s ->
  exists entries, marshalLog log = Some entries /\ (forall s', ApplyEntries entries s' = Some (ApplyLog log s')) /\ json_state (ApplyLog log s).
Proof.
  intros Hlog. revert s. induction Hlog as [|[index c] log [Hi Hc] Hlog IH]; intros s Hs; [by exists []|].
  cbn [fst snd] in *. destruct (entry_exact index c s Hc) as (data & Hd & _). destruct (IH (Apply index c s).2) as (entries & He & Hall & Hj); [by apply json_Apply|].
  exists ((index, data) :: entries). split_and!.
  - unfold marshalLog in *. cbn [mapM]. cbn [fst snd]. rw Hd. cbn [mbind option_bind]. rw He. done.
  - intros s'. destruct (entry_exact index c s' Hc) as (data' & Hd' & Hs'). rw Hd in Hd'. injection Hd' as <-. cbn [ApplyEntries]. rw Hs'.
    cbn [mbind option_bind]. rw (surjective_pairing (Apply index c s')). rw Hall. done.
  - exact Hj.
Qed.

(** C21: A controller that is restarted from the bytes of a snapshot
    and the bytes of the rest of the log reaches the same state as a controller
    that applied the whole log: every command and the whole state survive their
    encoding as JSON, also the view that is decoded into the view before it, when
    all views have the same number of slots, as they do in a cluster. *)
Theorem controller_restart_exact (n : nat) (before after : list (Z * Command)) :
  json_log before -> json_log after -> Forall (fun p => observes n p.2) before ->
  exists first rest raw mid restored,
    marshalLog before = Some first /\ marshalLog after = Some rest /\
    ApplyEntries first NewFSM = Some mid /\ SnapshotBytes mid = Some raw /\ Restore raw = Some restored /\
    ApplyEntries rest restored = Some (ApplyLog (before ++ after) NewFSM) /\
    ApplyEntries (first ++ rest) NewFSM = Some (ApplyLog (before ++ after) NewFSM).
Proof.
  intros Hb Ha Hn. destruct (log_exact before NewFSM Hb json_NewFSM) as (first & Hf & Hfall & Hj).
  destruct (log_exact after _ Ha Hj) as (rest & Hr & Hrall & _). destruct (restore_exact _ (proj1 Hj)) as (raw & Hraw & Hres).
  destruct (ApplyLog_stale n before NewFSM Hn eq_refl (or_introl eq_refl)) as [Hst _].
  assert (Hsame : State (ApplyLog before NewFSM) = ApplyLog before NewFSM).
  { unfold State. destruct (ApplyLog before NewFSM). cbn in *. by subst. }
  assert (Happ : ApplyLog (before ++ after) NewFSM = ApplyLog after (ApplyLog before NewFSM)) by (unfold ApplyLog; by rw foldl_app).
  exists first, rest, raw, (ApplyLog before NewFSM), (State (ApplyLog before NewFSM)). rw Happ. split_and!; try done.
  - by rw Hrall Hsame.
  - rw ApplyEntries_app Hfall. cbn [mbind option_bind]. apply Hrall.
Qed.

Definition smallView (up : bool) : ClusterView :=
  mkView "c" 7 [mkSlotView 0 "n1" "n2" 1 true] {["n1" := mkNodeView "n1" up (negb up) 2 1 0 up false]} 63900000000000000000
    (mkStatus "degraded" (if up then [] else ["n1"]) [] 1 0 "").
Definition smallPlan : RecoveryPlan := mkPlan "p" PlanKindRecovery "n1 failed" 7 ["n1"] [mkStep StepPromote 0 "n2"] ∅ [] [0].
Lemma smallView_json up : json_view (smallView up).
Proof.
  split; [done|done| | |by vm_compute|].
  - constructor; [|done]. by split.
  - intros k node. unfold smallView. cbn [Nodes]. rw lookup_singleton_Some. intros [<- <-]. split; [done|]. by repeat split.
  - destruct up; (split; [done| |apply Forall_nil_2|done..]); [apply Forall_nil_2|apply Forall_singleton; done].
Qed.
Lemma smallPlan_json : json_plan smallPlan.
Proof.
  split; [done|done|done|apply Forall_singleton; done|apply Forall_singleton; by split|apply map_Forall_empty|apply Forall_nil_2|apply Forall_singleton; done].
Qed.

Lemma controller_restart_exact_witness : exists first rest raw mid restored,
  marshalLog [(1, CommandObserveView (smallView false)); (2, CommandProposePlan smallPlan)] = Some first /\
  marshalLog [(3, CommandStepDone "p" 0); (4, CommandObserveView (smallView true))] = Some rest /\
  ApplyEntries first NewFSM = Some mid /\ SnapshotBytes mid = Some raw /\ Restore raw = Some restored /\
  ApplyEntries rest restored = ApplyEntries (first ++ rest) NewFSM.
Proof.
  destruct (controller_restart_exact 1 [(1, CommandObserveView (smallView false)); (2, CommandProposePlan smallPlan)]
    [(3, CommandStepDone "p" 0); (4, CommandObserveView (smallView true))]) as (first & rest & raw & mid & restored & H1 & H2 & H3 & H4 & H5 & H6 & H7).
  - constructor; [split; [by split|apply smallView_json]|]. constructor; [split; [by split|apply smallPlan_json]|]. constructor.
  - constructor; [split; [by split|by split]|]. constructor; [split; [by split|apply smallView_json]|]. constructor.
  - by repeat constructor.
  - exists first, rest, raw, mid, restored. split; [exact H1|]. split; [exact H2|]. split; [exact H3|]. split; [exact H4|]. split; [exact H5|].
    rw H6 H7. reflexivity.
Defined.
