(* ===== verification/Membership.v ===== *)
(** * Membership: [internal/cluster/membership.go], [gossip.go] and
    [membership_view.go]

    Every node probes its peers with PING through the proxy and keeps a state
    per peer.  A round of the gossip loop probes the peers in the order in
    which Go ranges over the map, then applies the timeouts.  The times at
    which the operations read the clock are arguments, in nanoseconds. *)
From S2P Require Import Prelude GoText GoFloat Resp SkipList Eviction Store Executor Engine Snapshot Metadata Server Cluster Topology.
From S2P Require Import ControlFSM Planner PlannerSpec.
Local Open Scope Z_scope.

Inductive PeerState := StateHealthy | StateSuspect | StateUnavailable | StateRecovering.
#[export] Instance PeerState_eq_dec : EqDecision PeerState.
Proof. solve_decision. Defined.
Definition PeerStateText (s : PeerState) : string :=
  match s with
  | StateHealthy => "healthy" | StateSuspect => "suspect" | StateUnavailable => "unavailable" | StateRecovering => "recovering"
  end.

Record peerEntry := mkEntry { peAddress : string; peState : PeerState; lastSeen : Z }.
Record Membership := mkMembership { msPeers : gmap string peerEntry; msSuspect : Z; msDead : Z }.

Definition NewMembership (self : string) (ps : list (string * string)) (suspect dead now : Z) : Membership :=
  mkMembership
    (foldl (fun m p => if String.eqb p.1 self then m else <[p.1 := mkEntry p.2 StateHealthy now]> m) ∅ ps)
    (orDefault suspect (3 * second)) (orDefault dead (10 * second)).

Definition setPeers (m : Membership) (ps : gmap string peerEntry) : Membership := mkMembership ps (msSuspect m) (msDead m).

Definition MarkAlive (id : string) (now : Z) (m : Membership) : Membership :=
  setPeers m (alter (fun p => mkEntry (peAddress p) StateHealthy now) id (msPeers m)).
Definition MarkFailed (id : string) (m : Membership) : Membership :=
  setPeers m (alter (fun p => mkEntry (peAddress p)
    (match peState p with StateHealthy => StateSuspect | StateSuspect => StateUnavailable | s => s end) (lastSeen p)) id (msPeers m)).
Definition tickEntry (m : Membership) (now : Z) (p : peerEntry) : peerEntry :=
  let gap := now - lastSeen p in
  if (msDead m <=? gap) && negb (bool_decide (peState p = StateUnavailable)) then mkEntry (peAddress p) StateUnavailable (lastSeen p)
  else if (msSuspect m <=? gap) && bool_decide (peState p = StateHealthy) then mkEntry (peAddress p) StateSuspect (lastSeen p)
  else p.
Definition Tick (now : Z) (m : Membership) : Membership := setPeers m (tickEntry m now <$> msPeers m).

Section gossip.
Context `{MapRange}.

Record MemberInfo := mkMember { MemberID : string; MemberAddress : string; MemberState : string }.
Definition MembershipSnapshot (m : Membership) : list MemberInfo :=
  (fun p => mkMember p.1 (peAddress p.2) (PeerStateText (peState p.2))) <$> range_map (msPeers m).
Definition MemberPeers (m : Membership) : list string := fst <$> range_map (msPeers m).

(** The probes of a round through the proxy of the node; [times] are the
    clock readings of the answers. *)
Context `{Texts} {N : Type} `{Net N} (cfg : NodeConfig).
Fixpoint probePeers (times : string -> Z) (ids : list string) (m : Membership) (w : World N) : Membership * World N :=
  match ids with
  | [] => (m, w)
  | id :: ids =>
      let '(r, w) := Forward cfg id (mkCommand "PING" []) w in
      match r with
      | inr _ => probePeers times ids (MarkFailed id m) w
      | inl _ => probePeers times ids (MarkAlive id (times id) m) w
      end
  end.
Definition probe (times : string -> Z) (m : Membership) (w : World N) : Membership * World N :=
  probePeers times (MemberPeers m) m w.
(** One turn of the loop of the gossip. *)
Definition gossipRound (times : string -> Z) (now : Z) (m : Membership) (w : World N) : Membership * World N :=
  let '(m, w) := probe times m w in (Tick now m, w).
End gossip.

(** ** Detection *)

Section detection.
Context `{MapRangeOk, Texts} {N : Type} `{Net N} (cfg : NodeConfig) (up : string -> bool).
(** Who answers a probe. *)
Hypothesis Hup : forall id w, match (Forward cfg id (mkCommand "PING" []) w).1 with inl _ => up id = true | inr _ => up id = false end.

(** What the probe of a peer makes of its entry. *)
Definition probed (times : string -> Z) (id : string) (p : peerEntry) : peerEntry :=
  if up id then mkEntry (peAddress p) StateHealthy (times id)
  else mkEntry (peAddress p)
    (match peState p with StateHealthy => StateSuspect | StateSuspect => StateUnavailable | s => s end) (lastSeen p).

Lemma probePeers_lookup times ids m w id :
  NoDup ids ->
  msPeers (probePeers cfg times ids m w).1 !! id =
    (if bool_decide (id ∈ ids) then probed times id <$> msPeers m !! id else msPeers m !! id) /\
  msSuspect (probePeers cfg times ids m w).1 = msSuspect m /\ msDead (probePeers cfg times ids m w).1 = msDead m.
Proof.
  revert m w. induction ids as [|i ids IH]; intros m w Hnd; simpl; [done|]. apply NoDup_cons in Hnd as [Hi Hnd].
  pose proof (Hup i w) as Hu. destruct (Forward cfg i (mkCommand "PING" []) w) as [[frame|err] w1]; simpl in Hu.
  all: destruct (IH (if up i then MarkAlive i (times i) m else MarkFailed i m) w1 Hnd) as (Hl & Hs & Hd); rw Hu in Hl, Hs, Hd;
    rw Hl Hs Hd; split; [|done]; simpl; destruct (decide (i = id)) as [<-|Hne].
  1,3: rw (bool_decide_eq_false_2 (i ∈ ids)) // bool_decide_eq_true_2; [left|]; rw lookup_alter_eq; unfold probed; by rw Hu.
  all: rw lookup_alter_ne // (bool_decide_ext (id ∈ i :: ids) (id ∈ ids)) //; rw elem_of_cons; naive_solver.
Qed.

Lemma gossipRound_lookup times now m w id :
  msPeers (gossipRound cfg times now m w).1 !! id = tickEntry m now <$> (probed times id <$> msPeers m !! id) /\
  msSuspect (gossipRound cfg times now m w).1 = msSuspect m /\ msDead (gossipRound cfg times now m w).1 = msDead m.
Proof.
  unfold gossipRound, probe. pose proof (range_keys_NoDup (msPeers m)) as Hnd.
  destruct (probePeers_lookup times (MemberPeers m) m w id Hnd) as (Hl & Hs & Hd).
  destruct (probePeers cfg times (MemberPeers m) m w) as [m1 w1]. simpl in *. split; [|done]. rw lookup_fmap Hl. unfold tickEntry. rw Hs Hd.
  case_bool_decide as Hin; [done|]. destruct (msPeers m !! id) as [p|] eqn:Hp; [|done]. exfalso. apply Hin.
  unfold MemberPeers. apply list_elem_of_fmap. exists (id, p). split; [done|]. by apply range_elem.
Qed.
End detection.

(** C27: Two rounds of the gossip tell who is there: a peer that
    does not answer is not called healthy after the first round and is called
    unavailable after the second, whatever the timeouts; a peer that answers is
    called healthy when the round ends within the suspicion timeout. *)
Theorem gossip_detects `{MapRangeOk, Texts} {N : Type} `{Net N} (cfg : NodeConfig) (up : string -> bool)
    (m : Membership) (w : World N) (times1 times2 : string -> Z) (now1 now2 : Z) (id : string) (p : peerEntry) :
  (forall id w, match (Forward cfg id (mkCommand "PING" []) w).1 with inl _ => up id = true | inr _ => up id = false end) ->
  msPeers m !! id = Some p -> peState p <> StateRecovering ->
  let '(m1, w1) := gossipRound cfg times1 now1 m w in
  let m2 := (gossipRound cfg times2 now2 m1 w1).1 in
  exists p1 p2, msPeers m1 !! id = Some p1 /\ msPeers m2 !! id = Some p2 /\ peAddress p2 = peAddress p /\
    (up id = false -> peState p1 <> StateHealthy /\ peState p2 = StateUnavailable) /\
    (up id = true -> now2 - times2 id < msSuspect m -> now2 - times2 id < msDead m -> peState p2 = StateHealthy).
Proof.
  intros Hup Hp Hrec. destruct (gossipRound_lookup cfg up Hup times1 now1 m w id) as (Hl1 & Hs1 & Hd1).
  destruct (gossipRound cfg times1 now1 m w) as [m1 w1]. simpl in Hl1, Hs1, Hd1.
  destruct (gossipRound_lookup cfg up Hup times2 now2 m1 w1 id) as (Hl2 & _ & _). rw Hp in Hl1. simpl in Hl1. rw Hl1 in Hl2.
  eexists _, _. split_and!; [exact Hl1|exact Hl2|..]; unfold tickEntry, probed; rw ?Hs1 ?Hd1.
  - by repeat case_match.
  - intros ->. simpl. destruct (peState p), (msDead m <=? now1 - lastSeen p), (msSuspect m <=? now1 - lastSeen p); simpl; try done.
    all: split; [done|]; by destruct (msDead m <=? now2 - lastSeen p), (msSuspect m <=? now2 - lastSeen p).
  - intros -> Ht1 Ht2. simpl. rw (proj2 (Z.leb_gt _ _) Ht1) (proj2 (Z.leb_gt _ _) Ht2). done.
Qed.

(** Nobody answers. *)
Definition silentTexts : Texts := {| Quote s := s; readErrText _ := "EOF"; snapErrText _ := "" |}.
Definition aloneConfig : NodeConfig := mkNodeConfig "a" [] 0 LRU true.
Definition aloneWorld : World unit := mkWorld (mkMetadata "" 0 0 "" [] ∅ []) true ∅ tt.

Lemma gossip_detects_witness :
  let m0 := NewMembership "a" [("a", "ha"); ("b", "hb")] 0 0 0 in
  let '(m1, w1) := gossipRound (H0 := silentTexts) aloneConfig (fun _ => 0) 1 m0 aloneWorld in
  exists p1 p2, msPeers m1 !! "b" = Some p1 /\
    msPeers (gossipRound (H0 := silentTexts) aloneConfig (fun _ => 0) 1 m1 w1).1 !! "b" = Some p2 /\
    peState p1 <> StateHealthy /\ peState p2 = StateUnavailable.
Proof.
  assert (Hn : forall i w, match (Forward (N := unit) (H1 := silentTexts) aloneConfig i (mkCommand "PING" []) w).1 with
    | inl _ => (fun _ => false) i = true | inr _ => (fun _ => false) i = false end).
  { intros i w. unfold Forward, roundTrip, getConn. simpl. by destruct (conns w !! i). }
  pose proof (gossip_detects (H1 := silentTexts) aloneConfig (fun _ => false) (NewMembership "a" [("a", "ha"); ("b", "hb")] 0 0 0) aloneWorld
    (fun _ => 0) (fun _ => 0) 1 1 "b" (mkEntry "hb" StateHealthy 0) Hn ltac:(vm_compute; reflexivity) ltac:(done)) as Hd.
  cbv zeta. destruct (gossipRound _ _ _ _ _) as [m1 w1]. destruct Hd as (p1 & p2 & H1 & H2 & _ & Hdown & _). exists p1, p2.
  destruct (Hdown eq_refl). by split_and!.
Defined.
