(* ===== verification/NodeClient.v ===== *)
(** * The controller's HTTP client: [internal/controller/nodeclient.go], with
    the request bodies and responses of [internal/api]

    A call of the client is one HTTP request; how the network carries it is the
    class [HTTPTransport].  The bodies are JSON.  The addresses and the connection
    handling of [net/http] are not modelled: a transport is asked for a peer. *)
From S2P Require Import Prelude Encoding GoText GoTime Json JsonCodec Store Executor Engine Metadata Server Cluster.
From S2P Require Import Topology ControlFSM Planner Observer ControlExecutor AdminNode.
Local Open Scope Z_scope.

(** ** Request bodies *)

Definition promoteBody (slot : Z) : string := printJson (JObj [("slot", encUint slot)]).
Definition replicaBody (slot : Z) (id : string) : string := printJson (JObj [("slot", encUint slot); ("nodeId", JStr id)]).
Definition returningBody (clusterId : string) (metadataVersion : Z) : string :=
  printJson (JObj [("clusterId", JStr clusterId); ("metadataVersion", encUint metadataVersion)]).

(** [decodeJSONBody] *)
Definition decodeJSONBody {A} (dec : Dec A) (zero : A) (body : string) : option A :=
  if maxJSONBodyBytes <? slen body then None else j ← parseJson body; dec j zero.

Definition decSlotRequest : Dec Z := decStruct true ["slot"] (fun get slot => get _ "slot" decUint32 slot).
Definition decReplicaRequest : Dec (Z * string) := decStruct true ["slot"; "nodeId"] (fun get r =>
  slot ← get _ "slot" decUint32 r.1; id ← get _ "nodeId" decString r.2; Some (slot, id)).
Definition decReturningRequest : Dec (string * Z) := decStruct true ["clusterId"; "metadataVersion"] (fun get r =>
  clusterId ← get _ "clusterId" decString r.1; metadataVersion ← get _ "metadataVersion" decUint64 r.2; Some (clusterId, metadataVersion)).
#[export] Instance goBodies : AdminJSON := {|
  decodeSlotRequest := decodeJSONBody decSlotRequest 0;
  decodeReplicaRequest := decodeJSONBody decReplicaRequest (0, "");
  decodeReturningRequest := decodeJSONBody decReturningRequest ("", 0)
|}.

(** ** Responses *)

Record HTTPResponse := mkHTTPResponse { StatusCode : Z; ResponseBody : string }.

(** [writeJSON] *)
Definition writeJSON (status : Z) (j : Json) : HTTPResponse := mkHTTPResponse status (printJson j +:+ LF).
Definition errorJson (text : string) : Json := JObj [("error", JStr text)].

(** [SlotStatus] of [api/dto.go]. *)
Definition slotStatusJson (m : Metadata) (slot : SlotState) : Json :=
  JObj ([("number", encUint (Number slot)); ("leaderId", JStr (LeaderID slot))] ++ omitString "replicaId" (ReplicaID slot) ++
        [("localRole", JStr (LocalRole m slot)); ("term", encUint (Term slot)); ("lastSequence", encUint (LastSequence slot));
         ("lastAppliedSequence", encUint (LastAppliedSequence slot)); ("replicaReady", JBool (ReplicaReady slot))]).
Definition adminDoneJson (m : Metadata) (metadataVersion : Z) (slot : SlotState) (failedPeers : list string) : Json :=
  JObj ([("metadataVersion", encUint metadataVersion); ("slot", slotStatusJson m slot)] ++ omitList "failedPeers" JStr failedPeers).
Definition returningJson (r : ReturningNodeResponse) : Json :=
  JObj [("clusterId", JStr (RNClusterID r)); ("metadataVersion", encUint (RNMetadataVersion r)); ("entryCount", encInt (RNEntryCount r));
        ("removedSnapshots", encInt (RNRemovedSnapshots r)); ("dataState", JStr (RNDataState r))].
(** [requireMethod] answers with plain text. *)
Definition encodeResponse (m : Metadata) (r : AdminResponse) : HTTPResponse :=
  match r with
  | Refused status text => if status =? 405 then mkHTTPResponse 405 (text +:+ LF) else writeJSON status (errorJson text)
  | AdminDone metadataVersion slot failedPeers => writeJSON 200 (adminDoneJson m metadataVersion slot failedPeers)
  | ReturningState r => writeJSON 200 (returningJson r)
  end.

(** ** The client *)

Definition decSlotStatus : Dec SlotStatus :=
  decStruct false ["number"; "leaderId"; "replicaId"; "term"; "replicaReady"] (fun get s =>
    number ← get _ "number" decUint32 (SSNumber s); leader ← get _ "leaderId" decString (SSLeader s);
    replica ← get _ "replicaId" decString (SSReplica s); term ← get _ "term" decUint64 (SSTerm s);
    ready ← get _ "replicaReady" decBool (SSReady s); Some (mkSlotStatus number leader replica term ready)).
Definition zeroStatusSlot : SlotStatus := mkSlotStatus 0 "" "" 0 false.

Record ClusterAdminResponse := mkAdminReply { ARMetadataVersion : Z; ARSlot : SlotStatus; ARFailedPeers : list string }.
Definition zeroAdminReply : ClusterAdminResponse := mkAdminReply 0 zeroStatusSlot [].
Definition decAdminReply : Dec ClusterAdminResponse :=
  decStruct false ["metadataVersion"; "slot"; "failedPeers"] (fun get r =>
    version ← get _ "metadataVersion" decUint64 (ARMetadataVersion r); slot ← get _ "slot" decSlotStatus (ARSlot r);
    failed ← get _ "failedPeers" (decSlice "" decString) (mkSlice (ARFailedPeers r) []);
    Some (mkAdminReply version slot (visible failed))).
Definition decReturningReply : Dec ReturningNodeResponse :=
  decStruct false ["clusterId"; "metadataVersion"; "entryCount"; "removedSnapshots"; "dataState"] (fun get r =>
    clusterId ← get _ "clusterId" decString (RNClusterID r); version ← get _ "metadataVersion" decUint64 (RNMetadataVersion r);
    entries ← get _ "entryCount" decInt64 (RNEntryCount r); removed ← get _ "removedSnapshots" decInt64 (RNRemovedSnapshots r);
    state ← get _ "dataState" decString (RNDataState r); Some (mkReturning clusterId version entries removed state)).
Definition decHealth : Dec HealthResponse :=
  decStruct false ["status"; "nodeId"; "mode"; "dataState"] (fun get h =>
    status ← get _ "status" decString (HStatus h); id ← get _ "nodeId" decString (HNodeID h);
    _ ← get _ "mode" decString ""; _ ← get _ "dataState" decString ""; Some (mkHealth status id)).
Definition decClusterState : Dec ClusterStateResponse :=
  decStruct false ["enabled"; "nodeId"; "clusterId"; "slotCount"; "metadataVersion"; "slots"; "dataState"] (fun get r =>
    enabled ← get _ "enabled" decBool (REnabled r); id ← get _ "nodeId" decString (RNodeID r);
    clusterId ← get _ "clusterId" decString (RClusterID r); count ← get _ "slotCount" decUint32 (RSlotCount r);
    version ← get _ "metadataVersion" decUint64 (RMetadataVersion r);
    slots ← get _ "slots" (decSlice zeroStatusSlot decSlotStatus) (mkSlice (RSlots r) []);
    state ← get _ "dataState" decString (RDataState r);
    Some (mkResponse enabled id clusterId count version (visible slots) state)).

Inductive ClientErr := TransportFailed (text : string) | HTTPStatusError (code : Z) | DecodeFailed.

(** Sending a request to a peer. *)
Class HTTPTransport (W : Type) := roundTrip : string -> HTTPRequest -> W -> (HTTPResponse + string) * W.

Definition maxResponse : nat := Z.to_nat 8388608.

Section client.
Context `{Crypto} {W : Type} `{HTTPTransport W} (secret : string).

Definition signedRequest (path body : string) (controlIndex : Z) : HTTPRequest :=
  let index := FormatUint controlIndex in mkHTTP "POST" path body index (Sign secret "POST" path body index).

(** The first value of the body, of at most 8 MB; what follows it is ignored. *)
Definition decodeReply {A} (dec : Dec A) (zero : A) (response : HTTPResponse) : A + ClientErr :=
  if negb (StatusCode response =? 200) then inr (HTTPStatusError (StatusCode response))
  else match nextJson (stake maxResponse (ResponseBody response)) with
  | None => inr DecodeFailed
  | Some (j, _) => match dec j zero with Some a => inl a | None => inr DecodeFailed end
  end.
Definition post {A} (dec : Dec A) (zero : A) (peer path body : string) (controlIndex : Z) (w : W) : (A + ClientErr) * W :=
  match roundTrip peer (signedRequest path body controlIndex) w with
  | (inr text, w) => (inr (TransportFailed text), w)
  | (inl response, w) => (decodeReply dec zero response, w)
  end.
Definition postAdmin : string -> string -> string -> Z -> W -> (ClusterAdminResponse + ClientErr) * W := post decAdminReply zeroAdminReply.
Definition postReturning : string -> string -> string -> Z -> W -> (ReturningNodeResponse + ClientErr) * W :=
  post decReturningReply (mkReturning "" 0 0 0 "").

Definition ClientPromote (peer : string) (slot controlIndex : Z) := postAdmin peer "/cluster/promote" (promoteBody slot) controlIndex.
Definition ClientAssignReplica (peer : string) (slot : Z) (id : string) (controlIndex : Z) :=
  postAdmin peer "/cluster/replica" (replicaBody slot id) controlIndex.
Definition ClientSyncReplica (peer : string) (slot : Z) (id : string) (controlIndex : Z) :=
  postAdmin peer "/cluster/sync" (replicaBody slot id) controlIndex.
Definition ClientPrepareReturning (peer clusterId : string) (metadataVersion controlIndex : Z) :=
  postReturning peer "/cluster/returning/prepare" (returningBody clusterId metadataVersion) controlIndex.
Definition ClientAdmitReturning (peer clusterId : string) (metadataVersion controlIndex : Z) :=
  postReturning peer "/cluster/returning/admit" (returningBody clusterId metadataVersion) controlIndex.

(** [getJSON]: data after the value is an error. *)
Definition getJSON {A} (dec : Dec A) (zero : A) (peer path : string) (w : W) : (A + ClientErr) * W :=
  match roundTrip peer (mkHTTP "GET" path "" "" "") w with
  | (inr text, w) => (inr (TransportFailed text), w)
  | (inl response, w) =>
      (if negb (StatusCode response =? 200) then inr (HTTPStatusError (StatusCode response))
       else match parseJson (stake maxResponse (ResponseBody response)) with
       | None => inr DecodeFailed
       | Some j => match dec j zero with Some a => inl a | None => inr DecodeFailed end
       end, w)
  end.
Definition ClientHealth (peer : string) := getJSON decHealth (mkHealth "" "") peer "/health".
Definition ClientClusterState (peer : string) := getJSON decClusterState (mkResponse false "" "" 0 0 [] "") peer "/cluster/state".
End client.

(** ** The routes of the administrative interface *)

Section routes.
Context `{Env, SliceSort, Texts, JSON} {N : Type} `{Net N} `{Crypto} (srv : ServerConfig) (cfg : NodeConfig).

(** What the answers to reads have beside the state of the node. *)
Record StateExtras := mkExtras {
  exMode : string;
  exRouting : string;
  exFailover : string;
  exPeers : list string;
  exMembership : list (string * string * string);
  exRecovery : option Json
}.
Context (ex : StateExtras).

(** [HealthResponse], [PeerStatus] and [ClusterStateResponse] of [api/dto.go]. *)
Definition healthJson (h : HealthResponse) (dataState : string) : Json :=
  JObj ([("status", JStr (HStatus h)); ("nodeId", JStr (HNodeID h)); ("mode", JStr (exMode ex))] ++ omitString "dataState" dataState).
Definition peerStatusJson : string * string * string -> Json :=
  fun '(id, address, state) => JObj [("id", JStr id); ("address", JStr address); ("state", JStr state)].
Definition clusterStateJson (m : Metadata) (r : ClusterStateResponse) : Json :=
  JObj ([("enabled", JBool (REnabled r)); ("nodeId", JStr (RNodeID r))] ++ omitString "clusterId" (RClusterID r) ++
        omitUint "slotCount" (RSlotCount r) ++ omitUint "metadataVersion" (RMetadataVersion r) ++
        omitString "routingMode" (exRouting ex) ++ omitString "failoverMode" (exFailover ex) ++
        [("peers", match exPeers ex with [] => JNull | ids => JArr (map JStr ids) end)] ++
        omitList "membership" peerStatusJson (exMembership ex) ++ omitList "slots" (slotStatusJson m) (slots m) ++
        match exRecovery ex with Some j => [("recovery", j)] | None => [] end ++ omitString "dataState" (RDataState r)).

(** The paths of the controller's reads. *)
Definition serveRead (r : HTTPRequest) (a : AdminNode (N := N)) : HTTPResponse :=
  let m := wMeta (engHook (anNode a)) in
  if String.eqb (Method r) "OPTIONS" then mkHTTPResponse 204 ""
  else if String.eqb (URLPath r) "/health" then
    match handleHealth cfg r a with
    | inl h => writeJSON 200 (healthJson h (DataState (admitted (engHook (anNode a)))))
    | inr refused => encodeResponse m refused
    end
  else if String.eqb (URLPath r) "/cluster/state" then
    match handleClusterState srv cfg r a with
    | inl state => writeJSON 200 (clusterStateJson m state)
    | inr refused => encodeResponse m refused
    end
  else mkHTTPResponse 404 ("404 page not found" +:+ LF).

(** What the mux does with a request to one of the paths of the controller;
    [withCORS] answers [OPTIONS] itself. *)
Definition serveAdmin (disk : option string) (invalidate : Z + string) (r : HTTPRequest) (a : AdminNode (N := N))
    : option (HTTPResponse * AdminNode (N := N)) :=
  let answer (x : option (AdminResponse * AdminNode (N := N))) :=
    '(resp, a) ← x; Some (encodeResponse (wMeta (engHook (anNode a))) resp, a) in
  if String.eqb (Method r) "OPTIONS" then Some (mkHTTPResponse 204 "", a)
  else if String.eqb (URLPath r) "/cluster/promote" then answer (handleClusterPromote srv cfg disk r a)
  else if String.eqb (URLPath r) "/cluster/replica" then answer (handleClusterReplica srv cfg disk r a)
  else if String.eqb (URLPath r) "/cluster/sync" then answer (handleClusterSync srv cfg disk r a)
  else if String.eqb (URLPath r) "/cluster/returning/prepare" then answer (handleReturningNodePrepare srv cfg invalidate disk r a)
  else if String.eqb (URLPath r) "/cluster/returning/admit" then answer (handleReturningNodeAdmit srv disk r a)
  else Some (mkHTTPResponse 404 ("404 page not found" +:+ LF), a).
End routes.
