(* ===== verification/NodeClientSpec.v ===== *)
(** * The controller's calls reach the nodes

    A call of the client at one end and the handlers of a node at the other:
    what the node does is the operation that was asked for, behind the fence,
    and what the client returns is what the node did. *)
From S2P Require Import Prelude Encoding GoText GoTime Json JsonCodec JsonPrefix Store Executor Engine Metadata Server Cluster.
From S2P Require Import Topology ControlFSM Planner Observer ControlExecutor AdminNode ClusterSpec NodeClient.
Local Open Scope Z_scope.

(** ** The calls *)

Inductive Call :=
| CallPromote (slot : Z)
| CallAssignReplica (slot : Z) (id : string)
| CallSyncReplica (slot : Z) (id : string)
| CallPrepareReturning (clusterId : string) (metadataVersion : Z)
| CallAdmitReturning (clusterId : string) (metadataVersion : Z).

Definition callPath (c : Call) : string :=
  match c with
  | CallPromote _ => "/cluster/promote"
  | CallAssignReplica _ _ => "/cluster/replica"
  | CallSyncReplica _ _ => "/cluster/sync"
  | CallPrepareReturning _ _ => "/cluster/returning/prepare"
  | CallAdmitReturning _ _ => "/cluster/returning/admit"
  end.
Definition callBody (c : Call) : string :=
  match c with
  | CallPromote slot => promoteBody slot
  | CallAssignReplica slot id | CallSyncReplica slot id => replicaBody slot id
  | CallPrepareReturning clusterId v | CallAdmitReturning clusterId v => returningBody clusterId v
  end.

(** The arguments that the types of the client and JSON can represent; the body
    has at most 1 MB. *)
Definition call_ok (c : Call) : Prop :=
  slen (callBody c) <= maxJSONBodyBytes /\
  match c with
  | CallPromote slot => 0 <= slot <= 4294967295
  | CallAssignReplica slot id => 0 <= slot <= 4294967295 /\ utf8 id /\ id <> ""
  | CallSyncReplica slot id => 0 <= slot <= 4294967295 /\ utf8 id
  | CallPrepareReturning clusterId v | CallAdmitReturning clusterId v =>
      utf8 clusterId /\ clusterId <> "" /\ 0 < v <= maxUint64
  end.

(** ** Bodies *)

Lemma parse_object ms : faithful 3 (JObj ms) -> parseJson (printJson (JObj ms)) = Some (JObj ms).
Proof. intros [Hok Hv Hd]. rw parse_print //; [unfold maxNestingDepth; lia|]. by rw Hv. Qed.

Lemma decodeJSONBody_enc {A} (dec : Dec A) zero ms a :
  faithful 1 (JObj ms) -> dec (JObj ms) zero = Some a -> slen (printJson (JObj ms)) <= maxJSONBodyBytes ->
  decodeJSONBody dec zero (printJson (JObj ms)) = Some a.
Proof.
  intros [Hok Hv Hd] Ha Hl. unfold decodeJSONBody. destruct (Z.ltb_spec maxJSONBodyBytes (slen (printJson (JObj ms)))); [lia|].
  rw parse_object; [split; [done|done|lia]|]. done.
Qed.
Lemma decode_promoteBody slot : 0 <= slot <= 4294967295 -> slen (promoteBody slot) <= maxJSONBodyBytes -> decodeSlotRequest (promoteBody slot) = Some slot.
Proof.
  intros Hs Hl. apply decodeJSONBody_enc; [| |done].
  - apply faithful_obj. assert (0 <= slot <= maxUint64) by (unfold maxUint64; lia). members.
  - pose proof (decUint_enc 4294967295 slot 0 Hs ltac:(done)) as H1. change (decUint 4294967295) with decUint32 in H1.
    revert H1. generalize (encUint slot). intros j H1. lazy -[decUint32]. by rw H1.
Qed.
Lemma decode_replicaBody slot id : 0 <= slot <= 4294967295 -> utf8 id -> slen (replicaBody slot id) <= maxJSONBodyBytes ->
  decodeReplicaRequest (replicaBody slot id) = Some (slot, id).
Proof.
  intros Hs Hi Hl. apply decodeJSONBody_enc; [| |done].
  - apply faithful_obj. assert (0 <= slot <= maxUint64) by (unfold maxUint64; lia). members.
  - pose proof (decUint_enc 4294967295 slot 0 Hs ltac:(done)) as H1. change (decUint 4294967295) with decUint32 in H1.
    revert H1. generalize (encUint slot). intros j H1. lazy -[decUint32]. by rw H1.
Qed.
Lemma decode_returningBody clusterId v : 0 <= v <= maxUint64 -> utf8 clusterId -> slen (returningBody clusterId v) <= maxJSONBodyBytes ->
  decodeReturningRequest (returningBody clusterId v) = Some (clusterId, v).
Proof.
  intros Hs Hi Hl. apply decodeJSONBody_enc; [| |done].
  - apply faithful_obj. members.
  - pose proof (decUint_enc maxUint64 v 0 Hs ltac:(done)) as H1. change (decUint maxUint64) with decUint64 in H1.
    revert H1. generalize (encUint v). intros j H1. lazy -[decUint64]. by rw H1.
Qed.

(** ** Responses *)

Lemma nextJson_object d ms : faithful d (JObj ms) -> (d <= 100)%nat -> nextJson (printJson (JObj ms) +:+ LF) = Some (JObj ms, LF).
Proof.
  intros [Hok Hv Hd] Hsmall. unfold nextJson, printJson. pose proof (jfuel_length (fun _ => "") ":" _ 0 Hok).
  rw (render_reads (fun _ => "") "" (fun _ => eq_refl) eq_refl _ 0 Hok) //; [rw length_app_string; lia|unfold maxNestingDepth; lia|].
  by rw Hv.
Qed.
Lemma decodeReply_enc {A} (dec : Dec A) zero ms a :
  faithful 3 (JObj ms) -> dec (JObj ms) zero = Some a -> slen (ResponseBody (writeJSON 200 (JObj ms))) <= 8388608 ->
  decodeReply dec zero (writeJSON 200 (JObj ms)) = inl a.
Proof.
  intros Hf Ha Hl. unfold decodeReply. cbn [StatusCode writeJSON ResponseBody] in *. change (negb (200 =? 200)) with false. cbv iota.
  rw stake_all; [unfold slen in Hl; unfold maxResponse; lia|]. rw (nextJson_object 3) //; [lia|]. by rw Ha.
Qed.

(** A slot whose fields are in the range of their types, with UTF-8 names. *)
Record wire_slot (s : SlotState) : Prop := {
  ws_leader : utf8 (LeaderID s);
  ws_replica : utf8 (ReplicaID s);
  ws_number : 0 <= Number s <= 4294967295;
  ws_term : 0 <= Term s <= maxUint64;
  ws_last : 0 <= LastSequence s <= maxUint64;
  ws_applied : 0 <= LastAppliedSequence s <= maxUint64
}.
Lemma utf8_LocalRole m s : utf8 (LocalRole m s).
Proof. unfold LocalRole. by repeat case_match. Qed.
Lemma faithful_slotStatus m s : wire_slot s -> faithful 1 (slotStatusJson m s).
Proof.
  intros [Hl Hr Hn Ht Hs Ha]. apply faithful_obj. assert (0 <= Number s <= maxUint64) by (unfold maxUint64; lia). pose proof (utf8_LocalRole m s).
  unfold omitString. destruct (String.eqb _ ""); cbn [app]; members.
Qed.
Lemma decSlotStatus_enc m s : wire_slot s -> decSlotStatus (slotStatusJson m s) zeroStatusSlot = Some (slotStatus s).
Proof.
  intros [_ _ Hn Ht _ _]. pose proof (decUint_enc 4294967295 (Number s) 0 Hn ltac:(done)) as H1.
  pose proof (decUint_enc maxUint64 (Term s) 0 Ht ltac:(done)) as H2. revert H1 H2. unfold slotStatusJson, omitString.
  generalize (encUint (Number s)) (encUint (Term s)) (encUint (LastSequence s)) (encUint (LastAppliedSequence s)) (LocalRole m s).
  change (decUint maxUint64) with decUint64. change (decUint 4294967295) with decUint32. intros j1 j2 j3 j4 role H1 H2.
  destruct s as [number leader replica term last applied ready]. cbn [Number LeaderID ReplicaID Term LastSequence LastAppliedSequence ReplicaReady] in *.
  destruct (String.eqb_spec replica "") as [->|_]; lazy -[decUint64 decUint32]; by rw H1 H2.
Qed.

Definition wire_response (m : Metadata) (r : AdminResponse) : Prop :=
  slen (ResponseBody (encodeResponse m r)) <= 8388608 /\
  match r with
  | Refused code _ => code <> 200
  | AdminDone version slot failed => 0 <= version <= maxUint64 /\ wire_slot slot /\ Forall utf8 failed
  | ReturningState r =>
      utf8 (RNClusterID r) /\ utf8 (RNDataState r) /\ 0 <= RNMetadataVersion r <= maxUint64 /\
      int64_range (RNEntryCount r) /\ int64_range (RNRemovedSnapshots r)
  end.

(** What the client makes of a response. *)
Definition adminReply (r : AdminResponse) : ClusterAdminResponse + ClientErr :=
  match r with
  | Refused code _ => inr (HTTPStatusError code)
  | AdminDone version slot failed => inl (mkAdminReply version (slotStatus slot) failed)
  | ReturningState _ => inr DecodeFailed
  end.
Definition returningReply (r : AdminResponse) : ReturningNodeResponse + ClientErr :=
  match r with
  | Refused code _ => inr (HTTPStatusError code)
  | AdminDone _ _ _ => inr DecodeFailed
  | ReturningState r => inl r
  end.

Lemma decodeReply_refused {A} (dec : Dec A) zero m code text :
  code <> 200 -> decodeReply dec zero (encodeResponse m (Refused code text)) = inr (HTTPStatusError code).
Proof.
  intros Hc. unfold decodeReply, encodeResponse. destruct (Z.eqb_spec code 405) as [->|]; [done|]. cbn [StatusCode writeJSON].
  by destruct (Z.eqb_spec code 200).
Qed.
Lemma decodeReply_admin m version slot failed :
  wire_response m (AdminDone version slot failed) ->
  decodeReply decAdminReply zeroAdminReply (encodeResponse m (AdminDone version slot failed)) = adminReply (AdminDone version slot failed).
Proof.
  intros (Hlen & Hv & Hs & Hf). apply decodeReply_enc; [| |done].
  - apply (faithful_obj 2). apply Forall_app. split.
    + pose proof (faithful_slotStatus m slot Hs) as [? ? ?]. apply Forall_cons_2; [split; [done|by apply faithful_uint]|].
      apply Forall_cons_2; [|done]. split; [done|]. split; [done|done|cbn [snd]; lia].
    + destruct failed as [|x failed]; [done|]. unfold omitList. apply Forall_cons_2; [|done]. split; [done|].
      apply faithful_arr, Forall_map. eapply Forall_impl; [exact Hf|]. intros y Hy. by apply faithful_str.
  - pose proof (decUint_enc maxUint64 version 0 Hv ltac:(done)) as H1. pose proof (decSlotStatus_enc m slot Hs) as H2.
    assert (H3 : decSlice "" decString (JArr (map JStr failed)) (mkSlice [] []) = Some (mkSlice failed [])).
    { apply decSlice_enc. by apply Forall_forall. }
    revert H1 H2 H3. unfold adminDoneJson, omitList, decAdminReply, zeroAdminReply. change (decUint maxUint64) with decUint64.
    generalize (encUint version) (slotStatusJson m slot) (JArr (map JStr failed)) (decSlice "" decString) decSlotStatus zeroStatusSlot (slotStatus slot).
    intros j1 j2 j3 d1 d2 z st H1 H2 H3. destruct failed; lazy -[decUint64]; rw H1 H2 ?H3; done.
Qed.
Lemma decodeReply_returning m r :
  wire_response m (ReturningState r) ->
  decodeReply decReturningReply (mkReturning "" 0 0 0 "") (encodeResponse m (ReturningState r)) = inl r.
Proof.
  intros (Hlen & Hc & Hd & Hv & He & Hr). apply decodeReply_enc; [| |done].
  - apply faithful_obj. members.
  - pose proof (decUint_enc maxUint64 _ 0 Hv ltac:(done)) as H1. pose proof (decInt64_enc _ 0 He) as H2. pose proof (decInt64_enc _ 0 Hr) as H3.
    revert H1 H2 H3. generalize (encUint (RNMetadataVersion r)) (encInt (RNEntryCount r)) (encInt (RNRemovedSnapshots r)).
    change (decUint maxUint64) with decUint64. intros j1 j2 j3 H1 H2 H3. destruct r. lazy -[decUint64 decInt64]. cbn in H1, H2, H3. by rw H1 H2 H3.
Qed.

(** ** What the node does *)

Definition topologySlot (c : Call) : option Z :=
  match c with
  | CallPromote slot | CallAssignReplica slot _ | CallSyncReplica slot _ => Some slot
  | _ => None
  end.
(** The answers that a call can have. *)
Definition answers (c : Call) (r : AdminResponse) : Prop :=
  match r with
  | Refused code _ => code <> 200
  | AdminDone _ _ _ => topologySlot c <> None
  | ReturningState _ => topologySlot c = None
  end.

Section calls.
Context `{Env, SliceSort, Texts, JSON} {N : Type} `{Net N} `{Crypto} (srv : ServerConfig) (cfg : NodeConfig).
#[local] Existing Instances EM_ret EM_bind.

(** The operation of a call, and the report of a repeated one. *)
Definition answerTopology (slot : Z) (r : (MetadataSnapshot * list string) + NodeErr) : EM (W := World N) AdminResponse :=
  m ← readMeta; mret (writeClusterAdminResult m slot r).
Definition perform (invalidate : Z + string) (c : Call) : EM (W := World N) AdminResponse :=
  match c with
  | CallPromote slot => r ← ManagerPromote cfg slot; answerTopology slot (clusterResult r)
  | CallAssignReplica slot id => r ← ManagerAssignReplica cfg slot id; answerTopology slot (clusterResult r)
  | CallSyncReplica slot id => r ← SyncReplica cfg slot id; answerTopology slot r
  | CallPrepareReturning clusterId v => prepareReturning cfg invalidate clusterId v
  | CallAdmitReturning clusterId v => admitReturning clusterId v
  end.
Definition report (c : Call) : EM (W := World N) AdminResponse :=
  match topologySlot c with
  | Some slot => m ← readMeta; answerTopology slot (inl (Metadata.Snapshot m, []))
  | None => writeReturningNodeState 0
  end.

(** A call with control index [index], behind the fence. *)
Definition fenced (disk : option string) (invalidate : Z + string) (c : Call) (index : Z) (a : AdminNode (N := N))
    : option (AdminResponse * AdminNode (N := N)) :=
  match Begin disk index (OperationDigest "POST" (callPath c) (callBody c) (FormatUint index)) (anFence a) with
  | (inr (PersistFailed text), fence) => Some (Refused 500 text, mkAdmin (anNode a) fence)
  | (inr e, fence) => Some (Refused 409 (FenceErrText e), mkAdmin (anNode a) fence)
  | (inl repeated, fence) =>
      '(resp, node) ← (if (repeated : bool) then report c else perform invalidate c) (anNode a); Some (resp, mkAdmin node fence)
  end.

Lemma answerTopology_run slot r (n : Eng (World N)) : answerTopology slot r n = Some (writeClusterAdminResult (wMeta (engHook n)) slot r, n).
Proof. unfold answerTopology. by rw readMeta_bind. Qed.

Lemma Verify_Sign secret method path body index : Verify secret method path body index (Sign secret method path body index) = true.
Proof. unfold Verify, Sign. rw hex_round_trip. apply String.eqb_refl. Qed.

Lemma authorized path body index :
  srvAutomatic srv = true -> fenceOpen srv = true -> 0 < index <= maxUint64 -> slen body <= maxJSONBodyBytes ->
  prepareControllerAuthorization srv (signedRequest (srvSecret srv) path body index) =
  inl (Some (index, OperationDigest "POST" path body (FormatUint index))).
Proof.
  intros Ha Hf Hi Hb. unfold prepareControllerAuthorization, signedRequest. cbn [Body Method URLPath IndexHeader SignatureHeader]. cbv zeta.
  rw Ha Hf. cbn [negb]. destruct (Z.ltb_spec maxJSONBodyBytes (slen body)); [lia|]. rw Verify_Sign. cbn [negb].
  rw ParseUint_FormatUint; [lia|]. destruct index; [lia|done|lia].
Qed.

Lemma handleTopology_call {R} (decode : string -> option R) slotOf op disk invalidate c slot req index a :
  srvAutomatic srv = true -> fenceOpen srv = true -> srvEnabled srv = true -> 0 < index <= maxUint64 -> slen (callBody c) <= maxJSONBodyBytes ->
  decode (callBody c) = Some req -> slotOf req = slot -> topologySlot c = Some slot ->
  (forall n, perform invalidate c n = '(r, n) ← op req n; answerTopology slot r n) ->
  handleTopology srv decode slotOf op disk (signedRequest (srvSecret srv) (callPath c) (callBody c) index) a = fenced disk invalidate c index a.
Proof.
  intros Ha Hf He Hi Hb Hd Hs Ht Hp. unfold handleTopology. rw authorized //. cbn [Method signedRequest Body String.eqb]. rw Hd He. cbn [negb].
  change (negb (String.eqb "POST" "POST")) with false. cbv iota. unfold beginControllerOperation, fenced.
  destruct (Begin _ _ _ _) as [[[]|[]] fence]; [|..]; try done.
  - unfold report. rw Ht. by rw readMeta_bind answerTopology_run /= Hs.
  - rw Hp. destruct (op req (anNode a)) as [[r n]|]; [|done]. cbn [mbind option_bind]. by rw answerTopology_run Hs.
Qed.
Lemma handleReturning_call op disk invalidate c clusterId v index a :
  srvAutomatic srv = true -> fenceOpen srv = true -> srvEnabled srv = true -> 0 < index <= maxUint64 -> slen (callBody c) <= maxJSONBodyBytes ->
  decodeReturningRequest (callBody c) = Some (clusterId, v) -> clusterId <> "" -> v <> 0 -> topologySlot c = None ->
  perform invalidate c = op clusterId v ->
  handleReturning srv op disk (signedRequest (srvSecret srv) (callPath c) (callBody c) index) a = fenced disk invalidate c index a.
Proof.
  intros Ha Hf He Hi Hb Hd Hc Hv Ht Hp. unfold handleReturning. rw authorized //. cbn [Method signedRequest Body]. rw Hd He Ha. cbn [negb orb].
  change (negb (String.eqb "POST" "POST")) with false. cbv iota. unfold beginControllerOperation, fenced.
  destruct clusterId as [|ch clusterId]; [done|]. destruct v as [|v|v]; [done|..];
    (destruct (Begin _ _ _ _) as [[[]|[]] fence]; try done; unfold report; by rw ?Ht ?Hp).
Qed.

(** The answers are of the kind the client expects. *)
Lemma answerTopology_kind c slot r n resp n' : topologySlot c = Some slot -> answerTopology slot r n = Some (resp, n') -> answers c resp.
Proof. intros Hc. rw answerTopology_run. unfold writeClusterAdminResult. repeat case_match; intros [= <- _]; simpl; by rw ?Hc. Qed.
Lemma EM_bind_inv {A B} (m : EM (W := World N) A) (k : A -> EM (W := World N) B) n b n' :
  (m ≫= k) n = Some (b, n') -> exists a n1, m n = Some (a, n1) /\ k a n1 = Some (b, n').
Proof. unfold mbind, EM_bind. destruct (m n) as [[a n1]|]; [|done]. intros Hk. by exists a, n1. Qed.
Lemma writeReturning_kind c removed (n n' : Eng (World N)) resp :
  topologySlot c = None -> writeReturningNodeState removed n = Some (resp, n') -> answers c resp.
Proof.
  intros Hc. unfold writeReturningNodeState. intros (m & n1 & _ & (es & n2 & _ & Hk)%EM_bind_inv)%EM_bind_inv.
  destruct es as [es|e]; [|by injection Hk as <- _]. apply EM_bind_inv in Hk as (ad & n3 & _ & Hk). by injection Hk as <- _.
Qed.
Lemma perform_kind invalidate c n resp n' : perform invalidate c n = Some (resp, n') -> answers c resp.
Proof.
  destruct c as [slot|slot id|slot id|clusterId v|clusterId v]; cbn [perform].
  1-3: intros (r & n1 & _ & Hr)%EM_bind_inv; by eapply answerTopology_kind.
  - unfold prepareReturning. intros (? & n1 & _ & (r & n2 & _ & Hr)%EM_bind_inv)%EM_bind_inv. destruct r as [r|e]; [|by injection Hr as <- _].
    destruct invalidate as [removed|text]; [|by injection Hr as <- _].
    apply EM_bind_inv in Hr as (? & n3 & _ & (m & n4 & _ & Hr)%EM_bind_inv). destruct (_ || _); [by injection Hr as <- _|].
    by eapply writeReturning_kind.
  - unfold admitReturning. intros (m & n1 & _ & (r & n2 & _ & Hr)%EM_bind_inv)%EM_bind_inv. destruct r as [r|e]; [|by injection Hr as <- _].
    destruct (_ || _); [by injection Hr as <- _|]. apply EM_bind_inv in Hr as (? & n3 & _ & Hr). by eapply writeReturning_kind.
Qed.
Lemma report_kind c n resp n' : report c n = Some (resp, n') -> answers c resp.
Proof.
  unfold report. destruct (topologySlot c) as [slot|] eqn:Hc; [|by apply writeReturning_kind].
  intros (m & n1 & _ & Hr)%EM_bind_inv. by eapply answerTopology_kind.
Qed.
Lemma fenced_kind disk invalidate c index a resp a' : fenced disk invalidate c index a = Some (resp, a') -> answers c resp.
Proof.
  unfold fenced. destruct (Begin _ _ _ _) as [[repeated|e] fence].
  - destruct (if repeated then _ else _) as [[r n]|] eqn:Hr; [|done]. intros [= <- _].
    destruct repeated; [by eapply report_kind|by eapply perform_kind].
  - destruct e; by intros [= <- _].
Qed.

Lemma EM_bind_answer {A B} (m : EM (W := World N) A) (f : A -> B) {C} (k : B -> EM (W := World N) C) n :
  (r ← m; k (f r)) n = '(r, n) ← (r ← m; mret (f r)) n; k r n.
Proof. unfold mbind, EM_bind. by destruct (m n) as [[a n1]|]. Qed.

Lemma serveAdmin_call disk invalidate c index a :
  srvAutomatic srv = true -> fenceOpen srv = true -> srvEnabled srv = true -> 0 < index <= maxUint64 -> call_ok c ->
  serveAdmin srv cfg disk invalidate (signedRequest (srvSecret srv) (callPath c) (callBody c) index) a =
  '(resp, a') ← fenced disk invalidate c index a; Some (encodeResponse (wMeta (engHook (anNode a'))) resp, a').
Proof.
  intros Ha Hf He Hi [Hb Hc]. unfold serveAdmin. change (Method (signedRequest _ _ _ _)) with "POST".
  change (URLPath (signedRequest (srvSecret srv) (callPath c) (callBody c) index)) with (callPath c).
  destruct c as [slot|slot id|slot id|clusterId v|clusterId v]; cbn [callPath String.eqb Ascii.eqb Bool.eqb].
  - unfold handleClusterPromote. rw (handleTopology_call _ _ _ disk invalidate (CallPromote slot) slot slot) //.
    + by apply decode_promoteBody.
    + apply EM_bind_answer.
  - destruct Hc as (Hs & Hu & Hne). unfold handleClusterReplica.
    rw (handleTopology_call _ _ _ disk invalidate (CallAssignReplica slot id) slot (slot, id)) //.
    + cbn [callBody]. rw decode_replicaBody //. cbn. by destruct (String.eqb_spec id "").
    + apply EM_bind_answer.
  - destruct Hc as [Hs Hu]. unfold handleClusterSync.
    by rw (handleTopology_call _ _ _ disk invalidate (CallSyncReplica slot id) slot (slot, id)) //; apply decode_replicaBody.
  - destruct Hc as (Hu & Hne & Hv). unfold handleReturningNodePrepare.
    by rw (handleReturning_call _ disk invalidate (CallPrepareReturning clusterId v) clusterId v) //; [apply decode_returningBody; [lia|..]|lia].
  - destruct Hc as (Hu & Hne & Hv). unfold handleReturningNodeAdmit.
    by rw (handleReturning_call _ disk invalidate (CallAdmitReturning clusterId v) clusterId v) //; [apply decode_returningBody; [lia|..]|lia].
Qed.

(** ** The client at the node *)

(** A transport that hands the request to the node; [None] is a node whose
    handler panicked, which closes the connection. *)
Definition direct (disk : option string) (invalidate : Z + string) : HTTPTransport (option (AdminNode (N := N))) := fun _ r w =>
  match w ≫= serveAdmin srv cfg disk invalidate r with
  | Some (response, a) => (inl response, Some a)
  | None => (inr "EOF", None)
  end.

Inductive Reply := AdminReply (r : ClusterAdminResponse) | ReturningReply (r : ReturningNodeResponse) | CallFailed (e : ClientErr).
Definition clientCall {W} `{HTTPTransport W} (secret peer : string) (c : Call) (index : Z) (w : W) : Reply * W :=
  let admin '((r, w) : (ClusterAdminResponse + ClientErr) * W) := (match r with inl x => AdminReply x | inr e => CallFailed e end, w) in
  let returning '((r, w) : (ReturningNodeResponse + ClientErr) * W) := (match r with inl x => ReturningReply x | inr e => CallFailed e end, w) in
  match c with
  | CallPromote slot => admin (ClientPromote secret peer slot index w)
  | CallAssignReplica slot id => admin (ClientAssignReplica secret peer slot id index w)
  | CallSyncReplica slot id => admin (ClientSyncReplica secret peer slot id index w)
  | CallPrepareReturning clusterId v => returning (ClientPrepareReturning secret peer clusterId v index w)
  | CallAdmitReturning clusterId v => returning (ClientAdmitReturning secret peer clusterId v index w)
  end.
Definition replyOf (r : AdminResponse) : Reply :=
  match r with
  | Refused code _ => CallFailed (HTTPStatusError code)
  | AdminDone version slot failed => AdminReply (mkAdminReply version (slotStatus slot) failed)
  | ReturningState r => ReturningReply r
  end.

Lemma post_direct {A} (dec : Dec A) zero disk invalidate peer c index a :
  srvAutomatic srv = true -> fenceOpen srv = true -> srvEnabled srv = true -> 0 < index <= maxUint64 -> call_ok c ->
  @post _ _ (direct disk invalidate) (srvSecret srv) _ dec zero peer (callPath c) (callBody c) index (Some a) =
  match fenced disk invalidate c index a with
  | None => (inr (TransportFailed "EOF"), None)
  | Some (resp, a') => (decodeReply dec zero (encodeResponse (wMeta (engHook (anNode a'))) resp), Some a')
  end.
Proof.
  intros Ha Hf He Hi Hc. unfold post, roundTrip, direct. cbn [mbind option_bind]. rw serveAdmin_call //.
  by destruct (fenced disk invalidate c index a) as [[resp a']|].
Qed.

Lemma client_reply disk invalidate peer c index a :
  srvAutomatic srv = true -> fenceOpen srv = true -> srvEnabled srv = true -> 0 < index <= maxUint64 -> call_ok c ->
  (forall resp a', fenced disk invalidate c index a = Some (resp, a') -> wire_response (wMeta (engHook (anNode a'))) resp) ->
  @clientCall _ (direct disk invalidate) (srvSecret srv) peer c index (Some a) =
  match fenced disk invalidate c index a with
  | Some (resp, a') => (replyOf resp, Some a')
  | None => (CallFailed (TransportFailed "EOF"), None)
  end.
Proof.
  intros Ha Hf He Hi Hc Hw.
  assert (Hkind : forall resp a', fenced disk invalidate c index a = Some (resp, a') ->
    match topologySlot c with
    | Some _ => match decodeReply decAdminReply zeroAdminReply (encodeResponse (wMeta (engHook (anNode a'))) resp) with
                | inl x => AdminReply x | inr e => CallFailed e end = replyOf resp
    | None => match decodeReply decReturningReply (mkReturning "" 0 0 0 "") (encodeResponse (wMeta (engHook (anNode a'))) resp) with
              | inl x => ReturningReply x | inr e => CallFailed e end = replyOf resp
    end).
  { intros resp a' Hr. specialize (Hw resp a' Hr). apply fenced_kind in Hr. destruct resp as [code text|version slot failed|r]; cbn [answers] in Hr.
    - by destruct (topologySlot c); rw decodeReply_refused.
    - destruct (topologySlot c); [|done]. by rw decodeReply_admin.
    - rw Hr. by rw decodeReply_returning. }
  pose proof (post_direct decAdminReply zeroAdminReply disk invalidate peer c index a Ha Hf He Hi Hc) as Hp.
  pose proof (post_direct decReturningReply (mkReturning "" 0 0 0 "") disk invalidate peer c index a Ha Hf He Hi Hc) as Hq.
  unfold clientCall. destruct c; cbn [topologySlot callPath callBody] in Hkind, Hp, Hq;
    unfold ClientPromote, ClientAssignReplica, ClientSyncReplica, ClientPrepareReturning, ClientAdmitReturning, postAdmin, postReturning;
    rw ?Hp ?Hq; (destruct (fenced _ _ _ _ _) as [[resp a']|]; [by rw (Hkind resp a')|done]).
Qed.
End calls.

(** ** Reading the state *)

Section reads.
Context `{Env, SliceSort, Texts, JSON} {N : Type} `{Net N} `{Crypto} (srv : ServerConfig) (cfg : NodeConfig) (ex : StateExtras).

Definition reading : HTTPTransport (AdminNode (N := N)) := fun _ r a => (inl (serveRead srv cfg ex r a), a).

Definition extras_ok : Prop :=
  utf8 (exMode ex) /\ utf8 (exRouting ex) /\ utf8 (exFailover ex) /\ Forall utf8 (exPeers ex) /\
  Forall (fun '(id, address, state) => utf8 id /\ utf8 address /\ utf8 state) (exMembership ex) /\
  match exRecovery ex with Some j => faithful 9 j | None => True end.
(** The state of a node in the range of its types. *)
Record wire_node (a : AdminNode (N := N)) : Prop := {
  wn_names : utf8 (nodeID cfg) /\ utf8 (srvClusterID srv);
  wn_counts : 0 <= srvSlotCount srv <= 4294967295 /\ 0 <= version (wMeta (engHook (anNode a))) <= maxUint64;
  wn_slots : Forall wire_slot (slots (wMeta (engHook (anNode a))))
}.
Definition nodeState (a : AdminNode (N := N)) : ClusterStateResponse :=
  let m := wMeta (engHook (anNode a)) in
  mkResponse (srvEnabled srv) (nodeID cfg) (srvClusterID srv) (srvSlotCount srv) (version m) (slotStatus <$> slots m)
    (DataState (admitted (engHook (anNode a)))).
Definition stateJson (a : AdminNode (N := N)) : Json := clusterStateJson ex (wMeta (engHook (anNode a))) (nodeState a).

Lemma faithful_state a : extras_ok -> wire_node a -> faithful 10 (stateJson a).
Proof.
  intros (Hmo & Hro & Hfa & Hpe & Hme & Hre) [[Hn Hc] [Hs Hv] Hsl]. unfold stateJson, clusterStateJson. apply (faithful_obj 9).
  cbn [REnabled RNodeID RClusterID RSlotCount RMetadataVersion RDataState nodeState].
  assert (utf8 (DataState (admitted (engHook (anNode a))))) by (by destruct (admitted _)).
  assert (0 <= srvSlotCount srv <= maxUint64) by (unfold maxUint64; lia).
  assert (Hp : faithful 9 match exPeers ex with [] => JNull | ids => JArr (map JStr ids) end).
  { destruct (exPeers ex) as [|id ids]; [split; simpl; [done|done|lia]|]. apply (faithful_arr 8), Forall_map.
    eapply Forall_impl; [exact Hpe|]. intros s. apply faithful_str. }
  assert (Hm : faithful 9 (JArr (map peerStatusJson (exMembership ex)))).
  { apply (faithful_arr 8), Forall_map. eapply Forall_impl; [exact Hme|]. intros [[id address] state] (? & ? & ?). apply (faithful_obj 7). members. }
  assert (Hl : faithful 9 (JArr (map (slotStatusJson (wMeta (engHook (anNode a)))) (slots (wMeta (engHook (anNode a))))))).
  { apply (faithful_arr 8), Forall_map. eapply Forall_impl; [exact Hsl|]. intros s Hw. eapply faithful_weaken; [by apply faithful_slotStatus|lia]. }
  rw !Forall_app. unfold omitString, omitUint, omitList. split_and!; repeat case_match; members.
Qed.

(** Members that the controller does not know are skipped. *)
Definition unknown (m : string * Json) : Prop :=
  resolve ["enabled"; "nodeId"; "clusterId"; "slotCount"; "metadataVersion"; "slots"; "dataState"] m.1 = None.
Lemma getField_ignore names {A} name (dec : Dec A) p x q old :
  Forall (fun m => resolve names m.1 = None) x -> getField names name dec (p ++ x ++ q) old = getField names name dec (p ++ q) old.
Proof.
  intros Hx. rw !getField_app. destruct (getField names name dec p old) as [o|]; [|done]. cbn [mbind option_bind].
  induction Hx as [|[k j] x Hk Hx IH] in o |- *; [done|]. cbn [app getField]. unfold names_field. cbn [fst] in Hk. by rw Hk.
Qed.
Lemma decClusterState_ignore p x q r : Forall unknown x -> decClusterState (JObj (p ++ x ++ q)) r = decClusterState (JObj (p ++ q)) r.
Proof. intros Hx. unfold decClusterState, decStruct. cbn [andb]. by rw !(getField_ignore _ _ _ p x q). Qed.

Lemma decClusterState_enc a : wire_node a -> decClusterState (stateJson a) (mkResponse false "" "" 0 0 [] "") = Some (nodeState a).
Proof.
  intros [_ [Hs Hv] Hsl]. unfold stateJson, clusterStateJson, nodeState.
  cbn [REnabled RNodeID RClusterID RSlotCount RMetadataVersion RDataState].
  pose proof (decUint_enc 4294967295 _ 0 Hs ltac:(done)) as H5. pose proof (decUint_enc maxUint64 _ 0 Hv ltac:(done)) as H6.
  set (m := wMeta (engHook (anNode a))) in *.
  assert (H7 : decSlice zeroStatusSlot decSlotStatus (JArr (map (slotStatusJson m) (slots m))) (mkSlice [] []) = Some (mkSlice (slotStatus <$> slots m) [])).
  { destruct (slots m) as [|s l]; [done|]. unfold decSlice. cbn [map visible hidden app].
    assert (He : forall l, Forall wire_slot l -> decElements zeroStatusSlot decSlotStatus (map (slotStatusJson m) l) [] = Some (slotStatus <$> l)).
    { induction 1 as [|x l' Hx Hl IH]; [done|]. cbn [map decElements head default from_option id tail fmap list_fmap]. rw decSlotStatus_enc //=. by rw IH. }
    change (slotStatusJson m s :: map (slotStatusJson m) l) with (map (slotStatusJson m) (s :: l)). by rw He. }
  rw (app_assoc _ (omitString "clusterId" _)) (app_assoc _ (omitUint "slotCount" _)) (app_assoc _ (omitUint "metadataVersion" _)).
  rw (app_assoc (omitString "routingMode" _)) (app_assoc _ [_] (omitList "membership" _ _ ++ _)) (app_assoc _ (omitList "membership" _ _)).
  rw decClusterState_ignore.
  { unfold omitString, omitList. by repeat case_match; repeat constructor. }
  rw (app_assoc _ (omitList "slots" _ _)) decClusterState_ignore; [by destruct (exRecovery ex); repeat constructor|].
  revert H5 H6 H7. unfold omitString, omitUint, omitList, decClusterState. clear Hs Hv Hsl.
  change (decUint maxUint64) with decUint64. change (decUint 4294967295) with decUint32.
  assert (Hd : exists c s, DataState (admitted (engHook (anNode a))) = String c s) by (destruct (admitted _); by do 2 eexists).
  destruct Hd as (dc & ds & ->).
  generalize (encUint (srvSlotCount srv)) (encUint (version m)) (decSlice zeroStatusSlot decSlotStatus).
  generalize (srvSlotCount srv) (version m) (srvClusterID srv) (nodeID cfg) (srvEnabled srv).
  intros count v cluster id enabled j1 j2 d1 H5 H6.
  destruct (slots m) as [|s0 l0]; [intros _|generalize (JArr (map (slotStatusJson m) (s0 :: l0))) (slotStatus <$> (s0 :: l0)); intros j5 st H7];
    destruct (String.eqb_spec cluster "") as [->|_], (Z.eqb_spec count 0) as [->|_], (Z.eqb_spec v 0) as [->|_];
    lazy -[decUint64 decUint32]; rw ?H5 ?H6 ?H7; done.
Qed.

Lemma state_response a peer : @ClientClusterState _ reading peer a =
  (match parseJson (stake maxResponse (printJson (stateJson a) +:+ LF)) with
   | None => inr DecodeFailed
   | Some j => match decClusterState j (mkResponse false "" "" 0 0 [] "") with Some r => inl r | None => inr DecodeFailed end
   end, a).
Proof. done. Qed.

Lemma state_read a peer : extras_ok -> wire_node a -> slen (printJson (stateJson a)) < 8388608 ->
  @ClientClusterState _ reading peer a = (inl (nodeState a), a).
Proof.
  intros Hex Hw Hl. rw state_response. destruct (faithful_state a Hex Hw) as [Hok Hv Hd].
  rw stake_all; [rw length_app_string; change (String.length LF) with 1%nat; unfold slen in Hl; unfold maxResponse; lia|].
  unfold printJson. rw (parse_render (fun _ => "") "") //; [unfold maxNestingDepth; lia|]. by rw Hv decClusterState_enc.
Qed.
Lemma state_cut a peer : extras_ok -> wire_node a -> 8388608 < slen (printJson (stateJson a)) ->
  @ClientClusterState _ reading peer a = (inr DecodeFailed, a).
Proof.
  intros Hex Hw Hl. rw state_response. destruct (faithful_state a Hex Hw) as [Hok Hv Hd]. unfold slen in Hl.
  rw stake_app_l; [unfold maxResponse; lia|]. unfold stateJson, clusterStateJson in Hok, Hd, Hl |- *.
  destruct (printJson_exact _ Hok) as [Hcut _]; [unfold maxNestingDepth; lia|].
  unfold parseJson. by rw Hcut; [unfold maxResponse; lia|].
Qed.

(** A slot with a leader and a replica takes at least 132 bytes. *)
Lemma slot_size m s depth : LeaderID s <> "" -> ReplicaID s <> "" -> 132 <= slen (compact depth (slotStatusJson m s)).
Proof.
  intros Hl Hr. unfold slotStatusJson, omitString. destruct (String.eqb_spec (ReplicaID s) "") as [|_]; [done|]. cbn [app].
  rw compact_members. cbn [map sumZ foldr fst snd].
  assert (Hn : forall n, 1 <= slen (compact (S depth) (encUint n))).
  { intros n. change (compact (S depth) (encUint n)) with (FormatUint n). destruct (FormatUint_nonempty n) as (c & t & ->). rw slen_cons.
    pose proof (slen_nonneg t). lia. }
  pose proof (Hn (Number s)). pose proof (Hn (Term s)). pose proof (Hn (LastSequence s)). pose proof (Hn (LastAppliedSequence s)).
  assert (4 <= slen (compact (S depth) (JBool (ReplicaReady s)))) by (by destruct (ReplicaReady s)).
  pose proof (quoteString_size _ Hl). pose proof (quoteString_size _ Hr).
  assert (6 <= slen (quoteString (LocalRole m s))) by (unfold LocalRole; by repeat case_match).
  change (compact (S depth) (JStr ?x)) with (quoteString x).
  change (slen (quoteString "number")) with 8. change (slen (quoteString "leaderId")) with 10. change (slen (quoteString "replicaId")) with 11.
  change (slen (quoteString "localRole")) with 11. change (slen (quoteString "term")) with 6. change (slen (quoteString "lastSequence")) with 14.
  change (slen (quoteString "lastAppliedSequence")) with 21. change (slen (quoteString "replicaReady")) with 14. lia.
Qed.
Lemma state_size a : Forall (fun s => LeaderID s <> "" /\ ReplicaID s <> "") (slots (wMeta (engHook (anNode a)))) ->
  133 * Z.of_nat (length (slots (wMeta (engHook (anNode a))))) <= slen (printJson (stateJson a)).
Proof.
  intros Hall. destruct (slots (wMeta (engHook (anNode a)))) as [|s0 l0] eqn:Hs; [apply slen_nonneg|]. rw -Hs in Hall |- *.
  set (m := wMeta (engHook (anNode a))) in *.
  assert (Hin : ("slots", JArr (map (slotStatusJson m) (slots m))) ∈ match stateJson a with JObj ms => ms | _ => [] end).
  { unfold stateJson, clusterStateJson. fold m. rw !elem_of_app. do 8 right. left. unfold omitList. rw Hs. apply list_elem_of_here. }
  change (printJson (stateJson a)) with (compact 0 (stateJson a)). apply (compact_member 0) in Hin.
  etrans; [|exact Hin]. etrans; [|apply compact_elements]. rw map_map. clear Hs Hin. induction Hall as [|s l [Hl Hr] Hall IH]; [done|].
  cbn [map sumZ foldr length]. pose proof (slot_size m s 2 Hl Hr). unfold sumZ in IH. lia.
Qed.
End reads.

(** C17: A call of the controller's client does what it says.  With
    the secret of the node and a control index, each of the five calls makes the
    node perform exactly the requested operation behind its fence - refused when
    the index is old or belongs to another request, reported again when it is a
    repeat - and the client returns exactly the node's answer, or its status
    code when the node refuses. *)
Theorem admin_calls_exact `{Env, SliceSort, Texts, JSON} {N : Type} `{Net N} `{Crypto} (srv : ServerConfig) (cfg : NodeConfig)
    disk invalidate peer (c : Call) (index : Z) (a : AdminNode (N := N)) :
  srvAutomatic srv = true -> fenceOpen srv = true -> srvEnabled srv = true -> 0 < index <= maxUint64 -> call_ok c ->
  (forall resp a', fenced cfg disk invalidate c index a = Some (resp, a') -> wire_response (wMeta (engHook (anNode a'))) resp) ->
  @clientCall _ _ (direct srv cfg disk invalidate) (srvSecret srv) peer c index (Some a) =
  match fenced cfg disk invalidate c index a with
  | Some (resp, a') => (replyOf resp, Some a')
  | None => (CallFailed (TransportFailed "EOF"), None)
  end.
Proof. apply client_reply. Qed.

(** C18: The controller reads the state of a node exactly as
    the node has it, as long as the answer is shorter than 8 MB.  A longer answer
    is cut off by the client and cannot be decoded, and that is always so from
    63073 slots on when every slot has a leader and a replica, although the
    configuration allows 65536. *)
Theorem cluster_state_observed `{Env, SliceSort, Texts, JSON} {N : Type} `{Net N} (srv : ServerConfig) (cfg : NodeConfig)
    (ex : StateExtras) peer (a : AdminNode (N := N)) :
  extras_ok ex -> wire_node srv cfg a ->
  (slen (printJson (stateJson srv cfg ex a)) < 8388608 ->
    @ClientClusterState _ (reading srv cfg ex) peer a = (inl (nodeState srv cfg a), a)) /\
  (8388608 < slen (printJson (stateJson srv cfg ex a)) ->
    @ClientClusterState _ (reading srv cfg ex) peer a = (inr DecodeFailed, a)) /\
  (63073 <= Z.of_nat (length (slots (wMeta (engHook (anNode a))))) ->
    Forall (fun s => LeaderID s <> "" /\ ReplicaID s <> "") (slots (wMeta (engHook (anNode a)))) ->
    @ClientClusterState _ (reading srv cfg ex) peer a = (inr DecodeFailed, a)).
Proof.
  intros Hex Hw. split_and!; [by apply state_read|by apply state_cut|]. intros Hn Hall. apply state_cut; [done|done|].
  pose proof (state_size srv cfg ex a Hall). lia.
Qed.

#[local] Existing Instances steadyEnv plainTexts emptyJSON plainCrypto.
Definition wireServer : ServerConfig := mkServerConfig true true "k" true "c" 4.
Definition wireNode : AdminNode (N := unit) := mkAdmin (startNode "b" tt) (mkFence 3 "").
Definition wireExtras : StateExtras := mkExtras "clustered" "proxy" "automatic" ["a"; "b"] [("a", "h:1", "alive")] None.

Definition promotedSlot : SlotState := mkSlot 1 "b" "" 2 0 0 false.
Lemma promoted_wire m : localID m = "b" -> wire_response m (AdminDone 2 promotedSlot ["a"]).
Proof.
  intros Hm. split; [|split; [by vm_compute|split; [by split|by repeat constructor]]].
  unfold encodeResponse, adminDoneJson, slotStatusJson, LocalRole. rw Hm. vm_compute. discriminate.
Qed.
Lemma promoted_run :
  (fun p => (p.1, FControlIndex (anFence p.2), localID (wMeta (engHook (anNode p.2))))) <$>
  fenced (nodeOf "b") None (inl 0) (CallPromote 1) 5 wireNode = Some (AdminDone 2 promotedSlot ["a"], 5, "b").
Proof. vm_compute. reflexivity. Qed.

Lemma admin_calls_exact_witness :
  exists a', @clientCall _ _ (direct wireServer (nodeOf "b") None (inl 0)) "k" "b" (CallPromote 1) 5 (Some wireNode) =
    (AdminReply (mkAdminReply 2 (mkSlotStatus 1 "b" "" 2 false) ["a"]), Some a') /\ FControlIndex (anFence a') = 5.
Proof.
  pose proof promoted_run as Hrun.
  pose proof (admin_calls_exact wireServer (nodeOf "b") None (inl 0) "b" (CallPromote 1) 5 wireNode eq_refl eq_refl eq_refl) as Hx.
  destruct (fenced (nodeOf "b") None (inl 0) (CallPromote 1) 5 wireNode) as [[resp a']|]; [|discriminate Hrun].
  cbn [fmap option_fmap option_map fst snd] in Hrun. injection Hrun as Hresp Hi Hm.
  exists a'. split; [|exact Hi]. rw Hresp in Hx. apply Hx.
  - split; [reflexivity|discriminate].
  - split; [vm_compute; discriminate|split; discriminate].
  - intros resp2 a2 Heq. injection Heq as <- <-. by apply promoted_wire.
Defined.

(** The same node with 65536 slots. *)
Definition manySlots : AdminNode (N := unit) :=
  let n := startNode "b" tt in
  let m := wMeta (engHook n) in
  mkAdmin (mkEng (engSys n) (setMeta (mkMetadata (clusterID m) 1 65536 "b" (peers m) (peerIDs m)
    (replicate (Z.to_nat 65536) (mkSlot 0 "a" "b" 1 0 0 true))) (engHook n)) (engMetrics n)) (mkFence 3 "").

Lemma cluster_state_observed_witness :
  (exists state, @ClientClusterState _ (reading wireServer (nodeOf "b") wireExtras) "b" wireNode = (inl state, wireNode)) /\
  @ClientClusterState _ (reading wireServer (nodeOf "b") wireExtras) "b" manySlots = (inr DecodeFailed, manySlots).
Proof.
  assert (Hex : extras_ok wireExtras) by (repeat split; repeat constructor).
  split.
  - destruct (cluster_state_observed wireServer (nodeOf "b") wireExtras "b" wireNode Hex) as [Hread _].
    + split; [by split|by repeat split|]. vm_compute. repeat constructor; discriminate.
    + eexists. apply Hread. vm_compute. reflexivity.
  - apply (cluster_state_observed wireServer (nodeOf "b") wireExtras "b" manySlots Hex).
    + split; [by split|by repeat split|]. apply Forall_replicate. by repeat split.
    + unfold manySlots. cbn [anNode engHook setMeta wMeta slots]. rw length_replicate. lia.
    + apply Forall_replicate. by split.
Defined.
