(* ===== verification/Config.v ===== *)
(** * Configuration: [internal/config] and [internal/logging]

    The configuration of a node, its defaults, the values that replace missing
    ones, and its validation.  Reading the file and decoding YAML into the
    defaults are given by the class [ConfigFile]. *)
From S2P Require Import Prelude GoText.
Local Open Scope Z_scope.

(** ** [strings.TrimSpace] and [strings.ToLower] *)

Fixpoint trimLeft (fuel : nat) (s : string) : string :=
  match fuel, spaceLen s with
  | S fuel, S k => trimLeft fuel (sdrop (S k) s)
  | _, _ => s
  end.
Definition blank (s : string) : bool := String.eqb (trimLeft (String.length s) s) "".
Fixpoint trimRight (s : string) : string :=
  match s with
  | "" => ""
  | String c s' => if blank s then "" else String c (trimRight s')
  end.
Definition TrimSpace (s : string) : string := trimRight (trimLeft (String.length s) s).

(** The runes whose lower case is an ASCII letter: A to Z, U+0130 and U+212A.
    Other runes stay as they are here; their lower case is not ASCII and equals
    none of the names the source compares with. *)
Definition toLowerByte (c : ascii) : ascii := if (65 <=? byteZ c) && (byteZ c <=? 90) then chr (byteZ c + 32) else c.
Fixpoint lowerFrom (skip : nat) (s : string) : string :=
  match s, skip with
  | "", _ => ""
  | String _ s, S skip => lowerFrom skip s
  | String c s', O =>
      match s' with
      | String d s'' =>
          if (byteZ c =? 196) && (byteZ d =? 176) then String "i" (lowerFrom 1 s')
          else match s'' with
          | String e _ =>
              if (byteZ c =? 226) && (byteZ d =? 132) && (byteZ e =? 170) then String "k" (lowerFrom 2 s')
              else String (toLowerByte c) (lowerFrom 0 s')
          | "" => String (toLowerByte c) (lowerFrom 0 s')
          end
      | "" => String (toLowerByte c) ""
      end
  end.
Definition ToLower (s : string) : string := lowerFrom 0 s.

(** ** [logging.ParseLevel] *)

Inductive Level := Debug | Info | Warn | Error | Off.
Definition ParseLevel (raw : string) : option Level :=
  let name := ToLower (TrimSpace raw) in
  let named x := String.eqb name x in
  if named "debug" then Some Debug
  else if named "" || named "info" then Some Info
  else if named "warn" || named "warning" then Some Warn
  else if named "error" then Some Error
  else if named "off" || named "none" then Some Off
  else None.
Definition levelZ (l : Level) : Z := match l with Debug => 0 | Info => 1 | Warn => 2 | Error => 3 | Off => 4 end.
(** [SetLevel] and whether [logf] writes a line. *)
Definition SetLevel (current : Level) (raw : string) : bool * Level :=
  match ParseLevel raw with Some level => (true, level) | None => (false, current) end.
Definition logged (current level : Level) : bool :=
  negb (levelZ current =? levelZ Off) && negb (levelZ level <? levelZ current).

(** ** The configuration *)

Record NodeConfig := mkNodeConfig { NodeID : string; NodeMode : string; NodeDataDir : string }.
Record NetworkConfig := mkNetworkConfig { BindAddr : string; Port : Z; MaxConnections : Z; ReadTimeoutMs : Z; WriteTimeoutMs : Z }.
Record EngineConfig := mkEngineConfig { StripeCount : Z; MemoryLimitBytes : Z; EvictionPolicy : string }.
Record ControllerConfig := mkControllerConfig {
  ControlPort : Z;
  RaftDir : string;
  BootstrapNodeID : string;
  ObserveIntervalMs : Z;
  FailureTimeoutMs : Z;
  ConsecutiveFailures : Z;
  RebalanceSkewThreshold : Z;
  MigrationRateLimit : Z
}.
Record PeerConfig := mkPeerConfig { PeerID : string; PeerAddress : string; PeerAPIAddress : string; ControlAddress : string; PeerFailoverMode : string }.
Record ClusterConfig := mkClusterConfig {
  ClusterID : string;
  ClusterEnabled : bool;
  ShardingEnabled : bool;
  ReplicationEnabled : bool;
  SlotCount : Z;
  RoutingMode : string;
  FailoverMode : string;
  Controller : ControllerConfig;
  Peers : list PeerConfig
}.
Record PersistenceConfig := mkPersistenceConfig {
  PersistenceEnabled : bool;
  DataDir : string;
  SnapshotIntervalSec : Z;
  MaxSnapshots : Z;
  LoadOnStart : bool;
  Format : string
}.
Record ObservabilityConfig := mkObservabilityConfig { APIBindAddr : string; APIPort : Z; LogLevel : string }.
Record Config := mkConfig {
  Node : NodeConfig;
  Network : NetworkConfig;
  Engine : EngineConfig;
  Cluster : ClusterConfig;
  RequestSigningSecret : string;
  Persistence : PersistenceConfig;
  Observability : ObservabilityConfig
}.

Definition IsStandalone (c : Config) : bool := negb (ClusterEnabled (Cluster c)).
Definition IsClustered (c : Config) : bool := ClusterEnabled (Cluster c).

Definition defaults : Config :=
  mkConfig (mkNodeConfig "node-1" "standalone" "./data")
    (mkNetworkConfig "127.0.0.1" 6380 1024 30000 30000)
    (mkEngineConfig 32 0 "lru")
    (mkClusterConfig "" false false false 1024 "proxy" "manual" (mkControllerConfig 0 "" "" 1000 10000 3 1 10) [])
    ""
    (mkPersistenceConfig false "" 60 5 true "json")
    (mkObservabilityConfig "127.0.0.1" 7380 "info").

Definition orString (s d : string) : string := if String.eqb s "" then d else s.
Definition orInt (n d : Z) : Z := if n =? 0 then d else n.
Definition applyFallbacks (c : Config) : Config :=
  let e := Engine c in
  let cl := Cluster c in
  let k := Controller cl in
  let p := Persistence c in
  let o := Observability c in
  mkConfig (Node c) (Network c)
    (mkEngineConfig (if StripeCount e <=? 0 then 32 else StripeCount e) (MemoryLimitBytes e) (orString (EvictionPolicy e) "noeviction"))
    (mkClusterConfig (ClusterID cl) (ClusterEnabled cl) (ShardingEnabled cl) (ReplicationEnabled cl) (orInt (SlotCount cl) 1024)
       (orString (RoutingMode cl) "proxy") (orString (FailoverMode cl) "manual")
       (mkControllerConfig (ControlPort k) (RaftDir k) (BootstrapNodeID k) (orInt (ObserveIntervalMs k) 1000)
          (orInt (FailureTimeoutMs k) 10000) (orInt (ConsecutiveFailures k) 3) (orInt (RebalanceSkewThreshold k) 1)
          (orInt (MigrationRateLimit k) 10))
       (Peers cl))
    (RequestSigningSecret c)
    (mkPersistenceConfig (PersistenceEnabled p) (orString (DataDir p) (NodeDataDir (Node c))) (orInt (SnapshotIntervalSec p) 60)
       (orInt (MaxSnapshots p) 5) (LoadOnStart p) (orString (Format p) "json"))
    (mkObservabilityConfig (APIBindAddr o) (APIPort o) (orString (LogLevel o) "info")).

(** ** Validation *)

Inductive ConfigErr :=
| ErrNodeID | ErrPort (port : Z) | ErrMaxConnections | ErrLogLevel (level : string) | ErrStripeCount
| ErrEvictionPolicy (policy : string) | ErrSnapshotFormat (format : string) | ErrDataDir | ErrSnapshotInterval | ErrMaxSnapshots
| ErrLeftoverFlags | ErrLeftoverPeers | ErrClusterID | ErrSharding | ErrReplication | ErrSlotCount (count : Z)
| ErrRoutingMode (mode : string) | ErrFailoverMode (mode : string) | ErrPeerCount | ErrPeerFields
| ErrDuplicateID (id : string) | ErrDuplicateAddress (address : string) | ErrDuplicateAPIAddress (address : string)
| ErrPeerMode (id : string) | ErrControlAddress (id : string) | ErrDuplicateControl (address : string) | ErrSelfMissing (id : string)
| ErrTooFewPeers | ErrControlPort (port : Z) | ErrRaftDir | ErrBootstrapEmpty | ErrBootstrapUnknown (id : string)
| ErrSecret | ErrControllerTiming | ErrControllerLimits | ErrRead | ErrParse.

Definition validEvictionPolicies : list string := ["noeviction"; "fifo"; "lru"; "lfu"; "random"].
Definition validSnapshotFormats : list string := ["json"; "binary"].

(** The sets of the loop over the peers. *)
Record Seen := mkSeen { seenIDs : gset string; seenAddresses : gset string; seenAPIAddresses : gset string; seenControl : gset string; selfFound : bool }.
Definition validatePeer (automatic : bool) (nodeID : string) (p : PeerConfig) (s : Seen) : Seen + ConfigErr :=
  if String.eqb (PeerID p) "" || String.eqb (PeerAddress p) "" || String.eqb (PeerAPIAddress p) "" then inr ErrPeerFields
  else if bool_decide (PeerID p ∈ seenIDs s) then inr (ErrDuplicateID (PeerID p))
  else if bool_decide (PeerAddress p ∈ seenAddresses s) then inr (ErrDuplicateAddress (PeerAddress p))
  else if bool_decide (PeerAPIAddress p ∈ seenAPIAddresses s) then inr (ErrDuplicateAPIAddress (PeerAPIAddress p))
  else if automatic && negb (String.eqb (ToLower (PeerFailoverMode p)) "automatic") then inr (ErrPeerMode (PeerID p))
  else if automatic && String.eqb (TrimSpace (ControlAddress p)) "" then inr (ErrControlAddress (PeerID p))
  else if automatic && bool_decide (ControlAddress p ∈ seenControl s) then inr (ErrDuplicateControl (ControlAddress p))
  else inl (mkSeen ({[PeerID p]} ∪ seenIDs s) ({[PeerAddress p]} ∪ seenAddresses s) ({[PeerAPIAddress p]} ∪ seenAPIAddresses s)
              (if automatic then {[ControlAddress p]} ∪ seenControl s else seenControl s) (selfFound s || String.eqb (PeerID p) nodeID)).
Fixpoint validatePeers (automatic : bool) (nodeID : string) (ps : list PeerConfig) (s : Seen) : Seen + ConfigErr :=
  match ps with
  | [] => inl s
  | p :: ps =>
      match validatePeer automatic nodeID p s with
      | inl s => validatePeers automatic nodeID ps s
      | inr err => inr err
      end
  end.

Definition outOfRange (port : Z) : bool := (port <=? 0) || (65535 <? port).
(** The checks of automatic mode; [seen] are the configured peers. *)
Definition validateController (c : Config) (seen : gset string) : option ConfigErr :=
  let k := Controller (Cluster c) in
  if Z.of_nat (length (Peers (Cluster c))) <? 3 then Some ErrTooFewPeers
  else if outOfRange (ControlPort k) then Some (ErrControlPort (ControlPort k))
  else if String.eqb (TrimSpace (RaftDir k)) "" then Some ErrRaftDir
  else if String.eqb (TrimSpace (BootstrapNodeID k)) "" then Some ErrBootstrapEmpty
  else if negb (bool_decide (BootstrapNodeID k ∈ seen)) then Some (ErrBootstrapUnknown (BootstrapNodeID k))
  else if String.eqb (TrimSpace (RequestSigningSecret c)) "" then Some ErrSecret
  else if (ObserveIntervalMs k <=? 0) || (FailureTimeoutMs k <=? 0) || (ConsecutiveFailures k <=? 0) then Some ErrControllerTiming
  else if (RebalanceSkewThreshold k <=? 0) || (MigrationRateLimit k <=? 0) then Some ErrControllerLimits
  else None.

Definition validateCluster (c : Config) : option ConfigErr :=
  let cl := Cluster c in
  if negb (ClusterEnabled cl) then
    if ShardingEnabled cl || ReplicationEnabled cl then Some ErrLeftoverFlags
    else if 0 <? Z.of_nat (length (Peers cl)) then Some ErrLeftoverPeers
    else None
  else if String.eqb (TrimSpace (ClusterID cl)) "" then Some ErrClusterID
  else if negb (ShardingEnabled cl) then Some ErrSharding
  else if negb (ReplicationEnabled cl) then Some ErrReplication
  else if (SlotCount cl =? 0) || (65536 <? SlotCount cl) then Some (ErrSlotCount (SlotCount cl))
  else if negb (String.eqb (RoutingMode cl) "proxy") then Some (ErrRoutingMode (RoutingMode cl))
  else if negb (String.eqb (FailoverMode cl) "manual") && negb (String.eqb (FailoverMode cl) "automatic")
  then Some (ErrFailoverMode (FailoverMode cl))
  else if (Z.of_nat (length (Peers cl)) <? 2) || (5 <? Z.of_nat (length (Peers cl))) then Some ErrPeerCount
  else
    let automatic := String.eqb (FailoverMode cl) "automatic" in
    match validatePeers automatic (NodeID (Node c)) (Peers cl) (mkSeen ∅ ∅ ∅ ∅ false) with
    | inr err => Some err
    | inl s =>
        if negb (selfFound s) then Some (ErrSelfMissing (NodeID (Node c)))
        else if automatic then validateController c (seenIDs s) else None
    end.

(** What [Validate] changes: names in lower case and a default log level and
    format. *)
Definition normalLevel (raw : string) : string :=
  let level := ToLower raw in
  if String.eqb level "" then "info" else if String.eqb level "warning" then "warn" else level.
Definition normalFormat (raw : string) : string := orString (ToLower raw) "json".
Definition normalized (c : Config) : Config :=
  let e := Engine c in
  let cl := Cluster c in
  let p := Persistence c in
  let o := Observability c in
  mkConfig (Node c) (Network c) (mkEngineConfig (StripeCount e) (MemoryLimitBytes e) (ToLower (EvictionPolicy e)))
    (mkClusterConfig (ClusterID cl) (ClusterEnabled cl) (ShardingEnabled cl) (ReplicationEnabled cl) (SlotCount cl)
       (ToLower (RoutingMode cl)) (ToLower (FailoverMode cl)) (Controller cl) (Peers cl))
    (RequestSigningSecret c)
    (mkPersistenceConfig (PersistenceEnabled p) (DataDir p) (SnapshotIntervalSec p) (MaxSnapshots p) (LoadOnStart p) (normalFormat (Format p)))
    (mkObservabilityConfig (APIBindAddr o) (APIPort o) (normalLevel (LogLevel o))).

Definition validatePersistence (p : PersistenceConfig) : option ConfigErr :=
  if negb (PersistenceEnabled p) then None
  else if String.eqb (TrimSpace (DataDir p)) "" then Some ErrDataDir
  else if SnapshotIntervalSec p <=? 0 then Some ErrSnapshotInterval
  else if MaxSnapshots p <=? 0 then Some ErrMaxSnapshots
  else None.

(** The configuration after validation, or the first rule that it violates. *)
Definition Validate (c : Config) : Config + ConfigErr :=
  let n := normalized c in
  if String.eqb (NodeID (Node c)) "" then inr ErrNodeID
  else if outOfRange (Port (Network c)) then inr (ErrPort (Port (Network c)))
  else if MaxConnections (Network c) <=? 0 then inr ErrMaxConnections
  else if bool_decide (ParseLevel (LogLevel (Observability n)) = None) then inr (ErrLogLevel (LogLevel (Observability c)))
  else if StripeCount (Engine c) <=? 0 then inr ErrStripeCount
  else if negb (existsb (String.eqb (EvictionPolicy (Engine n))) validEvictionPolicies) then inr (ErrEvictionPolicy (EvictionPolicy (Engine c)))
  else if negb (existsb (String.eqb (Format (Persistence n))) validSnapshotFormats) then inr (ErrSnapshotFormat (Format (Persistence c)))
  else match validatePersistence (Persistence c) with
  | Some err => inr err
  | None => match validateCluster n with Some err => inr err | None => inl n end
  end.

(** ** Loading *)

(** [os.ReadFile] and the YAML decoder: the content of a file, and the
    configuration after decoding exactly one document into [defaults]. *)
Class ConfigFile := {
  readFile : string -> option string;
  decodeYAML : string -> Config -> option Config
}.
Definition Load `{ConfigFile} (path : string) : Config + ConfigErr :=
  match readFile path with
  | None => inr ErrRead
  | Some raw =>
      match decodeYAML raw defaults with
      | None => inr ErrParse
      | Some cfg => Validate (applyFallbacks cfg)
      end
  end.
