(* ===== verification/Boot.v ===== *)
(** * Starting a node: the wiring of [cmd/node/main.go]

    What the components are given of the configuration, and that a
    configuration that loads is one they can work with: the assumptions of the
    theorems about the engine, the cluster metadata, persistence and the
    controller hold of it. *)
From S2P Require Import Config.
From S2P Require Import Prelude GoText Eviction Store StoreSpec Metadata MetadataSpec SnapshotFile Persistence Planner.
Local Open Scope Z_scope.

(** ** The parts of the configuration *)

Definition clusterOf (c : Config.Config) : ClusterConfig :=
  let cl := Config.Cluster c in
  mkClusterConfig (Config.ClusterID cl) (Config.ClusterEnabled cl) (Config.ReplicationEnabled cl) (Config.SlotCount cl)
    ((fun p => mkPeer (Config.PeerID p) (Config.PeerAddress p) (Config.PeerAPIAddress p)) <$> Config.Peers cl).
Definition persistenceOf (c : Config.Config) : PersistenceConfig :=
  let p := Config.Persistence c in
  mkPersistence (Config.PersistenceEnabled p) (Config.DataDir p) (Config.SnapshotIntervalSec p) (Config.MaxSnapshots p)
    (Config.LoadOnStart p) (Config.Format p).
Definition controllerOf (c : Config.Config) : ControllerConfig :=
  let k := Config.Controller (Config.Cluster c) in
  mkControllerConfig (Config.ObserveIntervalMs k) (Config.FailureTimeoutMs k) (Config.ConsecutiveFailures k)
    (Config.RebalanceSkewThreshold k) (Config.MigrationRateLimit k).
Definition automatic (c : Config.Config) : bool :=
  Config.ClusterEnabled (Config.Cluster c) && String.eqb (Config.FailoverMode (Config.Cluster c)) "automatic".

(** [slotCount] is a uint32. *)
Definition typed (c : Config.Config) : Prop := 0 <= Config.SlotCount (Config.Cluster c) < 4294967296.

(** ** Validated peers *)

Record peers_ok (nodeID : string) (auto : bool) (ps : list Config.PeerConfig) (s0 s : Config.Seen) : Prop := {
  po_fields : Forall (fun p => Config.PeerID p <> "" /\ Config.PeerAddress p <> "" /\ Config.PeerAPIAddress p <> "") ps;
  po_ids : NoDup (Config.PeerID <$> ps) /\ forall p, p ∈ ps -> Config.PeerID p ∉ Config.seenIDs s0;
  po_addresses : NoDup (Config.PeerAddress <$> ps) /\ forall p, p ∈ ps -> Config.PeerAddress p ∉ Config.seenAddresses s0;
  po_seen : forall id, id ∈ Config.seenIDs s <-> (id ∈ Config.seenIDs s0 \/ id ∈ (Config.PeerID <$> ps));
  po_self : Config.selfFound s = true -> Config.selfFound s0 = true \/ nodeID ∈ (Config.PeerID <$> ps);
  po_control : auto = true -> Forall (fun p => Config.TrimSpace (Config.ControlAddress p) <> "") ps
}.

Lemma validatePeer_ok auto nodeID p s s' :
  Config.validatePeer auto nodeID p s = inl s' ->
  (Config.PeerID p <> "" /\ Config.PeerAddress p <> "" /\ Config.PeerAPIAddress p <> "") /\
  (Config.PeerID p ∉ Config.seenIDs s) /\ (Config.PeerAddress p ∉ Config.seenAddresses s) /\
  (auto = true -> Config.TrimSpace (Config.ControlAddress p) <> "") /\
  Config.seenIDs s' = ({[Config.PeerID p]} ∪ Config.seenIDs s) /\ Config.seenAddresses s' = ({[Config.PeerAddress p]} ∪ Config.seenAddresses s) /\
  Config.selfFound s' = (Config.selfFound s || String.eqb (Config.PeerID p) nodeID).
Proof.
  unfold Config.validatePeer. destruct (String.eqb_spec (Config.PeerID p) ""), (String.eqb_spec (Config.PeerAddress p) ""),
    (String.eqb_spec (Config.PeerAPIAddress p) ""); try done. cbn [orb].
  do 3 (case_bool_decide; [done|]). destruct auto; cbn [andb]; [|by intros [= <-]].
  destruct (negb _); [done|]. destruct (String.eqb_spec (Config.TrimSpace (Config.ControlAddress p)) ""); [done|].
  case_bool_decide; [done|]. by intros [= <-].
Qed.

Lemma validatePeers_ok auto nodeID ps s0 s : Config.validatePeers auto nodeID ps s0 = inl s -> peers_ok nodeID auto ps s0 s.
Proof.
  revert s0; induction ps as [|p ps IH]; intros s0; cbn [Config.validatePeers].
  { intros [= <-]. split; try constructor; try constructor; try set_solver. }
  destruct (Config.validatePeer auto nodeID p s0) as [s1|] eqn:Hp; [|done]. intros [Hf [Hn1 Hn2] [Ha1 Ha2] Hs Hself Hc]%IH.
  apply validatePeer_ok in Hp as (Hpf & Hid & Had & Hctl & E1 & E2 & E3). rw E1 in Hn2, Hs. rw E2 in Ha2. rw E3 in Hself. split.
  - by constructor.
  - rw fmap_cons. split; [constructor; [|done]|]; [|set_solver]. intros (q & Hq & Hin)%list_elem_of_fmap. apply (Hn2 q Hin). set_solver.
  - rw fmap_cons. split; [constructor; [|done]|]; [|set_solver]. intros (q & Hq & Hin)%list_elem_of_fmap. apply (Ha2 q Hin). set_solver.
  - intros id. rw Hs. set_solver.
  - rw fmap_cons. intros [[Hself0|Heq%String.eqb_eq]%orb_true_iff|Hin]%Hself; [by left|right; set_solver|right; set_solver].
  - intros Hauto. constructor; auto.
Qed.

(** ** What validation promises *)

(** The promises to each component. *)
Record bootable (c : Config.Config) : Prop := {
  bt_node : Config.NodeID (Config.Node c) <> "";
  bt_port : 0 < Config.Port (Config.Network c) <= 65535;
  bt_connections : 0 < Config.MaxConnections (Config.Network c);
  bt_stripes : 0 < Config.StripeCount (Config.Engine c);
  bt_policy : PolicyName (PolicyByName (Config.EvictionPolicy (Config.Engine c))) = Config.EvictionPolicy (Config.Engine c);
  bt_level : is_Some (Config.ParseLevel (Config.LogLevel (Config.Observability c)));
  bt_format : PFormat (persistenceOf c) = FormatJSON \/ PFormat (persistenceOf c) = FormatBinary;
  bt_snapshots : PEnabled (persistenceOf c) = true -> 0 < MaxSnapshots (persistenceOf c) /\ 0 < SnapshotIntervalSec (persistenceOf c);
  bt_cluster : Config.IsClustered c = true -> config_ok (clusterOf c) /\ ReplicationEnabled (clusterOf c) = true /\
    NoDup (Config.PeerAddress <$> Config.Peers (Config.Cluster c)) /\
    Config.NodeID (Config.Node c) ∈ (Config.PeerID <$> Config.Peers (Config.Cluster c));
  bt_standalone : Config.IsClustered c = false -> cfgPeers (clusterOf c) = [];
  bt_automatic : automatic c = true -> (3 <= length (Config.Peers (Config.Cluster c)))%nat /\
    Config.BootstrapNodeID (Config.Controller (Config.Cluster c)) ∈ (Config.PeerID <$> Config.Peers (Config.Cluster c)) /\
    Config.RequestSigningSecret c <> "" /\
    0 < ObserveIntervalMs (controllerOf c) /\ 0 < FailureTimeoutMs (controllerOf c) /\ 0 < ConsecutiveFailures (controllerOf c) /\
    0 < RebalanceSkewThreshold (controllerOf c) /\ 0 < MigrationRateLimit (controllerOf c)
}.

Lemma TrimSpace_empty s : Config.TrimSpace s <> "" -> s <> "".
Proof. by intros Hne ->. Qed.

Lemma validateCluster_ok c : typed c -> Config.validateCluster c = None ->
  (Config.IsClustered c = true -> config_ok (clusterOf c) /\ ReplicationEnabled (clusterOf c) = true /\
    NoDup (Config.PeerAddress <$> Config.Peers (Config.Cluster c)) /\
    Config.NodeID (Config.Node c) ∈ (Config.PeerID <$> Config.Peers (Config.Cluster c))) /\
  (Config.IsClustered c = false -> cfgPeers (clusterOf c) = []) /\
  (automatic c = true -> exists seen, (forall id, id ∈ seen <-> id ∈ (Config.PeerID <$> Config.Peers (Config.Cluster c))) /\
    Config.validateController c seen = None).
Proof.
  intros Ht. unfold Config.validateCluster, Config.IsClustered, automatic, clusterOf. unfold typed in Ht.
  destruct (Config.Cluster c) as [id en sh rep cnt route fail k ps]. cbn [Config.ClusterID Config.ClusterEnabled Config.ShardingEnabled
    Config.ReplicationEnabled Config.SlotCount Config.RoutingMode Config.FailoverMode Config.Controller Config.Peers] in *.
  destruct en; cbn [negb andb].
  2: { destruct (sh || rep); [done|]. destruct ps as [|p ps]; [done|]. cbn [length]. destruct (Z.ltb_spec 0 (Z.of_nat (S (length ps)))); [done|lia]. }
  destruct (String.eqb_spec (Config.TrimSpace id) "") as [|Hid%TrimSpace_empty]; [done|]. destruct sh; [|done]. destruct rep; [|done]. cbn [negb].
  destruct (Z.eqb_spec cnt 0), (Z.ltb_spec 65536 cnt); try done. cbn [orb]. destruct (negb (String.eqb route "proxy")); [done|].
  destruct (negb _ && negb _); [done|]. destruct (Z.ltb_spec (Z.of_nat (length ps)) 2), (Z.ltb_spec 5 (Z.of_nat (length ps))); try done. cbn [orb].
  destruct (Config.validatePeers _ _ ps _) as [s|] eqn:Hp; [|done]. apply validatePeers_ok in Hp as [Hf [Hids _] [Haddr _] Hseen Hself _].
  destruct (Config.selfFound s); [|done]. cbn [negb]. intros Hctl. split; [|split; [done|]].
  - intros _. split_and!; [|done|done|by destruct (Hself eq_refl)]. split; cbn [Enabled cfgID cfgSlotCount cfgPeers].
    + done.
    + done.
    + lia.
    + rw length_fmap. lia.
    + rw -list_fmap_compose. done.
    + by apply Forall_fmap.
  - intros Hauto. rw Hauto in Hctl. exists (Config.seenIDs s). split; [|done]. intros x. rw Hseen. set_solver.
Qed.

Lemma validateController_ok c seen : Config.validateController c seen = None ->
  (3 <= length (Config.Peers (Config.Cluster c)))%nat /\ Config.BootstrapNodeID (Config.Controller (Config.Cluster c)) ∈ seen /\
  Config.RequestSigningSecret c <> "" /\
  0 < ObserveIntervalMs (controllerOf c) /\ 0 < FailureTimeoutMs (controllerOf c) /\ 0 < ConsecutiveFailures (controllerOf c) /\
  0 < RebalanceSkewThreshold (controllerOf c) /\ 0 < MigrationRateLimit (controllerOf c).
Proof.
  unfold Config.validateController. destruct (Z.ltb_spec (Z.of_nat (length (Config.Peers (Config.Cluster c)))) 3); [done|].
  destruct (Config.outOfRange _); [done|]. destruct (String.eqb _ ""); [done|]. destruct (String.eqb _ ""); [done|].
  case_bool_decide; [|done]. cbn [negb]. destruct (String.eqb_spec (Config.TrimSpace (Config.RequestSigningSecret c)) "") as [|Hs%TrimSpace_empty]; [done|].
  unfold controllerOf. cbn [ObserveIntervalMs FailureTimeoutMs ConsecutiveFailures RebalanceSkewThreshold MigrationRateLimit].
  repeat match goal with |- context [?a <=? 0] => destruct (Z.leb_spec a 0); cbn [orb]; try done end.
  intros _. split_and!; [lia|done..].
Qed.

Lemma existsb_eqb s l : existsb (String.eqb s) l = true -> s ∈ l.
Proof. intros (x & Hx & ->%String.eqb_eq)%existsb_exists. by apply list_elem_of_In. Qed.

Lemma Validate_bootable c c' : typed c -> Config.Validate c = inl c' -> bootable c'.
Proof.
  intros Ht. unfold Config.Validate. destruct (String.eqb_spec (Config.NodeID (Config.Node c)) ""); [done|].
  destruct (Config.outOfRange (Config.Port (Config.Network c))) eqn:Hport; [done|].
  destruct (Z.leb_spec (Config.MaxConnections (Config.Network c)) 0); [done|]. case_bool_decide as Hlevel; [done|].
  destruct (Z.leb_spec (Config.StripeCount (Config.Engine c)) 0); [done|].
  destruct (existsb _ Config.validEvictionPolicies) eqn:Hpol; [|done]. destruct (existsb _ Config.validSnapshotFormats) eqn:Hfmt; [|done]. cbn [negb].
  destruct (Config.validatePersistence _) eqn:Hper; [done|]. destruct (Config.validateCluster _) eqn:Hcl; [done|]. intros Heq. injection Heq as <-.
  apply validateCluster_ok in Hcl as (H1 & H2 & H3); [|done]. split; try done.
  - unfold Config.outOfRange in Hport. cbn. lia.
  - apply existsb_eqb in Hpol. unfold Config.validEvictionPolicies in Hpol. rw !elem_of_cons in Hpol.
    destruct Hpol as [->|[->|[->|[->|[->|Hpol]]]]]; [done..|]. by apply not_elem_of_nil in Hpol.
  - by apply not_eq_None_Some.
  - apply existsb_eqb in Hfmt. unfold Config.validSnapshotFormats in Hfmt. rw !elem_of_cons in Hfmt.
    destruct Hfmt as [Hf|[Hf|Hf]]; [by left|by right|]. by apply not_elem_of_nil in Hf.
  - intros He. unfold Config.validatePersistence in Hper. cbn in He |- *. rw He in Hper. cbn [negb] in Hper.
    destruct (String.eqb _ ""); [done|]. destruct (Z.leb_spec (Config.SnapshotIntervalSec (Config.Persistence c)) 0); [done|].
    destruct (Z.leb_spec (Config.MaxSnapshots (Config.Persistence c)) 0); [done|]. done.
  - intros Ha. destruct (H3 Ha) as (seen & Hseen & (K1 & K2 & K3)%validateController_ok). split_and!; try done; try apply K3. by apply Hseen.
Qed.

(** ** The theorem *)

(** C26: A configuration that loads is fit for every component that is built from
    it: the eviction policy is one of the five and not a silent fallback, the
    snapshot format and retention are usable, the controller has a quorum, a
    secret and positive intervals, and in cluster mode the slot map is built, is
    well formed, is the same on all nodes, and gives every key a leader with a
    different replica. *)
Theorem config_boots `{SliceSortOk, Config.ConfigFile} path c :
  (forall raw c, Config.decodeYAML raw Config.defaults = Some c -> typed c) -> Config.Load path = inl c ->
  bootable c /\
  (Config.IsClustered c = true -> forall local key, exists m m' st,
    NewMetadata (clusterOf c) (Config.NodeID (Config.Node c)) = Some m /\ meta_wf m /\
    NewMetadata (clusterOf c) local = Some m' /\ Metadata.Snapshot m' = Metadata.Snapshot m /\
    Slot m (SlotForKey m key) = Some st /\ LeaderID st <> ReplicaID st /\ ReplicaReady st = true /\
    LeaderID st ∈ (PeerID <$> cfgPeers (clusterOf c)) /\ ReplicaID st ∈ (PeerID <$> cfgPeers (clusterOf c))).
Proof.
  intros Hyaml Hload. assert (Hb : bootable c).
  { unfold Config.Load in Hload. destruct (Config.readFile path) as [raw|]; [|done].
    destruct (Config.decodeYAML raw Config.defaults) as [cfg|] eqn:Hc; [|done]. eapply Validate_bootable, Hload.
    apply Hyaml in Hc. unfold typed in *. cbn. unfold Config.orInt. destruct (_ =? 0); lia. }
  split; [done|]. intros Hcl local key. destruct (bt_cluster c Hb Hcl) as (Hok & Hrep & _ & _).
  destruct (NewMetadata_wf (clusterOf c) (Config.NodeID (Config.Node c)) Hok) as (m & Hm & Hwf).
  destruct (NewMetadata_wf (clusterOf c) local Hok) as (m' & Hm' & _).
  destruct (NewMetadata_slots (clusterOf c) Hok (Config.NodeID (Config.Node c))) as (m0 & Hm0 & _ & _ & Hcnt & _ & _ & _ & Hlen & Hslots).
  rw Hm in Hm0. apply (inj Some) in Hm0 as <-. pose proof (SlotForKey_range m key Hwf) as Hk.
  destruct (lookup_lt_is_Some_2 (slots m) (Z.to_nat (SlotForKey m key)) ltac:(lia)) as [st Hst].
  destruct (Hslots _ _ Hst) as (o & leader & replica & Ho1 & Ho2 & Hne & _ & Heq). rw Hrep in Heq.
  assert (Hin : forall i x, owners (clusterOf c) !! i = Some x -> x ∈ (PeerID <$> cfgPeers (clusterOf c))).
  { intros i x Hx%list_elem_of_lookup_2. unfold owners in Hx. by rw slice_sort_elem in Hx. }
  exists m, m', st. split_and!; try done.
  - by eapply NewMetadata_agree.
  - unfold Slot. pose proof (wf_count _ Hwf). pose proof (wf_length _ Hwf). unfold u32. rw Z.mod_small; [lia|].
    destruct (Z.leb_spec (Z.of_nat (length (slots m))) (SlotForKey m key)); [lia|]. done.
  - by rw Heq.
  - by rw Heq.
  - rw Heq. by eapply Hin.
  - rw Heq. by eapply Hin.
Qed.

(** A file that asks for a cluster of three with automatic failover. *)
Definition exampleCluster : Config.Config :=
  let peer n := Config.mkPeerConfig ("node-" +:+ n) ("h" +:+ n +:+ ":1") ("h" +:+ n +:+ ":2") ("h" +:+ n +:+ ":3") "Automatic" in
  let d := Config.defaults in
  Config.mkConfig (Config.Node d) (Config.Network d) (Config.mkEngineConfig 16 1048576 "LFU")
    (Config.mkClusterConfig "c" true true true 0 "Proxy" "Automatic" (Config.mkControllerConfig 9000 "raft" "node-2" 0 0 0 0 0)
       [peer "1"; peer "2"; peer "3"])
    "secret" (Config.Persistence d) (Config.Observability d).
Definition exampleFile : Config.ConfigFile := Config.Build_ConfigFile (fun _ => Some "text") (fun _ _ => Some exampleCluster).

Section boot_example.
#[local] Existing Instance exampleFile.
Lemma config_boots_witness : exists c, Config.Load "node.yaml" = inl c /\ automatic c = true /\ bootable c /\
  exists m, NewMetadata (clusterOf c) "node-1" = Some m /\ meta_wf m.
Proof.
  destruct (Config.Load "node.yaml") as [c|] eqn:Hc; [|vm_compute in Hc; discriminate Hc].
  assert (Hcl : Config.IsClustered c = true /\ automatic c = true /\ Config.NodeID (Config.Node c) = "node-1").
  { vm_compute in Hc. injection Hc as <-. auto. }
  exists c. split; [done|]. split; [apply Hcl|].
  destruct (config_boots "node.yaml" c) as [Hb Hm]; [by intros raw c' [= <-]; vm_compute|done|]. split; [done|].
  destruct (Hm (proj1 Hcl) "" "k") as (m & _ & _ & H1 & H2 & _). exists m. rw -(proj2 (proj2 Hcl)). done.
Defined.
End boot_example.
