(* ===== verification/Api.v ===== *)
(** * The HTTP interface of a node: [internal/api]

    The server of a standalone node, whose engine reports to the in-memory
    sink: all of its routes, and the mux that finds them.  What the handlers of
    the controller's requests do on a node of a cluster is in [AdminNode] and
    [NodeClient].  Requests are handled one at a time; snapshots are taken by a
    [Snapshotter]. *)
From S2P Require Import Prelude Encoding GoTime Topology ControlFSM ControlJson AdminNode NodeClient.
From S2P Require Import GoText GoFloat GoFloatText FloatRatio Json JsonCodec Resp Eviction Store Executor Engine Server Metrics.
From S2P Require Config SnapshotFile Persistence.
Local Open Scope Z_scope.

(** ** Letters *)

(** [strings.ToUpper] and [strings.ToLower]; the tables of letters that are not
    ASCII are not modelled. *)
Class UnicodeCase := {
  ToUpper : string -> string;
  ToLower : string -> string;
  ToUpper_plain : forall s, JsonCodec.plain s = true -> ToUpper s = upper s;
  ToLower_plain : forall s, JsonCodec.plain s = true -> ToLower s = smap toLowerByte s
}.

(** ** Numbers *)

(** The ['e'] format with the fewest digits, and the exponent as
    [encoding/json] writes it, without a leading zero. *)
Definition fmtE (neg : bool) (d e : Z) : string :=
  let '(d, e) := trimZeros 20 d e in
  let digits := FormatUint d in
  let exp := e + slen digits - 1 in
  (if neg then "-" else "") +:+ stake 1 digits +:+ (if slen digits =? 1 then "" else "." +:+ sdrop 1 digits) +:+
  "e" +:+ (if exp <? 0 then "-" +:+ FormatUint (- exp) else "+" +:+ FormatUint exp).
(** A [float64] in JSON: the ['e'] format below 1e-6 and from 1e21 on; NaN and
    the infinities have no encoding. *)
Definition encFloat (f : float64) : option Json :=
  match f with
  | S754_nan | S754_infinity _ => None
  | S754_zero _ => Some (JNum (FormatFloat f))
  | S754_finite neg m e =>
      let abs := S754_finite false m e in
      let '(num, den) := ratio m e in
      if fltb abs (decFloat false 1 (-6)) || negb (fltb abs (decFloat false 1 21))
      then let '(d, x) := shortest 17 f neg num den (decExp num den) 1 in Some (JNum (fmtE neg d x))
      else Some (JNum (FormatFloat f))
  end.
(** [MemoryTracker.UsageRatio] *)
Definition UsageRatio (limitBytes : Z) (s : Store) : float64 :=
  if limitBytes =? 0 then S754_zero false else SFdiv 53 1024 (floatOfUint (usedBytes s)) (floatOfUint limitBytes).

(** ** Responses *)

(** [writeJSON] of a value that may have no encoding; the error is dropped. *)
Definition writeJSONOf (status : Z) (j : option Json) : HTTPResponse :=
  match j with Some j => writeJSON status j | None => mkHTTPResponse status "" end.
Definition requireMethod (r : HTTPRequest) (method : string) : option HTTPResponse :=
  if String.eqb (Method r) method then None else Some (mkHTTPResponse 405 ("method not allowed" +:+ LF)).

(** ** Commands *)

Definition decCommandRequest : Dec (list string) := decStruct true ["args"] (fun get args =>
  s ← get _ "args" (decSlice "" decString) (mkSlice args []); Some (visible s)).

(** A result is its type and its value. *)
Inductive anyValue := ANil | AString (s : string) | AInt64 (n : Z) | AResults (items : list (string * anyValue)).
Definition commandResult : Type := string * anyValue.
Fixpoint frameToResult (f : Frame) : commandResult :=
  match f with
  | SimpleString s => ("string", AString s)
  | Error prefix message => ("error", AString (if String.eqb prefix "" then message else prefix +:+ " " +:+ message))
  | Integer n => ("integer", AInt64 n)
  | BulkString value null => if (null : bool) then ("nil", ANil) else ("bulk", AString value)
  | Array items null => if (null : bool) then ("nil", ANil) else ("array", AResults (map frameToResult items))
  end.
Fixpoint valueJson (v : anyValue) : Json :=
  match v with
  | ANil => JNull
  | AString s => JStr s
  | AInt64 n => encInt n
  | AResults items => JArr (map (fun r => JObj [("type", JStr r.1); ("value", valueJson r.2)]) items)
  end.
Definition resultJson (r : commandResult) : Json := JObj [("type", JStr r.1); ("value", valueJson r.2)].

Section commands.
Context `{UnicodeCase} {S : Type} `{CommandExecutor S}.

Definition apiCommand (args : list string) : Command :=
  match args with name :: rest => mkCommand (ToUpper name) rest | [] => mkCommand "" [] end.
Definition handleCommands (r : HTTPRequest) (s : S) : option (HTTPResponse * S) :=
  match requireMethod r "POST" with
  | Some refused => Some (refused, s)
  | None =>
      match decodeJSONBody decCommandRequest [] (Body r) with
      | None => Some (writeJSON 400 (errorJson "invalid json body"), s)
      | Some [] => Some (writeJSON 400 (errorJson "args must not be empty"), s)
      | Some args =>
          '(frame, s) ← executeCommand (apiCommand args) s;
          Some (writeJSON 200 (resultJson (frameToResult frame)), s)
      end
  end.
End commands.

(** ** A standalone node *)

(** How long an operation took. *)
Class Stopwatch := elapsed : nat -> Z.

(** The engine with its sink; the policy of the eviction manager can change. *)
Record Standalone (W : Type) := mkStandalone { snEng : Eng W; snPolicy : Policy; snSink : InMemory }.
Arguments mkStandalone {W}. Arguments snEng {W}. Arguments snPolicy {W}. Arguments snSink {W}.

Section node.
Context `{Env, SliceSort, UnicodeCase, Stopwatch} {W : Type} (cfg : Engine.Config W).

Definition withPolicy (p : Policy) : Engine.Config W := Engine.mkConfig (limit cfg) p (writeHook cfg) (hookSync cfg).

(** [Engine.Execute] with its metrics: the counters of the execution, then
    the latency, go to the sink. *)
Definition meteredExecute (cmd : Command) (s : Standalone W) : option (Frame * Standalone W) :=
  let e := snEng s in
  '(frame, e') ← EngineExecute (withPolicy (snPolicy s)) cmd (mkEng (engSys e) (engHook e) []);
  let sink := ObserveLatency ("cmd." +:+ ToLower (Name cmd)) (elapsed (tick (engSys e'))) (recordAll (engMetrics e') (snSink s)) in
  Some (frame, mkStandalone (mkEng (engSys e') (engHook e') []) (snPolicy s) sink).
Definition apiExecutor : CommandExecutor (Standalone W) := meteredExecute.
(** A connection also observes the latency of every command. *)
Definition connectionExecutor : CommandExecutor (Standalone W) := fun cmd s =>
  '(frame, s) ← meteredExecute cmd s;
  Some (frame, mkStandalone (snEng s) (snPolicy s) (ObserveLatency "command_latency" (elapsed (tick (engSys (snEng s)))) (snSink s))).

(** ** Eviction policy *)

Definition decPolicyRequest : Dec string := decStruct true ["policy"] (fun get p => get _ "policy" decString p).
Definition validPolicies : list string := ["noeviction"; "fifo"; "lru"; "lfu"; "random"].
(** [Manager.SetPolicy] *)
Definition SetPolicy (p : Policy) (s : Standalone W) : Standalone W := mkStandalone (snEng s) p (snSink s).
Definition handleEvictionPolicy (r : HTTPRequest) (s : Standalone W) : HTTPResponse * Standalone W :=
  match requireMethod r "POST" with
  | Some refused => (refused, s)
  | None =>
      match decodeJSONBody decPolicyRequest "" (Body r) with
      | None => (writeJSON 400 (errorJson "invalid json body"), s)
      | Some policy =>
          let name := ToLower (Config.TrimSpace policy) in
          if negb (existsb (String.eqb name) validPolicies) then (writeJSON 400 (errorJson ("unknown policy: " +:+ policy)), s)
          else (writeJSON 200 (JObj [("policy", JStr name)]), SetPolicy (PolicyByName name) s)
      end
  end.

(** ** Reads *)

Definition snStore (s : Standalone W) : Store := sysStore (engSys (snEng s)).
Definition engineStateJson (s : Standalone W) : option Json :=
  ratio ← encFloat (UsageRatio (limit cfg) (snStore s));
  Some (JObj [("usedBytes", encUint (Used (snStore s))); ("memoryLimit", encUint (limit cfg));
              ("availableBytes", encUint (Available (limit cfg) (snStore s))); ("usageRatio", ratio);
              ("evictionPolicy", JStr (PolicyName (snPolicy s)));
              ("rejectedWrites", encUint (Counter (snSink s) "eviction.rejected_writes"))]).
Definition handleEngineState (r : HTTPRequest) (s : Standalone W) : HTTPResponse :=
  match requireMethod r "GET" with Some refused => refused | None => writeJSONOf 200 (engineStateJson s) end.

(** The counters, and the gauges if there are any. *)
Definition countersJson (m : InMemory) : Json := encMap (fun k => k) encUint (counters m).
Definition gaugesJson (m : InMemory) : option (list (string * Json)) :=
  if bool_decide (gauges m = ∅) then Some []
  else members ← mapM (fun p => j ← encFloat p.2; Some (p.1, j)) (merge_sort byText (map_to_list (gauges m)));
       Some [("gauges", JObj members)].
Definition handleMetricsSummary (r : HTTPRequest) (s : Standalone W) : HTTPResponse :=
  match requireMethod r "GET" with
  | Some refused => refused
  | None => writeJSONOf 200 (gs ← gaugesJson (snSink s); Some (JObj ([("counters", countersJson (snSink s))] ++ gs)))
  end.
(** What [handleEvents] sends every second; a map is written in the order of
    its keys. *)
Definition snapshotPayload (now : Z) (recovery : option Json) (s : Standalone W) : Json :=
  JObj (merge_sort byText
    ([("timestamp", encInt now); ("usedBytes", encUint (Used (snStore s))); ("memoryLimit", encUint (limit cfg));
      ("availableBytes", encUint (Available (limit cfg) (snStore s))); ("policy", JStr (PolicyName (snPolicy s)));
      ("counters", countersJson (snSink s)); ("rejectedWrites", encUint (Counter (snSink s) "eviction.rejected_writes"))] ++
     match recovery with Some j => [("recovery", j)] | None => [] end)).
Definition eventText (payload : Json) : string := "data: " +:+ printJson payload +:+ LF +:+ LF.
End node.

(** ** Snapshots *)

(** [Snapshotter.Snapshot]; an error is its text and whether it is
    [ErrDisabled]; [None] is a panic. *)
Class Snapshotter (S : Type) := takeSnapshot : S -> option ((Persistence.Result + (bool * string)) * S).
Definition snapshotResultJson (r : Persistence.Result) : option Json :=
  created ← timeText (Persistence.RCreatedAt r);
  Some (JObj [("path", JStr (Persistence.RPath r)); ("format", JStr (Persistence.RFormat r)); ("createdAt", JStr created);
              ("entryCount", encInt (Persistence.RSnapEntries r)); ("checksum", JStr (Persistence.RChecksum r))]).
Definition handleSnapshot {S} (snapshots : option (Snapshotter S)) (r : HTTPRequest) (s : S) : option (HTTPResponse * S) :=
  match requireMethod r "POST" with
  | Some refused => Some (refused, s)
  | None =>
      match snapshots with
      | None => Some (writeJSON 503 (errorJson "snapshot persistence is disabled"), s)
      | Some take =>
          '(result, s) ← take s;
          match result with
          | inr (disabled, text) => Some (writeJSON (if (disabled : bool) then 503 else 500) (errorJson text), s)
          | inl result => Some (writeJSONOf 201 (snapshotResultJson result), s)
          end
      end
  end.

(** The manager of [internal/persistence] behind this interface.  What it finds
    in its directory, and how many calls of the operating system came before, is
    an argument: the directory is shared with whoever administers the node.  The
    texts of errors other than [ErrDisabled] are not modelled. *)
Record Directory := mkDirectory { dirFound : Persistence.Disk; dirSteps : nat }.
Definition persistenceSnapshots `{Env, SliceSort, Crypto, SnapshotFile.Gob, Persistence.Faults} {W} (errText : Persistence.PersistErr -> string)
    (pcfg : Persistence.PersistenceConfig) (nodeID : string) (dir : Directory) : Snapshotter (Standalone W) := fun s =>
  let e := snEng s in
  '(r, p) ← Persistence.Snapshot pcfg nodeID (Persistence.mkPState (engSys e) None (dirFound dir) (dirSteps dir) []);
  Some (match r with
        | inl result => inl result
        | inr Persistence.ErrDisabled => inr (true, "snapshot persistence is disabled")
        | inr err => inr (false, errText err)
        end, mkStandalone (mkEng (Persistence.pSys p) (engHook e) (engMetrics e)) (snPolicy s) (snSink s)).

(** ** Routes *)

Inductive Route :=
| RHealth | REngineState | RMetricsSummary | RClusterState | RControllerState | REvents | RCommands | REvictionPolicy
| RSnapshot | RPromote | RReplica | RSync | RPrepare | RAdmit.
Definition patterns : list (list string * Route) :=
  [(["health"], RHealth); (["engine"; "state"], REngineState); (["metrics"; "summary"], RMetricsSummary);
   (["cluster"; "state"], RClusterState); (["controller"; "state"], RControllerState); (["events"], REvents);
   (["commands"], RCommands); (["engine"; "eviction-policy"], REvictionPolicy); (["admin"; "snapshot"], RSnapshot);
   (["cluster"; "promote"], RPromote); (["cluster"; "replica"], RReplica); (["cluster"; "sync"], RSync);
   (["cluster"; "returning"; "prepare"], RPrepare); (["cluster"; "returning"; "admit"], RAdmit)].

(** [http.ServeMux].  The segments of a path, after its first slash; the
    escapes of a segment are decoded when it is compared with a pattern. *)
Fixpoint splitSlash (s : string) : list string :=
  match s with
  | EmptyString => [""]
  | String c s =>
      if Ascii.eqb c "/" then "" :: splitSlash s
      else match splitSlash s with seg :: segs => String c seg :: segs | [] => [String c ""] end
  end.
Definition segments (path : string) : list string := match path with String "/" rest => splitSlash rest | _ => [path] end.
Fixpoint PathUnescape (s : string) : option string :=
  match s with
  | EmptyString => Some ""
  | String "%" rest =>
      match rest with
      | String a (String b rest) => x ← hexDecode (String a (String b "")); s ← PathUnescape rest; Some (x +:+ s)
      | _ => None
      end
  | String c s => s ← PathUnescape s; Some (String c s)
  end.
Definition pathUnescape (s : string) : string := default s (PathUnescape s).
Definition registerRoutes (path : string) : option Route :=
  snd <$> List.find (fun p => bool_decide (p.1 = map pathUnescape (segments path))) patterns.
(** [cleanPath]: no empty segments, no [.] and no [..], but the last slash. *)
Fixpoint cleanSegments (segs acc : list string) : list string :=
  match segs with
  | [] => rev acc
  | seg :: segs =>
      if String.eqb seg "" || String.eqb seg "." then cleanSegments segs acc
      else if String.eqb seg ".." then cleanSegments segs (tail acc) else cleanSegments segs (seg :: acc)
  end.
Definition rooted (path : string) : string := match path with String "/" _ => path | _ => "/" +:+ path end.
Definition cleanPath (path : string) : string :=
  let segs := segments (rooted path) in
  match cleanSegments segs [] with
  | [] => "/"
  | clean => foldr (fun seg p => "/" +:+ seg +:+ p) (match last segs with Some "" => "/" | _ => "" end) clean
  end.

(** ** The server of a node without a cluster *)

(** What the server reads of the configuration; the cluster is disabled, so
    that there is no fence, no membership, no metadata and no controller. *)
Record APIConfig := mkAPIConfig {
  acNodeID : string; acMode : string; acClusterID : string; acSlotCount : Z; acRoutingMode : string; acFailoverMode : string; acPeers : list string }.

(** A response, a redirection of the mux to another path, or a stream of
    events that has begun. *)
Inductive Answer := Responded (response : HTTPResponse) | Redirected (path : string) | Streaming.

Section handler.
Context `{Env, SliceSort, UnicodeCase, Stopwatch} {W : Type} (cfg : Engine.Config W) (api : APIConfig) (snapshots : option (Snapshotter (Standalone W))).
Definition handleStandaloneHealth (r : HTTPRequest) : HTTPResponse :=
  match requireMethod r "GET" with
  | Some refused => refused
  | None => writeJSON 200 (JObj [("status", JStr "ok"); ("nodeId", JStr (acNodeID api)); ("mode", JStr (acMode api)); ("dataState", JStr "active")])
  end.
Definition handleStandaloneCluster (r : HTTPRequest) : HTTPResponse :=
  match requireMethod r "GET" with
  | Some refused => refused
  | None => writeJSON 200 (JObj ([("enabled", JBool false); ("nodeId", JStr (acNodeID api))] ++ omitString "clusterId" (acClusterID api) ++
      omitUint "slotCount" (acSlotCount api) ++ omitString "routingMode" (acRoutingMode api) ++ omitString "failoverMode" (acFailoverMode api) ++
      [("peers", match acPeers api with [] => JNull | ids => JArr (map JStr ids) end); ("dataState", JStr "active")]))
  end.
Definition handleStandaloneController (r : HTTPRequest) : HTTPResponse :=
  match requireMethod r "GET" with
  | Some refused => refused
  | None => writeJSON 404 (errorJson "automatic recovery controller is not enabled")
  end.
(** [prepareControllerAuthorization] of a server without a fence. *)
Definition standaloneAuthorization : option HTTPResponse :=
  if String.eqb (acFailoverMode api) "automatic" then Some (writeJSON 500 (errorJson "automatic control-plane fencing is unavailable")) else None.
(** The handlers of the controller's requests, which end where they find that
    the cluster is disabled; [decoded]: whether the body is accepted. *)
Definition handleStandaloneAdmin (decoded : string -> bool) (disabled : string) (r : HTTPRequest) : HTTPResponse :=
  match requireMethod r "POST" with
  | Some refused => refused
  | None =>
      match standaloneAuthorization with
      | Some refused => refused
      | None => if decoded (Body r) then writeJSON 409 (errorJson disabled) else writeJSON 400 (errorJson "invalid json body")
      end
  end.
Definition isSlotRequest (body : string) : bool := bool_decide (is_Some (decodeSlotRequest body)).
Definition isReplicaRequest (named : bool) (body : string) : bool :=
  match decodeReplicaRequest body with Some (_, nodeId) => negb named || negb (String.eqb nodeId "") | None => false end.
Definition isReturningRequest (body : string) : bool :=
  match decodeReturningRequest body with Some (clusterId, version) => negb (String.eqb clusterId "") && negb (version =? 0) | None => false end.
(** [handleEvents] up to its loop; a response of [net/http] can be flushed. *)
Definition handleEvents (r : HTTPRequest) : Answer :=
  match requireMethod r "GET" with Some refused => Responded refused | None => Streaming end.
(** What the loop writes when its ticker fires. *)
Definition streamEvent (now : Z) (s : Standalone W) : string := eventText (snapshotPayload cfg now None s).

Definition serveRoute (route : Route) (r : HTTPRequest) (s : Standalone W) : option (Answer * Standalone W) :=
  let reads response := Some (Responded response, s) in
  let clusterDisabled := "cluster mode is disabled" in
  let notReturning := "returning-node admission requires automatic cluster mode" in
  match route with
  | RHealth => reads (handleStandaloneHealth r)
  | REngineState => reads (handleEngineState cfg r s)
  | RMetricsSummary => reads (handleMetricsSummary r s)
  | RClusterState => reads (handleStandaloneCluster r)
  | RControllerState => reads (handleStandaloneController r)
  | REvents => Some (handleEvents r, s)
  | RCommands => '(response, s) ← handleCommands (H0 := apiExecutor cfg) r s; Some (Responded response, s)
  | REvictionPolicy => let '(response, s) := handleEvictionPolicy r s in Some (Responded response, s)
  | RSnapshot => '(response, s) ← handleSnapshot snapshots r s; Some (Responded response, s)
  | RPromote => reads (handleStandaloneAdmin isSlotRequest clusterDisabled r)
  | RReplica => reads (handleStandaloneAdmin (isReplicaRequest true) clusterDisabled r)
  | RSync => reads (handleStandaloneAdmin (isReplicaRequest false) clusterDisabled r)
  | RPrepare | RAdmit => reads (handleStandaloneAdmin isReturningRequest notReturning r)
  end.
(** [Server.Handler]: [withCORS] answers [OPTIONS] itself; the mux sends a path
    that is not clean elsewhere, unless the method is [CONNECT].  The path is the
    one that was sent, with its escapes. *)
Definition Handler (r : HTTPRequest) (s : Standalone W) : option (Answer * Standalone W) :=
  if String.eqb (Method r) "OPTIONS" then Some (Responded (mkHTTPResponse 204 ""), s)
  else if String.eqb (URLPath r) "*" then Some (Responded (mkHTTPResponse 400 ""), s)
  else if negb (String.eqb (Method r) "CONNECT") && negb (String.eqb (cleanPath (URLPath r)) (URLPath r)) then Some (Redirected (cleanPath (URLPath r)), s)
  else match registerRoutes (URLPath r) with
  | None => Some (Responded (mkHTTPResponse 404 ("404 page not found" +:+ LF)), s)
  | Some route => serveRoute route r s
  end.
End handler.
