(* ===== verification/ApiSpec.v ===== *)
(** * Properties of the HTTP interface of a node

    Whatever is sent to the sockets of a standalone node, it answers and stays
    within its memory limit; a command sent over HTTP does what the same command
    does over a connection; and the state it reports is its state. *)
From S2P Require Import Prelude Json JsonCodec JsonPrefix Topology ControlFSM ControlJson AdminNode NodeClient NodeClientSpec.
From S2P Require Import GoText GoFloat GoFloatText FloatRatio Resp ListValue SkipList ZSetValue Eviction Store StoreSpec Executor ExecutorSpec Engine EngineSpec Server Node Metrics EngineLog Api.
From S2P Require Import Encoding Snapshot SnapshotSpec.
From S2P Require SnapshotFile Persistence PersistenceSpec Durability.
Local Open Scope Z_scope.

(** ** The size of a request *)

Lemma decElements_size js array xs :
  decElements "" decString js array = Some xs -> args_len xs + args_len (drop (length js) array) <= jsize (JArr js) + args_len array.
Proof.
  revert array xs. induction js as [|j js IH]; intros array xs; cbn [decElements]; [intros [= <-]; rw drop_0; cbn; lia|].
  destruct (decString j _) as [x|] eqn:Hx; [|done]. destruct (decElements "" decString js (tail array)) as [ys|] eqn:Hy; [|done].
  cbn. intros [= <-]. apply IH in Hy. cbn [args_len foldr]. fold (args_len ys). cbn [length jsize foldr] in Hy |- *.
  pose proof (jsize_nonneg j) as Hj.
  destruct array as [|a array]; cbn [drop tail head] in Hy, Hx |- *.
  - rw drop_nil in Hy. cbn in Hy. destruct j; try done; injection Hx as <-; cbn [jsize default from_option id args_len foldr] in *; change (slen "") with 0; lia.
  - cbn [args_len foldr]. fold (args_len array) (args_len (drop (length js) array)). pose proof (slen_nonneg a).
    destruct j; try done; injection Hx as <-; cbn [jsize default from_option id] in *; lia.
Qed.

Lemma decSlice_size j old s :
  decSlice "" decString j old = Some s ->
  args_len (visible s) + args_len (hidden s) <= jsize j + (args_len (visible old) + args_len (hidden old)).
Proof.
  pose proof (args_len_nonneg (visible old)). pose proof (args_len_nonneg (hidden old)).
  destruct j as [| | | |[|j js]|]; try done; cbn [decSlice]; [intros [= <-]; cbn; lia|intros [= <-]; cbn; lia|].
  destruct (decElements _ _ _ _) as [xs|] eqn:Hx; [|done]. cbn [mbind option_bind]. intros [= <-]. apply decElements_size in Hx.
  rw args_len_app in Hx. cbn [visible hidden]. change (length (j :: js)) with (S (length js)) in Hx. cbn [length] in Hx |- *. lia.
Qed.
Lemma getField_size names ms old s :
  getField names "args" (decSlice "" decString) ms old = Some s ->
  args_len (visible s) + args_len (hidden s) <= jsize (JObj ms) + (args_len (visible old) + args_len (hidden old)).
Proof.
  revert old. induction ms as [|[k j] ms IH]; intros old; cbn [getField]; [intros [= <-]; cbn [jsize foldr]; lia|].
  pose proof (jsize_nonneg j). destruct (names_field _ _ _).
  - destruct (decSlice _ _ j old) as [x|] eqn:Hx; [|done]. cbn [mbind option_bind]. intros Hs%IH. apply decSlice_size in Hx. cbn [jsize foldr snd] in *. lia.
  - intros Hs%IH. cbn [jsize foldr snd] in *. lia.
Qed.
(** The arguments of a decoded request fit in memory. *)
Lemma request_size body args : decodeJSONBody decCommandRequest [] body = Some args -> args_len args <= 3145728.
Proof.
  unfold decodeJSONBody. destruct (Z.ltb_spec maxJSONBodyBytes (slen body)) as [|Hb]; [done|]. destruct (parseJson body) as [j|] eqn:Hj; [|done].
  apply parseJson_size in Hj. unfold maxJSONBodyBytes in Hb. cbn [mbind option_bind]. unfold decCommandRequest, decStruct.
  destruct j as [| | | | |ms]; try done; [intros [= <-]; cbn; lia|]. destruct (_ && _); [done|].
  destruct (getField _ _ _ _ _) as [s|] eqn:Hs; [|done]. cbn [mbind option_bind]. intros [= <-]. apply getField_size in Hs.
  pose proof (args_len_nonneg (hidden s)). cbn [visible hidden args_len foldr] in Hs. lia.
Qed.
Lemma apiCommand_fits `{UnicodeCase} args : args_len args <= 3145728 -> args_len (Args (apiCommand args)) <= 2 ^ 62.
Proof. destruct args as [|a args]; cbn [apiCommand Args args_len foldr]; [lia|]. fold (args_len args). pose proof (slen_nonneg a). lia. Qed.

(** ** Any input *)

(** What happens at the sockets of a node: a connection that sends bytes, a
    request with the directory that a snapshot would find, the ticker of a stream
    of events, or the end of its client. *)
Inductive Interaction := Connection (input : string) | Request (r : HTTPRequest) (dir : Directory) | Tick (stream : nat) (now : Z) | Leave (stream : nat).
Inductive Reply := Output (bytes : string) (e : ServeEnd) | HTTPReply (a : Answer) | Opened (stream : nat) | Sent (event : option string) | Left.
(** A connection has been served to its end, a request has a response, is sent
    elsewhere or has opened a stream. *)
Definition answered (i : Interaction) (reply : Reply) : Prop :=
  match i, reply with
  | Connection _, Output _ e => e <> OutOfFuel
  | Request r _, HTTPReply (Responded response) => 200 <= StatusCode response <= 599
  | Request r _, HTTPReply (Redirected path) => path = cleanPath (URLPath r) /\ path <> URLPath r
  | Request r _, Opened _ => Method r = "GET" /\ registerRoutes (URLPath r) = Some REvents
  | Tick _ _, Sent _ | Leave _, Left => True
  | _, _ => False
  end.
(** The node with its open streams and the number of the next one. *)
Record Sockets (W : Type) := mkSockets { soNode : Standalone W; soStreams : list nat; soNext : nat }.
Arguments mkSockets {W}. Arguments soNode {W}. Arguments soStreams {W}. Arguments soNext {W}.

Section session.
Context `{Env, SliceSort, UnicodeCase, Stopwatch} {W : Type} (cfg : Engine.Config W) (api : APIConfig) (snapshots : Directory -> Snapshotter (Standalone W)).
Definition interact (i : Interaction) (s : Sockets W) : option (Reply * Sockets W) :=
  match i with
  | Connection input =>
      '(out, n, e) ← serve (H := connectionExecutor cfg) input (soNode s); Some (Output out e, mkSockets n (soStreams s) (soNext s))
  | Request r dir =>
      '(a, n) ← Handler cfg api (Some (snapshots dir)) r (soNode s);
      match a with
      | Streaming => Some (Opened (soNext s), mkSockets n (soNext s :: soStreams s) (S (soNext s)))
      | _ => Some (HTTPReply a, mkSockets n (soStreams s) (soNext s))
      end
  | Tick stream now =>
      Some (Sent (if bool_decide (stream ∈ soStreams s) then Some (streamEvent cfg now (soNode s)) else None), s)
  | Leave stream => Some (Left, mkSockets (soNode s) (List.filter (fun k => negb (k =? stream)%nat) (soStreams s)) (soNext s))
  end.
Fixpoint session (evs : list Interaction) (s : Sockets W) : option (list Reply * Sockets W) :=
  match evs with
  | [] => Some ([], s)
  | i :: evs => '(r, s) ← interact i s; '(rs, s) ← session evs s; Some (r :: rs, s)
  end.
Definition startNode (stripeCount : Z) (hook : W) : Standalone W :=
  mkStandalone (mkEng (mkSys (NewStore stripeCount) 0) hook []) (policy cfg) (NewInMemory 2048).
End session.

(** What the server needs of the snapshots: taking one does not panic and
    keeps an invariant. *)
Class SnapshotterOk (S : Type) `{Snapshotter S} (Inv : S -> Prop) : Prop :=
  snapshot_ok : forall s, Inv s -> exists r s', takeSnapshot s = Some (r, s') /\ Inv s'.

Section session_spec.
Context `{Env, SliceSortOk, UnicodeCase, Stopwatch} {W : Type} (cfg : Engine.Config W) (api : APIConfig).
Context (Hlimit : 0 < limit cfg < maxUint64).
Definition sn_inv (s : Standalone W) : Prop := node_inv cfg (snEng s).

Lemma metered_ok cmd s : args_len (Args cmd) <= 2 ^ 62 -> sn_inv s -> exists f s', meteredExecute cfg cmd s = Some (f, s') /\ sn_inv s'.
Proof.
  intros Hc Hs. unfold meteredExecute.
  destruct (engineExecutor_ok (withPolicy cfg (snPolicy s)) Hlimit cmd (mkEng (engSys (snEng s)) (engHook (snEng s)) []) Hc Hs) as (f & e & Hx & Hi).
  unfold executeCommand, engineExecutor in Hx. rw Hx. cbn [mbind option_bind]. eexists f, _. split; [done|]. exact Hi.
Qed.
Lemma apiExecutor_ok : CommandExecutorOk (Standalone W) (H := apiExecutor cfg) sn_inv.
Proof. intros cmd s. apply metered_ok. Qed.
Lemma connectionExecutor_ok : CommandExecutorOk (Standalone W) (H := connectionExecutor cfg) sn_inv.
Proof.
  intros cmd s Hc Hs. destruct (metered_ok cmd s Hc Hs) as (f & s' & Hx & Hi). unfold executeCommand, connectionExecutor. rw Hx. cbn [mbind option_bind].
  eexists f, _. split; [done|]. exact Hi.
Qed.
Lemma handleCommands_ok r s : sn_inv s -> exists resp s', handleCommands (H0 := apiExecutor cfg) r s = Some (resp, s') /\ sn_inv s'.
Proof.
  intros Hs. unfold handleCommands. destruct (requireMethod r "POST"); [by eexists _, _|].
  destruct (decodeJSONBody _ _ _) as [[|name args]|] eqn:Hd; [by eexists _, _| |by eexists _, _].
  apply request_size, apiCommand_fits in Hd. destruct (apiExecutor_ok _ _ Hd Hs) as (f & s' & Hx & Hi). rw Hx. cbn [mbind option_bind]. by eexists _, _.
Qed.
Lemma handleSnapshot_ok (take : Snapshotter (Standalone W)) r s : SnapshotterOk (Standalone W) (H := take) sn_inv -> sn_inv s ->
  exists resp s', handleSnapshot (Some take) r s = Some (resp, s') /\ 200 <= StatusCode resp <= 599 /\ sn_inv s'.
Proof.
  intros Hok Hs. unfold handleSnapshot, requireMethod. destruct (String.eqb _ _); [|by eexists _, _]. destruct (Hok s Hs) as (x & s' & Hx & Hi).
  unfold takeSnapshot in Hx. rw Hx. cbn [mbind option_bind].
  destruct x as [result|[[] text]]; [|by eexists _, _..]. exists (writeJSONOf 201 (snapshotResultJson result)), s'. split; [done|]. split; [|done]. by destruct (snapshotResultJson result).
Qed.
Lemma handleCommands_status (S : Type) (X : CommandExecutor S) r (s : S) resp s' : handleCommands (H0 := X) r s = Some (resp, s') -> 200 <= StatusCode resp <= 599.
Proof.
  unfold handleCommands, requireMethod. destruct (String.eqb _ _); [|by intros [= <- <-]]. destruct (decodeJSONBody _ _ _) as [[|name args]|]; [by intros [= <- <-]| |by intros [= <- <-]].
  destruct (executeCommand _ s) as [[f s1]|]; cbn [mbind option_bind]; [|done]. by intros [= <- <-].
Qed.
Lemma admin_status decoded disabled r : 200 <= StatusCode (handleStandaloneAdmin api decoded disabled r) <= 599.
Proof.
  unfold handleStandaloneAdmin, requireMethod, standaloneAuthorization. destruct (String.eqb _ "POST"); [|done]. destruct (String.eqb _ "automatic"); [done|].
  by destruct (decoded _).
Qed.
Lemma jsonOf_status j : 200 <= StatusCode (writeJSONOf 200 j) <= 599.
Proof. by destruct j. Qed.
Lemma serveRoute_ok (take : Snapshotter (Standalone W)) route r s : SnapshotterOk (Standalone W) (H := take) sn_inv -> sn_inv s ->
  exists a s', serveRoute cfg api (Some take) route r s = Some (a, s') /\ sn_inv s' /\
    match a with Responded response => 200 <= StatusCode response <= 599 | Redirected _ => False | Streaming => route = REvents /\ Method r = "GET" end.
Proof.
  intros Hok Hs. destruct route; cbn [serveRoute]; try (eexists _, s; split; [reflexivity|]; split; [done|]);
    try apply admin_status; try (unfold handleStandaloneHealth, handleStandaloneCluster, handleStandaloneController, handleEngineState, handleMetricsSummary, requireMethod;
      destruct (String.eqb _ "GET"); by [apply jsonOf_status|]).
  - unfold handleEvents, requireMethod. destruct (String.eqb_spec (Method r) "GET"); done.
  - destruct (handleCommands_ok r s Hs) as (resp & s' & Hx & Hi). rw Hx. cbn [mbind option_bind]. eexists _, s'. split; [done|]. split; [done|]. by eapply handleCommands_status.
  - unfold handleEvictionPolicy, requireMethod. destruct (String.eqb _ _); [|by eexists _, _]. destruct (decodeJSONBody _ _ _); [|by eexists _, _].
    cbv zeta. destruct (negb _); by eexists _, _.
  - destruct (handleSnapshot_ok take r s Hok Hs) as (resp & s' & -> & Hst & Hi). cbn [mbind option_bind]. by eexists _, s'.
Qed.
Context (snapshots : Directory -> Snapshotter (Standalone W)) (good : Directory -> Prop).
Context (Hsnapshots : forall dir, good dir -> SnapshotterOk (Standalone W) (H := snapshots dir) sn_inv).
Definition good_event (i : Interaction) : Prop := match i with Request _ dir => good dir | _ => True end.
Lemma interact_ok i s : good_event i -> sn_inv (soNode s) ->
  exists r s', interact cfg api snapshots i s = Some (r, s') /\ answered i r /\ sn_inv (soNode s').
Proof.
  intros Hg Hs. destruct i as [input|r dir|stream now|stream]; cbn [interact]; [| |by eexists _, _..].
  - destruct (serve_fuel_ok (H := connectionExecutor cfg) sn_inv (CommandExecutorOk0 := connectionExecutor_ok) (Datatypes.S (String.length input)) input (soNode s) Hs) as (out & n & e & Hx & Hi).
    unfold serve. rw Hx. cbn [mbind option_bind]. eexists (Output out e), _. split; [done|]. split; [|done]. eapply serve_ends; [|exact Hx]. lia.
  - unfold Handler. destruct (String.eqb (Method r) "OPTIONS"); [by eexists _, _|]. destruct (String.eqb (URLPath r) "*"); [by eexists _, _|].
    destruct (_ && _) eqn:Hc; [apply andb_true_iff in Hc as [_ Hc%negb_true_iff%String.eqb_neq]; by eexists _, _|].
    destruct (registerRoutes (URLPath r)) as [route|] eqn:Hroute; [|by eexists _, _].
    destruct (serveRoute_ok (snapshots dir) route r (soNode s) (Hsnapshots dir Hg) Hs) as (a & n & -> & Hi & Ha). cbn [mbind option_bind].
    destruct a as [response|path|]; [by eexists _, _|done|]. destruct Ha as [-> Ha]. by eexists _, _.
Qed.
Lemma session_ok evs s : Forall good_event evs -> sn_inv (soNode s) ->
  exists rs s', session cfg api snapshots evs s = Some (rs, s') /\ Forall2 answered evs rs /\ sn_inv (soNode s').
Proof.
  intros Hg. revert s. induction Hg as [|i evs Hi Hg IH]; intros s Hs; cbn [session]; [by exists [], s|].
  destruct (interact_ok i s Hi Hs) as (r & s1 & -> & Hr & Hs1). cbn [mbind option_bind].
  destruct (IH s1 Hs1) as (rs & s2 & -> & Hall & Hs2). cbn [mbind option_bind]. exists (r :: rs), s2. split_and!; [done|by constructor|done].
Qed.
End session_spec.

(** The snapshots of [internal/persistence] are such snapshots. *)
Lemma persistenceSnapshots_ok `{Env, SliceSortOk, CryptoOk, SnapshotFile.Gob, Persistence.Faults} {W} (cfg : Engine.Config W) errText pcfg nodeID dir :
  (forall t, range_ok (visit t)) -> PersistenceSpec.bounded (dirFound dir) ->
  SnapshotterOk (Standalone W) (H := persistenceSnapshots errText pcfg nodeID dir) (sn_inv cfg).
Proof.
  intros Hv Hb s (kv & Hkv & Hw). unfold takeSnapshot, persistenceSnapshots.
  destruct (PersistenceSpec.wp_Snapshot pcfg nodeID (Persistence.mkPState (engSys (snEng s)) None (dirFound dir) (dirSteps dir) []) kv Hkv Hv Hb) as (r & p & new & Hrun & _ & _ & Hst & _).
  rw Hrun. cbn [mbind option_bind]. eexists _, _. split; [reflexivity|]. exists kv. split; [|done]. cbn [snEng engSys]. cbn [Persistence.pSys] in Hst. by rw Hst.
Qed.

(** ** Commands over HTTP *)

(** What a client reads from the result of a command. *)
Fixpoint readResult (j : Json) : option Frame :=
  match j with
  | JObj [(_, JStr kind); (_, value)] =>
      match value with
      | JStr s =>
          if String.eqb kind "string" then Some (SimpleString s)
          else if String.eqb kind "error" then Some (Error "" s)
          else if String.eqb kind "bulk" then Some (BulkString s false) else None
      | JNum text => if String.eqb kind "integer" then Integer <$> ParseInt text else None
      | JNull => if String.eqb kind "nil" then Some NullBulk else None
      | JArr js => if String.eqb kind "array" then items ← mapM readResult js; Some (Array items false) else None
      | _ => None
      end
  | _ => None
  end.
(** A result does not tell the prefix of an error from its message, nor a null
    array from a null string. *)
Fixpoint shown (f : Frame) : Frame :=
  match f with
  | Error prefix message => Error "" (if String.eqb prefix "" then message else prefix +:+ " " +:+ message)
  | BulkString value null => if (null : bool) then NullBulk else BulkString value false
  | Array items null => if (null : bool) then NullBulk else Array (map shown items) false
  | f => f
  end.
(** Frames of texts in UTF-8 and 64-bit integers, up to [depth] arrays deep. *)
Fixpoint frame_json (depth : nat) (f : Frame) : Prop :=
  match f with
  | SimpleString s => utf8 s
  | Error prefix message => utf8 (if String.eqb prefix "" then message else prefix +:+ " " +:+ message)
  | Integer n => int64_range n
  | BulkString value null => null = true \/ utf8 value
  | Array items null =>
      null = true \/ match depth with O => False | S depth => Forall (frame_json depth) items end
  end.

Lemma readResult_frame f depth : frame_json depth f -> readResult (resultJson (frameToResult f)) = Some (shown f).
Proof.
  revert depth. induction f as [s|p m|n|v null|items null IH] using Frame_nested_ind; intros depth Hf; cbn [frameToResult shown]; unfold resultJson; cbn [fst snd].
  - done.
  - done.
  - cbn [valueJson]. unfold encInt. cbn [readResult]. change (String.eqb "integer" "integer") with true. cbv iota. rw ParseInt_FormatInt; [by destruct depth|done].
  - by destruct null.
  - destruct null; [done|]. cbn [valueJson readResult fst snd]. destruct depth as [|depth]; destruct Hf as [|Hf]; try done.
    change (String.eqb "array" "array") with true. cbv iota.
    assert (mapM readResult (map (fun r => JObj [("type", JStr r.1); ("value", valueJson r.2)]) (map frameToResult items)) = Some (map shown items)) as ->; [|done].
    induction Hf as [|x l Hx Hl IHl]; [done|]. apply Forall_cons in IH as [IHx IH]. cbn [map mapM]. specialize (IHx depth Hx). unfold resultJson in IHx.
    rw IHx. cbn [mbind option_bind]. by rw (IHl IH).
Qed.
Lemma faithful_frame f depth : frame_json depth f -> faithful (2 * depth + 1) (resultJson (frameToResult f)).
Proof.
  assert (Hobj : forall d kind v, utf8 kind -> faithful d (valueJson v) -> faithful (S d) (resultJson (kind, v))).
  { intros d kind v Hk Hv. apply faithful_obj. apply Forall_cons_2; [split; [done|by apply faithful_str]|]. by apply Forall_singleton. }
  revert depth. induction f as [s|p m|n|v null|items null IH] using Frame_nested_ind; intros depth Hf; cbn [frameToResult];
    replace (2 * depth + 1)%nat with (S (2 * depth)) by lia.
  - apply Hobj; [done|]. apply faithful_str. by destruct depth.
  - apply Hobj; [done|]. apply faithful_str. by destruct depth.
  - apply Hobj; [done|]. apply faithful_int. by destruct depth.
  - destruct null; (apply Hobj; [done|]); [split; simpl; [done|done|lia]|]. apply faithful_str. by destruct depth; destruct Hf.
  - destruct null; (apply Hobj; [done|]); [split; simpl; [done|done|lia]|]. destruct depth as [|depth]; destruct Hf as [|Hf]; try done.
    replace (2 * S depth)%nat with (S (2 * depth + 1)) by lia. cbn [valueJson]. apply faithful_arr. rw map_map. apply Forall_map.
    rewrite -> Forall_forall in IH, Hf. apply Forall_forall. intros x Hx. apply (IH x Hx depth (Hf x Hx)).
Qed.

(** The body of a request for a command. *)
Definition commandBody (args : list string) : string := printJson (JObj [("args", JArr (map JStr args))]).
Lemma decode_commandBody args : Forall utf8 args -> slen (commandBody args) <= maxJSONBodyBytes ->
  decodeJSONBody decCommandRequest [] (commandBody args) = Some args.
Proof.
  intros Hu Hl. unfold decodeJSONBody. destruct (Z.ltb_spec maxJSONBodyBytes (slen (commandBody args))); [lia|]. unfold commandBody.
  assert (faithful 2 (JObj [("args", JArr (map JStr args))])) as Hf.
  { apply faithful_obj, Forall_singleton. split; [done|]. apply faithful_arr, Forall_map. eapply Forall_impl; [exact Hu|]. intros x. apply faithful_str. }
  rw parse_object; [by eapply faithful_weaken; [exact Hf|lia]|]. cbn [mbind option_bind]. unfold decCommandRequest, decStruct.
  change (true && _) with false. cbv iota. cbn [getField]. change (names_field ["args"] "args" "args") with true. cbv iota.
  rw decSlice_enc //. by apply Forall_true.
Qed.

Lemma parse_result f depth : frame_json depth f -> (depth <= 40)%nat ->
  (j ← parseJson (ResponseBody (writeJSON 200 (resultJson (frameToResult f)))); readResult j) = Some (shown f).
Proof.
  intros Hf Hd. unfold writeJSON. cbn [ResponseBody]. unfold parseJson. unfold resultJson at 1.
  rw (nextJson_object (2 * depth + 1)); [by apply faithful_frame|lia|]. cbn [mbind option_bind]. cbv beta iota. change (String.eqb (skipWS LF) "") with true. cbv iota.
  by eapply readResult_frame.
Qed.
(** ** What a node reports *)

(** Commands, from a connection or over HTTP, and changes of the policy. *)
Inductive Op := ExecuteOp (connection : bool) (cmd : Command) | SetPolicyOp (p : Policy).

Section report.
Context `{Env, SliceSort, UnicodeCase, Stopwatch} {W : Type} (cfg : Engine.Config W).
Fixpoint perform (ops : list Op) (s : Standalone W) : option (list Frame * Standalone W) :=
  match ops with
  | [] => Some ([], s)
  | ExecuteOp connection cmd :: ops =>
      '(f, s) ← (if (connection : bool) then connectionExecutor cfg else apiExecutor cfg) cmd s;
      '(fs, s) ← perform ops s;
      Some (f :: fs, s)
  | SetPolicyOp p :: ops => perform ops (SetPolicy p s)
  end.
Definition op_fits (op : Op) : Prop := match op with ExecuteOp _ cmd => args_len (Args cmd) <= 2 ^ 62 | SetPolicyOp _ => True end.
Fixpoint lastPolicy (p : Policy) (ops : list Op) : Policy :=
  match ops with [] => p | SetPolicyOp p :: ops => lastPolicy p ops | _ :: ops => lastPolicy p ops end.
Definition ooms (fs : list Frame) : Z := Z.of_nat (length (filter (fun f => isOOMFrame f = true) fs)).
End report.

Section report_spec.
Context `{Env, SliceSortOk, UnicodeCase, Stopwatch} {W : Type} (cfg : Engine.Config W).
Context (Hlimit : 0 < limit cfg < maxUint64) (Hhook : writeHook cfg = None).

Lemma metered_counts cmd s f s' name : meteredExecute cfg cmd s = Some (f, s') -> u64 (Counter (snSink s) name) = Counter (snSink s) name ->
  exists log, countOf rejected log = (if isOOMFrame f then 1 else 0) /\ countOf "cmd.total" log = 1 /\
    Counter (snSink s') name = u64 (Counter (snSink s) name + countOf name log) /\ snPolicy s' = snPolicy s.
Proof.
  unfold meteredExecute. destruct (EngineExecute _ _ _) as [[g e]|] eqn:Hx; [|done]. cbn [mbind option_bind]. intros [= <- <-] Hc.
  destruct (engine_logs (withPolicy cfg (snPolicy s)) Hhook cmd _ _ _ Hx) as (log & Hl & Hr & Ht). cbn [engMetrics app] in Hl. exists log.
  split; [done|]. split; [done|]. split; [|done]. cbn [snSink]. unfold Counter at 1. cbn [counters ObserveLatency]. fold (Counter (recordAll (engMetrics e) (snSink s)) name).
  by rw Hl Counter_recordAll.
Qed.
Lemma connection_counts cmd s f s' name : connectionExecutor cfg cmd s = Some (f, s') -> u64 (Counter (snSink s) name) = Counter (snSink s) name ->
  exists log, countOf rejected log = (if isOOMFrame f then 1 else 0) /\ countOf "cmd.total" log = 1 /\
    Counter (snSink s') name = u64 (Counter (snSink s) name + countOf name log) /\ snPolicy s' = snPolicy s.
Proof.
  unfold connectionExecutor. destruct (meteredExecute cfg cmd s) as [[g s1]|] eqn:Hx; [|done]. cbn [mbind option_bind]. intros [= <- <-] Hc.
  destruct (metered_counts _ _ _ _ name Hx Hc) as (log & Hl). by exists log.
Qed.
Lemma perform_spec ops s : sn_inv cfg s -> Forall op_fits ops ->
  u64 (Counter (snSink s) rejected) = Counter (snSink s) rejected -> u64 (Counter (snSink s) "cmd.total") = Counter (snSink s) "cmd.total" ->
  exists fs s', perform cfg ops s = Some (fs, s') /\ sn_inv cfg s' /\ snPolicy s' = lastPolicy (snPolicy s) ops /\
    Counter (snSink s') rejected = u64 (Counter (snSink s) rejected + ooms fs) /\
    Counter (snSink s') "cmd.total" = u64 (Counter (snSink s) "cmd.total" + Z.of_nat (length fs)).
Proof.
  intros Hs Hall. revert s Hs. induction Hall as [|op ops Hop Hall IH]; intros s Hs Hr Ht; cbn [perform].
  { exists [], s. rw !Z.add_0_r. done. }
  destruct op as [connection cmd|p]; [|by apply (IH (SetPolicy p s))].
  assert (exists f s1, (if connection then connectionExecutor cfg else apiExecutor cfg) cmd s = Some (f, s1) /\ sn_inv cfg s1 /\ snPolicy s1 = snPolicy s /\
    Counter (snSink s1) rejected = u64 (Counter (snSink s) rejected + (if isOOMFrame f then 1 else 0)) /\
    Counter (snSink s1) "cmd.total" = u64 (Counter (snSink s) "cmd.total" + 1)) as (f & s1 & -> & Hs1 & Hp & Hr1 & Ht1).
  { destruct connection.
    - destruct (connectionExecutor_ok cfg Hlimit cmd s Hop Hs) as (f & s1 & Hx & Hs1). exists f, s1. do 2 (split; [done|]).
      destruct (connection_counts _ _ _ _ rejected Hx Hr) as (log & E1 & E2 & -> & Hp). rw E1.
      destruct (connection_counts _ _ _ _ "cmd.total" Hx Ht) as (log' & _ & E3 & -> & _). by rw E3.
    - destruct (apiExecutor_ok cfg Hlimit cmd s Hop Hs) as (f & s1 & Hx & Hs1). exists f, s1. do 2 (split; [done|]).
      destruct (metered_counts _ _ _ _ rejected Hx Hr) as (log & E1 & E2 & -> & Hp). rw E1.
      destruct (metered_counts _ _ _ _ "cmd.total" Hx Ht) as (log' & _ & E3 & -> & _). by rw E3. }
  assert (Hu : forall z, u64 (u64 z) = u64 z) by (intros; unfold u64; by rw Zmod_mod).
  cbn [mbind option_bind]. destruct (IH s1 Hs1 ltac:(by rw Hr1 Hu) ltac:(by rw Ht1 Hu)) as (fs & s2 & -> & Hs2 & Hp2 & Hr2 & Ht2). cbn [mbind option_bind].
  exists (f :: fs), s2. split; [done|]. split; [done|]. split; [cbn [lastPolicy]; by rw Hp2 Hp|]. rw Hr2 Ht2 Hr1 Ht1 !u64_add_l. split.
  - f_equal. unfold ooms. rw filter_cons. destruct (isOOMFrame f); case_decide; try done; cbn [length]; lia.
  - f_equal. cbn [length]. lia.
Qed.
End report_spec.

(** ** The theorems *)

(** C31: A command sent as [POST /commands] is the command that the same
    arguments make on a connection: for every executor, the new state and the
    reply are the same - on the connection as a frame, over HTTP as a response
    with status 200 - and one panics when the other does.  When the texts of the
    reply are valid UTF-8 and it is nested at most 40 deep, the body is a JSON value
    from which the frame can be read, up to the prefix of an error and the kind of
    a null.  This is for a name that is not empty and is ASCII, since
    [strings.ToUpper] also changes other letters, for arguments that are valid
    UTF-8 and within the limits of the RESP parser, and for a body of at most
    1 MB. *)
Theorem http_command_same `{UnicodeCase} {S} `{CommandExecutor S} name rest (s : S) r :
  JsonCodec.plain name = true -> request_fits (name :: rest) -> Forall utf8 (name :: rest) ->
  slen (commandBody (name :: rest)) <= maxJSONBodyBytes -> Method r = "POST" -> Body r = commandBody (name :: rest) ->
  match executeCommand (requestCommand (name :: rest)) s with
  | None => handleCommands r s = None /\ serve (writeRequest (name :: rest)) s = None
  | Some (f, s') =>
      exists response e, handleCommands r s = Some (response, s') /\ StatusCode response = 200 /\
        serve (writeRequest (name :: rest)) s = Some (WriteFrame f, s', e) /\ e <> OutOfFuel /\
        (frame_json 40 f -> (j ← parseJson (ResponseBody response); readResult j) = Some (shown f))
  end.
Proof.
  intros Hp Hfits Hu Hl Hm Hb. rw (serve_one _ _ Hfits). unfold handleCommands, requireMethod. rw Hm Hb. change (String.eqb "POST" "POST") with true. cbv iota.
  rw (decode_commandBody _ Hu Hl). cbv iota. assert (apiCommand (name :: rest) = requestCommand (name :: rest)) as -> by (cbn; by rw ToUpper_plain).
  destruct (executeCommand _ s) as [[f s']|]; [|done]. cbn [mbind option_bind]. eexists _, _. split; [done|]. split; [done|]. split; [done|].
  split; [by destruct (isQuit _)|]. intros Hf. by apply (parse_result f 40).
Qed.

(** ASCII letters only, and operations that take no time. *)
Definition asciiCase : UnicodeCase := Build_UnicodeCase upper (smap toLowerByte) (fun _ _ => eq_refl) (fun _ _ => eq_refl).
Definition instant : Stopwatch := fun _ => 0.
Definition smallConfig : Engine.Config unit := Engine.mkConfig 200 NoEviction None false.
Definition smallNode : Standalone unit := startNode smallConfig 4 tt.
Definition smallExecutor : CommandExecutor (Standalone unit) := apiExecutor (H := steadyEnv) (H1 := asciiCase) (H2 := instant) smallConfig.

Lemma http_command_same_witness :
  let r := mkHTTP "POST" "/commands" (commandBody ["set"; "k"; "v"]) "" "" in
  match executeCommand (CommandExecutor := smallExecutor) (requestCommand ["set"; "k"; "v"]) smallNode with
  | None => handleCommands (H := asciiCase) (H0 := smallExecutor) r smallNode = None /\ serve (H := smallExecutor) (writeRequest ["set"; "k"; "v"]) smallNode = None
  | Some (f, s') =>
      exists response e, handleCommands (H := asciiCase) (H0 := smallExecutor) r smallNode = Some (response, s') /\ StatusCode response = 200 /\
        serve (H := smallExecutor) (writeRequest ["set"; "k"; "v"]) smallNode = Some (WriteFrame f, s', e) /\ e <> OutOfFuel /\
        (frame_json 40 f -> (j ← parseJson (ResponseBody response); readResult j) = Some (shown f))
  end.
Proof.
  apply (http_command_same (H := asciiCase) (H0 := smallExecutor) "set" ["k"; "v"] smallNode (mkHTTP "POST" "/commands" (commandBody ["set"; "k"; "v"]) "" ""));
    [reflexivity| |repeat constructor|vm_compute; discriminate|reflexivity|reflexivity].
  split; [discriminate|]. split; [vm_compute; discriminate|]. split; [repeat constructor; vm_compute; discriminate|vm_compute; discriminate].
Defined.

Lemma startNode_inv `{Env, SliceSortOk, UnicodeCase, Stopwatch} {W} (cfg : Engine.Config W) (stripeCount : Z) (hook : W) :
  0 < limit cfg < maxUint64 -> stripeCount < 4294967296 -> sn_inv cfg (startNode cfg stripeCount hook).
Proof.
  intros Hlim Hn. exists ∅. split; [by apply NewStore_spec|]. split; [by intros k x Hk; rw lookup_empty in Hk|].
  unfold ktotal. rw msum_empty. lia.
Qed.

(** C30: Whatever arrives at the sockets of a standalone node that starts
    empty with a memory limit - any sequence of connections that send any bytes
    and of HTTP requests with any method, path and body to any of its routes,
    changes of the eviction policy and snapshots with any failures of the disk
    included, and clients of event streams that come and go - the node does not
    panic, every connection ends, every request is answered with a status, sent
    on to the clean form of its path or, if it is a [GET] of [/events], begins a
    stream, and the accounted memory is within the limit.  The directory of the
    snapshots has to hold fewer than 2^63 files. *)
Theorem sockets_safe `{Env, SliceSortOk, CryptoOk, SnapshotFile.Gob, Persistence.Faults, UnicodeCase, Stopwatch} {W} (cfg : Engine.Config W) (api : APIConfig)
    errText (pcfg : Persistence.PersistenceConfig) (stripeCount : Z) (hook : W) evs :
  0 < limit cfg < maxUint64 -> stripeCount < 4294967296 -> (forall t, range_ok (visit t)) ->
  Forall (fun i => match i with Request _ dir => PersistenceSpec.bounded (dirFound dir) | _ => True end) evs ->
  exists rs s, session cfg api (persistenceSnapshots errText pcfg (acNodeID api)) evs (mkSockets (startNode cfg stripeCount hook) [] 0) = Some (rs, s) /\
    Forall2 answered evs rs /\ 0 <= usedBytes (snStore (soNode s)) <= limit cfg.
Proof.
  intros Hlim Hn Hv Hg.
  destruct (session_ok cfg api Hlim (persistenceSnapshots errText pcfg (acNodeID api)) (fun dir => PersistenceSpec.bounded (dirFound dir))
    (fun dir => persistenceSnapshots_ok cfg errText pcfg (acNodeID api) dir Hv) evs (mkSockets (startNode cfg stripeCount hook) [] 0) Hg (startNode_inv cfg stripeCount hook Hlim Hn)) as (rs & s & Hx & Hall & Hs).
  exists rs, s. split; [done|]. split; [done|]. by apply (node_inv_used cfg).
Qed.
Definition smallAPI : APIConfig := mkAPIConfig "n1" "standalone" "" 0 "" "" [].
Definition exampleTraffic : list Interaction :=
  let dir := mkDirectory None 0 in
  [Connection ("SET a 1" +:+ CRLF +:+ "*-7" +:+ CRLF); Request (mkHTTP "POST" "/engine/eviction-policy" (printJson (JObj [("policy", JStr " LRU")])) "" "") dir;
   Request (mkHTTP "POST" "/commands" (commandBody ["GET"; "a"]) "" "") dir; Request (mkHTTP "GET" "/events" "" "" "") dir;
   Request (mkHTTP "POST" "/admin/snapshot" "" "" "") dir; Tick 0 5; Request (mkHTTP "GET" "//health" "" "" "") dir; Leave 0].
Section traffic.
#[local] Existing Instances Durability.noGob Durability.noFaults.
Lemma sockets_safe_witness :
  exists rs s, session (H := steadyEnv) (H1 := asciiCase) (H2 := instant) smallConfig smallAPI
      (persistenceSnapshots (H := steadyEnv) (fun _ => "failed") Durability.exampleConfig "n1") exampleTraffic (mkSockets smallNode [] 0) = Some (rs, s) /\
    Forall2 answered exampleTraffic rs /\ 0 <= usedBytes (snStore (soNode s)) <= 200.
Proof.
  apply (sockets_safe (H := steadyEnv) (H6 := asciiCase) (H7 := instant) smallConfig smallAPI (fun _ => "failed") Durability.exampleConfig 4 tt exampleTraffic); [by split|done| |].
  - by intros t m.
  - repeat constructor; by intros files [=].
Defined.
End traffic.

(** C32: What a node without replication reports is what it is: after any
    sequence of commands and changes of the policy, [GET /engine/state] answers
    with the total size of the entries it holds, its limit, the room that is
    left, the ratio of the two as a finite number, the policy that was set last,
    and the number of writes it answered with an OOM error; and the counter
    [cmd.total] is the number of commands, both modulo 2^64. *)
Theorem state_reported `{Env, SliceSortOk, UnicodeCase, Stopwatch} {W} (cfg : Engine.Config W) (stripeCount : Z) (hook : W) ops r :
  0 < limit cfg < maxUint64 -> stripeCount < 4294967296 -> writeHook cfg = None -> Forall op_fits ops -> Method r = "GET" ->
  exists fs s kv ratio, perform cfg ops (startNode cfg stripeCount hook) = Some (fs, s) /\ store_kv (snStore s) kv /\
    encFloat (UsageRatio (limit cfg) (snStore s)) = Some ratio /\
    handleEngineState cfg r s = writeJSON 200 (JObj
      [("usedBytes", encUint (ktotal kv)); ("memoryLimit", encUint (limit cfg)); ("availableBytes", encUint (limit cfg - ktotal kv));
       ("usageRatio", ratio); ("evictionPolicy", JStr (PolicyName (lastPolicy (policy cfg) ops))); ("rejectedWrites", encUint (u64 (ooms fs)))]) /\
    Counter (snSink s) "cmd.total" = u64 (Z.of_nat (length fs)).
Proof.
  intros Hlim Hn Hhook Hall Hm.
  destruct (perform_spec cfg Hlim Hhook ops _ (startNode_inv cfg stripeCount hook Hlim Hn) Hall eq_refl eq_refl) as (fs & s & Hx & (kv & Hs & Hin) & Hp & Hr & Ht).
  pose proof (used_exact cfg _ _ Hs (proj2 Hin) ltac:(lia)) as Hu. pose proof (ktotal_nonneg kv) as Hk. destruct Hin as [_ Hin].
  assert (Hf : exists ratio, encFloat (UsageRatio (limit cfg) (snStore s)) = Some ratio).
  { unfold UsageRatio. rw (proj2 (Z.eqb_neq (limit cfg) 0)); [lia|]. unfold snStore. rw Hu.
    pose proof (quotient_finite (ktotal kv) (limit cfg) ltac:(lia) ltac:(lia)) as Hq. destruct (SFdiv _ _ _ _) as [b| | |b m e]; [by eexists|done|done|].
    cbn [encFloat]. destruct (GoFloatText.ratio m e) as [num den]. destruct (_ || _); [|by eexists]. destruct (shortest _ _ _ _ _ _ _). by eexists. }
  destruct Hf as [ratio Hf]. exists fs, s, kv, ratio. split; [done|]. split; [done|]. split; [done|]. split; [|done].
  unfold handleEngineState, requireMethod. rw Hm. change (String.eqb "GET" "GET") with true. cbv iota. unfold engineStateJson. rw Hf. cbn [mbind option_bind writeJSONOf].
  unfold Used, Available, snStore. rw Hu Hp Hr (proj2 (Z.eqb_neq (limit cfg) 0)); [lia|].
  assert ((if limit cfg <=? ktotal kv then 0 else limit cfg - ktotal kv) = limit cfg - ktotal kv) as -> by (destruct (Z.leb_spec (limit cfg) (ktotal kv)); lia).
  done.
Qed.
Definition exampleOps : list Op :=
  [ExecuteOp false (mkCommand "SET" ["a"; "1"]); SetPolicyOp LRU; ExecuteOp true (mkCommand "SET" ["b"; sconcat (replicate 40 "0123456789")])].
Lemma state_reported_witness :
  exists fs s kv ratio, perform (H := steadyEnv) (H1 := asciiCase) (H2 := instant) smallConfig exampleOps smallNode = Some (fs, s) /\ store_kv (snStore s) kv /\
    encFloat (UsageRatio 200 (snStore s)) = Some ratio /\
    handleEngineState smallConfig (mkHTTP "GET" "/engine/state" "" "" "") s = writeJSON 200 (JObj
      [("usedBytes", encUint (ktotal kv)); ("memoryLimit", encUint 200); ("availableBytes", encUint (200 - ktotal kv));
       ("usageRatio", ratio); ("evictionPolicy", JStr (PolicyName (lastPolicy NoEviction exampleOps))); ("rejectedWrites", encUint (u64 (ooms fs)))]) /\
    Counter (snSink s) "cmd.total" = u64 (Z.of_nat (length fs)).
Proof.
  apply (state_reported (H := steadyEnv) (H2 := asciiCase) (H3 := instant) smallConfig 4 tt exampleOps (mkHTTP "GET" "/engine/state" "" "" ""));
    [by split|reflexivity|reflexivity|repeat constructor; vm_compute; discriminate|reflexivity].
Defined.

Lemma connection_latency `{Env, SliceSort, UnicodeCase, Stopwatch} {W} (cfg : Engine.Config W) cmd s f s' :
  connectionExecutor cfg cmd s = Some (f, s') -> length (Latencies (snSink s') "command_latency") = S (length (Latencies (snSink s) "command_latency")).
Proof.
  unfold connectionExecutor, meteredExecute. destruct (EngineExecute _ _ _) as [[g e]|]; [|done]. cbn [mbind option_bind]. intros [= <- <-].
  cbn [snSink]. rw !Latencies_observe. change (String.eqb "command_latency" "command_latency") with true. change (String.eqb (_ +:+ _) "command_latency") with false.
  cbv iota. rw length_app. unfold Latencies. rw recordAll_latencies. simpl. lia.
Qed.
Lemma replies_latency `{Env, SliceSortOk, UnicodeCase, Stopwatch} {W} (cfg : Engine.Config W) reqs s :
  0 < limit cfg < maxUint64 -> sn_inv cfg s -> Forall request_fits reqs -> Forall (fun req => isQuit (requestCommand req) = false) reqs ->
  exists fs s', replies (H := connectionExecutor cfg) reqs s = Some (fs, s', false) /\ sn_inv cfg s' /\
    length (Latencies (snSink s') "command_latency") = (length reqs + length (Latencies (snSink s) "command_latency"))%nat.
Proof.
  intros Hlim Hs Hfits. revert s Hs. induction Hfits as [|req reqs Hreq Hfits IH]; intros s Hs Hq; cbn [replies]; [by eexists _, _|].
  apply Forall_cons in Hq as [Hq1 Hq].
  assert (args_len (Args (requestCommand req)) <= 2 ^ 62) as Hlen.
  { destruct req as [|name rest]; [done|]. destruct Hreq as (_ & _ & _ & Hl). cbn [requestCommand Args args_len foldr] in *. fold (args_len rest) in *.
    pose proof (slen_nonneg name). unfold NewParser in Hl. cbn [maxCommandLen] in Hl. lia. }
  destruct (connectionExecutor_ok cfg Hlim _ s Hlen Hs) as (f & s1 & Hx & Hs1). rw Hx. cbn [mbind option_bind]. rw Hq1. apply connection_latency in Hx.
  destruct (IH s1 Hs1 Hq) as (fs & s2 & -> & Hs2 & Hl). cbn [mbind option_bind]. eexists _, _. split; [done|]. split; [done|]. cbn [length]. lia.
Qed.

(** The memory limit does not bound the memory of a node: after a
    connection that sends any number of requests, the store is within the
    limit, and the sink keeps a latency for every one of them. *)
Theorem latencies_unbounded `{Env, SliceSortOk, UnicodeCase, Stopwatch} {W} (cfg : Engine.Config W) (stripeCount : Z) (hook : W) reqs :
  0 < limit cfg < maxUint64 -> stripeCount < 4294967296 -> Forall request_fits reqs -> Forall (fun req => isQuit (requestCommand req) = false) reqs ->
  exists out s, serve (H := connectionExecutor cfg) (sconcat (map writeRequest reqs)) (startNode cfg stripeCount hook) = Some (out, s, Disconnected) /\
    0 <= usedBytes (snStore s) <= limit cfg /\ length (Latencies (snSink s) "command_latency") = length reqs.
Proof.
  intros Hlim Hn Hfits Hq. unfold serve. rw serve_pipeline_fuel; [done|lia|].
  destruct (replies_latency cfg reqs _ Hlim (startNode_inv cfg stripeCount hook Hlim Hn) Hfits Hq) as (fs & s & -> & Hs & Hl). cbn [mbind option_bind].
  eexists _, s. split; [done|]. split; [by apply (node_inv_used cfg)|]. rw Hl. change (Latencies (snSink (startNode cfg stripeCount hook)) "command_latency") with (@nil Z). cbn [length]. lia.
Qed.
Lemma latencies_unbounded_witness :
  exists out s, serve (H := connectionExecutor (H := steadyEnv) (H1 := asciiCase) (H2 := instant) smallConfig) (sconcat (map writeRequest [["PING"]; ["PING"]])) smallNode =
      Some (out, s, Disconnected) /\
    0 <= usedBytes (snStore s) <= 200 /\ length (Latencies (snSink s) "command_latency") = 2%nat.
Proof.
  apply (latencies_unbounded (H := steadyEnv) (H2 := asciiCase) (H3 := instant) smallConfig 4 tt [["PING"]; ["PING"]]); [by split|reflexivity| |repeat constructor].
  repeat constructor; try discriminate; vm_compute; discriminate.
Defined.
