(* ===== verification/Monitor.v ===== *)
(** * What the controller reports: [internal/controller/controller.go] and the
    JSON of [internal/controlplane/status.go]

    The snapshots that the API and the front end ask for, the gauges, and the
    loop that announces a change of the status.  A tick of the loop is one
    step.  What the Raft library says of itself is a record. *)
From S2P Require Import Prelude GoText GoFloat GoFloatText FloatRatio GoTime Json JsonCodec Metrics.
From S2P Require Import Topology ControlFSM Planner Observer ControlStatus ControlJson AdminNode NodeClient Api.
Local Open Scope Z_scope.

(** ** JSON *)

Definition rangeJson (r : SlotRange) : Json :=
  JObj [("start", encUint (RStart r)); ("end", encUint (REnd r)); ("classification", JStr (RClass r))].
Definition detailJson (s : SlotDetail) : Json :=
  JObj ([("slot", encUint (SDSlot s)); ("classification", JStr (Classification s)); ("formerLeaderId", JStr (FormerLeaderID s))] ++
        omitString "formerReplicaId" (FormerReplicaID s) ++ omitList "failures" JStr (SDFailures s) ++
        [("readsAvailable", JBool (ReadsAvailable s)); ("writesAvailable", JBool (WritesAvailable s))] ++
        omitList "rejectedCommands" JStr (RejectedCommands s) ++ [("message", JStr (SDMessage s))]).
Definition planStatusJson (p : PlanStatus) : Json :=
  JObj [("id", JStr (PSID p)); ("kind", JStr (PSKind p)); ("reason", JStr (PSReason p));
        ("completedSteps", encInt (CompletedSteps p)); ("totalSteps", encInt (TotalSteps p))].
Definition omitPtr {A} (name : string) (enc : A -> Json) (p : option A) : list (string * Json) :=
  match p with Some a => [(name, enc a)] | None => [] end.
Definition statusSnapshotJson (s : StatusSnapshot) : Json :=
  JObj ([("state", JStr (SSState s)); ("controlIndex", encUint (SSControlIndex s))] ++
        omitList "failedNodes" JStr (SSFailedNodes s) ++ omitList "suspectedNodes" JStr (SSSuspectedNodes s) ++
        omitList "affectedSlotRanges" rangeJson (AffectedSlotRanges s) ++ omitList "oneCopySlots" detailJson (OneCopySlots s) ++
        omitList "unavailableSlots" detailJson (UnavailableDetails s) ++ omitPtr "activePlan" planStatusJson (SSActivePlan s) ++
        omitString "latestCommittedOperation" (SSLatestOperation s) ++ omitString "warning" (Warning s) ++
        omitString "returningNodeDataPolicy" (ReturningNodeDataPolicy s)).

Definition nodeStatusJson (n : ControllerNodeStatus) : Json :=
  JObj [("id", JStr (CNID n)); ("reachable", JBool (CNReachable n)); ("suspected", JBool (CNSuspected n)); ("eligible", JBool (CNEligible n));
        ("returning", JBool (CNReturning n)); ("leaderSlots", encInt (CNLeaderSlots n)); ("replicaSlots", encInt (CNReplicaSlots n))].
Definition controllerSlotJson (s : SlotView) : Json :=
  JObj ([("number", encUint (SVNumber s)); ("leaderId", JStr (SVLeader s))] ++ omitString "replicaId" (SVReplica s) ++
        [("term", encUint (SVTerm s)); ("replicaReady", JBool (SVReady s))]).
Definition completedStatusJson (c : CompletedPlan) : Json :=
  JObj [("id", JStr (CPID c)); ("kind", JStr (PlanKindText (CPKind c))); ("epoch", encUint (CPEpoch c)); ("controlIndex", encUint (CPControlIndex c))].
(** [made]: the slices of nodes and slots are not nil. *)
Definition controllerViewJson (made : bool) (v : ControllerView) : Json :=
  let slice (js : list Json) := if made then JArr js else JNull in
  JObj ([("clusterId", JStr (CVClusterID v)); ("metadataVersion", encUint (CVMetadataVersion v))] ++ omitString "observedAt" (CVObservedAt v) ++
        [("status", JStr (CVStatus v)); ("nodes", slice (map nodeStatusJson (CVNodes v))); ("slots", slice (map controllerSlotJson (CVSlots v)))]).
Definition controllerStateJson (made : bool) (s : ControllerStateSnapshot) : Json :=
  JObj ([("nodeId", JStr (CSNodeID s)); ("raftRole", JStr (RaftRole s))] ++ omitString "raftLeaderId" (RaftLeaderID s) ++
        [("raftTerm", encUint (RaftTerm s)); ("isLeader", JBool (IsLeader s)); ("controlIndex", encUint (CSControlIndex s));
         ("currentView", controllerViewJson made (CurrentView s)); ("recovery", statusSnapshotJson (Recovery s))] ++
        omitPtr "lastRebalance" completedStatusJson (CSLastRebalance s)).

(** ** Snapshots *)

(** [raft.RaftState] with the lower case of its text. *)
Inductive RaftState := Follower | Candidate | Leader | Shutdown.
Definition RaftStateText (s : RaftState) : string :=
  match s with Follower => "follower" | Candidate => "candidate" | Leader => "leader" | Shutdown => "shutdown" end.

(** A running Raft node: its role, the control address of the leader, the term
    of its statistics and the state of the machine. *)
Record RaftInfo := mkRaftInfo { riState : RaftState; riLeader : string; riTerm : string; riFSM : FSMSnapshot }.
Definition riIsLeader (r : RaftInfo) : bool := match riState r with Leader => true | _ => false end.

Section snapshots.
Context `{SliceSort, MapRange}.

Definition startingStatus : StatusSnapshot := mkSnapshot "starting" 0 [] [] [] [] [] None "" "" "".
Definition ControllerStatus (raft : option RaftInfo) : StatusSnapshot :=
  match raft with None => startingStatus | Some r => BuildStatusSnapshot (riFSM r) end.

(** [peers]: the identifiers and control addresses of the configuration. *)
Definition leaderName (peers : list (string * string)) (address : string) : string :=
  match List.find (fun p => String.eqb p.2 address) peers with Some p => p.1 | None => address end.
Definition ControllerState (peers : list (string * string)) (nodeID : string) (raft : option RaftInfo) : bool * ControllerStateSnapshot :=
  match raft with
  | None => (false, mkControllerState nodeID "starting" "" 0 false 0 (mkControllerView "" 0 "" "" [] []) startingStatus None)
  | Some r =>
      (true, BuildControllerStateSnapshot (riFSM r) nodeID (RaftStateText (riState r)) (leaderName peers (riLeader r))
               (default 0 (ParseUint (riTerm r))) (riIsLeader r))
  end.

(** [handleControllerState]; [provider]: whether the server was given a
    controller. *)
Definition handleControllerState (automatic provider : bool) (peers : list (string * string)) (nodeID : string) (raft : option RaftInfo)
    (r : HTTPRequest) : HTTPResponse :=
  match requireMethod r "GET" with
  | Some refused => refused
  | None =>
      if negb automatic || negb provider then writeJSON 404 (errorJson "automatic recovery controller is not enabled")
      else let '(made, s) := ControllerState peers nodeID raft in writeJSON 200 (controllerStateJson made s)
  end.

(** ** Metrics *)

Definition statusStates : list string :=
  ["healthy"; "failure_suspected"; "degraded"; "promoting"; "repairing"; "rebalancing"; "unavailable"; "potential_data_loss"].
Definition lengthGauge {A} (l : list A) : float64 := floatOfUint (Z.of_nat (length l)).
Definition publishStatusMetrics (sink : InMemory) (status : StatusSnapshot) : InMemory :=
  let sink := Gauge "controller.degraded_slots" (lengthGauge (OneCopySlots status)) sink in
  let sink := Gauge "controller.unavailable_slots" (lengthGauge (UnavailableDetails status)) sink in
  let sink := Gauge "controller.failed_nodes" (lengthGauge (SSFailedNodes status)) sink in
  foldl (fun sink state => Gauge ("controller.state." +:+ state) (floatOfUint (if String.eqb (SSState status) state then 1 else 0)) sink) sink statusStates.

(** ** The loop *)

(** The sink and the text of the last status. *)
Record MonitorState := mkMonitor { moSink : InMemory; moPrevious : string }.
Definition fingerprint (status : StatusSnapshot) : string := printJson (statusSnapshotJson status).
Definition statusEvent (now : Z) (status : StatusSnapshot) : Event := mkEvent "controller.status" now [("state", SSState status)].
(** What is logged: a warning when slots are unavailable. *)
Inductive LogLine := Quiet | StatusWarning (status : StatusSnapshot) | StatusInfo (status : StatusSnapshot).
(** A tick at which Raft is [raft] and the time is [now]. *)
Definition monitorTick (raft : RaftInfo) (now : Z) (m : MonitorState) : LogLine * MonitorState :=
  if negb (riIsLeader raft) then (Quiet, m)
  else
    let status := BuildStatusSnapshot (riFSM raft) in
    let sink := publishStatusMetrics (moSink m) status in
    if String.eqb (fingerprint status) (moPrevious m) then (Quiet, mkMonitor sink (moPrevious m))
    else
      let lost := negb (length (UnavailableDetails status) =? 0)%nat in
      let sink := IncCounter "controller.status_changes" sink in
      let sink := if lost then IncCounter "controller.potential_data_loss_events" sink else sink in
      (if lost then StatusWarning status else StatusInfo status, mkMonitor (PublishEvent (statusEvent now status) sink) (fingerprint status)).
Fixpoint monitor (ticks : list (RaftInfo * Z)) (m : MonitorState) : list LogLine * MonitorState :=
  match ticks with
  | [] => ([], m)
  | (raft, now) :: ticks =>
      let '(line, m) := monitorTick raft now m in
      let '(lines, m) := monitor ticks m in
      (line :: lines, m)
  end.
End snapshots.
