(* ===== verification/MonitorSpec.v ===== *)
(** * The controller announces every change of its status once

    The text of a status determines the status, so that the monitor, which
    compares texts, counts, logs and publishes exactly the changes, and its
    gauges always show the last status. *)
From S2P Require Import Prelude GoText GoFloat GoFloatText FloatRatio GoTime Json JsonCodec Metrics.
From S2P Require Import Topology ControlFSM Planner PlannerSpec Observer ControlStatus ControlFSMSpec ControlJson ControlJsonSpec AdminNode NodeClient Api Monitor.
Local Open Scope Z_scope.

(** ** Members *)

Fixpoint jget (name : string) (ms : list (string * Json)) : option Json :=
  match ms with [] => None | (n, j) :: ms => if String.eqb n name then Some j else jget name ms end.
Lemma jget_app name a b : jget name (a ++ b) = match jget name a with Some j => Some j | None => jget name b end.
Proof. induction a as [|[n j] a IH]; [done|]. cbn [app jget]. by destruct (String.eqb n name). Qed.
Lemma jget_cons name n j ms : jget name ((n, j) :: ms) = if String.eqb n name then Some j else jget name ms.
Proof. done. Qed.
Lemma jget_string name n s : jget name (omitString n s) = if String.eqb n name then (if String.eqb s "" then None else Some (JStr s)) else None.
Proof. unfold omitString. destruct (String.eqb s ""); cbn [jget]; by destruct (String.eqb n name). Qed.
Lemma jget_list {A} name n (enc : A -> Json) l :
  jget name (omitList n enc l) = if String.eqb n name then match l with [] => None | _ => Some (JArr (map enc l)) end else None.
Proof. unfold omitList. destruct l; cbn [jget]; by destruct (String.eqb n name). Qed.
Lemma jget_ptr {A} name n (enc : A -> Json) p : jget name (omitPtr n enc p) = if String.eqb n name then enc <$> p else None.
Proof. destruct p; cbn [omitPtr jget]; by destruct (String.eqb n name). Qed.

Lemma option_eta {A} (o : option A) : match o with Some a => Some a | None => None end = o.
Proof. by destruct o. Qed.

(** [field name H] reads a member on both sides of an equation between objects. *)
Ltac field name H :=
  let E := fresh "E" in
  pose proof (f_equal (fun j => match j with JObj ms => jget name ms | _ => None end) H) as E; cbv beta iota in E;
  rewrite -> ?jget_app, ?jget_cons, ?jget_string, ?jget_list, ?jget_ptr in E; simpl in E; rewrite -> ?option_eta in E.

Lemma omitted_string s t : (if String.eqb s "" then None else Some (JStr s)) = (if String.eqb t "" then None else Some (JStr t)) -> s = t.
Proof. destruct (String.eqb_spec s "") as [->|], (String.eqb_spec t "") as [->|]; congruence. Qed.
Lemma map_inj_on {A} (P : A -> Prop) (enc : A -> Json) l k :
  (forall a b, P a -> P b -> enc a = enc b -> a = b) -> Forall P l -> Forall P k -> map enc l = map enc k -> l = k.
Proof.
  intros Hinj Hl. revert k. induction Hl as [|a l Ha Hl IH]; intros [|b k] Hk Heq; try done. cbn [map] in Heq. injection Heq as Hab Heq.
  apply Forall_cons in Hk as [Hb Hk]. f_equal; [by apply Hinj|by apply IH].
Qed.
Lemma omitted_list {A} (P : A -> Prop) (enc : A -> Json) l k :
  (forall a b, P a -> P b -> enc a = enc b -> a = b) -> Forall P l -> Forall P k ->
  match l with [] => None | _ => Some (JArr (map enc l)) end = match k with [] => None | _ => Some (JArr (map enc k)) end -> l = k.
Proof.
  intros Hinj Hl Hk Heq. apply (map_inj_on P enc); try done. destruct l, k; try done. injection Heq as H1 H2. cbn [map]. congruence.
Qed.
Lemma omitted_strings l k : match l with [] => None | _ => Some (JArr (map JStr l)) end = match k with [] => None | _ => Some (JArr (map JStr k)) end -> l = k.
Proof. apply (omitted_list (fun _ => True)); [by intros a b _ _ [= ->]|apply Forall_forall; by intros..]. Qed.
Lemma encUint_inj a b : 0 <= a <= maxUint64 -> 0 <= b <= maxUint64 -> encUint a = encUint b -> a = b.
Proof. intros Ha Hb [= Heq]. apply (f_equal ParseUint) in Heq. rewrite -> !ParseUint_FormatUint in Heq by done. congruence. Qed.
Lemma encInt_inj a b : int64_range a -> int64_range b -> encInt a = encInt b -> a = b.
Proof. intros Ha Hb [= Heq]. pose proof (decInt64_enc a 0 Ha) as H1. unfold encInt in H1. rw Heq in H1. change (JNum (FormatInt b)) with (encInt b) in H1. rw decInt64_enc // in H1. congruence. Qed.

(** ** Statuses that JSON represents *)

Definition range_ok (r : SlotRange) : Prop := 0 <= RStart r <= 4294967295 /\ 0 <= REnd r <= 4294967295 /\ utf8 (RClass r).
Record detail_ok (s : SlotDetail) : Prop := {
  do_slot : 0 <= SDSlot s <= 4294967295;
  do_class : utf8 (Classification s);
  do_leader : utf8 (FormerLeaderID s);
  do_replica : utf8 (FormerReplicaID s);
  do_failures : Forall utf8 (SDFailures s);
  do_rejected : Forall utf8 (RejectedCommands s);
  do_message : utf8 (SDMessage s)
}.
Definition plan_ok (p : PlanStatus) : Prop :=
  utf8 (PSID p) /\ utf8 (PSKind p) /\ utf8 (PSReason p) /\ int64_range (CompletedSteps p) /\ int64_range (TotalSteps p).
Record status_ok (s : StatusSnapshot) : Prop := {
  so_state : utf8 (SSState s);
  so_index : 0 <= SSControlIndex s <= maxUint64;
  so_failed : Forall utf8 (SSFailedNodes s);
  so_suspected : Forall utf8 (SSSuspectedNodes s);
  so_ranges : Forall range_ok (AffectedSlotRanges s);
  so_one : Forall detail_ok (OneCopySlots s);
  so_lost : Forall detail_ok (UnavailableDetails s);
  so_plan : match SSActivePlan s with Some p => plan_ok p | None => True end;
  so_operation : utf8 (SSLatestOperation s);
  so_warning : utf8 (Warning s);
  so_policy : utf8 (ReturningNodeDataPolicy s)
}.

Lemma rangeJson_inj a b : range_ok a -> range_ok b -> rangeJson a = rangeJson b -> a = b.
Proof.
  intros (Ha1 & Ha2 & _) (Hb1 & Hb2 & _) [= H1 H2 H3]. destruct a as [sa ea ca], b as [sb eb cb]. cbn [RStart REnd RClass] in *.
  rewrite -> (encUint_inj sa sb), (encUint_inj ea eb) by (try (unfold maxUint64; lia); unfold encUint; congruence). by rw H3.
Qed.
Lemma planStatusJson_inj a b : plan_ok a -> plan_ok b -> planStatusJson a = planStatusJson b -> a = b.
Proof.
  intros (_ & _ & _ & Ha1 & Ha2) (_ & _ & _ & Hb1 & Hb2) [= H1 H2 H3 H4 H5]. destruct a as [ia ka ra ca ta], b as [ib kb rb cb tb]. cbn in *.
  rewrite -> (encInt_inj ca cb), (encInt_inj ta tb) by (try done; unfold encInt; congruence). congruence.
Qed.
Lemma detailJson_inj a b : detail_ok a -> detail_ok b -> detailJson a = detailJson b -> a = b.
Proof.
  intros Ha Hb Heq. pose proof (do_slot a Ha). pose proof (do_slot b Hb). unfold detailJson in Heq.
  field "slot" Heq. field "classification" Heq. field "formerLeaderId" Heq. field "formerReplicaId" Heq. field "failures" Heq.
  field "readsAvailable" Heq. field "writesAvailable" Heq. field "rejectedCommands" Heq. field "message" Heq. clear Heq.
  destruct a, b. cbn in *. f_equal; try congruence; try (by apply omitted_string); try (by apply omitted_strings).
  apply encUint_inj; unfold maxUint64; [lia..|congruence].
Qed.
Lemma statusSnapshotJson_inj a b : status_ok a -> status_ok b -> statusSnapshotJson a = statusSnapshotJson b -> a = b.
Proof.
  intros Ha Hb Heq. unfold statusSnapshotJson in Heq.
  field "state" Heq. field "controlIndex" Heq. field "failedNodes" Heq. field "suspectedNodes" Heq. field "affectedSlotRanges" Heq.
  field "oneCopySlots" Heq. field "unavailableSlots" Heq. field "activePlan" Heq. field "latestCommittedOperation" Heq. field "warning" Heq.
  field "returningNodeDataPolicy" Heq. clear Heq.
  destruct Ha as [_ Hai _ _ Har Hao Hal Hap _ _ _], Hb as [_ Hbi _ _ Hbr Hbo Hbl Hbp _ _ _]. destruct a, b. cbn in *.
  f_equal; try congruence; try (by apply omitted_string); try (by apply omitted_strings); try (by eapply (omitted_list detail_ok); [apply detailJson_inj|..]).
  - apply encUint_inj; [done..|congruence].
  - by eapply (omitted_list range_ok); [apply rangeJson_inj|..].
  - destruct SSActivePlan as [p|], SSActivePlan0 as [q|]; try done. cbn in *. f_equal. apply planStatusJson_inj; try done. congruence.
Qed.

(** ** Texts determine statuses *)

Lemma faithful_listOf {A} d name (enc : A -> Json) l : utf8 name -> Forall (fun a => faithful d (enc a)) l ->
  Forall (fun m => utf8 m.1 /\ faithful (S d) m.2) (omitList name enc l).
Proof.
  intros Hn Hl. unfold omitList. destruct l as [|a l]; [constructor|]. apply Forall_singleton. split; [done|]. by apply faithful_arr, Forall_map.
Qed.
Lemma faithful_strings' d name l : utf8 name -> Forall utf8 l -> Forall (fun m => utf8 m.1 /\ faithful (S d) m.2) (omitList name JStr l).
Proof. intros Hn Hl. apply faithful_listOf; [done|]. eapply Forall_impl; [exact Hl|]. intros s. apply faithful_str. Qed.
Lemma faithful_omitString d name s : utf8 name -> utf8 s -> Forall (fun m => utf8 m.1 /\ faithful d m.2) (omitString name s).
Proof. intros Hn Hs. unfold omitString. destruct (String.eqb s ""); [constructor|]. apply Forall_singleton. split; [done|by apply faithful_str]. Qed.
Lemma faithful_u32' d n : 0 <= n <= 4294967295 -> faithful d (encUint n).
Proof. intros Hn. apply faithful_uint. unfold maxUint64. lia. Qed.

#[local] Hint Resolve faithful_u32' : faithful.
Lemma faithful_detail s : detail_ok s -> faithful 2 (detailJson s).
Proof.
  intros [Hn Hc Hl Hr Hf Hj Hm]. apply (faithful_obj 1). repeat apply Forall_app_2; [members|..].
  - by apply faithful_omitString.
  - by apply faithful_strings'.
  - members.
  - by apply faithful_strings'.
  - members.
Qed.
Lemma faithful_range r : range_ok r -> faithful 1 (rangeJson r).
Proof. intros (Hs & He & Hc). apply (faithful_obj 0). members. Qed.
Lemma faithful_planStatus p : plan_ok p -> faithful 1 (planStatusJson p).
Proof.
  intros (Hi & Hk & Hr & Hc & Ht). apply (faithful_obj 0). members.
Qed.
Lemma faithful_status s : status_ok s -> faithful 4 (statusSnapshotJson s).
Proof.
  intros [H1 H2 H3 H4 H5 H6 H7 H8 H9 H10 H11]. apply (faithful_obj 3). repeat apply Forall_app_2; try (by apply faithful_strings'); try (by apply faithful_omitString); [members|..].
  - apply faithful_listOf; [done|]. eapply Forall_impl; [exact H5|]. intros r Hr. eapply faithful_weaken; [by apply faithful_range|lia].
  - apply faithful_listOf; [done|]. eapply Forall_impl; [exact H6|]. intros r Hr. by apply faithful_detail.
  - apply faithful_listOf; [done|]. eapply Forall_impl; [exact H7|]. intros r Hr. by apply faithful_detail.
  - destruct (SSActivePlan s) as [p|]; [|constructor]. apply Forall_singleton. split; [done|]. eapply faithful_weaken; [by apply faithful_planStatus|lia].
Qed.

Lemma fingerprint_inj a b : status_ok a -> status_ok b -> fingerprint a = fingerprint b -> a = b.
Proof.
  intros Ha Hb Heq. apply statusSnapshotJson_inj; [done..|]. pose proof (faithful_status a Ha) as Fa. pose proof (faithful_status b Hb) as Fb.
  apply (f_equal parseJson) in Heq. unfold fingerprint in Heq. unfold statusSnapshotJson in *.
  rewrite -> (proj2 (nextJson_print _ 4 Fa ltac:(lia))), (proj2 (nextJson_print _ 4 Fb ltac:(lia))) in Heq. exact (inj Some _ _ Heq).
Qed.
Lemma fingerprint_nonempty s : fingerprint s <> "".
Proof. done. Qed.

(** ** The statuses of the controller *)

(** The steps of a plan are a slice. *)
Definition monitored (s : FSMSnapshot) : Prop :=
  json_fsm s /\ match ActivePlan s with Some p => Z.of_nat (length (Steps p)) <= maxInt64 | None => True end.

Section build.
Context `{SliceSortOk, MapRange}.

Lemma utf8_class c : utf8 (SlotClassText c).
Proof. by destruct c. Qed.
Lemma failedOwners_utf8 view slot : json_slotview slot -> Forall utf8 (failedOwners view slot).
Proof.
  intros [Hl Hr _ _]. apply Forall_forall. intros id Hid. unfold failedOwners, sortStrings in Hid. apply slice_sort_elem in Hid.
  apply list_elem_of_In, List.filter_In, proj1, list_elem_of_In in Hid. set_solver.
Qed.
Lemma slotDetail_ok state c slot : json_fsm state -> json_slotview slot -> detail_ok (slotDetail state c slot).
Proof.
  intros Hs Hslot. pose proof (failedOwners_utf8 (LatestView state) slot Hslot) as Hf. destruct Hslot as [Hl Hr Hn Ht].
  assert (Hfail : Forall utf8 (match failedOwners (LatestView state) slot, ActivePlan state with [], Some plan => DeadNodes plan | fs, _ => fs end)).
  { destruct (failedOwners _ _); [|done]. pose proof (jf_plan _ Hs) as Hp. destruct (ActivePlan state); [apply Hp|done]. }
  assert (Hd : utf8 (describe c).1.1 /\ Forall utf8 (describe c).1.2) by (destruct c; (split; [reflexivity|repeat first [apply Forall_nil_2|apply Forall_cons_2; [reflexivity|]]])).
  unfold slotDetail. destruct (describe c) as [[text rejected] reads]. cbn [fst snd] in Hd. destruct Hd as [Hd1 Hd2]. pose proof (utf8_class c).
  assert (Hplain : detail_ok (mkDetail (SVNumber slot) (SlotClassText c) (SVLeader slot) (SVReplica slot)
    (match failedOwners (LatestView state) slot, ActivePlan state with [], Some plan => DeadNodes plan | fs, _ => fs end) reads false rejected text)) by done.
  destruct c; try done. destruct (Unavailable state !! SVNumber slot) as [u|] eqn:Hu; [|done].
  apply (jf_unavailable _ Hs) in Hu as [_ [_ Hul Hur Huf]]. done.
Qed.
Lemma appendRange_ok ranges slot c : Forall range_ok ranges -> 0 <= slot <= 4294967295 -> utf8 c -> Forall range_ok (appendRange ranges slot c).
Proof.
  intros Hr Hs Hc. unfold appendRange. destruct (last ranges) as [r|] eqn:Hl; [|by apply Forall_app_2, Forall_singleton].
  apply last_Some_elem_of in Hl. rewrite -> Forall_forall in Hr. destruct (Hr r Hl) as (Hr1 & Hr2 & Hr3). rewrite <- Forall_forall in Hr.
  destruct (_ && _); [by apply Forall_insert|by apply Forall_app_2, Forall_singleton].
Qed.
Lemma report_ok state slots r : json_fsm state -> Forall json_slotview slots ->
  Forall detail_ok (rpOneCopy r) -> Forall detail_ok (rpUnavailable r) -> Forall range_ok (rpRanges r) ->
  let q := foldl (reportSlot state) r slots in Forall detail_ok (rpOneCopy q) /\ Forall detail_ok (rpUnavailable q) /\ Forall range_ok (rpRanges q).
Proof.
  intros Hs Hall. revert r. induction Hall as [|s slots Hslot Hall IH]; intros r Ho Hu Hr; cbn [foldl]; [done|].
  assert (Hd : forall c, detail_ok (slotDetail state c s)) by (intros c; by apply slotDetail_ok).
  assert (Ha : forall c, Forall range_ok (appendRange (rpRanges r) (SVNumber s) (SlotClassText c))).
  { intros c. apply appendRange_ok; [done|by apply Hslot|apply utf8_class]. }
  apply IH; unfold reportSlot; destruct (default _ _); cbn [rpOneCopy rpUnavailable rpRanges]; try done; by apply Forall_app_2, Forall_singleton.
Qed.
Lemma countDone_range plan i steps : 0 <= countDone plan i steps <= Z.of_nat (length steps).
Proof. revert i. induction steps as [|s steps IH]; intros i; cbn [countDone length]; [lia|]. specialize (IH (i + 1)). destruct (isDone plan i); lia. Qed.
Lemma status_ok_build state : monitored state -> status_ok (BuildStatusSnapshot state).
Proof.
  intros [Hs Hlen]. pose proof (jf_view _ Hs) as Hv. destruct (jw_status _ Hv) as [Hst1 Hst2 Hst3 Hst4 Hst5 Hst6].
  assert (Hsorted : Forall json_slotview (sortSlots (ViewSlots (LatestView state)))).
  { apply Forall_forall. intros s Hin. unfold sortSlots in Hin. apply slice_sort_elem in Hin. pose proof (jw_slots _ Hv) as Hall. rewrite -> Forall_forall in Hall. by apply Hall. }
  destruct (report_ok state _ (mkReport [] [] []) Hs Hsorted ltac:(constructor) ltac:(constructor) ltac:(constructor)) as (Ho & Hu & Hr).
  unfold BuildStatusSnapshot. set (r := foldl _ _ _) in *. split; cbn; try done.
  - by destruct (String.eqb _ _).
  - apply Hs.
  - pose proof (jf_plan _ Hs) as Hp. destruct (ActivePlan state) as [p|]; [|done]. cbn in Hlen |- *. destruct Hp as [Hi Hre _ _ _ _ _ _].
    pose proof (countDone_range p 0 (Steps p)). unfold plan_ok. cbn [PSID PSKind PSReason CompletedSteps TotalSteps]. split_and!; [done|by destruct (PKind p)|done|unfold int64_range, minInt64, maxInt64 in *; lia..].
  - by destruct (rpOneCopy r), (rpUnavailable r).
  - by destruct (rpUnavailable r).
Qed.
End build.

(** ** Runs of the monitor *)

#[export] Instance SlotRange_eq_dec : EqDecision SlotRange.
Proof. solve_decision. Defined.
#[export] Instance SlotDetail_eq_dec : EqDecision SlotDetail.
Proof. solve_decision. Defined.
#[export] Instance PlanStatus_eq_dec : EqDecision PlanStatus.
Proof. solve_decision. Defined.
#[export] Instance StatusSnapshot_eq_dec : EqDecision StatusSnapshot.
Proof. solve_decision. Defined.

(** The statuses that differ from the one before, with their times. *)
Fixpoint changes (prev : option StatusSnapshot) (seen : list (StatusSnapshot * Z)) : list (StatusSnapshot * Z) :=
  match seen with
  | [] => []
  | (s, t) :: seen => if decide (prev = Some s) then changes prev seen else (s, t) :: changes (Some s) seen
  end.
Definition hasLost (s : StatusSnapshot) : bool := negb (length (UnavailableDetails s) =? 0)%nat.
(** The gauges that show a status. *)
Definition shows (m : InMemory) (s : StatusSnapshot) : Prop :=
  GaugeValue m "controller.degraded_slots" = lengthGauge (OneCopySlots s) /\
  GaugeValue m "controller.unavailable_slots" = lengthGauge (UnavailableDetails s) /\
  GaugeValue m "controller.failed_nodes" = lengthGauge (SSFailedNodes s) /\
  forall state, state ∈ statusStates -> GaugeValue m ("controller.state." +:+ state) = floatOfUint (if String.eqb (SSState s) state then 1 else 0).

Definition announce (m : InMemory) (p : StatusSnapshot * Z) : InMemory :=
  let m := IncCounter "controller.status_changes" m in
  PublishEvent (statusEvent p.2 p.1) (if hasLost p.1 then IncCounter "controller.potential_data_loss_events" m else m).

Lemma publish_keeps m s : counters (publishStatusMetrics m s) = counters m /\ events (publishStatusMetrics m s) = events m /\ maxEvents (publishStatusMetrics m s) = maxEvents m.
Proof. by unfold publishStatusMetrics, statusStates. Qed.
Lemma GaugeValue_Gauge name n v m : GaugeValue (Gauge n v m) name = if String.eqb n name then v else GaugeValue m name.
Proof. unfold GaugeValue, Gauge. cbn [gauges]. destruct (String.eqb_spec n name) as [->|Hn]; [by rw lookup_insert_eq|by rw lookup_insert_ne]. Qed.
Lemma publish_shows m s : shows (publishStatusMetrics m s) s.
Proof.
  unfold publishStatusMetrics, statusStates, shows. cbn [foldl]. cbv zeta. split_and!; try (rewrite -> !GaugeValue_Gauge; reflexivity).
  intros state Hs. unfold statusStates in Hs. repeat (apply elem_of_cons in Hs as [->|Hs]; [rewrite -> !GaugeValue_Gauge; reflexivity|]). by apply not_elem_of_nil in Hs.
Qed.
Lemma shows_gauges m m' s : gauges m = gauges m' -> shows m s -> shows m' s.
Proof. intros Hg Hs. unfold shows, GaugeValue in *. by rw -Hg. Qed.
Lemma announce_same m m' p : counters m = counters m' -> events m = events m' -> maxEvents m = maxEvents m' ->
  counters (announce m p) = counters (announce m' p) /\ events (announce m p) = events (announce m' p) /\ maxEvents (announce m p) = maxEvents (announce m' p).
Proof. intros Hc He Hm. unfold announce, IncCounter, AddCounter, PublishEvent, Counter. destruct (hasLost p.1); cbn; rw Hc He Hm; done. Qed.
Lemma announce_gauges m p : gauges (announce m p) = gauges m.
Proof. unfold announce. by destruct (hasLost p.1). Qed.
Lemma announce_all_same l m m' : counters m = counters m' -> events m = events m' -> maxEvents m = maxEvents m' ->
  counters (foldl announce m l) = counters (foldl announce m' l) /\ events (foldl announce m l) = events (foldl announce m' l).
Proof. revert m m'. induction l as [|p l IH]; intros m m' Hc He Hm; [done|]. cbn [foldl]. by apply IH; apply announce_same. Qed.

Lemma announced_events l m m' : events m = events m' -> maxEvents m = maxEvents m' ->
  events (foldl announce m l) = events (foldl (fun m e => PublishEvent e m) m' (map (fun p => statusEvent p.2 p.1) l)).
Proof.
  revert m m'. induction l as [|p l IH]; intros m m' He Hm; [done|]. cbn [foldl map]. apply IH; unfold announce; destruct (hasLost p.1); cbn; by rw ?He ?Hm.
Qed.
Definition countLost (l : list (StatusSnapshot * Z)) : Z := Z.of_nat (length (List.filter (fun p => hasLost p.1) l)).
Lemma announced_counters l m : (forall name, u64 (Counter m name) = Counter m name) ->
  Counter (foldl announce m l) "controller.status_changes" = u64 (Counter m "controller.status_changes" + Z.of_nat (length l)) /\
  Counter (foldl announce m l) "controller.potential_data_loss_events" = u64 (Counter m "controller.potential_data_loss_events" + countLost l).
Proof.
  revert m. induction l as [|p l IH]; intros m Hm; cbn [foldl].
  { unfold countLost. cbn [length List.filter]. by rw !Z.add_0_r !Hm. }
  assert (Ha : forall name, Counter (announce m p) name =
    if String.eqb "controller.status_changes" name then u64 (Counter m name + 1)
    else if String.eqb "controller.potential_data_loss_events" name then u64 (Counter m name + Z.b2z (hasLost p.1)) else Counter m name).
  { intros name. unfold announce. set (m1 := IncCounter "controller.status_changes" m). change (Counter (PublishEvent ?e ?x) name) with (Counter x name).
    assert (H1 : Counter m1 name = if String.eqb "controller.status_changes" name then u64 (Counter m name + 1) else Counter m name) by apply Counter_add.
    destruct (hasLost p.1); cbn [Z.b2z].
    - unfold IncCounter. rw Counter_add H1. destruct (String.eqb_spec "controller.status_changes" name) as [<-|]; [done|]. done.
    - rw H1 Z.add_0_r Hm. destruct (String.eqb "controller.status_changes" name); [reflexivity|].
      destruct (String.eqb "controller.potential_data_loss_events" name); reflexivity. }
  destruct (IH (announce m p)) as [-> ->].
  { intros name. rw Ha. destruct (String.eqb "controller.status_changes" name); [apply u64_idemp|].
    destruct (String.eqb "controller.potential_data_loss_events" name); [apply u64_idemp|apply Hm]. }
  rw !Ha. unfold countLost. cbn [List.filter length]. simpl (String.eqb _ _). cbv iota. rewrite -> !u64_add_l. split; [f_equal; lia|].
  destruct (hasLost p.1); cbn [Z.b2z length]; f_equal; lia.
Qed.

Section runs.
Context `{SliceSortOk, MapRange}.

(** The statuses at the ticks at which this controller leads. *)
Definition leading (ticks : list (RaftInfo * Z)) : list (StatusSnapshot * Z) :=
  map (fun p => (BuildStatusSnapshot (riFSM p.1), p.2)) (List.filter (fun p => riIsLeader p.1) ticks).
Definition logged (p : StatusSnapshot * Z) : LogLine := if hasLost p.1 then StatusWarning p.1 else StatusInfo p.1.
Definition spoken (lines : list LogLine) : list LogLine := List.filter (fun l => match l with Quiet => false | _ => true end) lines.
Definition textOf (prev : option StatusSnapshot) : string := match prev with Some s => fingerprint s | None => "" end.

Lemma monitor_run ticks : Forall (fun t => monitored (riFSM t.1)) ticks -> forall prev m,
  match prev with Some s => status_ok s | None => True end -> moPrevious m = textOf prev ->
  let r := monitor ticks m in
  let sink := foldl announce (moSink m) (changes prev (leading ticks)) in
  spoken r.1 = map logged (changes prev (leading ticks)) /\
  counters (moSink r.2) = counters sink /\ events (moSink r.2) = events sink /\
  match last (leading ticks) with Some (s, _) => shows (moSink r.2) s | None => gauges (moSink r.2) = gauges (moSink m) end.
Proof.
  intros Hall. induction Hall as [|[raft now] ticks Ht Hall IH]; intros prev m Hprev Htext; [done|]. cbn [monitor]. unfold monitorTick. cbn [fst] in Ht.
  unfold leading. cbn [List.filter fst]. destruct (riIsLeader raft); cbn [negb]; [|].
  2: { destruct (IH prev m Hprev Htext) as (R1 & R2 & R3 & R4). destruct (monitor ticks m) as [lines m']. cbn [fst snd spoken List.filter] in *. done. }
  cbn [map fst snd]. set (s := BuildStatusSnapshot (riFSM raft)). change (map _ (List.filter _ ticks)) with (leading ticks). rw Htext.
  pose proof (status_ok_build _ Ht) as Hs. fold s in Hs. pose proof (publish_keeps (moSink m) s) as (Hk1 & Hk2 & Hk3).
  assert (Hlast : forall (m0 m1 : InMemory), shows m0 s -> match last (leading ticks) with Some (s, _) => shows m1 s | None => gauges m1 = gauges m0 end ->
    match last ((s, now) :: leading ticks) with Some (s, _) => shows m1 s | None => gauges m1 = gauges (moSink m) end).
  { intros m0 m1 Hm0 Hm1. rw last_cons. destruct (last (leading ticks)) as [[s' t']|]; [done|]. by eapply shows_gauges. }
  cbn [changes]. destruct (decide (prev = Some s)) as [->|Hne].
  - cbn [textOf]. rw String.eqb_refl. destruct (IH (Some s) (mkMonitor (publishStatusMetrics (moSink m) s) (fingerprint s)) Hs eq_refl) as (R1 & R2 & R3 & R4).
    cbn [moSink] in *. destruct (announce_all_same (changes (Some s) (leading ticks)) _ _ Hk1 Hk2 Hk3) as [E1 E2].
    destruct (monitor ticks _) as [lines m']. cbn [fst snd spoken List.filter] in *. split_and!; [done|congruence|congruence|].
    eapply Hlast; [apply publish_shows|done].
  - destruct (String.eqb_spec (fingerprint s) (textOf prev)) as [Heq|_].
    { exfalso. apply Hne. destruct prev as [q|]; [|by apply fingerprint_nonempty in Heq]. f_equal. symmetry. by apply fingerprint_inj. }
    set (sink1 := if negb (length (UnavailableDetails s) =? 0)%nat then _ else _).
    set (m1 := mkMonitor (PublishEvent (statusEvent now s) sink1) (fingerprint s)).
    assert (Hsink : moSink m1 = announce (publishStatusMetrics (moSink m) s) (s, now)) by (unfold m1, sink1, announce, hasLost; by destruct (length _ =? 0)%nat).
    destruct (IH (Some s) m1 Hs eq_refl) as (R1 & R2 & R3 & R4). rw Hsink in R2 R3 R4.
    destruct (announce_same _ _ (s, now) Hk1 Hk2 Hk3) as (A1 & A2 & A3). destruct (announce_all_same (changes (Some s) (leading ticks)) _ _ A1 A2 A3) as [E1 E2].
    destruct (monitor ticks m1) as [lines m'] eqn:Hrun. cbn [fst snd foldl map] in *. split_and!; [|congruence|congruence|].
    + unfold logged at 1, hasLost. cbn [fst]. by destruct (length _ =? 0)%nat; cbn [negb spoken List.filter]; f_equal.
    + eapply Hlast; [|exact R4]. eapply shows_gauges; [symmetry; apply announce_gauges|apply publish_shows].
Qed.
End runs.

(** C29: Whatever the ticks of the monitor find, it
    logs and publishes exactly the changes of the status, each once and in
    order, of which the latest are kept; the counters count them, and those
    with lost slots; ticks at which another controller leads count for nothing; and
    the gauges show the last status: the numbers of affected slots and nodes,
    and one for the state it is in and zero for all others. *)
Theorem monitor_announces_changes `{SliceSortOk, MapRange} (max : Z) (ticks : list (RaftInfo * Z)) :
  Forall (fun t => monitored (riFSM t.1)) ticks ->
  let r := monitor ticks (mkMonitor (NewInMemory max) "") in
  let announced := changes None (leading ticks) in
  spoken r.1 = map logged announced /\
  events (moSink r.2) = lastN (Z.to_nat (if max <=? 0 then 1024 else max)) (map (fun p => statusEvent p.2 p.1) announced) /\
  Counter (moSink r.2) "controller.status_changes" = u64 (Z.of_nat (length announced)) /\
  Counter (moSink r.2) "controller.potential_data_loss_events" = u64 (countLost announced) /\
  (forall s t, last (leading ticks) = Some (s, t) -> shows (moSink r.2) s).
Proof.
  intros Hall r announced. destruct (monitor_run ticks Hall None (mkMonitor (NewInMemory max) "") I eq_refl) as (Hl & Hc & He & Hg).
  fold r announced in Hl, Hc, He, Hg. cbn [moSink] in *.
  destruct (announced_counters announced (NewInMemory max)) as [C1 C2]; [done|].
  split_and!; [done| | | |].
  - rw He (announced_events announced (NewInMemory max) (NewInMemory max) eq_refl eq_refl). rw publish_events; [| |done]; cbn [NewInMemory maxEvents events length]; destruct (Z.leb_spec max 0); lia.
  - unfold Counter in *. by rw Hc C1.
  - unfold Counter in *. by rw Hc C2.
  - intros s t Hlast. by rw Hlast in Hg.
Qed.

(** A controller that becomes the leader, and sees the cluster get healthy. *)
Definition healthyFSM : FSMSnapshot := setView (mkView "c" 1 [] ∅ 0 (mkStatus "healthy" [] [] 0 0 "")) [] NewFSM.
Definition exampleTicks : list (RaftInfo * Z) :=
  [(mkRaftInfo Follower "" "1" NewFSM, 0); (mkRaftInfo Leader "a:1" "2" NewFSM, 1); (mkRaftInfo Leader "a:1" "2" NewFSM, 2);
   (mkRaftInfo Leader "a:1" "2" healthyFSM, 3)].
Lemma monitored_healthy : monitored healthyFSM.
Proof.
  split; [|done]. split; [|done|done|apply map_Forall_empty|apply map_Forall_empty|done|done].
  split; [done|done|constructor|apply map_Forall_empty|by vm_compute|]. split; [done|constructor|constructor|done..].
Qed.
Lemma monitor_announces_changes_witness :
  events (moSink (monitor exampleTicks (mkMonitor (NewInMemory 16) "")).2) =
    [mkEvent "controller.status" 1 [("state", "starting")]; mkEvent "controller.status" 3 [("state", "healthy")]].
Proof.
  destruct (monitor_announces_changes 16 exampleTicks) as (_ & -> & _).
  - pose proof monitored_healthy. assert (monitored NewFSM) by (split; [apply json_NewFSM|done]). by repeat constructor.
  - vm_compute. reflexivity.
Defined.
