(* ===== verification/RaftNode.v ===== *)
(** * The Raft node of the controller: [internal/controller/raftnode.go]

    What the node takes from [hashicorp/raft] and its stores is opened and closed
    by calls that may fail; the class [RaftLib] says which, and what they find.
    A resource has the number of the call that opened it.  Closing twice is
    closing once. *)
From S2P Require Import Prelude GoText GoTime Json JsonCodec Topology ControlFSM ControlFSMSpec ControlJson ControlJsonSpec Planner Config.
Local Open Scope Z_scope.

(** ** Calls of the library *)

Class RaftLib := {
  libError : nat -> option string;
  libHasState : nat -> bool;
  (** an error of [BootstrapCluster] is [ErrCantBootstrap] *)
  libCantBootstrap : nat -> bool
}.
Definition RaftPeer : Type := string * string.
Record RaftWorld := mkRaftWorld {
  rwCalls : nat;
  rwOpened : list nat;
  rwClosed : list nat;
  rwBootstrapped : list (list RaftPeer)
}.
Definition RM (A : Type) : Type := RaftWorld -> (A + string) * RaftWorld.
#[export] Instance RM_ret : MRet RM := fun A a w => (inl a, w).
#[export] Instance RM_bind : MBind RM := fun A B f m w => match m w with (inl a, w) => f a w | (inr e, w) => (inr e, w) end.
Definition failR {A} (text : string) : RM A := fun w => (inr text, w).

Section node.
Context `{RaftLib}.

Definition nextCall (w : RaftWorld) : RaftWorld := mkRaftWorld (S (rwCalls w)) (rwOpened w) (rwClosed w) (rwBootstrapped w).
(** A call that opens nothing. *)
Definition call {A} (text : string) (found : nat -> A) : RM A := fun w =>
  (match libError (rwCalls w) with Some e => inr (text +:+ ": " +:+ e) | None => inl (found (rwCalls w)) end, nextCall w).
(** A call that opens a resource. *)
Definition openRes (text : string) : RM nat := fun w =>
  match libError (rwCalls w) with
  | Some e => (inr (text +:+ ": " +:+ e), nextCall w)
  | None => (inl (rwCalls w), mkRaftWorld (S (rwCalls w)) (rwOpened w ++ [rwCalls w]) (rwClosed w) (rwBootstrapped w))
  end.
(** Closing a resource; an error does not leave it open. *)
Definition closeRes (r : nat) (w : RaftWorld) : option string * RaftWorld :=
  (libError (rwCalls w), mkRaftWorld (S (rwCalls w)) (rwOpened w) (rwClosed w ++ [r]) (rwBootstrapped w)).
Fixpoint closeAll (closers : list nat) (w : RaftWorld) : RaftWorld :=
  match closers with [] => w | r :: closers => closeAll closers (closeRes r w).2 end.

(** ** The node *)

(** The parts that a caller brings along are not opened and not closed here. *)
Record RaftNodeOptions := mkOptions {
  OptNodeID : string;
  BootstrapID : string;
  OptPeers : list RaftPeer;
  GivenTransport : bool;
  GivenStores : bool;
  GivenSnapshots : bool;
  ApplyTimeout : Z
}.
Record RaftNode := mkRaftNode { rnRaft : nat; rnClosers : list nat; applyTimeout : Z }.

(** [RaftNode.Shutdown]: the first error. *)
Fixpoint closeFirst (first : option string) (closers : list nat) (w : RaftWorld) : option string * RaftWorld :=
  match closers with
  | [] => (first, w)
  | r :: closers =>
      let '(e, w) := closeRes r w in
      closeFirst (match first with Some _ => first | None => e end) closers w
  end.
Definition NodeShutdown (n : RaftNode) (w : RaftWorld) : option string * RaftWorld :=
  let '(first, w) := closeRes (rnRaft n) w in closeFirst first (rnClosers n) w.

(** On an error what was opened is closed. *)
Definition orClose {A} (closers : list nat) (m : RM A) : RM A := fun w =>
  match m w with (inr e, w) => (inr e, closeAll closers w) | r => r end.
(** [BootstrapCluster]; [None] is success, also when the cluster exists. *)
Definition bootstrap (peers : list RaftPeer) (w : RaftWorld) : option string * RaftWorld :=
  match libError (rwCalls w) with
  | Some e => (if libCantBootstrap (rwCalls w) then None else Some e, nextCall w)
  | None => (None, mkRaftWorld (S (rwCalls w)) (rwOpened w) (rwClosed w) (rwBootstrapped w ++ [peers]))
  end.
Definition openTransport (o : RaftNodeOptions) : RM (list nat) :=
  if GivenTransport o then mret []
  else
    _ ← call "create raft dir" (fun _ => tt);
    t ← openRes "create raft transport";
    mret [t].
Definition openStores (o : RaftNodeOptions) (closers : list nat) : RM (list nat) :=
  if GivenStores o then mret closers
  else s ← orClose closers (openRes "open raft store"); mret (closers ++ [s]).
Definition bootstrapNode (o : RaftNodeOptions) (hasState : bool) (node : RaftNode) : RM RaftNode :=
  if negb hasState && String.eqb (OptNodeID o) (BootstrapID o) then fun w =>
    match bootstrap (OptPeers o) w with
    | (None, w) => (inl node, w)
    | (Some e, w) => (inr ("bootstrap raft cluster: " +:+ e), (NodeShutdown node w).2)
    end
  else mret node.
Definition NewRaftNode (o : RaftNodeOptions) : RM RaftNode :=
  if String.eqb (OptNodeID o) "" || (length (OptPeers o) =? 0)%nat then failR "raft node id and peers are required"
  else
    closers ← openTransport o;
    closers ← openStores o closers;
    _ ← (if GivenSnapshots o then mret tt else orClose closers (call "open raft snapshot store" (fun _ => tt)));
    hasState ← orClose closers (call "inspect raft state" libHasState);
    r ← orClose closers (openRes "create raft");
    bootstrapNode o hasState (mkRaftNode r closers (if ApplyTimeout o <=? 0 then 5000000000 else ApplyTimeout o)).
(** [NewRaftNodeFromConfig]; [%q] of a name without special characters. *)
Definition quoted (s : string) : string := String quoteMark (s +:+ String quoteMark "").
Definition NewRaftNodeFromConfig (peers : list PeerConfig) (bootstrapID nodeID : string) : RM RaftNode :=
  let bind := foldl (fun bind p => if String.eqb (PeerID p) nodeID then ControlAddress p else bind) "" peers in
  if String.eqb bind "" then failR ("controller peer " +:+ quoted nodeID +:+ " has no control address")
  else NewRaftNode (mkOptions nodeID bootstrapID (map (fun p => (PeerID p, ControlAddress p)) peers) false false false 0).

(** ** What a node owns *)

Definition owned (n : RaftNode) : list nat := rnRaft n :: rnClosers n.

(** Between [w] and [w'], the resources [l] were opened and nothing else
    happened. *)
Record opens (w : RaftWorld) (l : list nat) (w' : RaftWorld) : Prop := {
  op_calls : (rwCalls w <= rwCalls w')%nat;
  op_opened : rwOpened w' = rwOpened w ++ l;
  op_fresh : Forall (fun r => (rwCalls w <= r < rwCalls w')%nat) l;
  op_closed : rwClosed w' = rwClosed w;
  op_bootstrapped : rwBootstrapped w' = rwBootstrapped w
}.
Lemma opens_nil w : opens w [] w.
Proof. split; rw ?app_nil_r; done. Qed.
Lemma opens_trans a l b l' c : opens a l b -> opens b l' c -> opens a (l ++ l') c.
Proof.
  intros [Hc1 Ho1 Hf1 Hx1 Hb1] [Hc2 Ho2 Hf2 Hx2 Hb2]. split; [lia|by rw Ho2 Ho1 app_assoc| |congruence|congruence].
  apply Forall_app. split; [eapply Forall_impl; [exact Hf1|]|eapply Forall_impl; [exact Hf2|]]; cbn; lia.
Qed.
Lemma opens_call {A} text (found : nat -> A) w :
  opens w [] (call text found w).2 /\ forall a, (call text found w).1 = inl a -> exists k, (rwCalls w <= k)%nat /\ a = found k.
Proof.
  unfold call. cbn [fst snd]. split; [split; rw ?app_nil_r; cbn; (done || lia)|]. intros a Ha. exists (rwCalls w). split; [done|]. destruct (libError _); congruence.
Qed.
Lemma opens_res text w : match openRes text w with (inl r, w') => opens w [r] w' | (inr _, w') => opens w [] w' end.
Proof. unfold openRes. destruct (libError _); (split; rw ?app_nil_r; cbn; try (done || lia)). apply Forall_singleton. lia. Qed.

Lemma closeAll_closed l w : rwClosed (closeAll l w) = rwClosed w ++ l /\ rwOpened (closeAll l w) = rwOpened w /\
  rwBootstrapped (closeAll l w) = rwBootstrapped w /\ rwCalls (closeAll l w) = (rwCalls w + length l)%nat.
Proof.
  revert w. induction l as [|r l IH]; intros w; cbn [closeAll]; [by rw app_nil_r Nat.add_0_r|]. destruct (IH (closeRes r w).2) as (-> & -> & -> & ->).
  cbn. rw -app_assoc. split_and!; (done || lia).
Qed.
Lemma closeFirst_closed first l w : (closeFirst first l w).2 = closeAll l w.
Proof. revert first w. induction l as [|r l IH]; intros first w; [done|]. cbn [closeFirst closeAll]. destruct (closeRes r w) as [e w'] eqn:Hc. by rw IH. Qed.
Lemma NodeShutdown_closed n w : (NodeShutdown n w).2 = closeAll (owned n) w.
Proof. unfold NodeShutdown, owned. cbn [closeAll]. destruct (closeRes (rnRaft n) w) as [e w'] eqn:Hc. by rw closeFirst_closed. Qed.

(** What a construction leaves behind: the node with what was opened for it, or
    an error and nothing open.  Only the bootstrap node of a cluster without
    state writes a configuration. *)
Definition settled (w : RaftWorld) (o : RaftNodeOptions) (r : RaftNode + string) (w' : RaftWorld) : Prop :=
  match r with
  | inl node => (rwCalls w <= rwCalls w')%nat /\ rwClosed w' = rwClosed w /\
      (exists l, rwOpened w' = rwOpened w ++ l /\ owned node ≡ₚ l /\ Forall (fun x => (rwCalls w <= x < rwCalls w')%nat) l) /\
      (rwBootstrapped w' = rwBootstrapped w \/
       OptNodeID o = BootstrapID o /\ (exists k, (rwCalls w <= k)%nat /\ libHasState k = false) /\ rwBootstrapped w' = rwBootstrapped w ++ [OptPeers o])
  | inr _ => (rwCalls w <= rwCalls w')%nat /\ rwBootstrapped w' = rwBootstrapped w /\
      exists l c, rwOpened w' = rwOpened w ++ l /\ rwClosed w' = rwClosed w ++ c /\ l ≡ₚ c /\ Forall (fun x => (rwCalls w <= x < rwCalls w')%nat) l
  end.
Lemma closed_settled w o l c w' e : opens w l w' -> c ≡ₚ l -> settled w o (inr e) (closeAll c w').
Proof.
  intros [Hc Ho Hf Hx Hb] Hp. destruct (closeAll_closed c w') as (H1 & H2 & H3 & H4). cbn. rw H1 H2 H3 H4. split; [lia|]. split; [done|].
  exists l, c. split; [done|]. split; [by rw Hx|]. split; [by symmetry|]. eapply Forall_impl; [exact Hf|]. cbn. lia.
Qed.
(** A part of the construction that runs with [l] open. *)
Lemma orClose_bind {A} o (m : RM A) (k : A -> RM RaftNode) w l w1 :
  opens w l w1 -> (forall a w2, m w1 = (inl a, w2) -> settled w o (k a w2).1 (k a w2).2) ->
  (forall e w2, m w1 = (inr e, w2) -> opens w1 [] w2) ->
  let r := (orClose l m ≫= k) w1 in settled w o r.1 r.2.
Proof.
  intros Hl Hk He. unfold mbind, RM_bind, orClose. destruct (m w1) as [[a|e] w2] eqn:Hm; [by apply Hk|]. cbn [fst snd].
  eapply closed_settled; [eapply opens_trans; [done|by eapply He]|]. by rw app_nil_r.
Qed.
Lemma bind_settled {A} o (m : RM A) (k : A -> RM RaftNode) w w1 :
  (forall a w2, m w1 = (inl a, w2) -> settled w o (k a w2).1 (k a w2).2) -> (forall e w2, m w1 = (inr e, w2) -> settled w o (inr e) w2) ->
  let r := (m ≫= k) w1 in settled w o r.1 r.2.
Proof. intros Hk He. unfold mbind, RM_bind. destruct (m w1) as [[a|e] w2] eqn:Hm; [by apply Hk|by apply He]. Qed.
Lemma bootstrapNode_settled o hasState node w l w1 :
  opens w l w1 -> owned node ≡ₚ l -> (hasState = false -> exists k, (rwCalls w <= k)%nat /\ libHasState k = false) ->
  let r := bootstrapNode o hasState node w1 in settled w o r.1 r.2.
Proof.
  intros Ho Hn Hs. destruct Ho as [H1 H2 H3 H4 H5] eqn:Hop. unfold bootstrapNode, bootstrap.
  destruct (negb hasState && String.eqb (OptNodeID o) (BootstrapID o)) eqn:Hb.
  - apply andb_true_iff in Hb as [Hb1%negb_true_iff Hb2%String.eqb_eq].
    destruct (libError (rwCalls w1)) as [e|]; [destruct (libCantBootstrap (rwCalls w1))|]; cbn [fst snd].
    + split; [cbn; lia|]. split; [done|]. split; [|by left]. exists l. split_and!; [done|done|]. eapply Forall_impl; [exact H3|]. cbn. lia.
    + rw NodeShutdown_closed. eapply closed_settled; [|done]. split; cbn; try done; [lia|]. eapply Forall_impl; [exact H3|]. cbn. lia.
    + split; [cbn; lia|]. split; [done|]. split; [|right; cbn; rw H5; split_and!; [done|by apply Hs|done]].
      exists l. split_and!; [done|done|]. eapply Forall_impl; [exact H3|]. cbn. lia.
  - split; [done|]. split; [done|]. split; [by exists l|by left].
Qed.
Lemma openTransport_opens o w : match openTransport o w with (inl l, w') => opens w l w' | (inr _, w') => opens w [] w' end.
Proof.
  unfold openTransport. destruct (GivenTransport o); [apply opens_nil|]. unfold mbind, RM_bind.
  pose proof (opens_call "create raft dir" (fun _ => tt) w) as [Hc _]. destruct (call _ _ w) as [[[]|e] w1]; [|done]. cbn [snd] in Hc.
  pose proof (opens_res "create raft transport" w1) as Hr. destruct (openRes _ w1) as [[t|e] w2]; exact (opens_trans _ _ _ _ _ Hc Hr).
Qed.
Lemma NewRaftNode_settled o w : settled w o (NewRaftNode o w).1 (NewRaftNode o w).2.
Proof.
  assert (Herr : forall e w1, opens w [] w1 -> settled w o (inr e) w1) by (intros e w1 Hw; exact (closed_settled w o [] [] w1 e Hw (Permutation_refl _))).
  unfold NewRaftNode. destruct (_ || _); [apply Herr, opens_nil|].
  assert (Hrest : forall l w2, opens w l w2 ->
    let r := ((if GivenSnapshots o then mret tt else orClose l (call "open raft snapshot store" (fun _ => tt))) ≫= fun _ =>
      orClose l (call "inspect raft state" libHasState) ≫= fun hasState => orClose l (openRes "create raft") ≫= fun r =>
      bootstrapNode o hasState (mkRaftNode r l (if ApplyTimeout o <=? 0 then 5000000000 else ApplyTimeout o))) w2 in settled w o r.1 r.2).
  { intros l w2 Hl.
    assert (Hinspect : forall w3, opens w l w3 -> let r := (orClose l (call "inspect raft state" libHasState) ≫= fun hasState =>
      orClose l (openRes "create raft") ≫= fun r => bootstrapNode o hasState (mkRaftNode r l (if ApplyTimeout o <=? 0 then 5000000000 else ApplyTimeout o))) w3 in settled w o r.1 r.2).
    { intros w3 Hw3. apply (orClose_bind _ _ _ _ _ _ Hw3).
      - intros hasState w4 Hc. pose proof (opens_call "inspect raft state" libHasState w3) as [Ho4 Hk]. rw Hc in Ho4 Hk. cbn [fst snd] in *.
        destruct (Hk _ eq_refl) as (k & Hk1 & Hk2). pose proof (opens_trans _ _ _ _ _ Hw3 Ho4) as Hw4. rw app_nil_r in Hw4.
        apply (orClose_bind _ _ _ _ _ _ Hw4).
        + intros r w5 Hr. pose proof (opens_res "create raft" w4) as Ho5. rw Hr in Ho5. eapply bootstrapNode_settled; [exact (opens_trans _ _ _ _ _ Hw4 Ho5)| |].
          * unfold owned. cbn [rnRaft rnClosers]. apply Permutation_cons_append.
          * intros ->. exists k. split; [pose proof (op_calls _ _ _ Hw3); lia|done].
        + intros e w5 Hr. pose proof (opens_res "create raft" w4) as Ho5. by rw Hr in Ho5.
      - intros e w4 Hc. pose proof (opens_call "inspect raft state" libHasState w3) as [Ho4 _]. by rw Hc in Ho4. }
    destruct (GivenSnapshots o); [by apply Hinspect|]. apply (orClose_bind _ _ _ _ _ _ Hl).
    - intros [] w3 Hc. pose proof (opens_call "open raft snapshot store" (fun _ => tt) w2) as [Ho3 _]. rw Hc in Ho3.
      apply Hinspect. pose proof (opens_trans _ _ _ _ _ Hl Ho3) as Hw3. by rw app_nil_r in Hw3.
    - intros e w3 Hc. pose proof (opens_call "open raft snapshot store" (fun _ => tt) w2) as [Ho3 _]. by rw Hc in Ho3. }
  pose proof (openTransport_opens o w) as Ht. apply bind_settled; [intros lt w1 Hm|intros e w1 Hm]; rw Hm in Ht; [|by apply Herr].
  unfold openStores. destruct (GivenStores o); [by apply (Hrest lt)|].
  pose proof (opens_res "open raft store" w1) as Hs. unfold mbind, RM_bind, orClose at 1 5. destruct (openRes _ w1) as [[r|e] w2].
  - apply Hrest. exact (opens_trans _ _ _ _ _ Ht Hs).
  - pose proof (opens_trans _ _ _ _ _ Ht Hs) as Hw. rw app_nil_r in Hw. by apply (closed_settled w o lt lt).
Qed.
End node.

(** ** Proposals *)

(** Raft as a node that may be its leader sees it.  [raftEntries]: what has been
    given to the machine of this node, each entry with its index.  [raftApply]
    returns what [Apply] of the machine returned for the entry, or an error,
    after which the entry may have been committed or not.  Meanwhile the entries
    of other proposals may be committed too. *)
Class RaftLog (W : Type) := {
  raftLeader : W -> bool;
  raftEntries : W -> list (Z * string);
  raftApply : string -> W -> (option string + string) * W
}.

(** The entries of a log have increasing indexes, and each of them was proposed
    by a controller. *)
Definition proposed (raw : string) : Prop := exists command, json_command command /\ marshalCommand command = Some raw.
Record log_ok (entries : list (Z * string)) : Prop := {
  lk_sorted : StronglySorted (fun a b : Z * string => a.1 < b.1) entries;
  lk_index : Forall (fun e => 0 < e.1 <= maxUint64) entries;
  lk_proposed : Forall (fun e => proposed e.2) entries
}.
(** What is documented: committed entries are given to the machine in the order
    of the log; without an error the entry is one of them, and the response is
    what the machine returned for it. *)
Class RaftLogOk (W : Type) `{RaftLog W} : Prop := {
  raftApply_log : forall raw w r w', proposed raw -> log_ok (raftEntries w) -> raftApply raw w = (r, w') ->
    log_ok (raftEntries w') /\ raftEntries w `prefix_of` raftEntries w';
  raftApply_response : forall raw w r w', raftApply raw w = (inl r, w') ->
    exists before index after, raftEntries w' = raftEntries w ++ before ++ (index, raw) :: after /\
      forall s, ApplyEntries (raftEntries w ++ before) NewFSM = Some s ->
        match ApplyEntry index raw s with Some (err, _) => r = FSMErrText <$> err | None => r <> None end
}.

Section proposals.
Context {W : Type} `{RaftLog W}.
(** The state of the machine: [NewRaftNode] starts it empty. *)
Definition raftMachine (w : W) : FSMSnapshot := default NewFSM (ApplyEntries (raftEntries w) NewFSM).
Definition NodePropose (command : Command) (w : W) : option string * W :=
  if negb (raftLeader w) then (Some "node is not the leader", w)
  else match marshalCommand command with
  | None => (Some "json: unsupported value", w)
  | Some raw =>
      match raftApply raw w with
      | (inr e, w) => (Some e, w)
      | (inl applyErr, w) => (applyErr, w)
      end
  end.
(** [RaftNode] behind the interface [viewProposer]. *)
#[export] Instance raftProposer : Proposer W := {|
  IsLeader w := (raftLeader w, w);
  Propose := NodePropose;
  ProposerState w := (State (raftMachine w), w)
|}.
End proposals.

(** *** The control index *)

Lemma updatePlanStatus_index s : ControlIndex (updatePlanStatus s) = ControlIndex s.
Proof. unfold updatePlanStatus. repeat case_match; done. Qed.
Lemma applyCommand_index c s : ControlIndex (applyCommand c s).2 = ControlIndex s.
Proof. destruct c; cbn [applyCommand]; unfold withActive; repeat case_match; cbn [snd]; rw ?updatePlanStatus_index; done. Qed.
Lemma Apply_index index c s : ControlIndex (Apply index c s).2 = match (Apply index c s).1 with None => index | Some _ => ControlIndex s end.
Proof.
  unfold Apply. pose proof (applyCommand_index c s) as Hc. destruct (applyCommand c s) as [[e|] s']; cbn [fst snd] in *; [done|].
  destruct c; cbn [snd]; rw ?updatePlanStatus_index; done.
Qed.
Lemma ApplyEntry_proposed index raw s : proposed raw -> exists c, json_command c /\ marshalCommand c = Some raw /\ ApplyEntry index raw s = Some (Apply index c s).
Proof. intros (c & Hc & Hm). exists c. destruct (entry_exact index c s Hc) as (raw' & Hr & He). rw Hm in Hr. by injection Hr as <-. Qed.
Lemma Forall_in {A} (P : A -> Prop) l x : Forall P l -> x ∈ l -> P x.
Proof. intros Hl Hx. exact (proj1 (Forall_forall P l) Hl x Hx). Qed.
(** The machine takes every entry, its index does not go down, and stays below
    that of the entries to come. *)
Lemma ApplyEntries_index entries s bound : Forall (fun e => proposed e.2) entries -> StronglySorted (fun a b : Z * string => a.1 < b.1) entries ->
  Forall (fun e => ControlIndex s <= e.1 < bound) entries -> ControlIndex s < bound ->
  exists s', ApplyEntries entries s = Some s' /\ ControlIndex s <= ControlIndex s' < bound.
Proof.
  intros Hp. revert s. induction Hp as [|[index raw] entries Hraw Hp IH]; intros s Hsort Hb Hs; [by exists s|].
  apply StronglySorted_inv in Hsort as [Hsort Hlt]. apply Forall_cons in Hb as [Hi Hb]. cbn [fst snd] in *.
  destruct (ApplyEntry_proposed index raw s Hraw) as (c & _ & _ & He). pose proof (Apply_index index c s) as Hx.
  cbn [ApplyEntries]. rw He. destruct (Apply index c s) as [err s1] eqn:Ha. cbn [mbind option_bind fst snd] in *.
  assert (Hs1 : ControlIndex s <= ControlIndex s1 <= index) by (destruct err; lia).
  destruct (IH s1 Hsort) as (s' & -> & Hr); [|lia|exists s'; split; [done|lia]].
  apply Forall_forall. intros e Hin. pose proof (Forall_in _ _ _ Hlt Hin). pose proof (Forall_in _ _ _ Hb Hin). cbn in *. lia.
Qed.
Lemma StronglySorted_app_split {A} (R : A -> A -> Prop) l k : StronglySorted R (l ++ k) -> StronglySorted R l /\ StronglySorted R k /\ Forall (fun x => Forall (R x) k) l.
Proof.
  induction l as [|x l IH]; intros Hs; [split_and!; [constructor|done|constructor]|]. apply StronglySorted_inv in Hs as [Hs Hx]. apply Forall_app in Hx as [Hx Hk]. destruct (IH Hs) as (H1 & H2 & H3).
  split_and!; [by constructor|done|by constructor].
Qed.

(** A log and its continuation. *)
Lemma replay_split a b : log_ok (a ++ b) -> exists s s', ApplyEntries a NewFSM = Some s /\ ApplyEntries b s = Some s' /\
  ControlIndex s <= ControlIndex s' /\ Forall (fun e => ControlIndex s < e.1) b /\ 0 <= ControlIndex s.
Proof.
  intros [(Ha & Hb & Hab)%StronglySorted_app_split [Hia Hib]%Forall_app [Hpa Hpb]%Forall_app].
  assert (Hrun : forall bound, 0 < bound -> Forall (fun e : Z * string => e.1 < bound) a -> exists s, ApplyEntries a NewFSM = Some s /\ 0 <= ControlIndex s < bound).
  { intros bound Hp Hall. apply ApplyEntries_index; [done..| |done]. apply Forall_forall. intros e He. pose proof (Forall_in _ _ _ Hall He). pose proof (Forall_in _ _ _ Hia He). cbn in *. lia. }
  destruct (Hrun (maxUint64 + 1)) as (s & Hs & Hs0); [done|eapply Forall_impl; [exact Hia|]; cbn; lia|].
  assert (Hlow : Forall (fun e => ControlIndex s < e.1) b).
  { apply Forall_forall. intros e He. destruct (Hrun e.1) as (s2 & Hs2 & Hlt); [apply (Forall_in _ _ _ Hib He)| |rw Hs in Hs2; injection Hs2 as <-; lia].
    eapply Forall_impl; [exact Hab|]. intros x Hx. exact (Forall_in _ _ _ Hx He). }
  destruct (ApplyEntries_index b s (maxUint64 + 1) Hpb Hb) as (s' & Hs' & Hle); [|lia|exists s, s'; split_and!; (done || lia)].
  apply Forall_forall. intros e He. pose proof (Forall_in _ _ _ Hib He). pose proof (Forall_in _ _ _ Hlow He). cbn in *. lia.
Qed.

Section proposal_spec.
Context {W : Type} `{RaftLogOk W}.
(** C22: When the controllers share a log, in which the entries of other
    proposals may come between, a proposal that returns without an error was made
    by a leader, its entry was committed since the call, and the command
    that was proposed - not only its bytes - was applied without an error to the
    state that the entries before it make; what the machine holds afterwards is
    this state with the entries that followed.  The control index of the machine,
    with which the requests to the nodes are fenced, has gone up, to that of the
    entry or beyond.  After an error it has not gone down. *)
Theorem proposal_applied command w : json_command command -> log_ok (raftEntries w) ->
  match NodePropose command w with
  | (None, w') =>
      raftLeader w = true /\ exists raw before index after s s',
        marshalCommand command = Some raw /\ raftEntries w' = raftEntries w ++ before ++ (index, raw) :: after /\
        ApplyEntries (raftEntries w ++ before) NewFSM = Some s /\ Apply index command s = (None, s') /\ ApplyEntries after s' = Some (raftMachine w') /\
        ControlIndex (raftMachine w) < index <= ControlIndex (raftMachine w')
  | (Some _, w') => ControlIndex (raftMachine w) <= ControlIndex (raftMachine w')
  end.
Proof.
  intros Hc Hok. unfold NodePropose. destruct (raftLeader w); [|cbn [negb]; lia]. cbn [negb]. destruct (marshalCommand command) as [raw|] eqn:Hm; [|lia].
  assert (Hraw : proposed raw) by (by exists command). destruct (raftApply raw w) as [r w1] eqn:Ha. destruct (raftApply_log _ _ _ _ Hraw Hok Ha) as [Hok1 [rest Hpre]].
  unfold raftMachine. rw Hpre in Hok1. destruct (replay_split _ _ Hok1) as (s0 & s1 & Hs0 & Hs1 & Hmono & Hlow & _).
  assert (Hw1 : ApplyEntries (raftEntries w1) NewFSM = Some s1) by (rw Hpre ApplyEntries_app Hs0; exact Hs1).
  destruct r as [[e|]|e]; rw Hs0 Hw1; cbn [default from_option id]; [done| |done]. split; [done|]. destruct (raftApply_response _ _ _ _ Ha) as (before & index & after & He & Hr).
  rw He in Hpre. apply app_inv_head in Hpre as <-. rw app_assoc in Hok1. destruct (replay_split _ _ Hok1) as (s & s2 & Hs & Hs2 & _ & Hlow2 & _).
  specialize (Hr s Hs). cbn [ApplyEntries] in Hs2. destruct (entry_exact index command s Hc) as (raw' & Hm' & Hx). rw Hm in Hm'. injection Hm' as <-.
  rw Hx in Hr Hs2. destruct (Apply index command s) as [[err|] s'] eqn:Happ; [done|]. cbn [mbind option_bind] in Hs2.
  assert (s2 = s1) as ->.
  { rw He app_assoc ApplyEntries_app Hs in Hw1. cbn [mbind option_bind ApplyEntries] in Hw1. rw Hx in Hw1. cbn [mbind option_bind] in Hw1. rw Hs2 in Hw1. by injection Hw1. }
  exists raw, before, index, after, s, s'. split_and!; try done.
  - apply (Forall_in _ _ (index, raw) Hlow). apply elem_of_app. right. by left.
  - rw cons_middle app_assoc in Hok1. destruct (replay_split _ _ Hok1) as (s3 & s4 & Hs3 & Hs4 & Hle & _). rw ApplyEntries_app Hs in Hs3. cbn [mbind option_bind ApplyEntries] in Hs3.
    rw Hx in Hs3. cbn [mbind option_bind] in Hs3. injection Hs3 as <-. rw Hs2 in Hs4. injection Hs4 as <-.
    pose proof (Apply_index index command s) as Hi. rw Happ in Hi. cbn [fst snd] in Hi. lia.
Qed.
End proposal_spec.

(** A log with one proposer beside this one, whose entry is always committed
    first. *)
Definition busyEntry : string := default "" (marshalCommand (CommandAdmitReturningNode "n3" true)).
Definition lastIndex (log : list (Z * string)) : Z := default 0 (fst <$> last log).
Definition busyApply (raw : string) (log : list (Z * string)) : (option string + string) * list (Z * string) :=
  let next := 1 + lastIndex log in
  if maxUint64 <=? next then (inr "log is full", log)
  else match ApplyEntries (log ++ [(next, busyEntry)]) NewFSM ≫= ApplyEntry (next + 1) raw with
  | Some (err, _) => (inl (FSMErrText <$> err), log ++ [(next, busyEntry); (next + 1, raw)])
  | None => (inr "decode command", log)
  end.
#[local] Instance busyLog : RaftLog (list (Z * string)) := {| raftLeader := fun _ => true; raftEntries := fun log => log; raftApply := busyApply |}.
Lemma log_ok_snoc log index raw : log_ok log -> lastIndex log < index <= maxUint64 -> proposed raw -> log_ok (log ++ [(index, raw)]).
Proof.
  intros [Hs Hi Hp] Hx Hr.
  assert (Hall : Forall (fun e => e.1 < index) log /\ 0 <= lastIndex log).
  { destruct log as [|e log _] using rev_ind; [done|]. unfold lastIndex in *. rw last_snoc in Hx *. cbn in *. apply StronglySorted_app_split in Hs as (_ & _ & Hlt).
    apply Forall_app in Hi as [_ Hi]. apply Forall_cons in Hi as [Hi _]. split; [|lia]. apply Forall_app. split; [|apply Forall_singleton; lia].
    eapply Forall_impl; [exact Hlt|]. intros x Hx2. apply Forall_cons in Hx2 as [Hx2 _]. lia. }
  destruct Hall as [Hall H0]. split; [|apply Forall_app; split; [done|apply Forall_singleton; cbn; lia]|apply Forall_app; split; [done|by apply Forall_singleton]].
  clear Hx Hi Hp H0. induction Hs as [|x log Hs IH Hx]; [by repeat constructor|]. apply Forall_cons in Hall as [Hlt Hall]. cbn [app]. constructor; [by apply IH|].
  apply Forall_app. split; [done|by apply Forall_singleton].
Qed.
Lemma busyEntry_proposed : proposed busyEntry.
Proof. exists (CommandAdmitReturningNode "n3" true). split; [reflexivity|vm_compute; reflexivity]. Qed.
#[local] Instance busyLog_ok : RaftLogOk (list (Z * string)).
Proof.
  split.
  - intros raw log r log' Hraw Hok. cbn [raftApply raftEntries busyLog]. unfold busyApply. destruct (Z.leb_spec maxUint64 (1 + lastIndex log)); [intros [= <- <-]; by split|].
    destruct (_ ≫= _) as [[err s]|]; [|intros [= <- <-]; by split]. intros [= <- <-]. split; [|by eexists].
    change [(1 + lastIndex log, busyEntry); (1 + lastIndex log + 1, raw)] with ([(1 + lastIndex log, busyEntry)] ++ [(1 + lastIndex log + 1, raw)]). rw app_assoc.
    apply log_ok_snoc; [apply log_ok_snoc; [done|lia|apply busyEntry_proposed]| |done]. unfold lastIndex at 1. rw last_snoc. cbn. lia.
  - intros raw log r log'. cbn [raftApply raftEntries busyLog]. unfold busyApply. destruct (maxUint64 <=? _); [done|].
    destruct (ApplyEntries (log ++ [(1 + lastIndex log, busyEntry)]) NewFSM) as [s|] eqn:Hs; cbn [mbind option_bind]; [|done].
    destruct (ApplyEntry _ raw s) as [[err s']|] eqn:He; [|done]. intros [= <- <-]. exists [(1 + lastIndex log, busyEntry)], (1 + lastIndex log + 1), [].
    split; [done|]. intros s2 Hs2. rw Hs in Hs2. injection Hs2 as <-. by rw He.
Qed.
Lemma proposal_applied_witness : exists log, NodePropose (CommandProposePlan smallPlan) [] = (None, log) /\
  exists index, ControlIndex (raftMachine (@nil (Z * string))) < index <= ControlIndex (raftMachine log).
Proof.
  pose proof (proposal_applied (CommandProposePlan smallPlan) [] smallPlan_json) as Hp.
  destruct (NodePropose (CommandProposePlan smallPlan) []) as [[e|] log] eqn:Hn.
  - exfalso. apply (f_equal fst) in Hn. vm_compute in Hn. discriminate Hn.
  - exists log. split; [reflexivity|]. destruct Hp as [_ (raw & before & index & after & s & s' & _ & _ & _ & _ & _ & Hi)]; [by repeat constructor|]. by exists index.
Defined.
