(* ===== verification/Lifecycle.v ===== *)
(** * Starting and stopping the controller: [internal/controller/controller.go]

    [Start] opens the Raft node, makes the clients of the other nodes and starts
    five workers; [Shutdown] cancels them, waits until they have returned and then
    closes the Raft node.  Both may be called again and at the same time, so the
    life of a controller is a sequence of events: calls, returns, a goroutine
    that starts to run, a worker that returns. *)
From S2P Require Import Prelude GoText GoTime Planner Config RaftNode.
Local Open Scope Z_scope.

(** ** The clients of a controller *)

(** [url.Parse]: scheme, host and the text of the URL. *)
Class URLs := parseURL : string -> option (string * string * string).

Fixpoint trimSlashes (s : string) : string :=
  match s with
  | "" => ""
  | String c s => match trimSlashes s with "" => if Ascii.eqb c "/"%char then "" else String c "" | s => String c s end
  end.
Record NodeClient := mkNodeClient { baseURL : string; clientTimeout : Z; signingSecret : string }.

Section clients.
Context `{URLs}.
Definition NewNodeClient (address : string) (timeout : Z) : NodeClient + string :=
  let address := match String.index 0 "://" address with Some _ => address | None => "http://" +:+ address end in
  match parseURL address with
  | Some (scheme, host, text) =>
      if String.eqb scheme "" || String.eqb host "" then inr ("invalid node API address " +:+ quoted address)
      else inl (mkNodeClient (trimSlashes text) (if timeout <=? 0 then second else timeout) "")
  | None => inr ("invalid node API address " +:+ quoted address)
  end.
Definition NewAuthenticatedNodeClient (address : string) (timeout : Z) (secret : string) : NodeClient + string :=
  match NewNodeClient address timeout with
  | inl client => inl (mkNodeClient (baseURL client) (clientTimeout client) secret)
  | inr e => inr e
  end.
(** The loop that makes a client for every peer. *)
Fixpoint clientsOf (new : string -> NodeClient + string) (peers : list PeerConfig) (clients : gmap string NodeClient) : gmap string NodeClient + string :=
  match peers with
  | [] => inl clients
  | peer :: peers =>
      match new (PeerAPIAddress peer) with
      | inl client => clientsOf new peers (<[PeerID peer := client]> clients)
      | inr e => inr ("node " +:+ PeerID peer +:+ ": " +:+ e)
      end
  end.
Definition clamped (timeout limit : Z) : Z := if (timeout <=? 0) || (limit <? timeout) then limit else timeout.
Definition NewObserverFromConfig (cfg : ClusterConfig) : gmap string NodeClient + string :=
  let timeout := clamped (ms (ObserveIntervalMs (Controller cfg))) second in
  clientsOf (fun address => NewNodeClient address timeout) (Peers cfg) ∅.
Definition NewExecutorFromConfig (cfg : ClusterConfig) (secret : string) : gmap string NodeClient + string :=
  let timeout := clamped (ms (ObserveIntervalMs (Controller cfg))) (2 * second) in
  clientsOf (fun address => NewAuthenticatedNodeClient address timeout secret) (Peers cfg) ∅.
Definition NewReturningNodeControllerFromConfig (cfg : ClusterConfig) (secret : string) : gmap string NodeClient + string :=
  let timeout := clamped (ms (FailureTimeoutMs (Controller cfg))) (5 * second) in
  clientsOf (fun address => NewAuthenticatedNodeClient address timeout secret) (Peers cfg) ∅.

(** The clients of a controller are those of its peers, each within its limit. *)
Lemma clamped_ok t limit : 0 < limit -> 0 < clamped t limit <= limit.
Proof. unfold clamped. intros Hl. destruct (Z.leb_spec t 0), (Z.ltb_spec limit t); cbn [orb]; lia. Qed.
Lemma clientsOf_ok new peers clients clients' : clientsOf new peers clients = inl clients' ->
  dom clients' = dom clients ∪ list_to_set (PeerID <$> peers) /\
  forall id c, clients' !! id = Some c -> clients !! id = Some c \/ exists peer, peer ∈ peers /\ PeerID peer = id /\ new (PeerAPIAddress peer) = inl c.
Proof.
  revert clients. induction peers as [|p peers IH]; intros clients; cbn [clientsOf].
  - intros [= <-]. split; [set_solver|]. by left.
  - destruct (new (PeerAPIAddress p)) as [client|e] eqn:Hp; [|done]. intros [Hd Hl]%IH. split; [rw Hd; set_solver|].
    intros id c [Hc|(q & Hq & Hid & Hn)]%Hl; [|right; exists q; by split_and!; [right| |]].
    destruct (decide (PeerID p = id)) as [<-|Hne]; [|rw lookup_insert_ne in Hc; [done|by left]].
    rw lookup_insert in Hc. rw decide_True in Hc; [done|]. injection Hc as <-. right. exists p. by split_and!; [left| |].
Qed.
End clients.

(** ** [Start] *)

Section lifecycle.
Context `{RaftLib, URLs}.
Context (cfg : ClusterConfig) (nodeID secret : string).

Record Parts := mkParts { ptRaft : RaftNode; ptObserver : gmap string NodeClient; ptExecutor : gmap string NodeClient; ptReturning : gmap string NodeClient }.
(** A part that cannot be made closes the Raft node. *)
Definition orShutdown {A} (node : RaftNode) (r : A + string) : RM A := fun w =>
  match r with inl a => (inl a, w) | inr e => (inr e, (NodeShutdown node w).2) end.
Definition startParts : RM Parts :=
  raftNode ← NewRaftNodeFromConfig (Peers cfg) (BootstrapNodeID (Controller cfg)) nodeID;
  observer ← orShutdown raftNode (NewObserverFromConfig cfg);
  executor ← orShutdown raftNode (NewExecutorFromConfig cfg secret);
  returning ← orShutdown raftNode (NewReturningNodeControllerFromConfig cfg secret);
  mret (mkParts raftNode observer executor returning).

(** ** The life of a controller *)

Inductive Worker := ObserverWorker | PlannerWorker | ExecutorWorker | ReturningWorker | MonitorWorker.
#[export] Instance Worker_eq_dec : EqDecision Worker.
Proof. solve_decision. Defined.
Definition workers : list Worker := [ObserverWorker; PlannerWorker; ExecutorWorker; ReturningWorker; MonitorWorker].

(** What one call of [Start] has left running.  The goroutine that waits for the
    workers reads [c.done] when it begins to run. *)
Inductive Phase :=
  | Scheduled
  | Working (done : option nat) (running : list Worker)
  | Ended.
Record Generation := mkGeneration { gnRaft : RaftNode; gnCancelled : bool; gnPhase : Phase }.
(** A call of [Shutdown]: it waits, it has returned, or its context ended first. *)
Inductive ShutdownCall :=
  | Waiting (generation : nat)
  | Returned (generation : option nat) (err : option string)
  | TimedOut (generation : nat).

(** Channels and generations have the number of their [Start].  [c.cancel] and
    [c.raft] are those of the generation [lfCurrent]. *)
Record Life := mkLife {
  lfCurrent : option nat;
  lfDone : option nat;
  lfGenerations : list Generation;
  lfClosed : list nat;
  lfStarts : list (option string);
  lfShutdowns : list ShutdownCall;
  lfWorld : RaftWorld;
  lfPanicked : bool
}.
(** [New] *)
Definition newLife (w : RaftWorld) : Life := mkLife None None [] [] [] [] w false.

Definition setGenerations (gs : list Generation) (l : Life) : Life :=
  mkLife (lfCurrent l) (lfDone l) gs (lfClosed l) (lfStarts l) (lfShutdowns l) (lfWorld l) (lfPanicked l).
Definition setShutdowns (cs : list ShutdownCall) (l : Life) : Life :=
  mkLife (lfCurrent l) (lfDone l) (lfGenerations l) (lfClosed l) (lfStarts l) cs (lfWorld l) (lfPanicked l).
Definition setPhase (i : nat) (g : Generation) (p : Phase) (l : Life) : Life :=
  setGenerations (<[i := mkGeneration (gnRaft g) (gnCancelled g) p]> (lfGenerations l)) l.
Definition cancelGeneration (i : nat) (gs : list Generation) : list Generation :=
  alter (fun g => mkGeneration (gnRaft g) true (gnPhase g)) i gs.

Definition Start (l : Life) : Life :=
  match lfCurrent l with
  | Some _ =>
      mkLife (lfCurrent l) (lfDone l) (lfGenerations l) (lfClosed l) (lfStarts l ++ [Some "controller already started"]) (lfShutdowns l) (lfWorld l) (lfPanicked l)
  | None =>
      match startParts (lfWorld l) with
      | (inr e, w) => mkLife None (lfDone l) (lfGenerations l) (lfClosed l) (lfStarts l ++ [Some e]) (lfShutdowns l) w (lfPanicked l)
      | (inl parts, w) =>
          let i := length (lfGenerations l) in
          mkLife (Some i) (Some i) (lfGenerations l ++ [mkGeneration (ptRaft parts) false Scheduled]) (lfClosed l)
            (lfStarts l ++ [None]) (lfShutdowns l) w (lfPanicked l)
      end
  end.
(** The part of [Shutdown] under the mutex. *)
Definition Shutdown (l : Life) : Life :=
  match lfCurrent l with
  | None => setShutdowns (lfShutdowns l ++ [Returned None None]) l
  | Some i =>
      mkLife None (lfDone l) (cancelGeneration i (lfGenerations l)) (lfClosed l) (lfStarts l) (lfShutdowns l ++ [Waiting i]) (lfWorld l) (lfPanicked l)
  end.
(** [close(c.done)]; closing a channel twice, or none, is a panic. *)
Definition closeDone (done : option nat) (l : Life) : Life :=
  match done with
  | Some c =>
      mkLife (lfCurrent l) (lfDone l) (lfGenerations l) (lfClosed l ++ [c]) (lfStarts l) (lfShutdowns l) (lfWorld l)
        (lfPanicked l || bool_decide (c ∈ lfClosed l))
  | None => mkLife (lfCurrent l) (lfDone l) (lfGenerations l) (lfClosed l) (lfStarts l) (lfShutdowns l) (lfWorld l) true
  end.
(** [Shutdown] after [done]. *)
Definition ShutdownReturns (k i : nat) (node : RaftNode) (l : Life) : Life :=
  let '(err, w) := NodeShutdown node (lfWorld l) in
  mkLife (lfCurrent l) (lfDone l) (lfGenerations l) (lfClosed l) (lfStarts l) (<[k := Returned (Some i) err]> (lfShutdowns l)) w (lfPanicked l).

Inductive LifeEvent :=
  | EvStart
  | EvContextDone (generation : nat)
  | EvScheduled (generation : nat)
  | EvWorkerReturns (generation : nat) (worker : Worker)
  | EvWorkersDone (generation : nat)
  | EvShutdown
  | EvShutdownReturns (call : nat)
  | EvShutdownTimesOut (call : nat).

(** A worker returns only when its context has ended. *)
Definition lifeStep (e : LifeEvent) (l : Life) : option Life :=
  if lfPanicked l then None
  else match e with
  | EvStart => Some (Start l)
  | EvContextDone i => Some (setGenerations (cancelGeneration i (lfGenerations l)) l)
  | EvScheduled i =>
      g ← lfGenerations l !! i;
      match gnPhase g with Scheduled => Some (setPhase i g (Working (lfDone l) workers) l) | _ => None end
  | EvWorkerReturns i worker =>
      g ← lfGenerations l !! i;
      match gnPhase g with
      | Working done running =>
          if gnCancelled g && bool_decide (worker ∈ running)
          then Some (setPhase i g (Working done (filter (.≠ worker) running)) l) else None
      | _ => None
      end
  | EvWorkersDone i =>
      g ← lfGenerations l !! i;
      match gnPhase g with Working done [] => Some (closeDone done (setPhase i g Ended l)) | _ => None end
  | EvShutdown => Some (Shutdown l)
  | EvShutdownReturns k =>
      match lfShutdowns l !! k with
      | Some (Waiting i) =>
          if bool_decide (i ∈ lfClosed l) then g ← lfGenerations l !! i; Some (ShutdownReturns k i (gnRaft g) l) else None
      | _ => None
      end
  | EvShutdownTimesOut k =>
      match lfShutdowns l !! k with Some (Waiting i) => Some (setShutdowns (<[k := TimedOut i]> (lfShutdowns l)) l) | _ => None end
  end.
Fixpoint lifeRun (es : list LifeEvent) (l : Life) : option Life :=
  match es with [] => Some l | e :: es => l ← lifeStep e l; lifeRun es l end.
End lifecycle.
