(* ===== verification/LifecycleSpec.v ===== *)
(** * What starting and stopping the controller keeps

    The resources that are open are those of the generations that no [Shutdown]
    has closed, and a Raft node is closed only after its workers have returned.
    This needs that the goroutine a [Start] leaves behind begins to run before the
    next [Start]: it reads [c.done] only then ([late_goroutine_panics]). *)
From S2P Require Import Prelude GoText GoTime Planner Config RaftNode Lifecycle.
Local Open Scope Z_scope.

Definition openResource (r : nat) (w : RaftWorld) : Prop := r ∈ rwOpened w /\ r ∉ rwClosed w.
Definition callGeneration (c : ShutdownCall) : option nat :=
  match c with Waiting i | TimedOut i => Some i | Returned i _ => i end.
(** [Start] is called when the goroutines of earlier calls run. *)
Definition promptly (e : LifeEvent) (l : Life) : Prop :=
  match e with EvStart => Forall (fun g => gnPhase g <> Scheduled) (lfGenerations l) | _ => True end.

Section spec.
Context `{RaftLib, URLs}.
Context (cfg : ClusterConfig) (nodeID secret : string).
Notation step := (lifeStep cfg nodeID secret).
Notation run := (lifeRun cfg nodeID secret).
Notation parts := (startParts cfg nodeID secret).

Inductive reaches : Life -> Prop :=
  | reaches_new : reaches (newLife (mkRaftWorld 0 [] [] []))
  | reaches_step l e l' : reaches l -> promptly e l -> step e l = Some l' -> reaches l'.
Fixpoint promptRun (es : list LifeEvent) (l : Life) : Prop :=
  match es with [] => True | e :: es => promptly e l /\ match step e l with Some l => promptRun es l | None => True end end.
Lemma reaches_run es l l' : reaches l -> promptRun es l -> run es l = Some l' -> reaches l'.
Proof.
  revert l. induction es as [|e es IH]; intros l Hl; cbn; [by intros _ [= <-]|]. intros [Hp Hr] (l1 & Hs & Hes)%bind_Some. rw Hs in Hr.
  by eapply IH; [eapply reaches_step| |].
Qed.

(** ** [Start] opens what it returns *)

Definition started (w : RaftWorld) (r : Parts + string) (w' : RaftWorld) : Prop :=
  (rwCalls w <= rwCalls w')%nat /\ exists l c, rwOpened w' = rwOpened w ++ l /\ rwClosed w' = rwClosed w ++ c /\
  Forall (fun x => (rwCalls w <= x < rwCalls w')%nat) l /\
  match r with inl p => c = [] /\ owned (ptRaft p) ≡ₚ l | inr _ => c ≡ₚ l end.
Lemma NewRaftNodeFromConfig_started w : match NewRaftNodeFromConfig (Peers cfg) (BootstrapNodeID (Controller cfg)) nodeID w with
  | (inl n, w') => forall a b c, started w (inl (mkParts n a b c)) w'
  | (inr e, w') => started w (inr e) w'
  end.
Proof.
  unfold NewRaftNodeFromConfig. destruct (String.eqb _ "") eqn:Hb.
  { split; [done|]. exists [], []. by rw !app_nil_r. }
  clear Hb. match goal with |- context [NewRaftNode ?o w] => pose proof (NewRaftNode_settled o w) as Hs; destruct (NewRaftNode o w) as [[n|e] w'] end.
  - cbn [fst snd settled] in Hs. destruct Hs as (Hc & Hx & (l & Ho & Hn & Hf) & _). intros a b c. split; [done|]. exists l, []. by rw Hx app_nil_r.
  - cbn [fst snd settled] in Hs. destruct Hs as (Hc & _ & l & c & Ho & Hx & Hp & Hf). split; [done|]. by exists l, c.
Qed.
Lemma shutdown_started w p w' e : started w (inl p) w' -> started w (inr e) (NodeShutdown (ptRaft p) w').2.
Proof.
  intros (Hc & l & c & Ho & Hx & Hf & -> & Hp). rw NodeShutdown_closed. destruct (closeAll_closed (owned (ptRaft p)) w') as (H1' & H2' & _ & H4').
  split; [lia|]. exists l, (owned (ptRaft p)). rw H1' H2' H4' Ho Hx app_nil_r. split_and!; try done. eapply Forall_impl; [exact Hf|]. cbn. lia.
Qed.
Lemma startParts_started w : started w (parts w).1 (parts w).2.
Proof.
  unfold startParts. unfold mbind, RM_bind. pose proof (NewRaftNodeFromConfig_started w) as Hn.
  destruct (NewRaftNodeFromConfig _ _ _ w) as [[n|e] w']; [|done]. unfold orShutdown.
  destruct (NewObserverFromConfig cfg) as [a|e]; [|exact (shutdown_started _ _ _ e (Hn ∅ ∅ ∅))].
  destruct (NewExecutorFromConfig cfg secret) as [b|e]; [|exact (shutdown_started _ _ _ e (Hn ∅ ∅ ∅))].
  destruct (NewReturningNodeControllerFromConfig cfg secret) as [c|e]; [|exact (shutdown_started _ _ _ e (Hn ∅ ∅ ∅))]. apply Hn.
Qed.

(** ** The invariant *)

Definition phase_ok (l : Life) (i : nat) (g : Generation) : Prop :=
  match gnPhase g with
  | Scheduled => lfDone l = Some i /\ i ∉ lfClosed l
  | Working done _ => done = Some i /\ i ∉ lfClosed l
  | Ended => i ∈ lfClosed l
  end.
Definition returned (l : Life) (i : nat) : Prop := exists err, Returned (Some i) err ∈ lfShutdowns l.
Definition handled (l : Life) : list nat := omap callGeneration (lfShutdowns l).

Record life_ok (l : Life) : Prop := {
  lo_panic : lfPanicked l = false;
  lo_phase : forall i g, lfGenerations l !! i = Some g -> phase_ok l i g;
  lo_closed : forall i, i ∈ lfClosed l -> (i < length (lfGenerations l))%nat;
  lo_current : forall i, lfCurrent l = Some i -> (i < length (lfGenerations l))%nat /\ i ∉ handled l;
  lo_handled : forall i, i ∈ handled l -> exists g, lfGenerations l !! i = Some g /\ gnCancelled g = true;
  lo_unique : NoDup (handled l);
  lo_all : forall i, (i < length (lfGenerations l))%nat -> lfCurrent l = Some i \/ i ∈ handled l;
  lo_returned : forall i, returned l i -> i ∈ lfClosed l;
  lo_open : forall r, openResource r (lfWorld l) <-> exists i g, lfGenerations l !! i = Some g /\ r ∈ owned (gnRaft g) /\ ~ returned l i;
  lo_gone : forall i g r, lfGenerations l !! i = Some g -> returned l i -> r ∈ owned (gnRaft g) -> r ∈ rwClosed (lfWorld l);
  lo_fresh : forall r, r ∈ rwOpened (lfWorld l) \/ r ∈ rwClosed (lfWorld l) -> (r < rwCalls (lfWorld l))%nat;
  lo_owned : forall i g r, lfGenerations l !! i = Some g -> r ∈ owned (gnRaft g) -> r ∈ rwOpened (lfWorld l);
  lo_disjoint : forall i j g g' r, lfGenerations l !! i = Some g -> lfGenerations l !! j = Some g' ->
    r ∈ owned (gnRaft g) -> r ∈ owned (gnRaft g') -> i = j
}.

Lemma handled_insert (calls : list ShutdownCall) (k : nat) c c' : calls !! k = Some c -> callGeneration c' = callGeneration c ->
  omap callGeneration (<[k := c']> calls) = omap callGeneration calls.
Proof.
  intros Hk Hc. revert k Hk. induction calls as [|d calls IH]; intros [|k]; cbn; try done.
  - intros [= ->]. by rw Hc.
  - intros Hk. destruct (callGeneration d); by rw IH.
Qed.
Lemma handled_generation l c : c ∈ lfShutdowns l -> forall i, callGeneration c = Some i -> i ∈ handled l.
Proof. intros Hc i Hi. apply list_elem_of_omap. by exists c. Qed.

(** *** Events that leave calls and resources alone *)

Definition advanced (g g' : Generation) : Prop := gnRaft g' = gnRaft g /\ (gnCancelled g = true -> gnCancelled g' = true).
Lemma advanced_back gs gs' i g' : Forall2 advanced gs gs' -> gs' !! i = Some g' -> exists g, gs !! i = Some g /\ advanced g g'.
Proof. intros Hf Hi. destruct (Forall2_lookup_r _ _ _ _ _ Hf Hi) as (g & Hg & Ha). by exists g. Qed.
Lemma update_ok l l' : life_ok l ->
  lfCurrent l' = lfCurrent l -> lfShutdowns l' = lfShutdowns l -> lfWorld l' = lfWorld l -> lfPanicked l' = false ->
  Forall2 advanced (lfGenerations l) (lfGenerations l') -> (forall i g, lfGenerations l' !! i = Some g -> phase_ok l' i g) ->
  (forall i, i ∈ lfClosed l' -> (i < length (lfGenerations l'))%nat) -> (forall i, i ∈ lfClosed l -> i ∈ lfClosed l') -> life_ok l'.
Proof.
  intros [] Hcu Hsh Hw Hp Hg Hph Hcl Hsub. pose proof (Forall2_length _ _ _ Hg) as Hlen.
  rw -Hlen in Hcl.
  assert (Hret : forall i, returned l' i <-> returned l i) by (intros i; unfold returned; by rw Hsh).
  split; unfold handled in *; rw ?Hcu ?Hsh ?Hw -?Hlen; try done.
  - intros i (g & Hi & Hc)%lo_handled0. destruct (Forall2_lookup_l _ _ _ _ _ Hg Hi) as (g' & Hi' & _ & Ha). exists g'. split; [done|by apply Ha].
  - intros i Hi%Hret. by apply Hsub, lo_returned0.
  - intros r. rw lo_open0. split.
    + intros (i & g & Hi & Hr & Hn). destruct (Forall2_lookup_l _ _ _ _ _ Hg Hi) as (g' & Hi' & Ha & _). exists i, g'. rw Ha Hret. done.
    + intros (i & g & Hi & Hr & Hn). destruct (advanced_back _ _ _ _ Hg Hi) as (g' & Hi' & Ha & _). exists i, g'. rw -Ha -Hret. done.
  - intros i g r Hi Hx%Hret Hr. destruct (advanced_back _ _ _ _ Hg Hi) as (g' & Hi' & Ha & _). rw Ha in Hr. by eapply lo_gone0.
  - intros i g r Hi Hr. destruct (advanced_back _ _ _ _ Hg Hi) as (g' & Hi' & Ha & _). rw Ha in Hr. by eapply lo_owned0.
  - intros i j g1 g2 r Hi Hj H1' H2'. destruct (advanced_back _ _ _ _ Hg Hi) as (g1' & Hi' & Ha1 & _), (advanced_back _ _ _ _ Hg Hj) as (g2' & Hj' & Ha2 & _).
    rw Ha1 in H1'. rw Ha2 in H2'. by eapply lo_disjoint0.
Qed.
Lemma advanced_refl gs : Forall2 advanced gs gs.
Proof. apply Forall2_same_length_lookup. split; [done|]. intros i g g' -> [= ->]. done. Qed.
Lemma advanced_insert gs i g g' : gs !! i = Some g -> advanced g g' -> Forall2 advanced gs (<[i := g']> gs).
Proof.
  intros Hi Ha. apply Forall2_same_length_lookup. split; [by rw length_insert|]. intros j h h' Hj. rw list_lookup_insert_Some.
  intros [(<- & -> & _)|[Hne Hj']]; [by simplify_eq|]. rw Hj in Hj'. by injection Hj' as ->.
Qed.
Lemma advanced_cancel gs i : Forall2 advanced gs (cancelGeneration i gs).
Proof.
  apply Forall2_same_length_lookup. unfold cancelGeneration. split; [by rw length_alter|]. intros j h h' Hj Hh.
  destruct (decide (i = j)) as [<-|Hne]; [rw list_lookup_alter_eq Hj in Hh|rw (list_lookup_alter_ne _ _ _ _ Hne) Hj in Hh]; simplify_eq/=; done.
Qed.
Lemma cancel_phase gs i j g : cancelGeneration i gs !! j = Some g -> exists g', gs !! j = Some g' /\ gnPhase g' = gnPhase g.
Proof.
  unfold cancelGeneration. destruct (decide (i = j)) as [<-|Hne]; [rw list_lookup_alter_eq|rw (list_lookup_alter_ne _ _ _ _ Hne)].
  - intros (h & Hh & ->)%fmap_Some. by exists h.
  - intros Hg. by exists g.
Qed.
Lemma context_ok l i : life_ok l -> life_ok (setGenerations (cancelGeneration i (lfGenerations l)) l).
Proof.
  intros Hl. apply (update_ok l); try done; cbn.
  - apply Hl.
  - apply advanced_cancel.
  - intros j g (g' & Hg & Hp)%cancel_phase. pose proof (lo_phase _ Hl _ _ Hg) as Hph. unfold phase_ok in *. by rw Hp in Hph.
  - intros j Hj. unfold cancelGeneration. rw length_alter. by apply Hl.
Qed.
Lemma setPhase_ok l i g p : life_ok l -> lfGenerations l !! i = Some g -> phase_ok l i (mkGeneration (gnRaft g) (gnCancelled g) p) -> life_ok (setPhase i g p l).
Proof.
  intros Hl Hi Hp. apply (update_ok l); try done; cbn.
  - apply Hl.
  - by apply (advanced_insert _ _ g).
  - intros j h. rw list_lookup_insert_Some. intros [(<- & <- & _)|[_ Hj]]; [exact Hp|by apply (lo_phase _ Hl)].
  - intros j Hj. rw length_insert. by apply Hl.
Qed.
Lemma workersDone_ok l i g : life_ok l -> lfGenerations l !! i = Some g -> gnPhase g = Working (Some i) [] -> life_ok (closeDone (Some i) (setPhase i g Ended l)).
Proof.
  intros Hl Hi Hp. pose proof (lo_phase _ Hl _ _ Hi) as Hph. unfold phase_ok in Hph. rw Hp in Hph. destruct Hph as [_ Hn].
  apply (update_ok l); try done; cbn.
  - rw (lo_panic _ Hl). by rw bool_decide_eq_false_2.
  - by apply (advanced_insert _ _ g).
  - intros j h. rw list_lookup_insert_Some. intros [(<- & <- & _)|[Hne Hj]]; [cbn; set_solver|].
    pose proof (lo_phase _ Hl _ _ Hj) as Hh. unfold phase_ok in *. cbn. destruct (gnPhase h); set_solver.
  - intros j [Hj|Hj]%elem_of_app; rw length_insert; [by apply Hl|]. apply list_elem_of_singleton in Hj as ->. by eapply lookup_lt_Some.
  - set_solver.
Qed.

(** *** [Start] *)

Lemma open_app w w' l c r : rwOpened w' = rwOpened w ++ l -> rwClosed w' = rwClosed w ++ c ->
  (forall x, x ∈ rwOpened w \/ x ∈ rwClosed w -> (x < rwCalls w)%nat) -> Forall (fun x => (rwCalls w <= x < rwCalls w')%nat) l -> (forall x, x ∈ c -> x ∈ l) ->
  openResource r w' <-> openResource r w \/ (r ∈ l /\ r ∉ c).
Proof.
  intros Ho Hx Hf Hl Hc. rw Forall_forall in Hl. unfold openResource. rw Ho Hx !elem_of_app. split; [intros [[Hr|Hr] Hn]; [left|right]; split; tauto|].
  intros [[Hr Hn]|[Hr Hn]]; (split; [tauto|]); intros [Hr'|Hr'].
  - done.
  - apply Hc, Hl in Hr'. pose proof (Hf r (or_introl Hr)). lia.
  - apply Hl in Hr. pose proof (Hf r (or_intror Hr')). lia.
  - done.
Qed.
Lemma start_failed_ok l e w' starts : life_ok l -> started (lfWorld l) (inr e) w' -> lfCurrent l = None ->
  life_ok (mkLife None (lfDone l) (lfGenerations l) (lfClosed l) starts (lfShutdowns l) w' (lfPanicked l)).
Proof.
  intros Hl (Hc & lo & c & Ho & Hx & Hf & Hp) Hcu. pose proof (lo_fresh _ Hl) as Hfresh.
  assert (Hopen : forall r, openResource r w' <-> openResource r (lfWorld l)).
  { intros r. rw (open_app _ _ lo c r Ho Hx Hfresh Hf); [by intros x; rw Hp|]. rw Hp. tauto. }
  destruct Hl. split; cbn; try done.
  - intros i Hi. rw -Hcu. by apply lo_all0.
  - intros r. rw Hopen. apply lo_open0.
  - intros i g r Hi Hr Hg. rw Hx. apply elem_of_app. left. by eapply lo_gone0.
  - intros r. rw Ho Hx !elem_of_app Hp. rw Forall_forall in Hf. intros [[Hr|Hr]|[Hr|Hr]]; try (by apply Hf in Hr; lia).
    + pose proof (Hfresh r (or_introl Hr)). lia.
    + pose proof (Hfresh r (or_intror Hr)). lia.
  - intros i g r Hi Hr. rw Ho. apply elem_of_app. left. by eapply lo_owned0.
Qed.
Lemma started_ok l p w' starts : life_ok l -> started (lfWorld l) (inl p) w' -> lfCurrent l = None ->
  Forall (fun g => gnPhase g <> Scheduled) (lfGenerations l) ->
  let i := length (lfGenerations l) in
  life_ok (mkLife (Some i) (Some i) (lfGenerations l ++ [mkGeneration (ptRaft p) false Scheduled]) (lfClosed l) starts (lfShutdowns l) w' (lfPanicked l)).
Proof.
  intros Hl (Hc & lo & c & Ho & Hx & Hf & -> & Hp) Hcu Hprompt i. pose proof (lo_fresh _ Hl) as Hfresh. rw Forall_forall in Hprompt.
  assert (Hopen : forall r, openResource r w' <-> openResource r (lfWorld l) \/ r ∈ owned (ptRaft p)).
  { intros r. rw (open_app _ _ lo [] r Ho Hx Hfresh Hf); [set_solver|]. rw Hp. set_solver. }
  assert (Hnew : forall r, r ∈ owned (ptRaft p) -> (rwCalls (lfWorld l) <= r)%nat).
  { intros r Hr. rw Hp in Hr. rw Forall_forall in Hf. apply Hf in Hr. lia. }
  assert (Hhandled : i ∉ handled l).
  { intros (g & Hg & _)%(lo_handled _ Hl). apply lookup_lt_Some in Hg. lia. }
  assert (Hret : ~ returned l i).
  { intros (err & He). by eapply Hhandled, handled_generation. }
  assert (Hsnoc : forall j g, (lfGenerations l ++ [mkGeneration (ptRaft p) false Scheduled]) !! j = Some g <->
    lfGenerations l !! j = Some g \/ j = i /\ g = mkGeneration (ptRaft p) false Scheduled).
  { intros j g. rw lookup_app_Some list_lookup_singleton_Some. split; [intros [Hj|(Hj & Hj0 & <-)]; [by left|right; split; [lia|done]]|].
    intros [Hj|[-> ->]]; [by left|right; split_and!; [done|lia|done]]. }
  destruct Hl. split; cbn; try done.
  - intros j g [Hj|[-> ->]]%Hsnoc; [|split; [done|]; cbn; intros Hx'%lo_closed0; lia].
    pose proof (lo_phase0 _ _ Hj) as Hph. unfold phase_ok in *. cbn. destruct (gnPhase g) eqn:Hg; try done.
    destruct (Hprompt g) as []; [by eapply list_elem_of_lookup_2|done].
  - intros j Hj%lo_closed0. rw length_app. lia.
  - intros j [= <-]. rw length_app. split; [cbn; lia|done].
  - intros j (g & Hg & Hcan)%lo_handled0. exists g. split; [|done]. apply Hsnoc. by left.
  - intros j. rw length_app. cbn. intros Hj. destruct (decide (j = i)) as [->|Hne]; [by left|]. right.
    destruct (lo_all0 j) as [Hj'|Hj']; [lia| |done]. congruence.
  - intros r. rw Hopen lo_open0. split.
    + intros [(j & g & Hj & Hr & Hn)|Hr]; [exists j, g|exists i, (mkGeneration (ptRaft p) false Scheduled)]; split_and!; try done; apply Hsnoc; [by left|by right].
    + intros (j & g & [Hj|[-> ->]]%Hsnoc & Hr & Hn); [left; by exists j, g|by right].
  - intros j g r [Hj|[-> ->]]%Hsnoc Hr Hg; [|done]. rw Hx app_nil_r. by eapply lo_gone0.
  - intros r. rw Ho Hx app_nil_r elem_of_app. rw Forall_forall in Hf. intros [[Hr|Hr]|Hr].
    + pose proof (Hfresh r (or_introl Hr)). lia.
    + apply Hf in Hr. lia.
    + pose proof (Hfresh r (or_intror Hr)). lia.
  - intros j g r [Hj|[-> ->]]%Hsnoc Hr; rw Ho; apply elem_of_app; [left; by eapply lo_owned0|right; by rw -Hp].
  - assert (Hold : forall j g r, lfGenerations l !! j = Some g -> r ∈ owned (gnRaft g) -> r ∈ owned (ptRaft p) -> False).
    { intros j g r Hj Hr Hr'. pose proof (Hfresh r (or_introl (lo_owned0 _ _ _ Hj Hr))). apply Hnew in Hr'. lia. }
    intros j k g g' r [Hj|[-> ->]]%Hsnoc [Hk|[-> ->]]%Hsnoc Hr Hr'; try done; [by eapply lo_disjoint0|by destruct (Hold _ _ _ Hj Hr)|by destruct (Hold _ _ _ Hk Hr')].
Qed.

(** *** [Shutdown] *)

Definition withCalls (current : option nat) (calls : list ShutdownCall) (l : Life) : Life :=
  mkLife current (lfDone l) (lfGenerations l) (lfClosed l) (lfStarts l) calls (lfWorld l) (lfPanicked l).
Lemma calls_ok l current calls : life_ok l -> let l' := withCalls current calls l in
  (forall i, returned l' i <-> returned l i) ->
  (forall i, current = Some i -> (i < length (lfGenerations l))%nat /\ i ∉ handled l') ->
  (forall i, i ∈ handled l' -> i ∈ handled l \/ exists g, lfGenerations l !! i = Some g /\ gnCancelled g = true) ->
  NoDup (handled l') -> (forall i, lfCurrent l = Some i \/ i ∈ handled l -> current = Some i \/ i ∈ handled l') -> life_ok l'.
Proof.
  intros [] l' Hret Hcu Hh Hnd Hall. split; cbn; try done.
  - intros i [Hi|Hi]%Hh; [by apply lo_handled0|done].
  - intros i Hi. by apply Hall, lo_all0.
  - intros i Hi%Hret. by apply lo_returned0.
  - intros r. rw lo_open0. by setoid_rewrite Hret.
  - intros i g r Hi Hr%Hret. by eapply lo_gone0.
Qed.
Lemma returned_snoc l current calls c i : returned (withCalls current (calls ++ [c]) l) i <-> (exists err, Returned (Some i) err ∈ calls) \/ exists err, c = Returned (Some i) err.
Proof. unfold returned. cbn. setoid_rewrite elem_of_app. setoid_rewrite list_elem_of_singleton. split; [intros (err & [He|<-]); eauto|intros [(err & He)|(err & ->)]; eauto]. Qed.
Lemma idle_ok l : life_ok l -> life_ok (setShutdowns (lfShutdowns l ++ [Returned None None]) l).
Proof.
  intros Hl. assert (Hh : handled (withCalls (lfCurrent l) (lfShutdowns l ++ [Returned None None]) l) = handled l) by (unfold handled; cbn; by rw omap_app app_nil_r).
  apply (calls_ok l (lfCurrent l)); rw ?Hh; [done| |apply Hl|by left|apply Hl|done].
  intros i. rw returned_snoc. unfold returned. split; [intros [Hr|[err [=]]]; done|by left].
Qed.
Lemma shutdown_ok l i g : life_ok l -> lfCurrent l = Some i -> lfGenerations l !! i = Some g -> gnCancelled g = true ->
  life_ok (withCalls None (lfShutdowns l ++ [Waiting i]) l).
Proof.
  intros Hl Hc Hi Hg. assert (Hh : handled (withCalls None (lfShutdowns l ++ [Waiting i]) l) = handled l ++ [i]) by (unfold handled; cbn; by rw omap_app).
  apply (calls_ok l None); rw ?Hh; [done| |done| | |].
  - intros j. rw returned_snoc. unfold returned. split; [intros [Hr|[err [=]]]; done|by left].
  - intros j [Hj|Hj%list_elem_of_singleton]%elem_of_app; [by left|right; subst; by exists g].
  - apply NoDup_app. split_and!; [apply Hl| |apply NoDup_singleton]. intros j Hj ->%list_elem_of_singleton. by destruct (lo_current _ Hl i Hc).
  - intros j [Hj|Hj]; right; apply elem_of_app; [right|by left]. apply list_elem_of_singleton. congruence.
Qed.
Lemma returned_insert l calls (k : nat) i c j : lfShutdowns l !! k = Some (Waiting i) -> calls = <[k := c]> (lfShutdowns l) -> 
  (exists err, Returned (Some j) err ∈ calls) <-> returned l j \/ exists err, c = Returned (Some j) err.
Proof.
  intros Hk ->. unfold returned. pose proof (lookup_lt_Some _ _ _ Hk) as Hlt. setoid_rewrite list_elem_of_lookup. setoid_rewrite list_lookup_insert_Some. split.
  - intros (err & n & [(_ & -> & _)|[_ Hn]]); [by right; exists err|by left; exists err, n].
  - intros [(err & n & Hn)|(err & ->)]; exists err; [exists n; right; split; [intros <-; congruence|done]|exists k; by left].
Qed.
Lemma timeout_ok l (k : nat) i : life_ok l -> lfShutdowns l !! k = Some (Waiting i) -> life_ok (setShutdowns (<[k := TimedOut i]> (lfShutdowns l)) l).
Proof.
  intros Hl Hk. assert (Hh : handled (withCalls (lfCurrent l) (<[k := TimedOut i]> (lfShutdowns l)) l) = handled l) by by apply (handled_insert _ _ (Waiting i)).
  apply (calls_ok l (lfCurrent l)); rw ?Hh; [done| |apply Hl|by left|apply Hl|done].
  intros j. etransitivity; [by apply (returned_insert l _ k i (TimedOut i))|]. split; [intros [Hr|[err [=]]]; done|by left].
Qed.
(** A generation is shut down by one call. *)
Lemma handled_once l c c' i : life_ok l -> c ∈ lfShutdowns l -> c' ∈ lfShutdowns l -> callGeneration c = Some i -> callGeneration c' = Some i -> c = c'.
Proof.
  intros Hnd%lo_unique. unfold handled in Hnd. induction (lfShutdowns l) as [|d calls IH]; [set_solver|]. cbn in Hnd.
  assert (Hin : forall c, c ∈ calls -> callGeneration c = Some i -> i ∈ omap callGeneration calls) by (intros x Hx Hi; apply list_elem_of_omap; by exists x).
  intros [->|Hc]%elem_of_cons [->|Hc']%elem_of_cons Hi Hi'; [done| | |].
  - rw Hi in Hnd. apply NoDup_cons in Hnd as [Hnd _]. by destruct Hnd; eapply Hin.
  - rw Hi' in Hnd. apply NoDup_cons in Hnd as [Hnd _]. by destruct Hnd; eapply Hin.
  - apply IH; try done. destruct (callGeneration d); [by apply NoDup_cons in Hnd as [_ Hnd]|done].
Qed.
Lemma returns_ok l (k : nat) i g : life_ok l -> lfShutdowns l !! k = Some (Waiting i) -> i ∈ lfClosed l -> lfGenerations l !! i = Some g ->
  life_ok (ShutdownReturns k i (gnRaft g) l).
Proof.
  intros Hl Hk Hi Hg. unfold ShutdownReturns. pose proof (NodeShutdown_closed (gnRaft g) (lfWorld l)) as Hw.
  destruct (NodeShutdown (gnRaft g) (lfWorld l)) as [err w]. cbn [snd] in Hw. subst w.
  destruct (closeAll_closed (owned (gnRaft g)) (lfWorld l)) as (H1' & H2' & _ & H4'). set (w := closeAll _ _) in *.
  set (l' := mkLife _ _ _ _ _ _ _ _).
  assert (Hh : handled l' = handled l) by by apply (handled_insert _ _ (Waiting i)).
  assert (Hret : forall j, returned l' j <-> returned l j \/ j = i).
  { intros j. etransitivity; [by apply (returned_insert l _ k i (Returned (Some i) err))|]. split; (intros [Hr|Hr]; [by left|right]); [by destruct Hr as [e [= <-]]|exists err; by subst]. }
  destruct Hl. split; rw ?Hh; cbn [lfPanicked lfGenerations lfClosed lfCurrent lfWorld l']; try done.
  - intros j [Hj|Hj]%Hret; [by apply lo_returned0|by subst].
  - intros r. unfold openResource. rw H1' H2' elem_of_app. split.
    + intros [Hr Hn]. destruct (proj1 (lo_open0 r)) as (j & h & Hj & Hh' & Hr'); [split; tauto|]. exists j, h. rw Hret. split_and!; try done.
      intros [Hx|Hx]; [done|]. subst j. rw Hg in Hj. injection Hj as <-. tauto.
    + intros (j & h & Hj & Hr & Hn). rw Hret in Hn. destruct (proj2 (lo_open0 r)) as [Hr1 Hr2]; [exists j, h; tauto|]. split; [done|].
      intros [Hx|Hx]; [done|]. apply Hn. right. by eapply lo_disjoint0.
  - intros j h r Hj [Hr|Hr]%Hret Hx; rw H1' elem_of_app; [left; by eapply lo_gone0|right]. subst j. rw Hg in Hj. by injection Hj as <-.
  - intros r. rw H1' H2' H4' elem_of_app. intros [Hr|[Hr|Hr]].
    + pose proof (lo_fresh0 r (or_introl Hr)). lia.
    + pose proof (lo_fresh0 r (or_intror Hr)). lia.
    + pose proof (lo_fresh0 r (or_introl (lo_owned0 _ _ _ Hg Hr))). lia.
  - intros j h r Hj Hr. rw H2'. by eapply lo_owned0.
Qed.

(** ** Every event keeps the invariant *)

Lemma cancel_current l i : life_ok l -> lfCurrent l = Some i -> exists g, cancelGeneration i (lfGenerations l) !! i = Some g /\ gnCancelled g = true.
Proof.
  intros Hl [Hi _]%(lo_current _ Hl). destruct (lookup_lt_is_Some_2 _ _ Hi) as [g Hg]. unfold cancelGeneration.
  rw list_lookup_alter_eq Hg. by eexists.
Qed.
Lemma working_ok l i g done running running' : life_ok l -> lfGenerations l !! i = Some g -> gnPhase g = Working done running ->
  life_ok (setPhase i g (Working done running') l).
Proof. intros Hl Hi Hp. apply setPhase_ok; [done|done|]. pose proof (lo_phase _ Hl _ _ Hi) as Hph. unfold phase_ok in *. by rw Hp in Hph. Qed.
Lemma scheduled_ok l i g : life_ok l -> lfGenerations l !! i = Some g -> gnPhase g = Scheduled -> life_ok (setPhase i g (Working (lfDone l) workers) l).
Proof. intros Hl Hi Hp. apply setPhase_ok; [done|done|]. pose proof (lo_phase _ Hl _ _ Hi) as Hph. unfold phase_ok in *. by rw Hp in Hph. Qed.
Lemma step_ok l e l' : life_ok l -> promptly e l -> step e l = Some l' -> life_ok l'.
Proof.
  intros Hl Hp. unfold lifeStep. rw (lo_panic _ Hl). destruct e as [|i|i|i worker|i| |k|k]; cbn in Hp.
  - intros [= <-]. unfold Start. destruct (lfCurrent l) as [c|] eqn:Hc; [by apply (update_ok l); try done; try apply advanced_refl; apply Hl|].
    pose proof (startParts_started (lfWorld l)) as Hs. destruct (parts (lfWorld l)) as [[p|e] w']; [by apply started_ok|by eapply start_failed_ok].
  - intros [= <-]. by apply context_ok.
  - intros (g & Hg & He)%bind_Some. destruct (gnPhase g) eqn:Hph; [|done..]. apply (inj Some) in He as <-. by apply scheduled_ok.
  - intros (g & Hg & He)%bind_Some. destruct (gnPhase g) eqn:Hph; [done| |done]. case_match; [|done]. apply (inj Some) in He as <-. by eapply working_ok.
  - intros (g & Hg & He)%bind_Some. destruct (gnPhase g) as [|ch [|]|] eqn:Hph; try discriminate He. apply (inj Some) in He as <-.
    pose proof (lo_phase _ Hl _ _ Hg) as Hok. unfold phase_ok in Hok. rw Hph in Hok. destruct Hok as [-> _]. by apply workersDone_ok.
  - intros [= <-]. unfold Shutdown. destruct (lfCurrent l) as [i|] eqn:Hc; [|by apply idle_ok].
    destruct (cancel_current _ _ Hl Hc) as (g & Hg & Hcan). exact (shutdown_ok _ _ g (context_ok _ i Hl) Hc Hg Hcan).
  - destruct (lfShutdowns l !! k) as [[i| |]|] eqn:Hk; try done. case_bool_decide as Hi; [|done]. intros (g & Hg & [= <-])%bind_Some. by apply returns_ok.
  - destruct (lfShutdowns l !! k) as [[i| |]|] eqn:Hk; try done. intros [= <-]. by apply timeout_ok.
Qed.
Lemma reaches_ok l : reaches l -> life_ok l.
Proof.
  induction 1 as [|l e l' _ IH Hp Hs]; [|by eapply step_ok].
  split; unfold openResource, returned, handled; cbn; try done; try (by constructor); try set_solver.
  intros i Hi. lia.
Qed.

(** ** A waiting call can return *)

Definition finishing (k i : nat) (e : LifeEvent) : Prop :=
  match e with EvScheduled j | EvWorkerReturns j _ | EvWorkersDone j => j = i | EvShutdownReturns n => n = k | _ => False end.
Definition finishes (l : Life) (k i : nat) : Prop :=
  exists es l' err, Forall (finishing k i) es /\ run es l = Some l' /\ lfShutdowns l' !! k = Some (Returned (Some i) err).
Lemma finishes_step l e l' k i : step e l = Some l' -> finishing k i e -> finishes l' k i -> finishes l k i.
Proof. intros Hs He (es & l2 & err & Hf & Hr & Hc). exists (e :: es), l2, err. split; [by constructor|]. cbn. by rw Hs. Qed.
Lemma ended_finishes l k i g : life_ok l -> lfShutdowns l !! k = Some (Waiting i) -> lfGenerations l !! i = Some g -> gnPhase g = Ended -> finishes l k i.
Proof.
  intros Hl Hk Hg Hp. pose proof (lo_phase _ Hl _ _ Hg) as Hok. unfold phase_ok in Hok. rw Hp in Hok.
  exists [EvShutdownReturns k], (ShutdownReturns k i (gnRaft g) l), (NodeShutdown (gnRaft g) (lfWorld l)).1. split; [by repeat constructor|]. split.
  - cbn. unfold lifeStep. by rw (lo_panic _ Hl) Hk bool_decide_eq_true_2 // Hg.
  - unfold ShutdownReturns. destruct (NodeShutdown _ _). cbn. apply list_lookup_insert_eq. by eapply lookup_lt_Some.
Qed.
Lemma working_finishes n l k i g done running : (length running <= n)%nat -> life_ok l -> lfShutdowns l !! k = Some (Waiting i) -> lfGenerations l !! i = Some g ->
  gnCancelled g = true -> gnPhase g = Working done running -> finishes l k i.
Proof.
  revert l g running. induction n as [|n IH]; intros l g running Hn Hl Hk Hg Hc Hp; pose proof (lookup_lt_Some _ _ _ Hg) as Hlt.
  all: destruct running as [|w running]; [|try (cbn in Hn; lia)].
  1,2: pose proof (lo_phase _ Hl _ _ Hg) as Hok; unfold phase_ok in Hok; rw Hp in Hok; destruct Hok as [-> _];
    apply (finishes_step _ (EvWorkersDone i) (closeDone (Some i) (setPhase i g Ended l))); [unfold lifeStep; rw (lo_panic _ Hl) Hg; cbn; by rw Hp|done|];
    (eapply ended_finishes; [by apply workersDone_ok|done|cbn; by apply list_lookup_insert_eq|done]).
  eapply (finishes_step _ (EvWorkerReturns i w)); [|done|].
  - unfold lifeStep. rw (lo_panic _ Hl) Hg. cbn -[filter]. rw Hp Hc bool_decide_eq_true_2; [by left|]. cbn -[filter]. done.
  - eapply (IH _ _ (filter (.≠ w) (w :: running))); [|by eapply working_ok|done|cbn -[filter]; by apply list_lookup_insert_eq|done|done].
    rw filter_cons. rw decide_False; [tauto|]. pose proof (length_filter (.≠ w) running). cbn in Hn. lia.
Qed.
Lemma waiting_finishes l k i : life_ok l -> lfShutdowns l !! k = Some (Waiting i) -> finishes l k i.
Proof.
  intros Hl Hk. destruct (lo_handled _ Hl i) as (g & Hg & Hc); [by eapply handled_generation; [eapply list_elem_of_lookup_2|]|].
  destruct (gnPhase g) as [|done running|] eqn:Hp.
  - apply (finishes_step _ (EvScheduled i) (setPhase i g (Working (lfDone l) workers) l)); [unfold lifeStep; rw (lo_panic _ Hl) Hg; cbn; by rw Hp|done|].
    eapply (working_finishes 5 _ _ _ _ (lfDone l) workers); [cbn; lia|by apply scheduled_ok|done|cbn; apply list_lookup_insert_eq; by eapply lookup_lt_Some|done|done].
  - by eapply working_finishes.
  - by eapply ended_finishes.
Qed.

(** C23: over any sequence of starts, shutdowns, returning
    workers and expiring contexts in which a [Start] finds the goroutines of
    earlier ones running, nothing panics; what the Raft library has open belongs
    to a generation that is current or whose [Shutdown] is waiting or timed out
    - so a [Start] that fails leaves nothing open -; a Raft node stays
    open as long as one of its workers may run, and is closed, with its workers
    ended, once its [Shutdown] has returned; one whose [Shutdown] timed out is
    never closed; and a waiting [Shutdown] returns when its workers do. *)
Theorem controller_lifecycle l : reaches l ->
  lfPanicked l = false /\
  (forall r, openResource r (lfWorld l) -> exists i g, lfGenerations l !! i = Some g /\ r ∈ owned (gnRaft g) /\
     (lfCurrent l = Some i \/ Waiting i ∈ lfShutdowns l \/ TimedOut i ∈ lfShutdowns l)) /\
  (forall i g r, lfGenerations l !! i = Some g -> gnPhase g <> Ended \/ TimedOut i ∈ lfShutdowns l -> r ∈ owned (gnRaft g) -> openResource r (lfWorld l)) /\
  (forall i err, Returned (Some i) err ∈ lfShutdowns l ->
     exists g, lfGenerations l !! i = Some g /\ gnPhase g = Ended /\ forall r, r ∈ owned (gnRaft g) -> r ∈ rwClosed (lfWorld l)) /\
  (forall k i, lfShutdowns l !! k = Some (Waiting i) -> finishes l k i).
Proof.
  intros Hl%reaches_ok. split; [apply Hl|]. split_and!.
  - intros r (i & g & Hi & Hr & Hn)%(lo_open _ Hl). exists i, g. split_and!; [done|done|].
    destruct (lo_all _ Hl i) as [Hc|(c & Hc & He)%list_elem_of_omap]; [by eapply lookup_lt_Some|by left|right].
    destruct c as [j|j err|j]; cbn in He; simplify_eq/=; [by left|destruct Hn; by exists err|by right].
  - intros i g r Hi Hor Hr. apply (lo_open _ Hl). exists i, g. split_and!; [done|done|]. intros Hret. destruct Hor as [Hp|Ht].
    + pose proof (lo_phase _ Hl _ _ Hi) as Hok. apply (lo_returned _ Hl) in Hret. unfold phase_ok in Hok. by destruct (gnPhase g); destruct_and?.
    + destruct Hret as (err & He). discriminate (handled_once l _ _ i Hl Ht He eq_refl eq_refl).
  - intros i err He. assert (Hret : returned l i) by by exists err. pose proof (lo_returned _ Hl _ Hret) as Hc. pose proof (lo_closed _ Hl _ Hc) as Hlt.
    destruct (lookup_lt_is_Some_2 _ _ Hlt) as [g Hg]. exists g. split; [done|]. split; [|intros r; by eapply lo_gone].
    pose proof (lo_phase _ Hl _ _ Hg) as Hok. unfold phase_ok in Hok. by destruct (gnPhase g); destruct_and?.
  - intros k i. by apply waiting_finishes.
Qed.
End spec.

(** ** Runs *)

Definition quietLib : RaftLib := {| libError := fun _ => None; libHasState := fun _ => false; libCantBootstrap := fun _ => false |}.
Definition plainURLs : URLs := fun address => Some ("http", sdrop 7 address, address).
Definition oneNode : ClusterConfig :=
  mkClusterConfig "c" true true true 16 "proxy" "automatic" (mkControllerConfig 0 "raft" "n1" 1000 10000 3 1 10)
    [mkPeerConfig "n1" "h:1" "h:2" "h:3" "automatic"].
Definition oneLife (es : list LifeEvent) : option Life := @lifeRun quietLib plainURLs oneNode "n1" "s" es (newLife (mkRaftWorld 0 [] [] [])).
Definition allReturn (i : nat) : list LifeEvent := map (EvWorkerReturns i) workers.

Lemma controller_lifecycle_witness : exists l, oneLife [EvStart; EvScheduled 0; EvShutdown] = Some l /\ rwOpened (lfWorld l) = [1; 2; 5]%nat /\
  lfPanicked l = false /\ @finishes quietLib plainURLs oneNode "n1" "s" l 0 0.
Proof.
  eexists. split; [vm_compute; reflexivity|]. split; [vm_compute; reflexivity|].
  match goal with |- lfPanicked ?l = false /\ _ => assert (Hl : @reaches quietLib plainURLs oneNode "n1" "s" l) end.
  - apply (reaches_run _ _ _ [EvStart; EvScheduled 0; EvShutdown] _ _ (reaches_new _ _ _)); [by repeat constructor|vm_compute; reflexivity].
  - destruct (controller_lifecycle _ _ _ _ Hl) as (Hp & _ & _ & _ & Hf). split; [exact Hp|]. exact (Hf 0%nat 0%nat eq_refl).
Defined.

(** When a goroutine of a [Start] begins to run after the next [Start], it closes the
    channel of that one: the first [Shutdown] waits for ever, the second closes a
    Raft node whose workers run, and then the process panics. *)
Theorem late_goroutine_panics : let early := [EvStart; EvShutdown; EvStart; EvScheduled 0] ++ allReturn 0 ++ [EvWorkersDone 0; EvScheduled 1; EvShutdown; EvShutdownReturns 1] in
  (exists l g, oneLife early = Some l /\ lfShutdowns l = [Waiting 0; Returned (Some 1%nat) None] /\
     lfGenerations l !! 1%nat = Some g /\ gnPhase g = Working (Some 1%nat) workers /\ owned (gnRaft g) = [12; 8; 9]%nat /\ 12%nat ∈ rwClosed (lfWorld l)) /\
  exists l, oneLife (early ++ allReturn 1 ++ [EvWorkersDone 1]) = Some l /\ lfPanicked l = true.
Proof.
  split.
  - do 2 eexists. split; [vm_compute; reflexivity|]. cbn. split_and!; try reflexivity. set_solver.
  - eexists. split; [vm_compute; reflexivity|]. reflexivity.
Qed.
