(* ===== verification/AdminCtl.v ===== *)
(** * The administration command: [cmd/adminctl/main.go]

    The words of the command line become one request to a node; its answer is
    printed, indented when it is a JSON object.  The flags are read by the package
    [flag]; how a URL is read is the class [RequestURLs]. *)
From Stdlib Require Import SpecFloat.
From S2P Require Import Prelude Encoding GoText GoTime Json JsonCodec GoFloat GoFloatText FloatRatio Store Executor Engine Metadata Server Cluster.
From S2P Require Import Topology ControlFSM ControlJson ControlJsonSpec Planner Observer ControlExecutor AdminNode ClusterSpec NodeClient NodeClientSpec Api.
Local Open Scope Z_scope.

(** ** Requests *)

(** Texts with [%q] are not written out. *)
Inductive CtlErr :=
  | CommandRequired
  | WrongArguments (text : string)
  | InvalidSlot (word : string)
  | UnknownCommand (command : string)
  | BuildRequest.

(** [http.NewRequest]: the path of a URL, or that it cannot be parsed. *)
Class RequestURLs := urlPath : string -> option string.

(** [json.Marshal] of a map has its keys in order. *)
Definition assignPayload (slot : Z) (id : string) : string := printJson (JObj [("nodeId", JStr id); ("slot", encUint slot)]).
Definition slotPayload (slot : Z) : string := printJson (JObj [("slot", encUint slot)]).

Definition requestFor (method endpoint : string) (body : option string) : (string * string * option string) + CtlErr := inl (method, endpoint, body).
Definition endpointForArgs (args : list string) : (string * string * option string) + CtlErr :=
  match args with
  | [] => inr CommandRequired
  | command :: words =>
      if String.eqb command "health" then requestFor "GET" "/health" None
      else if String.eqb command "engine" then requestFor "GET" "/engine/state" None
      else if String.eqb command "cluster" then requestFor "GET" "/cluster/state" None
      else if String.eqb command "metrics" then requestFor "GET" "/metrics/summary" None
      else if String.eqb command "snapshot" then requestFor "POST" "/admin/snapshot" None
      else if String.eqb command "cluster-promote" then
        match words with
        | [word] =>
            match ParseUint32 word with
            | Some slot => requestFor "POST" "/cluster/promote" (Some ("{" +:+ quoteString "slot" +:+ ":" +:+ FormatUint slot +:+ "}"))
            | None => inr (InvalidSlot word)
            end
        | _ => inr (WrongArguments "cluster-promote requires a slot")
        end
      else if String.eqb command "cluster-assign-replica" then
        match words with
        | [word; id] =>
            match ParseUint32 word with
            | Some slot => requestFor "POST" "/cluster/replica" (Some (assignPayload slot id))
            | None => inr (InvalidSlot word)
            end
        | _ => inr (WrongArguments "cluster-assign-replica requires a slot and node ID")
        end
      else if String.eqb command "cluster-sync" then
        match words with
        | [word] | [word; _] =>
            match ParseUint32 word with
            | Some slot => requestFor "POST" "/cluster/sync" (Some (match words with [_; id] => assignPayload slot id | _ => slotPayload slot end))
            | None => inr (InvalidSlot word)
            end
        | _ => inr (WrongArguments "cluster-sync requires a slot and optional node ID")
        end
      else inr (UnknownCommand command)
  end.

Record CtlRequest := mkCtlRequest { ctlHTTP : HTTPRequest; ctlContentType : string }.
Section requests.
Context `{RequestURLs}.
Definition requestForArgs (base : string) (args : list string) : CtlRequest + CtlErr :=
  match endpointForArgs args with
  | inr e => inr e
  | inl (method, endpoint, body) =>
      match urlPath (base +:+ endpoint) with
      | None => inr BuildRequest
      | Some path =>
          inl (mkCtlRequest (mkHTTP method path (default "" body) "" "") (match body with Some _ => "application/json" | None => "" end))
      end
  end.
Definition requestForCommand (base command : string) : CtlRequest + CtlErr := requestForArgs base [command].
End requests.

(** ** Output *)

(** A value decoded into [any] and encoded again: numbers become [float64],
    the members of an object are a map. *)
Fixpoint throughAny (j : Json) : option Json :=
  match j with
  | JNum text => f ← ParseFloat text; encFloat f
  | JArr js => JArr <$> (fix go js := match js with [] => Some [] | j :: js => x ← throughAny j; y ← go js; Some (x :: y) end) js
  | JObj ms =>
      encMap id id <$>
      (fix go ms (m : gmap string Json) := match ms with [] => Some m | (k, j) :: ms => x ← throughAny j; go ms (<[k := x]> m) end) ms ∅
  | _ => Some j
  end.
(** [json.Unmarshal] into a map and [json.MarshalIndent]; [null] gives the nil map. *)
Definition prettyBody (body : string) : string :=
  match parseJson body with
  | Some (JObj ms) => match throughAny (JObj ms) with Some j => indentJson j | None => body +:+ LF end
  | Some JNull => "null" +:+ LF
  | _ => body +:+ LF
  end.

(** What the process leaves: its exit code, what it printed, and the world. *)
Inductive CtlOutcome :=
  | CtlUsage
  | CtlFailed (e : CtlErr)
  | CtlNoAnswer (text : string)
  | CtlAnswered (code : Z) (output : string).
Definition exitCode (o : CtlOutcome) : Z := match o with CtlAnswered code _ => code | _ => 1 end.

Definition ctlAnswer (resp : HTTPResponse) : CtlOutcome :=
  CtlAnswered (if (StatusCode resp <? 200) || (300 <=? StatusCode resp) then 1 else 0) (prettyBody (ResponseBody resp)).
Section main.
Context `{RequestURLs} {W : Type} `{HTTPTransport W}.
Definition ctlMain (host : string) (port : Z) (args : list string) (w : W) : CtlOutcome * W :=
  match args with
  | [] => (CtlUsage, w)
  | _ =>
      match requestForArgs ("http://" +:+ host +:+ ":" +:+ FormatInt port) args with
      | inr e => (CtlFailed e, w)
      | inl req =>
          match roundTrip host (ctlHTTP req) w with
          | (inr text, w) => (CtlNoAnswer text, w)
          | (inl resp, w) => (ctlAnswer resp, w)
          end
      end
  end.
End main.

(** ** The command does what its words say *)

(** What the words of a topology change mean. *)
Definition asksFor (args : list string) : option Call :=
  match args with
  | [command; word] =>
      slot ← ParseUint32 word;
      if String.eqb command "cluster-promote" then Some (CallPromote slot)
      else if String.eqb command "cluster-sync" then Some (CallSyncReplica slot "") else None
  | [command; word; id] =>
      slot ← ParseUint32 word;
      if String.eqb command "cluster-assign-replica" then Some (CallAssignReplica slot id)
      else if String.eqb command "cluster-sync" then Some (CallSyncReplica slot id) else None
  | _ => None
  end.
Definition ctlBody (args : list string) : string := match endpointForArgs args with inl (_, _, Some body) => body | _ => "" end.

Lemma decode_assignPayload slot id : 0 <= slot <= 4294967295 -> utf8 id -> slen (assignPayload slot id) <= maxJSONBodyBytes ->
  decodeReplicaRequest (assignPayload slot id) = Some (slot, id).
Proof.
  intros Hs Hi Hl. apply decodeJSONBody_enc; [| |done].
  - apply faithful_obj. assert (0 <= slot <= maxUint64) by (unfold maxUint64; lia). members.
  - pose proof (decUint_enc 4294967295 slot 0 Hs ltac:(done)) as H1. change (decUint 4294967295) with decUint32 in H1.
    revert H1. generalize (encUint slot). intros j H1. lazy -[decUint32]. by rw H1.
Qed.
Lemma decode_slotPayload slot : 0 <= slot <= 4294967295 -> slen (slotPayload slot) <= maxJSONBodyBytes -> decodeReplicaRequest (slotPayload slot) = Some (slot, "").
Proof.
  intros Hs Hl. apply decodeJSONBody_enc; [| |done].
  - apply faithful_obj. assert (0 <= slot <= maxUint64) by (unfold maxUint64; lia). members.
  - pose proof (decUint_enc 4294967295 slot 0 Hs ltac:(done)) as H1. change (decUint 4294967295) with decUint32 in H1.
    revert H1. generalize (encUint slot). intros j H1. lazy -[decUint32]. by rw H1.
Qed.
Lemma ParseUint_loop_nonneg n s v : 0 <= n -> ParseUint_loop n s = Some v -> 0 <= v.
Proof.
  revert n; induction s as [|c s IH]; intros n Hn; cbn [ParseUint_loop]; [by intros [= ->]|]. destruct (isDigit c) eqn:Hc; [|done].
  apply isDigit_inv in Hc as (d & Hd & Hcd & ->). repeat (case_match; [done|]). apply IH. lia.
Qed.
Lemma ParseUint32_range word slot : ParseUint32 word = Some slot -> 0 <= slot <= 4294967295.
Proof.
  unfold ParseUint32. intros (n & Hn & Hle)%bind_Some. destruct (Z.ltb_spec 4294967295 n); [done|]. injection Hle as <-. split; [|done].
  unfold ParseUint in Hn. destruct word; [done|]. by apply ParseUint_loop_nonneg in Hn.
Qed.

Definition words_ok (args : list string) (c : Call) : Prop :=
  slen (ctlBody args) <= maxJSONBodyBytes /\
  match c with CallAssignReplica _ id => utf8 id /\ id <> "" | CallSyncReplica _ id => utf8 id | _ => True end.
(** The base address is one that [url.Parse] keeps in front of a path. *)
Definition base_ok `{RequestURLs} (base : string) : Prop :=
  forall path, path ∈ ["/cluster/promote"; "/cluster/replica"; "/cluster/sync"] -> urlPath (base +:+ path) = Some path.

Lemma asksFor_endpoint args c : asksFor args = Some c -> exists slot body,
  endpointForArgs args = inl ("POST", callPath c, Some body) /\ 0 <= slot <= 4294967295 /\
  match c with
  | CallPromote s => s = slot /\ body = promoteBody slot
  | CallAssignReplica s id => s = slot /\ body = assignPayload slot id
  | CallSyncReplica s id => s = slot /\ (body = assignPayload slot id \/ id = "" /\ body = slotPayload slot)
  | _ => False
  end.
Proof.
  intros Ha. destruct args as [|command [|word [|id [|? ?]]]]; try discriminate Ha; cbn [asksFor] in Ha.
  all: apply bind_Some in Ha as (slot & Hw & Ha); pose proof (ParseUint32_range _ _ Hw) as Hr; exists slot.
  - destruct (String.eqb_spec command "cluster-promote") as [->|_]; [|destruct (String.eqb_spec command "cluster-sync") as [->|_]; [|done]];
      injection Ha as <-; eexists; unfold endpointForArgs; cbn [String.eqb Ascii.eqb Bool.eqb]; rw Hw; (split; [reflexivity|]); split; [done|done|done|]; split; [done|by right].
  - destruct (String.eqb_spec command "cluster-assign-replica") as [->|_]; [|destruct (String.eqb_spec command "cluster-sync") as [->|_]; [|done]];
      injection Ha as <-; eexists; unfold endpointForArgs; cbn [String.eqb Ascii.eqb Bool.eqb]; rw Hw; (split; [reflexivity|]); split; [done|done|done|]; split; [done|by left].
Qed.
Lemma asksFor_request `{RequestURLs} base args c : base_ok base -> asksFor args = Some c ->
  requestForArgs base args = inl (mkCtlRequest (mkHTTP "POST" (callPath c) (ctlBody args) "" "") "application/json") /\ args <> [].
Proof.
  intros Hb Ha. destruct (asksFor_endpoint _ _ Ha) as (slot & body & He & _ & Hc). unfold requestForArgs, ctlBody. rw He Hb; [|by destruct args].
  destruct c; try done; cbn [callPath]; set_solver.
Qed.

Section carries.
Context `{Env, SliceSort, Texts, JSON} {N : Type} `{Net N} `{Crypto} (srv : ServerConfig) (cfg : NodeConfig).
Definition unsigned (path body : string) : HTTPRequest := mkHTTP "POST" path body "" "".

Lemma handleTopology_manual {R} (decode : string -> option R) slotOf op disk invalidate c slot req path body (a : AdminNode (N := N)) :
  srvAutomatic srv = false -> srvEnabled srv = true -> decode body = Some req -> slotOf req = slot ->
  (forall n, perform cfg invalidate c n = '(r, n) ← op req n; answerTopology slot r n) ->
  handleTopology srv decode slotOf op disk (unsigned path body) a = '(resp, n) ← perform cfg invalidate c (anNode a); Some (resp, mkAdmin n (anFence a)).
Proof.
  intros Ha He Hd Hs Hp. unfold handleTopology, prepareControllerAuthorization. cbn [Method unsigned Body String.eqb Ascii.eqb Bool.eqb negb]. rw Ha Hd He.
  cbn [negb beginControllerOperation]. rw Hp. destruct (op req (anNode a)) as [[r n]|]; [|done]. cbn [mbind option_bind]. by rw answerTopology_run Hs.
Qed.
Lemma handleTopology_refused {R} (decode : string -> option R) slotOf op disk path body (a : AdminNode (N := N)) :
  srvAutomatic srv = true -> fenceOpen srv = true -> slen body <= maxJSONBodyBytes ->
  handleTopology srv decode slotOf op disk (unsigned path body) a = Some (Refused 403 automaticManagementError, a).
Proof.
  intros Ha Hf Hl. unfold handleTopology, prepareControllerAuthorization. cbn [Method unsigned Body URLPath IndexHeader SignatureHeader String.eqb Ascii.eqb Bool.eqb negb].
  rw Ha Hf. cbn [negb]. destruct (Z.ltb_spec maxJSONBodyBytes (slen body)); [lia|]. by destruct (Verify _ _ _ _ _ _).
Qed.
Lemma served args c disk invalidate (a : AdminNode (N := N)) : asksFor args = Some c -> words_ok args c ->
  (srvAutomatic srv = false -> srvEnabled srv = true ->
    serveAdmin srv cfg disk invalidate (unsigned (callPath c) (ctlBody args)) a =
    '(resp, n) ← perform cfg invalidate c (anNode a); Some (encodeResponse (wMeta (engHook n)) resp, mkAdmin n (anFence a))) /\
  (srvAutomatic srv = true -> fenceOpen srv = true ->
    serveAdmin srv cfg disk invalidate (unsigned (callPath c) (ctlBody args)) a =
    Some (encodeResponse (wMeta (engHook (anNode a))) (Refused 403 automaticManagementError), a)).
Proof.
  intros Ha [Hl Hc]. destruct (asksFor_endpoint _ _ Ha) as (slot & body & He & Hr & Hb).
  assert (Hbody : ctlBody args = body) by (unfold ctlBody; by rw He). rw Hbody in Hl *.
  unfold serveAdmin. destruct c as [s|s id|s id| |]; try done; destruct Hb as [-> Hb]; cbn [callPath unsigned Method URLPath String.eqb Ascii.eqb Bool.eqb].
  - subst body. unfold handleClusterPromote. split; [intros Hm Hen|intros Hm Hf; by rw handleTopology_refused].
    rw (handleTopology_manual _ _ _ _ invalidate (CallPromote slot) slot slot) //; [by apply decode_promoteBody|apply EM_bind_answer|]. by destruct (perform _ _ _ _) as [[]|].
  - subst body. destruct Hc as [Hu Hne]. unfold handleClusterReplica. split; [intros Hm Hen|intros Hm Hf; by rw handleTopology_refused].
    rw (handleTopology_manual _ _ _ _ invalidate (CallAssignReplica slot id) slot (slot, id)) //; [|apply EM_bind_answer|by destruct (perform _ _ _ _) as [[]|]].
    rw decode_assignPayload //. cbn. by destruct (String.eqb_spec id "").
  - assert (Hd : decodeReplicaRequest body = Some (slot, id)) by (destruct Hb as [->|[-> ->]]; [by apply decode_assignPayload|by apply decode_slotPayload]).
    unfold handleClusterSync. split; [intros Hm Hen|intros Hm Hf; by rw handleTopology_refused].
    rw (handleTopology_manual _ _ _ _ invalidate (CallSyncReplica slot id) slot (slot, id)) //. by destruct (perform _ _ _ _) as [[]|].
Qed.
End carries.

(** ** What is printed *)

(** The same JSON value, but for the order of the members of its objects. *)
Inductive same_value : Json -> Json -> Prop :=
  | same_atom j : same_value j j
  | same_arr js js' : Forall2 same_value js js' -> same_value (JArr js) (JArr js')
  | same_obj ms ms1 ms2 : Forall2 (fun p q => p.1 = q.1 /\ same_value p.2 q.2) ms ms1 -> ms1 ≡ₚ ms2 -> same_value (JObj ms) (JObj ms2).

(** Integers that a [float64] holds, UTF-8 texts, no name twice, nested at most [d] deep. *)
Fixpoint printable (d : nat) (j : Json) : Prop :=
  match j, d with
  | JNum text, _ => exists n, 0 <= n < 2 ^ 52 /\ text = FormatUint n
  | JStr s, _ => utf8 s
  | JArr js, S d => Forall (printable d) js
  | JObj ms, S d => NoDup ms.*1 /\ Forall (fun m => utf8 m.1 /\ printable d m.2) ms
  | JArr _, O | JObj _, O => False
  | _, _ => True
  end.
Lemma encFloat_int n : 0 <= n < 2 ^ 52 -> encFloat (floatOfInt n) = Some (JNum (FormatUint n)).
Proof.
  intros Hn. rewrite <- (FormatFloat_int n Hn). destruct (Z.eq_dec n 0) as [->|Hne]; [done|]. destruct (floatOfInt_shift n ltac:(lia)) as (s & m & Hf & Hs & _).
  rw Hf. unfold encFloat. destruct (ratio m (- s)). 
  assert (H1 : exists m1 e1, decFloat false 1 (-6) = S754_finite false m1 e1 /\ e1 < -53) by (eexists _, _; split; [vm_compute; reflexivity|lia]).
  assert (H2 : exists m2 e2, decFloat false 1 21 = S754_finite false m2 e2 /\ 0 < e2) by (eexists _, _; split; [vm_compute; reflexivity|lia]).
  destruct H1 as (m1 & e1 & -> & H1), H2 as (m2 & e2 & -> & H2). unfold fltb, SFltb, SFcompare.
  destruct (Z.compare_spec (- s) e1); [lia|lia|]. destruct (Z.compare_spec (- s) e2); [lia| |lia]. done.
Qed.
Lemma throughAny_num n : 0 <= n < 2 ^ 52 -> throughAny (JNum (FormatUint n)) = Some (JNum (FormatUint n)).
Proof. intros Hn. cbn [throughAny]. rw ParseFloat_FormatUint; [unfold maxUint64; lia|]. by apply encFloat_int. Qed.
Lemma printed_members d ms :
  (forall j, printable d j -> exists j', throughAny j = Some j' /\ same_value j j' /\ faithful d j') ->
  Forall (fun m => utf8 m.1 /\ printable d m.2) ms -> NoDup ms.*1 ->
  exists j', throughAny (JObj ms) = Some j' /\ same_value (JObj ms) j' /\ faithful (S d) j'.
Proof.
  intros IH Hms Hn. cbn [throughAny].
  set (go := fix go ms (m : gmap string Json) := match ms with [] => Some m | (k, j) :: ms => x ← throughAny j; go ms (<[k := x]> m) end).
  assert (Hgo : exists ms1, Forall2 (fun p q => p.1 = q.1 /\ same_value p.2 q.2) ms ms1 /\ Forall (fun m => utf8 m.1 /\ faithful d m.2) ms1 /\ ms1.*1 = ms.*1 /\
    forall m, go ms m = Some (list_to_map (reverse ms1) ∪ m)).
  { induction Hms as [|[k j] ms [Hk Hj] Hms IHm]; [exists []; split; [done|]; split; [done|]; split; [done|]; intros m; by rw left_id_L|].
    apply NoDup_cons in Hn as [Hni Hn]. destruct (IHm Hn) as (ms1 & Hs & Hf & He & Hg). destruct (IH j Hj) as (j' & Hj' & Hsj & Hfj).
    exists ((k, j') :: ms1). split; [by constructor|]. split; [by constructor|]. split; [cbn; by f_equal|]. intros m. cbn [go]. rw Hj'. cbn [mbind option_bind].
    fold go. rw Hg reverse_cons list_to_map_app. f_equal. cbn [list_to_map foldr]. rw -assoc_L -insert_union_singleton_l. cbn. done. }
  destruct Hgo as (ms1 & Hs & Hf & He & Hg). rw Hg right_id_L. cbn [fmap option_fmap option_map].
  destruct (encMap_list id id (list_to_map (reverse ms1) : gmap string Json)) as (l & -> & Hl).
  assert (Hp : l ≡ₚ ms1). { rw Hl map_to_list_to_map; [|apply reverse_Permutation]. rw fmap_reverse He. by rw reverse_Permutation. }
  assert (Hid : map (fun p : string * Json => (id p.1, id p.2)) l = l) by (clear; induction l as [|[] l IH]; [done|by cbn; f_equal]).
  eexists. split; [reflexivity|]. rw Hid. split; [by eapply same_obj; [exact Hs|]|]. apply faithful_obj. by rw Hp.
Qed.
Lemma throughAny_printable d j : printable d j -> exists j', throughAny j = Some j' /\ same_value j j' /\ faithful d j'.
Proof.
  revert j. induction d as [|d IH]; intros [|b|text|s|js|ms] Hj; cbn [printable] in Hj; try done.
  all: try (eexists; split; [reflexivity|]; split; [constructor|]; first [by apply faithful_str|by apply faithful_bool|split; cbn; [done|done|lia]]).
  1,2: destruct Hj as (n & Hn & ->); eexists; split; [by apply throughAny_num|]; split; [constructor|]; apply (faithful_uint _ n); unfold maxUint64; lia.
  - cbn [throughAny]. set (go := fix go js := match js with [] => Some [] | j :: js => x ← throughAny j; y ← go js; Some (x :: y) end).
    assert (Hgo : exists js', go js = Some js' /\ Forall2 same_value js js' /\ Forall (faithful d) js').
    { induction Hj as [|j js Hj Hjs IHj]; [by exists []|]. destruct IHj as (js' & Hg & Hs & Hf), (IH j Hj) as (j' & Hj' & Hsj & Hfj).
      exists (j' :: js'). cbn [go]. rw Hj'. cbn [mbind option_bind]. fold go. rw Hg. split; [done|]. split; by constructor. }
    destruct Hgo as (js' & -> & Hs & Hf). eexists. split; [reflexivity|]. split; [by constructor|by apply faithful_arr].
  - destruct Hj. by apply printed_members.
Qed.
Lemma printable_faithful d j : printable d j -> faithful d j.
Proof.
  revert j. induction d as [|d IH]; intros [|b|text|s|js|ms] Hj; cbn [printable] in Hj; try done.
  all: try first [by apply faithful_str|by apply faithful_bool|split; cbn; [done|done|lia]].
  1,2: destruct Hj as (n & Hn & ->); apply (faithful_uint _ n); unfold maxUint64; lia.
  - apply faithful_arr. eapply Forall_impl; [exact Hj|done].
  - apply faithful_obj. eapply Forall_impl; [exact (proj2 Hj)|]. intros m [? ?]. split; [done|by apply IH].
Qed.
Lemma prettyBody_prints d ms : (d <= 100)%nat -> printable d (JObj ms) -> exists j,
  parseJson (prettyBody (printJson (JObj ms) +:+ LF)) = Some j /\ same_value (JObj ms) j.
Proof.
  intros Hd Hp. destruct (printable_faithful _ _ Hp) as [Hok Hv Hde], (throughAny_printable _ _ Hp) as (j & Hj & Hs & [Hok' Hv' Hd']).
  exists j. split; [|done]. unfold prettyBody. unfold printJson. rw parse_render //; [unfold maxNestingDepth; lia|]. rw Hv Hj parse_indent //; [unfold maxNestingDepth; lia|]. by rw Hv'.
Qed.

(** The JSON of an answer. *)
Definition answerJson (m : Metadata) (r : AdminResponse) : Json :=
  match r with
  | Refused _ text => errorJson text
  | AdminDone metadataVersion slot failedPeers => adminDoneJson m metadataVersion slot failedPeers
  | ReturningState r => returningJson r
  end.
(** Its texts are UTF-8 and its counters below 2^52. *)
Definition response_ok (r : AdminResponse) : Prop :=
  match r with
  | Refused _ text => utf8 text
  | AdminDone metadataVersion slot failedPeers =>
      0 <= metadataVersion < 2 ^ 52 /\ wire_slot slot /\ Term slot < 2 ^ 52 /\ LastSequence slot < 2 ^ 52 /\ LastAppliedSequence slot < 2 ^ 52 /\ Forall utf8 failedPeers
  | ReturningState _ => False
  end.
Lemma printable_uint d n : 0 <= n < 2 ^ 52 -> printable d (encUint n).
Proof. intros Hn. destruct d; by exists n. Qed.
Lemma printable_str d s : utf8 s -> printable d (JStr s).
Proof. by destruct d. Qed.
Lemma printable_bool d b : printable d (JBool b).
Proof. by destruct d. Qed.
Lemma printable_obj d ms : NoDup ms.*1 -> Forall (fun m => utf8 m.1 /\ printable d m.2) ms -> printable (S d) (JObj ms).
Proof. by intros. Qed.
Ltac fields := repeat first [apply Forall_nil_2|apply Forall_cons_2; [split; [reflexivity|first [apply printable_uint; lia|apply printable_str; assumption|apply printable_bool|assumption]]|]].
Lemma printable_slot d m s : wire_slot s -> Term s < 2 ^ 52 -> LastSequence s < 2 ^ 52 -> LastAppliedSequence s < 2 ^ 52 -> printable (S d) (slotStatusJson m s).
Proof.
  intros [Hl Hr Hn Ht Hs Ha] ? ? ?. pose proof (utf8_LocalRole m s). unfold slotStatusJson, omitString.
  destruct (String.eqb _ ""); cbn [app]; apply printable_obj; [apply (bool_decide_unpack _); vm_compute; exact I|fields|apply (bool_decide_unpack _); vm_compute; exact I|fields].
Qed.
Lemma printable_answer m r : response_ok r -> exists ms, answerJson m r = JObj ms /\ printable 3 (JObj ms).
Proof.
  destruct r as [status text|version slot failed|r]; [| |done]; cbn [response_ok answerJson]; intros Hr; eexists; (split; [reflexivity|]); apply printable_obj.
  - apply (bool_decide_unpack _). vm_compute. exact I.
  - fields.
  - unfold omitList. destruct failed; apply (bool_decide_unpack _); vm_compute; exact I.
  - destruct Hr as (Hv & Hw & Ht & Hs & Ha & Hf). pose proof (printable_slot 1 m slot Hw Ht Hs Ha). apply Forall_app. split; [fields|].
    unfold omitList. destruct failed as [|x failed]; [done|]. apply Forall_cons_2; [|done]. split; [done|]. apply Forall_map. eapply Forall_impl; [exact Hf|]. by intros y.
Qed.
Lemma ctlAnswer_prints m r : (match r with Refused status _ => status = 400 \/ status = 500 | _ => True end) -> exists output,
  ctlAnswer (encodeResponse m r) = CtlAnswered (match r with Refused _ _ => 1 | _ => 0 end) output /\
  (response_ok r -> exists j, parseJson output = Some j /\ same_value (answerJson m r) j).
Proof.
  intros Hs. exists (prettyBody (printJson (answerJson m r) +:+ LF)). split.
  - destruct r as [status text|version slot failed|r]; [|done|done]. by destruct Hs as [-> | ->].
  - intros Hr. destruct (printable_answer m r Hr) as (ms & -> & Hp). by apply (prettyBody_prints 3); [lia|].
Qed.
Lemma topology_answer `{Env, SliceSort, Texts, JSON} {N : Type} `{Net N} (cfg : NodeConfig) invalidate args c (n n' : Eng (World N)) resp :
  asksFor args = Some c -> perform cfg invalidate c n = Some (resp, n') ->
  match resp with Refused status _ => status = 400 \/ status = 500 | AdminDone _ _ _ => True | ReturningState _ => False end.
Proof.
  intros Ha. destruct (asksFor_endpoint _ _ Ha) as (slot & body & _ & _ & Hc).
  destruct c; try done; cbn [perform]; intros (r & n1 & _ & Hr)%EM_bind_inv; rw answerTopology_run in Hr; injection Hr as <- _;
    unfold writeClusterAdminResult; repeat case_match; simplify_eq; auto.
Qed.

(** C19: A topology command of the command line, sent to a node of a cluster,
    does there in manual mode exactly what its words ask for: the node and its
    answer are those of the operation itself, and the fence is not touched.  The
    exit code is 0 when the change was made and 1 when it was refused.  What is
    printed reads back as the node's JSON answer, up to the order of members, when
    its texts are UTF-8 and its counters are below 2^52 (a larger counter may be
    printed rounded).  A node that panics gives no answer.  In automatic mode, with
    the fence open, the command is refused: the node is as before, the node's error
    is printed, and the exit code is 1.  The conditions: the base address is one
    that [url.Parse] keeps in front of a path, a node name is UTF-8 and not empty
    in an assignment, and the request body has at most 1 MB. *)
Theorem adminctl_exact `{Env, SliceSort, Texts, JSON} {N : Type} `{Net N} `{Crypto} `{RequestURLs} (srv : ServerConfig) (cfg : NodeConfig)
    disk invalidate host port args c (a : AdminNode (N := N)) :
  base_ok ("http://" +:+ host +:+ ":" +:+ FormatInt port) -> asksFor args = Some c -> words_ok args c ->
  let main := @ctlMain _ _ (direct srv cfg disk invalidate) host port args (Some a) in
  (srvAutomatic srv = false -> srvEnabled srv = true ->
    match perform cfg invalidate c (anNode a) with
    | Some (resp, n) => exists output,
        main = (CtlAnswered (match resp with Refused _ _ => 1 | _ => 0 end) output, Some (mkAdmin n (anFence a))) /\
        (response_ok resp -> exists j, parseJson output = Some j /\ same_value (answerJson (wMeta (engHook n)) resp) j)
    | None => main = (CtlNoAnswer "EOF", None)
    end) /\
  (srvAutomatic srv = true -> fenceOpen srv = true -> exists output,
    main = (CtlAnswered 1 output, Some a) /\ parseJson output = Some (errorJson automaticManagementError)).
Proof.
  intros Hb Ha Hw. destruct (asksFor_request _ _ _ Hb Ha) as [Hr Hne]. destruct (served srv cfg args c disk invalidate a Ha Hw) as [Hm Hau].
  cbv zeta. unfold ctlMain. destruct args as [|command words]; [done|]. rw Hr. unfold roundTrip, direct. cbn [ctlHTTP mbind option_bind].
  change (mkHTTP "POST" ?p ?b "" "") with (unsigned p b). split; intros H1' H2'.
  - rw Hm //. destruct (perform _ _ _ _) as [[resp n]|] eqn:Hp; [|done]. cbn [mbind option_bind].
    apply topology_answer with (1 := Ha) in Hp. destruct (ctlAnswer_prints (wMeta (engHook n)) resp) as (output & Ho & Hj); [by destruct resp|].
    exists output. by rw Ho.
  - rw Hau //. exists (prettyBody (printJson (errorJson automaticManagementError) +:+ LF)). split; [done|]. vm_compute. reflexivity.
Qed.

#[local] Existing Instances steadyEnv plainTexts emptyJSON plainCrypto.
Definition manualServer : ServerConfig := mkServerConfig true false "" false "c" 4.
Definition localURLs : RequestURLs := fun url => Some (sdrop 21 url).
Lemma adminctl_exact_witness : exists a' output j,
  @ctlMain localURLs _ (direct manualServer (nodeOf "b") None (inl 0)) "127.0.0.1" 7381 ["cluster-promote"; "1"] (Some wireNode) =
    (CtlAnswered 0 output, Some a') /\ anFence a' = anFence wireNode /\
  parseJson output = Some j /\ same_value (adminDoneJson (wMeta (engHook (anNode a'))) 2 promotedSlot ["a"]) j.
Proof.
  assert (Hrun : exists n, perform (nodeOf "b") (inl 0) (CallPromote 1) (anNode wireNode) = Some (AdminDone 2 promotedSlot ["a"], n)) by (eexists; vm_compute; reflexivity).
  destruct Hrun as (n & Hn).
  destruct (@adminctl_exact _ _ _ _ _ _ _ localURLs manualServer (nodeOf "b") None (inl 0) "127.0.0.1" 7381 ["cluster-promote"; "1"] (CallPromote 1) wireNode) as [Hm _].
  - intros path [-> |[-> |[-> |[]%not_elem_of_nil]%elem_of_cons]%elem_of_cons]%elem_of_cons; reflexivity.
  - reflexivity.
  - split; [vm_compute; discriminate|exact I].
  - specialize (Hm eq_refl eq_refl). rw Hn in Hm. destruct Hm as (output & Hmain & Hj). destruct Hj as (j & Hj & Hs).
    { split; [lia|]. split; [constructor; [reflexivity|reflexivity|cbn; unfold maxUint64; lia..]|]. do 3 (split; [cbn; lia|]). repeat constructor. }
    exists (mkAdmin n (anFence wireNode)), output, j. split; [exact Hmain|]. split; [reflexivity|]. by split.
Defined.

(** Numbers pass through [float64], so large counters are printed rounded. *)
Theorem adminctl_rounds : parseJson (prettyBody (printJson (JObj [("metadataVersion", encUint 9007199254740993)]))) = Some (JObj [("metadataVersion", encUint 9007199254740992)]).
Proof. vm_compute. reflexivity. Qed.
