(* ===== verification/NodeMain.v ===== *)
(** * The process of a node: [cmd/node/main.go]

    [main] puts the components together, loads the data, starts the background
    work, opens the two sockets, waits, and takes everything down again.  The
    process has the directory of the controller with the marker and the fence
    ([FenceFile]), the engine with its metadata and the snapshot directory
    ([Persistence]), and the network of a clustered node ([Cluster]).  What the
    sockets serve is modelled by [Node], [Cluster] and [Api]; how the start of the
    controller and the wait end is given by the class [Outside]. *)
From S2P Require Import Config.
From S2P Require Import Prelude Encoding GoText GoTime Eviction Store StoreSpec Executor Engine Snapshot SnapshotSpec Metadata MetadataSpec SnapshotFile Persistence PersistenceSpec Durability.
From S2P Require Import Server Cluster ClusterSpec AdminNode FenceFile FenceSpec Planner Boot.
Local Open Scope Z_scope.

(** ** The process *)

(** What [main] waits for. *)
Inductive StopReason := Signalled | ServerExited (err : option string) | APIExited (err : option string).
(** Serving is a goroutine that listens and accepts; it may end with an error. *)
Inductive MainAct :=
  | RequiredAdmission
  | DataLoaded
  | FenceOpened
  | ClusterStarted
  | ControllerStarted
  | SnapshotsStarted
  | ServingRESP
  | ServingAPI
  | Stopping (reason : StopReason)
  | StoppedRESP
  | StoppedAPI
  | StoppedController
  | StoppedCluster
  | WaitedForSnapshots.
#[export] Instance StopReason_eq_dec : EqDecision StopReason.
Proof. solve_decision. Defined.
#[export] Instance MainAct_eq_dec : EqDecision MainAct.
Proof. solve_decision. Defined.
Class Outside := { controllerStart : option string; stopReason : StopReason }.

Record Process (N : Type) := mkProcess {
  prRaft : FS;
  prData : PState;
  prAdmitted : bool;
  prConns : gmap string string;
  prNet : N;
  prFence : option (fenceState + FSErr);
  prActs : list MainAct
}.
Arguments mkProcess {N}.
Arguments prRaft {N}.
Arguments prData {N}.
Arguments prAdmitted {N}.
Arguments prConns {N}.
Arguments prNet {N}.
Arguments prFence {N}.
Arguments prActs {N}.

(** An error is one that [log.Fatalf] ends the process with; [None] is a panic. *)
Definition NM (N A : Type) : Type := Process N -> option ((A + string) * Process N).
#[export] Instance NM_ret {N} : MRet (NM N) := fun A a p => Some (inl a, p).
#[export] Instance NM_bind {N} : MBind (NM N) := fun A B f m p =>
  match m p with Some (inl a, p) => f a p | Some (inr e, p) => Some (inr e, p) | None => None end.

Section main.
Context `{Env, SliceSort, Texts, JSON} {N : Type} `{Net N} `{Crypto, Gob, Faults, Outside} (c : Config.Config).

Definition nodeName : string := Config.NodeID (Config.Node c).
Definition nodeConfigOf : NodeConfig :=
  mkNodeConfig nodeName (cfgPeers (clusterOf c)) (Config.MemoryLimitBytes (Config.Engine c))
    (PolicyByName (Config.EvictionPolicy (Config.Engine c))) (Config.ReplicationEnabled (Config.Cluster c)).

(** The components before anything is loaded; [NewMetadata] can panic. *)
Definition newProcess (raft : FS) (snapshots : Disk) (t : nat) (n : N) : option (Process N) :=
  meta ← (if Config.ClusterEnabled (Config.Cluster c) then Some <$> NewMetadata (clusterOf c) nodeName else Some None);
  Some (mkProcess raft (mkPState (mkSys (NewStore (Config.StripeCount (Config.Engine c))) t) meta snapshots 0 []) true ∅ n None []).

Definition act (a : MainAct) : NM N unit := fun p =>
  Some (inl tt, mkProcess (prRaft p) (prData p) (prAdmitted p) (prConns p) (prNet p) (prFence p) (prActs p ++ [a])).
Definition fsErrText (e : FSErr) : string := match e with OSError text => text | NotExist => "file does not exist" | Exist => "file already exists" end.
Definition onRaft {A} (text : string) (m : F A) : NM N A := fun p =>
  let '(r, raft) := m (prRaft p) in
  Some (match r with inl a => inl a | inr e => inr (text +:+ ": " +:+ fsErrText e) end,
        mkProcess raft (prData p) (prAdmitted p) (prConns p) (prNet p) (prFence p) (prActs p)).
Definition setProcessAdmitted (b : bool) : NM N unit := fun p =>
  Some (inl tt, mkProcess (prRaft p) (prData p) b (prConns p) (prNet p) (prFence p) (prActs p)).
(** The texts of the errors of a restore are not written out. *)
Definition onData {A} (text : string) (m : P A) : NM N A := fun p =>
  match m (prData p) with
  | None => None
  | Some (r, data) =>
      Some (match r with inl a => inl a | inr _ => inr text end, mkProcess (prRaft p) data (prAdmitted p) (prConns p) (prNet p) (prFence p) (prActs p))
  end.

(** ** Start *)

Definition markNode : NM N bool :=
  if automatic c then
    returning ← onRaft "data-node lifecycle" MarkDataNodeInitialized;
    _ ← (if (returning : bool) then _ ← setProcessAdmitted false; act RequiredAdmission else mret tt);
    mret returning
  else mret false.
(** A snapshot is loaded if it is configured and the node does not return. *)
Definition loads (returning : bool) : bool := PEnabled (persistenceOf c) && LoadOnStart (persistenceOf c) && negb returning.
Definition loadData (returning : bool) : NM N unit :=
  _ ← onData "persistence: restore" (loadOnStart (persistenceOf c) nodeName (Config.MemoryLimitBytes (Config.Engine c)) returning);
  if loads returning then act DataLoaded else mret tt.
(** [api.New] opens the fence; its error is kept for [Start]. *)
Definition openFence : NM N unit :=
  if automatic c then fun p =>
    let '(r, raft) := OpenFenceStore (Config.RaftDir (Config.Controller (Config.Cluster c))) (prRaft p) in
    act FenceOpened (mkProcess raft (prData p) (prAdmitted p) (prConns p) (prNet p) (Some r) (prActs p))
  else mret tt.
Definition processWorld (m : Metadata) (p : Process N) : World N := mkWorld m (prAdmitted p) (prConns p) (prNet p).
(** [Manager.Start] of the cluster. *)
Definition startCluster : NM N unit := fun p =>
  match pMeta (prData p) with
  | Some m =>
      if Config.ClusterEnabled (Config.Cluster c) then
        let w := syncMetadata nodeConfigOf (nodePeers nodeConfigOf) (processWorld m p) in
        let d := prData p in
        act ClusterStarted (mkProcess (prRaft p) (mkPState (pSys d) (Some (wMeta w)) (pDisk d) (pStep d) (pTrace d)) (admitted w) (conns w) (wNet w) (prFence p) (prActs p))
      else Some (inl tt, p)
  | None => Some (inl tt, p)
  end.
Definition startController : NM N unit :=
  if automatic c then
    match controllerStart with Some e => fun p => Some (inr ("controller: start: " +:+ e), p) | None => act ControllerStarted end
  else mret tt.
(** [Manager.Start] of the snapshots. *)
Definition startSnapshots : NM N unit :=
  if negb (PEnabled (persistenceOf c)) || (SnapshotIntervalSec (persistenceOf c) <=? 0) then mret tt else act SnapshotsStarted.
(** [Server.Start] of the API fails when the fence could not be opened. *)
Definition serveAPI : NM N unit := fun p =>
  match prFence p with Some (inr _) => Some (inl tt, p) | _ => act ServingAPI p end.

Definition prepareNode : NM N unit :=
  returning ← markNode;
  _ ← loadData returning;
  _ ← openFence;
  _ ← startCluster;
  _ ← startController;
  startSnapshots.
Definition nodeStart : NM N unit :=
  _ ← prepareNode;
  _ ← act ServingRESP;
  serveAPI.

(** ** Stop *)

(** The signal, or the end of one of the two servers, cancels the context. *)
Definition nodeStop : NM N unit :=
  _ ← act (Stopping stopReason);
  _ ← act StoppedRESP;
  _ ← act StoppedAPI;
  _ ← (if automatic c then act StoppedController else mret tt);
  _ ← act StoppedCluster;
  act WaitedForSnapshots.
End main.

(** [main]: the configuration is read before anything else. *)
Definition nodeMain `{Env, SliceSort, Texts, JSON} {N : Type} `{Net N} `{Crypto, Gob, Faults, Outside, Config.ConfigFile}
    (path : string) (raft : FS) (snapshots : Disk) (t : nat) (n : N) : option ((unit + string) * option (Process N)) :=
  match Config.Load path with
  | inr _ => Some (inr "config", None)
  | inl c =>
      p ← newProcess c raft snapshots t n;
      '(r, p) ← (_ ← nodeStart c; nodeStop c) p;
      Some (r, Some p)
  end.

(** The node behind the sockets of a clustered process. *)
Definition servedNode {N} (m : Metadata) (p : Process N) : Eng (World N) := mkEng (pSys (prData p)) (processWorld m p) [].
