(* ===== verification/NodeMainSpec.v ===== *)
(** * How a node comes back

    A node of a cluster with automatic failover that has run before starts
    without data and refuses clients until the controller admits it; any other
    node loads the newest snapshot before it opens a socket. *)
From S2P Require Import Config.
From S2P Require Import Prelude Encoding GoText GoTime Eviction Store StoreSpec Executor Engine Snapshot SnapshotSpec Metadata MetadataSpec SnapshotFile Persistence PersistenceSpec Durability.
From S2P Require Import Resp Server Cluster ClusterSpec AdminNode FenceFile FenceSpec Planner Boot NodeClient NodeMain.
Local Open Scope Z_scope.

Definition marked (d : Disk) : bool := present d dataNodeInitializedMarker.
(** The words that nodes use among themselves. *)
Definition internalCommands : list string := ["REPLICATE"; "CLUSTERMETA"; "CLUSTERAPPLY"; "CLUSTERSNAPSHOT"; "FLUSHDB"; "FLUSHALL"].

Section spec.
Context `{Env, SliceSort, Texts, JSON} {N : Type} `{Net N} `{Crypto, Gob, Faults, Outside} (c : Config.Config).

Lemma NM_bind_inv {A B} (m : NM N A) (k : A -> NM N B) p r p' : (m ≫= k) p = Some (r, p') ->
  (exists a p1, m p = Some (inl a, p1) /\ k a p1 = Some (r, p')) \/ (exists e, m p = Some (inr e, p') /\ r = inr e).
Proof. unfold mbind, NM_bind. destruct (m p) as [[[a|e] p1]|]; [intros Hk; left; by exists a, p1|intros [= <- <-]; right; by exists e|done]. Qed.
Lemma NM_bind_ok {A B} (m : NM N A) (k : A -> NM N B) p b p' : (m ≫= k) p = Some (inl b, p') ->
  exists a p1, m p = Some (inl a, p1) /\ k a p1 = Some (inl b, p').
Proof. intros [Hk|(e & _ & [=])]%NM_bind_inv. done. Qed.

(** ** What the steps leave alone *)

Lemma Forward_admitted (cfg : NodeConfig) id cmd (w : World N) : admitted (Forward cfg id cmd w).2 = admitted w.
Proof. unfold Forward, Cluster.roundTrip, getConn. repeat case_match; simplify_eq/=; done. Qed.
Lemma syncMetadata_admitted (cfg : NodeConfig) ps (w : World N) : admitted (syncMetadata cfg ps w) = admitted w.
Proof.
  revert w. induction ps as [|peer ps IH]; intros w; [done|]. cbn [syncMetadata]. destruct (String.eqb _ _); [apply IH|].
  pose proof (Forward_admitted cfg (PeerID peer) (mkCommand "CLUSTERMETA" []) w) as Hf. destruct (Forward _ _ _ w) as [r w1]. cbn [snd] in Hf.
  repeat case_match; rw IH; done.
Qed.

Definition background (a : MainAct) : Prop := a ∈ [RequiredAdmission; DataLoaded; FenceOpened; ClusterStarted; ControllerStarted; SnapshotsStarted].
Record quiet (p p' : Process N) : Prop := {
  qt_sys : pSys (prData p') = pSys (prData p);
  qt_disk : pDisk (prData p') = pDisk (prData p);
  qt_admitted : prAdmitted p' = prAdmitted p;
  qt_marked : marked (fsDisk (prRaft p')) = marked (fsDisk (prRaft p));
  qt_raft : automatic c = false -> prRaft p' = prRaft p;
  qt_acts : exists l, prActs p' = prActs p ++ l /\ Forall background l
}.
Lemma quietly_refl p : quiet p p.
Proof. split; try done. exists []. by rw app_nil_r. Qed.
Lemma quietly_trans p1 p2 p3 : quiet p1 p2 -> quiet p2 p3 -> quiet p1 p3.
Proof.
  intros [H1' H2' H3' H4' H5' (l & Hl & Hf)] [G1 G2 G3 G4 G5 (l' & Hl' & Hf')]. split; try congruence.
  - intros Ha. by rw G5 // H5'.
  - exists (l ++ l'). rw Hl' Hl app_assoc. split; [done|]. by apply Forall_app.
Qed.
Lemma quiet_act a p r p' : background a -> act a p = Some (r, p') -> quiet p p'.
Proof. intros Ha [= _ <-]. split; try done. exists [a]. split; [done|by constructor]. Qed.
Lemma marked_mkdir d : marked (Some (default ∅ d)) = marked d.
Proof. by destruct d. Qed.
Lemma openFence_marked dir s : marked (fsDisk (OpenFenceStore dir s).2) = marked (fsDisk s).
Proof.
  unfold OpenFenceStore. destruct (String.eqb dir ""); [done|]. unfold mbind, F_bind, wrapF, attemptF. rw mkdirAll_run.
  destruct (fault (fsStep s)); [done|]. rw readFile_run. cbn [fsDisk fsStep fsTrace].
  destruct (fault (S (fsStep s))); [apply marked_mkdir|]. unfold failF. repeat case_match; simplify_eq/=; apply marked_mkdir.
Qed.
Lemma quiet_openFence p r p' : openFence c p = Some (r, p') -> quiet p p'.
Proof.
  unfold openFence. destruct (automatic c) eqn:Ha; [|by intros [= _ <-]; apply quietly_refl].
  pose proof (openFence_marked (Config.RaftDir (Config.Controller (Config.Cluster c))) (prRaft p)) as Hm. destruct (OpenFenceStore _ _) as [x raft]. intros [= _ <-].
  split; cbn; try done; [congruence|]. exists [FenceOpened]. split; [done|]. by repeat constructor.
Qed.
Lemma quiet_startCluster p r p' : startCluster c p = Some (r, p') -> quiet p p'.
Proof.
  unfold startCluster. destruct (pMeta (prData p)) as [m|]; [|by intros [= _ <-]; apply quietly_refl].
  destruct (Config.ClusterEnabled _); [|by intros [= _ <-]; apply quietly_refl]. intros [= _ <-]. split; cbn; try done; [apply syncMetadata_admitted|].
  exists [ClusterStarted]. split; [done|]. by repeat constructor.
Qed.
Lemma quiet_startController p r p' : startController c p = Some (r, p') -> quiet p p'.
Proof.
  unfold startController. destruct (automatic c); [|by intros [= _ <-]; apply quietly_refl].
  destruct controllerStart; [by intros [= _ <-]; apply quietly_refl|apply quiet_act]. by repeat constructor.
Qed.
Lemma quiet_startSnapshots p r p' : startSnapshots c p = Some (r, p') -> quiet p p'.
Proof. unfold startSnapshots. case_match; [by intros [= _ <-]; apply quietly_refl|apply quiet_act]. by repeat constructor. Qed.
Lemma quiet_bind {A} (m : NM N A) (k : A -> NM N unit) p r p' : (forall r p', m p = Some (r, p') -> quiet p p') ->
  (forall a p1 r p', k a p1 = Some (r, p') -> quiet p1 p') -> (m ≫= k) p = Some (r, p') -> quiet p p'.
Proof. intros Hm Hk [(a & p1 & H1' & H2')|(e & H1' & _)]%NM_bind_inv; [eapply quietly_trans; eauto|eauto]. Qed.
Lemma quiet_rest p r p' : (_ ← openFence c; _ ← startCluster c; _ ← startController c; startSnapshots c) p = Some (r, p') -> quiet p p'.
Proof.
  apply quiet_bind; [apply quiet_openFence|]. intros ? p1 r1 p1'. apply quiet_bind; [apply quiet_startCluster|].
  intros ? p2 r2 p2'. apply quiet_bind; [apply quiet_startController|]. intros ? p3 r3 p3'. apply quiet_startSnapshots.
Qed.

(** The first two steps. *)
Lemma markNode_ok (p : Process N) r p' : markNode c p = Some (r, p') ->
  prData p' = prData p /\ (exists l, prActs p' = prActs p ++ l /\ Forall background l) /\
  (automatic c = false -> p' = p /\ r = inl false) /\
  (automatic c = true -> forall returning, r = inl returning ->
     returning = marked (fsDisk (prRaft p)) /\ marked (fsDisk (prRaft p')) = true /\ prAdmitted p' = if returning then false else prAdmitted p).
Proof.
  unfold markNode. destruct (automatic c); [|intros [= <- <-]; split_and!; try done; exists []; by rw app_nil_r].
  unfold mbind, NM_bind, onRaft. destruct (MarkDataNodeInitialized (prRaft p)) as [[returning|e] raft] eqn:Hm; [|intros [= <- <-]; split_and!; try done; exists []; by rw app_nil_r].
  pose proof (marker_exact _ _ _ Hm) as [Hr Hp]. destruct returning; (intros [= <- <-]; cbn; split_and!; try done); try (by intros _ returning [= <-]).
  - exists [RequiredAdmission]. split; [done|]. by repeat constructor.
  - exists []. by rw app_nil_r.
Qed.

Lemma prepare_inv p r p' : prepareNode c p = Some (r, p') ->
  exists r1 p1, markNode c p = Some (r1, p1) /\
  match r1 with
  | inr e => r = inr e /\ p' = p1
  | inl returning =>
      exists r2 p2, loadData c returning p1 = Some (r2, p2) /\
      match r2 with
      | inr e => r = inr e /\ p' = p2
      | inl _ => quiet p2 p' /\ (_ ← openFence c; _ ← startCluster c; _ ← startController c; startSnapshots c) p2 = Some (r, p')
      end
  end.
Proof.
  unfold prepareNode. intros [(returning & p1 & Hm & Hk)|(e & Hm & ->)]%NM_bind_inv; [|by exists (inr e), p'].
  exists (inl returning), p1. split; [done|]. apply NM_bind_inv in Hk as [(u & p2 & Hd & Hk)|(e & Hd & ->)]; [|by exists (inr e), p'].
  exists (inl u), p2. split; [done|]. split; [by eapply quiet_rest|done].
Qed.
Lemma onData_outside {A} text (m : P A) (p p' : Process N) r : onData text m p = Some (r, p') ->
  prRaft p' = prRaft p /\ prAdmitted p' = prAdmitted p /\ prActs p' = prActs p.
Proof. unfold onData. destruct (m (prData p)) as [[x d]|]; [|done]. by intros [= _ <-]. Qed.
Lemma loadData_inv returning (p p' : Process N) r : loadData c returning p = Some (r, p') ->
  prRaft p' = prRaft p /\ prAdmitted p' = prAdmitted p /\
  (prActs p' = prActs p \/ prActs p' = prActs p ++ [DataLoaded]) /\
  (r = inl tt -> prActs p' = prActs p ++ (if loads c returning then [DataLoaded] else [])) /\
  exists r' p1, onData "persistence: restore" (loadOnStart (persistenceOf c) (nodeName c) (Config.MemoryLimitBytes (Config.Engine c)) returning) p = Some (r', p1) /\
    prData p' = prData p1.
Proof.
  unfold loadData. intros [(a & p1 & Hd & Hk)|(e & Hd & ->)]%NM_bind_inv.
  - pose proof (onData_outside _ _ _ _ _ Hd) as (Ho1 & Ho2 & Ho3). rewrite <- Ho1, <- Ho2, <- Ho3. destruct (loads c returning); injection Hk as <- <-; cbn; rw ?app_nil_r; split_and!; try done; try tauto; by exists (inl a), p1.
  - pose proof (onData_outside _ _ _ _ _ Hd) as (Ho1 & Ho2 & Ho3). split_and!; try done; [by left|]. by exists (inr e), p'.
Qed.
Lemma prepare_acts p r p' : prepareNode c p = Some (r, p') -> exists l, prActs p' = prActs p ++ l /\ Forall background l.
Proof.
  intros (r1 & p1 & Hm & H1')%prepare_inv. destruct (markNode_ok _ _ _ Hm) as (_ & (l & Hl & Hf) & _).
  destruct r1 as [returning|e]; [|destruct H1' as [_ ->]; by exists l].
  destruct H1' as (r2 & p2 & Hd & H2'). apply loadData_inv in Hd as (_ & _ & Ha & _).
  assert (exists l1, prActs p2 = prActs p ++ l1 /\ Forall background l1) as (l1 & Hl1 & Hf1).
  { destruct Ha as [->| ->]; [by exists l|]. exists (l ++ [DataLoaded]). rw Hl app_assoc. split; [done|]. apply Forall_app. split; [done|by repeat constructor]. }
  destruct r2 as [u|e]; [|destruct H2' as [_ ->]; by exists l1].
  destruct H2' as [[] _]. destruct qt_acts0 as (l' & Hl' & Hf'). exists (l1 ++ l'). rw Hl' Hl1 app_assoc. split; [done|]. by apply Forall_app.
Qed.
Lemma start_inv p r p' : nodeStart c p = Some (r, p') ->
  (exists p1, prepareNode c p = Some (inl tt, p1) /\ r = inl tt /\ prRaft p' = prRaft p1 /\ prData p' = prData p1 /\ prAdmitted p' = prAdmitted p1 /\
     prConns p' = prConns p1 /\ prNet p' = prNet p1 /\ ServingRESP ∈ prActs p') \/
  (exists e, prepareNode c p = Some (inr e, p') /\ r = inr e).
Proof.
  unfold nodeStart. intros [([] & p1 & Hp & Hk)|He]%NM_bind_inv; [left|by right]. exists p1. split; [done|].
  unfold mbind, NM_bind, serveAPI in Hk. unfold act in Hk. cbn [prFence] in Hk. repeat case_match; simplify_eq/=; split_and!; try done; cbn; rw !elem_of_app !list_elem_of_singleton; tauto.
Qed.

(** ** The order of a start *)

(** Loading does not make or lose the metadata of a node. *)
Definition keepsMeta {A} (m : P A) : Prop := forall s r s', m s = Some (r, s') -> pMeta s' = None <-> pMeta s = None.
Lemma keepsMeta_bind {A B} (m : P A) (k : A -> P B) : keepsMeta m -> (forall a, keepsMeta (k a)) -> keepsMeta (m ≫= k).
Proof.
  intros Hm Hk s r s'. unfold mbind, P_bind. destruct (m s) as [[[a|e] s1]|] eqn:H1'; [|intros [= <- <-]; by eapply Hm|done].
  intros H2'. rw (Hk a _ _ _ H2'). by eapply Hm.
Qed.
Lemma keepsMeta_ret {A} (a : A) : keepsMeta (mret a).
Proof. by intros s r s' [= <- <-]. Qed.
Lemma keepsMeta_fail {A} e : keepsMeta (failP e : P A).
Proof. by intros s r s' [= <- <-]. Qed.
Lemma keepsMeta_attempt {A} (m : P A) : keepsMeta m -> keepsMeta (attempt m).
Proof. intros Hm s r s'. unfold attempt. destruct (m s) as [[x s1]|] eqn:H1'; [|done]. intros [= <- <-]. by eapply Hm. Qed.
Lemma keepsMeta_os f : keepsMeta (os f).
Proof. intros s r s'. unfold os, osCall. destruct (fault _); by intros [= <- <-]. Qed.
Lemma keepsMeta_disk : keepsMeta getDisk.
Proof. by intros s r s' [= <- <-]. Qed.
Lemma keepsMeta_engine {A} (m : M A) : keepsMeta (onEngine m).
Proof. intros s r s'. unfold onEngine. destruct (m (pSys s)) as [[a w]|]; [|done]. by intros [= <- <-]. Qed.
#[local] Hint Resolve keepsMeta_bind keepsMeta_ret keepsMeta_fail keepsMeta_attempt keepsMeta_os keepsMeta_disk keepsMeta_engine : mnemo.
Lemma keepsMeta_readSnapshot name content format : keepsMeta (readSnapshot (nodeName c) name content format).
Proof.
  apply keepsMeta_bind; [auto with mnemo|]. intros [|]; [|auto with mnemo]. apply keepsMeta_bind; [auto with mnemo|]. intros read. apply keepsMeta_bind; [auto with mnemo|].
  intros closed. destruct read, closed; auto with mnemo. unfold checkModel. repeat case_match; auto with mnemo.
Qed.
Lemma keepsMeta_readAll entries : keepsMeta (readAll (nodeName c) entries).
Proof.
  induction entries as [|[name [content|]] entries IH]; cbn [readAll]; [auto with mnemo| |done]. destruct (formatForFilename name); [|done].
  apply keepsMeta_bind; [apply keepsMeta_readSnapshot|]. intros r. apply keepsMeta_bind; [done|]. intros [valid n]. auto with mnemo.
Qed.
Lemma keepsMeta_load returning : keepsMeta (loadOnStart (persistenceOf c) (nodeName c) (Config.MemoryLimitBytes (Config.Engine c)) returning).
Proof.
  unfold loadOnStart. destruct (_ && _ && _); [|auto with mnemo]. apply keepsMeta_bind; [apply keepsMeta_attempt|intros [|[]]; auto with mnemo].
  unfold RestoreLatest. destruct (negb _); [auto with mnemo|]. apply keepsMeta_bind.
  - unfold validSnapshots, ReadDir. apply keepsMeta_bind; [auto 6 with mnemo|]. intros [entries|]; [|auto with mnemo]. apply keepsMeta_bind; [apply keepsMeta_readAll|]. intros [valid n]. auto with mnemo.
  - intros [[|[path model] valid] n]; [auto with mnemo|]. apply keepsMeta_bind.
    + intros s r s'. unfold restoreMetadata. destruct (pMeta s) as [m|] eqn:Hm; [|intros [= <- <-]; by rw Hm]. destruct (String.eqb _ _); [intros [= <- <-]; by rw Hm|].
      destruct (RestoreSnapshot m _) as [[e|] m']; by intros [= <- <-].
    + intros []. apply keepsMeta_bind; [auto with mnemo|]. intros [|]; auto with mnemo.
Qed.

Definition snapshotsRun : bool := negb (negb (PEnabled (persistenceOf c)) || (SnapshotIntervalSec (persistenceOf c) <=? 0)).
(** What has happened before a socket is opened. *)
Definition startActs (returning : bool) : list MainAct :=
  (if returning then [RequiredAdmission] else []) ++ (if loads c returning then [DataLoaded] else []) ++
  (if automatic c then [FenceOpened] else []) ++ (if Config.ClusterEnabled (Config.Cluster c) then [ClusterStarted] else []) ++
  (if automatic c then [ControllerStarted] else []) ++ (if snapshotsRun then [SnapshotsStarted] else []).
Lemma markNode_acts (p : Process N) returning p' : markNode c p = Some (inl returning, p') ->
  prActs p' = prActs p ++ (if returning then [RequiredAdmission] else []).
Proof.
  unfold markNode. destruct (automatic c); [|intros [= <- <-]; by rw app_nil_r]. unfold mbind, NM_bind, onRaft.
  destruct (MarkDataNodeInitialized (prRaft p)) as [[[]|e] raft]; intros [= <- <-]; cbn; by rw ?app_nil_r.
Qed.
Lemma rest_acts (p p' : Process N) : (pMeta (prData p) = None <-> Config.ClusterEnabled (Config.Cluster c) = false) ->
  (_ ← openFence c; _ ← startCluster c; _ ← startController c; startSnapshots c) p = Some (inl tt, p') ->
  prActs p' = prActs p ++ (if automatic c then [FenceOpened] else []) ++ (if Config.ClusterEnabled (Config.Cluster c) then [ClusterStarted] else []) ++
    (if automatic c then [ControllerStarted] else []) ++ (if snapshotsRun then [SnapshotsStarted] else []).
Proof.
  intros Hmeta ([] & p1 & H1' & ([] & p2 & H2' & ([] & p3 & H3' & H4')%NM_bind_ok)%NM_bind_ok)%NM_bind_ok.
  assert (E1 : prActs p1 = prActs p ++ (if automatic c then [FenceOpened] else []) /\ pMeta (prData p1) = pMeta (prData p)).
  { unfold openFence in H1'. destruct (automatic c); [destruct (OpenFenceStore _ _) as [x raft]|]; injection H1' as <-; cbn; by rw ?app_nil_r. }
  destruct E1 as [E1 Em]. assert (E2 : prActs p2 = prActs p1 ++ (if Config.ClusterEnabled (Config.Cluster c) then [ClusterStarted] else [])).
  { unfold startCluster in H2'. rw Em in H2'. destruct (pMeta (prData p)) as [m|], (Config.ClusterEnabled (Config.Cluster c)); try (by destruct Hmeta as [X Y]; (specialize (X eq_refl) || specialize (Y eq_refl)));
      injection H2' as <-; by rw ?app_nil_r. }
  assert (E3 : prActs p3 = prActs p2 ++ (if automatic c then [ControllerStarted] else [])).
  { unfold startController in H3'. destruct (automatic c); [destruct controllerStart; [done|]|]; injection H3' as <-; by rw ?app_nil_r. }
  assert (E4 : prActs p' = prActs p3 ++ (if snapshotsRun then [SnapshotsStarted] else [])).
  { unfold startSnapshots in H4'. unfold snapshotsRun. destruct (_ || _); injection H4' as <-; by rw ?app_nil_r. }
  by rw E4 E3 E2 E1 -!app_assoc.
Qed.
Lemma prepare_order p p' : (pMeta (prData p) = None <-> Config.ClusterEnabled (Config.Cluster c) = false) -> prActs p = [] ->
  prepareNode c p = Some (inl tt, p') -> prActs p' = startActs (automatic c && marked (fsDisk (prRaft p))).
Proof.
  intros Hmeta Hnil (r1 & p1 & Hm & H1')%prepare_inv. destruct r1 as [returning|]; [|by destruct H1']. destruct (markNode_ok _ _ _ Hm) as (Hd & _ & Hno & Hyes).
  apply markNode_acts in Hm. rw Hnil in Hm. cbn [app] in Hm.
  assert (returning = automatic c && marked (fsDisk (prRaft p))) as <-.
  { destruct (automatic c); [by destruct (Hyes eq_refl returning eq_refl)|by destruct (Hno eq_refl) as [_ [= ->]]]. }
  destruct H1' as (r2 & p2 & Hload & H2'). destruct r2 as [[]|]; [|by destruct H2']. destruct H2' as [_ H2'].
  destruct (loadData_inv _ _ _ _ Hload) as (_ & _ & _ & Ha & r' & p3 & Hdata & Hp3). apply rest_acts in H2'.
  - rw H2' Ha // Hm. unfold startActs. by rw -!app_assoc.
  - rw Hp3. unfold onData in Hdata. destruct (loadOnStart _ _ _ _ _) as [[x d]|] eqn:Hl; [|done]. injection Hdata as _ <-. cbn [prData]. rw (keepsMeta_load _ _ _ _ Hl). by rw Hd.
Qed.

Lemma refused_unadmitted (cfg : NodeConfig) cmd (w : Eng (World N)) : admitted (engHook w) = false -> Name cmd ∉ internalCommands ->
  CoordinatorExecute cfg cmd w = Some (NewError "CLUSTERDOWN" "node is recovering and not admitted", w).
Proof.
  intros Ha Hn. unfold internalCommands in Hn. rw !not_elem_of_cons in Hn. destruct Hn as (H1' & H2' & H3' & H4' & H5' & H6' & _).
  unfold CoordinatorExecute. cbv zeta. rw (proj2 (String.eqb_neq _ _) H1') (proj2 (String.eqb_neq _ _) H2') (proj2 (String.eqb_neq _ _) H3').
  rw (proj2 (String.eqb_neq _ _) H4') (proj2 (String.eqb_neq _ _) H5') (proj2 (String.eqb_neq _ _) H6'). cbn [orb]. rw DataAdmitted_bind. by rw Ha.
Qed.
Lemma start_order p r p' : nodeStart c p = Some (r, p') -> r = inl tt ->
  exists p1, prepareNode c p = Some (inl tt, p1) /\
    prActs p' = prActs p1 ++ ServingRESP :: match prFence p' with Some (inr _) => [] | _ => [ServingAPI] end.
Proof.
  intros Hs ->. apply NM_bind_ok in Hs as ([] & p1 & Hp & Hk). exists p1. split; [done|]. unfold mbind, NM_bind, serveAPI in Hk. unfold act in Hk. cbn [prFence] in Hk.
  destruct (prFence p1) as [[f|e]|] eqn:Hf; injection Hk as <-; cbn; rw ?Hf -?app_assoc; done.
Qed.

(** ** While a node is not admitted *)

(** What happens to a node: a command, over RESP or over HTTP, or a request to the
    administrative interface, with what its calls of the disk give. *)
Inductive NodeEvent := Receive (cmd : Command) | Administer (disk : option string) (invalidate : Z + string) (r : HTTPRequest).
Context (srv : ServerConfig) (cfg : NodeConfig).
Definition nodeEvent (ev : NodeEvent) (a : AdminNode (N := N)) : option ((Frame + HTTPResponse) * AdminNode (N := N)) :=
  match ev with
  | Receive cmd => '(f, node) ← CoordinatorExecute cfg cmd (anNode a); Some (inl f, mkAdmin node (anFence a))
  | Administer disk invalidate r => '(resp, a) ← serveAdmin srv cfg disk invalidate r a; Some (inr resp, a)
  end.
Fixpoint nodeEvents (evs : list NodeEvent) (a : AdminNode (N := N)) : option (list (Frame + HTTPResponse) * AdminNode (N := N)) :=
  match evs with
  | [] => Some ([], a)
  | ev :: evs => '(x, a) ← nodeEvent ev a; '(xs, a) ← nodeEvents evs a; Some (x :: xs, a)
  end.
(** A request that admits the node has passed the authorization. *)
Definition mayAdmit (ev : NodeEvent) : Prop :=
  match ev with
  | Receive _ => False
  | Administer _ _ r => URLPath r = "/cluster/returning/admit" /\ exists x, prepareControllerAuthorization srv r = inl x
  end.
Definition refusal : Frame := NewError "CLUSTERDOWN" "node is recovering and not admitted".

#[local] Existing Instances EM_ret EM_bind.
Definition stays {A} (m : EM (W := World N) A) : Prop := forall w a w', admitted (engHook w) = false -> m w = Some (a, w') -> admitted (engHook w') = false.
Lemma stays_ret {A} (a : A) : stays (mret a).
Proof. by intros w b w' Hw [= <- <-]. Qed.
Lemma stays_bind {A B} (m : EM (W := World N) A) (k : A -> EM (W := World N) B) : stays m -> (forall a, stays (k a)) -> stays (m ≫= k).
Proof. intros Hm Hk w b w' Hw. unfold mbind, EM_bind. destruct (m w) as [[a w1]|] eqn:H1'; [|done]. cbn. intros H2'. eapply Hk; [|exact H2']. by eapply Hm. Qed.
Lemma stays_world {A} (f : World N -> A * World N) : (forall h, admitted h = false -> admitted (f h).2 = false) -> stays (onWorld f).
Proof. intros Hf w a w' Hw. unfold onWorld. specialize (Hf (engHook w) Hw). destruct (f (engHook w)) as [x h]. by intros [= <- <-]. Qed.
Lemma stays_meta {A} (f : Metadata -> A * Metadata) : stays (onMeta f).
Proof. apply stays_world. intros h Hh. by destruct (f (wMeta h)). Qed.
Lemma stays_lift {A} (m : M A) : stays (liftM m).
Proof. intros w a w' Hw. unfold liftM. destruct (m (engSys w)) as [[x s]|]; [|done]. cbn. by intros [= <- <-]. Qed.
Lemma stays_count name n : stays (AddCounter name n).
Proof. by intros w a w' Hw [= <- <-]. Qed.
Lemma stays_Forward id cmd : stays (onWorld (Forward cfg id cmd)).
Proof. apply stays_world. intros h Hh. by rw Forward_admitted. Qed.
Lemma broadcast_admitted state (h : World N) : admitted (broadcast cfg state h).2 = admitted h.
Proof.
  unfold broadcast. generalize (marshalMetadata state). intros raw. revert h. induction (nodePeers cfg) as [|peer ps IH]; intros h; [done|]. cbn [BroadcastMetadata]. destruct (String.eqb _ _); [apply IH|].
  pose proof (Forward_admitted cfg (PeerID peer) (mkCommand "CLUSTERAPPLY" [raw]) h) as Hf. destruct (Forward _ _ _ h) as [r w1]. cbn [snd] in Hf.
  pose proof (IH w1) as Hb. destruct (BroadcastMetadata cfg ps raw w1) as [failed w2]. cbn [snd] in *. congruence.
Qed.
Lemma stays_broadcast state : stays (onWorld (broadcast cfg state)).
Proof. apply stays_world. intros h Hh. by rw broadcast_admitted. Qed.
#[local] Hint Resolve stays_ret stays_meta stays_lift stays_count stays_Forward stays_broadcast : mnemo.
Ltac stays_go := repeat first [apply stays_bind; [|intros ?] | progress (auto with mnemo) | case_match].

Lemma stays_promote slot : stays (ManagerPromote cfg slot).
Proof. unfold ManagerPromote. stays_go. Qed.
Lemma stays_assign slot id : stays (ManagerAssignReplica cfg slot id).
Proof. unfold ManagerAssignReplica. stays_go. Qed.
Lemma stays_sync slot id : stays (SyncReplica cfg slot id).
Proof. unfold SyncReplica, readMeta, takeEntries. cbv zeta. stays_go. Qed.
Lemma stays_replication cmd : stays (applyReplication cmd).
Proof. unfold applyReplication, ApplyReplication, readMeta, ApplyReplicated, IncCounter. stays_go. Qed.
Lemma stays_metadata cmd : stays (applyMetadata cmd).
Proof. unfold applyMetadata, ApplyMetadata. stays_go. Qed.
Lemma stays_shard cmd : stays (applyShardSnapshot cfg cmd).
Proof. unfold applyShardSnapshot, ApplyShardSnapshot, readMeta, takeEntries, restoreEntries. stays_go. Qed.
Lemma stays_returning removed : stays (writeReturningNodeState removed).
Proof.
  unfold writeReturningNodeState, readMeta, takeEntries. apply stays_bind; [auto with mnemo|]. intros m. apply stays_bind; [auto with mnemo|]. intros [|]; [|auto with mnemo].
  apply stays_bind; [by apply stays_world|]. auto with mnemo.
Qed.
Lemma stays_prepare invalidate clusterId version : stays (prepareReturning cfg invalidate clusterId version).
Proof.
  unfold prepareReturning, restoreEntries. apply stays_bind; [by apply stays_world|]. intros _. apply stays_bind; [auto with mnemo|]. intros [|]; [|auto with mnemo].
  destruct invalidate; [|auto with mnemo]. apply stays_bind; [apply stays_world; intros h Hh; cbn; by rw syncMetadata_admitted|]. intros _.
  unfold readMeta. apply stays_bind; [auto with mnemo|]. intros m. destruct (_ || _); [auto with mnemo|apply stays_returning].
Qed.
Lemma coordinator_stays cmd w f w' : admitted (engHook w) = false -> CoordinatorExecute cfg cmd w = Some (f, w') ->
  admitted (engHook w') = false /\ (Name cmd ∉ internalCommands -> f = refusal /\ w' = w).
Proof.
  intros Hw Hx. split; [|intros Hn; rw (refused_unadmitted _ _ _ Hw Hn) in Hx; by injection Hx as <- <-].
  revert Hx. unfold CoordinatorExecute. cbv zeta.
  destruct (String.eqb _ "REPLICATE"); [by apply stays_replication|].
  destruct (String.eqb _ "CLUSTERMETA"); [rw readMeta_bind; by intros [= <- <-]|].
  destruct (String.eqb _ "CLUSTERAPPLY"); [by apply stays_metadata|].
  destruct (String.eqb _ "CLUSTERSNAPSHOT"); [by apply stays_shard|].
  destruct (_ || _); [by intros [= <- <-]|]. rw DataAdmitted_bind Hw. by intros [= <- <-].
Qed.
Lemma topology_stays {R} (decode : string -> option R) slotOf op disk r a resp a' : (forall x, stays (op x)) -> admitted (engHook (anNode a)) = false ->
  handleTopology srv decode slotOf op disk r a = Some (resp, a') -> admitted (engHook (anNode a')) = false.
Proof.
  intros Hop Hw. unfold handleTopology. cbv zeta. destruct (negb (String.eqb _ _)); [by intros [= <- <-]|]. destruct (prepareControllerAuthorization srv r) as [auth|]; [|by intros [= <- <-]].
  destruct (decode (Body r)) as [req|]; [|by intros [= <- <-]]. destruct (negb (srvEnabled srv)); [by intros [= <- <-]|].
  destruct (beginControllerOperation disk auth (anFence a)) as [[[]|refused] fence]; [by intros [= <- <-]| |by intros [= <- <-]].
  destruct (op req (anNode a)) as [[result node]|] eqn:Ho; [|done]. cbn [mbind option_bind]. intros [= <- <-]. by eapply Hop.
Qed.
Lemma returning_stays op disk r a resp a' : (forall x y, stays (op x y)) -> admitted (engHook (anNode a)) = false ->
  handleReturning srv op disk r a = Some (resp, a') -> admitted (engHook (anNode a')) = false.
Proof.
  intros Hop Hw. unfold handleReturning. destruct (negb (String.eqb _ _)); [by intros [= <- <-]|]. destruct (prepareControllerAuthorization srv r) as [auth|]; [|by intros [= <- <-]].
  destruct (decodeReturningRequest (Body r)) as [[clusterId version]|]; [|by intros [= <- <-]].
  assert (Hgo : (if negb (srvAutomatic srv) || negb (srvEnabled srv) then Some (Refused 409 "returning-node admission requires automatic cluster mode", a)
    else match beginControllerOperation disk auth (anFence a) with
    | (inr refused, fence) => Some (refused, mkAdmin (anNode a) fence)
    | (inl replay, fence) => '(result, node) ← (if (replay : bool) then writeReturningNodeState 0 else op clusterId version) (anNode a); Some (result, mkAdmin node fence)
    end) = Some (resp, a') -> admitted (engHook (anNode a')) = false).
  { destruct (_ || _); [by intros [= <- <-]|]. destruct (beginControllerOperation disk auth (anFence a)) as [[replay|refused] fence]; [|by intros [= <- <-]].
    set (m := if (replay : bool) then writeReturningNodeState 0 else op clusterId version). assert (Hst : stays m) by (unfold m; destruct replay; [apply stays_returning|apply Hop]).
    destruct (m (anNode a)) as [[result node]|] eqn:Ho; [|done]. cbn [mbind option_bind]. intros [= <- <-]. by eapply Hst. }
  destruct clusterId; [by intros [= <- <-]|]. destruct version; [by intros [= <- <-]|exact Hgo..].
Qed.
Lemma nodeEvent_stays ev a x a' : ~ mayAdmit ev -> admitted (engHook (anNode a)) = false -> nodeEvent ev a = Some (x, a') ->
  admitted (engHook (anNode a')) = false /\ match ev with Receive cmd => Name cmd ∉ internalCommands -> x = inl refusal /\ a' = a | Administer _ _ _ => True end.
Proof.
  intros Hno Hw. destruct ev as [cmd|disk invalidate r]; cbn [nodeEvent].
  - destruct (CoordinatorExecute cfg cmd (anNode a)) as [[f node]|] eqn:Hx; [|done]. cbn [mbind option_bind]. intros [= <- <-]. destruct (coordinator_stays _ _ _ _ Hw Hx) as [H1' H2'].
    split; [done|]. intros Hn. destruct (H2' Hn) as [-> ->]. by destruct a.
  - destruct (serveAdmin srv cfg disk invalidate r a) as [[resp a1]|] eqn:Hx; [|done]. cbn [mbind option_bind]. intros [= <- <-]. split; [|done]. revert Hx. unfold serveAdmin. cbv zeta.
    assert (Hans : forall (y : option (AdminResponse * AdminNode (N := N))), (forall resp a', y = Some (resp, a') -> admitted (engHook (anNode a')) = false) ->
      ('(resp, a) ← y; Some (encodeResponse (wMeta (engHook (anNode a))) resp, a)) = Some (resp, a1) -> admitted (engHook (anNode a1)) = false).
    { intros [[z b]|] Hy; [|done]. cbn [mbind option_bind]. intros [= _ <-]. by eapply Hy. }
    destruct (String.eqb (Method r) "OPTIONS"); [by intros [= <- <-]|].
    destruct (String.eqb _ "/cluster/promote"); [apply Hans; intros ? ?; apply topology_stays; [|done]; intros slot; apply stays_bind; [apply stays_promote|auto with mnemo]|].
    destruct (String.eqb _ "/cluster/replica"); [apply Hans; intros ? ?; apply topology_stays; [|done]; intros [slot id]; apply stays_bind; [apply stays_assign|auto with mnemo]|].
    destruct (String.eqb _ "/cluster/sync"); [apply Hans; intros ? ?; apply topology_stays; [|done]; intros [slot id]; apply stays_sync|].
    destruct (String.eqb _ "/cluster/returning/prepare"); [apply Hans; intros ? ?; apply returning_stays; [|done]; intros; apply stays_prepare|].
    destruct (String.eqb_spec (URLPath r) "/cluster/returning/admit") as [Hp|]; [|by intros [= <- <-]]. apply Hans. intros resp' b. unfold handleReturningNodeAdmit, handleReturning.
    destruct (negb (String.eqb _ _)); [by intros [= <- <-]|]. destruct (prepareControllerAuthorization srv r) as [auth|] eqn:Hauth; [|by intros [= <- <-]]. destruct Hno. split; [done|by exists auth].
Qed.
Lemma nodeEvents_stay evs a xs a' : Forall (fun ev => ~ mayAdmit ev) evs -> admitted (engHook (anNode a)) = false -> nodeEvents evs a = Some (xs, a') ->
  admitted (engHook (anNode a')) = false /\
  Forall2 (fun ev x => match ev with Receive cmd => Name cmd ∉ internalCommands -> x = inl refusal | Administer _ _ _ => True end) evs xs.
Proof.
  intros Hall. revert a xs. induction Hall as [|ev evs Hev Hall IH]; intros a xs Hw; cbn [nodeEvents]; [by intros [= <- <-]|].
  destruct (nodeEvent ev a) as [[x a1]|] eqn:Hx; [|done]. cbn [mbind option_bind]. destruct (nodeEvents evs a1) as [[ys a2]|] eqn:Hy; [|done]. cbn [mbind option_bind]. intros [= <- <-].
  destruct (nodeEvent_stays _ _ _ _ Hev Hw Hx) as [Hw1 Hans]. destruct (IH _ _ Hw1 Hy) as [Hw2 Hall2]. split; [done|]. constructor; [|done]. destruct ev; [|done]. intros Hn. by destruct (Hans Hn).
Qed.
End spec.


(** ** Data *)

(** Without faults nothing but the restore can end the start of a node without
    a controller. *)
Lemma rest_runs `{Env, SliceSort, Texts, JSON} {N : Type} `{Net N} `{Faults, Outside} (c : Config.Config) (p : Process N) : automatic c = false ->
  exists p', (_ ← openFence c; _ ← startCluster c; _ ← startController c; startSnapshots c) p = Some (inl tt, p').
Proof.
  intros Ha. unfold openFence, startController. rw Ha. unfold mbind, NM_bind, mret, NM_ret, startCluster, startSnapshots, act.
  repeat case_match; simplify_eq/=; by eexists.
Qed.
Lemma start_restored `{Env, SliceSort, Texts, JSON} {N : Type} `{Net N} `{Crypto, Gob, Faults, Outside} (c : Config.Config) (p : Process N) res data :
  automatic c = false -> PEnabled (persistenceOf c) = true -> LoadOnStart (persistenceOf c) = true ->
  RestoreLatest (persistenceOf c) (nodeName c) (Config.MemoryLimitBytes (Config.Engine c)) (prData p) = Some (inl res, data) ->
  exists p', nodeStart c p = Some (inl tt, p') /\ pSys (prData p') = pSys data /\ prAdmitted p' = prAdmitted p /\ ServingRESP ∈ prActs p'.
Proof.
  intros Ha He Hl Hr. set (p1 := mkProcess (prRaft p) data (prAdmitted p) (prConns p) (prNet p) (prFence p) (prActs p ++ [DataLoaded])).
  destruct (rest_runs c p1 Ha) as (p2 & Hp2). pose proof (quiet_rest _ _ _ _ Hp2) as [Q1 _ Q3 _ _ _].
  assert (Hprep : prepareNode c p = Some (inl tt, p2)).
  { assert (Hload : loadData c false p = Some (inl tt, p1)).
    { unfold loadData, loads, mbind, NM_bind, onData, loadOnStart. rw He Hl. cbn [andb negb]. unfold mbind, P_bind, attempt. rw Hr. done. }
    unfold prepareNode, markNode. rw Ha. unfold mbind at 1, NM_bind at 1, mret at 1, NM_ret at 1. unfold mbind at 1, NM_bind at 1. rw Hload. exact Hp2. }
  destruct (nodeStart c p) as [[r p3]|] eqn:Hs.
  - destruct (start_inv _ _ _ _ Hs) as [(p4 & Hp4 & -> & H1' & H2' & H3' & H4' & H5' & Hserve)|(e & Hp4 & ->)]; rw Hprep in Hp4; simplify_eq/=.
    exists p3. rw H2' H3' Q1 Q3. done.
  - unfold nodeStart in Hs. unfold mbind, NM_bind in Hs. rw Hprep in Hs. unfold serveAPI, act in Hs. cbn in Hs. by repeat case_match.
Qed.

(** C8: A standalone node, or one of a cluster with manual failover, that is
    configured to take snapshots and to load them on start comes back with its
    data: a snapshot can be taken, and a process that is started on the directory
    afterwards, and whose metadata can take those of the snapshot, loads it before
    it opens its sockets, so that what it serves is the map as it was, without the
    entries that have expired.  The conditions: no call of the disk fails, and no
    temporary file is left over; the clock is later than every snapshot in the
    directory, and its time can be printed; no live list or sorted set ends in the
    empty string or is longer than the format allows; in the JSON format the keys
    and names are valid UTF-8, and in the binary one [encoding/gob] can represent
    the snapshot; and the data fits the memory limit. *)
Theorem restart_keeps_data `{Env, SliceSortOk, Texts, JSON} {N : Type} `{Net N} `{CryptoOk, Gob, Faults, Outside} (c : Config.Config) s kv :
  automatic c = false -> PEnabled (persistenceOf c) = true -> LoadOnStart (persistenceOf c) = true -> Config.StripeCount (Config.Engine c) < 4294967296 ->
  faultless -> bounded (pDisk s) -> (forall n, present (pDisk s) (temporary n) = false) ->
  store_kv (sysStore (pSys s)) kv -> (forall t, range_ok (visit t)) -> writable (persistenceOf c) (nodeName c) s kv ->
  (forall name m, valid_in (nodeName c) (pDisk s) name m -> MCreatedAt m < clock (S (S (tick (pSys s)))) + unixEpoch) ->
  ktotal kv <= maxUint64 -> (let limit := Config.MemoryLimitBytes (Config.Engine c) in limit <= 0 \/ ktotal kv <= limit) ->
  exists res s1, Persistence.Snapshot (persistenceOf c) (nodeName c) s = Some (inl res, s1) /\
    forall raft t (n : N) p, newProcess c raft (pDisk s1) t n = Some p -> accepts (prData p) (metadataOf (pMeta s)) ->
      exists p' t', nodeStart c p = Some (inl tt, p') /\ (t <= t')%nat /\ ServingRESP ∈ prActs p' /\ prAdmitted p' = true /\
        store_kv (sysStore (pSys (prData p'))) (live_at (clock t') (live_at (clock (tick (pSys s))) kv)).
Proof.
  intros Ha Hen Hload Hst Hno Hb Htmp Hkv Hv Hw Hold Hmax Hlim.
  destruct (snapshot_durable (persistenceOf c) (nodeName c) (Config.MemoryLimitBytes (Config.Engine c)) s kv Hno Hen Hb Htmp Hkv Hv Hw Hold Hmax Hlim) as (res & s1 & Hrun & Hres).
  exists res, s1. split; [done|]. intros raft t n p Hnew Hacc. unfold newProcess in Hnew. apply bind_Some in Hnew as (meta & _ & Hp).
  assert (Hd : prData p = mkPState (mkSys (NewStore (Config.StripeCount (Config.Engine c))) t) meta (pDisk s1) 0 [] /\ prAdmitted p = true) by (by injection Hp as <-).
  destruct Hd as [Hd Hadm]. destruct (Hres (prData p) ∅) as (k & t' & s3 & Hr & _ & Ht & Hkv3); [by rw Hd|rw Hd; by apply NewStore_spec|done|].
  destruct (start_restored c p _ _ Ha Hen Hload Hr) as (p' & Hs & Hsys & Hadm' & Hserve). exists p', t'. rw Hsys Hadm'. rw Hd in Ht. by split_and!.
Qed.

(** ** The whole process *)

(** A process that ends by itself has opened its sockets after the background work
    was started, and closes them before it stops that. *)
Theorem main_order `{Env, SliceSort, Texts, JSON} {N : Type} `{Net N} `{Crypto, Gob, Faults, Outside, Config.ConfigFile} path raft snapshots t (n : N) p' :
  nodeMain path raft snapshots t n = Some (inl tt, Some p') -> exists c before api, Config.Load path = inl c /\ Forall background before /\ (api = [] \/ api = [ServingAPI]) /\
    prActs p' = before ++ ServingRESP :: api ++ [Stopping stopReason; StoppedRESP; StoppedAPI] ++ (if automatic c then [StoppedController] else []) ++ [StoppedCluster; WaitedForSnapshots].
Proof.
  unfold nodeMain. destruct (Config.Load path) as [c|]; [|done]. intros (p & Hnew & Hrun)%bind_Some. apply bind_Some in Hrun as ([r p1] & Hrun & Heq).
  injection Heq as -> <-. apply NM_bind_ok in Hrun as ([] & p2 & Hs & Hstop). unfold newProcess in Hnew. apply bind_Some in Hnew as (meta & _ & Hp).
  unfold nodeStart in Hs. apply NM_bind_ok in Hs as ([] & p3 & Hprep & Hserve). destruct (prepare_acts _ _ _ _ Hprep) as (before & Hb & Hf). injection Hp as <-. cbn [prActs app] in Hb.
  exists c, before, (match prFence p3 with Some (inr _) => [] | _ => [ServingAPI] end). split; [done|]. split; [done|]. split; [repeat case_match; tauto|].
  assert (Hacts : prActs p2 = before ++ ServingRESP :: match prFence p3 with Some (inr _) => [] | _ => [ServingAPI] end).
  { unfold mbind, NM_bind, serveAPI in Hserve. unfold act in Hserve. cbn [prFence] in Hserve. repeat case_match; simplify_eq/=; by rw -?app_assoc. }
  unfold nodeStop in Hstop. destruct (automatic c); unfold mbind, NM_bind, act, mret, NM_ret in Hstop; simplify_eq/=; rw ?Hacts -?app_assoc; cbn; by rw -?app_assoc.
Qed.

(** ** Examples *)

#[local] Existing Instances exampleEnv plainTexts emptyJSON noGob noFaults.
#[local] Instance ends : Outside := {| controllerStart := None; stopReason := Signalled |}.
Definition automaticConfig : Config.Config :=
  let peer n := Config.mkPeerConfig ("node-" +:+ n) ("h" +:+ n +:+ ":1") ("h" +:+ n +:+ ":2") ("h" +:+ n +:+ ":3") "automatic" in
  let d := Config.defaults in
  Config.mkConfig (Config.Node d) (Config.Network d) (Config.mkEngineConfig 2 1000 "lru")
    (Config.mkClusterConfig "c" true true true 4 "proxy" "automatic" (Config.mkControllerConfig 9000 "raft" "node-2" 1000 10000 3 1 1)
       [peer "1"; peer "2"; peer "3"])
    "secret" (Config.mkPersistenceConfig true "data" 60 2 true FormatJSON) (Config.Observability d).
Definition usedRaftDir : FS := mkFS (Some {[dataNodeInitializedMarker := File ""]}) 0 [].

Definition automaticServer : ServerConfig := mkServerConfig true true "secret" true "c" 4.

Definition standaloneConfig : Config.Config :=
  let d := Config.defaults in
  Config.mkConfig (Config.mkNodeConfig "n1" "standalone" "./data") (Config.Network d) (Config.mkEngineConfig 4 0 "lru") (Config.Cluster d)
    "" (Config.mkPersistenceConfig true "data" 60 2 true FormatJSON) (Config.Observability d).
Lemma restart_keeps_data_witness : exists s res s1, store_kv s sampleMap /\
  Persistence.Snapshot (persistenceOf standaloneConfig) "n1" (exampleState s None) = Some (inl res, s1) /\
  exists p p' t', newProcess standaloneConfig (mkFS None 0 []) (pDisk s1) 0 tt = Some p /\ nodeStart standaloneConfig p = Some (inl tt, p') /\
    store_kv (sysStore (pSys (prData p'))) (live_at (clock t') (live_at (clock 0) sampleMap)).
Proof.
  destruct sampleMap_stored as [s Hs].
  destruct (restart_keeps_data (N := unit) standaloneConfig (exampleState s None) sampleMap) as (res & s1 & Hrun & Hload);
    [done|done|done|done|done|done|done|done|by intros t m|apply example_writable|by intros name m (e & He & _)|by vm_compute|by left|].
  exists s, res, s1. split; [exact Hs|]. split; [exact Hrun|].
  destruct (Hload (mkFS None 0 []) 0%nat tt _ eq_refl I) as (p' & t' & Hst & _ & _ & _ & Hkv). eexists _, p', t'. split; [reflexivity|]. split; [exact Hst|exact Hkv].
Defined.
