(* ===== verification/ControlLoop.v ===== *)
(** * The loops of the controller: the [Run] methods of [observer.go],
    [planner.go], [executor.go] and [returning_node.go]

    Every part of the controller has a ticker and acts when it is the leader.
    A tick is one turn of one of the loops; which loop has a turn, and in what
    order the answers to a poll arrive, is a schedule.  What the peers answer to
    the reads of the observer is the class [PollAPI]. *)
From S2P Require Import Prelude Topology ControlFSM Planner Observer ControlExecutor.
Local Open Scope Z_scope.

Class PollAPI (W : Type) := answersOf : W -> Answers.

Inductive Tick :=
  | ObserverTick (arrivals : list PeerConfig)
  | PlannerTick
  | ExecutorTick (fuel : nat)
  | ReturningTick.

Section loops.
Context `{SliceSort, MapRange, PlanDigest, StateDigest} {W : Type} `{Proposer W, AdminAPI W, Clock W, ReturningAPI W, PollAPI W}.
Context (e : ExecutorConfig) (ids : gset string).

(** The memory of the observer, of the planner and of the executor. *)
Record Loops := mkLoops { lpObserver : Observer; lpPlanner : Planner; lpLast : option Z; lpWorld : W }.

(** The loop bodies; their errors are dropped.  [None] is a panic. *)
Definition ObserverRun (arrivals : list PeerConfig) (l : Loops) : option Loops :=
  let '(leader, w) := IsLeader (lpWorld l) in
  if negb leader then Some (mkLoops (lpObserver l) (lpPlanner l) (lpLast l) w)
  else
    let '(now, w) := TimeNow w in
    let '(_, _, o, w) := ObserveAndCommit (lpObserver l) (answersOf w) arrivals now w in
    Some (mkLoops o (lpPlanner l) (lpLast l) w).
Definition PlannerRun (l : Loops) : option Loops :=
  let '(now, w) := TimeNow (lpWorld l) in
  '(_, p, w) ← Evaluate (lpPlanner l) now w;
  Some (mkLoops (lpObserver l) p (lpLast l) w).
Definition ifLeader (once : X unit) (l : Loops) : option Loops :=
  let '(leader, w) := IsLeader (lpWorld l) in
  if negb leader then Some (mkLoops (lpObserver l) (lpPlanner l) (lpLast l) w)
  else '(_, (last, w)) ← once (lpLast l, w); Some (mkLoops (lpObserver l) (lpPlanner l) last w).
Definition ExecutorRun (fuel : nat) : Loops -> option Loops := ifLeader (ExecuteOnce e fuel).
Definition ReturningRun : Loops -> option Loops := ifLeader (ReconcileOnce ids).

Definition loopTick (t : Tick) : Loops -> option Loops :=
  match t with
  | ObserverTick arrivals => ObserverRun arrivals
  | PlannerTick => PlannerRun
  | ExecutorTick fuel => ExecutorRun fuel
  | ReturningTick => ReturningRun
  end.
Fixpoint loopRun (ts : list Tick) (l : Loops) : option Loops :=
  match ts with [] => Some l | t :: ts => l ← loopTick t l; loopRun ts l end.

(** A controller that does not lead asks nobody, proposes nothing and changes
    nothing, however often its loops turn. *)
Theorem followers_idle ts l : IsLeader (lpWorld l) = (false, lpWorld l) -> TimeNow (lpWorld l) = ((TimeNow (lpWorld l)).1, lpWorld l) ->
  loopRun ts l = Some l.
Proof.
  intros Hl Ht. induction ts as [|t ts IH]; [done|]. cbn [loopRun]. assert (Hs : loopTick t l = Some l); [|by rw Hs].
  destruct l as [o p last w]. cbn [lpWorld] in Hl, Ht.
  destruct t as [arrivals| |fuel|]; cbn [loopTick]; unfold ObserverRun, PlannerRun, ExecutorRun, ReturningRun, ifLeader, Evaluate; cbn [lpWorld lpObserver lpPlanner lpLast].
  - by rw Hl.
  - rw Ht. cbn [mbind option_bind]. by rw Hl.
  - by rw Hl.
  - by rw Hl.
Qed.
End loops.
Arguments Loops : clear implicits.
