(* ===== verification/FailoverSpec.v ===== *)
(** * Failover, from the first missed poll to the last repaired slot

    The loops of the controller over the fleet of [Recovery]: the observer
    misses the nodes that are down until it takes them for failed, the planner
    makes the plan for the view that it has committed, and the executor carries it
    out. *)
From S2P Require Import Prelude Encoding GoText Store Metadata MetadataSpec Topology ControlFSM Planner PlannerSpec RebalanceSpec.
From S2P Require Import Observer ObserverSpec ControlExecutor ControlExecutorSpec AdminNode Recovery ControlLoop.
Local Open Scope Z_scope.

(** A node that is up answers both reads of the observer. *)
#[export] Instance fleetPoll : PollAPI Fleet := fun w id =>
  Some (if bool_decide (id ∈ flUp w) then (inl (mkHealth "ok" id), inl (fleetResponse id (flMeta w))) else (inr "connection refused", inr "connection refused")).

Lemma pollPeer_fleet w id : pollPeer (answersOf w) id = if bool_decide (id ∈ flUp w) then inl (fleetResponse id (flMeta w)) else inr "connection refused".
Proof. unfold pollPeer, answersOf, fleetPoll. case_bool_decide; [|done]. cbn. by rw !String.eqb_refl. Qed.

(** ** One poll *)

Definition peerNames (ps : list PeerConfig) : list string := CfgPeerID <$> ps.
(** What a poll makes of one peer. *)
Definition polled (o : Observer) (answers : Answers) (now : Z) (fs : gmap string failureRecord) (id : string) : NodeView * failureRecord :=
  observeResult o now id (pollPeer answers id) (default zeroFailure (fs !! id)).
Lemma receive_lookup o answers now ps p id : NoDup (peerNames ps) ->
  let p' := foldl (receive o answers now) p ps in
  pNodes p' !! id = (if bool_decide (id ∈ peerNames ps) then Some (polled o answers now (pFailures p) id).1 else pNodes p !! id) /\
  pFailures p' !! id = (if bool_decide (id ∈ peerNames ps) then Some (polled o answers now (pFailures p) id).2 else pFailures p !! id).
Proof.
  revert p. induction ps as [|peer ps IH]; intros p Hnd; [done|]. cbn [foldl peerNames fmap list_fmap] in *. apply NoDup_cons in Hnd as [Hni Hnd].
  destruct (IH (receive o answers now p peer) Hnd) as [H1' H2']. rw H1' H2'. clear H1' H2' IH. fold (peerNames ps) in *.
  unfold receive, polled. cbv zeta. destruct (observeResult o now (CfgPeerID peer) _ _) as [node record] eqn:Ho. cbn [pNodes pFailures].
  destruct (decide (id = CfgPeerID peer)) as [->|Hne].
  - rw bool_decide_eq_false_2 // bool_decide_eq_true_2; [by left|]. rw !lookup_insert_eq Ho. done.
  - rw !lookup_insert_ne //. destruct (decide (id ∈ peerNames ps)) as [Hin|Hnin].
    + rw !bool_decide_eq_true_2 //; by right.
    + rw !bool_decide_eq_false_2 //. intros [?|?]%elem_of_cons; done.
Qed.

(** Counting the slots changes nothing else of a node. *)
Definition attributes (n : NodeView) : string * bool * bool * Z * bool * bool :=
  (NodeViewID n, Reachable n, Suspected n, ConsecFails n, Eligible n, Returning n).
Definition owned_by (ids : list string) (slot : SlotStatus) : Prop := SSLeader slot ∈ ids /\ (SSReplica slot = "" \/ SSReplica slot ∈ ids).
Lemma countSlot_attributes ids nodes slots : (forall id, id ∈ ids -> is_Some (nodes !! id)) -> Forall (owned_by ids) slots ->
  forall id, attributes <$> foldl countSlot nodes slots !! id = attributes <$> nodes !! id.
Proof.
  revert nodes. induction slots as [|slot slots IH]; intros nodes Hd Ho id; [done|]. apply Forall_cons in Ho as [[Hl Hr] Ho]. cbn [foldl].
  assert (Hc : forall i, attributes <$> countSlot nodes slot !! i = attributes <$> nodes !! i).
  { intros i. unfold countSlot. destruct (Hd _ Hl) as [nl Hnl]. rw Hnl. change (default zeroNode (Some nl)) with nl.
    assert (H1' : attributes <$> <[SSLeader slot := addLeader nl]> nodes !! i = attributes <$> nodes !! i).
    { destruct (decide (SSLeader slot = i)) as [<-|]; [rw lookup_insert_eq Hnl; done|by rw lookup_insert_ne]. }
    destruct (String.eqb_spec (SSReplica slot) "") as [|Hne]; [done|]. destruct Hr as [|Hr]; [done|].
    destruct (decide (SSReplica slot = i)) as [<-|]; [|by rw lookup_insert_ne]. rw lookup_insert_eq -H1'.
    destruct (<[SSLeader slot := addLeader nl]> nodes !! SSReplica slot) as [nr|] eqn:Hnr; [done|].
    destruct (Hd _ Hr) as [x Hx]. destruct (decide (SSLeader slot = SSReplica slot)) as [Heq|Hne']; [rw Heq lookup_insert_eq in Hnr; done|rw lookup_insert_ne // Hx in Hnr; done]. }
  rw IH //. intros i Hi. destruct (Hd i Hi) as [n Hn]. specialize (Hc i). rw Hn in Hc. destruct (countSlot nodes slot !! i); [by eexists|done].
Qed.

(** The nodes of the fleet: their names, that they own the slots, and that more than
    half of them are up. *)
Record fleet_ok (ps : list PeerConfig) (w : Fleet) : Prop := {
  fo_ids : NoDup (peerNames ps);
  fo_names : "" ∉ peerNames ps;
  fo_owned : Forall (fun s => owned_by (peerNames ps) (slotStatus s)) (slots (flMeta w));
  fo_quorum : Z.of_nat (length ps) / 2 + 1 <= Z.of_nat (length (List.filter (fun p => bool_decide (CfgPeerID p ∈ flUp w)) ps))
}.

Section poll.
Context `{SliceSortOk, MapRangeOk, StateDigest}.

Lemma answered_fleet w ps : answered (answersOf w) ps =
  map (fun p => fleetResponse (CfgPeerID p) (flMeta w)) (List.filter (fun p => bool_decide (CfgPeerID p ∈ flUp w)) ps).
Proof.
  induction ps as [|p ps IH]; [done|]. unfold answered in *. cbn [omap list_omap List.filter]. rw pollPeer_fleet.
  case_bool_decide; cbn [map]; by rw IH.
Qed.
Lemma select_fleet w ps quorum : 0 < quorum <= Z.of_nat (length (List.filter (fun p => bool_decide (CfgPeerID p ∈ flUp w)) ps)) ->
  exists id, selectQuorumState (answered (answersOf w) ps) quorum = Some (fleetResponse id (flMeta w)).
Proof.
  intros [Hq1 Hq2]. rw answered_fleet. set (up := List.filter _ ps) in *. set (states := map _ up).
  assert (Hin : forall s, s ∈ states -> exists id, s = fleetResponse id (flMeta w)).
  { intros s Hs. unfold states in Hs. apply list_elem_of_In, in_map_iff in Hs as (p & <- & _). by exists (CfgPeerID p). }
  assert (Hsame : forall s s', s ∈ states -> s' ∈ states -> committed s = committed s').
  { intros s s' (i & ->)%Hin (j & ->)%Hin. done. }
  pose proof (select_quorum states quorum (fun s1 s2 H1' H2' _ => Hsame s1 s2 H1' H2') Hq1) as Hs.
  destruct (selectQuorumState states quorum) as [state|]; [destruct Hs as [(id & ->)%Hin _]; by exists id|]. exfalso.
  destruct up as [|p up'] eqn:Hup; [cbn in Hq2; lia|]. pose proof (Hs (fleetResponse (CfgPeerID p) (flMeta w))) as Hv.
  assert (Hp : fleetResponse (CfgPeerID p) (flMeta w) ∈ states) by (unfold states; left). specialize (Hv Hp).
  assert (Hall : votes (fleetResponse (CfgPeerID p) (flMeta w)) states = Z.of_nat (length states)).
  { unfold votes. rw (zsum_ext _ (fun _ => 1)); [intros s Hs'; rw bool_decide_eq_true_2 //; by apply Hsame|].
    clear. induction states as [|s states IH]; [done|]. change (zsum (fun _ => 1) (s :: states)) with (1 + zsum (fun _ : ClusterStateResponse => 1) states). rw IH. cbn [length]. lia. }
  unfold states in Hall, Hv. rw length_map in Hall. lia.
Qed.

Lemma poll_fleet ps o w arrivals now : fleet_ok ps w -> oPeers o = ps -> arrivals ≡ₚ ps ->
  exists V, PollOnce o (answersOf w) arrivals now =
    (Some V, mkObserver ps (failureAfter o) (failureCount o) (oSkewThreshold o) (pFailures (foldl (receive o (answersOf w) now) (mkPolled [] ∅ (failures o)) arrivals))) /\
    ViewSlots V = viewOf <$> slots (flMeta w) /\ MetadataVersion V = version (flMeta w) /\
    forall id, attributes <$> Nodes V !! id =
      if bool_decide (id ∈ peerNames ps) then Some (attributes (polled o (answersOf w) now (failures o) id).1) else None.
Proof.
  intros Hok Hps Hperm. unfold PollOnce. set (p := foldl _ _ arrivals). cbn [oPeers]. rw Hps.
  pose proof (receive_states o (answersOf w) now (mkPolled [] ∅ (failures o)) arrivals) as Hst. fold p in Hst. cbn [pStates app] in Hst.
  assert (Hnames : peerNames arrivals ≡ₚ peerNames ps) by (unfold peerNames; by rw Hperm).
  destruct (select_fleet w arrivals (Z.of_nat (length ps) / 2 + 1)) as (id & Hsel).
  { split; [pose proof (Z.div_pos (Z.of_nat (length ps)) 2); lia|]. pose proof (fo_quorum _ _ Hok) as Hq.
    assert (Hlen : length (List.filter (fun p => bool_decide (CfgPeerID p ∈ flUp w)) arrivals) = length (List.filter (fun p => bool_decide (CfgPeerID p ∈ flUp w)) ps)).
    { apply Permutation_length. clear -Hperm. induction Hperm; cbn [List.filter]; repeat case_bool_decide; try done; try (by constructor); try (by etransitivity). }
    lia. }
  rw Hst Hsel. eexists. split; [reflexivity|]. cbn [ViewSlots MetadataVersion Nodes RSlots RMetadataVersion fleetResponse].
  split; [by rw -list_fmap_compose|]. split; [done|]. intros i.
  assert (Hlk : forall j, pNodes p !! j = if bool_decide (j ∈ peerNames ps) then Some (polled o (answersOf w) now (failures o) j).1 else None).
  { intros j. destruct (receive_lookup o (answersOf w) now arrivals (mkPolled [] ∅ (failures o)) j) as [Hj _]; [rw Hnames; apply Hok|]. fold p in Hj. rw Hj. cbn [pFailures pNodes].
    rw lookup_empty. by rw (bool_decide_ext (j ∈ peerNames arrivals) (j ∈ peerNames ps)); [by rw Hnames|]. }
  rw (countSlot_attributes (peerNames ps)).
  - intros j Hj. rw Hlk bool_decide_eq_true_2 //.
  - apply Forall_fmap. exact (fo_owned _ _ Hok).
  - rw Hlk. by case_bool_decide.
Qed.
End poll.

(** ** The observer's ticks *)

Lemma decodeSlots_self vs x : decodeSlots (vs ++ x) vs = vs.
Proof.
  induction vs as [|s vs IH]; [done|]. cbn [app decodeSlots tail]. rw IH. f_equal. unfold keepEmpty. destruct (String.eqb _ _); by destruct s.
Qed.

(** A view of the fleet after [k] polls: a node that is up can be used, one that is down
    is not, and after [count] polls it is taken for failed. *)
Record sees (ps : list PeerConfig) (w : Fleet) (count : Z) (k : nat) (V : ClusterView) : Prop := {
  se_slots : ViewSlots V = viewOf <$> slots (flMeta w);
  se_version : MetadataVersion V = version (flMeta w);
  se_dom : forall id, is_Some (Nodes V !! id) <-> id ∈ peerNames ps;
  se_up : forall id node, Nodes V !! id = Some node -> id ∈ flUp w -> usable node = true /\ Suspected node = false;
  se_down : forall id node, Nodes V !! id = Some node -> id ∉ flUp w -> count <= Z.of_nat k -> usable node = false /\ Suspected node = false
}.
(** The controller while it watches, [k] polls after [w]: it has no plan and its last view, if
    any, is of the same slots and nodes. *)
Record watching (ps : list PeerConfig) (w : Fleet) (count : Z) (k : nat) (l : Loops Fleet) : Prop := {
  wt_peers : oPeers (lpObserver l) = ps;
  wt_count : failureCount (lpObserver l) = count;
  wt_missed : forall id, id ∈ peerNames ps -> id ∉ flUp w -> consecutive (default zeroFailure (failures (lpObserver l) !! id)) = Z.of_nat k;
  wt_meta : flMeta (lpWorld l) = flMeta w;
  wt_up : flUp (lpWorld l) = flUp w;
  wt_fences : flFences (lpWorld l) = flFences w;
  wt_faults : flFaults (lpWorld l) = flFaults w;
  wt_index : flLast w <= flLast (lpWorld l);
  wt_plan : ActivePlan (flState (lpWorld l)) = None;
  wt_done : LastCompletedPlanID (flState (lpWorld l)) = LastCompletedPlanID (flState w);
  wt_array : let s := flState (lpWorld l) in let vs := viewOf <$> slots (flMeta w) in decodeSlots (ViewSlots (LatestView s) ++ staleSlots s) vs = vs;
  wt_nodes : forall id, is_Some (Nodes (LatestView (flState (lpWorld l))) !! id) -> id ∈ peerNames ps
}.

Section ticks.
Context `{SliceSortOk, MapRangeOk, PlanDigest, StateDigest, ReturningAPI Fleet} (e : ExecutorConfig) (ids : gset string).
Context (ps : list PeerConfig) (w0 : Fleet) (count : Z).

Lemma polled_attributes o w now id : attributes (polled o (answersOf w) now (failures o) id).1 =
  if bool_decide (id ∈ flUp w) then (id, true, false, 0, true, false)
  else let record := miss o now (default zeroFailure (failures o !! id)) in (id, negb (failed record), negb (failed record), consecutive record, negb (failed record), false).
Proof. unfold polled. rw pollPeer_fleet. by case_bool_decide. Qed.

Lemma attributes_inv node id r s k el ret : attributes node = (id, r, s, k, el, ret) -> Reachable node = r /\ Suspected node = s /\ Eligible node = el.
Proof. destruct node. unfold attributes. cbn. intros [=]. done. Qed.
(** What a poll sees. *)
Lemma poll_sees o w arrivals now k : fleet_ok ps w -> oPeers o = ps -> failureCount o = count -> 0 < count -> arrivals ≡ₚ ps ->
  (forall id, id ∈ peerNames ps -> id ∉ flUp w -> consecutive (default zeroFailure (failures o !! id)) = Z.of_nat k) ->
  exists V o', PollOnce o (answersOf w) arrivals now = (Some V, o') /\ sees ps w count (S k) V /\ oPeers o' = ps /\ failureCount o' = count /\
    forall id, id ∈ peerNames ps -> id ∉ flUp w -> consecutive (default zeroFailure (failures o' !! id)) = Z.of_nat (S k).
Proof.
  intros Hok Hps Hc Hpos Hperm Hk. destruct (poll_fleet ps o w arrivals now Hok Hps Hperm) as (V & Hp & Hslots & Hversion & Hnodes).
  eexists V, _. split; [exact Hp|]. split; [|split; [done|]; split; [done|]].
  - assert (Hat : forall id node, Nodes V !! id = Some node -> attributes node = attributes (polled o (answersOf w) now (failures o) id).1 /\ id ∈ peerNames ps).
    { intros id node Hn. specialize (Hnodes id). rw Hn in Hnodes. case_bool_decide; [|done]. by apply (inj Some) in Hnodes. }
    split; [done|done| | |].
    + intros id. specialize (Hnodes id). case_bool_decide as Hin; destruct (Nodes V !! id); try done; (split; [|done]); try done; by intros [? ?].
    + intros id node [Ha _]%Hat Hup. rw polled_attributes bool_decide_eq_true_2 // in Ha. apply attributes_inv in Ha as (Hr & Hs & He). unfold usable. by rw Hr Hs He.
    + intros id node [Ha Hin]%Hat Hup Hle. rw polled_attributes bool_decide_eq_false_2 // in Ha.
      assert (Hf : failed (miss o now (default zeroFailure (failures o !! id))) = true).
      { unfold miss. cbn [failed]. rw (Hk id Hin Hup) Hc. apply orb_true_iff. left. apply andb_true_iff. split; [by apply Z.ltb_lt|apply Z.leb_le; lia]. }
      cbv zeta in Ha. rw Hf in Ha. apply attributes_inv in Ha as (Hr & Hs & He). unfold usable. by rw Hr Hs He.
  - intros id Hin Hup. cbn [failures].
    destruct (receive_lookup o (answersOf w) now arrivals (mkPolled [] ∅ (failures o)) id) as [_ Hl]; [unfold peerNames; rw Hperm; apply Hok|]. rw Hl.
    rw bool_decide_eq_true_2; [unfold peerNames; by rw Hperm|]. cbn [default pFailures]. unfold polled. rw pollPeer_fleet bool_decide_eq_false_2 //.
    unfold observeResult. cbn -[Z.of_nat]. unfold Datatypes.id. rw (Hk id Hin Hup). lia.
Qed.

(** Committing the view. *)
Lemma observe_apply V index s k : sees ps w0 count k V -> ActivePlan s = None ->
  (let vs := viewOf <$> slots (flMeta w0) in decodeSlots (ViewSlots (LatestView s) ++ staleSlots s) vs = vs) ->
  (forall id, is_Some (Nodes (LatestView s) !! id) -> id ∈ peerNames ps) ->
  exists s', Apply index (CommandObserveView V) s = (None, s') /\ sees ps w0 count k (LatestView s') /\ ActivePlan s' = None /\
    LastCompletedPlanID s' = LastCompletedPlanID s /\
    decodeSlots (ViewSlots (LatestView s') ++ staleSlots s') (viewOf <$> slots (flMeta w0)) = viewOf <$> slots (flMeta w0).
Proof.
  intros HV Hplan Harr Hdom. cbv zeta in Harr. eexists. split; [reflexivity|].
  assert (Hn : Nodes V ∪ Nodes (LatestView s) = Nodes V).
  { apply map_eq. intros id. rw lookup_union. destruct (Nodes V !! id) as [n|] eqn:HVn; [by rw union_Some_l|]. rw left_id_L.
    destruct (Nodes (LatestView s) !! id) as [m|] eqn:Hm; [|done]. exfalso. assert (Hin : id ∈ peerNames ps) by (apply Hdom; by rw Hm).
    apply (se_dom _ _ _ _ _ HV) in Hin as [x Hx]. congruence. }
  destruct s as [view stale plan ci una ret last reb]. cbn in Hplan, Harr, Hn. subst plan.
  unfold setIndex, setOperation, setStatus, decodeView, setView, updatePlanStatus. cbn.
  rw (se_slots _ _ _ _ _ HV) Harr Hn. split; [|split; [done|]; split; [done|]].
  - destruct HV. split; cbn; try done.
  - apply decodeSlots_self.
Qed.

Lemma observer_tick l arrivals k : fleet_ok ps w0 -> 0 < count -> arrivals ≡ₚ ps -> watching ps w0 count k l ->
  exists l', loopTick e ids (ObserverTick arrivals) l = Some l' /\ watching ps w0 count (S k) l' /\ sees ps w0 count (S k) (LatestView (flState (lpWorld l'))) /\
    lpPlanner l' = lpPlanner l /\ lpLast l' = lpLast l.
Proof.
  intros Hok Hpos Hperm [Hps Hc Hk Hmeta Hup Hfences Hfaults Hidx Hplan Hdone Harr Hdom]. destruct l as [o p last w]. cbn [lpObserver lpWorld lpPlanner lpLast] in *.
  assert (Hokw : fleet_ok ps w) by (destruct Hok; split; rw ?Hmeta ?Hup; done).
  destruct (poll_sees o w arrivals (flTime w) k Hokw Hps Hc Hpos Hperm) as (V & o' & Hpoll & HV & Hps' & Hc' & Hk'); [by rw Hup|]. rw Hup in Hk'.
  assert (HV0 : sees ps w0 count (S k) V) by (destruct HV; split; rewrite <- ?Hmeta, <- ?Hup; done).
  cbn [loopTick]. unfold ObserverRun, ObserveAndCommit. cbn [lpObserver lpWorld IsLeader fleetProposer negb TimeNow fleetClock]. rw Hpoll. cbn [ProposerState fleetProposer].
  unfold materiallyEqualViews. case_bool_decide as Hm.
  - eexists. split; [reflexivity|]. split; [by split|]. split; [|done]. cbn [lpWorld]. unfold State, setView, material in Hm. cbn in Hm.
    injection Hm as _ Hm1 Hm2 Hm3 _ _ _ _ _. destruct HV0. split; rw ?Hm1 ?Hm2 ?Hm3 //.
  - destruct (observe_apply V (flLast w + 1) (flState w) (S k) HV0 Hplan Harr Hdom) as (s' & Ha & Hs' & Hp' & Hd' & Hr'). cbn [Propose fleetProposer]. rw Ha.
    eexists. split; [reflexivity|]. cbn [lpWorld lpObserver flState]. split; [|done]. split; cbn [lpObserver lpWorld flMeta flUp flFences flFaults flLast flState]; try done; [lia|congruence|].
    intros id. apply (se_dom _ _ _ _ _ Hs').
Qed.
Lemma observer_ticks arrivals l k : fleet_ok ps w0 -> 0 < count -> Forall (fun a => a ≡ₚ ps) arrivals -> watching ps w0 count k l -> arrivals <> [] ->
  exists l', loopRun e ids (map ObserverTick arrivals) l = Some l' /\ watching ps w0 count (k + length arrivals) l' /\
    sees ps w0 count (k + length arrivals) (LatestView (flState (lpWorld l'))) /\ lpPlanner l' = lpPlanner l /\ lpLast l' = lpLast l.
Proof.
  intros Hok Hpos. revert l k. induction arrivals as [|a arrivals IH]; intros l k Hf Hw Hne; [done|]. apply Forall_cons in Hf as [Ha Hf]. cbn [map loopRun].
  destruct (observer_tick l a k Hok Hpos Ha Hw) as (l1 & Ht & Hw1 & Hs1 & Hp1 & Hl1). rw Ht. cbn [mbind option_bind length]. rw Nat.add_succ_r -Nat.add_succ_l.
  destruct arrivals as [|b arrivals]; [exists l1; rw Nat.add_0_r; done|]. destruct (IH l1 (S k) Hf Hw1) as (l2 & Hr & Hw2 & Hs2 & Hp2 & Hl2); [done|].
  exists l2. split; [done|]. split; [done|]. split; [done|]. split; congruence.
Qed.
End ticks.

(** ** The plan and its execution *)

Lemma PlanFailover_same `{SliceSort, MapRange, PlanDigest} V V' : ViewSlots V' = ViewSlots V -> Nodes V' = Nodes V -> MetadataVersion V' = MetadataVersion V ->
  PlanFailover V' = PlanFailover V.
Proof. destruct V, V'. cbn. intros -> -> ->. reflexivity. Qed.

(** What the fleet has to offer for a recovery. *)
Record recoverable (ps : list PeerConfig) (e : ExecutorConfig) (w : Fleet) : Prop := {
  rc_numbered : numbered (flMeta w);
  rc_owners : forall s, s ∈ slots (flMeta w) -> LeaderID s <> ReplicaID s;
  rc_clients : forall id, id ∈ peerNames ps -> id ∈ clients e /\ id ∈ peerIDs (flMeta w);
  rc_version : 0 <= version (flMeta w);
  rc_last : 0 <= flLast w;
  rc_fences : forall id f, flFences w !! id = Some f -> FControlIndex f <= flLast w;
  rc_faults : flFaults w = O
}.

Section plan.
Context `{SliceSortOk, MapRangeOk, PlanDigest, StateDigest, ReturningAPI Fleet} (e : ExecutorConfig) (ids : gset string).
Context (ps : list PeerConfig) (w0 : Fleet) (count : Z).

Lemma sees_some k V : fleet_ok ps w0 -> sees ps w0 count k V -> eligibleNodeIDs V <> [].
Proof.
  intros Hok HV Hnil. pose proof (fo_quorum _ _ Hok) as Hq.
  destruct (List.filter (fun p => bool_decide (CfgPeerID p ∈ flUp w0)) ps) as [|p rest] eqn:Hf.
  { cbn in Hq. pose proof (Z.div_pos (Z.of_nat (length ps)) 2). lia. }
  assert (Hp : In p (List.filter (fun p => bool_decide (CfgPeerID p ∈ flUp w0)) ps)) by (rw Hf; by left).
  apply filter_In in Hp as [Hin Hup%bool_decide_eq_true].
  assert (Hname : CfgPeerID p ∈ peerNames ps) by (apply list_elem_of_fmap; exists p; split; [done|by apply list_elem_of_In]).
  apply (se_dom _ _ _ _ _ HV) in Hname as [node Hn]. destruct (se_up _ _ _ _ _ HV _ _ Hn Hup) as [Hu _].
  apply (not_elem_of_nil (CfgPeerID p)). rw -Hnil. unfold eligibleNodeIDs, selectNodes, sortStrings. rw slice_sort_elem list_elem_of_fmap.
  exists (CfgPeerID p, node). split; [done|]. apply list_elem_of_In, filter_In. split; [apply list_elem_of_In; by apply range_elem|done].
Qed.

Lemma planner_tick l plan k : fleet_ok ps w0 -> recoverable ps e w0 -> count <= Z.of_nat k -> watching ps w0 count k l ->
  sees ps w0 count k (LatestView (flState (lpWorld l))) -> PlanFailover (LatestView (flState (lpWorld l))) = Some plan ->
  LastCompletedPlanID (flState w0) <> PlanID plan -> version (flMeta w0) + Z.of_nat (length (Steps plan)) < 2 ^ 64 ->
  exists l', loopTick e ids PlannerTick l = Some l' /\ outage e plan (lpWorld l') /\ flMeta (lpWorld l') = flMeta w0 /\
    Nodes (LatestView (flState (lpWorld l'))) = Nodes (LatestView (flState (lpWorld l))) /\ lpLast l' = lpLast l.
Proof.
  intros Hok Hrc Hle Hw HV Hplan Hdone Hroom. pose proof (sees_some _ _ Hok HV) as Hsome. destruct Hw, Hrc. destruct l as [o p last w]. cbn [lpObserver lpWorld lpPlanner lpLast] in *.
  cbn [loopTick]. unfold PlannerRun, Evaluate. cbn [lpWorld TimeNow fleetClock IsLeader fleetProposer negb ProposerState lpPlanner lpObserver lpLast].
  unfold decide_plan. change (LatestView (State (flState w))) with (LatestView (flState w)). rw Hplan.
  change (ActivePlan (State (flState w))) with (ActivePlan (flState w)). rw wt_plan0. change (LastCompletedPlanID (State (flState w))) with (LastCompletedPlanID (flState w)).
  rw wt_done0 (proj2 (String.eqb_neq _ _) Hdone). cbn [mbind option_bind Propose fleetProposer]. cbn [Apply applyCommand].
  eexists. split; [reflexivity|]. cbn [lpWorld lpLast flMeta flState].
  set (s' := setOperation _ _).
  assert (Hs' : ActivePlan s' = Some plan /\ ViewSlots (LatestView s') = ViewSlots (LatestView (flState w)) /\ Nodes (LatestView s') = Nodes (LatestView (flState w)) /\
    MetadataVersion (LatestView s') = MetadataVersion (LatestView (flState w)) /\ ControlIndex s' = flLast w + 1).
  { unfold s', updatePlanStatus, setPlan. cbn [ActivePlan]. repeat case_match; done. }
  destruct Hs' as (Hp1 & Hp2 & Hp3 & Hp4 & Hp5). split; [|done].
  assert (Hnode : forall id node, Nodes (LatestView s') !! id = Some node -> id ∈ peerNames ps /\ Suspected node = false /\ (usable node = true -> id ∈ flUp w0)).
  { intros id node. rw Hp3. intros Hn. split; [apply (se_dom _ _ _ _ _ HV); by rw Hn|]. destruct (decide (id ∈ flUp w0)) as [Hup|Hup].
    - by destruct (se_up _ _ _ _ _ HV _ _ Hn Hup).
    - destruct (se_down _ _ _ _ _ HV _ _ Hn Hup Hle) as [Hu Hs]. split; [done|]. by rw Hu. }
  split; cbn [flState flMeta flUp flFences flFaults flLast]; rw ?wt_meta0 ?wt_up0 ?wt_faults0 //.
  - rw -Hplan. by apply PlanFailover_same.
  - rw Hp2. by apply HV.
  - rw Hp4. by apply HV.
  - intros id node (Hin & Hs & _)%Hnode. split; [|done]. intros ->. by destruct (fo_names _ _ Hok).
  - intros id node (Hin & _ & Hu)%Hnode Hus. destruct (rc_clients0 id Hin). split; [split; [by apply Hu|done]|done].
  - unfold eligibleNodeIDs, selectNodes in *. by rw Hp3.
  - rw Hp5. lia.
  - intros id f. rw Hp5 wt_fences0. intros Hf%rc_fences0. lia.
Qed.
End plan.

Lemma recovered_same `{SliceSort, MapRange} V V' s v : Nodes V' = Nodes V -> recovered V' s v -> recovered V s v.
Proof. destruct V, V'. cbn. intros ->. done. Qed.

(** C10: automatic failover works from end to end when nothing but the failed
    nodes is in its way.  The loops of the controller run in the idealised fleet
    of [Recovery]: the nodes share one copy of the metadata, on which they carry
    out the operations of [cluster/metadata.go] behind their fences; a node that
    is up answers every poll and request, and every transfer of data succeeds; the
    controller stays the leader, and its proposals are committed at once.  Let
    more than half of the nodes be up, the controller have no plan and have missed
    none of the failed nodes yet, its last view name only configured nodes and leave
    nothing behind that the next view would inherit (the case of [fsm.go:54]), the
    fences not be ahead of its log, and leader and replica of every slot be
    different configured nodes.  After as many turns of the observer's loop as the
    configuration asks for, whatever the order of the answers, the committed view
    has the slots of the cluster and takes exactly the nodes that are up for usable.
    If a failover is needed that was not just completed, and the version of the
    metadata does not overflow, one turn of the planner and one of the executor
    then carry out the whole plan: a surviving ready replica leads the slots of
    failed leaders, every slot with a surviving copy has a ready replica on another
    usable node if there is one, the others are recorded as unavailable, and the
    controller is without a plan again. *)
Theorem failover_completes `{SliceSortOk, MapRangeOk, PlanDigest, StateDigest, ReturningAPI Fleet} (e : ExecutorConfig) (ids : gset string)
    (ps : list PeerConfig) (arrivals : list (list PeerConfig)) (fuel : nat) (l : Loops Fleet) :
  let w := lpWorld l in
  fleet_ok ps w -> recoverable ps e w -> watching ps w (failureCount (lpObserver l)) 0 l ->
  Forall (fun a => a ≡ₚ ps) arrivals -> 0 < failureCount (lpObserver l) <= Z.of_nat (length arrivals) ->
  exists l1, loopRun e ids (map ObserverTick arrivals) l = Some l1 /\
    let V := LatestView (flState (lpWorld l1)) in
    ViewSlots V = viewOf <$> slots (flMeta w) /\
    (forall id, (exists node, Nodes V !! id = Some node /\ usable node = true) <-> id ∈ peerNames ps /\ id ∈ flUp w) /\
    forall plan, PlanFailover V = Some plan -> LastCompletedPlanID (flState w) <> PlanID plan ->
      version (flMeta w) + Z.of_nat (length (Steps plan)) < 2 ^ 64 ->
      exists l2, loopRun e ids [PlannerTick; ExecutorTick (S fuel)] l1 = Some l2 /\
        ActivePlan (flState (lpWorld l2)) = None /\ LastCompletedPlanID (flState (lpWorld l2)) = PlanID plan /\
        forall i s, slots (flMeta w) !! i = Some s ->
          (exists s', slots (flMeta (lpWorld l2)) !! i = Some s' /\ recovered V (viewOf s) (viewOf s')) /\
          (classifySlot (Nodes V) (viewOf s) = SlotNoSurvivingCopy -> is_Some (Unavailable (flState (lpWorld l2)) !! Z.of_nat i)).
Proof.
  intros w Hok Hrc Hw Hperm Hcount. destruct (observer_ticks e ids ps w (failureCount (lpObserver l)) arrivals l 0 Hok) as (l1 & Hr & Hw1 & HV & Hp1 & Hl1); [lia|done|done|by destruct arrivals; cbn in Hcount; [lia|]|].
  cbn [Nat.add] in Hw1, HV. assert (Hle : failureCount (lpObserver l) <= Z.of_nat (length arrivals)) by lia.
  exists l1. split; [done|]. cbv zeta. split; [apply HV|]. split.
  { intros id. split.
    - intros (node & Hn & Hu). assert (Hin : id ∈ peerNames ps) by (apply (se_dom _ _ _ _ _ HV); by rw Hn). split; [done|].
      destruct (decide (id ∈ flUp w)) as [|Hup]; [done|]. destruct (se_down _ _ _ _ _ HV _ _ Hn Hup Hle) as [Hu' _]. congruence.
    - intros [Hin Hup]. apply (se_dom _ _ _ _ _ HV) in Hin as [node Hn]. exists node. split; [done|]. by destruct (se_up _ _ _ _ _ HV _ _ Hn Hup). }
  intros plan Hplan Hdone Hroom. destruct (planner_tick e ids ps w _ l1 plan _ Hok Hrc Hle Hw1 HV Hplan Hdone Hroom) as (l2 & Ht & Hout & Hmeta & Hnodes & Hlast).
  destruct (recovery_completes e plan fuel (lpLast l2) (lpWorld l2) Hout) as (last' & w' & Hx & Ha & Hc & Hslots).
  exists (mkLoops (lpObserver l2) (lpPlanner l2) last' w'). split.
  { cbn [loopRun]. rw Ht. cbn [mbind option_bind loopTick]. unfold ExecutorRun, ifLeader. cbn [IsLeader fleetProposer negb]. rw Hx. done. }
  split; [done|]. split; [done|]. rw Hmeta Hnodes in Hslots. intros i s Hi. destruct (Hslots i s Hi) as [(s' & Hs' & Hrec) Hun]. split; [|done].
  exists s'. split; [done|]. eapply recovered_same; [exact Hnodes|exact Hrec].
Qed.

(** Three nodes of which the first is down, and a controller without a view. *)
#[local] Existing Instance plainDigest.
#[local] Instance oneDigest : StateDigest := fun _ => "".
#[local] Instance noReturning : ReturningAPI Fleet := {| PrepareReturning _ _ _ _ w := (inr "", w); AdmitReturning _ _ _ _ w := (inr "", w) |}.
Definition threePeers : list PeerConfig := [mkPeerConfig "n1" "automatic"; mkPeerConfig "n2" "automatic"; mkPeerConfig "n3" "automatic"].
Definition downLoops : Loops Fleet :=
  mkLoops (NewObserver threePeers (mkControllerConfig 100 1000 2 1 1)) (NewPlanner (mkControllerConfig 100 1000 2 1 1)) None
    (mkFleet NewFSM 0 outageMeta {["n2"; "n3"]} ∅ 0 0).
Definition downRun : option (Loops Fleet) := loopRun outageExecutor ∅ (map ObserverTick [rev threePeers; threePeers]) downLoops.
Definition downPlan : RecoveryPlan := match downRun with Some l => default zeroPlan (PlanFailover (LatestView (flState (lpWorld l)))) | None => zeroPlan end.
Lemma down_planned : (fun l => (PlanFailover (LatestView (flState (lpWorld l))), String.eqb "" (PlanID downPlan), length (Steps downPlan),
    classifySlot (Nodes (LatestView (flState (lpWorld l)))) (viewOf (mkSlot 0 "n1" "n2" 1 5 5 true)))) <$> downRun = Some (Some downPlan, false, 6%nat, SlotLeaderless).
Proof. vm_compute. reflexivity. Qed.

Lemma down_names id : id ∈ peerNames threePeers -> id = "n1" \/ id = "n2" \/ id = "n3".
Proof. unfold peerNames, threePeers. cbn. set_solver. Qed.
Lemma down_slots (P : SlotState -> Prop) : P (mkSlot 0 "n1" "n2" 1 5 5 true) -> P (mkSlot 1 "n2" "n3" 1 0 0 true) -> P (mkSlot 2 "n3" "n1" 1 2 2 true) ->
  P (mkSlot 3 "n1" "n3" 1 0 0 false) -> forall s, s ∈ slots outageMeta -> P s.
Proof. intros H1 H2 H3 H4 s Hs. by repeat (apply elem_of_cons in Hs as [->|Hs]; [done|]); apply not_elem_of_nil in Hs. Qed.

Lemma failover_completes_witness : exists l1 l2, downRun = Some l1 /\ loopRun outageExecutor ∅ [PlannerTick; ExecutorTick 1] l1 = Some l2 /\
  ActivePlan (flState (lpWorld l2)) = None /\ exists s', slots (flMeta (lpWorld l2)) !! 0%nat = Some s' /\ LeaderID s' = "n2".
Proof.
  destruct (failover_completes outageExecutor ∅ threePeers [rev threePeers; threePeers] 0 downLoops) as (l1 & Hr & Hs & _ & Hplan).
  - split; [by repeat constructor; set_solver|set_solver| |by vm_compute].
    apply Forall_forall. apply down_slots; (split; [set_solver|]); right; set_solver.
  - split; [|apply down_slots; discriminate| |done|done|done|done].
    + split; [by vm_compute|]. intros i s Hi. by do 4 (destruct i as [|i]; [by injection Hi as <-|]).
    + intros id [-> |[-> | ->]]%down_names; split; apply (bool_decide_unpack _); vm_compute; exact I.
  - split; try done. by intros id [? ?].
  - repeat constructor. symmetry. apply Permutation_rev.
  - by vm_compute.
  - pose proof down_planned as Hd. unfold downRun in *. rw Hr in Hd. cbn [fmap option_fmap option_map] in Hd. apply (inj Some) in Hd. apply pair_equal_spec in Hd as [Hd Hcl]. apply pair_equal_spec in Hd as [Hd Hlen]. apply pair_equal_spec in Hd as [Hp Hid].
    destruct (Hplan downPlan Hp) as (l2 & Hx & Ha & _ & Hslots); [cbn; intros Heq; by rw -Heq in Hid|rw Hlen; by vm_compute|].
    exists l1, l2. split; [exact Hr|]. split; [exact Hx|]. split; [exact Ha|].
    destruct (Hslots 0%nat _ eq_refl) as [(s' & Hs' & Hrec) _]. exists s'. split; [exact Hs'|].
    unfold recovered in Hrec. rw Hcl in Hrec. exact (proj1 Hrec).
Defined.
