(* ===== verification/Dashboard.v ===== *)
(** * The API client of the dashboard: [frontend/src/api]

    What the browser makes of the responses of a node: the types of
    [types.ts], the checks of [validate.ts] and the requests of [client.ts] and
    [events.ts].  A string of JavaScript is its UTF-8 text, a number a binary64
    value.  The names of some types are those of the Go types they mirror, so the
    file is meant to be used with qualified names. *)
From S2P Require Import Prelude GoText GoFloat GoFloatText Json AdminNode NodeClient.
Local Open Scope Z_scope.

(** ** Values *)

Inductive JsValue :=
  | JsUndefined
  | JsNull
  | JsBoolean (b : bool)
  | JsNumber (n : float64)
  | JsString (s : string)
  | JsArray (items : list JsValue)
  | JsObject (members : list (string * JsValue)).

(** An object has one value per key; keys keep the order in which they were
    added (none of those used here looks like an array index). *)
Fixpoint setMember {A} (key : string) (v : A) (members : list (string * A)) : list (string * A) :=
  match members with
  | [] => [(key, v)]
  | (k, old) :: members => if String.eqb k key then (k, v) :: members else (k, old) :: setMember key v members
  end.
Fixpoint member (key : string) (members : list (string * JsValue)) : JsValue :=
  match members with
  | [] => JsUndefined
  | (k, v) :: members => if String.eqb k key then v else member key members
  end.

(** [JSON.parse], with the reader of [Json]: a number that is too large is an
    infinity. *)
Definition jsNumber (text : string) : float64 :=
  match ParseFloat text with Some f => f | None => S754_infinity (hasPrefix "-" text) end.
Fixpoint jsOfJson (j : Json) : JsValue :=
  match j with
  | JNull => JsNull
  | JBool b => JsBoolean b
  | JNum text => JsNumber (jsNumber text)
  | JStr s => JsString s
  | JArr js => JsArray (map jsOfJson js)
  | JObj ms => JsObject (foldl (fun acc m => setMember m.1 m.2 acc) [] (map (fun m => (m.1, jsOfJson m.2)) ms))
  end.
Definition JSONparse (text : string) : option JsValue := jsOfJson <$> parseJson text.

(** [JSON.stringify] of a string, of an array of strings and of an object with
    one key. *)
Definition jsQuoteByte (c : ascii) : string :=
  let b := byteZ c in
  let esc d := String backslash (String d "") in
  if (b =? 34) || (b =? 92) then esc c
  else if b =? 8 then esc "b"%char
  else if b =? 12 then esc "f"%char
  else if b =? 10 then esc "n"%char
  else if b =? 13 then esc "r"%char
  else if b =? 9 then esc "t"%char
  else if b <? 32 then String backslash "u00" +:+ String (hexLower (b / 16)) (String (hexLower (b mod 16)) "")
  else String c "".
Fixpoint jsQuoteBody (s : string) : string :=
  match s with "" => "" | String c s => jsQuoteByte c +:+ jsQuoteBody s end.
Definition jsQuote (s : string) : string := String quoteMark (jsQuoteBody s +:+ String quoteMark "").
Fixpoint jsItems (l : list string) : string :=
  match l with [] => "" | [s] => jsQuote s | s :: l => jsQuote s +:+ "," +:+ jsItems l end.
Definition jsList (l : list string) : string := "[" +:+ jsItems l +:+ "]".
Definition jsField (key text : string) : string := "{" +:+ jsQuote key +:+ ":" +:+ text +:+ "}".

(** ** Checks *)

Record ResponseValidationError := mkInvalid { source : string; detail : string }.
Definition invalidText (e : ResponseValidationError) : string := source e +:+ " returned an unexpected response: " +:+ detail e.

Definition Parsed (A : Type) : Type := A + ResponseValidationError.
#[export] Instance Parsed_ret : MRet Parsed := fun A a => inl a.
#[export] Instance Parsed_bind : MBind Parsed := fun A B f m => match m with inl a => f a | inr e => inr e end.
Definition fail {A} (source detail : string) : Parsed A := inr (mkInvalid source detail).

Section checks.
Context (value : JsValue) (source field : string).
Definition object : Parsed (list (string * JsValue)) :=
  match value with JsObject members => mret members | _ => fail source (field +:+ " must be an object") end.
Definition array : Parsed (list JsValue) :=
  match value with JsArray items => mret items | _ => fail source (field +:+ " must be an array") end.
Definition optionalArray : Parsed (option (list JsValue)) :=
  match value with JsUndefined | JsNull => mret None | _ => items ← array; mret (Some items) end.
Definition arrayOrEmpty : Parsed (list JsValue) :=
  match value with JsUndefined | JsNull => mret [] | _ => array end.
Definition stringOf : Parsed string :=
  match value with JsString s => mret s | _ => fail source (field +:+ " must be a string") end.
Definition optionalString : Parsed (option string) :=
  match value with JsUndefined => mret None | _ => s ← stringOf; mret (Some s) end.
Definition boolean : Parsed bool :=
  match value with JsBoolean b => mret b | _ => fail source (field +:+ " must be a boolean") end.
Definition isFinite (f : float64) : bool := match f with S754_nan | S754_infinity _ => false | _ => true end.
Definition finiteNumber : Parsed float64 :=
  match value with
  | JsNumber n => if isFinite n then mret n else fail source (field +:+ " must be a finite number")
  | _ => fail source (field +:+ " must be a finite number")
  end.
Definition optionalNumber : Parsed (option float64) :=
  match value with JsUndefined => mret None | _ => n ← finiteNumber; mret (Some n) end.
End checks.

(** [map] with an index. *)
Fixpoint mapItems {A B} (f : A -> nat -> Parsed B) (index : nat) (items : list A) : Parsed (list B) :=
  match items with
  | [] => mret []
  | a :: items => b ← f a index; bs ← mapItems f (S index) items; mret (b :: bs)
  end.
Definition at_ (field : string) (index : nat) : string := field +:+ "[" +:+ FormatUint (Z.of_nat index) +:+ "]".
Definition mapOptional {A B} (f : A -> nat -> Parsed B) (items : option (list A)) : Parsed (option (list B)) :=
  match items with None => mret None | Some items => bs ← mapItems f 0 items; mret (Some bs) end.
(** [value === undefined ? undefined : f(value)] *)
Definition unlessUndefined {B} (value : JsValue) (f : JsValue -> Parsed B) : Parsed (option B) :=
  match value with JsUndefined => mret None | _ => b ← f value; mret (Some b) end.
Definition optionalStringArray (value : JsValue) (source field : string) : Parsed (option (list string)) :=
  items ← optionalArray value source field;
  mapOptional (fun item index => stringOf item source (at_ field index)) items.
Fixpoint numberEntries (entries : list (string * JsValue)) (source field : string) (result : list (string * float64)) : Parsed (list (string * float64)) :=
  match entries with
  | [] => mret result
  | (key, item) :: entries => n ← finiteNumber item source (field +:+ "." +:+ key); numberEntries entries source field (setMember key n result)
  end.
Definition numberRecord (value : JsValue) (source field : string) : Parsed (list (string * float64)) :=
  members ← object value source field; numberEntries members source field [].

(** ** Types *)

Record HealthResponse := mkHealth { hStatus : string; hNodeId : string; hMode : string; hDataState : option string }.
Record EngineStateResponse := mkEngineState {
  esUsedBytes : float64; esMemoryLimit : float64; esAvailableBytes : float64; esUsageRatio : float64;
  esEvictionPolicy : string; esRejectedWrites : float64
}.
Record MetricsSummary := mkSummary { msCounters : list (string * float64) }.
Record PeerStatus := mkPeer { pId : string; pAddress : string; pState : string }.
Record SlotStatus := mkSlot {
  slNumber : float64; slLeaderId : string; slReplicaId : option string; slLocalRole : string; slTerm : float64;
  slLastSequence : float64; slLastAppliedSequence : float64; slReplicaReady : bool
}.
Record RecoveryPlanStatus := mkPlan { rpId : string; rpKind : string; rpReason : string; rpCompletedSteps : float64; rpTotalSteps : float64 }.
Record RecoverySlotStatus := mkRecoverySlot {
  rsSlot : float64; rsClassification : string; rsFormerLeaderId : string; rsFormerReplicaId : option string; rsFailures : option (list string);
  rsReadsAvailable : bool; rsWritesAvailable : bool; rsRejectedCommands : option (list string); rsMessage : string
}.
Record RecoveryStatus := mkRecovery {
  rcState : string; rcControlIndex : float64; rcFailedNodes : option (list string); rcSuspectedNodes : option (list string);
  rcOneCopySlots : option (list RecoverySlotStatus); rcUnavailableSlots : option (list RecoverySlotStatus);
  rcActivePlan : option RecoveryPlanStatus; rcLatestOperation : option string; rcWarning : option string; rcDataPolicy : option string
}.
Record ClusterStateResponse := mkClusterState {
  clEnabled : bool; clNodeId : string; clClusterId : option string; clSlotCount : option float64; clMetadataVersion : option float64;
  clRoutingMode : option string; clFailoverMode : option string; clPeers : list string; clMembership : option (list PeerStatus);
  clSlots : option (list SlotStatus); clDataState : option string; clRecovery : option RecoveryStatus
}.
Record ViewNode := mkViewNode {
  vnId : string; vnReachable : bool; vnSuspected : bool; vnEligible : bool; vnReturning : bool; vnLeaderSlots : float64; vnReplicaSlots : float64
}.
Record ViewSlot := mkViewSlot { vsNumber : float64; vsLeaderId : string; vsReplicaId : option string; vsTerm : float64; vsReplicaReady : bool }.
Record CurrentView := mkView {
  cvClusterId : string; cvMetadataVersion : float64; cvObservedAt : option string; cvStatus : string; cvNodes : list ViewNode; cvSlots : list ViewSlot
}.
Record LastRebalance := mkLast { lrId : string; lrKind : string; lrEpoch : float64; lrControlIndex : float64 }.
Record ControllerStateResponse := mkController {
  csNodeId : string; csRaftRole : string; csRaftLeaderId : option string; csRaftTerm : float64; csIsLeader : bool; csControlIndex : float64;
  csCurrentView : CurrentView; csRecovery : RecoveryStatus; csLastRebalance : option LastRebalance
}.
Record NodeEvent := mkNodeEvent {
  neTimestamp : float64; neUsedBytes : float64; neMemoryLimit : float64; neAvailableBytes : float64; nePolicy : string;
  neRejectedWrites : option float64; neCounters : option (list (string * float64)); neRecovery : option RecoveryStatus
}.
Inductive CommandResult :=
  | StringResult (value : string)
  | ErrorResult (value : string)
  | IntegerResult (value : float64)
  | BulkResult (value : string)
  | NilResult
  | ArrayResult (value : list CommandResult).

(** ** Parsers *)

Definition parseHealthResponse (value : JsValue) : Parsed HealthResponse :=
  let source := "/health" in
  obj ← object value source "body";
  status ← stringOf (member "status" obj) source "status";
  nodeId ← stringOf (member "nodeId" obj) source "nodeId";
  mode ← stringOf (member "mode" obj) source "mode";
  dataState ← optionalString (member "dataState" obj) source "dataState";
  mret (mkHealth status nodeId mode dataState).

Definition parseEngineStateResponse (value : JsValue) : Parsed EngineStateResponse :=
  let source := "/engine/state" in
  obj ← object value source "body";
  usedBytes ← finiteNumber (member "usedBytes" obj) source "usedBytes";
  memoryLimit ← finiteNumber (member "memoryLimit" obj) source "memoryLimit";
  availableBytes ← finiteNumber (member "availableBytes" obj) source "availableBytes";
  usageRatio ← finiteNumber (member "usageRatio" obj) source "usageRatio";
  evictionPolicy ← stringOf (member "evictionPolicy" obj) source "evictionPolicy";
  rejectedWrites ← finiteNumber (member "rejectedWrites" obj) source "rejectedWrites";
  mret (mkEngineState usedBytes memoryLimit availableBytes usageRatio evictionPolicy rejectedWrites).

Definition parseMetricsSummary (value : JsValue) : Parsed MetricsSummary :=
  let source := "/metrics/summary" in
  obj ← object value source "body";
  counters ← numberRecord (member "counters" obj) source "counters";
  mret (mkSummary counters).

Definition parsePeer (value : JsValue) (index : nat) : Parsed PeerStatus :=
  let source := "/cluster/state" in
  let here := at_ "membership" index in
  obj ← object value source here;
  id ← stringOf (member "id" obj) source (here +:+ ".id");
  address ← stringOf (member "address" obj) source (here +:+ ".address");
  state ← stringOf (member "state" obj) source (here +:+ ".state");
  mret (mkPeer id address state).

Definition parseSlot (value : JsValue) (index : nat) : Parsed SlotStatus :=
  let source := "/cluster/state" in
  let here := at_ "slots" index in
  obj ← object value source here;
  localRole ← stringOf (member "localRole" obj) source (here +:+ ".localRole");
  if negb (existsb (String.eqb localRole) ["leader"; "replica"; "none"]) then fail source (here +:+ ".localRole is invalid")
  else
    number ← finiteNumber (member "number" obj) source (here +:+ ".number");
    leaderId ← stringOf (member "leaderId" obj) source (here +:+ ".leaderId");
    replicaId ← optionalString (member "replicaId" obj) source (here +:+ ".replicaId");
    term ← finiteNumber (member "term" obj) source (here +:+ ".term");
    lastSequence ← finiteNumber (member "lastSequence" obj) source (here +:+ ".lastSequence");
    lastAppliedSequence ← finiteNumber (member "lastAppliedSequence" obj) source (here +:+ ".lastAppliedSequence");
    replicaReady ← boolean (member "replicaReady" obj) source (here +:+ ".replicaReady");
    mret (mkSlot number leaderId replicaId localRole term lastSequence lastAppliedSequence replicaReady).

Definition isRecoveryState (value : string) : bool :=
  existsb (String.eqb value)
    ["healthy"; "failure_suspected"; "degraded"; "promoting"; "repairing"; "rebalancing"; "unavailable"; "potential_data_loss"; "starting"].

Definition parseRecoveryPlan (value : JsValue) (source : string) : Parsed RecoveryPlanStatus :=
  obj ← object value source "activePlan";
  id ← stringOf (member "id" obj) source "activePlan.id";
  kind ← stringOf (member "kind" obj) source "activePlan.kind";
  reason ← stringOf (member "reason" obj) source "activePlan.reason";
  completedSteps ← finiteNumber (member "completedSteps" obj) source "activePlan.completedSteps";
  totalSteps ← finiteNumber (member "totalSteps" obj) source "activePlan.totalSteps";
  mret (mkPlan id kind reason completedSteps totalSteps).

Definition parseRecoverySlot (source field : string) (value : JsValue) (index : nat) : Parsed RecoverySlotStatus :=
  let prefix := at_ field index in
  obj ← object value source prefix;
  slot ← finiteNumber (member "slot" obj) source (prefix +:+ ".slot");
  classification ← stringOf (member "classification" obj) source (prefix +:+ ".classification");
  formerLeaderId ← stringOf (member "formerLeaderId" obj) source (prefix +:+ ".formerLeaderId");
  formerReplicaId ← optionalString (member "formerReplicaId" obj) source (prefix +:+ ".formerReplicaId");
  failures ← optionalStringArray (member "failures" obj) source (prefix +:+ ".failures");
  readsAvailable ← boolean (member "readsAvailable" obj) source (prefix +:+ ".readsAvailable");
  writesAvailable ← boolean (member "writesAvailable" obj) source (prefix +:+ ".writesAvailable");
  rejectedCommands ← optionalStringArray (member "rejectedCommands" obj) source (prefix +:+ ".rejectedCommands");
  message ← stringOf (member "message" obj) source (prefix +:+ ".message");
  mret (mkRecoverySlot slot classification formerLeaderId formerReplicaId failures readsAvailable writesAvailable rejectedCommands message).

Definition parseRecoveryStatus (value : JsValue) (source : string) : Parsed RecoveryStatus :=
  obj ← object value source "body";
  state ← stringOf (member "state" obj) source "state";
  if negb (isRecoveryState state) then fail source ("state " +:+ jsQuote state +:+ " is invalid")
  else
    controlIndex ← finiteNumber (member "controlIndex" obj) source "controlIndex";
    failedNodes ← optionalStringArray (member "failedNodes" obj) source "failedNodes";
    suspectedNodes ← optionalStringArray (member "suspectedNodes" obj) source "suspectedNodes";
    one ← optionalArray (member "oneCopySlots" obj) source "oneCopySlots";
    oneCopySlots ← mapOptional (parseRecoverySlot source "oneCopySlots") one;
    lost ← optionalArray (member "unavailableSlots" obj) source "unavailableSlots";
    unavailableSlots ← mapOptional (parseRecoverySlot source "unavailableSlots") lost;
    activePlan ← unlessUndefined (member "activePlan" obj) (fun v => parseRecoveryPlan v source);
    latest ← optionalString (member "latestCommittedOperation" obj) source "latestCommittedOperation";
    warning ← optionalString (member "warning" obj) source "warning";
    policy ← optionalString (member "returningNodeDataPolicy" obj) source "returningNodeDataPolicy";
    mret (mkRecovery state controlIndex failedNodes suspectedNodes oneCopySlots unavailableSlots activePlan latest warning policy).

Definition parseClusterStateResponse (value : JsValue) : Parsed ClusterStateResponse :=
  let source := "/cluster/state" in
  obj ← object value source "body";
  enabled ← boolean (member "enabled" obj) source "enabled";
  nodeId ← stringOf (member "nodeId" obj) source "nodeId";
  clusterId ← optionalString (member "clusterId" obj) source "clusterId";
  slotCount ← optionalNumber (member "slotCount" obj) source "slotCount";
  metadataVersion ← optionalNumber (member "metadataVersion" obj) source "metadataVersion";
  routingMode ← optionalString (member "routingMode" obj) source "routingMode";
  failoverMode ← optionalString (member "failoverMode" obj) source "failoverMode";
  ids ← arrayOrEmpty (member "peers" obj) source "peers";
  peers ← mapItems (fun peer index => stringOf peer source (at_ "peers" index)) 0 ids;
  members ← optionalArray (member "membership" obj) source "membership";
  membership ← mapOptional parsePeer members;
  items ← optionalArray (member "slots" obj) source "slots";
  slots ← mapOptional parseSlot items;
  dataState ← optionalString (member "dataState" obj) source "dataState";
  recovery ← unlessUndefined (member "recovery" obj) (fun v => parseRecoveryStatus v "/cluster/state.recovery");
  mret (mkClusterState enabled nodeId clusterId slotCount metadataVersion routingMode failoverMode peers membership slots dataState recovery).

Definition parseViewNode (source : string) (item : JsValue) (index : nat) : Parsed ViewNode :=
  let here := at_ "currentView.nodes" index in
  node ← object item source here;
  id ← stringOf (member "id" node) source (here +:+ ".id");
  reachable ← boolean (member "reachable" node) source (here +:+ ".reachable");
  suspected ← boolean (member "suspected" node) source (here +:+ ".suspected");
  eligible ← boolean (member "eligible" node) source (here +:+ ".eligible");
  returning ← boolean (member "returning" node) source (here +:+ ".returning");
  leaderSlots ← finiteNumber (member "leaderSlots" node) source (here +:+ ".leaderSlots");
  replicaSlots ← finiteNumber (member "replicaSlots" node) source (here +:+ ".replicaSlots");
  mret (mkViewNode id reachable suspected eligible returning leaderSlots replicaSlots).
Definition parseViewSlot (source : string) (item : JsValue) (index : nat) : Parsed ViewSlot :=
  let here := at_ "currentView.slots" index in
  slot ← object item source here;
  number ← finiteNumber (member "number" slot) source (here +:+ ".number");
  leaderId ← stringOf (member "leaderId" slot) source (here +:+ ".leaderId");
  replicaId ← optionalString (member "replicaId" slot) source (here +:+ ".replicaId");
  term ← finiteNumber (member "term" slot) source (here +:+ ".term");
  replicaReady ← boolean (member "replicaReady" slot) source (here +:+ ".replicaReady");
  mret (mkViewSlot number leaderId replicaId term replicaReady).

Definition parseControllerStateResponse (value : JsValue) : Parsed ControllerStateResponse :=
  let source := "/controller/state" in
  obj ← object value source "body";
  last ← unlessUndefined (member "lastRebalance" obj) (fun v => object v source "lastRebalance");
  view ← object (member "currentView" obj) source "currentView";
  nodeId ← stringOf (member "nodeId" obj) source "nodeId";
  raftRole ← stringOf (member "raftRole" obj) source "raftRole";
  raftLeaderId ← optionalString (member "raftLeaderId" obj) source "raftLeaderId";
  raftTerm ← finiteNumber (member "raftTerm" obj) source "raftTerm";
  isLeader ← boolean (member "isLeader" obj) source "isLeader";
  controlIndex ← finiteNumber (member "controlIndex" obj) source "controlIndex";
  clusterId ← stringOf (member "clusterId" view) source "currentView.clusterId";
  metadataVersion ← finiteNumber (member "metadataVersion" view) source "currentView.metadataVersion";
  observedAt ← optionalString (member "observedAt" view) source "currentView.observedAt";
  status ← stringOf (member "status" view) source "currentView.status";
  nodeItems ← array (member "nodes" view) source "currentView.nodes";
  nodes ← mapItems (parseViewNode source) 0 nodeItems;
  slotItems ← array (member "slots" view) source "currentView.slots";
  slots ← mapItems (parseViewSlot source) 0 slotItems;
  recovery ← parseRecoveryStatus (member "recovery" obj) (source +:+ ".recovery");
  lastRebalance ←
    match last with
    | None => mret None
    | Some last =>
        id ← stringOf (member "id" last) source "lastRebalance.id";
        kind ← stringOf (member "kind" last) source "lastRebalance.kind";
        epoch ← finiteNumber (member "epoch" last) source "lastRebalance.epoch";
        index ← finiteNumber (member "controlIndex" last) source "lastRebalance.controlIndex";
        mret (Some (mkLast id kind epoch index))
    end;
  mret (mkController nodeId raftRole raftLeaderId raftTerm isLeader controlIndex
          (mkView clusterId metadataVersion observedAt status nodes slots) recovery lastRebalance).

(** The fuel bounds the nesting of arrays. *)
Fixpoint parseCommandResult_fuel (fuel : nat) (value : JsValue) (source : string) : Parsed CommandResult :=
  match fuel with
  | O => fail source "too deep"
  | S fuel =>
      obj ← object value source "body";
      type ← stringOf (member "type" obj) source "type";
      let value := member "value" obj in
      if String.eqb type "string" then s ← stringOf value source "value"; mret (StringResult s)
      else if String.eqb type "error" then s ← stringOf value source "value"; mret (ErrorResult s)
      else if String.eqb type "bulk" then s ← stringOf value source "value"; mret (BulkResult s)
      else if String.eqb type "integer" then n ← finiteNumber value source "value"; mret (IntegerResult n)
      else if String.eqb type "nil" then
        match value with JsUndefined | JsNull => mret NilResult | _ => fail source "value must be null" end
      else if String.eqb type "array" then
        items ← array value source "value";
        results ← mapItems (fun item index => parseCommandResult_fuel fuel item (source +:+ at_ ".value" index)) 0 items;
        mret (ArrayResult results)
      else fail source ("unsupported command result type " +:+ jsQuote type)
  end.
Fixpoint jsDepth (v : JsValue) : nat :=
  match v with
  | JsArray items => S (list_max (map jsDepth items))
  | JsObject members => S (list_max (map (fun m => jsDepth m.2) members))
  | _ => 1
  end.
Definition parseCommandResult (value : JsValue) (source : string) : Parsed CommandResult :=
  parseCommandResult_fuel (S (jsDepth value)) value source.

Definition parseEvictionPolicyResponse (value : JsValue) : Parsed string :=
  let source := "/engine/eviction-policy" in
  obj ← object value source "body";
  stringOf (member "policy" obj) source "policy".

Definition parseNodeEvent (value : JsValue) : Parsed NodeEvent :=
  let source := "/events" in
  obj ← object value source "body";
  timestamp ← finiteNumber (member "timestamp" obj) source "timestamp";
  usedBytes ← finiteNumber (member "usedBytes" obj) source "usedBytes";
  memoryLimit ← finiteNumber (member "memoryLimit" obj) source "memoryLimit";
  availableBytes ← finiteNumber (member "availableBytes" obj) source "availableBytes";
  policy ← stringOf (member "policy" obj) source "policy";
  rejectedWrites ← optionalNumber (member "rejectedWrites" obj) source "rejectedWrites";
  counters ← unlessUndefined (member "counters" obj) (fun v => numberRecord v source "counters");
  recovery ← unlessUndefined (member "recovery" obj) (fun v => parseRecoveryStatus v (source +:+ ".recovery"));
  mret (mkNodeEvent timestamp usedBytes memoryLimit availableBytes policy rejectedWrites counters recovery).

(** ** Requests *)

Inductive UiError :=
  | FetchFailed (text : string)
  | NotOk (text : string)
  | NotJson
  | Unexpected (e : ResponseValidationError).
Definition okStatus (r : HTTPResponse) : bool := (200 <=? StatusCode r) && (StatusCode r <=? 299).
(** [parse(await res.json())] *)
Definition parsedBody {T} (parse : JsValue -> Parsed T) (r : HTTPResponse) : T + UiError :=
  match JSONparse (ResponseBody r) with
  | None => inr NotJson
  | Some v => match parse v with inl t => inl t | inr e => inr (Unexpected e) end
  end.

(** [base]: the address of the node; [fetch] is [roundTrip]. *)
Section client.
Context {W : Type} `{HTTPTransport W} (base : string).
Definition getJSON {T} (path : string) (parse : JsValue -> Parsed T) (w : W) : (T + UiError) * W :=
  match roundTrip base (mkHTTP "GET" path "" "" "") w with
  | (inr text, w) => (inr (FetchFailed text), w)
  | (inl r, w) => (if okStatus r then parsedBody parse r else inr (NotOk (path +:+ " returned " +:+ FormatInt (StatusCode r))), w)
  end.
Definition getHealth : W -> (HealthResponse + UiError) * W := getJSON "/health" parseHealthResponse.
Definition getEngineState : W -> (EngineStateResponse + UiError) * W := getJSON "/engine/state" parseEngineStateResponse.
Definition getMetricsSummary : W -> (MetricsSummary + UiError) * W := getJSON "/metrics/summary" parseMetricsSummary.
Definition getClusterState : W -> (ClusterStateResponse + UiError) * W := getJSON "/cluster/state" parseClusterStateResponse.
Definition getControllerState : W -> (ControllerStateResponse + UiError) * W := getJSON "/controller/state" parseControllerStateResponse.

(** [name]: what an empty body is reported as. *)
Definition postJSON {T} (path name body : string) (parse : JsValue -> Parsed T) (w : W) : (T + UiError) * W :=
  match roundTrip base (mkHTTP "POST" path body "" "") w with
  | (inr text, w) => (inr (FetchFailed text), w)
  | (inl r, w) =>
      (if okStatus r then parsedBody parse r
       else inr (NotOk (if String.eqb (ResponseBody r) "" then name +:+ " returned " +:+ FormatInt (StatusCode r) else ResponseBody r)), w)
  end.
Definition runCommand (args : list string) : W -> (CommandResult + UiError) * W :=
  postJSON "/commands" "commands" (jsField "args" (jsList args)) (fun v => parseCommandResult v "/commands").
Definition setEvictionPolicy (policy : string) : W -> (string + UiError) * W :=
  postJSON "/engine/eviction-policy" "eviction-policy" (jsField "policy" (jsQuote policy)) parseEvictionPolicyResponse.
End client.
