(* ===== verification/DashboardPages.v ===== *)
(** * The live parts of the dashboard: [frontend/src/hooks], [api/events.ts] and
    [pages/use/CommandConsolePage.tsx]

    A component is its state and one step for each thing that can happen to it:
    a message of the stream, a timer, an answer, a key.  Points in time are
    given to the steps.  Rendering is left out. *)
From S2P Require Import Prelude GoText GoFloat GoFloatText Json NodeClient.
From S2P Require Dashboard.
Local Open Scope Z_scope.
Import Dashboard.

(** ** [String.prototype.trim] *)

(** The length of the white space character at the front. *)
Definition jsSpaceLen (s : string) : nat :=
  match s with
  | "" => 0%nat
  | String a s =>
      let a := byteZ a in
      if ((9 <=? a) && (a <=? 13)) || (a =? 32) then 1%nat
      else match s with
      | "" => 0%nat
      | String b s =>
          let b := byteZ b in
          if (a =? 194) && (b =? 160) then 2%nat
          else match s with
          | "" => 0%nat
          | String c _ =>
              let c := byteZ c in
              if ((a =? 225) && (b =? 154) && (c =? 128)) ||
                 ((a =? 226) && (b =? 128) && (((128 <=? c) && (c <=? 138)) || (c =? 168) || (c =? 169) || (c =? 175))) ||
                 ((a =? 226) && (b =? 129) && (c =? 159)) || ((a =? 227) && (b =? 128) && (c =? 128)) ||
                 ((a =? 239) && (b =? 187) && (c =? 191)) then 3%nat else 0%nat
          end
      end
  end.
Fixpoint jsTrimStart (fuel : nat) (s : string) : string :=
  match fuel, jsSpaceLen s with S fuel, S k => jsTrimStart fuel (sdrop (S k) s) | _, _ => s end.
Fixpoint jsTrimEnd (s : string) : string :=
  match s with
  | "" => ""
  | String c s' => if String.eqb (jsTrimStart (String.length s) s) "" then "" else String c (jsTrimEnd s')
  end.
Definition jsTrim (s : string) : string := jsTrimEnd (jsTrimStart (String.length s) s).

(** ** The address of the node: [store/appStore.ts] *)

Definition isSlash (c : ascii) : bool := Ascii.eqb c "/".
Fixpoint dropSlashes (s : string) : string :=
  match s with "" => "" | String c s' => if sall isSlash s then "" else String c (dropSlashes s') end.
Definition normalizeBaseUrl (url : string) : string := dropSlashes (jsTrim url).

(** ** The event stream: [api/events.ts] *)

(** The lines of a text that have ended, with the line ends of the API. *)
Fixpoint endedLines (line : string) (s : string) : list string :=
  match s with
  | "" => []
  | String c s => if Ascii.eqb c "010" then line :: endedLines "" s else endedLines (line +:+ String c "") s
  end.
(** What an [EventSource] makes of the lines: a blank line sends what the lines
    with [data:] before it held; the API sends no other fields. *)
Fixpoint dispatch (lines : list string) (data : option string) : list string :=
  match lines with
  | [] => []
  | line :: lines =>
      if String.eqb line "" then
        match data with Some text => text :: dispatch lines None | None => dispatch lines None end
      else if hasPrefix "data:" line then
        let text := sdrop 5 line in
        let text := if hasPrefix " " text then sdrop 1 text else text in
        dispatch lines (Some (match data with Some old => old +:+ String "010" text | None => text end))
      else dispatch lines data
  end.
Definition messages (stream : string) : list string := dispatch (endedLines "" stream) None.
(** [onmessage] *)
Definition onMessage (data : string) : NodeEvent + UiError :=
  match JSONparse data with
  | None => inr NotJson
  | Some v => match parseNodeEvent v with inl e => inl e | inr e => inr (Unexpected e) end
  end.

(** ** [hooks/useNodeEvents.ts] *)

Inductive ConnectionStatus := Connecting | Connected | Disconnected | Stale.
Record MemoryPoint := mkMemoryPoint { mpT : float64; mpUsed : float64; mpRatio : float64 }.
Record ThroughputPoint := mkThroughputPoint { tpT : float64; tpOps : float64 }.
Definition MAX_POINTS : nat := 60.
Definition appendPoint {A} (points : list A) (next : A) : list A :=
  (if (MAX_POINTS <=? length points)%nat then drop 1 points else points) ++ [next].

Record NodeEvents := mkNodeEvents {
  nsStatus : ConnectionStatus; nsLatest : option NodeEvent; nsError : option UiError;
  nsMemory : list MemoryPoint; nsThroughput : list ThroughputPoint; nsPrev : option (float64 * float64)
}.
Definition startEvents : NodeEvents := mkNodeEvents Connecting None None [] [] None.

Definition zero64 : float64 := S754_zero false.
Definition ratioOf (e : NodeEvent) : float64 :=
  if fltb zero64 (neMemoryLimit e) then SFdiv 53 1024 (neUsedBytes e) (neMemoryLimit e) else zero64.
Definition counterOf (name : string) (e : NodeEvent) : float64 :=
  match neCounters e with
  | None => zero64
  | Some counters => match List.find (fun c => String.eqb c.1 name) counters with Some c => c.2 | None => zero64 end
  end.
(** [Math.max(0, x)] *)
Definition atLeastZero (x : float64) : float64 :=
  match x with S754_zero _ => zero64 | _ => if fltb x zero64 then zero64 else x end.
Definition opsSince (prev : float64 * float64) (e : NodeEvent) : float64 :=
  let dt := SFsub 53 1024 (neTimestamp e) prev.1 in
  if fltb zero64 dt then atLeastZero (SFdiv 53 1024 (SFsub 53 1024 (counterOf "cmd.total" e) prev.2) dt) else zero64.

Inductive StreamStep := Opened | Failed | Received (data : string) | Silence.
Definition streamStep (step : StreamStep) (s : NodeEvents) : NodeEvents :=
  match step with
  | Opened => mkNodeEvents Connected None None [] [] (nsPrev s)
  | Failed => mkNodeEvents Disconnected (nsLatest s) (nsError s) (nsMemory s) (nsThroughput s) (nsPrev s)
  | Silence => mkNodeEvents Stale (nsLatest s) (nsError s) (nsMemory s) (nsThroughput s) (nsPrev s)
  | Received data =>
      match onMessage data with
      | inr cause => mkNodeEvents Stale (nsLatest s) (Some cause) (nsMemory s) (nsThroughput s) (nsPrev s)
      | inl event =>
          mkNodeEvents Connected (Some event) None
            (appendPoint (nsMemory s) (mkMemoryPoint (neTimestamp event) (neUsedBytes event) (ratioOf event)))
            (match nsPrev s with
             | Some prev => appendPoint (nsThroughput s) (mkThroughputPoint (neTimestamp event) (opsSince prev event))
             | None => nsThroughput s
             end)
            (Some (neTimestamp event, counterOf "cmd.total" event))
      end
  end.
Definition runStream (steps : list StreamStep) (s : NodeEvents) : NodeEvents := foldl (fun s step => streamStep step s) s steps.

(** ** [hooks/useClusterState.ts] and [hooks/useNodeStatus.ts] *)

Record ClusterPolls := mkPolls {
  cpState : option ClusterStateResponse; cpReachable : bool; cpError : option UiError;
  cpHistory : list (Z * float64); cpLast : option float64
}.
Definition startPolls : ClusterPolls := mkPolls None true None [] None.
Definition lastPoints {A} (n : nat) (l : list A) : list A := drop (length l - n) l.
(** An answer that arrives at [now]; the first one clears the history. *)
Definition pollCluster (now : Z) (answer : ClusterStateResponse + UiError) (p : ClusterPolls) : ClusterPolls :=
  match answer with
  | inr cause => mkPolls (cpState p) false (Some cause) (cpHistory p) (cpLast p)
  | inl data =>
      let version := default zero64 (clMetadataVersion data) in
      match cpLast p with
      | None => mkPolls (Some data) true None (if fltb zero64 version then [(now, version)] else []) (Some version)
      | Some last =>
          if feqb version last then mkPolls (Some data) true None (cpHistory p) (cpLast p)
          else mkPolls (Some data) true None (lastPoints 20 (cpHistory p ++ [(now, version)])) (Some version)
      end
  end.
Definition pollHealth (answer : HealthResponse + UiError) : option HealthResponse * option UiError :=
  match answer with inl health => (Some health, None) | inr cause => (None, Some cause) end.

(** ** The command console *)

Definition isQuote (c : ascii) : bool := Ascii.eqb c quoteMark || Ascii.eqb c "'".
Definition pushArg (cur : string) (out : list string) : list string := if String.eqb cur "" then out else out ++ [cur].
Fixpoint parseArgs_from (line : string) (quote : option ascii) (cur : string) (out : list string) : list string :=
  match line with
  | "" => pushArg cur out
  | String ch line' =>
      match quote with
      | Some q =>
          if Ascii.eqb ch q then parseArgs_from line' None cur out
          else if Ascii.eqb ch backslash then
            match line' with
            | String next line' => parseArgs_from line' quote (cur +:+ String next "") out
            | "" => pushArg (cur +:+ String ch "") out
            end
          else parseArgs_from line' quote (cur +:+ String ch "") out
      | None =>
          if isQuote ch then parseArgs_from line' (Some ch) cur out
          else if Ascii.eqb ch " " || Ascii.eqb ch "009" then parseArgs_from line' None "" (pushArg cur out)
          else parseArgs_from line' None (cur +:+ String ch "") out
      end
  end.
Definition parseArgs (line : string) : list string := parseArgs_from line None "" [].

Inductive Shown := Pending | Answered (result : CommandResult) | CommandFailed (cause : UiError).
Definition MAX_HISTORY : nat := 50.
Record Console := mkConsole { coInput : string; coEntries : list (string * Shown); coBusy : bool; coItems : list string; coIndex : Z }.
Definition startConsole : Console := mkConsole "" [] false [] (-1).
Definition trimEntries {A} (entries : list A) : list A := if (200 <? length entries)%nat then drop (length entries - 200) entries else entries.
Definition replaceLast {A} (entries : list A) (next : A) : list A := <[(length entries - 1)%nat := next]> entries.

(** [submit] up to [runCommand]: the arguments that are sent. *)
Definition submit (s : Console) : option (list string) * Console :=
  let text := jsTrim (coInput s) in
  if String.eqb text "" || coBusy s then (None, s)
  else match parseArgs text with
  | [] => (None, s)
  | args =>
      (Some args, mkConsole "" (trimEntries (coEntries s ++ [(text, Pending)])) true
                    (take MAX_HISTORY (text :: List.filter (fun x => negb (String.eqb x text)) (coItems s))) (-1))
  end.
(** [submit] after [runCommand]; [text] is what was sent. *)
Definition settle (text : string) (answer : CommandResult + UiError) (s : Console) : Console :=
  mkConsole (coInput s) (replaceLast (coEntries s) (text, match answer with inl r => Answered r | inr e => CommandFailed e end)) false (coItems s) (coIndex s).
Definition arrowUp (s : Console) : Console :=
  if (length (coItems s) =? 0)%nat then s
  else let index := Z.min (coIndex s + 1) (Z.of_nat (length (coItems s)) - 1) in
       mkConsole (default "" (coItems s !! Z.to_nat index)) (coEntries s) (coBusy s) (coItems s) index.
Definition arrowDown (s : Console) : Console :=
  if coIndex s <=? 0 then mkConsole "" (coEntries s) (coBusy s) (coItems s) (-1)
  else mkConsole (default "" (coItems s !! Z.to_nat (coIndex s - 1))) (coEntries s) (coBusy s) (coItems s) (coIndex s - 1).
