(* ===== verification/DashboardSpec.v ===== *)
(** * What the dashboard shows of a controller and of a node

    The checks of the dashboard accept what the handlers send, and keep it: what
    is shown is the state of the controller and the stream of events of a node. *)
From S2P Require Import Prelude GoText GoFloat GoFloatText FloatRatio GoTime Json JsonCodec Resp Store Engine Metrics.
From S2P Require Import Topology ControlFSM Planner PlannerSpec Observer ControlStatus ControlJson ControlJsonSpec AdminNode NodeClient NodeClientSpec Api Monitor MonitorSpec.
From S2P Require Dashboard DashboardPages.
Local Open Scope Z_scope.
Import Dashboard (JsValue, JsUndefined, JsNull, JsBoolean, JsNumber, JsString, JsArray, JsObject, jsOfJson, JSONparse, member, setMember, Parsed, object, array, optionalArray,
  arrayOrEmpty, stringOf, optionalString, boolean, finiteNumber, optionalNumber, mapItems, mapOptional, optionalStringArray, unlessUndefined, numberEntries, numberRecord).
#[local] Existing Instances Dashboard.Parsed_ret Dashboard.Parsed_bind.

(** ** Objects *)

Definition jsMembers (ms : list (string * Json)) : list (string * JsValue) := map (fun m => (m.1, jsOfJson m.2)) ms.
Lemma setMember_fresh {A} key (v : A) ms : key ∉ ms.*1 -> setMember key v ms = ms ++ [(key, v)].
Proof.
  induction ms as [|[k old] ms IH]; [done|]. cbn [fmap list_fmap fst setMember]. intros [Hk Hms]%not_elem_of_cons.
  destruct (String.eqb_spec k key) as [->|]; [done|]. by rw IH.
Qed.
Lemma setMember_all {A} (ms acc : list (string * A)) : NoDup (acc ++ ms).*1 -> foldl (fun acc m => setMember m.1 m.2 acc) acc ms = acc ++ ms.
Proof.
  revert acc. induction ms as [|[k v] ms IH]; intros acc Hn; cbn [foldl]; [by rw app_nil_r|].
  rewrite -> fmap_app in Hn. cbn [fmap list_fmap fst] in Hn. apply NoDup_app in Hn as (Ha & Hd & Hm). cbn [fst snd].
  rw setMember_fresh; [intros Hk; apply (Hd _ Hk); left|]. rw IH; [|by rw -app_assoc].
  rw -app_assoc fmap_app. apply NoDup_app. split_and!; done.
Qed.
Lemma jsOfJson_obj ms : NoDup ms.*1 -> jsOfJson (JObj ms) = JsObject (jsMembers ms).
Proof.
  intros Hn. cbn [jsOfJson]. f_equal. rw (setMember_all (map _ ms) []); [|done]. cbn [app]. by rw -list_fmap_compose.
Qed.
(** The value of a member that may be missing. *)
Definition js (j : option Json) : JsValue := match j with Some j => jsOfJson j | None => JsUndefined end.
Lemma member_js name ms : member name (jsMembers ms) = js (jget name ms).
Proof. induction ms as [|[k j] ms IH]; [done|]. cbn [jsMembers map member jget fst snd]. by destruct (String.eqb k name). Qed.

(** ** Checks *)

Definition given (s : string) : option string := if String.eqb s "" then None else Some s.
Definition listed {A} (l : list A) : option (list A) := match l with [] => None | _ => Some l end.

Lemma optionalString_js s a b : optionalString (js (if String.eqb s "" then None else Some (JStr s))) a b = inl (given s).
Proof. unfold given. by destruct (String.eqb s ""). Qed.
Lemma finiteNumber_number f a b : finite64 f -> finiteNumber (JsNumber f) a b = inl f.
Proof. by destruct f. Qed.
Lemma jsNumber_int n : Z.abs n <= maxUint64 -> Dashboard.jsNumber (FormatInt n) = floatOfInt n.
Proof. intros Hn. unfold Dashboard.jsNumber. by rw ParseFloat_FormatInt. Qed.
Lemma finiteNumber_int n a b : int64_range n -> finiteNumber (js (Some (encInt n))) a b = inl (floatOfInt n).
Proof.
  unfold int64_range, minInt64, maxInt64. intros Hn. assert (Z.abs n <= maxUint64) as Hu by (unfold maxUint64; lia).
  cbn [js encInt jsOfJson]. rw jsNumber_int //. by apply finiteNumber_number, floatOfInt_finite.
Qed.
Lemma finiteNumber_uint n a b : 0 <= n <= maxUint64 -> finiteNumber (js (Some (encUint n))) a b = inl (floatOfInt n).
Proof.
  intros Hn. cbn [js encUint jsOfJson]. unfold Dashboard.jsNumber. rw ParseFloat_FormatUint //. apply finiteNumber_number, floatOfInt_finite. lia.
Qed.
Lemma mapItems_all {A B C} (f : A -> nat -> Parsed B) (enc : C -> A) (view : C -> B) l i :
  Forall (fun c => forall i, f (enc c) i = inl (view c)) l -> mapItems f i (map enc l) = inl (map view l).
Proof.
  intros Hl. revert i. induction Hl as [|c l Hc Hl IH]; intros i; [done|]. cbn [map mapItems]. rw Hc. cbn [mbind Dashboard.Parsed_bind]. by rw IH.
Qed.
Lemma optionalArray_js {C} (enc : C -> Json) l a b :
  optionalArray (js (match l with [] => None | _ => Some (JArr (map enc l)) end)) a b = inl (listed (map (fun c => jsOfJson (enc c)) l)).
Proof.
  destruct l as [|c l]; [done|]. cbn [js]. cbn [jsOfJson optionalArray array mbind Dashboard.Parsed_bind mret Dashboard.Parsed_ret listed]. by rw map_map.
Qed.
Lemma mapOptional_listed {A B C} (f : A -> nat -> Parsed B) (enc : C -> A) (view : C -> B) l :
  Forall (fun c => forall i, f (enc c) i = inl (view c)) l -> mapOptional f (listed (map enc l)) = inl (listed (map view l)).
Proof.
  intros Hl. pose proof (mapItems_all f enc view l 0 Hl) as Hm. destruct l as [|c l]; [done|]. cbn [map listed mapOptional] in *. by rw Hm.
Qed.
Lemma optionalStringArray_js l a b :
  optionalStringArray (js (match l with [] => None | _ => Some (JArr (map JStr l)) end)) a b = inl (listed l).
Proof.
  unfold optionalStringArray. rw optionalArray_js. cbn [mbind Dashboard.Parsed_bind]. rw (mapOptional_listed _ _ id); [by apply Forall_forall|]. by rw map_id.
Qed.

(** ** Keys *)

Lemma keys_string n s : (omitString n s).*1 `sublist_of` [n].
Proof. unfold omitString. destruct (String.eqb s ""); [apply sublist_nil_l|done]. Qed.
Lemma keys_list {A} n (enc : A -> Json) l : (omitList n enc l).*1 `sublist_of` [n].
Proof. unfold omitList. destruct l; [apply sublist_nil_l|done]. Qed.
Lemma keys_ptr {A} n (enc : A -> Json) p : (omitPtr n enc p).*1 `sublist_of` [n].
Proof. destruct p; [done|apply sublist_nil_l]. Qed.
Lemma keys_known (ms : list (string * Json)) : ms.*1 `sublist_of` ms.*1.
Proof. done. Qed.
Lemma keys_apart (l k : list string) : l `sublist_of` k -> NoDup k -> NoDup l.
Proof. intros Hs Hk. by eapply sublist_NoDup. Qed.
Ltac keys :=
  eapply keys_apart;
  [rewrite -> ?fmap_app; repeat (eapply sublist_app; [first [apply keys_string | apply keys_list | apply keys_ptr | apply keys_known]|]);
     first [apply keys_string | apply keys_list | apply keys_ptr | apply keys_known]
  |apply (bool_decide_unpack _); vm_compute; exact I].
Lemma bind_to {A B} (m : Parsed A) a (f : A -> Parsed B) r : m = inl a -> f a = r -> (m ≫= f) = r.
Proof. by intros -> <-. Qed.
(** Reads one member of an object of the handlers. *)
Ltac get :=
  rewrite -> member_js; rewrite -> ?jget_app, ?jget_cons, ?jget_string, ?jget_list, ?jget_ptr;
  cbn [jget String.eqb Ascii.eqb Bool.eqb]; rewrite -> ?option_eta.
Ltac step :=
  eapply bind_to;
  [first [reflexivity
         |get; first [reflexivity | apply optionalString_js | apply optionalStringArray_js | apply optionalArray_js
                     |apply finiteNumber_uint; unfold maxUint64 in *; lia | apply finiteNumber_int; assumption]]|]; cbv beta.
Ltac object_of := rewrite -> jsOfJson_obj by keys.

(** ** The status *)

Definition shownSlot (s : SlotDetail) : Dashboard.RecoverySlotStatus :=
  Dashboard.mkRecoverySlot (floatOfInt (SDSlot s)) (Classification s) (FormerLeaderID s) (given (FormerReplicaID s)) (listed (SDFailures s))
    (ReadsAvailable s) (WritesAvailable s) (listed (RejectedCommands s)) (SDMessage s).
Definition shownPlan (p : PlanStatus) : Dashboard.RecoveryPlanStatus :=
  Dashboard.mkPlan (PSID p) (PSKind p) (PSReason p) (floatOfInt (CompletedSteps p)) (floatOfInt (TotalSteps p)).
Definition shownStatus (s : StatusSnapshot) : Dashboard.RecoveryStatus :=
  Dashboard.mkRecovery (SSState s) (floatOfInt (SSControlIndex s)) (listed (SSFailedNodes s)) (listed (SSSuspectedNodes s))
    (listed (map shownSlot (OneCopySlots s))) (listed (map shownSlot (UnavailableDetails s))) (shownPlan <$> SSActivePlan s)
    (given (SSLatestOperation s)) (given (Warning s)) (given (ReturningNodeDataPolicy s)).

Lemma parse_recoverySlot s source name i : detail_ok s -> Dashboard.parseRecoverySlot source name (jsOfJson (detailJson s)) i = inl (shownSlot s).
Proof. intros [Hn _ _ _ _ _ _]. unfold Dashboard.parseRecoverySlot, detailJson. object_of. do 10 step. done. Qed.
Lemma parse_recoveryPlan p source : plan_ok p -> Dashboard.parseRecoveryPlan (jsOfJson (planStatusJson p)) source = inl (shownPlan p).
Proof. intros (_ & _ & _ & Hc & Ht). unfold Dashboard.parseRecoveryPlan, planStatusJson. object_of. do 6 step. done. Qed.
Lemma unless_js {A B} (p : option A) (enc : A -> list (string * Json)) (f : JsValue -> Parsed B) (view : A -> B) :
  (forall a, p = Some a -> NoDup (enc a).*1 /\ f (jsOfJson (JObj (enc a))) = inl (view a)) ->
  unlessUndefined (js ((fun a => JObj (enc a)) <$> p)) f = inl (view <$> p).
Proof.
  intros Hp. destruct p as [a|]; [|done]. destruct (Hp a eq_refl) as [Hn Hf]. cbn [fmap option_fmap option_map js]. rewrite -> jsOfJson_obj in Hf |- * by done.
  unfold unlessUndefined. by rw Hf.
Qed.
Lemma parse_status s source : status_ok s -> Dashboard.isRecoveryState (SSState s) = true ->
  Dashboard.parseRecoveryStatus (jsOfJson (statusSnapshotJson s)) source = inl (shownStatus s).
Proof.
  intros [_ Hi _ _ _ Ho Hl Hp _ _ _] Hs. unfold Dashboard.parseRecoveryStatus, statusSnapshotJson. object_of. do 2 step. rw Hs. cbn [negb]. do 4 step.
  eapply bind_to; [apply (mapOptional_listed _ _ shownSlot); eapply Forall_impl; [exact Ho|]; intros d Hd i; by apply parse_recoverySlot|]. cbv beta. step.
  eapply bind_to; [apply (mapOptional_listed _ _ shownSlot); eapply Forall_impl; [exact Hl|]; intros d Hd i; by apply parse_recoverySlot|]. cbv beta.
  eapply bind_to.
  { get. apply (unless_js _ _ _ shownPlan). intros p Hpp. rw Hpp in Hp. split; [keys|by apply parse_recoveryPlan]. }
  cbv beta. do 3 step. done.
Qed.

(** ** The controller *)

Definition shownNode (n : ControllerNodeStatus) : Dashboard.ViewNode :=
  Dashboard.mkViewNode (CNID n) (CNReachable n) (CNSuspected n) (CNEligible n) (CNReturning n) (floatOfInt (CNLeaderSlots n)) (floatOfInt (CNReplicaSlots n)).
Definition shownView (v : ControllerView) : Dashboard.CurrentView :=
  Dashboard.mkView (CVClusterID v) (floatOfInt (CVMetadataVersion v)) (given (CVObservedAt v)) (CVStatus v) (map shownNode (CVNodes v))
    (map (fun s => Dashboard.mkViewSlot (floatOfInt (SVNumber s)) (SVLeader s) (given (SVReplica s)) (floatOfInt (SVTerm s)) (SVReady s)) (CVSlots v)).
Definition shownLast (c : CompletedPlan) : Dashboard.LastRebalance :=
  Dashboard.mkLast (CPID c) (PlanKindText (CPKind c)) (floatOfInt (CPEpoch c)) (floatOfInt (CPControlIndex c)).
Definition shownController (s : ControllerStateSnapshot) : Dashboard.ControllerStateResponse :=
  Dashboard.mkController (CSNodeID s) (RaftRole s) (given (RaftLeaderID s)) (floatOfInt (RaftTerm s)) (IsLeader s) (floatOfInt (CSControlIndex s))
    (shownView (CurrentView s)) (shownStatus (Recovery s)) (shownLast <$> CSLastRebalance s).

Definition node_ok (n : ControllerNodeStatus) : Prop := utf8 (CNID n) /\ int64_range (CNLeaderSlots n) /\ int64_range (CNReplicaSlots n).
Record view_ok (v : ControllerView) : Prop := {
  vo_id : utf8 (CVClusterID v);
  vo_version : 0 <= CVMetadataVersion v <= maxUint64;
  vo_observed : utf8 (CVObservedAt v);
  vo_status : utf8 (CVStatus v);
  vo_nodes : Forall node_ok (CVNodes v);
  vo_slots : Forall json_slotview (CVSlots v)
}.
Record controller_ok (s : ControllerStateSnapshot) : Prop := {
  co_id : utf8 (CSNodeID s);
  co_role : utf8 (RaftRole s);
  co_leader : utf8 (RaftLeaderID s);
  co_term : 0 <= RaftTerm s <= maxUint64;
  co_index : 0 <= CSControlIndex s <= maxUint64;
  co_view : view_ok (CurrentView s);
  co_recovery : status_ok (Recovery s);
  co_state : Dashboard.isRecoveryState (SSState (Recovery s)) = true;
  co_last : match CSLastRebalance s with Some c => json_completed c | None => True end
}.

Lemma parse_viewNode source n i : node_ok n -> Dashboard.parseViewNode source (jsOfJson (nodeStatusJson n)) i = inl (shownNode n).
Proof. intros (_ & Hl & Hr). unfold Dashboard.parseViewNode, nodeStatusJson. object_of. do 8 step. done. Qed.
Lemma parse_viewSlot source s i : json_slotview s ->
  Dashboard.parseViewSlot source (jsOfJson (controllerSlotJson s)) i =
  inl (Dashboard.mkViewSlot (floatOfInt (SVNumber s)) (SVLeader s) (given (SVReplica s)) (floatOfInt (SVTerm s)) (SVReady s)).
Proof. intros [_ _ Hn Ht]. unfold Dashboard.parseViewSlot, controllerSlotJson. object_of. do 6 step. done. Qed.
Lemma array_js {C} (enc : C -> Json) l a b : array (js (Some (JArr (map enc l)))) a b = inl (map (fun c => jsOfJson (enc c)) l).
Proof. cbn [js jsOfJson array mret Dashboard.Parsed_ret]. by rw map_map. Qed.
Lemma parse_controller s : controller_ok s -> Dashboard.parseControllerStateResponse (jsOfJson (controllerStateJson true s)) = inl (shownController s).
Proof.
  intros [_ _ _ Ht Hi [_ Hv _ _ Hn Hs] Hr Hst Hl]. unfold Dashboard.parseControllerStateResponse, controllerStateJson. cbv zeta. object_of. step.
  eapply bind_to; [get; unfold completedStatusJson; apply (unless_js _ _ _ (fun c => jsMembers [("id", JStr (CPID c)); ("kind", JStr (PlanKindText (CPKind c))); ("epoch", encUint (CPEpoch c)); ("controlIndex", encUint (CPControlIndex c))])); intros c Hc; split; [keys|object_of; reflexivity]|].
  cbv beta. eapply bind_to; [get; unfold controllerViewJson; cbv zeta; cbn [js]; object_of; reflexivity|]. cbv beta. do 10 step.
  eapply bind_to; [get; apply array_js|]. cbv beta. eapply bind_to; [apply (mapItems_all _ _ shownNode); eapply Forall_impl; [exact Hn|]; intros n Hn' i; by apply parse_viewNode|]. cbv beta.
  eapply bind_to; [get; apply array_js|]. cbv beta. eapply bind_to; [eapply (mapItems_all _ _ _); eapply Forall_impl; [exact Hs|]; intros n Hn' i; by apply parse_viewSlot|]. cbv beta.
  eapply bind_to; [get; by apply parse_status|]. cbv beta.
  destruct (CSLastRebalance s) as [c|] eqn:Hlast; cbn [fmap option_fmap option_map]; eapply bind_to; [|unfold shownController; rw Hlast; done|done|unfold shownController; rw Hlast; done].
  destruct Hl as [_ He Hx]. do 4 step. done.
Qed.

Lemma faithful_controller s : controller_ok s -> faithful 6 (controllerStateJson true s).
Proof.
  intros [Hid Hro Hle Ht Hi [Hvi Hv Hvo Hvs Hn Hs] Hr Hst Hl]. pose proof (faithful_status _ Hr) as Hfs.
  assert (Hfn : Forall (fun n => faithful 1 (nodeStatusJson n)) (CVNodes (CurrentView s))).
  { eapply Forall_impl; [exact Hn|]. intros n (H1 & H2 & H3). apply (faithful_obj 0). members. }
  assert (Hfv : Forall (fun v => faithful 1 (controllerSlotJson v)) (CVSlots (CurrentView s))).
  { eapply Forall_impl; [exact Hs|]. intros v [H1 H2 H3 H4]. apply (faithful_obj 0). repeat apply Forall_app_2; [|by apply faithful_omitString|].
    - assert (0 <= SVNumber v <= maxUint64) by (unfold maxUint64; lia). members.
    - members. }
  assert (Hview : faithful 3 (controllerViewJson true (CurrentView s))).
  { apply (faithful_obj 2). repeat apply Forall_app_2; [members|by apply faithful_omitString|].
    assert (faithful 2 (JArr (map nodeStatusJson (CVNodes (CurrentView s))))) by (by apply faithful_arr, Forall_map).
    assert (faithful 2 (JArr (map controllerSlotJson (CVSlots (CurrentView s))))) by (by apply faithful_arr, Forall_map). members. }
  apply (faithful_obj 5). repeat apply Forall_app_2; [members|by apply faithful_omitString| |].
  - assert (faithful 5 (controllerViewJson true (CurrentView s))) by (eapply faithful_weaken; [exact Hview|lia]).
    assert (faithful 5 (statusSnapshotJson (Recovery s))) by (eapply faithful_weaken; [exact Hfs|lia]). members.
  - destruct (CSLastRebalance s) as [c|]; [|constructor]. destruct Hl as [H1 H2 H3]. apply Forall_singleton. split; [done|].
    assert (utf8 (PlanKindText (CPKind c))) by (by destruct (CPKind c)). apply (faithful_obj 4). members.
Qed.
Lemma parsedBody_json {T} (parse : JsValue -> Parsed T) d ms : faithful d (JObj ms) -> (d <= 100)%nat ->
  Dashboard.parsedBody parse (writeJSON 200 (JObj ms)) = match parse (jsOfJson (JObj ms)) with inl t => inl t | inr e => inr (Dashboard.Unexpected e) end.
Proof.
  intros Hf Hd. unfold Dashboard.parsedBody, JSONparse, parseJson. cbn [writeJSON ResponseBody]. rw (nextJson_object d) //.
Qed.

Section controller.
Context `{SliceSortOk, MapRangeOk}.

Lemma utf8_millis t : utf8 (formatMillis t).
Proof.
  apply toValid_ascii. unfold formatMillis, dateText. destruct (civil _) as [[year month] day].
  assert (Hd : forall w n, sall (fun c => byteZ c <? 128) (digits w n) = true) by (intros; apply plain_digits, digits_all).
  generalize (Hd 4%nat year) (Hd 3%nat (t / 1000000 mod 1000)) (Hd 2%nat). generalize (digits 4 year) (digits 3 (t / 1000000 mod 1000)) (digits 2). intros y m d Hy Hm Hd2. by rw !sall_app Hy !Hd2 Hm.
Qed.
Lemma leaderName_utf8 peers address : Forall (fun p => utf8 p.1) peers -> utf8 address -> utf8 (leaderName peers address).
Proof.
  intros Hp Ha. unfold leaderName. destruct (List.find _ _) as [p|] eqn:Hf; [|done]. apply List.find_some in Hf as [Hin _].
  rewrite -> Forall_forall in Hp. by apply Hp, list_elem_of_In.
Qed.
Lemma ParseUint_range text n : ParseUint text = Some n -> 0 <= n <= maxUint64.
Proof.
  assert (Hloop : forall s a, 0 <= a <= maxUint64 -> ParseUint_loop a s = Some n -> 0 <= n <= maxUint64).
  { intros s. induction s as [|c s IH]; intros a Ha; cbn [ParseUint_loop]; [by intros [= <-]|]. destruct (isDigit c) eqn:Hc; [|done]. destruct (_ <=? a); [done|].
    destruct (Z.ltb_spec maxUint64 (a * 10 + (byteZ c - 48))) as [|Hle]; [done|]. apply IH. apply isDigit_inv in Hc as (d & Hd & _ & He). rw He in Hle *. lia. }
  unfold ParseUint. destruct text; [done|]. apply Hloop. unfold maxUint64. lia.
Qed.
Lemma controller_ok_build peers nodeID r : utf8 nodeID -> Forall (fun p => utf8 p.1) peers -> utf8 (riLeader r) -> monitored (riFSM r) ->
  Dashboard.isRecoveryState (SSState (BuildStatusSnapshot (riFSM r))) = true -> controller_ok (ControllerState peers nodeID (Some r)).2.
Proof.
  intros Hid Hp Hl Hm Hs. pose proof (status_ok_build _ Hm) as Hok. destruct Hm as [Hj _]. destruct (jf_view _ Hj) as [Hvi Hv Hsl Hno _ Hst].
  assert (Hnodes : Forall node_ok (CVNodes (CurrentView (ControllerState peers nodeID (Some r)).2))).
  { cbn [ControllerState snd]. unfold BuildControllerStateSnapshot. cbn [CVNodes CurrentView]. apply Forall_fmap, Forall_forall.
    intros id (node & Hn & _)%selectNodes_elem. cbn [compose]. rw Hn. destruct (Hno _ _ Hn) as [Hu [_ (_ & Hnl & Hnr)]]. done. }
  cbn [ControllerState snd] in *. unfold BuildControllerStateSnapshot in *. split; cbn; try done.
  - by destruct (riState r).
  - by apply leaderName_utf8.
  - destruct (ParseUint (riTerm r)) as [n|] eqn:Hn; [by apply ParseUint_range in Hn|]. cbn. unfold maxUint64. lia.
  - apply Hj.
  - split; cbn; try done.
    + destruct (_ =? 0); [done|apply utf8_millis].
    + apply Hst.
    + apply Forall_forall. intros x Hin. unfold sortSlots in Hin. apply slice_sort_elem in Hin. rewrite -> Forall_forall in Hsl. by apply Hsl.
  - apply Hj.
Qed.
(** The API of a node with a controller. *)
Definition controllerNode (peers : list (string * string)) (nodeID : string) : HTTPTransport (option RaftInfo) := fun _ req raft =>
  (inl (if String.eqb (URLPath req) "/controller/state" then handleControllerState true true peers nodeID raft req
        else mkHTTPResponse 404 ("404 page not found" +:+ LF)), raft).

Lemma bind_fails {A B} (m : Parsed A) e (f : A -> Parsed B) : m = inr e -> (m ≫= f) = inr e.
Proof. by intros ->. Qed.
Lemma starting_rejected peers nodeID base : utf8 nodeID -> Dashboard.getControllerState (H := controllerNode peers nodeID) base None =
  (inr (Dashboard.Unexpected (Dashboard.mkInvalid "/controller/state" "currentView.nodes must be an array")), None).
Proof.
  intros Hid. unfold Dashboard.getControllerState, Dashboard.getJSON, roundTrip, controllerNode, handleControllerState. cbn [URLPath Method String.eqb Ascii.eqb Bool.eqb requireMethod negb orb ControllerState].
  set (s := mkControllerState _ _ _ _ _ _ _ _ _). change (Dashboard.okStatus (writeJSON 200 (controllerStateJson false s))) with true. cbv iota. f_equal. unfold controllerStateJson.
  rw (parsedBody_json _ 6); [|lia|].
  { assert (Hz : 0 <= 0 <= maxUint64) by (unfold maxUint64; lia). pose proof (faithful_null 4) as Hnull.
    assert (Hst : status_ok startingStatus) by (by split; cbn).
    assert (faithful 5 (statusSnapshotJson startingStatus)) by (eapply faithful_weaken; [by apply faithful_status|lia]).
    assert (He : utf8 "") by reflexivity. assert (Hs : utf8 "starting") by reflexivity.
    assert (faithful 5 (controllerViewJson false (mkControllerView "" 0 "" "" [] []))).
    { unfold controllerViewJson. cbv zeta iota. apply (faithful_obj 4). repeat apply Forall_app_2; [|by apply faithful_omitString|]; cbn [CVClusterID CVMetadataVersion CVStatus]; members. }
    apply (faithful_obj 5). repeat apply Forall_app_2; try done; subst s; cbn [CSNodeID RaftRole RaftTerm IsLeader CSControlIndex CurrentView Recovery]; members. }
  assert (Dashboard.parseControllerStateResponse (jsOfJson (controllerStateJson false s)) = inr (Dashboard.mkInvalid "/controller/state" "currentView.nodes must be an array")) as Hx; [|unfold controllerStateJson in Hx; by rw Hx].
  unfold Dashboard.parseControllerStateResponse, controllerStateJson. cbv zeta. object_of. step. step. eapply bind_to; [get; unfold controllerViewJson; cbv zeta; cbn [js]; object_of; reflexivity|]. cbv beta. do 10 step.
  apply bind_fails. get. done.
Qed.

(** C34: the dashboard accepts the state that a node with a
    running controller reports and shows it as it is: role, term, view, slots,
    status, active plan and last rebalance, numbers rounded to binary64, which
    changes none below 2^53.  While the controller is starting, its state is
    rejected, since its empty lists are sent as null. *)
Theorem controller_state_shown peers nodeID base r : utf8 nodeID -> Forall (fun p => utf8 p.1) peers -> utf8 (riLeader r) -> monitored (riFSM r) ->
  Dashboard.isRecoveryState (SSState (BuildStatusSnapshot (riFSM r))) = true ->
  let state := (ControllerState peers nodeID (Some r)).2 in
  Dashboard.getControllerState (H := controllerNode peers nodeID) base (Some r) = (inl (shownController state), Some r) /\
  (CSControlIndex state < 2 ^ 53 -> floatInt (Dashboard.csControlIndex (shownController state)) = Some (CSControlIndex state)) /\
  Dashboard.getControllerState (H := controllerNode peers nodeID) base None =
    (inr (Dashboard.Unexpected (Dashboard.mkInvalid "/controller/state" "currentView.nodes must be an array")), None).
Proof.
  intros Hid Hp Hl Hm Hs state. pose proof (controller_ok_build peers nodeID r Hid Hp Hl Hm Hs) as Hok. fold state in Hok. split_and!.
  - unfold Dashboard.getControllerState, Dashboard.getJSON, roundTrip, controllerNode, handleControllerState. cbn [URLPath Method String.eqb Ascii.eqb Bool.eqb requireMethod negb orb].
    destruct (ControllerState peers nodeID (Some r)) as [made s] eqn:Hc. assert (made = true) as -> by (cbn in Hc; by injection Hc). subst state. cbn [snd] in *.
    change (Dashboard.okStatus (writeJSON 200 (controllerStateJson true s))) with true. cbv iota. f_equal. unfold controllerStateJson.
    rw (parsedBody_json _ 6); [by apply faithful_controller|lia|]. pose proof (parse_controller s Hok) as Hx. unfold controllerStateJson in Hx. by rw Hx.
  - intros Hi. apply floatOfInt_exact. pose proof (co_index _ Hok). lia.
  - by apply starting_rejected.
Qed.
End controller.
Lemma controller_state_shown_witness : let r := mkRaftInfo Leader "a:1" "2" healthyFSM in
  exists shown, Dashboard.getControllerState (H := controllerNode [("n1", "a:1")] "n1") "http://n1" (Some r) = (inl shown, Some r) /\
    Dashboard.csRaftLeaderId shown = Some "n1" /\ Dashboard.rcState (Dashboard.csRecovery shown) = "healthy" /\ floatInt (Dashboard.csRaftTerm shown) = Some 2.
Proof.
  intros r. exists (shownController (ControllerState [("n1", "a:1")] "n1" (Some r)).2). split.
  - assert (Hs : Dashboard.isRecoveryState (SSState (BuildStatusSnapshot (riFSM r))) = true) by (vm_compute; reflexivity).
    assert (Hp : Forall (fun p : string * string => utf8 p.1) [("n1", "a:1")]) by (apply Forall_singleton; reflexivity).
    exact (proj1 (controller_state_shown [("n1", "a:1")] "n1" "http://n1" r eq_refl Hp eq_refl monitored_healthy Hs)).
  - vm_compute. done.
Defined.
