(* ===== verification/StreamSpec.v ===== *)
(** * What the dashboard shows of the event stream of a node

    From the bytes that the API writes every second to the points of the charts. *)
From S2P Require Import Prelude GoText GoFloat GoFloatText FloatRatio GoTime Json JsonCodec Resp Eviction Store Executor Engine Metrics.
From S2P Require Import Topology ControlFSM Planner Observer ControlStatus ControlJson ControlJsonSpec AdminNode NodeClient NodeClientSpec Api Monitor MonitorSpec.
From S2P Require Dashboard.
From S2P Require Import DashboardPages DashboardSpec.
Local Open Scope Z_scope.

(** ** Texts without line ends *)

Definition printable (c : ascii) : bool := 32 <=? byteZ c.
Lemma printable_digits s : sall isDigit s = true -> sall printable s = true.
Proof.
  induction s as [|c s IH]; [done|]. cbn [sall]. intros [Hc Hs]%andb_true_iff. rw (IH Hs). unfold isDigit in Hc. unfold printable. lia.
Qed.
Lemma spanDigits_split s ds r : spanDigits s = (ds, r) -> sall isDigit ds = true.
Proof.
  revert ds r. induction s as [|c s IH]; intros ds r; cbn [spanDigits]; [by intros [= <- <-]|]. destruct (isDigitByte c) eqn:Hc; [|by intros [= <- <-]].
  destruct (spanDigits s) as [ds' r'] eqn:Hs. intros [= <- <-]. cbn [sall]. rw (IH _ _ eq_refl). unfold isDigitByte in Hc. by rw Hc.
Qed.
Lemma someDigits_printable s ds r : someDigits s = Some (ds, r) -> sall printable ds = true.
Proof.
  unfold someDigits. destruct (spanDigits s) as [ds' r'] eqn:Hs. destruct (String.eqb ds' ""); [done|]. intros [= <- <-]. apply printable_digits. by eapply spanDigits_split.
Qed.
Lemma readSign_printable plus s a r : readSign plus s = (a, r) -> sall printable a = true.
Proof.
  destruct s as [|c s]; cbn [readSign]; [by intros [= <- <-]|]. destruct (Ascii.eqb_spec c "-") as [->|]; cbn [orb]; [by intros [= <- <-]|].
  destruct plus; cbn [andb]; [|by intros [= <- <-]]. destruct (Ascii.eqb_spec c "+") as [->|]; by intros [= <- <-].
Qed.
Lemma readNumber_printable s t r : readNumber s = Some (t, r) -> sall printable t = true.
Proof.
  unfold readNumber. destruct (readSign false s) as [sign s1] eqn:Hsign. apply readSign_printable in Hsign.
  intros ([int s2] & Hint & ([frac s3] & Hfrac & ([exp s4] & Hexp & Ht)%bind_Some)%bind_Some)%bind_Some. injection Ht as <- <-. rw !sall_app Hsign. cbn [andb].
  assert (sall printable int = true) as ->.
  { destruct s1 as [|c s1]; [done|]. cbn [readInteger] in Hint. destruct (Ascii.eqb c "0"); [by injection Hint as <- <-|by eapply someDigits_printable]. }
  assert (sall printable frac = true) as ->.
  { destruct s2 as [|c s2]; cbn [readFraction] in Hfrac; [by injection Hfrac as <- <-|]. destruct (Ascii.eqb_spec c ".") as [->|]; [|by injection Hfrac as <- <-].
    apply bind_Some in Hfrac as ([ds r'] & Hd & Hf). injection Hf as <- <-. apply someDigits_printable in Hd. cbn [sall]. by rw Hd. }
  cbn [andb]. destruct s3 as [|c s3]; cbn [readExponent] in Hexp; [by injection Hexp as <- <-|].
  destruct (_ || _) eqn:Hc; [|by injection Hexp as <- <-]. destruct (readSign true s3) as [sg s5] eqn:Hsg. apply readSign_printable in Hsg.
  apply bind_Some in Hexp as ([ds r'] & Hd & Hf). injection Hf as <- <-. apply someDigits_printable in Hd. cbn [sall]. rw sall_app Hsg Hd.
  apply orb_true_iff in Hc as [Hc|Hc]; apply Ascii.eqb_eq in Hc as ->; done.
Qed.
Lemma quoteByte_printable c : (byteZ c <? 128) = true -> sall printable (quoteByte c) = true.
Proof. destruct c as [[] [] [] [] [] [] [] []]; intros Hc; (by vm_compute in Hc) || reflexivity. Qed.
Lemma runeLen_printable c s k : runeLen (String c s) = S k -> (byteZ c <? 128) = false -> sall printable (stake k s) = true.
Proof.
  assert (Hr : forall lo hi d, inRange lo hi d = true -> 32 <= lo -> printable d = true) by (unfold inRange, printable; intros lo hi d Hd Hlo; lia).
  cbn [runeLen]. intros Hk Hc. rw Hc in Hk. unfold isCont in Hk.
  repeat case_match; simplify_eq; cbn [stake sall]; repeat match goal with H : _ && _ = true |- _ => apply andb_true_iff in H as [? ?] end;
    repeat match goal with H : inRange _ _ ?d = true |- context [printable ?d] => rewrite -> (Hr _ _ _ H) by lia end; done.
Qed.
Lemma quoteBody_printable s : sall printable (quoteBody true 0 s) = true.
Proof.
  induction s as [s IH] using (induction_ltof1 _ String.length). unfold ltof in IH. destruct s as [|c s]; [done|]. cbn [quoteBody].
  assert (Hs : forall n, sall printable (quoteBody true 0 (sdrop n s)) = true) by (intros n; apply IH; rw length_sdrop; simpl; lia).
  destruct (byteZ c <? 128) eqn:Hc; [by rw sall_app quoteByte_printable // (Hs 0%nat)|].
  destruct (lineSeparator _) as [d|] eqn:Hl.
  { apply lineSeparator_inv in Hl as (s2 & -> & -> & Hd). rw sall_app. specialize (Hs 2%nat). rw quoteBody_drop quoteBody_keep.
    change (sall printable (String d ?x)) with (printable d && sall printable x). rw Hs. by destruct Hd as [-> | ->]. }
  destruct (runeLen (String c s)) as [|k] eqn:Hr; [by rw sall_app (Hs 0%nat)|]. rw quoteBody_skip. cbn [sall]. rw sall_app (Hs k) (runeLen_printable _ _ _ Hr Hc).
  unfold printable. lia.
Qed.
Lemma quoteString_printable s : sall printable (quoteString s) = true.
Proof. unfold quoteString. cbn [sall]. rw sall_app quoteBody_printable. done. Qed.
Lemma sall_sconcat p l : Forall (fun s => sall p s = true) l -> sall p (sconcat l) = true.
Proof. induction 1 as [|s l Hs Hl IH]; [done|]. cbn [sconcat foldr]. by rw sall_app Hs. Qed.
Lemma printJson_printable j : jok j -> sall printable (printJson j) = true.
Proof.
  unfold printJson. generalize 0%nat. induction j as [|b|t|s|js IH|ms IH] using Json_nested_ind; intros depth Hj; cbn [render].
  - done.
  - by destruct b.
  - destruct Hj as [_ Hr]. specialize (Hr "" eq_refl). by eapply readNumber_printable.
  - apply quoteString_printable.
  - assert (Hall : Forall (fun j => sall printable (render (fun _ => "") ":" (S depth) j) = true) js).
    { cbn [jok] in Hj. induction IH as [|x l Hx Hl IHl]; [done|]. destruct Hj as [H1 H2]. constructor; [by apply Hx|by apply IHl]. }
    destruct js as [|x js]; [done|]. apply Forall_cons in Hall as [Hx Hall]. rw !sall_app Hx sall_sconcat; [|done].
    apply Forall_map. eapply Forall_impl; [exact Hall|]. intros y Hy. rw !sall_app. by rw Hy.
  - assert (Hall : Forall (fun m => sall printable (render (fun _ => "") ":" (S depth) m.2) = true) ms).
    { cbn [jok] in Hj. induction IH as [|x l Hx Hl IHl]; [done|]. destruct Hj as [H1 H2]. constructor; [by apply Hx|by apply IHl]. }
    destruct ms as [|[k x] ms]; [done|]. apply Forall_cons in Hall as [Hx Hall]. rw !sall_app quoteString_printable Hx sall_sconcat; [|done].
    apply Forall_map. eapply Forall_impl; [exact Hall|]. intros y Hy. rw !sall_app quoteString_printable. by rw Hy.
Qed.

(** ** Events *)

Lemma endedLines_printable line s rest : sall printable s = true -> endedLines line (s +:+ String "010" rest) = (line +:+ s) :: endedLines "" rest.
Proof.
  revert line. induction s as [|c s IH]; intros line; cbn [sall]; [by rw app_nil_string|]. intros [Hc Hs]%andb_true_iff. rw app_string_cons. cbn [endedLines].
  destruct (Ascii.eqb_spec c "010") as [->|]; [done|]. rw (IH _ Hs). by rw app_string_assoc.
Qed.
Lemma messages_event j rest : jok j -> messages (eventText j +:+ rest) = printJson j :: messages rest.
Proof.
  intros Hj. pose proof (printJson_printable j Hj) as Hp. unfold messages, eventText.
  assert (Hs : sall printable ("data: " +:+ printJson j) = true) by (by rw sall_app Hp).
  replace (("data: " +:+ printJson j +:+ LF +:+ LF) +:+ rest) with (("data: " +:+ printJson j) +:+ String "010" (String "010" rest)) by (by rw !app_string_assoc).
  by rw endedLines_printable.
Qed.

Lemma jget_elem name ms j : NoDup ms.*1 -> jget name ms = Some j <-> (name, j) ∈ ms.
Proof.
  induction ms as [|[k v] ms IH]; cbn [fmap list_fmap fst jget]; [intros _; split; [done|by intros ?%elem_of_nil]|]. intros [Hk Hn]%NoDup_cons. rw elem_of_cons.
  destruct (String.eqb_spec k name) as [->|Hne].
  - split; [intros [= ->]; by left|]. intros [[= <-]|Hin]; [done|]. destruct Hk. apply list_elem_of_fmap. by exists (name, j).
  - rw (IH Hn). split; [by right|]. by intros [[= ->]|].
Qed.
Lemma jget_perm name l k : l ≡ₚ k -> NoDup l.*1 -> jget name l = jget name k.
Proof.
  intros Hp Hn. assert (NoDup k.*1) as Hk by (by rw -Hp). apply option_eq. intros j. rw (jget_elem _ _ _ Hn) (jget_elem _ _ _ Hk). by rw Hp.
Qed.
Lemma numberEntries_all l source name acc : NoDup (acc.*1 ++ l.*1) -> Forall (fun p : string * Z => 0 <= p.2 <= maxUint64) l ->
  Dashboard.numberEntries (map (fun p => (p.1, Dashboard.jsOfJson (encUint p.2))) l) source name acc = inl (acc ++ map (fun p => (p.1, floatOfInt p.2)) l).
Proof.
  intros Hn Hl. revert acc Hn. induction Hl as [|[k v] l Hv Hl IH]; intros acc Hn; cbn [map Dashboard.numberEntries]; [by rw app_nil_r|].
  cbn [fst snd] in *. eapply bind_to; [by apply (finiteNumber_uint v)|]. cbv beta. cbn [fmap list_fmap fst] in Hn. apply NoDup_app in Hn as (Ha & Hd & Hm).
  rw setMember_fresh; [intros Hk; apply (Hd _ Hk); left|]. rw IH; [|by rw -app_assoc].
  rw fmap_app. cbn [fmap list_fmap fst]. rw -app_assoc. apply NoDup_app. split_and!; done.
Qed.

(** A node whose counters and sizes are 64-bit integers. *)
Record countable {W} (cfg : Engine.Config W) (s : Standalone W) : Prop := {
  ct_counters : map_Forall (fun name n => utf8 name /\ 0 <= n <= maxUint64) (counters (snSink s));
  ct_used : 0 <= usedBytes (snStore s) <= maxUint64;
  ct_limit : 0 <= limit cfg <= maxUint64
}.
(** An event shows the state of a node at a time. *)
Record showsNode {W} (cfg : Engine.Config W) (now : Z) (status : option StatusSnapshot) (s : Standalone W) (e : Dashboard.NodeEvent) : Prop := {
  sh_time : Dashboard.neTimestamp e = floatOfInt now;
  sh_used : Dashboard.neUsedBytes e = floatOfInt (Used (snStore s));
  sh_limit : Dashboard.neMemoryLimit e = floatOfInt (limit cfg);
  sh_available : Dashboard.neAvailableBytes e = floatOfInt (Available (limit cfg) (snStore s));
  sh_policy : Dashboard.nePolicy e = PolicyName (snPolicy s);
  sh_rejected : Dashboard.neRejectedWrites e = Some (floatOfInt (Counter (snSink s) "eviction.rejected_writes"));
  sh_counters : exists cs, Dashboard.neCounters e = Some cs /\ cs ≡ₚ (fun p => (p.1, floatOfInt p.2)) <$> map_to_list (counters (snSink s));
  sh_recovery : Dashboard.neRecovery e = shownStatus <$> status
}.
Definition reportable (status : option StatusSnapshot) : Prop :=
  match status with Some st => status_ok st /\ Dashboard.isRecoveryState (SSState st) = true | None => True end.

Lemma Counter_range m name : map_Forall (fun name n => utf8 name /\ 0 <= n <= maxUint64) (counters m) -> 0 <= Counter m name <= maxUint64.
Proof.
  intros Hm. unfold Counter. destruct (counters m !! name) as [n|] eqn:Hn; [by destruct (Hm _ _ Hn)|]. cbn. unfold maxUint64. lia.
Qed.
Lemma numberRecord_counters m source name : map_Forall (fun name n => utf8 name /\ 0 <= n <= maxUint64) (counters m) ->
  exists cs, Dashboard.numberRecord (Dashboard.jsOfJson (countersJson m)) source name = inl cs /\ cs ≡ₚ (fun p => (p.1, floatOfInt p.2)) <$> map_to_list (counters m).
Proof.
  intros Hm. unfold countersJson. destruct (encMap_list (fun k => k) encUint (counters m)) as (l & -> & Hl).
  destruct (list_to_map_perm l (counters m) Hl) as [_ Hn].
  assert (Hr : Forall (fun p : string * Z => 0 <= p.2 <= maxUint64) l).
  { apply Forall_forall. intros [k v] Hin. rw Hl in Hin. apply elem_of_map_to_list in Hin. by destruct (Hm _ _ Hin). }
  exists (map (fun p => (p.1, floatOfInt p.2)) l). split; [|by apply Permutation_map].
  rw jsOfJson_obj; [by rw -list_fmap_compose|]. unfold Dashboard.numberRecord. eapply bind_to; [reflexivity|]. cbv beta. unfold jsMembers. rw map_map. cbn [fst snd].
  rw (numberEntries_all l source name []); [done|done|]. done.
Qed.
Lemma unless_status status source : reportable status ->
  Dashboard.unlessUndefined (js (statusSnapshotJson <$> status)) (fun v => Dashboard.parseRecoveryStatus v source) = inl (shownStatus <$> status).
Proof.
  intros Hs. unfold statusSnapshotJson. apply (unless_js _ _ _ shownStatus). intros st ->. destruct Hs as [Hok Hst]. split; [keys|by apply parse_status].
Qed.

Ltac get' :=
  rewrite -> ?jget_app, ?jget_cons, ?jget_ptr; cbn [jget String.eqb Ascii.eqb Bool.eqb]; rewrite -> ?option_eta.
Lemma optionalNumber_js n a b : 0 <= n <= maxUint64 -> Dashboard.optionalNumber (js (Some (encUint n))) a b = inl (Some (floatOfInt n)).
Proof. intros Hn. pose proof (finiteNumber_uint n a b Hn) as Hf. unfold Dashboard.optionalNumber. cbn [js encUint Dashboard.jsOfJson] in *. by rw Hf. Qed.
Section event.
Context {W : Type} (cfg : Engine.Config W) (now : Z) (status : option StatusSnapshot) (s : Standalone W).
Hypothesis Hnow : int64_range now.
Hypothesis Hs : countable cfg s.
Hypothesis Hstatus : reportable status.

Definition eventFields : list (string * Json) :=
  [("timestamp", encInt now); ("usedBytes", encUint (Used (snStore s))); ("memoryLimit", encUint (limit cfg));
   ("availableBytes", encUint (Available (limit cfg) (snStore s))); ("policy", JStr (PolicyName (snPolicy s)));
   ("counters", countersJson (snSink s)); ("rejectedWrites", encUint (Counter (snSink s) "eviction.rejected_writes"))] ++
  omitPtr "recovery" statusSnapshotJson status.
Lemma payload_fields : exists ms, snapshotPayload cfg now (statusSnapshotJson <$> status) s = JObj ms /\ ms ≡ₚ eventFields.
Proof.
  exists (merge_sort byText eventFields). split; [|apply merge_sort_Permutation]. unfold snapshotPayload, eventFields. by destruct status.
Qed.
Lemma Available_range : 0 <= Available (limit cfg) (snStore s) <= maxUint64.
Proof.
  destruct Hs as [_ Hu Hl]. unfold Available. destruct (_ =? 0); [unfold maxUint64; lia|]. destruct (Z.leb_spec (limit cfg) (usedBytes (snStore s))); unfold maxUint64 in *; lia.
Qed.
Lemma faithful_event ms : ms ≡ₚ eventFields -> faithful 5 (JObj ms).
Proof.
  intros Hp. apply (faithful_obj 4). rw Hp. pose proof Available_range. destruct Hs as [Hc Hu Hl]. pose proof (Counter_range _ "eviction.rejected_writes" Hc) as Hr.
  assert (faithful 4 (countersJson (snSink s))).
  { apply (faithful_encMap 3); [right|]; intros k v Hk; destruct (Hc _ _ Hk); [done|by apply faithful_uint]. }
  assert (utf8 (PolicyName (snPolicy s))) by (by destruct (snPolicy s)). apply Forall_app_2; [unfold Used; members|].
  destruct status as [st|]; [|constructor]. apply Forall_singleton. split; [done|]. by apply faithful_status, Hstatus.
Qed.
Lemma event_keys : NoDup eventFields.*1.
Proof. unfold eventFields. keys. Qed.
Lemma event_parsed ms : ms ≡ₚ eventFields -> exists e, Dashboard.parseNodeEvent (Dashboard.jsOfJson (JObj ms)) = inl e /\ showsNode cfg now status s e.
Proof.
  intros Hp. assert (Hn : NoDup ms.*1) by (rw Hp; apply event_keys).
  assert (Hget : forall name, jget name ms = jget name eventFields) by (intros name; by apply jget_perm).
  pose proof Available_range. destruct Hs as [Hc Hu Hl]. pose proof (Counter_range _ "eviction.rejected_writes" Hc) as Hr.
  destruct (numberRecord_counters (snSink s) "/events" "counters" Hc) as (cs & Hcs & Hperm).
  assert (Hcounters : Dashboard.unlessUndefined (Dashboard.jsOfJson (countersJson (snSink s))) (fun v => Dashboard.numberRecord v "/events" "counters") = inl (Some cs)).
  { unfold Dashboard.unlessUndefined. destruct (Dashboard.jsOfJson (countersJson (snSink s))) eqn:Hv; try done; by rw Hcs. }
  eexists. split.
  - unfold Dashboard.parseNodeEvent. cbv zeta. rw jsOfJson_obj //. eapply bind_to; [reflexivity|]. cbv beta. unfold eventFields in Hget.
    do 6 (eapply bind_to; [rewrite -> member_js, Hget; get'; first [reflexivity | apply finiteNumber_uint; assumption | apply finiteNumber_int; assumption | apply optionalNumber_js; assumption]|]; cbv beta).
    eapply bind_to; [rewrite -> member_js, Hget; get'; exact Hcounters|]. cbv beta.
    eapply bind_to; [rewrite -> member_js, Hget; get'; by apply unless_status|]. reflexivity.
  - split; try done. by exists cs.
Qed.
Lemma event_shown : let payload := snapshotPayload cfg now (statusSnapshotJson <$> status) s in
  jok payload /\ exists e, onMessage (printJson payload) = inl e /\ showsNode cfg now status s e.
Proof.
  destruct payload_fields as (ms & -> & Hp). pose proof (faithful_event ms Hp) as Hf. destruct (event_parsed ms Hp) as (e & He & Hsh). split; [apply Hf|].
  exists e. split; [|done]. unfold onMessage, Dashboard.JSONparse. destruct Hf as [Hok Hv Hd]. rw parse_print //; [unfold maxNestingDepth; lia|]. rw Hv. cbn [fmap option_fmap option_map]. by rw He.
Qed.
End event.

(** ** Charts *)

Lemma appendPoint_last {A} (l : list A) x : appendPoint (lastPoints MAX_POINTS l) x = lastPoints MAX_POINTS (l ++ [x]).
Proof.
  unfold appendPoint, lastPoints. rw length_drop length_app. cbn [length]. destruct (Nat.leb_spec MAX_POINTS (length l - (length l - MAX_POINTS))) as [Hle|Hgt].
  - rw drop_drop. rw drop_app_le; [unfold MAX_POINTS in *; lia|]. do 2 f_equal. unfold MAX_POINTS in *. lia.
  - replace (length l - MAX_POINTS)%nat with 0%nat by lia. replace (length l + 1 - MAX_POINTS)%nat with 0%nat by lia. done.
Qed.

(** What a node reports: the time, the status of its controller and its state. *)
Definition Report (W : Type) : Type := Z * option StatusSnapshot * Standalone W.
Section charts.
Context {W : Type} (cfg : Engine.Config W).
Definition reportText (r : Report W) : string := let '(now, status, s) := r in eventText (snapshotPayload cfg now (statusSnapshotJson <$> status) s).
Definition report_ok (r : Report W) : Prop := let '(now, status, s) := r in int64_range now /\ countable cfg s /\ reportable status.
Definition shownReport (r : Report W) (e : Dashboard.NodeEvent) : Prop := let '(now, status, s) := r in showsNode cfg now status s e.

Definition memoryPoint (r : Report W) : MemoryPoint :=
  let '(now, _, s) := r in
  mkMemoryPoint (floatOfInt now) (floatOfInt (Used (snStore s)))
    (if fltb zero64 (floatOfInt (limit cfg)) then SFdiv 53 1024 (floatOfInt (Used (snStore s))) (floatOfInt (limit cfg)) else zero64).
(** The time and the number of commands. *)
Definition totalOf (r : Report W) : float64 * float64 := let '(now, _, s) := r in (floatOfInt now, floatOfInt (Counter (snSink s) "cmd.total")).
Definition rate (prev cur : float64 * float64) : ThroughputPoint :=
  let dt := SFsub 53 1024 cur.1 prev.1 in
  mkThroughputPoint cur.1 (if fltb zero64 dt then atLeastZero (SFdiv 53 1024 (SFsub 53 1024 cur.2 prev.2) dt) else zero64).
Fixpoint rates (prev : option (float64 * float64)) (reports : list (Report W)) : list ThroughputPoint :=
  match reports with
  | [] => []
  | r :: reports => match prev with Some p => [rate p (totalOf r)] | None => [] end ++ rates (Some (totalOf r)) reports
  end.

Lemma counterOf_shown now status s e name : showsNode cfg now status s e -> counterOf name e = floatOfInt (Counter (snSink s) name).
Proof.
  intros Hsh. destruct (sh_counters _ _ _ _ _ Hsh) as (cs & Hcs & Hp). unfold counterOf. rw Hcs.
  assert (Hin : forall n f, (n, f) ∈ cs <-> exists v, counters (snSink s) !! n = Some v /\ f = floatOfInt v).
  { intros n f. rw Hp list_elem_of_fmap. split.
    - intros ([k v] & Heq & Hin%elem_of_map_to_list). cbn in Heq. injection Heq as -> ->. by exists v.
    - intros (v & Hv%elem_of_map_to_list & ->). by exists (n, v). }
  destruct (List.find _ cs) as [[k f]|] eqn:Hf.
  - apply List.find_some in Hf as [Hf Hk%String.eqb_eq]. cbn in Hk. subst k. apply list_elem_of_In, Hin in Hf as (v & Hv & ->). unfold Counter. by rw Hv.
  - unfold Counter. destruct (counters (snSink s) !! name) as [v|] eqn:Hv; [|done].
    assert (Hx : (name, floatOfInt v) ∈ cs) by (apply Hin; by exists v). apply list_elem_of_In in Hx. apply (List.find_none _ _ Hf) in Hx. cbn in Hx. by rw String.eqb_refl in Hx.
Qed.
Lemma messages_reports reports : Forall report_ok reports -> exists datas evs,
  messages (sconcat (map reportText reports)) = datas /\ Forall2 (fun data e => onMessage data = inl e) datas evs /\ Forall2 shownReport reports evs.
Proof.
  induction 1 as [|[[now status] s] reports (Hn & Hs & Hst) Hall (datas & evs & Hd & He & Hsh)]; [by exists [], []|].
  destruct (event_shown cfg now status s Hn Hs Hst) as (Hok & e & Hm & Hsh1). eexists _, (e :: evs). split; [|split; [|by constructor]].
  - cbn [map sconcat foldr]. unfold reportText at 1. rw messages_event //.
  - constructor; [done|]. by rw -Hd in He.
Qed.
Lemma received_step data e r s : onMessage data = inl e -> shownReport r e -> streamStep (Received data) s =
  mkNodeEvents Connected (Some e) None (appendPoint (nsMemory s) (memoryPoint r))
    (match nsPrev s with Some prev => appendPoint (nsThroughput s) (rate prev (totalOf r)) | None => nsThroughput s end) (Some (totalOf r)).
Proof.
  intros Hm Hsh. destruct r as [[now status] st]. cbn [streamStep]. rw Hm. pose proof (counterOf_shown _ _ _ _ "cmd.total" Hsh) as Hc.
  unfold memoryPoint, totalOf, ratioOf, opsSince. rw Hc (sh_time _ _ _ _ _ Hsh) (sh_used _ _ _ _ _ Hsh) (sh_limit _ _ _ _ _ Hsh). done.
Qed.
Lemma received_all reports datas evs s mem thr : Forall2 (fun data e => onMessage data = inl e) datas evs -> Forall2 shownReport reports evs ->
  nsStatus s = Connected -> nsError s = None -> nsMemory s = lastPoints MAX_POINTS mem -> nsThroughput s = lastPoints MAX_POINTS thr ->
  let final := runStream (map Received datas) s in
  nsStatus final = Connected /\ nsError final = None /\ nsLatest final = (match last evs with Some e => Some e | None => nsLatest s end) /\
  nsMemory final = lastPoints MAX_POINTS (mem ++ map memoryPoint reports) /\ nsThroughput final = lastPoints MAX_POINTS (thr ++ rates (nsPrev s) reports).
Proof.
  intros Hd Hsh. revert reports Hsh s mem thr. induction Hd as [|data e datas evs Hm Hd IH]; intros reports Hsh s mem thr Hst He Hmem Hthr.
  { inversion Hsh; subst. cbn. by rw !app_nil_r. }
  inversion Hsh as [|r ? reports' ? Hr Hrest]; subst. cbn [map runStream foldl]. rw (received_step _ _ _ _ Hm Hr).
  destruct (IH _ Hrest (mkNodeEvents Connected (Some e) None (appendPoint (nsMemory s) (memoryPoint r))
    (match nsPrev s with Some prev => appendPoint (nsThroughput s) (rate prev (totalOf r)) | None => nsThroughput s end) (Some (totalOf r)))
    (mem ++ [memoryPoint r]) (thr ++ match nsPrev s with Some prev => [rate prev (totalOf r)] | None => [] end)) as (H1 & H2 & H3 & H4 & H5); [done|done| | |].
  - cbn [nsMemory]. rw Hmem. apply appendPoint_last.
  - cbn [nsThroughput]. rw Hthr. destruct (nsPrev s); [apply appendPoint_last|by rw app_nil_r].
  - cbn [nsLatest nsPrev] in H3, H5. unfold runStream in *. split_and!; [done|done| |by rw H4 -app_assoc|by rw H5 -app_assoc].
    rw H3. cbn [last]. destruct evs; [done|]. by destruct (last (_ :: _)) eqn:Hl; [|apply last_None in Hl].
Qed.
End charts.

Lemma Forall2_last {A B} (R : A -> B -> Prop) l k : Forall2 R l k -> forall a, last l = Some a -> exists b, last k = Some b /\ R a b.
Proof.
  induction 1 as [|a b l k Hab Hlk IH]; intros x Hx; [done|]. destruct Hlk as [|a' b' l k Hab' Hlk]; [injection Hx as <-; by exists b|]. by apply IH.
Qed.

(** C35: whatever states a node reports on its event stream, the
    dashboard understands every event: it stays connected without an error, its
    memory chart holds the last sixty states, its throughput chart the commands
    per second between consecutive events, and the latest event is the last state
    that the node reported, with all its counters and the status of the
    controller. *)
Theorem stream_shown {W} (cfg : Engine.Config W) reports :
  Forall (report_ok cfg) reports ->
  let datas := messages (sconcat (map (reportText cfg) reports)) in
  let final := runStream (Opened :: map Received datas) startEvents in
  length datas = length reports /\ nsStatus final = Connected /\ nsError final = None /\
  nsMemory final = lastPoints MAX_POINTS (map (memoryPoint cfg) reports) /\ nsThroughput final = lastPoints MAX_POINTS (rates None reports) /\
  match last reports with
  | None => nsLatest final = None
  | Some r => exists e, nsLatest final = Some e /\ shownReport cfg r e
  end.
Proof.
  intros Hall datas final. destruct (messages_reports cfg reports Hall) as (datas' & evs & Hd & He & Hsh). fold datas in Hd. subst datas'.
  destruct (received_all cfg reports datas evs (mkNodeEvents Connected None None [] [] None) [] [] He Hsh) as (H1 & H2 & H3 & H4 & H5); [done..|].
  change (runStream (map Received datas) _) with final in H1, H2, H3, H4, H5. pose proof (Forall2_length _ _ _ He). pose proof (Forall2_length _ _ _ Hsh).
  split_and!; [lia|done..|]. destruct (last reports) as [r|] eqn:Hr.
  - assert (exists e, last evs = Some e /\ shownReport cfg r e) as (e & Hl & Hs).
    { by apply (Forall2_last _ _ _ Hsh). }
    exists e. rw H3 Hl. done.
  - apply last_None in Hr. subst reports. inversion Hsh; subst evs. exact H3.
Qed.

(** A node that has executed some commands, twice. *)
Definition countedNode (total : Z) : Standalone unit :=
  mkStandalone (mkEng (mkSys (NewStore 4) 0) tt []) NoEviction (AddCounter "cmd.total" total (NewInMemory 16)).
Definition exampleReports : list (Report unit) := [(100, None, countedNode 10); (102, Some startingStatus, countedNode 30)].
Definition exampleConfig : Engine.Config unit := Engine.mkConfig 200 NoEviction None false.
Lemma stream_shown_witness :
  let datas := messages (sconcat (map (reportText exampleConfig) exampleReports)) in
  let final := runStream (Opened :: map Received datas) startEvents in
  length datas = 2%nat /\ nsStatus final = Connected /\ floatInt <$> (tpOps <$> nsThroughput final) = [Some 10].
Proof.
  destruct (stream_shown exampleConfig exampleReports) as (H1 & H2 & _ & _ & H5 & _).
  - assert (Hc : forall n, countable exampleConfig (countedNode n)).
    { intros n. split; [|by vm_compute|by vm_compute]. apply map_Forall_insert_2; [|apply map_Forall_empty]. split; [reflexivity|]. unfold u64, maxUint64.
      pose proof (Z.mod_pos_bound (Counter (NewInMemory 16) "cmd.total" + n) 18446744073709551616 eq_refl). lia. }
    assert (Hst : status_ok startingStatus) by (by split; cbn).
    apply Forall_cons_2; [split; [by vm_compute|]; split; [apply Hc|done]|]. apply Forall_singleton. split; [by vm_compute|]. split; [apply Hc|by split].
  - split; [exact H1|]. split; [exact H2|]. cbv zeta. rw H5. vm_compute. reflexivity.
Defined.
