(* ===== verification/ConsoleSpec.v ===== *)
(** * What the command console of the dashboard does

    A line of quoted words is split into those words, they reach the node as the
    same command that a connection would send, and the console shows its reply. *)
From S2P Require Import Prelude GoText GoFloat GoFloatText FloatRatio Json JsonCodec Resp Eviction Store Executor Engine Server Metrics.
From S2P Require Import AdminNode NodeClient NodeClientSpec Api ApiSpec.
From S2P Require Dashboard.
From S2P Require Import DashboardPages DashboardSpec.
Local Open Scope Z_scope.

(** ** Strings of JavaScript are read by Go *)

Definition high (c : ascii) : bool := 128 <=? byteZ c.
Lemma runeLen_high_bytes c s k : runeLen (String c s) = S k -> (byteZ c <? 128) = false -> sall high (stake k s) = true.
Proof.
  assert (Hr : forall lo hi d, inRange lo hi d = true -> 128 <= lo -> high d = true) by (unfold inRange, high; intros lo hi d Hd Hlo; lia).
  cbn [runeLen]. intros Hk Hc. rw Hc in Hk. unfold isCont in Hk.
  repeat case_match; simplify_eq; cbn [stake sall]; repeat match goal with H : _ && _ = true |- _ => apply andb_true_iff in H as [? ?] end;
    repeat match goal with H : inRange _ _ ?d = true |- context [high ?d] => rewrite -> (Hr _ _ _ H) by lia end; done.
Qed.
Lemma jsQuoteByte_high c : high c = true -> Dashboard.jsQuoteByte c = String c "".
Proof. destruct c as [[] [] [] [] [] [] [] []]; intros Hc; (by vm_compute in Hc) || reflexivity. Qed.
Lemma jsQuoteBody_app a b : Dashboard.jsQuoteBody (a +:+ b) = Dashboard.jsQuoteBody a +:+ Dashboard.jsQuoteBody b.
Proof. induction a as [|c a IH]; [done|]. rw app_string_cons. cbn [Dashboard.jsQuoteBody]. by rw IH app_string_assoc. Qed.
Lemma jsQuoteBody_high s : sall high s = true -> Dashboard.jsQuoteBody s = s.
Proof. induction s as [|c s IH]; [done|]. cbn [sall Dashboard.jsQuoteBody]. intros [Hc Hs]%andb_true_iff. by rw jsQuoteByte_high // (IH Hs). Qed.
Lemma unquote_jsQuoteByte fuel c x : (byteZ c <? 128) = true -> unquote (S fuel) (Dashboard.jsQuoteByte c +:+ x) = prepend (String c "") (unquote fuel x).
Proof. destruct c as [[] [] [] [] [] [] [] []]; intros Hc; try (by vm_compute in Hc); reflexivity. Qed.
Lemma toValid_length k s : (String.length s <= String.length (toValid k s))%nat.
Proof.
  revert k. induction s as [|c s IH]; intros k; [done|]. cbn [toValid]. destruct k as [|k]; [|pose proof (IH k); simpl; lia].
  destruct (runeLen _) as [|k]; [rw length_app_string; pose proof (IH 0%nat)|pose proof (IH k)]; simpl; lia.
Qed.
Lemma utf8_rune c s : utf8 (String c s) -> exists k, runeLen (String c s) = S k /\ utf8 (sdrop k s).
Proof.
  unfold utf8. cbn [toValid]. destruct (runeLen (String c s)) as [|k] eqn:Hr.
  { intros Hv%(f_equal String.length). rw length_app_string in Hv. pose proof (toValid_length 0 s). simpl in Hv. lia. }
  intros [= Hv]. exists k. split; [done|]. rw toValid_skip in Hv. pose proof (stake_sdrop k s) as Hs.
  rewrite <- Hs in Hv at 3. revert Hv. generalize (stake k s). intros a. induction a as [|x a IH]; [done|]. rw !app_string_cons. by intros [= Hv%IH].
Qed.
Lemma unquote_jsQuoteBody fuel s rest : utf8 s -> (String.length (Dashboard.jsQuoteBody s) < fuel)%nat ->
  unquote fuel (Dashboard.jsQuoteBody s +:+ String quoteMark rest) = Some (s, rest).
Proof.
  revert fuel. induction s as [s IH] using (induction_ltof1 _ String.length). unfold ltof in IH. intros fuel Hu Hf.
  destruct fuel as [|fuel]; [lia|]. destruct s as [|c s]; [done|]. destruct (utf8_rune _ _ Hu) as (k & Hr & Hd).
  assert (Hs : (String.length (sdrop k s) < String.length (String c s))%nat) by (rw length_sdrop; simpl; lia).
  cbn [Dashboard.jsQuoteBody] in *. destruct (byteZ c <? 128) eqn:Hc.
  { assert (k = 0%nat) as -> by (cbn [runeLen] in Hr; rw Hc in Hr; by injection Hr). rw app_string_assoc unquote_jsQuoteByte // (IH _ Hs); [|rw length_app_string in Hf; assert (1 <= String.length (Dashboard.jsQuoteByte c))%nat by (destruct c as [[] [] [] [] [] [] [] []]; vm_compute; lia); simpl; lia|done]. done. }
  destruct (runeLen_high _ _ _ Hr Hc) as [Hk Hb]. rw jsQuoteByte_high in Hf *; [unfold high; lia..|].
  pose proof (runeLen_high_bytes _ _ _ Hr Hc) as Hh.
  pose proof (stake_sdrop k s) as Hsplit.
  assert (Hq : Dashboard.jsQuoteBody s = stake k s +:+ Dashboard.jsQuoteBody (sdrop k s)) by (rewrite <- Hsplit at 1; rw jsQuoteBody_app; by rw (jsQuoteBody_high _ Hh)).
  rw Hq in Hf *. rw !app_string_assoc app_string_cons app_string_nil_l. set (y := Dashboard.jsQuoteBody (sdrop k s) +:+ String quoteMark rest).
  destruct (runeLen_prefix _ _ y Hr) as [Hp Hlen]. cbn [stake String.length] in Hp, Hlen. rw app_string_cons in Hp. injection Hlen as Hlen.
  cbn [unquote]. destruct (Z.eqb_spec (byteZ c) 34); [lia|]. destruct (Z.eqb_spec (byteZ c) 92); [lia|]. destruct (Z.ltb_spec (byteZ c) 32); [lia|].
  assert (Hcut : stake k (stake k s +:+ y) = stake k s /\ sdrop k (stake k s +:+ y) = y).
  { revert Hlen. generalize (stake k s). intros u <-. split; [apply stake_app|apply sdrop_app]. }
  destruct Hcut as [Hc1 Hc2]. rw Hp stake_cons Hc1 Hc2. unfold y. rw (IH _ Hs); [done| |].
  - rw !length_app_string in Hf. simpl in Hf. lia.
  - cbn. by rw app_string_cons Hsplit.
Qed.

Lemma readString_js s rest : utf8 s -> readString (Dashboard.jsQuoteBody s +:+ String quoteMark rest) = Some (s, rest).
Proof. intros Hu. apply unquote_jsQuoteBody; [done|]. rw length_app_string. simpl. lia. Qed.
Lemma readValue_js fuel d s rest : utf8 s -> readValue (S fuel) d (Dashboard.jsQuote s +:+ rest) = Some (JStr s, rest).
Proof.
  intros Hu. unfold Dashboard.jsQuote. rw app_string_cons app_string_assoc app_string_cons app_string_nil_l. cbn [readValue]. rw skipWS_cons //. cbv iota.
  change (byteZ quoteMark =? 123) with false. change (byteZ quoteMark =? 91) with false. change (byteZ quoteMark =? 34) with true. cbv iota. by rw readString_js.
Qed.
Lemma readElements_next fuel d s j r : readValue fuel d s = Some (j, String "," r) ->
  readElements (S fuel) d s = ('(js, r) ← readElements fuel d r; Some (j :: js, r)).
Proof. intros Hs. cbn [readElements]. by rw Hs. Qed.
Lemma readElements_js l fuel d rest : l <> [] -> Forall utf8 l -> (length l < fuel)%nat -> readElements fuel d (Dashboard.jsItems l +:+ String "]" rest) = Some (map JStr l, rest).
Proof.
  intros Hne Hl. revert fuel. induction Hl as [|s l Hs Hl IH]; intros fuel Hf; [done|]. destruct fuel as [|[|fuel]]; [lia|simpl in Hf; lia|].
  destruct l as [|s2 l].
  - cbn [Dashboard.jsItems readElements]. rw readValue_js //.
  - change (Dashboard.jsItems (s :: s2 :: l)) with (Dashboard.jsQuote s +:+ "," +:+ Dashboard.jsItems (s2 :: l)). rw !app_string_assoc.
    rw (readElements_next _ _ _ (JStr s) (Dashboard.jsItems (s2 :: l) +:+ String "]" rest)); [by rw readValue_js|]. rw IH; [done|simpl in *; lia|]. done.
Qed.
Lemma jsItems_head l : l <> [] -> exists t, Dashboard.jsItems l = String quoteMark t.
Proof. destruct l as [|s [|s2 l]]; [done|..]; intros _; by eexists. Qed.
Lemma jsItems_length l : (length l <= String.length (Dashboard.jsItems l))%nat.
Proof.
  induction l as [|s [|s2 l] IH]; [done|simpl; lia|]. change (Dashboard.jsItems (s :: s2 :: l)) with (Dashboard.jsQuote s +:+ "," +:+ Dashboard.jsItems (s2 :: l)).
  rw !length_app_string. cbn [length] in *. simpl (String.length ","). lia.
Qed.
Lemma readValue_jsList fuel d l rest : l <> [] -> Forall utf8 l -> (length l < fuel)%nat -> readValue (S fuel) (S d) (Dashboard.jsList l +:+ rest) = Some (JArr (map JStr l), rest).
Proof.
  intros Hne Hl Hf. unfold Dashboard.jsList. rw !app_string_assoc. change ("[" +:+ ?x) with (String "[" x). change ("]" +:+ rest) with (String "]" rest).
  pose proof (readElements_js l fuel d rest Hne Hl Hf) as Hr. destruct (jsItems_head l Hne) as (t & Ht). rw Ht in Hr *. rw app_string_cons in Hr *.
  cbn [readValue]. rw skipWS_cons //. cbv iota. change (byteZ "[" =? 123) with false. change (byteZ "[" =? 91) with true. cbv iota. rw skipWS_cons //. cbv iota.
  change (Ascii.eqb quoteMark "]") with false. cbv iota. by rw Hr.
Qed.
Lemma readMembers_one fuel d key s j rest : utf8 key -> readValue fuel d (s +:+ String "}" rest) = Some (j, String "}" rest) ->
  readMembers (S fuel) d (Dashboard.jsQuote key +:+ ":" +:+ s +:+ String "}" rest) = Some ([(key, j)], rest).
Proof.
  intros Hk Hs. unfold Dashboard.jsQuote. rw app_string_cons app_string_assoc app_string_cons app_string_nil_l. cbn [readMembers]. rw skipWS_cons //. cbv iota.
  change (negb (byteZ quoteMark =? 34)) with false. cbv iota. rw readString_js //. cbn [mbind option_bind]. cbv beta iota. change (":" +:+ ?x) with (String ":" x). rw skipWS_cons //. cbv iota. by rw Hs.
Qed.
Lemma nesting_two : exists d, maxNestingDepth = S (S d).
Proof. exists (Z.to_nat 9998). unfold maxNestingDepth. lia. Qed.
Lemma parse_jsField key s j : utf8 key -> (forall fuel d rest, (2 * String.length s <= fuel)%nat -> readValue fuel (S d) (s +:+ rest) = Some (j, rest)) ->
  parseJson (Dashboard.jsField key s) = Some (JObj [(key, j)]).
Proof.
  intros Hk Hs. unfold parseJson, nextJson. destruct nesting_two as (d & ->).
  assert (Hf : exists f, (2 * String.length (Dashboard.jsField key s) = S f)%nat /\ (2 * String.length s <= f)%nat).
  { assert (String.length s < String.length (Dashboard.jsField key s))%nat by (unfold Dashboard.jsField; rw !length_app_string; simpl; lia).
    exists (2 * String.length (Dashboard.jsField key s) - 1)%nat. lia. }
  destruct Hf as (f & -> & Hf). pose proof (readMembers_one f (S d) key s j "" Hk (Hs f d _ Hf)) as Hm.
  unfold Dashboard.jsField. change ("{" +:+ ?x) with (String "{" x). change ("}") with (String "}" "").
  destruct (Dashboard.jsQuote key +:+ ":" +:+ s +:+ String "}" "") as [|c t] eqn:Hq; [done|]. assert (c = quoteMark) as -> by (by injection Hq).
  remember (S f) as g. cbn [readValue]. rw skipWS_cons //. cbv iota. change (byteZ "{" =? 123) with true. cbv iota. rw skipWS_cons //. cbv iota. change (Ascii.eqb quoteMark "}") with false. cbv iota.
  by rw Hm.
Qed.
Lemma readValue_args l fuel d rest : l <> [] -> Forall utf8 l -> (2 * String.length (Dashboard.jsList l) <= fuel)%nat ->
  readValue fuel (S d) (Dashboard.jsList l +:+ rest) = Some (JArr (map JStr l), rest).
Proof.
  intros Hne Hl Hf. pose proof (jsItems_length l) as Hi. assert (String.length (Dashboard.jsList l) = String.length (Dashboard.jsItems l) + 2)%nat as Hj.
  { unfold Dashboard.jsList. rw !length_app_string. simpl. lia. }
  destruct fuel as [|fuel]; [lia|]. apply readValue_jsList; [done|done|lia].
Qed.
Lemma decode_jsArgs args : args <> [] -> Forall utf8 args -> slen (Dashboard.jsField "args" (Dashboard.jsList args)) <= maxJSONBodyBytes ->
  decodeJSONBody decCommandRequest [] (Dashboard.jsField "args" (Dashboard.jsList args)) = Some args.
Proof.
  intros Hne Hu Hl. unfold decodeJSONBody. destruct (Z.ltb_spec maxJSONBodyBytes (slen (Dashboard.jsField "args" (Dashboard.jsList args)))); [lia|].
  rw (parse_jsField _ _ (JArr (map JStr args))); [done|intros; by apply readValue_args|]. cbn [mbind option_bind]. unfold decCommandRequest, decStruct.
  change (true && _) with false. cbv iota. cbn [getField]. change (names_field ["args"] "args" "args") with true. cbv iota.
  rw decSlice_enc //. by apply Forall_true.
Qed.

(** ** Results *)

(** What the console shows of a reply. *)
Fixpoint shownResult (f : Frame) : Dashboard.CommandResult :=
  match f with
  | SimpleString s => Dashboard.StringResult s
  | Error prefix message => Dashboard.ErrorResult (if String.eqb prefix "" then message else prefix +:+ " " +:+ message)
  | Integer n => Dashboard.IntegerResult (floatOfInt n)
  | BulkString value null => if (null : bool) then Dashboard.NilResult else Dashboard.BulkResult value
  | Array items null => if (null : bool) then Dashboard.NilResult else Dashboard.ArrayResult (map shownResult items)
  end.
Fixpoint frameDepth (f : Frame) : nat :=
  match f with Array items false => S (list_max (map frameDepth items)) | _ => 0%nat end.
Definition jsResult (f : Frame) : Dashboard.JsValue := Dashboard.jsOfJson (resultJson (frameToResult f)).
Lemma jsResult_array items : jsResult (Array items false) = Dashboard.JsObject [("type", Dashboard.JsString "array"); ("value", Dashboard.JsArray (map jsResult items))].
Proof. unfold jsResult. cbn. by rw !map_map. Qed.
Lemma list_max_le_all {A} (f g : A -> nat) l : Forall (fun x => f x <= g x)%nat l -> (list_max (map f l) <= list_max (map g l))%nat.
Proof. induction 1 as [|x l Hx Hl IH]; [done|]. cbn [map list_max foldr] in *. unfold list_max in *. lia. Qed.
Lemma frameDepth_js f : (frameDepth f <= Dashboard.jsDepth (jsResult f))%nat.
Proof.
  induction f as [s|p m|n|v null|items null IH] using Frame_nested_ind; try (simpl; lia). destruct null; [simpl; lia|]. rw jsResult_array.
  pose proof (list_max_le_all frameDepth (fun f => Dashboard.jsDepth (jsResult f)) items IH) as Hm. cbn [frameDepth Dashboard.jsDepth map snd list_max foldr]. rw map_map. unfold list_max in *. lia.
Qed.
Lemma parse_result_fuel f : forall fuel depth source, frame_json depth f -> (frameDepth f < fuel)%nat -> Dashboard.parseCommandResult_fuel fuel (jsResult f) source = inl (shownResult f).
Proof.
  induction f as [s|p m|n|v null|items null IH] using Frame_nested_ind; intros fuel depth source Hf Hd; (destruct fuel as [|fuel]; [lia|]).
  - done.
  - done.
  - unfold jsResult. cbn [frameToResult]. unfold resultJson. cbn [fst snd valueJson]. rw jsOfJson_obj; [apply (bool_decide_unpack _); vm_compute; exact I|].
    cbn [Dashboard.parseCommandResult_fuel]. eapply bind_to; [reflexivity|]. cbv beta. eapply bind_to; [reflexivity|]. cbv beta zeta.
    change (Dashboard.member "value" _) with (js (Some (encInt n))). cbn [String.eqb Ascii.eqb Bool.eqb].
    eapply bind_to; [apply finiteNumber_int; by destruct depth|]. done.
  - by destruct null.
  - destruct null; [done|]. rw jsResult_array. cbn [Dashboard.parseCommandResult_fuel]. eapply bind_to; [reflexivity|]. cbv beta. eapply bind_to; [reflexivity|]. cbv beta zeta.
    cbn [Dashboard.member String.eqb Ascii.eqb Bool.eqb]. eapply bind_to; [reflexivity|]. cbv beta. eapply bind_to; [|reflexivity].
    destruct depth as [|depth]; destruct Hf as [|Hf]; try done. cbn [frameDepth] in Hd. generalize 0%nat. clear -IH Hf Hd.
    induction Hf as [|x l Hx Hl IHl]; intros i; [done|]. apply Forall_cons in IH as [IHx IH]. cbn [map list_max foldr] in Hd. unfold list_max in *. cbn [map Dashboard.mapItems].
    eapply bind_to; [apply (IHx fuel depth); [done|cbn [map foldr] in Hd; lia]|]. cbv beta. eapply bind_to; [apply IHl; [done|cbn [map foldr] in Hd; lia]|]. done.
Qed.

(** ** Typing *)

Fixpoint escape (s : string) : string :=
  match s with
  | "" => ""
  | String c s => if Ascii.eqb c quoteMark || Ascii.eqb c backslash then String backslash (String c (escape s)) else String c (escape s)
  end.
Definition quoted (s : string) : string := String quoteMark (escape s +:+ String quoteMark "").
(** A line in which every argument is quoted. *)
Fixpoint typed (args : list string) : string :=
  match args with [] => "" | [s] => quoted s | s :: args => quoted s +:+ " " +:+ typed args end.

Lemma parseArgs_escaped s rest cur out : parseArgs_from (escape s +:+ String quoteMark rest) (Some quoteMark) cur out = parseArgs_from rest None (cur +:+ s) out.
Proof.
  revert cur. induction s as [|c s IH]; intros cur; cbn [escape]; [by rw app_nil_string|].
  assert (Hc : (cur +:+ String c "") +:+ s = cur +:+ String c s) by (by rw app_string_assoc).
  destruct (Ascii.eqb_spec c quoteMark) as [->|H1]; cbn [orb].
  { rw !app_string_cons. cbn [parseArgs_from]. change (Ascii.eqb backslash quoteMark) with false. change (Ascii.eqb backslash backslash) with true. cbv iota. by rw IH Hc. }
  destruct (Ascii.eqb_spec c backslash) as [->|H2].
  { rw !app_string_cons. cbn [parseArgs_from]. change (Ascii.eqb backslash quoteMark) with false. change (Ascii.eqb backslash backslash) with true. cbv iota. by rw IH Hc. }
  rw app_string_cons. cbn [parseArgs_from]. destruct (Ascii.eqb_spec c quoteMark); [done|]. destruct (Ascii.eqb_spec c backslash); [done|]. by rw IH Hc.
Qed.
Lemma parseArgs_typed_from args out : Forall (fun s => s <> "") args -> parseArgs_from (typed args) None "" out = out ++ args.
Proof.
  intros Hl. revert out. induction Hl as [|s args Hs Hl IH]; intros out; [by rw app_nil_r|].
  assert (Hq : forall rest, parseArgs_from (quoted s +:+ rest) None "" out = parseArgs_from rest None s out).
  { intros rest. unfold quoted. rw app_string_cons app_string_assoc. change (String quoteMark "" +:+ rest) with (String quoteMark rest). cbn [parseArgs_from].
    change (isQuote quoteMark) with true. cbv iota. by rw parseArgs_escaped. }
  assert (Hpush : pushArg s out = out ++ [s]) by (unfold pushArg; by destruct (String.eqb_spec s "")).
  destruct args as [|s2 args].
  - cbn [typed]. rw -(app_nil_string (quoted s)) Hq. exact Hpush.
  - change (typed (s :: s2 :: args)) with (quoted s +:+ " " +:+ typed (s2 :: args)). rw Hq. change (" " +:+ ?x) with (String " " x). cbn [parseArgs_from].
    change (isQuote " ") with false. change (Ascii.eqb " " " " || _) with true. cbv iota. rw Hpush IH. by rw -app_assoc.
Qed.
Lemma parseArgs_typed args : Forall (fun s => s <> "") args -> parseArgs (typed args) = args.
Proof. intros Hl. unfold parseArgs. by rw parseArgs_typed_from. Qed.

Lemma jsSpaceLen_quote x k : jsSpaceLen (x +:+ String quoteMark "") = S k -> (S k <= String.length x)%nat.
Proof.
  assert (Hb : byteZ quoteMark = 34) by done.
  destruct x as [|a [|b [|c x]]]; rewrite -> ?app_string_cons; unfold jsSpaceLen; rewrite -> ?app_string_nil_l, ?Hb; cbv zeta; cbn [String.length]; intros Hk;
    repeat match type of Hk with context [if ?t then _ else _] => destruct t eqn:?; [simplify_eq; try lia|] end; simplify_eq; try lia.
Qed.
Lemma jsTrimStart_quote fuel x : jsTrimStart fuel (x +:+ String quoteMark "") <> "".
Proof.
  revert x. induction fuel as [|fuel IH]; intros x; [by destruct x|]. cbn [jsTrimStart]. destruct (jsSpaceLen _) as [|k] eqn:Hk; [by destruct x|].
  apply jsSpaceLen_quote in Hk. assert (sdrop (S k) (x +:+ String quoteMark "") = sdrop (S k) x +:+ String quoteMark "") as ->; [|apply IH].
  revert Hk. generalize (S k). clear. intros n. revert n. induction x as [|c x IH]; intros [|n] Hn; cbn in *; try done; try lia. apply IH. lia.
Qed.
Lemma jsTrimEnd_quote x : jsTrimEnd (x +:+ String quoteMark "") = x +:+ String quoteMark "".
Proof.
  induction x as [|c x IH]; [done|]. rw app_string_cons. cbn [jsTrimEnd]. pose proof (jsTrimStart_quote (String.length (String c (x +:+ String quoteMark ""))) (String c x)) as Hne.
  rw app_string_cons in Hne. destruct (String.eqb_spec (jsTrimStart (String.length (String c (x +:+ String quoteMark ""))) (String c (x +:+ String quoteMark ""))) ""); [done|]. by rw IH.
Qed.
Lemma typed_ends args : args <> [] -> exists x, typed args = String quoteMark (x +:+ String quoteMark "").
Proof.
  induction args as [|s [|s2 args] IH]; [done|by exists (escape s)|]. intros _. destruct IH as (x & Hx); [done|].
  exists (escape s +:+ String quoteMark (String " " (String quoteMark x))). change (typed (s :: s2 :: args)) with (quoted s +:+ " " +:+ typed (s2 :: args)). rw Hx. unfold quoted.
  rw !app_string_cons !app_string_assoc. by rw !app_string_cons.
Qed.
Lemma jsTrim_typed args : args <> [] -> jsTrim (typed args) = typed args.
Proof.
  intros Hne. destruct (typed_ends args Hne) as (x & ->). unfold jsTrim. assert (jsTrimStart (String.length (String quoteMark (x +:+ String quoteMark ""))) (String quoteMark (x +:+ String quoteMark "")) = String quoteMark (x +:+ String quoteMark "")) as -> by (by destruct x as [|b [|c x]]).
  rw -app_string_cons. apply jsTrimEnd_quote.
Qed.

(** ** The console *)

(** A standalone node behind its API; [None] is a node that has panicked.  The
    dashboard's paths are clean, so that they are not redirected, and streams of
    events are not read by this transport. *)
Definition standaloneAPI `{Env, SliceSort, UnicodeCase, Stopwatch} {W} (cfg : Engine.Config W) (api : APIConfig) (snapshots : option (Snapshotter (Standalone W)))
    : HTTPTransport (option (Standalone W)) := fun _ req node =>
  match node with
  | None => (inr "Failed to fetch", None)
  | Some s =>
      match Handler cfg api snapshots req s with
      | Some (Responded response, s) => (inl response, Some s)
      | Some (Redirected _, s) | Some (Streaming, s) => (inr "Failed to fetch", Some s)
      | None => (inr "Failed to fetch", None)
      end
  end.
Section console.
Context `{Env, SliceSort, UnicodeCase, Stopwatch} {W : Type} (cfg : Engine.Config W) (api : APIConfig) (snapshots : option (Snapshotter (Standalone W))) (base : string).

Lemma runCommand_standalone name rest s f s' : JsonCodec.plain name = true -> Forall utf8 (name :: rest) ->
  slen (Dashboard.jsField "args" (Dashboard.jsList (name :: rest))) <= maxJSONBodyBytes ->
  meteredExecute cfg (requestCommand (name :: rest)) s = Some (f, s') -> frame_json 40 f ->
  Dashboard.runCommand (H := standaloneAPI cfg api snapshots) base (name :: rest) (Some s) = (inl (shownResult f), Some s').
Proof.
  intros Hp Hu Hl Hx Hf. unfold Dashboard.runCommand, Dashboard.postJSON, roundTrip, standaloneAPI, Handler. cbn [Method URLPath]. change (String.eqb "POST" "OPTIONS") with false. change (String.eqb "/commands" "*") with false. change (cleanPath "/commands") with "/commands". change (registerRoutes "/commands") with (Some RCommands). rw String.eqb_refl andb_false_r. cbn [serveRoute].
  unfold handleCommands, requireMethod. cbn [Method Body]. change (String.eqb "POST" "POST") with true. cbv iota.
  rw decode_jsArgs //. cbv iota. assert (apiCommand (name :: rest) = requestCommand (name :: rest)) as -> by (cbn; by rw ToUpper_plain).
  unfold executeCommand, apiExecutor. rw Hx. cbn [mbind option_bind]. cbv iota beta. change (Dashboard.okStatus (writeJSON 200 ?j)) with true. cbv iota. f_equal.
  unfold resultJson. rw (parsedBody_json _ 81); [by apply (faithful_frame f 40)|lia|].
  assert (Dashboard.parseCommandResult (jsResult f) "/commands" = inl (shownResult f)) as Hr; [|unfold jsResult, resultJson in Hr; by rw Hr].
  unfold Dashboard.parseCommandResult. eapply parse_result_fuel; [exact Hf|]. pose proof (frameDepth_js f). lia.
Qed.

Lemma replaceLast_snoc {A} (l : list A) a b : replaceLast (l ++ [a]) b = l ++ [b].
Proof. unfold replaceLast. rw length_app. cbn [length]. replace (length l + 1 - 1)%nat with (length l + 0)%nat by lia. by rw insert_app_r. Qed.
Lemma trimEntries_snoc {A} (l : list A) : exists k, forall a : A, trimEntries (l ++ [a]) = k ++ [a].
Proof.
  exists (if (200 <? length l + 1)%nat then drop (length l + 1 - 200) l else l). intros a. unfold trimEntries. rw length_app. cbn [length].
  destruct (200 <? length l + 1)%nat eqn:Hn; [|done]. by rw drop_app_le; [lia|].
Qed.
Lemma replaceLast_trim {A} (l : list A) a b : replaceLast (trimEntries (l ++ [a])) b = trimEntries (l ++ [b]).
Proof. destruct (trimEntries_snoc l) as (k & Hk). by rw !Hk replaceLast_snoc. Qed.

(** C33: a line of quoted arguments that is submitted in the
    console of the dashboard is executed by the node as the command that a
    connection sends with these arguments, and the console shows the reply,
    integers rounded to binary64, in place of the pending entry and takes input
    again.  The arguments are not empty and are valid UTF-8, with any other
    characters, quotes and backslashes included; the first one, the name of the
    command, is ASCII; the request has at most 1 MB; and the reply has valid UTF-8
    texts and is nested at most 40 deep. *)
Theorem console_command name rest s f s' (c : Console) :
  JsonCodec.plain name = true -> Forall (fun a => a <> "") (name :: rest) -> Forall utf8 (name :: rest) ->
  slen (Dashboard.jsField "args" (Dashboard.jsList (name :: rest))) <= maxJSONBodyBytes ->
  meteredExecute cfg (requestCommand (name :: rest)) s = Some (f, s') -> frame_json 40 f ->
  coInput c = typed (name :: rest) -> coBusy c = false ->
  exists sent, submit c = (Some (name :: rest), sent) /\ coBusy sent = true /\ coInput sent = "" /\
    let '(answer, node) := Dashboard.runCommand (H := standaloneAPI cfg api snapshots) base (name :: rest) (Some s) in
    let shown := settle (typed (name :: rest)) answer sent in
    node = Some s' /\ coBusy shown = false /\ coEntries shown = trimEntries (coEntries c ++ [(typed (name :: rest), Answered (shownResult f))]) /\
    arrowUp shown = mkConsole (typed (name :: rest)) (coEntries shown) false (coItems shown) 0.
Proof.
  intros Hp Hne Hu Hl Hx Hf Hin Hb. rw (runCommand_standalone _ _ _ _ _ Hp Hu Hl Hx Hf). unfold submit. rw Hin jsTrim_typed // Hb parseArgs_typed // orb_false_r.
  destruct (typed_ends (name :: rest)) as (x & Ht); [done|]. assert (String.eqb (typed (name :: rest)) "" = false) as -> by (by rw Ht). cbv iota.
  eexists. split; [reflexivity|]. split; [done|]. split; [done|]. unfold settle. cbn [coInput coEntries coBusy coItems coIndex].
  split; [done|]. split; [done|]. split; [apply replaceLast_trim|]. unfold arrowUp. cbn [coItems coIndex coEntries coBusy]. cbn [take MAX_HISTORY].
  change (length (?a :: ?l) =? 0)%nat with false. cbv iota. cbn [length]. f_equal.
  - assert (Z.to_nat (Z.min (-1 + 1) (Z.of_nat (S (length (take 49 (List.filter (fun x0 => negb (String.eqb x0 (typed (name :: rest)))) (coItems c))))) - 1)) = 0%nat) as -> by lia. done.
  - lia.
Qed.
End console.
Lemma console_command_witness :
  exists f s' sent, submit (mkConsole (typed ["INCR"; "a b"]) [] false [] (-1)) = (Some ["INCR"; "a b"], sent) /\ coBusy sent = true /\ coInput sent = "" /\
    let '(answer, node) := Dashboard.runCommand (H := standaloneAPI (H := steadyEnv) (H1 := asciiCase) (H2 := instant) smallConfig smallAPI None) "http://n" ["INCR"; "a b"] (Some smallNode) in
    let shown := settle (typed ["INCR"; "a b"]) answer sent in
    node = Some s' /\ coBusy shown = false /\ coEntries shown = trimEntries ([] ++ [(typed ["INCR"; "a b"], Answered (shownResult f))]) /\
    arrowUp shown = mkConsole (typed ["INCR"; "a b"]) (coEntries shown) false (coItems shown) 0.
Proof.
  destruct (meteredExecute (H := steadyEnv) (H1 := asciiCase) (H2 := instant) smallConfig (requestCommand ["INCR"; "a b"]) smallNode) as [[f s']|] eqn:Hx;
    [|vm_compute in Hx; discriminate Hx].
  exists f, s'. assert (f = Integer 1) as -> by (vm_compute in Hx; by injection Hx as <- _).
  apply (console_command (H := steadyEnv) (H1 := asciiCase) (H2 := instant) smallConfig smallAPI None "http://n" "INCR" ["a b"] smallNode (Integer 1) s' (mkConsole (typed ["INCR"; "a b"]) [] false [] (-1)));
    [reflexivity|by repeat constructor|by repeat constructor|by vm_compute|exact Hx|by vm_compute|reflexivity|reflexivity].
Defined.

(** An argument that is quoted but empty is dropped: the command that is sent has
    no value. *)
Theorem console_drops_empty : parseArgs (typed ["SET"; "k"; ""]) = ["SET"; "k"].
Proof. reflexivity. Qed.
(** The reply to a command that counts beyond 2^53 is shown rounded. *)
Theorem console_rounds : exists n, shownResult (Integer 9007199254740993) = Dashboard.IntegerResult n /\ floatInt n = Some 9007199254740992.
Proof. eexists. split; [reflexivity|]. vm_compute. reflexivity. Qed.
